(* ===== verification/_CoqProject ===== *)
-Q . S2P
Prelude.v
Mem.v
PutGet.v
Ext.v
Headers.v
Ints.v
Atom.v
Data.v
Ids.v
Big.v
Term.v
Skip.v
XBuff.v
MD5.v
MD5Ok.v
EiCorrect.v
Format.v
FormatOk.v
Print.v
PrintOk.v
TextCorrect.v
Eterm.v
Marshal.v
MarshalOk.v
MarshalLen.v
MarshalRead.v
EtermOk.v
LegacyCorrect.v
Refc.v
RefcOk.v
RefcTerm.v
RefcCorrect.v
Match.v
MatchTerm.v
MatchHeap.v
MatchOk.v
MatchCorrect.v
Proc.v
Session.v
PortIO.v
Epmd.v
Connect.v
ConnectOk.v
ConnectSafe.v
Message.v
MessageOk.v
NetCorrect.v
Enif.v
Ber.v
BerOk.v
BerWrite.v
Per.v
PerOk.v
PerRun.v
AsnCorrect.v
Prime.v
Hash.v
HashOk.v
Reg.v
RegOk.v
RegCorrect.v
EFormat.v
EFormatOk.v
EFormatCorrect.v
Peek.v
Compare.v
CompareOk.v
EPrint.v
Backup.v
Restore.v
BackupOk.v
DumpOk.v
RestoreOk.v
BackupCorrect.v
