(* ===== verification/Prelude.v ===== *)
(** * The ei library of erl_interface and the ASN.1 NIF: a verification development

    The repository is a Nitrogen web server released with its Erlang/OTP run
    time. Its C core is src/lib/erl_interface-3.10.1/src (below: the root of the
    C paths), the library ei by which C programs talk to Erlang nodes: it writes
    and reads terms in Erlang's external format, keeps a growing buffer for
    them, builds them from a text and prints them, and has a registry of named
    values on top of a hash table. Beside it is the NIF of the asn1 application
    (src/lib/asn1-5.0.4/c_src/asn1_erl_nif.c), which Erlang code calls to code
    and decode BER and to finish PER. This development models these parts
    function by function and proves them correct; where the code is not
    correct, a theorem shows what it does.

    ** How the program fits together

    A message is a version byte and one term. A C program writes it with the
    ei_encode_* functions (encode/) into an array, or with ei_x_encode_*
    (misc/ei_x_encode.c) into an ei_x_buff that grows: each of these calls
    its encoder first with a NULL buffer, to learn the size, makes room
    ([x_fix_buff]), and calls it again. ei_x_format (misc/ei_format.c) scans a text
    such as {ok,[1,~s]} and calls the ei_x_encode_* functions for what it
    finds. The reader calls ei_get_type and the ei_decode_* functions (decode/), or
    passes over a term it does not want with ei_skip_term, which calls the
    decoders with NULL out pointers and, through ei_decode_fun, itself;
    ei_print_term (misc/ei_printterm.c) decodes a term and writes its text to
    a file or to a string. All of them share an index that each call moves over
    the bytes of its term. The registry (registry/reg_*.c) stores inodes
    (ei_reg_obj) in a hash table (registry/hash_*.c), whose size is kept prime
    (registry/hash_isprime.c); deleted inodes stay in the table, marked, until
    a purge moves them to a freelist; ei_reg_dump and ei_reg_restore bring it to
    a table of Mnesia on another node and back, over a connection (connect/).
    ei_MD5Init, ei_MD5Update and ei_MD5Final (misc/eimd5.c) are the digest of the
    cookies of a connection.

    A node finds another by asking its port mapper for the port (epmd/) and
    connects (connect/ei_connect.c): the two exchange their names, a challenge each
    and the MD5 of cookie and challenge; then the descriptor stands for the other
    node in a table. A message is a length, a control tuple and a payload: the
    senders (connect/send*.c) encode the control tuple and write both,
    [ei_recv_internal] (connect/eirecv.c) takes them apart; ei_rpc
    (connect/ei_connect.c) sends a request to the other node and waits for the
    answer. All reads and writes go through misc/ei_portio.c, which repeats them
    until all bytes have crossed or a timeout has passed.

    The older interface (legacy/) has terms as trees of cells, [ETERM]: a program
    makes them with erl_mk_* (legacy/erl_eterm.c), and erl_encode and erl_decode
    (legacy/erl_marshal.c) turn them into the same bytes and back; names go
    through the atom functions of ei. ei_x_encode_term and ei_decode_term put such
    terms into the buffers of ei. The cells of terms are counted: erl_cons,
    erl_mk_tuple and the like count a reference, erl_free_term
    (legacy/erl_malloc.c) takes one away and frees what has none, into the
    freelist of legacy/erl_fix_alloc.c. erl_match (legacy/erl_format.c) compares a
    pattern, a term with variables, with a term, stores copies of subterms in the
    variables, and takes them back when the match fails; erl_format (in the same
    file) makes terms and patterns from a text, and erl_print_term
    (legacy/erl_eterm.c) prints a term. erl_peek_ext and erl_compare_ext
    (legacy/erl_marshal.c) look for an element of a term, and compare two terms,
    as bytes.

    The ASN.1 NIF does not use ei. It has three entry points:
    decode_ber_tlv_raw makes of a binary the term of tags and values of its
    first TLV, encode_ber_tlv makes the bytes of such a term back to front in a
    chain of chunks, and encode_per_complete runs a list of commands (put these
    bits, align, put these octets) over a buffer that it grows.

    ** The files

    - Prelude: machine integers, bit lemmas, the two monads.
    - Mem: a block of memory, pointers into it, load, store and memcpy.
    - PutGet: misc/putget.h.
    - Ext: the tags and structs of include/ei.h; the contracts [Encodes],
      [Refuses] and [Decodes] as classes, one instance for each pair of
      functions.
    - Headers, Ints, Atom, Data, Ids, Big: encode/*.c and decode/*.c by kind of
      term, each with its wire format ([ext_...]), its operations and the
      instances of the contracts.
    - Term: encode_fun.c, decode_fun.c, misc/get_type.c, decode_skip.c,
      misc/ei_decode_term.c.
    - Skip: the grammar [etf] of the external format, and that skipping
      follows it.
    - XBuff: misc/ei_x_encode.c, with its invariant [x_ok].
    - MD5: misc/eimd5.c. MD5Ok: the digest of RFC 1321 on a whole message, and
      what the context holds between two calls.
    - EiCorrect: the properties of all these.
    - Format: misc/ei_format.c. FormatOk: the grammar [form] of the texts that
      are understood, and the bytes each appends.
    - Print: misc/ei_printterm.c. PrintOk: the terms [eterm], their bytes, their
      text, and that printing the bytes gives the text.
    - TextCorrect: the properties of both, and their corner cases.
    - Eterm: legacy/erl_eterm.c and the types of include/erl_interface.h.
      Marshal: legacy/erl_marshal.c, encode_term.c, decode_term.c. MarshalOk: the
      bytes [ext_eterm] of a term, the terms [eterm_ok] that have them, and the
      encoder. MarshalLen: the lengths of erl_term_len, and that the bytes are in
      [etf]. MarshalRead: the decoder on these bytes. EtermOk: I/O lists and
      copies. LegacyCorrect: the properties.
    - Refc: legacy/erl_malloc.c, erl_fix_alloc.c and the functions of erl_eterm.c
      that handle cells, over a heap of blocks; [call], a program that uses them.
      RefcOk: the invariant [Inv] (each count is the number of references), and
      freeing. RefcTerm: the term [den] that a cell denotes, the meaning
      [spec_call] of a call, and that [Holds] is kept. RefcCorrect: the
      properties.
    - Match: erl_match of legacy/erl_format.c and what it calls, on the heap of
      Refc. MatchTerm: instances [inst] of a pattern, the patterns [pat_ok] that
      are compared rightly, and single cells. MatchHeap: copies as new cells
      [trees], and variables bound and unbound. MatchOk: what holds during a match
      [MI], and every call. MatchCorrect: the properties.
    - EFormat: erl_format of legacy/erl_format.c, on the same heap. EFormatOk: the
      texts it takes, as a grammar [etext], and the scanner on each of them.
      EFormatCorrect: the properties. EPrint: erl_print_term of
      legacy/erl_eterm.c, and that its texts are in [etext].
    - Peek: erl_peek_ext of legacy/erl_marshal.c, and the forms [jext] that are
      passed. Compare: erl_compare_ext, as a reader of two blocks; doubles are those
      of the Standard Library's SpecFloat. CompareOk: the order [vcmp] of terms, and
      that the bytes are compared by it.
    - Backup: registry/reg_dump.c. Restore: registry/reg_restore.c, with the blocks
      that ei_decode_string and ei_decode_binary store into. BackupOk: the bytes of
      the messages and what is read from them. DumpOk: the script [dump_script] of
      the conversation, each part of it over a link. RestoreOk: what the records
      make of a registry. BackupCorrect: the properties; of mnesia_registry.erl,
      what the table has and the sizes it announces.
    - Proc: processes, trees of calls of the system, with [wp] and [wlp], their
      weakest preconditions against an environment; the global variables. Session:
      environments: [link] of a process whose peer follows a script, the two
      channels of [net_ends], on which at any step a timeout may elapse or a call
      fail, [anyone] of a process whose peer may do anything.
    - PortIO: misc/ei_portio.c. Epmd: epmd/*.c. Connect: connect/ei_connect.c.
      Message: connect/send*.c, connect/eirecv.c, ei_rpc, misc/ei_trace.c.
    - ConnectOk, MessageOk: the bytes of the handshake and of the messages, and
      each function over a link. ConnectSafe: each function with any peer.
      NetCorrect: the properties.
    - Enif: the Erlang terms and binaries that a NIF sees. Ber: the BER half of
      asn1_erl_nif.c. BerOk: X.690 as a relation, and the decoder. BerWrite: the
      octets of a term, and the encoder. Per: the PER half. PerOk: bits of a
      buffer, and each command. PerRun: a whole list of commands. AsnCorrect: the
      properties.
    - Prime, Hash: registry/hash_*.c. HashOk: the invariant [hash_ok], the
      abstraction [to_map] to a finite map, and the operations as operations
      of that map.
    - Reg: registry/reg_*.c. RegOk: the invariant [reg_ok], the abstractions
      [view] (the inode of a name) and [live] (what a user can get).
    - RegCorrect: the properties of the registry, the table and the primes.

    ** Conventions

    The model is of the library as built on a 64-bit Unix system: int has 32
    bits, long 64 (EI_64BIT), isfinite exists; the functions that only a build
    with 32-bit longs compiles have the suffix [_32]. A byte is a [Z] in 0..255
    whether the C type is char or unsigned char; where the sign of char
    matters (ei_dohash, the character classes of ei_format.c, the characters that
    ei_printterm.c prints) it is written out. The character classes are those of
    the C locale. Integers are [Z], with every
    conversion and every wrap-around that the code relies on written with
    [int32], [uint32], [int64], [uint64]; the sum that moves an index wraps
    ([index_add]), and the theorems ask that the term ends within INT_MAX. Where a
    message can make a sum of ints overflow (the index of the BER decoder, the
    pointer sums of erl_peek_ext, the length of an I/O list, the counts of printed
    characters) the sum is undefined beyond the range of int ([int_sum],
    [int_opt]); the sizes of the NIF's chunks are not cut to 32 bits: the theorems
    of the encoder are of fewer than 2^28 octets. A
    double is the 64-bit word of its bits.

    A function that writes has type [ptr -> Z -> M (Z * Z)]: it takes the buffer
    and the index, runs on the contents of a block, and gives the return
    value, the new index and the new contents. A function that reads has type
    [D]: contents in, result out. In both, and in every other function of the
    model, [None] is undefined behaviour (an access outside the block or through
    NULL, a read of a member of the union that was not stored, an int product
    that overflows) or lack of fuel; so a theorem that says [f ... = Some ...]
    also says that there is none of these. [cres] is the result of a decoder: [Fail]
    is -1 with the index where it was, [Done] is 0 with the new index and
    what was stored through the out pointer. What a decoder that returns -1 may
    have stored before is not modelled, but in ei_decode_boolean and
    ei_decode_intlist, and ei_decode_ei_term, which return it.

    A function that calls the system (connect/, epmd/, misc/ei_portio.c) is a
    process: a value whose nodes are the calls, with a child for every answer. The
    environment says which answers there can be; [Undef] is undefined behaviour.
    [wp] of such a process says that it comes to its end, whatever the
    answers. The global variables of the connections and of the trace level are
    calls as well. The level of ei_tracelevel is taken to be below 4 (no message is
    shown), and writev to exist (HAVE_WRITEV).

    Code outside the repository is a parameter: malloc (which block a size
    gets, or that there is none), sscanf and printf of the text form of a float.
    What the system does with sockets is in the environments, from the documented
    behaviour of read, write, writev, select and accept.

    The registry's inodes are in a heap by address, because the table, the
    freelist and the calls share them; a bucket is a value, since each is in
    one chain only. The freelist of the table is a list of buckets.

    ** Fuel

    - [ei_skip_term]: the depth of calls; the number of bytes of the term is
      enough (EiCorrect.skip_term_exact). No fuel is enough for some bad
      messages (EiCorrect.skip_term_diverges).
    - [ei_x_format]: the depth of calls of eiformat; one more than the length
      of the text. [print_term]: the number of bytes of the term.
    - [ber_decode]: the length of the input, whatever the input
      (AsnCorrect.ber_decode_total). [per_loop]: one more than the number of
      octets of commands.
    - [put_digits], [skip_digits]: nine rounds, for the eight bytes of a long
      long.
    - [factor_loop]: 46340 rounds ([enough]), for the divisors whose square is
      an int.
    - [next_prime]: half the distance to [largest_size], a prime below which
      the search for the next prime never overflows.
    - [factor_calls]: 31, an int has no more prime factors.
    - The loops that fill a buffer or write one: one more than the number of
      bytes, since each round moves at least one byte. [flush_rest]: the bytes that
      are left of the message. The wait of ei_rpc: one round for each tick of the
      other node, which the theorems count.
    - [erl_decode_it]: the depth of calls; the number of bytes of the term.
      [free_term]: one call for each cell, and two. [erl_eterm_release]: one round
      for each block. [ematch]: the depth of calls; of the term and of a value.
      [erl_format]: the length of the text and one; for freeing, as above.
      [jump] and [peek_ext]: the number of bytes of the elements, and two.
      [compare_top_ext]: the depth of calls; twice the number of bytes.
    - [recv_message]: the ticks that are answered before a message. [start_wait]:
      two messages, the link and the reply.

    ** What the theorems show

    - Skipping (EiCorrect.skip_term_exact): exact on every term of the grammar;
      skip_term_diverges is the message on which it never returns.
    - Connections (NetCorrect): unless a timeout elapses or a call of the system
      fails, two nodes complete the handshake (handshake_completes) and a message
      that is sent is received (message_arrives), in any order of steps; and with any peer at all a connection is only made over
      the whole handshake with the digests of the cookie (accept_authentic,
      connect_authentic); epmd_port_found is the look-up. What goes wrong:
      second_connection_is_lost, short_name_is_undefined.
    - The NIF (AsnCorrect): the BER decoder is total on binaries of fewer than 2^31 - 3
      bytes (ber_decode_total) and right
      on all of X.690 with tags below 16384; below that tag the
      encoder makes the distinguished octets, which are read back; PER makes
      exactly the bits of well-formed commands.
    - Round trips (EiCorrect, the theorems *_round_trip): each decoder reads
      what its encoder wrote, in both passes of both, with the exact index; the
      32- and 64-bit decoders take the values they can hold and refuse the others;
      texts that are not framed as UTF-8, infinities and NaNs are refused
      (overlong forms and surrogates are not: ill_formed_accepted).
    - The growing buffer (x_encode_appends, message_is_read), the digest
      (md5_of_pieces), ei_get_type, ei_term (ei_term_index).
    - Texts (TextCorrect): what a text is scanned to, what a term is printed as,
      and that these are inverse on plain terms.
    - Legacy terms (LegacyCorrect): what erl_encode writes is read back by
      erl_decode (legacy_round_trip) and skipped by ei (legacy_bytes_skipped);
      erl_iolist_* flatten I/O lists of at most INT_MAX bytes and refuse everything
      else; copies are sent
      as the same bytes. Where erl_term_len is too short: erl_term_len_short.
    - Cells (RefcCorrect): any program that makes, shares, takes apart and gives
      back terms finds in its variables what the calls mean on terms
      (program_keeps_terms), each count is the number of references
      (program_counts_references), and nothing leaks (program_leaves_nothing); funs
      leak (fun_parts_leak), and counts wrap (count_wraps).
    - Matches (MatchCorrect): on the patterns and terms of [pat_ok] erl_match
      succeeds exactly when the term is an instance of the pattern, and leaves nothing when it fails (match_decides);
      then erl_var_content finds the values (match_binds). Where the second
      variable of a name keeps its value: stale_variable.
    - Format strings (EFormatCorrect): erl_format makes the term of the text, and
      nothing else is left (format_builds); a pattern made so is matched as its
      text says (format_match). Where a refused text leaks: refused_leaks. What
      erl_print_term prints of a plain term is read back (erl_print_format).
    - Encoded terms: erl_compare_ext is the order of terms
      (CompareOk.compare_is_order), where no list is inside another term
      (behind_a_list) and no string is empty (empty_string_above_nil); erl_peek_ext finds the element (Peek.peek_finds_element),
      where no atom is in front of it (atom_not_passed).
    - Backup (BackupCorrect): a dump sends the changed objects and no others,
      commits and comes to its end (dump_sends_changes); a forced dump and a restore
      give back the registry, strings and binaries included (backup_round_trip).
      Where the code overruns its arrays or loses a record: long_tag_is_undefined,
      long_key_is_undefined, restore_loses_record.
    - The registry (RegCorrect): every operation keeps [reg_ok] and does to
      [view] and [live] what its name says; nothing is freed twice. The hash
      table is a finite map, its size an odd prime.

    ** Not modelled

    the GMP functions, ei_free_big, ei_hash_stats
    and the functions that print the table (output);
    of connect/: ei_connect_init, ei_connect_xinit, ei_connect_tmo (host names and
    the file of the cookie), misc/ei_resolve.c, misc/show_msg.c (output of trace
    levels of 4 and more); ei_locking.c, ei_pthreads.c, ei_malloc.c (wrappers);
    the variants for VxWorks and Windows. prog/ (a command-line program).
    Of legacy/: the calls around connections (erl_connect.c, global_*.c, erl_error.c,
    erl_timeout.c, erl_resolve.c). In Eterm and Marshal a term is the tree that a
    pointer denotes; erl_malloc ends the program when there is no memory.
    src/lib/erl_interface-3.10.1/erl_interface-3.10.1 is a copy of the library. The
    rest of the repository is Erlang, JavaScript, assets, generated scanners and
    ports of other applications. *)

From stdpp Require Export base list numbers option.
From Stdlib Require Export ZArith Lia.

#[global] Open Scope Z_scope.

(** ** Machine integers

    A C integer of width [w] is a [Z]; a conversion to an unsigned or to a
    signed type of that width is written out. *)

Definition uwrap (w z : Z) : Z := z mod 2 ^ w.
Definition swrap (w z : Z) : Z := (z + 2 ^ (w - 1)) mod 2 ^ w - 2 ^ (w - 1).

Definition byte (z : Z) : Z := Z.land z 255.
Definition uint32 (z : Z) : Z := uwrap 32 z.
Definition int32 (z : Z) : Z := swrap 32 z.
Definition uint64 (z : Z) : Z := uwrap 64 z.
Definition int64 (z : Z) : Z := swrap 64 z.

Definition int_max : Z := 2147483647.

Definition is_byte (z : Z) : Prop := 0 <= z < 256.
Definition is_int32 (z : Z) : Prop := - 2147483648 <= z <= 2147483647.
Definition is_uint32 (z : Z) : Prop := 0 <= z < 4294967296.
Definition is_int64 (z : Z) : Prop :=
  - 9223372036854775808 <= z <= 9223372036854775807.
Definition is_uint64 (z : Z) : Prop := 0 <= z < 18446744073709551616.

Lemma uwrap_small (w z : Z) : 0 <= z < 2 ^ w -> uwrap w z = z.
Proof. intros. apply Z.mod_small. lia. Qed.

Lemma swrap_small (w z : Z) :
  0 < w -> - 2 ^ (w - 1) <= z < 2 ^ (w - 1) -> swrap w z = z.
Proof.
  intros Hw Hz. unfold swrap.
  replace (2 ^ w) with (2 * 2 ^ (w - 1))
    by (rewrite <- Z.pow_succ_r by lia; f_equal; lia).
  rewrite Z.mod_small; lia.
Qed.

Lemma swrap_range (w z : Z) : 0 < w -> - 2 ^ (w - 1) <= swrap w z < 2 ^ (w - 1).
Proof.
  intros Hw. unfold swrap.
  assert (H : 2 ^ w = 2 * 2 ^ (w - 1))
    by (rewrite <- Z.pow_succ_r by lia; f_equal; lia).
  pose proof (Z.mod_pos_bound (z + 2 ^ (w - 1)) (2 ^ w)). lia.
Qed.

Lemma swrap_mod (w z : Z) : 0 < w -> swrap w (z mod 2 ^ w) = swrap w z.
Proof.
  intros Hw. unfold swrap. f_equal. apply Z.add_mod_idemp_l. lia.
Qed.

Lemma int32_small z : is_int32 z -> int32 z = z.
Proof. intros. apply swrap_small; unfold is_int32 in *; simpl; lia. Qed.
Lemma int32_range z : is_int32 (int32 z).
Proof. pose proof (swrap_range 32 z). unfold is_int32, int32. simpl in *. lia. Qed.
Lemma int64_small z : is_int64 z -> int64 z = z.
Proof. intros. apply swrap_small; unfold is_int64 in *; simpl; lia. Qed.
Lemma int64_range z : is_int64 (int64 z).
Proof. pose proof (swrap_range 64 z). unfold is_int64, int64. simpl in *. lia. Qed.
Lemma uint32_small z : is_uint32 z -> uint32 z = z.
Proof. intros. apply uwrap_small; unfold is_uint32 in *; simpl; lia. Qed.
Lemma uint32_range z : is_uint32 (uint32 z).
Proof. apply Z.mod_pos_bound. lia. Qed.
Lemma uint64_small z : is_uint64 z -> uint64 z = z.
Proof. intros. apply uwrap_small; unfold is_uint64 in *; simpl; lia. Qed.
Lemma uint64_range z : is_uint64 (uint64 z).
Proof. apply Z.mod_pos_bound. lia. Qed.

Lemma uint32_int32 c : is_uint32 c -> uint32 (int32 c) = c.
Proof.
  intros Hc. unfold uint32, uwrap, int32, swrap. unfold is_uint32 in Hc.
  rewrite Zminus_mod_idemp_l.
  replace (c + 2 ^ (32 - 1) - 2 ^ (32 - 1)) with c by lia. by apply Z.mod_small.
Qed.

Lemma byte_mod z : byte z = z mod 256.
Proof. unfold byte. change 255 with (Z.ones 8). rewrite Z.land_ones; [done | lia]. Qed.
Lemma byte_range z : is_byte (byte z).
Proof. rewrite byte_mod. unfold is_byte. apply Z.mod_pos_bound. lia. Qed.
Lemma byte_small z : is_byte z -> byte z = z.
Proof. intros. rewrite byte_mod. apply Z.mod_small. done. Qed.

Create HintDb cint.
Create Rewrite HintDb cint.
#[export] Hint Resolve byte_range int32_range int64_range uint32_range
  uint64_range : cint.
#[export] Hint Rewrite byte_small int32_small int64_small uint32_small
  uint64_small using (unfold is_byte, is_int32, is_int64, is_uint32, is_uint64 in *; lia) : cint.

(** A boolean property of all bytes is checked by computation. *)
Lemma byte_forall (f : Z -> bool) :
  forallb f (seqZ 0 256) = true -> forall c, is_byte c -> f c = true.
Proof.
  intros Hf c Hc. rewrite forallb_forall in Hf. apply Hf.
  apply list_elem_of_In, elem_of_seqZ. unfold is_byte in Hc. lia.
Qed.

(** ** Disjoint or is addition *)

Lemma lor_disjoint (k a b : Z) :
  0 <= k -> 0 <= b < 2 ^ k -> Z.lor (Z.shiftl a k) b = a * 2 ^ k + b.
Proof.
  intros Hk Hb. rewrite <- Z.shiftl_mul_pow2 by done.
  assert (Hl : Z.land (Z.shiftl a k) b = 0).
  { apply Z.bits_inj'. intros n Hn. rewrite Z.land_spec, Z.bits_0.
    destruct (decide (n < k)).
    - by rewrite Z.shiftl_spec_low.
    - rewrite <- (Z.mod_small b (2 ^ k)) by done.
      rewrite Z.mod_pow2_bits_high by lia. by rewrite andb_false_r. }
  by rewrite Z.add_nocarry_lxor, Z.lxor_lor.
Qed.

Lemma lor_add (k a b : Z) :
  0 <= k -> a mod 2 ^ k = 0 -> 0 <= b < 2 ^ k -> Z.lor a b = a + b.
Proof.
  intros Hk Ha Hb.
  assert (Hs : a = Z.shiftl (a / 2 ^ k) k).
  { rewrite Z.shiftl_mul_pow2 by done. pose proof (Z.div_mod a (2 ^ k)). lia. }
  rewrite Hs at 1. rewrite lor_disjoint by done.
  rewrite Hs at 2. by rewrite Z.shiftl_mul_pow2.
Qed.

Ltac dlia := Z.div_mod_to_equations; lia.

(** ** Lengths as integers *)

Abbreviation len l := (Z.of_nat (length l)).

Lemma len_app {A} (l k : list A) : len (l ++ k) = len l + len k.
Proof. rewrite length_app. lia. Qed.
Lemma len_cons {A} (x : A) l : len (x :: l) = 1 + len l.
Proof. simpl. lia. Qed.

(** ** Little-endian digits in base 256 *)

Fixpoint le_bytes (k : nat) (n : Z) : list Z :=
  match k with O => [] | S k => byte n :: le_bytes k (n / 256) end.

Fixpoint le_val (bs : list Z) : Z :=
  match bs with [] => 0 | b :: bs => b + 256 * le_val bs end.

Lemma length_le_bytes k n : length (le_bytes k n) = k.
Proof. revert n. induction k as [| k IH]; intros n; simpl; [done |]. by rewrite IH. Qed.

Lemma le_bytes_byte k n : Forall is_byte (le_bytes k n).
Proof. revert n. induction k; intros n; simpl; constructor; auto with cint. Qed.

Lemma pow256_succ k : 256 ^ Z.of_nat (S k) = 256 * 256 ^ Z.of_nat k.
Proof. rewrite Nat2Z.inj_succ, Z.pow_succ_r by lia. done. Qed.

Lemma pow256_pos k : 0 < 256 ^ Z.of_nat k.
Proof. apply Z.pow_pos_nonneg; lia. Qed.

Lemma le_val_bytes k n : le_val (le_bytes k n) = n mod 256 ^ Z.of_nat k.
Proof.
  revert n. induction k as [| k IH]; intros n; cbn [le_bytes le_val].
  - by rewrite Z.mod_1_r.
  - rewrite IH, byte_mod, pow256_succ, Z.rem_mul_r; [done | lia | apply pow256_pos].
Qed.

Lemma le_val_range bs : Forall is_byte bs -> 0 <= le_val bs < 256 ^ len bs.
Proof.
  induction 1 as [| b bs Hb _ IH]; cbn [le_val length]; [lia |].
  rewrite pow256_succ. unfold is_byte in Hb. lia.
Qed.

Lemma le_bytes_val bs : Forall is_byte bs -> le_bytes (length bs) (le_val bs) = bs.
Proof.
  induction 1 as [| b bs Hb _ IH]; cbn [le_val le_bytes length]; [done |].
  f_equal.
  - rewrite byte_mod, Z.mul_comm, Z.mod_add by lia. by apply Z.mod_small.
  - replace ((b + 256 * le_val bs) / 256) with (le_val bs); [done |].
    unfold is_byte in Hb. dlia.
Qed.

(** The digits of [n] without leading zeros, at most [k] of them: what a loop
    [while (n) { *s++ = n & 0xff; n >>= 8; }] stores. *)
Fixpoint digits (k : nat) (n : Z) : list Z :=
  match k with
  | O => []
  | S k => if n =? 0 then [] else byte n :: digits k (n / 256)
  end.

Lemma digits_byte k n : Forall is_byte (digits k n).
Proof.
  revert n. induction k as [| k IH]; intros n; simpl; [constructor |].
  destruct (n =? 0); constructor; auto with cint.
Qed.

Lemma length_digits k n : (length (digits k n) <= k)%nat.
Proof.
  revert n. induction k as [| k IH]; intros n; simpl; [done |].
  destruct (n =? 0); simpl; [lia |]. specialize (IH (n / 256)). lia.
Qed.

Lemma le_val_digits k n : 0 <= n < 256 ^ Z.of_nat k -> le_val (digits k n) = n.
Proof.
  revert n. induction k as [| k IH]; intros n Hn; cbn [digits le_val].
  - change (256 ^ Z.of_nat 0) with 1 in Hn. lia.
  - rewrite pow256_succ in Hn.
    destruct (Z.eqb_spec n 0) as [-> |]; cbn [le_val]; [done |].
    rewrite IH, byte_mod; dlia.
Qed.

(** ** Memory, and the two effects

    A memory block is the list of its bytes. A writer may change the block it
    writes to; a reader only looks at it. [None] is an access outside the
    block: undefined behaviour in C, and the theorems say where it cannot
    happen. *)

Definition M (A : Type) : Type := list Z -> option (A * list Z).
Definition D (A : Type) : Type := list Z -> option A.

Definition retM {A} (a : A) : M A := fun s => Some (a, s).
Definition bindM {A B} (m : M A) (k : A -> M B) : M B :=
  fun s => match m s with Some (a, s') => k a s' | None => None end.
Definition ubM {A} : M A := fun _ => None.

Definition retD {A} (a : A) : D A := fun _ => Some a.
Definition bindD {A B} (m : D A) (k : A -> D B) : D B :=
  fun s => match m s with Some a => k a s | None => None end.
Definition ubD {A} : D A := fun _ => None.

Declare Scope c_scope.
Delimit Scope c_scope with c.
Notation "'let*' x ':=' m 'in' k" := (bindM m (fun x => k))
  (at level 10, x pattern, m at level 200, k at level 200,
   format "'[v' 'let*'  x  ':='  m  'in' '/' k ']'") : c_scope.
Notation "'let+' x ':=' m 'in' k" := (bindD m (fun x => k))
  (at level 10, x pattern, m at level 200, k at level 200,
   format "'[v' 'let+'  x  ':='  m  'in' '/' k ']'") : c_scope.
#[global] Open Scope c_scope.

Lemma bindM_Some {A B} (m : M A) (k : A -> M B) s a s' :
  m s = Some (a, s') -> bindM m k s = k a s'.
Proof. intros H. unfold bindM. by rewrite H. Qed.
Lemma bindD_Some {A B} (m : D A) (k : A -> D B) s a :
  m s = Some a -> bindD m k s = k a s.
Proof. intros H. unfold bindD. by rewrite H. Qed.

Lemma bindM_assoc {A B C} (m : M A) (f : A -> M B) (g : B -> M C) s :
  bindM (bindM m f) g s = bindM m (fun x => bindM (f x) g) s.
Proof. unfold bindM. by destruct (m s) as [[? ?] |]. Qed.
Lemma bindM_retM {A} (m : M A) s : bindM m retM s = m s.
Proof. unfold bindM, retM. by destruct (m s) as [[? ?] |]. Qed.
Lemma bindM_ret {A B} (a : A) (k : A -> M B) s : bindM (retM a) k s = k a s.
Proof. done. Qed.
Lemma bindD_assoc {A B C} (m : D A) (f : A -> D B) (g : B -> D C) s :
  bindD (bindD m f) g s = bindD m (fun x => bindD (f x) g) s.
Proof. unfold bindD. by destruct (m s). Qed.
Lemma bindD_ret {A B} (a : A) (k : A -> D B) s : bindD (retD a) k s = k a s.
Proof. done. Qed.

(** A sum of ints: one that does not fit an int is undefined. *)
Definition fits_int (z : Z) : bool := (- 2147483648 <=? z) && (z <=? int_max).
Definition int_sum (z : Z) : D Z := if fits_int z then retD z else ubD.
Definition int_opt (z : Z) : option Z := if fits_int z then Some z else None.

Lemma fits_int_ok z : is_int32 z -> fits_int z = true.
Proof. unfold is_int32, fits_int, int_max. intros. rewrite !(proj2 (Z.leb_le _ _)) by lia. done. Qed.
Lemma bind_int_sum {B} z (k : Z -> D B) s : is_int32 z -> bindD (int_sum z) k s = k z s.
Proof. intros Hz. unfold int_sum. by rewrite fits_int_ok. Qed.
Lemma int_opt_ok z : is_int32 z -> int_opt z = Some z.
Proof. intros Hz. unfold int_opt. by rewrite fits_int_ok. Qed.
Ltac int_fits := rewrite bind_int_sum by (unfold is_int32, int_max in *; lia).
