(* ===== verification/Mem.v ===== *)
(** * Memory blocks: pointers, stores and loads

    [ptr] is a C pointer into a block (or NULL plus an offset, which the
    sources compute before they test [buf]); [store] and [load] are the byte
    accesses; [splice] is the block after writing a run of bytes, and [at_]
    says which bytes a block holds at an offset. *)

From S2P Require Import Prelude.

(** ** Pointers *)

Record ptr := Ptr { nonnull : bool; off : Z }.
Definition NULL : ptr := Ptr false 0.
Definition padd (p : ptr) (n : Z) : ptr := Ptr (nonnull p) (off p + n).
Definition psub (p q : ptr) : Z := off p - off q.
Definition at_off (o : Z) : ptr := Ptr true o.

(** A store through NULL or outside the block is undefined. *)
Definition store (p : ptr) (v : Z) : M unit := fun s =>
  if nonnull p && (0 <=? off p) && (off p <? len s)
  then Some (tt, <[Z.to_nat (off p) := byte v]> s) else None.

(** [memcpy(p, bs, length bs)]. *)
Fixpoint memcpy (p : ptr) (bs : list Z) : M unit :=
  match bs with
  | [] => retM tt
  | b :: bs => let* _ := store p b in memcpy (padd p 1) bs
  end.

Definition load (o : Z) : D Z := fun s =>
  if 0 <=? o then s !! Z.to_nat o else None.

(** The [n] bytes at [o], as [memcpy] out of the block reads them. *)
Fixpoint load_n (o : Z) (n : nat) : D (list Z) :=
  match n with
  | O => retD []
  | S n => let+ b := load o in let+ bs := load_n (o + 1) n in retD (b :: bs)
  end.

(** [memcpy(p, s + o, n)] with a [size_t n]: a negative [n] is an access far
    outside the block. *)
Definition load_bytes (o n : Z) : D (list Z) :=
  if n <? 0 then ubD else load_n o (Z.to_nat n).

(** ** The block after writing [bs] at [o] *)

Definition splice (s : list Z) (o : Z) (bs : list Z) : list Z :=
  take (Z.to_nat o) s ++ bs ++ drop (Z.to_nat o + length bs) s.

Definition fits (s : list Z) (o : Z) (bs : list Z) : Prop :=
  0 <= o /\ o + len bs <= len s.

Lemma length_splice s o bs : fits s o bs -> length (splice s o bs) = length s.
Proof.
  intros [? ?]. unfold splice.
  rewrite !length_app, length_take, length_drop. lia.
Qed.

Lemma splice_nil s o : splice s o [] = s.
Proof. unfold splice. simpl. by rewrite Nat.add_0_r, take_drop. Qed.

Lemma splice_app s o b1 b2 :
  fits s o (b1 ++ b2) ->
  splice (splice s o b1) (o + len b1) b2 = splice s o (b1 ++ b2).
Proof.
  intros [? H]. rewrite len_app in H. unfold splice.
  assert (Hn : Z.to_nat (o + len b1) = (Z.to_nat o + length b1)%nat) by lia.
  rewrite Hn, (app_assoc (take _ _) b1), take_app_length'
    by (rewrite length_app, length_take; lia).
  rewrite drop_app_ge by (rewrite length_app, length_take; lia).
  rewrite drop_drop, <- !app_assoc. do 3 f_equal.
  rewrite !length_app, length_take. f_equal. lia.
Qed.

Lemma splice_app_before s o b1 b2 :
  fits s o (b1 ++ b2) ->
  splice (splice s (o + len b1) b2) o b1 = splice s o (b1 ++ b2).
Proof.
  intros [? H]. rewrite len_app in H. unfold splice.
  assert (Hn : Z.to_nat (o + len b1) = (Z.to_nat o + length b1)%nat) by lia.
  rewrite Hn, take_app_le, take_take, drop_app_length', <- !app_assoc;
    rewrite ?length_take; [| lia ..].
  rewrite Nat.min_l by lia. rewrite length_app.
  by replace (Z.to_nat o + (length b1 + length b2))%nat
    with (Z.to_nat o + length b1 + length b2)%nat by lia.
Qed.

(** Storing over a part of what was written, and keeping a byte that is
    already there. *)
Lemma splice_patch s o b1 x y b2 :
  fits s o (b1 ++ x ++ b2) -> length x = length y ->
  splice (splice s o (b1 ++ x ++ b2)) (o + len b1) y = splice s o (b1 ++ y ++ b2).
Proof.
  intros Hf Hxy. unfold splice at 1.
  assert (Hn : Z.to_nat (o + len b1) = (Z.to_nat o + length b1)%nat)
    by (destruct Hf; lia).
  destruct Hf as [? Hf]. rewrite !length_app in Hf.
  assert (Hs : splice s o (b1 ++ x ++ b2)
    = (take (Z.to_nat o) s ++ b1) ++ x ++ b2 ++
      drop (Z.to_nat o + length (b1 ++ x ++ b2)) s)
    by (unfold splice; by rewrite <- !app_assoc).
  rewrite Hs, take_app_length' by (rewrite length_app, length_take; lia).
  rewrite (app_assoc _ x), drop_app_length'
    by (rewrite !length_app, length_take; lia).
  unfold splice. rewrite <- !app_assoc. by rewrite !length_app, Hxy.
Qed.

Lemma splice_skip s o bs :
  fits s o (bs ++ [0]) -> exists h, splice s o bs = splice s o (bs ++ [h]).
Proof.
  intros [? Hf]. rewrite len_app in Hf. simpl in Hf.
  destruct (lookup_lt_is_Some_2 s (Z.to_nat o + length bs)) as [h Hh]; [lia |].
  exists h. unfold splice. rewrite (drop_S s h _ Hh), <- !app_assoc. simpl.
  rewrite length_app. simpl. by rewrite Nat.add_1_r, Nat.add_succ_r.
Qed.

(** The bytes up to the end of what is written. *)
Lemma take_splice blk o bs : fits blk o bs ->
  take (Z.to_nat (o + len bs)) (splice blk o bs) = take (Z.to_nat o) blk ++ bs.
Proof.
  intros [? ?]. unfold splice.
  rewrite app_assoc, take_app_le by (rewrite length_app, length_take; lia).
  apply take_ge. rewrite length_app, length_take. lia.
Qed.

(** ** Stores are splices *)

Lemma store_ok s o v :
  fits s o [v] -> store (at_off o) v s = Some (tt, splice s o [byte v]).
Proof.
  intros [? H]. simpl in H. unfold store, splice. simpl.
  rewrite (proj2 (Z.leb_le _ _)), (proj2 (Z.ltb_lt _ _)) by lia. simpl.
  rewrite insert_take_drop by lia. do 4 f_equal. f_equal. lia.
Qed.

Lemma memcpy_ok bs s o :
  fits s o bs -> memcpy (at_off o) bs s = Some (tt, splice s o (byte <$> bs)).
Proof.
  revert s o. induction bs as [| b bs IH]; intros s o Hf.
  - by rewrite splice_nil.
  - destruct Hf as [? H]. rewrite len_cons in H. simpl.
    assert (Hb : fits s o [b]) by (split; simpl; lia).
    erewrite bindM_Some by (by apply store_ok).
    unfold padd. simpl. rewrite IH.
    + f_equal. f_equal. change (o + 1) with (o + len [byte b]).
      rewrite splice_app; [done |]. split; simpl; rewrite ?length_fmap; lia.
    + split; [lia |]. rewrite length_splice by done. lia.
Qed.

Lemma bytes_id bs : Forall is_byte bs -> byte <$> bs = bs.
Proof.
  induction 1 as [| b bs Hb _ IH]; [done |]. simpl. f_equal; [by apply byte_small | done].
Qed.

(** ** Reading what is there *)

Definition at_ (s : list Z) (o : Z) (bs : list Z) : Prop :=
  0 <= o /\ exists pre post, s = pre ++ bs ++ post /\ len pre = o.

Lemma at_app s o b1 b2 :
  at_ s o (b1 ++ b2) <-> at_ s o b1 /\ at_ s (o + len b1) b2.
Proof.
  split.
  - intros [? (pre & post & -> & ?)]. split.
    + split; [done |]. exists pre, (b2 ++ post). by rewrite <- !app_assoc.
    + split; [lia |]. exists (pre ++ b1), post. rewrite <- !app_assoc.
      split; [done |]. rewrite len_app. lia.
  - intros [[? (pre & post & -> & ?)] [_ (pre' & post' & Heq & ?)]].
    split; [done |]. exists pre, post'. split; [| done].
    rewrite (app_assoc pre b1), <- app_assoc.
    rewrite app_assoc in Heq.
    apply app_inj_1 in Heq as [<- ->].
    + by rewrite <- !app_assoc.
    + rewrite length_app. lia.
Qed.

Lemma at_cons s o b bs : at_ s o (b :: bs) <-> at_ s o [b] /\ at_ s (o + 1) bs.
Proof. apply (at_app s o [b] bs). Qed.

Lemma at_range s o bs : at_ s o bs -> fits s o bs.
Proof.
  intros [? (pre & post & -> & ?)]. split; [done |]. rewrite !len_app. lia.
Qed.

Lemma at_splice s o bs : fits s o bs -> at_ (splice s o bs) o bs.
Proof.
  intros [? ?]. split; [done |]. unfold splice.
  eexists _, _. split; [done |]. rewrite length_take. lia.
Qed.

Lemma load_at s o b : at_ s o [b] -> load o s = Some b.
Proof.
  intros [? (pre & post & -> & ?)]. unfold load.
  rewrite (proj2 (Z.leb_le _ _)) by lia.
  rewrite lookup_app_r by lia. by replace (Z.to_nat o - length pre)%nat with O by lia.
Qed.

Lemma load_n_at bs s o : at_ s o bs -> load_n o (length bs) s = Some bs.
Proof.
  revert o. induction bs as [| b bs IH]; intros o Ha; [done |].
  apply at_cons in Ha as [Hb Hbs]. simpl.
  erewrite bindD_Some by (by apply load_at).
  by erewrite bindD_Some by (by apply IH).
Qed.

Lemma load_bytes_at bs s o : at_ s o bs -> load_bytes o (len bs) s = Some bs.
Proof.
  intros Ha. unfold load_bytes.
  rewrite (proj2 (Z.ltb_ge _ _)), Nat2Z.id by lia. by apply load_n_at.
Qed.

(** A load that succeeds is inside the block, and a block of bytes gives
    bytes. *)
Lemma load_byte s o b : Forall is_byte s -> load o s = Some b -> is_byte b.
Proof.
  unfold load. destruct (0 <=? o); [| done]. intros Hs Hl.
  by eapply Forall_lookup_1.
Qed.

(** A load inside the block, and a run of bytes inside it. *)
Lemma load_within s o : 0 <= o < len s -> exists b, load o s = Some b /\ at_ s o [b].
Proof.
  intros Ho. destruct (lookup_lt_is_Some_2 s (Z.to_nat o)) as [b Hb]; [lia |].
  exists b. split.
  - unfold load. by rewrite (proj2 (Z.leb_le _ _)) by lia.
  - split; [lia |]. exists (take (Z.to_nat o) s), (drop (S (Z.to_nat o)) s).
    split; [| rewrite length_take; lia]. symmetry. by apply take_drop_middle.
Qed.

Lemma bytes_within s o n : 0 <= o -> 0 <= n -> o + n <= len s -> exists bs, at_ s o bs /\ len bs = n.
Proof.
  intros Ho Hn Hl. exists (take (Z.to_nat n) (drop (Z.to_nat o) s)).
  assert (Hk : length (take (Z.to_nat n) (drop (Z.to_nat o) s)) = Z.to_nat n)
    by (rewrite length_take, length_drop; lia).
  split; [| lia]. split; [done |]. exists (take (Z.to_nat o) s), (drop (Z.to_nat n) (drop (Z.to_nat o) s)).
  rewrite !take_drop. split; [done |]. rewrite length_take. lia.
Qed.
