(* ===== verification/PutGet.v ===== *)
(** * putget.h: the byte macros every encoder and decoder is made of

    [put*] stores the bytes of its argument and returns the advanced pointer;
    [get*] reads bytes and returns the value with the advanced offset. The
    specification of a [put] is the list of bytes it writes ([be16], [be32],
    [be64], [le16], [le32]). *)

From S2P Require Import Prelude Mem.

(** ** The macros *)

Definition put8 (s : ptr) (n : Z) : M ptr :=
  let* _ := store s (Z.land n 0xff) in
  retM (padd s 1).

Definition put16le (s : ptr) (n : Z) : M ptr :=
  let* _ := store s (Z.land n 0xff) in
  let* _ := store (padd s 1) (Z.land (Z.shiftr n 8) 0xff) in
  retM (padd s 2).

Definition put32le (s : ptr) (n : Z) : M ptr :=
  let* _ := store s (Z.land n 0xff) in
  let* _ := store (padd s 1) (Z.land (Z.shiftr n 8) 0xff) in
  let* _ := store (padd s 2) (Z.land (Z.shiftr n 16) 0xff) in
  let* _ := store (padd s 3) (Z.land (Z.shiftr n 24) 0xff) in
  retM (padd s 4).

Definition put16be (s : ptr) (n : Z) : M ptr :=
  let* _ := store s (Z.land (Z.shiftr n 8) 0xff) in
  let* _ := store (padd s 1) (Z.land n 0xff) in
  retM (padd s 2).

Definition put32be (s : ptr) (n : Z) : M ptr :=
  let* _ := store s (Z.land (Z.shiftr n 24) 0xff) in
  let* _ := store (padd s 1) (Z.land (Z.shiftr n 16) 0xff) in
  let* _ := store (padd s 2) (Z.land (Z.shiftr n 8) 0xff) in
  let* _ := store (padd s 3) (Z.land n 0xff) in
  retM (padd s 4).

Definition put64be (s : ptr) (n : Z) : M ptr :=
  let* _ := store s (Z.land (Z.shiftr n 56) 0xff) in
  let* _ := store (padd s 1) (Z.land (Z.shiftr n 48) 0xff) in
  let* _ := store (padd s 2) (Z.land (Z.shiftr n 40) 0xff) in
  let* _ := store (padd s 3) (Z.land (Z.shiftr n 32) 0xff) in
  let* _ := store (padd s 4) (Z.land (Z.shiftr n 24) 0xff) in
  let* _ := store (padd s 5) (Z.land (Z.shiftr n 16) 0xff) in
  let* _ := store (padd s 6) (Z.land (Z.shiftr n 8) 0xff) in
  let* _ := store (padd s 7) (Z.land n 0xff) in
  retM (padd s 8).

Definition get8 (s : Z) : D (Z * Z) :=
  let+ b := load s in retD (Z.land b 0xff, s + 1).

Definition get16le (s : Z) : D (Z * Z) :=
  let+ b0 := load s in
  let+ b1 := load (s + 1) in
  retD (Z.land (Z.lor (Z.shiftl b1 8) b0) 0xffff, s + 2).

(** The value of [get32le] and [get32be] has type [int]: a top byte of 128 or
    more is shifted into the sign bit. *)
Definition get32le (s : Z) : D (Z * Z) :=
  let+ b0 := load s in
  let+ b1 := load (s + 1) in
  let+ b2 := load (s + 2) in
  let+ b3 := load (s + 3) in
  retD (int32 (Z.lor (Z.lor (Z.lor (Z.shiftl b3 24) (Z.shiftl b2 16))
                        (Z.shiftl b1 8)) b0), s + 4).

Definition get16be (s : Z) : D (Z * Z) :=
  let+ b0 := load s in
  let+ b1 := load (s + 1) in
  retD (Z.land (Z.lor (Z.shiftl b0 8) b1) 0xffff, s + 2).

Definition get32be (s : Z) : D (Z * Z) :=
  let+ b0 := load s in
  let+ b1 := load (s + 1) in
  let+ b2 := load (s + 2) in
  let+ b3 := load (s + 3) in
  retD (int32 (Z.lor (Z.lor (Z.lor (Z.shiftl b0 24) (Z.shiftl b1 16))
                        (Z.shiftl b2 8)) b3), s + 4).

Definition get64be (s : Z) : D (Z * Z) :=
  let+ b0 := load s in
  let+ b1 := load (s + 1) in
  let+ b2 := load (s + 2) in
  let+ b3 := load (s + 3) in
  let+ b4 := load (s + 4) in
  let+ b5 := load (s + 5) in
  let+ b6 := load (s + 6) in
  let+ b7 := load (s + 7) in
  retD (Z.lor (Z.lor (Z.lor (Z.lor (Z.lor (Z.lor (Z.lor
          (Z.shiftl b0 56) (Z.shiftl b1 48)) (Z.shiftl b2 40))
          (Z.shiftl b3 32)) (Z.shiftl b4 24)) (Z.shiftl b5 16))
          (Z.shiftl b6 8)) b7, s + 8).

(** ** The bytes of a number *)

Definition be16 (n : Z) : list Z := [byte (Z.shiftr n 8); byte n].
Definition be32 (n : Z) : list Z :=
  [byte (Z.shiftr n 24); byte (Z.shiftr n 16); byte (Z.shiftr n 8); byte n].
Definition be64 (n : Z) : list Z :=
  [byte (Z.shiftr n 56); byte (Z.shiftr n 48); byte (Z.shiftr n 40);
   byte (Z.shiftr n 32); byte (Z.shiftr n 24); byte (Z.shiftr n 16);
   byte (Z.shiftr n 8); byte n].
Definition le16 (n : Z) : list Z := rev (be16 n).
Definition le32 (n : Z) : list Z := rev (be32 n).

Lemma len_be16 n : len (be16 n) = 2. Proof. done. Qed.
Lemma len_be32 n : len (be32 n) = 4. Proof. done. Qed.
Lemma len_be64 n : len (be64 n) = 8. Proof. done. Qed.
Lemma len_le32 n : len (le32 n) = 4. Proof. done. Qed.
Lemma len_nil {A} : len (@nil A) = 0. Proof. done. Qed.

Create Rewrite HintDb len.
#[export] Hint Rewrite @len_app @len_cons @len_nil len_be16 len_be32 len_be64
  len_le32 : len.

(** ** Writers *)

(** [Writes w bs]: with room for [bs] at the pointer, [w] stores exactly [bs]
    there and returns the pointer after them. *)
Class Writes (w : ptr -> M ptr) (bs : list Z) : Prop :=
  writes : forall o s, fits s o bs ->
    w (at_off o) s = Some (at_off (o + len bs), splice s o bs).

Lemma byte_idem v : byte (Z.land v 255) = byte v.
Proof. apply byte_small, byte_range. Qed.

Lemma store_step (o d v : Z) bs s (k : M ptr) :
  d = len bs -> fits (splice s o bs) (o + d) [v] -> fits s o (bs ++ [byte v]) ->
  (let* _ := store (padd (at_off o) d) (Z.land v 255) in k) (splice s o bs)
  = k (splice s o (bs ++ [byte v])).
Proof.
  intros -> Hf Hb. unfold padd. simpl.
  erewrite bindM_Some by (apply (store_ok _ (o + len bs)); done).
  rewrite splice_app; by rewrite byte_idem.
Qed.

Lemma fits_splice s o bs p cs : fits s o bs -> fits s p cs -> fits (splice s o bs) p cs.
Proof. intros H [? ?]. split; [done |]. by rewrite length_splice. Qed.

Lemma store_first (o v : Z) s (k : M ptr) :
  fits s o [v] ->
  (let* _ := store (at_off o) (Z.land v 255) in k) s = k (splice s o [byte v]).
Proof.
  intros. erewrite bindM_Some by (by apply store_ok). by rewrite byte_idem.
Qed.

Ltac fits_tac :=
  unfold fits in *; simpl in *; rewrite ?length_splice, ?length_app in *;
  unfold fits in *; simpl in *; lia.

#[global] Typeclasses Opaque put8 put16le put32le put16be put32be put64be.

(** The common shape of the [put]s: a run of stores at increasing offsets. *)
Ltac put_tac :=
  intros o s Hf; unfold fits in Hf; simpl in Hf;
  unfold put8, put16be, put32be, put64be, put16le, put32le;
  rewrite store_first by fits_tac;
  repeat (rewrite store_step by fits_tac);
  reflexivity.

#[export] Instance put8_writes n : Writes (fun s => put8 s n) [byte n].
Proof. put_tac. Qed.
#[export] Instance put16be_writes n : Writes (fun s => put16be s n) (be16 n).
Proof. put_tac. Qed.
#[export] Instance put32be_writes n : Writes (fun s => put32be s n) (be32 n).
Proof. put_tac. Qed.
#[export] Instance put64be_writes n : Writes (fun s => put64be s n) (be64 n).
Proof. put_tac. Qed.
#[export] Instance put16le_writes n : Writes (fun s => put16le s n) (le16 n).
Proof. put_tac. Qed.
#[export] Instance put32le_writes n : Writes (fun s => put32le s n) (le32 n).
Proof. put_tac. Qed.

(** ** Readers *)

Lemma be16_le n : be16 n = rev (le_bytes 2 n).
Proof. unfold be16. simpl. by rewrite Z.shiftr_div_pow2 by lia. Qed.

Ltac digits_tac :=
  simpl; rewrite !Z.shiftr_div_pow2 by lia; rewrite !Z.div_div by lia; done.

Lemma be32_le n : be32 n = rev (le_bytes 4 n).
Proof. unfold be32. digits_tac. Qed.
Lemma be64_le n : be64 n = rev (le_bytes 8 n).
Proof. unfold be64. digits_tac. Qed.
Lemma le32_le n : le32 n = le_bytes 4 n.
Proof. unfold le32. rewrite be32_le. by rewrite rev_involutive. Qed.

Lemma lor2 a b : is_byte a -> is_byte b ->
  Z.lor (Z.shiftl b 8) a = le_val [a; b].
Proof.
  unfold is_byte. intros. rewrite lor_disjoint by lia. cbn [le_val]. lia.
Qed.

Ltac lor_tac :=
  unfold is_byte; intros; rewrite !Z.shiftl_mul_pow2 by lia;
  repeat match goal with
    | |- context [Z.lor ?a (?b * 2 ^ ?k)] =>
        rewrite (lor_add (k + 8) a (b * 2 ^ k)) by (simpl; dlia)
    | |- context [Z.lor ?a ?b] => rewrite (lor_add 8 a b) by (simpl; dlia)
    end;
  cbn [le_val]; lia.

Lemma lor4 a b c d : is_byte a -> is_byte b -> is_byte c -> is_byte d ->
  Z.lor (Z.lor (Z.lor (Z.shiftl d 24) (Z.shiftl c 16)) (Z.shiftl b 8)) a
  = le_val [a; b; c; d].
Proof. lor_tac. Qed.

Lemma lor8 a b c d e f g h :
  is_byte a -> is_byte b -> is_byte c -> is_byte d ->
  is_byte e -> is_byte f -> is_byte g -> is_byte h ->
  Z.lor (Z.lor (Z.lor (Z.lor (Z.lor (Z.lor (Z.lor
    (Z.shiftl h 56) (Z.shiftl g 48)) (Z.shiftl f 40)) (Z.shiftl e 32))
    (Z.shiftl d 24)) (Z.shiftl c 16)) (Z.shiftl b 8)) a
  = le_val [a; b; c; d; e; f; g; h].
Proof. lor_tac. Qed.

Lemma load_in s o bs i b :
  at_ s o bs -> bs !! i = Some b -> load (o + Z.of_nat i) s = Some b.
Proof.
  intros Ha Hl. apply (load_at _ _ b).
  rewrite <- (take_drop_middle bs i b Hl) in Ha.
  apply at_app in Ha as [_ Ha]. apply at_cons in Ha as [Ha _].
  by rewrite length_take_le in Ha by (apply lookup_lt_Some in Hl; lia).
Qed.

Lemma load_in0 s o bs b : at_ s o bs -> bs !! 0%nat = Some b -> load o s = Some b.
Proof. intros Ha Hl. rewrite <- (Z.add_0_r o). by apply (load_in s o bs 0). Qed.

Ltac load_tac Ha :=
  rewrite ?(load_in0 _ _ _ _ Ha eq_refl);
  repeat match goal with
    | |- context [load (?o + ?k) ?s] =>
        let i := eval compute in (Z.to_nat k) in
        rewrite (load_in _ _ _ i _ Ha eq_refl : load (o + k) s = Some _)
    end.

Lemma get8_at s o b : is_byte b -> at_ s o [b] -> get8 o s = Some (b, o + 1).
Proof.
  intros Hb Ha. unfold get8, bindD, retD. load_tac Ha.
  by rewrite (byte_small b Hb : Z.land b 255 = b).
Qed.

Lemma get16be_at s o n : at_ s o (be16 n) -> get16be o s = Some (n mod 65536, o + 2).
Proof.
  intros Ha. unfold get16be, bindD, retD. load_tac Ha.
  rewrite lor2 by apply byte_range.
  change [byte n; byte (Z.shiftr n 8)] with (rev (be16 n)).
  rewrite be16_le, rev_involutive, le_val_bytes.
  change 0xffff with (Z.ones 16). rewrite Z.land_ones by lia.
  change (256 ^ Z.of_nat 2) with (2 ^ 16). by rewrite Z.mod_mod.
Qed.

Lemma get32be_at s o n : at_ s o (be32 n) -> get32be o s = Some (int32 n, o + 4).
Proof.
  intros Ha. unfold get32be, bindD, retD. load_tac Ha.
  rewrite lor4 by apply byte_range.
  change [byte n; byte (Z.shiftr n 8); byte (Z.shiftr n 16); byte (Z.shiftr n 24)]
    with (rev (be32 n)).
  rewrite be32_le, rev_involutive, le_val_bytes. unfold int32.
  change (256 ^ Z.of_nat 4) with (2 ^ 32). by rewrite (swrap_mod 32 n).
Qed.

Lemma get32le_at s o n : at_ s o (le32 n) -> get32le o s = Some (int32 n, o + 4).
Proof.
  intros Ha. unfold get32le, bindD, retD. load_tac Ha.
  rewrite lor4 by apply byte_range.
  change [byte n; byte (Z.shiftr n 8); byte (Z.shiftr n 16); byte (Z.shiftr n 24)]
    with (rev (be32 n)).
  rewrite be32_le, rev_involutive, le_val_bytes. unfold int32.
  change (256 ^ Z.of_nat 4) with (2 ^ 32). by rewrite (swrap_mod 32 n).
Qed.

Lemma get64be_at s o n : at_ s o (be64 n) -> get64be o s = Some (uint64 n, o + 8).
Proof.
  intros Ha. unfold get64be, bindD, retD. load_tac Ha.
  rewrite lor8 by apply byte_range.
  change (le_val _) with (le_val (rev (be64 n))).
  by rewrite be64_le, rev_involutive, le_val_bytes.
Qed.

(** What the reads of an arbitrary block give. *)
Lemma load_Some s o b : load o s = Some b -> 0 <= o < len s.
Proof.
  unfold load. destruct (Z.leb_spec 0 o); [| done].
  intros ?%lookup_lt_Some. lia.
Qed.

Lemma get8_inv s o v o' :
  Forall is_byte s -> get8 o s = Some (v, o') ->
  is_byte v /\ o' = o + 1 /\ 0 <= o < len s.
Proof.
  intros Hs. unfold get8, bindD, retD. destruct (load o s) as [b |] eqn:E; [| done].
  intros [= <- <-]. split; [apply (byte_range b) |].
  split; [done |]. by eapply load_Some.
Qed.

Lemma get16be_inv s o v o' :
  get16be o s = Some (v, o') ->
  0 <= v < 65536 /\ o' = o + 2 /\ 0 <= o /\ o + 2 <= len s.
Proof.
  unfold get16be, bindD, retD.
  destruct (load o s) as [b0 |] eqn:E0; [| done].
  destruct (load (o + 1) s) as [b1 |] eqn:E1; [| done].
  intros [= <- <-]. apply load_Some in E0, E1.
  change 0xffff with (Z.ones 16). rewrite Z.land_ones by lia.
  split; [apply (Z.mod_pos_bound _ 65536); lia | lia].
Qed.

Lemma get32be_inv s o v o' :
  get32be o s = Some (v, o') ->
  is_int32 v /\ o' = o + 4 /\ 0 <= o /\ o + 4 <= len s.
Proof.
  unfold get32be, bindD, retD.
  destruct (load o s) as [b0 |] eqn:E0; [| done].
  destruct (load (o + 1) s) as [b1 |] eqn:E1; [| done].
  destruct (load (o + 2) s) as [b2 |] eqn:E2; [| done].
  destruct (load (o + 3) s) as [b3 |] eqn:E3; [| done].
  intros [= <- <-]. apply load_Some in E0, E3.
  split; [apply int32_range | lia].
Qed.
