(* ===== verification/Ext.v ===== *)
(** * The external term format: tags, types and the two coding interfaces

    The constants and structs of ei.h and eiext.h, and the contracts every
    encoder and decoder of the library is proved to meet: [Encodes] for the
    two passes of an encoder (with a buffer, and with NULL to measure), and
    [Decodes] for a decoder. *)

From S2P Require Import Prelude Mem PutGet.

(** ** ei.h and eiext.h *)

Definition ERL_SMALL_INTEGER_EXT : Z := 97.
Definition ERL_INTEGER_EXT : Z := 98.
Definition ERL_FLOAT_EXT : Z := 99.
Definition NEW_FLOAT_EXT : Z := 70.
Definition ERL_ATOM_EXT : Z := 100.
Definition ERL_SMALL_ATOM_EXT : Z := 115.
Definition ERL_ATOM_UTF8_EXT : Z := 118.
Definition ERL_SMALL_ATOM_UTF8_EXT : Z := 119.
Definition ERL_REFERENCE_EXT : Z := 101.
Definition ERL_NEW_REFERENCE_EXT : Z := 114.
Definition ERL_NEWER_REFERENCE_EXT : Z := 90.
Definition ERL_PORT_EXT : Z := 102.
Definition ERL_NEW_PORT_EXT : Z := 89.
Definition ERL_PID_EXT : Z := 103.
Definition ERL_NEW_PID_EXT : Z := 88.
Definition ERL_SMALL_TUPLE_EXT : Z := 104.
Definition ERL_LARGE_TUPLE_EXT : Z := 105.
Definition ERL_NIL_EXT : Z := 106.
Definition ERL_STRING_EXT : Z := 107.
Definition ERL_LIST_EXT : Z := 108.
Definition ERL_BINARY_EXT : Z := 109.
Definition ERL_SMALL_BIG_EXT : Z := 110.
Definition ERL_LARGE_BIG_EXT : Z := 111.
Definition ERL_NEW_FUN_EXT : Z := 112.
Definition ERL_MAP_EXT : Z := 116.
Definition ERL_FUN_EXT : Z := 117.
Definition ERL_NEW_CACHE : Z := 78.
Definition ERL_CACHED_ATOM : Z := 67.
Definition ERL_PASS_THROUGH : Z := 112.

Definition ERL_VERSION_MAGIC : Z := 131.
Definition ERL_MAX : Z := Z.shiftl 1 27 - 1.
Definition ERL_MIN : Z := - Z.shiftl 1 27.

Definition MAXATOMLEN : Z := 255 + 1.
Definition MAXATOMLEN_UTF8 : Z := 255 * 4 + 1.

(** [erlang_char_encoding] is an enum used as a bit set. *)
Definition erlang_char_encoding : Type := Z.
Definition ERLANG_ASCII : erlang_char_encoding := 1.
Definition ERLANG_LATIN1 : erlang_char_encoding := 2.
Definition ERLANG_UTF8 : erlang_char_encoding := 4.

(** A [char node[MAXATOMLEN_UTF8]] field is the bytes of the array up to its
    terminating zero. *)
Record erlang_pid := Pid
  { pid_node : list Z; pid_num : Z; pid_serial : Z; pid_creation : Z }.
Record erlang_port := Port
  { port_node : list Z; port_id : Z; port_creation : Z }.
Record erlang_ref := Ref
  { ref_node : list Z; ref_len : Z; ref_n : list Z; ref_creation : Z }.
Record erlang_trace := Trace
  { tr_serial : Z; tr_prev : Z; tr_from : erlang_pid; tr_label : Z; tr_flags : Z }.
Record erlang_fun := Fun
  { fun_arity : Z; fun_module : list Z; fun_module_org_enc : erlang_char_encoding;
    fun_md5 : list Z; fun_index : Z; fun_old_index : Z; fun_uniq : Z;
    fun_n_free_vars : Z; fun_pid : erlang_pid; fun_free_vars : list Z }.
(** The digits are the 16-bit words of [void *digits]. *)
Record erlang_big := Big
  { big_arity : Z; big_is_neg : Z; big_digits : list Z }.

(** ** C idioms *)

(** [*index += s - s0], an [int]. *)
Definition index_add (index d : Z) : Z := int32 (index + d).

Definition isnull (p : ptr) : bool := negb (nonnull p).

(** [strlen] of an array that is a C string, and the string it holds. *)
Fixpoint c_str (p : list Z) : list Z :=
  match p with [] => [] | c :: p => if c =? 0 then [] else c :: c_str p end.
Definition strlen (p : list Z) : Z := len (c_str p).

Lemma c_str_take p : take (Z.to_nat (strlen p)) p = c_str p.
Proof.
  unfold strlen. rewrite Nat2Z.id. induction p as [| c p IH]; [done |].
  simpl. destruct (c =? 0); [done |]. simpl. by rewrite IH.
Qed.
Lemma strlen_le p : strlen p <= len p.
Proof.
  unfold strlen. induction p as [| c p IH]; [done |].
  simpl. destruct (c =? 0); simpl; lia.
Qed.
Lemma c_str_byte p : Forall is_byte p -> Forall is_byte (c_str p).
Proof. rewrite <- c_str_take. intros. by apply Forall_take. Qed.

(** The first [n] bytes of the caller's array; reading past it is undefined. *)
Definition src_bytes (p : list Z) (n : Z) : M (list Z) :=
  if n <=? len p then retM (take (Z.to_nat n) p) else ubM.

(** [if (buf) memcpy(s + offs, p, n);] *)
Definition memcpy_if (buf s : ptr) (bs : list Z) (n : Z) : M unit :=
  if isnull buf then retM tt else if n <? 0 then ubM else memcpy s bs.

Lemma src_bytes_all p s : src_bytes p (len p) s = Some (p, s).
Proof.
  unfold src_bytes. rewrite (proj2 (Z.leb_le _ _)) by lia.
  unfold retM. by rewrite Nat2Z.id, firstn_all.
Qed.

(** The result of a decoder: [-1] with [*index] unchanged, or [0] with the new
    [*index] and what was stored through the out pointer, if it was not NULL.
    (What a failing decoder may have stored there before it failed is not
    part of the model: the value is meaningless to a caller.) *)
Inductive cres (A : Type) := Fail | Done (index : Z) (out : A).
Arguments Fail {A}.
Arguments Done {A} _ _.

(** [if (f(...) < 0) return -1;] *)
Definition bindC {A B} (m : D (cres A)) (k : Z -> A -> D (cres B)) : D (cres B) :=
  fun s => match m s with
           | Some (Done i a) => k i a s
           | Some Fail => Some Fail
           | None => None
           end.
Notation "'let-' ( i , x ) ':=' m 'in' k" := (bindC m (fun i x => k))
  (at level 10, i name, x pattern, m at level 200, k at level 200,
   format "'[v' 'let-'  ( i ,  x )  ':='  m  'in' '/' k ']'") : c_scope.

(** [if (p) *p = v;] *)
Definition out {A} (p : bool) (v : A) : option A := if p then Some v else None.

(** ** The contract of an encoder

    [Encodes f bs]: for an index and a term that fit in an [int], [f] returns
    0 and moves the index by exactly [length bs]; with a NULL buffer it stores
    nothing, and with a buffer that has room it stores exactly [bs] there and
    nothing else. So the NULL pass measures what the second pass writes. *)
Class Encodes (f : ptr -> Z -> M (Z * Z)) (bs : list Z) : Prop := {
  encodes_null i s : 0 <= i -> i + len bs <= int_max ->
    f NULL i s = Some ((0, i + len bs), s);
  encodes_buf b i s : 0 <= i -> i + len bs <= int_max -> fits s (b + i) bs ->
    f (at_off b) i s = Some ((0, i + len bs), splice s (b + i) bs)
}.

(** [Refuses f]: [f] returns -1 in both passes and leaves the buffer alone. *)
Class Refuses (f : ptr -> Z -> M (Z * Z)) : Prop :=
  refuses b i s : exists i', f b i s = Some ((-1, i'), s).

Lemma Encodes_ext f g bs :
  (forall b i s, f b i s = g b i s) -> Encodes g bs -> Encodes f bs.
Proof. intros Hfg [Hn Hb]. split; intros; rewrite Hfg; auto. Qed.

(** ** The contract of a decoder *)
Class Decodes {A} (f : bool -> Z -> Z -> D (cres (option A))) (bs : list Z) (a : A) : Prop :=
  decodes p b i s : 0 <= i -> i + len bs <= int_max -> at_ s (b + i) bs ->
    f p b i s = Some (Done (i + len bs) (out p a)).

Lemma null_pass f bs i s : Encodes f bs -> 0 <= i -> i + len bs <= int_max ->
  f NULL i s = Some ((0, i + len bs), s).
Proof. intros ? ? ?. by apply encodes_null. Qed.

(** A sub-encoder in the middle of a longer term: its NULL pass, and its pass
    over a block that already holds [bs1]. *)
Lemma null_step {A} (f : ptr -> Z -> M (Z * Z)) bs i s (k : Z * Z -> M A) :
  Encodes f bs -> 0 <= i -> i + len bs <= int_max ->
  bindM (f NULL i) k s = k (0, i + len bs) s.
Proof. intros. by erewrite bindM_Some by (by apply null_pass). Qed.

Lemma write_step {A} (f : ptr -> Z -> M (Z * Z)) bs2 bs1 o b i s (k : Z * Z -> M A) :
  Encodes f bs2 -> b + i = o + len bs1 -> 0 <= i -> i + len bs2 <= int_max ->
  fits s o (bs1 ++ bs2) ->
  bindM (f (at_off b) i) k (splice s o bs1)
  = k (0, i + len bs2) (splice s o (bs1 ++ bs2)).
Proof.
  intros Hf He ? ? [? Hl]. rewrite len_app in Hl.
  erewrite bindM_Some; [| apply encodes_buf; [lia | lia |]; rewrite He;
    apply fits_splice; split; lia].
  rewrite He, splice_app; [done |]. split; rewrite ?len_app; lia.
Qed.

(** A decoder that reads its bytes in the middle of a longer term. *)
Lemma read_pass {A B} (f : bool -> Z -> Z -> D (cres (option A))) bs a p b i o s
    (k : Z -> option A -> D (cres B)) :
  Decodes f bs a -> at_ s o bs -> 0 <= i -> i + len bs <= int_max -> o = b + i ->
  bindC (f p b i) k s = k (i + len bs) (out p a) s.
Proof. intros Hd ? ? ? ->. unfold bindC. by rewrite Hd. Qed.
Arguments read_pass {A B} {f bs a p b i o s k} _ _.

Lemma bindC_Done {A B} (m : D (cres A)) (k : Z -> A -> D (cres B)) s i a :
  m s = Some (Done i a) -> bindC m k s = k i a s.
Proof. intros H. unfold bindC. by rewrite H. Qed.

Lemma index_add_ok i d : 0 <= i -> 0 <= d -> i + d <= int_max -> index_add i d = i + d.
Proof. unfold int_max. intros. apply int32_small. unfold is_int32. lia. Qed.

(** ** Running a writer symbolically *)

Lemma wput {A} w {bs2} {Hw : Writes w bs2} bs1 o p s (k : ptr -> M A) :
  p = at_off (o + len bs1) -> fits s o (bs1 ++ bs2) ->
  bindM (w p) k (splice s o bs1)
  = k (at_off (o + len (bs1 ++ bs2))) (splice s o (bs1 ++ bs2)).
Proof.
  intros -> [? Hf]. rewrite len_app in Hf.
  erewrite bindM_Some; [| apply Hw; apply fits_splice; split; lia].
  rewrite splice_app by (split; rewrite ?len_app; lia).
  by rewrite len_app, Z.add_assoc.
Qed.

Lemma wmemcpy {A} bs2 bs1 o p s (k : unit -> M A) :
  Forall is_byte bs2 -> p = at_off (o + len bs1) -> fits s o (bs1 ++ bs2) ->
  bindM (memcpy p bs2) k (splice s o bs1) = k tt (splice s o (bs1 ++ bs2)).
Proof.
  intros Hb -> [? Hf]. rewrite len_app in Hf.
  erewrite bindM_Some; [| apply memcpy_ok; apply fits_splice; split; lia].
  rewrite (bytes_id _ Hb), splice_app; [done |]. split; rewrite ?len_app; lia.
Qed.

(** The side conditions: where the pointer is, and that there is room. *)
Ltac ptr_tac :=
  unfold padd, at_off, psub; cbn [nonnull off]; f_equal; autorewrite with len; lia.
Ltac fits_lia :=
  unfold fits in *; cbn [app] in *;
  first [ solve [autorewrite with len in *; lia]
        | simpl in *; rewrite ?length_app in *; simpl in *; lia ].

Lemma is_byte_test b : (0 <=? b) && (b <? 256) = true -> is_byte b.
Proof. unfold is_byte. lia. Qed.

Ltac is_byte_tac :=
  first [ assumption | apply byte_range | apply is_byte_test; vm_compute; reflexivity
        | unfold is_byte in *; lia ].
Ltac bytes_tac :=
  first [ assumption | repeat (constructor; [is_byte_tac |]); constructor ].

Ltac wstep :=
  let go w := rewrite (wput w) by (first [ solve [ptr_tac] | fits_lia ]) in
  rewrite ?bindM_assoc, ?bindM_ret;
  match goal with
  | |- context [bindM (put8 _ ?n) _] => go (fun s => put8 s n)
  | |- context [bindM (put16be _ ?n) _] => go (fun s => put16be s n)
  | |- context [bindM (put32be _ ?n) _] => go (fun s => put32be s n)
  | |- context [bindM (put64be _ ?n) _] => go (fun s => put64be s n)
  | |- context [bindM (put32le _ ?n) _] => go (fun s => put32le s n)
  | |- context [bindM (memcpy _ ?bs) _] =>
      rewrite (wmemcpy bs) by
        (first [ solve [bytes_tac] | solve [ptr_tac] | fits_lia ])
  end.

(** Start from the empty run; end by moving the index. *)
Lemma run_start {A} (m : M A) s o r : m (splice s o []) = r -> m s = r.
Proof. by rewrite splice_nil. Qed.

Lemma enc_finish i d n (s : list Z) : 0 <= i -> 0 <= n -> i + n <= int_max -> d = n ->
  retM (0, index_add i d) s = Some ((0, i + n), s).
Proof. intros ? ? ? ->. unfold retM. rewrite index_add_ok; [done | lia ..]. Qed.

Ltac len_lia :=
  cbn [nonnull off padd at_off NULL] in *; autorewrite with len in *; simpl in *; lia.

Ltac enc_finish_tac :=
  apply enc_finish; unfold psub; len_lia.

Ltac enc_null := intros; cbn -[Z.of_nat]; enc_finish_tac.

Ltac enc_buf :=
  intros; cbn [isnull nonnull negb padd at_off off];
  match goal with
  | |- ?m ?s = Some (_, splice ?s ?o _) => apply (run_start m s o)
  end;
  repeat wstep; cbn [app]; enc_finish_tac.

(** ** Running a reader symbolically *)

(** Decide the tests on constants. *)
Ltac ctests :=
  repeat match goal with
    | |- context [?a =? ?b] =>
        let v := eval vm_compute in (a =? b) in
        match v with
        | true => change (a =? b) with true
        | false => change (a =? b) with false
        end
    end;
  cbn [negb andb orb].

(** Split what is known of the block into the pieces the reads name. *)
Ltac at_split :=
  repeat match goal with
    | H : at_ _ _ (_ ++ _) |- _ => apply at_app in H as [? ?]
    | H : at_ _ _ (_ :: _ :: _) |- _ => apply at_cons in H as [? ?]
    | H : at_ _ _ (_ :: be16 _) |- _ => apply at_cons in H as [? ?]
    | H : at_ _ _ (_ :: be32 _) |- _ => apply at_cons in H as [? ?]
    | H : at_ _ _ (_ :: be64 _) |- _ => apply at_cons in H as [? ?]
    | H : at_ _ _ (_ :: (_ ++ _)) |- _ => apply at_cons in H as [? ?]
    end.

Ltac off_tac := autorewrite with len; lia.

Ltac at_tac :=
  match goal with
  | H : at_ ?s ?o' ?x |- at_ ?s ?o _ =>
      first [ exact H | replace o with o' by off_tac; exact H ]
  end.

Ltac rstep :=
  rewrite ?bindD_assoc, ?bindD_ret;
  match goal with
  | |- context [bindD (get8 ?o) ?k ?s] =>
      erewrite (bindD_Some (get8 o) k s) by (eapply get8_at; [| at_tac]; is_byte_tac)
  | |- context [bindD (get16be ?o) ?k ?s] =>
      erewrite (bindD_Some (get16be o) k s) by (eapply get16be_at; at_tac)
  | |- context [bindD (get32be ?o) ?k ?s] =>
      erewrite (bindD_Some (get32be o) k s) by (eapply get32be_at; at_tac)
  | |- context [bindD (get32le ?o) ?k ?s] =>
      erewrite (bindD_Some (get32le o) k s) by (eapply get32le_at; at_tac)
  | |- context [bindD (get64be ?o) ?k ?s] =>
      erewrite (bindD_Some (get64be o) k s) by (eapply get64be_at; at_tac)
  end; cbv beta iota; ctests.

Lemma dec_finish {A} i d n (x y : A) (s : list Z) :
  0 <= i -> 0 <= n -> i + n <= int_max -> d = n -> x = y ->
  retD (Done (index_add i d) x) s = Some (Done (i + n) y).
Proof. intros ? ? ? -> ->. unfold retD. by rewrite index_add_ok by lia. Qed.

Ltac dec_finish_tac :=
  rewrite ?bindD_assoc, ?bindD_ret; cbv beta iota;
  apply dec_finish; [lia | lia | len_lia | len_lia |].
