(* ===== verification/Headers.v ===== *)
(** * Version byte, and the headers of tuples, maps and lists

    encode_version.c, encode_tuple_header.c, encode_list_header.c and their
    decoders. *)

From S2P Require Import Prelude Mem PutGet Ext.

(** ** Encoders *)

Definition ei_encode_version (buf : ptr) (index : Z) : M (Z * Z) :=
  let s := padd buf index in
  let s0 := s in
  let* s := (if isnull buf then retM (padd s 1) else put8 s ERL_VERSION_MAGIC) in
  retM (0, index_add index (psub s s0)).

Definition ei_encode_tuple_header (arity : Z) (buf : ptr) (index : Z) : M (Z * Z) :=
  let s := padd buf index in
  let s0 := s in
  if arity <? 0 then retM (-1, index) else
  let* s :=
    (if arity <=? 0xff then
       if isnull buf then retM (padd s 2)
       else let* s := put8 s ERL_SMALL_TUPLE_EXT in put8 s arity
     else
       if isnull buf then retM (padd s 5)
       else let* s := put8 s ERL_LARGE_TUPLE_EXT in put32be s arity) in
  retM (0, index_add index (psub s s0)).

Definition ei_encode_map_header (arity : Z) (buf : ptr) (index : Z) : M (Z * Z) :=
  let s := padd buf index in
  let s0 := s in
  if arity <? 0 then retM (-1, index) else
  let* s :=
    (if isnull buf then retM (padd s 5)
     else let* s := put8 s ERL_MAP_EXT in put32be s arity) in
  retM (0, index_add index (psub s s0)).

Definition ei_encode_list_header (arity : Z) (buf : ptr) (index : Z) : M (Z * Z) :=
  let s := padd buf index in
  let s0 := s in
  if arity <? 0 then retM (-1, index) else
  let* s :=
    (if 0 <? arity then
       if isnull buf then retM (padd s 5)
       else let* s := put8 s ERL_LIST_EXT in put32be s arity
     else
       if isnull buf then retM (padd s 1) else put8 s ERL_NIL_EXT) in
  retM (0, index_add index (psub s s0)).

(** [ei_encode_empty_list(buf, i)] is a macro of ei.h. *)
Definition ei_encode_empty_list (buf : ptr) (index : Z) : M (Z * Z) :=
  ei_encode_list_header 0 buf index.

(** ** Decoders *)

(** The version is stored through [version] whether or not it is the expected
    one; the result carries it only on success. *)
Definition ei_decode_version (version : bool) (buf index : Z) : D (cres (option Z)) :=
  let s := buf + index in
  let s0 := s in
  let+ (v, s) := get8 s in
  if negb (v =? ERL_VERSION_MAGIC) then retD Fail
  else retD (Done (index_add index (s - s0)) (out version v)).

Definition ei_decode_tuple_header (arity : bool) (buf index : Z) : D (cres (option Z)) :=
  let s := buf + index in
  let s0 := s in
  let+ (i, s) := get8 s in
  if i =? ERL_SMALL_TUPLE_EXT then
    let+ (a, s) := (if arity then let+ (n, s) := get8 s in retD (Some n, s)
                    else retD (None, s + 1)) in
    retD (Done (index_add index (s - s0)) a)
  else if i =? ERL_LARGE_TUPLE_EXT then
    let+ (a, s) := (if arity then let+ (n, s) := get32be s in retD (Some n, s)
                    else retD (None, s + 4)) in
    retD (Done (index_add index (s - s0)) a)
  else retD Fail.

Definition ei_decode_map_header (arity : bool) (buf index : Z) : D (cres (option Z)) :=
  let s := buf + index in
  let s0 := s in
  let+ (i, s) := get8 s in
  if i =? ERL_MAP_EXT then
    let+ (a, s) := (if arity then let+ (n, s) := get32be s in retD (Some n, s)
                    else retD (None, s + 4)) in
    retD (Done (index_add index (s - s0)) a)
  else retD Fail.

Definition ei_decode_list_header (arity : bool) (buf index : Z) : D (cres (option Z)) :=
  let s := buf + index in
  let s0 := s in
  let+ (i, s) := get8 s in
  if i =? ERL_NIL_EXT then
    retD (Done (index_add index (s - s0)) (out arity 0))
  else if i =? ERL_LIST_EXT then
    let+ (a, s) := (if arity then let+ (n, s) := get32be s in retD (Some n, s)
                    else retD (None, s + 4)) in
    retD (Done (index_add index (s - s0)) a)
  else retD Fail.

(** ** The bytes of a header *)

Definition ext_version : list Z := [ERL_VERSION_MAGIC].
Definition ext_tuple_header (arity : Z) : list Z :=
  if arity <=? 255 then [ERL_SMALL_TUPLE_EXT; byte arity]
  else ERL_LARGE_TUPLE_EXT :: be32 arity.
Definition ext_map_header (arity : Z) : list Z := ERL_MAP_EXT :: be32 arity.
Definition ext_list_header (arity : Z) : list Z :=
  if 0 <? arity then ERL_LIST_EXT :: be32 arity else [ERL_NIL_EXT].

(** ** The encoders write those bytes *)

#[export] Instance encode_version_ok : Encodes ei_encode_version ext_version.
Proof. split; unfold ei_encode_version; [enc_null | enc_buf]. Qed.

#[export] Instance encode_tuple_header_ok arity :
  0 <= arity -> Encodes (ei_encode_tuple_header arity) (ext_tuple_header arity).
Proof.
  intros Ha. unfold ext_tuple_header.
  split; unfold ei_encode_tuple_header;
    rewrite (proj2 (Z.ltb_ge _ _) Ha); destruct (arity <=? 255).
  - enc_null.
  - enc_null.
  - enc_buf.
  - enc_buf.
Qed.

#[export] Instance encode_map_header_ok arity :
  0 <= arity -> Encodes (ei_encode_map_header arity) (ext_map_header arity).
Proof.
  intros Ha. split; unfold ei_encode_map_header;
    rewrite (proj2 (Z.ltb_ge _ _) Ha); [enc_null | enc_buf].
Qed.

#[export] Instance encode_list_header_ok arity :
  0 <= arity -> Encodes (ei_encode_list_header arity) (ext_list_header arity).
Proof.
  intros Ha. unfold ext_list_header.
  split; unfold ei_encode_list_header;
    rewrite (proj2 (Z.ltb_ge _ _) Ha); destruct (0 <? arity);
    [enc_null .. | enc_buf | enc_buf].
Qed.

(** ** The decoders read them back *)

#[export] Instance decode_version_ok :
  Decodes ei_decode_version ext_version ERL_VERSION_MAGIC.
Proof.
  intros p b i s ? ? Ha. unfold ei_decode_version. rstep. by dec_finish_tac.
Qed.

#[export] Instance decode_tuple_header_ok arity :
  is_int32 arity -> 0 <= arity ->
  Decodes ei_decode_tuple_header (ext_tuple_header arity) arity.
Proof.
  unfold ext_tuple_header. intros Hr Hp p b i s ? ? Ha.
  unfold ei_decode_tuple_header. destruct (Z.leb_spec arity 255); at_split; rstep.
  - destruct p; [rstep |]; dec_finish_tac; [| done].
    unfold out. by rewrite byte_small by is_byte_tac.
  - destruct p; [rstep |]; dec_finish_tac; [| done].
    unfold out. by rewrite int32_small.
Qed.

#[export] Instance decode_map_header_ok arity :
  is_int32 arity -> Decodes ei_decode_map_header (ext_map_header arity) arity.
Proof.
  unfold ext_map_header. intros Hr p b i s ? ? Ha.
  unfold ei_decode_map_header. at_split. rstep.
  destruct p; [rstep |]; dec_finish_tac; [| done].
  unfold out. by rewrite int32_small.
Qed.

#[export] Instance decode_list_header_ok arity :
  is_int32 arity -> 0 <= arity ->
  Decodes ei_decode_list_header (ext_list_header arity) arity.
Proof.
  unfold ext_list_header. intros Hr Hp p b i s ? ? Ha.
  unfold ei_decode_list_header. destruct (Z.ltb_spec 0 arity); at_split; rstep.
  - destruct p; [rstep |]; dec_finish_tac; [| done].
    unfold out. by rewrite int32_small.
  - dec_finish_tac. by replace arity with 0 by lia.
Qed.
