(* ===== verification/Ints.v ===== *)
(** * Integers of machine width

    encode_char.c, encode_long.c, encode_longlong.c, encode_ulong.c,
    encode_ulonglong.c and their decoders. [ei_encode_long] and its relatives
    are compiled twice in the library: with EI_64BIT a [long] is handled by the
    [long long] code, otherwise by code of its own (the [_32] definitions). *)

From S2P Require Import Prelude Mem PutGet Ext.

(** ** Encoders *)

Definition ei_encode_char (p : Z) (buf : ptr) (index : Z) : M (Z * Z) :=
  let s := padd buf index in
  let s0 := s in
  let* s :=
    (if isnull buf then retM (padd s 2)
     else let* s := put8 s ERL_SMALL_INTEGER_EXT in put8 s (Z.land p 0xff)) in
  retM (0, index_add index (psub s s0)).

(** [#define abs(p) (((p)<0) ? -(p) : p)], stored in an unsigned variable of
    64 (or 32) bits. *)
Definition uabs64 (p : Z) : Z := uint64 (if p <? 0 then int64 (- p) else p).
Definition uabs32 (p : Z) : Z := uint32 (if p <? 0 then int32 (- p) else p).

(** [while (up) { *s++ = up & 0xff; up >>= 8; arity++; }]: an unsigned 64-bit
    [up] is 0 after at most eight rounds. *)
Fixpoint put_digits (fuel : nat) (s : ptr) (up arity : Z) : M (ptr * Z) :=
  match fuel with
  | O => ubM
  | S fuel =>
      if up =? 0 then retM (s, arity) else
      let* _ := store s (Z.land up 0xff) in
      put_digits fuel (padd s 1) (Z.shiftr up 8) (arity + 1)
  end.

(** The same loop in the measuring pass: [while (up) { s++; up >>= 8; }]. *)
Fixpoint skip_digits (fuel : nat) (s : ptr) (up : Z) : M ptr :=
  match fuel with
  | O => ubM
  | S fuel =>
      if up =? 0 then retM s else skip_digits fuel (padd s 1) (Z.shiftr up 8)
  end.

Definition ei_encode_longlong (p : Z) (buf : ptr) (index : Z) : M (Z * Z) :=
  let s := padd buf index in
  let s0 := s in
  let* s :=
    (if (p <? 256) && (0 <=? p) then
       if isnull buf then retM (padd s 2)
       else let* s := put8 s ERL_SMALL_INTEGER_EXT in put8 s (Z.land p 0xff)
     else if (p <=? ERL_MAX) && (ERL_MIN <=? p) then
       if isnull buf then retM (padd s 5)
       else let* s := put8 s ERL_INTEGER_EXT in put32be s p
     else
       let up := uabs64 p in
       if negb (isnull buf) then
         let* s := put8 s ERL_SMALL_BIG_EXT in
         let arityp := s in
         let s := padd s 1 in
         let* s := put8 s (if p <? 0 then 1 else 0) in
         let* (s, arity) := put_digits 9 s up 0 in
         let* _ := put8 arityp arity in
         retM s
       else
         let s := padd s 3 in
         skip_digits 9 s up) in
  retM (0, index_add index (psub s s0)).

Definition ei_encode_ulonglong (p : Z) (buf : ptr) (index : Z) : M (Z * Z) :=
  let s := padd buf index in
  let s0 := s in
  let* s :=
    (if p <? 256 then
       if isnull buf then retM (padd s 2)
       else let* s := put8 s ERL_SMALL_INTEGER_EXT in put8 s (Z.land p 0xff)
     else if p <=? ERL_MAX then
       if isnull buf then retM (padd s 5)
       else let* s := put8 s ERL_INTEGER_EXT in put32be s p
     else
       if negb (isnull buf) then
         let* s := put8 s ERL_SMALL_BIG_EXT in
         let arityp := s in
         let s := padd s 1 in
         let* s := put8 s 0 in
         let* (s, arity) := put_digits 9 s p 0 in
         let* _ := put8 arityp arity in
         retM s
       else
         let s := padd s 3 in
         skip_digits 9 s p) in
  retM (0, index_add index (psub s s0)).

(** With EI_64BIT. *)
Definition ei_encode_long (p : Z) (buf : ptr) (index : Z) : M (Z * Z) :=
  ei_encode_longlong p buf index.
Definition ei_encode_ulong (p : Z) (buf : ptr) (index : Z) : M (Z * Z) :=
  ei_encode_ulonglong p buf index.

(** Without: a [long] of 32 bits. *)
Definition ei_encode_long_32 (p : Z) (buf : ptr) (index : Z) : M (Z * Z) :=
  let s := padd buf index in
  let s0 := s in
  let* s :=
    (if (p <? 256) && (0 <=? p) then
       if isnull buf then retM (padd s 2)
       else let* s := put8 s ERL_SMALL_INTEGER_EXT in put8 s (Z.land p 0xff)
     else if (p <=? ERL_MAX) && (ERL_MIN <=? p) then
       if isnull buf then retM (padd s 5)
       else let* s := put8 s ERL_INTEGER_EXT in put32be s p
     else
       if isnull buf then retM (padd s 7)
       else
         let* s := put8 s ERL_SMALL_BIG_EXT in
         let* s := put8 s 4 in
         let* s := put8 s (if p <? 0 then 1 else 0) in
         put32le s (uabs32 p)) in
  retM (0, index_add index (psub s s0)).

Definition ei_encode_ulong_32 (p : Z) (buf : ptr) (index : Z) : M (Z * Z) :=
  let s := padd buf index in
  let s0 := s in
  let* s :=
    (if ERL_MAX <? p then
       if isnull buf then retM (padd s 7)
       else
         let* s := put8 s ERL_SMALL_BIG_EXT in
         let* s := put8 s 4 in
         let* s := put8 s 0 in
         put32le s p
     else if (p <? 256) && (0 <=? p) then
       if isnull buf then retM (padd s 2)
       else let* s := put8 s ERL_SMALL_INTEGER_EXT in put8 s (Z.land p 0xff)
     else
       if isnull buf then retM (padd s 5)
       else let* s := put8 s ERL_INTEGER_EXT in put32be s p) in
  retM (0, index_add index (psub s s0)).

(** ** Decoders *)

(** [for (i = 0; i < arity; i++) { if (i < w) u |= get8(s) << (i*8);
    else if (get8(s) != 0) return -1; }], [n] rounds left. *)
Fixpoint get_digits (w : Z) (n : nat) (i s u : Z) : D (option (Z * Z)) :=
  match n with
  | O => retD (Some (u, s))
  | S n =>
      let+ (d, s) := get8 s in
      if i <? w then
        get_digits w n (i + 1) s (Z.lor u (Z.shiftl d (i * 8)))
      else if negb (d =? 0) then retD None
      else get_digits w n (i + 1) s u
  end.

Definition MAX_TO_NEGATE : Z := 0x8000000000000000.
Definition MAX_TO_NOT_NEGATE : Z := 0x7FFFFFFFFFFFFFFF.

(** The shared [decode_big:] tail of the signed decoders: the sign, the digits
    and the overflow checks. *)
Definition decode_big_signed (arity s : Z) : D (option (Z * Z)) :=
  let+ (sign, s) := get8 s in
  let+ r := get_digits 8 (Z.to_nat arity) 0 s 0 in
  match r with
  | None => retD None
  | Some (u, s) =>
      if negb (sign =? 0) then
        if MAX_TO_NEGATE <? u then retD None
        else retD (Some (int64 (- int64 u), s))
      else
        if MAX_TO_NOT_NEGATE <? u then retD None
        else retD (Some (int64 u, s))
  end.

(** [if (p) *p = n; *index += s-s0; return 0;] after the switch. *)
Definition dec_int_finish (p : bool) (index s0 : Z) (r : option (Z * Z))
    : D (cres (option Z)) :=
  match r with
  | None => retD Fail
  | Some (n, s) => retD (Done (index_add index (s - s0)) (out p n))
  end.

Definition ei_decode_longlong (p : bool) (buf index : Z) : D (cres (option Z)) :=
  let s := buf + index in
  let s0 := s in
  let+ (tag, s) := get8 s in
  let+ r :=
    (if tag =? ERL_SMALL_INTEGER_EXT then
       let+ (n, s) := get8 s in retD (Some (n, s))
     else if tag =? ERL_INTEGER_EXT then
       let+ (n, s) := get32be s in retD (Some (n, s))
     else if tag =? ERL_SMALL_BIG_EXT then
       let+ (arity, s) := get8 s in decode_big_signed arity s
     else if tag =? ERL_LARGE_BIG_EXT then
       let+ (arity, s) := get32be s in decode_big_signed arity s
     else retD None) in
  dec_int_finish p index s0 r.

Definition decode_big_unsigned (w arity s : Z) : D (option (Z * Z)) :=
  let+ (sign, s) := get8 s in
  if negb (sign =? 0) then retD None else
  get_digits w (Z.to_nat arity) 0 s 0.

Definition ei_decode_ulonglong (p : bool) (buf index : Z) : D (cres (option Z)) :=
  let s := buf + index in
  let s0 := s in
  let+ (tag, s) := get8 s in
  let+ r :=
    (if tag =? ERL_SMALL_INTEGER_EXT then
       let+ (n, s) := get8 s in retD (Some (n, s))
     else if tag =? ERL_INTEGER_EXT then
       let+ (sn, s) := get32be s in
       if sn <? 0 then retD None else retD (Some (sn, s))
     else if tag =? ERL_SMALL_BIG_EXT then
       let+ (arity, s) := get8 s in decode_big_unsigned 8 arity s
     else if tag =? ERL_LARGE_BIG_EXT then
       let+ (arity, s) := get32be s in decode_big_unsigned 8 arity s
     else retD None) in
  dec_int_finish p index s0 r.

(** With EI_64BIT. *)
Definition ei_decode_long (p : bool) (buf index : Z) : D (cres (option Z)) :=
  ei_decode_longlong p buf index.
Definition ei_decode_ulong (p : bool) (buf index : Z) : D (cres (option Z)) :=
  ei_decode_ulonglong p buf index.

(** Without: four digits, and the limits of a 32-bit [long]. The shifted
    digit is an [int]; or-ing it into [u] converts it to 32 unsigned bits. *)
Definition decode_big_signed_32 (arity s : Z) : D (option (Z * Z)) :=
  let+ (sign, s) := get8 s in
  let+ r := get_digits 4 (Z.to_nat arity) 0 s 0 in
  match r with
  | None => retD None
  | Some (u, s) =>
      if negb (sign =? 0) then
        if 0x80000000 <? u then retD None
        else retD (Some (int32 (- int32 u), s))
      else
        if 0x7FFFFFFF <? u then retD None
        else retD (Some (int32 u, s))
  end.

Definition ei_decode_long_32 (p : bool) (buf index : Z) : D (cres (option Z)) :=
  let s := buf + index in
  let s0 := s in
  let+ (tag, s) := get8 s in
  let+ r :=
    (if tag =? ERL_SMALL_INTEGER_EXT then
       let+ (n, s) := get8 s in retD (Some (n, s))
     else if tag =? ERL_INTEGER_EXT then
       let+ (n, s) := get32be s in retD (Some (n, s))
     else if tag =? ERL_SMALL_BIG_EXT then
       let+ (arity, s) := get8 s in decode_big_signed_32 arity s
     else if tag =? ERL_LARGE_BIG_EXT then
       let+ (arity, s) := get32be s in decode_big_signed_32 arity s
     else retD None) in
  dec_int_finish p index s0 r.

Definition ei_decode_ulong_32 (p : bool) (buf index : Z) : D (cres (option Z)) :=
  let s := buf + index in
  let s0 := s in
  let+ (tag, s) := get8 s in
  let+ r :=
    (if tag =? ERL_SMALL_INTEGER_EXT then
       let+ (n, s) := get8 s in retD (Some (n, s))
     else if tag =? ERL_INTEGER_EXT then
       let+ (sn, s) := get32be s in
       if sn <? 0 then retD None else retD (Some (sn, s))
     else if tag =? ERL_SMALL_BIG_EXT then
       let+ (arity, s) := get8 s in decode_big_unsigned 4 arity s
     else if tag =? ERL_LARGE_BIG_EXT then
       let+ (arity, s) := get32be s in decode_big_unsigned 4 arity s
     else retD None) in
  dec_int_finish p index s0 r.

(** The bytes after the first have to be 0: [for (i = 1; i < arity; i++)]. *)
Fixpoint char_zeros (n : nat) (s : Z) : D (option Z) :=
  match n with
  | O => retD (Some s)
  | S n =>
      let+ d := load s in
      if negb (d =? 0) then retD None else char_zeros n (s + 1)
  end.

(** The first byte after the sign is the value, whatever the arity. *)
Definition decode_big_char (arity s : Z) : D (option (Z * Z)) :=
  let+ (sign, s) := get8 s in
  if negb (sign =? 0) then retD None else
  let+ (n, s) := get8 s in
  let+ r := char_zeros (Z.to_nat (arity - 1)) s in
  match r with None => retD None | Some s => retD (Some (n, s)) end.

Definition ei_decode_char (p : bool) (buf index : Z) : D (cres (option Z)) :=
  let s := buf + index in
  let s0 := s in
  let+ (tag, s) := get8 s in
  let+ r :=
    (if tag =? ERL_SMALL_INTEGER_EXT then
       let+ (n, s) := get8 s in retD (Some (n, s))
     else if tag =? ERL_INTEGER_EXT then
       let+ (n, s) := get32be s in
       if (n <? 0) || (255 <? n) then retD None else retD (Some (n, s))
     else if tag =? ERL_SMALL_BIG_EXT then
       let+ (arity, s) := get8 s in decode_big_char arity s
     else if tag =? ERL_LARGE_BIG_EXT then
       let+ (arity, s) := get32be s in decode_big_char arity s
     else retD None) in
  dec_int_finish p index s0 r.

(** ** The bytes of an integer *)

Definition ext_big (neg n : Z) (k : nat) : list Z :=
  [ERL_SMALL_BIG_EXT; byte (len (digits k n)); neg] ++ digits k n.

Definition neg_bit (p : Z) : Z := if p <? 0 then 1 else 0.

Definition ext_longlong (p : Z) : list Z :=
  if (p <? 256) && (0 <=? p) then [ERL_SMALL_INTEGER_EXT; byte p]
  else if (p <=? ERL_MAX) && (ERL_MIN <=? p) then ERL_INTEGER_EXT :: be32 p
  else ext_big (neg_bit p) (Z.abs p) 8.

Definition ext_ulonglong (p : Z) : list Z := ext_longlong p.

Definition ext_char (p : Z) : list Z := [ERL_SMALL_INTEGER_EXT; byte p].

(** Without EI_64BIT a big always has four digits. *)
Definition ext_long_32 (p : Z) : list Z :=
  if (p <? 256) && (0 <=? p) then [ERL_SMALL_INTEGER_EXT; byte p]
  else if (p <=? ERL_MAX) && (ERL_MIN <=? p) then ERL_INTEGER_EXT :: be32 p
  else [ERL_SMALL_BIG_EXT; 4; neg_bit p] ++ le32 (Z.abs p).

(** ** The encoders *)

Lemma uabs64_abs p : is_int64 p -> uabs64 p = Z.abs p.
Proof.
  unfold is_int64, uabs64. intros Hp. destruct (Z.ltb_spec p 0).
  - destruct (decide (p = - 9223372036854775808)) as [-> |]; [done |].
    rewrite int64_small, uint64_small by (unfold is_int64, is_uint64; lia). lia.
  - rewrite uint64_small by (unfold is_uint64; lia). lia.
Qed.

Lemma uabs32_abs p : is_int32 p -> uabs32 p = Z.abs p.
Proof.
  unfold is_int32, uabs32. intros Hp. destruct (Z.ltb_spec p 0).
  - destruct (decide (p = - 2147483648)) as [-> |]; [done |].
    rewrite int32_small, uint32_small by (unfold is_int32, is_uint32; lia). lia.
  - rewrite uint32_small by (unfold is_uint32; lia). lia.
Qed.

Lemma skip_digits_S f s up : skip_digits (S f) s up =
  if up =? 0 then retM s else skip_digits f (padd s 1) (Z.shiftr up 8).
Proof. done. Qed.

Lemma put_digits_S f s up arity : put_digits (S f) s up arity =
  if up =? 0 then retM (s, arity) else
  let* _ := store s (Z.land up 0xff) in
  put_digits f (padd s 1) (Z.shiftr up 8) (arity + 1).
Proof. done. Qed.

Lemma skip_digits_ok k o n s : 0 <= n < 256 ^ Z.of_nat k ->
  skip_digits (S k) (Ptr false o) n s = Some (Ptr false (o + len (digits k n)), s).
Proof.
  revert o n. induction k as [| k IH]; intros o n Hn.
  - change (256 ^ Z.of_nat 0) with 1 in Hn. replace n with 0 by lia. simpl.
    unfold retM. by rewrite Z.add_0_r.
  - rewrite pow256_succ in Hn. rewrite skip_digits_S. cbn [digits].
    destruct (Z.eqb_spec n 0).
    + simpl. unfold retM. by rewrite Z.add_0_r.
    + rewrite Z.shiftr_div_pow2 by lia. unfold padd; cbn [nonnull off].
      rewrite IH by (change (2 ^ 8) with 256; dlia).
      rewrite len_cons. change (2 ^ 8) with 256. do 3 f_equal. lia.
Qed.

Lemma put_digits_ok k o bs n ar s :
  0 <= n < 256 ^ Z.of_nat k -> fits s o (bs ++ digits k n) ->
  put_digits (S k) (at_off (o + len bs)) n ar (splice s o bs)
  = Some ((at_off (o + len (bs ++ digits k n)), ar + len (digits k n)),
          splice s o (bs ++ digits k n)).
Proof.
  revert bs n ar. induction k as [| k IH]; intros bs n ar Hn Hf.
  - change (256 ^ Z.of_nat 0) with 1 in Hn. replace n with 0 by lia. simpl.
    unfold retM. by rewrite app_nil_r, Z.add_0_r.
  - rewrite pow256_succ in Hn.
    rewrite put_digits_S. cbn [digits] in *. destruct (Z.eqb_spec n 0).
    + simpl. unfold retM. by rewrite app_nil_r, Z.add_0_r.
    + destruct Hf as [? Hf]. rewrite len_app, len_cons in Hf.
      erewrite bindM_Some by
        (apply store_ok, fits_splice; split; rewrite ?len_app; simpl; lia).
      rewrite splice_app by (split; rewrite ?len_app; simpl; lia).
      rewrite byte_idem.
      change (padd (at_off (o + len bs)) 1) with (at_off (o + len bs + 1)).
      rewrite Z.shiftr_div_pow2 by lia. change (2 ^ 8) with 256.
      specialize (IH (bs ++ [byte n]) (n / 256) (ar + 1)).
      rewrite len_app, <- app_assoc, Z.add_assoc in IH.
      cbn [app length] in IH. change (Z.of_nat 1) with 1 in IH.
      rewrite IH by (first [dlia | split; rewrite ?len_app, ?len_cons; lia]).
      by rewrite len_cons, Z.add_assoc.
Qed.

Lemma wdigits {A} k n bs o p ar s (c : ptr * Z -> M A) :
  0 <= n < 256 ^ Z.of_nat k -> p = at_off (o + len bs) ->
  fits s o (bs ++ digits k n) ->
  bindM (put_digits (S k) p n ar) c (splice s o bs)
  = c (at_off (o + len (bs ++ digits k n)), ar + len (digits k n))
      (splice s o (bs ++ digits k n)).
Proof. intros ? -> ?. by erewrite bindM_Some by (by apply put_digits_ok). Qed.

Lemma wpatch {A} v b1 x b2 o p s (c : ptr -> M A) :
  p = at_off (o + len b1) -> fits s o (b1 ++ [x] ++ b2) ->
  bindM (put8 p v) c (splice s o (b1 ++ [x] ++ b2))
  = c (at_off (o + len b1 + 1)) (splice s o (b1 ++ [byte v] ++ b2)).
Proof.
  intros -> Hf.
  assert (fits s (o + len b1) [byte v]).
  { destruct Hf as [? Hf]. rewrite !len_app in Hf. simpl in Hf. split; simpl; lia. }
  erewrite bindM_Some by (apply put8_writes, fits_splice; done).
  by rewrite splice_patch.
Qed.

(** The big branch shared by the two 64-bit encoders. *)
Lemma big_branch_ok n neg o s :
  0 <= n < 256 ^ 8 -> is_byte neg -> fits s o (ext_big neg n 8) ->
  (let* s := put8 (at_off o) ERL_SMALL_BIG_EXT in
   let arityp := s in
   let s := padd s 1 in
   let* s := put8 s neg in
   let* (s, arity) := put_digits 9 s n 0 in
   let* _ := put8 arityp arity in
   retM s) s = Some (at_off (o + len (ext_big neg n 8)), splice s o (ext_big neg n 8)).
Proof.
  intros Hn Hneg Hf. unfold ext_big in *.
  destruct Hf as [? Hf]. rewrite len_app in Hf. cbn [length] in Hf.
  apply (run_start _ s o). wstep. cbn [app].
  destruct (splice_skip s o [byte ERL_SMALL_BIG_EXT]) as [h Hh]; [split; simpl; lia |].
  rewrite Hh. cbn [app]. wstep. cbn [app].
  rewrite (wdigits 8 n); [| done | unfold padd; simpl; f_equal; lia
                         | split; cbn [app length]; lia].
  cbn [app].
  rewrite (wpatch _ [byte ERL_SMALL_BIG_EXT] h (byte neg :: digits 8 n));
    [| done | split; cbn [app length]; lia].
  unfold retM. rewrite (byte_small neg Hneg), Z.add_0_l. cbn [app length].
  do 3 f_equal.
Qed.

Lemma is_byte_neg_bit p : is_byte (neg_bit p).
Proof. unfold neg_bit, is_byte. destruct (p <? 0); lia. Qed.

Lemma len_ext_big neg n k : len (ext_big neg n k) = 3 + len (digits k n).
Proof. unfold ext_big. rewrite len_app. simpl. lia. Qed.

#[export] Instance encode_longlong_ok p :
  is_int64 p -> Encodes (ei_encode_longlong p) (ext_longlong p).
Proof.
  intros Hp. assert (Hn : 0 <= Z.abs p < 256 ^ 8) by (unfold is_int64 in Hp; lia).
  unfold ext_longlong, ei_encode_longlong.
  destruct ((p <? 256) && (0 <=? p)); [split; [enc_null | ]; rewrite <- byte_idem; enc_buf |].
  destruct ((p <=? ERL_MAX) && (ERL_MIN <=? p)); [split; [enc_null | enc_buf] |].
  rewrite uabs64_abs by done. split.
  - intros i s ? Hl. rewrite len_ext_big in *. cbn [isnull nonnull NULL negb padd off].
    erewrite bindM_Some by (apply (skip_digits_ok 8); done).
    apply enc_finish; unfold psub, padd; cbn [off at_off NULL]; lia.
  - intros b i s ? Hl Hf. cbn [isnull nonnull negb padd off at_off]. fold (neg_bit p).
    erewrite bindM_Some by (apply big_branch_ok; [done | apply is_byte_neg_bit | done]).
    apply enc_finish; unfold psub, padd; cbn [off at_off NULL]; lia.
Qed.

#[export] Instance encode_ulonglong_ok p :
  is_uint64 p -> Encodes (ei_encode_ulonglong p) (ext_ulonglong p).
Proof.
  unfold is_uint64. intros Hp.
  unfold ext_ulonglong, ext_longlong, ei_encode_ulonglong.
  rewrite (proj2 (Z.leb_le 0 p)), andb_true_r by lia.
  assert (Hm : (ERL_MIN <=? p) = true) by (apply Z.leb_le; change ERL_MIN with (-134217728); lia).
  rewrite Hm, andb_true_r.
  destruct (p <? 256); [split; [enc_null | ]; rewrite <- byte_idem; enc_buf |].
  destruct (p <=? ERL_MAX); [split; [enc_null | enc_buf] |].
  unfold neg_bit. rewrite (proj2 (Z.ltb_ge p 0)), Z.abs_eq by lia. split.
  - intros i s ? Hl. rewrite len_ext_big in *. cbn [isnull nonnull NULL negb padd off].
    erewrite bindM_Some by (apply (skip_digits_ok 8); done).
    apply enc_finish; unfold psub, padd; cbn [off at_off NULL]; lia.
  - intros b i s ? Hl Hf. cbn [isnull nonnull negb padd off at_off].
    erewrite bindM_Some by (apply big_branch_ok; [done | unfold is_byte; lia | done]).
    apply enc_finish; unfold psub, padd; cbn [off at_off NULL]; lia.
Qed.

#[export] Instance encode_long_32_ok p :
  is_int32 p -> Encodes (ei_encode_long_32 p) (ext_long_32 p).
Proof.
  intros Hp. unfold ext_long_32, ei_encode_long_32.
  destruct ((p <? 256) && (0 <=? p)); [split; [enc_null | ]; rewrite <- byte_idem; enc_buf |].
  destruct ((p <=? ERL_MAX) && (ERL_MIN <=? p)); [split; [enc_null | enc_buf] |].
  rewrite uabs32_abs by done. unfold neg_bit.
  destruct (p <? 0); (split; [enc_null | enc_buf]).
Qed.

#[export] Instance encode_ulong_32_ok p :
  is_uint32 p -> Encodes (ei_encode_ulong_32 p) (ext_long_32 p).
Proof.
  unfold is_uint32. intros Hp. unfold ext_long_32, ei_encode_ulong_32.
  assert (Hm : (ERL_MIN <=? p) = true) by (apply Z.leb_le; change ERL_MIN with (-134217728); lia).
  rewrite Hm, andb_true_r. rewrite (Z.ltb_antisym p ERL_MAX).
  destruct (Z.leb_spec p ERL_MAX); cbn [negb].
  - destruct ((p <? 256) && (0 <=? p)); split; try enc_null; [| enc_buf].
    rewrite <- byte_idem; enc_buf.
  - unfold neg_bit. rewrite (proj2 (Z.ltb_ge p 0)), Z.abs_eq by lia.
    assert ((p <? 256) = false) as ->
      by (apply Z.ltb_ge; change ERL_MAX with 134217727 in *; lia).
    split; [enc_null | enc_buf].
Qed.

#[export] Instance encode_char_ok p : Encodes (ei_encode_char p) (ext_char p).
Proof.
  unfold ext_char. split; unfold ei_encode_char; [enc_null |].
  rewrite <- byte_idem. enc_buf.
Qed.

(** ** The decoders *)

Lemma lor_digit u d i : 0 <= i -> 0 <= u < 256 ^ i ->
  Z.lor u (Z.shiftl d (i * 8)) = u + d * 256 ^ i.
Proof.
  intros Hi Hu. assert (Hp : 2 ^ (i * 8) = 256 ^ i)
    by (rewrite Z.mul_comm, Z.pow_mul_r by lia; done).
  rewrite Z.lor_comm, lor_disjoint by (rewrite ?Hp; lia). rewrite Hp. lia.
Qed.

(** Past the width the digits have to be zero. *)
Lemma get_digits_zeros w ds : forall i o u s,
  w <= i -> Forall is_byte ds -> at_ s o ds ->
  get_digits w (length ds) i o u s
  = Some (if le_val ds =? 0 then Some (u, o + len ds) else None).
Proof.
  induction ds as [| d ds IH]; intros i o u s Hi Hb Ha.
  - cbn. by rewrite Z.add_0_r.
  - inversion Hb as [| ? ? Hd Hds]; subst. apply at_cons in Ha as [Ha1 Ha2].
    cbn [length get_digits le_val].
    erewrite bindD_Some by (by eapply get8_at). cbv beta iota.
    rewrite (proj2 (Z.ltb_ge i w)) by lia.
    pose proof (le_val_range ds Hds). unfold is_byte in Hd.
    destruct (Z.eqb_spec d 0) as [-> |]; cbn [negb].
    + rewrite IH by (done || lia). rewrite Z.add_0_l.
      replace (256 * le_val ds =? 0) with (le_val ds =? 0) by lia.
      rewrite (Nat2Z.inj_succ (length ds)).
      by replace (o + 1 + len ds) with (o + Z.succ (len ds)) by lia.
    + by replace (d + 256 * le_val ds =? 0) with false by lia.
Qed.

Lemma get_digits_ok w ds : forall i o u s,
  0 <= i <= w -> 0 <= u < 256 ^ i -> Forall is_byte ds -> at_ s o ds ->
  get_digits w (length ds) i o u s
  = Some (if u + 256 ^ i * le_val ds <? 256 ^ w
          then Some (u + 256 ^ i * le_val ds, o + len ds) else None).
Proof.
  induction ds as [| d ds IH]; intros i o u s Hi Hu Hb Ha.
  - cbn [le_val length get_digits]. rewrite Z.mul_0_r, !Z.add_0_r.
    pose proof (Z.pow_le_mono_r 256 i w). by rewrite (proj2 (Z.ltb_lt _ _)) by lia.
  - inversion Hb as [| ? ? Hd Hds]; subst.
    pose proof (le_val_range ds Hds) as Hr. destruct (decide (i = w)) as [-> |].
    + rewrite get_digits_zeros by (done || lia).
      pose proof (le_val_range _ Hb). set (v := le_val (d :: ds)) in *.
      destruct (Z.eqb_spec v 0) as [-> |].
      * by rewrite Z.mul_0_r, Z.add_0_r, (proj2 (Z.ltb_lt _ _)) by lia.
      * by rewrite (proj2 (Z.ltb_ge _ _)) by nia.
    + apply at_cons in Ha as [Ha1 Ha2]. cbn [length get_digits le_val].
      erewrite bindD_Some by (by eapply get8_at). cbv beta iota.
      rewrite (proj2 (Z.ltb_lt i w)) by lia. rewrite lor_digit by lia.
      unfold is_byte in Hd.
      assert (Hp : 256 ^ (i + 1) = 256 * 256 ^ i) by (rewrite Z.pow_add_r; lia).
      rewrite IH by (first [done | lia | rewrite Hp; nia]).
      replace (u + d * 256 ^ i + 256 ^ (i + 1) * le_val ds)
        with (u + 256 ^ i * (d + 256 * le_val ds)) by (rewrite Hp; lia).
      rewrite (Nat2Z.inj_succ (length ds)).
      by replace (o + 1 + len ds) with (o + Z.succ (len ds)) by lia.
Qed.

(** The value of a big with sign byte [sign] and magnitude [v], when a signed
    integer with maximum [max] holds it. *)
Definition signed_of (max sign v : Z) : option Z :=
  if sign =? 0 then (if v <=? max then Some v else None)
  else if v <=? max + 1 then Some (- v) else None.

Definition unsigned_of (max sign v : Z) : option Z :=
  if (sign =? 0) && (v <=? max) then Some v else None.

Definition with_end (o : Z) (r : option Z) : option (Z * Z) :=
  match r with Some n => Some (n, o) | None => None end.

Ltac big_tac Ha :=
  apply at_cons in Ha as [? ?];
  match goal with
  | |- context [bindD (get8 ?o) ?k ?s] =>
      erewrite (bindD_Some (get8 o) k s) by (by eapply get8_at)
  end; cbv beta iota.

Lemma decode_big_signed_ok sign ds o s :
  is_byte sign -> Forall is_byte ds -> at_ s o (sign :: ds) ->
  decode_big_signed (len ds) o s
  = Some (with_end (o + 1 + len ds) (signed_of 9223372036854775807 sign (le_val ds))).
Proof.
  intros Hs Hb Ha. unfold decode_big_signed, signed_of. big_tac Ha.
  rewrite Nat2Z.id. pose proof (le_val_range ds Hb).
  erewrite bindD_Some by (apply get_digits_ok; [lia | done | done | done]).
  rewrite Z.add_0_l, Z.mul_1_l. change (256 ^ 8) with 18446744073709551616.
  unfold MAX_TO_NEGATE, MAX_TO_NOT_NEGATE.
  set (v := le_val ds) in *.
  destruct (Z.ltb_spec v 18446744073709551616), (Z.eqb_spec sign 0); cbn [negb];
    repeat match goal with
    | |- context [?a <? v] => destruct (Z.ltb_spec a v)
    | |- context [v <=? ?a] => destruct (Z.leb_spec v a)
    end; try lia; unfold retD, with_end; try done.
  - by rewrite int64_small by (unfold is_int64; lia).
  - destruct (decide (v = 9223372036854775808)) as [-> |]; [done |].
    by rewrite (int64_small v), int64_small by (unfold is_int64; lia).
Qed.

Lemma decode_big_signed_32_ok sign ds o s :
  is_byte sign -> Forall is_byte ds -> at_ s o (sign :: ds) ->
  decode_big_signed_32 (len ds) o s
  = Some (with_end (o + 1 + len ds) (signed_of 2147483647 sign (le_val ds))).
Proof.
  intros Hs Hb Ha. unfold decode_big_signed_32, signed_of. big_tac Ha.
  rewrite Nat2Z.id. pose proof (le_val_range ds Hb).
  erewrite bindD_Some by (apply get_digits_ok; [lia | done | done | done]).
  rewrite Z.add_0_l, Z.mul_1_l. change (256 ^ 4) with 4294967296.
  set (v := le_val ds) in *.
  destruct (Z.ltb_spec v 4294967296), (Z.eqb_spec sign 0); cbn [negb];
    repeat match goal with
    | |- context [?a <? v] => destruct (Z.ltb_spec a v)
    | |- context [v <=? ?a] => destruct (Z.leb_spec v a)
    end; try lia; unfold retD, with_end; try done.
  - by rewrite int32_small by (unfold is_int32; lia).
  - destruct (decide (v = 2147483648)) as [-> |]; [done |].
    by rewrite (int32_small v), int32_small by (unfold is_int32; lia).
Qed.

Lemma decode_big_unsigned_ok w sign ds o s :
  0 <= w -> is_byte sign -> Forall is_byte ds -> at_ s o (sign :: ds) ->
  decode_big_unsigned w (len ds) o s
  = Some (with_end (o + 1 + len ds) (unsigned_of (256 ^ w - 1) sign (le_val ds))).
Proof.
  intros Hw Hs Hb Ha. unfold decode_big_unsigned, unsigned_of. big_tac Ha.
  destruct (Z.eqb_spec sign 0); cbn [negb andb]; [| done].
  rewrite Nat2Z.id, get_digits_ok by (done || lia).
  rewrite Z.add_0_l, Z.mul_1_l.
  destruct (Z.ltb_spec (le_val ds) (256 ^ w)), (Z.leb_spec (le_val ds) (256 ^ w - 1));
    (done || lia).
Qed.

(** Every external form of an integer: the tagged byte, the tagged 32-bit
    word, and the two big forms with any number of digits (leading zeros
    included). *)
Inductive int_ext : Z -> list Z -> Prop :=
  | int_ext_small n : is_byte n -> int_ext n [ERL_SMALL_INTEGER_EXT; n]
  | int_ext_int n : is_int32 n -> int_ext n (ERL_INTEGER_EXT :: be32 n).

Inductive big_ext : Z -> list Z -> list Z -> Prop :=
  | big_ext_small sign ds :
      is_byte sign -> Forall is_byte ds -> len ds < 256 ->
      big_ext sign ds ([ERL_SMALL_BIG_EXT; len ds] ++ sign :: ds)
  | big_ext_large sign ds :
      is_byte sign -> Forall is_byte ds -> len ds <= int_max ->
      big_ext sign ds ((ERL_LARGE_BIG_EXT :: be32 (len ds)) ++ sign :: ds).

Definition dec_result (p : bool) (i : Z) (r : option Z) : cres (option Z) :=
  match r with Some n => Done i (out p n) | None => Fail end.

Lemma dec_int_finish_ok p i o d n r s :
  0 <= i -> 0 <= n -> i + n <= int_max -> d = o + n ->
  dec_int_finish p i o (with_end d r) s = Some (dec_result p (i + n) r).
Proof.
  intros ? ? ? ->. unfold dec_int_finish, with_end, dec_result.
  destruct r; [| done]. unfold retD. rewrite index_add_ok by lia. do 3 f_equal. lia.
Qed.

(** The decoders of bigs read the header of either form, and leave the sign
    and the digits to their common tail. *)
Ltac big_dec_tac tail :=
  intros He ? ? Ha; destruct He as [sign ds Hs Hb Hl | sign ds Hs Hb Hl];
  at_split; rstep; rstep;
  rewrite ?(int32_small (len ds)) by (unfold is_int32, int_max in *; lia);
  erewrite bindD_Some by
    (apply tail; first [done | lia | at_tac]);
  cbv beta iota; apply dec_int_finish_ok; autorewrite with len in *; lia.

Lemma decode_longlong_big sign ds bs p b i s :
  big_ext sign ds bs -> 0 <= i -> i + len bs <= int_max -> at_ s (b + i) bs ->
  ei_decode_longlong p b i s
  = Some (dec_result p (i + len bs) (signed_of 9223372036854775807 sign (le_val ds))).
Proof. unfold ei_decode_longlong. big_dec_tac decode_big_signed_ok. Qed.

Lemma decode_ulonglong_big sign ds bs p b i s :
  big_ext sign ds bs -> 0 <= i -> i + len bs <= int_max -> at_ s (b + i) bs ->
  ei_decode_ulonglong p b i s
  = Some (dec_result p (i + len bs) (unsigned_of 18446744073709551615 sign (le_val ds))).
Proof. unfold ei_decode_ulonglong. big_dec_tac (decode_big_unsigned_ok 8). Qed.

Lemma decode_long_32_big sign ds bs p b i s :
  big_ext sign ds bs -> 0 <= i -> i + len bs <= int_max -> at_ s (b + i) bs ->
  ei_decode_long_32 p b i s
  = Some (dec_result p (i + len bs) (signed_of 2147483647 sign (le_val ds))).
Proof. unfold ei_decode_long_32. big_dec_tac decode_big_signed_32_ok. Qed.

Lemma decode_ulong_32_big sign ds bs p b i s :
  big_ext sign ds bs -> 0 <= i -> i + len bs <= int_max -> at_ s (b + i) bs ->
  ei_decode_ulong_32 p b i s
  = Some (dec_result p (i + len bs) (unsigned_of 4294967295 sign (le_val ds))).
Proof. unfold ei_decode_ulong_32. big_dec_tac (decode_big_unsigned_ok 4). Qed.

(** The two small forms: the signed decoders accept both, the unsigned ones
    refuse a negative word. *)
Ltac int_dec_tac :=
  intros He ? ? Ha; destruct He as [n Hn | n Hn]; at_split; rstep; rstep;
  rewrite ?(int32_small n) by done.

Ltac int_finish_tac n :=
  cbv beta iota;
  match goal with
  | |- context [retD (Some (n, ?o))] =>
      change (Some (n, o)) with (with_end o (Some n)); rewrite ?bindD_ret
  end; apply dec_int_finish_ok; autorewrite with len in *; lia.

Lemma decode_longlong_int n bs p b i s :
  int_ext n bs -> 0 <= i -> i + len bs <= int_max -> at_ s (b + i) bs ->
  ei_decode_longlong p b i s = Some (Done (i + len bs) (out p n)).
Proof.
  change (Done (i + len bs) (out p n)) with (dec_result p (i + len bs) (Some n)).
  unfold ei_decode_longlong. int_dec_tac; int_finish_tac n.
Qed.

Definition nonneg_of (n : Z) : option Z := if n <? 0 then None else Some n.

Lemma decode_long_32_int n bs p b i s :
  int_ext n bs -> 0 <= i -> i + len bs <= int_max -> at_ s (b + i) bs ->
  ei_decode_long_32 p b i s = Some (Done (i + len bs) (out p n)).
Proof.
  change (Done (i + len bs) (out p n)) with (dec_result p (i + len bs) (Some n)).
  unfold ei_decode_long_32. int_dec_tac; int_finish_tac n.
Qed.

Lemma decode_ulonglong_int n bs p b i s :
  int_ext n bs -> 0 <= i -> i + len bs <= int_max -> at_ s (b + i) bs ->
  ei_decode_ulonglong p b i s = Some (dec_result p (i + len bs) (nonneg_of n)).
Proof.
  unfold ei_decode_ulonglong, nonneg_of. int_dec_tac.
  - rewrite (proj2 (Z.ltb_ge n 0)) by (unfold is_byte in *; lia). int_finish_tac n.
  - destruct (n <? 0); [done |]. int_finish_tac n.
Qed.

Lemma decode_ulong_32_int n bs p b i s :
  int_ext n bs -> 0 <= i -> i + len bs <= int_max -> at_ s (b + i) bs ->
  ei_decode_ulong_32 p b i s = Some (dec_result p (i + len bs) (nonneg_of n)).
Proof.
  unfold ei_decode_ulong_32, nonneg_of. int_dec_tac.
  - rewrite (proj2 (Z.ltb_ge n 0)) by (unfold is_byte in *; lia). int_finish_tac n.
  - destruct (n <? 0); [done |]. int_finish_tac n.
Qed.

(** ** Round trips *)

Lemma ext_big_big_ext neg n k :
  is_byte neg -> (k < 256)%nat -> big_ext neg (digits k n) (ext_big neg n k).
Proof.
  intros Hn Hk. pose proof (length_digits k n). unfold ext_big.
  rewrite byte_small by (unfold is_byte; lia).
  apply (big_ext_small neg (digits k n)); [done | apply digits_byte | lia].
Qed.

Lemma signed_of_neg_bit max p :
  - max - 1 <= p <= max -> signed_of max (neg_bit p) (Z.abs p) = Some p.
Proof.
  intros. unfold signed_of, neg_bit. destruct (Z.ltb_spec p 0); cbn.
  - rewrite (proj2 (Z.leb_le _ _)) by lia. f_equal. lia.
  - rewrite (proj2 (Z.leb_le _ _)) by lia. f_equal. lia.
Qed.

(** The small cases of an encoder's output are the tagged byte and word. *)
Lemma ext_longlong_cases p :
  is_int64 p ->
  int_ext p (ext_longlong p) \/
  big_ext (neg_bit p) (digits 8 (Z.abs p)) (ext_longlong p).
Proof.
  unfold ext_longlong, is_int64. intros Hp.
  change ERL_MAX with 134217727. change ERL_MIN with (-134217728).
  destruct ((p <? 256) && (0 <=? p)) eqn:E1.
  - left. rewrite byte_small by (unfold is_byte; lia).
    constructor. unfold is_byte. lia.
  - destruct ((p <=? 134217727) && (-134217728 <=? p)) eqn:E2.
    + left. constructor. unfold is_int32. lia.
    + right. apply ext_big_big_ext; [apply is_byte_neg_bit | lia].
Qed.

#[export] Instance decode_longlong_ok p :
  is_int64 p -> Decodes ei_decode_longlong (ext_longlong p) p.
Proof.
  intros Hp q b i s Hi Hl Ha.
  destruct (ext_longlong_cases p Hp) as [He | He].
  - by apply decode_longlong_int.
  - erewrite decode_longlong_big by done. unfold is_int64 in Hp.
    rewrite le_val_digits by lia. by rewrite signed_of_neg_bit by lia.
Qed.

Lemma ext_ulonglong_cases p :
  is_uint64 p ->
  int_ext p (ext_ulonglong p) \/ big_ext 0 (digits 8 p) (ext_ulonglong p).
Proof.
  unfold ext_ulonglong, ext_longlong, is_uint64. intros Hp.
  change ERL_MAX with 134217727. change ERL_MIN with (-134217728).
  destruct ((p <? 256) && (0 <=? p)) eqn:E1.
  - left. rewrite byte_small by (unfold is_byte; lia).
    constructor. unfold is_byte. lia.
  - destruct ((p <=? 134217727) && (-134217728 <=? p)) eqn:E2.
    + left. constructor. unfold is_int32. lia.
    + right. unfold neg_bit. rewrite (proj2 (Z.ltb_ge p 0)), Z.abs_eq by lia.
      apply ext_big_big_ext; [unfold is_byte; lia | lia].
Qed.

#[export] Instance decode_ulonglong_ok p :
  is_uint64 p -> Decodes ei_decode_ulonglong (ext_ulonglong p) p.
Proof.
  intros Hp q b i s Hi Hl Ha. unfold is_uint64 in Hp.
  destruct (ext_ulonglong_cases p Hp) as [He | He].
  - erewrite decode_ulonglong_int by done. unfold nonneg_of.
    by rewrite (proj2 (Z.ltb_ge p 0)) by lia.
  - erewrite decode_ulonglong_big by done. rewrite le_val_digits by lia.
    unfold unsigned_of. by rewrite (proj2 (Z.leb_le p _)) by lia.
Qed.

(** Both compilations read what either of them writes. *)
Lemma ext_long_32_cases p :
  - 4294967296 < p < 4294967296 ->
  int_ext p (ext_long_32 p) \/
  big_ext (neg_bit p) (le_bytes 4 (Z.abs p)) (ext_long_32 p).
Proof.
  unfold ext_long_32. intros Hp.
  change ERL_MAX with 134217727. change ERL_MIN with (-134217728).
  destruct ((p <? 256) && (0 <=? p)) eqn:E1.
  - left. rewrite byte_small by (unfold is_byte; lia).
    constructor. unfold is_byte. lia.
  - destruct ((p <=? 134217727) && (-134217728 <=? p)) eqn:E2.
    + left. constructor. unfold is_int32. lia.
    + right. rewrite le32_le.
      apply (big_ext_small (neg_bit p) (le_bytes 4 (Z.abs p)));
        [apply is_byte_neg_bit | apply le_bytes_byte | by rewrite length_le_bytes].
Qed.

#[export] Instance decode_long_32_ok p :
  is_int32 p -> Decodes ei_decode_long_32 (ext_long_32 p) p.
Proof.
  intros Hp q b i s Hi Hl Ha. unfold is_int32 in Hp.
  destruct (ext_long_32_cases p) as [He | He]; [lia | |].
  - by apply decode_long_32_int.
  - erewrite decode_long_32_big by done.
    rewrite le_val_bytes, Z.mod_small by lia. by rewrite signed_of_neg_bit by lia.
Qed.

#[export] Instance decode_longlong_32_ok p :
  is_int32 p -> Decodes ei_decode_longlong (ext_long_32 p) p.
Proof.
  intros Hp q b i s Hi Hl Ha. unfold is_int32 in Hp.
  destruct (ext_long_32_cases p) as [He | He]; [lia | |].
  - by apply decode_longlong_int.
  - erewrite decode_longlong_big by done.
    rewrite le_val_bytes, Z.mod_small by lia. by rewrite signed_of_neg_bit by lia.
Qed.

#[export] Instance decode_ulong_32_ok p :
  is_uint32 p -> Decodes ei_decode_ulong_32 (ext_long_32 p) p.
Proof.
  intros Hp q b i s Hi Hl Ha. unfold is_uint32 in Hp.
  destruct (ext_long_32_cases p) as [He | He]; [lia | |].
  - erewrite decode_ulong_32_int by done. unfold nonneg_of.
    by rewrite (proj2 (Z.ltb_ge p 0)) by lia.
  - erewrite decode_ulong_32_big by done.
    rewrite le_val_bytes, Z.mod_small by lia. unfold unsigned_of, neg_bit.
    rewrite (proj2 (Z.ltb_ge p 0)), Z.abs_eq by lia. cbn [Z.eqb andb].
    by rewrite (proj2 (Z.leb_le p _)) by lia.
Qed.

#[export] Instance decode_char_ok p :
  is_byte p -> Decodes ei_decode_char (ext_char p) p.
Proof.
  intros Hp q b i s Hi Hl Ha. unfold ext_char in *. rewrite byte_small in * by done.
  change (Done (i + len [ERL_SMALL_INTEGER_EXT; p]) (out q p))
    with (dec_result q (i + len [ERL_SMALL_INTEGER_EXT; p]) (Some p)).
  unfold ei_decode_char. at_split. rstep. rstep. int_finish_tac p.
Qed.
