(* ===== verification/Atom.v ===== *)
(** * Atoms and booleans

    encode_atom.c, decode_atom.c, encode_boolean.c, decode_boolean.c: the
    conversions between Latin-1 and UTF-8, the checks on the text of an atom,
    and the four atom tags. *)

From S2P Require Import Prelude Mem PutGet Ext.

(** ** Conversions

    The loops of decode_atom.c run over [src, src + slen). The result is the
    list of bytes they store at [dst] (and its length is what they return), with
    [found_non_ascii]; [None] is -1. [dst] counts the bytes stored so far and is
    compared with [dst_end] before each character, as in the source: a
    character of two bytes may therefore end one past [dst_end]. *)

Definition push (bs : list Z) (na : bool) (r : option (list Z * bool))
    : option (list Z * bool) :=
  match r with Some (out, f) => Some (bs ++ out, na || f) | None => None end.

Fixpoint utf8_to_latin1_loop (src : list Z) (dst dst_end : Z) : option (list Z * bool) :=
  match src with
  | [] => Some ([], false)
  | c0 :: src1 =>
      if dst_end <=? dst then None
      else if Z.land c0 0x80 =? 0 then
        push [c0] false (utf8_to_latin1_loop src1 (dst + 1) dst_end)
      else match src1 with
      | [] => None
      | c1 :: src2 =>
          if (Z.land c0 0xFE =? 0xC2) && (Z.land c1 0xC0 =? 0x80) then
            push [byte (Z.lor (Z.shiftl c0 6) (Z.land c1 0x3F))] true
              (utf8_to_latin1_loop src2 (dst + 1) dst_end)
          else None
      end
  end.

Definition utf8_to_latin1 (src : list Z) (destlen : Z)
    : option (list Z * erlang_char_encoding) :=
  match utf8_to_latin1_loop src 0 destlen with
  | Some (out, found_non_ascii) =>
      Some (out, if found_non_ascii then ERLANG_LATIN1 else ERLANG_ASCII)
  | None => None
  end.

Fixpoint latin1_to_utf8_loop (src : list Z) (dst dst_end : Z) : option (list Z * bool) :=
  match src with
  | [] => Some ([], false)
  | ch :: src1 =>
      if dst_end <=? dst then None
      else if Z.land ch 0x80 =? 0 then
        push [ch] false (latin1_to_utf8_loop src1 (dst + 1) dst_end)
      else
        push [Z.lor 0xC0 (Z.shiftr ch 6); Z.lor 0x80 (Z.land ch 0x3F)] true
          (latin1_to_utf8_loop src1 (dst + 2) dst_end)
  end.

Definition latin1_to_utf8 (src : list Z) (destlen : Z)
    : option (list Z * erlang_char_encoding) :=
  match latin1_to_utf8_loop src 0 destlen with
  | Some (out, found_non_ascii) =>
      Some (out, if found_non_ascii then ERLANG_UTF8 else ERLANG_ASCII)
  | None => None
  end.

(** ** Checks ([false] is -1) *)

Fixpoint verify_ascii_atom (src : list Z) : bool :=
  match src with
  | [] => true
  | c :: src => if negb (Z.land c 0x80 =? 0) then false else verify_ascii_atom src
  end.

Fixpoint verify_utf8_atom (src : list Z) (num_chars : Z) : bool :=
  match src with
  | [] => true
  | c0 :: r0 =>
      let num_chars := num_chars + 1 in
      if MAXATOMLEN <=? num_chars then false
      else if negb (Z.land c0 0x80 =? 0) then
        if Z.land c0 0xE0 =? 0xC0 then
          match r0 with
          | c1 :: r1 =>
              if negb (Z.land c1 0xC0 =? 0x80) then false
              else verify_utf8_atom r1 num_chars
          | _ => false
          end
        else if Z.land c0 0xF0 =? 0xE0 then
          match r0 with
          | c1 :: c2 :: r2 =>
              if negb (Z.land c1 0xC0 =? 0x80) || negb (Z.land c2 0xC0 =? 0x80)
              then false else verify_utf8_atom r2 num_chars
          | _ => false
          end
        else if Z.land c0 0xF8 =? 0xF0 then
          match r0 with
          | c1 :: c2 :: c3 :: r3 =>
              if negb (Z.land c1 0xC0 =? 0x80) || negb (Z.land c2 0xC0 =? 0x80)
                 || negb (Z.land c3 0xC0 =? 0x80)
              then false else verify_utf8_atom r3 num_chars
          | _ => false
          end
        else false
      else verify_utf8_atom r0 num_chars
  end.

(** ** Encoders *)

(** The tag and the length, stored once the text is in place. *)
Definition put_atom_header (offs n : Z) (buf s : ptr) : M ptr :=
  if negb (isnull buf) then
    if offs =? 2 then
      let* s := put8 s ERL_SMALL_ATOM_UTF8_EXT in put8 s n
    else
      let* s := put8 s ERL_ATOM_UTF8_EXT in put16be s n
  else retM (padd s offs).

Definition ei_encode_atom_len_as (p : list Z) (n : Z)
    (from_enc to_enc : erlang_char_encoding) (buf : ptr) (index : Z) : M (Z * Z) :=
  let s := padd buf index in
  let s0 := s in
  if (MAXATOMLEN <=? n) && negb (Z.land from_enc (Z.lor ERLANG_LATIN1 ERLANG_ASCII) =? 0)
  then retM (-1, index) else
  let* src := src_bytes p n in
  let* r :=
    (if from_enc =? ERLANG_LATIN1 then
       let offs := if 256 / 2 <=? n then 3 else 2 in
       match latin1_to_utf8 src (MAXATOMLEN_UTF8 - 1) with
       | Some (u, _) =>
           let* _ := memcpy_if buf (padd s offs) u (len u) in
           retM (Some (offs, len u))
       | None => retM (Some (offs, -1))
       end
     else if from_enc =? ERLANG_ASCII then
       if negb (verify_ascii_atom src) then retM None else
       let* _ := memcpy_if buf (padd s 2) src n in
       retM (Some (2, n))
     else if from_enc =? ERLANG_UTF8 then
       let offs := if 256 <=? n then 3 else 2 in
       if negb (verify_utf8_atom src 0) then retM None else
       let* _ := memcpy_if buf (padd s offs) src n in
       retM (Some (offs, n))
     else retM None) in
  match r with
  | None => retM (-1, index)
  | Some (offs, n) =>
      let* s := put_atom_header offs n buf s in
      let s := padd s n in
      retM (0, index_add index (psub s s0))
  end.

Definition ei_encode_atom (p : list Z) (buf : ptr) (index : Z) : M (Z * Z) :=
  let n := strlen p in
  let n := if MAXATOMLEN <=? n then MAXATOMLEN - 1 else n in
  ei_encode_atom_len_as p n ERLANG_LATIN1 0 buf index.

Definition ei_encode_atom_len (p : list Z) (n : Z) (buf : ptr) (index : Z) : M (Z * Z) :=
  let n := if MAXATOMLEN <=? n then MAXATOMLEN - 1 else n in
  ei_encode_atom_len_as p n ERLANG_LATIN1 0 buf index.

Definition ei_encode_atom_as (p : list Z) (from_enc to_enc : erlang_char_encoding)
    (buf : ptr) (index : Z) : M (Z * Z) :=
  ei_encode_atom_len_as p (strlen p) from_enc to_enc buf index.

(** [*bufp += ix] on success. *)
Definition ei_internal_put_atom (p : list Z) (slen : Z) (to_enc : erlang_char_encoding)
    (bufp : ptr) : M (Z * ptr) :=
  let* (rc, ix) := ei_encode_atom_len_as p slen ERLANG_UTF8 to_enc bufp 0 in
  if rc <? 0 then retM (-1, bufp) else retM (0, padd bufp ix).

Definition str_true : list Z := [116; 114; 117; 101].
Definition str_false : list Z := [102; 97; 108; 115; 101].

Definition ei_encode_boolean (p : Z) (buf : ptr) (index : Z) : M (Z * Z) :=
  let s := padd buf index in
  let s0 := s in
  let val := if negb (p =? 0) then str_true else str_false in
  let n := strlen val in
  let* s :=
    (if isnull buf then retM (padd s 2)
     else
       let* s := put8 s ERL_SMALL_ATOM_UTF8_EXT in
       let* s := put8 s n in
       let* _ := memcpy s val in
       retM s) in
  let s := padd s n in
  retM (0, index_add index (psub s s0)).

(** ** Decoders *)

(** What [ei_decode_atom_as] stores: the text at [p] (without the final zero),
    [*was_encp] and [*res_encp]. *)
Record atom_out := AtomOut
  { at_text : list Z; at_was : erlang_char_encoding; at_res : erlang_char_encoding }.

(** The tag, the length and the encoding of an atom. *)
Definition atom_head (s : Z) : D (option (Z * erlang_char_encoding * Z)) :=
  let+ (tag, s) := get8 s in
  if tag =? ERL_ATOM_EXT then
    let+ (n, s) := get16be s in retD (Some (n, ERLANG_LATIN1, s))
  else if tag =? ERL_SMALL_ATOM_EXT then
    let+ (n, s) := get8 s in retD (Some (n, ERLANG_LATIN1, s))
  else if tag =? ERL_ATOM_UTF8_EXT then
    let+ (n, s) := get16be s in retD (Some (n, ERLANG_UTF8, s))
  else if tag =? ERL_SMALL_ATOM_UTF8_EXT then
    let+ (n, s) := get8 s in retD (Some (n, ERLANG_UTF8, s))
  else retD None.

(** [p] says whether the text is stored. The caller's array has [destlen]
    bytes: storing the converted text and its final zero outside it is
    undefined. *)
Definition ei_decode_atom_as (p : bool) (destlen : Z) (want_enc : erlang_char_encoding)
    (buf index : Z) : D (cres atom_out) :=
  let s := buf + index in
  let s0 := s in
  let+ h := atom_head s in
  match h with
  | None => retD Fail
  | Some (n, got_enc, s) =>
      if negb (Z.land want_enc got_enc =? 0) || (want_enc =? ERLANG_ASCII) then
        if destlen <=? n then retD Fail else
        let+ txt := load_bytes s n in
        let found_non_ascii := negb (verify_ascii_atom txt) in
        if (want_enc =? ERLANG_ASCII) && found_non_ascii then retD Fail else
        let s := s + n in
        retD (Done (index_add index (s - s0))
          (AtomOut txt got_enc (if found_non_ascii then got_enc else ERLANG_ASCII)))
      else
        let+ txt := load_bytes s n in
        match (if got_enc =? ERLANG_LATIN1 then latin1_to_utf8 txt (destlen - 1)
               else utf8_to_latin1 txt (destlen - 1)) with
        | None => retD Fail
        | Some (u, res_enc) =>
            if p && (destlen <=? len u) then ubD else
            let s := s + n in
            retD (Done (index_add index (s - s0)) (AtomOut u got_enc res_enc))
        end
  end.

Definition ei_decode_atom (p : bool) (buf index : Z) : D (cres atom_out) :=
  ei_decode_atom_as p MAXATOMLEN ERLANG_LATIN1 buf index.

(** [ei_internal_get_atom] (the macro [get_atom]): [*bufp] is advanced over the
    atom; the index of the result is the new pointer. *)
Definition get_atom (p : bool) (bufp : Z) : D (cres atom_out) :=
  let- (ix, a) := ei_decode_atom_as p MAXATOMLEN_UTF8 ERLANG_UTF8 bufp 0 in
  retD (Done (bufp + ix) a).

(** [memcmp(tbuf, str, n) == 0] for a literal of [n] bytes with its final
    zero. *)
Definition memcmp_eq (tbuf str : list Z) : bool :=
  bool_decide (take (length str) tbuf = str).

(** Returns [(rc, *index, *p)]: the index is moved over the atom before its
    text is compared, so it moves even when -1 is returned. *)
Definition ei_decode_boolean (p : bool) (buf index : Z) : D (Z * Z * option Z) :=
  let+ r := ei_decode_atom_as true 6 ERLANG_ASCII buf index in
  match r with
  | Fail => retD (-1, index, None)
  | Done index a =>
      let tbuf := at_text a ++ [0] in
      if memcmp_eq tbuf (str_true ++ [0]) then retD (0, index, out p 1)
      else if memcmp_eq tbuf (str_false ++ [0]) then retD (0, index, out p 0)
      else retD (-1, index, None)
  end.

(** ** Latin-1 and UTF-8 *)

Definition is_ascii (c : Z) : bool := Z.land c 0x80 =? 0.

(** The UTF-8 form of a Latin-1 character, and of a Latin-1 text. *)
Definition utf8_of (c : Z) : list Z :=
  if is_ascii c then [c]
  else [Z.lor 0xC0 (Z.shiftr c 6); Z.lor 0x80 (Z.land c 0x3F)].
Definition utf8_of_latin1 (p : list Z) : list Z := p ≫= utf8_of.

Definition utf8_of_check (c : Z) : bool :=
  if is_ascii c then true else
  let c0 := Z.lor 0xC0 (Z.shiftr c 6) in
  let c1 := Z.lor 0x80 (Z.land c 0x3F) in
  negb (Z.land c0 0x80 =? 0) && (Z.land c0 0xFE =? 0xC2) && (Z.land c1 0xC0 =? 0x80)
  && (byte (Z.lor (Z.shiftl c0 6) (Z.land c1 0x3F)) =? c)
  && (0 <=? c0) && (c0 <? 256) && (0 <=? c1) && (c1 <? 256)
  && (Z.land c0 0xE0 =? 0xC0).

Lemma utf8_of_facts c : is_byte c -> utf8_of_check c = true.
Proof. by apply byte_forall. Qed.

Lemma utf8_of_byte c : is_byte c -> Forall is_byte (utf8_of c).
Proof.
  intros Hc. pose proof (utf8_of_facts c Hc) as Hf. unfold utf8_of, utf8_of_check in *.
  destruct (is_ascii c); [by constructor |].
  repeat constructor; unfold is_byte; lia.
Qed.

Lemma utf8_of_latin1_byte p : Forall is_byte p -> Forall is_byte (utf8_of_latin1 p).
Proof.
  induction 1 as [| c p Hc _ IH]; [constructor |].
  apply Forall_app. split; [by apply utf8_of_byte | done].
Qed.

Lemma len_utf8_of c : 1 <= len (utf8_of c) <= 2.
Proof. unfold utf8_of. destruct (is_ascii c); simpl; lia. Qed.

Lemma len_utf8_of_latin1 p : len p <= len (utf8_of_latin1 p) <= 2 * len p.
Proof.
  induction p as [| c p IH]; [done |].
  change (utf8_of_latin1 (c :: p)) with (utf8_of c ++ utf8_of_latin1 p).
  rewrite len_app, len_cons. pose proof (len_utf8_of c). lia.
Qed.

Lemma verify_ascii_cons c p :
  verify_ascii_atom (c :: p) = is_ascii c && verify_ascii_atom p.
Proof. unfold is_ascii. simpl. by destruct (Z.land c 128 =? 0). Qed.

(** The conversion computes the UTF-8 form, when it returns; it returns when
    the result fits; and it may pass [dst_end] by one. *)
Lemma latin1_to_utf8_loop_ok src : forall dst dst_end,
  dst + len (utf8_of_latin1 src) <= dst_end ->
  latin1_to_utf8_loop src dst dst_end
  = Some (utf8_of_latin1 src, negb (verify_ascii_atom src)).
Proof.
  induction src as [| c src IH]; intros dst e He; [done |].
  change (utf8_of_latin1 (c :: src)) with (utf8_of c ++ utf8_of_latin1 src) in *.
  rewrite len_app in He. rewrite verify_ascii_cons.
  cbn [latin1_to_utf8_loop]. fold (is_ascii c). unfold utf8_of, is_ascii in *.
  destruct (Z.land c 128 =? 0) eqn:E; cbn [length] in He;
    rewrite (proj2 (Z.leb_gt _ _)) by lia; rewrite IH by lia; done.
Qed.

Lemma latin1_to_utf8_loop_Some src : forall dst dst_end u f,
  latin1_to_utf8_loop src dst dst_end = Some (u, f) -> dst <= dst_end ->
  u = utf8_of_latin1 src /\ dst + len u <= dst_end + 1.
Proof.
  induction src as [| c src IH]; intros dst e u f; cbn [latin1_to_utf8_loop].
  - intros [= <- <-] ?. simpl. split; [done | lia].
  - change (utf8_of_latin1 (c :: src)) with (utf8_of c ++ utf8_of_latin1 src).
    destruct (Z.leb_spec e dst); [done |]. fold (is_ascii c). unfold utf8_of.
    destruct (is_ascii c).
    + destruct (latin1_to_utf8_loop src (dst + 1) e) as [[u' f'] |] eqn:E; [| done].
      intros [= <- <-] ?. apply IH in E as [-> ?]; [| lia].
      split; [done |]. rewrite ?len_app, ?len_cons. simpl. lia.
    + destruct (latin1_to_utf8_loop src (dst + 2) e) as [[u' f'] |] eqn:E; [| done].
      intros [= <- <-] ?. rewrite !len_cons.
      destruct (decide (dst + 2 <= e)) as [Hd | Hd].
      * apply IH in E as [-> ?]; [| lia]. split; [done | lia].
      * destruct src as [| c' src]; cbn [latin1_to_utf8_loop] in E.
        -- injection E as <- <-. split; [done |]. simpl. lia.
        -- by rewrite (proj2 (Z.leb_le _ _)) in E by lia.
Qed.

(** Converting back gives the Latin-1 text. *)
Lemma utf8_to_latin1_loop_ok src : forall dst dst_end,
  Forall is_byte src -> dst + len src <= dst_end ->
  utf8_to_latin1_loop (utf8_of_latin1 src) dst dst_end
  = Some (src, negb (verify_ascii_atom src)).
Proof.
  induction src as [| c src IH]; intros dst e Hb He; [done |].
  inversion Hb as [| ? ? Hc Hs]; subst. rewrite len_cons in He.
  change (utf8_of_latin1 (c :: src)) with (utf8_of c ++ utf8_of_latin1 src).
  pose proof (utf8_of_facts c Hc) as Hf. unfold utf8_of_check in Hf.
  rewrite verify_ascii_cons. unfold utf8_of.
  destruct (is_ascii c) eqn:Ec; cbn [app utf8_to_latin1_loop];
    rewrite (proj2 (Z.leb_gt _ _)) by lia.
  - unfold is_ascii in Ec. rewrite Ec, IH by (done || lia). done.
  - repeat rewrite andb_true_iff in Hf. destruct_and!.
    rewrite (proj1 (negb_true_iff _)) by done.
    match goal with H1 : (Z.land _ 254 =? _) = true, H2 : (Z.land _ 192 =? _) = true
      |- _ => rewrite H1, H2 end. cbn [andb].
    rewrite IH by (done || lia). cbn [push]. do 2 f_equal.
    unfold push. cbn [app]. f_equal. lia.
Qed.

(** ** What the check on UTF-8 text accepts

    A character is a lead byte that announces 0 to 3 continuation bytes,
    followed by as many; an atom has at most 255 of them. The value is not looked
    at: not every such text is well-formed UTF-8. *)

Definition utf8_more (c0 : Z) : option nat :=
  if Z.land c0 0x80 =? 0 then Some 0%nat
  else if Z.land c0 0xE0 =? 0xC0 then Some 1%nat
  else if Z.land c0 0xF0 =? 0xE0 then Some 2%nat
  else if Z.land c0 0xF8 =? 0xF0 then Some 3%nat
  else None.

Definition utf8_cont (c : Z) : Prop := Z.land c 0xC0 = 0x80.

Definition utf8_frame (ch : list Z) : Prop :=
  match ch with
  | [] => False
  | c0 :: cs => utf8_more c0 = Some (length cs) /\ Forall utf8_cont cs
  end.

Definition utf8_framed (src : list Z) (n : Z) : Prop :=
  exists chars, src = concat chars /\ Forall utf8_frame chars /\ len chars = n.

Lemma utf8_framed_cons c0 cs src n :
  utf8_frame (c0 :: cs) -> utf8_framed src n -> utf8_framed (c0 :: cs ++ src) (1 + n).
Proof.
  intros Hc (chars & -> & Hf & Hn). exists ((c0 :: cs) :: chars).
  split; [done |]. split; [by constructor |]. rewrite len_cons. lia.
Qed.

(** The head of a text determines its first character. *)
Lemma utf8_framed_inv c0 r0 n :
  utf8_framed (c0 :: r0) n ->
  exists cs r, r0 = cs ++ r /\ utf8_frame (c0 :: cs) /\ utf8_framed r (n - 1).
Proof.
  intros (chars & Hs & Hf & Hn). destruct Hf as [| ch chars Hc Hf]; [done |].
  destruct ch as [| c cs]; [done |]. injection Hs as -> ->.
  exists cs, (concat chars). split; [done |]. split; [done |].
  exists chars. rewrite len_cons in Hn. repeat split; [done | lia].
Qed.

Lemma utf8_framed_nonneg src n : utf8_framed src n -> 0 <= n.
Proof. intros (? & _ & _ & <-). lia. Qed.

Lemma utf8_framed_nil n : utf8_framed [] n -> n = 0.
Proof.
  intros (chars & Hs & Hf & <-). destruct Hf as [| [| ? ?] ? Hc _]; done.
Qed.

Lemma utf8_cont_test c : negb (Z.land c 0xC0 =? 0x80) = false <-> utf8_cont c.
Proof. unfold utf8_cont. rewrite negb_false_iff. apply Z.eqb_eq. Qed.

Lemma verify_utf8_sound : forall k src num, (length src < k)%nat ->
  verify_utf8_atom src num = true ->
  exists n, utf8_framed src n /\ (n = 0 \/ num + n < MAXATOMLEN).
Proof.
  induction k as [| k IH]; intros src num Hk Hv; [lia |].
  destruct src as [| c0 r0]; [by exists 0; split; [exists [] | left] |].
  assert (Hstep : forall cs r, r0 = cs ++ r -> utf8_frame (c0 :: cs) ->
    num + 1 < MAXATOMLEN -> verify_utf8_atom r (num + 1) = true ->
    exists n, utf8_framed (c0 :: r0) n /\ (n = 0 \/ num + n < MAXATOMLEN)).
  { intros cs r -> Hc Hm Hr. cbn [length] in Hk. rewrite length_app in Hk.
    destruct (IH r (num + 1)) as (n & Hn & Hd); [lia | done |].
    exists (1 + n). split; [by apply utf8_framed_cons | lia]. }
  cbn [verify_utf8_atom] in Hv. destruct (Z.leb_spec MAXATOMLEN (num + 1)); [done |].
  assert (Hm : utf8_more c0 = utf8_more c0) by done. unfold utf8_more at 2 in Hm.
  destruct (Z.land c0 128 =? 0); cbn [negb] in Hv.
  - by apply (Hstep [] r0).
  - destruct (Z.land c0 224 =? 192); [| destruct (Z.land c0 240 =? 224);
      [| destruct (Z.land c0 248 =? 240); [| done]]].
    + destruct r0 as [| c1 r1]; [done |].
      destruct (negb (Z.land c1 192 =? 128)) eqn:E1; [done |].
      apply utf8_cont_test in E1. apply (Hstep [c1] r1); try done.
      split; [done | by repeat constructor].
    + destruct r0 as [| c1 [| c2 r2]]; [done | done |].
      destruct (negb (Z.land c1 192 =? 128)) eqn:E1; [done |].
      destruct (negb (Z.land c2 192 =? 128)) eqn:E2; [done |].
      apply utf8_cont_test in E1, E2. apply (Hstep [c1; c2] r2); try done.
      split; [done | by repeat constructor].
    + destruct r0 as [| c1 [| c2 [| c3 r3]]]; [done .. |].
      destruct (negb (Z.land c1 192 =? 128)) eqn:E1; [done |].
      destruct (negb (Z.land c2 192 =? 128)) eqn:E2; [done |].
      destruct (negb (Z.land c3 192 =? 128)) eqn:E3; [done |].
      apply utf8_cont_test in E1, E2, E3. apply (Hstep [c1; c2; c3] r3); try done.
      split; [done | by repeat constructor].
Qed.

Lemma verify_utf8_complete : forall k src num n, (length src < k)%nat ->
  utf8_framed src n -> num + n < MAXATOMLEN -> verify_utf8_atom src num = true.
Proof.
  induction k as [| k IH]; intros src num n Hk Ht Hn; [lia |].
  destruct src as [| c0 r0]; [done |].
  apply utf8_framed_inv in Ht as (cs & r & -> & [Hm Hc] & Hr).
  pose proof (utf8_framed_nonneg _ _ Hr). cbn [length] in Hk. rewrite length_app in Hk.
  assert (Hrec : verify_utf8_atom r (num + 1) = true) by (eapply IH; [lia | done | lia]).
  cbn [verify_utf8_atom]. rewrite (proj2 (Z.leb_gt _ _)) by lia. unfold utf8_more in Hm.
  destruct (Z.land c0 128 =? 0); cbn [negb].
  { injection Hm as Hm. destruct cs; [done | done]. }
  destruct (Z.land c0 224 =? 192); [| destruct (Z.land c0 240 =? 224);
      [| destruct (Z.land c0 248 =? 240); [| done]]]; injection Hm as Hm.
  - destruct cs as [| c1 [| ? ?]]; try done. cbn [app].
    rewrite !Forall_cons_iff in Hc. destruct Hc as [E1 _].
    by rewrite (proj2 (utf8_cont_test c1) E1).
  - destruct cs as [| c1 [| c2 [| ? ?]]]; try done. cbn [app].
    rewrite !Forall_cons_iff in Hc. destruct Hc as (E1 & E2 & _).
    by rewrite (proj2 (utf8_cont_test c1) E1), (proj2 (utf8_cont_test c2) E2).
  - destruct cs as [| c1 [| c2 [| c3 [| ? ?]]]]; try done. cbn [app].
    rewrite !Forall_cons_iff in Hc. destruct Hc as (E1 & E2 & E3 & _).
    by rewrite (proj2 (utf8_cont_test c1) E1), (proj2 (utf8_cont_test c2) E2),
      (proj2 (utf8_cont_test c3) E3).
Qed.

Lemma verify_utf8_spec src :
  verify_utf8_atom src 0 = true <-> exists n, utf8_framed src n /\ n < MAXATOMLEN.
Proof.
  split.
  - intros Hv. apply (verify_utf8_sound (S (length src))) in Hv as (n & Hn & Hd);
      [| lia]. exists n. split; [done |]. unfold MAXATOMLEN in *. lia.
  - intros (n & Ht & Hn).
    apply (verify_utf8_complete (S (length src)) src 0 n); [lia | done | lia].
Qed.

Lemma utf8_frame_len ch : utf8_frame ch -> len ch <= 4.
Proof.
  destruct ch as [| c0 cs]; [done |]. intros [Hm _]. rewrite len_cons.
  unfold utf8_more in Hm. repeat case_match; try done; injection Hm as Hm; lia.
Qed.

Lemma utf8_framed_len src n : utf8_framed src n -> len src <= 4 * n.
Proof.
  intros (chars & -> & Hf & <-). induction Hf as [| ch chars Hc _ IH]; [done |].
  cbn [concat]. rewrite len_app, len_cons. pose proof (utf8_frame_len ch Hc). lia.
Qed.

(** ** The bytes of an atom *)

Definition ext_atom (long : bool) (u : list Z) : list Z :=
  if long then (ERL_ATOM_UTF8_EXT :: be16 (len u)) ++ u
  else [ERL_SMALL_ATOM_UTF8_EXT; byte (len u)] ++ u.

Definition ext_atom_latin1 (p : list Z) : list Z :=
  ext_atom (128 <=? len p) (utf8_of_latin1 p).
Definition ext_atom_utf8 (p : list Z) : list Z := ext_atom (256 <=? len p) p.

Lemma len_ext_atom long u : len (ext_atom long u) = (if long then 3 else 2) + len u.
Proof. destruct long; cbn; rewrite ?len_cons; lia. Qed.

(** The header is stored in front of the text that is already there. *)
Definition atom_header (offs n : Z) : list Z :=
  if offs =? 2 then [ERL_SMALL_ATOM_UTF8_EXT; byte n] else ERL_ATOM_UTF8_EXT :: be16 n.

Lemma put_atom_header_ok offs n u b o s :
  offs = 2 \/ offs = 3 -> n = len u -> fits s o (atom_header offs n ++ u) ->
  put_atom_header offs n (at_off b) (at_off o) (splice s (o + offs) u)
  = Some (at_off (o + offs), splice s o (atom_header offs n ++ u)).
Proof.
  intros Ho Hn Hf. assert (Hl : len (atom_header offs n) = offs)
    by (destruct Ho as [-> | ->]; done).
  assert (Hu : fits s (o + offs) u).
  { destruct Hf as [? Hf]. rewrite len_app in Hf. split; lia. }
  rewrite <- Hl at 3. rewrite <- (splice_app_before s o _ u) by done. rewrite Hl.
  assert (Hh : fits (splice s (o + offs) u) o (atom_header offs n)).
  { apply fits_splice; [done |]. destruct Hf as [? Hf]. rewrite len_app in Hf.
    split; lia. }
  generalize dependent (splice s (o + offs) u). intros s' Hh.
  unfold put_atom_header, atom_header in *. cbn [isnull nonnull negb at_off].
  destruct Ho as [-> | ->]; cbn [Z.eqb Pos.eqb] in *; rewrite <- bindM_retM;
    match goal with |- ?m s' = _ => apply (run_start m s' o) end;
    repeat wstep; done.
Qed.

(** The common end of the three encodings, in both passes. *)
Definition atom_tail (s0 : ptr) (index offs n : Z) (buf s : ptr) : M (Z * Z) :=
  let* s := put_atom_header offs n buf s in
  let s := padd s n in
  retM (0, index_add index (psub s s0)).

Lemma encodes_text offs u (f : ptr -> Z -> M (Z * Z)) :
  offs = 2 \/ offs = 3 -> Forall is_byte u ->
  (forall buf i s, f buf i s =
     (let* _ := memcpy_if buf (padd (padd buf i) offs) u (len u) in
      atom_tail (padd buf i) i offs (len u) buf (padd buf i)) s) ->
  Encodes f (atom_header offs (len u) ++ u).
Proof.
  intros Ho Hb Hf. assert (Hl : len (atom_header offs (len u)) = offs)
    by (destruct Ho as [-> | ->]; done).
  split.
  - intros i s ? Hi. rewrite Hf. rewrite len_app, Hl in *.
    unfold atom_tail, put_atom_header, memcpy_if. cbn [isnull nonnull negb NULL].
    rewrite !bindM_ret. apply enc_finish; unfold psub; len_lia.
  - intros b i s ? Hi Hfit. rewrite Hf. unfold memcpy_if. cbn [isnull nonnull negb at_off].
    rewrite (proj2 (Z.ltb_ge _ _)) by lia.
    assert (Hu : fits s (b + i + offs) u).
    { destruct Hfit as [? Hfit]. rewrite len_app, Hl in Hfit. split; lia. }
    change (padd (padd (at_off b) i) offs) with (at_off (b + i + offs)).
    erewrite bindM_Some by (by apply memcpy_ok). rewrite (bytes_id u Hb).
    unfold atom_tail.
    change (padd (at_off b) i) with (at_off (b + i)).
    erewrite bindM_Some by (by apply put_atom_header_ok).
    rewrite len_app, Hl in *. apply enc_finish; unfold psub; len_lia.
Qed.

Lemma ext_atom_header (long : bool) u :
  ext_atom long u = atom_header (if long then 3 else 2) (len u) ++ u.
Proof. by destruct long. Qed.

(** Latin-1: up to 255 characters; the long form from 128 characters on,
    whatever the length of the UTF-8 text. *)
Lemma encode_atom_latin1_ok p to :
  Forall is_byte p -> len p < MAXATOMLEN ->
  Encodes (ei_encode_atom_len_as p (len p) ERLANG_LATIN1 to) (ext_atom_latin1 p).
Proof.
  intros Hb Hl. unfold ext_atom_latin1. rewrite ext_atom_header.
  apply encodes_text; [destruct (128 <=? len p); auto | by apply utf8_of_latin1_byte |].
  intros buf i s. unfold ei_encode_atom_len_as.
  rewrite (proj2 (Z.leb_gt _ _)) by lia. cbn [andb].
  erewrite bindM_Some by apply src_bytes_all.
  change (ERLANG_LATIN1 =? ERLANG_LATIN1) with true. change (256 / 2) with 128.
  cbv beta iota. unfold latin1_to_utf8. pose proof (len_utf8_of_latin1 p).
  unfold MAXATOMLEN, MAXATOMLEN_UTF8 in *.
  rewrite latin1_to_utf8_loop_ok by lia. by rewrite !bindM_assoc.
Qed.

Lemma encode_atom_ascii_ok p to :
  Forall is_byte p -> verify_ascii_atom p = true -> len p < MAXATOMLEN ->
  Encodes (ei_encode_atom_len_as p (len p) ERLANG_ASCII to) (ext_atom false p).
Proof.
  intros Hb Hv Hl. rewrite ext_atom_header. apply encodes_text; [auto | done |].
  intros buf i s. unfold ei_encode_atom_len_as.
  rewrite (proj2 (Z.leb_gt _ _)) by lia. cbn [andb].
  erewrite bindM_Some by apply src_bytes_all. rewrite Hv.
  change (ERLANG_ASCII =? ERLANG_LATIN1) with false.
  change (ERLANG_ASCII =? ERLANG_ASCII) with true. cbn [negb].
  by rewrite !bindM_assoc.
Qed.

Lemma encode_atom_utf8_ok p to :
  Forall is_byte p -> verify_utf8_atom p 0 = true ->
  Encodes (ei_encode_atom_len_as p (len p) ERLANG_UTF8 to) (ext_atom_utf8 p).
Proof.
  intros Hb Hv. unfold ext_atom_utf8. rewrite ext_atom_header.
  apply encodes_text; [destruct (256 <=? len p); auto | done |].
  intros buf i s. unfold ei_encode_atom_len_as.
  change (Z.land ERLANG_UTF8 _ =? 0) with true. cbn [negb]. rewrite andb_false_r.
  erewrite bindM_Some by apply src_bytes_all. rewrite Hv.
  change (ERLANG_UTF8 =? ERLANG_LATIN1) with false.
  change (ERLANG_UTF8 =? ERLANG_ASCII) with false.
  change (ERLANG_UTF8 =? ERLANG_UTF8) with true. cbn [negb].
  by rewrite !bindM_assoc.
Qed.

Lemma encode_atom_utf8_refuses p to :
  verify_utf8_atom p 0 = false ->
  Refuses (ei_encode_atom_len_as p (len p) ERLANG_UTF8 to).
Proof.
  intros Hv b i s. exists i. unfold ei_encode_atom_len_as.
  change (Z.land ERLANG_UTF8 _ =? 0) with true. cbn [negb]. rewrite andb_false_r.
  erewrite bindM_Some by apply src_bytes_all. by rewrite Hv.
Qed.

Lemma encode_atom_too_long p n from to :
  MAXATOMLEN <= n -> from = ERLANG_LATIN1 \/ from = ERLANG_ASCII ->
  Refuses (ei_encode_atom_len_as p n from to).
Proof.
  intros Hn Hf b i s. exists i. unfold ei_encode_atom_len_as.
  rewrite (proj2 (Z.leb_le _ _)) by lia. by destruct Hf as [-> | ->].
Qed.

(** Only the first [n] bytes of the array matter: a C string up to its zero. *)
Lemma atom_len_as_take p n from to b i s :
  0 <= n <= len p ->
  ei_encode_atom_len_as p n from to b i s
  = ei_encode_atom_len_as (take (Z.to_nat n) p) n from to b i s.
Proof.
  intros Hn. unfold ei_encode_atom_len_as, src_bytes.
  rewrite take_take, Nat.min_id, length_take.
  by rewrite (proj2 (Z.leb_le n (len p))), (proj2 (Z.leb_le n (Z.of_nat _))) by lia.
Qed.

Lemma atom_strlen p from to b i s :
  ei_encode_atom_len_as p (strlen p) from to b i s
  = ei_encode_atom_len_as (c_str p) (len (c_str p)) from to b i s.
Proof.
  rewrite atom_len_as_take, c_str_take; [done |].
  pose proof (strlen_le p). unfold strlen in *. lia.
Qed.

(** A node or module name of a struct: UTF-8 text up to its zero. *)
Definition name_ok (p : list Z) : Prop :=
  Forall is_byte p /\ verify_utf8_atom (c_str p) 0 = true.

Lemma encode_name_ok p to :
  name_ok p ->
  Encodes (ei_encode_atom_len_as p (strlen p) ERLANG_UTF8 to) (ext_atom_utf8 (c_str p)).
Proof.
  intros [Hb Hv]. eapply Encodes_ext; [intros; apply atom_strlen |].
  apply encode_atom_utf8_ok; [by apply c_str_byte | done].
Qed.

(** ** The decoders *)

Lemma utf8_len_max u : verify_utf8_atom u 0 = true -> len u < MAXATOMLEN_UTF8.
Proof.
  intros (n & Ht & Hn)%verify_utf8_spec. apply utf8_framed_len in Ht.
  unfold MAXATOMLEN, MAXATOMLEN_UTF8 in *. lia.
Qed.

(** A text for which the length field of its form is wide enough. *)
Definition atom_fits (long : bool) (u : list Z) : Prop :=
  Forall is_byte u /\ len u < (if long then 65536 else 256).

Lemma atom_head_ok long u o s :
  atom_fits long u -> at_ s o (ext_atom long u) ->
  atom_head o s = Some (Some (len u, ERLANG_UTF8, o + (if long then 3 else 2))).
Proof.
  intros [Hb Hl] Ha. unfold atom_head. rewrite ext_atom_header in Ha.
  destruct long; cbn [atom_header Z.eqb Pos.eqb] in Ha; at_split; rstep; rstep.
  - rewrite Z.mod_small by lia. unfold retD. do 3 f_equal. lia.
  - rewrite byte_small by (unfold is_byte; lia). unfold retD. do 3 f_equal. lia.
Qed.

Lemma ext_atom_text long u o s :
  at_ s o (ext_atom long u) -> at_ s (o + (if long then 3 else 2)) u.
Proof.
  rewrite ext_atom_header. intros [_ Ha]%at_app. by destruct long.
Qed.

Definition res_of (txt : list Z) (enc : erlang_char_encoding) : erlang_char_encoding :=
  if verify_ascii_atom txt then ERLANG_ASCII else enc.

(** Reading a UTF-8 atom as UTF-8 gives its text when the array has room for
    it and its zero, and fails otherwise. *)
Lemma decode_atom_utf8 long u p destlen want b i s :
  atom_fits long u -> Z.land want ERLANG_UTF8 <> 0 ->
  0 <= i -> i + len (ext_atom long u) <= int_max -> at_ s (b + i) (ext_atom long u) ->
  ei_decode_atom_as p destlen want b i s
  = Some (if len u <? destlen
          then Done (i + len (ext_atom long u))
                 (AtomOut u ERLANG_UTF8 (res_of u ERLANG_UTF8))
          else Fail).
Proof.
  intros Hf Hw Hi Hl Ha. unfold ei_decode_atom_as.
  erewrite bindD_Some by (by apply atom_head_ok). cbv beta iota.
  rewrite (proj2 (Z.eqb_neq _ _) Hw). cbn [negb orb]. rewrite Z.ltb_antisym.
  destruct (Z.leb_spec destlen (len u)); cbn [negb]; [done |].
  erewrite bindD_Some by (by apply load_bytes_at, ext_atom_text).
  assert ((want =? ERLANG_ASCII) = false) as ->
    by (apply Z.eqb_neq; intros ->; by apply Hw).
  cbn [andb]. unfold retD, res_of.
  rewrite len_ext_atom in *.
  rewrite index_add_ok by (destruct long; lia).
  do 2 f_equal; [destruct long; lia |]. f_equal. by destruct (verify_ascii_atom u).
Qed.

(** Reading the UTF-8 form of a Latin-1 text as Latin-1 gives the text back. *)
Lemma decode_atom_latin1 long t p destlen b i s :
  Forall is_byte t -> atom_fits long (utf8_of_latin1 t) -> len t < destlen ->
  0 <= i -> i + len (ext_atom long (utf8_of_latin1 t)) <= int_max ->
  at_ s (b + i) (ext_atom long (utf8_of_latin1 t)) ->
  ei_decode_atom_as p destlen ERLANG_LATIN1 b i s
  = Some (Done (i + len (ext_atom long (utf8_of_latin1 t)))
            (AtomOut t ERLANG_UTF8 (res_of t ERLANG_LATIN1))).
Proof.
  intros Ht Hf Hd Hi Hl Ha. unfold ei_decode_atom_as.
  erewrite bindD_Some by (by apply atom_head_ok). cbv beta iota.
  change (Z.land ERLANG_LATIN1 ERLANG_UTF8 =? 0) with true.
  change (ERLANG_LATIN1 =? ERLANG_ASCII) with false. cbn [negb orb].
  erewrite bindD_Some by (by apply load_bytes_at, ext_atom_text).
  change (ERLANG_UTF8 =? ERLANG_LATIN1) with false. cbv beta iota.
  unfold utf8_to_latin1. rewrite utf8_to_latin1_loop_ok by (done || lia).
  rewrite (proj2 (Z.leb_gt destlen (len t))), andb_false_r by lia.
  unfold retD, res_of. rewrite len_ext_atom in *.
  rewrite index_add_ok by (destruct long; lia).
  do 2 f_equal; [destruct long; lia |]. f_equal. by destruct (verify_ascii_atom t).
Qed.

(** [get_atom] reads every atom the encoder can have written. *)
Lemma get_atom_ok u p o s :
  Forall is_byte u -> verify_utf8_atom u 0 = true ->
  at_ s o (ext_atom_utf8 u) ->
  get_atom p o s = Some (Done (o + len (ext_atom_utf8 u))
                           (AtomOut u ERLANG_UTF8 (res_of u ERLANG_UTF8))).
Proof.
  unfold ext_atom_utf8. intros Hb Hv Ha. pose proof (utf8_len_max u Hv) as Hm.
  unfold MAXATOMLEN_UTF8 in Hm.
  assert (Hf : atom_fits (256 <=? len u) u)
    by (split; [done |]; destruct (Z.leb_spec 256 (len u)); lia).
  unfold get_atom. erewrite bindC_Done.
  2:{ erewrite (decode_atom_utf8 (256 <=? len u)); [| done ..| |].
      - unfold MAXATOMLEN_UTF8. by rewrite (proj2 (Z.ltb_lt _ _)) by lia.
      - rewrite len_ext_atom. unfold int_max. destruct (256 <=? len u); lia.
      - by rewrite Z.add_0_r. }
  done.
Qed.

(** ** Booleans *)

Definition ext_boolean (p : Z) : list Z :=
  ext_atom false (if negb (p =? 0) then str_true else str_false).

#[export] Instance encode_boolean_ok p : Encodes (ei_encode_boolean p) (ext_boolean p).
Proof.
  unfold ext_boolean, ei_encode_boolean.
  destruct (negb (p =? 0)); change (strlen str_true) with 4;
    change (strlen str_false) with 5; (split; [enc_null | enc_buf]).
Qed.

Lemma decode_boolean_ok (v p : bool) b i s :
  let bs := ext_boolean (if v then 1 else 0) in
  0 <= i -> i + len bs <= int_max -> at_ s (b + i) bs ->
  ei_decode_boolean p b i s = Some (0, i + len bs, out p (if v then 1 else 0)).
Proof.
  intros bs Hi Hl Ha. unfold ei_decode_boolean.
  set (u := if v then str_true else str_false).
  assert (Hbs : bs = ext_atom false u) by (by destruct v).
  rewrite Hbs in *. unfold ei_decode_atom_as. rewrite !bindD_assoc.
  assert (Hf : atom_fits false u)
    by (destruct v; (split; [bytes_tac | done])).
  erewrite bindD_Some by (by apply atom_head_ok). cbv beta iota.
  assert ((6 <=? len u) = false) as -> by (by destruct v).
  change (ERLANG_ASCII =? ERLANG_ASCII) with true. rewrite orb_true_r.
  rewrite !bindD_assoc.
  erewrite bindD_Some by (by apply load_bytes_at, (ext_atom_text false)).
  assert (verify_ascii_atom u = true) as -> by (by destruct v).
  cbn [negb andb]. rewrite bindD_ret. cbv beta iota.
  rewrite index_add_ok by (rewrite ?len_ext_atom in *; lia).
  replace (i + (b + i + 2 + len u - (b + i))) with (i + len (ext_atom false u))
    by (rewrite len_ext_atom; lia).
  by destruct v.
Qed.

(** ** Where a converted atom ends

    The text of a Latin-1 atom may need one byte more than [destlen - 1]: the
    test [dst >= dst_end] precedes a character that takes two bytes. Then the
    zero is stored one past the array. *)
Lemma decode_atom_overflow :
  let a := [ERL_SMALL_ATOM_EXT; 2; 97; 233] in
  ei_decode_atom_as true 3 ERLANG_UTF8 0 0 a = None /\
  ei_decode_atom_as false 3 ERLANG_UTF8 0 0 a
  = Some (Done 4 (AtomOut [97; 195; 169] ERLANG_LATIN1 ERLANG_UTF8)).
Proof. split; reflexivity. Qed.
