(* ===== verification/Data.v ===== *)
(** * Strings, binaries, floats and lists of integers

    encode_string.c, encode_binary.c, encode_double.c, decode_string.c,
    decode_binary.c, decode_double.c, decode_intlist.c. *)

From S2P Require Import Prelude Mem PutGet Ext Ints.

(** ** Encoders *)

(** [for (i=0; i<len; i++) { put8(s,ERL_SMALL_INTEGER_EXT); put8(s,p[i]); }] *)
Fixpoint put_chars (s : ptr) (p : list Z) : M ptr :=
  match p with
  | [] => retM s
  | c :: p =>
      let* s := put8 s ERL_SMALL_INTEGER_EXT in
      let* s := put8 s c in
      put_chars s p
  end.

Definition ei_encode_string_len (p : list Z) (n : Z) (buf : ptr) (index : Z) : M (Z * Z) :=
  let s := padd buf index in
  let s0 := s in
  let* s :=
    (if n =? 0 then
       if isnull buf then retM (padd s 1) else put8 s ERL_NIL_EXT
     else if n <=? 0xffff then
       let* s :=
         (if isnull buf then retM (padd s 3)
          else
            let* s := put8 s ERL_STRING_EXT in
            let* s := put16be s n in
            let* src := src_bytes p n in
            let* _ := (if n <? 0 then ubM else memcpy s src) in
            retM s) in
       retM (padd s n)
     else
       if isnull buf then retM (padd s (int32 (5 + 2 * n + 1)))
       else
         let* s := put8 s ERL_LIST_EXT in
         let* s := put32be s n in
         let* src := src_bytes p n in
         let* s := put_chars s src in
         put8 s ERL_NIL_EXT) in
  retM (0, index_add index (psub s s0)).

Definition ei_encode_string (p : list Z) (buf : ptr) (index : Z) : M (Z * Z) :=
  let n := strlen p in
  if int_max <=? n then retM (-1, index) else ei_encode_string_len p n buf index.

Definition ei_encode_binary (p : list Z) (n : Z) (buf : ptr) (index : Z) : M (Z * Z) :=
  let s := padd buf index in
  let s0 := s in
  let* s :=
    (if isnull buf then retM (padd s 5)
     else
       let* s := put8 s ERL_BINARY_EXT in
       let* s := put32be s n in
       let* src := src_bytes p n in
       let* _ := (if n <? 0 then ubM else memcpy s src) in
       retM s) in
  let s := padd s n in
  retM (0, index_add index (psub s s0)).

(** A [double] is its 64 bits; [isfinite] is that the exponent is not all
    ones. *)
Definition isfinite (p : Z) : bool := negb (Z.land (Z.shiftr p 52) 0x7ff =? 0x7ff).

Definition ei_encode_double (p : Z) (buf : ptr) (index : Z) : M (Z * Z) :=
  let s := padd buf index in
  let s0 := s in
  if negb (isfinite p) then retM (-1, index) else
  let* s :=
    (if isnull buf then retM (padd s 9)
     else let* s := put8 s NEW_FLOAT_EXT in put64be s p) in
  retM (0, index_add index (psub s s0)).

(** ** Decoders *)

(** The elements of a string sent as a list: each has to be a small integer.
    Without [p] the values are skipped, not read. *)
Fixpoint get_chars (p : bool) (n : nat) (s : Z) : D (option (list Z * Z)) :=
  match n with
  | O => retD (Some ([], s))
  | S n =>
      let+ (etype, s) := get8 s in
      if negb (etype =? ERL_SMALL_INTEGER_EXT) then retD None else
      let+ (c, s) := (if p then get8 s else retD (0, s + 1)) in
      let+ r := get_chars p n s in
      match r with
      | None => retD None
      | Some (cs, s) => retD (Some (c :: cs, s))
      end
  end.

Definition ei_decode_string (p : bool) (buf index : Z) : D (cres (option (list Z))) :=
  let s := buf + index in
  let s0 := s in
  let+ (tag, s) := get8 s in
  if tag =? ERL_STRING_EXT then
    let+ (n, s) := get16be s in
    let+ txt := (if p then load_bytes s n else retD []) in
    let s := s + n in
    retD (Done (index_add index (s - s0)) (out p txt))
  else if tag =? ERL_LIST_EXT then
    let+ (n, s) := get32be s in
    let+ r := get_chars p (Z.to_nat n) s in
    match r with
    | None => retD Fail
    | Some (txt, s) =>
        let+ (etype, s) := get8 s in
        if negb (etype =? ERL_NIL_EXT) then retD Fail
        else retD (Done (index_add index (s - s0)) (out p txt))
    end
  else if tag =? ERL_NIL_EXT then
    retD (Done (index_add index (s - s0)) (out p []))
  else retD Fail.

(** The length is a [long] made from an [int]: a top bit makes it negative. *)
Definition ei_decode_binary (p : bool) (buf index : Z) : D (cres (option (list Z) * Z)) :=
  let s := buf + index in
  let s0 := s in
  let+ (tag, s) := get8 s in
  if negb (tag =? ERL_BINARY_EXT) then retD Fail else
  let+ (n, s) := get32be s in
  let+ txt := (if p then load_bytes s n else retD []) in
  let s := s + n in
  retD (Done (index_add index (s - s0)) (out p txt, n)).

Section Double.
(** [sscanf(s, "%lf", &f)]: the bits of the number read from the text that
    starts at the bytes given, if there is one. *)
Context (sscanf_lf : list Z -> option Z).

Definition ei_decode_double (p : bool) (buf index : Z) : D (cres (option Z)) :=
  let s := buf + index in
  let s0 := s in
  let+ (tag, s) := get8 s in
  if tag =? ERL_FLOAT_EXT then
    let+ txt := (fun mem => Some (drop (Z.to_nat s) mem)) in
    match sscanf_lf txt with
    | None => retD Fail
    | Some f => let s := s + 31 in retD (Done (index_add index (s - s0)) (out p f))
    end
  else if tag =? NEW_FLOAT_EXT then
    let+ (f, s) := get64be s in
    retD (Done (index_add index (s - s0)) (out p f))
  else retD Fail.
End Double.

(** The elements of a list read as integers: how many were read, their values,
    the index after them relative to [s], and whether one was refused. *)
Fixpoint get_longs (a : bool) (n : nat) (s idx i : Z) : D (Z * list Z * Z * bool) :=
  match n with
  | O => retD (i, [], idx, true)
  | S n =>
      let+ r := ei_decode_long a s idx in
      match r with
      | Fail => retD (i, [], idx, false)
      | Done idx v =>
          let+ (count, vs, idx, ok) := get_longs a n s idx (i + 1) in
          retD (count, match v with Some v => v :: vs | None => vs end, idx, ok)
      end
  end.

(** Returns [(rc, *index, a[], *count)]. [*count] is stored on success, and
    when an element is refused; a tag that is no list leaves it alone. The tail
    of a list is not read. *)
Definition ei_decode_intlist (a : bool) (buf index : Z)
    : D (Z * Z * option (list Z) * option Z) :=
  let s := buf + index in
  let s0 := s in
  let+ (tag, s) := get8 s in
  if tag =? ERL_STRING_EXT then
    let+ (n, s) := get16be s in
    let+ vs := (if a then load_bytes s n else retD []) in
    let s := s + n in
    retD (0, index_add index (s - s0), out a vs, Some n)
  else if tag =? ERL_LIST_EXT then
    let+ (n, s) := get32be s in
    let+ (count, vs, idx, ok) := get_longs a (Z.to_nat n) s 0 0 in
    if ok then
      let s := s + idx in
      retD (0, index_add index (s - s0), out a vs, Some n)
    else retD (-1, index, out a vs, Some count)
  else retD (-1, index, None, None).

(** ** The bytes *)

Definition ext_chars (p : list Z) : list Z := p ≫= fun c => [ERL_SMALL_INTEGER_EXT; c].

Definition ext_string (p : list Z) : list Z :=
  if len p =? 0 then [ERL_NIL_EXT]
  else if len p <=? 0xffff then (ERL_STRING_EXT :: be16 (len p)) ++ p
  else (ERL_LIST_EXT :: be32 (len p)) ++ ext_chars p ++ [ERL_NIL_EXT].

Definition ext_binary (p : list Z) : list Z := (ERL_BINARY_EXT :: be32 (len p)) ++ p.

Definition ext_double (p : Z) : list Z := NEW_FLOAT_EXT :: be64 p.

Lemma ext_chars_cons c p : ext_chars (c :: p) = [ERL_SMALL_INTEGER_EXT; c] ++ ext_chars p.
Proof. done. Qed.

Lemma len_ext_chars p : len (ext_chars p) = 2 * len p.
Proof.
  induction p as [| c p IH]; [done |].
  rewrite ext_chars_cons. autorewrite with len. lia.
Qed.
#[export] Hint Rewrite len_ext_chars : len.

(** ** The encoders *)

#[export] Instance put_chars_writes p :
  Forall is_byte p -> Writes (fun s => put_chars s p) (ext_chars p).
Proof.
  induction 1 as [| c p Hc _ IH]; intros o s Hf.
  - simpl. by rewrite Z.add_0_r, splice_nil.
  - rewrite ext_chars_cons in *. cbn [put_chars].
    match goal with |- ?m s = _ => apply (run_start m s o) end.
    wstep. wstep. rewrite (byte_small c Hc). cbn [app].
    change [byte ERL_SMALL_INTEGER_EXT; c] with [ERL_SMALL_INTEGER_EXT; c].
    rewrite IH by (apply fits_splice; fits_lia).
    rewrite splice_app by done. autorewrite with len. do 3 f_equal. lia.
Qed.

#[export] Instance encode_string_len_ok p :
  Forall is_byte p -> Encodes (ei_encode_string_len p (len p)) (ext_string p).
Proof.
  intros Hb. unfold ext_string, ei_encode_string_len.
  destruct (Z.eqb_spec (len p) 0); [split; [enc_null | enc_buf] |].
  destruct (Z.leb_spec (len p) 0xffff).
  - split; [enc_null |].
    rewrite (proj2 (Z.ltb_ge (len p) 0)) by lia. intros b i s ? ? Hf.
    cbn [isnull nonnull negb at_off].
    match goal with |- ?m s = Some (_, splice s ?o _) => apply (run_start m s o) end.
    wstep. wstep. rewrite ?bindM_assoc. erewrite bindM_Some by apply src_bytes_all.
    wstep. rewrite !bindM_ret. enc_finish_tac.
  - split.
    + intros i s ? ?. cbn [isnull nonnull negb NULL]. rewrite bindM_ret.
      rewrite int32_small
        by (unfold is_int32, int_max in *; autorewrite with len in *; lia).
      enc_finish_tac.
    + intros b i s ? ? Hf. cbn [isnull nonnull negb at_off].
      match goal with |- ?m s = Some (_, splice s ?o _) => apply (run_start m s o) end.
      wstep. wstep. rewrite ?bindM_assoc. erewrite bindM_Some by apply src_bytes_all.
      rewrite ?bindM_assoc. pose proof (put_chars_writes p Hb).
      rewrite (wput (fun s => put_chars s p)) by (first [solve [ptr_tac] | fits_lia]).
      wstep. rewrite <- !app_assoc. cbn [app]. enc_finish_tac.
Qed.

(** Only the first [n] bytes of the array matter; a C string ends at its zero. *)
Lemma string_len_take p n b i s :
  0 <= n <= len p ->
  ei_encode_string_len p n b i s = ei_encode_string_len (take (Z.to_nat n) p) n b i s.
Proof.
  intros Hn. unfold ei_encode_string_len, src_bytes.
  rewrite take_take, Nat.min_id, length_take.
  by rewrite (proj2 (Z.leb_le n (len p))), (proj2 (Z.leb_le n (Z.of_nat _))) by lia.
Qed.

Lemma encode_string_prefix_ok a t : Forall is_byte a ->
  Encodes (ei_encode_string_len (a ++ t) (len a)) (ext_string a).
Proof.
  intros Ha. eapply Encodes_ext; [| by apply encode_string_len_ok].
  intros. rewrite string_len_take by (rewrite len_app; lia). by rewrite Nat2Z.id, take_app_length.
Qed.

Lemma encode_string_c_str_ok s : Forall is_byte s ->
  Encodes (ei_encode_string_len s (strlen s)) (ext_string (c_str s)).
Proof.
  intros Hs. eapply Encodes_ext; [| by apply encode_string_len_ok, c_str_byte].
  intros. rewrite string_len_take, c_str_take; [done |]. pose proof (strlen_le s).
  unfold strlen in *. lia.
Qed.

Lemma encode_string_ok s : Forall is_byte s -> strlen s < int_max ->
  Encodes (ei_encode_string s) (ext_string (c_str s)).
Proof.
  intros Hs Hl. eapply Encodes_ext; [| by apply encode_string_c_str_ok].
  intros. unfold ei_encode_string. by rewrite (proj2 (Z.leb_gt _ _)).
Qed.

#[export] Instance encode_binary_ok p :
  Forall is_byte p -> Encodes (ei_encode_binary p (len p)) (ext_binary p).
Proof.
  intros Hb. unfold ext_binary, ei_encode_binary.
  rewrite (proj2 (Z.ltb_ge (len p) 0)) by lia.
  split; [enc_null |]. intros b i s ? ? Hf. cbn [isnull nonnull negb at_off].
  match goal with |- ?m s = Some (_, splice s ?o _) => apply (run_start m s o) end.
  wstep. wstep. rewrite ?bindM_assoc. erewrite bindM_Some by apply src_bytes_all.
  wstep. rewrite !bindM_ret. enc_finish_tac.
Qed.

Lemma encode_binary_prefix_ok b n : Forall is_byte b -> 0 <= n <= len b ->
  Encodes (ei_encode_binary b n) (ext_binary (take (Z.to_nat n) b)).
Proof.
  intros Hb Hn. assert (Hl : len (take (Z.to_nat n) b) = n) by (rewrite length_take; lia).
  eapply Encodes_ext; [| by apply encode_binary_ok, Forall_take]. intros p i s. rewrite Hl.
  unfold ei_encode_binary, src_bytes.
  by rewrite take_take, Nat.min_id, Hl, (proj2 (Z.leb_le n (len b))), Z.leb_refl by lia.
Qed.

#[export] Instance encode_double_ok p :
  isfinite p = true -> Encodes (ei_encode_double p) (ext_double p).
Proof.
  intros Hp. split; unfold ei_encode_double; rewrite Hp; [enc_null | enc_buf].
Qed.

Lemma encode_double_refuses p : isfinite p = false -> Refuses (ei_encode_double p).
Proof. intros Hp b i s. exists i. unfold ei_encode_double. by rewrite Hp. Qed.

(** ** The decoders *)

Lemma get_chars_ok p cs o s :
  Forall is_byte cs -> at_ s o (ext_chars cs) ->
  exists cs', get_chars p (length cs) o s = Some (Some (cs', o + 2 * len cs)) /\
    (p = true -> cs' = cs).
Proof.
  intros Hb. revert o. induction Hb as [| c cs Hc _ IH]; intros o Ha.
  - exists []. cbn. by rewrite Z.add_0_r.
  - rewrite ext_chars_cons in Ha. at_split.
    destruct (IH (o + 2)) as (cs' & Hcs & Hp).
    { match goal with H : at_ s _ (ext_chars cs) |- _ =>
        by replace (o + 2) with (o + len [ERL_SMALL_INTEGER_EXT; c]) by off_tac end. }
    cbn [length get_chars]. rstep.
    replace (o + 1 + 1) with (o + 2) by lia.
    destruct p.
    + exists (c :: cs'). rstep. replace (o + 1 + 1) with (o + 2) by lia.
      erewrite bindD_Some by done. rewrite Hp by done. split; [| done].
      unfold retD. do 3 f_equal. lia.
    + exists (0 :: cs'). rewrite bindD_ret. cbv beta iota.
      erewrite bindD_Some by done. split; [| done].
      unfold retD. do 3 f_equal. lia.
Qed.

#[export] Instance decode_string_ok p :
  Forall is_byte p -> Decodes ei_decode_string (ext_string p) p.
Proof.
  unfold ext_string. intros Hb q b i s Hi Hl Ha. unfold ei_decode_string.
  destruct (Z.eqb_spec (len p) 0) as [E |]; [| destruct (Z.leb_spec (len p) 0xffff)].
  - rstep. destruct p; [| done]. by dec_finish_tac.
  - at_split. rstep. rstep. rewrite Z.mod_small by lia.
    assert (Htxt : at_ s (b + i + 1 + 2) p) by at_tac.
    destruct q; [erewrite bindD_Some by (by apply load_bytes_at) |]; by dec_finish_tac.
  - at_split. rstep. rstep. autorewrite with len in Hl.
    rewrite int32_small, Nat2Z.id by (unfold is_int32, int_max in *; lia).
    assert (Htxt : at_ s (b + i + 1 + 4) (ext_chars p)) by at_tac.
    destruct (get_chars_ok q p _ s Hb Htxt) as (cs & Hcs & Hq).
    erewrite bindD_Some by done. cbv beta iota. rstep. dec_finish_tac.
    destruct q; [by rewrite Hq | done].
Qed.

Lemma decode_binary_ok p q b i s :
  0 <= i -> i + len (ext_binary p) <= int_max -> at_ s (b + i) (ext_binary p) ->
  ei_decode_binary q b i s = Some (Done (i + len (ext_binary p)) (out q p, len p)).
Proof.
  unfold ext_binary. intros Hi Hl Ha. unfold ei_decode_binary. at_split. rstep. rstep.
  autorewrite with len in Hl.
  rewrite int32_small by (unfold is_int32, int_max in *; lia).
  assert (Htxt : at_ s (b + i + 1 + 4) p) by at_tac.
  destruct q; [erewrite bindD_Some by (by apply load_bytes_at) |]; by dec_finish_tac.
Qed.

#[export] Instance decode_double_ok sscanf_lf p :
  is_uint64 p -> Decodes (ei_decode_double sscanf_lf) (ext_double p) p.
Proof.
  unfold ext_double. intros Hp q b i s Hi Hl Ha. unfold ei_decode_double.
  at_split. rstep. rstep. rewrite uint64_small by done. by dec_finish_tac.
Qed.

(** A list of integers in any of their forms, and a string, both read as an
    array of [long]s. *)
Definition ext_longs (vs : list Z) : list Z := vs ≫= ext_longlong.

Lemma get_longs_ok a vs : forall s0 idx i s,
  Forall is_int64 vs -> 0 <= idx -> idx + len (ext_longs vs) <= int_max ->
  at_ s (s0 + idx) (ext_longs vs) ->
  exists vs', get_longs a (length vs) s0 idx i s
    = Some (i + len vs, vs', idx + len (ext_longs vs), true) /\ (a = true -> vs' = vs).
Proof.
  induction vs as [| v vs IH]; intros s0 idx i s Hv Hi Hl Ha.
  - exists []. cbn. by rewrite !Z.add_0_r.
  - inversion Hv as [| ? ? Hv1 Hv2]; subst.
    change (ext_longs (v :: vs)) with (ext_longlong v ++ ext_longs vs) in *.
    rewrite len_app in *. apply at_app in Ha as [Ha1 Ha2]. rewrite <- Z.add_assoc in Ha2.
    cbn [length get_longs]. unfold ei_decode_long.
    erewrite bindD_Some by (apply (decode_longlong_ok v Hv1); done || lia).
    cbv beta iota.
    destruct (IH s0 (idx + len (ext_longlong v)) (i + 1) s) as (vs' & Hvs & Ht);
      [done | lia | lia | done |].
    erewrite bindD_Some by done. cbv beta iota.
    destruct a; [exists (v :: vs'); rewrite Ht by done | exists vs'];
      (split; [| done]); unfold retD; cbn [out];
      rewrite (Nat2Z.inj_succ (length vs)), Z.add_assoc;
      by replace (i + Z.succ (len vs)) with (i + 1 + len vs) by lia.
Qed.

Lemma decode_intlist_ok a vs b i s :
  let bs := (ERL_LIST_EXT :: be32 (len vs)) ++ ext_longs vs in
  Forall is_int64 vs -> 0 <= i -> i + len bs <= int_max ->
  len vs <= int_max -> at_ s (b + i) bs ->
  ei_decode_intlist a b i s = Some (0, i + len bs, out a vs, Some (len vs)).
Proof.
  intros bs Hv Hi Hl Hn Ha. unfold bs in *. unfold ei_decode_intlist. at_split.
  rstep. rstep. autorewrite with len in Hl.
  rewrite int32_small, Nat2Z.id by (unfold is_int32, int_max in *; lia).
  assert (Htxt : at_ s (b + i + 1 + 4 + 0) (ext_longs vs)) by at_tac.
  destruct (get_longs_ok a vs (b + i + 1 + 4) 0 0 s) as (vs' & Hvs & Ht);
    [done | lia | lia | done |].
  erewrite bindD_Some by done. cbv beta iota. unfold retD.
  rewrite index_add_ok by lia. autorewrite with len.
  assert (out a vs' = out a vs) as -> by (destruct a; [by rewrite Ht | done]).
  do 4 f_equal; lia.
Qed.

Lemma decode_intlist_string a p b i s :
  let bs := (ERL_STRING_EXT :: be16 (len p)) ++ p in
  0 <= i -> i + len bs <= int_max -> len p < 65536 -> at_ s (b + i) bs ->
  ei_decode_intlist a b i s = Some (0, i + len bs, out a p, Some (len p)).
Proof.
  intros bs Hi Hl Hn Ha. unfold bs in *. unfold ei_decode_intlist. at_split.
  rstep. rstep. rewrite Z.mod_small by lia.
  assert (Htxt : at_ s (b + i + 1 + 2) p) by at_tac. autorewrite with len in *.
  destruct a; [erewrite bindD_Some by (by apply load_bytes_at) | rewrite bindD_ret];
    unfold retD; rewrite index_add_ok by lia; do 4 f_equal; lia.
Qed.
