(* ===== verification/Ids.v ===== *)
(** * Pids, ports, references and trace tokens

    encode_pid.c, encode_port.c, encode_ref.c, encode_trace.c and their
    decoders: a tag, the name of a node as an atom, and integers of which only
    some bits travel. *)

From S2P Require Import Prelude Mem PutGet Ext Headers Ints Atom.

(** ** Encoders

    The atom is written first, behind the room left for the tag; the tag and
    the integers are stored only if there is a buffer. When the name is refused
    the index has already been moved over the tag. *)

Definition pid_tag (p : erlang_pid) : Z :=
  if 3 <? pid_creation p then ERL_NEW_PID_EXT else ERL_PID_EXT.

(** [if (buf) { put8(s, tag); s = buf + *index; ... }] *)
Definition pid_fill (p : erlang_pid) (buf : ptr) (index0 index : Z) : M unit :=
  if negb (isnull buf) then
    let s := padd buf index0 in
    let* _ := put8 s (pid_tag p) in
    let s := padd buf index in
    let* s := put32be s (Z.land (pid_num p) 0x7fff) in
    let* s := put32be s (Z.land (pid_serial p) 0x1fff) in
    let* _ := (if pid_tag p =? ERL_PID_EXT then put8 s (Z.land (pid_creation p) 0x03)
               else put32be s (pid_creation p)) in
    retM tt
  else retM tt.

Definition ei_encode_pid (p : erlang_pid) (buf : ptr) (index : Z) : M (Z * Z) :=
  let index0 := index in
  let index := index_add index 1 in
  let* (rc, index) := ei_encode_atom_len_as (pid_node p) (strlen (pid_node p))
                        ERLANG_UTF8 (Z.lor ERLANG_LATIN1 ERLANG_UTF8) buf index in
  if rc <? 0 then retM (-1, index) else
  let* _ := pid_fill p buf index0 index in
  retM (0, index_add index (4 + 4 + (if pid_tag p =? ERL_PID_EXT then 1 else 4))).

Definition port_tag (p : erlang_port) : Z :=
  if 3 <? port_creation p then ERL_NEW_PORT_EXT else ERL_PORT_EXT.

Definition port_fill (p : erlang_port) (buf : ptr) (index0 index : Z) : M unit :=
  if negb (isnull buf) then
    let s := padd buf index0 in
    let* _ := put8 s (port_tag p) in
    let s := padd buf index in
    let* s := put32be s (Z.land (port_id p) 0x0fffffff) in
    let* _ := (if port_tag p =? ERL_PORT_EXT then put8 s (Z.land (port_creation p) 0x03)
               else put32be s (port_creation p)) in
    retM tt
  else retM tt.

Definition ei_encode_port (p : erlang_port) (buf : ptr) (index : Z) : M (Z * Z) :=
  let index0 := index in
  let index := index_add index 1 in
  let* (rc, index) := ei_encode_atom_len_as (port_node p) (strlen (port_node p))
                        ERLANG_UTF8 (Z.lor ERLANG_LATIN1 ERLANG_UTF8) buf index in
  if rc <? 0 then retM (-1, index) else
  let* _ := port_fill p buf index0 index in
  retM (0, index_add index (4 + (if port_tag p =? ERL_PORT_EXT then 1 else 4))).

Definition ref_tag (p : erlang_ref) : Z :=
  if 3 <? ref_creation p then ERL_NEWER_REFERENCE_EXT else ERL_NEW_REFERENCE_EXT.

(** [for (i = 0; i < p->len; i++) put32be(s,p->n[i]);], [k] rounds left; an
    [n[i]] outside the array is undefined. *)
Fixpoint put_words (k : nat) (ws : list Z) (s : ptr) : M ptr :=
  match k with
  | O => retM s
  | S k =>
      match ws with
      | [] => ubM
      | w :: ws => let* s := put32be s w in put_words k ws s
      end
  end.

Definition ref_fill (p : erlang_ref) (buf : ptr) (index0 index : Z) : M unit :=
  if negb (isnull buf) then
    let s := padd buf index0 in
    let* s := put8 s (ref_tag p) in
    let* _ := put16be s (ref_len p) in
    let s := padd buf index in
    let* s := (if ref_tag p =? ERL_NEW_REFERENCE_EXT
               then put8 s (Z.land (ref_creation p) 0x03)
               else put32be s (ref_creation p)) in
    let* _ := put_words (Z.to_nat (ref_len p)) (ref_n p) s in
    retM tt
  else retM tt.

Definition ei_encode_ref (p : erlang_ref) (buf : ptr) (index : Z) : M (Z * Z) :=
  let index0 := index in
  let index := index_add index (1 + 2) in
  let* (rc, index) := ei_encode_atom_len_as (ref_node p) (strlen (ref_node p))
                        ERLANG_UTF8 (Z.lor ERLANG_LATIN1 ERLANG_UTF8) buf index in
  if rc <? 0 then retM (-1, index) else
  let* _ := ref_fill p buf index0 index in
  retM (0, index_add index
             (ref_len p * 4 + (if ref_tag p =? ERL_NEW_REFERENCE_EXT then 1 else 4))).

(** What the six encoders return is not looked at. *)
Definition ei_encode_trace (p : erlang_trace) (buf : ptr) (index : Z) : M (Z * Z) :=
  let* (_, index) := ei_encode_tuple_header 5 buf index in
  let* (_, index) := ei_encode_long (tr_flags p) buf index in
  let* (_, index) := ei_encode_long (tr_label p) buf index in
  let* (_, index) := ei_encode_long (tr_serial p) buf index in
  let* (_, index) := ei_encode_pid (tr_from p) buf index in
  let* (_, index) := ei_encode_long (tr_prev p) buf index in
  retM (0, index).

(** ** Decoders *)

(** A [char] tag of 128 or more is negative and equals no tag; so is the byte. *)
Definition ei_decode_pid (p : bool) (buf index : Z) : D (cres (option erlang_pid)) :=
  let s := buf + index in
  let s0 := s in
  let+ (tag, s) := get8 s in
  if negb (tag =? ERL_PID_EXT) && negb (tag =? ERL_NEW_PID_EXT) then retD Fail else
  if p then
    let- (s, a) := get_atom true s in
    let+ (num, s) := get32be s in
    let+ (serial, s) := get32be s in
    let+ (creation, s) :=
      (if tag =? ERL_PID_EXT then let+ (c, s) := get8 s in retD (Z.land c 0x03, s)
       else let+ (c, s) := get32be s in retD (uint32 c, s)) in
    retD (Done (index_add index (s - s0))
      (Some (Pid (at_text a) (Z.land num 0x7fff) (Z.land serial 0x1fff) creation)))
  else
    let- (s, _) := get_atom false s in
    let s := s + (if tag =? ERL_PID_EXT then 9 else 12) in
    retD (Done (index_add index (s - s0)) None).

Definition ei_decode_port (p : bool) (buf index : Z) : D (cres (option erlang_port)) :=
  let s := buf + index in
  let s0 := s in
  let+ (tag, s) := get8 s in
  if negb (tag =? ERL_PORT_EXT) && negb (tag =? ERL_NEW_PORT_EXT) then retD Fail else
  if p then
    let- (s, a) := get_atom true s in
    let+ (id, s) := get32be s in
    let+ (creation, s) :=
      (if tag =? ERL_PORT_EXT then let+ (c, s) := get8 s in retD (Z.land c 0x03, s)
       else let+ (c, s) := get32be s in retD (uint32 c, s)) in
    retD (Done (index_add index (s - s0))
      (Some (Port (at_text a) (Z.land id 0x0fffffff) creation)))
  else
    let- (s, _) := get_atom false s in
    let s := s + (if tag =? ERL_PORT_EXT then 5 else 8) in
    retD (Done (index_add index (s - s0)) None).

(** [for (i = 0; (i<count) && (i<3); i++) p->n[i] = get32be(s);] *)
Fixpoint get_words (k : nat) (s : Z) : D (list Z * Z) :=
  match k with
  | O => retD ([], s)
  | S k =>
      let+ (w, s) := get32be s in
      let+ (ws, s) := get_words k s in
      retD (uint32 w :: ws, s)
  end.

Definition ei_decode_ref (p : bool) (buf index : Z) : D (cres (option erlang_ref)) :=
  let s := buf + index in
  let s0 := s in
  let+ (tag, s) := get8 s in
  if tag =? ERL_REFERENCE_EXT then
    if p then
      let- (s, a) := get_atom true s in
      let+ (n0, s) := get32be s in
      let+ (c, s) := get8 s in
      retD (Done (index_add index (s - s0))
        (Some (Ref (at_text a) 1 [uint32 n0] (Z.land c 0x03))))
    else
      let- (s, _) := get_atom false s in
      let s := s + 5 in
      retD (Done (index_add index (s - s0)) None)
  else if (tag =? ERL_NEW_REFERENCE_EXT) || (tag =? ERL_NEWER_REFERENCE_EXT) then
    let+ (count, s) := get16be s in
    if p then
      let- (s, a) := get_atom true s in
      let+ (creation, s) :=
        (if tag =? ERL_NEW_REFERENCE_EXT
         then let+ (c, s) := get8 s in retD (Z.land c 0x03, s)
         else let+ (c, s) := get32be s in retD (uint32 c, s)) in
      let+ (n, s) := get_words (Z.to_nat (Z.min count 3)) s in
      retD (Done (index_add index (s - s0)) (Some (Ref (at_text a) count n creation)))
    else
      let- (s, _) := get_atom false s in
      let s := s + (if tag =? ERL_NEW_REFERENCE_EXT then 1 else 4) in
      let s := s + 4 * count in
      retD (Done (index_add index (s - s0)) None)
  else retD Fail.

(** The elements are read through a temporary index; the first that is
    refused, or an arity other than 5, ends the chain of [||]. *)
Definition ei_decode_trace (p : bool) (buf index : Z) : D (cres (option erlang_trace)) :=
  let tindex := index in
  let- (tindex, arity) := ei_decode_tuple_header true buf tindex in
  if negb (bool_decide (arity = Some 5)) then retD Fail else
  let- (tindex, flags) := ei_decode_long p buf tindex in
  let- (tindex, label) := ei_decode_long p buf tindex in
  let- (tindex, serial) := ei_decode_long p buf tindex in
  let- (tindex, from) := ei_decode_pid p buf tindex in
  let- (tindex, prev) := ei_decode_long p buf tindex in
  retD (Done tindex
    (match flags, label, serial, from, prev with
     | Some flags, Some label, Some serial, Some from, Some prev =>
         Some (Trace serial prev from label flags)
     | _, _, _, _, _ => None
     end)).

(** ** The bytes *)

Definition ext_creation (c : Z) : list Z :=
  if 3 <? c then be32 c else [byte (Z.land c 0x03)].

Definition ext_pid (p : erlang_pid) : list Z :=
  [pid_tag p] ++ ext_atom_utf8 (c_str (pid_node p)) ++
  be32 (Z.land (pid_num p) 0x7fff) ++ be32 (Z.land (pid_serial p) 0x1fff) ++
  ext_creation (pid_creation p).

Definition ext_port (p : erlang_port) : list Z :=
  [port_tag p] ++ ext_atom_utf8 (c_str (port_node p)) ++
  be32 (Z.land (port_id p) 0x0fffffff) ++ ext_creation (port_creation p).

Definition ext_words (ws : list Z) : list Z := ws ≫= be32.

Definition ext_ref (p : erlang_ref) : list Z :=
  (ref_tag p :: be16 (ref_len p)) ++ ext_atom_utf8 (c_str (ref_node p)) ++
  ext_creation (ref_creation p) ++ ext_words (ref_n p).

Definition ext_trace (p : erlang_trace) : list Z :=
  ext_tuple_header 5 ++ ext_longlong (tr_flags p) ++ ext_longlong (tr_label p) ++
  ext_longlong (tr_serial p) ++ ext_pid (tr_from p) ++ ext_longlong (tr_prev p).

Lemma len_ext_words ws : len (ext_words ws) = 4 * len ws.
Proof.
  induction ws as [| w ws IH]; [done |].
  change (ext_words (w :: ws)) with (be32 w ++ ext_words ws).
  rewrite len_app, len_be32, IH, len_cons. lia.
Qed.
Lemma len_ext_creation c : len (ext_creation c) = if 3 <? c then 4 else 1.
Proof. unfold ext_creation. by destruct (3 <? c). Qed.
#[export] Hint Rewrite len_ext_words len_ext_creation : len.

(** ** Encoding with a name in the middle *)

Section Named.
Context (name : list Z) (to : erlang_char_encoding) (Hname : name_ok name).
Context (hdr tail : list Z) (fill : ptr -> Z -> Z -> M unit).
Context (f : ptr -> Z -> M (Z * Z)).
Context (Hf : forall buf i s, f buf i s =
  (let* (rc, ix) := ei_encode_atom_len_as name (strlen name) ERLANG_UTF8 to buf
                      (index_add i (len hdr)) in
   if rc <? 0 then retM (-1, ix) else
   let* _ := fill buf i ix in retM (0, index_add ix (len tail))) s).
Context (Hnull : forall i ix s, fill NULL i ix s = Some (tt, s)).
Context (Hbuf : forall b i ix s, fits s (b + i) hdr -> fits s (b + ix) tail ->
  fill (at_off b) i ix s = Some (tt, splice (splice s (b + i) hdr) (b + ix) tail)).

Lemma encodes_named :
  Encodes f (hdr ++ ext_atom_utf8 (c_str name) ++ tail).
Proof.
  pose proof (encode_name_ok name to Hname) as He.
  set (a := ext_atom_utf8 (c_str name)) in *.
  split.
  - intros i s ? Hl. autorewrite with len in *. rewrite Hf, index_add_ok by lia.
    erewrite bindM_Some by (apply encodes_null; lia). cbv beta iota. cbn [Z.ltb Z.compare].
    erewrite bindM_Some by apply Hnull. unfold retM.
    rewrite index_add_ok by lia. do 3 f_equal. lia.
  - intros b i s ? Hl [Ho Hr]. autorewrite with len in *.
    rewrite Hf, index_add_ok by lia.
    assert (Hfa : fits s (b + i + len hdr) a) by (split; lia).
    erewrite bindM_Some by (apply encodes_buf; [lia | lia |]; by rewrite Z.add_assoc).
    cbv beta iota. cbn [Z.ltb Z.compare]. rewrite Z.add_assoc.
    erewrite bindM_Some by (apply Hbuf; apply fits_splice; [done | split; lia | done | split; lia]).
    unfold retM. rewrite index_add_ok by lia.
    rewrite splice_app_before by (split; rewrite ?len_app; lia).
    replace (b + (i + len hdr + len a)) with (b + i + len (hdr ++ a))
      by (rewrite len_app; lia).
    rewrite splice_app by (split; rewrite ?len_app; lia).
    rewrite <- app_assoc. do 3 f_equal. lia.
Qed.
End Named.

(** The second run of a fill starts from the block the first one left. *)
Ltac run_at o := match goal with |- ?m ?s = Some (_, _) => apply (run_start m s o) end.
Ltac fill_second o :=
  match goal with
  | Hf : fits ?s (?b + ?ix) ?tail, H0 : fits ?s ?o0 ?h
    |- context [splice ?s ?o0 ?h'] =>
      change (splice s o0 h') with (splice s o0 h);
      pose proof (fits_splice s o0 h (b + ix) tail H0 Hf);
      generalize dependent (splice s o0 h); intros; run_at (b + ix)
  end.

Lemma encode_pid_ok p : name_ok (pid_node p) -> Encodes (ei_encode_pid p) (ext_pid p).
Proof.
  intros Hn. unfold ext_pid.
  apply (encodes_named (pid_node p) (Z.lor ERLANG_LATIN1 ERLANG_UTF8) Hn _ _ (pid_fill p)).
  - intros. unfold ei_encode_pid, pid_tag. autorewrite with len. change (len [_]) with 1.
    by destruct (3 <? pid_creation p).
  - done.
  - intros b i ix s H1 H2. unfold pid_fill, pid_tag, ext_creation in *.
    cbn [isnull nonnull negb at_off].
    destruct (3 <? pid_creation p); ctests; run_at (b + i); wstep; cbn [app];
      fill_second b; repeat wstep; cbn [app]; done.
Qed.

Lemma encode_port_ok p : name_ok (port_node p) -> Encodes (ei_encode_port p) (ext_port p).
Proof.
  intros Hn. unfold ext_port.
  apply (encodes_named (port_node p) (Z.lor ERLANG_LATIN1 ERLANG_UTF8) Hn _ _ (port_fill p)).
  - intros. unfold ei_encode_port, port_tag. autorewrite with len. change (len [_]) with 1.
    by destruct (3 <? port_creation p).
  - done.
  - intros b i ix s H1 H2. unfold port_fill, port_tag, ext_creation in *.
    cbn [isnull nonnull negb at_off].
    destruct (3 <? port_creation p); ctests; run_at (b + i); wstep; cbn [app];
      fill_second b; repeat wstep; cbn [app]; done.
Qed.

#[export] Instance put_words_writes ws : Writes (put_words (length ws) ws) (ext_words ws).
Proof.
  induction ws as [| w ws IH]; intros o s Hf.
  - simpl. by rewrite Z.add_0_r, splice_nil.
  - change (ext_words (w :: ws)) with (be32 w ++ ext_words ws) in *.
    cbn [length put_words]. run_at o. wstep. cbn [app].
    rewrite IH by (apply fits_splice; fits_lia).
    rewrite splice_app by done. autorewrite with len. do 3 f_equal. lia.
Qed.

Definition ref_ok (p : erlang_ref) : Prop :=
  name_ok (ref_node p) /\ ref_len p = len (ref_n p) /\ ref_len p <= 3.

Lemma encode_ref_ok p : ref_ok p -> Encodes (ei_encode_ref p) (ext_ref p).
Proof.
  intros (Hn & Hl & H3). unfold ext_ref.
  apply (encodes_named (ref_node p) (Z.lor ERLANG_LATIN1 ERLANG_UTF8) Hn _ _ (ref_fill p)).
  - intros. unfold ei_encode_ref, ref_tag. autorewrite with len. rewrite Hl.
    replace ((if 3 <? ref_creation p then 4 else 1) + 4 * len (ref_n p)) with
      (len (ref_n p) * 4 + (if 3 <? ref_creation p then 4 else 1)) by lia.
    by destruct (3 <? ref_creation p).
  - done.
  - intros b i ix s H1 H2. unfold ref_fill, ref_tag, ext_creation in *.
    cbn [isnull nonnull negb at_off].
    replace (Z.to_nat (ref_len p)) with (length (ref_n p)) by lia.
    destruct (3 <? ref_creation p); ctests; run_at (b + i); wstep; wstep; cbn [app];
      fill_second b; wstep;
      rewrite (wput (put_words (length (ref_n p)) (ref_n p)))
        by (first [solve [ptr_tac] | fits_lia]); done.
Qed.

(** The trace token is the sequence of its six parts. *)
Definition then_ (f g : ptr -> Z -> M (Z * Z)) : ptr -> Z -> M (Z * Z) :=
  fun buf index => let* (_, index) := f buf index in g buf index.

Lemma encodes_then f g bf bg :
  Encodes f bf -> Encodes g bg -> Encodes (then_ f g) (bf ++ bg).
Proof.
  intros Hf Hg. split.
  - intros i s ? Hl. rewrite len_app in *. unfold then_.
    erewrite bindM_Some by (apply encodes_null; lia). cbv beta iota.
    rewrite encodes_null by lia. by rewrite Z.add_assoc.
  - intros b i s ? Hl Hfit. pose proof Hfit as [? Hr]. rewrite len_app in *. unfold then_.
    assert (fits s (b + i) bf) by (split; lia).
    erewrite bindM_Some by (apply encodes_buf; [lia | lia | done]). cbv beta iota.
    rewrite encodes_buf by (first [lia | apply fits_splice; [done | split; lia]]).
    rewrite (Z.add_assoc b i), splice_app by (split; rewrite ?len_app; lia).
    by rewrite Z.add_assoc.
Qed.

Lemma encode_long_ok p : is_int64 p -> Encodes (ei_encode_long p) (ext_longlong p).
Proof. apply encode_longlong_ok. Qed.

Definition trace_ok (p : erlang_trace) : Prop :=
  is_int64 (tr_flags p) /\ is_int64 (tr_label p) /\ is_int64 (tr_serial p) /\
  name_ok (pid_node (tr_from p)) /\ is_int64 (tr_prev p).

Lemma encode_trace_ok p : trace_ok p -> Encodes (ei_encode_trace p) (ext_trace p).
Proof.
  intros (? & ? & ? & ? & ?). unfold ext_trace.
  rewrite <- (app_nil_r (ext_longlong (tr_prev p))).
  eapply Encodes_ext with (g := then_ (ei_encode_tuple_header 5)
    (then_ (ei_encode_long (tr_flags p)) (then_ (ei_encode_long (tr_label p))
    (then_ (ei_encode_long (tr_serial p)) (then_ (ei_encode_pid (tr_from p))
    (then_ (ei_encode_long (tr_prev p)) (fun _ index => retM (0, index)))))))); [done |].
  repeat apply encodes_then;
    auto using encode_long_ok, encode_pid_ok, encode_tuple_header_ok with lia.
  split; intros; unfold retM; cbn; by rewrite Z.add_0_r, ?splice_nil.
Qed.

Lemma encode_pid_refuses p b i s :
  verify_utf8_atom (c_str (pid_node p)) 0 = false ->
  ei_encode_pid p b i s = Some ((-1, index_add i 1), s).
Proof.
  intros Hv. unfold ei_encode_pid, bindM. rewrite atom_strlen.
  unfold ei_encode_atom_len_as. change (Z.land ERLANG_UTF8 _ =? 0) with true.
  cbn [negb]. rewrite andb_false_r.
  erewrite bindM_Some by apply src_bytes_all. by rewrite Hv.
Qed.

(** When the name of the sender is refused, the token is measured (and
    written) without its sender, one byte for the tag apart, and the result is
    still 0. *)
Lemma encode_trace_bad_name p i s :
  is_int64 (tr_flags p) -> is_int64 (tr_label p) -> is_int64 (tr_serial p) ->
  is_int64 (tr_prev p) -> verify_utf8_atom (c_str (pid_node (tr_from p))) 0 = false ->
  let n := 2 + len (ext_longlong (tr_flags p)) + len (ext_longlong (tr_label p)) +
           len (ext_longlong (tr_serial p)) + 1 + len (ext_longlong (tr_prev p)) in
  0 <= i -> i + n <= int_max ->
  ei_encode_trace p NULL i s = Some ((0, i + n), s).
Proof.
  intros Hf Hla Hs Hp Hv n Hi Hn. unfold n in *. clear n. unfold ei_encode_trace.
  erewrite bindM_Some by
    (apply null_pass; [by apply (encode_tuple_header_ok 5) | lia | cbn -[Z.add]; lia]).
  change (len (ext_tuple_header 5)) with 2. cbv beta iota.
  do 3 (erewrite bindM_Some by
    (eapply null_pass; [by apply encode_long_ok | lia | lia]); cbv beta iota).
  erewrite bindM_Some by (by apply encode_pid_refuses). cbv beta iota.
  rewrite index_add_ok by lia.
  erewrite bindM_Some by
    (eapply null_pass; [by apply encode_long_ok | lia | lia]); cbv beta iota.
  unfold retM. do 3 f_equal. lia.
Qed.

(** ** The decoders *)

Definition pid_name_ok (u : list Z) : Prop :=
  Forall is_byte u /\ verify_utf8_atom u 0 = true.

(** What an encoded pid, port or reference means: the bits that travel. *)
Definition pid_sent (p : erlang_pid) : erlang_pid :=
  Pid (c_str (pid_node p)) (Z.land (pid_num p) 0x7fff) (Z.land (pid_serial p) 0x1fff)
      (pid_creation p).
Definition port_sent (p : erlang_port) : erlang_port :=
  Port (c_str (port_node p)) (Z.land (port_id p) 0x0fffffff) (port_creation p).
Definition ref_sent (p : erlang_ref) : erlang_ref :=
  Ref (c_str (ref_node p)) (ref_len p) (ref_n p) (ref_creation p).

Lemma land_ones_range a k : 0 <= k -> 0 <= Z.land a (Z.ones k) < 2 ^ k.
Proof. intros. rewrite Z.land_ones by done. apply Z.mod_pos_bound. lia. Qed.

(** Masking twice is masking once, and the masked number is a non-negative
    [int]. *)
Lemma land_sent a k : 0 <= k <= 31 ->
  Z.land (int32 (Z.land a (Z.ones k))) (Z.ones k) = Z.land a (Z.ones k).
Proof.
  intros Hk. pose proof (land_ones_range a k).
  assert (2 ^ k <= 2 ^ 31) by (apply Z.pow_le_mono_r; lia).
  rewrite int32_small by (unfold is_int32; lia).
  by rewrite <- Z.land_assoc, Z.land_diag.
Qed.

Lemma creation_sent c : is_uint32 c -> (3 <? c) = false -> Z.land c 3 = c.
Proof.
  unfold is_uint32. intros Hc H3. change 3 with (Z.ones 2).
  rewrite Z.land_ones, Z.mod_small; [done | | lia]. apply Z.ltb_ge in H3. simpl. lia.
Qed.


Lemma name_text p : name_ok p -> pid_name_ok (c_str p).
Proof. intros [Hb Hv]. split; [by apply c_str_byte | done]. Qed.

Ltac name_step Hn :=
  match goal with
  | |- context [bindC (get_atom ?q ?o) ?k ?s] =>
      erewrite (bindC_Done (get_atom q o) k s)
        by (apply get_atom_ok; [apply Hn | apply Hn | at_tac])
  end; cbv beta iota; cbn [at_text].

#[export] Instance decode_pid_ok p :
  name_ok (pid_node p) -> is_uint32 (pid_creation p) ->
  Decodes ei_decode_pid (ext_pid p) (pid_sent p).
Proof.
  intros Hn%name_text Hc q b i s Hi Hl Ha. unfold ei_decode_pid.
  unfold ext_pid, ext_creation, pid_tag in *.
  destruct (3 <? pid_creation p) eqn:E3; at_split; rstep; destruct q; name_step Hn.
  - do 3 rstep. rewrite !bindD_ret. cbv beta iota. dec_finish_tac.
    unfold out, pid_sent. rewrite uint32_int32 by done.
    by rewrite (land_sent _ 15), (land_sent _ 13) by lia.
  - by dec_finish_tac.
  - do 3 rstep. rewrite !bindD_ret. cbv beta iota. dec_finish_tac.
    unfold out, pid_sent. rewrite (creation_sent _ Hc E3).
    rewrite byte_small by (unfold is_byte, is_uint32 in *; apply Z.ltb_ge in E3; lia).
    rewrite (creation_sent _ Hc E3).
    by rewrite (land_sent _ 15), (land_sent _ 13) by lia.
  - by dec_finish_tac.
Qed.

#[export] Instance decode_port_ok p :
  name_ok (port_node p) -> is_uint32 (port_creation p) ->
  Decodes ei_decode_port (ext_port p) (port_sent p).
Proof.
  intros Hn%name_text Hc q b i s Hi Hl Ha. unfold ei_decode_port.
  unfold ext_port, ext_creation, port_tag in *.
  destruct (3 <? port_creation p) eqn:E3; at_split; rstep; destruct q; name_step Hn.
  - do 2 rstep. rewrite !bindD_ret. cbv beta iota. dec_finish_tac.
    unfold out, port_sent. rewrite uint32_int32 by done.
    by rewrite (land_sent _ 28) by lia.
  - by dec_finish_tac.
  - do 2 rstep. rewrite !bindD_ret. cbv beta iota. dec_finish_tac.
    unfold out, port_sent. rewrite (creation_sent _ Hc E3).
    rewrite byte_small by (unfold is_byte, is_uint32 in *; apply Z.ltb_ge in E3; lia).
    rewrite (creation_sent _ Hc E3). by rewrite (land_sent _ 28) by lia.
  - by dec_finish_tac.
Qed.

Lemma get_words_ok ws o s :
  Forall is_uint32 ws -> at_ s o (ext_words ws) ->
  get_words (length ws) o s = Some (ws, o + 4 * len ws).
Proof.
  intros Hw. revert o. induction Hw as [| w ws Hw _ IH]; intros o Ha.
  - cbn. by rewrite Z.add_0_r.
  - change (ext_words (w :: ws)) with (be32 w ++ ext_words ws) in Ha.
    apply at_app in Ha as [Ha1 Ha2]. cbn [length get_words].
    erewrite bindD_Some by (by apply get32be_at). cbv beta iota.
    erewrite bindD_Some by (by apply IH). cbv beta iota. unfold retD.
    rewrite uint32_int32 by done. do 2 f_equal. lia.
Qed.

(** The words of a reference that are not stored: with an array of three, the
    decoder reads the first three only, and leaves the index before the rest;
    without one, it skips them all. *)
Lemma decode_ref_words p q b i s :
  name_ok (ref_node p) -> is_uint32 (ref_creation p) -> Forall is_uint32 (ref_n p) ->
  ref_len p = len (ref_n p) -> ref_len p < 65536 ->
  0 <= i -> i + len (ext_ref p) <= int_max -> at_ s (b + i) (ext_ref p) ->
  ei_decode_ref q b i s
  = Some (Done (i + len (ext_ref p) - (if q then 4 * Z.max 0 (ref_len p - 3) else 0))
            (out q (Ref (c_str (ref_node p)) (ref_len p) (take 3 (ref_n p))
                      (ref_creation p)))).
Proof.
  intros Hn%name_text Hc Hw Hr Hlt Hi Hl Ha. unfold ei_decode_ref.
  assert (Hwd : ext_words (ref_n p)
    = ext_words (take 3 (ref_n p)) ++ ext_words (drop 3 (ref_n p)))
    by (unfold ext_words; by rewrite <- bind_app, take_drop).
  assert (Hk : Z.to_nat (Z.min (ref_len p) 3) = length (take 3 (ref_n p)))
    by (rewrite length_take; lia).
  assert (Ht : len (take 3 (ref_n p)) = Z.min (ref_len p) 3)
    by (rewrite length_take; lia).
  assert (Hsent : (3 <? ref_creation p) = false ->
    Z.land (byte (Z.land (ref_creation p) 3)) 3 = ref_creation p).
  { intros E3. pose proof E3 as E4%Z.ltb_ge. rewrite (creation_sent _ Hc E3).
    rewrite byte_small by (unfold is_byte, is_uint32 in *; lia). by apply creation_sent. }
  unfold ext_ref, ext_creation, ref_tag in *. rewrite Hwd in Ha.
  destruct (3 <? ref_creation p); at_split; rstep; rstep;
    rewrite Z.mod_small by lia; destruct q; name_step Hn;
    [ rstep; rewrite Hk | | rstep; rewrite Hk | ];
    rewrite ?bindD_ret; cbv beta iota.
  1, 3: erewrite bindD_Some
    by (apply get_words_ok; [by apply Forall_take | at_tac]); cbv beta iota.
  all: unfold retD, out; autorewrite with len in *; rewrite index_add_ok by lia.
  - rewrite uint32_int32 by done. do 3 f_equal. lia.
  - rewrite Hsent by done. do 3 f_equal. lia.
  - do 2 f_equal. lia.
  - do 2 f_equal. lia.
Qed.

#[export] Instance decode_ref_ok p :
  ref_ok p -> is_uint32 (ref_creation p) -> Forall is_uint32 (ref_n p) ->
  Decodes ei_decode_ref (ext_ref p) (ref_sent p).
Proof.
  intros (Hn & Hr & H3) Hc Hw q b i s Hi Hl Ha.
  rewrite (decode_ref_words p) by (done || lia). rewrite take_ge by lia.
  destruct q; unfold out, ref_sent; do 2 f_equal; lia.
Qed.

Definition trace_sent (p : erlang_trace) : erlang_trace :=
  Trace (tr_serial p) (tr_prev p) (pid_sent (tr_from p)) (tr_label p) (tr_flags p).

Lemma decode_long_ok p : is_int64 p -> Decodes ei_decode_long (ext_longlong p) p.
Proof. apply decode_longlong_ok. Qed.

#[export] Instance decode_trace_ok p :
  trace_ok p -> is_uint32 (pid_creation (tr_from p)) ->
  Decodes ei_decode_trace (ext_trace p) (trace_sent p).
Proof.
  intros (Hf & Hla & Hs & Hn & Hp) Hc q b i s Hi Hl Ha. unfold ei_decode_trace.
  unfold ext_trace in *. rewrite !len_app in Hl.
  apply at_app in Ha as [Ha0 Ha]. apply at_app in Ha as [Ha1 Ha].
  apply at_app in Ha as [Ha2 Ha]. apply at_app in Ha as [Ha3 Ha].
  apply at_app in Ha as [Ha4 Ha5].
  assert (Decodes ei_decode_tuple_header (ext_tuple_header 5) 5)
    by (apply decode_tuple_header_ok; unfold is_int32; lia).
  rewrite (read_pass H Ha0) by lia. cbn [out].
  rewrite bool_decide_true by done. cbn [negb].
  rewrite (read_pass (decode_long_ok _ Hf) Ha1) by lia.
  rewrite (read_pass (decode_long_ok _ Hla) Ha2) by lia.
  rewrite (read_pass (decode_long_ok _ Hs) Ha3) by lia.
  rewrite (read_pass (decode_pid_ok _ Hn Hc) Ha4) by lia.
  rewrite (read_pass (decode_long_ok _ Hp) Ha5) by lia.
  unfold retD. rewrite !len_app, !Z.add_assoc. by destruct q.
Qed.
