(* ===== verification/Big.v ===== *)
(** * Big integers

    encode_big.c and the integer part of decode_big.c: a big is its sign and
    its magnitude in 16-bit digits, least significant first; on the wire the
    magnitude is [arity] bytes. *)

From S2P Require Import Prelude Mem PutGet Ext Ints.

(** ** Encoding *)

(** [for (i = 0; i < n; ++i) { s[i*2] = lo; if ((i*2+1) < digit_bytes)
    s[i*2+1] = hi; }], [k] rounds left; [dt[i]] outside the array is
    undefined. *)
Fixpoint put_digits16 (k : nat) (i digit_bytes : Z) (dt : list Z) (s : ptr) : M unit :=
  match k with
  | O => retM tt
  | S k =>
      match dt with
      | [] => ubM
      | d :: dt =>
          let hi := byte (Z.shiftr d 8) in
          let lo := byte d in
          let* _ := store (padd s (i * 2)) lo in
          let* _ := (if i * 2 + 1 <? digit_bytes then store (padd s (i * 2 + 1)) hi
                     else retM tt) in
          put_digits16 k (i + 1) digit_bytes dt s
      end
  end.

Definition ei_encode_big (big : erlang_big) (buf : ptr) (index : Z) : M (Z * Z) :=
  let s := padd buf index in
  let s0 := s in
  let digit_bytes := big_arity big in
  let n := (digit_bytes + 1) / 2 in
  let* s :=
    (if digit_bytes <? 256 then
       if negb (isnull buf) then
         let* s := put8 s ERL_SMALL_BIG_EXT in put8 s digit_bytes
       else retM (padd s 2)
     else
       if negb (isnull buf) then
         let* s := put8 s ERL_LARGE_BIG_EXT in put32be s digit_bytes
       else retM (padd s 5)) in
  let* s :=
    (if negb (isnull buf) then
       let* s := put8 s (big_is_neg big) in
       let* _ := put_digits16 (Z.to_nat n) 0 digit_bytes (big_digits big) s in
       retM s
     else retM (padd s 1)) in
  let s := padd s digit_bytes in
  retM (0, index_add index (psub s s0)).

(** ** Decoding *)

(** [dt[i] = s[i*2]; if ((i*2+1) < digit_bytes) dt[i] |= s[i*2+1] << 8;] *)
Fixpoint get_digits16 (k : nat) (i digit_bytes s : Z) : D (list Z) :=
  match k with
  | O => retD []
  | S k =>
      let+ lo := load (s + i * 2) in
      let+ d := (if i * 2 + 1 <? digit_bytes then
                   let+ hi := load (s + (i * 2 + 1)) in
                   retD (Z.lor lo (Z.shiftl hi 8))
                 else retD lo) in
      let+ dt := get_digits16 k (i + 1) digit_bytes s in
      retD (d :: dt)
  end.

(** [b] is the caller's big, allocated for its arity; NULL only skips. The
    number of digit bytes is an [unsigned int]. *)
Definition ei_decode_big (b : option erlang_big) (buf index : Z)
    : D (cres (option erlang_big)) :=
  let s := buf + index in
  let s0 := s in
  let+ (tag, s) := get8 s in
  let+ h := (if tag =? ERL_SMALL_BIG_EXT then let+ (n, s) := get8 s in retD (Some (n, s))
             else if tag =? ERL_LARGE_BIG_EXT then
               let+ (n, s) := get32be s in retD (Some (uint32 n, s))
             else retD None) in
  match h with
  | None => retD Fail
  | Some (digit_bytes, s) =>
      match b with
      | Some b =>
          let n := (digit_bytes + 1) / 2 in
          if negb (digit_bytes =? big_arity b) then retD Fail else
          let+ (neg, s) := get8 s in
          let+ dt := get_digits16 (Z.to_nat n) 0 digit_bytes s in
          let s := s + digit_bytes in
          retD (Done (index_add index (s - s0)) (Some (Big (big_arity b) neg dt)))
      | None =>
          let s := s + 1 in
          let s := s + digit_bytes in
          retD (Done (index_add index (s - s0)) None)
      end
  end.

(** [ei_alloc_big] when the allocations succeed: zeroed digits. *)
Definition ei_alloc_big (digit_bytes : Z) : erlang_big :=
  let n := (digit_bytes + 1) / 2 in
  Big digit_bytes 0 (replicate (Z.to_nat n) 0).

(** ** Comparison *)

(** [I_comp], on digits from the most significant down ([x += xl-1]). *)
Fixpoint I_comp_down (x y : list Z) : Z :=
  match x, y with
  | a :: x, b :: y => if a =? b then I_comp_down x y else if a <? b then -1 else 1
  | _, _ => 0
  end.

Definition I_comp (x : list Z) (xl : Z) (y : list Z) (yl : Z) : Z :=
  if xl <? yl then -1
  else if yl <? xl then 1
  else I_comp_down (rev (take (Z.to_nat xl) x)) (rev (take (Z.to_nat yl) y)).

Definition ei_big_comp (x y : erlang_big) : Z :=
  if big_is_neg x =? big_is_neg y then
    let c := I_comp (big_digits x) ((big_arity x + 1) / 2)
                    (big_digits y) ((big_arity y + 1) / 2) in
    if negb (big_is_neg x =? 0) then - c else c
  else if negb (big_is_neg x =? 0) then -1 else 1.

(** ** A small integer as a big *)

Definition D_EXP : Z := 16.
Definition D_BASE : Z := Z.shiftl 1 D_EXP.
(** Casts to [digit_t], 16 bits. *)
Definition DLOW (x : Z) : Z := uwrap 16 (Z.land x (D_BASE - 1)).
Definition DHIGH (x : Z) : Z := uwrap 16 (Z.shiftr x D_EXP).

Definition ei_small_to_big (s : Z) (b : erlang_big) : Z * erlang_big :=
  let n := (big_arity b + 1) / 2 in
  if n <? 2 then (-1, b)
  else (0, Big (big_arity b) (if s <? 0 then 1 else 0)
             (<[1%nat := DHIGH s]> (<[0%nat := DLOW s]> (big_digits b)))).

(** ** Digits and value *)

Definition is_digit (d : Z) : Prop := 0 <= d < 65536.

Fixpoint digits_val (ds : list Z) : Z :=
  match ds with [] => 0 | d :: ds => d + 65536 * digits_val ds end.

Definition big_val (b : erlang_big) : Z :=
  if big_is_neg b =? 0 then digits_val (big_digits b) else - digits_val (big_digits b).

(** [arity] bytes of digits: the digits that cover them, and no bit beyond. *)
Definition big_ok (b : erlang_big) : Prop :=
  Forall is_digit (big_digits b) /\ is_byte (big_is_neg b) /\
  0 <= big_arity b < 4294967295 /\ len (big_digits b) = (big_arity b + 1) / 2 /\
  digits_val (big_digits b) < 256 ^ big_arity b.

Definition ext_magnitude (b : erlang_big) : list Z :=
  le_bytes (Z.to_nat (big_arity b)) (digits_val (big_digits b)).

Definition ext_erlang_big (b : erlang_big) : list Z :=
  (if big_arity b <? 256 then [ERL_SMALL_BIG_EXT; byte (big_arity b)]
   else ERL_LARGE_BIG_EXT :: be32 (big_arity b)) ++ [big_is_neg b] ++ ext_magnitude b.

Lemma digits_val_range ds : Forall is_digit ds -> 0 <= digits_val ds < 65536 ^ len ds.
Proof.
  induction 1 as [| d ds Hd _ IH]; [done |]. cbn [digits_val length].
  rewrite Nat2Z.inj_succ, Z.pow_succ_r by lia. unfold is_digit in Hd. lia.
Qed.

Lemma byte_byte v : byte (byte v) = byte v.
Proof. apply byte_small, byte_range. Qed.

(** The bytes of the digits are the bytes of their value. *)
Lemma le_bytes_digit d n k : is_digit d ->
  le_bytes (S (S k)) (d + 65536 * n) = byte d :: byte (Z.shiftr d 8) :: le_bytes k n.
Proof.
  unfold is_digit. intros Hd. cbn [le_bytes]. rewrite Z.shiftr_div_pow2 by lia.
  rewrite !byte_mod. change (2 ^ 8) with 256.
  assert (H1 : (d + 65536 * n) / 256 = d / 256 + n * 256) by dlia.
  assert (H2 : (d / 256 + n * 256) / 256 = n) by dlia.
  rewrite H1, H2. rewrite Z.mod_add by lia.
  replace (d + 65536 * n) with (d + (256 * n) * 256) by lia. by rewrite Z.mod_add by lia.
Qed.

Lemma put_digits16_ok : forall ds i ar o bs s,
  Forall is_digit ds -> 0 <= i -> len bs = 2 * i ->
  2 * i <= ar -> len ds = (ar - 2 * i + 1) / 2 ->
  fits s o (bs ++ le_bytes (Z.to_nat (ar - 2 * i)) (digits_val ds)) ->
  put_digits16 (length ds) i ar ds (at_off o) (splice s o bs)
  = Some (tt, splice s o (bs ++ le_bytes (Z.to_nat (ar - 2 * i)) (digits_val ds))).
Proof.
  induction ds as [| d ds IH]; intros i ar o bs s Hd Hi Hbs Har Hl Hf.
  - replace (ar - 2 * i) with 0 by (cbn in Hl; dlia). by rewrite app_nil_r.
  - inversion Hd as [| ? ? Hd1 Hd2]; subst. cbn [put_digits16 length digits_val] in *.
    destruct Hf as [? Hf]. rewrite len_app, length_le_bytes in Hf.
    assert (Hm : ar - 2 * i = 1 \/ 2 <= ar - 2 * i) by dlia.
    rewrite Z.mul_comm in Hbs. unfold padd. cbn [nonnull off at_off].
    change (Ptr true (o + i * 2)) with (at_off (o + i * 2)).
    change (Ptr true (o + (i * 2 + 1))) with (at_off (o + (i * 2 + 1))). rewrite <- Hbs.
    erewrite bindM_Some by (apply store_ok, fits_splice; split; cbn; lia).
    rewrite splice_app by (split; rewrite ?len_app; cbn; lia).
    rewrite byte_byte.
    destruct Hm as [Hm | Hm].
    + rewrite (proj2 (Z.ltb_ge _ _)) by lia. rewrite bindM_ret, Hm.
      assert (ds = []) as -> by (destruct ds; [done | cbn in Hl; dlia]).
      cbn [put_digits16 length digits_val le_bytes Z.to_nat]. unfold retM.
      rewrite Z.mul_0_r, Z.add_0_r. done.
    + rewrite (proj2 (Z.ltb_lt _ _)) by lia.
      rewrite Z.add_assoc.
      replace (o + len bs + 1) with (o + len (bs ++ [byte d])) by (rewrite len_app; cbn; lia).
      erewrite bindM_Some by
        (apply store_ok, fits_splice; split; rewrite ?len_app; cbn; lia).
      rewrite splice_app by (split; rewrite ?len_app; cbn; lia).
      rewrite byte_byte.
      replace (Z.to_nat (ar - 2 * i)) with (S (S (Z.to_nat (ar - 2 * (i + 1))))) in * by lia.
      rewrite le_bytes_digit by done.
      rewrite (IH (i + 1)).
      * by rewrite <- !app_assoc.
      * done.
      * lia.
      * rewrite !len_app. cbn. lia.
      * lia.
      * cbn in Hl. dlia.
      * split; [lia |]. rewrite !len_app, length_le_bytes. cbn. lia.
Qed.

Lemma len_magnitude b : 0 <= big_arity b -> len (ext_magnitude b) = big_arity b.
Proof. intros. unfold ext_magnitude. rewrite length_le_bytes. lia. Qed.

Definition big_hdr (b : erlang_big) : list Z :=
  if big_arity b <? 256 then [ERL_SMALL_BIG_EXT; byte (big_arity b)]
  else ERL_LARGE_BIG_EXT :: be32 (big_arity b).

Lemma big_header b bo i s (k : ptr -> M (Z * Z)) :
  fits s (bo + i) (big_hdr b) ->
  (let* s := (if big_arity b <? 256 then
       let* s := put8 (padd (at_off bo) i) ERL_SMALL_BIG_EXT in put8 s (big_arity b)
     else
       let* s := put8 (padd (at_off bo) i) ERL_LARGE_BIG_EXT in put32be s (big_arity b)) in
   k s) (splice s (bo + i) [])
  = k (at_off (bo + i + len (big_hdr b))) (splice s (bo + i) (big_hdr b)).
Proof.
  unfold big_hdr. intros Hf. destruct (big_arity b <? 256); wstep; wstep; done.
Qed.

Lemma encode_big_ok b : big_ok b -> Encodes (ei_encode_big b) (ext_erlang_big b).
Proof.
  intros (Hd & Hneg & Har & Hn & Hv). assert (Hm : len (ext_magnitude b) = big_arity b) by (apply len_magnitude; lia).
  unfold ext_erlang_big, ei_encode_big. split.
  - intros i s ? Hl. autorewrite with len in *. change (len [big_is_neg b]) with 1 in *.
    rewrite Hm in *. cbn [isnull nonnull negb NULL].
    destruct (big_arity b <? 256); rewrite !bindM_ret; enc_finish_tac.
  - intros b0 i s ? Hl Hf. cbn [isnull nonnull negb at_off].
    set (hdr := if big_arity b <? 256 then [ERL_SMALL_BIG_EXT; byte (big_arity b)]
                else ERL_LARGE_BIG_EXT :: be32 (big_arity b)) in *.
    assert (Hfl : fits s (b0 + i) ((hdr ++ [big_is_neg b]) ++ ext_magnitude b))
      by (by rewrite <- app_assoc).
    destruct Hf as [Ho Hf]. rewrite !len_app, Hm in Hf.
    match goal with |- ?m s = _ => apply (run_start m s (b0 + i)) end.
    rewrite (big_header b). 2:{ split; [done |]. unfold big_hdr. fold hdr. lia. }
    unfold big_hdr. fold hdr.
    wstep. rewrite byte_small by done. rewrite ?bindM_assoc.
    (* the digits are stored in a run of their own *)
    erewrite bindM_Some.
    2:{ rewrite <- (splice_nil (splice s (b0 + i) (hdr ++ [big_is_neg b]))
          (b0 + i + len (hdr ++ [big_is_neg b]))).
        replace (Z.to_nat ((big_arity b + 1) / 2)) with (length (big_digits b)) by lia.
        apply (put_digits16_ok (big_digits b) 0 (big_arity b)).
        - done.
        - lia.
        - done.
        - lia.
        - by rewrite Z.sub_0_r.
        - rewrite Z.sub_0_r. cbn [app]. fold (ext_magnitude b).
          apply fits_splice; split; rewrite ?len_app, ?Hm; change (len [big_is_neg b]) with 1 in *; lia. }
    rewrite Z.sub_0_r. cbn [app]. fold (ext_magnitude b).
    rewrite splice_app by done. rewrite bindM_ret, <- app_assoc.
    rewrite !len_app, Hm in *. cbn [length] in *.
    apply enc_finish; unfold psub; len_lia.
Qed.

(** ** Decoding gives the digits back *)

Lemma load_le_byte s o k n j :
  at_ s o (le_bytes k n) -> (j < k)%nat ->
  load (o + Z.of_nat j) s = le_bytes k n !! j.
Proof.
  intros Ha Hj. destruct (lookup_lt_is_Some_2 (le_bytes k n) j) as [b Hb].
  { by rewrite length_le_bytes. }
  rewrite Hb. by apply (load_in s o (le_bytes k n)).
Qed.

Lemma get_digits16_ok : forall ds i ar o s,
  Forall is_digit ds -> 0 <= i -> 2 * i <= ar ->
  len ds = (ar - 2 * i + 1) / 2 -> digits_val ds < 256 ^ (ar - 2 * i) ->
  at_ s (o + 2 * i) (le_bytes (Z.to_nat (ar - 2 * i)) (digits_val ds)) ->
  get_digits16 (length ds) i ar o s = Some ds.
Proof.
  induction ds as [| d ds IH]; intros i ar o s Hd Hi Har Hl Hv Ha; [done |].
  inversion Hd as [| ? ? Hd1 Hd2]; subst. cbn [get_digits16 length digits_val] in *.
  assert (Hm : ar - 2 * i = 1 \/ 2 <= ar - 2 * i) by dlia.
  pose proof (digits_val_range ds Hd2) as Hr. unfold is_digit in Hd1.
  destruct Hm as [Hm | Hm].
  - rewrite Hm in *. assert (ds = []) as -> by (destruct ds; [done | cbn in Hl; dlia]).
    cbn [digits_val] in *. change (256 ^ 1) with 256 in Hv.
    rewrite Z.mul_0_r, Z.add_0_r in *. cbn [le_bytes] in Ha.
    change (Z.to_nat 1) with 1%nat in Ha. cbn [le_bytes] in Ha.
    rewrite (Z.mul_comm i 2).
    erewrite bindD_Some by (by apply load_at).
    rewrite (proj2 (Z.ltb_ge _ _)) by lia. rewrite bindD_ret. cbn.
    by rewrite byte_small by (unfold is_byte; lia).
  - replace (Z.to_nat (ar - 2 * i)) with (S (S (Z.to_nat (ar - 2 * (i + 1))))) in Ha by lia.
    rewrite le_bytes_digit in Ha by done.
    apply at_cons in Ha as [H0 Ha]. apply at_cons in Ha as [H1 Ha].
    rewrite (Z.mul_comm i 2).
    erewrite bindD_Some by (by apply load_at).
    rewrite (proj2 (Z.ltb_lt _ _)) by lia. rewrite bindD_assoc, Z.add_assoc.
    erewrite bindD_Some by (by apply load_at). rewrite bindD_ret.
    rewrite Z.lor_comm, lor2 by apply byte_range.
    assert (Hdv : le_val [byte d; byte (Z.shiftr d 8)] = d).
    { change [byte d; byte (Z.shiftr d 8)] with (rev (be16 d)).
      rewrite be16_le, rev_involutive, le_val_bytes. apply Z.mod_small. lia. }
    rewrite Hdv. erewrite bindD_Some; [done |].
    apply (IH (i + 1) ar o s); [done | lia | lia | cbn in Hl; dlia | |].
    + replace (ar - 2 * i) with (2 + (ar - 2 * (i + 1))) in Hv by lia.
      rewrite Z.pow_add_r in Hv by lia. lia.
    + by replace (o + 2 * (i + 1)) with (o + 2 * i + 1 + 1) by lia.
Qed.

(** The header of a big, small or large. *)
Lemma decode_big_ok b0 b bo i s :
  big_ok b -> big_arity b0 = big_arity b ->
  0 <= i -> i + len (ext_erlang_big b) <= int_max -> at_ s (bo + i) (ext_erlang_big b) ->
  ei_decode_big (Some b0) bo i s = Some (Done (i + len (ext_erlang_big b)) (Some b)) /\
  ei_decode_big None bo i s = Some (Done (i + len (ext_erlang_big b)) None).
Proof.
  intros (Hd & Hneg & Har & Hn & Hv) Hb0 Hi Hl Ha.
  assert (Hm : len (ext_magnitude b) = big_arity b) by (apply len_magnitude; lia).
  unfold ext_erlang_big in *. unfold ei_decode_big.
  assert (Hlm : forall o, at_ s o (ext_magnitude b) ->
    get_digits16 (Z.to_nat ((big_arity b + 1) / 2)) 0 (big_arity b) o s
    = Some (big_digits b)).
  { intros o Ho. replace (Z.to_nat ((big_arity b + 1) / 2)) with (length (big_digits b)) by lia.
    apply get_digits16_ok; [done | lia | lia | by rewrite Z.sub_0_r
                           | by rewrite Z.sub_0_r |].
    by rewrite Z.sub_0_r, Z.mul_0_r, Z.add_0_r. }
  assert (Hfin : forall A (x : A) h d, i + (h + (1 + big_arity b)) <= int_max -> 0 <= h ->
    d = h + 1 + big_arity b ->
    Some (Done (index_add i d) x) = Some (Done (i + (h + (1 + big_arity b))) x)).
  { intros A x h d ? ? ->. rewrite index_add_ok by lia. do 2 f_equal. lia. }
  destruct b as [ar neg ds]; cbn [big_arity big_is_neg big_digits] in *.
  destruct (Z.ltb_spec ar 256); rewrite !len_app, Hm in *;
    change (len [neg]) with 1 in *; at_split; split; rstep; rstep; rewrite !bindD_ret;
    cbv beta iota.
  1, 2: rewrite byte_small by (unfold is_byte; lia).
  3, 4: rewrite uint32_int32 by (unfold is_uint32; lia).
  1, 3: rewrite Hb0, Z.eqb_refl; cbn [negb]; rstep;
    erewrite bindD_Some by (apply Hlm; at_tac).
  all: apply Hfin; cbn [length]; len_lia.
Qed.

(** ** Comparison is comparison of values *)

Definition cmp (a b : Z) : Z := match a ?= b with Lt => -1 | Eq => 0 | Gt => 1 end.

Lemma digits_val_snoc ds d : digits_val (ds ++ [d]) = digits_val ds + 65536 ^ len ds * d.
Proof.
  induction ds as [| d0 ds IH]; [cbn; lia |].
  cbn [app digits_val length]. rewrite IH, Nat2Z.inj_succ, Z.pow_succ_r by lia. lia.
Qed.

Lemma cmp_lt a b : a < b -> cmp a b = -1.
Proof. intros H. unfold cmp. by rewrite (proj2 (Z.compare_lt_iff a b) H). Qed.
Lemma cmp_gt a b : b < a -> cmp a b = 1.
Proof. intros H. unfold cmp. by rewrite (proj2 (Z.compare_gt_iff a b) H). Qed.
Lemma cmp_opp a b : cmp (- a) (- b) = - cmp a b.
Proof. unfold cmp. rewrite Z.compare_opp, (Z.compare_antisym a b). by destruct (a ?= b). Qed.

Lemma I_comp_down_ok : forall x y, length x = length y ->
  Forall is_digit x -> Forall is_digit y ->
  I_comp_down (rev x) (rev y) = cmp (digits_val x) (digits_val y).
Proof.
  induction x as [| a x IH] using rev_ind; intros y Hl Hx Hy.
  - by destruct y.
  - destruct y as [| b y _] using rev_ind; rewrite ?length_app in Hl; [cbn in Hl; lia |].
    cbn in Hl. apply Forall_app in Hx as [Hx Ha], Hy as [Hy Hb].
    rewrite !rev_app_distr. cbn [rev app I_comp_down].
    rewrite !digits_val_snoc. assert (Hlen : length x = length y) by lia.
    pose proof (digits_val_range x Hx). pose proof (digits_val_range y Hy) as Hvy.
    rewrite <- Hlen in *. set (P := 65536 ^ len x) in *.
    destruct (Z.eqb_spec a b) as [-> | Hne].
    + rewrite IH by done. unfold cmp.
      by rewrite (Z.add_comm (digits_val x)), (Z.add_comm (digits_val y)),
        Z.add_compare_mono_l.
    + destruct (Z.ltb_spec a b); [rewrite cmp_lt | rewrite cmp_gt]; [done | nia | done | nia].
Qed.

(** The most significant digit is not zero: what [I_comp] relies on when it
    looks at the lengths first. *)
Definition normal (ds : list Z) : Prop :=
  match rev ds with [] => True | d :: _ => d <> 0 end.

Lemma normal_lower ds : Forall is_digit ds -> normal ds -> ds <> [] ->
  65536 ^ (len ds - 1) <= digits_val ds.
Proof.
  destruct ds as [| d ds _] using rev_ind; [done |]. intros Hd Hn _.
  apply Forall_app in Hd as [Hd H1]. inversion H1 as [| ? ? Hr _]; subst.
  unfold normal in Hn. rewrite rev_app_distr in Hn. cbn in Hn. unfold is_digit in Hr.
  pose proof (digits_val_range ds Hd). rewrite digits_val_snoc, len_app. cbn [length].
  replace (len ds + Z.of_nat 1 - 1) with (len ds) by lia.
  assert (0 < 65536 ^ len ds) by (apply Z.pow_pos_nonneg; lia). nia.
Qed.

Lemma longer_is_larger x y :
  Forall is_digit x -> Forall is_digit y -> normal y -> len x < len y ->
  digits_val x < digits_val y.
Proof.
  intros Hx Hy Hn Hl. pose proof (digits_val_range x Hx).
  assert (Hne : y <> []) by (intros ->; cbn in Hl; lia).
  pose proof (normal_lower y Hy Hn Hne).
  assert (Hp : 65536 ^ len x <= 65536 ^ (len y - 1)) by (apply Z.pow_le_mono_r; lia).
  lia.
Qed.

Lemma I_comp_ok x y :
  Forall is_digit x -> Forall is_digit y -> normal x -> normal y ->
  I_comp x (len x) y (len y) = cmp (digits_val x) (digits_val y).
Proof.
  intros Hx Hy Hnx Hny. unfold I_comp. destruct (Z.ltb_spec (len x) (len y)).
  - by rewrite cmp_lt by (by apply longer_is_larger).
  - destruct (Z.ltb_spec (len y) (len x)).
    + by rewrite cmp_gt by (by apply longer_is_larger).
    + rewrite !Nat2Z.id, !firstn_all. apply I_comp_down_ok; [lia | done | done].
Qed.

(** A big with normal digits that is not a negative zero. *)
Definition big_normal (b : erlang_big) : Prop :=
  Forall is_digit (big_digits b) /\ normal (big_digits b) /\
  len (big_digits b) = (big_arity b + 1) / 2 /\
  (big_is_neg b = 0 \/ big_is_neg b = 1) /\ (big_is_neg b = 1 -> big_digits b <> []).

Lemma big_comp_ok x y :
  big_normal x -> big_normal y -> ei_big_comp x y = cmp (big_val x) (big_val y).
Proof.
  intros (Hx & Hnx & Hlx & Hsx & Hzx) (Hy & Hny & Hly & Hsy & Hzy).
  unfold ei_big_comp, big_val. rewrite <- Hlx, <- Hly, I_comp_ok by done.
  assert (Hpos : forall ds, Forall is_digit ds -> normal ds -> ds <> [] -> 0 < digits_val ds).
  { intros ds Hd Hn Hne. pose proof (normal_lower ds Hd Hn Hne).
    assert (0 < 65536 ^ (len ds - 1)); [| lia].
    apply Z.pow_pos_nonneg; [lia |]. destruct ds; [done |]. cbn. lia. }
  pose proof (digits_val_range _ Hx). pose proof (digits_val_range _ Hy).
  destruct Hsx as [Ex | Ex], Hsy as [Ey | Ey]; rewrite Ex, Ey; cbn.
  - done.
  - pose proof (Hpos _ Hy Hny (Hzy Ey)). by rewrite cmp_gt by lia.
  - pose proof (Hpos _ Hx Hnx (Hzx Ex)). by rewrite cmp_lt by lia.
  - by rewrite cmp_opp.
Qed.

(** ** [ei_small_to_big] *)

(** For a non-negative integer the digits are its value; for a negative one
    they are those of its two's complement, not of its magnitude. *)
Lemma small_to_big_val s b :
  is_int32 s -> 3 <= big_arity b <= 4 -> length (big_digits b) = 2%nat ->
  exists b', ei_small_to_big s b = (0, b') /\
    big_val b' = if s <? 0 then - (4294967296 + s) else s.
Proof.
  unfold is_int32. intros Hs Ha Hl. unfold ei_small_to_big.
  rewrite (proj2 (Z.ltb_ge _ _)) by dlia. eexists. split; [done |].
  destruct (big_digits b) as [| d0 [| d1 [| ? ?]]]; try done.
  unfold big_val. cbn [big_is_neg big_digits insert list_insert].
  unfold DLOW, DHIGH, uwrap, D_BASE, D_EXP. change (Z.shiftl 1 16 - 1) with (Z.ones 16).
  rewrite Z.land_ones, Z.shiftr_div_pow2 by lia. change (2 ^ 16) with 65536.
  cbn [digits_val]. rewrite Z.mod_mod by lia.
  destruct (Z.ltb_spec s 0); cbn [Z.eqb]; dlia.
Qed.
