(* ===== verification/Term.v ===== *)
(** * Whole terms: types, funs, skipping, and [ei_decode_ei_term]

    get_type.c, decode_fun.c, encode_fun.c, decode_skip.c and
    ei_decode_term.c. [ei_skip_term] and [ei_decode_fun] call each other: the
    recursion is bounded by a fuel that counts nested calls. *)

From S2P Require Import Prelude Mem PutGet Ext Headers Ints Atom Data Ids Big.

(** ** [ei_get_type_internal]

    [len0] is what [*len] held before: some types leave it alone. *)
Definition ei_get_type_internal (len0 : Z) (buf index : Z) : D (Z * Z) :=
  let s := buf + index in
  let+ (ty, s) := get8 s in
  if (ty =? ERL_SMALL_ATOM_EXT) || (ty =? ERL_SMALL_ATOM_UTF8_EXT) then
    let+ (n, s) := get8 s in retD (ERL_ATOM_EXT, n)
  else if ty =? ERL_SMALL_TUPLE_EXT then
    let+ (n, s) := get8 s in retD (ty, n)
  else if ty =? ERL_ATOM_UTF8_EXT then
    let+ (n, s) := get16be s in retD (ERL_ATOM_EXT, n)
  else if (ty =? ERL_ATOM_EXT) || (ty =? ERL_STRING_EXT) then
    let+ (n, s) := get16be s in retD (ty, n)
  else if (ty =? ERL_FLOAT_EXT) || (ty =? NEW_FLOAT_EXT) then
    retD (ERL_FLOAT_EXT, len0)
  else if (ty =? ERL_LARGE_TUPLE_EXT) || (ty =? ERL_LIST_EXT) || (ty =? ERL_BINARY_EXT) then
    let+ (n, s) := get32be s in retD (ty, n)
  else if ty =? ERL_SMALL_BIG_EXT then
    let+ (n, s) := get8 s in retD (ty, n)
  else if ty =? ERL_LARGE_BIG_EXT then
    let+ (n, s) := get32be s in retD (ty, n)
  else if ty =? ERL_NEW_PID_EXT then retD (ERL_PID_EXT, len0)
  else if ty =? ERL_NEW_PORT_EXT then retD (ERL_PORT_EXT, len0)
  else if ty =? ERL_NEWER_REFERENCE_EXT then retD (ERL_NEW_REFERENCE_EXT, len0)
  else retD (ty, 0).

Definition ei_get_type (len0 : Z) (buf index : Z) : D (Z * Z) :=
  ei_get_type_internal len0 buf index.

(** ** Funs *)

(** [if (buf != NULL) memcpy(buf + ix, p->free_vars, p->free_var_len);
    ix += p->free_var_len;] *)
Definition put_free_vars (p : erlang_fun) (buf : ptr) (ix : Z) : M Z :=
  let* _ := memcpy_if buf (padd buf ix) (fun_free_vars p) (len (fun_free_vars p)) in
  retM (index_add ix (len (fun_free_vars p))).

(** On a failure [*index] is what it was: the code counts in [ix]. *)
Definition ei_encode_fun (p : erlang_fun) (buf : ptr) (index : Z) : M (Z * Z) :=
  let ix := index in
  if fun_arity p =? -1 then
    let* _ :=
      (if negb (isnull buf) then
         let s := padd buf ix in
         let* s := put8 s ERL_FUN_EXT in
         put32be s (fun_n_free_vars p)
       else retM buf) in
    let ix := index_add ix (1 + 4) in
    let* (rc, ix) := ei_encode_pid (fun_pid p) buf ix in
    if rc <? 0 then retM (-1, index) else
    let* (rc, ix) := ei_encode_atom_as (fun_module p) ERLANG_UTF8
                       (fun_module_org_enc p) buf ix in
    if rc <? 0 then retM (-1, index) else
    let* (rc, ix) := ei_encode_long (fun_index p) buf ix in
    if rc <? 0 then retM (-1, index) else
    let* (rc, ix) := ei_encode_long (fun_uniq p) buf ix in
    if rc <? 0 then retM (-1, index) else
    let* ix := put_free_vars p buf ix in
    retM (0, ix)
  else
    let* size_p :=
      (if negb (isnull buf) then
         let s := padd buf ix in
         let* s := put8 s ERL_NEW_FUN_EXT in
         let size_p := s in
         let s := padd s 4 in
         let* s := put8 s (fun_arity p) in
         let* _ := memcpy s (fun_md5 p) in
         let s := padd s 16 in
         let* s := put32be s (fun_index p) in
         let* _ := put32be s (fun_n_free_vars p) in
         retM size_p
       else retM NULL) in
    let ix := index_add ix (1 + 4 + 1 + 16 + 4 + 4) in
    let* (rc, ix) := ei_encode_atom_as (fun_module p) ERLANG_UTF8
                       (fun_module_org_enc p) buf ix in
    if rc <? 0 then retM (-1, index) else
    let* (rc, ix) := ei_encode_long (fun_old_index p) buf ix in
    if rc <? 0 then retM (-1, index) else
    let* (rc, ix) := ei_encode_long (fun_uniq p) buf ix in
    if rc <? 0 then retM (-1, index) else
    let* (rc, ix) := ei_encode_pid (fun_pid p) buf ix in
    if rc <? 0 then retM (-1, index) else
    let* ix := put_free_vars p buf ix in
    let* _ :=
      (if negb (isnull size_p) then
         let sz := int32 (psub (padd buf ix) size_p) in
         put32be size_p sz
       else retM size_p) in
    retM (0, ix).

Section DecodeFun.
(** The recursive call, and whether an allocation of so many bytes
    succeeds. *)
Context (skip : Z -> Z -> D (Z * Z)) (malloc : Z -> bool).

(** [for (i = 0; i < n; ++i) if (ei_skip_term(s, &ix) < 0) return -1;] *)
Fixpoint skip_checked (n : nat) (s ix : Z) : D (option Z) :=
  match n with
  | O => retD (Some ix)
  | S n =>
      let+ (rc, ix) := skip s ix in
      if rc <? 0 then retD None else skip_checked n s ix
  end.

(** [p] is the struct as it was, [None] for NULL; fields the form does not
    have keep their value. *)
Definition ei_decode_fun (p : option erlang_fun) (buf index : Z)
    : D (cres (option erlang_fun)) :=
  let s := buf + index in
  let s0 := s in
  let want := bool_decide (is_Some p) in
  let+ (tag, s) := get8 s in
  if tag =? ERL_FUN_EXT then
    let+ (n, s) := get32be s in
    let ix := 0 in
    let- (ix, pid) := ei_decode_pid want s ix in
    let- (ix, m) := ei_decode_atom_as want MAXATOMLEN_UTF8 ERLANG_UTF8 s ix in
    let- (ix, idx) := ei_decode_long want s ix in
    let- (ix, uniq) := ei_decode_long want s ix in
    let ix0 := ix in
    let+ r := skip_checked (Z.to_nat n) s ix in
    match r with
    | None => retD Fail
    | Some ix =>
        if want && negb (malloc (ix - ix0)) then retD Fail else
        let+ vars := (if want then load_bytes (s + ix0) (ix - ix0) else retD []) in
        let s := s + ix in
        retD (Done (index_add index (s - s0))
          (match p, pid, idx, uniq with
           | Some p, Some pid, Some idx, Some uniq =>
               Some (Fun (-1) (at_text m) (at_was m) (fun_md5 p) idx (fun_old_index p)
                       uniq n pid vars)
           | _, _, _, _ => None
           end))
    end
  else if tag =? ERL_NEW_FUN_EXT then
    let+ (n, s) := get32be s in
    let+ (arity, s) := get8 s in
    let+ md5 := (if want then load_n s 16 else retD []) in
    let s := s + 16 in
    let+ (idx, s) := get32be s in
    let+ (nfree, s) := get32be s in
    let ix := 0 in
    let- (ix, m) := ei_decode_atom_as want MAXATOMLEN_UTF8 ERLANG_UTF8 s ix in
    let- (ix, old_index) := ei_decode_long want s ix in
    let- (ix, uniq) := ei_decode_long want s ix in
    let- (ix, pid) := ei_decode_pid want s ix in
    let s := s + ix in
    let n := int32 (n - (s - s0) + 1) in
    if n <? 0 then retD Fail else
    if want && (0 <? n) && negb (malloc n) then retD Fail else
    let+ vars := (if want && (0 <? n) then load_bytes s n else retD []) in
    let s := s + n in
    retD (Done (index_add index (s - s0))
      (match p, old_index, uniq, pid with
       | Some _, Some old_index, Some uniq, Some pid =>
           Some (Fun arity (at_text m) (at_was m) md5 idx old_index uniq nfree pid vars)
       | _, _, _, _ => None
       end))
  else retD Fail.
End DecodeFun.

(** ** [ei_skip_term] *)

Section Skip.
Context (sscanf_lf : list Z -> option Z).

(** [if (f(buf, index, ...) < 0) return -1;] then [return 0;]. *)
Definition rc_of {A} (index : Z) (m : D (cres A)) : D (Z * Z) :=
  let+ r := m in
  match r with Fail => retD (-1, index) | Done index _ => retD (0, index) end.

(** [for (i = 0; i < n; ++i) ei_skip_term(buf, index);]: what the calls
    return is not looked at. *)
Fixpoint skip_elems (skip : Z -> Z -> D (Z * Z)) (n : nat) (buf index : Z) : D Z :=
  match n with
  | O => retD index
  | S n => let+ (_, index) := skip buf index in skip_elems skip n buf index
  end.

(** Whether the allocation succeeds does not matter: [p] is NULL. *)
Fixpoint ei_skip_term (fuel : nat) (buf index : Z) : D (Z * Z) :=
  match fuel with
  | O => ubD
  | S fuel =>
      let+ (ty, n) := ei_get_type_internal 0 buf index in
      if ty =? ERL_ATOM_EXT then
        rc_of index (ei_decode_atom_as false MAXATOMLEN_UTF8
                       (Z.lor ERLANG_LATIN1 ERLANG_UTF8) buf index)
      else if (ty =? ERL_PID_EXT) || (ty =? ERL_NEW_PID_EXT) then
        rc_of index (ei_decode_pid false buf index)
      else if (ty =? ERL_PORT_EXT) || (ty =? ERL_NEW_PORT_EXT) then
        rc_of index (ei_decode_port false buf index)
      else if (ty =? ERL_NEW_REFERENCE_EXT) || (ty =? ERL_NEWER_REFERENCE_EXT)
              || (ty =? ERL_REFERENCE_EXT) then
        rc_of index (ei_decode_ref false buf index)
      else if ty =? ERL_NIL_EXT then
        rc_of index (ei_decode_list_header true buf index)
      else if ty =? ERL_LIST_EXT then
        let+ r := ei_decode_list_header true buf index in
        match r with
        | Fail => retD (-1, index)
        | Done index n =>
            let+ index := skip_elems (ei_skip_term fuel)
                            (Z.to_nat (default 0 n)) buf index in
            let+ (ty, _) := ei_get_type_internal 0 buf index in
            if negb (ty =? ERL_NIL_EXT) then
              let+ (_, index) := ei_skip_term fuel buf index in retD (0, index)
            else rc_of index (ei_decode_list_header true buf index)
        end
      else if ty =? ERL_STRING_EXT then
        rc_of index (ei_decode_string false buf index)
      else if (ty =? ERL_SMALL_TUPLE_EXT) || (ty =? ERL_LARGE_TUPLE_EXT) then
        let+ r := ei_decode_tuple_header true buf index in
        match r with
        | Fail => retD (-1, index)
        | Done index n =>
            let+ index := skip_elems (ei_skip_term fuel)
                            (Z.to_nat (default 0 n)) buf index in
            retD (0, index)
        end
      else if ty =? ERL_MAP_EXT then
        let+ r := ei_decode_map_header true buf index in
        match r with
        | Fail => retD (-1, index)
        | Done index n =>
            let n := int32 (default 0 n * 2) in
            let+ index := skip_elems (ei_skip_term fuel) (Z.to_nat n) buf index in
            retD (0, index)
        end
      else if ty =? ERL_BINARY_EXT then
        rc_of index (ei_decode_binary false buf index)
      else if (ty =? ERL_SMALL_INTEGER_EXT) || (ty =? ERL_INTEGER_EXT) then
        rc_of index (ei_decode_long false buf index)
      else if (ty =? ERL_SMALL_BIG_EXT) || (ty =? ERL_LARGE_BIG_EXT) then
        rc_of index (ei_decode_big None buf index)
      else if (ty =? ERL_FLOAT_EXT) || (ty =? NEW_FLOAT_EXT) then
        rc_of index (ei_decode_double sscanf_lf false buf index)
      else if (ty =? ERL_FUN_EXT) || (ty =? ERL_NEW_FUN_EXT) then
        rc_of index (ei_decode_fun (ei_skip_term fuel) (fun _ => true) None buf index)
      else retD (-1, index)
  end.
End Skip.

(** ** [ei_decode_ei_term] *)

Module EiTerm.

(** The union of [ei_term]: the member last stored. *)
Inductive ei_value :=
  | no_val
  | i_val (n : Z)
  | d_val (f : Z)
  | atom_name (p : list Z)
  | pid (p : erlang_pid)
  | port (p : erlang_port)
  | ref (p : erlang_ref).

Record ei_term := EiTerm { ei_type : Z; arity : Z; size : Z; value : ei_value }.

Definition set_type (v : Z) (t : ei_term) := EiTerm v (arity t) (size t) (value t).
Definition set_arity (v : Z) (t : ei_term) := EiTerm (ei_type t) v (size t) (value t).
Definition set_size (v : Z) (t : ei_term) := EiTerm (ei_type t) (arity t) v (value t).
Definition set_value (v : ei_value) (t : ei_term) := EiTerm (ei_type t) (arity t) (size t) v.

Section EiTerm.
Context (sscanf_lf : list Z -> option Z).

(** [return f(buf, index, &term->value.m) < 0 ? -1 : 1;] *)
Definition term_member {A} (m : A -> ei_value) (t : ei_term) (index : Z)
    (f : D (cres (option A))) : D (Z * Z * ei_term) :=
  let+ r := f in
  match r with
  | Fail => retD (-1, index, t)
  | Done index (Some v) => retD (1, index, set_value (m v) t)
  | Done index None => retD (1, index, t)
  end.

(** [*index += s - s0; return 1;] *)
Definition term_done (index d : Z) (t : ei_term) : D (Z * Z * ei_term) :=
  retD (1, index_add index d, t).

(** Returns [(rc, *index, *term)]; [None] is a NULL [term]. A negative tag is
    no case of the switch, and neither is a byte of 128 or more. *)
Definition ei_decode_ei_term (term : option ei_term) (buf index : Z)
    : D (Z * Z * option ei_term) :=
  match term with
  | None => retD (-1, index, None)
  | Some t =>
      let s := buf + index in
      let s0 := s in
      let+ (rc, index, t) :=
        (let+ (c, s) := get8 s in
         let t := set_type c t in
         if c =? ERL_SMALL_INTEGER_EXT then
           let+ (n, s) := get8 s in term_done index (s - s0) (set_value (i_val n) t)
         else if c =? ERL_INTEGER_EXT then
           let+ (n, s) := get32be s in term_done index (s - s0) (set_value (i_val n) t)
         else if (c =? ERL_FLOAT_EXT) || (c =? NEW_FLOAT_EXT) then
           term_member d_val t index (ei_decode_double sscanf_lf true buf index)
         else if (c =? ERL_ATOM_EXT) || (c =? ERL_ATOM_UTF8_EXT)
                 || (c =? ERL_SMALL_ATOM_EXT) || (c =? ERL_SMALL_ATOM_UTF8_EXT) then
           term_member atom_name t index
             (let- (i, a) := ei_decode_atom true buf index in
              retD (Done i (Some (at_text a))))
         else if (c =? ERL_REFERENCE_EXT) || (c =? ERL_NEW_REFERENCE_EXT)
                 || (c =? ERL_NEWER_REFERENCE_EXT) then
           term_member ref t index (ei_decode_ref true buf index)
         else if (c =? ERL_PORT_EXT) || (c =? ERL_NEW_PORT_EXT) then
           term_member port t index (ei_decode_port true buf index)
         else if (c =? ERL_PID_EXT) || (c =? ERL_NEW_PID_EXT) then
           term_member pid t index (ei_decode_pid true buf index)
         else if c =? ERL_SMALL_TUPLE_EXT then
           let+ (n, s) := get8 s in term_done index (s - s0) (set_arity n t)
         else if c =? ERL_LARGE_TUPLE_EXT then
           let+ (n, s) := get32be s in term_done index (s - s0) (set_arity n t)
         else if c =? ERL_NIL_EXT then term_done index (s - s0) (set_arity 0 t)
         else if c =? ERL_STRING_EXT then
           let+ (n, s) := get16be s in retD (0, index, set_size n t)
         else if (c =? ERL_LIST_EXT) || (c =? ERL_MAP_EXT) then
           let+ (n, s) := get32be s in term_done index (s - s0) (set_arity n t)
         else if c =? ERL_BINARY_EXT then
           let+ (n, s) := get32be s in retD (0, index, set_size n t)
         else if c =? ERL_SMALL_BIG_EXT then
           let+ (n, s) := get8 s in
           let t := set_arity n t in
           if negb (arity t =? 4) then retD (-1, index, t) else
           let+ (sign, s) := get8 s in
           let+ (n, s) := get32le s in
           if negb (sign =? 0) then
             if int32 (n - 1) <? 0 then retD (-1, index, t)
             else let n := int32 (- n) in term_done index (s - s0) t
           else if n <? 0 then retD (-1, index, t)
           else term_done index (s - s0) t
         else if c =? ERL_LARGE_BIG_EXT then retD (0, index, t)
         else if c =? ERL_PASS_THROUGH then retD (0, index, t)
         else retD (-1, index, t)) in
      retD (rc, index, Some t)
  end.
End EiTerm.

Definition verdict (index : Z) (r : Z * Z * ei_term) : Prop :=
  let '(rc, index', _) := r in
  (rc = 1 \/ rc = 0 \/ rc = -1) /\ (rc <> 1 -> index' = index).

Definition Verdict (index : Z) (m : D (Z * Z * ei_term)) : Prop :=
  forall s r, m s = Some r -> verdict index r.

Lemma verdict_bind {A} index (m : D A) (k : A -> D (Z * Z * ei_term)) :
  (forall a, Verdict index (k a)) -> Verdict index (bindD m k).
Proof. intros Hk s r. unfold bindD. destruct (m s); [apply Hk | done]. Qed.

Lemma verdict_ret index rc i t :
  (rc = 1 \/ rc = 0 \/ rc = -1) -> (rc <> 1 -> i = index) ->
  Verdict index (retD (rc, i, t)).
Proof. by intros ? ? s r [= <-]. Qed.

Lemma verdict_member {A} (m : A -> ei_value) t index f :
  Verdict index (term_member m t index f).
Proof.
  apply verdict_bind. intros [| i [v |]]; apply verdict_ret; auto; lia.
Qed.

Ltac verdict_tac :=
  cbv zeta;
  repeat match goal with
    | |- Verdict _ (bindD _ _) => apply verdict_bind; intros []; cbv zeta
    | |- Verdict _ (term_member _ _ _ _) => apply verdict_member
    | |- Verdict _ (term_done _ _ _) => apply verdict_ret; auto; lia
    | |- Verdict _ (retD _) => apply verdict_ret; auto; lia
    | |- Verdict _ (if ?b then _ else _) => destruct b
    end.

Lemma verdict_wrap index m s rc i t' :
  Verdict index m ->
  bindD m (fun '(rc, i, t) => retD (rc, i, Some t)) s = Some (rc, i, t') ->
  (rc = 1 \/ rc = 0 \/ rc = -1) /\ (rc <> 1 -> i = index).
Proof.
  intros Hm. unfold bindD, retD. destruct (m s) as [[[rc0 i0] t0] |] eqn:E; [| done].
  intros [= <- <- _]. apply (Hm s _ E).
Qed.

Lemma decode_ei_term_verdict sscanf_lf term buf index s rc index' t' :
  ei_decode_ei_term sscanf_lf term buf index s = Some (rc, index', t') ->
  (rc = 1 \/ rc = 0 \/ rc = -1) /\ (rc <> 1 -> index' = index).
Proof.
  destruct term as [t |]; [| intros [= <- <- _]; auto].
  apply verdict_wrap. verdict_tac.
Qed.

(** A big of four bytes is accepted exactly when its value is an [int], and
    its value is nowhere in the term. *)
Lemma decode_ei_term_small_big sscanf_lf t sign n b i s :
  let bs := [ERL_SMALL_BIG_EXT; 4; sign] ++ le32 n in
  is_byte sign -> is_uint32 n -> (sign = 0 -> n <= 2147483647) ->
  (sign <> 0 -> 0 < n <= 2147483648) ->
  0 <= i -> i + len bs <= int_max -> at_ s (b + i) bs ->
  ei_decode_ei_term sscanf_lf (Some t) b i s
  = Some (1, i + len bs, Some (EiTerm ERL_SMALL_BIG_EXT 4 (size t) (value t))).
Proof.
  intros bs Hs Hn H0 H1 Hi Hl Ha. unfold bs in *. clear bs. unfold ei_decode_ei_term.
  apply at_app in Ha as [Ha1 Ha2]. at_split. rewrite bindD_assoc.
  rstep. rstep. cbn [set_arity set_type arity ei_type size value]. ctests. rstep. rstep.
  unfold is_uint32 in *.
  assert (Hfin : term_done i (b + i + 1 + 1 + 1 + 4 - (b + i))
     (EiTerm ERL_SMALL_BIG_EXT 4 (size t) (value t)) s
    = Some (1, i + len ([ERL_SMALL_BIG_EXT; 4; sign] ++ le32 n),
            EiTerm ERL_SMALL_BIG_EXT 4 (size t) (value t))).
  { unfold term_done, retD. rewrite len_app in *. cbn [length le32 rev be32 app] in *.
    rewrite index_add_ok by lia. do 3 f_equal. lia. }
  destruct (Z.eqb_spec sign 0) as [E | E]; cbn [negb].
  - rewrite int32_small by (unfold is_int32; lia).
    rewrite (proj2 (Z.ltb_ge _ _)) by lia. by erewrite bindD_Some by exact Hfin.
  - assert (Hc : int32 (int32 n - 1) = n - 1).
    { destruct (decide (n = 2147483648)) as [-> |]; [done |].
      rewrite (int32_small n) by (unfold is_int32; lia).
      apply int32_small. unfold is_int32. lia. }
    rewrite Hc, (proj2 (Z.ltb_ge _ _)) by lia. by erewrite bindD_Some by exact Hfin.
Qed.

End EiTerm.

(** ** [ei_encode_fun] *)

Definition ext_fun_head (p : erlang_fun) : list Z :=
  byte (fun_arity p) :: fun_md5 p ++ be32 (fun_index p) ++ be32 (fun_n_free_vars p).
Definition ext_fun_tail (p : erlang_fun) : list Z :=
  ext_atom_utf8 (c_str (fun_module p)) ++ ext_longlong (fun_old_index p) ++
  ext_longlong (fun_uniq p) ++ ext_pid (fun_pid p) ++ fun_free_vars p.

Definition ext_old_fun (p : erlang_fun) : list Z :=
  (ERL_FUN_EXT :: be32 (fun_n_free_vars p)) ++ ext_pid (fun_pid p) ++
  ext_atom_utf8 (c_str (fun_module p)) ++ ext_longlong (fun_index p) ++
  ext_longlong (fun_uniq p) ++ fun_free_vars p.
Definition ext_new_fun (p : erlang_fun) : list Z :=
  let rest := ext_fun_head p ++ ext_fun_tail p in
  [ERL_NEW_FUN_EXT] ++ be32 (4 + len rest) ++ rest.
Definition ext_fun (p : erlang_fun) : list Z :=
  if fun_arity p =? -1 then ext_old_fun p else ext_new_fun p.

(** What the struct must hold for its bytes to mean it. *)
Definition fun_ok (p : erlang_fun) : Prop :=
  name_ok (fun_module p) /\ name_ok (pid_node (fun_pid p)) /\
  is_int64 (fun_index p) /\ is_int64 (fun_old_index p) /\ is_int64 (fun_uniq p) /\
  Forall is_byte (fun_free_vars p) /\ Forall is_byte (fun_md5 p) /\ len (fun_md5 p) = 16.

Lemma encode_module_ok p : name_ok (fun_module p) ->
  Encodes (ei_encode_atom_as (fun_module p) ERLANG_UTF8 (fun_module_org_enc p))
    (ext_atom_utf8 (c_str (fun_module p))).
Proof. apply encode_name_ok. Qed.

Lemma put_free_vars_null p i s (k : Z -> M (Z * Z)) :
  0 <= i -> i + len (fun_free_vars p) <= int_max ->
  bindM (put_free_vars p NULL i) k s = k (i + len (fun_free_vars p)) s.
Proof. intros. unfold put_free_vars, memcpy_if, bindM, retM. cbn. by rewrite index_add_ok by lia. Qed.

Lemma put_free_vars_buf p bs1 o b i s (k : Z -> M (Z * Z)) :
  Forall is_byte (fun_free_vars p) -> b + i = o + len bs1 ->
  0 <= i -> i + len (fun_free_vars p) <= int_max -> fits s o (bs1 ++ fun_free_vars p) ->
  bindM (put_free_vars p (at_off b) i) k (splice s o bs1)
  = k (i + len (fun_free_vars p)) (splice s o (bs1 ++ fun_free_vars p)).
Proof.
  intros Hb He ? ? Hf. unfold put_free_vars, memcpy_if. cbn [isnull nonnull negb at_off].
  rewrite (proj2 (Z.ltb_ge _ _)), bindM_assoc by lia.
  rewrite (wmemcpy (fun_free_vars p)); [| done | unfold padd, at_off; simpl; by rewrite He | done].
  rewrite bindM_ret. by rewrite index_add_ok by lia.
Qed.

Ltac sub_encoder := eauto using encode_pid_ok, encode_module_ok, encode_long_ok.
Ltac rc_ok := cbv beta iota; cbn [Z.ltb Z.compare].
Ltac enc_null_step := erewrite null_step by (first [ solve [sub_encoder] | lia ]); rc_ok.
Ltac enc_write_step :=
  erewrite write_step by
    (first [ solve [sub_encoder] | solve [autorewrite with len; lia] | lia
           | split; autorewrite with len; lia ]); rc_ok.

Lemma encode_old_fun_ok p :
  fun_ok p -> fun_arity p = -1 -> Encodes (ei_encode_fun p) (ext_old_fun p).
Proof.
  intros (Hm & Hn & Hi & _ & Hu & Hv & _) Ha. unfold ext_old_fun.
  rewrite !app_assoc. split.
  - intros i s ? Hl. unfold ei_encode_fun. rewrite Ha. cbn [Z.eqb Pos.eqb].
    autorewrite with len in *. cbn [isnull nonnull negb NULL].
    rewrite bindM_ret, index_add_ok by lia. do 4 enc_null_step.
    rewrite put_free_vars_null by lia. unfold retM. do 3 f_equal. lia.
  - intros b i s ? Hl [? Hr]. unfold ei_encode_fun. rewrite Ha. cbn [Z.eqb Pos.eqb].
    autorewrite with len in *. cbn [isnull nonnull negb at_off off padd].
    run_at (b + i). rewrite index_add_ok by lia. wstep.
    rewrite (wput (fun s => put32be s (fun_n_free_vars p)))
      by (first [ solve [ptr_tac] | split; autorewrite with len; lia ]).
    do 4 enc_write_step.
    rewrite put_free_vars_buf by
      (first [ done | autorewrite with len; lia | split; autorewrite with len; lia ]).
    unfold retM. do 3 f_equal. lia.
Qed.

(** The size is stored last, over the four bytes the head left alone. *)
Lemma splice_hole s o b1 b2 n :
  fits s o (b1 ++ replicate n 0 ++ b2) ->
  exists h, length h = n /\
    splice (splice s o b1) (o + len b1 + Z.of_nat n) b2 = splice s o (b1 ++ h ++ b2).
Proof.
  revert b1. induction n as [| n IH]; intros b1 Hf.
  - exists []. split; [done |]. simpl in *. rewrite Z.add_0_r. by apply splice_app.
  - destruct Hf as [Ho Hf]. rewrite !length_app in Hf. cbn in Hf.
    destruct (splice_skip s o b1) as [x Hx];
      [split; [done | rewrite length_app; simpl; lia] |].
    destruct (IH (b1 ++ [x])) as (h & Hh & Hs);
      [split; [done | rewrite !length_app; simpl; lia] |].
    exists (x :: h). split; [by simpl; f_equal |].
    rewrite Hx. rewrite <- app_assoc in Hs. cbn [app] in *. rewrite <- Hs.
    rewrite len_app. change (len [x]) with 1. f_equal. lia.
Qed.

Lemma new_fun_head_ok p b i s :
  fun_ok p ->
  let hd := [ERL_NEW_FUN_EXT] ++ replicate 4 0 ++ ext_fun_head p in
  fits s (b + i) hd ->
  exists h, length h = 4%nat /\
    (let s := padd (at_off b) i in
     let* s := put8 s ERL_NEW_FUN_EXT in
     let size_p := s in
     let s := padd s 4 in
     let* s := put8 s (fun_arity p) in
     let* _ := memcpy s (fun_md5 p) in
     let s := padd s 16 in
     let* s := put32be s (fun_index p) in
     let* _ := put32be s (fun_n_free_vars p) in
     retM size_p) s
    = Some (at_off (b + i + 1),
            splice s (b + i) ([ERL_NEW_FUN_EXT] ++ h ++ ext_fun_head p)).
Proof.
  intros (_ & _ & _ & _ & _ & _ & Hm & Hl) hd Hf.
  destruct (splice_hole s (b + i) [ERL_NEW_FUN_EXT] (ext_fun_head p) 4 Hf) as (h & Hh & Hs).
  exists h. split; [done |]. rewrite <- Hs. clear Hs.
  cbn zeta. run_at (b + i). unfold hd, ext_fun_head in *. destruct Hf as [Ho Hr].
  autorewrite with len in Hr. change (len [ERL_NEW_FUN_EXT]) with 1 in *.
  cbn [length replicate] in Hr.
  assert (H1 : fits s (b + i) [ERL_NEW_FUN_EXT]) by (split; [done | cbn; lia]).
  wstep. cbn [app padd at_off off nonnull].
  set (t := splice s (b + i) [byte ERL_NEW_FUN_EXT]).
  change [ERL_NEW_FUN_EXT] with [byte ERL_NEW_FUN_EXT] in *.
  assert (Ht : fits t (b + i + 1 + 4)
    (byte (fun_arity p) :: fun_md5 p ++ be32 (fun_index p) ++ be32 (fun_n_free_vars p))).
  { apply fits_splice; [done | split; [lia |]]. autorewrite with len. lia. }
  fold t. run_at (b + i + 1 + 4). cbn [app length Z.of_nat].
  change (Z.of_nat 1) with 1. change (Z.of_nat 4) with 4.
  repeat wstep. by rewrite <- !app_assoc.
Qed.

Lemma encode_new_fun_ok p :
  fun_ok p -> fun_arity p <> -1 -> Encodes (ei_encode_fun p) (ext_new_fun p).
Proof.
  intros Hok Ha. pose proof Hok as (Hm & Hn & _ & Hi & Hu & Hv & _ & H16).
  set (hd := ext_fun_head p). set (sz := 4 + len (hd ++ ext_fun_tail p)).
  assert (Hhd : len hd = 25)
    by (unfold hd, ext_fun_head; autorewrite with len; lia).
  unfold ext_new_fun. fold hd sz. split.
  - intros i s ? Hl. unfold ei_encode_fun. rewrite (proj2 (Z.eqb_neq _ _) Ha).
    unfold ext_fun_tail in *. autorewrite with len in *. change (len [_]) with 1 in *.
    cbn [isnull nonnull negb NULL]. rewrite bindM_ret, index_add_ok by lia.

    do 4 enc_null_step. rewrite put_free_vars_null by lia.
    cbn [isnull nonnull negb NULL]. unfold bindM, retM. do 3 f_equal. lia.
  - intros b i s ? Hl [? Hr]. unfold ei_encode_fun. rewrite (proj2 (Z.eqb_neq _ _) Ha).
    assert (Ht : len (ext_fun_tail p) = sz - 29)
      by (unfold sz; rewrite len_app; lia).
    rewrite !len_app, len_be32, Hhd, Ht in Hl, Hr. change (len [_]) with 1 in *.
    destruct (new_fun_head_ok p b i s) as (h & Hh & Hs);
      [done | fold hd; split; [done |]; rewrite !len_app, Hhd; cbn; lia |].
    cbn [isnull nonnull negb at_off]. erewrite bindM_Some by exact Hs. fold hd.
    rewrite index_add_ok by lia. set (b1 := [ERL_NEW_FUN_EXT] ++ h ++ hd).
    assert (Hb1 : len b1 = 30) by (unfold b1; rewrite !len_app, Hhd, Hh; done).
    clearbody sz. pose proof Ht as Ht'. unfold ext_fun_tail in Ht'.
    autorewrite with len in Ht'. do 4 enc_write_step.
    rewrite put_free_vars_buf by
      (first [ done | autorewrite with len; lia | split; autorewrite with len; lia ]).
    rewrite <- !app_assoc. fold (ext_fun_tail p). unfold b1. rewrite <- !app_assoc.
    cbn [isnull nonnull negb at_off off padd psub].
    match goal with |- context [put32be _ (int32 ?x)] =>
      replace (int32 x) with sz by
        (unfold psub, padd; cbn [off at_off]; rewrite int32_small;
         unfold is_int32, int_max in *; autorewrite with len; lia) end.
    erewrite bindM_Some by (apply put32be_writes; apply fits_splice;
      split; rewrite ?len_app, ?Hh, ?Hhd, ?Ht, ?len_be32; cbn; lia).
    change (b + i + 1) with (b + i + len [ERL_NEW_FUN_EXT]).
    rewrite splice_patch by
      (first [ by rewrite Hh | split; rewrite ?len_app, ?Hh, ?Hhd, ?Ht; cbn; lia ]).
    unfold retM. rewrite !len_app, Hhd, Ht, len_be32. do 3 f_equal.
    change (len [_]) with 1. lia.
Qed.
