(* ===== verification/Skip.v ===== *)
(** * The external term format as a grammar, and [ei_skip_term] against it

    [etf bs] says that [bs] is one term in the external format, in any of the
    forms the library reads: the current ones, and those of older nodes. The
    skipper, with fuel for every byte of the term, returns 0 and moves the
    index exactly over it. *)

From S2P Require Import Prelude Mem PutGet Ext Headers Ints Atom Data Ids Big Term.

#[local] Set Warnings "-register-all".

(** ** The grammar *)

Definition ext_latin1 (long : bool) (u : list Z) : list Z :=
  (if long then ERL_ATOM_EXT :: be16 (len u) else [ERL_SMALL_ATOM_EXT; len u]) ++ u.

Inductive atom_ext : list Z -> Prop :=
  | atom_utf8 long u :
      atom_fits long u -> len u < MAXATOMLEN_UTF8 -> atom_ext (ext_atom long u)
  | atom_latin1 long u :
      Forall is_byte u -> len u < MAXATOMLEN -> atom_ext (ext_latin1 long u).

(** Pids, ports and references: a tag with the number of bytes that follow the
    name of the node. *)
Definition pid_tags : list (Z * Z) := [(ERL_PID_EXT, 9); (ERL_NEW_PID_EXT, 12)].
Definition port_tags : list (Z * Z) := [(ERL_PORT_EXT, 5); (ERL_NEW_PORT_EXT, 8)].
Definition ref_tags : list (Z * Z) :=
  [(ERL_NEW_REFERENCE_EXT, 1); (ERL_NEWER_REFERENCE_EXT, 4)].

Inductive pid_ext : list Z -> Prop :=
  | pid_ext_intro tag name rest :
      (tag, len rest) ∈ pid_tags -> atom_ext name -> pid_ext ([tag] ++ name ++ rest).

Inductive id_ext : list Z -> Prop :=
  | id_ext_pid bs : pid_ext bs -> id_ext bs
  | id_ext_port tag name rest :
      (tag, len rest) ∈ port_tags -> atom_ext name -> id_ext ([tag] ++ name ++ rest)
  | id_ext_old_ref name rest :
      len rest = 5 -> atom_ext name -> id_ext ([ERL_REFERENCE_EXT] ++ name ++ rest)
  | id_ext_ref tag n creation_len name rest :
      (tag, creation_len) ∈ ref_tags -> 0 <= n < 65536 ->
      len rest = creation_len + 4 * n -> atom_ext name ->
      id_ext ((tag :: be16 n) ++ name ++ rest).

(** An integer a [long] can hold. *)
Inductive long_ext : list Z -> Prop :=
  | long_ext_int n bs : int_ext n bs -> long_ext bs
  | long_ext_big sign ds bs :
      big_ext sign ds bs ->
      is_Some (signed_of 9223372036854775807 sign (le_val ds)) -> long_ext bs.

Section Grammar.
Context (sscanf_lf : list Z -> option Z).

Inductive etf : list Z -> Prop :=
  | etf_int n bs : int_ext n bs -> etf bs
  | etf_big sign ds bs : big_ext sign ds bs -> etf bs
  | etf_float p : is_uint64 p -> etf (ext_double p)
  | etf_float_text txt :
      len txt = 31 -> (forall rest, is_Some (sscanf_lf (txt ++ rest))) ->
      etf ([ERL_FLOAT_EXT] ++ txt)
  | etf_atom bs : atom_ext bs -> etf bs
  | etf_id bs : id_ext bs -> etf bs
  | etf_nil : etf [ERL_NIL_EXT]
  | etf_string p : len p < 65536 -> etf ((ERL_STRING_EXT :: be16 (len p)) ++ p)
  | etf_binary p : len p <= int_max -> etf ((ERL_BINARY_EXT :: be32 (len p)) ++ p)
  | etf_list ts tl :
      Forall etf ts -> etf tl -> len ts <= int_max ->
      etf ((ERL_LIST_EXT :: be32 (len ts)) ++ concat ts ++ tl)
  | etf_small_tuple ts :
      Forall etf ts -> len ts < 256 -> etf ([ERL_SMALL_TUPLE_EXT; len ts] ++ concat ts)
  | etf_large_tuple ts :
      Forall etf ts -> len ts <= int_max ->
      etf ((ERL_LARGE_TUPLE_EXT :: be32 (len ts)) ++ concat ts)
  | etf_map n ts :
      Forall etf ts -> len ts = 2 * n -> len ts <= int_max ->
      etf ((ERL_MAP_EXT :: be32 n) ++ concat ts)
  | etf_old_fun pid module index uniq ts :
      pid_ext pid -> atom_ext module -> long_ext index -> long_ext uniq ->
      Forall etf ts -> len ts <= int_max ->
      etf ((ERL_FUN_EXT :: be32 (len ts)) ++ pid ++ module ++ index ++ uniq ++ concat ts)
  | etf_new_fun arity md5 index num_free module old_index uniq pid free size :
      is_byte arity -> len md5 = 16 -> atom_ext module -> long_ext old_index ->
      long_ext uniq -> pid_ext pid -> size <= int_max ->
      size = 4 + 1 + 16 + 4 + 4 + len (module ++ old_index ++ uniq ++ pid ++ free) ->
      etf ((ERL_NEW_FUN_EXT :: be32 size) ++ [arity] ++ md5 ++ be32 index ++
           be32 num_free ++ module ++ old_index ++ uniq ++ pid ++ free).
End Grammar.

(** ** Moving over the leaves *)

(** [f] skips [bs]: it succeeds, and moves the index over them. *)
Definition skips_over {A} (f : Z -> Z -> D (cres A)) (bs : list Z) : Prop :=
  forall b i s, 0 <= i -> i + len bs <= int_max -> at_ s (b + i) bs ->
    exists x, f b i s = Some (Done (i + len bs) x).

Definition Skips (f : Z -> Z -> D (Z * Z)) (bs : list Z) : Prop :=
  forall b i s, 0 <= i -> i + len bs <= int_max -> at_ s (b + i) bs ->
    f b i s = Some (0, i + len bs).

Lemma rc_of_ok {A} (f : Z -> Z -> D (cres A)) bs b i s :
  skips_over f bs -> 0 <= i -> i + len bs <= int_max -> at_ s (b + i) bs ->
  rc_of i (f b i) s = Some (0, i + len bs).
Proof. intros Hf ? ? Ha. destruct (Hf b i s) as [x Hx]; [done.. |]. unfold rc_of. by erewrite bindD_Some by done. Qed.

Lemma latin1_head long u o s :
  Forall is_byte u -> len u < MAXATOMLEN -> at_ s o (ext_latin1 long u) ->
  atom_head o s = Some (Some (len u, ERLANG_LATIN1, o + (if long then 3 else 2))) /\
  at_ s (o + (if long then 3 else 2)) u.
Proof.
  unfold ext_latin1, MAXATOMLEN. intros Hb Hl Ha. unfold atom_head.
  destruct long; at_split; rstep; rstep.
  - rewrite Z.mod_small by lia. split; [unfold retD; do 3 f_equal; lia | at_tac].
  - split; [unfold retD; do 3 f_equal; lia | at_tac].
Qed.

Lemma latin1_converts u : len u < MAXATOMLEN ->
  exists r, latin1_to_utf8 u (MAXATOMLEN_UTF8 - 1) = Some r.
Proof.
  unfold MAXATOMLEN, MAXATOMLEN_UTF8, latin1_to_utf8. intros Hl.
  pose proof (len_utf8_of_latin1 u). rewrite latin1_to_utf8_loop_ok by lia. by eexists.
Qed.

(** Every form of an atom is accepted where UTF-8 is wanted. *)
Lemma skips_atom want bs :
  want = ERLANG_UTF8 \/ want = Z.lor ERLANG_LATIN1 ERLANG_UTF8 ->
  atom_ext bs -> skips_over (ei_decode_atom_as false MAXATOMLEN_UTF8 want) bs.
Proof.
  intros Hw [long u Hf Hu | long u Hb Hu] b i s Hi Hl Ha.
  - eexists. erewrite decode_atom_utf8;
      [by rewrite (proj2 (Z.ltb_lt _ _) Hu) | done | by destruct Hw as [-> | ->] | done..].
  - destruct (latin1_head long u _ s Hb Hu Ha) as [Hh Hat].
    assert (Hlen : len (ext_latin1 long u) = (if long then 3 else 2) + len u)
      by (unfold ext_latin1; rewrite len_app; by destruct long).
    rewrite Hlen in *. unfold ei_decode_atom_as.
    erewrite bindD_Some by done. cbv beta iota.
    assert (Hd : (MAXATOMLEN_UTF8 <=? len u) = false)
      by (unfold MAXATOMLEN, MAXATOMLEN_UTF8 in *; lia).
    destruct (latin1_converts u Hu) as [[v enc] Hv].
    destruct Hw as [-> | ->]; ctests; cbn [negb orb];
      rewrite ?Hd; erewrite bindD_Some by (by apply load_bytes_at); ctests;
      rewrite ?Hv; cbn [andb]; unfold retD; rewrite index_add_ok by (destruct long; lia);
      eexists; do 3 f_equal; lia.
Qed.

Lemma skips_name bs o s :
  atom_ext bs -> len bs <= int_max -> at_ s o bs ->
  exists a, get_atom false o s = Some (Done (o + len bs) a).
Proof.
  intros He Hl Ha. unfold get_atom.
  destruct (skips_atom ERLANG_UTF8 bs (or_introl eq_refl) He o 0 s) as [a Hx];
    [lia | lia | by rewrite Z.add_0_r |].
  exists a. by erewrite bindC_Done by done.
Qed.

Ltac name_skip He :=
  match goal with
  | |- context [bindC (get_atom false ?o) _ ?s] =>
      let a := fresh "a" in let Hx := fresh "Hx" in
      destruct (skips_name _ o s He) as [a Hx];
      [autorewrite with len in *; lia | at_tac | erewrite bindC_Done by exact Hx]
  end; cbv beta iota.

Lemma length_cons_Z {A} (x : A) l : len (x :: l) = 1 + len l.
Proof. apply len_cons. Qed.

(** The end of a skip: the offset is the length of the term. *)
Ltac skip_finish :=
  unfold retD; autorewrite with len in *; rewrite ?length_cons_Z in *;
  rewrite index_add_ok by lia; eexists; do 3 f_equal; lia.

Ltac tag_cases H :=
  unfold pid_tags, port_tags, ref_tags in H; rewrite !elem_of_cons, elem_of_nil in H;
  destruct H as [[= -> ?] | [[= -> ?] | []]].

Lemma skips_pid bs : pid_ext bs -> skips_over (ei_decode_pid false) bs.
Proof.
  intros [tag name rest Ht Hn] b i s Hi Hl Ha. unfold ei_decode_pid.
  tag_cases Ht; at_split; rstep; name_skip Hn; skip_finish.
Qed.

Lemma skips_long bs : long_ext bs -> skips_over (ei_decode_long false) bs.
Proof.
  intros [n bs' H | sign ds bs' H [v Hv]] b i s Hi Hl Ha; unfold ei_decode_long.
  - rewrite (decode_longlong_int n bs') by done. by eexists.
  - rewrite (decode_longlong_big sign ds bs') by done. rewrite Hv. by eexists.
Qed.

(** ** The type of a term *)

Definition type_of (tag : Z) : Z :=
  if (tag =? ERL_SMALL_ATOM_EXT) || (tag =? ERL_SMALL_ATOM_UTF8_EXT)
     || (tag =? ERL_ATOM_UTF8_EXT) then ERL_ATOM_EXT
  else if tag =? NEW_FLOAT_EXT then ERL_FLOAT_EXT
  else if tag =? ERL_NEW_PID_EXT then ERL_PID_EXT
  else if tag =? ERL_NEW_PORT_EXT then ERL_PORT_EXT
  else if tag =? ERL_NEWER_REFERENCE_EXT then ERL_NEW_REFERENCE_EXT
  else tag.

Ltac type_tac :=
  unfold ei_get_type_internal; at_split; rstep; repeat rstep; by eexists.

Lemma atom_type n0 bs b i s :
  atom_ext bs -> at_ s (b + i) bs ->
  exists n, ei_get_type_internal n0 b i s = Some (type_of (hd 0 bs), n).
Proof.
  intros [long u [Hb Hu] _ | long u Hb Hu] Ha; unfold MAXATOMLEN in *.
  - rewrite ext_atom_header in *. destruct long; unfold atom_header in *; cbn [Z.eqb Pos.eqb] in *; type_tac.
  - unfold ext_latin1 in *. destruct long; type_tac.
Qed.

Lemma id_type n0 bs b i s :
  id_ext bs -> at_ s (b + i) bs ->
  exists n, ei_get_type_internal n0 b i s = Some (type_of (hd 0 bs), n).
Proof.
  intros He Ha. destruct He as [bs [tag name rest Ht _] | tag name rest Ht _ | name rest _ _
    | tag n l name rest Ht _ _ _]; try tag_cases Ht; cbn [hd app] in *; type_tac.
Qed.

Lemma etf_type n0 sscanf_lf bs b i s :
  etf sscanf_lf bs -> at_ s (b + i) bs ->
  exists n, ei_get_type_internal n0 b i s = Some (type_of (hd 0 bs), n).
Proof.
  intros He Ha. destruct He as [n bs [n' Hn | n' Hn] | sign ds bs [sg ds' ? ? ? | sg ds' ? ? ?]
    | p _ | txt _ _ | bs H | bs H | | p _ | p _ | ts tl _ _ _ | ts _ Hn | ts _ _
    | n ts _ _ _ | pid module index uniq ts _ _ _ _ _ _
    | arity md5 index nf module oi uniq pid free size _ _ _ _ _ _ _ _];
    eauto using atom_type, id_type; unfold ext_double in *; cbn [hd app]; type_tac.
Qed.

(** ** The other leaves *)

Lemma skips_big sign ds bs : big_ext sign ds bs -> skips_over (ei_decode_big None) bs.
Proof.
  intros [sg ds' ? ? ? | sg ds' ? ? Hl'] b i s Hi Hl Ha; unfold ei_decode_big;
    at_split; rstep; rstep; rewrite bindD_ret; cbv beta iota.
  - skip_finish.
  - rewrite uint32_int32 by (unfold is_uint32, int_max in *; lia). skip_finish.
Qed.

Lemma skips_string p :
  len p < 65536 ->
  skips_over (ei_decode_string false) ((ERL_STRING_EXT :: be16 (len p)) ++ p).
Proof.
  intros Hp b i s Hi Hl Ha. unfold ei_decode_string. at_split. rstep. rstep.
  rewrite bindD_ret, Z.mod_small by lia. skip_finish.
Qed.

Lemma skips_binary p :
  len p <= int_max ->
  skips_over (ei_decode_binary false) ((ERL_BINARY_EXT :: be32 (len p)) ++ p).
Proof.
  intros Hp b i s Hi Hl Ha. unfold ei_decode_binary. at_split. rstep. rstep.
  rewrite bindD_ret, int32_small by (unfold is_int32, int_max in *; lia). skip_finish.
Qed.

Lemma skips_float_text sscanf_lf txt :
  len txt = 31 -> (forall rest, is_Some (sscanf_lf (txt ++ rest))) ->
  skips_over (ei_decode_double sscanf_lf false) ([ERL_FLOAT_EXT] ++ txt).
Proof.
  intros Ht Hs b i s Hi Hl Ha. unfold ei_decode_double. apply at_app in Ha as [Ha1 Ha2].
  rstep. change (len [ERL_FLOAT_EXT]) with 1 in Ha2.
  destruct Ha2 as [Ho (pre & post & -> & Hpre)].
  assert (Hd : drop (Z.to_nat (b + i + 1)) (pre ++ txt ++ post) = txt ++ post)
    by (rewrite <- Hpre, Nat2Z.id; apply drop_app_length).
  destruct (Hs post) as [f Hf]. unfold bindD. rewrite Hd, Hf. skip_finish.
Qed.

(** ** Sequences of terms *)

Lemma skip_elems_ok skip ts : forall b i s,
  Forall (Skips skip) ts -> 0 <= i -> i + len (concat ts) <= int_max ->
  at_ s (b + i) (concat ts) ->
  skip_elems skip (length ts) b i s = Some (i + len (concat ts)).
Proof.
  induction ts as [| t ts IH]; intros b i s Hs Hi Hl Ha; cbn [skip_elems length].
  - cbn. by rewrite Z.add_0_r.
  - inversion Hs; subst. cbn [concat] in *. rewrite len_app in *.
    apply at_app in Ha as [Ha1 Ha2]. rewrite <- Z.add_assoc in Ha2.
    erewrite bindD_Some by (apply (H1 b i s); done || lia). cbv beta iota.
    rewrite IH by (done || lia). f_equal. lia.
Qed.

Lemma skip_checked_ok skip ts : forall b i s,
  Forall (Skips skip) ts -> 0 <= i -> i + len (concat ts) <= int_max ->
  at_ s (b + i) (concat ts) ->
  skip_checked skip (length ts) b i s = Some (Some (i + len (concat ts))).
Proof.
  induction ts as [| t ts IH]; intros b i s Hs Hi Hl Ha; cbn [skip_checked length].
  - cbn. by rewrite Z.add_0_r.
  - inversion Hs; subst. cbn [concat] in *. rewrite len_app in *.
    apply at_app in Ha as [Ha1 Ha2]. rewrite <- Z.add_assoc in Ha2.
    erewrite bindD_Some by (apply (H1 b i s); done || lia). cbv beta iota.
    cbn [Z.ltb Z.compare]. rewrite IH by (done || lia). do 2 f_equal. lia.
Qed.

Lemma bindC_skip {A B} (f : Z -> Z -> D (cres A)) bs b i s (k : Z -> A -> D (cres B)) :
  skips_over f bs -> at_ s (b + i) bs -> 0 <= i -> i + len bs <= int_max ->
  exists x, bindC (f b i) k s = k (i + len bs) x s.
Proof.
  intros Hf Ha Hi Hl. destruct (Hf b i s Hi Hl Ha) as [x Hx].
  exists x. by erewrite bindC_Done by done.
Qed.

Ltac field_skip H :=
  match goal with
  | |- context [bindC (?f ?b ?i) ?k ?s] =>
      let x := fresh "x" in let Hx := fresh "Hx" in
      edestruct (bindC_skip f _ b i s k H) as [x Hx];
      [at_tac | autorewrite with len in *; lia | autorewrite with len in *; lia
      | rewrite Hx; clear Hx]
  end.

Lemma skips_old_fun skip malloc pid module index uniq ts :
  pid_ext pid -> atom_ext module -> long_ext index -> long_ext uniq ->
  Forall (Skips skip) ts -> len ts <= int_max ->
  skips_over (ei_decode_fun skip malloc None)
    ((ERL_FUN_EXT :: be32 (len ts)) ++ pid ++ module ++ index ++ uniq ++ concat ts).
Proof.
  intros Hp%skips_pid Hm%(skips_atom ERLANG_UTF8) Hx%skips_long Hu%skips_long Ht Hn
    b i s Hi Hl Ha; [| by left].
  unfold ei_decode_fun. rewrite bool_decide_false by (by intros [? ?]).
  apply at_app in Ha as [Ha1 Ha]. repeat (apply at_app in Ha as [? Ha]). at_split.
  rstep. rstep. rewrite int32_small, Nat2Z.id by (unfold is_int32, int_max in *; lia).
  field_skip Hp. field_skip Hm. field_skip Hx. field_skip Hu.
  erewrite bindD_Some by (apply skip_checked_ok; [done | lia | autorewrite with len in *; lia | at_tac]).
  cbn [andb]. rewrite bindD_ret. skip_finish.
Qed.

Lemma skips_new_fun skip malloc arity md5 index nf module old_index uniq pid free size :
  is_byte arity -> len md5 = 16 -> atom_ext module -> long_ext old_index ->
  long_ext uniq -> pid_ext pid -> size <= int_max ->
  size = 4 + 1 + 16 + 4 + 4 + len (module ++ old_index ++ uniq ++ pid ++ free) ->
  skips_over (ei_decode_fun skip malloc None)
    ((ERL_NEW_FUN_EXT :: be32 size) ++ [arity] ++ md5 ++ be32 index ++
     be32 nf ++ module ++ old_index ++ uniq ++ pid ++ free).
Proof.
  intros Har H16 Hm%(skips_atom ERLANG_UTF8) Hx%skips_long Hu%skips_long Hp%skips_pid
    Hsz Hsize b i s Hi Hl Ha; [| by left].
  unfold ei_decode_fun. rewrite bool_decide_false by (by intros [? ?]).
  apply at_app in Ha as [Ha1 Ha]. repeat (apply at_app in Ha as [? Ha]). at_split.
  rstep. rstep. autorewrite with len in *.
  rewrite int32_small by (unfold is_int32, int_max in *; lia). rstep.
  rewrite bindD_ret. rstep. rstep.
  field_skip Hm. field_skip Hx. field_skip Hu. field_skip Hp.
  rewrite int32_small by (unfold is_int32, int_max in *; lia).
  rewrite (proj2 (Z.ltb_ge _ _)) by lia. cbn [andb]. rewrite bindD_ret. skip_finish.
Qed.

(** ** [ei_skip_term] *)

(** Only [] has the type of []. *)
Lemma etf_nil_type sscanf_lf bs :
  etf sscanf_lf bs -> type_of (hd 0 bs) = ERL_NIL_EXT -> bs = [ERL_NIL_EXT].
Proof.
  intros [n bs' [] | sign ds bs' [] | p _ | txt _ _ | bs' [[] u _ _ | [] u _ _]
    | bs' [bs'' [? ? ? Ht] | ? ? ? Ht | | ? ? ? ? ? Ht] | | p _ | p _ | ts tl _ _ _ | ts _ Hn | ts _ _
    | n ts _ _ _ | pid module index uniq ts _ _ _ _ _ _
    | arity md5 index nf module oi uniq pid free size _ _ _ _ _ _ _ _];
    try tag_cases Ht; done.
Qed.

Lemma etf_nonempty sscanf_lf bs : etf sscanf_lf bs -> (1 <= length bs)%nat.
Proof.
  intros [n bs' [] | sign ds bs' [] | p _ | txt _ _ | bs' [long u _ _ | long u _ _]
    | bs' [bs'' [] | | | ] | | p _ | p _ | ts tl _ _ _ | ts _ Hn | ts _ _
    | n ts _ _ _ | pid module index uniq ts _ _ _ _ _ _
    | arity md5 index nf module oi uniq pid free size _ _ _ _ _ _ _ _];
    try destruct long; cbn; rewrite ?length_app; cbn; lia.
Qed.

Lemma skip_parts sscanf_lf fuel ts :
  (forall bs, etf sscanf_lf bs -> (length bs <= fuel)%nat ->
     Skips (ei_skip_term sscanf_lf fuel) bs) ->
  Forall (etf sscanf_lf) ts -> (length (concat ts) <= fuel)%nat ->
  Forall (Skips (ei_skip_term sscanf_lf fuel)) ts.
Proof.
  intros IH. induction 1 as [| t ts Ht _ IHts]; [constructor |].
  cbn [concat]. rewrite length_app. intros Hl.
  constructor; [apply IH; [done | lia] | apply IHts; lia].
Qed.

Lemma list_header_skip n b i s :
  0 <= n -> n <= int_max -> 0 <= i -> i + 5 <= int_max ->
  at_ s (b + i) (ERL_LIST_EXT :: be32 n) ->
  ei_decode_list_header true b i s = Some (Done (i + 5) (Some n)).
Proof.
  intros ? ? ? ? Ha. unfold ei_decode_list_header. at_split. rstep. rstep.
  rewrite bindD_ret, int32_small by (unfold is_int32, int_max in *; lia).
  unfold retD. rewrite index_add_ok by lia. do 3 f_equal. lia.
Qed.

Lemma nil_skip b i s :
  0 <= i -> i + 1 <= int_max -> at_ s (b + i) [ERL_NIL_EXT] ->
  ei_decode_list_header true b i s = Some (Done (i + 1) (Some 0)).
Proof.
  intros ? ? Ha. unfold ei_decode_list_header. rstep. unfold retD.
  rewrite index_add_ok by lia. do 3 f_equal. lia.
Qed.

Lemma tuple_header_skip n h b i s :
  (h = [ERL_SMALL_TUPLE_EXT; n] /\ 0 <= n < 256) \/
  (h = ERL_LARGE_TUPLE_EXT :: be32 n /\ 0 <= n <= int_max) ->
  0 <= i -> i + len h <= int_max -> at_ s (b + i) h ->
  ei_decode_tuple_header true b i s = Some (Done (i + len h) (Some n)).
Proof.
  intros [[-> Hn] | [-> Hn]] ? ? Ha; unfold ei_decode_tuple_header; at_split; rstep; rstep;
    rewrite bindD_ret; [| rewrite int32_small by (unfold is_int32, int_max in *; lia)];
    unfold retD; autorewrite with len in *; rewrite index_add_ok by (cbn in *; lia);
    do 3 f_equal; cbn; lia.
Qed.

Lemma map_header_skip n b i s :
  0 <= n <= int_max -> 0 <= i -> i + 5 <= int_max ->
  at_ s (b + i) (ERL_MAP_EXT :: be32 n) ->
  ei_decode_map_header true b i s = Some (Done (i + 5) (Some n)).
Proof.
  intros ? ? ? Ha. unfold ei_decode_map_header. at_split. rstep. rstep.
  rewrite bindD_ret, int32_small by (unfold is_int32, int_max in *; lia).
  unfold retD. rewrite index_add_ok by lia. do 3 f_equal. lia.
Qed.

Section SkipTerm.
Context (sscanf_lf : list Z -> option Z).

Lemma skip_atom_case fuel bs : atom_ext bs -> Skips (ei_skip_term sscanf_lf (S fuel)) bs.
Proof.
  intros He b i s Hi Hl Ha. cbn [ei_skip_term].
  destruct (atom_type 0 bs b i s He Ha) as [n Hn]. erewrite bindD_Some by exact Hn.
  replace (type_of (hd 0 bs)) with ERL_ATOM_EXT
    by (destruct He as [[] ? ? ? | [] ? ? ?]; reflexivity).
  ctests. apply rc_of_ok; [| done..]. apply skips_atom; [by right | done].
Qed.

Lemma skip_id_case fuel bs : id_ext bs -> Skips (ei_skip_term sscanf_lf (S fuel)) bs.
Proof.
  intros He b i s Hi Hl Ha. cbn [ei_skip_term].
  destruct (id_type 0 bs b i s He Ha) as [n0 Hn0]. erewrite bindD_Some by exact Hn0.
  destruct He as [bs Hp | tag name rest Ht Hn | name rest Hr Hn | tag n l name rest Ht Hr Hlr Hn].
  - pose proof (skips_pid bs Hp) as Hsk. destruct Hp as [tag name rest Ht Hn].
    tag_cases Ht; cbn [hd app]; ctests; by apply rc_of_ok.
  - tag_cases Ht; cbn [hd app]; ctests; (apply rc_of_ok; [| done..]);
      intros b' i' s' Hi' Hl' Ha'; unfold ei_decode_port; at_split; rstep; name_skip Hn; skip_finish.
  - cbn [hd app]; ctests; (apply rc_of_ok; [| done..]).
    intros b' i' s' Hi' Hl' Ha'; unfold ei_decode_ref; at_split; rstep; name_skip Hn; skip_finish.
  - tag_cases Ht; cbn [hd app]; ctests; (apply rc_of_ok; [| done..]);
      intros b' i' s' Hi' Hl' Ha'; unfold ei_decode_ref; at_split; rstep; rstep;
      rewrite Z.mod_small by lia; name_skip Hn; skip_finish.
Qed.

(** One step of the skipper on a term that is none of the above. *)
Ltac skip_case b i s H Ha :=
  let n := fresh "n" in let Hn := fresh "Hn" in
  destruct (etf_type 0 sscanf_lf _ b i s H Ha) as [n Hn];
  cbn [ei_skip_term]; erewrite bindD_Some by exact Hn;
  unfold ext_double; cbn [hd app]; ctests.

Lemma skip_int_case fuel n bs : int_ext n bs -> Skips (ei_skip_term sscanf_lf (S fuel)) bs.
Proof.
  intros He b i s Hi Hl Ha. pose proof (skips_long bs (long_ext_int n bs He)) as Hs.
  pose proof (etf_int sscanf_lf n bs He) as H. destruct He; skip_case b i s H Ha; by apply rc_of_ok.
Qed.

Lemma skip_big_case fuel sign ds bs :
  big_ext sign ds bs -> Skips (ei_skip_term sscanf_lf (S fuel)) bs.
Proof.
  intros He b i s Hi Hl Ha. pose proof (skips_big sign ds bs He) as Hs.
  pose proof (etf_big sscanf_lf sign ds bs He) as H.
  destruct He; skip_case b i s H Ha; by apply rc_of_ok.
Qed.

Lemma skip_list_case fuel ts tl :
  etf sscanf_lf ((ERL_LIST_EXT :: be32 (len ts)) ++ concat ts ++ tl) ->
  etf sscanf_lf tl -> len ts <= int_max ->
  Forall (Skips (ei_skip_term sscanf_lf fuel)) ts -> Skips (ei_skip_term sscanf_lf fuel) tl ->
  Skips (ei_skip_term sscanf_lf (S fuel)) ((ERL_LIST_EXT :: be32 (len ts)) ++ concat ts ++ tl).
Proof.
  intros H Htl Hn Hts Hskip b i s Hi Hl Ha. skip_case b i s H Ha.
  apply at_app in Ha as [Ha0 Ha]. apply at_app in Ha as [Ha1 Ha2].
  autorewrite with len in *.
  erewrite bindD_Some by (apply list_header_skip; [| | | | exact Ha0]; lia).
  cbv beta iota. cbn [from_option id]. rewrite Nat2Z.id.
  erewrite bindD_Some by (apply skip_elems_ok; [done | lia | lia | at_tac]).
  assert (Ha3 : at_ s (b + (i + 5 + len (concat ts))) tl) by at_tac.
  destruct (etf_type 0 sscanf_lf tl b _ s Htl Ha3) as [n2 Hn2].
  erewrite bindD_Some by exact Hn2. cbv beta iota.
  destruct (Z.eqb_spec (type_of (hd 0 tl)) ERL_NIL_EXT) as [E | E]; cbn [negb].
  - assert (tl = [ERL_NIL_EXT]) as -> by by eapply etf_nil_type.
    unfold rc_of. erewrite bindD_Some by (apply nil_skip; [lia | cbn in *; lia | done]).
    unfold retD. do 2 f_equal. cbn; lia.
  - erewrite bindD_Some by (apply Hskip; [lia | lia | done]).
    unfold retD. do 2 f_equal. lia.
Qed.

(** The elements behind a tuple header, or the pairs of a map. *)
Lemma elems_tail {h ts fuel b i s} :
  Forall (Skips (ei_skip_term sscanf_lf fuel)) ts -> 0 <= i -> i + len (h ++ concat ts) <= int_max ->
  at_ s (b + i) (h ++ concat ts) ->
  bindD (skip_elems (ei_skip_term sscanf_lf fuel) (length ts) b (i + len h))
    (fun index => retD (0, index)) s = Some (0, i + len (h ++ concat ts)).
Proof.
  intros Ht Hi Hl [Ha1 Ha2]%at_app. rewrite len_app in *. rewrite <- Z.add_assoc in Ha2.
  erewrite bindD_Some by (apply skip_elems_ok; [done | lia | lia | done]).
  unfold retD. do 2 f_equal. lia.
Qed.

Lemma skip_tuple_case fuel h ts :
  etf sscanf_lf (h ++ concat ts) ->
  (h = [ERL_SMALL_TUPLE_EXT; len ts] /\ 0 <= len ts < 256) \/
  (h = ERL_LARGE_TUPLE_EXT :: be32 (len ts) /\ 0 <= len ts <= int_max) ->
  Forall (Skips (ei_skip_term sscanf_lf fuel)) ts ->
  Skips (ei_skip_term sscanf_lf (S fuel)) (h ++ concat ts).
Proof.
  intros H Hh Hts b i s Hi Hl Ha. pose proof Ha as [Ha0 _]%at_app.
  assert (i + len h <= int_max) by (rewrite len_app in Hl; lia).
  pose proof (tuple_header_skip _ _ b i s Hh Hi H0 Ha0) as Hd.
  destruct (etf_type 0 sscanf_lf _ b i s H Ha) as [n Hn].
  cbn [ei_skip_term]. erewrite bindD_Some by exact Hn.
  assert (He : type_of (hd 0 (h ++ concat ts)) = ERL_SMALL_TUPLE_EXT \/
               type_of (hd 0 (h ++ concat ts)) = ERL_LARGE_TUPLE_EXT)
    by (destruct Hh as [[-> _] | [-> _]]; [by left | by right]).
  destruct He as [-> | ->]; ctests; erewrite bindD_Some by exact Hd; cbv beta iota;
    cbn [from_option id]; rewrite Nat2Z.id; by apply elems_tail.
Qed.

Lemma skip_map_case fuel n ts :
  etf sscanf_lf ((ERL_MAP_EXT :: be32 n) ++ concat ts) ->
  len ts = 2 * n -> len ts <= int_max ->
  Forall (Skips (ei_skip_term sscanf_lf fuel)) ts ->
  Skips (ei_skip_term sscanf_lf (S fuel)) ((ERL_MAP_EXT :: be32 n) ++ concat ts).
Proof.
  intros H Hn Hm Hts b i s Hi Hl Ha. skip_case b i s H Ha.
  pose proof Ha as [Ha0 _]%at_app. pose proof Hl as Hl'. autorewrite with len in Hl'.
  erewrite bindD_Some by (apply map_header_skip; [| | | exact Ha0]; lia).
  cbv beta iota. cbn [from_option id].
  rewrite int32_small by (unfold is_int32, int_max in *; lia).
  replace (Z.to_nat (n * 2)) with (length ts) by lia.
  by apply (elems_tail (h := ERL_MAP_EXT :: be32 n)).
Qed.

Lemma skips_etf : forall fuel bs,
  etf sscanf_lf bs -> (length bs <= fuel)%nat -> Skips (ei_skip_term sscanf_lf fuel) bs.
Proof.
  induction fuel as [| fuel IH]; intros bs He Hf;
    [pose proof (etf_nonempty _ _ He); lia |].
  pose proof He as H.
  destruct He as [n bs Hn | sign ds bs Hb | p Hp | txt Ht Hs | bs Hb | bs Hb | | p Hp
    | p Hp | ts tl Hts Htl Hn | ts Hts Hn | ts Hts Hn | n ts Hts Hn Hm
    | pid module index uniq ts Hp Hm Hi Hu Hts Hn
    | arity md5 index nf module oi uniq pid free size H1 H2 H3 H4 H5 H6 H7 H8];
    try (cbn [app length] in Hf; rewrite ?length_app in Hf).
  - by eapply skip_int_case.
  - by eapply skip_big_case.
  - intros b i s ? ? Ha. skip_case b i s H Ha. apply rc_of_ok; [| done..].
    intros b' i' s' ? ? ?. eexists. by apply decode_double_ok.
  - intros b i s ? ? Ha. skip_case b i s H Ha. apply rc_of_ok; [| done..].
    by apply skips_float_text.
  - by apply skip_atom_case.
  - by apply skip_id_case.
  - intros b i s ? ? Ha. skip_case b i s H Ha.
    apply (rc_of_ok (ei_decode_list_header true) [ERL_NIL_EXT]); [| done..].
    intros b' i' s' ? ? ?. eexists. by apply nil_skip.
  - intros b i s ? ? Ha. skip_case b i s H Ha. apply rc_of_ok; [| done..].
    by apply skips_string.
  - intros b i s ? ? Ha. skip_case b i s H Ha. apply rc_of_ok; [| done..].
    by apply skips_binary.
  - rewrite ?length_app in Hf. apply skip_list_case; [done.. | |].
    + apply skip_parts; [done | done | lia].
    + apply IH; [done | lia].
  - apply skip_tuple_case; [done | left; split; [done | lia] |].
    apply skip_parts; [done | done | lia].
  - apply skip_tuple_case; [done | right; split; [done | lia] |].
    apply skip_parts; [done | done | lia].
  - apply skip_map_case; [done.. |]. apply skip_parts; [done | done | lia].
  - intros b i s ? ? Ha. skip_case b i s H Ha. apply rc_of_ok; [| done..].
    apply skips_old_fun; [done.. | | done].
    apply skip_parts; [done | done |]. rewrite ?length_app in Hf. lia.
  - intros b i s ? ? Ha. skip_case b i s H Ha. apply rc_of_ok; [| done..].
    by apply skips_new_fun.
Qed.
End SkipTerm.

(** ** What the encoders write is a term *)

Section Encoded.
Context (sscanf_lf : list Z -> option Z).
Notation etf := (etf sscanf_lf).

Lemma ext_longlong_etf p : is_int64 p -> etf (ext_longlong p).
Proof.
  intros Hp. destruct (ext_longlong_cases p Hp) as [H | H];
    [by eapply etf_int | by eapply etf_big].
Qed.

Lemma ext_ulonglong_etf p : is_uint64 p -> etf (ext_ulonglong p).
Proof.
  intros Hp. destruct (ext_ulonglong_cases p Hp) as [H | H];
    [by eapply etf_int | by eapply etf_big].
Qed.

Lemma ext_atom_utf8_ext u :
  Forall is_byte u -> verify_utf8_atom u 0 = true -> atom_ext (ext_atom_utf8 u).
Proof.
  intros Hb Hv. pose proof (utf8_len_max u Hv) as Hl. apply atom_utf8; [| done].
  split; [done |]. unfold MAXATOMLEN_UTF8 in Hl. destruct (Z.leb_spec 256 (len u)); lia.
Qed.

Lemma name_atom_ext p : name_ok p -> atom_ext (ext_atom_utf8 (c_str p)).
Proof. intros [? ?]%name_text. by apply ext_atom_utf8_ext. Qed.

Lemma ext_atom_latin1_etf p :
  Forall is_byte p -> len p < MAXATOMLEN -> etf (ext_atom_latin1 p).
Proof.
  intros Hb Hl. apply etf_atom. pose proof (len_utf8_of_latin1 p).
  unfold MAXATOMLEN, MAXATOMLEN_UTF8 in *.
  apply atom_utf8; [| unfold MAXATOMLEN_UTF8; lia].
  split; [by apply utf8_of_latin1_byte |]. destruct (Z.leb_spec 128 (len p)); lia.
Qed.

Lemma ext_pid_ext p : name_ok (pid_node p) -> pid_ext (ext_pid p).
Proof.
  intros Hn. unfold ext_pid, pid_tag. apply pid_ext_intro; [| by apply name_atom_ext].
  autorewrite with len. unfold pid_tags. rewrite !elem_of_cons.
  destruct (3 <? pid_creation p); [right; left | left]; f_equal; lia.
Qed.

Lemma ext_port_ext p : name_ok (port_node p) -> id_ext (ext_port p).
Proof.
  intros Hn. unfold ext_port, port_tag. apply id_ext_port; [| by apply name_atom_ext].
  autorewrite with len. unfold port_tags. rewrite !elem_of_cons.
  destruct (3 <? port_creation p); [right; left | left]; f_equal; lia.
Qed.

Lemma ext_ref_ext p : ref_ok p -> id_ext (ext_ref p).
Proof.
  intros (Hn & Hl & H3). unfold ext_ref, ref_tag.
  apply id_ext_ref with (creation_len := if 3 <? ref_creation p then 4 else 1);
    [| lia | autorewrite with len; lia | by apply name_atom_ext].
  unfold ref_tags. rewrite !elem_of_cons.
  destruct (3 <? ref_creation p); [right; left | left]; done.
Qed.

Lemma ext_chars_concat p : ext_chars p = concat ((fun c => [ERL_SMALL_INTEGER_EXT; c]) <$> p).
Proof. induction p as [| c p IH]; [done |]. rewrite ext_chars_cons, IH. done. Qed.

Lemma ext_string_etf p : Forall is_byte p -> len p <= int_max -> etf (ext_string p).
Proof.
  intros Hb Hl. unfold ext_string. destruct (len p =? 0) eqn:E; [apply etf_nil |].
  destruct (Z.leb_spec (len p) 0xffff); [apply etf_string; lia |].
  rewrite ext_chars_concat. rewrite <- (length_fmap (fun c => [ERL_SMALL_INTEGER_EXT; c]) p).
  apply etf_list; [| apply etf_nil | by rewrite length_fmap].
  apply Forall_fmap. eapply Forall_impl; [| exact Hb].
  intros c Hc. eapply etf_int. by constructor.
Qed.

Lemma ext_binary_etf p : len p <= int_max -> etf (ext_binary p).
Proof. apply etf_binary. Qed.

Lemma long_ext_longlong p : is_int64 p -> long_ext (ext_longlong p).
Proof.
  intros Hp. destruct (ext_longlong_cases p Hp) as [H | H]; [by eapply long_ext_int |].
  eapply long_ext_big; [exact H |]. unfold is_int64 in Hp.
  rewrite le_val_digits by (cbn; lia).
  rewrite signed_of_neg_bit by lia. by eexists.
Qed.

Lemma ext_new_fun_etf p :
  fun_ok p -> len (ext_new_fun p) <= int_max -> etf (ext_new_fun p).
Proof.
  intros (Hm & Hn & _ & Hi & Hu & Hv & _ & H16) Hl.
  unfold ext_new_fun, ext_fun_head, ext_fun_tail in *.
  autorewrite with len in Hl. change (len [_]) with 1 in Hl.
  cbn [app]. rewrite <- !app_assoc.
  eapply (etf_new_fun _ (byte (fun_arity p))); auto using name_atom_ext, ext_pid_ext, long_ext_longlong, byte_range;
    autorewrite with len; lia.
Qed.

Lemma ext_list_etf ts :
  Forall etf ts -> len ts <= int_max -> ts <> [] ->
  etf (ext_list_header (len ts) ++ concat ts ++ [ERL_NIL_EXT]).
Proof.
  intros Ht Hl Hne. unfold ext_list_header.
  destruct ts as [| t ts]; [done |]. rewrite (proj2 (Z.ltb_lt _ _)) by (simpl; lia).
  apply etf_list; [done | apply etf_nil | done].
Qed.

Lemma ext_tuple_etf ts :
  Forall etf ts -> len ts <= int_max -> etf (ext_tuple_header (len ts) ++ concat ts).
Proof.
  intros Ht Hl. unfold ext_tuple_header. destruct (Z.leb_spec (len ts) 255).
  - rewrite byte_small by (unfold is_byte; lia). apply etf_small_tuple; [done | lia].
  - by apply etf_large_tuple.
Qed.
End Encoded.

(** ** Funs come back *)

(** What an encoded fun means: its names up to their zeros, the module read as
    UTF-8, the bits of the pid that travel. *)
Definition fun_sent (p : erlang_fun) (md5 : list Z) (old_index : Z) : erlang_fun :=
  Fun (fun_arity p) (c_str (fun_module p)) ERLANG_UTF8 md5 (fun_index p) old_index
    (fun_uniq p) (fun_n_free_vars p) (pid_sent (fun_pid p)) (fun_free_vars p).

Lemma decode_module u p want b i s :
  Forall is_byte u -> verify_utf8_atom u 0 = true ->
  Z.land want ERLANG_UTF8 <> 0 -> 0 <= i -> i + len (ext_atom_utf8 u) <= int_max ->
  at_ s (b + i) (ext_atom_utf8 u) ->
  ei_decode_atom_as p MAXATOMLEN_UTF8 want b i s
  = Some (Done (i + len (ext_atom_utf8 u)) (AtomOut u ERLANG_UTF8 (res_of u ERLANG_UTF8))).
Proof.
  intros Hb Hv Hw ? ? Ha. pose proof (utf8_len_max u Hv) as Hl. unfold ext_atom_utf8 in *.
  erewrite decode_atom_utf8; [by rewrite (proj2 (Z.ltb_lt _ _) Hl) | | done..].
  split; [done |]. unfold MAXATOMLEN_UTF8 in Hl. destruct (Z.leb_spec 256 (len u)); lia.
Qed.

Ltac fun_field lem :=
  match goal with
  | |- context [bindC ?m ?k ?s] =>
      erewrite (bindC_Done m k s) by (apply lem; first [done | at_tac | autorewrite with len in *; lia])
  end.

Lemma decode_new_fun_ok skip malloc p p0 b i s :
  fun_ok p -> is_byte (fun_arity p) -> is_int32 (fun_index p) ->
  is_int32 (fun_n_free_vars p) -> is_uint32 (pid_creation (fun_pid p)) ->
  malloc (len (fun_free_vars p)) = true ->
  0 <= i -> i + len (ext_new_fun p) <= int_max -> at_ s (b + i) (ext_new_fun p) ->
  ei_decode_fun skip malloc (Some p0) b i s
  = Some (Done (i + len (ext_new_fun p))
            (Some (fun_sent p (fun_md5 p) (fun_old_index p)))).
Proof.
  intros (Hm & Hn & _ & Hoi & Hu & Hv & Hmd & H16) Har Hix Hnf Hc Hma Hi Hl Ha.
  unfold ext_new_fun, ext_fun_head, ext_fun_tail in *. apply name_text in Hm as [Hm1 Hm2].
  apply at_app in Ha as [Ha0 Ha]. apply at_app in Ha as [Ha1 Ha].
  apply at_app in Ha as [Hh Ha]. repeat (apply at_app in Ha as [? Ha]).
  apply at_cons in Hh as [Hh0 Hh]. apply at_app in Hh as [Hh1 Hh].
  apply at_app in Hh as [Hh2 Hh].
  unfold ei_decode_fun. rewrite bool_decide_true by by eexists.
  autorewrite with len in *. change (len [_]) with 1 in *.
  rstep. rstep. rewrite int32_small by (unfold is_int32, int_max in *; lia).
  rstep. rewrite (byte_small (fun_arity p)) by done.
  replace 16%nat with (length (fun_md5 p)) by lia.
  erewrite bindD_Some by (apply load_n_at; at_tac).
  rstep. rewrite (int32_small (fun_index p)) by done.
  rstep. rewrite (int32_small (fun_n_free_vars p)) by done.
  fun_field (decode_module (c_str (fun_module p))). fun_field (decode_long_ok _ Hoi). fun_field (decode_long_ok _ Hu).
  fun_field (decode_pid_ok _ Hn Hc). cbn [out at_text at_was].
  set (n := int32 _). assert (Hlen : n = len (fun_free_vars p))
    by (unfold n; rewrite int32_small; unfold is_int32, int_max in *; lia).
  rewrite Hlen. rewrite (proj2 (Z.ltb_ge _ _)), Hma, andb_false_r by lia. cbn [andb].
  unfold fun_sent.
  destruct (Z.ltb_spec 0 (len (fun_free_vars p))) as [Hp | Hp].
  - erewrite bindD_Some by (apply load_bytes_at; at_tac). unfold retD.
    rewrite index_add_ok by lia. do 2 f_equal. lia.
  - destruct (fun_free_vars p); [| simpl in Hp; lia]. rewrite bindD_ret. unfold retD.
    cbn [length] in *. rewrite index_add_ok by lia. do 2 f_equal. lia.
Qed.

(** In the old form the environment is a sequence of terms, which the decoder
    skips; it has no digest and no index of its own. *)
Lemma decode_old_fun_ok skip malloc p p0 ts b i s :
  fun_ok p -> fun_arity p = -1 -> is_uint32 (pid_creation (fun_pid p)) ->
  fun_free_vars p = concat ts -> fun_n_free_vars p = len ts -> len ts <= int_max ->
  Forall (Skips skip) ts -> malloc (len (fun_free_vars p)) = true ->
  0 <= i -> i + len (ext_old_fun p) <= int_max -> at_ s (b + i) (ext_old_fun p) ->
  ei_decode_fun skip malloc (Some p0) b i s
  = Some (Done (i + len (ext_old_fun p))
            (Some (fun_sent p (fun_md5 p0) (fun_old_index p0)))).
Proof.
  intros (Hm & Hn & Hix & _ & Hu & Hv & _) Har Hc Hts Hnf Hmax Hsk Hma Hi Hl Ha.
  unfold ext_old_fun in *. apply name_text in Hm as [Hm1 Hm2].
  apply at_app in Ha as [Ha0 Ha]. repeat (apply at_app in Ha as [? Ha]).
  apply at_cons in Ha0 as [Ha0 Ha1].
  unfold ei_decode_fun. rewrite bool_decide_true by by eexists.
  autorewrite with len in *. change (len [_]) with 1 in *.
  rstep. rstep. rewrite Hnf, int32_small by (unfold is_int32, int_max in *; lia).
  fun_field (decode_pid_ok _ Hn Hc). fun_field (decode_module (c_str (fun_module p))).
  fun_field (decode_long_ok _ Hix). fun_field (decode_long_ok _ Hu).
  cbn [out at_text at_was]. rewrite Nat2Z.id, Hts in *.
  erewrite bindD_Some by
    (apply skip_checked_ok; [done | lia | autorewrite with len in *; lia | at_tac]).
  cbv beta iota. match goal with |- context [malloc (?x + ?y - ?x)] =>
    replace (x + y - x) with y by lia end.
  rewrite Hma. cbn [andb negb].
  erewrite bindD_Some by (apply load_bytes_at; at_tac). unfold retD, fun_sent.
  rewrite Har, Hts, Hnf, index_add_ok by lia. do 2 f_equal. lia.
Qed.

(** ** Input that is no term

    The length of a binary is an [int]: a length with its top bit set moves the
    index backwards. [[108,0,0,0,2]] announces two elements; the first is a
    binary whose length leads back to the list, so the second is the list
    itself. *)
Definition loop_buf : list Z := [108; 0; 0; 0; 2; 109; 255; 255; 255; 246].

Lemma loop_binary sscanf_lf fuel :
  ei_skip_term sscanf_lf (S fuel) 0 5 loop_buf = Some (0, 0).
Proof. reflexivity. Qed.

Lemma loop_list_step sscanf_lf fuel :
  ei_skip_term sscanf_lf (S fuel) 0 0 loop_buf
  = bindD (skip_elems (ei_skip_term sscanf_lf fuel) 2 0 5)
      (fun index =>
       let+ (ty, _) := ei_get_type_internal 0 0 index in
       if negb (ty =? ERL_NIL_EXT) then
         let+ (_, index) := ei_skip_term sscanf_lf fuel 0 index in retD (0, index)
       else rc_of index (ei_decode_list_header true 0 index)) loop_buf.
Proof. reflexivity. Qed.

Lemma loop_never_returns sscanf_lf fuel : ei_skip_term sscanf_lf fuel 0 0 loop_buf = None.
Proof.
  induction fuel as [| fuel IH]; [done |]. rewrite loop_list_step.
  destruct fuel as [| fuel]; [done |]. cbn [skip_elems].
  unfold bindD at 1 2. rewrite loop_binary. unfold bindD at 1. by rewrite IH.
Qed.

(** What the calls for the elements of a tuple return is not looked at: a
    tuple of one element with an unknown tag is skipped, up to the element. *)
Lemma skip_bad_element sscanf_lf :
  ei_skip_term sscanf_lf 2 0 0 [ERL_SMALL_TUPLE_EXT; 1; 0] = Some (0, 2) /\
  ei_skip_term sscanf_lf 1 0 2 [ERL_SMALL_TUPLE_EXT; 1; 0] = Some (-1, 2).
Proof. by split. Qed.
