(* ===== verification/XBuff.v ===== *)
(** * The self-expanding buffer: ei_x_encode.c

    [ei_x_buff] holds an allocated block, its size and the index of its end.
    Every [ei_x_encode_*] measures the term with a NULL buffer, makes room,
    and encodes at the end. *)

From S2P Require Import Prelude Mem PutGet Ext Headers Ints Atom Data Ids Big Term.

(** [buff] is the block [x->buff] points to, [None] for NULL. *)
Record ei_x_buff := XBuff { buff : option (list Z); buffsz : Z; index : Z }.

Definition ei_x_extra : Z := 100.

Section XBuff.
(** [malloc]: the block of the size asked for, with whatever it holds, or
    NULL. *)
Context (malloc : Z -> option (list Z)).

(** [realloc]: the bytes up to the smaller size are kept. *)
Definition realloc (p : option (list Z)) (sz : Z) : option (list Z) :=
  match malloc sz with
  | None => None
  | Some fresh =>
      let old := take (length fresh) (default [] p) in
      Some (old ++ drop (length old) fresh)
  end.

(** The struct handed to [ei_x_new] holds nothing yet. *)
Definition ei_x_new : Z * ei_x_buff :=
  let x := XBuff (malloc ei_x_extra) ei_x_extra 0 in
  (match buff x with Some _ => 0 | None => -1 end, x).

Definition ei_x_free (x : ei_x_buff) : Z * ei_x_buff :=
  match buff x with
  | None => (-1, x)
  | Some _ => (0, XBuff None (buffsz x) (index x))
  end.

Definition x_fix_buff (x : ei_x_buff) (szneeded : Z) : bool * ei_x_buff :=
  let sz := int32 (szneeded + ei_x_extra) in
  let x :=
    (if buffsz x <? sz then
       let sz := int32 (sz + ei_x_extra) in
       XBuff (realloc (buff x) sz) sz (index x)
     else x) in
  (match buff x with Some _ => true | None => false end, x).

(** [f(x->buff, &x->index, ...)]; [None] is undefined. *)
Definition encode_at (f : ptr -> Z -> M (Z * Z)) (x : ei_x_buff) : option (Z * ei_x_buff) :=
  match buff x with
  | None =>
      match f NULL (index x) [] with
      | Some ((rc, i), _) => Some (rc, XBuff None (buffsz x) i)
      | None => None
      end
  | Some blk =>
      match f (at_off 0) (index x) blk with
      | Some ((rc, i), blk) => Some (rc, XBuff (Some blk) (buffsz x) i)
      | None => None
      end
  end.

Definition ei_x_new_with_version : option (Z * ei_x_buff) :=
  let (rc, x) := ei_x_new in
  if rc <? 0 then Some (-1, x) else encode_at ei_encode_version x.

Definition ei_x_append_buf (x : ei_x_buff) (buf : list Z) (len : Z)
    : option (Z * ei_x_buff) :=
  let (ok, x) := x_fix_buff x (int32 (index x + len)) in
  if negb ok then Some (-1, x) else
  match buff x with
  | None => None
  | Some blk =>
      match (let* src := src_bytes buf len in
             memcpy_if (at_off 0) (padd (at_off 0) (index x)) src len) blk with
      | Some (_, blk) => Some (0, XBuff (Some blk) (buffsz x) (int32 (index x + len)))
      | None => None
      end
  end.

(** [x2] is another buffer: appending a buffer to itself reads the block the
    reallocation may have freed. *)
Definition ei_x_append (x x2 : ei_x_buff) : option (Z * ei_x_buff) :=
  match buff x2 with
  | Some b2 => ei_x_append_buf x b2 (index x2)
  | None => if index x2 =? 0 then ei_x_append_buf x [] 0 else None
  end.

(** [if (!x_fix_buff(x, i)) return -1; return f(x->buff, &x->index, ...);] *)
Definition x_store (f : ptr -> Z -> M (Z * Z)) (x : ei_x_buff) (i : Z)
    : option (Z * ei_x_buff) :=
  let (ok, x) := x_fix_buff x i in
  if negb ok then Some (-1, x) else encode_at f x.

(** The common body of the encoders: the first call measures the term with
    [i], a copy of the index. *)
Definition ei_x_encode (f : ptr -> Z -> M (Z * Z)) (x : ei_x_buff)
    : option (Z * ei_x_buff) :=
  let i := index x in
  match f NULL i [] with
  | None => None
  | Some ((rc, i), _) =>
      if rc =? -1 then Some (-1, x) else x_store f x i
  end.

(** [ei_x_encode_longlong], [ei_x_encode_ulonglong] and [ei_x_encode_big] do
    not look at what the measuring call returns. *)
Definition ei_x_encode_unchecked (f : ptr -> Z -> M (Z * Z)) (x : ei_x_buff)
    : option (Z * ei_x_buff) :=
  match f NULL (index x) [] with
  | None => None
  | Some ((_, i), _) => x_store f x i
  end.

Definition ei_x_encode_string_len (x : ei_x_buff) (s : list Z) (len : Z) :=
  ei_x_encode (ei_encode_string_len s len) x.
Definition ei_x_encode_string (x : ei_x_buff) (s : list Z) :=
  ei_x_encode_string_len x s (strlen s).
Definition ei_x_encode_binary (x : ei_x_buff) (p : list Z) (len : Z) :=
  ei_x_encode (ei_encode_binary p len) x.
Definition ei_x_encode_long (x : ei_x_buff) (n : Z) := ei_x_encode (ei_encode_long n) x.
Definition ei_x_encode_ulong (x : ei_x_buff) (n : Z) := ei_x_encode (ei_encode_ulong n) x.
Definition ei_x_encode_longlong (x : ei_x_buff) (n : Z) :=
  ei_x_encode_unchecked (ei_encode_longlong n) x.
Definition ei_x_encode_ulonglong (x : ei_x_buff) (n : Z) :=
  ei_x_encode_unchecked (ei_encode_ulonglong n) x.
Definition ei_x_encode_char (x : ei_x_buff) (p : Z) := ei_x_encode (ei_encode_char p) x.
Definition ei_x_encode_boolean (x : ei_x_buff) (p : Z) :=
  ei_x_encode (ei_encode_boolean p) x.
Definition ei_x_encode_double (x : ei_x_buff) (dbl : Z) :=
  ei_x_encode (ei_encode_double dbl) x.
Definition ei_x_encode_list_header (x : ei_x_buff) (n : Z) :=
  ei_x_encode (ei_encode_list_header (int32 n)) x.
Definition ei_x_encode_empty_list (x : ei_x_buff) := ei_x_encode ei_encode_empty_list x.
Definition ei_x_encode_version (x : ei_x_buff) := ei_x_encode ei_encode_version x.
Definition ei_x_encode_tuple_header (x : ei_x_buff) (n : Z) :=
  ei_x_encode (ei_encode_tuple_header (int32 n)) x.
Definition ei_x_encode_map_header (x : ei_x_buff) (n : Z) :=
  ei_x_encode (ei_encode_map_header (int32 n)) x.
Definition ei_x_encode_atom_len_as (x : ei_x_buff) (s : list Z) (len : Z)
    (from_enc to_enc : erlang_char_encoding) :=
  ei_x_encode (ei_encode_atom_len_as s len from_enc to_enc) x.
Definition ei_x_encode_atom (x : ei_x_buff) (s : list Z) :=
  ei_x_encode_atom_len_as x s (strlen s) ERLANG_LATIN1 ERLANG_LATIN1.
Definition ei_x_encode_atom_len (x : ei_x_buff) (s : list Z) (len : Z) :=
  ei_x_encode_atom_len_as x s len ERLANG_LATIN1 ERLANG_LATIN1.
Definition ei_x_encode_atom_as (x : ei_x_buff) (s : list Z)
    (from_enc to_enc : erlang_char_encoding) :=
  ei_x_encode_atom_len_as x s (strlen s) from_enc to_enc.
Definition ei_x_encode_pid (x : ei_x_buff) (pid : erlang_pid) :=
  ei_x_encode (ei_encode_pid pid) x.
Definition ei_x_encode_fun (x : ei_x_buff) (f : erlang_fun) :=
  ei_x_encode (ei_encode_fun f) x.
Definition ei_x_encode_ref (x : ei_x_buff) (ref : erlang_ref) :=
  ei_x_encode (ei_encode_ref ref) x.
Definition ei_x_encode_port (x : ei_x_buff) (port : erlang_port) :=
  ei_x_encode (ei_encode_port port) x.
Definition ei_x_encode_trace (x : ei_x_buff) (trace : erlang_trace) :=
  ei_x_encode (ei_encode_trace trace) x.
Definition ei_x_encode_big (x : ei_x_buff) (big : erlang_big) :=
  ei_x_encode_unchecked (ei_encode_big big) x.

(** ** What the buffer holds *)

Definition contents (x : ei_x_buff) : list Z :=
  take (Z.to_nat (index x)) (default [] (buff x)).

(** The invariant: an allocated block of [buffsz] bytes, the end inside it. *)
Definition x_ok (x : ei_x_buff) : Prop :=
  exists blk, buff x = Some blk /\ len blk = buffsz x /\ 0 <= index x <= buffsz x.

Lemma contents_len x : x_ok x -> len (contents x) = index x.
Proof.
  intros (blk & Hb & Hl & Hi). unfold contents. rewrite Hb. cbn.
  rewrite length_take. lia.
Qed.

(** What the code needs of the allocator: the size asked for. *)
Context (malloc_size : forall n blk, malloc n = Some blk -> len blk = n).

Lemma x_new_ok x : ei_x_new = (0, x) -> x_ok x /\ contents x = [].
Proof.
  unfold ei_x_new. cbn [buff]. destruct (malloc ei_x_extra) as [blk |] eqn:E; [| done].
  intros [= <-]. split; [| done]. exists blk. cbn.
  unfold ei_x_extra in *. split; [done |]. split; [by apply malloc_size | lia].
Qed.

Lemma realloc_ok blk sz r :
  realloc (Some blk) sz = Some r -> len blk <= sz ->
  len r = sz /\ forall n, (n <= length blk)%nat -> take n r = take n blk.
Proof.
  unfold realloc. destruct (malloc sz) as [fresh |] eqn:E; [| done].
  apply malloc_size in E. intros [= <-] Hl. cbn [default from_option id].
  rewrite take_ge by lia. split.
  - rewrite len_app, length_drop. lia.
  - intros n Hn. by rewrite take_app_le.
Qed.

(** Making room keeps what the buffer holds, and leaves 100 bytes and more
    beyond what was asked for. The allocation can only fail when the block
    has to grow. *)
Lemma fix_buff_ok x n :
  x_ok x -> index x <= n -> n + 2 * ei_x_extra <= int_max ->
  let (ok, x') := x_fix_buff x n in
  index x' = index x /\
  (if ok then x_ok x' /\ contents x' = contents x /\ n + ei_x_extra <= buffsz x'
   else buff x' = None /\ buffsz x < n + ei_x_extra /\ malloc (n + 2 * ei_x_extra) = None).
Proof.
  intros (blk & Hb & Hl & Hi) Hn Hmax. unfold x_fix_buff, ei_x_extra, int_max in *.
  rewrite (int32_small (n + 100)) by (unfold is_int32; lia).
  rewrite (int32_small (n + 100 + 100)) by (unfold is_int32; lia).
  destruct (Z.ltb_spec (buffsz x) (n + 100)) as [Hs | Hs]; cbn [buff index buffsz].
  - rewrite Hb. destruct (realloc (Some blk) (n + 100 + 100)) as [r |] eqn:E.
    2:{ split; [done |]. split; [done |]. split; [lia |].
        unfold realloc in E. replace (n + 2 * 100) with (n + 100 + 100) by lia.
        by destruct (malloc (n + 100 + 100)). }
    apply realloc_ok in E as [Hr Ht]; [| lia].
    split; [done |]. split; [| split; [| lia]].
    + exists r. cbn. split; [done | split; [done | lia]].
    + unfold contents. cbn [buff index default from_option id]. rewrite Hb.
      apply Ht. lia.
  - rewrite Hb. split; [done |]. split; [by exists blk | split; [done | lia]].
Qed.

Lemma fix_buff_size x n : buffsz x <= int_max -> buffsz (x_fix_buff x n).2 <= int_max.
Proof.
  intros Hz. unfold x_fix_buff. cbn [snd]. destruct (_ <? _); cbn [buffsz]; [| done].
  pose proof (int32_range (int32 (n + ei_x_extra) + ei_x_extra)).
  unfold is_int32, int_max in *. lia.
Qed.

Lemma encode_at_ok f bs x :
  Encodes f bs -> x_ok x -> index x + len bs <= buffsz x -> buffsz x <= int_max ->
  exists x', encode_at f x = Some (0, x') /\ x_ok x' /\ buffsz x' = buffsz x /\
    contents x' = contents x ++ bs.
Proof.
  intros Hf (blk & Hb & Hl & Hi) Hr Hm. unfold encode_at. rewrite Hb.
  assert (Hfit : fits blk (0 + index x) bs) by (split; lia).
  rewrite (encodes_buf 0 (index x) blk) by (done || lia).
  eexists. split; [done |]. rewrite Z.add_0_l in *. split; [| split; [done |]].
  - eexists. cbn. split; [done |].
    rewrite (length_splice blk (index x) bs Hfit). split; [done | lia].
  - unfold contents. cbn [buff index default from_option id]. rewrite Hb.
    by apply take_splice.
Qed.

(** The encoders append. *)
Lemma x_encode_ok f bs x :
  Encodes f bs -> x_ok x -> index x + len bs + 2 * ei_x_extra <= int_max ->
  buffsz x <= int_max ->
  exists rc x', ei_x_encode f x = Some (rc, x') /\
    ((rc = 0 /\ x_ok x' /\ contents x' = contents x ++ bs /\ buffsz x' <= int_max) \/
     (rc = -1 /\ buff x' = None /\ index x' = index x /\
      buffsz x < index x + len bs + ei_x_extra /\
      malloc (index x + len bs + 2 * ei_x_extra) = None)).
Proof.
  intros Hf Hx Hm Hz. pose proof Hx as (blk & Hb & Hl & Hi). unfold ei_x_encode.
  unfold ei_x_extra in Hm.
  rewrite (encodes_null (f := f) (bs := bs)) by lia.
  change (0 =? -1) with false. cbv beta iota. unfold x_store.
  pose proof (fix_buff_ok x (index x + len bs) Hx) as H.
  pose proof (fix_buff_size x (index x + len bs) Hz) as Hsz.
  destruct (x_fix_buff x (index x + len bs)) as [ok x1]. cbn [snd] in Hsz.
  destruct H as [Hix H]; [lia | unfold ei_x_extra; lia |].
  destruct ok; cbn [negb].
  - destruct H as (H1 & Hc & Hroom). unfold ei_x_extra in Hroom.
    destruct (encode_at_ok f bs x1 Hf H1) as (x' & He & Hx' & Hbz & Hcx); [lia | done |].
    exists 0, x'. rewrite He. split; [done |]. left.
    rewrite Hcx, Hc, Hbz. done.
  - destruct H as (Hnone & Hgrow & Hm0). exists (-1), x1. split; [done |]. right. auto.
Qed.

(** An encoder that refuses leaves the buffer as it was. *)
Lemma x_encode_refuses f x : Refuses f -> ei_x_encode f x = Some (-1, x).
Proof.
  intros Hf. unfold ei_x_encode. destruct (Hf NULL (index x) []) as [i' ->]. done.
Qed.

Lemma unchecked_ok f bs x : Encodes f bs -> 0 <= index x -> index x + len bs <= int_max ->
  ei_x_encode_unchecked f x = ei_x_encode f x.
Proof.
  intros Hf Hi Hm. unfold ei_x_encode_unchecked, ei_x_encode.
  by rewrite (encodes_null (f := f) (bs := bs)).
Qed.

Lemma x_append_ok x buf n :
  x_ok x -> Forall is_byte (take (Z.to_nat n) buf) -> 0 <= n <= len buf ->
  index x + n + 2 * ei_x_extra <= int_max -> buffsz x <= int_max ->
  exists rc x', ei_x_append_buf x buf n = Some (rc, x') /\
    ((rc = 0 /\ x_ok x' /\ contents x' = contents x ++ take (Z.to_nat n) buf /\
      buffsz x' <= int_max) \/
     (rc = -1 /\ buff x' = None /\ malloc (index x + n + 2 * ei_x_extra) = None)).
Proof.
  intros Hx Hbuf Hn Hm Hz. pose proof Hx as (blk & Hb & Hl & Hi).
  unfold ei_x_append_buf. unfold ei_x_extra in Hm.
  rewrite int32_small by (unfold is_int32, int_max in *; lia).
  pose proof (fix_buff_ok x (index x + n) Hx) as H.
  pose proof (fix_buff_size x (index x + n) Hz) as Hsz.
  destruct (x_fix_buff x (index x + n)) as [ok x1].
  destruct H as [Hix H]; [lia | unfold ei_x_extra; lia |].
  destruct ok; cbn [negb]; [| exists (-1), x1; split; [done |]; right; tauto].
  destruct H as ((blk1 & Hb1 & Hl1 & Hi1) & Hc & Hroom). unfold ei_x_extra in Hroom.
  rewrite Hb1. unfold src_bytes. rewrite (proj2 (Z.leb_le _ _)), bindM_ret by lia.
  unfold memcpy_if. cbn [isnull nonnull at_off negb].
  rewrite (proj2 (Z.ltb_ge _ _)) by lia.
  set (bs := take (Z.to_nat n) buf).
  assert (Hbs : len bs = n) by (unfold bs; rewrite length_take; lia).
  assert (Hfit : fits blk1 (index x1) bs) by (split; lia).
  change (padd (at_off 0) (index x1)) with (at_off (index x1)).
  rewrite (memcpy_ok bs blk1 (index x1)) by done.
  rewrite bytes_id by done.
  eexists 0, _. split; [done |]. left. split; [done |].
  rewrite int32_small by (unfold is_int32, int_max in *; lia). split.
  - eexists. cbn. split; [done |].
    rewrite (length_splice blk1 (index x1) bs Hfit). split; [done | lia].
  - rewrite <- Hc. unfold contents. cbn [buff index default from_option id]. rewrite Hb1, <- Hbs.
    split; [by apply take_splice | done].
Qed.
End XBuff.
