(* ===== verification/MD5.v ===== *)
(** * MD5

    misc/eimd5.c: the digest that the handshake between nodes uses, computed
    piece by piece. An unsigned int is a [Z] in 0..2^32-1, with each operation
    that can leave that range wrapped. *)

From S2P Require Import Prelude Mem.

Definition S11 : Z := 7.
Definition S12 : Z := 12.
Definition S13 : Z := 17.
Definition S14 : Z := 22.
Definition S21 : Z := 5.
Definition S22 : Z := 9.
Definition S23 : Z := 14.
Definition S24 : Z := 20.
Definition S31 : Z := 4.
Definition S32 : Z := 11.
Definition S33 : Z := 16.
Definition S34 : Z := 23.
Definition S41 : Z := 6.
Definition S42 : Z := 10.
Definition S43 : Z := 15.
Definition S44 : Z := 21.

Definition PADDING : list Z := 0x80 :: repeat 0 63.

(** [~x] of an unsigned int. *)
Definition bnot (x : Z) : Z := uint32 (Z.lnot x).

Definition F (x y z : Z) : Z := Z.lor (Z.land x y) (Z.land (bnot x) z).
Definition G (x y z : Z) : Z := Z.lor (Z.land x z) (Z.land y (bnot z)).
Definition H (x y z : Z) : Z := Z.lxor (Z.lxor x y) z.
Definition I (x y z : Z) : Z := Z.lxor y (Z.lor x (bnot z)).

Definition ROTATE_LEFT (x n : Z) : Z :=
  Z.lor (uint32 (Z.shiftl x n)) (Z.shiftr x (32 - n)).

(** The macros FF, GG, HH and II: the new value of [a]. *)
Definition FF (a b c d x s ac : Z) : Z :=
  let a := uint32 (a + uint32 (uint32 (F b c d + x) + ac)) in
  let a := ROTATE_LEFT a s in
  uint32 (a + b).
Definition GG (a b c d x s ac : Z) : Z :=
  let a := uint32 (a + uint32 (uint32 (G b c d + x) + ac)) in
  let a := ROTATE_LEFT a s in
  uint32 (a + b).
Definition HH (a b c d x s ac : Z) : Z :=
  let a := uint32 (a + uint32 (uint32 (H b c d + x) + ac)) in
  let a := ROTATE_LEFT a s in
  uint32 (a + b).
Definition II (a b c d x s ac : Z) : Z :=
  let a := uint32 (a + uint32 (uint32 (I b c d + x) + ac)) in
  let a := ROTATE_LEFT a s in
  uint32 (a + b).

(** ** Bytes and words *)

(** [for (i = 0, j = 0; j < len; i++, j += 4)]: the bytes stored at [output]. *)
Fixpoint Encode (input : list Z) : list Z :=
  match input with
  | [] => []
  | w :: input =>
      Z.land w 0xff :: Z.land (Z.shiftr w 8) 0xff :: Z.land (Z.shiftr w 16) 0xff
      :: Z.land (Z.shiftr w 24) 0xff :: Encode input
  end.

(** The words stored at [output], [n] rounds of the loop; reading outside
    [input] is undefined. *)
Fixpoint Decode (n : nat) (input : list Z) : option (list Z) :=
  match n with
  | O => Some []
  | S n =>
      match input with
      | b0 :: b1 :: b2 :: b3 :: input =>
          ws ← Decode n input;
          Some (Z.lor (Z.lor (Z.lor b0 (uint32 (Z.shiftl b1 8))) (uint32 (Z.shiftl b2 16)))
                  (uint32 (Z.shiftl b3 24)) :: ws)
      | _ => None
      end
  end.

(** ** One block *)

(** An assignment: [v <~ e; k] goes on with the new value of [v]. *)
Definition assign {A} (e : Z) (k : Z -> A) : A := k e.
Notation "v '<~' e ';' k" := (assign e (fun v => k))
  (at level 20, e at level 100, k at level 200, right associativity,
   format "'[v' v  '<~'  e ';' '/' k ']'") : c_scope.

Definition md5_state : Type := Z * Z * Z * Z.

Definition MD5Transform (state : md5_state) (block : list Z) : option md5_state :=
  let '(state0, state1, state2, state3) := state in
  let a := state0 in
  let b := state1 in
  let c := state2 in
  let d := state3 in
  match Decode 16 block with
  | Some [x0; x1; x2; x3; x4; x5; x6; x7; x8; x9; x10; x11; x12; x13; x14; x15] =>
      (* round 1 *)
      a <~ FF a b c d x0 S11 0xd76aa478;
      d <~ FF d a b c x1 S12 0xe8c7b756;
      c <~ FF c d a b x2 S13 0x242070db;
      b <~ FF b c d a x3 S14 0xc1bdceee;
      a <~ FF a b c d x4 S11 0xf57c0faf;
      d <~ FF d a b c x5 S12 0x4787c62a;
      c <~ FF c d a b x6 S13 0xa8304613;
      b <~ FF b c d a x7 S14 0xfd469501;
      a <~ FF a b c d x8 S11 0x698098d8;
      d <~ FF d a b c x9 S12 0x8b44f7af;
      c <~ FF c d a b x10 S13 0xffff5bb1;
      b <~ FF b c d a x11 S14 0x895cd7be;
      a <~ FF a b c d x12 S11 0x6b901122;
      d <~ FF d a b c x13 S12 0xfd987193;
      c <~ FF c d a b x14 S13 0xa679438e;
      b <~ FF b c d a x15 S14 0x49b40821;
      (* round 2 *)
      a <~ GG a b c d x1 S21 0xf61e2562;
      d <~ GG d a b c x6 S22 0xc040b340;
      c <~ GG c d a b x11 S23 0x265e5a51;
      b <~ GG b c d a x0 S24 0xe9b6c7aa;
      a <~ GG a b c d x5 S21 0xd62f105d;
      d <~ GG d a b c x10 S22 0x2441453;
      c <~ GG c d a b x15 S23 0xd8a1e681;
      b <~ GG b c d a x4 S24 0xe7d3fbc8;
      a <~ GG a b c d x9 S21 0x21e1cde6;
      d <~ GG d a b c x14 S22 0xc33707d6;
      c <~ GG c d a b x3 S23 0xf4d50d87;
      b <~ GG b c d a x8 S24 0x455a14ed;
      a <~ GG a b c d x13 S21 0xa9e3e905;
      d <~ GG d a b c x2 S22 0xfcefa3f8;
      c <~ GG c d a b x7 S23 0x676f02d9;
      b <~ GG b c d a x12 S24 0x8d2a4c8a;
      (* round 3 *)
      a <~ HH a b c d x5 S31 0xfffa3942;
      d <~ HH d a b c x8 S32 0x8771f681;
      c <~ HH c d a b x11 S33 0x6d9d6122;
      b <~ HH b c d a x14 S34 0xfde5380c;
      a <~ HH a b c d x1 S31 0xa4beea44;
      d <~ HH d a b c x4 S32 0x4bdecfa9;
      c <~ HH c d a b x7 S33 0xf6bb4b60;
      b <~ HH b c d a x10 S34 0xbebfbc70;
      a <~ HH a b c d x13 S31 0x289b7ec6;
      d <~ HH d a b c x0 S32 0xeaa127fa;
      c <~ HH c d a b x3 S33 0xd4ef3085;
      b <~ HH b c d a x6 S34 0x4881d05;
      a <~ HH a b c d x9 S31 0xd9d4d039;
      d <~ HH d a b c x12 S32 0xe6db99e5;
      c <~ HH c d a b x15 S33 0x1fa27cf8;
      b <~ HH b c d a x2 S34 0xc4ac5665;
      (* round 4 *)
      a <~ II a b c d x0 S41 0xf4292244;
      d <~ II d a b c x7 S42 0x432aff97;
      c <~ II c d a b x14 S43 0xab9423a7;
      b <~ II b c d a x5 S44 0xfc93a039;
      a <~ II a b c d x12 S41 0x655b59c3;
      d <~ II d a b c x3 S42 0x8f0ccc92;
      c <~ II c d a b x10 S43 0xffeff47d;
      b <~ II b c d a x1 S44 0x85845dd1;
      a <~ II a b c d x8 S41 0x6fa87e4f;
      d <~ II d a b c x15 S42 0xfe2ce6e0;
      c <~ II c d a b x6 S43 0xa3014314;
      b <~ II b c d a x13 S44 0x4e0811a1;
      a <~ II a b c d x4 S41 0xf7537e82;
      d <~ II d a b c x11 S42 0xbd3af235;
      c <~ II c d a b x2 S43 0x2ad7d2bb;
      b <~ II b c d a x9 S44 0xeb86d391;
      Some (uint32 (state0 + a), uint32 (state1 + b), uint32 (state2 + c), uint32 (state3 + d))
  | _ => None
  end.

(** ** The context *)

Record MD5_CTX := Ctx { state : md5_state; count0 : Z; count1 : Z; buffer : list Z }.

(** [buffer] is what the array happens to hold. *)
Definition ei_MD5Init (buffer : list Z) : MD5_CTX :=
  Ctx (0x67452301, 0xefcdab89, 0x98badcfe, 0x10325476) 0 0 buffer.

(** [for (i = partLen; i + 63 < inputLen; i += 64) MD5Transform(state, &input[i]);]
    with at most [fuel] rounds; the last [i]. *)
Fixpoint transform_from (fuel : nat) (state : md5_state) (input : list Z) (i inputLen : Z)
    : option (md5_state * Z) :=
  if uint32 (i + 63) <? inputLen then
    match fuel with
    | O => None
    | S fuel =>
        blk ← load_bytes i 64 input;
        state ← MD5Transform state blk;
        transform_from fuel state input (uint32 (i + 64)) inputLen
    end
  else Some (state, i).

(** [memcpy(&buffer[index], &input[i], n)] *)
Definition copy_in (buffer : list Z) (index : Z) (input : list Z) (i n : Z)
    : option (list Z) :=
  bs ← load_bytes i n input;
  r ← memcpy (at_off index) bs buffer;
  Some r.2.

Definition ei_MD5Update (context : MD5_CTX) (input : list Z) (inputLen : Z)
    : option MD5_CTX :=
  let index := Z.land (Z.shiftr (count0 context) 3) 0x3F in
  let bits := uint32 (Z.shiftl inputLen 3) in
  let c0 := uint32 (count0 context + bits) in
  let c1 := if c0 <? bits then uint32 (count1 context + 1) else count1 context in
  let c1 := uint32 (c1 + Z.shiftr inputLen 29) in
  let partLen := 64 - index in
  '(st, buf, index, i) ←
    (if partLen <=? inputLen then
       buf ← copy_in (buffer context) index input 0 partLen;
       st ← MD5Transform (state context) buf;
       '(st, i) ← transform_from (Z.to_nat (inputLen / 64)) st input partLen inputLen;
       Some (st, buf, 0, i)
     else Some (state context, buffer context, index, 0));
  buf ← copy_in buf index input i (inputLen - i);
  Some (Ctx st c0 c1 buf).

Definition md5_words (st : md5_state) : list Z :=
  let '(a, b, c, d) := st in [a; b; c; d].

(** The digest, and the context set to zero. *)
Definition ei_MD5Final (context : MD5_CTX) : option (list Z * MD5_CTX) :=
  let bits := Encode [count0 context; count1 context] in
  let index := Z.land (Z.shiftr (count0 context) 3) 0x3f in
  let padLen := if index <? 56 then 56 - index else 120 - index in
  context ← ei_MD5Update context PADDING padLen;
  context ← ei_MD5Update context bits 8;
  let digest := Encode (md5_words (state context)) in
  Some (digest, Ctx (0, 0, 0, 0) 0 0 (repeat 0 64)).
