(* ===== verification/MD5Ok.v ===== *)
(** * The MD5 algorithm, and that MD5.v computes it

    The algorithm of RFC 1321 on a whole message, with its rounds as a loop over
    a table; the steps that eimd5.c writes out one by one are that loop, and
    feeding a message in pieces gives its digest. *)

From S2P Require Import Prelude Mem PutGet MD5.

(** ** The algorithm *)

(** [x * p / q] is the sum of the first [n + 1] terms of the series of
    [sin x]. *)
Fixpoint sine_ratio (n : nat) (k x : Z) : Z * Z :=
  match n with
  | O => (1, 1)
  | S n =>
      let '(p, q) := sine_ratio n (k + 1) x in
      let q := 2 * k * (2 * k + 1) * q in (q - x * x * p, q)
  end.

(** [2^32 * |sin i|], without its fraction; what [41 + i] terms leave out is below
    10^-16 for [i] up to 64. *)
Definition sine_word (i : Z) : Z :=
  let '(p, q) := sine_ratio (Z.to_nat (40 + i)) 1 i in Z.abs (i * p) * 2 ^ 32 / q.

(** Step [i] of the 64: the round, the word it takes, its rotation and its
    constant. *)
Definition md5_word_of (i : nat) : nat :=
  (match i / 16 with
   | 0 => i mod 16
   | 1 => (5 * i + 1) mod 16
   | 2 => (3 * i + 5) mod 16
   | _ => (7 * i) mod 16
   end)%nat.

Definition md5_shift_of (i : nat) : Z :=
  nth (4 * (i / 16) + i mod 4)%nat [7; 12; 17; 22; 5; 9; 14; 20; 4; 11; 16; 23; 6; 10; 15; 21] 0.

Definition md5_steps : list (nat * nat * Z * Z) :=
  (fun i => ((i / 16)%nat, md5_word_of i, md5_shift_of i, sine_word (Z.of_nat i + 1))) <$> seq 0 64.

Definition not32 (x : Z) : Z := (- 1 - x) mod 2 ^ 32.
Definition rotl (s x : Z) : Z := x * 2 ^ s mod 2 ^ 32 + x / 2 ^ (32 - s).

Definition md5_mix (round : nat) (b c d : Z) : Z :=
  match round with
  | 0%nat => Z.lor (Z.land b c) (Z.land (not32 b) d)
  | 1%nat => Z.lor (Z.land b d) (Z.land c (not32 d))
  | 2%nat => Z.lxor (Z.lxor b c) d
  | _ => Z.lxor c (Z.lor b (not32 d))
  end.

Definition md5_step (xs : list Z) (st : md5_state) (step : nat * nat * Z * Z) : md5_state :=
  let '(a, b, c, d) := st in
  let '(round, k, s, t) := step in
  (d, (b + rotl s ((a + md5_mix round b c d + nth k xs 0 + t) mod 2 ^ 32)) mod 2 ^ 32, b, c).

Definition md5_add (st st' : md5_state) : md5_state :=
  let '(a, b, c, d) := st in
  let '(a', b', c', d') := st' in
  ((a + a') mod 2 ^ 32, (b + b') mod 2 ^ 32, (c + c') mod 2 ^ 32, (d + d') mod 2 ^ 32).

Definition md5_block (st : md5_state) (xs : list Z) : md5_state :=
  md5_add st (fold_left (md5_step xs) md5_steps st).

(** The little-endian words of a list of bytes. *)
Fixpoint words_of (n : nat) (bs : list Z) : list Z :=
  match n with
  | O => []
  | S n => le_val (take 4 bs) :: words_of n (drop 4 bs)
  end.

(** [n] blocks of 64 bytes. *)
Fixpoint md5_run (n : nat) (st : md5_state) (bs : list Z) : md5_state :=
  match n with
  | O => st
  | S n => md5_run n (md5_block st (words_of 16 (take 64 bs))) (drop 64 bs)
  end.

Definition md5_init : md5_state := (0x67452301, 0xefcdab89, 0x98badcfe, 0x10325476).

Definition md5_pad (msg : list Z) : list Z :=
  msg ++ [0x80] ++ repeat 0 (Z.to_nat ((55 - len msg) mod 64)) ++ le_bytes 8 (8 * len msg).

Definition md5 (msg : list Z) : list Z :=
  let bs := md5_pad msg in
  md5_words (md5_run (length bs / 64) md5_init bs) ≫= le_bytes 4.

(** ** The operations on words *)

Lemma bnot_not32 x : bnot x = not32 x.
Proof. unfold bnot, not32, uint32, uwrap, Z.lnot. f_equal. lia. Qed.

Lemma rotate_ok x s : is_uint32 x -> 0 < s < 32 -> ROTATE_LEFT x s = rotl s x.
Proof.
  unfold is_uint32, ROTATE_LEFT, rotl, uint32, uwrap. intros Hx Hs.
  rewrite Z.shiftl_mul_pow2, Z.shiftr_div_pow2 by lia.
  assert (H32 : 2 ^ 32 = 2 ^ (32 - s) * 2 ^ s) by (rewrite <- Z.pow_add_r by lia; f_equal; lia).
  assert (0 < 2 ^ s) by (apply Z.pow_pos_nonneg; lia).
  assert (0 < 2 ^ (32 - s)) by (apply Z.pow_pos_nonneg; lia).
  apply (lor_add s); [lia | |].
  - rewrite H32, Z.mul_mod_distr_r by lia. by rewrite Z.mod_mul by lia.
  - split; [apply Z.div_pos; lia |]. apply Z.div_lt_upper_bound; [lia |].
    change 4294967296 with (2 ^ 32) in Hx. lia.
Qed.

Lemma sum_ok a m x t :
  uint32 (a + uint32 (uint32 (m + x) + t)) = (a + m + x + t) mod 2 ^ 32.
Proof.
  unfold uint32, uwrap. rewrite Zplus_mod_idemp_r.
  rewrite (Z.add_assoc a), (Z.add_comm a), <- Z.add_assoc, Zplus_mod_idemp_l.
  f_equal. lia.
Qed.

Section Steps.
Context (xs : list Z) (a b c d s t : Z) (k : nat) (Hs : 0 < s < 32).

Lemma mixed m :
  uint32 (ROTATE_LEFT (uint32 (a + uint32 (uint32 (m + nth k xs 0) + t))) s + b) =
  (b + rotl s ((a + m + nth k xs 0 + t) mod 2 ^ 32)) mod 2 ^ 32.
Proof.
  rewrite sum_ok, rotate_ok; [| by apply Z.mod_pos_bound | done].
  unfold uint32, uwrap. f_equal. lia.
Qed.

Lemma step_FF x : nth k xs 0 = x ->
  md5_step xs (a, b, c, d) (0%nat, k, s, t) = (d, FF a b c d x s t, b, c).
Proof. intros <-. unfold FF, F. rewrite bnot_not32, mixed; done. Qed.
Lemma step_GG x : nth k xs 0 = x ->
  md5_step xs (a, b, c, d) (1%nat, k, s, t) = (d, GG a b c d x s t, b, c).
Proof. intros <-. unfold GG, G. rewrite bnot_not32, mixed; done. Qed.
Lemma step_HH x : nth k xs 0 = x ->
  md5_step xs (a, b, c, d) (2%nat, k, s, t) = (d, HH a b c d x s t, b, c).
Proof. intros <-. unfold HH, H. rewrite mixed; done. Qed.
Lemma step_II x : nth k xs 0 = x ->
  md5_step xs (a, b, c, d) (3%nat, k, s, t) = (d, II a b c d x s t, b, c).
Proof. intros <-. unfold II, I. rewrite bnot_not32, mixed; done. Qed.
End Steps.

(** ** The 64 steps *)

Definition steps_table : list (nat * nat * Z * Z) := Eval vm_compute in md5_steps.
Lemma steps_table_ok : md5_steps = steps_table.
Proof. vm_compute. reflexivity. Qed.

Lemma run_step xs st step l st1 :
  md5_step xs st step = st1 -> fold_left (md5_step xs) (step :: l) st = fold_left (md5_step xs) l st1.
Proof. by intros <-. Qed.

Lemma assign_eq {A} (e : Z) (k : Z -> A) (r : A) :
  (forall v, v = e -> k v = r) -> assign e k = r.
Proof. intros Hk. by apply Hk. Qed.

(** One assignment of the code is one step of the table. *)
Ltac md5_assign :=
  apply assign_eq; intros ? Hv;
  erewrite run_step by
    (first [eapply step_FF | eapply step_GG | eapply step_HH | eapply step_II];
      [lia | cbn [nth]; reflexivity]);
  rewrite <- Hv; clear Hv; cbv beta.

Lemma transform_ok st block xs :
  Decode 16 block = Some xs -> length xs = 16%nat ->
  MD5Transform st block = Some (md5_block st xs).
Proof.
  destruct st as [[[a b] c] d]. intros Hd Hl. unfold MD5Transform. rewrite Hd.
  do 16 (destruct xs as [| ? xs]; [discriminate Hl |]). destruct xs; [| discriminate Hl].
  unfold md5_block. rewrite steps_table_ok. unfold steps_table, md5_add.
  unfold S11, S12, S13, S14, S21, S22, S23, S24, S31, S32, S33, S34, S41, S42, S43, S44.
  do 64 md5_assign. reflexivity.
Qed.

(** ** Bytes and words *)

Lemma word_ok b0 b1 b2 b3 : is_byte b0 -> is_byte b1 -> is_byte b2 -> is_byte b3 ->
  Z.lor (Z.lor (Z.lor b0 (uint32 (Z.shiftl b1 8))) (uint32 (Z.shiftl b2 16)))
    (uint32 (Z.shiftl b3 24)) = le_val [b0; b1; b2; b3].
Proof.
  intros H0 H1 H2 H3. rewrite <- lor4 by done. unfold is_byte in *.
  rewrite !uint32_small by (rewrite Z.shiftl_mul_pow2 by lia; unfold is_uint32; lia).
  apply Z.bits_inj'. intros k _. rewrite !Z.lor_spec. by repeat destruct (Z.testbit _ k).
Qed.

Lemma decode_words n bs : Forall is_byte bs -> length bs = (4 * n)%nat ->
  Decode n bs = Some (words_of n bs).
Proof.
  revert bs. induction n as [| n IH]; intros bs Hb Hl; [done |].
  do 4 (destruct bs as [| ? bs]; [simpl in Hl; lia |]).
  cbn [Decode words_of]. rewrite !list.Forall_cons in Hb. destruct Hb as (? & ? & ? & ? & ?).
  rewrite IH, word_ok by (done || (simpl in Hl; lia)). done.
Qed.

Lemma length_words_of n bs : length (words_of n bs) = n.
Proof. revert bs. induction n as [| n IH]; intros bs; cbn; [done | by rewrite IH]. Qed.

Lemma transform_block st block : Forall is_byte block -> length block = 64%nat ->
  MD5Transform st block = Some (md5_block st (words_of 16 block)).
Proof.
  intros Hb Hl. apply transform_ok; [by apply decode_words | apply length_words_of].
Qed.

Lemma encode_words ws : Encode ws = ws ≫= le_bytes 4.
Proof.
  induction ws as [| w ws IH]; [done |]. cbn [Encode mbind list_bind le_bytes app].
  rewrite IH. unfold byte. rewrite !Z.shiftr_div_pow2, !Z.div_div by lia. done.
Qed.

Lemma le_bytes_mod k n : le_bytes k (n mod 256 ^ Z.of_nat k) = le_bytes k n.
Proof.
  rewrite <- le_val_bytes. rewrite <- (length_le_bytes k n) at 1.
  apply le_bytes_val, le_bytes_byte.
Qed.

Lemma le_bytes_app j k n :
  le_bytes (j + k) n = le_bytes j n ++ le_bytes k (n / 256 ^ Z.of_nat j).
Proof.
  revert n. induction j as [| j IH]; intros n; cbn [Nat.add le_bytes app].
  - by rewrite Z.div_1_r.
  - rewrite IH, pow256_succ, Z.div_div by (lia || apply pow256_pos). done.
Qed.

(** ** Blocks *)

Lemma run_app j k st a b : length a = (64 * j)%nat ->
  md5_run (j + k) st (a ++ b) = md5_run k (md5_run j st a) b.
Proof.
  revert st a. induction j as [| j IH]; intros st a Ha.
  - destruct a; [done | simpl in Ha; lia].
  - cbn [Nat.add md5_run]. rewrite take_app_le, drop_app_le by lia.
    apply IH. rewrite length_drop. lia.
Qed.

Lemma run_prefix j st a b : length a = (64 * j)%nat ->
  md5_run j st (a ++ b) = md5_run j st a.
Proof. intros Ha. rewrite <- (Nat.add_0_r j) at 1. by rewrite run_app. Qed.

Lemma run_snoc j st bs : (64 * S j <= length bs)%nat ->
  md5_run (S j) st bs =
  md5_block (md5_run j st bs) (words_of 16 (take 64 (drop (64 * j) bs))).
Proof.
  intros Hl. assert (Ha : length (take (64 * j) bs) = (64 * j)%nat)
    by (rewrite length_take; lia).
  rewrite <- Nat.add_1_r. transitivity (md5_run 1 (md5_run j st (take (64 * j) bs)) (drop (64 * j) bs)).
  - rewrite <- run_app by done. by rewrite take_drop.
  - cbn [md5_run]. f_equal. rewrite <- (run_prefix j st _ (drop (64 * j) bs)) by done.
    by rewrite take_drop.
Qed.

Lemma load_bytes_ok s o n : 0 <= o -> 0 <= n -> o + n <= len s ->
  load_bytes o n s = Some (take (Z.to_nat n) (drop (Z.to_nat o) s)).
Proof.
  intros Ho Hn Hl. set (bs := take _ _).
  assert (Hb : len bs = n) by (unfold bs; rewrite length_take, length_drop; lia).
  rewrite <- Hb at 1. apply load_bytes_at. split; [done |].
  exists (take (Z.to_nat o) s), (drop (Z.to_nat n) (drop (Z.to_nat o) s)).
  unfold bs. rewrite (take_drop (Z.to_nat n)), take_drop, length_take. split; [done | lia].
Qed.

Lemma copy_in_ok buf index input i n :
  Forall is_byte input -> 0 <= index -> 0 <= i -> 0 <= n -> i + n <= len input ->
  index + n <= len buf ->
  copy_in buf index input i n =
  Some (splice buf index (take (Z.to_nat n) (drop (Z.to_nat i) input))).
Proof.
  intros Hb Hx Hi Hn Hl Hr. unfold copy_in. rewrite load_bytes_ok by done. cbn [mbind option_bind].
  rewrite memcpy_ok, bytes_id.
  - done.
  - by apply Forall_take, Forall_drop.
  - split; [done |]. rewrite length_take, length_drop. lia.
Qed.

(** The loop over whole blocks, which starts when [j] blocks of the message
    [msg ++ x] have been processed. *)
Lemma transform_from_ok fuel st input msg n i j :
  let all := msg ++ take (Z.to_nat n) input in
  Forall is_byte input -> 0 <= i <= n -> n <= len input -> n + 63 < 4294967296 ->
  n - i < 64 * (Z.of_nat fuel + 1) -> 64 * Z.of_nat j = len msg + i ->
  exists i' j', transform_from fuel (md5_run j st all) input i n = Some (md5_run j' st all, i') /\
    i <= i' <= n /\ n - i' < 64 /\ 64 * Z.of_nat j' = len msg + i'.
Proof.
  intros all Hb. revert i j. induction fuel as [| fuel IH]; intros i j Hi Hn Hm Hf Hj.
  - exists i, j. cbn [transform_from]. rewrite uint32_small by (unfold is_uint32; lia).
    rewrite (proj2 (Z.ltb_ge _ _)) by lia. split; [done | lia].
  - cbn [transform_from]. rewrite uint32_small by (unfold is_uint32; lia).
    destruct (Z.ltb_spec (i + 63) n) as [Hlt | Hge].
    2:{ exists i, j. split; [done | lia]. }
    rewrite load_bytes_ok by lia. cbn [mbind option_bind].
    rewrite transform_block.
    2:{ by apply Forall_take, Forall_drop. }
    2:{ rewrite length_take, length_drop. lia. }
    cbn [mbind option_bind]. rewrite uint32_small by (unfold is_uint32; lia).
    assert (Hs : take (Z.to_nat 64) (drop (Z.to_nat i) input) = take 64 (drop (64 * j) all)).
    { unfold all. rewrite drop_app_ge by lia.
      replace (64 * j - length msg)%nat with (Z.to_nat i) by lia.
      rewrite !take_drop_commute, take_take. do 2 f_equal. lia. }
    rewrite Hs, <- run_snoc.
    2:{ unfold all. rewrite length_app, length_take. lia. }
    destruct (IH (i + 64) (S j)) as (i' & j' & -> & H1 & H2); [lia.. |].
    exists i', j'. split; [done | lia].
Qed.

(** ** The context *)

(** What the context holds when the bytes of [m] have been fed to it. *)
Record ctx_ok (c : MD5_CTX) (m : list Z) : Prop := CtxOk {
  ctx_state : state c = md5_run (length m / 64) md5_init m;
  ctx_count0 : count0 c = (8 * len m) mod 4294967296;
  ctx_count1 : count1 c = (8 * len m / 4294967296) mod 4294967296;
  ctx_length : length (buffer c) = 64%nat;
  ctx_buffer : take (length m mod 64) (buffer c) = drop (64 * (length m / 64)) m
}.

Lemma init_ok buf : length buf = 64%nat -> ctx_ok (ei_MD5Init buf) [].
Proof. by constructor. Qed.

Lemma index_ok c m : ctx_ok c m ->
  Z.land (Z.shiftr (count0 c) 3) 0x3F = len m mod 64.
Proof.
  intros Hc. rewrite (ctx_count0 c m Hc), Z.shiftr_div_pow2 by lia.
  change 0x3F with (Z.ones 6). rewrite Z.land_ones by lia. dlia.
Qed.

Lemma count_ok l n :
  0 <= l -> 0 <= n < 4294967296 ->
  let bits := uint32 (Z.shiftl n 3) in
  let c0 := uint32 ((8 * l) mod 4294967296 + bits) in
  let c1 := (8 * l / 4294967296) mod 4294967296 in
  let c1 := if c0 <? bits then uint32 (c1 + 1) else c1 in
  c0 = (8 * (l + n)) mod 4294967296 /\
  uint32 (c1 + Z.shiftr n 29) = (8 * (l + n) / 4294967296) mod 4294967296.
Proof.
  intros Hl Hn. cbv zeta. unfold uint32, uwrap. change (2 ^ 32) with 4294967296.
  rewrite Z.shiftl_mul_pow2, Z.shiftr_div_pow2 by lia.
  change (2 ^ 3) with 8. change (2 ^ 29) with 536870912.
  split; [dlia |].
  destruct (Z.ltb_spec ((8 * l) mod 4294967296 + (n * 8) mod 4294967296) 4294967296) as [Hs | Hs].
  - rewrite (proj2 (Z.ltb_ge _ _)) by (rewrite (Z.mod_small (_ + _)); dlia). dlia.
  - rewrite (proj2 (Z.ltb_lt _ _)) by dlia. dlia.
Qed.

Lemma run_more q st m x : (64 * q <= length m)%nat ->
  md5_run q st (m ++ x) = md5_run q st m.
Proof.
  intros Hl. rewrite <- (take_drop (64 * q) m), <- app_assoc.
  by rewrite !run_prefix by (rewrite length_take; lia).
Qed.

(** The context after [all], from its state, counters and buffer. *)
Lemma ctx_make all j st c0 c1 buf rest :
  st = md5_run j md5_init all -> c0 = (8 * len all) mod 4294967296 ->
  c1 = (8 * len all / 4294967296) mod 4294967296 -> length buf = 64%nat ->
  drop (64 * j) all = rest -> (length rest < 64)%nat -> (64 * j <= length all)%nat ->
  take (length rest) buf = rest ->
  ctx_ok (Ctx st c0 c1 buf) all.
Proof.
  intros -> -> -> Hb Hd Hr Hj Ht.
  assert (Hl : length all = (64 * j + length rest)%nat) by (rewrite <- Hd, length_drop; lia).
  assert (Hq : (length all / 64 = j)%nat) by (symmetry; apply (Nat.div_unique _ _ _ (length rest)); lia).
  assert (Hm : (length all mod 64 = length rest)%nat)
    by (symmetry; apply (Nat.mod_unique _ _ j); lia).
  constructor; cbn [state count0 count1 buffer]; rewrite ?Hq, ?Hm; congruence.
Qed.

Lemma div_mod_64 (l : nat) :
  (64 * (l / 64) + l mod 64 = l)%nat /\ (l mod 64 < 64)%nat /\
  Z.of_nat l mod 64 = Z.of_nat (l mod 64).
Proof.
  split; [symmetry; apply Nat.div_mod_eq |].
  split; [apply Nat.mod_upper_bound; lia | by rewrite Nat2Z.inj_mod].
Qed.

(** Fewer bytes than the buffer has room for. *)
Lemma fill_buffer c m x :
  ctx_ok c m -> (length m mod 64 + length x < 64)%nat ->
  let all := m ++ x in
  let buf := splice (buffer c) (len m mod 64) x in
  length buf = 64%nat /\ take (length (drop (64 * (length m / 64)) all)) buf =
    drop (64 * (length m / 64)) all.
Proof.
  intros Hc Hx all buf. pose proof (ctx_length c m Hc) as Hl. pose proof (ctx_buffer c m Hc) as Hb.
  destruct (div_mod_64 (length m)) as (Hq & Hr & Hz).
  assert (Hf : fits (buffer c) (len m mod 64) x) by (split; lia).
  split; [unfold buf; by rewrite length_splice |].
  pose proof (take_splice _ _ _ Hf) as Ht. unfold all. rewrite drop_app_le, length_app, length_drop by lia.
  replace (length m - 64 * (length m / 64) + length x)%nat with (Z.to_nat (len m mod 64 + len x)) by lia.
  unfold buf. rewrite Ht, Hz, Nat2Z.id, Hb. done.
Qed.

(** As many bytes as the buffer has room for: the block that is transformed. *)
Lemma first_block c m x :
  ctx_ok c m -> (64 <= length m mod 64 + length x)%nat ->
  splice (buffer c) (len m mod 64) (take (64 - length m mod 64) x) =
  take 64 (drop (64 * (length m / 64)) (m ++ x)).
Proof.
  intros Hc Hx. pose proof (ctx_length c m Hc) as Hl. pose proof (ctx_buffer c m Hc) as Hb.
  destruct (div_mod_64 (length m)) as (Hq & Hr & Hz).
  unfold splice. rewrite Hz, Nat2Z.id, Hb, length_take.
  rewrite (drop_ge (buffer c)), app_nil_r by lia.
  rewrite drop_app_le, take_app, length_drop by lia.
  rewrite (take_ge (drop _ m)) by (rewrite length_drop; lia). do 2 f_equal. lia.
Qed.

Lemma update_ok c m input n :
  ctx_ok c m -> Forall is_byte m -> Forall is_byte input -> 0 <= n <= len input ->
  n + 63 < 4294967296 ->
  exists c', ei_MD5Update c input n = Some c' /\ ctx_ok c' (m ++ take (Z.to_nat n) input).
Proof.
  intros Hc Hm Hb Hn Hmax. unfold ei_MD5Update. rewrite (index_ok c m Hc).
  destruct (count_ok (len m) n) as [H0 H1]; [lia.. |]. cbv zeta in H0, H1.
  rewrite (ctx_count0 c m Hc), (ctx_count1 c m Hc), H1, H0. clear H0 H1.
  pose proof (ctx_length c m Hc) as Hlb. pose proof (ctx_buffer c m Hc) as Hbuf.
  destruct (div_mod_64 (length m)) as (Hq & Hr & Hz).
  set (x := take (Z.to_nat n) input). set (all := m ++ x).
  assert (Hlx : len x = n) by (unfold x; rewrite length_take; lia).
  assert (Hla : len all = len m + n) by (unfold all; rewrite len_app; lia).
  assert (Hst : state c = md5_run (length m / 64) md5_init all)
    by (rewrite (ctx_state c m Hc); unfold all; by rewrite run_more by lia).
  destruct (Z.leb_spec (64 - len m mod 64) n) as [Hge | Hlt].
  - rewrite copy_in_ok by (done || lia). cbn [mbind option_bind]. rewrite drop_0.
    replace (take (Z.to_nat (64 - len m mod 64)) input)
      with (take (64 - length m mod 64) x)
      by (unfold x; rewrite take_take; f_equal; lia).
    rewrite (first_block c m x Hc) by lia. fold all.
    set (blk := take 64 _).
    assert (Hbl : length blk = 64%nat)
      by (unfold blk; rewrite length_take, length_drop; lia).
    rewrite transform_block; [| | done].
    2:{ apply Forall_take, Forall_drop, Forall_app. split; [done | by apply Forall_take]. }
    cbn [mbind option_bind]. unfold blk at 1. rewrite Hst, <- run_snoc by lia.
    destruct (transform_from_ok (Z.to_nat (n / 64)) md5_init input m n (64 - len m mod 64)
                (S (length m / 64))) as (i' & j' & He & Hi & Hn' & Hj'); [done | dlia.. |].
    fold x all in He. rewrite He. cbn [mbind option_bind].
    set (rest := take (Z.to_nat (n - i')) (drop (Z.to_nat i') input)).
    assert (Hd : drop (64 * j') all = rest).
    { unfold all, rest, x. rewrite drop_app_ge by lia.
      replace (64 * j' - length m)%nat with (Z.to_nat i') by lia.
      rewrite take_drop_commute. do 2 f_equal. lia. }
    assert (Hlr : len rest = n - i')
      by (unfold rest; rewrite length_take, length_drop; lia).
    fold blk. rewrite copy_in_ok by (done || lia). cbn [mbind option_bind]. fold rest.
    assert (Hf : fits blk 0 rest) by (split; lia).
    eexists. split; [done |].
    apply (ctx_make all j' _ _ _ _ rest); rewrite ?Hla; try done; [| lia.. |].
    + by rewrite length_splice.
    + pose proof (take_splice _ _ _ Hf) as Ht. rewrite Z.add_0_l, Nat2Z.id in Ht.
      by rewrite Ht.
  - cbn [mbind option_bind]. rewrite copy_in_ok by (done || lia). rewrite drop_0, Z.sub_0_r.
    fold x. cbn [mbind option_bind]. eexists. split; [done |].
    destruct (fill_buffer c m x Hc) as [Hl Ht]; [lia |].
    apply (ctx_make all (length m / 64) _ _ _ _ (drop (64 * (length m / 64)) all));
      rewrite ?Hla; try done; [rewrite length_drop; lia | lia].
Qed.

(** ** Final *)

Lemma padding_ok l : 0 <= l ->
  let index := l mod 64 in
  let padLen := if index <? 56 then 56 - index else 120 - index in
  0 <= padLen <= 64 /\
  take (Z.to_nat padLen) PADDING = [0x80] ++ repeat 0 (Z.to_nat ((55 - l) mod 64)).
Proof.
  intros Hl. cbv zeta. set (padLen := if _ <? 56 then _ else _).
  assert (Hp : 1 <= padLen <= 64 /\ padLen = 1 + (55 - l) mod 64)
    by (unfold padLen; destruct (Z.ltb_spec (l mod 64) 56); dlia).
  split; [lia |]. destruct Hp as [H1 ->]. rewrite Z2Nat.inj_add by dlia.
  change (Z.to_nat 1) with 1%nat. unfold PADDING. cbn [take app Nat.add]. f_equal.
  set (k := Z.to_nat ((55 - l) mod 64)). assert (Hk : (k <= 63)%nat) by lia.
  change 63%nat with (63 + 0)%nat. replace (63 + 0)%nat with (k + (63 - k))%nat by lia.
  rewrite repeat_app, take_app_length'; [done | by rewrite repeat_length].
Qed.

Lemma bits_ok c m : ctx_ok c m -> Encode [count0 c; count1 c] = le_bytes 8 (8 * len m).
Proof.
  intros Hc. rewrite encode_words, (ctx_count0 c m Hc), (ctx_count1 c m Hc).
  cbn [mbind list_bind]. rewrite app_nil_r. change 8%nat with (4 + 4)%nat.
  rewrite le_bytes_app. change 4294967296 with (256 ^ Z.of_nat 4). by rewrite !le_bytes_mod.
Qed.

Lemma final_ok c m : ctx_ok c m -> Forall is_byte m ->
  ei_MD5Final c = Some (md5 m, Ctx (0, 0, 0, 0) 0 0 (repeat 0 64)).
Proof.
  intros Hc Hm. unfold ei_MD5Final. rewrite (index_ok c m Hc), (bits_ok c m Hc).
  destruct (padding_ok (len m)) as [Hp Ht]; [lia |]. cbv zeta in Hp, Ht.
  set (padLen := if _ <? 56 then _ else _) in *.
  assert (Hpad : Forall is_byte PADDING).
  { unfold PADDING. constructor; [unfold is_byte; lia |]. apply list.Forall_forall.
    intros x Hx%list_elem_of_In%repeat_spec. subst x. unfold is_byte. lia. }
  destruct (update_ok c m PADDING padLen) as (c1 & -> & Hc1); [done.. | lia |].
  rewrite Ht in Hc1. cbn [mbind option_bind].
  destruct (update_ok c1 (m ++ [0x80] ++ repeat 0 (Z.to_nat ((55 - len m) mod 64)))
              (le_bytes 8 (8 * len m)) 8) as (c2 & -> & Hc2);
    [done | | apply le_bytes_byte | rewrite length_le_bytes; lia | lia |].
  { apply Forall_app. split; [done |]. rewrite <- Ht. by apply Forall_take. }
  cbn [mbind option_bind]. change (Z.to_nat 8) with 8%nat in Hc2.
  rewrite take_ge, <- app_assoc in Hc2 by (by rewrite length_le_bytes).
  rewrite encode_words, (ctx_state _ _ Hc2). done.
Qed.

(** The pieces of a message, one call each. *)
Fixpoint updates (c : MD5_CTX) (parts : list (list Z)) : option MD5_CTX :=
  match parts with
  | [] => Some c
  | p :: parts => c ← ei_MD5Update c p (len p); updates c parts
  end.

Lemma updates_ok parts c m : ctx_ok c m -> Forall is_byte m ->
  Forall (fun p => Forall is_byte p /\ len p + 63 < 4294967296) parts ->
  exists c', updates c parts = Some c' /\ ctx_ok c' (m ++ concat parts) /\
    Forall is_byte (m ++ concat parts).
Proof.
  revert c m. induction parts as [| p parts IH]; intros c m Hc Hm Hp.
  - exists c. cbn [concat]. by rewrite app_nil_r.
  - apply list.Forall_cons in Hp as [[Hb Hl] Hp]. cbn [updates concat].
    destruct (update_ok c m p (len p)) as (c1 & -> & Hc1); [done || lia.. |].
    rewrite take_ge in Hc1 by lia. cbn [mbind option_bind]. rewrite app_assoc.
    apply IH; [done | by apply Forall_app | done].
Qed.
