(* ===== verification/EiCorrect.v ===== *)
(** * Correctness of the coding functions

    The theorems about ei_encode_*, ei_decode_*, ei_skip_term, ei_x_* that a
    user of the library relies on, stated of the functions themselves: what is
    written is read back, to the byte and to the index; what does not fit is
    refused; what is no term is not. Each applies the lemmas of the component
    that models the function. *)

From S2P Require Import Prelude Mem PutGet Ext Headers Ints Atom Data Ids Big Term Skip XBuff.
From S2P Require Import MD5 MD5Ok.

(** [sent enc dec r]: for some number of bytes [n], the encoder moves the index
    by [n], the same with a NULL buffer and with a real one; it writes nowhere
    but to those [n] bytes; and the decoder, run on them, moves the index by
    [n] and yields [r]. *)
Definition sent {B} (enc : ptr -> Z -> M (Z * Z)) (dec : Z -> Z -> D (cres B)) (r : B) : Prop :=
  exists n, 0 <= n /\ forall b i s, 0 <= i -> i + n <= int_max ->
    enc NULL i s = Some ((0, i + n), s) /\
    (0 <= b + i -> b + i + n <= len s -> exists s',
       enc (at_off b) i s = Some ((0, i + n), s') /\
       length s' = length s /\
       take (Z.to_nat (b + i)) s' = take (Z.to_nat (b + i)) s /\
       drop (Z.to_nat (b + i + n)) s' = drop (Z.to_nat (b + i + n)) s /\
       dec b i s' = Some (Done (i + n) r)).

(** Both with an out pointer and without one. *)
Definition coded {A} (enc : ptr -> Z -> M (Z * Z))
    (dec : bool -> Z -> Z -> D (cres (option A))) (v : A) : Prop :=
  sent enc (dec true) (Some v) /\ sent enc (dec false) None.

Lemma sent_intro {B} enc (dec : Z -> Z -> D (cres B)) bs r :
  Encodes enc bs ->
  (forall b i s, 0 <= i -> i + len bs <= int_max -> at_ s (b + i) bs ->
     dec b i s = Some (Done (i + len bs) r)) ->
  sent enc dec r.
Proof.
  intros He Hd. exists (len bs). split; [lia |]. intros b i s Hi Hm.
  split; [by apply encodes_null |]. intros Ho Hl.
  assert (Hf : fits s (b + i) bs) by (split; lia).
  exists (splice s (b + i) bs). split; [by apply encodes_buf |].
  split; [by apply length_splice |]. split; [| split].
  - unfold splice. rewrite take_app_le by (rewrite length_take; lia).
    by rewrite take_take, Nat.min_id.
  - unfold splice. replace (Z.to_nat (b + i + len bs)) with (Z.to_nat (b + i) + length bs)%nat by lia.
    rewrite app_assoc, drop_app_length'; [done |]. rewrite length_app, length_take. lia.
  - apply Hd; [done | done |]. by apply at_splice.
Qed.

Lemma coded_intro {A} enc (dec : bool -> Z -> Z -> D (cres (option A))) bs v :
  Encodes enc bs -> Decodes dec bs v -> coded enc dec v.
Proof. intros He Hd. split; (eapply sent_intro; [done |]; intros; by apply Hd). Qed.

(** ** Terms as a whole *)

(** C1: for every term in the external format, in any of the forms that the library
    reads (those ei.h has tags for; the bit strings and export funs that other nodes
    may send, tags 77 and 113, it refuses) and at any nesting, that ends within
    INT_MAX, [ei_skip_term] returns 0 and moves the index exactly over the term; it
    never reads outside the buffer, and as much fuel as the term has bytes is enough
    for it to return. *)
Theorem skip_term_exact sscanf_lf bs b i s fuel :
  etf sscanf_lf bs -> (length bs <= fuel)%nat ->
  0 <= i -> i + len bs <= int_max -> at_ s (b + i) bs ->
  ei_skip_term sscanf_lf fuel b i s = Some (0, i + len bs).
Proof. intros He Hf. by apply skips_etf. Qed.

Definition sample_term : list Z :=
  [104; 2; 108; 0; 0; 0; 1; 109; 0; 0; 0; 2; 7; 8; 106; 116; 0; 0; 0; 1; 97; 1; 119; 1; 120].

Lemma sample_term_etf sscanf_lf : etf sscanf_lf sample_term.
Proof.
  apply (etf_small_tuple sscanf_lf
    [[108; 0; 0; 0; 1; 109; 0; 0; 0; 2; 7; 8; 106]; [116; 0; 0; 0; 1; 97; 1; 119; 1; 120]]);
    [| cbn; lia].
  constructor; [| constructor; [| constructor]].
  - apply (etf_list sscanf_lf [[109; 0; 0; 0; 2; 7; 8]] [106]);
      [| apply etf_nil | cbn; unfold int_max; lia].
    constructor; [| constructor].
    apply (etf_binary sscanf_lf [7; 8]). cbn. unfold int_max. lia.
  - apply (etf_map sscanf_lf 1 [[97; 1]; [119; 1; 120]]); [| cbn; lia | cbn; unfold int_max; lia].
    constructor; [| constructor; [| constructor]].
    + eapply etf_int. apply int_ext_small. unfold is_byte. lia.
    + apply etf_atom, (atom_utf8 false [120]); [| cbn; unfold MAXATOMLEN_UTF8; lia].
      split; [repeat constructor; unfold is_byte; lia | cbn; lia].
Qed.

Lemma skip_term_exact_witness :
  ei_skip_term (fun _ => None) 25 2 1 ([0; 0; 131] ++ sample_term ++ [9]) = Some (0, 26).
Proof.
  apply (skip_term_exact (fun _ => None) sample_term);
    [apply sample_term_etf | vm_compute; lia | lia | vm_compute; discriminate |].
  split; [lia |]. exists [0; 0; 131], [9]. split; reflexivity.
Defined.

(** C21: every integer of the type of its encoder is written and read back:
    [long long], [unsigned long long], the 32-bit [long] and [unsigned long],
    [char]; and the 64-bit decoder reads what the 32-bit encoder wrote. *)
Theorem integer_round_trip p q r t c :
  is_int64 p -> is_uint64 q -> is_int32 r -> is_uint32 t -> is_byte c ->
  coded (ei_encode_longlong p) ei_decode_longlong p /\
  coded (ei_encode_ulonglong q) ei_decode_ulonglong q /\
  coded (ei_encode_long_32 r) ei_decode_long_32 r /\
  coded (ei_encode_ulong_32 t) ei_decode_ulong_32 t /\
  coded (ei_encode_char c) ei_decode_char c /\
  coded (ei_encode_long_32 r) ei_decode_longlong r.
Proof.
  intros Hp Hq Hr Ht Hc. repeat split_and;
    (eapply coded_intro; [| solve [eauto using decode_longlong_ok, decode_ulonglong_ok,
       decode_long_32_ok, decode_ulong_32_ok, decode_char_ok, decode_longlong_32_ok]]);
    eauto using encode_longlong_ok, encode_ulonglong_ok, encode_long_32_ok, encode_ulong_32_ok,
      encode_char_ok.
Qed.

Lemma integer_round_trip_witness :
  coded (ei_encode_longlong (-9223372036854775808)) ei_decode_longlong (-9223372036854775808).
Proof.
  apply (integer_round_trip (-9223372036854775808) 0 0 0 0);
    unfold is_int64, is_uint64, is_int32, is_uint32, is_byte; lia.
Defined.

Ltac type_steps :=
  unfold ei_get_type_internal; at_split; repeat rstep; rewrite ?bindD_ret; unfold retD;
  rewrite ?int32_small, ?Z.mod_small by (unfold is_int32; lia); reflexivity.

(** [ei_get_type] says of every term which kind it is, whichever of the tags
    of that kind it has; and of what the encoders write, how many elements,
    bytes or characters come: the arity of a tuple, the length of a list, a
    binary, a string, the bytes of an atom. For a float it leaves the length
    as it was. *)
Theorem get_type_reports sscanf_lf len0 b i s :
  (forall bs, etf sscanf_lf bs -> at_ s (b + i) bs ->
     exists n, ei_get_type len0 b i s = Some (type_of (hd 0 bs), n)) /\
  (forall n, 0 <= n <= int_max -> at_ s (b + i) (ext_tuple_header n) ->
     exists t, ei_get_type len0 b i s = Some (t, n) /\
       (t = ERL_SMALL_TUPLE_EXT \/ t = ERL_LARGE_TUPLE_EXT)) /\
  (forall n, 0 < n <= int_max -> at_ s (b + i) (ext_list_header n) ->
     ei_get_type len0 b i s = Some (ERL_LIST_EXT, n)) /\
  (forall p, len p <= int_max -> at_ s (b + i) (ext_binary p) ->
     ei_get_type len0 b i s = Some (ERL_BINARY_EXT, len p)) /\
  (forall p, 0 < len p < 65536 -> at_ s (b + i) (ext_string p) ->
     ei_get_type len0 b i s = Some (ERL_STRING_EXT, len p)) /\
  (forall p, len p < 65536 -> at_ s (b + i) (ext_atom_utf8 p) ->
     ei_get_type len0 b i s = Some (ERL_ATOM_EXT, len p)) /\
  (forall f, at_ s (b + i) (ext_double f) ->
     ei_get_type len0 b i s = Some (ERL_FLOAT_EXT, len0)).
Proof.
  unfold ei_get_type, int_max. repeat split_and; intros x Hx Ha || intros x Ha.
  - by eapply etf_type.
  - unfold ext_tuple_header in Ha. destruct (Z.leb_spec x 255).
    + rewrite byte_small in Ha by (unfold is_byte; lia).
      exists ERL_SMALL_TUPLE_EXT. split; [type_steps | by left].
    + exists ERL_LARGE_TUPLE_EXT. split; [type_steps | by right].
  - unfold ext_list_header in Ha. rewrite (proj2 (Z.ltb_lt _ _)) in Ha by lia. type_steps.
  - unfold ext_binary in Ha. type_steps.
  - unfold ext_string in Ha. rewrite (proj2 (Z.eqb_neq _ _)), (proj2 (Z.leb_le _ _)) in Ha by lia.
    type_steps.
  - unfold ext_atom_utf8, ext_atom in Ha. destruct (Z.leb_spec 256 (len x)).
    + type_steps.
    + rewrite byte_small in Ha by (unfold is_byte; lia). type_steps.
  - unfold ext_double in Ha. type_steps.
Qed.

Lemma get_type_reports_witness :
  ei_get_type 5 0 1 [131; 108; 0; 0; 1; 44] = Some (108, 300).
Proof.
  apply (get_type_reports (fun _ => None) 5 0 1 [131; 108; 0; 0; 1; 44]).
  - unfold int_max. lia.
  - split; [lia |]. exists [131], []. split; reflexivity.
Defined.

(** A big, small or large, with any sign byte and any number of digits
    (leading zeros included), is decoded as a [long long] to its value when a
    [long long] can hold it, and refused with the index unmoved otherwise. *)
Theorem longlong_of_big sign ds bs p b i s :
  big_ext sign ds bs -> 0 <= i -> i + len bs <= int_max -> at_ s (b + i) bs ->
  let v := if sign =? 0 then le_val ds else - le_val ds in
  ei_decode_longlong p b i s
  = Some (if (- 9223372036854775808 <=? v) && (v <=? 9223372036854775807)
          then Done (i + len bs) (if p then Some v else None) else Fail).
Proof.
  intros Hb Hi Hl Ha v. rewrite (decode_longlong_big sign ds bs) by done.
  assert (Hds : Forall is_byte ds) by by destruct Hb.
  pose proof (le_val_range ds Hds). f_equal. unfold dec_result, signed_of, v, out.
  destruct (sign =? 0);
    repeat match goal with |- context [?x <=? ?y] => destruct (Z.leb_spec x y) end;
    try lia; done.
Qed.

Lemma longlong_of_big_witness :
  ei_decode_longlong true 0 1 [9; 110; 10; 0; 255; 0; 0; 0; 0; 0; 0; 0; 0; 0] = Some (Done 14 (Some 255)).
Proof.
  apply (longlong_of_big 0 [255; 0; 0; 0; 0; 0; 0; 0; 0; 0]
           [110; 10; 0; 255; 0; 0; 0; 0; 0; 0; 0; 0; 0]).
  - apply (big_ext_small 0 [255; 0; 0; 0; 0; 0; 0; 0; 0; 0]);
      [unfold is_byte; lia | repeat constructor; unfold is_byte; lia | cbn; lia].
  - lia.
  - vm_compute. discriminate.
  - split; [lia |]. exists [9], []. split; reflexivity.
Defined.

(** What a 64-bit node wrote, a decoder of 32-bit [long]s reads when the
    value fits in 32 bits, and refuses when it does not: no value is cut. *)
Theorem long_32_of_longlong p q b i s :
  is_int64 p -> 0 <= i -> i + len (ext_longlong p) <= int_max ->
  at_ s (b + i) (ext_longlong p) ->
  ei_decode_long_32 q b i s
  = Some (if (- 2147483648 <=? p) && (p <=? 2147483647)
          then Done (i + len (ext_longlong p)) (if q then Some p else None) else Fail).
Proof.
  intros Hp Hi Hl Ha. destruct (ext_longlong_cases p Hp) as [He | He].
  - erewrite decode_long_32_int by done.
    assert (is_int32 p) by (inversion He; unfold is_byte, is_int32 in *; lia).
    unfold is_int32 in *.
    by rewrite (proj2 (Z.leb_le _ _)), (proj2 (Z.leb_le p _)) by lia.
  - erewrite decode_long_32_big by done. unfold is_int64 in Hp.
    rewrite le_val_digits by (cbn; lia). unfold dec_result, signed_of, neg_bit, out.
    destruct (Z.ltb_spec p 0); [rewrite (Z.abs_neq p) by lia | rewrite (Z.abs_eq p) by lia];
      cbn [Z.eqb];
      repeat match goal with |- context [?x <=? ?y] => destruct (Z.leb_spec x y) end;
      cbn [andb]; rewrite ?Z.opp_involutive; (lia || done).
Qed.

Lemma long_32_of_longlong_witness :
  ei_decode_long_32 true 0 0 [110; 4; 1; 1; 0; 0; 128] = Some Fail.
Proof.
  apply (long_32_of_longlong (-2147483649) true 0 0 [110; 4; 1; 1; 0; 0; 128]);
    [unfold is_int64; lia | lia | vm_compute; discriminate |].
  split; [lia |]. exists [], []. split; reflexivity.
Defined.

(** ** Atoms *)

(** C36: the UTF-8 encoder of atoms accepts a text of bytes exactly when it is a
    sequence of at most 255 characters, each a lead byte below 0xF8 that is no
    continuation byte, with as many continuation bytes behind it as its high bits
    announce: overlong forms, surrogates and leads above 0xF4 are accepted too. What
    it accepts is read back as it is, and what it refuses leaves the buffer and the
    index alone. *)
Theorem atom_utf8_round_trip p to :
  Forall is_byte p ->
  if decide (verify_utf8_atom p 0 = true) then
    (exists n, utf8_framed p n /\ n <= 255) /\
    sent (ei_encode_atom_len_as p (len p) ERLANG_UTF8 to)
      (ei_decode_atom_as true MAXATOMLEN_UTF8 ERLANG_UTF8)
      (AtomOut p ERLANG_UTF8 (res_of p ERLANG_UTF8))
  else
    ~ (exists n, utf8_framed p n /\ n <= 255) /\
    forall buf i s, ei_encode_atom_len_as p (len p) ERLANG_UTF8 to buf i s = Some ((-1, i), s).
Proof.
  intros Hb. pose proof (verify_utf8_spec p) as Hspec. unfold MAXATOMLEN in Hspec.
  destruct (decide _) as [Hv | Hv].
  - split; [destruct (proj1 Hspec Hv) as (n & ? & ?); exists n; split; [done | lia] |].
    eapply sent_intro; [by apply encode_atom_utf8_ok |].
    intros b i s ? ? Ha. by apply decode_module.
  - split; [intros (n & ? & ?); apply Hv, Hspec; exists n; split; [done | lia] |].
    intros buf i s. apply not_true_is_false in Hv.
    unfold ei_encode_atom_len_as. change (Z.land ERLANG_UTF8 _ =? 0) with true. cbn [negb].
    rewrite andb_false_r. erewrite bindM_Some by apply src_bytes_all. by rewrite Hv.
Qed.

Lemma atom_utf8_round_trip_witness :
  sent (ei_encode_atom_len_as [206; 187; 120] 3 ERLANG_UTF8 ERLANG_UTF8)
    (ei_decode_atom_as true MAXATOMLEN_UTF8 ERLANG_UTF8)
    (AtomOut [206; 187; 120] ERLANG_UTF8 ERLANG_UTF8).
Proof.
  apply (atom_utf8_round_trip [206; 187; 120] ERLANG_UTF8).
  repeat constructor; unfold is_byte; lia.
Defined.

(** The overlong form of the zero character, a surrogate and a character above
    0x10FFFF are not well-formed UTF-8, and are accepted. *)
Lemma ill_formed_accepted :
  Forall (fun p => verify_utf8_atom p 0 = true)
    [[0xC0; 0x80]; [0xED; 0xA0; 0x80]; [0xF7; 0xBF; 0xBF; 0xBF]].
Proof. repeat constructor. Qed.

(** A Latin-1 text of at most 255 characters, sent as UTF-8, is read back
    as Latin-1, whatever its characters. *)
Theorem atom_latin1_round_trip p to :
  Forall is_byte p -> len p <= 255 ->
  sent (ei_encode_atom_len_as p (len p) ERLANG_LATIN1 to) (ei_decode_atom true)
    (AtomOut p ERLANG_UTF8 (res_of p ERLANG_LATIN1)).
Proof.
  intros Hb Hl. eapply sent_intro;
    [apply encode_atom_latin1_ok; [done | unfold MAXATOMLEN; lia] |].
  intros b i s ? ? Ha. unfold ext_atom_latin1 in *. apply decode_atom_latin1; try done.
  - split; [by apply utf8_of_latin1_byte |]. pose proof (len_utf8_of_latin1 p).
    destruct (Z.leb_spec 128 (len p)); lia.
  - unfold MAXATOMLEN. lia.
Qed.

Lemma atom_latin1_round_trip_witness :
  sent (ei_encode_atom_len_as [98; 229; 116] 3 ERLANG_LATIN1 ERLANG_UTF8) (ei_decode_atom true)
    (AtomOut [98; 229; 116] ERLANG_UTF8 ERLANG_LATIN1).
Proof.
  apply (atom_latin1_round_trip [98; 229; 116]);
    [repeat constructor; unfold is_byte; lia | vm_compute; discriminate].
Defined.

(** Storing a Latin-1 atom as UTF-8 may write one byte past the caller's
    array: [destlen] bytes are not enough for a text whose last character takes
    two, although the call succeeds when nothing is stored. *)
Theorem atom_conversion_overflow :
  let a := [ERL_SMALL_ATOM_EXT; 2; 97; 233] in
  ei_decode_atom_as false 3 ERLANG_UTF8 0 0 a
  = Some (Done 4 (AtomOut [97; 195; 169] ERLANG_LATIN1 ERLANG_UTF8)) /\
  ei_decode_atom_as true 3 ERLANG_UTF8 0 0 a = None.
Proof. split; apply decode_atom_overflow. Qed.

(** ** Strings, binaries, floats, headers *)

(** A string of any length is written, as a string or, beyond 65535
    characters, as a list, and read back. *)
Theorem string_round_trip p :
  Forall is_byte p -> coded (ei_encode_string_len p (len p)) ei_decode_string p.
Proof. intros Hb. eapply coded_intro; [by apply encode_string_len_ok | by apply decode_string_ok]. Qed.

Lemma string_round_trip_witness :
  coded (ei_encode_string_len [72; 105; 0; 255] 4) ei_decode_string [72; 105; 0; 255].
Proof.
  apply (string_round_trip [72; 105; 0; 255]). repeat constructor; unfold is_byte; lia.
Defined.

(** A binary is written and read back with its length, stored or not. *)
Theorem binary_round_trip p :
  Forall is_byte p ->
  sent (ei_encode_binary p (len p)) (ei_decode_binary true) (Some p, len p) /\
  sent (ei_encode_binary p (len p)) (ei_decode_binary false) (None, len p).
Proof.
  intros Hb. split; (eapply sent_intro; [by apply encode_binary_ok |]);
    intros; by apply decode_binary_ok.
Qed.

Lemma binary_round_trip_witness :
  sent (ei_encode_binary [1; 2; 3] 3) (ei_decode_binary true) (Some [1; 2; 3], 3).
Proof. apply (binary_round_trip [1; 2; 3]). repeat constructor; unfold is_byte; lia. Defined.

(** A finite [double] is sent as its bits and read back bit for bit; an
    infinity or a NaN is refused and nothing is written. *)
Theorem double_round_trip sscanf_lf p :
  is_uint64 p ->
  if isfinite p then coded (ei_encode_double p) (ei_decode_double sscanf_lf) p
  else forall buf i s, ei_encode_double p buf i s = Some ((-1, i), s).
Proof.
  intros Hp. destruct (isfinite p) eqn:E.
  - eapply coded_intro; [by apply encode_double_ok | by apply decode_double_ok].
  - intros buf i s. unfold ei_encode_double. by rewrite E.
Qed.

Lemma double_round_trip_witness :
  coded (ei_encode_double 0x3ff8000000000000) (ei_decode_double (fun _ => None))
    0x3ff8000000000000.
Proof.
  apply (double_round_trip (fun _ => None) 0x3ff8000000000000). unfold is_uint64. lia.
Defined.

(** The headers of tuples, lists and maps carry every arity an [int] can
    hold. *)
Theorem header_round_trip arity :
  0 <= arity <= int_max ->
  coded (ei_encode_tuple_header arity) ei_decode_tuple_header arity /\
  coded (ei_encode_list_header arity) ei_decode_list_header arity /\
  coded (ei_encode_map_header arity) ei_decode_map_header arity.
Proof.
  unfold int_max. intros Ha. assert (is_int32 arity) by (unfold is_int32; lia).
  split; [| split]; eapply coded_intro;
    auto using encode_tuple_header_ok, encode_list_header_ok, encode_map_header_ok,
      decode_tuple_header_ok, decode_list_header_ok, decode_map_header_ok with lia.
Qed.

Lemma header_round_trip_witness :
  coded (ei_encode_tuple_header 256) ei_decode_tuple_header 256.
Proof. apply (header_round_trip 256). unfold int_max. lia. Defined.

(** ** Pids, ports, references, trace tokens, funs *)

Lemma name_ok_check p :
  forallb (fun c => (0 <=? c) && (c <? 256)) p && verify_utf8_atom (c_str p) 0 = true -> name_ok p.
Proof.
  intros [Hb Hv]%andb_true_iff. split; [| done]. rewrite forallb_forall in Hb.
  apply Forall_forall. intros c Hc. apply is_byte_test, Hb. first [done | by apply list_elem_of_In].
Qed.

Definition node_ab : list Z := [97; 64; 98; 0; 0].

(** A pid and a port come back with their names and with the bits of
    their numbers that travel, in the form their creation asks for. *)
Theorem pid_port_round_trip p q :
  name_ok (pid_node p) -> is_uint32 (pid_creation p) ->
  name_ok (port_node q) -> is_uint32 (port_creation q) ->
  coded (ei_encode_pid p) ei_decode_pid
    (Pid (c_str (pid_node p)) (Z.land (pid_num p) 0x7fff) (Z.land (pid_serial p) 0x1fff)
         (pid_creation p)) /\
  coded (ei_encode_port q) ei_decode_port
    (Port (c_str (port_node q)) (Z.land (port_id q) 0x0fffffff) (port_creation q)).
Proof.
  intros Hn Hc Hn' Hc'. split; eapply coded_intro;
    [by apply encode_pid_ok | by apply decode_pid_ok
    | by apply encode_port_ok | by apply decode_port_ok].
Qed.

Lemma pid_port_round_trip_witness :
  coded (ei_encode_pid (Pid node_ab 40000 5 7)) ei_decode_pid (Pid [97; 64; 98] 7232 5 7) /\
  coded (ei_encode_port (Port node_ab 12 1)) ei_decode_port (Port [97; 64; 98] 12 1).
Proof.
  apply (pid_port_round_trip (Pid node_ab 40000 5 7) (Port node_ab 12 1));
    (by apply name_ok_check) || (cbn; unfold is_uint32; lia).
Defined.

(** A reference of up to three words comes back. *)
Theorem ref_round_trip p :
  name_ok (ref_node p) -> ref_len p = len (ref_n p) -> ref_len p <= 3 ->
  is_uint32 (ref_creation p) -> Forall is_uint32 (ref_n p) ->
  coded (ei_encode_ref p) ei_decode_ref
    (Ref (c_str (ref_node p)) (ref_len p) (ref_n p) (ref_creation p)).
Proof.
  intros Hn Hl H3 Hc Hw. assert (ref_ok p) by done.
  eapply coded_intro; [by apply encode_ref_ok | by apply decode_ref_ok].
Qed.

Lemma ref_round_trip_witness :
  coded (ei_encode_ref (Ref node_ab 2 [5; 4294967295] 9)) ei_decode_ref
    (Ref [97; 64; 98] 2 [5; 4294967295] 9).
Proof.
  apply (ref_round_trip (Ref node_ab 2 [5; 4294967295] 9));
    [by apply name_ok_check | done | done | cbn; unfold is_uint32; lia |
     repeat constructor; unfold is_uint32; lia].
Defined.

(** A trace token comes back. *)
Theorem trace_round_trip p :
  is_int64 (tr_flags p) -> is_int64 (tr_label p) -> is_int64 (tr_serial p) ->
  is_int64 (tr_prev p) -> name_ok (pid_node (tr_from p)) ->
  is_uint32 (pid_creation (tr_from p)) ->
  coded (ei_encode_trace p) ei_decode_trace
    (Trace (tr_serial p) (tr_prev p) (pid_sent (tr_from p)) (tr_label p) (tr_flags p)).
Proof.
  intros. assert (trace_ok p) by (repeat split; (apply H || apply H0 || apply H1 || apply H2 || apply H3)).
  eapply coded_intro; [by apply encode_trace_ok | by apply decode_trace_ok].
Qed.

Lemma trace_round_trip_witness :
  coded (ei_encode_trace (Trace 1 2 (Pid node_ab 3 0 0) 4 5)) ei_decode_trace
    (Trace 1 2 (Pid [97; 64; 98] 3 0 0) 4 5).
Proof.
  apply (trace_round_trip (Trace 1 2 (Pid node_ab 3 0 0) 4 5));
    (by apply name_ok_check) || (cbn; unfold is_int64, is_uint32; lia).
Defined.

(** A fun in the current form is written with its size, which is only
    known at the end and stored in front, and comes back whole: its arity, its
    digest, its indices, its module, its pid and the bytes of its
    environment. *)
Theorem new_fun_round_trip skip malloc p p0 :
  fun_ok p -> is_byte (fun_arity p) -> is_int32 (fun_index p) ->
  is_int32 (fun_n_free_vars p) -> is_uint32 (pid_creation (fun_pid p)) ->
  malloc (len (fun_free_vars p)) = true ->
  sent (ei_encode_fun p) (ei_decode_fun skip malloc (Some p0))
    (Some (fun_sent p (fun_md5 p) (fun_old_index p))).
Proof.
  intros Hok Ha Hi Hn Hc Hm. eapply sent_intro.
  - apply encode_new_fun_ok; [done |]. unfold is_byte in Ha. lia.
  - intros. by apply decode_new_fun_ok.
Qed.

Definition sample_fun : erlang_fun :=
  Fun 2 [108; 105; 98; 0] ERLANG_UTF8 [1; 2; 3; 4; 5; 6; 7; 8; 9; 10; 11; 12; 13; 14; 15; 16]
    7 9 123456789012 1 (Pid node_ab 3 0 0) [97; 1].

Lemma bytes_check p :
  forallb (fun c => (0 <=? c) && (c <? 256)) p = true -> Forall is_byte p.
Proof.
  intros Hb. rewrite forallb_forall in Hb. apply Forall_forall.
  intros c Hc. apply is_byte_test, Hb. first [done | by apply list_elem_of_In].
Qed.

Lemma sample_fun_ok : fun_ok sample_fun.
Proof.
  repeat split; try (by apply bytes_check); try (by apply name_ok_check); try done;
    cbn; lia.
Qed.

Lemma new_fun_round_trip_witness :
  sent (ei_encode_fun sample_fun)
    (ei_decode_fun (fun _ _ => ubD) (fun _ => true) (Some sample_fun))
    (Some (Fun 2 [108; 105; 98] ERLANG_UTF8
             [1; 2; 3; 4; 5; 6; 7; 8; 9; 10; 11; 12; 13; 14; 15; 16]
             7 9 123456789012 1 (Pid [97; 64; 98] 3 0 0) [97; 1])).
Proof.
  apply (new_fun_round_trip (fun _ _ => ubD) (fun _ => true) sample_fun sample_fun);
    [exact sample_fun_ok | | | | | done]; cbn; unfold is_byte, is_int32, is_uint32; lia.
Defined.

(** A fun in the form of old nodes comes back when its environment is the
    number of terms it announces; its digest and old index are not sent. *)
Theorem old_fun_round_trip sscanf_lf malloc p p0 ts fuel :
  fun_ok p -> fun_arity p = -1 -> is_uint32 (pid_creation (fun_pid p)) ->
  fun_free_vars p = concat ts -> fun_n_free_vars p = len ts -> len ts <= int_max ->
  Forall (etf sscanf_lf) ts -> (length (concat ts) <= fuel)%nat ->
  malloc (len (fun_free_vars p)) = true ->
  sent (ei_encode_fun p) (ei_decode_fun (ei_skip_term sscanf_lf fuel) malloc (Some p0))
    (Some (fun_sent p (fun_md5 p0) (fun_old_index p0))).
Proof.
  intros Hok Ha Hc Hv Hn Hl Ht Hf Hm. eapply sent_intro; [by apply encode_old_fun_ok |].
  intros. apply (decode_old_fun_ok _ _ _ _ ts); try done.
  apply (skip_parts sscanf_lf); [| done | done]. intros. by apply skips_etf.
Qed.

Definition sample_old_fun : erlang_fun :=
  Fun (-1) [108; 105; 98; 0] ERLANG_UTF8 (fun_md5 sample_fun) 7 0 5 1
    (Pid node_ab 3 0 0) [97; 1].

Lemma old_fun_round_trip_witness :
  sent (ei_encode_fun sample_old_fun)
    (ei_decode_fun (ei_skip_term (fun _ => None) 2) (fun _ => true) (Some sample_fun))
    (Some (Fun (-1) [108; 105; 98] ERLANG_UTF8 (fun_md5 sample_fun) 7 9 5 1
             (Pid [97; 64; 98] 3 0 0) [97; 1])).
Proof.
  apply (old_fun_round_trip (fun _ => None) (fun _ => true) sample_old_fun sample_fun [[97; 1]]).
  - repeat split; try (by apply bytes_check); try (by apply name_ok_check); try done; cbn; lia.
  - done.
  - cbn. unfold is_uint32. lia.
  - done.
  - done.
  - vm_compute. discriminate.
  - constructor; [| constructor]. eapply etf_int. apply int_ext_small. unfold is_byte. lia.
  - vm_compute. lia.
  - done.
Defined.

(** ** Bigs *)

(** C37: a big of any arity is written and read back digit for digit, by a
    caller who allocated for that arity. *)
Theorem big_round_trip b b0 :
  big_ok b -> big_arity b0 = big_arity b ->
  sent (ei_encode_big b) (ei_decode_big (Some b0)) (Some b) /\
  sent (ei_encode_big b) (ei_decode_big None) None.
Proof.
  intros Hb Ha. split; (eapply sent_intro; [by apply encode_big_ok |]);
    intros ? ? ? ? ? Hat; by apply (decode_big_ok b0 b).
Qed.

Definition sample_big : erlang_big := Big 9 1 [1; 0; 65535; 4; 200].

Lemma big_round_trip_witness :
  sent (ei_encode_big sample_big) (ei_decode_big (Some (ei_alloc_big 9))) (Some sample_big).
Proof.
  apply (big_round_trip sample_big (ei_alloc_big 9)); [| done].
  split; [repeat constructor; unfold is_digit; lia |].
  split; [cbn; unfold is_byte; lia |]. split; [cbn; lia |]. split; [done |].
  vm_compute. done.
Defined.

(** [ei_big_comp] orders bigs without leading zero digits by their
    values. *)
Theorem big_comp_compares x y :
  big_normal x -> big_normal y ->
  ei_big_comp x y = match big_val x ?= big_val y with Lt => -1 | Eq => 0 | Gt => 1 end.
Proof. apply big_comp_ok. Qed.

Lemma big_comp_compares_witness :
  ei_big_comp (Big 2 1 [7]) (Big 3 1 [0; 1]) = 1.
Proof.
  apply (big_comp_compares (Big 2 1 [7]) (Big 3 1 [0; 1]));
    (split; [repeat constructor; unfold is_digit; lia |]; split; [done |]; split; [done |];
     split; [by right | done]).
Defined.

(** ** The self-expanding buffer *)

(** Every [ei_x_encode_*], with the bytes of the term it is to append. *)
Inductive x_op (malloc : Z -> option (list Z)) :
    (ei_x_buff -> option (Z * ei_x_buff)) -> list Z -> Prop :=
  | x_string s : Forall is_byte s ->
      x_op malloc (fun x => ei_x_encode_string_len malloc x s (len s)) (ext_string s)
  | x_binary p : Forall is_byte p ->
      x_op malloc (fun x => ei_x_encode_binary malloc x p (len p)) (ext_binary p)
  | x_long n : is_int64 n -> x_op malloc (fun x => ei_x_encode_long malloc x n) (ext_longlong n)
  | x_ulong n : is_uint64 n ->
      x_op malloc (fun x => ei_x_encode_ulong malloc x n) (ext_ulonglong n)
  | x_longlong n : is_int64 n ->
      x_op malloc (fun x => ei_x_encode_longlong malloc x n) (ext_longlong n)
  | x_ulonglong n : is_uint64 n ->
      x_op malloc (fun x => ei_x_encode_ulonglong malloc x n) (ext_ulonglong n)
  | x_char c : x_op malloc (fun x => ei_x_encode_char malloc x c) (ext_char c)
  | x_boolean v : x_op malloc (fun x => ei_x_encode_boolean malloc x v) (ext_boolean v)
  | x_double f : isfinite f = true ->
      x_op malloc (fun x => ei_x_encode_double malloc x f) (ext_double f)
  | x_list n : 0 <= n <= int_max ->
      x_op malloc (fun x => ei_x_encode_list_header malloc x n) (ext_list_header n)
  | x_tuple n : 0 <= n <= int_max ->
      x_op malloc (fun x => ei_x_encode_tuple_header malloc x n) (ext_tuple_header n)
  | x_map n : 0 <= n <= int_max ->
      x_op malloc (fun x => ei_x_encode_map_header malloc x n) (ext_map_header n)
  | x_nil : x_op malloc (ei_x_encode_empty_list malloc) [ERL_NIL_EXT]
  | x_version : x_op malloc (ei_x_encode_version malloc) ext_version
  | x_atom s : Forall is_byte s -> strlen s < MAXATOMLEN ->
      x_op malloc (fun x => ei_x_encode_atom malloc x s) (ext_atom_latin1 (c_str s))
  | x_atom_utf8 s to : Forall is_byte s -> verify_utf8_atom s 0 = true ->
      x_op malloc (fun x => ei_x_encode_atom_len_as malloc x s (len s) ERLANG_UTF8 to)
        (ext_atom_utf8 s)
  | x_pid p : name_ok (pid_node p) -> x_op malloc (fun x => ei_x_encode_pid malloc x p) (ext_pid p)
  | x_port p : name_ok (port_node p) ->
      x_op malloc (fun x => ei_x_encode_port malloc x p) (ext_port p)
  | x_ref p : ref_ok p -> x_op malloc (fun x => ei_x_encode_ref malloc x p) (ext_ref p)
  | x_trace p : trace_ok p -> x_op malloc (fun x => ei_x_encode_trace malloc x p) (ext_trace p)
  | x_fun p : fun_ok p -> x_op malloc (fun x => ei_x_encode_fun malloc x p) (ext_fun p)
  | x_big b : big_ok b -> x_op malloc (fun x => ei_x_encode_big malloc x b) (ext_erlang_big b).

Lemma encode_fun_ok p : fun_ok p -> Encodes (ei_encode_fun p) (ext_fun p).
Proof.
  intros Hp. unfold ext_fun. destruct (Z.eqb_spec (fun_arity p) (-1));
    [by apply encode_old_fun_ok | by apply encode_new_fun_ok].
Qed.

Lemma encode_empty_list_ok : Encodes ei_encode_empty_list [ERL_NIL_EXT].
Proof. apply (encode_list_header_ok 0). lia. Qed.

Lemma encode_arity_ok (enc : Z -> ptr -> Z -> M (Z * Z)) ext n :
  (forall n, 0 <= n -> Encodes (enc n) (ext n)) -> 0 <= n <= int_max ->
  Encodes (enc (int32 n)) (ext n).
Proof.
  unfold int_max. intros He Hn. rewrite int32_small by (unfold is_int32; lia). apply He. lia.
Qed.

Lemma encode_atom_c_str_ok s to : Forall is_byte s -> strlen s < MAXATOMLEN ->
  Encodes (ei_encode_atom_len_as s (strlen s) ERLANG_LATIN1 to) (ext_atom_latin1 (c_str s)).
Proof.
  intros Hb Hl. eapply Encodes_ext; [intros; apply atom_strlen |].
  apply encode_atom_latin1_ok; [by apply c_str_byte | done].
Qed.

(** All of them do what [ei_x_encode] does, for an encoder that meets its
    contract. *)
Lemma x_op_encodes malloc g bs :
  x_op malloc g bs -> exists f, Encodes f bs /\
    forall x, 0 <= index x -> index x + len bs <= int_max -> g x = ei_x_encode malloc f x.
Proof.
  assert (Hl : forall f, Encodes f bs -> g = ei_x_encode_unchecked malloc f ->
    exists f, Encodes f bs /\ forall x, 0 <= index x -> index x + len bs <= int_max ->
      g x = ei_x_encode malloc f x).
  { intros f Hf ->. exists f. split; [done |]. intros x. by apply unchecked_ok. }
  destruct 1; try (eapply Hl; [| reflexivity];
    auto using encode_longlong_ok, encode_ulonglong_ok, encode_big_ok);
  eexists; (split; cycle 1; [intros x _ _; reflexivity |]);
    auto using encode_string_len_ok, encode_binary_ok, encode_long_ok, encode_ulonglong_ok,
      encode_char_ok, encode_boolean_ok, encode_double_ok, encode_version_ok,
      encode_atom_utf8_ok, encode_pid_ok, encode_port_ok, encode_ref_ok, encode_trace_ok,
      encode_fun_ok, encode_empty_list_ok, encode_atom_c_str_ok;
    apply encode_arity_ok; auto using encode_list_header_ok, encode_tuple_header_ok,
      encode_map_header_ok.
Qed.

(** Every [ei_x_encode_*] appends exactly its term to the buffer and keeps
    the buffer well formed, growing it when it has to; if the allocation it
    needed for that fails it returns -1, and only then. *)
Theorem x_encode_appends malloc g bs x :
  (forall n blk, malloc n = Some blk -> len blk = n) -> x_op malloc g bs ->
  x_ok x -> buffsz x <= int_max -> index x + len bs + 200 <= int_max ->
  exists rc x', g x = Some (rc, x') /\
    ((rc = 0 /\ x_ok x' /\ buffsz x' <= int_max /\ contents x' = contents x ++ bs) \/
     (rc = -1 /\ buff x' = None /\ index x' = index x /\ buffsz x < index x + len bs + 100)).
Proof.
  intros Hm Hop Hx Hs Hl. destruct (x_op_encodes malloc g bs Hop) as (f & Hf & Hg).
  rewrite Hg by (destruct Hx as (? & _ & _ & ?); lia).
  destruct (x_encode_ok malloc Hm f bs x) as (rc & x' & He & H);
    [done | done | unfold ei_x_extra; lia | done |].
  exists rc, x'. split; [done |]. unfold ei_x_extra in H.
  destruct H as [(? & ? & ? & ?) | ?]; [left | right]; tauto.
Qed.

Definition malloc_zero (n : Z) : option (list Z) :=
  if n <? 0 then None else Some (repeat 0 (Z.to_nat n)).

Lemma malloc_zero_size n blk : malloc_zero n = Some blk -> len blk = n.
Proof.
  unfold malloc_zero. destruct (Z.ltb_spec n 0); [done |]. intros [= <-].
  rewrite repeat_length. lia.
Qed.

Definition x_sample : ei_x_buff := XBuff (Some [131; 0; 0]) 3 1.

Lemma x_encode_appends_witness :
  exists rc x', ei_x_encode_long malloc_zero x_sample 300 = Some (rc, x') /\
    ((rc = 0 /\ x_ok x' /\ buffsz x' <= int_max /\ contents x' = [131; 98; 0; 0; 1; 44]) \/
     (rc = -1 /\ buff x' = None /\ index x' = 1 /\ 3 < 1 + 5 + 100)).
Proof.
  apply (x_encode_appends malloc_zero (fun x => ei_x_encode_long malloc_zero x 300)
           [98; 0; 0; 1; 44] x_sample malloc_zero_size).
  - apply (x_long malloc_zero 300). unfold is_int64. lia.
  - exists [131; 0; 0]. split; [done |]. split; [done | cbn; lia].
  - cbn. unfold int_max. lia.
  - cbn. unfold int_max. lia.
Defined.

(** C33: a message: a buffer made by [ei_x_new_with_version] to which one term
    is appended holds the version byte and the term; [ei_decode_version]
    accepts it and [ei_skip_term] moves from there to its end. *)
Theorem message_is_read malloc sscanf_lf g bs :
  (forall n, 0 <= n -> exists blk, malloc n = Some blk) ->
  (forall n blk, malloc n = Some blk -> len blk = n) ->
  x_op malloc g bs -> etf sscanf_lf bs -> len bs + 201 <= int_max ->
  exists x0 x1 blk,
    ei_x_new_with_version malloc = Some (0, x0) /\ g x0 = Some (0, x1) /\
    buff x1 = Some blk /\ contents x1 = ERL_VERSION_MAGIC :: bs /\
    ei_decode_version true 0 0 blk = Some (Done 1 (Some ERL_VERSION_MAGIC)) /\
    ei_skip_term sscanf_lf (length bs) 0 1 blk = Some (0, index x1).
Proof.
  intros Htot Hm Hop Ht Hl.
  destruct (Htot ei_x_extra) as [b0 Hb0]; [done |]. unfold ei_x_new_with_version, ei_x_new.
  rewrite Hb0. cbn [buff]. change (0 <? 0) with false. cbv beta iota.
  assert (Hx0 : x_ok (XBuff (Some b0) ei_x_extra 0)).
  { exists b0. cbn. unfold ei_x_extra in *. split; [done |]. split; [by apply Hm | lia]. }
  destruct (encode_at_ok ei_encode_version ext_version _ encode_version_ok Hx0)
    as (x0 & He & Hx & Hs & Hc); [cbn; unfold ei_x_extra; lia | cbn; unfold ei_x_extra, int_max; lia |].
  rewrite He. cbn [buffsz] in Hs.
  change (contents (XBuff _ _ 0)) with ([] : list Z) in Hc. cbn [app] in Hc.
  destruct (x_op_encodes malloc g bs Hop) as (f & Hf & Hg).
  assert (Hi0 : index x0 = 1)
    by (rewrite <- (contents_len x0 Hx), Hc; done).
  destruct (x_encode_ok malloc Hm f bs x0) as (rc & x1 & Hx1 & H);
    [done | done | rewrite Hi0; unfold ei_x_extra; lia | rewrite Hs; unfold ei_x_extra, int_max; lia |].
  destruct H as [(-> & Hok & Hc1 & _) | (_ & _ & _ & _ & Hn)].
  - pose proof (contents_len x1 Hok) as Hix. destruct Hok as (blk & Hb & Hbl & Hi).
    exists x0, x1, blk. rewrite Hg by lia. rewrite Hc in Hc1. change (ext_version ++ bs) with (ERL_VERSION_MAGIC :: bs) in Hc1.
    do 4 (split; [done |]).
    assert (Hat : at_ blk 0 (ERL_VERSION_MAGIC :: bs)).
    { split; [done |]. exists [], (drop (Z.to_nat (index x1)) blk). split; [| done].
      rewrite <- Hc1. unfold contents. rewrite Hb. cbn. by rewrite take_drop. }
    rewrite Hc1, len_cons in Hix.
    apply at_cons in Hat as [Ha0 Ha1]. split.
    + apply decode_version_ok; [lia | cbn; unfold int_max; lia | done].
    + rewrite <- Hix. apply skips_etf; [done | lia | lia | lia | done].
  - destruct (Htot (index x0 + len bs + 2 * ei_x_extra)) as [? ?];
      [rewrite Hi0; unfold ei_x_extra; lia | congruence].
Qed.

Lemma message_is_read_witness :
  exists x0 x1 blk,
    ei_x_new_with_version malloc_zero = Some (0, x0) /\
    ei_x_encode_long malloc_zero x0 300 = Some (0, x1) /\
    buff x1 = Some blk /\ contents x1 = [131; 98; 0; 0; 1; 44] /\
    ei_decode_version true 0 0 blk = Some (Done 1 (Some ERL_VERSION_MAGIC)) /\
    ei_skip_term (fun _ => None) 5 0 1 blk = Some (0, index x1).
Proof.
  apply (message_is_read malloc_zero (fun _ => None)
           (fun x => ei_x_encode_long malloc_zero x 300) [98; 0; 0; 1; 44]).
  - intros n Hn. unfold malloc_zero. rewrite (proj2 (Z.ltb_ge _ _)) by lia. by eexists.
  - apply malloc_zero_size.
  - apply (x_long malloc_zero 300). unfold is_int64. lia.
  - apply (ext_longlong_etf (fun _ => None) 300). unfold is_int64. lia.
  - cbn. unfold int_max. lia.
Defined.

(** ** [ei_decode_ei_term] *)

(** ** The digest *)

(** C35: however a message is cut into pieces, each of fewer than 2^32 - 63 bytes,
    feeding them to [ei_MD5Update] one after the other and then calling
    [ei_MD5Final] gives the MD5 digest of the message, as the algorithm defines it
    on the whole: with its padding, its length in bits modulo 2^64, and its rounds
    over the table of sines. No call reads outside its piece or writes outside the
    64 bytes of the buffer. *)
Theorem md5_of_pieces buf parts :
  length buf = 64%nat ->
  Forall (fun p => Forall is_byte p /\ len p + 63 < 4294967296) parts ->
  exists c, updates (ei_MD5Init buf) parts = Some c /\
    ei_MD5Final c = Some (md5 (concat parts), Ctx (0, 0, 0, 0) 0 0 (repeat 0 64)).
Proof.
  intros Hb Hp. destruct (updates_ok parts (ei_MD5Init buf) []) as (c & Hu & Hc & Hm);
    [by apply init_ok | done | done |].
  exists c. split; [done |]. by apply final_ok.
Qed.

Lemma md5_of_pieces_witness :
  exists c, updates (ei_MD5Init (repeat 255 64)) [[97]; []; [98; 99]] = Some c /\
    ei_MD5Final c = Some ([144; 1; 80; 152; 60; 210; 79; 176; 214; 150; 63; 125; 40; 225; 127; 114],
                          Ctx (0, 0, 0, 0) 0 0 (repeat 0 64)).
Proof.
  assert (Hd : md5 [97; 98; 99] =
    [144; 1; 80; 152; 60; 210; 79; 176; 214; 150; 63; 125; 40; 225; 127; 114])
    by (vm_compute; reflexivity).
  rewrite <- Hd. apply (md5_of_pieces (repeat 255 64) [[97]; []; [98; 99]]); [reflexivity |].
  repeat constructor; unfold is_byte; cbn; lia.
Defined.

(** As its header promises, [ei_decode_ei_term] returns 1, 0 or -1, and
    moves the index only when it returns 1. *)
Theorem ei_term_index sscanf_lf term buf index s rc index' t' :
  EiTerm.ei_decode_ei_term sscanf_lf term buf index s = Some (rc, index', t') ->
  (rc = 1 \/ rc = 0 \/ rc = -1) /\ (rc <> 1 -> index' = index).
Proof. apply EiTerm.decode_ei_term_verdict. Qed.

Lemma ei_term_index_witness :
  ((0 = 1 \/ 0 = 0 \/ 0 = -1) /\ (0 <> 1 -> 1 = 1))%Z.
Proof.
  apply (ei_term_index (fun _ => None)
    (Some (EiTerm.EiTerm 0 0 0 EiTerm.no_val)) 0 1 [131; 107; 0; 2; 104; 105] 0 1
    (Some (EiTerm.EiTerm 107 0 2 EiTerm.no_val))).
  reflexivity.
Defined.

(** A big of four bytes is reported as decoded (1, index moved), but its
    value is not stored anywhere in the term: the union is what it was. *)
Theorem ei_term_loses_small_big sscanf_lf t n b i s :
  let bs := [ERL_SMALL_BIG_EXT; 4; 0] ++ le32 n in
  0 <= n <= 2147483647 -> 0 <= i -> i + len bs <= int_max -> at_ s (b + i) bs ->
  EiTerm.ei_decode_ei_term sscanf_lf (Some t) b i s
  = Some (1, i + len bs,
          Some (EiTerm.EiTerm ERL_SMALL_BIG_EXT 4 (EiTerm.size t) (EiTerm.value t))).
Proof.
  intros bs Hn Hi Hl Ha. apply EiTerm.decode_ei_term_small_big;
    (unfold is_byte, is_uint32; lia) || done.
Qed.

Lemma ei_term_loses_small_big_witness :
  EiTerm.ei_decode_ei_term (fun _ => None)
    (Some (EiTerm.EiTerm 0 0 0 (EiTerm.i_val 42))) 0 0 [110; 4; 0; 0; 0; 0; 16]
  = Some (1, 7, Some (EiTerm.EiTerm 110 4 0 (EiTerm.i_val 42))).
Proof.
  apply (ei_term_loses_small_big (fun _ => None) (EiTerm.EiTerm 0 0 0 (EiTerm.i_val 42)) 268435456);
    [lia | lia | vm_compute; discriminate |].
  split; [lia |]. exists [], []. split; reflexivity.
Defined.

(** ** What the code does with input that is no term, or with bad structs *)

(** There is a buffer of ten bytes on which [ei_skip_term] never returns:
    however many calls are allowed, it needs more. *)
Theorem skip_term_diverges sscanf_lf fuel :
  ei_skip_term sscanf_lf fuel 0 0 [108; 0; 0; 0; 2; 109; 255; 255; 255; 246] = None.
Proof. apply loop_never_returns. Qed.

(** A reference of more than three words is decoded to its first three
    when it is stored, with the index left before the others; when it is not
    stored, the index is moved over all of them. *)
Theorem long_ref_index p q b i s :
  name_ok (ref_node p) -> is_uint32 (ref_creation p) -> Forall is_uint32 (ref_n p) ->
  ref_len p = len (ref_n p) -> 3 < ref_len p < 65536 ->
  0 <= i -> i + len (ext_ref p) <= int_max -> at_ s (b + i) (ext_ref p) ->
  ei_decode_ref q b i s
  = Some (Done (i + len (ext_ref p) - (if q then 4 * (ref_len p - 3) else 0))
       (if q then Some (Ref (c_str (ref_node p)) (ref_len p) (take 3 (ref_n p)) (ref_creation p))
        else None)).
Proof.
  intros Hn Hc Hw Hl H3 Hi Hm Ha. rewrite (decode_ref_words p) by (done || lia).
  by rewrite Z.max_r by lia.
Qed.

Lemma long_ref_index_witness :
  ei_decode_ref true 0 0 [114; 0; 4; 119; 1; 97; 0; 0;0;0;1; 0;0;0;2; 0;0;0;3; 0;0;0;4]
  = Some (Done 19 (Some (Ref [97] 4 [1; 2; 3] 0))).
Proof.
  apply (long_ref_index (Ref [97; 0] 4 [1; 2; 3; 4] 0) true 0 0
    [114; 0; 4; 119; 1; 97; 0; 0;0;0;1; 0;0;0;2; 0;0;0;3; 0;0;0;4]).
  - by apply name_ok_check.
  - cbn. unfold is_uint32. lia.
  - repeat constructor; unfold is_uint32; lia.
  - done.
  - cbn. lia.
  - lia.
  - vm_compute. discriminate.
  - split; [lia |]. exists [], []. split; reflexivity.
Defined.

(** When the name of the sender is not a valid atom, [ei_encode_trace]
    still returns 0: it leaves the pid out but for one byte of room. *)
Theorem trace_bad_sender p i s :
  is_int64 (tr_flags p) -> is_int64 (tr_label p) -> is_int64 (tr_serial p) ->
  is_int64 (tr_prev p) -> verify_utf8_atom (c_str (pid_node (tr_from p))) 0 = false ->
  let n := 3 + len (ext_longlong (tr_flags p)) + len (ext_longlong (tr_label p)) +
           len (ext_longlong (tr_serial p)) + len (ext_longlong (tr_prev p)) in
  0 <= i -> i + n <= int_max ->
  ei_encode_trace p NULL i s = Some ((0, i + n), s).
Proof.
  intros ? ? ? ? ? n Hi Hn. rewrite encode_trace_bad_name by (done || lia).
  unfold n. do 3 f_equal. lia.
Qed.

Lemma trace_bad_sender_witness :
  ei_encode_trace (Trace 1 2 (Pid [255; 0] 0 0 0) 3 4) NULL 0 [] = Some ((0, 11), []).
Proof.
  apply (trace_bad_sender (Trace 1 2 (Pid [255; 0] 0 0 0) 3 4));
    first [ done | cbn; unfold is_int64; lia | vm_compute; discriminate ].
Defined.

(** [ei_small_to_big] stores a non-negative [int] as it is; for a negative
    one the digits are those of its two's complement, not its magnitude. *)
Theorem small_to_big_value s b :
  is_int32 s -> 3 <= big_arity b <= 4 -> length (big_digits b) = 2%nat ->
  exists b', ei_small_to_big s b = (0, b') /\
    big_val b' = if s <? 0 then - (4294967296 + s) else s.
Proof. apply small_to_big_val. Qed.

Lemma small_to_big_value_witness :
  exists b', ei_small_to_big (-1) (ei_alloc_big 4) = (0, b') /\ big_val b' = -4294967295.
Proof. apply (small_to_big_value (-1)); [unfold is_int32; lia | cbn; lia | done]. Defined.
