(* ===== verification/Format.v ===== *)
(** * Terms from format strings: ei_format.c

    [ei_x_format] reads a text that looks like an Erlang term, with [~] and a
    letter in the place of an argument, and appends the term to a buffer. A
    [const char*] into the text is the distance from its start; [chr] reads the
    text, which ends with a zero, and is undefined behind it. Characters are
    classified as in the C locale, where none above 127 is in any class. *)

From S2P Require Import Prelude Mem PutGet Ext Headers Ints Atom Data Ids Term XBuff.

(** The arguments: [union arg], with the member that was stored. *)
Inductive format_arg :=
  | arg_c (c : Z)
  | arg_s (s : list Z)
  | arg_l (l : Z)
  | arg_u (u : Z)
  | arg_d (d : Z)
  | arg_pid (pid : erlang_pid).

Definition chr (fmt : list Z) (p : Z) : option Z :=
  if p =? len fmt then Some 0 else load p fmt.

Definition isspace (c : Z) : bool := (c =? 32) || ((9 <=? c) && (c <=? 13)).
Definition isdigit (c : Z) : bool := (48 <=? c) && (c <=? 57).
Definition islower (c : Z) : bool := (97 <=? c) && (c <=? 122).
Definition isupper (c : Z) : bool := (65 <=? c) && (c <=? 90).
Definition isalnum (c : Z) : bool := isdigit c || islower c || isupper c.

(** [sscanf(start, "%ld", &l)]: a sign, and the digits that follow. A number
    that a [long] does not hold is undefined. *)
Fixpoint strtol_digits (n : Z) (t : list Z) : Z :=
  match t with
  | c :: t => if isdigit c then strtol_digits (n * 10 + (c - 48)) t else n
  | [] => n
  end.

Definition sscanf_ld (t : list Z) : option Z :=
  let n :=
    match t with
    | [] => 0
    | c :: u =>
        if c =? 45 then - strtol_digits 0 u
        else if c =? 43 then strtol_digits 0 u else strtol_digits 0 t
    end in
  if (-9223372036854775808 <=? n) && (n <=? 9223372036854775807) then Some n else None.

Section Format.
Context (malloc : Z -> option (list Z)) (sscanf_lf : list Z -> option Z).

(** What the functions below return: the result, the pointer into the text, the
    arguments left, the buffer. *)
Definition format_result : Type := option (Z * Z * list format_arg * ei_x_buff).

Section Text.
Context (fmt : list Z).

(** The first character from [p] on that [f] does not hold of. *)
Fixpoint scan_while (fuel : nat) (f : Z -> bool) (p : Z) : option Z :=
  match fuel with
  | O => None
  | S fuel => c ← chr fmt p; if f c then scan_while fuel f (p + 1) else Some p
  end.

Definition text_fuel : nat := S (length fmt).

(** [while (isspace( *p)) ++p;] *)
Definition skip_spaces (p : Z) : option Z := scan_while text_fuel isspace p.

Definition patom (p : Z) (x : ei_x_buff) : option (Z * Z * ei_x_buff) :=
  let start := p in
  p ← scan_while text_fuel (fun c => isalnum c || (c =? 95) || (c =? 64)) p;
  let len := p - start in
  let len := if MAXATOMLEN <=? len then MAXATOMLEN - 1 else len in
  '(res, x) ← ei_x_encode_atom_len malloc x (drop (Z.to_nat start) fmt) len;
  Some (res, p, x).

(** The loop of [pdigit]: where it stops, and [dotp]. *)
Fixpoint digit_loop (fuel : nat) (p : Z) (dotp : bool) : option (Z * bool) :=
  match fuel with
  | O => None
  | S fuel =>
      c ← chr fmt p;
      if isdigit c then digit_loop fuel (p + 1) dotp
      else if negb dotp && (c =? 46) then digit_loop fuel (p + 1) true
      else Some (p, dotp)
  end.

(** [sscanf] gets the text from [start] on. *)
Definition pdigit (p : Z) (x : ei_x_buff) : option (Z * Z * ei_x_buff) :=
  let start := p in
  c ← chr fmt p;
  let p := if (c =? 45) || (c =? 43) then p + 1 else p in
  '(p, dotp) ← digit_loop text_fuel p false;
  if (dotp : bool) then
    d ← sscanf_lf (drop (Z.to_nat start) fmt);
    '(res, x) ← ei_x_encode_double malloc x d;
    Some (res, p, x)
  else
    l ← sscanf_ld (drop (Z.to_nat start) fmt);
    '(res, x) ← ei_x_encode_long malloc x l;
    Some (res, p, x).

(** Behind the closing [quote]; [inl] is the end of the text. *)
Fixpoint quote_loop (fuel : nat) (quote : Z) (p : Z) : option (Z + Z) :=
  match fuel with
  | O => None
  | S fuel =>
      c ← chr fmt p;
      let p := p + 1 in
      if c =? 0 then Some (inl p)
      else if c =? quote then
        b ← chr fmt (p - 1);
        if b =? 92 then quote_loop fuel quote p else Some (inr p)
      else quote_loop fuel quote p
  end.

Definition pstring (p : Z) (x : ei_x_buff) : option (Z * Z * ei_x_buff) :=
  let p := p + 1 in
  let start := p in
  r ← quote_loop text_fuel 34 p;
  match r with
  | inl p => Some (-1, p, x)
  | inr p =>
      '(res, x) ← ei_x_encode_string_len malloc x (drop (Z.to_nat start) fmt) (p - start - 1);
      Some (res, p, x)
  end.

Definition pquotedatom (p : Z) (x : ei_x_buff) : option (Z * Z * ei_x_buff) :=
  let p := p + 1 in
  let start := p in
  r ← quote_loop text_fuel 39 p;
  match r with
  | inl p => Some (-1, p, x)
  | inr p =>
      '(res, x) ← ei_x_encode_atom_len malloc x (drop (Z.to_nat start) fmt) (p - start - 1);
      Some (res, p, x)
  end.

(** A letter with a member that was not stored is undefined. *)
Definition pformat (p : Z) (args : list format_arg) (x : ei_x_buff) : format_result :=
  let p := p + 1 in
  c ← chr fmt p;
  let p := p + 1 in
  if (c =? 97) || (c =? 115) then
    match args with
    | arg_s s :: args =>
        '(res, x) ← (if c =? 97 then ei_x_encode_atom malloc x s else ei_x_encode_string malloc x s);
        Some (res, p, args, x)
    | _ => None
    end
  else if c =? 99 then
    match args with
    | arg_c c :: args => '(res, x) ← ei_x_encode_char malloc x c; Some (res, p, args, x)
    | _ => None
    end
  else if (c =? 105) || (c =? 108) then
    match args with
    | arg_l l :: args => '(res, x) ← ei_x_encode_long malloc x l; Some (res, p, args, x)
    | _ => None
    end
  else if c =? 117 then
    match args with
    | arg_u u :: args => '(res, x) ← ei_x_encode_ulong malloc x u; Some (res, p, args, x)
    | _ => None
    end
  else if (c =? 102) || (c =? 100) then
    match args with
    | arg_d d :: args => '(res, x) ← ei_x_encode_double malloc x d; Some (res, p, args, x)
    | _ => None
    end
  else if c =? 112 then
    match args with
    | arg_pid pid :: args => '(res, x) ← ei_x_encode_pid malloc x pid; Some (res, p, args, x)
    | _ => None
    end
  else Some (-1, p, args, x).

Definition keep_args (args : list format_arg) (r : option (Z * Z * ei_x_buff)) : format_result :=
  '(res, p, x) ← r; Some (res, p, args, x).

(** The end of a list or a tuple: the header in [x], then what [x2] has. *)
Definition pappend (header : option (Z * ei_x_buff)) (x2 : ei_x_buff) : option (Z * ei_x_buff) :=
  '(res, x) ← header;
  '(res, x) ← (if 0 <=? res then ei_x_append malloc x x2 else Some (res, x));
  let '(_, _) := ei_x_free x2 in
  Some (res, x).

Section Elements.
(** The recursive call. *)
Context (eiformat : Z -> list format_arg -> ei_x_buff -> format_result).

Fixpoint ptuple (fuel : nat) (p : Z) (args : list format_arg) (x : ei_x_buff) (size : Z)
    : format_result :=
  match fuel with
  | O => None
  | S fuel =>
      after ← chr fmt p;
      let p := p + 1 in
      if after =? 125 then Some (size, p, args, x) else
      p ← skip_spaces p;
      c ← chr fmt p;
      if c =? 125 then
        let p := p + 1 in
        if after =? 44 then Some (-1, p, args, x) else Some (size, p, args, x)
      else if c =? 44 then
        let p := p + 1 in
        if (after =? 44) || (after =? 123) then Some (-1, p, args, x)
        else ptuple fuel p args x size
      else
        '(res, p, args, x) ← eiformat p args x;
        if 0 <=? res then ptuple fuel p args x (size + 1) else Some (res, p, args, x)
  end.

Fixpoint plist (fuel : nat) (p : Z) (args : list format_arg) (x : ei_x_buff) (size : Z)
    : format_result :=
  match fuel with
  | O => None
  | S fuel =>
      after ← chr fmt p;
      let p := p + 1 in
      let p := if after =? 93 then p - 1 else p in
      p ← skip_spaces p;
      c ← chr fmt p;
      if c =? 93 then
        let p := p + 1 in
        if after =? 44 then Some (-1, p, args, x)
        else
          '(_, x) ← (if negb (after =? 124) then ei_x_encode_empty_list malloc x else Some (0, x));
          Some (size, p, args, x)
      else if (c =? 124) || (c =? 44) then
        let p := p + 1 in
        if (after =? 124) || (after =? 44) then Some (-1, p, args, x)
        else plist fuel p args x size
      else
        '(res, p, args, x) ← eiformat p args x;
        let size := size + 1 in
        if 0 <=? res then
          if after =? 124 then
            p ← skip_spaces p;
            c ← chr fmt p;
            Some (if c =? 93 then res else -1, p, args, x)
          else plist fuel p args x size
        else Some (res, p, args, x)
  end.
End Elements.

Fixpoint eiformat (fuel : nat) (p : Z) (args : list format_arg) (x : ei_x_buff) : format_result :=
  match fuel with
  | O => None
  | S fuel =>
      p ← skip_spaces p;
      c ← chr fmt p;
      if c =? 126 then pformat p args x
      else if c =? 91 then
        let (res, x2) := ei_x_new malloc in
        '(res, p, args, x2) ← (if 0 <=? res then plist (eiformat fuel) fuel p args x2 0
                               else Some (res, p, args, x2));
        '(res, x) ← pappend
          (if 0 <? res then ei_x_encode_list_header malloc x res else Some (res, x)) x2;
        Some (res, p, args, x)
      else if c =? 123 then
        let (res, x2) := ei_x_new malloc in
        '(res, p, args, x2) ← (if 0 <=? res then ptuple (eiformat fuel) fuel p args x2 0
                               else Some (res, p, args, x2));
        '(res, x) ← pappend
          (if 0 <=? res then ei_x_encode_tuple_header malloc x res else Some (res, x)) x2;
        Some (res, p, args, x)
      else if c =? 34 then keep_args args (pstring p x)
      else if c =? 39 then keep_args args (pquotedatom p x)
      else if isdigit c then keep_args args (pdigit p x)
      else
        sign ← (if (c =? 45) || (c =? 43) then c' ← chr fmt (p + 1); Some (isdigit c') else Some false);
        if (sign : bool) then keep_args args (pdigit p x)
        else if islower c then keep_args args (patom p x)
        else Some (-1, p, args, x)
  end.
End Text.

(** ** The arguments *)

(** What the caller passes after the text, each at its own C type. *)
Inductive c_arg :=
  | va_int (n : Z)
  | va_long (n : Z)
  | va_ulong (n : Z)
  | va_double (d : Z)
  | va_str (s : list Z)
  | va_pid (pid : erlang_pid).

(** The number of the characters ~ in the text. *)
Definition arg_count (fmt : list Z) : Z := len (filter (fun c => c = 126) fmt).

(** The second loop; [inl] is an error. [va_arg] at another type than the
    argument has is undefined. The array has room for [arg_count] values, one
    for each [~]. *)
Fixpoint read_args_loop (fmt : list Z) (ap : list c_arg) : option (unit + list format_arg) :=
  match fmt with
  | [] => Some (inr [])
  | c :: fmt =>
      if negb (c =? 126) then read_args_loop fmt ap else
      match fmt with
      | [] => Some (inl tt)
      | c :: fmt =>
          let one a ap := r ← read_args_loop fmt ap;
            Some (match r with inl _ => inl tt | inr args => inr (a :: args) end) in
          if c =? 99 then
            match ap with va_int n :: ap => one (arg_c (byte n)) ap | _ => None end
          else if (c =? 97) || (c =? 115) then
            match ap with va_str s :: ap => one (arg_s s) ap | _ => None end
          else if c =? 105 then
            match ap with va_int n :: ap => one (arg_l n) ap | _ => None end
          else if c =? 108 then
            match ap with va_long n :: ap => one (arg_l n) ap | _ => None end
          else if c =? 117 then
            match ap with va_ulong n :: ap => one (arg_u n) ap | _ => None end
          else if (c =? 102) || (c =? 100) then
            match ap with va_double d :: ap => one (arg_d d) ap | _ => None end
          else if c =? 112 then
            match ap with va_pid pid :: ap => one (arg_pid pid) ap | _ => None end
          else Some (inl tt)
      end
  end.

Definition args_malloc (n : Z) : bool := match malloc n with Some _ => true | None => false end.

Definition read_args (fmt : list Z) (ap : list c_arg) : option (unit + list format_arg) :=
  if arg_count fmt =? 0 then Some (inr [])
  else if negb (args_malloc (arg_count fmt * 8)) then Some (inl tt)
  else read_args_loop fmt ap.

Definition ei_x_format_wo_ver (fuel : nat) (x : ei_x_buff) (fmt : list Z) (ap : list c_arg)
    : option (Z * ei_x_buff) :=
  r ← read_args fmt ap;
  match r with
  | inl _ => Some (-1, x)
  | inr args => '(res, _, _, x) ← eiformat fmt fuel 0 args x; Some (res, x)
  end.

Definition ei_x_format (fuel : nat) (x : ei_x_buff) (fmt : list Z) (ap : list c_arg)
    : option (Z * ei_x_buff) :=
  '(res, x) ← ei_x_encode_version malloc x;
  if res <? 0 then Some (res, x) else ei_x_format_wo_ver fuel x fmt ap.
End Format.
