(* ===== verification/FormatOk.v ===== *)
(** * What the format scanner builds

    The texts [ei_x_format] means to accept, as a grammar: [form] gives for a
    text the arguments it takes and the bytes of the term. [eiformat_ok] runs
    the scanner over every such text. The grammar has the spaces the scanner
    can cope with: in front of an element and of a closing bracket, not in
    front of a comma. *)

From S2P Require Import Prelude Mem PutGet Ext Headers Ints Atom Data Ids Big Term Skip XBuff EiCorrect Format.

(** ** The grammar *)

Definition is_atom_char (c : Z) : bool := isalnum c || (c =? 95) || (c =? 64).

(** What may stand behind an element. *)
Definition stop (c : Z) : bool :=
  (c =? 0) || isspace c || (c =? 44) || (c =? 93) || (c =? 125).

Definition spaces (t : list Z) : Prop := Forall isspace t.
Definition sign_text (t : list Z) : Prop := t = [] \/ t = [45] \/ t = [43].
Definition digit_text (t : list Z) : Prop := t <> [] /\ Forall isdigit t.

(** The value of decimal digits. *)
Definition dec (ds : list Z) : Z := fold_left (fun n c => n * 10 + (c - 48)) ds 0.

(** The inside of quotes: no zero, no closing quote, and no ~, which
    [read_args] would take for an argument. *)
Definition quoted (q : Z) (cs : list Z) : Prop :=
  Forall (fun c => is_byte c /\ c <> 0 /\ c <> q /\ c <> 126) cs.

(** The letters, with the argument each takes, the union that is stored for it,
    and the term. *)
Inductive letter : Z -> c_arg -> format_arg -> list Z -> Prop :=
  | letter_a s : Forall is_byte s -> strlen s < MAXATOMLEN ->
      letter 97 (va_str s) (arg_s s) (ext_atom_latin1 (c_str s))
  | letter_s s : Forall is_byte s -> letter 115 (va_str s) (arg_s s) (ext_string (c_str s))
  | letter_c n : letter 99 (va_int n) (arg_c (byte n)) (ext_char n)
  | letter_i n : is_int32 n -> letter 105 (va_int n) (arg_l n) (ext_longlong n)
  | letter_l n : is_int64 n -> letter 108 (va_long n) (arg_l n) (ext_longlong n)
  | letter_u n : is_uint64 n -> letter 117 (va_ulong n) (arg_u n) (ext_ulonglong n)
  | letter_f c d : c = 102 \/ c = 100 -> is_uint64 d -> isfinite d = true ->
      letter c (va_double d) (arg_d d) (ext_double d)
  | letter_p pid : name_ok (pid_node pid) ->
      letter 112 (va_pid pid) (arg_pid pid) (ext_pid pid).

Section Grammar.
Context (sscanf_lf : list Z -> option Z).

(** [sscanf] reads the text [t] as the double [d], whatever follows that can
    stand behind an element. *)
Definition float_text (t : list Z) (d : Z) : Prop :=
  (exists s a b, t = s ++ a ++ [46] ++ b /\ sign_text s /\ digit_text a /\ Forall isdigit b) /\
  (forall rest, stop (hd 0 rest) -> sscanf_lf (t ++ rest) = Some d).

(** An atom longer than 255 characters is cut there. *)
Inductive form : list Z -> list (c_arg * format_arg) -> list Z -> Prop :=
  | form_atom c cs :
      islower c -> Forall is_atom_char cs -> form (c :: cs) [] (ext_atom_latin1 (take 255 (c :: cs)))
  | form_quoted cs :
      quoted 39 cs -> len cs < MAXATOMLEN -> form (39 :: cs ++ [39]) [] (ext_atom_latin1 cs)
  | form_string cs : quoted 34 cs -> form (34 :: cs ++ [34]) [] (ext_string cs)
  | form_int s ds n :
      sign_text s -> digit_text ds -> n = (if decide (s = [45]) then - dec ds else dec ds) ->
      is_int64 n -> form (s ++ ds) [] (ext_longlong n)
  | form_float t d : float_text t d -> is_uint64 d -> isfinite d = true -> form t [] (ext_double d)
  | form_letter c v a bs : letter c v a bs -> form [126; c] [(v, a)] bs
  | form_nil sp : spaces sp -> form (91 :: sp ++ [93]) [] [ERL_NIL_EXT]
  | form_list sp t args bss :
      spaces sp -> elems 93 t args bss ->
      form (91 :: sp ++ t) args (ext_list_header (len bss) ++ concat bss ++ [ERL_NIL_EXT])
  | form_empty sp : spaces sp -> form (123 :: sp ++ [125]) [] (ext_tuple_header 0)
  | form_tuple sp t args bss :
      spaces sp -> elems 125 t args bss ->
      form (123 :: sp ++ t) args (ext_tuple_header (len bss) ++ concat bss)
(** One element or more, separated by commas, and the closing bracket. *)
with elems : Z -> list Z -> list (c_arg * format_arg) -> list (list Z) -> Prop :=
  | elems_last close t sp args bs :
      form t args bs -> spaces sp -> elems close (t ++ sp ++ [close]) args [bs]
  | elems_next close t sp u args1 args2 bs bss :
      form t args1 bs -> spaces sp -> elems close u args2 bss ->
      elems close (t ++ 44 :: sp ++ u) (args1 ++ args2) (bs :: bss).
End Grammar.

Scheme form_elems := Induction for form Sort Prop
  with elems_form := Induction for elems Sort Prop.
Combined Scheme form_elems_ind from form_elems, elems_form.

(** ** Reading the text *)

Ltac bool_lia :=
  unfold is_atom_char, stop, isalnum, isdigit, islower, isupper, isspace in *; lia.

(** From [p] on the text is [t]. *)
Definition text_at (fmt : list Z) (p : Z) (t : list Z) : Prop :=
  0 <= p <= len fmt /\ drop (Z.to_nat p) fmt = t.

Section Text.
Context (fmt : list Z).

Lemma text_start : text_at fmt 0 fmt.
Proof. split; [lia | done]. Qed.

Lemma text_app p a t : text_at fmt p (a ++ t) -> text_at fmt (p + len a) t.
Proof.
  intros [Hp Ht]. assert (Hl := f_equal length Ht).
  rewrite length_drop, length_app in Hl. split; [lia |].
  rewrite Z2Nat.inj_add, Nat2Z.id by lia. by rewrite <- drop_drop, Ht, drop_app_length.
Qed.

Lemma text_next p c t : text_at fmt p (c :: t) -> text_at fmt (p + 1) t.
Proof. apply (text_app p [c] t). Qed.

Lemma text_len p t : text_at fmt p t -> len t = len fmt - p.
Proof. intros [Hp <-]. rewrite length_drop. lia. Qed.

Lemma text_chr p t : text_at fmt p t -> chr fmt p = Some (hd 0 t).
Proof.
  intros Ht. pose proof (text_len p t Ht). destruct Ht as [Hp Ht]. unfold chr.
  destruct (Z.eqb_spec p (len fmt)) as [E | E]; [destruct t; cbn in *; [done | lia] |].
  unfold load. rewrite (proj2 (Z.leb_le 0 p)) by lia.
  rewrite <- (Nat.add_0_r (Z.to_nat p)), <- lookup_drop, Ht.
  destruct t; [cbn in *; lia | done].
Qed.

Lemma scan_while_ok (f : Z -> bool) a t p fuel :
  text_at fmt p (a ++ t) -> Forall f a -> f (hd 0 t) = false -> (length a < fuel)%nat ->
  scan_while fmt fuel f p = Some (p + len a).
Proof.
  revert p fuel. induction a as [| c a IH]; intros p [| fuel] Ht Ha Hf Hl; cbn in Hl; try lia;
    cbn [scan_while]; rewrite (text_chr _ _ Ht); cbn [mbind option_bind hd app].
  - rewrite Hf. f_equal. cbn. lia.
  - inversion_clear Ha as [| ? ? Hc Ha']. apply Is_true_true in Hc; rewrite Hc.
    rewrite IH; [f_equal; rewrite len_cons; lia | by eapply text_next | done | done | lia].
Qed.

Lemma skip_spaces_ok sp t p :
  text_at fmt p (sp ++ t) -> spaces sp -> isspace (hd 0 t) = false ->
  skip_spaces fmt p = Some (p + len sp).
Proof.
  intros Ht Hs Hn. eapply scan_while_ok; [done.. |].
  pose proof (text_len _ _ Ht) as Hl. rewrite len_app in Hl. destruct Ht as [? _].
  unfold text_fuel. lia.
Qed.
End Text.

Section Loops.
Context (fmt : list Z).

Lemma fuel_enough p a t : text_at fmt p (a ++ t) -> (length a < text_fuel fmt)%nat.
Proof.
  intros Ht. pose proof (text_len _ _ _ Ht) as Hl. rewrite len_app in Hl. destruct Ht as [? _].
  unfold text_fuel. lia.
Qed.

Lemma digit_loop_digits ds t p dotp fuel :
  text_at fmt p (ds ++ t) -> Forall isdigit ds ->
  digit_loop fmt (length ds + fuel) p dotp = digit_loop fmt fuel (p + len ds) dotp.
Proof.
  revert p. induction ds as [| c ds IH]; intros p Ht Hd; [cbn; by rewrite Z.add_0_r |].
  inversion_clear Hd as [| ? ? Hc Hds]. apply Is_true_true in Hc.
  cbn [length Nat.add digit_loop]. rewrite (text_chr _ _ _ Ht). cbn [mbind option_bind hd app].
  rewrite Hc, IH; [f_equal; lia | by eapply text_next | done].
Qed.

Lemma digit_loop_stop t p dotp fuel :
  text_at fmt p t -> stop (hd 0 t) -> digit_loop fmt (S fuel) p dotp = Some (p, dotp).
Proof.
  intros Ht Hs. cbn [digit_loop]. rewrite (text_chr _ _ _ Ht). cbn [mbind option_bind].
  apply Is_true_true in Hs.
  replace (isdigit (hd 0 t)) with false by bool_lia.
  replace (hd 0 t =? 46) with false by bool_lia. by rewrite andb_false_r.
Qed.

Lemma digit_loop_int ds t p :
  text_at fmt p (ds ++ t) -> Forall isdigit ds -> stop (hd 0 t) ->
  digit_loop fmt (text_fuel fmt) p false = Some (p + len ds, false).
Proof.
  intros Ht Hd Hs. pose proof (fuel_enough _ _ _ Ht).
  replace (text_fuel fmt) with (length ds + S (text_fuel fmt - length ds - 1))%nat by lia.
  erewrite digit_loop_digits by done. apply digit_loop_stop with t; [by apply text_app | done].
Qed.

Lemma digit_loop_float a b t p :
  text_at fmt p (a ++ 46 :: b ++ t) -> Forall isdigit a -> Forall isdigit b -> stop (hd 0 t) ->
  digit_loop fmt (text_fuel fmt) p false = Some (p + len (a ++ [46] ++ b), true).
Proof.
  intros Ht Ha Hb Hs.
  assert (Hf : (length (a ++ 46%Z :: b) < text_fuel fmt)%nat)
    by (eapply fuel_enough; rewrite <- app_assoc; exact Ht).
  rewrite length_app in Hf. cbn in Hf.
  replace (text_fuel fmt) with
    (length a + S (length b + S (text_fuel fmt - length a - length b - 2)))%nat by lia.
  erewrite digit_loop_digits by done. apply text_app in Ht.
  cbn [digit_loop]. rewrite (text_chr _ _ _ Ht). cbn [mbind option_bind hd].
  change (isdigit 46) with false. cbn [negb andb Z.eqb Pos.eqb].
  apply text_next in Ht. erewrite digit_loop_digits by done. apply text_app in Ht.
  erewrite digit_loop_stop by done. rewrite !len_app. do 2 f_equal. change (len [46]) with 1. lia.
Qed.

Lemma quote_loop_ok q cs t p fuel :
  text_at fmt p (cs ++ q :: t) -> quoted q cs -> q <> 0 -> q <> 92 -> (length cs < fuel)%nat ->
  quote_loop fmt fuel q p = Some (inr (p + len cs + 1)).
Proof.
  intros Ht Hq H0 H92. revert p fuel Ht.
  induction Hq as [| c cs (Hc & Hc0 & Hcq & _) _ IH]; intros p [| fuel] Ht Hl; cbn in Hl; try lia;
    cbn [quote_loop]; rewrite (text_chr _ _ _ Ht); cbn [mbind option_bind hd app].
  - rewrite (proj2 (Z.eqb_neq q 0)), Z.eqb_refl by done.
    rewrite Z.add_simpl_r, (text_chr _ _ _ Ht). cbn [mbind option_bind hd app].
    rewrite (proj2 (Z.eqb_neq q 92)) by done. do 2 f_equal. cbn. lia.
  - rewrite (proj2 (Z.eqb_neq c 0)), (proj2 (Z.eqb_neq c q)) by done.
    rewrite IH; [do 2 f_equal; rewrite len_cons; lia | by eapply text_next | lia].
Qed.
End Loops.

(** What [sscanf] makes of an integer that stops. *)
Lemma strtol_digits_ok ds t n :
  Forall isdigit ds -> stop (hd 0 t) ->
  strtol_digits n (ds ++ t) = fold_left (fun n c => n * 10 + (c - 48)) ds n.
Proof.
  intros Hd Hs. revert n. induction Hd as [| c ds Hc _ IH]; intros n; cbn [app strtol_digits fold_left].
  - destruct t as [| c t]; [done |]. apply Is_true_true in Hs. cbn [hd] in Hs. cbn [strtol_digits].
    by replace (isdigit c) with false by bool_lia.
  - apply Is_true_true in Hc. by rewrite Hc, IH.
Qed.

Lemma sscanf_ld_ok s ds t n :
  sign_text s -> digit_text ds -> stop (hd 0 t) ->
  n = (if decide (s = [45]) then - dec ds else dec ds) -> is_int64 n ->
  sscanf_ld ((s ++ ds) ++ t) = Some n.
Proof.
  intros Hs [Hne Hd] Ht -> Hn. rewrite <- app_assoc. unfold sscanf_ld.
  match goal with |- context [(_ <=? ?m) && _] =>
    assert (E : m = (if decide (s = [45]) then - dec ds else dec ds)) end.
  { destruct Hs as [-> | [-> | ->]]; cbn [app].
    - rewrite decide_False by done. destruct ds as [| c ds]; [done |]. cbn [app].
      unfold dec. rewrite <- (strtol_digits_ok (c :: ds) t 0) by done.
      inversion_clear Hd as [| ? ? Hc ?]. apply Is_true_true in Hc.
      replace (c =? 45) with false by bool_lia. by replace (c =? 43) with false by bool_lia.
    - by rewrite decide_True, strtol_digits_ok by done.
    - by rewrite decide_False, strtol_digits_ok by done. }
  rewrite E. unfold is_int64 in Hn.
  by rewrite !(proj2 (Z.leb_le _ _)) by lia.
Qed.

(** ** The bytes *)

Lemma be16_bytes n : Forall is_byte (be16 n).
Proof. repeat constructor; apply byte_range. Qed.
Lemma be32_bytes n : Forall is_byte (be32 n).
Proof. repeat constructor; apply byte_range. Qed.
Lemma be64_bytes n : Forall is_byte (be64 n).
Proof. repeat constructor; apply byte_range. Qed.

Lemma cons_bytes b bs : is_byte b -> Forall is_byte bs -> Forall is_byte (b :: bs).
Proof. by constructor. Qed.
Lemma app_bytes a b : Forall is_byte a -> Forall is_byte b -> Forall is_byte (a ++ b).
Proof. intros. by apply Forall_app. Qed.
Lemma nil_bytes : Forall is_byte [].
Proof. constructor. Qed.

Create HintDb bytes.
#[export] Hint Resolve be16_bytes be32_bytes be64_bytes cons_bytes app_bytes nil_bytes byte_range
  utf8_of_latin1_byte digits_byte c_str_byte is_byte_neg_bit : bytes.
#[export] Hint Extern 1 (is_byte _) => (by apply is_byte_test) : bytes.

Lemma ext_atom_bytes long u : Forall is_byte u -> Forall is_byte (ext_atom long u).
Proof. unfold ext_atom. destruct long; auto 10 with bytes. Qed.

Lemma ext_longlong_bytes n : Forall is_byte (ext_longlong n).
Proof.
  unfold ext_longlong, ext_big. repeat case_match; auto 10 with bytes.
Qed.

Lemma ext_chars_bytes p : Forall is_byte p -> Forall is_byte (ext_chars p).
Proof. induction 1; [constructor |]. rewrite ext_chars_cons. auto with bytes. Qed.

Lemma ext_string_bytes p : Forall is_byte p -> Forall is_byte (ext_string p).
Proof.
  intros Hp. unfold ext_string. repeat case_match; auto 10 using ext_chars_bytes with bytes.
Qed.

Lemma ext_headers_bytes n : Forall is_byte (ext_tuple_header n) /\ Forall is_byte (ext_list_header n).
Proof.
  unfold ext_tuple_header, ext_list_header. split; case_match; auto 10 with bytes.
Qed.

Lemma ext_pid_bytes p : Forall is_byte (pid_node p) -> Forall is_byte (ext_pid p).
Proof.
  intros Hp. unfold ext_pid, ext_creation, pid_tag, ext_atom_utf8.
  repeat case_match; auto 12 using ext_atom_bytes with bytes.
Qed.

Lemma letter_bytes c v a bs : letter c v a bs -> Forall is_byte bs.
Proof.
  destruct 1; unfold ext_atom_latin1, ext_char, ext_double, ext_ulonglong;
    auto 10 using ext_atom_bytes, ext_string_bytes, ext_longlong_bytes with bytes.
  apply ext_pid_bytes. by destruct H.
Qed.

Lemma quoted_bytes q cs : quoted q cs -> Forall is_byte cs.
Proof. apply Forall_impl. by intros c [? _]. Qed.

Lemma atom_chars_bytes cs : Forall is_atom_char cs -> Forall is_byte cs.
Proof.
  apply Forall_impl. intros c Hc. apply Is_true_true in Hc. unfold is_byte. bool_lia.
Qed.

Lemma atom_nonempty p : ext_atom_latin1 p <> [].
Proof. unfold ext_atom_latin1, ext_atom. by case_match. Qed.
Lemma longlong_nonempty n : ext_longlong n <> [].
Proof. unfold ext_longlong. by repeat case_match. Qed.
Lemma string_nonempty p : ext_string p <> [].
Proof. unfold ext_string. by repeat case_match. Qed.
Lemma headers_nonempty n : ext_tuple_header n <> [] /\ ext_list_header n <> [].
Proof. unfold ext_tuple_header, ext_list_header. split; by case_match. Qed.

Lemma letter_nonempty c v a bs : letter c v a bs -> bs <> [].
Proof.
  by destruct 1; auto using atom_nonempty, longlong_nonempty, string_nonempty.
Qed.

Lemma len_of_string p : len (ext_string p) <= int_max -> len p <= int_max.
Proof.
  unfold ext_string. destruct (Z.eqb_spec (len p) 0); [unfold int_max; lia |].
  destruct (Z.leb_spec (len p) 0xffff); [unfold int_max; lia |].
  autorewrite with len. lia.
Qed.

Section Bytes.
Context (sscanf_lf : list Z -> option Z).

Lemma forms_bytes :
  (forall t args bs, form sscanf_lf t args bs -> Forall is_byte bs /\ bs <> []) /\
  (forall close t args bss, elems sscanf_lf close t args bss ->
    Forall is_byte (concat bss) /\ len bss <= len (concat bss) /\ 0 < len bss).
Proof.
  apply form_elems_ind.
  - intros c cs Hc Hcs. split; [| apply atom_nonempty]. apply ext_atom_bytes, utf8_of_latin1_byte.
    apply Forall_take, (atom_chars_bytes (c :: cs)). constructor; [| done].
    apply Is_true_true in Hc. apply Is_true_true. bool_lia.
  - intros cs Hq _. split; [| apply atom_nonempty].
    apply ext_atom_bytes, utf8_of_latin1_byte. by eapply quoted_bytes.
  - intros cs Hq. split; [| apply string_nonempty]. by eapply ext_string_bytes, quoted_bytes.
  - intros s ds n _ _ _ _. split; [apply ext_longlong_bytes | apply longlong_nonempty].
  - intros t d _ _ _. split; [unfold ext_double; auto with bytes | done].
  - intros c v a bs Hl. split; [by eapply letter_bytes | by eapply letter_nonempty].
  - intros sp _. split; [auto with bytes | done].
  - intros sp t args bss _ _ (Hb & _). destruct (headers_nonempty (len bss)) as [_ Hn].
    split; [| by intros [? _]%app_eq_nil].
    apply app_bytes; [apply ext_headers_bytes | auto with bytes].
  - intros sp _. split; [apply ext_headers_bytes | apply headers_nonempty].
  - intros sp t args bss _ _ (Hb & _). destruct (headers_nonempty (len bss)) as [Hn _].
    split; [| by intros [? _]%app_eq_nil].
    apply app_bytes; [apply ext_headers_bytes | done].
  - intros close t sp args bs _ [Hb Hn] _. cbn [concat]. rewrite app_nil_r.
    destruct bs; [done |]. cbn. split; [done | lia].
  - intros close t sp u args1 args2 bs bss _ [Hb Hn] _ _ (Hb' & Hl & _). cbn [concat].
    destruct bs; [done |]. rewrite len_app, !len_cons. split; [by apply app_bytes | lia].
Qed.

Lemma letter_etf c v a bs :
  letter c v a bs -> len bs <= int_max -> etf sscanf_lf bs.
Proof.
  destruct 1; intros Hl.
  - apply ext_atom_latin1_etf; [by apply c_str_byte | done].
  - apply ext_string_etf; [by apply c_str_byte |]. by apply len_of_string.
  - apply (etf_int _ (byte n)). constructor. apply byte_range.
  - apply ext_longlong_etf. unfold is_int32, is_int64 in *. lia.
  - by apply ext_longlong_etf.
  - by apply ext_ulonglong_etf.
  - by apply etf_float.
  - by apply etf_id, id_ext_pid, ext_pid_ext.
Qed.

Lemma forms_etf :
  (forall t args bs, form sscanf_lf t args bs -> len bs <= int_max -> etf sscanf_lf bs) /\
  (forall close t args bss, elems sscanf_lf close t args bss ->
    len (concat bss) <= int_max -> Forall (etf sscanf_lf) bss).
Proof.
  apply form_elems_ind.
  - intros c cs Hc Hcs _. apply ext_atom_latin1_etf; [| rewrite length_take; unfold MAXATOMLEN; lia].
    apply Forall_take, (atom_chars_bytes (c :: cs)). constructor; [| done].
    apply Is_true_true in Hc. apply Is_true_true. bool_lia.
  - intros cs Hq Hl _. apply ext_atom_latin1_etf; [by eapply quoted_bytes | done].
  - intros cs Hq Hl. apply ext_string_etf; [by eapply quoted_bytes | by apply len_of_string].
  - intros s ds n _ _ _ Hn _. by apply ext_longlong_etf.
  - intros t d _ Hd _ _. by apply etf_float.
  - intros c v a bs Hl. by eapply letter_etf.
  - intros sp _ _. apply etf_nil.
  - intros sp t args bss _ He IH Hl. destruct (proj2 forms_bytes _ _ _ _ He) as (_ & Hb & Hp).
    rewrite !len_app in Hl. apply ext_list_etf; [apply IH; lia | lia | by destruct bss].
  - intros sp _ _. apply (ext_tuple_etf sscanf_lf []); done.
  - intros sp t args bss _ He IH Hl. destruct (proj2 forms_bytes _ _ _ _ He) as (_ & Hb & Hp).
    rewrite len_app in Hl. apply (ext_tuple_etf sscanf_lf); [apply IH; lia | lia].
  - intros close t sp args bs _ IH _ Hl. cbn [concat] in Hl. rewrite app_nil_r in Hl. auto.
  - intros close t sp u args1 args2 bs bss _ IH1 _ _ IH2 Hl. cbn [concat] in Hl. rewrite len_app in Hl.
    constructor; [apply IH1; lia | apply IH2; lia].
Qed.
End Bytes.

(** ** The buffer *)

(** Room for [n] bytes more; [x'] is [x] with [bs] appended. *)
Definition room (x : ei_x_buff) (n : Z) : Prop :=
  x_ok x /\ buffsz x <= int_max /\ index x + n + 2 * ei_x_extra <= int_max.
Definition appends (x : ei_x_buff) (bs : list Z) (x' : ei_x_buff) : Prop :=
  x_ok x' /\ buffsz x' <= int_max /\ contents x' = contents x ++ bs.

Lemma appends_index x bs x' : x_ok x -> appends x bs x' -> index x' = index x + len bs.
Proof.
  intros Hx (Hx' & _ & Hc). rewrite <- (contents_len x'), <- (contents_len x), Hc by done.
  apply len_app.
Qed.

Lemma appends_room x bs x' n : room x (len bs + n) -> appends x bs x' -> room x' n.
Proof.
  intros (Hx & _ & Hi) Ha. pose proof (appends_index x bs x' Hx Ha).
  destruct Ha as (? & ? & _). split; [done |]. split; [done | lia].
Qed.

Lemma room_le x n m : room x n -> m <= n -> room x m.
Proof. intros (? & ? & ?) Hm. split; [done |]. split; [done | lia]. Qed.

Lemma appends_trans x a x1 b x2 : appends x a x1 -> appends x1 b x2 -> appends x (a ++ b) x2.
Proof.
  intros (_ & _ & H1) (? & ? & H2). split; [done |]. split; [done |]. by rewrite H2, H1, app_assoc.
Qed.

Lemma encode_atom_prefix_ok a t to : Forall is_byte a -> len a < MAXATOMLEN ->
  Encodes (ei_encode_atom_len_as (a ++ t) (len a) ERLANG_LATIN1 to) (ext_atom_latin1 a).
Proof.
  intros Ha Hl. eapply Encodes_ext; [| by apply encode_atom_latin1_ok].
  intros. rewrite atom_len_as_take by (rewrite len_app; lia). by rewrite Nat2Z.id, take_app_length.
Qed.

Section Run.
Context (malloc : Z -> option (list Z)) (sscanf_lf : list Z -> option Z).
Context (malloc_total : forall n, 0 <= n -> exists blk, malloc n = Some blk).
Context (malloc_size : forall n blk, malloc n = Some blk -> len blk = n).

Lemma x_runs f bs x : Encodes f bs -> room x (len bs) ->
  exists x', ei_x_encode malloc f x = Some (0, x') /\ appends x bs x'.
Proof.
  intros Hf (Hx & Hz & Hi). pose proof Hx as (_ & _ & _ & H0 & _).
  destruct (x_encode_ok malloc malloc_size f bs x) as (rc & x' & He & H); [done.. |].
  destruct H as [(-> & ? & ? & ?) | (_ & _ & _ & _ & Hm)]; [by exists x' |].
  destruct (malloc_total (index x + len bs + 2 * ei_x_extra)) as [blk Hb];
    [unfold ei_x_extra; lia | by rewrite Hb in Hm].
Qed.

Lemma new_runs : exists x, ei_x_new malloc = (0, x) /\ index x = 0 /\ x_ok x /\ contents x = [] /\
  buffsz x <= int_max.
Proof.
  destruct (malloc_total ei_x_extra) as [blk Hb]; [done |].
  exists (XBuff (Some blk) ei_x_extra 0). unfold ei_x_new. rewrite Hb. cbn [buff].
  split; [done |]. split; [done |]. split; [| by split].
  exists blk. split; [done |]. split; [by apply malloc_size | done].
Qed.

Lemma append_runs x x0 bs x2 :
  room x (len bs) -> Forall is_byte bs -> contents x0 = [] -> appends x0 bs x2 ->
  exists x', ei_x_append malloc x x2 = Some (0, x') /\ appends x bs x'.
Proof.
  intros (Hx & Hz & Hi) Hb H0 (Hx2 & _ & Hc). rewrite H0 in Hc. cbn [app] in Hc.
  pose proof (contents_len x2 Hx2) as Hl. rewrite Hc in Hl.
  destruct Hx2 as (blk & Hbl & Hbs & Hi2). unfold contents in Hc. rewrite Hbl in Hc. cbn in Hc.
  unfold ei_x_append. rewrite Hbl. pose proof Hx as (_ & _ & _ & Hi0 & _).
  destruct (x_append_ok malloc malloc_size x blk (index x2)) as (rc & x' & He & H);
    rewrite ?Hc; try done; [lia | lia |].
  destruct H as [(-> & ? & Hcx & ?) | (_ & _ & Hm)].
  - exists x'. rewrite Hc in Hcx. split; [done |]. by split; [| split].
  - destruct (malloc_total (index x + index x2 + 2 * ei_x_extra)) as [b Hmb];
      [unfold ei_x_extra; lia | by rewrite Hmb in Hm].
Qed.

(** *** The leaves *)

Context (fmt : list Z).

Lemma stop_not c : stop c ->
  is_atom_char c = false /\ isdigit c = false.
Proof. intros H. apply Is_true_true in H. split; bool_lia. Qed.

Lemma patom_runs p a t x :
  text_at fmt p (a ++ t) -> Forall is_atom_char a -> stop (hd 0 t) ->
  room x (len (ext_atom_latin1 (take 255 a))) ->
  exists x', patom malloc fmt p x = Some (0, p + len a, x') /\
    appends x (ext_atom_latin1 (take 255 a)) x'.
Proof.
  intros Ht Ha Hs Hr.
  assert (Hf : Encodes (ei_encode_atom_len_as (a ++ t) (len (take 255 a)) ERLANG_LATIN1 ERLANG_LATIN1)
      (ext_atom_latin1 (take 255 a))).
  { rewrite <- (take_drop 255 a) at 1. rewrite <- app_assoc.
    apply encode_atom_prefix_ok; [by apply Forall_take, atom_chars_bytes |].
    rewrite length_take. unfold MAXATOMLEN. lia. }
  destruct (x_runs _ _ _ Hf Hr) as (x' & He & Hx').
  exists x'. split; [| done]. unfold patom.
  rewrite (scan_while_ok _ is_atom_char a t); [| done | done | by apply stop_not | by eapply fuel_enough].
  cbn [mbind option_bind]. rewrite (proj2 Ht).
  replace (if MAXATOMLEN <=? p + len a - p then _ else _) with (len (take 255 a)).
  2:{ rewrite length_take. unfold MAXATOMLEN. destruct (Z.leb_spec (255 + 1) (p + len a - p)); lia. }
  unfold ei_x_encode_atom_len, ei_x_encode_atom_len_as. by rewrite He.
Qed.

Lemma quoted_runs q (f : list Z -> ptr -> Z -> M (Z * Z)) bs p cs t x :
  text_at fmt p (q :: cs ++ q :: t) -> quoted q cs -> q <> 0 -> q <> 92 ->
  Encodes (f (cs ++ q :: t)) bs -> room x (len bs) ->
  quote_loop fmt (text_fuel fmt) q (p + 1) = Some (inr (p + len (q :: cs ++ [q]))) /\
  drop (Z.to_nat (p + 1)) fmt = cs ++ q :: t /\
  exists x', ei_x_encode malloc (f (cs ++ q :: t)) x = Some (0, x') /\ appends x bs x'.
Proof.
  intros Ht Hq H0 H92 Hf Hr. apply text_next in Ht.
  split; [| split; [by destruct Ht | by apply x_runs]].
  erewrite quote_loop_ok; [| done.. | by eapply fuel_enough].
  do 2 f_equal. rewrite len_cons, len_app. change (len [q]) with 1. lia.
Qed.

Lemma pquotedatom_runs p cs t x :
  text_at fmt p (39 :: cs ++ 39 :: t) -> quoted 39 cs -> len cs < MAXATOMLEN ->
  room x (len (ext_atom_latin1 cs)) ->
  exists x', pquotedatom malloc fmt p x = Some (0, p + len (39 :: cs ++ [39]), x') /\
    appends x (ext_atom_latin1 cs) x'.
Proof.
  intros Ht Hq Hl Hr.
  destruct (quoted_runs 39 (fun s => ei_encode_atom_len_as s (len cs) ERLANG_LATIN1 ERLANG_LATIN1)
    (ext_atom_latin1 cs) p cs t x) as (Hloop & Hd & x' & He & Hx'); try done.
  { apply encode_atom_prefix_ok; [by eapply quoted_bytes | done]. }
  exists x'. split; [| done]. unfold pquotedatom. rewrite Hloop. cbn [mbind option_bind].
  rewrite Hd. unfold ei_x_encode_atom_len, ei_x_encode_atom_len_as.
  replace (p + len (39 :: cs ++ [39]) - (p + 1) - 1) with (len cs)
    by (rewrite len_cons, len_app; change (len [39]) with 1; lia).
  by rewrite He.
Qed.

Lemma pstring_runs p cs t x :
  text_at fmt p (34 :: cs ++ 34 :: t) -> quoted 34 cs -> room x (len (ext_string cs)) ->
  exists x', pstring malloc fmt p x = Some (0, p + len (34 :: cs ++ [34]), x') /\
    appends x (ext_string cs) x'.
Proof.
  intros Ht Hq Hr.
  destruct (quoted_runs 34 (fun s => ei_encode_string_len s (len cs))
    (ext_string cs) p cs t x) as (Hloop & Hd & x' & He & Hx'); try done.
  { apply encode_string_prefix_ok. by eapply quoted_bytes. }
  exists x'. split; [| done]. unfold pstring. rewrite Hloop. cbn [mbind option_bind].
  rewrite Hd. unfold ei_x_encode_string_len.
  replace (p + len (34 :: cs ++ [34]) - (p + 1) - 1) with (len cs)
    by (rewrite len_cons, len_app; change (len [34]) with 1; lia).
  by rewrite He.
Qed.

Lemma sign_step p s u t c :
  text_at fmt p (s ++ u ++ t) -> sign_text s -> u = c :: tail u -> isdigit c ->
  exists c0, chr fmt p = Some c0 /\
    (if (c0 =? 45) || (c0 =? 43) then p + 1 else p) = p + len s /\
    text_at fmt (p + len s) (u ++ t) /\ c0 = hd 0 (s ++ u).
Proof.
  intros Ht Hs Hu Hc. apply Is_true_true in Hc. exists (hd 0 (s ++ u)).
  rewrite (text_chr _ _ _ Ht). split; [rewrite Hu; by destruct Hs as [-> | [-> | ->]] |].
  split; [| split; [by apply text_app | done]].
  destruct Hs as [-> | [-> | ->]]; rewrite Hu; cbn [hd app]; [| done..].
  replace (c =? 45) with false by bool_lia. replace (c =? 43) with false by bool_lia. cbn. lia.
Qed.

Lemma pdigit_int_runs p s ds n t x :
  text_at fmt p ((s ++ ds) ++ t) -> sign_text s -> digit_text ds ->
  n = (if decide (s = [45]) then - dec ds else dec ds) -> is_int64 n -> stop (hd 0 t) ->
  room x (len (ext_longlong n)) ->
  exists x', pdigit malloc sscanf_lf fmt p x = Some (0, p + len (s ++ ds), x') /\
    appends x (ext_longlong n) x'.
Proof.
  intros Ht Hs [Hne Hd] Hn H64 Hst Hr.
  destruct (x_runs _ _ _ (encode_long_ok n H64) Hr) as (x' & He & Hx').
  exists x'. split; [| done]. pose proof Ht as Ht0. rewrite <- app_assoc in Ht0.
  destruct (sign_step p s ds t (hd 0 ds)) as (c0 & Hc0 & Hp & Ht1 & _);
    [done | done | by destruct ds | destruct ds; [done | by inversion_clear Hd] |].
  unfold pdigit. rewrite Hc0. cbn [mbind option_bind]. rewrite Hp.
  rewrite (digit_loop_int _ ds t) by done. cbn [mbind option_bind].
  rewrite (proj2 Ht). rewrite (sscanf_ld_ok s ds t n) by (done || by split).
  cbn [mbind option_bind]. unfold ei_x_encode_long. rewrite He.
  cbn [mbind option_bind]. do 3 f_equal. rewrite len_app. lia.
Qed.

Lemma pdigit_float_runs p u d t x :
  text_at fmt p (u ++ t) -> float_text sscanf_lf u d -> isfinite d = true ->
  stop (hd 0 t) -> room x (len (ext_double d)) ->
  exists x', pdigit malloc sscanf_lf fmt p x = Some (0, p + len u, x') /\
    appends x (ext_double d) x'.
Proof.
  intros Ht ((s & a & b & -> & Hs & [Hne Ha] & Hb) & Hd) Hfin Hst Hr.
  destruct (x_runs _ _ _ (encode_double_ok d Hfin) Hr) as (x' & He & Hx').
  exists x'. split; [| done]. pose proof Ht as Ht0. rewrite <- !app_assoc in Ht0. cbn [app] in Ht0.
  destruct (sign_step p s (a ++ 46 :: b) t (hd 0 a)) as (c0 & Hc0 & Hp & Ht1 & _);
    [by rewrite <- app_assoc | done | by destruct a | destruct a; [done | by inversion_clear Ha] |].
  rewrite <- app_assoc in Ht1. cbn [app] in Ht1.
  unfold pdigit. rewrite Hc0. cbn [mbind option_bind]. rewrite Hp.
  rewrite (digit_loop_float _ a b t) by done. cbn [mbind option_bind].
  rewrite (proj2 Ht), Hd by done.
  cbn [mbind option_bind]. unfold ei_x_encode_double. rewrite He.
  cbn [mbind option_bind]. do 3 f_equal. rewrite (len_app s). lia.
Qed.

Lemma pformat_runs p c v a bs t args x :
  text_at fmt p (126 :: c :: t) -> letter c v a bs -> room x (len bs) ->
  exists x', pformat malloc fmt p (a :: args) x = Some (0, p + 2, args, x') /\ appends x bs x'.
Proof.
  intros Ht Hl Hr. unfold pformat. rewrite (text_chr _ _ _ (text_next _ _ _ _ Ht)).
  cbn [mbind option_bind hd]. replace (p + 2) with (p + 1 + 1) by lia.
  destruct Hl as [s Hs Hn | s Hs | n | n Hn | n Hn | n Hn | c d Hc Hd Hf | pid Hn].
  - destruct (x_runs _ _ _ (encode_atom_c_str_ok s ERLANG_LATIN1 Hs Hn) Hr) as (x' & He & Hx').
    exists x'. cbn [Z.eqb Pos.eqb orb]. unfold ei_x_encode_atom, ei_x_encode_atom_len_as. by rewrite He.
  - destruct (x_runs _ _ _ (encode_string_c_str_ok s Hs) Hr) as (x' & He & Hx').
    exists x'. cbn [Z.eqb Pos.eqb orb]. unfold ei_x_encode_string, ei_x_encode_string_len. by rewrite He.
  - assert (Hb : ext_char (byte n) = ext_char n) by (unfold ext_char; by rewrite byte_byte).
    rewrite <- Hb in *. destruct (x_runs _ _ _ (encode_char_ok (byte n)) Hr) as (x' & He & Hx').
    exists x'. cbn [Z.eqb Pos.eqb orb]. unfold ei_x_encode_char. by rewrite He.
  - destruct (x_runs _ _ _ (encode_long_ok n ltac:(unfold is_int32, is_int64 in *; lia)) Hr)
      as (x' & He & Hx').
    exists x'. cbn [Z.eqb Pos.eqb orb]. unfold ei_x_encode_long. by rewrite He.
  - destruct (x_runs _ _ _ (encode_long_ok n Hn) Hr) as (x' & He & Hx').
    exists x'. cbn [Z.eqb Pos.eqb orb]. unfold ei_x_encode_long. by rewrite He.
  - destruct (x_runs _ _ _ (encode_ulonglong_ok n Hn : Encodes (ei_encode_ulong n) _) Hr) as (x' & He & Hx').
    exists x'. cbn [Z.eqb Pos.eqb orb]. unfold ei_x_encode_ulong. by rewrite He.
  - destruct (x_runs _ _ _ (encode_double_ok d Hf) Hr) as (x' & He & Hx').
    exists x'. destruct Hc as [-> | ->]; cbn [Z.eqb Pos.eqb orb]; unfold ei_x_encode_double; by rewrite He.
  - destruct (x_runs _ _ _ (encode_pid_ok pid Hn) Hr) as (x' & He & Hx').
    exists x'. cbn [Z.eqb Pos.eqb orb]. unfold ei_x_encode_pid. by rewrite He.
Qed.

(** *** Lists and tuples *)

(** The first character of an element. *)
Definition start (c : Z) : bool :=
  (c =? 126) || (c =? 91) || (c =? 123) || (c =? 34) || (c =? 39) || (c =? 45) || (c =? 43) ||
  isdigit c || islower c.

Lemma digits_start s ds u : sign_text s -> digit_text ds ->
  exists c v, s ++ ds ++ u = c :: v /\ start c = true.
Proof.
  intros Hs [Hne Hd]. destruct ds as [| d ds]; [done |].
  inversion_clear Hd as [| ? ? Hc ?]. apply Is_true_true in Hc.
  destruct Hs as [-> | [-> | ->]]; cbn [app]; eexists _, _; (split; [reflexivity |]); [| done..].
  unfold start. rewrite Hc. by rewrite orb_true_r.
Qed.

Lemma form_start t ops bs : form sscanf_lf t ops bs -> exists c u, t = c :: u /\ start c = true.
Proof.
  destruct 1 as [c cs Hc Hcs | | | s ds n Hs Hd | t d ((s & a & b & -> & Hs & Hd & _) & _) | | | | |];
    try (by eexists _, _).
  - eexists _, _. split; [done |]. apply Is_true_true in Hc. unfold start. rewrite Hc.
    by rewrite orb_true_r.
  - rewrite <- (app_nil_r ds). by apply digits_start.
  - by apply digits_start.
Qed.

Lemma start_not c : start c = true ->
  isspace c = false /\ (c =? 125) = false /\ (c =? 44) = false /\ (c =? 93) = false /\ (c =? 124) = false.
Proof. unfold start. intros H. repeat split; bool_lia. Qed.

Lemma space_not c : isspace c ->
  (c =? 125) = false /\ (c =? 44) = false /\ (c =? 93) = false /\ (c =? 124) = false.
Proof. intros H. apply Is_true_true in H. repeat split; bool_lia. Qed.

(** The closing bracket of a tuple, behind the opening one or an element. *)
Lemma ptuple_end ei after sp rest p args x size fuel :
  text_at fmt p (after :: sp ++ 125 :: rest) -> spaces sp -> after <> 44 -> after <> 125 ->
  ptuple fmt ei (S fuel) p args x size = Some (size, p + 1 + len sp + 1, args, x).
Proof.
  intros Ht Hs H44 H125. cbn [ptuple]. rewrite (text_chr _ _ _ Ht). cbn [mbind option_bind hd].
  apply text_next in Ht. rewrite (proj2 (Z.eqb_neq _ _)) by done.
  rewrite (skip_spaces_ok _ sp (125 :: rest)) by done. cbn [mbind option_bind].
  apply text_app in Ht. rewrite (text_chr _ _ _ Ht). cbn [mbind option_bind hd Z.eqb Pos.eqb].
  by rewrite (proj2 (Z.eqb_neq _ _)) by done.
Qed.

Lemma ptuple_close ei sp rest p args x size fuel :
  text_at fmt p (sp ++ 125 :: rest) -> spaces sp ->
  ptuple fmt ei (S fuel) p args x size = Some (size, p + len sp + 1, args, x).
Proof.
  intros Ht Hs. destruct sp as [| c sp].
  - cbn [ptuple]. rewrite (text_chr _ _ _ Ht). cbn [mbind option_bind hd app Z.eqb Pos.eqb].
    do 4 f_equal. cbn. lia.
  - inversion_clear Hs as [| ? ? Hc ?]. destruct (space_not c Hc) as (? & ? & _).
    erewrite ptuple_end; [| exact Ht | done | by apply Z.eqb_neq..].
    do 4 f_equal. rewrite len_cons. lia.
Qed.

Lemma plist_end ei after sp rest p args x size fuel :
  text_at fmt p (after :: sp ++ 93 :: rest) -> spaces sp -> after <> 44 -> after <> 93 ->
  after <> 124 -> room x 1 ->
  exists x', plist malloc fmt ei (S fuel) p args x size
    = Some (size, p + 1 + len sp + 1, args, x') /\ appends x [ERL_NIL_EXT] x'.
Proof.
  intros Ht Hs H44 H93 H124 Hr.
  destruct (x_runs _ _ _ encode_empty_list_ok Hr) as (x' & He & Hx'). exists x'. split; [| done].
  cbn [plist]. rewrite (text_chr _ _ _ Ht). cbn [mbind option_bind hd].
  apply text_next in Ht. rewrite (proj2 (Z.eqb_neq after 93)) by done.
  rewrite (skip_spaces_ok _ sp (93 :: rest)) by done. cbn [mbind option_bind].
  apply text_app in Ht. rewrite (text_chr _ _ _ Ht). cbn [mbind option_bind hd Z.eqb Pos.eqb].
  rewrite (proj2 (Z.eqb_neq after 44)), (proj2 (Z.eqb_neq after 124)) by done.
  unfold ei_x_encode_empty_list. cbn [negb]. by rewrite He.
Qed.

Lemma plist_close ei sp rest p args x size fuel :
  text_at fmt p (sp ++ 93 :: rest) -> spaces sp -> room x 1 ->
  exists x', plist malloc fmt ei (S fuel) p args x size
    = Some (size, p + len sp + 1, args, x') /\ appends x [ERL_NIL_EXT] x'.
Proof.
  intros Ht Hs Hr. destruct sp as [| c sp].
  - destruct (x_runs _ _ _ encode_empty_list_ok Hr) as (x' & He & Hx'). exists x'. split; [| done].
    cbn [plist]. rewrite (text_chr _ _ _ Ht). cbn [mbind option_bind hd app Z.eqb Pos.eqb].
    rewrite Z.add_simpl_r, (skip_spaces_ok _ [] (93 :: rest)) by done. cbn [mbind option_bind].
    change (len []) with 0. rewrite Z.add_0_r, (text_chr _ _ _ Ht).
    cbn [mbind option_bind hd app Z.eqb Pos.eqb negb]. unfold ei_x_encode_empty_list. by rewrite He.
  - inversion_clear Hs as [| ? ? Hc ?]. destruct (space_not c Hc) as (? & ? & ? & ?).
    destruct (plist_end ei c sp rest p args x size fuel) as (x' & He & Hx');
      [done | done | by apply Z.eqb_neq.. | done |].
    exists x'. split; [| done]. rewrite He. do 4 f_equal. rewrite len_cons. lia.
Qed.

(** One element, behind the opening bracket or a comma. *)
Lemma ptuple_step ei after sp c u p args x size fuel :
  text_at fmt p (after :: sp ++ c :: u) -> spaces sp -> start c = true -> after <> 125 ->
  ptuple fmt ei (S fuel) p args x size =
    ('(res, p, args, x) ← ei (p + 1 + len sp) args x;
     if 0 <=? res then ptuple fmt ei fuel p args x (size + 1)
     else Some (res, p, args, x)).
Proof.
  intros Ht Hs Hc Ha. apply start_not in Hc as (Hc & H125 & H44 & _).
  cbn [ptuple]. rewrite (text_chr _ _ _ Ht). cbn [mbind option_bind hd].
  apply text_next in Ht. rewrite (proj2 (Z.eqb_neq _ _)) by done.
  rewrite (skip_spaces_ok _ sp (c :: u)) by done. cbn [mbind option_bind].
  apply text_app in Ht. rewrite (text_chr _ _ _ Ht). cbn [mbind option_bind hd].
  by rewrite H125, H44.
Qed.

Lemma plist_step ei after sp c u p args x size fuel :
  text_at fmt p (after :: sp ++ c :: u) -> spaces sp -> start c = true ->
  after <> 93 -> after <> 124 ->
  plist malloc fmt ei (S fuel) p args x size =
    ('(res, p, args, x) ← ei (p + 1 + len sp) args x;
     if 0 <=? res then plist malloc fmt ei fuel p args x (size + 1)
     else Some (res, p, args, x)).
Proof.
  intros Ht Hs Hc Ha H124'. apply start_not in Hc as (Hc & _ & H44 & H93 & H124).
  cbn [plist]. rewrite (text_chr _ _ _ Ht). cbn [mbind option_bind hd].
  apply text_next in Ht. rewrite (proj2 (Z.eqb_neq after 93)) by done.
  rewrite (skip_spaces_ok _ sp (c :: u)) by done. cbn [mbind option_bind].
  apply text_app in Ht. rewrite (text_chr _ _ _ Ht). cbn [mbind option_bind hd].
  rewrite H93, H124, H44. cbn [orb]. by rewrite (proj2 (Z.eqb_neq after 124)) by done.
Qed.

(** What the scanner does with the text of a term, and with the elements of a
    tuple or a list from the comma or the opening bracket on. *)
Definition form_runs (t : list Z) (ops : list (c_arg * format_arg)) (bs : list Z) : Prop :=
  forall p rest args x fuel,
    text_at fmt p (t ++ rest) -> stop (hd 0 rest) -> room x (len bs) -> (length t < fuel)%nat ->
    exists x', eiformat malloc sscanf_lf fmt fuel p (ops.*2 ++ args) x
      = Some (0, p + len t, args, x') /\ appends x bs x'.

Definition tuple_runs (t : list Z) (ops : list (c_arg * format_arg)) (bss : list (list Z)) : Prop :=
  forall after sp p rest args x size deep fuel,
    text_at fmt p (after :: sp ++ t ++ rest) -> spaces sp -> after = 44 \/ after = 123 ->
    room x (len (concat bss)) -> (length t < deep)%nat -> (length t < fuel)%nat ->
    exists x', ptuple fmt (eiformat malloc sscanf_lf fmt deep) fuel p (ops.*2 ++ args) x size
      = Some (size + len bss, p + 1 + len sp + len t, args, x') /\ appends x (concat bss) x'.

Definition list_runs (t : list Z) (ops : list (c_arg * format_arg)) (bss : list (list Z)) : Prop :=
  forall after sp p rest args x size deep fuel,
    text_at fmt p (after :: sp ++ t ++ rest) -> spaces sp -> after = 44 \/ after = 91 ->
    room x (len (concat bss) + 1) -> (length t < deep)%nat -> (length t < fuel)%nat ->
    exists x', plist malloc fmt (eiformat malloc sscanf_lf fmt deep) fuel p (ops.*2 ++ args) x size
      = Some (size + len bss, p + 1 + len sp + len t, args, x') /\
      appends x (concat bss ++ [ERL_NIL_EXT]) x'.

Definition elems_run (close : Z) t ops bss : Prop :=
  (close = 125 -> tuple_runs t ops bss) /\ (close = 93 -> list_runs t ops bss).

Lemma spaces_stop sp c t : spaces sp -> stop c -> stop (hd 0 (sp ++ c :: t)).
Proof.
  intros Hs Hc. destruct sp as [| d sp]; [done |]. inversion_clear Hs as [| ? ? Hd ?].
  apply Is_true_true in Hd. apply Is_true_true. cbn [hd app]. bool_lia.
Qed.

Lemma tuple_last t sp args bs :
  form sscanf_lf t args bs -> form_runs t args bs -> spaces sp ->
  tuple_runs (t ++ sp ++ [125]) args [bs].
Proof.
  intros Hform IH Hs2 after sp1 p rest args' x size deep [| fuel] Ht Hs1 Ha Hr Hd Hl; [lia |].
  rewrite <- !app_assoc in Ht. cbn [app] in Ht. cbn [concat] in *. rewrite app_nil_r in *.
  rewrite !length_app in Hd, Hl. cbn [length] in Hd, Hl.
  destruct (form_start _ _ _ Hform) as (c & u & E & Hc).
  erewrite ptuple_step; [| rewrite E in Ht; exact Ht | done | done | by destruct Ha as [-> | ->]].
  apply text_next, text_app in Ht.
  destruct (IH (p + 1 + len sp1) (sp ++ 125 :: rest) args' x deep) as (x' & He & Hx');
    [done | by apply spaces_stop | done | lia |].
  exists x'. split; [| done]. rewrite He. cbn [mbind option_bind]. change (0 <=? 0) with true.
  cbv iota. destruct fuel as [| fuel]; [lia |]. apply text_app in Ht.
  rewrite (ptuple_close _ sp rest) by done. do 4 f_equal. rewrite !len_app. change (len [125]) with 1. lia.
Qed.

Lemma tuple_next t sp u args1 args2 bs bss :
  form sscanf_lf t args1 bs -> form_runs t args1 bs -> spaces sp -> tuple_runs u args2 bss ->
  tuple_runs (t ++ 44 :: sp ++ u) (args1 ++ args2) (bs :: bss).
Proof.
  intros Hform IH Hs2 IHu after sp1 p rest args' x size deep [| fuel] Ht Hs1 Ha Hr Hd Hl; [lia |].
  rewrite <- !app_assoc in Ht. cbn [app] in Ht. rewrite <- app_assoc in Ht.
  cbn [concat] in *. rewrite len_app in Hr.
  rewrite !length_app in Hd, Hl. cbn [length] in Hd, Hl. rewrite !length_app in Hd, Hl.
  destruct (form_start _ _ _ Hform) as (c & v & E & Hc).
  erewrite ptuple_step; [| rewrite E in Ht; exact Ht | done | done | by destruct Ha as [-> | ->]].
  apply text_next, text_app in Ht.
  destruct (IH (p + 1 + len sp1) (44 :: sp ++ u ++ rest) (args2.*2 ++ args') x deep)
    as (x' & He & Hx'); [done | done | by eapply room_le; [done | lia] | lia |].
  rewrite fmap_app, <- app_assoc, He. cbn [mbind option_bind]. change (0 <=? 0) with true. cbv iota.
  apply text_app in Ht.
  destruct (IHu 44 sp _ rest args' x' (size + 1) deep fuel Ht Hs2) as (x2 & He2 & Hx2);
    [by left | by eapply appends_room | lia | lia |].
  exists x2. split; [| by eapply appends_trans]. rewrite He2. rewrite !len_app, !len_cons, !len_app.
  do 4 f_equal; lia.
Qed.

Lemma list_last t sp args bs :
  form sscanf_lf t args bs -> form_runs t args bs -> spaces sp ->
  list_runs (t ++ sp ++ [93]) args [bs].
Proof.
  intros Hform IH Hs2 after sp1 p rest args' x size deep [| fuel] Ht Hs1 Ha Hr Hd Hl; [lia |].
  rewrite <- !app_assoc in Ht. cbn [app] in Ht. cbn [concat] in *. rewrite app_nil_r in *.
  rewrite !length_app in Hd, Hl. cbn [length] in Hd, Hl.
  destruct (form_start _ _ _ Hform) as (c & u & E & Hc).
  erewrite plist_step; [| rewrite E in Ht; exact Ht | done | done | by destruct Ha as [-> | ->]..].
  apply text_next, text_app in Ht.
  destruct (IH (p + 1 + len sp1) (sp ++ 93 :: rest) args' x deep) as (x' & He & Hx');
    [done | by apply spaces_stop | by eapply room_le; [done | lia] | lia |].
  rewrite He. cbn [mbind option_bind]. change (0 <=? 0) with true.
  cbv iota. destruct fuel as [| fuel]; [lia |]. apply text_app in Ht.
  destruct (plist_close (eiformat malloc sscanf_lf fmt deep) sp rest _ args' x' (size + 1) fuel Ht Hs2) as (x2 & He2 & Hx2);
    [by eapply appends_room |].
  exists x2. split; [| by eapply appends_trans]. rewrite He2.
  do 4 f_equal. rewrite !len_app. change (len [93]) with 1. lia.
Qed.

Lemma list_next t sp u args1 args2 bs bss :
  form sscanf_lf t args1 bs -> form_runs t args1 bs -> spaces sp -> list_runs u args2 bss ->
  list_runs (t ++ 44 :: sp ++ u) (args1 ++ args2) (bs :: bss).
Proof.
  intros Hform IH Hs2 IHu after sp1 p rest args' x size deep [| fuel] Ht Hs1 Ha Hr Hd Hl; [lia |].
  rewrite <- !app_assoc in Ht. cbn [app] in Ht. rewrite <- app_assoc in Ht.
  cbn [concat] in *. rewrite len_app, <- Z.add_assoc in Hr.
  rewrite !length_app in Hd, Hl. cbn [length] in Hd, Hl. rewrite !length_app in Hd, Hl.
  destruct (form_start _ _ _ Hform) as (c & v & E & Hc).
  erewrite plist_step; [| rewrite E in Ht; exact Ht | done | done | by destruct Ha as [-> | ->]..].
  apply text_next, text_app in Ht.
  destruct (IH (p + 1 + len sp1) (44 :: sp ++ u ++ rest) (args2.*2 ++ args') x deep)
    as (x' & He & Hx'); [done | done | by eapply room_le; [done | lia] | lia |].
  rewrite fmap_app, <- app_assoc, He. cbn [mbind option_bind]. change (0 <=? 0) with true. cbv iota.
  apply text_app in Ht.
  destruct (IHu 44 sp _ rest args' x' (size + 1) deep fuel Ht Hs2) as (x2 & He2 & Hx2);
    [by left | by eapply appends_room | lia | lia |].
  exists x2. split; [| rewrite <- app_assoc; by eapply appends_trans]. rewrite He2.
  rewrite !len_app, !len_cons, !len_app. do 4 f_equal; lia.
Qed.

(** The scanner in front of an element: no spaces, then a case on its first
    character. *)
Lemma at_start p c u : text_at fmt p (c :: u) -> start c = true ->
  skip_spaces fmt p = Some p /\ chr fmt p = Some c.
Proof.
  intros Ht Hc. split; [| by apply (text_chr _ _ _ Ht)].
  rewrite (skip_spaces_ok _ [] (c :: u)); [f_equal; cbn; lia | done | constructor |].
  by apply start_not.
Qed.

Ltac at_start_tac Ht :=
  let H1 := fresh in let H2 := fresh in
  destruct (at_start _ _ _ Ht ltac:(done)) as [H1 H2];
  cbn [eiformat]; rewrite H1; cbn [mbind option_bind]; rewrite H2;
  cbn [mbind option_bind Z.eqb Pos.eqb].

Lemma form_atom_runs c cs : islower c -> Forall is_atom_char cs ->
  form_runs (c :: cs) [] (ext_atom_latin1 (take 255 (c :: cs))).
Proof.
  intros Hc Hcs p rest args x [| fuel] Ht Hst Hr Hl; [lia |]. apply Is_true_true in Hc.
  assert (Hsc : start c = true) by (unfold start; by rewrite Hc, orb_true_r).
  destruct (at_start _ _ _ Ht Hsc) as [H1 H2]. cbn [eiformat]. rewrite H1. cbn [mbind option_bind].
  rewrite H2. cbn [mbind option_bind].
  replace (c =? 126) with false by bool_lia. replace (c =? 91) with false by bool_lia.
  replace (c =? 123) with false by bool_lia. replace (c =? 34) with false by bool_lia.
  replace (c =? 39) with false by bool_lia. replace (isdigit c) with false by bool_lia.
  replace (c =? 45) with false by bool_lia. replace (c =? 43) with false by bool_lia.
  cbn [orb mbind option_bind]. rewrite Hc.
  destruct (patom_runs p (c :: cs) rest x Ht) as (x' & He & Hx');
    [constructor; [apply Is_true_true; bool_lia | done] | done | done |].
  exists x'. by rewrite He.
Qed.

Lemma form_digits_runs p s ds u t fuel args x :
  text_at fmt p ((s ++ ds ++ u) ++ t) -> sign_text s -> digit_text ds ->
  eiformat malloc sscanf_lf fmt (S fuel) p args x = keep_args args (pdigit malloc sscanf_lf fmt p x).
Proof.
  intros Ht Hs Hd. destruct (digits_start s ds u Hs Hd) as (c & v & E & Hc).
  rewrite E in Ht. destruct (at_start _ _ _ Ht Hc) as [H1 H2].
  cbn [eiformat]. rewrite H1. cbn [mbind option_bind]. rewrite H2. cbn [mbind option_bind].
  destruct Hd as [Hne Hd]. destruct ds as [| d ds]; [done |].
  inversion_clear Hd as [| ? ? Hdd ?]. apply Is_true_true in Hdd.
  destruct Hs as [-> | [-> | ->]]; cbn [app] in E; injection E as <- <-.
  - replace (d =? 126) with false by bool_lia. replace (d =? 91) with false by bool_lia.
    replace (d =? 123) with false by bool_lia. replace (d =? 34) with false by bool_lia.
    replace (d =? 39) with false by bool_lia. by rewrite Hdd.
  - cbn [Z.eqb Pos.eqb]. change (isdigit 45) with false. cbn [orb].
    rewrite (text_chr _ _ _ (text_next _ _ _ _ Ht)). cbn [mbind option_bind hd app]. by rewrite Hdd.
  - cbn [Z.eqb Pos.eqb]. change (isdigit 43) with false. cbn [orb].
    rewrite (text_chr _ _ _ (text_next _ _ _ _ Ht)). cbn [mbind option_bind hd app]. by rewrite Hdd.
Qed.

(** The end of a list or a tuple: its header, then what the buffer of its
    elements holds. *)
Lemma pappend_runs f h bs x x0 x2 :
  Encodes f h -> room x (len (h ++ bs)) -> Forall is_byte bs -> contents x0 = [] ->
  appends x0 bs x2 ->
  exists x', pappend malloc (ei_x_encode malloc f x) x2 = Some (0, x') /\ appends x (h ++ bs) x'.
Proof.
  intros Hf Hr Hb H0 H2. rewrite len_app in Hr.
  destruct (x_runs f h x Hf) as (x1 & He & H1); [by eapply room_le; [done | lia] |].
  destruct (append_runs x1 x0 bs x2) as (x' & Ha & Hx'); [by eapply appends_room | done.. |].
  exists x'. split; [| by eapply appends_trans].
  unfold pappend. rewrite He. cbn [mbind option_bind]. change (0 <=? 0) with true. cbv iota.
  rewrite Ha. cbn [mbind option_bind]. by destruct (ei_x_free x2).
Qed.

Lemma pappend_nil x bs x0 x2 :
  room x (len bs) -> Forall is_byte bs -> contents x0 = [] -> appends x0 bs x2 ->
  exists x', pappend malloc (Some (0, x)) x2 = Some (0, x') /\ appends x bs x'.
Proof.
  intros Hr Hb H0 H2. destruct (append_runs x x0 bs x2) as (x' & Ha & Hx'); [done.. |].
  exists x'. split; [| done]. unfold pappend. cbn [mbind option_bind].
  change (0 <=? 0) with true. cbv iota.
  rewrite Ha. cbn [mbind option_bind]. by destruct (ei_x_free x2).
Qed.

Lemma new_room x : index x = 0 -> x_ok x -> buffsz x <= int_max ->
  forall y n, room y n -> room x n.
Proof.
  intros Hi Hx Hz y n ((_ & _ & _ & H0 & _) & _ & Hn). split; [done |]. split; [done | lia].
Qed.

Lemma eiformat_bracket p u args x fuel :
  text_at fmt p (91 :: u) ->
  eiformat malloc sscanf_lf fmt (S fuel) p args x =
    (let (res, x2) := ei_x_new malloc in
     '(res, p, args, x2) ← (if 0 <=? res then plist malloc fmt (eiformat malloc sscanf_lf fmt fuel) fuel p args x2 0
                            else Some (res, p, args, x2));
     '(res, x) ← pappend malloc
       (if 0 <? res then ei_x_encode_list_header malloc x res else Some (res, x)) x2;
     Some (res, p, args, x)).
Proof. intros Ht. by at_start_tac Ht. Qed.

Lemma eiformat_brace p u args x fuel :
  text_at fmt p (123 :: u) ->
  eiformat malloc sscanf_lf fmt (S fuel) p args x =
    (let (res, x2) := ei_x_new malloc in
     '(res, p, args, x2) ← (if 0 <=? res then ptuple fmt (eiformat malloc sscanf_lf fmt fuel) fuel p args x2 0
                            else Some (res, p, args, x2));
     '(res, x) ← pappend malloc
       (if 0 <=? res then ei_x_encode_tuple_header malloc x res else Some (res, x)) x2;
     Some (res, p, args, x)).
Proof. intros Ht. by at_start_tac Ht. Qed.

Lemma form_list_runs sp t ops bss :
  elems sscanf_lf 93 t ops bss -> spaces sp -> list_runs t ops bss ->
  form_runs (91 :: sp ++ t) ops (ext_list_header (len bss) ++ concat bss ++ [ERL_NIL_EXT]).
Proof.
  intros Hel Hs IH p rest args x [| fuel] Ht Hst Hr Hl; [lia |].
  destruct (proj2 (forms_bytes sscanf_lf) _ _ _ _ Hel) as (Hb & Hle & Hpos).
  cbn [app length] in *. rewrite <- app_assoc in Ht. rewrite length_app in Hl.
  pose proof Hr as (_ & _ & Hmax). rewrite !len_app in Hmax. change (len [_]) with 1 in Hmax.
  unfold ei_x_extra in Hmax. pose proof (proj1 Hr) as (_ & _ & _ & H0 & _).
  rewrite (eiformat_bracket _ _ _ _ _ Ht). destruct new_runs as (x0 & -> & Hi0 & Hok0 & Hc0 & Hz0).
  change (0 <=? 0) with true. cbv iota.
  destruct (IH 91 sp p rest args x0 0 fuel fuel Ht Hs ltac:(by right)) as (x2 & He & H2); [| lia | lia |].
  { eapply new_room; [done.. |]. eapply room_le; [exact Hr |]. rewrite !len_app.
    change (len [_]) with 1. lia. }
  rewrite He. cbn [mbind option_bind]. rewrite (proj2 (Z.ltb_lt 0 _)) by lia.
  destruct (pappend_runs (ei_encode_list_header (int32 (0 + len bss))) (ext_list_header (len bss))
    (concat bss ++ [ERL_NIL_EXT]) x x0 x2) as (x' & Hp & Hx'); try done.
  { apply encode_arity_ok; [by apply encode_list_header_ok | lia]. }
  { auto with bytes. }
  exists x'. split; [| done]. unfold ei_x_encode_list_header. rewrite Hp. cbn [mbind option_bind].
  do 4 f_equal. rewrite length_app. lia.
Qed.

Lemma form_nil_runs sp : spaces sp -> form_runs (91 :: sp ++ [93]) [] [ERL_NIL_EXT].
Proof.
  intros Hs p rest args x [| fuel] Ht Hst Hr Hl; [lia |].
  cbn [app length] in *. rewrite <- app_assoc in Ht. rewrite length_app in Hl.
  rewrite (eiformat_bracket _ _ _ _ _ Ht). destruct new_runs as (x0 & -> & Hi0 & Hok0 & Hc0 & Hz0).
  change (0 <=? 0) with true. cbv iota. destruct fuel as [| fuel]; [lia |].
  destruct (plist_end (eiformat malloc sscanf_lf fmt (S fuel)) 91 sp rest p args x0 0 fuel Ht Hs) as (x2 & He & H2);
    [done.. | by eapply new_room |].
  cbn [fmap list_fmap app]. rewrite He. cbn [mbind option_bind]. change (0 <? 0) with false. cbv iota.
  destruct (pappend_nil x [ERL_NIL_EXT] x0 x2) as (x' & Hp & Hx'); [done | auto with bytes | done.. |].
  exists x'. split; [| done]. rewrite Hp. cbn [mbind option_bind].
  do 4 f_equal. rewrite length_app. cbn [length]. lia.
Qed.

Lemma form_tuple_runs sp t ops bss :
  elems sscanf_lf 125 t ops bss -> spaces sp -> tuple_runs t ops bss ->
  form_runs (123 :: sp ++ t) ops (ext_tuple_header (len bss) ++ concat bss).
Proof.
  intros Hel Hs IH p rest args x [| fuel] Ht Hst Hr Hl; [lia |].
  destruct (proj2 (forms_bytes sscanf_lf) _ _ _ _ Hel) as (Hb & Hle & Hpos).
  cbn [app length] in *. rewrite <- app_assoc in Ht. rewrite length_app in Hl.
  pose proof Hr as (_ & _ & Hmax). rewrite !len_app in Hmax.
  unfold ei_x_extra in Hmax. pose proof (proj1 Hr) as (_ & _ & _ & H0 & _).
  rewrite (eiformat_brace _ _ _ _ _ Ht). destruct new_runs as (x0 & -> & Hi0 & Hok0 & Hc0 & Hz0).
  change (0 <=? 0) with true. cbv iota.
  destruct (IH 123 sp p rest args x0 0 fuel fuel Ht Hs ltac:(by right)) as (x2 & He & H2); [| lia | lia |].
  { eapply new_room; [done.. |]. eapply room_le; [exact Hr |]. rewrite len_app. lia. }
  rewrite He. cbn [mbind option_bind]. rewrite (proj2 (Z.leb_le 0 _)) by lia.
  destruct (pappend_runs (ei_encode_tuple_header (int32 (0 + len bss))) (ext_tuple_header (len bss))
    (concat bss) x x0 x2) as (x' & Hp & Hx'); try done.
  { apply encode_arity_ok; [by apply encode_tuple_header_ok | lia]. }
  exists x'. split; [| done]. unfold ei_x_encode_tuple_header. rewrite Hp. cbn [mbind option_bind].
  do 4 f_equal. rewrite length_app. lia.
Qed.

Lemma form_empty_runs sp : spaces sp -> form_runs (123 :: sp ++ [125]) [] (ext_tuple_header 0).
Proof.
  intros Hs p rest args x [| fuel] Ht Hst Hr Hl; [lia |].
  cbn [app length] in *. rewrite <- app_assoc in Ht. rewrite length_app in Hl.
  rewrite (eiformat_brace _ _ _ _ _ Ht). destruct new_runs as (x0 & -> & Hi0 & Hok0 & Hc0 & Hz0).
  change (0 <=? 0) with true. cbv iota. destruct fuel as [| fuel]; [lia |].
  cbn [fmap list_fmap app]. rewrite (ptuple_end _ 123 sp rest) by done. cbn [mbind option_bind].
  change (0 <=? 0) with true. cbv iota.
  destruct (pappend_runs (ei_encode_tuple_header (int32 0)) (ext_tuple_header 0) [] x x0 x0)
    as (x' & Hp & Hx').
  { by apply (encode_arity_ok ei_encode_tuple_header ext_tuple_header 0); [apply encode_tuple_header_ok |]. }
  { by rewrite app_nil_r. } { constructor. } { done. }
  { split; [done |]. split; [done |]. by rewrite app_nil_r. }
  rewrite app_nil_r in Hx'. exists x'. split; [| done]. unfold ei_x_encode_tuple_header.
  rewrite Hp. cbn [mbind option_bind]. do 4 f_equal. rewrite length_app. cbn [length]. lia.
Qed.

Lemma eiformat_ok :
  (forall t ops bs, form sscanf_lf t ops bs -> form_runs t ops bs) /\
  (forall close t ops bss, elems sscanf_lf close t ops bss -> elems_run close t ops bss).
Proof.
  apply form_elems_ind.
  - intros. by apply form_atom_runs.
  - intros cs Hq Hlen p rest args x [| fuel] Ht Hst Hr Hl; [lia |].
    cbn [app] in Ht. rewrite <- app_assoc in Ht. at_start_tac Ht.
    destruct (pquotedatom_runs p cs rest x) as (x' & He & Hx'); [done.. |]. exists x'. by rewrite He.
  - intros cs Hq p rest args x [| fuel] Ht Hst Hr Hl; [lia |].
    cbn [app] in Ht. rewrite <- app_assoc in Ht. at_start_tac Ht.
    destruct (pstring_runs p cs rest x) as (x' & He & Hx'); [done.. |]. exists x'. by rewrite He.
  - intros s ds n Hs Hd Hn H64 p rest args x [| fuel] Ht Hst Hr Hl; [lia |].
    rewrite (form_digits_runs p s ds [] rest) by (by rewrite ?app_nil_r).
    destruct (pdigit_int_runs p s ds n rest x) as (x' & He & Hx'); [done.. |]. exists x'. by rewrite He.
  - intros t d Hf _ Hfin p rest args x [| fuel] Ht Hst Hr Hl; [lia |].
    pose proof Hf as ((s & a & b & E & Hs & Hd & _) & _).
    rewrite (form_digits_runs p s a ([46] ++ b) rest) by (by rewrite <- ?E).
    destruct (pdigit_float_runs p t d rest x) as (x' & He & Hx'); [done.. |]. exists x'. by rewrite He.
  - intros c v a bs Hlt p rest args x [| fuel] Ht Hst Hr Hl; [lia |].
    cbn [app] in Ht. at_start_tac Ht. cbn [fmap list_fmap app snd].
    destruct (pformat_runs p c v a bs rest args x) as (x' & He & Hx'); [done.. |]. exists x'. by rewrite He.
  - apply form_nil_runs.
  - intros sp t ops bss Hs He [_ IH]. apply form_list_runs; auto.
  - apply form_empty_runs.
  - intros sp t ops bss Hs He [IH _]. apply form_tuple_runs; auto.
  - intros close t sp ops bs Hf IH Hs. split; intros ->; [by apply tuple_last | by apply list_last].
  - intros close t sp u ops1 ops2 bs bss Hf IH Hs _ [IH1 IH2].
    split; intros Hc; [apply tuple_next | apply list_next]; auto.
Qed.
End Run.

(** ** The arguments *)

Definition not_tilde (c : Z) : Prop := c <> 126.

Lemma loop_plain a t ap : Forall not_tilde a -> read_args_loop (a ++ t) ap = read_args_loop t ap.
Proof.
  induction 1 as [| c a Hc _ IH]; [done |]. cbn [app read_args_loop].
  by rewrite (proj2 (Z.eqb_neq c 126)).
Qed.

Definition prepend (args : list format_arg) (r : unit + list format_arg) : unit + list format_arg :=
  match r with inl _ => inl tt | inr args' => inr (args ++ args') end.

Definition args_read (t : list Z) (ops : list (c_arg * format_arg)) : Prop :=
  forall rest ap, read_args_loop (t ++ rest) (ops.*1 ++ ap)
    = (r ← read_args_loop rest ap; Some (prepend ops.*2 r)).

Lemma plain_read t : Forall not_tilde t -> args_read t [].
Proof.
  intros Ht rest ap. rewrite loop_plain by done. cbn [fmap list_fmap app].
  destruct (read_args_loop rest ap) as [[[] | ?] |]; done.
Qed.

Lemma app_read t1 t2 ops1 ops2 :
  args_read t1 ops1 -> args_read t2 ops2 -> args_read (t1 ++ t2) (ops1 ++ ops2).
Proof.
  intros H1 H2 rest ap. rewrite <- app_assoc, !fmap_app, <- app_assoc, H1, H2.
  destruct (read_args_loop rest ap) as [[? | ?] |]; [done | | done].
  cbn. by rewrite app_assoc.
Qed.

Lemma letter_read c v a bs : letter c v a bs -> args_read [126; c] [(v, a)].
Proof.
  intros Hl rest ap. destruct Hl as [| | | | | | c d Hc Hd Hf |]; try done.
  by destruct Hc as [-> | ->].
Qed.

(** No text of the grammar but a letter has a tilde. *)
Lemma class_plain (f : Z -> bool) t :
  (forall c, f c = true -> c <> 126) -> Forall f t -> Forall not_tilde t.
Proof. intros Hf. apply Forall_impl. intros c Hc. apply (Hf c). by apply Is_true_true. Qed.

Lemma spaces_plain sp : spaces sp -> Forall not_tilde sp.
Proof. apply class_plain. intros c H ->. done. Qed.

Lemma number_plain s ds : sign_text s -> Forall isdigit ds -> Forall not_tilde (s ++ ds).
Proof.
  intros Hs Hd. apply Forall_app. split; [destruct Hs as [-> | [-> | ->]]; by repeat constructor |].
  eapply class_plain; [| done]. by intros c H ->.
Qed.

Lemma quote_plain q cs : q <> 126 -> quoted q cs -> Forall not_tilde (q :: cs ++ [q]).
Proof.
  intros Hq Hc. constructor; [done |]. apply Forall_app. split; [| by repeat constructor].
  eapply Forall_impl; [| exact Hc]. by intros c (_ & _ & _ & ?).
Qed.

Lemma bracket_read o sp t ops : o <> 126 -> spaces sp -> args_read t ops -> args_read (o :: sp ++ t) ops.
Proof.
  intros Ho Hs Ht. apply (app_read (o :: sp) t [] ops); [| done].
  apply plain_read. constructor; [done | by apply spaces_plain].
Qed.

Lemma forms_read sscanf_lf :
  (forall t ops bs, form sscanf_lf t ops bs -> args_read t ops) /\
  (forall close t ops bss, elems sscanf_lf close t ops bss ->
     close <> 126 -> args_read t ops).
Proof.
  apply form_elems_ind.
  - intros c cs Hc Hcs. apply plain_read. constructor; [by intros -> |].
    eapply class_plain; [| done]. by intros d H ->.
  - intros cs Hq _. by apply plain_read, quote_plain.
  - intros cs Hq. by apply plain_read, quote_plain.
  - intros s ds n Hs [_ Hd] _ _. by apply plain_read, number_plain.
  - intros t d ((s & a & b & -> & Hs & [_ Ha] & Hb) & _) _ _. apply plain_read.
    rewrite app_assoc. apply Forall_app. split; [by apply number_plain |].
    constructor; [done |]. by apply (number_plain []); [left |].
  - intros c v a bs. apply letter_read.
  - intros sp Hs. apply bracket_read; [done | done | by apply plain_read; repeat constructor].
  - intros sp t ops bss Hs _ IH. apply bracket_read; auto.
  - intros sp Hs. apply bracket_read; [done | done | by apply plain_read; repeat constructor].
  - intros sp t ops bss Hs _ IH. apply bracket_read; auto.
  - intros close t sp ops bs _ IH Hs Hc. rewrite <- (app_nil_r ops). apply app_read; [done |].
    apply plain_read, Forall_app. split; [by apply spaces_plain | by repeat constructor].
  - intros close t sp u ops1 ops2 bs bss _ IH1 Hs _ IH2 Hc.
    apply app_read; [done |]. apply bracket_read; auto.
Qed.

Lemma no_args_read fmt ap : arg_count fmt = 0 -> read_args_loop fmt ap = Some (inr []).
Proof.
  unfold arg_count. induction fmt as [| c fmt IH]; intros H; [done |].
  rewrite filter_cons in H. destruct (decide (c = 126)) as [-> | Hc]; [cbn in H; lia |].
  cbn [read_args_loop]. rewrite (proj2 (Z.eqb_neq c 126)) by done. auto.
Qed.

Lemma read_args_ok malloc fmt ap :
  (forall n, 0 <= n -> exists blk, malloc n = Some blk) ->
  read_args malloc fmt ap = read_args_loop fmt ap.
Proof.
  intros Ht. unfold read_args.
  destruct (Z.eqb_spec (arg_count fmt) 0); [by rewrite no_args_read |].
  unfold args_malloc. destruct (Ht (arg_count fmt * 8)) as [blk ->]; [unfold arg_count; lia | done].
Qed.

(** ** The whole *)

Lemma leading_spaces malloc sscanf_lf fmt fuel sp t args x :
  fmt = sp ++ t -> spaces sp -> isspace (hd 0 t) = false ->
  eiformat malloc sscanf_lf fmt fuel 0 args x = eiformat malloc sscanf_lf fmt fuel (len sp) args x.
Proof.
  intros Hf Hs Hn. assert (H0 : text_at fmt 0 (sp ++ t)) by (split; [lia | by rewrite Hf]).
  assert (H1 := text_app _ _ _ _ H0). destruct fuel as [| fuel]; [done |].
  cbn [eiformat]. rewrite (skip_spaces_ok _ sp t), (skip_spaces_ok fmt [] t (len sp));
    [by rewrite Z.add_0_r | done.. | by constructor | done | done | done | done].
Qed.

Lemma format_runs malloc sscanf_lf fuel sp t rest ops bs x :
  (forall n, 0 <= n -> exists blk, malloc n = Some blk) ->
  (forall n blk, malloc n = Some blk -> len blk = n) ->
  form sscanf_lf t ops bs -> spaces sp -> stop (hd 0 rest) -> Forall not_tilde rest ->
  room x (len bs) -> (length t < fuel)%nat ->
  exists x', ei_x_format_wo_ver malloc sscanf_lf fuel x (sp ++ t ++ rest) ops.*1 = Some (0, x') /\
    appends x bs x'.
Proof.
  intros Htot Hsz Hf Hs Hst Hrest Hr Hl.
  destruct (form_start _ _ _ _ Hf) as (c & u & E & Hc).
  destruct (proj1 (eiformat_ok malloc sscanf_lf Htot Hsz (sp ++ t ++ rest)) t ops bs Hf
    (len sp) rest [] x fuel) as (x' & He & Hx'); try done.
  { apply (text_app _ 0 sp (t ++ rest)). apply text_start. }
  exists x'. split; [| done]. unfold ei_x_format_wo_ver. rewrite read_args_ok by done.
  rewrite loop_plain by (by apply spaces_plain).
  rewrite <- (app_nil_r ops.*1), (proj1 (forms_read sscanf_lf) t ops bs Hf rest []).
  rewrite <- (app_nil_r rest) at 1. rewrite loop_plain by done. cbn [mbind option_bind prepend read_args_loop].
  rewrite (leading_spaces _ _ _ _ sp (t ++ rest)); [by rewrite He | done | done |].
  rewrite E. by apply start_not.
Qed.
