(* ===== verification/Print.v ===== *)
(** * Terms as text: ei_printterm.c

    [print_term] writes a term in the external format as text, to a file or
    to a self-expanding buffer. What [printf] makes of [%d], [%ld] and [%x] is
    defined here; [%f] is a parameter. The count of characters is an [int]: where it
    grows by the text of a list or a tuple, it must fit one ([int_sum]); an atom, a
    string of at most 65535 characters, or one of the other texts without elements
    cannot overflow it. *)

From S2P Require Import Prelude Mem PutGet Ext Headers Ints Atom Data Ids Big Term XBuff Format.

(** ** [printf] *)

Definition digit_char (d : Z) : Z := if d <? 10 then 48 + d else 87 + d.

(** The digits of [n], at most [k], in front of [acc]. *)
Fixpoint radix (base : Z) (k : nat) (n : Z) (acc : list Z) : list Z :=
  match k with
  | O => acc
  | S k =>
      let acc := digit_char (n mod base) :: acc in
      if n <? base then acc else radix base k (n / base) acc
  end.

(** [%d] and [%ld]: a number of 64 bits has at most 20 digits. *)
Definition printf_d (n : Z) : list Z :=
  if n <? 0 then 45 :: radix 10 20 (- n) [] else radix 10 20 n [].
(** [%x] of an [int]. *)
Definition printf_x (n : Z) : list Z := radix 16 8 (uint32 n) [].

(** A [char] is signed. *)
Definition signed_char (c : Z) : Z := swrap 8 c.

Definition BINPRINTSIZE : Z := 30.
Definition BUFSIZ : Z := 8192.

(** Where the text goes: [fp], or [x] when [fp] is NULL. *)
Inductive sink := to_file (out : list Z) | to_buff (x : ei_x_buff).

Section Print.
Context (malloc : Z -> option (list Z)) (sscanf_lf : list Z -> option Z) (printf_f : Z -> list Z).

Definition xputc (c : Z) (o : sink) : option sink :=
  match o with
  | to_file out => Some (to_file (out ++ [c]))
  | to_buff x => '(_, x) ← ei_x_append_buf malloc x [c] 1; Some (to_buff x)
  end.

Definition xputs (s : list Z) (o : sink) : option sink :=
  match o with
  | to_file out => Some (to_file (out ++ c_str s))
  | to_buff x => '(_, x) ← ei_x_append_buf malloc x s (strlen s); Some (to_buff x)
  end.

(** [s] is the formatted text; [tmpbuf] has 2000 bytes. *)
Definition xprintf (s : list Z) (o : sink) : option (Z * sink) :=
  match o with
  | to_file out => Some (len s, to_file (out ++ s))
  | to_buff x =>
      if 2000 <=? len s then None else
      '(_, x) ← ei_x_append_buf malloc x s (strlen s); Some (len s, to_buff x)
  end.

(** A negative size becomes a huge [size_t]. *)
Definition malloc_int (n : Z) : option (list Z) := malloc (uint64 n).

(** [for (sp = b->digits, i = 0; i < b->arity; i++)], [n] rounds left. *)
Fixpoint digit_texts (n : nat) (sp : list Z) : option (list Z) :=
  match n with
  | O => Some []
  | S n =>
      match sp with
      | [] => None
      | d :: sp => ds ← digit_texts n sp; Some (printf_d d ++ (if n is O then [] else [44]) ++ ds)
      end
  end.

(** The inner option is NULL; the digits behind the array and text behind the
    block are undefined. *)
Definition ei_big_to_str (b : erlang_big) : option (option (list Z)) :=
  let buf_len := int32 (64 + big_is_neg b + 10 * big_arity b) in
  match malloc_int buf_len with
  | None => Some None
  | Some _ =>
      ds ← digit_texts (Z.to_nat (big_arity b)) (big_digits b);
      let s := (if big_is_neg b =? 0 then [] else [45]) ++
        [35; 105; 110; 116; 101; 103; 101; 114; 40] ++ printf_d (int32 (big_arity b)) ++
        [41; 32; 61; 32; 123] ++ ds ++ [125] in
      if buf_len <=? len s then None else Some (Some s)
  end.

Definition lift {A} (m : option A) : D A := fun _ => m.

(** [goto err] *)
Definition err (index : Z) (o : sink) : D (Z * Z * sink) := retD (-1, index, o).

Fixpoint print_chars (s : list Z) (written : Z) (o : sink) : option (Z * sink) :=
  match s with
  | [] => Some (written, o)
  | b :: s =>
      let c := signed_char b in
      '(n, o) ←
        (if 32 <=? c then o ← xputc b o; Some (1, o)
         else if c =? 10 then o ← xputs [92; 110] o; Some (2, o)
         else if c =? 13 then o ← xputs [92; 114] o; Some (2, o)
         else if c =? 9 then o ← xputs [92; 116] o; Some (2, o)
         else if c =? 11 then o ← xputs [92; 118] o; Some (2, o)
         else if c =? 8 then o ← xputs [92; 98] o; Some (2, o)
         else if c =? 12 then o ← xputs [92; 102] o; Some (2, o)
         else xprintf ([92; 120] ++ printf_x c) o);
      print_chars s (written + n) o
  end.

Definition print_string (s : list Z) (o : sink) : option (Z * sink) :=
  o ← xputc 34 o;
  '(written, o) ← print_chars s 1 o;
  o ← xputc 34 o;
  Some (written + 1, o).

Definition needs_quote (a : list Z) : bool :=
  negb (islower (hd 0 a) && forallb (fun c => isalnum c || (c =? 95) || (c =? 64)) a).

(** [a] is the array up to its zero. *)
Definition print_atom (a : list Z) (o : sink) : option (Z * sink) :=
  let doquote := needs_quote a in
  o ← (if doquote then xputc 39 o else Some o);
  o ← xputs a o;
  o ← (if doquote then xputc 39 o else Some o);
  Some (len a + (if doquote then 2 else 0), o).

(** [for (i = 0; i < ref.len; ++i)], from [i] on; [ref.n] has three words. *)
Fixpoint print_ref (k : nat) (ws : list Z) (written : Z) (o : sink) : option (Z * sink) :=
  match k with
  | O => Some (written, o)
  | S k =>
      match ws with
      | [] => None
      | w :: ws =>
          '(r, o) ← xprintf (printf_d (int32 w)) o;
          '(dot, o) ← (if k is O then Some (0, o) else o ← xputc 46 o; Some (1, o));
          print_ref k ws (written + r + dot) o
      end
  end.

(** [for (i = 0; i < m; ++i)], [k] rounds left; the result has [i]. *)
Fixpoint print_bytes (k : nat) (p : list Z) (i written : Z) (o : sink) : option (Z * Z * sink) :=
  match k with
  | O => Some (i, written, o)
  | S k =>
      b ← load i p;
      '(r, o) ← xprintf (printf_d (signed_char b) ++ [44]) o;
      print_bytes k p (i + 1) (written + r) o
  end.

(** [p] is the block, [l] the length of the binary. *)
Definition print_bin (p : list Z) (l : Z) (o : sink) : option (Z * sink) :=
  '(w1, o) ← xprintf [35; 66; 105; 110; 60] o;
  let m := if BINPRINTSIZE <? l then BINPRINTSIZE else int32 l in
  let m := m - 1 in
  '(i, w2, o) ← print_bytes (Z.to_nat m) p 0 w1 o;
  b ← load i p;
  '(w3, o) ← xprintf (printf_d (signed_char b)) o;
  '(w4, o) ← (if BINPRINTSIZE <? l then xprintf [44; 46; 46; 46] o else Some (0, o));
  o ← xputc 62 o;
  Some (w2 + w3 + w4 + 1, o).

(** [n] elements; a negative count is [goto err]. *)
Fixpoint print_elems (print : Z -> sink -> D (Z * Z * sink)) (n : nat) (written index : Z)
    (o : sink) : D (Z * Z * sink) :=
  match n with
  | O => retD (written, index, o)
  | S n =>
      let+ (r, index, o) := print index o in
      if r <? 0 then err index o else
      let+ (comma, o) := lift (if n is O then Some (0, o) else o ← xputs [44; 32] o; Some (2, o)) in
      let+ written := int_sum (written + r + comma) in
      print_elems print n written index o
  end.

(** The tail of a list, [w] characters written so far. *)
Definition print_tail (print : Z -> sink -> D (Z * Z * sink)) (w buf tindex : Z) (o : sink)
    : D (Z * Z * sink) :=
  let+ (ty, n) := ei_get_type_internal 0 buf tindex in
  if negb (ty =? ERL_NIL_EXT) then
    let+ o := lift (xputs [32; 124; 32] o) in
    let+ (r, tindex, o) := print tindex o in
    if r <? 0 then err tindex o else
    let+ w := int_sum (w + 3 + r) in retD (w, tindex, o)
  else
    let+ r := ei_decode_list_header true buf tindex in
    match r with
    | Fail => err tindex o
    | Done tindex _ => retD (w, tindex, o)
    end.

(** [f(buf, index, &v)], then the text of [v]. *)
Definition print_leaf {A} (r : D (cres A)) (index : Z) (o : sink)
    (k : A -> sink -> option (Z * sink)) : D (Z * Z * sink) :=
  let+ r := r in
  match r with
  | Fail => err index o
  | Done index v => let+ (w, o) := lift (k v o) in retD (w, index, o)
  end.

Definition pid_text (pid : erlang_pid) : list Z :=
  [60] ++ c_str (pid_node pid) ++ [46] ++ printf_d (int32 (pid_num pid)) ++ [46] ++
  printf_d (int32 (pid_serial pid)) ++ [62].
Definition port_text (p : erlang_port) : list Z :=
  [35; 80; 111; 114; 116; 60] ++ printf_d (int32 (port_id p)) ++ [46] ++
  printf_d (int32 (port_creation p)) ++ [62].

(** What a decoder stored through a pointer that was not NULL. *)
Definition stored {A} (k : A -> sink -> option (Z * sink)) (v : option A) (o : sink)
    : option (Z * sink) :=
  v ← v; k v o.

Fixpoint print_term (fuel : nat) (buf index : Z) (o : sink) : D (Z * Z * sink) :=
  match fuel with
  | O => ubD
  | S fuel =>
      let tindex := index in
      let+ (ty, n) := ei_get_type_internal 0 buf index in
      if (ty =? ERL_ATOM_EXT) || (ty =? ERL_ATOM_UTF8_EXT) || (ty =? ERL_SMALL_ATOM_EXT)
         || (ty =? ERL_SMALL_ATOM_UTF8_EXT) then
        print_leaf (ei_decode_atom true buf index) index o (fun a => print_atom (c_str (at_text a)))
      else if (ty =? ERL_PID_EXT) || (ty =? ERL_NEW_PID_EXT) then
        print_leaf (ei_decode_pid true buf index) index o (stored (fun pid => xprintf (pid_text pid)))
      else if (ty =? ERL_PORT_EXT) || (ty =? ERL_NEW_PORT_EXT) then
        print_leaf (ei_decode_port true buf index) index o (stored (fun p => xprintf (port_text p)))
      else if (ty =? ERL_NEW_REFERENCE_EXT) || (ty =? ERL_NEWER_REFERENCE_EXT)
              || (ty =? ERL_REFERENCE_EXT) then
        print_leaf (ei_decode_ref true buf index) index o (stored (fun ref o =>
          '(w1, o) ← xprintf [35; 82; 101; 102; 60] o;
          '(w2, o) ← print_ref (Z.to_nat (ref_len ref)) (ref_n ref) w1 o;
          o ← xputc 62 o; Some (w2 + 1, o)))
      else if ty =? ERL_NIL_EXT then
        print_leaf (ei_decode_list_header true buf index) index o (fun _ => xprintf [91; 93])
      else if ty =? ERL_LIST_EXT then
        let+ r := ei_decode_list_header true buf tindex in
        match r with
        | Fail => err index o
        | Done tindex n =>
            let+ o := lift (xputc 91 o) in
            let+ (w, tindex, o) :=
              print_elems (print_term fuel buf) (Z.to_nat (default 0 n)) 1 tindex o in
            if w <? 0 then err index o else
            let+ (w, tindex, o) := print_tail (print_term fuel buf) w buf tindex o in
            if w <? 0 then err index o else
            let+ o := lift (xputc 93 o) in
            let+ w := int_sum (w + 1) in retD (w, tindex, o)
        end
      else if ty =? ERL_STRING_EXT then
        match malloc_int (n + 1) with
        | None => err index o
        | Some _ => print_leaf (ei_decode_string true buf index) index o (stored print_string)
        end
      else if (ty =? ERL_SMALL_TUPLE_EXT) || (ty =? ERL_LARGE_TUPLE_EXT) then
        let+ r := ei_decode_tuple_header true buf tindex in
        match r with
        | Fail => err index o
        | Done tindex n =>
            let+ o := lift (xputc 123 o) in
            let+ (w, tindex, o) :=
              print_elems (print_term fuel buf) (Z.to_nat (default 0 n)) 1 tindex o in
            if w <? 0 then err index o else
            let+ o := lift (xputc 125 o) in
            let+ w := int_sum (w + 1) in retD (w, tindex, o)
        end
      else if ty =? ERL_BINARY_EXT then
        match malloc_int n with
        | None => err index o
        | Some p => print_leaf (ei_decode_binary true buf index) index o (fun '(txt, l) =>
            stored (fun txt => print_bin (txt ++ drop (length txt) p) l) txt)
        end
      else if (ty =? ERL_SMALL_INTEGER_EXT) || (ty =? ERL_INTEGER_EXT) then
        print_leaf (ei_decode_long true buf index) index o (stored (fun l => xprintf (printf_d l)))
      else if (ty =? ERL_SMALL_BIG_EXT) || (ty =? ERL_LARGE_BIG_EXT) then
        match malloc 16, malloc (2 * ((uint32 n + 1) / 2)) with
        | Some _, Some _ =>
            let+ r := ei_decode_big (Some (ei_alloc_big (uint32 n))) buf index in
            match r with
            | Fail => err index o
            | Done index None => ubD
            | Done index (Some b) =>
                let+ ds := lift (ei_big_to_str b) in
                match ds with
                | None => err index o
                | Some ds => let+ (w, o) := lift (xprintf ds o) in retD (w, index, o)
                end
            end
        | _, _ => err index o
        end
      else if (ty =? ERL_FLOAT_EXT) || (ty =? NEW_FLOAT_EXT) then
        print_leaf (ei_decode_double sscanf_lf true buf index) index o
          (stored (fun d => xprintf (printf_f d)))
      else err index o
  end.

(** [fp] is what the file has so far, [None] for NULL: there is no buffer
    either then. *)
Definition ei_print_term (fuel : nat) (fp : option (list Z)) (buf index : Z)
    : D (Z * Z * option (list Z)) :=
  match fp with
  | None => retD (-1, index, None)
  | Some out =>
      let+ (r, index, o) := print_term fuel buf index (to_file out) in
      retD (r, index, match o with to_file out => Some out | to_buff _ => None end)
  end.

(** [s] is the block the caller has, [None] for NULL. *)
Definition ei_s_print_term (fuel : nat) (s : option (list Z)) (buf index : Z)
    : D (Z * Z * option (list Z)) :=
  let x := match s with
           | Some blk => XBuff (Some blk) BUFSIZ 0
           | None => (ei_x_new malloc).2
           end in
  let+ (r, index, o) := print_term fuel buf index (to_buff x) in
  match o with
  | to_file _ => ubD
  | to_buff x =>
      let+ (_, x) := lift (ei_x_append_buf malloc x [0] 1) in
      retD (r, index, buff x)
  end.
End Print.
