(* ===== verification/PrintOk.v ===== *)
(** * What the printer writes

    Terms as a type, with the bytes the encoders of the library write for them
    and the text the printer is to give; [print_term_ok] runs the printer over
    those bytes, to a file or to a buffer. *)

From S2P Require Import Prelude Mem PutGet Ext Headers Ints Atom Data Ids Big Term Skip XBuff EiCorrect Format FormatOk Print.

(** ** Characters and numbers *)

(** A character of a C string. *)
Definition is_char (c : Z) : Prop := 0 < c < 256.
Definition chars (s : list Z) : Prop := Forall is_char s.

Lemma chars_bytes s : chars s -> Forall is_byte s.
Proof. apply Forall_impl. unfold is_char, is_byte. lia. Qed.

Lemma chars_c_str s : chars s -> c_str s = s.
Proof.
  induction 1 as [| c s Hc _ IH]; [done |]. cbn [c_str].
  rewrite (proj2 (Z.eqb_neq c 0)) by (unfold is_char in Hc; lia). by rewrite IH.
Qed.

Lemma chars_app a b : chars a -> chars b -> chars (a ++ b).
Proof. intros. by apply Forall_app. Qed.

Lemma c_str_chars s : Forall is_byte s -> chars (c_str s).
Proof.
  induction 1 as [| c s Hc _ IH]; [constructor |]. cbn [c_str].
  destruct (Z.eqb_spec c 0); [constructor |]. constructor; [| done].
  unfold is_byte, is_char in *. lia.
Qed.

Lemma nil_chars : chars [].
Proof. constructor. Qed.

Lemma chars_test s : forallb (fun c => (0 <? c) && (c <? 256)) s = true -> chars s.
Proof.
  intros H. apply Forall_forall. intros c Hc.
  rewrite forallb_forall in H. specialize (H c Hc). unfold is_char. lia.
Qed.

Lemma digit_char_range d : 0 <= d < 16 -> is_char (digit_char d).
Proof. unfold digit_char, is_char. intros. destruct (Z.ltb_spec d 10); lia. Qed.

Lemma radix_chars base k n acc :
  0 < base <= 16 -> 0 <= n -> chars acc ->
  chars (radix base k n acc) /\ len (radix base k n acc) <= Z.of_nat k + len acc.
Proof.
  intros Hb. revert n acc. induction k as [| k IH]; intros n acc Hn Ha; cbn [radix]; [split; [done | lia] |].
  pose proof (Z.mod_pos_bound n base ltac:(lia)).
  assert (Hc : chars (digit_char (n mod base) :: acc))
    by (constructor; [apply digit_char_range; lia | done]).
  destruct (n <? base); [split; [done | rewrite len_cons; lia] |].
  destruct (IH (n / base) _ ltac:(apply Z.div_pos; lia) Hc) as [H1 H2]. split; [done |].
  rewrite len_cons in H2. lia.
Qed.

(** The digits mean the number. *)
Lemma radix_dec k n acc m :
  0 <= n < 10 ^ Z.of_nat k -> (0 < k)%nat ->
  exists ds, radix 10 k n acc = ds ++ acc /\ digit_text ds /\
    fold_left (fun n c => n * 10 + (c - 48)) ds m = m * 10 ^ len ds + n.
Proof.
  revert n acc m. induction k as [| k IH]; intros n acc m Hn Hk; [lia |]. cbn [radix].
  pose proof (Z.mod_pos_bound n 10 ltac:(lia)) as Hm.
  assert (Hd : isdigit (digit_char (n mod 10)))
    by (unfold digit_char; apply Is_true_true; rewrite (proj2 (Z.ltb_lt _ _)) by lia; bool_lia).
  destruct (Z.ltb_spec n 10) as [H10 | H10].
  - exists [digit_char (n mod 10)]. split; [done |]. split; [by split; [| constructor] |].
    cbn. unfold digit_char. rewrite (proj2 (Z.ltb_lt _ _)) by lia. rewrite Z.mod_small by lia. lia.
  - rewrite Nat2Z.inj_succ, Z.pow_succ_r in Hn by lia.
    assert (Hq : 0 <= n / 10 < 10 ^ Z.of_nat k)
      by (split; [apply Z.div_pos; lia | apply Z.div_lt_upper_bound; lia]).
    assert (Hk1 : (0 < k)%nat) by (destruct k; [cbn in Hq; pose proof (Z.div_le_lower_bound n 10 1); lia | lia]).
    destruct (IH (n / 10) (digit_char (n mod 10) :: acc) m Hq Hk1) as (ds & -> & [Hne Hds] & Hf).
    exists (ds ++ [digit_char (n mod 10)]). split; [by rewrite <- app_assoc |].
    split; [split; [by destruct ds | apply Forall_app; by split; [| constructor]] |].
    rewrite fold_left_app, Hf. cbn. unfold digit_char. rewrite (proj2 (Z.ltb_lt _ _)) by lia.
    rewrite len_app. change (len [_]) with 1. rewrite Z.pow_add_r by lia.
    pose proof (Z.div_mod n 10 ltac:(lia)). lia.
Qed.

Lemma printf_d_ok n : - 10 ^ 20 < n < 10 ^ 20 ->
  exists s ds, printf_d n = s ++ ds /\ sign_text s /\ digit_text ds /\
    n = (if decide (s = [45]) then - dec ds else dec ds).
Proof.
  intros Hn. unfold printf_d. destruct (Z.ltb_spec n 0).
  - destruct (radix_dec 20 (- n) [] 0) as (ds & -> & Hd & Hf); [cbn; lia | lia |].
    exists [45], ds. rewrite app_nil_r. split; [done |]. split; [by right; left |].
    split; [done |]. rewrite decide_True by done. unfold dec. lia.
  - destruct (radix_dec 20 n [] 0) as (ds & -> & Hd & Hf); [cbn; lia | lia |].
    exists [], ds. rewrite app_nil_r. split; [done |]. split; [by left |].
    split; [done |]. rewrite decide_False by done. unfold dec. lia.
Qed.

Lemma printf_d_chars n : chars (printf_d n) /\ len (printf_d n) <= 21.
Proof.
  assert (Hr : forall n, 0 <= n -> chars (radix 10 20 n []) /\ len (radix 10 20 n []) <= 20 + 0)
    by (intros; apply (radix_chars 10 20); [lia | done | constructor]).
  unfold printf_d. destruct (Z.ltb_spec n 0).
  - destruct (Hr (- n)) as [H1 H2]; [lia |]. rewrite len_cons. split; [| lia].
    constructor; [unfold is_char; lia | done].
  - destruct (Hr n) as [H1 H2]; [lia |]. split; [done | lia].
Qed.

Lemma printf_x_chars n : chars (printf_x n) /\ len (printf_x n) <= 8.
Proof.
  assert (Hu : 0 <= uint32 n) by (apply Z.mod_pos_bound; lia).
  destruct (radix_chars 16 8 (uint32 n) [] ltac:(lia) Hu nil_chars) as [H1 H2].
  split; [done | exact H2].
Qed.

(** ** The sink *)

(** A file takes any text whose length is an int; a buffer needs room. *)
Definition takes (o : sink) (n : Z) : Prop :=
  match o with to_file _ => n <= int_max | to_buff x => room x n end.

Definition printed (o : sink) (s : list Z) (o' : sink) : Prop :=
  match o, o' with
  | to_file out, to_file out' => out' = out ++ s
  | to_buff x, to_buff x' => appends x s x'
  | _, _ => False
  end.

Lemma takes_le o n m : takes o n -> m <= n -> takes o m.
Proof. destruct o; cbn; [lia |]. intros. by eapply room_le. Qed.

Lemma takes_int o n : takes o n -> n <= int_max.
Proof.
  destruct o as [out | x]; cbn; [done |]. intros (Hx & _ & Hr). destruct Hx as (? & _ & _ & ?).
  unfold ei_x_extra in *. lia.
Qed.

Lemma printed_takes o s o' n : takes o (len s + n) -> printed o s o' -> takes o' n.
Proof.
  destruct o, o'; cbn; try done; [pose proof (Zle_0_nat (length s)); lia | intros; by eapply appends_room].
Qed.

Lemma printed_trans o a o1 b o2 : printed o a o1 -> printed o1 b o2 -> printed o (a ++ b) o2.
Proof.
  destruct o, o1, o2; cbn; try done; [intros -> ->; by rewrite app_assoc | apply appends_trans].
Qed.

Lemma printed_nil o n : takes o n -> printed o [] o.
Proof.
  destruct o as [out | x]; cbn; [by rewrite app_nil_r |]. intros (? & ? & _).
  split; [done |]. split; [done |]. by rewrite app_nil_r.
Qed.

(** [k] writes [s]; with a count, it returns the length. *)
Definition puts (k : sink -> option sink) (s : list Z) : Prop :=
  forall o, takes o (len s) -> exists o', k o = Some o' /\ printed o s o'.
Definition prints (k : sink -> option (Z * sink)) (s : list Z) : Prop :=
  forall o, takes o (len s) -> exists o', k o = Some (len s, o') /\ printed o s o'.

Section Sink.
Context (malloc : Z -> option (list Z)).
Context (malloc_total : forall n, 0 <= n -> exists blk, malloc n = Some blk).
Context (malloc_size : forall n blk, malloc n = Some blk -> len blk = n).

Lemma append_buf_runs x s n :
  Forall is_byte (take (Z.to_nat n) s) -> 0 <= n <= len s -> room x n ->
  exists rc x', ei_x_append_buf malloc x s n = Some (rc, x') /\ appends x (take (Z.to_nat n) s) x'.
Proof.
  intros Hb Hn (Hx & Hz & Hi). pose proof Hx as (_ & _ & _ & Hi0 & _).
  destruct (x_append_ok malloc malloc_size x s n) as (rc & x' & He & H); [done.. |].
  destruct H as [(-> & ? & ? & ?) | (_ & _ & Hm)].
  - exists 0, x'. split; [done |]. by split; [| split].
  - destruct (malloc_total (index x + n + 2 * ei_x_extra)) as [b Hmb];
      [unfold ei_x_extra; lia | by rewrite Hmb in Hm].
Qed.

Lemma append_text_runs x s : chars s -> room x (len s) ->
  exists rc x', ei_x_append_buf malloc x s (strlen s) = Some (rc, x') /\ appends x s x'.
Proof.
  intros Hs Hr. assert (Hl : strlen s = len s) by (unfold strlen; by rewrite chars_c_str).
  assert (Ht : take (Z.to_nat (len s)) s = s) by (rewrite Nat2Z.id; apply take_ge; lia).
  rewrite Hl. destruct (append_buf_runs x s (len s)) as (rc & x' & He & Hx');
    rewrite ?Ht in *; [by apply chars_bytes | lia | done |]. by exists rc, x'.
Qed.

Lemma xputs_ok s : chars s -> puts (xputs malloc s) s.
Proof.
  intros Hs [out | x] Hr; cbn [xputs takes] in *.
  - exists (to_file (out ++ s)). by rewrite chars_c_str.
  - destruct (append_text_runs x s Hs Hr) as (rc & x' & He & Hx').
    exists (to_buff x'). by rewrite He.
Qed.

Lemma xputc_ok c : is_byte c -> puts (xputc malloc c) [c].
Proof.
  intros Hc [out | x] Hr; cbn [xputc takes] in *; [by exists (to_file (out ++ [c])) |].
  destruct (append_buf_runs x [c] 1) as (rc & x' & He & Hx'); [by constructor | done | done |].
  exists (to_buff x'). by rewrite He.
Qed.

Lemma xprintf_ok s : chars s -> len s < 2000 -> prints (xprintf malloc s) s.
Proof.
  intros Hs Hl [out | x] Hr; cbn [xprintf takes] in *; [by exists (to_file (out ++ s)) |].
  rewrite (proj2 (Z.leb_gt 2000 (len s))) by lia.
  destruct (append_text_runs x s Hs Hr) as (rc & x' & He & Hx').
  exists (to_buff x'). by rewrite He.
Qed.

(** Two writers in a row. *)
Lemma puts_puts {A} (k1 : sink -> option sink) (k2 : sink -> option A) a b (r : sink -> A) o :
  puts k1 a -> takes o (len (a ++ b)) ->
  (forall o1, takes o1 (len b) -> exists o2, k2 o1 = Some (r o2) /\ printed o1 b o2) ->
  exists o2, (o1 ← k1 o; k2 o1) = Some (r o2) /\ printed o (a ++ b) o2.
Proof.
  intros H1 Ht H2. rewrite len_app in Ht.
  destruct (H1 o) as (o1 & -> & Hp1); [by eapply takes_le; [done | lia] |].
  destruct (H2 o1) as (o2 & He & Hp2); [by eapply printed_takes |].
  exists o2. split; [done | by eapply printed_trans].
Qed.

Lemma prints_puts {A} (k1 : sink -> option (Z * sink)) (k2 : Z -> sink -> option A) a b (r : sink -> A) o :
  prints k1 a -> takes o (len (a ++ b)) ->
  (forall o1, takes o1 (len b) -> exists o2, k2 (len a) o1 = Some (r o2) /\ printed o1 b o2) ->
  exists o2, ('(w, o1) ← k1 o; k2 w o1) = Some (r o2) /\ printed o (a ++ b) o2.
Proof.
  intros H1 Ht H2. rewrite len_app in Ht.
  destruct (H1 o) as (o1 & -> & Hp1); [by eapply takes_le; [done | lia] |].
  destruct (H2 o1) as (o2 & He & Hp2); [by eapply printed_takes |].
  exists o2. split; [done | by eapply printed_trans].
Qed.

(** A writer as the last one. *)
Lemma puts_last {A} (k : sink -> option sink) a (r : sink -> A) o :
  puts k a -> takes o (len a) ->
  exists o2, (o1 ← k o; Some (r o1)) = Some (r o2) /\ printed o a o2.
Proof. intros H1 Ht. destruct (H1 o Ht) as (o1 & -> & Hp1). by exists o1. Qed.

(** ** The texts *)

(** A character of a string: a printable one stands for itself. A byte above
    127 is a negative [char] and comes out as the [%x] of an [int]. *)
Definition char_text (b : Z) : list Z :=
  if 32 <=? signed_char b then [b]
  else if b =? 10 then [92; 110] else if b =? 13 then [92; 114] else if b =? 9 then [92; 116]
  else if b =? 11 then [92; 118] else if b =? 8 then [92; 98] else if b =? 12 then [92; 102]
  else [92; 120] ++ printf_x (signed_char b).

Definition string_text (s : list Z) : list Z := [34] ++ (s ≫= char_text) ++ [34].

Definition atom_text (a : list Z) : list Z :=
  if needs_quote a then [39] ++ a ++ [39] else a.

(** Numbers separated by a character. *)
Fixpoint joined (sep : list Z) (ts : list (list Z)) : list Z :=
  match ts with
  | [] => []
  | [t] => t
  | t :: ts => t ++ sep ++ joined sep ts
  end.

Definition ref_text (r : erlang_ref) : list Z :=
  [35; 82; 101; 102; 60] ++ joined [46] ((fun w => printf_d (int32 w)) <$> ref_n r) ++ [62].

Definition dots (l : Z) : list Z := if BINPRINTSIZE <? l then [44; 46; 46; 46] else [].

(** At most 30 bytes are shown. *)
Definition bin_text (p : list Z) : list Z :=
  [35; 66; 105; 110; 60] ++ joined [44] ((fun b => printf_d (signed_char b)) <$> take 30 p) ++
  dots (len p) ++ [62].

Lemma signed_small c : 32 <= signed_char c -> is_byte c -> signed_char c = c /\ is_char c.
Proof.
  unfold signed_char, swrap, is_byte, is_char. intros H Hc. cbn in H.
  assert (c < 128).
  { destruct (Z.lt_ge_cases c 128); [done |].
    replace (c + 2 ^ (8 - 1)) with (c - 128 + 1 * 256) in H by (cbn; lia).
    change (2 ^ 8) with 256 in *. rewrite Z.mod_add, Z.mod_small in H by lia. cbn in H. lia. }
  change (2 ^ 8) with 256 in *. change (2 ^ (8 - 1)) with 128 in *.
  rewrite Z.mod_small in H |- * by lia. lia.
Qed.

Lemma signed_control c : is_byte c -> signed_char c < 32 -> forall d, 0 <= d < 32 -> (signed_char c =? d) = (c =? d).
Proof.
  unfold is_byte, signed_char, swrap. intros Hc H d Hd.
  change (2 ^ 8) with 256 in *. change (2 ^ (8 - 1)) with 128 in *.
  destruct (Z.lt_ge_cases c 128).
  - rewrite Z.mod_small by lia. f_equal. lia.
  - replace (c + 128) with (c - 128 + 1 * 256) by lia. rewrite Z.mod_add, Z.mod_small by lia.
    rewrite !(proj2 (Z.eqb_neq _ _)) by lia. done.
Qed.

Lemma char_text_chars b : is_byte b -> chars (char_text b).
Proof.
  intros Hb. unfold char_text. destruct (Z.leb_spec 32 (signed_char b)) as [H | H].
  - constructor; [by apply signed_small | constructor].
  - repeat case_match; try (repeat constructor; unfold is_char; lia).
    apply chars_app; [repeat constructor; unfold is_char; lia | apply printf_x_chars].
Qed.

Lemma print_char_ok b : is_byte b ->
  prints (fun o =>
    let c := signed_char b in
    if 32 <=? c then o ← xputc malloc b o; Some (1, o)
    else if c =? 10 then o ← xputs malloc [92; 110] o; Some (2, o)
    else if c =? 13 then o ← xputs malloc [92; 114] o; Some (2, o)
    else if c =? 9 then o ← xputs malloc [92; 116] o; Some (2, o)
    else if c =? 11 then o ← xputs malloc [92; 118] o; Some (2, o)
    else if c =? 8 then o ← xputs malloc [92; 98] o; Some (2, o)
    else if c =? 12 then o ← xputs malloc [92; 102] o; Some (2, o)
    else xprintf malloc ([92; 120] ++ printf_x c) o) (char_text b).
Proof.
  intros Hb o Ht. unfold char_text in *. cbv zeta.
  destruct (Z.leb_spec 32 (signed_char b)) as [H | H].
  { apply puts_last with (r := fun o => (1, o)); [by apply xputc_ok | done]. }
  rewrite !(signed_control b Hb H) by lia.
  repeat (case_match;
    [apply puts_last with (r := fun o => (2, o));
      [apply xputs_ok; repeat constructor; unfold is_char; lia | done] |]).
  apply xprintf_ok; [| | done].
  - apply chars_app; [repeat constructor; unfold is_char; lia | apply printf_x_chars].
  - rewrite len_app. change (len [92; 120]) with 2. pose proof (printf_x_chars (signed_char b)). lia.
Qed.

Lemma print_chars_ok s : Forall is_byte s -> forall written o, takes o (len (s ≫= char_text)) ->
  exists o', print_chars malloc s written o = Some (written + len (s ≫= char_text), o') /\
    printed o (s ≫= char_text) o'.
Proof.
  induction 1 as [| b s Hb _ IH]; intros written o Ht.
  - exists o. cbn. rewrite Z.add_0_r. split; [done | by eapply printed_nil].
  - cbn [print_chars]. rewrite bind_cons in *.
    destruct (prints_puts _ (fun n o => print_chars malloc s (written + n) o) _ _
      (fun o => (written + len (char_text b ++ (s ≫= char_text)), o)) o (print_char_ok b Hb) Ht)
      as (o' & He & Hp); [| by exists o'].
    intros o1 H1. destruct (IH (written + len (char_text b)) o1 H1) as (o2 & He & Hp).
    exists o2. rewrite He, len_app, Z.add_assoc. done.
Qed.

Lemma print_string_ok s : Forall is_byte s -> prints (print_string malloc s) (string_text s).
Proof.
  intros Hs o Ht. unfold print_string, string_text in *.
  eapply puts_puts; [by apply xputc_ok | exact Ht |]. intros o1 H1.
  rewrite len_app in H1.
  destruct (print_chars_ok s Hs 1 o1) as (o2 & -> & Hp2); [eapply takes_le; [done | lia] |].
  cbn [mbind option_bind].
  destruct (xputc_ok 34 ltac:(done) o2) as (o3 & -> & Hp3);
    [eapply printed_takes; [exact H1 | done] |].
  exists o3. cbn [mbind option_bind]. split; [| by eapply printed_trans].
  rewrite !len_app. change (len [34]) with 1. do 2 f_equal. lia.
Qed.

Lemma print_atom_ok a : chars a -> prints (print_atom malloc a) (atom_text a).
Proof.
  intros Ha o Ht. unfold print_atom, atom_text in *. destruct (needs_quote a).
  - eapply (puts_puts (xputc malloc 39) _ [39] (a ++ [39])); [by apply xputc_ok | done |].
    intros o1 H1. eapply (puts_puts _ _ a [39]); [by apply xputs_ok | done |].
    intros o2 H2. destruct (xputc_ok 39 ltac:(done) o2 H2) as (o3 & -> & Hp).
    exists o3. cbn [mbind option_bind]. split; [| done]. rewrite !len_app.
    change (len [39]) with 1. do 2 f_equal. lia.
  - cbn [mbind option_bind]. destruct (xputs_ok a Ha o Ht) as (o1 & -> & Hp).
    exists o1. cbn [mbind option_bind]. by rewrite Z.add_0_r.
Qed.

Lemma joined_cons sep t ts : joined sep (t :: ts) = t ++ (if ts is [] then [] else sep ++ joined sep ts).
Proof. destruct ts; [by rewrite app_nil_r | done]. Qed.

Lemma joined_snoc sep ts t : joined sep (ts ++ [t]) = (ts ≫= fun t => t ++ sep) ++ t.
Proof.
  induction ts as [| u ts IH]; [done |]. cbn [app]. rewrite joined_cons, IH, bind_cons.
  destruct ts; cbn [app]; by rewrite <- !app_assoc.
Qed.

Lemma print_num_ok n : prints (xprintf malloc (printf_d n)) (printf_d n).
Proof. pose proof (printf_d_chars n). apply xprintf_ok; [tauto | lia]. Qed.

Lemma print_ref_ok ws : forall written o,
  takes o (len (joined [46] ((fun w => printf_d (int32 w)) <$> ws))) ->
  exists o', print_ref malloc (length ws) ws written o
    = Some (written + len (joined [46] ((fun w => printf_d (int32 w)) <$> ws)), o') /\
    printed o (joined [46] ((fun w => printf_d (int32 w)) <$> ws)) o'.
Proof.
  induction ws as [| w ws IH]; intros written o Ht.
  - exists o. cbn. rewrite Z.add_0_r. split; [done | by eapply printed_nil].
  - rewrite fmap_cons, joined_cons in *. cbn [length print_ref].
    set (t := (if (fun w => printf_d (int32 w)) <$> ws is [] then _ else _)) in *.
    destruct (prints_puts _ (fun r o =>
        '(dot, o) ← (if length ws is O then Some (0, o) else o ← xputc malloc 46 o; Some (1, o));
        print_ref malloc (length ws) ws (written + r + dot) o) _ t
      (fun o => (written + len (printf_d (int32 w) ++ t), o)) o (print_num_ok (int32 w)) Ht)
      as (o' & He & Hp); [| by exists o'].
    intros o1 H1. subst t. destruct ws as [| w2 ws].
    { exists o1. cbn. rewrite app_nil_r, Z.add_0_r. split; [done | by eapply printed_nil]. }
    cbn [length]. rewrite (fmap_cons _ w2 ws) in *.
    set (t := joined [46] _) in *.
    destruct (xputc_ok 46 ltac:(done) o1) as (o2 & -> & Hp2);
      [eapply takes_le; [exact H1 | rewrite len_app; lia] |].
    cbn [mbind option_bind].
    destruct (IH (written + len (printf_d (int32 w)) + 1) o2) as (o3 & He & Hp3);
      [eapply printed_takes; [rewrite <- len_app; exact H1 | done] |].
    exists o3. change (S (length ws)) with (length (w2 :: ws)). rewrite He.
    split; [| by eapply printed_trans].
    rewrite !len_app. change (len [46]) with 1. do 2 f_equal. lia.
Qed.

Lemma bytes_d_ok (t : list Z) b : chars t -> len t <= 1 ->
  prints (xprintf malloc (printf_d (signed_char b) ++ t)) (printf_d (signed_char b) ++ t).
Proof.
  intros Ht Hl. pose proof (printf_d_chars (signed_char b)). apply xprintf_ok;
    [apply chars_app; tauto | rewrite len_app; lia].
Qed.

Lemma print_bytes_ok p ws : forall pre post written o, p = pre ++ ws ++ post ->
  takes o (len (((fun b => printf_d (signed_char b)) <$> ws) ≫= fun t => t ++ [44])) ->
  exists o', print_bytes malloc (length ws) p (len pre) written o
    = Some (len pre + len ws,
            written + len (((fun b => printf_d (signed_char b)) <$> ws) ≫= fun t => t ++ [44]), o') /\
    printed o (((fun b => printf_d (signed_char b)) <$> ws) ≫= fun t => t ++ [44]) o'.
Proof.
  induction ws as [| w ws IH]; intros pre post written o Hp Ht.
  - exists o. cbn. rewrite !Z.add_0_r. split; [done | by eapply printed_nil].
  - rewrite fmap_cons, bind_cons in *. cbn [length print_bytes].
    assert (Hload : load (len pre) p = Some w).
    { unfold load. rewrite (proj2 (Z.leb_le 0 _)), Nat2Z.id, Hp, lookup_app_r, Nat.sub_diag by lia.
      done. }
    rewrite Hload. cbn [mbind option_bind].
    destruct (prints_puts _ (fun r o => print_bytes malloc (length ws) p (len pre + 1) (written + r) o)
      _ _ (fun o => (len pre + len (w :: ws), written + len ((printf_d (signed_char w) ++ [44]) ++
        (((fun b => printf_d (signed_char b)) <$> ws) ≫= fun t => t ++ [44])), o)) o
      (bytes_d_ok [44] w ltac:(by apply chars_test) ltac:(done)) Ht) as (o' & He & Hpr);
      [| by exists o'].
    intros o1 H1.
    destruct (IH (pre ++ [w]) post (written + len (printf_d (signed_char w) ++ [44])) o1) as (o2 & He & Hp2);
      [by rewrite <- app_assoc | done |].
    exists o2. rewrite (len_app pre) in He. change (len [w]) with 1 in He. rewrite He.
    split; [| done]. rewrite len_cons, (len_app (_ ++ [44])). do 2 f_equal. f_equal; lia.
Qed.

Lemma bin_end_ok l w acc : forall o, takes o (len (printf_d (signed_char w) ++ dots l ++ [62])) ->
  exists o',
    ('(w3, o) ← xprintf malloc (printf_d (signed_char w)) o;
     '(w4, o) ← (if BINPRINTSIZE <? l then xprintf malloc [44; 46; 46; 46] o else Some (0, o));
     o ← xputc malloc 62 o;
     Some (acc + w3 + w4 + 1, o))
    = Some (acc + len (printf_d (signed_char w) ++ dots l ++ [62]), o') /\
    printed o (printf_d (signed_char w) ++ dots l ++ [62]) o'.
Proof.
  intros o Ht. eapply (prints_puts _ _ _ _ (fun o => (_, o))); [apply print_num_ok | exact Ht |].
  intros o1 H1. assert (Hd : prints (fun o => if BINPRINTSIZE <? l then xprintf malloc [44; 46; 46; 46] o
      else Some (0, o)) (dots l)).
  { unfold dots. intros o0 H0. destruct (BINPRINTSIZE <? l).
    - apply xprintf_ok; [by apply chars_test | done | done].
    - exists o0. split; [done | by eapply printed_nil]. }
  eapply (prints_puts _ _ _ _ (fun o => (_, o)) o1 Hd H1). intros o2 H2.
  destruct (xputc_ok 62 ltac:(done) o2 H2) as (o3 & -> & Hp). exists o3. split; [| done].
  cbn [mbind option_bind]. rewrite !len_app. change (len [62]) with 1. do 2 f_equal. lia.
Qed.

Lemma print_bin_ok p : 0 < len p <= int_max -> prints (print_bin malloc p (len p)) (bin_text p).
Proof.
  intros Hl o Ht. unfold print_bin, bin_text, int_max in *.
  assert (Hm : (if BINPRINTSIZE <? len p then BINPRINTSIZE else int32 (len p)) = len (take 30 p)).
  { rewrite length_take, int32_small by (unfold is_int32; lia). unfold BINPRINTSIZE. destruct (Z.ltb_spec 30 (len p)); lia. }
  rewrite Hm. destruct (@exists_last _ (take 30 p)) as (ws & w & E); [destruct p; [cbn in Hl; lia | done] |].
  rewrite E, len_app. change (len [w]) with 1.
  replace (Z.to_nat (len ws + 1 - 1)) with (length ws) by lia.
  rewrite E in Ht. rewrite fmap_app in Ht |- *. cbn [fmap list_fmap] in Ht |- *. rewrite joined_snoc in Ht |- *.
  rewrite <- !app_assoc in Ht |- *.
  eapply (prints_puts (xprintf malloc [35; 66; 105; 110; 60])); [apply xprintf_ok; [by apply chars_test | done] | exact Ht |].
  clear Ht. intros o1 H1. rewrite len_app in H1.
  destruct (print_bytes_ok p ws [] (w :: drop 30 p) (len [35; 66; 105; 110; 60]) o1) as (o2 & Hpb & Hp2).
  { rewrite <- (take_drop 30 p) at 1. rewrite E. by rewrite <- app_assoc. }
  { eapply takes_le; [done | lia]. }
  change (len []) with 0 in Hpb. rewrite Z.add_0_l in Hpb. rewrite Hpb. cbn [mbind option_bind].
  assert (Hload : load (len ws) p = Some w).
  { unfold load. rewrite (proj2 (Z.leb_le 0 _)), Nat2Z.id by lia.
    rewrite <- (take_drop 30 p), E, <- app_assoc, lookup_app_r, Nat.sub_diag by lia. done. }
  rewrite Hload. cbn [mbind option_bind].
  destruct (bin_end_ok (len p) w (len [35; 66; 105; 110; 60] +
      len (((fun b => printf_d (signed_char b)) <$> ws) ≫= fun t => t ++ [44])) o2) as (o3 & -> & Hp3);
    [by eapply printed_takes |].
  exists o3. rewrite !(len_app [35; 66; 105; 110; 60]), !(len_app (_ ≫= _)).
  split; [do 2 f_equal; lia | by eapply printed_trans].
Qed.

(** ** Terms *)

Inductive eleaf :=
  | L_atom (s : list Z)
  | L_int (n : Z)
  | L_string (s : list Z)
  | L_double (d : Z)
  | L_pid (p : erlang_pid)
  | L_port (p : erlang_port)
  | L_ref (r : erlang_ref)
  | L_binary (s : list Z)
  | L_nil.

(** What the encoders write. *)
Definition leaf_bytes (l : eleaf) : list Z :=
  match l with
  | L_atom s => ext_atom_latin1 s
  | L_int n => ext_longlong n
  | L_string s => ext_string s
  | L_double d => ext_double d
  | L_pid p => ext_pid p
  | L_port p => ext_port p
  | L_ref r => ext_ref r
  | L_binary s => ext_binary s
  | L_nil => [ERL_NIL_EXT]
  end.

Context (sscanf_lf : list Z -> option Z) (printf_f : Z -> list Z).

Definition leaf_text (l : eleaf) : list Z :=
  match l with
  | L_atom s => atom_text s
  | L_int n => printf_d n
  | L_string s => string_text s
  | L_double d => printf_f d
  | L_pid p => pid_text (pid_sent p)
  | L_port p => port_text (port_sent p)
  | L_ref r => ref_text (ref_sent r)
  | L_binary s => bin_text s
  | L_nil => [91; 93]
  end.

(** The integers are those that are not written as bigs. *)
Definition leaf_ok (l : eleaf) : Prop :=
  match l with
  | L_atom s => chars s /\ len s < MAXATOMLEN
  | L_int n => ERL_MIN <= n <= ERL_MAX
  | L_string s => Forall is_byte s /\ 0 < len s < 65536
  | L_double d => is_uint64 d /\ chars (printf_f d) /\ len (printf_f d) < 2000
  | L_pid p => name_ok (pid_node p) /\ is_uint32 (pid_creation p)
  | L_port p => name_ok (port_node p) /\ is_uint32 (port_creation p)
  | L_ref r => ref_ok r /\ is_uint32 (ref_creation r) /\ Forall is_uint32 (ref_n r)
  | L_binary s => Forall is_byte s /\ 0 < len s <= int_max
  | L_nil => True
  end.

Definition prints_term (fuel : nat) (bs txt : list Z) : Prop :=
  forall b i o s, 0 <= i -> i + len bs <= int_max -> at_ s (b + i) bs -> takes o (len txt) ->
    exists o', print_term malloc sscanf_lf printf_f fuel b i o s = Some (len txt, i + len bs, o') /\
      printed o txt o'.

Lemma print_leaf_ok {A} (r : D (cres A)) index i' o k (v : A) txt s :
  r s = Some (Done i' v) -> prints (k v) txt -> takes o (len txt) ->
  exists o', print_leaf r index o k s = Some (len txt, i', o') /\ printed o txt o'.
Proof.
  intros Hr Hk Ht. destruct (Hk o Ht) as (o' & He & Hp). exists o'.
  unfold print_leaf. erewrite bindD_Some by exact Hr. cbv beta iota. unfold lift, bindD. by rewrite He.
Qed.

Lemma stored_ok {A} (k : A -> sink -> option (Z * sink)) v txt :
  prints (k v) txt -> prints (stored k (Some v)) txt.
Proof. done. Qed.

Lemma malloc_int_total n : exists blk, malloc_int malloc n = Some blk /\ len blk = uint64 n.
Proof.
  destruct (malloc_total (uint64 n)) as [blk Hb]; [apply Z.mod_pos_bound; lia |].
  exists blk. split; [done | by apply malloc_size].
Qed.

Lemma int_ext_long n : ERL_MIN <= n <= ERL_MAX ->
  is_int64 n /\ (type_of (hd 0 (ext_longlong n)) = ERL_SMALL_INTEGER_EXT \/
                 type_of (hd 0 (ext_longlong n)) = ERL_INTEGER_EXT).
Proof.
  intros Hn. change ERL_MIN with (-134217728) in *. change ERL_MAX with 134217727 in *.
  split; [unfold is_int64; lia |]. unfold ext_longlong.
  destruct ((n <? 256) && (0 <=? n)); [by left |]. right.
  change ERL_MIN with (-134217728). change ERL_MAX with 134217727.
  by rewrite !(proj2 (Z.leb_le _ _)) by lia.
Qed.

(** One step of the printer: the type, then its case. *)
Ltac print_step H Ha :=
  let n := fresh "n" in let Hn := fresh "Hn" in
  destruct (etf_type 0 sscanf_lf _ _ _ _ H Ha) as [n Hn];
  cbn [print_term]; erewrite bindD_Some by exact Hn; cbv beta iota zeta.

Lemma print_atom_leaf fuel s : leaf_ok (L_atom s) -> prints_term (S fuel) (ext_atom_latin1 s) (atom_text s).
Proof.
  intros [Hs Hl] b i o mem Hi Hm Ha Ht. assert (Hb := chars_bytes s Hs).
  pose proof (ext_atom_latin1_etf sscanf_lf s Hb Hl) as He. print_step He Ha.
  replace (type_of (hd 0 (ext_atom_latin1 s))) with ERL_ATOM_EXT
    by (unfold ext_atom_latin1, ext_atom; by destruct (128 <=? len s)).
  ctests. eapply print_leaf_ok; [| | done].
  - unfold ei_decode_atom, ext_atom_latin1 in *. apply decode_atom_latin1; try done.
    split; [by apply utf8_of_latin1_byte |]. pose proof (len_utf8_of_latin1 s).
    unfold MAXATOMLEN in Hl. destruct (Z.leb_spec 128 (len s)); lia.
  - cbn [at_text]. rewrite chars_c_str by done. by apply print_atom_ok.
Qed.

Lemma print_int_leaf fuel n : leaf_ok (L_int n) -> prints_term (S fuel) (ext_longlong n) (printf_d n).
Proof.
  intros Hn b i o mem Hi Hm Ha Ht. destruct (int_ext_long n Hn) as [H64 Hty].
  pose proof (ext_longlong_etf sscanf_lf n H64) as He. print_step He Ha.
  destruct Hty as [-> | ->]; ctests;
    (eapply print_leaf_ok; [by apply (decode_long_ok n H64 true) | apply stored_ok, print_num_ok | done]).
Qed.

Lemma print_string_leaf fuel p : leaf_ok (L_string p) ->
  prints_term (S fuel) (ext_string p) (string_text p).
Proof.
  intros [Hp Hl] b i o mem Hi Hm Ha Ht.
  assert (H : etf sscanf_lf (ext_string p)) by (apply ext_string_etf; [done | unfold int_max; lia]).
  print_step H Ha.
  replace (type_of (hd 0 (ext_string p))) with ERL_STRING_EXT.
  2:{ unfold ext_string. rewrite (proj2 (Z.eqb_neq _ _)), (proj2 (Z.leb_le _ _)) by lia. done. }
  ctests. destruct (malloc_int_total (n + 1)) as (blk & -> & _).
  eapply print_leaf_ok; [by apply (decode_string_ok p Hp true) | by apply stored_ok, print_string_ok | done].
Qed.

Lemma print_double_leaf fuel d : leaf_ok (L_double d) ->
  prints_term (S fuel) (ext_double d) (printf_f d).
Proof.
  intros (Hd & Hc & Hl) b i o mem Hi Hm Ha Ht.
  pose proof (etf_float sscanf_lf d Hd) as H. print_step H Ha. unfold ext_double at 1. cbn [hd]. ctests.
  eapply print_leaf_ok; [by apply (decode_double_ok sscanf_lf d Hd true) | | done].
  by apply stored_ok, xprintf_ok.
Qed.

Lemma name_chars n : name_ok n -> chars (c_str n) /\ len (c_str n) < MAXATOMLEN_UTF8.
Proof.
  intros [Hb Hv]. split; [by apply c_str_chars |]. by apply utf8_len_max.
Qed.

Lemma c_str_node n : Forall is_byte n -> c_str (c_str n) = c_str n.
Proof. intros Hn. by apply chars_c_str, c_str_chars. Qed.

Lemma pid_text_ok p : name_ok (pid_node p) ->
  chars (pid_text (pid_sent p)) /\ len (pid_text (pid_sent p)) < 2000.
Proof.
  intros Hn. destruct (name_chars _ Hn) as [Hc Hl]. destruct Hn as [Hb _].
  unfold pid_text, pid_sent. cbn [pid_node pid_num pid_serial pid_creation].
  rewrite c_str_node by done.
  split; [repeat apply chars_app; try done; try (by apply chars_test); apply printf_d_chars |].
  rewrite !len_app. unfold MAXATOMLEN_UTF8 in Hl.
  repeat match goal with |- context [len (printf_d ?a)] =>
    pose proof (printf_d_chars a); generalize dependent (printf_d a); intros end.
  cbn. lia.
Qed.

Lemma port_text_ok p : chars (port_text (port_sent p)) /\ len (port_text (port_sent p)) < 2000.
Proof.
  unfold port_text, port_sent. cbn [port_node port_id port_creation].
  split; [repeat apply chars_app; try (by apply chars_test); apply printf_d_chars |].
  rewrite !len_app.
  repeat match goal with |- context [len (printf_d ?a)] =>
    pose proof (printf_d_chars a); generalize dependent (printf_d a); intros end.
  cbn. lia.
Qed.

Lemma print_pid_leaf fuel p : leaf_ok (L_pid p) ->
  prints_term (S fuel) (ext_pid p) (pid_text (pid_sent p)).
Proof.
  intros [Hn Hc] b i o mem Hi Hm Ha Ht.
  pose proof (etf_id sscanf_lf _ (id_ext_pid _ (ext_pid_ext p Hn))) as H. print_step H Ha.
  replace (type_of (hd 0 (ext_pid p))) with ERL_PID_EXT
    by (unfold ext_pid, pid_tag; by destruct (3 <? pid_creation p)).
  ctests. eapply print_leaf_ok; [by apply (decode_pid_ok p Hn Hc true) | | done].
  apply stored_ok. destruct (pid_text_ok p Hn). by apply xprintf_ok.
Qed.

Lemma print_port_leaf fuel p : leaf_ok (L_port p) ->
  prints_term (S fuel) (ext_port p) (port_text (port_sent p)).
Proof.
  intros [Hn Hc] b i o mem Hi Hm Ha Ht.
  pose proof (etf_id sscanf_lf _ (ext_port_ext p Hn)) as H. print_step H Ha.
  replace (type_of (hd 0 (ext_port p))) with ERL_PORT_EXT
    by (unfold ext_port, port_tag; by destruct (3 <? port_creation p)).
  ctests. eapply print_leaf_ok; [by apply (decode_port_ok p Hn Hc true) | | done].
  apply stored_ok. destruct (port_text_ok p). by apply xprintf_ok.
Qed.

Lemma print_ref_text_ok r : ref_len r = len (ref_n r) ->
  prints (fun o => '(w1, o) ← xprintf malloc [35; 82; 101; 102; 60] o;
      '(w2, o) ← print_ref malloc (Z.to_nat (ref_len r)) (ref_n r) w1 o;
      o ← xputc malloc 62 o; Some (w2 + 1, o)) (ref_text r).
Proof.
  intros Hl o Ht. unfold ref_text in *. rewrite Hl, Nat2Z.id.
  eapply prints_puts; [apply xprintf_ok; [by apply chars_test | done] | exact Ht |].
  intros o1 H1. rewrite len_app in H1.
  destruct (print_ref_ok (ref_n r) (len [35; 82; 101; 102; 60]) o1) as (o2 & -> & Hp2);
    [eapply takes_le; [done | lia] |].
  cbn [mbind option_bind].
  destruct (xputc_ok 62 ltac:(done) o2) as (o3 & -> & Hp3); [by eapply printed_takes |].
  exists o3. cbn [mbind option_bind]. rewrite !len_app. change (len [62]) with 1.
  split; [do 2 f_equal; lia | by eapply printed_trans].
Qed.

Lemma print_ref_leaf fuel r : leaf_ok (L_ref r) ->
  prints_term (S fuel) (ext_ref r) (ref_text (ref_sent r)).
Proof.
  intros (Hr & Hc & Hw) b i o mem Hi Hm Ha Ht.
  pose proof (etf_id sscanf_lf _ (ext_ref_ext r Hr)) as H. print_step H Ha.
  replace (type_of (hd 0 (ext_ref r))) with ERL_NEW_REFERENCE_EXT
    by (unfold ext_ref, ref_tag; by destruct (3 <? ref_creation r)).
  ctests. eapply print_leaf_ok; [by apply (decode_ref_ok r Hr Hc Hw true) | | done].
  apply stored_ok, print_ref_text_ok. by destruct Hr as (_ & ? & _).
Qed.

Lemma print_binary_leaf fuel p : leaf_ok (L_binary p) ->
  prints_term (S fuel) (ext_binary p) (bin_text p).
Proof.
  intros [Hp Hl] b i o mem Hi Hm Ha Ht.
  assert (Hty : ei_get_type_internal 0 b i mem = Some (ERL_BINARY_EXT, len p))
    by (unfold ext_binary, int_max in *; pose proof Ha; type_steps).
  cbn [print_term]. erewrite bindD_Some by exact Hty. cbv beta iota zeta. ctests.
  destruct (malloc_int_total (len p)) as (blk & -> & Hblk).
  unfold uint64, uwrap in Hblk. rewrite Z.mod_small in Hblk by (unfold int_max in *; lia).
  eapply print_leaf_ok; [by apply (decode_binary_ok p true) | | done].
  apply stored_ok. rewrite drop_ge, app_nil_r by lia. by apply print_bin_ok.
Qed.

Lemma print_nil_leaf fuel : prints_term (S fuel) [ERL_NIL_EXT] [91; 93].
Proof.
  intros b i o mem Hi Hm Ha Ht. pose proof (etf_nil sscanf_lf) as H. print_step H Ha.
  cbn [hd]. ctests.
  eapply print_leaf_ok;
    [apply (decode_list_header_ok 0 ltac:(done) ltac:(done) true); [done | done | exact Ha] | | done].
  apply xprintf_ok; [by apply chars_test | done].
Qed.

Lemma print_leaf_term fuel l : leaf_ok l -> prints_term (S fuel) (leaf_bytes l) (leaf_text l).
Proof.
  destruct l; intros H; cbn [leaf_bytes leaf_text]; auto using print_atom_leaf, print_int_leaf,
    print_string_leaf, print_double_leaf, print_pid_leaf, print_port_leaf, print_ref_leaf,
    print_binary_leaf, print_nil_leaf.
Qed.

(** *** Lists and tuples *)

Inductive eterm :=
  | E_leaf (l : eleaf)
  | E_list (ts : list eterm) (tl : eterm)
  | E_tuple (ts : list eterm).

Section EtermInd.
Variable P : eterm -> Prop.
Hypothesis P_leaf : forall l, P (E_leaf l).
Hypothesis P_list : forall ts tl, Forall P ts -> P tl -> P (E_list ts tl).
Hypothesis P_tuple : forall ts, Forall P ts -> P (E_tuple ts).

Fixpoint eterm_induction (t : eterm) : P t :=
  let fix all ts := match ts return Forall P ts with
    | [] => Forall_nil_2 P
    | t :: ts => Forall_cons_2 P t ts (eterm_induction t) (all ts)
    end in
  match t with
  | E_leaf l => P_leaf l
  | E_list ts tl => P_list ts tl (all ts) (eterm_induction tl)
  | E_tuple ts => P_tuple ts (all ts)
  end.
End EtermInd.

Fixpoint eterm_bytes (t : eterm) : list Z :=
  match t with
  | E_leaf l => leaf_bytes l
  | E_list ts tl => ext_list_header (len ts) ++ concat (eterm_bytes <$> ts) ++ eterm_bytes tl
  | E_tuple ts => ext_tuple_header (len ts) ++ concat (eterm_bytes <$> ts)
  end.

Fixpoint eterm_text (t : eterm) : list Z :=
  match t with
  | E_leaf l => leaf_text l
  | E_list ts tl =>
      [91] ++ joined [44; 32] (eterm_text <$> ts) ++
      (match tl with E_leaf L_nil => [] | _ => [32; 124; 32] ++ eterm_text tl end) ++ [93]
  | E_tuple ts => [123] ++ joined [44; 32] (eterm_text <$> ts) ++ [125]
  end.

Inductive eterm_ok : eterm -> Prop :=
  | leaf_is_ok l : leaf_ok l -> eterm_ok (E_leaf l)
  | list_is_ok ts tl : Forall eterm_ok ts -> eterm_ok tl -> 0 < len ts -> eterm_ok (E_list ts tl)
  | tuple_is_ok ts : Forall eterm_ok ts -> eterm_ok (E_tuple ts).

Lemma leaf_etf l : leaf_ok l -> etf sscanf_lf (leaf_bytes l).
Proof.
  destruct l; cbn [leaf_bytes leaf_ok].
  - intros [H ?]. apply ext_atom_latin1_etf; [by apply chars_bytes | done].
  - intros H. by apply ext_longlong_etf, int_ext_long.
  - intros [? ?]. apply ext_string_etf; [done | unfold int_max; lia].
  - intros [? _]. by apply etf_float.
  - intros [? _]. by apply etf_id, id_ext_pid, ext_pid_ext.
  - intros [? _]. by apply etf_id, ext_port_ext.
  - intros [? _]. by apply etf_id, ext_ref_ext.
  - intros [_ ?]. apply ext_binary_etf. lia.
  - intros _. apply etf_nil.
Qed.

Lemma concat_len_ge (bss : list (list Z)) : Forall (fun bs => 0 < len bs) bss -> len bss <= len (concat bss).
Proof. induction 1; cbn; [lia |]. rewrite len_app. lia. Qed.

Lemma leaf_nonempty l : leaf_ok l -> 0 < len (leaf_bytes l).
Proof.
  assert (Hn : forall bs : list Z, bs <> [] -> 0 < len bs) by (intros [| ? ?]; [done | cbn; lia]).
  destruct l; intros _; cbn [leaf_bytes]; apply Hn; try done;
    auto using atom_nonempty, longlong_nonempty, string_nonempty.
Qed.

Lemma headers_len n : 0 < len (ext_list_header n) /\ 0 < len (ext_tuple_header n).
Proof. unfold ext_list_header, ext_tuple_header. split; case_match; cbn; lia. Qed.

Lemma eterm_pos t : eterm_ok t -> 0 < len (eterm_bytes t).
Proof.
  destruct 1 as [l Hl | ts tl _ _ _ | ts _]; cbn [eterm_bytes]; [by apply leaf_nonempty | |];
    rewrite len_app; [pose proof (headers_len (len ts)); lia..].
Qed.

Lemma elems_len ts : Forall eterm_ok ts -> len ts <= len (concat (eterm_bytes <$> ts)).
Proof.
  intros H. rewrite <- (length_fmap eterm_bytes ts). apply concat_len_ge, Forall_fmap.
  eapply Forall_impl; [| exact H]. apply eterm_pos.
Qed.

Lemma eterm_etf t : eterm_ok t -> len (eterm_bytes t) <= int_max -> etf sscanf_lf (eterm_bytes t).
Proof.
  assert (Hall : forall ts : list eterm,
    Forall (fun t => eterm_ok t -> len (eterm_bytes t) <= int_max -> etf sscanf_lf (eterm_bytes t)) ts ->
    Forall eterm_ok ts -> len (concat (eterm_bytes <$> ts)) <= int_max ->
    Forall (etf sscanf_lf) (eterm_bytes <$> ts)).
  { clear t. induction 1 as [| t ts Ht _ IH]; intros Hok Hl; [constructor |].
    inversion_clear Hok. cbn [fmap list_fmap concat] in *. rewrite len_app in Hl.
    constructor; [apply Ht; [done | lia] | apply IH; [done | lia]]. }
  induction t as [l | ts tl IH IHtl | ts IH] using eterm_induction; inversion_clear 1 as [? Hl | ? ? Hts Htl Hpos | ? Hts];
    intros Hm; cbn [eterm_bytes] in *; [by apply leaf_etf | |]; rewrite !len_app in Hm;
    pose proof (elems_len ts Hts) as Hge; pose proof (Hall ts IH Hts ltac:(lia)) as He;
    rewrite <- (length_fmap eterm_bytes ts) in Hge |- *.
  - unfold ext_list_header. rewrite (proj2 (Z.ltb_lt 0 _)) by (rewrite length_fmap; lia).
    apply etf_list; [done | apply IHtl; [done | lia] | lia].
  - apply ext_tuple_etf; [done | lia].
Qed.

(** Only the empty list has its tag. *)
Lemma eterm_tail t : eterm_ok t -> t <> E_leaf L_nil -> type_of (hd 0 (eterm_bytes t)) <> ERL_NIL_EXT.
Proof.
  destruct 1 as [l Hl | ts tl _ _ H0 | ts _]; intros Hn; cbn [eterm_bytes].
  - destruct l; cbn [leaf_bytes leaf_ok] in *; try done.
    + unfold ext_atom_latin1, ext_atom. by case_match.
    + destruct (int_ext_long n Hl) as [_ [-> | ->]]; done.
    + unfold ext_string. by rewrite (proj2 (Z.eqb_neq _ _)), (proj2 (Z.leb_le _ _)) by lia.
    + unfold ext_pid, pid_tag. by case_match.
    + unfold ext_port, port_tag. by case_match.
    + unfold ext_ref, ref_tag. by case_match.
  - unfold ext_list_header. by rewrite (proj2 (Z.ltb_lt _ _)).
  - unfold ext_tuple_header. by case_match.
Qed.

Lemma print_elems_ok fuel ts : Forall (fun t => prints_term fuel (eterm_bytes t) (eterm_text t)) ts ->
  forall b i o s w, 0 <= w -> w + len (joined [44; 32] (eterm_text <$> ts)) <= int_max ->
  0 <= i -> i + len (concat (eterm_bytes <$> ts)) <= int_max ->
  at_ s (b + i) (concat (eterm_bytes <$> ts)) -> takes o (len (joined [44; 32] (eterm_text <$> ts))) ->
  exists o', print_elems malloc (print_term malloc sscanf_lf printf_f fuel b) (length ts) w i o s
    = Some (w + len (joined [44; 32] (eterm_text <$> ts)), i + len (concat (eterm_bytes <$> ts)), o') /\
    printed o (joined [44; 32] (eterm_text <$> ts)) o'.
Proof.
  induction 1 as [| t ts Ht Hts IH]; intros b i o s w Hw Hwm Hi Hm Ha Hto.
  - exists o. cbn. rewrite !Z.add_0_r. split; [done | by eapply printed_nil].
  - cbn [length print_elems]. rewrite !fmap_cons in *. rewrite joined_cons in *. cbn [concat] in *.
    rewrite len_app in Hm. apply at_app in Ha as [Ha1 Ha2]. rewrite <- Z.add_assoc in Ha2.
    set (u := (if eterm_text <$> ts is [] then _ else _)) in *. rewrite len_app in Hto, Hwm.
    destruct (Ht b i o s) as (o1 & He1 & Hp1); [done | lia | done | eapply takes_le; [done | lia] |].
    erewrite bindD_Some by exact He1. cbv beta iota. rewrite (proj2 (Z.ltb_ge _ 0)) by lia.
    pose proof (printed_takes _ _ _ _ Hto Hp1) as H1.
    destruct ts as [| t2 ts].
    { subst u. exists o1. cbn [length print_elems]. cbn in Hwm. erewrite bindD_Some by done. cbv beta iota.
      int_fits. cbn. rewrite !app_nil_r, !Z.add_0_r. done. }
    cbn [length]. change (S (length ts)) with (length (t2 :: ts)).
    change (eterm_text <$> t2 :: ts) with (eterm_text t2 :: (eterm_text <$> ts)) in u, IH |- *.
    cbv iota in u. subst u. rewrite len_app in H1, Hwm. change (len [44; 32]) with 2 in Hwm.
    destruct (xputs_ok [44; 32] ltac:(by apply chars_test) o1) as (o2 & He2 & Hp2);
      [eapply takes_le; [done | lia] |].
    erewrite bindD_Some by (unfold lift; by rewrite He2). cbv beta iota. int_fits.
    destruct (IH b (i + len (eterm_bytes t)) o2 s (w + len (eterm_text t) + 2)) as (o3 & -> & Hp3);
      [lia | lia | lia | lia | done | by eapply printed_takes |].
    exists o3. split; [| by eapply printed_trans, printed_trans]. rewrite !len_app.
    change (len [44; 32]) with 2. do 2 f_equal. f_equal; lia.
Qed.

(** The tail of a list: nothing for the empty list. *)
Definition tail_text (tl : eterm) : list Z :=
  match tl with E_leaf L_nil => [] | _ => [32; 124; 32] ++ eterm_text tl end.

Lemma list_tail_ok fuel tl : eterm_ok tl -> prints_term fuel (eterm_bytes tl) (eterm_text tl) ->
  forall b i o s w, 0 <= w -> w + len (tail_text tl) <= int_max ->
  0 <= i -> i + len (eterm_bytes tl) <= int_max ->
  at_ s (b + i) (eterm_bytes tl) -> takes o (len (tail_text tl)) ->
  exists o',
    print_tail malloc (print_term malloc sscanf_lf printf_f fuel b) w b i o s
    = Some (w + len (tail_text tl), i + len (eterm_bytes tl), o') /\ printed o (tail_text tl) o'.
Proof.
  intros Hok Hp b i o s w Hw Hwm Hi Hm Ha Ht. unfold print_tail.
  destruct (etf_type 0 sscanf_lf _ b i s (eterm_etf tl Hok ltac:(lia)) Ha) as [n Hn].
  erewrite bindD_Some by exact Hn. cbv beta iota.
  assert (Hc : tl = E_leaf L_nil \/ tail_text tl = [32; 124; 32] ++ eterm_text tl /\ tl <> E_leaf L_nil)
    by (destruct tl as [[]| |]; (by left) || (by right)).
  destruct Hc as [-> | [E Hne]].
  - cbn [eterm_bytes leaf_bytes hd] in *. ctests.
    erewrite bindD_Some by (by apply (decode_list_header_ok 0 ltac:(done) ltac:(done) true b i s)).
    exists o. cbv beta iota. cbn [tail_text]. rewrite Z.add_0_r. split; [done | by eapply printed_nil].
  - rewrite E in *. rewrite (proj2 (Z.eqb_neq _ _)) by (by apply eterm_tail). cbn [negb].
    rewrite len_app in Ht, Hwm. change (len [32; 124; 32]) with 3 in Hwm.
    destruct (xputs_ok [32; 124; 32] ltac:(by apply chars_test) o) as (o1 & He1 & Hp1);
      [eapply takes_le; [done | lia] |].
    erewrite bindD_Some by (unfold lift; by rewrite He1). cbv beta iota.
    destruct (Hp b i o1 s Hi Hm Ha) as (o2 & He2 & Hp2); [by eapply printed_takes |].
    erewrite bindD_Some by exact He2. cbv beta iota. rewrite (proj2 (Z.ltb_ge _ 0)) by lia.
    int_fits. exists o2. unfold retD. rewrite len_app. change (len [32; 124; 32]) with 3.
    split; [do 2 f_equal; f_equal; lia | by eapply printed_trans].
Qed.

Lemma print_list_case fuel ts tl :
  eterm_ok (E_list ts tl) -> Forall (fun t => prints_term fuel (eterm_bytes t) (eterm_text t)) ts ->
  prints_term fuel (eterm_bytes tl) (eterm_text tl) ->
  prints_term (S fuel) (eterm_bytes (E_list ts tl)) (eterm_text (E_list ts tl)).
Proof.
  intros Hok Hts Htl b i o s Hi Hm Ha Ht.
  pose proof (eterm_etf _ Hok ltac:(lia)) as H. print_step H Ha.
  inversion Hok as [| ? ? Hokts Hoktl Hpos |]; subst. pose proof (elems_len ts Hokts) as Hge.
  cbn [eterm_bytes eterm_text] in *. fold (tail_text tl) in *.
  replace (type_of (hd 0 _)) with ERL_LIST_EXT
    by (unfold ext_list_header; by rewrite (proj2 (Z.ltb_lt 0 _)) by lia).
  ctests. rewrite !len_app in Hm. apply at_app in Ha as [Ha0 Ha]. apply at_app in Ha as [Ha1 Ha2].
  erewrite bindD_Some by (apply (decode_list_header_ok (len ts) ltac:(unfold is_int32, int_max in *; lia)
    ltac:(lia) true b i s); [lia | lia | exact Ha0]).
  cbv beta iota. cbn [out default from_option id]. rewrite Nat2Z.id.
  rewrite !len_app in Ht. pose proof (takes_int _ _ Ht) as Hmax.
  change (len [91]) with 1 in Hmax. change (len [93]) with 1 in Hmax.
  destruct (xputc_ok 91 ltac:(done) o) as (o1 & He1 & Hp1); [eapply takes_le; [done | lia] |].
  erewrite bindD_Some by (unfold lift; by rewrite He1).
  pose proof (printed_takes _ [91] _ _ Ht Hp1) as H1.
  destruct (print_elems_ok fuel ts Hts b (i + len (ext_list_header (len ts))) o1 s 1)
    as (o2 & He2 & Hp2); [lia | lia | lia | lia | at_tac | eapply takes_le; [done | lia] |].
  erewrite bindD_Some by exact He2. cbv beta iota. rewrite (proj2 (Z.ltb_ge _ 0)) by lia.
  pose proof (printed_takes _ _ _ _ H1 Hp2) as H2.
  destruct (list_tail_ok fuel tl Hoktl Htl b
    (i + len (ext_list_header (len ts)) + len (concat (eterm_bytes <$> ts))) o2 s
    (1 + len (joined [44; 32] (eterm_text <$> ts)))) as (o3 & He3 & Hp3);
    [lia | lia | lia | lia | at_tac | eapply takes_le; [exact H2 | lia] |].
  erewrite bindD_Some by exact He3. cbv beta iota. rewrite (proj2 (Z.ltb_ge _ 0)) by lia.
  destruct (xputc_ok 93 ltac:(done) o3) as (o4 & He4 & Hp4); [by eapply printed_takes |].
  erewrite bindD_Some by (unfold lift; by rewrite He4). int_fits. exists o4. unfold retD.
  split; [| by repeat (eapply printed_trans; [done |])].
  rewrite !len_app. change (len [91]) with 1. change (len [93]) with 1. do 2 f_equal. f_equal; lia.
Qed.

Lemma print_tuple_case fuel ts :
  eterm_ok (E_tuple ts) -> Forall (fun t => prints_term fuel (eterm_bytes t) (eterm_text t)) ts ->
  prints_term (S fuel) (eterm_bytes (E_tuple ts)) (eterm_text (E_tuple ts)).
Proof.
  intros Hok Hts b i o s Hi Hm Ha Ht.
  pose proof (eterm_etf _ Hok ltac:(lia)) as H. print_step H Ha.
  inversion Hok as [| | ? Hokts]; subst. pose proof (elems_len ts Hokts) as Hge.
  cbn [eterm_bytes eterm_text] in *.
  rewrite !len_app in Hm. apply at_app in Ha as [Ha0 Ha1].
  assert (Hty : type_of (hd 0 (ext_tuple_header (len ts) ++ concat (eterm_bytes <$> ts))) = ERL_SMALL_TUPLE_EXT \/
    type_of (hd 0 (ext_tuple_header (len ts) ++ concat (eterm_bytes <$> ts))) = ERL_LARGE_TUPLE_EXT)
    by (unfold ext_tuple_header; destruct (len ts <=? 255); [by left | by right]).
  rewrite !len_app in Ht. pose proof (takes_int _ _ Ht) as Hmax.
  change (len [123]) with 1 in Hmax. change (len [125]) with 1 in Hmax.
  destruct (xputc_ok 123 ltac:(done) o) as (o1 & He1 & Hp1); [eapply takes_le; [done | lia] |].
  pose proof (printed_takes _ [123] _ _ Ht Hp1) as H1.
  destruct (print_elems_ok fuel ts Hts b (i + len (ext_tuple_header (len ts))) o1 s 1)
    as (o2 & He2 & Hp2); [lia | lia | lia | lia | at_tac | eapply takes_le; [done | lia] |].
  destruct (xputc_ok 125 ltac:(done) o2) as (o3 & He3 & Hp3); [by eapply printed_takes |].
  exists o3. split; [| by repeat (eapply printed_trans; [done |])].
  destruct Hty as [-> | ->]; ctests;
    (erewrite bindD_Some by (apply (decode_tuple_header_ok (len ts) ltac:(unfold is_int32, int_max in *; lia)
      ltac:(lia) true b i s); [lia | lia | exact Ha0]);
    cbv beta iota; cbn [out default from_option id]; rewrite Nat2Z.id;
    erewrite bindD_Some by (unfold lift; by rewrite He1);
    erewrite bindD_Some by exact He2; cbv beta iota; rewrite (proj2 (Z.ltb_ge _ 0)) by lia;
    erewrite bindD_Some by (unfold lift; by rewrite He3); int_fits; unfold retD;
    rewrite !len_app; change (len [123]) with 1; change (len [125]) with 1; do 2 f_equal; f_equal; lia).
Qed.

(** The bytes of an element are fewer than those of its list. *)
Lemma elem_shorter ts t : Forall eterm_ok ts -> t ∈ ts ->
  (length (eterm_bytes t) <= length (concat (eterm_bytes <$> ts)))%nat.
Proof.
  intros _ Ht. apply list_elem_of_split in Ht as (a & c & ->).
  rewrite fmap_app, concat_app, !length_app. cbn [fmap list_fmap concat]. rewrite length_app. lia.
Qed.

Lemma print_term_ok t : eterm_ok t -> forall fuel, (length (eterm_bytes t) <= fuel)%nat ->
  prints_term fuel (eterm_bytes t) (eterm_text t).
Proof.
  assert (Hall : forall (ts : list eterm) fuel,
    Forall (fun t => eterm_ok t -> forall fuel, (length (eterm_bytes t) <= fuel)%nat ->
      prints_term fuel (eterm_bytes t) (eterm_text t)) ts ->
    Forall eterm_ok ts -> (length (concat (eterm_bytes <$> ts)) <= fuel)%nat ->
    Forall (fun t => prints_term fuel (eterm_bytes t) (eterm_text t)) ts).
  { intros ts fuel Hp Hok Hl. apply list.Forall_forall. intros u Hu.
    rewrite list.Forall_forall in Hp. pose proof (elem_shorter ts u Hok Hu).
    rewrite list.Forall_forall in Hok. apply Hp; [done | by apply Hok | lia]. }
  induction t as [l | ts tl IH IHtl | ts IH] using eterm_induction; intros Hok fuel Hl;
    pose proof (eterm_pos _ Hok) as Hpos; (destruct fuel as [| fuel]; [lia |]).
  - inversion_clear Hok. by apply print_leaf_term.
  - apply print_list_case; [done | |]; inversion_clear Hok as [| ? ? Hts Htl Hne |];
      cbn [eterm_bytes] in Hl; rewrite !length_app in Hl; pose proof (headers_len (len ts)) as [Hh _].
    + apply Hall; [done | done | lia].
    + apply IHtl; [done | lia].
  - apply print_tuple_case; [done |]; inversion_clear Hok as [| | ? Hts];
      cbn [eterm_bytes] in Hl; rewrite !length_app in Hl; pose proof (headers_len (len ts)) as [_ Hh].
    apply Hall; [done | done | lia].
Qed.
End Sink.
