(* ===== verification/TextCorrect.v ===== *)
(** * Properties of ei_format.c and ei_printterm.c *)

From S2P Require Import Prelude Mem PutGet Ext Headers Ints Atom Data Ids Big Term Skip XBuff EiCorrect Format FormatOk Print PrintOk.

(** What the allocator is asked for, it gives. *)
Definition gives (malloc : Z -> option (list Z)) : Prop :=
  (forall n, 0 <= n -> exists blk, malloc n = Some blk) /\
  (forall n blk, malloc n = Some blk -> len blk = n).

Lemma malloc_zero_gives : gives malloc_zero.
Proof.
  split; [| apply malloc_zero_size]. intros n Hn. unfold malloc_zero.
  rewrite (proj2 (Z.ltb_ge _ _)) by lia. by eexists.
Qed.


(** The text of [{ab, [~i,1.5 ], 'Q'}]. *)
Definition sample_text : list Z :=
  [123; 97; 98; 44; 32; 91; 126; 105; 44; 49; 46; 53; 32; 93; 44; 32; 39; 81; 39; 125].
Definition sample_lf (t : list Z) : option Z :=
  if decide (take 3 t = [49; 46; 53]) then Some 4609434218613702656 else None.
Definition sample_bytes : list Z :=
  [104; 3; 119; 2; 97; 98; 108; 0; 0; 0; 2; 97; 7; 70; 63; 248; 0; 0; 0; 0; 0; 0; 106;
   119; 1; 81].

Lemma sample_float : float_text sample_lf [49; 46; 53] 4609434218613702656.
Proof.
  split; [| by intros rest _].
  exists [], [49], [53]. split; [done |]. split; [by left |]. split; [by split; [| repeat constructor] |].
  by repeat constructor.
Qed.

Lemma sample_form : form sample_lf sample_text [(va_int 7, arg_l 7)] sample_bytes.
Proof.
  set (l := [108; 0; 0; 0; 2; 97; 7; 70; 63; 248; 0; 0; 0; 0; 0; 0; 106]).
  apply (form_tuple sample_lf [] (drop 1 sample_text) [(va_int 7, arg_l 7)]
    [[119; 2; 97; 98]; l; [119; 1; 81]]); [constructor |].
  apply (elems_next _ 125 [97; 98] [32] (drop 5 sample_text) [] [(va_int 7, arg_l 7)]);
    [by apply (form_atom _ 97 [98]); repeat constructor | by repeat constructor |].
  apply (elems_next _ 125 [91; 126; 105; 44; 49; 46; 53; 32; 93] [32] (drop 16 sample_text)
    [(va_int 7, arg_l 7)] []); [| by repeat constructor |].
  - apply (form_list _ [] [126; 105; 44; 49; 46; 53; 32; 93] [(va_int 7, arg_l 7)]
      [[97; 7]; [70; 63; 248; 0; 0; 0; 0; 0; 0]]); [constructor |].
    apply (elems_next _ 93 [126; 105] [] [49; 46; 53; 32; 93] [(va_int 7, arg_l 7)] []);
      [| constructor |].
    + apply form_letter, (letter_i 7). unfold is_int32. lia.
    + apply (elems_last _ 93 [49; 46; 53] [32] []); [| by repeat constructor].
      apply (form_float _ _ 4609434218613702656); [apply sample_float | unfold is_uint64; lia | done].
  - apply (elems_last _ 125 [39; 81; 39] [] []); [| constructor].
    apply (form_quoted _ [81]); [| done]. by repeat constructor.
Qed.

Lemma new_buffer_room n : 0 <= n -> n + 200 <= int_max ->
  room (XBuff (Some (repeat 0 100)) 100 0) n.
Proof.
  unfold room, int_max, ei_x_extra. intros H0 Hn. split; [| cbn; lia].
  exists (repeat 0 100). split; [done |]. split; [done | cbn; lia].
Qed.


(** ** Printing *)

Section Prints.
Context (malloc : Z -> option (list Z)) (sscanf_lf : list Z -> option Z) (printf_f : Z -> list Z).
Context (Hm : gives malloc).

Lemma print_file_ok t b i s out :
  eterm_ok printf_f t -> 0 <= i -> i + len (eterm_bytes t) <= int_max ->
  at_ s (b + i) (eterm_bytes t) -> len (eterm_text printf_f t) <= int_max ->
  ei_print_term malloc sscanf_lf printf_f (length (eterm_bytes t)) (Some out) b i s
  = Some (len (eterm_text printf_f t), i + len (eterm_bytes t), Some (out ++ eterm_text printf_f t)).
Proof.
  intros Hok Hi Hl Ha Htx. destruct Hm as [Htot Hsz].
  destruct (print_term_ok malloc Htot Hsz sscanf_lf printf_f t Hok (length (eterm_bytes t))
    ltac:(done) b i (to_file out) s) as (o' & He & Ho); [done.. |].
  destruct o' as [out' |]; [| done]. cbn in Ho. subst out'.
  unfold ei_print_term. by erewrite bindD_Some by exact He.
Qed.

Lemma s_print_ok t b i s :
  eterm_ok printf_f t -> 0 <= i -> i + len (eterm_bytes t) <= int_max ->
  at_ s (b + i) (eterm_bytes t) -> len (eterm_text printf_f t) + 201 <= int_max ->
  exists blk,
    ei_s_print_term malloc sscanf_lf printf_f (length (eterm_bytes t)) None b i s
    = Some (len (eterm_text printf_f t), i + len (eterm_bytes t), Some blk) /\
    take (length (eterm_text printf_f t) + 1) blk = eterm_text printf_f t ++ [0].
Proof.
  intros Hok Hi Hl Ha. destruct Hm as [Htot Hsz].
  pose proof (print_term_ok malloc Htot Hsz sscanf_lf printf_f t Hok (length (eterm_bytes t))
    ltac:(done) b i) as Hp.
  generalize dependent (eterm_text printf_f t). intros txt Hp Ht.
  destruct (new_runs malloc Htot Hsz) as (x & Hnew & Hix & Hx & Hc & Hz).
  assert (Hr : room x (len txt + 1)) by (split; [done |]; split; [done |]; unfold ei_x_extra; lia).
  destruct (Hp (to_buff x) s) as (o' & He & Ho); [done.. | by eapply room_le; [done | lia] |].
  destruct o' as [| x']; [done |]. cbn [printed] in Ho.
  destruct (append_buf_runs malloc Htot Hsz x' [0] 1) as (rc & x2 & He2 & H2);
    [by constructor | done | by eapply appends_room |].
  pose proof (appends_trans x txt x' [0] x2 Ho H2) as H3.
  pose proof (appends_index _ _ _ Hx H3) as Hi2. rewrite Hix, len_app in Hi2.
  change (len [0]) with 1 in Hi2. destruct H3 as ((blk & Hb & _) & _ & Hc3).
  rewrite Hc in Hc3. cbn [app] in Hc3. unfold contents in Hc3. rewrite Hb in Hc3. cbn in Hc3.
  exists blk. unfold ei_s_print_term. rewrite Hnew. cbn [snd].
  erewrite bindD_Some by exact He. cbv beta iota.
  erewrite bindD_Some by (unfold lift; exact He2). cbv beta iota. rewrite Hb. split; [done |].
  rewrite <- Hc3. f_equal. lia.
Qed.
End Prints.

(** C30: for a term of the following kind at the index, [ei_print_term] adds its
    text, of at most INT_MAX characters, to the file, and [ei_s_print_term] with
    NULL hands back a block that starts with the text, of at most INT_MAX - 201
    characters, and a zero; both return its length and move the index to the end of
    the term. The length of the term is fuel enough, and memory is not exhausted.
    The kind ([eterm_ok]): Latin-1 atoms of at most 255 characters, none of them
    zero, integers of 28 bits, strings of 1 to 65535 bytes, floats that print in
    fewer than 2000 characters, pids, ports and references with valid names,
    binaries that are not empty, the empty list, tuples of these, and lists of at
    least one with any of these as the tail. *)
Theorem print_gives_text malloc sscanf_lf printf_f t b i s :
  gives malloc -> eterm_ok printf_f t ->
  0 <= i -> i + len (eterm_bytes t) <= int_max -> at_ s (b + i) (eterm_bytes t) ->
  let txt := eterm_text printf_f t in
  (len txt <= int_max -> forall out,
   ei_print_term malloc sscanf_lf printf_f (length (eterm_bytes t)) (Some out) b i s
     = Some (len txt, i + len (eterm_bytes t), Some (out ++ txt))) /\
  (len txt + 201 <= int_max ->
   exists blk, ei_s_print_term malloc sscanf_lf printf_f (length (eterm_bytes t)) None b i s
     = Some (len txt, i + len (eterm_bytes t), Some blk) /\
     take (length txt + 1) blk = txt ++ [0]).
Proof.
  intros Hm Hok Hi Hl Ha. split; [intros; by apply print_file_ok | intros; by apply s_print_ok].
Qed.

Definition sample_term : eterm :=
  E_tuple [E_leaf (L_atom [97; 98]); E_list [E_leaf (L_int (-300)); E_leaf (L_string [72; 105])]
             (E_leaf L_nil)].

Lemma sample_term_ok f : eterm_ok f sample_term.
Proof.
  apply tuple_is_ok, Forall_cons; [| apply Forall_cons; [| constructor]].
  - apply leaf_is_ok. split; [by apply chars_test | done].
  - apply list_is_ok; [| by apply leaf_is_ok | done].
    apply Forall_cons; [| apply Forall_cons; [| constructor]]; apply leaf_is_ok.
    + split; vm_compute; discriminate.
    + split; [by apply chars_bytes, chars_test | done].
Qed.

(** [{ab, [-300, "Hi"]}] *)
Lemma print_gives_text_witness :
  exists blk, ei_s_print_term malloc_zero sample_lf (fun _ => []) (length (eterm_bytes sample_term))
      None 0 0 (eterm_bytes sample_term)
    = Some (18, 0 + len (eterm_bytes sample_term), Some blk) /\
    take 19 blk = [123; 97; 98; 44; 32; 91; 45; 51; 48; 48; 44; 32; 34; 72; 105; 34; 93; 125] ++ [0].
Proof.
  refine (proj2 (print_gives_text malloc_zero sample_lf (fun _ => []) sample_term 0 0
    (eterm_bytes sample_term) malloc_zero_gives (sample_term_ok _) _ _ _) _).
  - lia.
  - vm_compute. discriminate.
  - split; [lia |]. exists [], []. by rewrite app_nil_r.
  - vm_compute. discriminate.
Defined.

(** ** There and back *)

(** The terms whose text the scanner reads as that term: no quote of its own
    kind and no ~ inside quotes, printable characters in strings, no improper
    tails. *)
Inductive plain : eterm -> Prop :=
  | plain_atom s :
      s <> [] -> needs_quote s = false -> len s < MAXATOMLEN -> plain (E_leaf (L_atom s))
  | plain_quoted s :
      needs_quote s = true -> quoted 39 s -> len s < MAXATOMLEN -> plain (E_leaf (L_atom s))
  | plain_int n : ERL_MIN <= n <= ERL_MAX -> plain (E_leaf (L_int n))
  | plain_string s :
      Forall (fun c => 32 <= c < 127) s -> quoted 34 s -> 0 < len s < 65536 ->
      plain (E_leaf (L_string s))
  | plain_nil : plain (E_leaf L_nil)
  | plain_list ts : Forall plain ts -> ts <> [] -> plain (E_list ts (E_leaf L_nil))
  | plain_tuple ts : Forall plain ts -> plain (E_tuple ts).

Lemma quoted_chars q cs : quoted q cs -> chars cs.
Proof. apply Forall_impl. unfold is_byte, is_char. intros c (? & ? & _). lia. Qed.

Lemma unquoted_atom s : s <> [] -> needs_quote s = false ->
  exists c cs, s = c :: cs /\ islower c /\ Forall is_atom_char cs /\ chars s.
Proof.
  intros Hne Hq. destruct s as [| c cs]; [done |]. exists c, cs.
  unfold needs_quote in Hq. apply negb_false_iff, andb_true_iff in Hq as [Hc Hall]. cbn [hd] in Hc.
  rewrite forallb_forall in Hall.
  assert (Ha : Forall is_atom_char (c :: cs)).
  { apply Forall_forall. intros d Hd. apply Is_true_true. by apply Hall. }
  split; [done |]. split; [by apply Is_true_true |]. split; [by inversion_clear Ha |].
  eapply Forall_impl; [| exact Ha]. intros d Hd. apply Is_true_true in Hd. unfold is_char. bool_lia.
Qed.

Lemma plain_is_ok f t : plain t -> eterm_ok f t.
Proof.
  induction t as [l | ts tl IH IHtl | ts IH] using eterm_induction; inversion 1; subst;
    try (apply leaf_is_ok; cbn [leaf_ok]).
  - destruct (unquoted_atom s) as (c & cs & _ & _ & _ & ?); done.
  - split; [by eapply quoted_chars | done].
  - done.
  - split; [by eapply quoted_bytes | done].
  - done.
  - apply list_is_ok; [| by apply leaf_is_ok | destruct ts; [done | cbn; lia]].
    apply list.Forall_forall. intros u Hu. rewrite list.Forall_forall in IH, H2. auto.
  - apply tuple_is_ok. apply list.Forall_forall. intros u Hu.
    rewrite list.Forall_forall in IH. match goal with H : Forall plain _ |- _ =>
      rewrite list.Forall_forall in H end. auto.
Qed.

Lemma printable_text s : Forall (fun c => 32 <= c < 127) s -> s ≫= char_text = s.
Proof.
  induction 1 as [| c s Hc _ IH]; [done |]. rewrite bind_cons, IH.
  assert (Hs : signed_char c = c) by (unfold signed_char, swrap; rewrite Z.mod_small by (cbn; lia); lia).
  unfold char_text. by rewrite Hs, (proj2 (Z.leb_le 32 c)) by lia.
Qed.

Lemma elems_form lf close (ts : list eterm) (f : Z -> list Z) :
  ts <> [] -> Forall (fun t => form lf (eterm_text f t) [] (eterm_bytes t)) ts ->
  elems lf close (joined [44; 32] (eterm_text f <$> ts) ++ [close]) [] (eterm_bytes <$> ts).
Proof.
  intros Hne H. induction H as [| t ts Ht Hts IH]; [done |].
  destruct ts as [| t2 ts].
  - by apply (elems_last lf close (eterm_text f t) [] []); [| constructor].
  - rewrite (fmap_cons (eterm_text f)), joined_cons, <- app_assoc.
    apply (elems_next lf close (eterm_text f t) [32] _ [] []); [done | by repeat constructor |].
    by apply IH.
Qed.

Lemma plain_form lf f t : plain t -> form lf (eterm_text f t) [] (eterm_bytes t).
Proof.
  assert (Hall : forall ts : list eterm,
    Forall (fun t => plain t -> form lf (eterm_text f t) [] (eterm_bytes t)) ts -> Forall plain ts ->
    Forall (fun t => form lf (eterm_text f t) [] (eterm_bytes t)) ts).
  { intros ts H1 H2. apply list.Forall_forall. intros u Hu.
    rewrite list.Forall_forall in H1, H2. auto. }
  induction t as [l | ts tl IH IHtl | ts IH] using eterm_induction; inversion 1; subst;
    cbn [eterm_text eterm_bytes leaf_text leaf_bytes].
  - destruct (unquoted_atom s) as (c & cs & -> & Hc & Hcs & _); [done | done |].
    unfold atom_text. match goal with H : needs_quote _ = false |- _ => rewrite H end.
    unfold MAXATOMLEN in *. rewrite <- (take_ge (c :: cs) 255) at 2 by lia. by apply form_atom.
  - unfold atom_text. match goal with H : needs_quote _ = true |- _ => rewrite H end.
    by apply form_quoted.
  - destruct (printf_d_ok n) as (s & ds & -> & Hs & Hd & Hn);
      
      [change ERL_MIN with (-134217728) in *; change ERL_MAX with 134217727 in *;
       change (10 ^ 20) with 100000000000000000000; lia |].
    apply form_int; [done | done | done | by apply int_ext_long].
  - unfold string_text. rewrite printable_text by done. by apply form_string.
  - apply (form_nil lf []). constructor.
  - rewrite <- (length_fmap eterm_bytes ts). cbn [app].
    apply (form_list lf []); [constructor |]. apply elems_form; auto.
  - destruct ts as [| t ts]; [apply (form_empty lf []); constructor |].
    rewrite <- (length_fmap eterm_bytes (t :: ts)).
    apply (form_tuple lf []); [constructor |]. apply elems_form; auto.
Qed.

(** C31: printing is the inverse of scanning: the text that [ei_s_print_term] gives
    for a plain term is read by [ei_x_format_wo_ver] as that term, and what it
    builds in a new buffer prints as the same text again, as long as term and text
    have at most INT_MAX - 201 bytes and memory is not exhausted. Plain are an atom
    of at most 255 characters that needs no quotes, or that needs them and has no
    zero, single quote or tilde; an integer of 28 bits; a string of 1 to 65535
    characters from 32 to 126 without double quote or tilde; the empty list, and
    proper lists and tuples of plain terms. *)
Theorem format_print_round_trip malloc sscanf_lf printf_f t :
  gives malloc -> plain t ->
  let txt := eterm_text printf_f t in let bs := eterm_bytes t in
  len bs + 201 <= int_max -> len txt + 201 <= int_max ->
  exists x x' blk out,
    ei_x_new malloc = (0, x) /\
    ei_x_format_wo_ver malloc sscanf_lf (S (length txt)) x txt [] = Some (0, x') /\
    buff x' = Some blk /\ contents x' = bs /\
    ei_s_print_term malloc sscanf_lf printf_f (length bs) None 0 0 blk
      = Some (len txt, index x', Some out) /\
    take (length txt + 1) out = txt ++ [0].
Proof.
  intros Hm Hp txt bs Hbs Htxt. destruct Hm as [Htot Hsz].
  destruct (new_runs malloc Htot Hsz) as (x & Hnew & Hix & Hx & Hc & Hz).
  destruct (format_runs malloc sscanf_lf (S (length txt)) [] txt [] [] bs x) as (x' & He & Hx');
    try done; [by apply plain_form | constructor | split; [done | split; [done | unfold ei_x_extra; lia]]
              | lia |].
  cbn [app] in He. rewrite app_nil_r in He.
  pose proof (appends_index _ _ _ Hx Hx') as Hix'. destruct Hx' as ((blk & Hb & _) & _ & Hcx).
  rewrite Hc in Hcx. cbn [app] in Hcx.
  assert (Ha : at_ blk 0 bs).
  { split; [done |]. exists [], (drop (length bs) blk). split; [| done].
    rewrite <- Hcx at 1. unfold contents. rewrite Hb, Hix', Hix. cbn [default from_option id app].
    rewrite Z.add_0_l, Nat2Z.id. by rewrite take_drop. }
  destruct (s_print_ok malloc sscanf_lf printf_f (conj Htot Hsz) t 0 0 blk) as (out & Ho & Hout);
    [by apply plain_is_ok | done | fold bs; lia | done | done |].
  exists x, x', blk, out. rewrite Hix', Hix. repeat split_and; done.
Qed.

Lemma sample_term_plain : plain sample_term.
Proof.
  apply plain_tuple, Forall_cons; [| apply Forall_cons; [| constructor]].
  - by apply plain_atom.
  - apply plain_list; [| done]. apply Forall_cons; [| apply Forall_cons; [| constructor]].
    + apply plain_int. split; vm_compute; discriminate.
    + apply plain_string; [repeat constructor; lia | repeat constructor; unfold is_byte; lia | done].
Qed.

Lemma format_print_round_trip_witness :
  exists x x' blk out,
    ei_x_new malloc_zero = (0, x) /\
    ei_x_format_wo_ver malloc_zero sample_lf (S (length (eterm_text (fun _ => []) sample_term))) x
      (eterm_text (fun _ => []) sample_term) [] = Some (0, x') /\
    buff x' = Some blk /\ contents x' = eterm_bytes sample_term /\
    ei_s_print_term malloc_zero sample_lf (fun _ => []) (length (eterm_bytes sample_term)) None 0 0 blk
      = Some (len (eterm_text (fun _ => []) sample_term), index x', Some out) /\
    take (length (eterm_text (fun _ => []) sample_term) + 1) out
      = eterm_text (fun _ => []) sample_term ++ [0].
Proof.
  apply (format_print_round_trip malloc_zero sample_lf (fun _ => []) sample_term).
  - apply malloc_zero_gives.
  - apply sample_term_plain.
  - vm_compute. discriminate.
  - vm_compute. discriminate.
Defined.

(** ** Where the scanner and the printer fail *)

Definition scanned (text : list Z) (ap : list c_arg) : option (Z * list Z) :=
  '(res, x) ← ei_x_format_wo_ver malloc_zero sample_lf 30 (XBuff (Some (repeat 0 100)) 100 0) text ap;
  Some (res, contents x).

(** [[a|b]]: the result of the tail is taken for the length of the list: the
    two atoms are appended without a list header. *)
Lemma improper_list_without_header :
  scanned [91; 97; 124; 98; 93] [] = Some (0, [119; 1; 97; 119; 1; 98]).
Proof. vm_compute. reflexivity. Qed.

(** [{a ,bc}]: with a space in front of the comma the first character of the next
    element is lost, and the tuple is [{a,c}]; the whole element when it has
    one character. *)
Lemma space_before_comma_drops :
  scanned [123; 97; 32; 44; 98; 99; 125] [] = Some (0, [104; 2; 119; 1; 97; 119; 1; 99]) /\
  scanned [123; 97; 32; 44; 98; 125] [] = Some (0, [104; 1; 119; 1; 97]).
Proof. vm_compute. split; reflexivity. Qed.

(** [{a] and [[a]: behind the element the zero of the text is taken for a separator,
    and the text is read past its end. *)
Lemma open_bracket_read_past_end :
  scanned [123; 97] [] = None /\ scanned [91; 97] [] = None.
Proof. vm_compute. split; reflexivity. Qed.

(** A ~ in a string counts as an argument of an unknown letter. *)
Lemma tilde_in_string_refused : scanned [34; 126; 34] [] = Some (-1, []).
Proof. vm_compute. reflexivity. Qed.

(** ['a\'b']: the test for a backslash looks at the quote itself, so that a quote
    always ends the atom. *)
Lemma backslash_does_not_escape :
  scanned [39; 97; 92; 39; 98; 39] [] = Some (0, [119; 2; 97; 92]).
Proof. vm_compute. reflexivity. Qed.

(** A big of two bytes or more: [arity] counts bytes, and so many 16-bit digits
    are read out of an array of half as many. *)
Lemma big_text_overreads malloc b :
  (forall n, 0 <= n -> exists blk, malloc n = Some blk) -> 2 <= big_arity b ->
  len (big_digits b) = (big_arity b + 1) / 2 -> ei_big_to_str malloc b = None.
Proof.
  intros Htot Ha Hd. unfold ei_big_to_str, malloc_int.
  destruct (Htot (uint64 (int32 (64 + big_is_neg b + 10 * big_arity b)))) as [blk ->];
    [apply Z.mod_pos_bound; lia |].
  assert (H : forall n sp, (length sp < n)%nat -> digit_texts n sp = None).
  { induction n as [| n IH]; intros [| d sp] Hl; cbn in Hl; [lia | lia | done |].
    cbn [digit_texts]. by rewrite IH by lia. }
  rewrite H; [done |]. assert ((big_arity b + 1) / 2 < big_arity b)
    by (apply Z.div_lt_upper_bound; lia). lia.
Qed.

(** So no integer outside [ERL_MIN..ERL_MAX] can be printed. *)
Lemma large_integer_not_printed :
  ei_print_term malloc_zero sample_lf (fun _ => []) 1 (Some []) 0 0 (ext_longlong 134217728) = None.
Proof. vm_compute. reflexivity. Qed.

(** The last byte of an empty binary is read out of an empty block. *)
Lemma empty_binary_overreads :
  ei_print_term malloc_zero sample_lf (fun _ => []) 1 (Some []) 0 0 [109; 0; 0; 0; 0] = None.
Proof. vm_compute. reflexivity. Qed.

(** The character 128 of a string is printed as [\xffffff80], and the byte 255 of a
    binary as -1. *)
Lemma signed_chars_printed :
  ei_print_term malloc_zero sample_lf (fun _ => []) 1 (Some []) 0 0 [107; 0; 1; 128]
  = Some (12, 4, Some [34; 92; 120; 102; 102; 102; 102; 102; 102; 56; 48; 34]) /\
  ei_print_term malloc_zero sample_lf (fun _ => []) 1 (Some []) 0 0 [109; 0; 0; 0; 1; 255]
  = Some (8, 6, Some [35; 66; 105; 110; 60; 45; 49; 62]).
Proof. vm_compute. split; reflexivity. Qed.
