(* ===== verification/Eterm.v ===== *)
(** * legacy/erl_eterm.c: the terms of erl_interface

    [ETERM] is the term that a pointer to one denotes, with the constructors of
    the union of erl_interface.h: what the functions that only read terms see. The
    reference counts of its cells are not in it. The lengths of I/O lists are
    taken to fit in an [int]. *)

From S2P Require Import Prelude Mem PutGet Ext Atom Data.

(** ** erl_interface.h *)

(** The two texts of an atom; a NULL pointer is [None]. [lenU] and [lenL] are
    always set together with the texts, to their lengths. The texts are one
    block exactly when they are equal, that is for ASCII. *)
Record Erl_Atom_data := AtomData { utf8 : option (list Z); latin1 : option (list Z) }.

Definition lenU (a : Erl_Atom_data) : Z := len (default [] (utf8 a)).
Definition lenL (a : Erl_Atom_data) : Z := len (default [] (latin1 a)).

(** A tuple has its elements, a binary its bytes; a reference has the first
    [len] words of its array. A field of a fun may be NULL: the decoder does
    not look at what it stores there. *)
Inductive ETERM :=
  | Erl_Integer (i : Z)
  | Erl_Uinteger (u : Z)
  | Erl_LLInteger (l : Z)
  | Erl_ULLInteger (ul : Z)
  | Erl_Float (f : Z)
  | Erl_Atom (d : Erl_Atom_data)
  | Erl_Pid (node : Erl_Atom_data) (number serial creation : Z)
  | Erl_Port (node : Erl_Atom_data) (number creation : Z)
  | Erl_Ref (node : Erl_Atom_data) (n : list Z) (creation : Z)
  | Erl_List (head tail : ETERM)
  | Erl_EmptyList
  | Erl_Tuple (elems : list ETERM)
  | Erl_Binary (b : list Z)
  | Erl_Variable (name : list Z) (v : option ETERM)
  | Erl_Function (arity : Z) (md5 : list Z) (new_index : Z)
      (creator module index uniq : option ETERM) (closure : list (option ETERM)).

Definition ERL_COMPOUND : Z := Z.shiftl 1 7.
Definition ERL_UNDEF : Z := 0.
Definition ERL_INTEGER : Z := 1.
Definition ERL_U_INTEGER : Z := 2.
Definition ERL_ATOM : Z := 3.
Definition ERL_PID : Z := 4.
Definition ERL_PORT : Z := 5.
Definition ERL_REF : Z := 6.
Definition ERL_LIST : Z := Z.lor 7 ERL_COMPOUND.
Definition ERL_EMPTY_LIST : Z := 8.
Definition ERL_TUPLE : Z := Z.lor 9 ERL_COMPOUND.
Definition ERL_BINARY : Z := 10.
Definition ERL_FLOAT : Z := 11.
Definition ERL_VARIABLE : Z := Z.lor 12 ERL_COMPOUND.
Definition ERL_FUNCTION : Z := Z.lor 15 ERL_COMPOUND.
Definition ERL_BIG : Z := 16.
Definition ERL_LONGLONG : Z := 17.
Definition ERL_U_LONGLONG : Z := 18.

Definition ERL_TYPE (ep : ETERM) : Z :=
  match ep with
  | Erl_Integer _ => ERL_INTEGER
  | Erl_Uinteger _ => ERL_U_INTEGER
  | Erl_LLInteger _ => ERL_LONGLONG
  | Erl_ULLInteger _ => ERL_U_LONGLONG
  | Erl_Float _ => ERL_FLOAT
  | Erl_Atom _ => ERL_ATOM
  | Erl_Pid _ _ _ _ => ERL_PID
  | Erl_Port _ _ _ => ERL_PORT
  | Erl_Ref _ _ _ => ERL_REF
  | Erl_List _ _ => ERL_LIST
  | Erl_EmptyList => ERL_EMPTY_LIST
  | Erl_Tuple _ => ERL_TUPLE
  | Erl_Binary _ => ERL_BINARY
  | Erl_Variable _ _ => ERL_VARIABLE
  | Erl_Function _ _ _ _ _ _ _ _ => ERL_FUNCTION
  end.

(** ** Terms all of whose parts satisfy [P] *)

Definition opt_all {A} (P : A -> Prop) (o : option A) : Prop :=
  match o with Some t => P t | None => True end.

Section Induction.
Context (P : ETERM -> Prop).
Context (Hint : forall i, P (Erl_Integer i)) (Huint : forall u, P (Erl_Uinteger u)).
Context (Hll : forall l, P (Erl_LLInteger l)) (Hull : forall l, P (Erl_ULLInteger l)).
Context (Hfloat : forall f, P (Erl_Float f)) (Hatom : forall d, P (Erl_Atom d)).
Context (Hpid : forall d n s c, P (Erl_Pid d n s c)).
Context (Hport : forall d n c, P (Erl_Port d n c)).
Context (Href : forall d n c, P (Erl_Ref d n c)).
Context (Hlist : forall h t, P h -> P t -> P (Erl_List h t)).
Context (Hnil : P Erl_EmptyList) (Hbin : forall b, P (Erl_Binary b)).
Context (Htuple : forall es, Forall P es -> P (Erl_Tuple es)).
Context (Hvar : forall name v, opt_all P v -> P (Erl_Variable name v)).
Context (Hfun : forall ar md5 ni c m i u cl, opt_all P c -> opt_all P m ->
  opt_all P i -> opt_all P u -> Forall (opt_all P) cl ->
  P (Erl_Function ar md5 ni c m i u cl)).

Fixpoint ETERM_rec_all (ep : ETERM) : P ep :=
  let opt (o : option ETERM) : opt_all P o :=
    match o with Some t => ETERM_rec_all t | None => Logic.I end in
  match ep with
  | Erl_Integer i => Hint i
  | Erl_Uinteger u => Huint u
  | Erl_LLInteger l => Hll l
  | Erl_ULLInteger l => Hull l
  | Erl_Float f => Hfloat f
  | Erl_Atom d => Hatom d
  | Erl_Pid d n s c => Hpid d n s c
  | Erl_Port d n c => Hport d n c
  | Erl_Ref d n c => Href d n c
  | Erl_List h t => Hlist h t (ETERM_rec_all h) (ETERM_rec_all t)
  | Erl_EmptyList => Hnil
  | Erl_Tuple es =>
      Htuple es ((fix go es : Forall P es :=
        match es with
        | [] => Forall_nil_2 P
        | e :: es => Forall_cons_2 P e es (ETERM_rec_all e) (go es)
        end) es)
  | Erl_Binary b => Hbin b
  | Erl_Variable name v => Hvar name v (opt v)
  | Erl_Function ar md5 ni c m i u cl =>
      Hfun ar md5 ni c m i u cl (opt c) (opt m) (opt i) (opt u)
        ((fix go cl : Forall (opt_all P) cl :=
          match cl with
          | [] => Forall_nil_2 _
          | e :: cl => Forall_cons_2 _ e cl (opt e) (go cl)
          end) cl)
  end.
End Induction.

(** ** The texts of an atom

    Each text is made from the other when it is asked for, and kept. The second
    call of the conversion, into the block that the first has measured, gives
    what the first has counted. *)

Definition erl_atom_ptr_latin1 (a : Erl_Atom_data) : option (list Z) * Erl_Atom_data :=
  match latin1 a with
  | Some l => (Some l, a)
  | None =>
      match utf8_to_latin1 (default [] (utf8 a)) (lenU a) with
      | None => (None, a)
      | Some (l, enc) =>
          let a := if enc =? ERLANG_ASCII then AtomData (utf8 a) (utf8 a)
                   else AtomData (utf8 a) (Some l) in
          (latin1 a, a)
      end
  end.

Definition erl_atom_ptr_utf8 (a : Erl_Atom_data) : option (list Z) * Erl_Atom_data :=
  match utf8 a with
  | Some u => (Some u, a)
  | None =>
      match latin1_to_utf8 (default [] (latin1 a)) (lenL a * 2) with
      | None => (None, a)
      | Some (u, enc) =>
          let a := if enc =? ERLANG_ASCII then AtomData (latin1 a) (latin1 a)
                   else AtomData (Some u) (latin1 a) in
          (utf8 a, a)
      end
  end.

Definition erl_atom_size_latin1 (a : Erl_Atom_data) : Z * Erl_Atom_data :=
  let a := match latin1 a with None => snd (erl_atom_ptr_latin1 a) | Some _ => a end in
  (lenL a, a).

Definition erl_atom_size_utf8 (a : Erl_Atom_data) : Z * Erl_Atom_data :=
  let a := match utf8 a with None => snd (erl_atom_ptr_utf8 a) | Some _ => a end in
  (lenU a, a).

(** ** Making leaves

    [malloc n]: whether there is a block of [n] bytes. A failure of
    [erl_malloc], which makes the cells, ends the program. *)

Section Leaves.
Context (malloc : Z -> bool).

Definition strsave (src : list Z) : option (list Z) :=
  if malloc (strlen src + 1) then Some (c_str src) else None.

Definition erl_atom_init_latin1 (s : list Z) : option Erl_Atom_data :=
  match strsave s with
  | None => None
  | Some l => Some (AtomData None (Some l))
  end.

Definition erl_mk_int (i : Z) : ETERM := Erl_Integer i.
Definition erl_mk_longlong (i : Z) : ETERM := Erl_LLInteger i.
Definition erl_mk_uint (u : Z) : ETERM := Erl_Uinteger u.
Definition erl_mk_ulonglong (i : Z) : ETERM := Erl_ULLInteger i.

Definition erl_mk_float (d : Z) : option ETERM :=
  if negb (isfinite d) then None else Some (Erl_Float d).

(** A NULL argument is [None]. *)
Definition erl_mk_atom (s : option (list Z)) : option ETERM :=
  match s with
  | None => None
  | Some s =>
      match erl_atom_init_latin1 s with
      | None => None
      | Some d => Some (Erl_Atom d)
      end
  end.

(** The loop goes from the last character to the first. *)
Definition string_list (s : list Z) (ep : ETERM) : ETERM :=
  fold_right (fun c ep => Erl_List (Erl_Integer c) ep) ep s.

(** [s] points into a block of characters. *)
Definition erl_mk_estring (s : ptr) (n : Z) : D (option ETERM) :=
  if isnull s || (n <? 0) then retD None else
  let+ cs := load_bytes (off s) n in
  retD (Some (string_list cs Erl_EmptyList)).

Definition erl_mk_string (s : option (list Z)) : option ETERM :=
  match s with
  | None => None
  | Some s =>
      match erl_mk_estring (at_off 0) (strlen s) s with Some ep => ep | None => None end
  end.

Definition erl_mk_binary (b : ptr) (size : Z) : D (option ETERM) :=
  if isnull b || (size <? 0) then retD None else
  let+ bs := load_bytes (off b) size in
  retD (Some (Erl_Binary bs)).

Definition erl_mk_var (s : option (list Z)) : option ETERM :=
  match s with
  | None => None
  | Some s =>
      match strsave s with
      | None => None
      | Some name => Some (Erl_Variable name None)
      end
  end.

(** [r9]: what [ei_internal_use_r9_pids_ports] says. *)
Context (r9 : bool).

Definition erl_mk_pid_helper (node : Erl_Atom_data) (number serial creation : Z) : ETERM :=
  Erl_Pid node (Z.land number 0x7fff)
    (if r9 then Z.land serial 0x07 else Z.land serial 0x1fff) creation.

Definition erl_mk_pid (node : option (list Z)) (number serial creation : Z) : option ETERM :=
  match node with
  | None => None
  | Some node =>
      match erl_atom_init_latin1 node with
      | None => None
      | Some d => Some (erl_mk_pid_helper d number serial (Z.land creation 0x03))
      end
  end.

Definition erl_mk_port_helper (node : Erl_Atom_data) (number creation : Z) : ETERM :=
  Erl_Port node (if r9 then Z.land number 0x3ffff else Z.land number 0x0fffffff) creation.

Definition erl_mk_port (node : option (list Z)) (number creation : Z) : option ETERM :=
  match node with
  | None => None
  | Some node =>
      match erl_atom_init_latin1 node with
      | None => None
      | Some d => Some (erl_mk_port_helper d number creation)
      end
  end.

(** [n] is the caller's array of three words; the words from [len] on are
    copied too, and never looked at. *)
Definition mk_reference (node : Erl_Atom_data) (n : list Z) (creation : Z) : ETERM :=
  Erl_Ref node
    (match n with [] => [] | n0 :: n => Z.land n0 0x3ffff :: n end) creation.

Definition erl_mk_reference (node : option (list Z)) (n : list Z) (creation : Z)
    : option ETERM :=
  match node with
  | None => None
  | Some node =>
      match erl_atom_init_latin1 node with
      | None => None
      | Some d => Some (mk_reference d n creation)
      end
  end.

Definition erl_mk_ref (node : option (list Z)) (number creation : Z) : option ETERM :=
  erl_mk_reference node [number] creation.

Definition erl_mk_long_ref (node : option (list Z)) (n1 n2 n3 creation : Z) : option ETERM :=
  erl_mk_reference node [n3; n2; n1] creation.
End Leaves.

(** ** Sizes *)

Definition erl_size (ep : option ETERM) : Z :=
  match ep with
  | Some (Erl_Tuple es) => len es
  | Some (Erl_Binary b) => len b
  | _ => -1
  end.

(** The cells of a list, and what is behind the last. *)
Fixpoint erl_length_x (ep : ETERM) : Z :=
  match ep with Erl_List _ tl => 1 + erl_length_x tl | _ => 0 end.
Fixpoint last_tail (ep : ETERM) : ETERM :=
  match ep with Erl_List _ tl => last_tail tl | _ => ep end.

Definition erl_length (ep : option ETERM) : Z :=
  match ep with
  | None => -1
  | Some ep =>
      match last_tail ep with Erl_EmptyList => erl_length_x ep | _ => -1 end
  end.

(** [ERL_IS_BYTE], and [is_string] of erl_marshal.c. *)
Definition ERL_IS_BYTE (ep : ETERM) : option Z :=
  match ep with
  | Erl_Integer i => if Z.land i (Z.lnot 0xFF) =? 0 then Some i else None
  | _ => None
  end.

Fixpoint is_string_loop (term : ETERM) (n : Z) : Z :=
  match term with
  | Erl_List head tail =>
      match head with
      | Erl_Integer i => if 255 <? uint32 i then 0 else is_string_loop tail (n + 1)
      | _ => 0
      end
  | Erl_EmptyList => n
  | _ => 0
  end.
Definition is_string (term : ETERM) : Z := is_string_loop term 0.

(** ** I/O lists *)

(** [n] is the length so far, an int; the call for a nested list starts from 0. *)
Fixpoint iolist_length_loop (term : ETERM) (n : Z) : option Z :=
  match term with
  | Erl_List obj tl =>
      match ERL_IS_BYTE obj with
      | Some _ => n ← int_opt (n + 1); iolist_length_loop tl n
      | None =>
          match obj with
          | Erl_List _ _ =>
              i ← iolist_length_loop obj 0;
              if i <? 0 then Some i else
              n ← int_opt (n + i); iolist_length_loop tl n
          | Erl_Binary b => n ← int_opt (n + len b); iolist_length_loop tl n
          | Erl_EmptyList => iolist_length_loop tl n
          | _ => Some (-1)
          end
      end
  | Erl_EmptyList => Some n
  | Erl_Binary b => int_opt (n + len b)
  | _ => Some (-1)
  end.
Definition erl_iolist_length (term : ETERM) : option Z := iolist_length_loop term 0.

(** [dest] moves; on a term that is no I/O list [*bufp] is left alone. *)
Fixpoint iolist_to_buf_loop (term : ETERM) (bufp dest : ptr) : M ptr :=
  match term with
  | Erl_List obj tl =>
      match ERL_IS_BYTE obj with
      | Some i =>
          let* _ := store dest i in iolist_to_buf_loop tl bufp (padd dest 1)
      | None =>
          match obj with
          | Erl_List _ _ =>
              let* dest := iolist_to_buf_loop obj dest dest in
              iolist_to_buf_loop tl bufp dest
          | Erl_Binary b =>
              let* _ := memcpy dest b in iolist_to_buf_loop tl bufp (padd dest (len b))
          | Erl_EmptyList => iolist_to_buf_loop tl bufp dest
          | _ => retM bufp
          end
      end
  | Erl_Binary b => let* _ := memcpy dest b in retM (padd dest (len b))
  | Erl_EmptyList => retM dest
  | _ => retM bufp
  end.
Definition iolist_to_buf (term : ETERM) (bufp : ptr) : M ptr :=
  iolist_to_buf_loop term bufp bufp.

(** [fresh n]: the bytes of a new block of [n] bytes, before anything is stored
    there. The result is NULL, or a binary. *)
Section Iolists.
Context (fresh : Z -> list Z).

Definition erl_iolist_to_binary (term : option ETERM) : option (option (list Z)) :=
  match term with
  | None => Some None
  | Some term =>
      size ← erl_iolist_length term;
      if size =? -1 then Some None else
      match iolist_to_buf term (at_off 0) (fresh size) with
      | None => None
      | Some (p, b) => if negb (0 + size =? off p) then Some None else Some (Some b)
      end
  end.

(** A C string: the bytes of the I/O list and a zero. *)
Definition erl_iolist_to_string (term : option ETERM) : option (option (list Z)) :=
  match erl_iolist_to_binary term with
  | None => None
  | Some None => Some None
  | Some (Some b) =>
      if existsb (Z.eqb 0) b then Some None else Some (Some (b ++ [0]))
  end.
End Iolists.

(** ** Copies *)

Section Copy.
Context (malloc : Z -> bool).
Notation strsave := (strsave malloc).

(** What [strsave] gives is stored as it is, NULL too; then the result is
    whether [dst->latin1 != NULL || dst->utf8 == NULL]. *)
Definition erl_atom_copy (src : Erl_Atom_data) : option (Erl_Atom_data * bool) :=
  let dst :=
    if bool_decide (latin1 src = utf8 src) then
      match latin1 src with
      | None => None
      | Some l => Some (AtomData (strsave l) (strsave l))
      end
    else
      match latin1 src, utf8 src with
      | Some l, _ => Some (AtomData None (strsave l))
      | None, Some u => Some (AtomData (strsave u) None)
      | None, None => None
      end in
  match dst with
  | None => None
  | Some dst =>
      Some (dst, negb (bool_decide (latin1 dst = None)) || bool_decide (utf8 dst = None))
  end.

(** The node of a copied pid, port or reference. *)
Definition copy_node (node : Erl_Atom_data) (k : Erl_Atom_data -> ETERM)
    : option (option ETERM) :=
  match erl_atom_copy node with
  | None => None
  | Some (d, _) => Some (Some (k d))
  end.

(** The outer [None] is undefined, or a cell with a NULL inside; the inner one
    is NULL. *)
Fixpoint erl_copy_term (ep : ETERM) : option (option ETERM) :=
  let copy (o : option ETERM) : option (option ETERM) :=
    match o with None => Some None | Some t => erl_copy_term t end in
  match ep with
  | Erl_Atom d =>
      match erl_atom_copy d with
      | None => None
      | Some (_, false) => Some None
      | Some (d, true) => Some (Some (Erl_Atom d))
      end
  | Erl_Pid node n s c => copy_node node (fun d => Erl_Pid d n s c)
  | Erl_Port node n c => copy_node node (fun d => Erl_Port d n c)
  | Erl_Ref node n c => copy_node node (fun d => Erl_Ref d n c)
  | Erl_List h t =>
      match erl_copy_term h, erl_copy_term t with
      | Some (Some h), Some (Some t) => Some (Some (Erl_List h t))
      | _, _ => None
      end
  | Erl_Tuple es =>
      match mapM (fun e => match erl_copy_term e with Some o => o | None => None end) es with
      | Some es => Some (Some (Erl_Tuple es))
      | None => None
      end
  | Erl_Variable _ _ => None
  | Erl_Function ar md5 ni c m i u cl =>
      match copy c, copy m, copy i, copy u, mapM copy cl with
      | Some c, Some m, Some i, Some u, Some cl =>
          Some (Some (Erl_Function ar md5 ni c m i u cl))
      | _, _, _, _, _ => None
      end
  | _ => Some (Some ep)
  end.
End Copy.
