(* ===== verification/Marshal.v ===== *)
(** * legacy/erl_marshal.c: terms to bytes and back

    [erl_encode_it] writes a term through a moving pointer, without a look at the
    size of the buffer: [erl_term_len] is for that. [erl_decode_it] reads one term
    and makes its cells. legacy/encode_term.c and decode_term.c give both the
    interface of ei. *)

From S2P Require Import Prelude Mem PutGet Ext Headers Ints Atom Data XBuff Eterm.

(** ** Encoding *)

(** What [ei_encode_atom_len_as] returns is not looked at: a text that it
    refuses leaves no bytes. *)
Definition encode_atom (a : Erl_Atom_data) (ext : ptr) : M ptr :=
  let* (_, ix) :=
    (match latin1 a with
     | Some l => ei_encode_atom_len_as l (lenL a) ERLANG_LATIN1 ERLANG_UTF8 ext 0
     | None =>
         ei_encode_atom_len_as (default [] (utf8 a)) (lenU a) ERLANG_UTF8 ERLANG_UTF8 ext 0
     end) in
  retM (padd ext ix).

(** The four stores of [(i >> 24) & 0xff] to [i & 0xff] are [put32be]. *)
Definition put_integer (i : Z) (ext : ptr) : M ptr :=
  let* ext := put8 ext ERL_INTEGER_EXT in
  put32be ext i.

Definition put_small_integer (i : Z) (ext : ptr) : M ptr :=
  let* ext := put8 ext ERL_SMALL_INTEGER_EXT in
  put8 ext i.

(** The eight stores of [l & 0xff] to [(l >> 56) & 0xff], the lowest first. *)
Definition put64le (ext : ptr) (l : Z) : M ptr :=
  let* ext := put32le ext l in
  put32le ext (Z.shiftr l 32).

Definition put_small_big (arity sign : Z) (ext : ptr) : M ptr :=
  let* ext := put8 ext ERL_SMALL_BIG_EXT in
  let* ext := put8 ext arity in
  put8 ext sign.

(** The four kinds of integers of [erl_encode_it]; [l = -l] is undefined for
    the least long long. *)
Definition encode_int (i : Z) (ext : ptr) : M ptr :=
  if (i <? 256) && (0 <=? i) then put_small_integer i ext else put_integer i ext.

Definition encode_uint (u : Z) (ext : ptr) : M ptr :=
  if int32 u <? 0 then
    let* ext := put_small_big 4 0 ext in put32le ext u
  else if u <? 256 then put_small_integer u ext
  else put_integer u ext.

Definition INT_MIN : Z := - 2147483648.

Definition encode_longlong (l : Z) (ext : ptr) : M ptr :=
  if (int_max <? l) || (l <? INT_MIN) then
    let* ext := put_small_big 8 (if l <? 0 then 1 else 0) ext in
    if l =? - 2 ^ 63 then ubM else
    put64le ext (if l <? 0 then - l else l)
  else if (l <? 256) && (0 <=? l) then put_small_integer l ext
  else put_integer l ext.

Definition encode_ulonglong (ul : Z) (ext : ptr) : M ptr :=
  if int_max <? ul then
    let* ext := put_small_big 8 0 ext in put64le ext ul
  else if ul <? 256 then put_small_integer ul ext
  else put_integer ul ext.

(** [if ((unsigned int)i <= 3) { *tagp = short; one byte } else { *tagp = long;
    four bytes }] *)
Definition encode_creation (short long creation : Z) (tagp ext : ptr) : M ptr :=
  if creation <=? 3 then
    let* _ := put8 tagp short in put8 ext creation
  else
    let* _ := put8 tagp long in put32be ext creation.

Definition encode_pid (node : Erl_Atom_data) (number serial creation : Z) (ext : ptr) : M ptr :=
  let tagp := ext in
  let* ext := encode_atom node (padd ext 1) in
  let* ext := put32be ext number in
  let* ext := put32be ext serial in
  encode_creation ERL_PID_EXT ERL_NEW_PID_EXT creation tagp ext.

Definition encode_port (node : Erl_Atom_data) (number creation : Z) (ext : ptr) : M ptr :=
  let tagp := ext in
  let* ext := encode_atom node (padd ext 1) in
  let* ext := put32be ext number in
  encode_creation ERL_PORT_EXT ERL_NEW_PORT_EXT creation tagp ext.

Fixpoint put_numbers (n : list Z) (ext : ptr) : M ptr :=
  match n with
  | [] => retM ext
  | i :: n => let* ext := put32be ext i in put_numbers n ext
  end.

(** [strlen(ERL_REF_NODE(ep))] is computed and not used; [ERL_REF_NODE] makes
    and keeps the Latin-1 text, or gives NULL. *)
Definition encode_ref (node : Erl_Atom_data) (n : list Z) (creation : Z) (ext : ptr) : M ptr :=
  let tagp := ext in
  let ext := padd ext 1 in
  match erl_atom_ptr_latin1 node with
  | (None, _) => ubM
  | (Some _, node) =>
      let* ext := put16be ext (len n) in
      let* ext := encode_atom node ext in
      let* ext := encode_creation ERL_NEW_REFERENCE_EXT ERL_NEWER_REFERENCE_EXT
                    creation tagp ext in
      put_numbers n ext
  end.

(** The characters of a list that [is_string]. *)
Fixpoint put_string (ep : ETERM) (ext : ptr) : M ptr :=
  match ep with
  | Erl_List (Erl_Integer i) tl => let* ext := put8 ext i in put_string tl ext
  | Erl_List _ _ => ubM
  | _ => retM ext
  end.

(** [return 0;] behind a write *)
Definition wrote (m : M ptr) : M (Z * ptr) := let* ext := m in retM (0, ext).

(** [sprintf_20e f]: what [sprintf(buf, "%.20e", f)] stores, without the
    zero. *)
Section Encode.
Context (sprintf_20e : Z -> list Z).

Definition encode_float (f : Z) (ext : ptr) : M ptr :=
  let* ext := put8 ext ERL_FLOAT_EXT in
  let* _ := memcpy ext (replicate 31 0) in
  let* _ := memcpy ext (sprintf_20e f ++ [0]) in
  retM (padd ext 31).

(** The loops of [erl_encode_it] over its parts; [enc] is [erl_encode_it]. *)
Section Parts.
Context (enc : ETERM -> ptr -> M (Z * ptr)).

(** A list: its elements, then what is behind the last cell. *)
Fixpoint encode_list (ep : ETERM) (ext : ptr) : M (Z * ptr) :=
  match ep with
  | Erl_List hd tl =>
      let* (rc, ext) := enc hd ext in
      if negb (rc =? 0) then retM (1, ext) else encode_list tl ext
  | _ => enc ep ext
  end.

Fixpoint encode_elems (es : list ETERM) (ext : ptr) : M (Z * ptr) :=
  match es with
  | [] => retM (0, ext)
  | e :: es =>
      let* (rc, ext) := enc e ext in
      if negb (rc =? 0) then retM (1, ext) else encode_elems es ext
  end.

(** The parts of a fun: NULL cannot be encoded, and what the calls return is
    not looked at. *)
Definition encode_part (o : option ETERM) (ext : ptr) : M ptr :=
  match o with
  | None => ubM
  | Some t => let* (_, ext) := enc t ext in retM ext
  end.

Fixpoint encode_closure (cl : list (option ETERM)) (ext : ptr) : M ptr :=
  match cl with
  | [] => retM ext
  | o :: cl => let* ext := encode_part o ext in encode_closure cl ext
  end.
End Parts.

(** Returns 0 on success, 1 for a variable, and [*ext]. *)
Fixpoint erl_encode_it (ep : ETERM) (ext : ptr) : M (Z * ptr) :=
  match ep with
  | Erl_Atom d => wrote (encode_atom d ext)
  | Erl_Integer i => wrote (encode_int i ext)
  | Erl_Uinteger u => wrote (encode_uint u ext)
  | Erl_LLInteger l => wrote (encode_longlong l ext)
  | Erl_ULLInteger ul => wrote (encode_ulonglong ul ext)
  | Erl_Pid node number serial creation =>
      wrote (encode_pid node number serial creation ext)
  | Erl_Ref node n creation => wrote (encode_ref node n creation ext)
  | Erl_Port node number creation => wrote (encode_port node number creation ext)
  | Erl_EmptyList => wrote (put8 ext ERL_NIL_EXT)
  | Erl_List hd tl =>
      let i := is_string ep in
      if (0 <? i) && (i <? 0x10000) then
        wrote (let* ext := put8 ext ERL_STRING_EXT in
               let* ext := put16be ext i in
               put_string ep ext)
      else
        let i := erl_length_x ep in
        let* ext := put8 ext ERL_LIST_EXT in
        let* ext := put32be ext i in
        let* (rc, ext) := erl_encode_it hd ext in
        if negb (rc =? 0) then retM (1, ext) else encode_list erl_encode_it tl ext
  | Erl_Tuple es =>
      let i := len es in
      let* ext :=
        (if i <=? 0xff then
           let* ext := put8 ext ERL_SMALL_TUPLE_EXT in put8 ext i
         else
           let* ext := put8 ext ERL_LARGE_TUPLE_EXT in put32be ext i) in
      encode_elems erl_encode_it es ext
  | Erl_Float f => wrote (encode_float f ext)
  | Erl_Binary b =>
      wrote (let* ext := put8 ext ERL_BINARY_EXT in
             let* ext := put32be ext (len b) in
             let* _ := memcpy ext b in
             retM (padd ext (len b)))
  | Erl_Function arity md5 new_index creator module index uniq closure =>
      wrote
        (if negb (arity =? -1) then
           let size_p := padd ext 1 in
           let* ext := put8 ext ERL_NEW_FUN_EXT in
           let ext := padd ext 4 in
           let* ext := put8 ext arity in
           let* _ := memcpy ext md5 in
           let ext := padd ext 16 in
           let* ext := put32be ext new_index in
           let* ext := put32be ext (len closure) in
           let* ext := encode_part erl_encode_it module ext in
           let* ext := encode_part erl_encode_it index ext in
           let* ext := encode_part erl_encode_it uniq ext in
           let* ext := encode_part erl_encode_it creator ext in
           let* ext := encode_closure erl_encode_it closure ext in
           let* _ := put32be size_p (psub ext size_p) in
           retM ext
         else
           let* ext := put8 ext ERL_FUN_EXT in
           let* ext := put32be ext (len closure) in
           let* ext := encode_part erl_encode_it creator ext in
           let* ext := encode_part erl_encode_it module ext in
           let* ext := encode_part erl_encode_it index ext in
           let* ext := encode_part erl_encode_it uniq ext in
           encode_closure erl_encode_it closure ext)
  | Erl_Variable _ _ => retM (1, ext)
  end.

(** ** The calls around it *)

(** Returns the number of bytes, or 0. [erl_encode3], [erl_encode] and
    [erl_encode_buf], which also moves [*ext]. *)
Definition erl_encode3 (ep : ETERM) (t : ptr) : M Z :=
  let x := t in
  let* _ := store x ERL_VERSION_MAGIC in
  let x := padd x 1 in
  let* (rc, x) := erl_encode_it ep x in
  if negb (rc =? 0) then retM 0 else retM (psub x t).

Definition erl_encode (ep : ETERM) (t : ptr) : M Z := erl_encode3 ep t.

Definition erl_encode_buf (ep : ETERM) (ext : ptr) : M (Z * ptr) :=
  let start := ext in
  let* _ := store ext ERL_VERSION_MAGIC in
  let ext := padd ext 1 in
  let* (rc, ext) := erl_encode_it ep ext in
  if negb (rc =? 0) then retM (0, ext) else retM (psub ext start, ext).
End Encode.

(** ** The length of an encoded term *)

(** The length of the UTF-8 text, which is made if it is not there. *)
Definition atom_len_helper (a : Erl_Atom_data) : Z :=
  let a := snd (erl_atom_ptr_utf8 a) in
  1 + 1 + (if 255 <? lenU a then 1 else 0) + lenU a.

Definition int_len (i : Z) : Z := if (i <? 256) && (0 <=? i) then 2 else 5.
Definition uint_len (u : Z) : Z :=
  if int32 u <? 0 then 7 else if u <? 256 then 2 else 5.
Definition longlong_len (l : Z) : Z :=
  if (int_max <? l) || (l <? INT_MIN) then 11
  else if (l <? 256) && (0 <=? l) then 2 else 5.
Definition ulonglong_len (ul : Z) : Z :=
  if int_max <? ul then 11 else if ul <? 256 then 2 else 5.

(** [None]: [exit(1)], for a variable. [len_sum] adds up what [f] says of the
    elements. *)
Definition len_sum {A} (f : A -> option Z) : list A -> option Z :=
  fix go l :=
    match l with
    | [] => Some 0
    | x :: l =>
        match f x, go l with Some n, Some m => Some (n + m) | _, _ => None end
    end.

Definition len_add (n : Z) (o : option Z) : option Z :=
  match o with Some m => Some (n + m) | None => None end.

(** The length of a list behind its header: elements, then what is behind the
    last cell. *)
Definition list_len (f : ETERM -> option Z) : ETERM -> option Z :=
  fix go ep :=
    match ep with
    | Erl_List hd tl =>
        match f hd, go tl with Some n, Some m => Some (n + m) | _, _ => None end
    | _ => f ep
    end.

Fixpoint erl_term_len_helper (ep : ETERM) : option Z :=
  let part (o : option ETERM) : option Z :=
    match o with None => Some 0 | Some t => erl_term_len_helper t end in
  match ep with
  | Erl_Atom d => Some (atom_len_helper d)
  | Erl_Integer i => Some (int_len i)
  | Erl_Uinteger u => Some (uint_len u)
  | Erl_LLInteger l => Some (longlong_len l)
  | Erl_ULLInteger ul => Some (ulonglong_len ul)
  | Erl_Pid node _ _ _ => Some (1 + atom_len_helper node + 4 + 4 + 1)
  | Erl_Ref node n _ => Some (1 + 2 + atom_len_helper node + 1 + len n * 4)
  | Erl_Port node _ _ => Some (1 + atom_len_helper node + 4 + 1)
  | Erl_EmptyList => Some 1
  | Erl_List hd tl =>
      let i := is_string ep in
      if (0 <? i) && (i <? 0x10000) then Some (3 + erl_length_x ep)
      else
        match erl_term_len_helper hd, list_len erl_term_len_helper tl with
        | Some n, Some m => Some (5 + (n + m))
        | _, _ => None
        end
  | Erl_Tuple es =>
      len_add (if len es <=? 0xff then 2 else 5) (len_sum erl_term_len_helper es)
  | Erl_Float _ => Some 32
  | Erl_Binary b => Some (5 + len b)
  | Erl_Function arity _ _ creator module index uniq closure =>
      match part creator, part module, part index, part uniq, len_sum part closure with
      | Some c, Some m, Some i, Some u, Some cl =>
          Some ((if arity =? -1 then 1 + 4 else 1 + 4 + 16 + 4 + 4) + c + m + i + u + cl)
      | _, _, _, _, _ => None
      end
  | Erl_Variable _ _ => None
  end.

(** [erl_term_len(NULL)] is the version byte. *)
Definition erl_term_len (ep : option ETERM) : option Z :=
  match ep with
  | None => Some 1
  | Some ep => len_add 1 (erl_term_len_helper ep)
  end.

(** ** legacy/encode_term.c

    The length is that of [erl_term_len] without the version byte. A variable
    ends the program when it is measured. *)

Section EncodeTerm.
Context (sprintf_20e : Z -> list Z).

Definition ei_encode_term (t : ETERM) (buf : ptr) (index : Z) : M (Z * Z) :=
  let s := padd buf index in
  let s0 := s in
  if isnull buf then
    match erl_term_len (Some t) with
    | None => ubM
    | Some n => let s := padd s (n - 1) in retM (0, index_add index (psub s s0))
    end
  else
    let* (rc, s) := erl_encode_it sprintf_20e t s in
    if negb (rc =? 0) then retM (-1, index)
    else retM (0, index_add index (psub s s0)).

Definition ei_x_encode_term (malloc : Z -> option (list Z)) (x : ei_x_buff) (t : ETERM) :=
  ei_x_encode_unchecked malloc (ei_encode_term t) x.
End EncodeTerm.

(** ** Decoding *)

(** The text that is copied ends at its first zero; it is Latin-1 or UTF-8, or
    both. [None] is -1. *)
Definition read_atom (ext : Z) : D (option Erl_Atom_data * Z) :=
  let+ r := ei_decode_atom_as true MAXATOMLEN_UTF8 (Z.lor ERLANG_LATIN1 ERLANG_UTF8) ext 0 in
  match r with
  | Fail => retD (None, ext)
  | Done offs a =>
      let enc := at_res a in
      let clone := c_str (at_text a) in
      let latin1 := if negb (Z.land enc (Z.lor ERLANG_LATIN1 ERLANG_ASCII) =? 0)
                    then Some clone else None in
      let utf8 := if negb (Z.land enc (Z.lor ERLANG_UTF8 ERLANG_ASCII) =? 0)
                  then Some clone else None in
      retD (Some (AtomData utf8 latin1), ext + offs)
  end.

(** [(p[0] << 24) | (p[1] << 16) | (p[2] << 8) | p[3]] as an [int] is
    [get32be]; stored in an [unsigned int] it is [uint32] of it. *)
Definition get_uint (ext : Z) : D (Z * Z) :=
  let+ (i, ext) := get32be ext in retD (uint32 i, ext).

Definition get_creation (short : bool) (ext : Z) : D (Z * Z) :=
  if short then get8 ext else get_uint ext.

(** The number of a big of [arity] bytes: one [long long], if it fits, else 1
    or -1. *)
Definition big_value (arity sign : Z) (ds : list Z) : ETERM :=
  if 8 <? arity then Erl_Integer (if negb (sign =? 0) then -1 else 1) else
  let top (k : nat) := negb (Z.land (nth k ds 0) 0x80 =? 0) in
  let ul := le_val ds in
  if (arity =? 4) && top 3%nat && (sign =? 0) then Erl_Uinteger ul
  else if (arity =? 4) && negb (top 3%nat) then
    Erl_Integer (if negb (sign =? 0) then - ul else ul)
  else if (arity =? 8) && top 7%nat && (sign =? 0) then Erl_ULLInteger ul
  else
    let sl := int64 ul in
    if negb (sign =? 0) && negb (ul =? 0x8000000000000000) then
      let sl := - sl in
      if 0 <? sl then Erl_Integer (if negb (sign =? 0) then -1 else 1)
      else Erl_LLInteger sl
    else Erl_LLInteger sl.

(** A big whose digits are at [ext]: they are read if there are at most eight.
    A negative number of bytes moves the pointer back. *)
Definition decode_big (arity : Z) (ext : Z) : D (option ETERM * Z) :=
  let+ (sign, ext) := get8 ext in
  let+ ds := (if arity <=? 8 then load_bytes ext (Z.max 0 arity) else retD []) in
  retD (Some (big_value arity sign ds), ext + arity).

Section Decode.
Context (sscanf_lf : list Z -> option Z) (r9 : bool).

Definition decode_pid (tag ext : Z) : D (option ETERM * Z) :=
  let+ (node, ext) := read_atom ext in
  match node with
  | None => retD (None, ext)
  | Some node =>
      let+ (number, ext) := get_uint ext in
      let+ (serial, ext) := get_uint ext in
      let+ (creation, ext) := get_creation (tag =? ERL_PID_EXT) ext in
      retD (Some (erl_mk_pid_helper r9 node number serial creation), ext)
  end.

Definition decode_port (tag ext : Z) : D (option ETERM * Z) :=
  let+ (node, ext) := read_atom ext in
  match node with
  | None => retD (None, ext)
  | Some node =>
      let+ (number, ext) := get_uint ext in
      let+ (creation, ext) := get_creation (tag =? ERL_PORT_EXT) ext in
      retD (Some (erl_mk_port_helper r9 node number creation), ext)
  end.

Fixpoint get_numbers (cnt : nat) (ext : Z) : D (list Z * Z) :=
  match cnt with
  | O => retD ([], ext)
  | S cnt =>
      let+ (n, ext) := get_uint ext in
      let+ (ns, ext) := get_numbers cnt ext in
      retD (n :: ns, ext)
  end.

Definition decode_old_ref (ext : Z) : D (option ETERM * Z) :=
  let+ (node, ext) := read_atom ext in
  match node with
  | None => retD (None, ext)
  | Some node =>
      let+ (n, ext) := get_uint ext in
      let+ (creation, ext) := get8 ext in
      retD (Some (mk_reference node [n] creation), ext)
  end.

(** [n] has room for three words: storing more is undefined. *)
Definition decode_ref (tag ext : Z) : D (option ETERM * Z) :=
  let+ (cnt, ext) := get16be ext in
  let+ (node, ext) := read_atom ext in
  match node with
  | None => retD (None, ext)
  | Some node =>
      let+ (creation, ext) := get_creation (tag =? ERL_NEW_REFERENCE_EXT) ext in
      if 3 <? cnt then ubD else
      let+ (n, ext) := get_numbers (Z.to_nat cnt) ext in
      retD (Some (mk_reference node n creation), ext)
  end.

(** The characters become cells from the last to the first. *)
Definition decode_string (ext : Z) : D (option ETERM * Z) :=
  let+ (i, ext) := get16be ext in
  let+ cs := load_bytes ext i in
  retD (Some (string_list cs Erl_EmptyList), ext + i).

(** The index of [ei_decode_double] starts at the tag. *)
Definition decode_float (ext : Z) : D (option ETERM * Z) :=
  let+ r := ei_decode_double sscanf_lf true ext (-1) in
  match r with
  | Done i (Some ff) => retD (Some (Erl_Float ff), ext + i)
  | _ => retD (None, ext)
  end.

Definition decode_binary (ext : Z) : D (option ETERM * Z) :=
  let+ (i, ext) := get32be ext in
  let+ b := load_bytes ext i in
  retD (Some (Erl_Binary b), ext + i).

Section Parts.
Context (dec : Z -> D (option ETERM * Z)).

(** [k] elements and what is behind the last. *)
Fixpoint decode_list (k : nat) (ext : Z) : D (option ETERM * Z) :=
  match k with
  | O => dec ext
  | S k =>
      let+ (hd, ext) := dec ext in
      match hd with
      | None => retD (None, ext)
      | Some hd =>
          let+ (tl, ext) := decode_list k ext in
          match tl with
          | None => retD (None, ext)
          | Some tl => retD (Some (Erl_List hd tl), ext)
          end
      end
  end.

Fixpoint decode_elems (k : nat) (ext : Z) : D (option (list ETERM) * Z) :=
  match k with
  | O => retD (Some [], ext)
  | S k =>
      let+ (e, ext) := dec ext in
      match e with
      | None => retD (None, ext)
      | Some e =>
          let+ (es, ext) := decode_elems k ext in
          match es with
          | None => retD (None, ext)
          | Some es => retD (Some (e :: es), ext)
          end
      end
  end.

(** The closure of a fun: whatever the decoder gives, NULL too. *)
Fixpoint decode_closure (k : nat) (ext : Z) : D (list (option ETERM) * Z) :=
  match k with
  | O => retD ([], ext)
  | S k =>
      let+ (e, ext) := dec ext in
      let+ (es, ext) := decode_closure k ext in
      retD (e :: es, ext)
  end.

(** [j = n * sizeof(ETERM * )] is an [int]: a number of pointers whose size is
    none is undefined here (the program ends for want of memory, or stores
    outside the block). *)
Definition room_for (n : Z) : bool := (0 <=? n) && (n * 8 <=? int_max).

Definition decode_tuple (i ext : Z) : D (option ETERM * Z) :=
  if negb (room_for (i + 1) && (0 <=? i)) then ubD else
  let+ (es, ext) := decode_elems (Z.to_nat i) ext in
  retD (match es with Some es => Some (Erl_Tuple es) | None => None end, ext).

Definition decode_old_fun (ext : Z) : D (option ETERM * Z) :=
  let+ (i, ext) := get32be ext in
  let+ (creator, ext) := dec ext in
  let+ (module, ext) := dec ext in
  let+ (index, ext) := dec ext in
  let+ (uniq, ext) := dec ext in
  if negb (room_for i) then ubD else
  let+ (closure, ext) := decode_closure (Z.to_nat i) ext in
  retD (Some (Erl_Function (-1) [] 0 creator module index uniq closure), ext).

Definition decode_new_fun (ext : Z) : D (option ETERM * Z) :=
  let+ (_, ext) := get32be ext in
  let+ (arity, ext) := get8 ext in
  let+ md5 := load_bytes ext 16 in
  let ext := ext + 16 in
  let+ (new_index, ext) := get32be ext in
  let+ (i, ext) := get32be ext in
  let+ (module, ext) := dec ext in
  let+ (index, ext) := dec ext in
  let+ (uniq, ext) := dec ext in
  let+ (creator, ext) := dec ext in
  if negb (room_for i) then ubD else
  let+ (closure, ext) := decode_closure (Z.to_nat i) ext in
  retD (Some (Erl_Function arity md5 new_index creator module index uniq closure), ext).
End Parts.

(** [*ext] is the offset; the result is NULL or a term, and the new [*ext]. A
    list of no elements would have a cell whose head is never set: it is
    undefined here. [fuel] bounds the depth of the calls. *)
Fixpoint erl_decode_it (fuel : nat) (ext : Z) : D (option ETERM * Z) :=
  match fuel with
  | O => ubD
  | S fuel =>
      let+ tag := load ext in
      let ext := ext + 1 in
      let has t := tag =? t in
      if has ERL_INTEGER_EXT then
        let+ (i, ext) := get32be ext in retD (Some (Erl_Integer i), ext)
      else if has ERL_SMALL_INTEGER_EXT then
        let+ (i, ext) := get8 ext in retD (Some (Erl_Integer i), ext)
      else if has ERL_SMALL_BIG_EXT then
        let+ (arity, ext) := get8 ext in decode_big arity ext
      else if has ERL_LARGE_BIG_EXT then
        let+ (arity, ext) := get32be ext in decode_big arity ext
      else if has ERL_ATOM_EXT || has ERL_SMALL_ATOM_EXT
              || has ERL_ATOM_UTF8_EXT || has ERL_SMALL_ATOM_UTF8_EXT then
        let+ (d, ext) := read_atom (ext - 1) in
        retD (match d with Some d => Some (Erl_Atom d) | None => None end, ext)
      else if has ERL_PID_EXT || has ERL_NEW_PID_EXT then decode_pid tag ext
      else if has ERL_REFERENCE_EXT then decode_old_ref ext
      else if has ERL_NEW_REFERENCE_EXT || has ERL_NEWER_REFERENCE_EXT then
        decode_ref tag ext
      else if has ERL_PORT_EXT || has ERL_NEW_PORT_EXT then decode_port tag ext
      else if has ERL_NIL_EXT then retD (Some Erl_EmptyList, ext)
      else if has ERL_LIST_EXT then
        let+ (i, ext) := get32be ext in
        if i <=? 0 then ubD else
        decode_list (erl_decode_it fuel) (Z.to_nat i) ext
      else if has ERL_STRING_EXT then decode_string ext
      else if has ERL_SMALL_TUPLE_EXT then
        let+ (i, ext) := get8 ext in decode_tuple (erl_decode_it fuel) i ext
      else if has ERL_LARGE_TUPLE_EXT then
        let+ (i, ext) := get32be ext in decode_tuple (erl_decode_it fuel) i ext
      else if has ERL_FLOAT_EXT || has NEW_FLOAT_EXT then decode_float ext
      else if has ERL_BINARY_EXT then decode_binary ext
      else if has ERL_FUN_EXT then decode_old_fun (erl_decode_it fuel) ext
      else if has ERL_NEW_FUN_EXT then decode_new_fun (erl_decode_it fuel) ext
      else retD (None, ext)
  end.

(** The version byte may be there or not. *)
Definition erl_decode_buf (fuel : nat) (ext : Z) : D (option ETERM * Z) :=
  let+ v := load ext in
  erl_decode_it fuel (if v =? ERL_VERSION_MAGIC then ext + 1 else ext).

Definition erl_decode (fuel : nat) (t : Z) : D (option ETERM) :=
  let+ (ep, _) := erl_decode_buf fuel t in retD ep.

(** decode_term.c: the result is stored if [t] is not NULL, else freed. *)
Definition ei_decode_term (fuel : nat) (t : bool) (buf index : Z)
    : D (cres (option ETERM)) :=
  let s := buf + index in
  let s0 := s in
  let+ (tmp, s) := erl_decode_buf fuel s in
  match tmp with
  | None => retD Fail
  | Some tmp => retD (Done (index_add index (s - s0)) (out t tmp))
  end.
End Decode.

(** ** Looking at encoded terms *)

Definition erl_verify_magic (ext : Z) : D Z :=
  let+ v := load ext in retD (if v =? ERL_VERSION_MAGIC then 1 else 0).

(** 0 for what it does not know, strings among them. *)
Definition erl_ext_type (ext : Z) : D Z :=
  let+ v := load ext in
  let+ tag := load (if v =? ERL_VERSION_MAGIC then ext + 1 else ext) in
  let has t := tag =? t in
  retD
    (if has ERL_SMALL_INTEGER_EXT || has ERL_INTEGER_EXT then ERL_INTEGER
     else if has ERL_ATOM_EXT || has ERL_ATOM_UTF8_EXT || has ERL_SMALL_ATOM_EXT
             || has ERL_SMALL_ATOM_UTF8_EXT then ERL_ATOM
     else if has ERL_PID_EXT || has ERL_NEW_PID_EXT then ERL_PID
     else if has ERL_PORT_EXT || has ERL_NEW_PORT_EXT then ERL_PORT
     else if has ERL_REFERENCE_EXT || has ERL_NEW_REFERENCE_EXT
             || has ERL_NEWER_REFERENCE_EXT then ERL_REF
     else if has ERL_NIL_EXT then ERL_EMPTY_LIST
     else if has ERL_LIST_EXT then ERL_LIST
     else if has ERL_SMALL_TUPLE_EXT || has ERL_LARGE_TUPLE_EXT then ERL_TUPLE
     else if has ERL_FLOAT_EXT || has NEW_FLOAT_EXT then ERL_FLOAT
     else if has ERL_BINARY_EXT then ERL_BINARY
     else if has ERL_FUN_EXT || has ERL_NEW_FUN_EXT then ERL_FUNCTION
     else if has ERL_SMALL_BIG_EXT || has ERL_LARGE_BIG_EXT then ERL_BIG
     else 0).

(** The leaves that have no elements. *)
Definition leaf_tags : list Z :=
  [ERL_SMALL_INTEGER_EXT; ERL_INTEGER_EXT; ERL_ATOM_EXT; ERL_ATOM_UTF8_EXT;
   ERL_SMALL_ATOM_EXT; ERL_SMALL_ATOM_UTF8_EXT; ERL_PID_EXT; ERL_NEW_PID_EXT;
   ERL_PORT_EXT; ERL_NEW_PORT_EXT; ERL_REFERENCE_EXT; ERL_NEW_REFERENCE_EXT;
   ERL_NEWER_REFERENCE_EXT; ERL_NIL_EXT; ERL_BINARY_EXT; ERL_STRING_EXT; ERL_FLOAT_EXT;
   NEW_FLOAT_EXT; ERL_SMALL_BIG_EXT; ERL_LARGE_BIG_EXT].

(** Version bytes are passed over, however many ([fuel]). *)
Fixpoint erl_ext_size (fuel : nat) (t : Z) : D Z :=
  match fuel with
  | O => ubD
  | S fuel =>
      let+ tag := load t in
      if tag =? ERL_VERSION_MAGIC then erl_ext_size fuel (t + 1) else
      let v := t + 1 in
      if existsb (Z.eqb tag) leaf_tags then retD 0
      else if tag =? ERL_SMALL_TUPLE_EXT then load v
      else if (tag =? ERL_LIST_EXT) || (tag =? ERL_LARGE_TUPLE_EXT) then
        let+ (i, _) := get32be v in retD i
      else if tag =? ERL_FUN_EXT then
        let+ (i, _) := get32be v in retD (int32 (i + 4))
      else if tag =? ERL_NEW_FUN_EXT then
        let v := v + (4 + 1 + 16 + 4) in
        let+ (i, _) := get32be v in retD (int32 (i + 4))
      else retD (-1)
  end.
