(* ===== verification/MarshalOk.v ===== *)
(** * The bytes of a term, and that the encoder writes them

    [ext_eterm] is the external form of a term; [eterm_ok] says of a term that it
    has one: its texts are valid, its numbers have the width of their fields, a
    fun has all its parts, sizes are such that the decoder finds room. *)

From S2P Require Import Prelude Mem PutGet Ext Headers Ints Atom Data Ids Big Term Skip XBuff Eterm Marshal.

(** ** Bytes *)

(** The text that is sent, as UTF-8, and its form: that of the Latin-1 text if
    there is one. *)
Definition text_of (a : Erl_Atom_data) : list Z :=
  match latin1 a with Some l => utf8_of_latin1 l | None => default [] (utf8 a) end.
Definition ext_name (a : Erl_Atom_data) : list Z :=
  match latin1 a with
  | Some l => ext_atom_latin1 l
  | None => ext_atom_utf8 (default [] (utf8 a))
  end.

Definition ext_integer (i : Z) : list Z :=
  if (i <? 256) && (0 <=? i) then [ERL_SMALL_INTEGER_EXT; byte i]
  else ERL_INTEGER_EXT :: be32 i.
Definition ext_small_big (sign : Z) (ds : list Z) : list Z :=
  [ERL_SMALL_BIG_EXT; len ds; sign] ++ ds.
Definition le64 (l : Z) : list Z := le32 l ++ le32 (Z.shiftr l 32).

Definition ext_uint (u : Z) : list Z :=
  if int32 u <? 0 then ext_small_big 0 (le32 u) else ext_integer u.
Definition ext_ll (l : Z) : list Z :=
  if (int_max <? l) || (l <? INT_MIN) then
    ext_small_big (if l <? 0 then 1 else 0) (le64 (if l <? 0 then - l else l))
  else ext_integer l.
Definition ext_ull (ul : Z) : list Z :=
  if int_max <? ul then ext_small_big 0 (le64 ul) else ext_integer ul.

Definition ext_cre (c : Z) : list Z := if c <=? 3 then [byte c] else be32 c.

(** The node of a reference is always sent from its Latin-1 text. *)
Definition ref_node_of (node : Erl_Atom_data) : Erl_Atom_data :=
  snd (erl_atom_ptr_latin1 node).

Fixpoint elems_of (ep : ETERM) : list ETERM :=
  match ep with Erl_List hd tl => hd :: elems_of tl | _ => [] end.

Fixpoint string_chars (ep : ETERM) : list Z :=
  match ep with Erl_List (Erl_Integer i) tl => byte i :: string_chars tl | _ => [] end.

Definition ext_str (ep : ETERM) : list Z :=
  (ERL_STRING_EXT :: be16 (is_string ep)) ++ string_chars ep.

Section Bytes.
Context (sprintf_20e : Z -> list Z).

Definition ext_float (f : Z) : list Z :=
  let txt := sprintf_20e f in
  ERL_FLOAT_EXT :: txt ++ replicate (31 - length txt) 0.

(** The elements of a list and what is behind them. *)
Definition ext_cells (ext : ETERM -> list Z) : ETERM -> list Z :=
  fix go ep := match ep with Erl_List hd tl => ext hd ++ go tl | _ => ext ep end.

Fixpoint ext_eterm (ep : ETERM) : list Z :=
  let part (o : option ETERM) : list Z :=
    match o with Some t => ext_eterm t | None => [] end in
  match ep with
  | Erl_Integer i => ext_integer i
  | Erl_Uinteger u => ext_uint u
  | Erl_LLInteger l => ext_ll l
  | Erl_ULLInteger ul => ext_ull ul
  | Erl_Float f => ext_float f
  | Erl_Atom d => ext_name d
  | Erl_Pid node n s c =>
      [if c <=? 3 then ERL_PID_EXT else ERL_NEW_PID_EXT] ++ ext_name node ++
      be32 n ++ be32 s ++ ext_cre c
  | Erl_Port node n c =>
      [if c <=? 3 then ERL_PORT_EXT else ERL_NEW_PORT_EXT] ++ ext_name node ++
      be32 n ++ ext_cre c
  | Erl_Ref node n c =>
      ((if c <=? 3 then ERL_NEW_REFERENCE_EXT else ERL_NEWER_REFERENCE_EXT)
         :: be16 (len n)) ++
      ext_name (ref_node_of node) ++ ext_cre c ++ ext_words n
  | Erl_EmptyList => [ERL_NIL_EXT]
  | Erl_List hd tl =>
      let i := is_string ep in
      if (0 <? i) && (i <? 0x10000) then ext_str ep
      else (ERL_LIST_EXT :: be32 (erl_length_x ep)) ++ ext_eterm hd ++ ext_cells ext_eterm tl
  | Erl_Tuple es => ext_tuple_header (len es) ++ concat (ext_eterm <$> es)
  | Erl_Binary b => ext_binary b
  | Erl_Variable _ _ => []
  | Erl_Function arity md5 ni creator module index uniq closure =>
      if arity =? -1 then
        (ERL_FUN_EXT :: be32 (len closure)) ++ part creator ++ part module ++
        part index ++ part uniq ++ concat (part <$> closure)
      else
        let rest := [byte arity] ++ md5 ++ be32 ni ++ be32 (len closure) ++
          part module ++ part index ++ part uniq ++ part creator ++
          concat (part <$> closure) in
        (ERL_NEW_FUN_EXT :: be32 (4 + len rest)) ++ rest
  end.

(** ** Terms that can be sent *)

Definition chars (s : list Z) : Prop := Forall (fun c => 0 < c < 256) s.

(** A Latin-1 text of at most 255 characters, with its UTF-8 text or without;
    or a UTF-8 text that ei takes. *)
Definition atom_ok (a : Erl_Atom_data) : Prop :=
  match latin1 a with
  | Some l => chars l /\ len l < MAXATOMLEN /\ opt_all (eq (utf8_of_latin1 l)) (utf8 a)
  | None =>
      match utf8 a with
      | Some u => chars u /\ verify_utf8_atom u 0 = true
      | None => False
      end
  end.

Inductive is_part (P : ETERM -> Prop) : option ETERM -> Prop :=
  | is_part_some t : P t -> is_part P (Some t).

Inductive eterm_ok : ETERM -> Prop :=
  | ok_integer i : is_int32 i -> eterm_ok (Erl_Integer i)
  | ok_uinteger u : is_uint32 u -> eterm_ok (Erl_Uinteger u)
  | ok_ll l : is_int64 l -> l <> - 2 ^ 63 -> eterm_ok (Erl_LLInteger l)
  | ok_ull ul : is_uint64 ul -> eterm_ok (Erl_ULLInteger ul)
  | ok_float f : isfinite f = true -> chars (sprintf_20e f) -> len (sprintf_20e f) <= 30 -> eterm_ok (Erl_Float f)
  | ok_atom d : atom_ok d -> eterm_ok (Erl_Atom d)
  | ok_pid node n s c :
      atom_ok node -> is_uint32 n -> is_uint32 s -> is_uint32 c ->
      eterm_ok (Erl_Pid node n s c)
  | ok_port node n c :
      atom_ok node -> is_uint32 n -> is_uint32 c -> eterm_ok (Erl_Port node n c)
  | ok_ref node n c :
      atom_ok node -> is_Some (latin1 (ref_node_of node)) -> len n <= 3 ->
      Forall is_uint32 n -> is_uint32 c -> eterm_ok (Erl_Ref node n c)
  | ok_nil : eterm_ok Erl_EmptyList
  | ok_list hd tl :
      eterm_ok hd -> eterm_ok tl -> erl_length_x (Erl_List hd tl) <= int_max ->
      eterm_ok (Erl_List hd tl)
  | ok_tuple es :
      Forall eterm_ok es -> room_for (len es + 1) = true -> eterm_ok (Erl_Tuple es)
  | ok_binary b : Forall is_byte b -> len b <= int_max -> eterm_ok (Erl_Binary b)
  | ok_fun arity md5 ni creator module index uniq closure :
      (arity = -1 /\ md5 = [] /\ ni = 0) \/
      (is_byte arity /\ Forall is_byte md5 /\ len md5 = 16 /\ is_int32 ni) ->
      is_part eterm_ok creator -> is_part eterm_ok module ->
      is_part eterm_ok index -> is_part eterm_ok uniq ->
      Forall (is_part eterm_ok) closure -> room_for (len closure) = true ->
      eterm_ok (Erl_Function arity md5 ni creator module index uniq closure).
End Bytes.

(** ** Putting writers together *)

Lemma Writes_ext w w' bs : (forall p s, w p s = w' p s) -> Writes w' bs -> Writes w bs.
Proof. intros He Hw o s Hf. by rewrite He, Hw. Qed.

Lemma seq_writes (w1 w2 : ptr -> M ptr) b1 b2 :
  Writes w1 b1 -> Writes w2 b2 ->
  Writes (fun p => let* p := w1 p in w2 p) (b1 ++ b2).
Proof.
  intros H1 H2 o s [Ho Hl]. rewrite len_app in Hl.
  assert (Hf1 : fits s o b1) by (split; lia).
  erewrite bindM_Some by (by apply H1). rewrite H2 by (apply fits_splice; [done | split; lia]).
  rewrite splice_app by (split; rewrite ?len_app; lia). rewrite len_app. do 3 f_equal. lia.
Qed.

Lemma nop_writes : Writes retM [].
Proof. intros o s Hf. unfold retM. by rewrite splice_nil, Z.add_0_r. Qed.

Lemma memcpy_writes bs : Forall is_byte bs ->
  Writes (fun p => let* _ := memcpy p bs in retM (padd p (len bs))) bs.
Proof.
  intros Hb o s Hf. erewrite bindM_Some by (by apply memcpy_ok). by rewrite bytes_id.
Qed.

(** A writer of a term that returns 0 or 1. *)
Definition Encs (f : ptr -> M (Z * ptr)) (bs : list Z) : Prop :=
  forall o s, fits s o bs ->
    f (at_off o) s = Some ((0, at_off (o + len bs)), splice s o bs).

Lemma wrote_encs w bs : Writes w bs -> Encs (fun p => wrote (w p)) bs.
Proof. intros Hw o s Hf. unfold wrote. by erewrite bindM_Some by (by apply Hw). Qed.

Lemma seq_encs (w : ptr -> M ptr) f b1 b2 :
  Writes w b1 -> Encs f b2 -> Encs (fun p => let* p := w p in f p) (b1 ++ b2).
Proof.
  intros H1 H2 o s [Ho Hl]. rewrite len_app in Hl.
  assert (Hf1 : fits s o b1) by (split; lia).
  erewrite bindM_Some by (by apply H1). rewrite H2 by (apply fits_splice; [done | split; lia]).
  rewrite splice_app by (split; rewrite ?len_app; lia). rewrite len_app. do 4 f_equal. lia.
Qed.

Lemma encs_seq f g b1 b2 :
  Encs f b1 -> Encs g b2 ->
  Encs (fun p => let* (rc, p) := f p in if negb (rc =? 0) then retM (1, p) else g p) (b1 ++ b2).
Proof.
  intros H1 H2 o s [Ho Hl]. rewrite len_app in Hl.
  assert (Hf1 : fits s o b1) by (split; lia).
  erewrite bindM_Some by (by apply H1). cbn [Z.eqb negb].
  rewrite H2 by (apply fits_splice; [done | split; lia]).
  rewrite splice_app by (split; rewrite ?len_app; lia). rewrite len_app. do 4 f_equal. lia.
Qed.

Lemma encs_part f bs : Encs f bs -> Writes (fun p => let* (_, p) := f p in retM p) bs.
Proof. intros Hf o s Hs. by erewrite bindM_Some by (by apply Hf). Qed.

(** Room of [k] bytes is left, the rest is written behind it, and the room is
    filled at the end; [e] is where the rest ends. *)
Lemma fill_writes (w : ptr -> M ptr) (fill : ptr -> ptr -> M ptr) hd rest :
  Writes w rest ->
  (forall o s, fits s o hd -> fill (at_off o) (at_off (o + len (hd ++ rest))) s
     = Some (at_off (o + len (hd ++ rest)), splice s o hd)) ->
  Writes (fun p => let* e := w (padd p (len hd)) in fill p e) (hd ++ rest).
Proof.
  intros Hw Hfill o s [Ho Hl]. rewrite len_app in Hl.
  assert (Hr : fits s (o + len hd) rest) by (split; lia).
  change (padd (at_off o) (len hd)) with (at_off (o + len hd)).
  erewrite bindM_Some by (by apply Hw). rewrite <- Z.add_assoc, <- len_app.
  rewrite Hfill by (apply fits_splice; [done | split; lia]).
  by rewrite splice_app_before by (split; rewrite ?len_app; lia).
Qed.

Lemma writes_eq w b b' : Writes w b' -> b = b' -> Writes w b.
Proof. by intros ? ->. Qed.
Lemma encs_eq f b b' : Encs f b' -> b = b' -> Encs f b.
Proof. by intros ? ->. Qed.

(** Split a writer at its binds. *)
Ltac writes_tac :=
  first [eassumption | lazymatch goal with
  | |- Writes (fun p => bindM _ _) _ => eapply seq_writes; [writes_tac | writes_tac]
  | |- Writes (fun p => put8 p _) _ => apply put8_writes
  | |- Writes (fun p => put16be p _) _ => apply put16be_writes
  | |- Writes (fun p => put32be p _) _ => apply put32be_writes
  | |- Writes (fun p => put32le p _) _ => apply put32le_writes
  | |- _ => eauto
  end].
Ltac by_writes := eapply writes_eq; [by writes_tac | try done].

(** ** Numbers *)

Lemma small_integer_writes i : Writes (put_small_integer i) [ERL_SMALL_INTEGER_EXT; byte i].
Proof. unfold put_small_integer. by_writes. Qed.
Lemma integer_writes i : Writes (put_integer i) (ERL_INTEGER_EXT :: be32 i).
Proof. unfold put_integer. by_writes. Qed.
Lemma small_big_writes n sign : Writes (put_small_big n sign) [ERL_SMALL_BIG_EXT; byte n; byte sign].
Proof. unfold put_small_big. by_writes. Qed.
Lemma put64le_writes l : Writes (fun p => put64le p l) (le64 l).
Proof. unfold put64le, le64. by_writes. Qed.
#[local] Hint Resolve small_integer_writes integer_writes small_big_writes put64le_writes
  put32le_writes : core.

Lemma encode_int_writes i : Writes (encode_int i) (ext_integer i).
Proof.
  unfold encode_int, ext_integer. intros o s. destruct ((i <? 256) && (0 <=? i)).
  - apply small_integer_writes.
  - apply integer_writes.
Qed.

Lemma encode_uint_writes u : is_uint32 u -> Writes (encode_uint u) (ext_uint u).
Proof.
  unfold encode_uint, ext_uint, ext_small_big, ext_integer. intros Hu o s.
  destruct (int32 u <? 0).
  - apply (seq_writes (put_small_big 4 0) _ [ERL_SMALL_BIG_EXT; 4; 0]); auto.
  - rewrite (proj2 (Z.leb_le 0 u)), andb_true_r by (unfold is_uint32 in Hu; lia).
    destruct (u <? 256); [apply small_integer_writes | apply integer_writes].
Qed.

Lemma encode_ll_writes l : l <> - 2 ^ 63 -> Writes (encode_longlong l) (ext_ll l).
Proof.
  intros Hl. unfold encode_longlong, ext_ll, ext_integer, ext_small_big. intros o s.
  destruct ((int_max <? l) || (l <? INT_MIN)).
  - rewrite (proj2 (Z.eqb_neq _ _) Hl). set (sg := if l <? 0 then 1 else 0).
    apply (seq_writes (put_small_big 8 sg) _ [ERL_SMALL_BIG_EXT; 8; sg]); auto.
    eapply writes_eq; [apply small_big_writes |]. unfold sg. by destruct (l <? 0).
  - destruct ((l <? 256) && (0 <=? l)); [apply small_integer_writes | apply integer_writes].
Qed.

Lemma encode_ull_writes ul : 0 <= ul -> Writes (encode_ulonglong ul) (ext_ull ul).
Proof.
  intros Hu. unfold encode_ulonglong, ext_ull, ext_integer, ext_small_big. intros o s.
  destruct (int_max <? ul).
  - apply (seq_writes (put_small_big 8 0) _ [ERL_SMALL_BIG_EXT; 8; 0]); auto.
  - rewrite (proj2 (Z.leb_le 0 ul)), andb_true_r by lia.
    destruct (ul <? 256); [apply small_integer_writes | apply integer_writes].
Qed.

(** ** Names *)

Lemma chars_byte s : chars s -> Forall is_byte s.
Proof. apply Forall_impl. unfold is_byte. lia. Qed.

Lemma len_ext_name_max a : atom_ok a -> len (ext_name a) <= int_max.
Proof.
  unfold atom_ok, ext_name, ext_atom_latin1, ext_atom_utf8, int_max.
  destruct (latin1 a) as [l |].
  - intros (_ & Hl & _). pose proof (len_utf8_of_latin1 l). rewrite len_ext_atom.
    unfold MAXATOMLEN in Hl. destruct (128 <=? len l); lia.
  - destruct (utf8 a) as [u |]; [| done]. intros [_ Hv]. apply utf8_len_max in Hv.
    unfold MAXATOMLEN_UTF8 in Hv. rewrite len_ext_atom. change (default [] (Some u)) with u. destruct (256 <=? len u); lia.
Qed.

Lemma encode_atom_writes a : atom_ok a -> Writes (encode_atom a) (ext_name a).
Proof.
  intros Ha. pose proof (len_ext_name_max a Ha) as Hm. revert Ha Hm.
  unfold atom_ok, ext_name, encode_atom. intros Ha Hm o s Hf.
  assert (He : forall f bs, Encodes f bs -> fits s o bs -> len bs <= int_max ->
    (let* (_, ix) := f (at_off o) 0 in retM (padd (at_off o) ix)) s
    = Some (at_off (o + len bs), splice s o bs)).
  { intros f bs Henc Hfit Hbs. replace o with (o + 0) in Hfit by lia.
    erewrite bindM_Some by (apply encodes_buf; lia || done).
    by rewrite !Z.add_0_r. }
  destruct (latin1 a) as [l |] eqn:El.
  - destruct Ha as (Hc & Hl & _). unfold lenL. rewrite El. change (default [] (Some l)) with l.
    apply He; [| done..]. apply encode_atom_latin1_ok; [by apply chars_byte | done].
  - destruct (utf8 a) as [u |] eqn:Eu; [| done]. destruct Ha as [Hc Hv].
    unfold lenU. rewrite Eu in *. change (default [] (Some u)) with u in *.
    apply He; [| done..]. apply encode_atom_utf8_ok; [by apply chars_byte | done].
Qed.

(** The node of a reference, with its Latin-1 text. *)
Lemma ref_node_ptr node : is_Some (latin1 (ref_node_of node)) ->
  exists l, erl_atom_ptr_latin1 node = (Some l, ref_node_of node) /\
    latin1 (ref_node_of node) = Some l.
Proof.
  unfold ref_node_of, erl_atom_ptr_latin1. destruct (latin1 node) as [l |] eqn:El.
  - intros _. by exists l.
  - destruct (utf8_to_latin1 _ _) as [[l enc] |]; cbn [snd].
    + intros [l' Hl']. exists l'. by rewrite Hl'.
    + intros [l' Hl']. congruence.
Qed.

(** ** The Latin-1 text of a UTF-8 text *)

Definition two_bytes (c0 c1 : Z) : bool :=
  let c := byte (Z.lor (Z.shiftl c0 6) (Z.land c1 0x3F)) in
  negb ((Z.land c0 0xFE =? 0xC2) && (Z.land c1 0xC0 =? 0x80))
  || (bool_decide (utf8_of c = [c0; c1]) && (0 <? c) && (c <? 256)).

Lemma two_bytes_ok c0 c1 : is_byte c0 -> is_byte c1 -> two_bytes c0 c1 = true.
Proof.
  intros H0 H1. apply (byte_forall (two_bytes c0)); [| done].
  by apply (byte_forall (fun c0 => forallb (two_bytes c0) (seqZ 0 256))).
Qed.

Lemma utf8_to_latin1_sound k : forall u dst dst_end l f,
  (length u <= k)%nat -> chars u -> utf8_to_latin1_loop u dst dst_end = Some (l, f) ->
  u = utf8_of_latin1 l /\ chars l /\ f = negb (verify_ascii_atom l).
Proof.
  induction k as [| k IH]; intros [| c0 r] dst e l f Hk Hu; cbn [utf8_to_latin1_loop];
    try (intros [= <- <-]; by repeat constructor); try (cbn in Hk; lia).
  inversion_clear Hu as [| ? ? H0 Hu'].
  destruct (e <=? dst); [done |]. fold (is_ascii c0). destruct (is_ascii c0) eqn:Ea.
  - destruct (utf8_to_latin1_loop r (dst + 1) e) as [[l' f'] |] eqn:E; [| done].
    intros [= <- <-]. apply IH in E as (Hl & Hc & ->); [| cbn in *; lia | done].
    cbn [app]. change (utf8_of_latin1 (c0 :: l')) with (utf8_of c0 ++ utf8_of_latin1 l').
    rewrite verify_ascii_cons. unfold utf8_of at 1. rewrite Ea, Hl.
    split; [done |]. by split; [constructor |].
  - destruct r as [| c1 u]; [done |].
    inversion_clear Hu' as [| ? ? H1 Hu].
    pose proof (two_bytes_ok c0 c1) as Ht. unfold two_bytes in Ht.
    destruct (_ && _) eqn:Et; [| done]. cbn [negb orb] in Ht.
    destruct (utf8_to_latin1_loop u (dst + 1) e) as [[l' f'] |] eqn:E; [| done].
    intros [= <- <-]. apply IH in E as (-> & Hc & ->); [| cbn in *; lia | done].
    set (c := byte _) in *. cbn [app].
    change (utf8_of_latin1 (c :: l')) with (utf8_of c ++ utf8_of_latin1 l').
    destruct (bool_decide_reflect (utf8_of c = [c0; c1])) as [Hc2 |];
      [| specialize (Ht ltac:(unfold is_byte; lia) ltac:(unfold is_byte; lia)); done].
    cbn [andb] in Ht. specialize (Ht ltac:(unfold is_byte; lia) ltac:(unfold is_byte; lia)).
    rewrite Hc2, verify_ascii_cons. split; [done |]. split; [constructor; [lia | done] |].
    unfold utf8_of in Hc2. destruct (is_ascii c); done.
Qed.

Lemma latin1_count l : forall k, Forall is_byte l -> 0 <= k < MAXATOMLEN ->
  verify_utf8_atom (utf8_of_latin1 l) k = true -> k + len l < MAXATOMLEN.
Proof.
  induction l as [| c l IH]; intros k Hb Hk; [intros _; cbn; lia |].
  inversion_clear Hb as [| ? ? Hc Hl].
  change (utf8_of_latin1 (c :: l)) with (utf8_of c ++ utf8_of_latin1 l).
  pose proof (utf8_of_facts c Hc) as Hf. unfold utf8_of_check in Hf.
  unfold utf8_of. destruct (is_ascii c) eqn:Ea; cbn [app verify_utf8_atom];
    destruct (Z.leb_spec MAXATOMLEN (k + 1)); try done.
  - unfold is_ascii in Ea. rewrite Ea. cbn [negb]. intros Hv%IH; [| done | lia].
    rewrite len_cons. lia.
  - repeat rewrite andb_true_iff in Hf. destruct_and!.
    repeat match goal with H : ?x = true |- context [?x] => rewrite H end. cbn [negb].
    intros Hv%IH; [| done | lia]. rewrite len_cons. lia.
Qed.

Lemma ref_node_ok node :
  atom_ok node -> is_Some (latin1 (ref_node_of node)) -> atom_ok (ref_node_of node).
Proof.
  unfold ref_node_of, erl_atom_ptr_latin1. destruct (latin1 node) as [l |] eqn:El; [done |].
  unfold atom_ok at 1. rewrite El. destruct (utf8 node) as [u |] eqn:Eu; [| done].
  intros [Hu Hv]. unfold lenU, utf8_to_latin1. rewrite Eu.
  change (default [] (Some u)) with u.
  destruct (utf8_to_latin1_loop u 0 (len u)) as [[l f] |] eqn:E; cbn [snd];
    [| rewrite El; by intros []].
  apply (utf8_to_latin1_sound (length u)) in E as (Hul & Hl & Hf); [| done | done].
  assert (Hlen : len l < MAXATOMLEN).
  { rewrite Hul in Hv. apply latin1_count in Hv; [lia | by apply chars_byte | done]. }
  intros _. unfold atom_ok. destruct f; cbn -[MAXATOMLEN]; [by rewrite <- Hul |].
  assert (Ha : utf8_of_latin1 l = l).
  { symmetry in Hf. apply negb_false_iff in Hf. clear -Hf. induction l as [| c l IH]; [done |].
    rewrite verify_ascii_cons in Hf. apply andb_true_iff in Hf as [Hc Hl].
    change (utf8_of_latin1 (c :: l)) with (utf8_of c ++ utf8_of_latin1 l).
    unfold utf8_of. by rewrite Hc, IH. }
  rewrite Ha in Hul. subst u. by rewrite Ha.
Qed.

(** ** The parts of a pid, a port, a reference *)

(** The tag is stored last, over the byte that was left for it. *)
Lemma creation_writes (w : ptr -> M ptr) short long c body :
  is_uint32 c -> is_byte short -> is_byte long -> Writes w body ->
  Writes (fun p => let* e := w (padd p 1) in encode_creation short long c p e)
    ([if c <=? 3 then short else long] ++ body ++ ext_cre c).
Proof.
  intros Hc Hs Hl Hw. unfold encode_creation, ext_cre. intros o s Hf.
  assert (Ht : forall b tl (w2 : ptr -> M ptr), is_byte b -> Writes w2 tl ->
    fits s o ([b] ++ body ++ tl) ->
    (let* e := w (padd (at_off o) 1) in let* _ := put8 (at_off o) b in w2 e) s
    = Some (at_off (o + len ([b] ++ body ++ tl)), splice s o ([b] ++ body ++ tl))).
  { intros b tl w2 Hb Hw2 Hfit. rewrite app_assoc in *.
    eapply (seq_writes (fun p => let* e := w (padd p 1) in let* _ := put8 p b in retM e) w2
      ([b] ++ body) tl) in Hfit; [| | done].
    - rewrite <- Hfit. rewrite bindM_assoc. unfold bindM. destruct (w _ s) as [[e s'] |]; [| done].
      by destruct (put8 _ b s') as [[] |].
    - apply (fill_writes w (fun p e => let* _ := put8 p b in retM e) [b] body Hw).
      intros o' s' Hf'. erewrite bindM_Some by (by apply put8_writes). by rewrite byte_small. }
  destruct (c <=? 3).
  - apply Ht; [done | apply put8_writes | done].
  - apply Ht; [done | apply put32be_writes | done].
Qed.

Lemma numbers_writes n : Writes (put_numbers n) (ext_words n).
Proof.
  induction n as [| i n IH]; [apply nop_writes |].
  change (ext_words (i :: n)) with (be32 i ++ ext_words n). cbn [put_numbers].
  apply (seq_writes (fun p => put32be p i)); [apply put32be_writes | done].
Qed.

Lemma encode_pid_writes node n s c :
  atom_ok node -> is_uint32 c ->
  Writes (encode_pid node n s c)
    ([if c <=? 3 then ERL_PID_EXT else ERL_NEW_PID_EXT] ++ ext_name node ++
     be32 n ++ be32 s ++ ext_cre c).
Proof.
  intros Hn%encode_atom_writes Hc. unfold encode_pid.
  eapply Writes_ext; [| eapply writes_eq; [apply (creation_writes
    (fun p => let* p := encode_atom node p in let* p := put32be p n in put32be p s)
    ERL_PID_EXT ERL_NEW_PID_EXT c); [done | is_byte_tac.. | writes_tac] |]].
  - intros p b. cbn beta. rewrite !bindM_assoc. unfold bindM.
    destruct (encode_atom _ _ _) as [[] |]; [| done]. by destruct (put32be _ _ _) as [[] |].
  - by rewrite <- !app_assoc.
Qed.

Lemma encode_port_writes node n c :
  atom_ok node -> is_uint32 c ->
  Writes (encode_port node n c)
    ([if c <=? 3 then ERL_PORT_EXT else ERL_NEW_PORT_EXT] ++ ext_name node ++
     be32 n ++ ext_cre c).
Proof.
  intros Hn%encode_atom_writes Hc. unfold encode_port.
  eapply Writes_ext; [| eapply writes_eq; [apply (creation_writes
    (fun p => let* p := encode_atom node p in put32be p n)
    ERL_PORT_EXT ERL_NEW_PORT_EXT c); [done | is_byte_tac.. | writes_tac] |]].
  - intros p b. cbn beta. by rewrite !bindM_assoc.
  - by rewrite <- !app_assoc.
Qed.

Lemma encode_ref_writes node n c :
  atom_ok node -> is_Some (latin1 (ref_node_of node)) -> is_uint32 c ->
  Writes (encode_ref node n c)
    (((if c <=? 3 then ERL_NEW_REFERENCE_EXT else ERL_NEWER_REFERENCE_EXT) :: be16 (len n)) ++
     ext_name (ref_node_of node) ++ ext_cre c ++ ext_words n).
Proof.
  intros Hn Hs Hc. pose proof (encode_atom_writes _ (ref_node_ok node Hn Hs)) as Hw.
  destruct (ref_node_ptr node Hs) as (l & Hp & _). unfold encode_ref. rewrite Hp.
  eapply Writes_ext; [| eapply writes_eq; [apply (seq_writes (fun p =>
      let* e := (fun p => let* p := put16be p (len n) in encode_atom (ref_node_of node) p) (padd p 1) in
      encode_creation ERL_NEW_REFERENCE_EXT ERL_NEWER_REFERENCE_EXT c p e) (put_numbers n)); [| apply numbers_writes] |]].
  - intros p b. cbn beta. by rewrite !bindM_assoc.
  - apply (creation_writes (fun p => let* p := put16be p (len n) in
      encode_atom (ref_node_of node) p)); [done | is_byte_tac.. | writes_tac].
  - destruct (c <=? 3); cbn [app]; by rewrite <- !app_assoc.
Qed.

(** ** Strings, binaries, floats *)

Lemma is_string_spec ep : forall k n, is_string_loop ep k = n -> 0 < n -> 0 <= k ->
  n = k + len (string_chars ep) /\ erl_length_x ep = len (string_chars ep) /\
  Writes (put_string ep) (string_chars ep).
Proof.
  induction ep as [| | | | | | | | | hd tl _ IH | | | | |] using ETERM_rec_all;
    intros q w; cbn [is_string_loop]; try lia.
  - destruct hd as [i | | | | | | | | | | | | | |]; try lia.
    destruct (255 <? uint32 i); [lia |]. intros Hm Hp Hk.
    apply IH in Hm as (-> & Hlen & Hw); [| lia | lia]. cbn [string_chars erl_length_x put_string].
    rewrite len_cons, Hlen. split; [lia |]. split; [lia |].
    apply (seq_writes (fun p => put8 p i) _ [byte i]); [apply put8_writes | done].
  - intros -> _ _. cbn. split; [lia |]. split; [done |]. apply nop_writes.
Qed.

Lemma is_string_writes ep :
  0 < is_string ep -> Writes (fun p => let* p := put8 p ERL_STRING_EXT in
                                       let* p := put16be p (is_string ep) in put_string ep p)
                             (ext_str ep).
Proof.
  intros Hp. destruct (is_string_spec ep 0 _ eq_refl Hp ltac:(lia)) as (_ & _ & Hw).
  unfold ext_str. by_writes.
Qed.

Lemma binary_writes b : Forall is_byte b ->
  Writes (fun p => let* p := put8 p ERL_BINARY_EXT in
                   let* p := put32be p (len b) in
                   let* _ := memcpy p b in retM (padd p (len b))) (ext_binary b).
Proof.
  intros Hb. unfold ext_binary.
  apply (seq_writes (fun p => put8 p ERL_BINARY_EXT) _ [ERL_BINARY_EXT]); [apply put8_writes |].
  apply (seq_writes (fun p => put32be p (len b))); [apply put32be_writes |].
  by apply memcpy_writes.
Qed.

Lemma float_writes sprintf_20e f :
  chars (sprintf_20e f) -> len (sprintf_20e f) <= 30 ->
  Writes (encode_float sprintf_20e f) (ext_float sprintf_20e f).
Proof.
  intros Hc Hl. unfold encode_float, ext_float. set (txt := sprintf_20e f) in *.
  apply (seq_writes (fun p => put8 p ERL_FLOAT_EXT) _ [ERL_FLOAT_EXT]); [apply put8_writes |].
  intros o s [Ho Hf]. rewrite len_app, length_replicate in *.
  assert (Hz : fits s o (replicate 31 0)) by (split; [done |]; rewrite length_replicate; lia).
  erewrite bindM_Some by (by apply memcpy_ok).
  rewrite bytes_id by (apply Forall_replicate; is_byte_tac).
  assert (Hr : replicate 31 0 = [] ++ replicate (length (txt ++ [0])) 0 ++ replicate (30 - length txt) 0).
  { cbn [app]. rewrite <- replicate_add, length_app. cbn [length]. f_equal. lia. }
  rewrite Hr in *.
  erewrite bindM_Some by (apply memcpy_ok; split; [done |];
    rewrite length_splice by done; rewrite len_app; cbn [length]; lia).
  pose proof (splice_patch s o [] _ (byte <$> txt ++ [0]) _ Hz
    ltac:(by rewrite length_replicate, length_fmap)) as Hp.
  change (len (@nil Z)) with 0 in Hp. rewrite Z.add_0_r in Hp. rewrite Hp.
  rewrite bytes_id by (apply Forall_app; split; [by apply chars_byte | by repeat constructor]).
  unfold retM, padd. cbn [nonnull off at_off app]. rewrite <- app_assoc. cbn [app].
  replace (31 - length txt)%nat with (S (30 - length txt)) by lia. cbn [replicate].
  do 3 f_equal. lia.
Qed.

(** ** The encoder *)

Section Main.
Context (sprintf_20e : Z -> list Z).
Notation enc := (erl_encode_it sprintf_20e).
Notation ext := (ext_eterm sprintf_20e).
Notation ok := (eterm_ok sprintf_20e).

Lemma encode_elems_encs es : Forall (fun e => Encs (enc e) (ext e)) es ->
  Encs (encode_elems enc es) (concat (ext <$> es)).
Proof.
  induction 1 as [| e es He _ IH]; cbn [encode_elems].
  - intros o s _. unfold retM. cbn. by rewrite splice_nil, Z.add_0_r.
  - apply (encs_seq (enc e)); done.
Qed.

Definition part_ext (o : option ETERM) : list Z :=
  match o with Some t => ext t | None => [] end.

Lemma encode_part_writes o : is_part (fun e => Encs (enc e) (ext e)) o ->
  Writes (encode_part enc o) (part_ext o).
Proof. intros [t Ht]. by apply encs_part. Qed.

Lemma encode_closure_writes cl : Forall (is_part (fun e => Encs (enc e) (ext e))) cl ->
  Writes (encode_closure enc cl) (concat (part_ext <$> cl)).
Proof.
  induction 1 as [| e es He _ IH]; cbn [encode_closure]; [apply nop_writes |].
  apply (seq_writes (encode_part enc e)); [by apply encode_part_writes | done].
Qed.

Lemma tuple_header_writes n :
  Writes (fun p => if n <=? 0xff then let* p := put8 p ERL_SMALL_TUPLE_EXT in put8 p n
                   else let* p := put8 p ERL_LARGE_TUPLE_EXT in put32be p n)
         (ext_tuple_header n).
Proof.
  unfold ext_tuple_header. intros o s. destruct (n <=? 255).
  - apply (seq_writes (fun p => put8 p _) (fun p => put8 p n) [_] [_]); apply put8_writes.
  - apply (seq_writes (fun p => put8 p _) (fun p => put32be p n) [_]);
      [apply put8_writes | apply put32be_writes].
Qed.

Lemma parts_ok P Q o :
  opt_all (fun t => P t -> Q t) o -> is_part P o -> is_part Q o.
Proof. intros Ho Hp. destruct Hp as [t Ht]. constructor. by apply Ho. Qed.

Lemma closure_ok P Q cl :
  Forall (opt_all (fun t => P t -> Q t)) cl -> Forall (is_part P) cl -> Forall (is_part Q) cl.
Proof.
  induction 1 as [| o cl Ho _ IH]; intros Hp; [constructor |].
  inversion_clear Hp. constructor; [by eapply parts_ok | by apply IH].
Qed.

Lemma fun_part c : is_part (fun e => Encs (enc e) (ext e)) c ->
  Writes (encode_part enc c) (match c with Some t => ext t | None => [] end).
Proof. apply encode_part_writes. Qed.

Lemma old_fun_encs arity md5 ni c m i u cl :
  (arity =? -1) = true ->
  let P o := is_part (fun e => Encs (enc e) (ext e)) o in
  P c -> P m -> P i -> P u -> Forall (is_part (fun e => Encs (enc e) (ext e))) cl ->
  Encs (enc (Erl_Function arity md5 ni c m i u cl)) (ext (Erl_Function arity md5 ni c m i u cl)).
Proof.
  intros Ha P Hc Hm Hi Hu Hcl. cbn [erl_encode_it ext_eterm]. rewrite Ha. cbn [negb].
  apply wrote_encs.
  apply fun_part in Hc. apply fun_part in Hm. apply fun_part in Hi. apply fun_part in Hu.
  apply encode_closure_writes in Hcl. eapply writes_eq; [writes_tac |]. done.
Qed.

Lemma new_fun_encs arity md5 ni c m i u cl :
  (arity =? -1) = false -> Forall is_byte md5 -> len md5 = 16 ->
  let P o := is_part (fun e => Encs (enc e) (ext e)) o in
  P c -> P m -> P i -> P u -> Forall (is_part (fun e => Encs (enc e) (ext e))) cl ->
  Encs (enc (Erl_Function arity md5 ni c m i u cl)) (ext (Erl_Function arity md5 ni c m i u cl)).
Proof.
  intros Ha Hb Hl P Hc Hm Hi Hu Hcl. cbn [erl_encode_it ext_eterm]. rewrite Ha. cbn [negb].
  apply wrote_encs.
  apply fun_part in Hc. apply fun_part in Hm. apply fun_part in Hi. apply fun_part in Hu.
  apply encode_closure_writes in Hcl. apply memcpy_writes in Hb. rewrite Hl in Hb.
  match goal with |- Writes _ (_ ++ ?r) => set (rest := r) end.
  set (body := fun p => let* p := put8 p arity in
    let* p := (let* _ := memcpy p md5 in retM (padd p 16)) in
    let* p := put32be p ni in let* p := put32be p (len cl) in
    let* p := encode_part enc m p in let* p := encode_part enc i p in
    let* p := encode_part enc u p in let* p := encode_part enc c p in encode_closure enc cl p).
  assert (Hbody : Writes body rest)
    by (unfold body; eapply writes_eq; [writes_tac | reflexivity]).
  pose proof (fill_writes body (fun p e => let* _ := put32be p (psub e p) in retM e)
    (be32 (4 + len rest)) rest Hbody) as Hfill.
  eapply Writes_ext; [| apply (seq_writes (fun p => put8 p ERL_NEW_FUN_EXT)
    (fun p => let* e := body (padd p 4) in let* _ := put32be p (psub e p) in retM e)
    [ERL_NEW_FUN_EXT]);
    [apply put8_writes | apply Hfill]].
  - intros p b. unfold body, bindM. destruct (put8 p ERL_NEW_FUN_EXT b) as [[p1 b1] |] eqn:E1; [| done].
    assert (p1 = padd p 1) as ->.
    { unfold put8, bindM, retM in E1. destruct (store _ _ _) as [[] |]; by simplify_eq. }
    destruct (put8 _ arity b1) as [[p2 b2] |]; [| done].
    destruct (memcpy p2 md5 b2) as [[p3 b3] |]; [| done]. unfold retM.
    repeat (match goal with |- context [match ?f ?a ?x with Some _ => _ | None => _ end] =>
      destruct (f a x) as [[] |]; [| done] end).
    done.
  - intros o s Hf. rewrite len_app. change (len (be32 (4 + len rest))) with 4.
    unfold psub, at_off. cbn [off]. replace (o + (4 + len rest) - o) with (4 + len rest) by lia.
    by erewrite bindM_Some by (by apply put32be_writes).
Qed.

Ltac leaf H :=
  split; cbn [erl_encode_it ext_eterm encode_list ext_cells]; apply wrote_encs, H; try done.

Lemma encode_it_encs ep : ok ep ->
  Encs (enc ep) (ext ep) /\ Encs (encode_list enc ep) (ext_cells ext ep).
Proof.
  induction ep as [| | | | | | | | | hd tl IHh IHt | | | es IHes | | ar md5 ni c m i u cl IHc IHm IHi IHu IHcl]
    using ETERM_rec_all; intros Hok; inversion Hok; subst.
  - leaf (encode_int_writes i).
  - leaf (encode_uint_writes u).
  - leaf (encode_ll_writes l).
  - leaf (encode_ull_writes l); unfold is_uint64 in *; lia.
  - leaf (float_writes sprintf_20e f).
  - leaf (encode_atom_writes d).
  - leaf (encode_pid_writes d n s c).
  - leaf (encode_port_writes d n c).
  - leaf (encode_ref_writes d n c).
  - destruct (IHh ltac:(done)) as [Hh _], (IHt ltac:(done)) as [_ Ht].
    split; [| by apply (encs_seq (enc hd))].
    cbn [erl_encode_it ext_eterm]. intros o s. destruct ((0 <? _) && _) eqn:E.
    + refine (wrote_encs _ _ (is_string_writes (Erl_List hd tl) _) o s).
      apply andb_true_iff in E as [E _]. lia.
    + refine (seq_encs (fun p => put8 p ERL_LIST_EXT) _ [ERL_LIST_EXT] _ (put8_writes _) _ o s).
      refine (seq_encs (fun p => put32be p _) _ _ _ (put32be_writes _) _).
      by apply (encs_seq (enc hd)).
  - leaf (put8_writes ERL_NIL_EXT).
  - leaf (binary_writes b).
  - assert (Hes : Forall (fun e => Encs (enc e) (ext e)) es).
    { apply Forall_forall. intros e He. rewrite Forall_forall in IHes.
      match goal with H : Forall ok es |- _ => rewrite Forall_forall in H; specialize (H e He) end.
      by apply IHes. }
    split; cbn [erl_encode_it ext_eterm encode_list ext_cells];
      refine (seq_encs _ _ _ _ (tuple_header_writes _) _); by apply encode_elems_encs.
  - assert (Hp : forall o, opt_all (fun e => ok e -> Encs (enc e) (ext e) /\
        Encs (encode_list enc e) (ext_cells ext e)) o ->
      is_part ok o -> is_part (fun e => Encs (enc e) (ext e)) o).
    { intros o Ho Hx. inversion Hx as [t Ht]; subst. constructor. exact (proj1 (Ho Ht)). }
    assert (Hcl : Forall (is_part (fun e => Encs (enc e) (ext e))) cl).
    { apply (closure_ok ok); [| done]. eapply Forall_impl; [| exact IHcl].
      intros [t |] Hx; [| done]. intros Ht. exact (proj1 (Hx Ht)). }
    assert (Hgo : Encs (enc (Erl_Function ar md5 ni c m i u cl)) (ext (Erl_Function ar md5 ni c m i u cl))).
    { destruct (ar =? -1) eqn:Ea; [apply old_fun_encs; auto |].
      match goal with H : _ \/ _ |- _ => destruct H as [(-> & _) | (_ & ? & ? & _)] end; [done |].
      apply new_fun_encs; auto. }
    by split.
Qed.

(** [erl_encode_it] writes exactly the bytes of the term. *)
Lemma erl_encode_it_ok ep : ok ep -> Encs (enc ep) (ext ep).
Proof. intros H. by apply encode_it_encs. Qed.
End Main.
