(* ===== verification/MarshalLen.v ===== *)
(** * The length of an encoded term, and its place in the external format

    [erl_term_len] says how many bytes [erl_encode_it] will write for a term
    that is [measured]; what is written is a term of the grammar of Skip.v. *)

From S2P Require Import Prelude Mem PutGet Ext Headers Ints Atom Data Ids Big Term Skip XBuff Eterm Marshal MarshalOk.

(** ** Lengths *)

(** A Latin-1 text is sent with a length of two bytes from 128 characters on;
    [erl_term_len] counts two bytes from 256 bytes of UTF-8 on. A creation above
    3 takes four bytes; it counts one. The arity of a new fun is not counted. *)
Definition name_measured (a : Erl_Atom_data) : bool :=
  match latin1 a with
  | Some l => (len l <? 128) || (255 <? len (utf8_of_latin1 l))
  | None => true
  end.

Fixpoint measured (ep : ETERM) : bool :=
  let part (o : option ETERM) : bool :=
    match o with Some t => measured t | None => true end in
  match ep with
  | Erl_Atom d => name_measured d
  | Erl_Pid node _ _ c => name_measured node && (c <=? 3)
  | Erl_Port node _ c => name_measured node && (c <=? 3)
  | Erl_Ref node _ c => name_measured (ref_node_of node) && (c <=? 3)
  | Erl_List hd tl => measured hd && measured tl
  | Erl_Tuple es => forallb measured es
  | Erl_Function arity _ _ c m i u cl =>
      (arity =? -1) && part c && part m && part i && part u && forallb part cl
  | _ => true
  end.

Lemma ascii_same l : verify_ascii_atom l = true -> utf8_of_latin1 l = l.
Proof.
  induction l as [| c l IH]; [done |]. rewrite verify_ascii_cons. intros [Hc Hl]%andb_true_iff.
  change (utf8_of_latin1 (c :: l)) with (utf8_of c ++ utf8_of_latin1 l).
  unfold utf8_of. by rewrite Hc, IH.
Qed.

(** The UTF-8 text that is made for the length is the one that is sent. *)
Lemma utf8_made a : atom_ok a -> utf8 (snd (erl_atom_ptr_utf8 a)) = Some (text_of a).
Proof.
  unfold atom_ok, text_of, erl_atom_ptr_utf8. destruct (latin1 a) as [l |] eqn:El.
  - intros (Hc & Hl & Hu). destruct (utf8 a) as [u |] eqn:Eu.
    + cbn in Hu. cbn. by rewrite Eu, Hu.
    + unfold lenL. rewrite El. change (default [] (Some l)) with l.
      unfold latin1_to_utf8. pose proof (len_utf8_of_latin1 l).
      rewrite latin1_to_utf8_loop_ok by lia.
      destruct (verify_ascii_atom l) eqn:Ea; cbn; [| done].
      by rewrite ascii_same.
  - destruct (utf8 a) as [u |] eqn:Eu; [| done]. intros _. cbn. by rewrite Eu.
Qed.

Lemma name_len a : atom_ok a -> name_measured a = true -> atom_len_helper a = len (ext_name a).
Proof.
  intros Ha Hm. unfold atom_len_helper, lenU. rewrite (utf8_made a Ha).
  change (default [] (Some ?x)) with x. revert Ha Hm. unfold name_measured, ext_name, text_of, atom_ok.
  destruct (latin1 a) as [l |].
  - intros (_ & _ & _) Hm. change (default [] (Some (utf8_of_latin1 l))) with (utf8_of_latin1 l).
    unfold ext_atom_latin1. rewrite len_ext_atom. pose proof (len_utf8_of_latin1 l).
    destruct (Z.ltb_spec (len l) 128), (Z.ltb_spec 255 (len (utf8_of_latin1 l)));
      destruct (Z.leb_spec 128 (len l)); try done; lia.
  - intros _ _. unfold ext_atom_utf8. rewrite len_ext_atom.
    set (u := default [] (utf8 a)). change (default [] (Some u)) with u.
    destruct (Z.ltb_spec 255 (len u)), (Z.leb_spec 256 (len u)); lia.
Qed.

(** A reference is measured by its own node, which has the text that is sent. *)
Lemma ref_name_len node :
  atom_ok node -> is_Some (latin1 (ref_node_of node)) ->
  atom_len_helper node = atom_len_helper (ref_node_of node).
Proof.
  intros Ha Hs. pose proof (ref_node_ok node Ha Hs) as Hr.
  unfold atom_len_helper, lenU. rewrite !utf8_made by done.
  replace (text_of (ref_node_of node)) with (text_of node); [done |].
  revert Ha Hs Hr. unfold ref_node_of, erl_atom_ptr_latin1.
  destruct (latin1 node) as [l |] eqn:El; [done |].
  destruct (utf8_to_latin1 _ _) as [[l enc] |] eqn:Ec; cbn [snd]; [| by rewrite El; intros _ []].
  unfold atom_ok, text_of. rewrite El. destruct (utf8 node) as [u |]; [| done].
  change (default [] (Some u)) with u.
  destruct (enc =? ERLANG_ASCII); cbn [latin1 utf8]; by intros _ _ (_ & _ & Hu).
Qed.

Section Len.
Context (sprintf_20e : Z -> list Z).
Notation ext := (ext_eterm sprintf_20e).
Notation ok := (eterm_ok sprintf_20e).

Lemma len_ext_integer i : len (ext_integer i) = int_len i.
Proof. unfold ext_integer, int_len. by destruct (_ && _). Qed.

Lemma len_ext_cre c : (c <=? 3) = true -> len (ext_cre c) = 1.
Proof. unfold ext_cre. by intros ->. Qed.

Definition sized (ep : ETERM) : Prop := erl_term_len_helper ep = Some (len (ext ep)).

Lemma len_sum_ok {A} (f : A -> option Z) (g : A -> list Z) l :
  Forall (fun x => f x = Some (len (g x))) l -> len_sum f l = Some (len (concat (g <$> l))).
Proof.
  induction 1 as [| x l Hx _ IH]; [done |]. cbn [len_sum fmap list_fmap concat].
  rewrite Hx. fold (len_sum f l). rewrite IH, len_app. done.
Qed.

Lemma erl_term_len_ok ep : ok ep -> measured ep = true ->
  sized ep /\ list_len erl_term_len_helper ep = Some (len (ext_cells ext ep)).
Proof.
  induction ep as [i | u | l | l | f | d | d n s c | d n c | d n c | hd tl IHh IHt | | b | es IHes | |
    ar md5 ni c m i u cl IHc IHm IHi IHu IHcl] using ETERM_rec_all; intros Hok Hm; inversion Hok; subst;
    try (match goal with |- sized ?e /\ _ => cut (sized e); [by split |] end);
    unfold sized; cbn [erl_term_len_helper ext_eterm]; cbn [measured] in Hm.
  - by rewrite len_ext_integer.
  - unfold uint_len, ext_uint. destruct (int32 u <? 0); [done |]. rewrite len_ext_integer. unfold int_len.
    rewrite (proj2 (Z.leb_le 0 u)) by (unfold is_uint32 in *; lia). by rewrite andb_true_r.
  - unfold longlong_len, ext_ll. destruct (_ || _); [done |]. by rewrite len_ext_integer.
  - unfold ulonglong_len, ext_ull. destruct (int_max <? l); [done |]. rewrite len_ext_integer. unfold int_len.
    rewrite (proj2 (Z.leb_le 0 l)) by (unfold is_uint64 in *; lia). by rewrite andb_true_r.
  - unfold ext_float. cbn [length]. rewrite length_app, length_replicate. f_equal. lia.
  - by rewrite name_len.
  - apply andb_true_iff in Hm as [Hn Hc]. rewrite name_len by done.
    autorewrite with len. rewrite len_ext_cre by done. cbn. f_equal. lia.
  - apply andb_true_iff in Hm as [Hn Hc]. rewrite name_len by done.
    autorewrite with len. rewrite len_ext_cre by done. cbn. f_equal. lia.
  - apply andb_true_iff in Hm as [Hn Hc].
    rewrite ref_name_len, name_len by (try done; by apply ref_node_ok).
    autorewrite with len. rewrite len_ext_cre by done. cbn. f_equal. lia.
  - apply andb_true_iff in Hm as [Hh Ht].
    destruct (IHh ltac:(done) Hh) as [Sh _], (IHt ltac:(done) Ht) as [_ St].
    unfold sized in Sh. split; cbn [list_len ext_cells]; rewrite Sh, ?St.
    + destruct ((0 <? _) && _) eqn:E.
      * apply andb_true_iff in E as [E _]. apply Z.ltb_lt in E.
        destruct (is_string_spec (Erl_List hd tl) 0 _ eq_refl E ltac:(lia)) as (_ & Hl & _).
        rewrite Hl. unfold ext_str. autorewrite with len. f_equal.
      * autorewrite with len. f_equal.
    + by rewrite len_app.
  - done.
  - unfold ext_binary. autorewrite with len. f_equal.
  - erewrite len_sum_ok.
    + unfold len_add. rewrite len_app. f_equal. f_equal. unfold ext_tuple_header. by destruct (_ <=? _).
    + rewrite forallb_forall in Hm. apply Forall_forall. intros e He.
      rewrite Forall_forall in IHes. match goal with H : Forall ok es |- _ => rewrite Forall_forall in H; specialize (H e He) end.
      apply IHes; [done | done |]. by apply Hm.
  - rewrite !andb_true_iff in Hm. destruct Hm as [[[[[Ma Mc] Mm] Mi] Mu] Mcl].
    repeat match goal with H : is_part ok ?o |- _ => inversion H; clear H; subst end.
    cbn [opt_all] in *.
    destruct (IHc ltac:(done) Mc) as [-> _], (IHm ltac:(done) Mm) as [-> _],
      (IHi ltac:(done) Mi) as [-> _], (IHu ltac:(done) Mu) as [-> _].
    erewrite (len_sum_ok _ (fun o => match o with Some t => ext t | None => [] end)).
    + rewrite Ma. autorewrite with len. f_equal. lia.
    + rewrite forallb_forall in Mcl. apply Forall_forall. intros o Ho.
      match goal with H : Forall (is_part ok) cl |- _ => rewrite Forall_forall in H; specialize (H o Ho); inversion H; subst end.
      rewrite Forall_forall in IHcl. specialize (IHcl _ Ho). cbn [opt_all] in IHcl.
      apply IHcl; [done |]. exact (Mcl (Some _) Ho).
Qed.

(** ** legacy/encode_term.c keeps the contract of ei's encoders *)

Lemma ei_encode_term_ok t :
  ok t -> measured t = true -> Encodes (ei_encode_term sprintf_20e t) (ext t).
Proof.
  intros Ho Hm. destruct (erl_term_len_ok t Ho Hm) as [Hl _]. unfold sized in Hl. split.
  - intros i s Hi Hb. unfold ei_encode_term, erl_term_len. cbn [isnull nonnull negb NULL padd].
    rewrite Hl. cbn [len_add]. apply enc_finish; unfold psub, padd; cbn [off NULL]; lia.
  - intros b i s Hi Hb Hf. unfold ei_encode_term. cbn [isnull nonnull negb padd at_off].
    change (padd (at_off b) i) with (at_off (b + i)).
    erewrite bindM_Some by (by apply (erl_encode_it_ok sprintf_20e t Ho)).
    cbn [Z.eqb negb]. apply enc_finish; unfold psub, at_off; cbn [off]; lia.
Qed.

(** ** What is written is a term of the external format *)

Section Grammar.
Context (sscanf_lf : list Z -> option Z).
Notation etf := (etf sscanf_lf).

Lemma ext_name_atom a : atom_ok a -> atom_ext (ext_name a).
Proof.
  unfold atom_ok, ext_name. destruct (latin1 a) as [l |].
  - intros (Hc%chars_byte & Hl & _). unfold ext_atom_latin1.
    pose proof (len_utf8_of_latin1 l). unfold MAXATOMLEN in Hl.
    apply atom_utf8; [| unfold MAXATOMLEN_UTF8; lia].
    split; [by apply utf8_of_latin1_byte |]. destruct (Z.leb_spec 128 (len l)); lia.
  - destruct (utf8 a) as [u |]; [| done]. intros [Hc%chars_byte Hv].
    by apply ext_atom_utf8_ext.
Qed.

Lemma ext_integer_etf i : is_int32 i -> int_ext i (ext_integer i).
Proof.
  intros Hi. unfold ext_integer. destruct (Z.ltb_spec i 256), (Z.leb_spec 0 i); cbn [andb];
    try (by constructor). rewrite byte_small by is_byte_tac. constructor. is_byte_tac.
Qed.

Lemma le32_bytes l : Forall is_byte (le32 l).
Proof. rewrite le32_le. apply le_bytes_byte. Qed.

Lemma le64_bytes l : le64 l = le_bytes 8 l.
Proof.
  unfold le64. rewrite !le32_le. simpl. rewrite !Z.shiftr_div_pow2 by lia.
  change (2 ^ 32) with 4294967296. rewrite !Z.div_div by lia. done.
Qed.

Lemma ext_small_big_ext sign ds :
  is_byte sign -> Forall is_byte ds -> len ds < 256 ->
  big_ext sign ds (ext_small_big sign ds).
Proof. intros. by apply (big_ext_small sign ds). Qed.

(** The module of a fun is an atom, its creator a pid, its index and uniq are
    integers of a long. *)
Definition fun_typed (c m i u : option ETERM) : bool :=
  match c, m, i, u with
  | Some (Erl_Pid _ _ _ _), Some (Erl_Atom _), Some (Erl_Integer _), Some (Erl_Integer _) => true
  | _, _, _, _ => false
  end.

Fixpoint well_typed (ep : ETERM) : bool :=
  match ep with
  | Erl_List hd tl => well_typed hd && well_typed tl
  | Erl_Tuple es => forallb well_typed es
  | Erl_Function arity _ _ c m i u cl =>
      fun_typed c m i u &&
      forallb (fun o => match o with Some t => well_typed t | None => false end) cl
  | _ => true
  end.

(** Printing a float and reading the text give a number. *)
Definition floats_read : Prop :=
  forall f rest, isfinite f = true -> is_Some (sscanf_lf (sprintf_20e f ++ 0 :: rest)).

Lemma uint_etf u : is_uint32 u -> etf (ext_uint u).
Proof.
  intros Hu. unfold ext_uint. destruct (int32 u <? 0) eqn:E.
  - eapply etf_big, ext_small_big_ext; [is_byte_tac | apply le32_bytes | done].
  - eapply etf_int, ext_integer_etf. pose proof (uint32_int32 u Hu) as Hr.
    apply Z.ltb_ge in E. rewrite <- Hr. rewrite uint32_small; [apply int32_range |].
    pose proof (int32_range u). unfold is_int32, is_uint32 in *. lia.
Qed.

Lemma ll_etf l : etf (ext_ll l).
Proof.
  unfold ext_ll. destruct ((int_max <? l) || (l <? INT_MIN)) eqn:E.
  - rewrite le64_bytes. eapply etf_big, ext_small_big_ext;
      [destruct (l <? 0); is_byte_tac | apply le_bytes_byte | done].
  - eapply etf_int, ext_integer_etf. unfold is_int32, int_max, INT_MIN in *. lia.
Qed.

Lemma ull_etf l : 0 <= l -> etf (ext_ull l).
Proof.
  intros Hl. unfold ext_ull. destruct (int_max <? l) eqn:E.
  - rewrite le64_bytes. eapply etf_big, ext_small_big_ext;
      [is_byte_tac | apply le_bytes_byte | done].
  - eapply etf_int, ext_integer_etf. unfold is_int32, int_max in *. lia.
Qed.

Lemma float_etf f : floats_read -> isfinite f = true -> chars (sprintf_20e f) -> len (sprintf_20e f) <= 30 ->
  etf (ext_float sprintf_20e f).
Proof.
  intros Hr Hf Hc Hl. unfold ext_float.
  apply (etf_float_text _ (sprintf_20e f ++ replicate (31 - length (sprintf_20e f)) 0)).
  - rewrite len_app, length_replicate. lia.
  - intros rest. replace (31 - length (sprintf_20e f))%nat
      with (S (30 - length (sprintf_20e f))) by lia.
    cbn [replicate]. rewrite <- app_assoc. by apply Hr.
Qed.

Lemma pid_etf node n s c : atom_ok node ->
  pid_ext ([if c <=? 3 then ERL_PID_EXT else ERL_NEW_PID_EXT] ++ ext_name node ++
     be32 n ++ be32 s ++ ext_cre c).
Proof.
  intros Hn%ext_name_atom. apply pid_ext_intro; [| done]. unfold ext_cre, pid_tags.
  rewrite !elem_of_cons. by destruct (c <=? 3); [left | right; left].
Qed.

Lemma port_etf node n c : atom_ok node ->
  id_ext ([if c <=? 3 then ERL_PORT_EXT else ERL_NEW_PORT_EXT] ++ ext_name node ++
     be32 n ++ ext_cre c).
Proof.
  intros Hn%ext_name_atom. apply id_ext_port; [| done]. unfold ext_cre, port_tags.
  rewrite !elem_of_cons. by destruct (c <=? 3); [left | right; left].
Qed.

Lemma ref_etf node n c : atom_ok (ref_node_of node) -> len n <= 3 ->
  id_ext (((if c <=? 3 then ERL_NEW_REFERENCE_EXT else ERL_NEWER_REFERENCE_EXT) :: be16 (len n)) ++
     ext_name (ref_node_of node) ++ ext_cre c ++ ext_words n).
Proof.
  intros Hn%ext_name_atom Hl.
  apply (id_ext_ref _ (len n) (if c <=? 3 then 1 else 4)); [| lia | | done].
  - unfold ref_tags. rewrite !elem_of_cons. by destruct (c <=? 3); [left | right; left].
  - rewrite len_app, len_ext_words. unfold ext_cre. destruct (c <=? 3); cbn -[Z.mul]; lia.
Qed.

Definition cells_etf (ep : ETERM) : Prop :=
  exists ts tl, ext_cells ext ep = concat ts ++ tl /\ Forall etf ts /\ etf tl /\
    len ts = erl_length_x ep.

Lemma room_int_max n : room_for n = true -> 0 <= n <= int_max.
Proof. unfold room_for, int_max. lia. Qed.

Lemma part_etf P o : (forall t, P t -> etf (ext t)) -> is_part P o ->
  etf (match o with Some t => ext t | None => [] end).
Proof. intros HP [t Ht]. by apply HP. Qed.

Lemma fun_etf ar md5 ni c m i u cl :
  ok (Erl_Function ar md5 ni c m i u cl) -> fun_typed c m i u = true ->
  len (ext (Erl_Function ar md5 ni c m i u cl)) <= int_max ->
  Forall (fun o => etf (match o with Some t => ext t | None => [] end)) cl ->
  etf (ext (Erl_Function ar md5 ni c m i u cl)).
Proof.
  intros Hok Ht Hl Hcl. inversion_clear Hok as [| | | | | | | | | | | | |
    ? ? ? ? ? ? ? ? Hm Hc Hmo Hi Hu _ Hr%room_int_max].
  unfold fun_typed in Ht. destruct Hc as [c Hc], Hmo as [m Hmo], Hi as [i Hi], Hu as [u Hu].
  destruct c; try done. destruct m; try done. destruct i; try done. destruct u; try done.
  inversion_clear Hc. inversion_clear Hmo. inversion_clear Hi. inversion_clear Hu.
  cbn [ext_eterm] in *. set (parts := (fun o => _) <$> cl) in *.
  assert (Hp : Forall etf parts) by (apply Forall_fmap; exact Hcl).
  destruct Hm as [(-> & _ & _) | (Hb & Hmd & H16 & Hn)].
  - cbn [Z.eqb Pos.eqb] in *. replace (len cl) with (len parts) by (unfold parts; by rewrite length_fmap).
    apply etf_old_fun; [by apply pid_etf | by apply ext_name_atom | | | done |].
    1, 2: by eapply long_ext_int, ext_integer_etf.
    unfold parts. rewrite length_fmap. lia.
  - rewrite (proj2 (Z.eqb_neq ar (-1))) in * by (unfold is_byte in Hb; lia).
    rewrite byte_small in * by done.
    eapply (etf_new_fun _ ar md5 ni (len cl)); try done.
    + by apply ext_name_atom.
    + by eapply long_ext_int, ext_integer_etf.
    + by eapply long_ext_int, ext_integer_etf.
    + by apply pid_etf.
    + revert Hl. rewrite len_app, len_cons, len_be32. lia.
    + autorewrite with len. lia.
Qed.

Hypothesis (Hread : floats_read).

Lemma concat_le {A} (f : A -> list Z) x l : In x l -> len (f x) <= len (concat (f <$> l)).
Proof.
  induction l as [| y l IH]; [done |]. cbn [In fmap list_fmap concat]. rewrite len_app.
  intros [-> | Hx]; [lia |]. apply IH in Hx. lia.
Qed.

(** Of a term whose bytes, alone or behind a header, fit in an [int]. *)
Definition etf_both (ep : ETERM) : Prop :=
  (len (ext ep) <= int_max -> etf (ext ep)) /\
  (len (ext_cells ext ep) <= int_max -> cells_etf ep).

Lemma list_etf_both hd tl :
  erl_length_x (Erl_List hd tl) <= int_max -> etf_both hd -> etf_both tl ->
  etf_both (Erl_List hd tl).
Proof.
  intros Hx [Hh _] [_ Ht].
  assert (Hc : len (ext_cells ext (Erl_List hd tl)) <= int_max -> cells_etf (Erl_List hd tl)).
  { cbn [ext_cells]. rewrite len_app. intros Hl. destruct Ht as (ts & e & He & Hts & Hte & Hn); [lia |].
    exists (ext hd :: ts), e. cbn [ext_cells concat erl_length_x]. rewrite He, <- app_assoc, len_cons, Hn.
    split; [done |]. split; [| done]. constructor; [| done]. apply Hh. lia. }
  split; [| exact Hc]. cbn [ext_eterm]. destruct ((0 <? _) && _) eqn:E.
  - intros _. apply andb_true_iff in E as [E1 E2]. apply Z.ltb_lt in E1, E2.
    destruct (is_string_spec (Erl_List hd tl) 0 _ eq_refl E1 ltac:(lia)) as (Hs & _ & _).
    unfold ext_str. rewrite (Hs : is_string _ = _), Z.add_0_l. apply etf_string. unfold is_string in E2. lia.
  - intros Hl. destruct Hc as (ts & e & He & Hts & Hte & Hn).
    { cbn [ext_cells]. revert Hl. rewrite !len_app. lia. }
    cbn [ext_cells] in He. rewrite He, <- Hn. apply etf_list; [done | done | lia].
Qed.

Lemma ext_eterm_etf_both ep : ok ep -> well_typed ep = true -> etf_both ep.
Proof.
  induction ep as [i | u | l | l | f | d | d n s c | d n c | d n c | hd tl IHh IHt | | b | es IHes | |
    ar md5 ni c m i u cl IHc IHm IHi IHu IHcl] using ETERM_rec_all; intros Hok Hw;
    inversion Hok; subst;
    try (match goal with |- etf_both ?e =>
      cut (len (ext e) <= int_max -> etf (ext e));
      [intros Hx; split; [exact Hx | intros Hl; exists [], (ext e); by split; [| split; [| split; [apply Hx |]]]] |] end);
    cbn [ext_eterm well_typed] in *; try intros Hl.
  - by eapply etf_int, ext_integer_etf.
  - by apply uint_etf.
  - apply ll_etf.
  - apply ull_etf. unfold is_uint64 in *. lia.
  - by apply float_etf.
  - by apply etf_atom, ext_name_atom.
  - by apply etf_id, id_ext_pid, pid_etf.
  - by apply etf_id, port_etf.
  - by apply etf_id, ref_etf; [apply ref_node_ok |].
  - apply andb_true_iff in Hw as [Hwh Hwt]. apply list_etf_both; auto.
  - apply etf_nil.
  - by apply ext_binary_etf.
  - rewrite <- (length_fmap ext es). apply ext_tuple_etf.
    + apply Forall_fmap, Forall_forall. intros e He. rewrite Forall_forall in IHes.
      match goal with H : Forall ok es |- _ => rewrite Forall_forall in H; specialize (H e He) end.
      rewrite forallb_forall in Hw. apply IHes; [done | done | by apply Hw |].
      apply (concat_le ext) in He. rewrite len_app in Hl. lia.
    + rewrite length_fmap. match goal with H : room_for _ = true |- _ => apply room_int_max in H end. lia.
  - apply andb_true_iff in Hw as [Hwf Hwc]. apply fun_etf; [done | done | done |].
    apply Forall_forall. intros o Ho. rewrite forallb_forall in Hwc. specialize (Hwc o Ho).
    match goal with H : Forall (is_part ok) cl |- _ =>
      rewrite Forall_forall in H; specialize (H o Ho); destruct H as [t Ht] end.
    rewrite Forall_forall in IHcl. apply (IHcl (Some t) Ho); [done | done |].
    apply (concat_le (fun o => match o with Some t => ext t | None => [] end)) in Ho.
    revert Hl. destruct (ar =? -1); rewrite !len_app; lia.
Qed.

Lemma ext_eterm_etf ep : ok ep -> well_typed ep = true -> len (ext ep) <= int_max ->
  etf (ext ep).
Proof. intros Ho Hw. by apply ext_eterm_etf_both. Qed.
End Grammar.
End Len.
