(* ===== verification/MarshalRead.v ===== *)
(** * Decoding what was encoded

    [sent] is the term that comes out of [erl_decode_it] when a term has been
    encoded: integers in the smallest of their types, names as UTF-8, numbers of
    pids, ports and references with the bits that are kept. *)

From S2P Require Import Prelude Mem PutGet Ext Headers Ints Atom Data Ids Big Term Skip XBuff Eterm Marshal MarshalOk MarshalLen.

(** ** What arrives *)

Definition sent_name (a : Erl_Atom_data) : Erl_Atom_data :=
  let u := text_of a in
  AtomData (Some u) (if verify_ascii_atom u then Some u else None).

Fixpoint sent (r9 : bool) (ep : ETERM) : ETERM :=
  match ep with
  | Erl_Uinteger u => if int32 u <? 0 then Erl_Uinteger u else Erl_Integer u
  | Erl_LLInteger l =>
      if (int_max <? l) || (l <? INT_MIN) then Erl_LLInteger l else Erl_Integer l
  | Erl_ULLInteger ul =>
      if 2 ^ 63 <=? ul then Erl_ULLInteger ul
      else if int_max <? ul then Erl_LLInteger ul else Erl_Integer ul
  | Erl_Atom d => Erl_Atom (sent_name d)
  | Erl_Pid node n s c => erl_mk_pid_helper r9 (sent_name node) n s c
  | Erl_Port node n c => erl_mk_port_helper r9 (sent_name node) n c
  | Erl_Ref node n c => mk_reference (sent_name (ref_node_of node)) n c
  | Erl_List hd tl => Erl_List (sent r9 hd) (sent r9 tl)
  | Erl_Tuple es => Erl_Tuple (sent r9 <$> es)
  | Erl_Function ar md5 ni c m i u cl =>
      let part (o : option ETERM) : option ETERM :=
        match o with Some t => Some (sent r9 t) | None => None end in
      Erl_Function ar md5 ni (part c) (part m) (part i) (part u) (part <$> cl)
  | _ => ep
  end.

(** ** Names *)

Lemma utf8_of_chars l : chars l -> chars (utf8_of_latin1 l).
Proof.
  induction 1 as [| c l Hc _ IH]; [constructor |].
  change (utf8_of_latin1 (c :: l)) with (utf8_of c ++ utf8_of_latin1 l).
  apply Forall_app. split; [| done].
  pose proof (byte_forall (fun c => (c =? 0) ||
    forallb (fun x => (0 <? x) && (x <? 256)) (utf8_of c)) eq_refl c
    ltac:(unfold is_byte; lia)) as Ht. cbn beta in Ht. rewrite (proj2 (Z.eqb_neq c 0)) in Ht by lia. cbn [orb] in Ht.
  rewrite forallb_forall in Ht. apply Forall_forall. intros x Hx. specialize (Ht x Hx). lia.
Qed.

Lemma text_chars a : atom_ok a -> chars (text_of a).
Proof.
  unfold atom_ok, text_of. destruct (latin1 a) as [l |].
  - intros (Hc & _). by apply utf8_of_chars.
  - destruct (utf8 a) as [u |]; [| done]. by intros [Hc _].
Qed.

Lemma c_str_of_chars l : chars l -> c_str l = l.
Proof.
  induction 1 as [| c l Hc _ IH]; [done |]. cbn [c_str].
  rewrite (proj2 (Z.eqb_neq c 0)) by lia. by rewrite IH.
Qed.

Lemma ext_name_text a : atom_ok a ->
  exists long, ext_name a = ext_atom long (text_of a) /\ atom_fits long (text_of a) /\
    len (text_of a) < MAXATOMLEN_UTF8.
Proof.
  intros Ha. pose proof (chars_byte _ (text_chars a Ha)) as Hb. revert Ha Hb.
  unfold atom_ok, text_of, ext_name, atom_fits. destruct (latin1 a) as [l |].
  - intros (_ & Hl & _) Hb. exists (128 <=? len l). pose proof (len_utf8_of_latin1 l).
    unfold MAXATOMLEN, MAXATOMLEN_UTF8 in *. split; [done |]. split; [split; [done |] | lia].
    destruct (Z.leb_spec 128 (len l)); lia.
  - destruct (utf8 a) as [u |]; [| done]. change (default [] (Some u)) with u.
    intros [_ Hv] Hb. exists (256 <=? len u). apply utf8_len_max in Hv.
    split; [done |]. split; [split; [done |] | done]. unfold MAXATOMLEN_UTF8 in Hv.
    destruct (Z.leb_spec 256 (len u)); lia.
Qed.

Lemma read_atom_ok a o s :
  atom_ok a -> at_ s o (ext_name a) ->
  read_atom o s = Some (Some (sent_name a), o + len (ext_name a)).
Proof.
  intros Ha Hat. destruct (ext_name_text a Ha) as (long & He & Hf & Hl).
  pose proof (len_ext_name_max a Ha) as Hm. rewrite He in *.
  unfold read_atom. erewrite bindD_Some;
    [| apply (decode_atom_utf8 long); [done | done | lia | lia | by rewrite Z.add_0_r]].
  rewrite (proj2 (Z.ltb_lt _ _)) by lia. rewrite Z.add_0_l.
  cbn [at_res at_text]. unfold res_of, retD, sent_name. rewrite (c_str_of_chars _ (text_chars a Ha)).
  by destruct (verify_ascii_atom (text_of a)).
Qed.

(** ** Numbers *)

Lemma get_uint_at s o n : is_uint32 n -> at_ s o (be32 n) -> get_uint o s = Some (n, o + 4).
Proof.
  intros Hn Ha. unfold get_uint. erewrite bindD_Some by (by apply get32be_at).
  unfold retD. by rewrite uint32_int32.
Qed.

Lemma get_creation_at s o c : is_uint32 c -> at_ s o (ext_cre c) ->
  get_creation (c <=? 3) o s = Some (c, o + len (ext_cre c)).
Proof.
  unfold ext_cre, get_creation. intros Hc Ha. destruct (Z.leb_spec c 3).
  - unfold is_uint32 in Hc. rewrite byte_small in * by (unfold is_byte; lia).
    rewrite (get8_at s o c) by (done || (unfold is_byte; lia)). done.
  - by apply get_uint_at.
Qed.

Lemma get_numbers_at ws : forall s o, Forall is_uint32 ws -> at_ s o (ext_words ws) ->
  get_numbers (length ws) o s = Some (ws, o + len (ext_words ws)).
Proof.
  induction ws as [| w ws IH]; intros s o Hw Ha.
  - cbn. by rewrite Z.add_0_r.
  - inversion_clear Hw. change (ext_words (w :: ws)) with (be32 w ++ ext_words ws) in *.
    apply at_app in Ha as [Ha1 Ha2]. cbn [length get_numbers].
    erewrite bindD_Some by (by apply get_uint_at). cbv beta iota.
    erewrite bindD_Some by (by apply IH). unfold retD. rewrite len_app, len_be32.
    do 2 f_equal. lia.
Qed.

Lemma top_bit b : is_byte b -> negb (Z.land b 0x80 =? 0) = (128 <=? b).
Proof.
  intros Hb. apply (byte_forall (fun b => Bool.eqb (negb (Z.land b 0x80 =? 0)) (128 <=? b))) in Hb;
    [| done]. by apply Bool.eqb_prop.
Qed.

Lemma le_val_le32 u : is_uint32 u -> le_val (le32 u) = u.
Proof. intros Hu. rewrite le32_le, le_val_bytes. by apply Z.mod_small. Qed.

Lemma big_value_uint u : is_uint32 u -> (int32 u <? 0) = true ->
  big_value 4 0 (le32 u) = Erl_Uinteger u.
Proof.
  intros Hu Hn. unfold big_value. rewrite le_val_le32 by done. cbn [Z.ltb Z.compare Z.eqb Pos.eqb].
  change (nth 3 (le32 u) 0) with (byte (Z.shiftr u 24)). rewrite top_bit by apply byte_range.
  rewrite Z.shiftr_div_pow2 by lia. change (2 ^ 24) with 16777216.
  unfold is_uint32 in Hu. rewrite byte_small by (unfold is_byte; dlia).
  apply Z.ltb_lt in Hn. unfold int32, swrap in Hn. change (2 ^ (32 - 1)) with 2147483648 in Hn.
  change (2 ^ 32) with 4294967296 in Hn.
  rewrite (proj2 (Z.leb_le 128 (u / 16777216))) by dlia. done.
Qed.

Lemma le_val_le64 v : 0 <= v < 2 ^ 64 -> le_val (le64 v) = v.
Proof. intros Hv. rewrite le64_bytes, le_val_bytes. by apply Z.mod_small. Qed.

Lemma big_value_64 v sign : 0 <= v < 2 ^ 64 -> (sign =? 0) = true \/ v < 2 ^ 63 ->
  big_value 8 sign (le64 v)
  = if 2 ^ 63 <=? v then Erl_ULLInteger v
    else Erl_LLInteger (if sign =? 0 then v else - v).
Proof.
  intros Hv Hs. unfold big_value. rewrite le_val_le64 by done. cbn [Z.ltb Z.compare Z.eqb Pos.eqb andb].
  assert (H7 : nth 7 (le64 v) 0 = v / 72057594037927936).
  { change (nth 7 (le64 v) 0) with (byte (Z.shiftr (Z.shiftr v 32) 24)).
    rewrite Z.shiftr_shiftr, Z.shiftr_div_pow2 by lia. change (2 ^ (32 + 24)) with 72057594037927936.
    change (2 ^ 64) with 18446744073709551616 in Hv. apply byte_small. unfold is_byte. dlia. }
  change (2 ^ 64) with 18446744073709551616 in Hv. change (2 ^ 63) with 9223372036854775808 in *.
  rewrite H7, top_bit by (unfold is_byte; dlia).
  destruct (Z.leb_spec 9223372036854775808 v) as [Hb | Hb].
  - rewrite (proj2 (Z.leb_le 128 (v / 72057594037927936))) by dlia.
    destruct Hs as [-> | ?]; [done | lia].
  - rewrite (proj2 (Z.leb_gt 128 (v / 72057594037927936))) by dlia. cbn [andb].
    rewrite int64_small by (unfold is_int64; lia).
    rewrite (proj2 (Z.eqb_neq v 9223372036854775808)) by lia.
    destruct (sign =? 0); cbn [negb andb]; [done |]. by rewrite (proj2 (Z.ltb_ge 0 (- v))) by lia.
Qed.

(** ** The decoder *)

Section Main.
Context (sprintf_20e : Z -> list Z) (sscanf_lf : list Z -> option Z) (r9 : bool).
Notation ext := (ext_eterm sprintf_20e).
Notation ok := (eterm_ok sprintf_20e).
Notation dec := (erl_decode_it sscanf_lf r9).

(** Scanning what was printed gives the number. *)
Definition floats_back : Prop :=
  forall f rest, isfinite f = true -> sscanf_lf (sprintf_20e f ++ 0 :: rest) = Some f.

Definition Reads (bs : list Z) (t : ETERM) : Prop :=
  forall fuel o s, (length bs <= fuel)%nat -> at_ s o bs ->
    dec fuel o s = Some (Some t, o + len bs).

Lemma dec_tag (tag : Z) bs fuel o s : (length (tag :: bs) <= fuel)%nat -> at_ s o (tag :: bs) ->
  exists fuel', fuel = S fuel' /\ (length bs <= fuel')%nat /\ load o s = Some tag /\
    at_ s (o + 1) bs.
Proof.
  intros Hf Ha. destruct fuel as [| fuel]; [cbn in Hf; lia |]. exists fuel.
  apply at_cons in Ha as [Ht Ha]. split; [done |]. split; [cbn in Hf; lia |].
  split; [by apply load_at | done].
Qed.

Ltac dec_start :=
  let fuel := fresh "fuel" in let o := fresh "o" in let s := fresh "s" in
  let Hf := fresh "Hf" in let Ha := fresh "Ha" in let Hld := fresh "Hld" in
  intros fuel o s Hf Ha; cbn [app] in Hf, Ha;
  apply (dec_tag _ _ _ _ _ Hf) in Ha as (? & -> & ? & Hld & Ha);
  cbn [erl_decode_it]; erewrite bindD_Some by exact Hld; cbv zeta beta; clear Hld Hf; ctests.

Lemma integer_reads i : is_int32 i -> Reads (ext_integer i) (Erl_Integer i).
Proof.
  intros Hi. unfold ext_integer. destruct ((i <? 256) && (0 <=? i)) eqn:E; dec_start.
  - rewrite byte_small in * by (unfold is_byte; lia).
    erewrite bindD_Some by (apply (get8_at _ _ i); [unfold is_byte; lia | exact Ha]).
    unfold retD. cbn [length]. do 2 f_equal. lia.
  - erewrite bindD_Some by (by apply get32be_at). cbv beta iota. unfold retD.
    rewrite int32_small by done. rewrite len_cons, len_be32. do 2 f_equal. lia.
Qed.

Lemma small_big_reads sign ds v :
  is_byte sign -> len ds <= 8 -> big_value (len ds) sign ds = v ->
  Reads (ext_small_big sign ds) v.
Proof.
  intros Hs Hd Hv. unfold ext_small_big. dec_start.
  apply at_cons in Ha as [Ha0 Ha]. apply at_cons in Ha as [Ha1 Ha].
  erewrite bindD_Some by (apply (get8_at _ _ (len ds)); [unfold is_byte; lia | exact Ha0]). cbv beta iota.
  unfold decode_big. erewrite bindD_Some by (apply (get8_at _ _ sign); [done | exact Ha1]). cbv beta iota.
  rewrite (proj2 (Z.leb_le _ 8)), Z.max_r by lia.
  erewrite bindD_Some by (by apply load_bytes_at). unfold retD. rewrite Hv.
  cbn [app length]. do 2 f_equal. lia.
Qed.

Lemma uint_reads u : is_uint32 u ->
  Reads (ext_uint u) (if int32 u <? 0 then Erl_Uinteger u else Erl_Integer u).
Proof.
  intros Hu. unfold ext_uint. destruct (int32 u <? 0) eqn:E.
  - apply small_big_reads; [is_byte_tac | done | by apply big_value_uint].
  - apply integer_reads. pose proof (uint32_int32 u Hu) as Hr. apply Z.ltb_ge in E.
    rewrite <- Hr. pose proof (int32_range u). unfold is_int32 in *.
    rewrite uint32_small; unfold is_uint32; lia.
Qed.

Lemma ll_reads l : is_int64 l -> l <> - 2 ^ 63 ->
  Reads (ext_ll l)
    (if (int_max <? l) || (l <? INT_MIN) then Erl_LLInteger l else Erl_Integer l).
Proof.
  intros Hl Hm. unfold ext_ll, is_int64 in *. change (2 ^ 63) with 9223372036854775808 in Hm.
  destruct ((int_max <? l) || (l <? INT_MIN)) eqn:E.
  - apply small_big_reads; [destruct (l <? 0); is_byte_tac | done |].
    change (len (le64 _)) with 8.
    destruct (Z.ltb_spec l 0); rewrite big_value_64 by (change (2 ^ 64) with 18446744073709551616; change (2 ^ 63) with 9223372036854775808; lia);
      rewrite (proj2 (Z.leb_gt _ _)) by (change (2 ^ 63) with 9223372036854775808; lia);
      cbn [Z.eqb]; f_equal; lia.
  - apply integer_reads. unfold is_int32, int_max, INT_MIN in *. lia.
Qed.

Lemma ull_reads l : is_uint64 l ->
  Reads (ext_ull l)
    (if 2 ^ 63 <=? l then Erl_ULLInteger l
     else if int_max <? l then Erl_LLInteger l else Erl_Integer l).
Proof.
  intros Hl. unfold ext_ull, is_uint64 in *. destruct (int_max <? l) eqn:E.
  - apply small_big_reads; [is_byte_tac | done |]. change (len (le64 _)) with 8.
    rewrite big_value_64 by (change (2 ^ 64) with 18446744073709551616; auto with lia). done.
  - unfold int_max in E. rewrite (proj2 (Z.leb_gt (2 ^ 63) l)) by (change (2 ^ 63) with 9223372036854775808; lia).
    apply integer_reads. unfold is_int32. lia.
Qed.

Lemma float_reads f : floats_back -> isfinite f = true -> chars (sprintf_20e f) -> len (sprintf_20e f) <= 30 ->
  Reads (ext_float sprintf_20e f) (Erl_Float f).
Proof.
  intros Hb Hfin Hc Hl. unfold ext_float. set (txt := sprintf_20e f) in *.
  replace (31 - length txt)%nat with (S (30 - length txt)) by lia. cbn [replicate].
  intros fuel o s Hf Ha. pose proof Ha as Ha'.
  apply (dec_tag _ _ _ _ _ Hf) in Ha as (f' & -> & _ & Hld & Ha).
  cbn [erl_decode_it]. erewrite bindD_Some by exact Hld. cbv zeta beta. ctests.
  unfold decode_float, ei_decode_double. replace (o + 1 + -1) with o by lia.
  rewrite bindD_assoc. erewrite bindD_Some by
    (apply (get8_at _ _ ERL_FLOAT_EXT); [is_byte_tac | exact (proj1 (proj1 (at_cons _ _ _ _) Ha'))]).
  cbv beta iota. ctests. destruct Ha as [Ho (pre & post & -> & Hp)].
  assert (Hd : drop (Z.to_nat (o + 1)) (pre ++ (txt ++ 0 :: replicate (30 - length txt) 0) ++ post)
    = txt ++ 0 :: replicate (30 - length txt) 0 ++ post).
  { rewrite <- Hp, Nat2Z.id, drop_app_length, <- app_assoc. done. }
  unfold bindD at 1 2. rewrite Hd. unfold txt. rewrite Hb by done. unfold retD, out. cbv beta iota.
  unfold index_add. rewrite int32_small by (unfold is_int32; lia).
  cbn [length]. rewrite length_app. cbn [length]. rewrite length_replicate. do 2 f_equal. unfold txt in *. lia.
Qed.

Lemma atom_reads d : atom_ok d -> Reads (ext_name d) (Erl_Atom (sent_name d)).
Proof.
  intros Hd fuel o s Hf Ha. pose proof (read_atom_ok d o s Hd Ha) as Hr.
  destruct (ext_name_text d Hd) as (long & He & _ & _). rewrite He in Hf, Ha.
  rewrite ext_atom_header in Hf, Ha. destruct fuel as [| fuel]; [destruct long; cbn in Hf; lia |].
  cbn [erl_decode_it]. destruct long; cbn [atom_header Z.eqb Pos.eqb app] in Ha;
    apply at_cons in Ha as [Ht _]; erewrite bindD_Some by (by apply load_at); cbv zeta beta; ctests;
    replace (o + 1 - 1) with o by lia; by erewrite bindD_Some by exact Hr.
Qed.

Ltac name_read Hn :=
  match goal with
  | |- bindD (read_atom ?o) ?k ?s = _ =>
      erewrite (bindD_Some (read_atom o) k s) by (apply read_atom_ok; [exact Hn | at_tac])
  end; cbv beta iota.
Ltac uint_read :=
  match goal with
  | |- bindD (get_uint ?o) ?k ?s = _ =>
      erewrite (bindD_Some (get_uint o) k s) by (eapply get_uint_at; [| at_tac]; assumption)
  end; cbv beta iota.

Lemma creation_step {A} short long c o s (k : Z * Z -> D A) :
  is_uint32 c -> short <> long -> at_ s o (ext_cre c) ->
  bindD (get_creation ((if c <=? 3 then short else long) =? short) o) k s
  = k (c, o + len (ext_cre c)) s.
Proof.
  intros Hc Hne Ha. pose proof (get_creation_at s o c Hc Ha) as Hg.
  erewrite bindD_Some; [done |]. rewrite <- Hg. destruct (c <=? 3).
  - by rewrite Z.eqb_refl.
  - by rewrite (proj2 (Z.eqb_neq long short)).
Qed.

Lemma pid_reads node n s c : atom_ok node -> is_uint32 n -> is_uint32 s -> is_uint32 c ->
  Reads (ext (Erl_Pid node n s c)) (erl_mk_pid_helper r9 (sent_name node) n s c).
Proof.
  intros Hn H1 H2 H3. cbn [ext_eterm]. intros fuel o b Hf Ha.
  apply (dec_tag _ _ _ _ _ Hf) in Ha as (f' & -> & _ & Hld & Ha).
  cbn [erl_decode_it]. erewrite bindD_Some by exact Hld. cbv zeta beta.
  repeat (apply at_app in Ha as [? Ha]).
  assert (Hd : decode_pid r9 (if c <=? 3 then ERL_PID_EXT else ERL_NEW_PID_EXT) (o + 1) b
    = Some (Some (erl_mk_pid_helper r9 (sent_name node) n s c),
        o + 1 + len (ext_name node) + 4 + 4 + len (ext_cre c))).
  { unfold decode_pid. name_read Hn. uint_read. uint_read.
    rewrite (creation_step ERL_PID_EXT ERL_NEW_PID_EXT c _ b) by first [assumption | discriminate | at_tac]. done. }
  destruct (c <=? 3) eqn:E; ctests; rewrite Hd; cbn [app]; autorewrite with len; do 2 f_equal; lia.
Qed.

Lemma port_reads node n c : atom_ok node -> is_uint32 n -> is_uint32 c ->
  Reads (ext (Erl_Port node n c)) (erl_mk_port_helper r9 (sent_name node) n c).
Proof.
  intros Hn H1 H3. cbn [ext_eterm]. intros fuel o b Hf Ha.
  apply (dec_tag _ _ _ _ _ Hf) in Ha as (f' & -> & _ & Hld & Ha).
  cbn [erl_decode_it]. erewrite bindD_Some by exact Hld. cbv zeta beta.
  repeat (apply at_app in Ha as [? Ha]).
  assert (Hd : decode_port r9 (if c <=? 3 then ERL_PORT_EXT else ERL_NEW_PORT_EXT) (o + 1) b
    = Some (Some (erl_mk_port_helper r9 (sent_name node) n c),
        o + 1 + len (ext_name node) + 4 + len (ext_cre c))).
  { unfold decode_port. name_read Hn. uint_read.
    rewrite (creation_step ERL_PORT_EXT ERL_NEW_PORT_EXT c _ b) by first [assumption | discriminate | at_tac]. done. }
  destruct (c <=? 3) eqn:E; ctests; rewrite Hd; cbn [app]; autorewrite with len; do 2 f_equal; lia.
Qed.

Lemma ref_reads node n c :
  atom_ok (ref_node_of node) -> len n <= 3 -> Forall is_uint32 n -> is_uint32 c ->
  Reads (ext (Erl_Ref node n c)) (mk_reference (sent_name (ref_node_of node)) n c).
Proof.
  intros Hn H1 H2 H3. cbn [ext_eterm]. intros fuel o b Hf Ha. cbn [app] in Hf, Ha.
  apply (dec_tag _ _ _ _ _ Hf) in Ha as (f' & -> & _ & Hld & Ha).
  cbn [erl_decode_it]. erewrite bindD_Some by exact Hld. cbv zeta beta.
  repeat (apply at_app in Ha as [? Ha]).
  assert (Hd : decode_ref (if c <=? 3 then ERL_NEW_REFERENCE_EXT else ERL_NEWER_REFERENCE_EXT) (o + 1) b
    = Some (Some (mk_reference (sent_name (ref_node_of node)) n c),
        o + 1 + 2 + len (ext_name (ref_node_of node)) + len (ext_cre c) + len (ext_words n))).
  { unfold decode_ref. erewrite bindD_Some by (apply get16be_at; at_tac). cbv beta iota. name_read Hn.
    rewrite (creation_step ERL_NEW_REFERENCE_EXT ERL_NEWER_REFERENCE_EXT c _ b) by first [assumption | discriminate | at_tac].
    cbv beta iota. rewrite Z.mod_small, (proj2 (Z.ltb_ge 3 (len n))), Nat2Z.id by lia.
    erewrite bindD_Some by (apply get_numbers_at; [done | at_tac]). done. }
  destruct (c <=? 3) eqn:E; ctests; rewrite Hd; autorewrite with len; do 2 f_equal; lia.
Qed.

Lemma string_list_chars ep : ok ep -> forall k, 0 < is_string_loop ep k -> 0 <= k ->
  string_list (string_chars ep) Erl_EmptyList = sent r9 ep.
Proof.
  induction ep as [| | | | | | | | | hd tl _ IH | | | | |] using ETERM_rec_all;
    intros Hok q; cbn [is_string_loop]; try lia; [| done].
  destruct hd as [i | | | | | | | | | | | | | |]; try lia.
  destruct (Z.ltb_spec 255 (uint32 i)) as [| Hi]; [lia |]. intros Hp Hk.
  inversion_clear Hok as [| | | | | | | | | | ? ? Hh Ht _ | | |]. inversion_clear Hh.
  cbn [string_chars string_list fold_right sent].
  assert (is_byte i).
  { unfold is_int32, is_byte, uint32, uwrap in *. change (2 ^ 32) with 4294967296 in Hi. dlia. }
  rewrite byte_small by done. f_equal. apply (IH Ht (q + 1)); lia.
Qed.

Lemma string_chars_byte ep : Forall is_byte (string_chars ep).
Proof.
  induction ep as [| | | | | | | | | hd tl _ IH | | | | |] using ETERM_rec_all;
    cbn [string_chars]; try constructor.
  destruct hd; constructor; auto using byte_range.
Qed.

Lemma string_reads hd tl :
  ok (Erl_List hd tl) -> 0 < is_string (Erl_List hd tl) < 65536 ->
  Reads (ext_str (Erl_List hd tl)) (sent r9 (Erl_List hd tl)).
Proof.
  intros Hok Hs. destruct (is_string_spec (Erl_List hd tl) 0 _ eq_refl (proj1 Hs) ltac:(lia)) as (Hn & _ & _).
  rewrite <- (string_list_chars _ Hok 0) by (unfold is_string in Hs; lia).
  unfold ext_str. rewrite (Hn : is_string _ = _) in *. set (cs := string_chars _) in *. rewrite Z.add_0_l in *.
  dec_start. apply at_app in Ha as [Ha0 Ha]. unfold decode_string.
  erewrite bindD_Some by (by apply get16be_at). cbv beta iota. rewrite Z.mod_small by lia.
  erewrite bindD_Some by (apply load_bytes_at; exact Ha). unfold retD.
  cbn [app]. autorewrite with len. do 2 f_equal. lia.
Qed.

Lemma binary_reads b : len b <= int_max -> Reads (ext_binary b) (Erl_Binary b).
Proof.
  intros Hl. unfold ext_binary. dec_start. apply at_app in Ha as [Ha0 Ha]. unfold decode_binary.
  erewrite bindD_Some by (by apply get32be_at). cbv beta iota.
  rewrite int32_small by (unfold is_int32, int_max in *; lia).
  erewrite bindD_Some by (apply load_bytes_at; exact Ha). unfold retD.
  cbn [app]. autorewrite with len. do 2 f_equal. lia.
Qed.

Lemma decode_elems_ok es : Forall (fun e => Reads (ext e) (sent r9 e)) es ->
  forall fuel o s, (length (concat (ext <$> es)) <= fuel)%nat -> at_ s o (concat (ext <$> es)) ->
  decode_elems (dec fuel) (length es) o s
  = Some (Some (sent r9 <$> es), o + len (concat (ext <$> es))).
Proof.
  induction 1 as [| e es He _ IH]; intros fuel o s Hf Ha.
  - cbn. by rewrite Z.add_0_r.
  - cbn [fmap list_fmap concat] in Hf, Ha. apply at_app in Ha as [Ha0 Ha].
    rewrite length_app in Hf. cbn [length decode_elems].
    erewrite bindD_Some by (apply He; [lia | exact Ha0]). cbv beta iota.
    erewrite bindD_Some by (apply IH; [unfold fmap in *; lia | exact Ha]). unfold retD.
    cbn [fmap list_fmap concat]. rewrite len_app. do 2 f_equal. unfold fmap. lia.
Qed.

Lemma part_read o f q s t (Q : option ETERM * Z -> D (option ETERM * Z)) r :
  Reads (ext t) (sent r9 t) -> o = Some t -> (length (ext t) <= f)%nat -> at_ s q (ext t) ->
  Q (Some (sent r9 t), q + len (ext t)) s = r -> bindD (dec f q) Q s = r.
Proof. intros Hr _ Hf Ha HQ. by erewrite bindD_Some by (by apply Hr). Qed.

Lemma decode_closure_ok cl : Forall (is_part (fun e => Reads (ext e) (sent r9 e))) cl ->
  forall fuel o s,
  let bytes := concat ((fun o => match o with Some t => ext t | None => [] end) <$> cl) in
  (length bytes <= fuel)%nat -> at_ s o bytes ->
  decode_closure (dec fuel) (length cl) o s
  = Some ((fun o => match o with Some t => Some (sent r9 t) | None => None end) <$> cl,
      o + len bytes).
Proof.
  induction 1 as [| e es He _ IH]; intros fuel o s bytes Hf Ha; unfold bytes in *.
  - cbn. by rewrite Z.add_0_r.
  - destruct He as [t Ht]. cbn [fmap list_fmap concat] in Hf, Ha |- *. apply at_app in Ha as [Ha0 Ha].
    rewrite length_app in Hf. cbn [length decode_closure].
    erewrite bindD_Some by (apply Ht; [lia | exact Ha0]). cbv beta iota.
    erewrite bindD_Some by (apply IH; [unfold fmap in *; lia | exact Ha]). unfold retD.
    rewrite len_app. do 2 f_equal. unfold fmap. lia.
Qed.

Lemma tuple_reads es :
  room_for (len es + 1) = true -> Forall (fun e => Reads (ext e) (sent r9 e)) es ->
  Reads (ext (Erl_Tuple es)) (sent r9 (Erl_Tuple es)).
Proof.
  intros Hr Hes. pose proof (room_int_max _ Hr) as Hm. cbn [ext_eterm sent]. unfold ext_tuple_header.
  assert (Hd : forall fuel o s, (length (concat (ext <$> es)) <= fuel)%nat ->
    at_ s o (concat (ext <$> es)) -> decode_tuple (dec fuel) (len es) o s
      = Some (Some (Erl_Tuple (sent r9 <$> es)), o + len (concat (ext <$> es)))).
  { intros fuel o s Hf Ha. unfold decode_tuple. rewrite Hr, (proj2 (Z.leb_le 0 _)), Nat2Z.id by lia.
    cbn [andb negb]. by erewrite bindD_Some by (by apply decode_elems_ok). }
  destruct (Z.leb_spec (len es) 255).
  - dec_start. apply at_cons in Ha as [Ha0 Ha].
    erewrite bindD_Some by (apply (get8_at _ _ (byte (len es))); [apply byte_range | exact Ha0]).
    cbv beta iota. rewrite byte_small by (unfold is_byte; lia).
    rewrite Hd; [| cbn in *; lia | exact Ha]. cbn [app length]. do 2 f_equal. lia.
  - dec_start. apply at_app in Ha as [Ha0 Ha].
    erewrite bindD_Some by (by apply get32be_at).
    cbv beta iota. rewrite int32_small by (unfold is_int32, int_max in *; lia).
    rewrite Hd; [| rewrite length_app in *; lia | exact Ha]. cbn [app]. autorewrite with len. do 2 f_equal. lia.
Qed.

Ltac part_step H :=
  eapply (part_read _ _ _ _ _ _ _ H eq_refl); [repeat (rewrite ?length_app in *; cbn [length] in * ); lia | at_tac |];
  cbv beta iota.

Lemma old_fun_reads c m i u cl :
  Reads (ext c) (sent r9 c) -> Reads (ext m) (sent r9 m) -> Reads (ext i) (sent r9 i) ->
  Reads (ext u) (sent r9 u) -> Forall (is_part (fun e => Reads (ext e) (sent r9 e))) cl ->
  room_for (len cl) = true ->
  Reads (ext (Erl_Function (-1) [] 0 (Some c) (Some m) (Some i) (Some u) cl))
    (sent r9 (Erl_Function (-1) [] 0 (Some c) (Some m) (Some i) (Some u) cl)).
Proof.
  intros Hc Hm Hi Hu Hcl Hr. pose proof (room_int_max _ Hr) as Hx. cbn [ext_eterm sent].
  cbn [Z.eqb Pos.eqb]. dec_start. repeat (apply at_app in Ha as [? Ha]).
  unfold decode_old_fun. erewrite bindD_Some by (apply get32be_at; at_tac). cbv beta iota.
  rewrite int32_small by (unfold is_int32, int_max in *; lia).
  part_step Hc. part_step Hm. part_step Hi. part_step Hu. rewrite Hr, Nat2Z.id. cbn [negb].
  erewrite bindD_Some by (apply decode_closure_ok; [done | repeat (rewrite ?length_app in *; cbn [length] in * ); lia | at_tac]).
  unfold retD. cbn [app]. autorewrite with len. do 2 f_equal. lia.
Qed.

Lemma new_fun_reads ar md5 ni c m i u cl :
  is_byte ar -> Forall is_byte md5 -> len md5 = 16 -> is_int32 ni ->
  Reads (ext c) (sent r9 c) -> Reads (ext m) (sent r9 m) -> Reads (ext i) (sent r9 i) ->
  Reads (ext u) (sent r9 u) -> Forall (is_part (fun e => Reads (ext e) (sent r9 e))) cl ->
  room_for (len cl) = true ->
  Reads (ext (Erl_Function ar md5 ni (Some c) (Some m) (Some i) (Some u) cl))
    (sent r9 (Erl_Function ar md5 ni (Some c) (Some m) (Some i) (Some u) cl)).
Proof.
  intros Ha Hb H16 Hn Hc Hm Hi Hu Hcl Hr. pose proof (room_int_max _ Hr) as Hx.
  cbn [ext_eterm sent]. rewrite (proj2 (Z.eqb_neq ar (-1))) by (unfold is_byte in Ha; lia).
  rewrite byte_small by done. clear Hb. pose proof Ha as Hab. clear Ha. dec_start.
  apply at_app in Ha as [? Ha]. apply at_cons in Ha as [? Ha]. repeat (apply at_app in Ha as [? Ha]).
  unfold decode_new_fun. erewrite bindD_Some by (apply get32be_at; at_tac). cbv beta iota.
  erewrite bindD_Some by (apply (get8_at _ _ ar); [done | at_tac]). cbv beta iota.
  rewrite <- H16 at 1.
  erewrite bindD_Some by (apply load_bytes_at; at_tac). cbv zeta.
  erewrite bindD_Some by (apply get32be_at; at_tac). cbv beta iota.
  erewrite bindD_Some by (apply get32be_at; at_tac). cbv beta iota.
  rewrite (int32_small ni) by done.
  rewrite (int32_small (len cl)) by (unfold is_int32, int_max in *; lia).
  part_step Hm. part_step Hi. part_step Hu. part_step Hc. rewrite Hr, Nat2Z.id. cbn [negb].
  erewrite bindD_Some by (apply decode_closure_ok; [done | repeat (rewrite ?length_app in *; cbn [length] in * ); lia | at_tac]).
  unfold retD. cbn [app]. autorewrite with len. cbn [length] in *. do 2 f_equal. lia.
Qed.

(** The cells of a list, behind its header. *)
Definition ReadsCells (ep : ETERM) : Prop :=
  forall fuel o s, (length (ext_cells ext ep) <= fuel)%nat -> at_ s o (ext_cells ext ep) ->
    decode_list (dec fuel) (Z.to_nat (erl_length_x ep)) o s
    = Some (Some (sent r9 ep), o + len (ext_cells ext ep)).

Lemma length_x_pos ep : 0 <= erl_length_x ep.
Proof.
  induction ep as [| | | | | | | | | hd tl _ IH | | | | |] using ETERM_rec_all; cbn [erl_length_x]; lia.
Qed.

Lemma list_reads hd tl :
  ok (Erl_List hd tl) -> Reads (ext hd) (sent r9 hd) -> ReadsCells tl ->
  Reads (ext (Erl_List hd tl)) (sent r9 (Erl_List hd tl)) /\ ReadsCells (Erl_List hd tl).
Proof.
  intros Hok Hh Ht. pose proof (length_x_pos tl) as Hp.
  assert (Hc : ReadsCells (Erl_List hd tl)).
  { intros fuel o s Hf Ha. cbn [ext_cells] in *. apply at_app in Ha as [Ha0 Ha].
    rewrite length_app in Hf. cbn [erl_length_x sent].
    replace (Z.to_nat (1 + erl_length_x tl)) with (S (Z.to_nat (erl_length_x tl))) by lia.
    cbn [decode_list]. erewrite bindD_Some by (apply Hh; [lia | exact Ha0]). cbv beta iota.
    erewrite bindD_Some by (apply Ht; [lia | exact Ha]). unfold retD. rewrite len_app.
    do 2 f_equal. lia. }
  split; [| exact Hc]. inversion_clear Hok as [| | | | | | | | | | ? ? H1 H2 Hx | | |].
  cbn [ext_eterm]. destruct ((0 <? _) && _) eqn:E.
  - apply string_reads; [by constructor |]. apply andb_true_iff in E as [E1 E2]. lia.
  - dec_start. apply at_app in Ha as [Ha0 Ha].
    erewrite bindD_Some by (by apply get32be_at). cbv beta iota. cbn [erl_length_x] in *.
    rewrite int32_small by (unfold is_int32, int_max in *; lia).
    rewrite (proj2 (Z.leb_gt _ 0)) by lia.
    change (decode_list (dec x) (Z.to_nat (erl_length_x (Erl_List hd tl))) (o + 1 + len (be32 (1 + erl_length_x tl))) s
      = Some (Some (sent r9 (Erl_List hd tl)), o + len ((ERL_LIST_EXT :: be32 (1 + erl_length_x tl)) ++ ext_cells ext (Erl_List hd tl)))).
    rewrite Hc; [| rewrite length_app in *; cbn [ext_cells]; rewrite length_app in *; lia | exact Ha].
    cbn [app]. autorewrite with len. do 2 f_equal. lia.
Qed.

Lemma closure_reads cl :
  Forall (opt_all (fun e => ok e -> Reads (ext e) (sent r9 e) /\ ReadsCells e)) cl ->
  Forall (is_part ok) cl -> Forall (is_part (fun e => Reads (ext e) (sent r9 e))) cl.
Proof.
  intros Hi Ho. apply (closure_ok ok); [| done]. eapply Forall_impl; [| exact Hi].
  intros [t |] Hx; [| done]. intros Ht. exact (proj1 (Hx Ht)).
Qed.

Lemma erl_decode_it_both ep : floats_back -> ok ep -> 
  Reads (ext ep) (sent r9 ep) /\ ReadsCells ep.
Proof.
  intros Hfl.
  induction ep as [i | u | l | l | f | d | d n s c | d n c | d n c | hd tl IHh IHt | | b | es IHes | |
    ar md5 ni c m i u cl IHc IHm IHi IHu IHcl] using ETERM_rec_all; intros Hok;
    inversion Hok; subst;
    try (match goal with |- Reads (ext ?e) _ /\ _ =>
      cut (Reads (ext e) (sent r9 e)); [by split |] end).
  - by apply integer_reads.
  - by apply uint_reads.
  - by apply ll_reads.
  - by apply ull_reads.
  - by apply float_reads.
  - by apply atom_reads.
  - by apply pid_reads.
  - by apply port_reads.
  - by apply ref_reads; [apply ref_node_ok |..].
  - by apply list_reads; [| apply IHh | apply IHt].
  - cbn [ext_eterm sent]. dec_start. done.
  - by apply binary_reads.
  - apply tuple_reads; [done |]. apply Forall_forall. intros e He. rewrite Forall_forall in IHes.
    match goal with H : Forall ok es |- _ => rewrite Forall_forall in H; specialize (H e He) end.
    by apply IHes.
  - repeat match goal with H : is_part ok ?o |- _ => inversion H; clear H; subst end.
    cbn [opt_all] in *. apply closure_reads in IHcl; [| done].
    destruct (IHc ltac:(done)) as [Rc _], (IHm ltac:(done)) as [Rm _],
      (IHi ltac:(done)) as [Ri _], (IHu ltac:(done)) as [Ru _].
    match goal with H : _ \/ _ |- _ => destruct H as [(-> & -> & ->) | (? & ? & ? & ?)] end;
      [by apply old_fun_reads | by apply new_fun_reads].
Qed.

Lemma erl_decode_it_ok ep : floats_back -> ok ep -> Reads (ext ep) (sent r9 ep).
Proof. intros Hf Ho. by apply erl_decode_it_both. Qed.
End Main.
