(* ===== verification/EtermOk.v ===== *)
(** * I/O lists and copies: what they give

    [io_bytes] is the reference: the bytes of an I/O list, in order, or nothing for
    a term that is none. [copied] is the copy of a term, one text for each atom. *)

From S2P Require Import Prelude Mem PutGet Ext Headers Ints Atom Data Ids Big Term Skip XBuff Eterm Marshal MarshalOk MarshalLen MarshalRead.

(** ** I/O lists *)

(** An I/O list is a binary, the empty list, or a list whose elements are bytes,
    binaries or lists, and whose tail is an I/O list. *)
Fixpoint io_bytes (term : ETERM) : option (list Z) :=
  match term with
  | Erl_EmptyList => Some []
  | Erl_Binary b => Some b
  | Erl_List hd tl =>
      let elem :=
        match hd with
        | Erl_Integer i => if (0 <=? i) && (i <? 256) then Some [i] else None
        | _ => io_bytes hd
        end in
      match elem, io_bytes tl with
      | Some x, Some y => Some (x ++ y)
      | _, _ => None
      end
  | _ => None
  end.

Lemma land_not_ff i : is_int32 i ->
  (Z.land i (Z.lnot 0xFF) =? 0) = (0 <=? i) && (i <? 256).
Proof.
  intros Hi. change (Z.lnot 255) with (Z.lnot (Z.ones 8)). rewrite <- Z.ldiff_land, Z.ldiff_ones_r by lia.
  rewrite Z.shiftr_div_pow2, Z.shiftl_mul_pow2 by lia. change (2 ^ 8) with 256.
  destruct (Z.leb_spec 0 i), (Z.ltb_spec i 256); cbn [andb];
    first [apply Z.eqb_eq; dlia | apply Z.eqb_neq; dlia].
Qed.

(** Integers have the width of an [int]. *)
Fixpoint ints_ok (ep : ETERM) : bool :=
  match ep with
  | Erl_Integer i => (- 2 ^ 31 <=? i) && (i <? 2 ^ 31)
  | Erl_List hd tl => ints_ok hd && ints_ok tl
  | _ => true
  end.

Lemma is_byte_cell i : ints_ok (Erl_Integer i) = true ->
  ERL_IS_BYTE (Erl_Integer i) = if (0 <=? i) && (i <? 256) then Some i else None.
Proof.
  intros Hi. cbn [ERL_IS_BYTE]. rewrite land_not_ff; [done |].
  cbn [ints_ok] in Hi. unfold is_int32.
  change (2 ^ 31) with 2147483648 in Hi. lia.
Qed.

Definition io_length (term : ETERM) (n : Z) : Z :=
  match io_bytes term with Some bs => n + len bs | None => -1 end.

(** What an I/O list weighs: one for an integer, its bytes for a binary. *)
Fixpoint io_weight (term : ETERM) : Z :=
  match term with
  | Erl_List hd tl => (match hd with Erl_Integer _ => 1 | _ => io_weight hd end) + io_weight tl
  | Erl_Binary b => len b
  | _ => 0
  end.

Lemma io_weight_ok term : 0 <= io_weight term /\
  (forall bs, io_bytes term = Some bs -> len bs <= io_weight term).
Proof.
  induction term as [| | | | | | | | | hd tl [IHh1 IHh2] [IHt1 IHt2] | | b | | |] using ETERM_rec_all; try done.
  - cbn [io_weight io_bytes].
    assert (He : 0 <= match hd with Erl_Integer _ => 1 | _ => io_weight hd end) by (destruct hd; lia).
    split; [lia |]. intros bs Hb. 
    destruct (match hd with Erl_Integer i => if (0 <=? i) && (i <? 256) then Some [i] else None | _ => io_bytes hd end)
      as [x |] eqn:Ex; [| done].
    destruct (io_bytes tl) as [y |]; [| done]. injection Hb as <-. specialize (IHt2 y eq_refl). rewrite len_app.
    assert (len x <= match hd with Erl_Integer _ => 1 | _ => io_weight hd end); [| lia].
    destruct hd; try (by apply IHh2). destruct (_ && _); [| done]. by injection Ex as <-.
  - split; [done |]. by intros bs [= <-].
  - cbn [io_weight io_bytes]. split; [lia |]. by intros bs [= <-].
Qed.

Lemma iolist_length_loop_ok term : ints_ok term = true -> forall n, 0 <= n -> n + io_weight term <= int_max ->
  iolist_length_loop term n = Some (io_length term n).
Proof.
  unfold io_length.
  induction term as [| | | | | | | | | hd tl IHh IHt | | | | |] using ETERM_rec_all;
    intros Hi q Hq Hw; try done.
  - cbn [ints_ok] in Hi. apply andb_true_iff in Hi as [Hh Ht]. specialize (IHh Hh). specialize (IHt Ht).
    pose proof (io_weight_ok tl) as [Hwt _]. pose proof (io_weight_ok hd) as [Hwh Hlh].
    assert (Hfit : forall k, 0 <= k <= io_weight (Erl_List hd tl) -> int_opt (q + k) = Some (q + k)).
    { intros k Hk. apply int_opt_ok. unfold is_int32, int_max in *. lia. }
    cbn [iolist_length_loop io_bytes].
    destruct hd as [i | | | | | | | | | h t | | b | | |]; try done; cbn [ERL_IS_BYTE io_weight] in *.
    + change (if Z.land i (Z.lnot 255) =? 0 then Some i else None) with (ERL_IS_BYTE (Erl_Integer i)).
      rewrite is_byte_cell by done. destruct ((0 <=? i) && (i <? 256)); [| done].
      rewrite Hfit by lia. cbn [mbind option_bind]. rewrite IHt by lia.
      destruct (io_bytes tl); [| done]. cbn [app length]. f_equal. lia.
    + rewrite IHh by lia. cbn [mbind option_bind]. destruct (io_bytes (Erl_List h t)) as [bs |]; [| done].
      specialize (Hlh bs eq_refl). rewrite (proj2 (Z.ltb_ge _ _)), Hfit by lia. cbn [mbind option_bind].
      rewrite IHt by lia. destruct (io_bytes tl); [| done]. rewrite len_app. f_equal. lia.
    + rewrite IHt by lia. destruct (io_bytes tl); done.
    + rewrite Hfit by lia. cbn [mbind option_bind]. rewrite IHt by lia. cbn [io_bytes].
      destruct (io_bytes tl); [| done]. rewrite len_app. f_equal. lia.
  - cbn. f_equal. lia.
  - cbn [iolist_length_loop io_bytes io_weight] in *. apply int_opt_ok. unfold is_int32, int_max in *. lia.
Qed.

Lemma store_writes i : is_byte i ->
  Writes (fun p => let* _ := store p i in retM (padd p 1)) [i].
Proof.
  intros Hi o s Hf. erewrite bindM_Some by (by apply store_ok). by rewrite byte_small.
Qed.

(** The bytes are stored one behind the other, whatever [bufp] is. *)
Lemma iolist_to_buf_loop_ok term : ints_ok term = true ->
  forall bs, io_bytes term = Some bs -> Forall is_byte bs ->
  forall bufp, Writes (iolist_to_buf_loop term bufp) bs.
Proof.
  induction term as [| | | | | | | | | hd tl IHh IHt | | b | | |] using ETERM_rec_all;
    intros Hi bs Hb Hf bufp; try discriminate.
  - cbn [ints_ok] in Hi. apply andb_true_iff in Hi as [Hh Ht]. specialize (IHh Hh). specialize (IHt Ht).
    cbn [io_bytes] in Hb. eapply Writes_ext; [intros p s; cbn [iolist_to_buf_loop]; reflexivity |].
    destruct hd as [i | | | | | | | | | h t | | b | | |]; try discriminate.
    + rewrite is_byte_cell by done. destruct ((0 <=? i) && (i <? 256)); [| done].
      destruct (io_bytes tl) as [y |]; [| done]. injection Hb as <-.
      inversion_clear Hf as [| ? ? Hx Hy].
      eapply Writes_ext; [| exact (seq_writes _ _ [i] y (store_writes i Hx) (IHt y eq_refl Hy bufp))].
      intros p s. cbv beta. by rewrite bindM_assoc.
    + destruct (io_bytes (Erl_List h t)) as [x |]; [| done].
      destruct (io_bytes tl) as [y |]; [| done]. injection Hb as <-.
      apply Forall_app in Hf as [Hx Hy].
      apply (seq_writes (fun p => iolist_to_buf_loop (Erl_List h t) p p)); [| by apply IHt].
      intros o s Hs. by apply IHh.
    + cbn [ERL_IS_BYTE]. destruct (io_bytes tl) as [y |]; [| done]. injection Hb as <-. by apply IHt.
    + cbn [ERL_IS_BYTE io_bytes] in *. destruct (io_bytes tl) as [y |]; [| done]. injection Hb as <-.
      apply Forall_app in Hf as [Hx Hy].
      eapply Writes_ext; [| exact (seq_writes _ _ b y (memcpy_writes b Hx) (IHt y eq_refl Hy bufp))].
      intros p s. cbv beta. by rewrite bindM_assoc.
  - injection Hb as <-. apply nop_writes.
  - injection Hb as <-. by apply memcpy_writes.
Qed.

Lemma splice_all s bs : len s = len bs -> splice s 0 bs = bs.
Proof.
  intros H. unfold splice. cbn [Z.to_nat take app Nat.add].
  rewrite (drop_ge s) by lia. by rewrite app_nil_r.
Qed.

(** The block has just the size that was measured, and is filled. *)
Lemma erl_iolist_to_binary_ok fresh term :
  (forall n, 0 <= n -> len (fresh n) = n) -> ints_ok term = true ->
  (forall bs, io_bytes term = Some bs -> Forall is_byte bs) -> io_weight term <= int_max ->
  erl_iolist_to_binary fresh (Some term) = Some (io_bytes term).
Proof.
  intros Hfr Hi Hb Hw. unfold erl_iolist_to_binary, erl_iolist_length.
  rewrite iolist_length_loop_ok by (done || lia). cbn [mbind option_bind]. unfold io_length.
  destruct (io_bytes term) as [bs |] eqn:E; [| done]. rewrite Z.add_0_l.
  rewrite (proj2 (Z.eqb_neq _ _)) by lia. specialize (Hfr (len bs) ltac:(lia)).
  unfold iolist_to_buf. rewrite (iolist_to_buf_loop_ok term Hi bs E (Hb bs eq_refl)) by (split; lia).
  rewrite splice_all by done. cbn [off at_off]. by rewrite Z.add_0_l, Z.eqb_refl.
Qed.

(** ** Copies *)

(** Both texts are copied if they are one, else the Latin-1 text, if there is
    one. *)
Definition copied_name (a : Erl_Atom_data) : Erl_Atom_data :=
  match latin1 a with
  | Some l => if bool_decide (utf8 a = Some l) then a else AtomData None (Some l)
  | None => a
  end.

Fixpoint copied (ep : ETERM) : ETERM :=
  match ep with
  | Erl_Atom d => Erl_Atom (copied_name d)
  | Erl_Pid node n s c => Erl_Pid (copied_name node) n s c
  | Erl_Port node n c => Erl_Port (copied_name node) n c
  | Erl_Ref node n c => Erl_Ref (copied_name node) n c
  | Erl_List h t => Erl_List (copied h) (copied t)
  | Erl_Tuple es => Erl_Tuple (copied <$> es)
  | Erl_Function ar md5 ni c m i u cl =>
      let part (o : option ETERM) : option ETERM :=
        match o with Some t => Some (copied t) | None => None end in
      Erl_Function ar md5 ni (part c) (part m) (part i) (part u) (part <$> cl)
  | _ => ep
  end.

(** Every atom that is a term of its own has a Latin-1 text. *)
Fixpoint latin1_atoms (ep : ETERM) : bool :=
  let part (o : option ETERM) : bool :=
    match o with Some t => latin1_atoms t | None => true end in
  match ep with
  | Erl_Atom d => bool_decide (latin1 d <> None)
  | Erl_List h t => latin1_atoms h && latin1_atoms t
  | Erl_Tuple es => forallb latin1_atoms es
  | Erl_Function _ _ _ c m i u cl =>
      part c && part m && part i && part u && forallb part cl
  | _ => true
  end.

Section Copies.
Context (sprintf_20e : Z -> list Z) (malloc : Z -> bool) (Hm : forall n, malloc n = true).
Notation ext := (ext_eterm sprintf_20e).
Notation ok := (eterm_ok sprintf_20e).
Notation copy := (erl_copy_term malloc).

Lemma strsave_chars l : chars l -> strsave malloc l = Some l.
Proof. intros Hl. unfold strsave. by rewrite Hm, c_str_of_chars. Qed.

Lemma atom_copy_ok a : atom_ok a ->
  erl_atom_copy malloc a = Some (copied_name a, bool_decide (latin1 a <> None)).
Proof.
  unfold atom_ok, erl_atom_copy, copied_name. destruct a as [[u |] [l |]]; cbn [latin1 utf8];
    [intros (Hs & _) | intros (Hs & _) | intros (Hs & _) | done];
    rewrite (strsave_chars _ Hs); repeat (case_bool_decide; cbn [latin1 utf8 negb orb]); try congruence; try done.
Qed.

Lemma ext_name_copied a : ext_name (copied_name a) = ext_name a.
Proof.
  unfold copied_name, ext_name. destruct a as [u [l |]]; cbn [latin1 utf8]; [| done].
  by destruct (bool_decide _).
Qed.

Lemma ref_node_copied a : ext_name (ref_node_of (copied_name a)) = ext_name (ref_node_of a).
Proof.
  unfold copied_name. destruct a as [u [l |]]; cbn [latin1 utf8]; [| done].
  destruct (bool_decide _); done.
Qed.

Lemma copied_shape ep : is_string_loop (copied ep) = is_string_loop ep /\
  erl_length_x (copied ep) = erl_length_x ep /\ string_chars (copied ep) = string_chars ep.
Proof.
  induction ep as [| | | | | | | | | hd tl _ IH | | | | |] using ETERM_rec_all; try done.
  destruct IH as (H1 & H2 & H3). cbn [copied is_string_loop erl_length_x string_chars].
  split_and!; [| by rewrite H2 | destruct hd; cbn [copied string_chars]; rewrite ?H3; done].
  destruct hd; cbn [copied is_string_loop]; rewrite ?H1; done.
Qed.

Definition copies (ep : ETERM) : Prop :=
  copy ep = Some (Some (copied ep)) /\ ext (copied ep) = ext ep.

Lemma copies_elems es : Forall copies es ->
  mapM (fun e => match copy e with Some o => o | None => None end) es = Some (copied <$> es) /\
  concat (ext <$> (copied <$> es)) = concat (ext <$> es).
Proof.
  induction 1 as [| e es [Hc He] _ [IH1 IH2]]; [done |].
  cbn [mapM]. rewrite Hc. cbn. rewrite IH1. cbn. split; [done |].
  rewrite He. f_equal. exact IH2.
Qed.

Definition part_copy (o : option ETERM) : option ETERM :=
  match o with Some t => Some (copied t) | None => None end.

Lemma copies_part o : is_part copies o ->
  (match o with None => Some None | Some t => copy t end) = Some (part_copy o) /\
  match part_copy o with Some t => ext t | None => [] end
  = match o with Some t => ext t | None => [] end.
Proof. by intros [t [Hc He]]. Qed.

Lemma copies_closure cl : Forall (is_part copies) cl ->
  mapM (fun o => match o with None => Some None | Some t => copy t end) cl
    = Some (part_copy <$> cl) /\
  concat ((fun o => match o with Some t => ext t | None => [] end) <$> (part_copy <$> cl))
  = concat ((fun o => match o with Some t => ext t | None => [] end) <$> cl).
Proof.
  induction 1 as [| o cl Ho _ [IH1 IH2]]; [done |]. apply copies_part in Ho as [Hc He].
  cbn [mapM fmap list_fmap concat]. split.
  - rewrite Hc. cbn. rewrite IH1. done.
  - rewrite He. f_equal. exact IH2.
Qed.

Lemma ext_cells_copied hd tl : copies hd -> copies tl ->
  ext_cells ext (copied tl) = ext_cells ext tl -> 
  ext_cells ext (copied (Erl_List hd tl)) = ext_cells ext (Erl_List hd tl).
Proof. intros [_ H1] _ H3. cbn [copied ext_cells]. by rewrite H1, H3. Qed.

Definition copies_both (ep : ETERM) : Prop :=
  ok ep -> latin1_atoms ep = true ->
  copies ep /\ ext_cells ext (copied ep) = ext_cells ext ep.
Definition part_latin1 (o : option ETERM) : bool :=
  match o with Some t => latin1_atoms t | None => true end.

Lemma part_copies o : opt_all copies_both o -> is_part ok o -> part_latin1 o = true ->
  is_part copies o.
Proof. intros Ho Hp. revert Ho. destruct Hp as [t Ht]. intros Ho Hl. constructor. by apply Ho. Qed.

Lemma closure_copies cl : Forall (opt_all copies_both) cl -> Forall (is_part ok) cl ->
  forallb part_latin1 cl = true -> Forall (is_part copies) cl.
Proof.
  induction 1 as [| o cl Ho _ IH]; intros Hp Hl; [constructor |]. inversion_clear Hp.
  cbn [forallb] in Hl. apply andb_true_iff in Hl as [Hl1 Hl2].
  constructor; [by apply part_copies | by apply IH].
Qed.

Lemma erl_copy_term_both ep : copies_both ep.
Proof.
  induction ep as [i | u | l | l | f | d | d n s c | d n c | d n c | hd tl IHh IHt | | b | es IHes | |
    ar md5 ni c m i u cl IHc IHm IHi IHu IHcl] using ETERM_rec_all; intros Hok Hl;
    inversion Hok; subst;
    try (match goal with |- copies ?e /\ _ => cut (copies e); [intros Hc; split; [exact Hc | exact (proj2 Hc)] |] end).
  all: try (by split); unfold copies; cbn [erl_copy_term copied ext_eterm]; unfold copy_node.
  - rewrite atom_copy_ok by done. cbn [latin1_atoms] in Hl. rewrite Hl, ext_name_copied. done.
  - rewrite atom_copy_ok, ext_name_copied by done. done.
  - rewrite atom_copy_ok, ext_name_copied by done. done.
  - rewrite atom_copy_ok, ref_node_copied by done. done.
  - cbn [latin1_atoms] in Hl. apply andb_true_iff in Hl as [Hlh Hlt].
    destruct (IHh ltac:(done) Hlh) as [[Ch Eh] _], (IHt ltac:(done) Hlt) as [[Ct Et] Ec].
    rewrite Ch, Ct. pose proof (copied_shape (Erl_List hd tl)) as (Hs & Hx & Hc).
    unfold ext_str, is_string in *. change (Erl_List (copied hd) (copied tl)) with (copied (Erl_List hd tl)).
    rewrite Hs, Hx, Hc, Eh, Ec. split; [done |]. cbn [copied ext_cells]. by rewrite Eh, Ec.
  - cbn [latin1_atoms] in Hl. rewrite forallb_forall in Hl.
    destruct (copies_elems es) as [Hc He].
    { apply Forall_forall. intros e Hin. rewrite Forall_forall in IHes.
      match goal with H : Forall ok es |- _ => rewrite Forall_forall in H; specialize (H e Hin) end.
      by apply IHes; [| | apply Hl]. }
    rewrite Hc, He, length_fmap. done.
  - cbn [latin1_atoms] in Hl. rewrite !andb_true_iff in Hl. destruct Hl as ((((Lc & Lm) & Li) & Lu) & Lcl).
    destruct (copies_part _ (part_copies c IHc ltac:(done) Lc)) as [Cc Ec],
      (copies_part _ (part_copies m IHm ltac:(done) Lm)) as [Cm Em],
      (copies_part _ (part_copies i IHi ltac:(done) Li)) as [Ci Ei],
      (copies_part _ (part_copies u IHu ltac:(done) Lu)) as [Cu Eu],
      (copies_closure _ (closure_copies cl IHcl ltac:(done) Lcl)) as [Ccl Ecl].
    unfold part_copy in *. rewrite Cc, Cm, Ci, Cu, Ccl, Ec, Em, Ei, Eu, Ecl, length_fmap. done.
Qed.

Lemma atom_ok_copied a : atom_ok a -> atom_ok (copied_name a).
Proof.
  unfold atom_ok, copied_name. destruct a as [u [l |]]; cbn [latin1 utf8]; [| done].
  intros (Hc & Hl & Hu). by destruct (bool_decide (u = Some l)).
Qed.

Lemma ref_node_some a : is_Some (latin1 (ref_node_of a)) ->
  is_Some (latin1 (ref_node_of (copied_name a))).
Proof.
  unfold copied_name. destruct a as [u [l |]]; cbn [latin1 utf8]; [| done].
  destruct (bool_decide (u = Some l)); done.
Qed.

Lemma is_part_copied P o : is_part P o -> opt_all (fun e => P e -> P (copied e)) o ->
  is_part P (part_copy o).
Proof. intros Ho. destruct Ho as [t Ht]. intros Hx. constructor. by apply Hx. Qed.

Lemma copied_ok ep : ok ep -> ok (copied ep).
Proof.
  induction ep as [i | u | l | l | f | d | d n s c | d n c | d n c | hd tl IHh IHt | | b | es IHes | |
    ar md5 ni c m i u cl IHc IHm IHi IHu IHcl] using ETERM_rec_all; intros Hok;
    inversion Hok; subst; try exact Hok; cbn [copied].
  - by apply ok_atom, atom_ok_copied.
  - by apply ok_pid; [apply atom_ok_copied |..].
  - by apply ok_port; [apply atom_ok_copied |..].
  - by apply ok_ref; [apply atom_ok_copied | apply ref_node_some |..].
  - apply ok_list; [by apply IHh | by apply IHt |].
    change (Erl_List (copied hd) (copied tl)) with (copied (Erl_List hd tl)).
    by rewrite (proj1 (proj2 (copied_shape _))).
  - apply ok_tuple; [| by rewrite length_fmap]. apply Forall_fmap.
    rewrite Forall_forall in IHes. apply Forall_forall. intros e He. apply (IHes e He).
    match goal with H : Forall ok es |- _ => rewrite Forall_forall in H; by apply H end.
  - apply ok_fun; [done | by apply is_part_copied .. | | by rewrite length_fmap].
    apply Forall_fmap. rewrite Forall_forall in IHcl. apply Forall_forall. intros o Ho. specialize (IHcl o Ho).
    match goal with H : Forall (is_part ok) cl |- _ => rewrite Forall_forall in H; specialize (H o Ho) end.
    by apply is_part_copied.
Qed.

Lemma erl_copy_term_ok ep : ok ep -> latin1_atoms ep = true ->
  copy ep = Some (Some (copied ep)) /\ ext (copied ep) = ext ep.
Proof. intros Ho Hl. by apply erl_copy_term_both. Qed.
End Copies.
