(* ===== verification/LegacyCorrect.v ===== *)
(** * legacy/: what holds of terms, their bytes and the calls that make them

    Terms that are encoded and decoded, skipped by ei, appended to a buffer of ei,
    copied, flattened as I/O lists; and the lengths of [erl_term_len] that are too
    short. *)

From S2P Require Import Prelude Mem PutGet Ext Headers Ints Atom Data Ids Big Term Skip XBuff Eterm Marshal MarshalOk MarshalLen MarshalRead EtermOk.

(** ** A printer and a scanner

    For the witnesses: the digits of the number to the base 2, behind its
    sign. *)

Fixpoint pos_text (p : positive) : list Z :=
  match p with xH => [] | xO p => 49 :: pos_text p | xI p => 50 :: pos_text p end.
Fixpoint pos_scan (s : list Z) : option positive :=
  match s with
  | c :: s =>
      if c =? 0 then Some xH
      else match pos_scan s with
           | Some p => Some (if c =? 49 then xO p else xI p)
           | None => None
           end
  | [] => None
  end.

Definition toy_print (f : Z) : list Z :=
  match f with Z0 => [51] | Zpos p => 52 :: pos_text p | Zneg p => 53 :: pos_text p end.
Definition toy_scan (s : list Z) : option Z :=
  match s with
  | c :: s =>
      if c =? 51 then Some 0
      else match pos_scan s with
           | Some p => Some (if c =? 52 then Zpos p else Zneg p)
           | None => None
           end
  | [] => None
  end.

Lemma pos_scan_text p rest : pos_scan (pos_text p ++ 0 :: rest) = Some p.
Proof. by induction p as [p IH | p IH |]; cbn; rewrite ?IH. Qed.

Lemma toy_floats_back : floats_back toy_print toy_scan.
Proof. intros [| p | p] rest _; cbn [toy_print toy_scan app]; [done |..]; cbn; by rewrite pos_scan_text. Qed.

Lemma toy_floats_read : floats_read toy_print toy_scan.
Proof. intros f rest Hf. by rewrite toy_floats_back. Qed.

(** ** Encoding *)

(** What [erl_encode] leaves in a block that has room. *)
Lemma erl_encode_ok sprintf_20e ep blk :
  eterm_ok sprintf_20e ep -> 1 + len (ext_eterm sprintf_20e ep) <= len blk ->
  let bs := ERL_VERSION_MAGIC :: ext_eterm sprintf_20e ep in
  erl_encode sprintf_20e ep (at_off 0) blk = Some (len bs, splice blk 0 bs).
Proof.
  intros Ho Hl bs. unfold erl_encode, erl_encode3.
  erewrite bindM_Some by (apply store_ok; split; cbn; lia).
  change (padd (at_off 0) 1) with (at_off 1).
  erewrite bindM_Some by (apply (erl_encode_it_ok sprintf_20e ep Ho), fits_splice; split; cbn; lia).
  cbn [Z.eqb negb]. unfold retM, psub, at_off, bs. cbn [off].
  rewrite (splice_app blk 0 [byte ERL_VERSION_MAGIC]) by (split; [lia |]; rewrite len_app; cbn [length]; lia).
  cbn [app]. rewrite len_cons. do 2 f_equal. lia.
Qed.


(** {é, "ab", 4294967295, a float, <n@h.1.2>, [-1 | <<9>>], #Ref<n@h.7.8>} *)
Definition node_n : Erl_Atom_data := AtomData None (Some [110; 64; 104]).
Definition sample_eterm : ETERM :=
  Erl_Tuple
    [Erl_Atom (AtomData None (Some [233]));
     Erl_List (Erl_Integer 97) (Erl_List (Erl_Integer 98) Erl_EmptyList);
     Erl_Uinteger 4294967295; Erl_Float 5;
     Erl_Pid node_n 1 2 0;
     Erl_List (Erl_LLInteger (-1)) (Erl_Binary [9]);
     Erl_Ref node_n [7; 8] 1].

Lemma node_n_ok : atom_ok node_n.
Proof. cbn. unfold MAXATOMLEN. split; [repeat constructor; lia | split; [lia | done]]. Qed.

Ltac is32 := unfold is_int32, is_uint32, is_int64, is_uint64, is_byte; lia.

Lemma sample_eterm_ok : eterm_ok toy_print sample_eterm.
Proof.
  apply ok_tuple; [| done]. repeat apply Forall_cons_2; [..| apply Forall_nil_2].
  - apply ok_atom. cbn. unfold MAXATOMLEN. split; [repeat constructor; lia | split; [lia | done]].
  - repeat (apply ok_list; [apply ok_integer; is32 | | vm_compute; discriminate]). apply ok_nil.
  - apply ok_uinteger. is32.
  - apply ok_float; [done | | vm_compute; discriminate]. repeat constructor; lia.
  - apply ok_pid; [apply node_n_ok | is32..].
  - apply ok_list; [apply ok_ll; [is32 | done] | | vm_compute; discriminate].
    apply ok_binary; [repeat constructor; is32 | vm_compute; discriminate].
  - apply ok_ref; [apply node_n_ok | by eexists | cbn; lia | repeat constructor; is32 | is32].
Qed.


(** C27: what [erl_encode] writes, in a block that is large enough, is a message for
    the functions of ei too: for a term of [eterm_ok] (integers within the width of
    their type, but not the least long long; finite floats of at most 30 printed
    characters, which sscanf reads; names of at most 255 Latin-1 characters, none of
    them zero, or a UTF-8 text that ei takes; references of at most three words
    whose node has a Latin-1 text; no part of a fun missing; counts that fit an
    int), whose funs have parts of the types that they must have ([well_typed]) and
    which takes at most INT_MAX bytes, [ei_decode_version] accepts the first byte
    and [ei_skip_term] moves from there exactly to the end that [erl_encode] has
    returned. *)
Theorem legacy_bytes_skipped sprintf_20e sscanf_lf ep blk fuel :
  floats_read sprintf_20e sscanf_lf -> eterm_ok sprintf_20e ep -> well_typed ep = true ->
  1 + len (ext_eterm sprintf_20e ep) <= len blk -> 1 + len (ext_eterm sprintf_20e ep) <= int_max ->
  (length (ext_eterm sprintf_20e ep) <= fuel)%nat ->
  exists n blk', erl_encode sprintf_20e ep (at_off 0) blk = Some (n, blk') /\
    ei_decode_version true 0 0 blk' = Some (Done 1 (Some ERL_VERSION_MAGIC)) /\
    ei_skip_term sscanf_lf fuel 0 1 blk' = Some (0, n).
Proof.
  intros Hr Ho Hw Hl Hm Hf. eexists _, _. split; [by apply erl_encode_ok |].
  assert (Hfit : fits blk 0 (ERL_VERSION_MAGIC :: ext_eterm sprintf_20e ep)) by (split; rewrite ?len_cons; lia).
  apply at_splice in Hfit. split.
  - apply (decode_version_ok true 0 0); [lia | cbn; unfold int_max; lia | by apply at_cons in Hfit as [? _]].
  - rewrite len_cons. apply (skips_etf sscanf_lf fuel); [| exact Hf | lia | lia | by apply at_cons in Hfit as [_ ?]].
    apply ext_eterm_etf; try done. lia.
Qed.

Lemma legacy_bytes_skipped_witness :
  exists n blk', erl_encode toy_print sample_eterm (at_off 0) (replicate 100 0) = Some (n, blk') /\
    ei_decode_version true 0 0 blk' = Some (Done 1 (Some ERL_VERSION_MAGIC)) /\
    ei_skip_term toy_scan 98 0 1 blk' = Some (0, n).
Proof.
  apply (legacy_bytes_skipped toy_print toy_scan sample_eterm (replicate 100 0) 98);
    [apply toy_floats_read | apply sample_eterm_ok | done | vm_compute; discriminate..| vm_compute; lia].
Defined.

(** ** Into a buffer of ei *)

(** [ei_x_encode_term] appends exactly the bytes of the term to the buffer,
    which it lets grow when it has to, if [erl_term_len] measures the term right:
    atoms of at most 127 Latin-1 or at most 255 UTF-8 bytes, creations of one byte, no
    funs of the new form. It returns -1 only when the allocation it needed fails. *)
Theorem x_encode_term_appends malloc sprintf_20e ep x :
  (forall n blk, malloc n = Some blk -> len blk = n) ->
  eterm_ok sprintf_20e ep -> measured ep = true ->
  x_ok x -> buffsz x <= int_max -> index x + len (ext_eterm sprintf_20e ep) + 200 <= int_max ->
  exists rc x', ei_x_encode_term sprintf_20e malloc x ep = Some (rc, x') /\
    ((rc = 0 /\ x_ok x' /\ buffsz x' <= int_max /\
      contents x' = contents x ++ ext_eterm sprintf_20e ep) \/
     (rc = -1 /\ buff x' = None /\ index x' = index x /\
      malloc (index x + len (ext_eterm sprintf_20e ep) + 200) = None)).
Proof.
  intros Hm Ho Hs Hx Hz Hl. pose proof (ei_encode_term_ok sprintf_20e ep Ho Hs) as Hf.
  unfold ei_x_encode_term. rewrite (unchecked_ok malloc _ _ _ Hf) by (destruct Hx as (? & _ & _ & ?); lia).
  destruct (x_encode_ok malloc Hm _ _ x Hf) as (rc & x' & He & H);
    [done | unfold ei_x_extra; lia | done |].
  exists rc, x'. split; [done |]. unfold ei_x_extra in H.
  destruct H as [(? & ? & ? & ?) | (? & ? & ? & _ & ?)]; [left | right]; tauto.
Qed.

Lemma malloc_zeros_size n blk :
  (if n <? 0 then None else Some (repeat 0 (Z.to_nat n))) = Some blk -> len blk = n.
Proof.
  destruct (Z.ltb_spec n 0); [done |]. intros [= <-]. rewrite repeat_length. lia.
Qed.

Lemma x_encode_term_appends_witness :
  let malloc n := if n <? 0 then None else Some (repeat 0 (Z.to_nat n)) in
  exists rc x', ei_x_encode_term toy_print malloc (XBuff (Some [131; 0; 0]) 3 1) sample_eterm
      = Some (rc, x') /\
    ((rc = 0 /\ x_ok x' /\ buffsz x' <= int_max /\
      contents x' = [131] ++ ext_eterm toy_print sample_eterm) \/
     (rc = -1 /\ buff x' = None /\ index x' = 1 /\
      malloc (1 + len (ext_eterm toy_print sample_eterm) + 200) = None)).
Proof.
  intros malloc.
  apply (x_encode_term_appends malloc toy_print sample_eterm (XBuff (Some [131; 0; 0]) 3 1));
    [apply malloc_zeros_size | apply sample_eterm_ok | done | | cbn; unfold int_max; lia | vm_compute; discriminate].
  exists [131; 0; 0]. split; [done |]. split; [done | cbn; lia].
Defined.

(** ** I/O lists *)

(** C28: of a term whose integers and binaries have together at most INT_MAX bytes,
    integers being ints, [erl_iolist_length], [erl_iolist_to_binary] and
    [erl_iolist_to_string] give the length, the bytes and the text if it is an I/O
    list, and -1 and NULL if it is not; the block that was measured is filled
    exactly, and a text with a zero inside is refused. Beyond INT_MAX bytes the
    length overflows. *)
Theorem iolist_flattens fresh term :
  (forall n, 0 <= n -> len (fresh n) = n) -> ints_ok term = true ->
  (forall bs, io_bytes term = Some bs -> Forall is_byte bs) -> io_weight term <= int_max ->
  erl_iolist_length term = Some (match io_bytes term with Some bs => len bs | None => -1 end) /\
  erl_iolist_to_binary fresh (Some term) = Some (io_bytes term) /\
  erl_iolist_to_string fresh (Some term)
  = Some (match io_bytes term with
          | Some bs => if existsb (Z.eqb 0) bs then None else Some (bs ++ [0])
          | None => None
          end).
Proof.
  intros Hf Hi Hb Hw. split; [| split].
  - unfold erl_iolist_length. by rewrite iolist_length_loop_ok by (done || lia).
  - by apply erl_iolist_to_binary_ok.
  - unfold erl_iolist_to_string. rewrite erl_iolist_to_binary_ok by done.
    destruct (io_bytes term) as [bs |]; [| done]. by destruct (existsb (Z.eqb 0) bs).
Qed.

(** [[104, <<"i">>] | <<"!">>] *)
Definition sample_iolist : ETERM :=
  Erl_List (Erl_List (Erl_Integer 104) (Erl_List (Erl_Binary [105]) Erl_EmptyList)) (Erl_Binary [33]).

Lemma iolist_flattens_witness :
  let fresh n := replicate (Z.to_nat n) 255 in
  erl_iolist_length sample_iolist = Some 3 /\
  erl_iolist_to_binary fresh (Some sample_iolist) = Some (Some [104; 105; 33]) /\
  erl_iolist_to_string fresh (Some sample_iolist) = Some (Some [104; 105; 33; 0]).
Proof.
  intros fresh. apply (iolist_flattens fresh sample_iolist); [| done | | done].
  - intros n Hn. unfold fresh. rewrite length_replicate. lia.
  - intros bs [= <-]. repeat constructor; is32.
Defined.

(** ** Copies *)

(** [erl_copy_term] copies every term that can be sent and whose atoms have
    a Latin-1 text, if there is memory: the encoder writes the same bytes for the
    copy as for the term. *)
Theorem copy_term_same sprintf_20e malloc ep :
  (forall n, malloc n = true) -> eterm_ok sprintf_20e ep -> latin1_atoms ep = true ->
  exists cp, erl_copy_term malloc ep = Some (Some cp) /\
    forall o s, fits s o (ext_eterm sprintf_20e ep) ->
      erl_encode_it sprintf_20e cp (at_off o) s = erl_encode_it sprintf_20e ep (at_off o) s /\
      erl_encode_it sprintf_20e ep (at_off o) s
      = Some ((0, at_off (o + len (ext_eterm sprintf_20e ep))), splice s o (ext_eterm sprintf_20e ep)).
Proof.
  intros Hm Ho Hl. destruct (erl_copy_term_ok sprintf_20e malloc Hm ep Ho Hl) as [Hc He].
  exists (copied ep). split; [done |]. intros o s Hf.
  pose proof (copied_ok sprintf_20e ep Ho) as Ho'.
  rewrite (erl_encode_it_ok sprintf_20e ep Ho) by done. split; [| done].
  rewrite (erl_encode_it_ok sprintf_20e _ Ho'); rewrite He; done.
Qed.

Lemma copy_term_same_witness :
  exists cp, erl_copy_term (fun _ => true) sample_eterm = Some (Some cp) /\
    forall o s, fits s o (ext_eterm toy_print sample_eterm) ->
      erl_encode_it toy_print cp (at_off o) s = erl_encode_it toy_print sample_eterm (at_off o) s /\
      erl_encode_it toy_print sample_eterm (at_off o) s
      = Some ((0, at_off (o + 98)), splice s o (ext_eterm toy_print sample_eterm)).
Proof.
  apply (copy_term_same toy_print (fun _ => true) sample_eterm); [done | apply sample_eterm_ok | done].
Defined.

(** ** What does not hold *)

(** [erl_term_len] counts one byte too few for an atom of 128 Latin-1 characters,
    for a fun of the new form, and three for a large creation. *)
Definition long_atom : ETERM := Erl_Atom (AtomData None (Some (replicate 128 97))).
Definition new_fun : ETERM :=
  Erl_Function 0 (replicate 16 0) 0 (Some (Erl_Pid node_n 1 2 0)) (Some (Erl_Atom node_n))
    (Some (Erl_Integer 0)) (Some (Erl_Integer 0)) [].
Definition far_pid : ETERM := Erl_Pid node_n 1 2 4.

Lemma erl_term_len_short :
  (forall t, In t [long_atom; new_fun; far_pid] -> eterm_ok toy_print t) /\
  erl_term_len_helper long_atom = Some (len (ext_eterm toy_print long_atom) - 1) /\
  erl_term_len_helper new_fun = Some (len (ext_eterm toy_print new_fun) - 1) /\
  erl_term_len_helper far_pid = Some (len (ext_eterm toy_print far_pid) - 3).
Proof.
  split; [| by repeat split].
  intros t [<- | [<- | [<- | []]]].
  - apply ok_atom. split; [| split; [vm_compute; done | done]].
    apply Forall_replicate. lia.
  - apply ok_fun; [right | | | | | constructor | done].
    + split; [is32 | split; [| split; [done | is32]]]. apply Forall_replicate. is32.
    + constructor. apply ok_pid; [apply node_n_ok | is32..].
    + constructor. apply ok_atom, node_n_ok.
    + constructor. apply ok_integer. is32.
    + constructor. apply ok_integer. is32.
  - apply ok_pid; [apply node_n_ok | is32..].
Qed.

(** Copying an atom that has a UTF-8 text only fails, though there is memory. *)
Lemma copy_utf8_atom_fails u :
  chars u -> erl_copy_term (fun _ => true) (Erl_Atom (AtomData (Some u) None)) = Some None.
Proof.
  intros Hu. cbn [erl_copy_term]. unfold erl_atom_copy. cbn [latin1 utf8].
  rewrite bool_decide_eq_false_2, (strsave_chars (fun _ => true)) by done. done.
Qed.

(** The encoder ends undefined on a reference whose node has no Latin-1 text:
    [strlen(NULL)]. *)
Lemma encode_ref_utf8_node :
  erl_encode_it toy_print (Erl_Ref (AtomData (Some [208; 175]) None) [1] 0) (at_off 0)
    (replicate 100 0) = None.
Proof. done. Qed.

(** An atom of more than 255 characters is encoded as nothing, and counted as a
    success. *)
Lemma encode_overlong_atom :
  erl_encode toy_print (Erl_Atom (AtomData None (Some (replicate 300 97)))) (at_off 0)
    (replicate 400 0) = Some (1, splice (replicate 400 0) 0 [ERL_VERSION_MAGIC]).
Proof. vm_compute. done. Qed.
