(* ===== verification/Refc.v ===== *)
(** * legacy/erl_malloc.c, erl_fix_alloc.c: cells with reference counts

    The heap that terms are made in: blocks by address, each with a cell, its
    reference count, and the link and flag of the allocator. The functions of
    legacy/erl_eterm.c that make, share and take apart terms; locks are left out.
    [client] is a program that calls them. *)

From stdpp Require Import gmap.
From S2P Require Import Prelude Mem Atom Eterm.

Notation addr := positive.

(** ** Blocks

    The union of a cell: a cell without pointers holds the term it is. [U_undef]
    is a cell whose type is not set, or ERL_UNDEF. The texts of atoms and
    variables, the bytes of binaries and the arrays of tuples and funs belong to
    their cell. *)
Inductive uval :=
  | U_undef
  | U_leaf (t : ETERM)
  | U_var (name : list Z) (v : option addr)
  | U_list (head tail : option addr)
  | U_tuple (elems : list (option addr))
  | U_fun (arity : Z) (md5 : list Z) (new_index : Z)
      (creator module index uniq : option addr) (closure : list (option addr)).

Record fix_block := FixBlock { count : Z; val : uval; next : option addr; free : bool }.

(** [blocks]: what malloc gave and free has not taken back. [allocated] and
    [freed] count cells; they are taken not to overflow. *)
Record eterm_stateinfo := State {
  blocks : gmap addr fix_block;
  freelist : option addr;
  freed : Z;
  allocated : Z
}.

(** [Ends]: the program ends for want of memory, in [erl_err_sys]. [Wrong] is
    undefined, or no fuel. *)
Inductive res A := Go (x : A) (h : eterm_stateinfo) | Ends | Wrong.
Arguments Go {A} _ _.
Arguments Ends {A}.
Arguments Wrong {A}.

Definition HM A := eterm_stateinfo -> res A.
Definition retH {A} (x : A) : HM A := fun h => Go x h.
Definition bindH {A B} (m : HM A) (k : A -> HM B) : HM B := fun h =>
  match m h with Go x h => k x h | Ends => Ends | Wrong => Wrong end.
Notation "'let^' x ':=' m 'in' k" := (bindH m (fun x => k))
  (at level 10, x pattern, m at level 200, k at level 200).

Definition wrongH {A} : HM A := fun _ => Wrong.

Definition get_block (a : addr) : HM fix_block := fun h =>
  match blocks h !! a with Some b => Go b h | None => Wrong end.

Definition set_block (a : addr) (b : fix_block) (h : eterm_stateinfo) : eterm_stateinfo :=
  State (<[a := b]> (blocks h)) (freelist h) (freed h) (allocated h).

Definition upd (a : addr) (f : fix_block -> fix_block) : HM unit := fun h =>
  match blocks h !! a with Some b => Go tt (set_block a (f b) h) | None => Wrong end.

(** [count] is a field of 24 bits. *)
Definition ERL_MAX_COUNT : Z := 0xffffff.
Definition set_count (n : Z) (b : fix_block) : fix_block :=
  FixBlock (Z.land n ERL_MAX_COUNT) (val b) (next b) (free b).
Definition set_val (u : uval) (b : fix_block) : fix_block :=
  FixBlock (count b) u (next b) (free b).

Definition incr (a : addr) : HM unit := upd a (fun b => set_count (count b + 1) b).
Definition decr (a : addr) : HM unit := upd a (fun b => set_count (count b - 1) b).

(** ** erl_fix_alloc.c *)

Definition erl_init_eterm_alloc : eterm_stateinfo := State ∅ None 0 0.

Section Alloc.
(** [malloc]: the address of a new block, or NULL. *)
Context (malloc : eterm_stateinfo -> option addr).

Definition erl_eterm_alloc : HM (option addr) := fun h =>
  match freelist h with
  | Some a =>
      match blocks h !! a with
      | None => Wrong
      | Some b =>
          Go (Some a)
            (State (<[a := FixBlock (count b) (val b) None false]> (blocks h))
               (next b) (freed h - 1) (allocated h + 1))
      end
  | None =>
      match malloc h with
      | None => Go None h
      | Some a =>
          Go (Some a)
            (State (<[a := FixBlock 0 U_undef None false]> (blocks h))
               None (freed h) (allocated h + 1))
      end
  end.

Definition erl_eterm_free (a : addr) : HM unit := fun h =>
  match blocks h !! a with
  | None => Wrong
  | Some b =>
      if free b then Go tt h
      else
        Go tt
          (State (<[a := FixBlock (count b) (val b) (freelist h) true]> (blocks h))
             (Some a) (freed h + 1) (allocated h - 1))
  end.

(** The loop; one more round than there are blocks on the freelist. *)
Fixpoint erl_eterm_release (fuel : nat) : HM unit := fun h =>
  match fuel with
  | O => Wrong
  | S fuel =>
      match freelist h with
      | None => Go tt h
      | Some a =>
          match blocks h !! a with
          | None => Wrong
          | Some b =>
              erl_eterm_release fuel
                (State (delete a (blocks h)) (next b) (freed h - 1) (allocated h))
          end
      end
  end.

Definition erl_eterm_statistics (h : eterm_stateinfo) : Z * Z := (allocated h, freed h).

(** ** erl_malloc.c *)

Definition erl_alloc_eterm : HM addr :=
  let^ e := erl_eterm_alloc in
  match e with
  | None => fun _ => Ends
  | Some e =>
      let^ _ := upd e (fun b => set_val U_undef (set_count 0 b)) in
      retH e
  end.

(** [ERL_TYPE(ep) = ERL_UNDEF; erl_eterm_free(ep);] *)
Definition clear (ep : addr) : HM unit :=
  let^ _ := upd ep (set_val U_undef) in
  erl_eterm_free ep.

(** The fields of a cell are read once: nothing writes them while its parts
    are freed. The loop over an array: what is NULL is passed over. [fuel] is the
    depth of calls, a RESTART counted as one. *)
Section FreeParts.
Context (free_term : option addr -> HM unit).

(** [ERL_COUNT(part)--; _erl_free_term(part, INTERNAL, compound)] *)
Definition free_part (o : option addr) : HM unit :=
  match o with
  | None => retH tt
  | Some a => let^ _ := decr a in free_term (Some a)
  end.

Fixpoint free_parts (l : list (option addr)) : HM unit :=
  match l with
  | [] => retH tt
  | o :: l => let^ _ := free_part o in free_parts l
  end.

(** The parts of a fun: the count is left as it is. *)
Fixpoint free_undecremented (l : list (option addr)) : HM unit :=
  match l with
  | [] => retH tt
  | o :: l => let^ _ := free_term o in free_undecremented l
  end.
End FreeParts.

Fixpoint free_term (fuel : nat) (ep : option addr) (external compound : bool) : HM unit :=
  match fuel, ep with
  | O, _ => wrongH
  | _, None => retH tt
  | S fuel, Some ep =>
      let internal o := free_term fuel o false compound in
      let^ b := get_block ep in
      if compound || (count b =? 0) then
        match val b with
        | U_var _ (Some v) =>
            let^ _ := decr v in
            let^ _ := clear ep in
            internal (Some v)
        | U_list head tail =>
            let^ _ := free_part internal head in
            match tail with
            | Some tl =>
                let^ _ := decr tl in
                let^ _ := clear ep in
                internal (Some tl)
            | None => clear ep
            end
        | U_tuple elems =>
            let^ _ := free_parts internal elems in
            clear ep
        | U_fun _ _ _ creator module index uniq closure =>
            let^ _ := free_undecremented internal ([index; uniq; creator; module] ++ closure) in
            clear ep
        | U_var _ None | U_leaf _ | U_undef => clear ep
        end
      else if external then
        let^ _ := decr ep in internal (Some ep)
      else retH tt
  end.

Definition erl_free_term (fuel : nat) (ep : option addr) : HM unit :=
  free_term fuel ep true false.
Definition erl_free_compound (fuel : nat) (ep : option addr) : HM unit :=
  free_term fuel ep true true.

Fixpoint erl_free_array (fuel : nat) (arr : list (option addr)) : HM unit :=
  match arr with
  | [] => retH tt
  | ep :: arr => let^ _ := erl_free_term fuel ep in erl_free_array fuel arr
  end.

(** ** erl_eterm.c *)

(** A new cell, with one reference. *)
Definition new_cell (u : uval) : HM addr :=
  let^ ep := erl_alloc_eterm in
  let^ _ := upd ep (set_count 1) in
  let^ _ := upd ep (set_val u) in
  retH ep.

(** [erl_mk_int] and the like: [t] is the term. That the text of an atom finds no
    memory is left out. *)
Definition mk_leaf (t : ETERM) : HM (option addr) :=
  let^ ep := new_cell (U_leaf t) in retH (Some ep).

Definition mk_var (name : list Z) : HM (option addr) :=
  let^ ep := new_cell (U_var name None) in retH (Some ep).

Fixpoint inc_all (es : list addr) : HM unit :=
  match es with
  | [] => retH tt
  | e :: es => let^ _ := incr e in inc_all es
  end.

(** [if (!arr[i]) return NULL;] *)
Definition all_there (arr : list (option addr)) : option (list addr) := mapM id arr.

Definition mk_tuple (arr : list (option addr)) : HM (option addr) :=
  match all_there arr with
  | None => retH None
  | Some es =>
      let^ ep := new_cell (U_tuple (Some <$> es)) in
      let^ _ := inc_all es in
      retH (Some ep)
  end.

(** From element 1; element 0 is outside the array. *)
Definition element (ix : Z) (ep : option addr) : HM (option addr) :=
  match ep with
  | None => retH None
  | Some ep =>
      if ix <? 0 then retH None else
      let^ b := get_block ep in
      match val b with
      | U_tuple es =>
          if ix <=? len es then
            if ix =? 0 then wrongH else
            match es !! Z.to_nat (ix - 1) with
            | Some (Some e) => let^ _ := incr e in retH (Some e)
            | _ => wrongH
            end
          else retH None
      | U_undef => wrongH
      | _ => retH None
      end
  end.

Definition mk_empty_list : HM addr := new_cell (U_leaf Erl_EmptyList).

Definition cons_cell (hd tl : addr) : HM addr :=
  let^ ep := new_cell (U_list (Some hd) (Some tl)) in
  let^ _ := incr hd in
  let^ _ := incr tl in
  retH ep.

Definition erl_cons (hd tl : option addr) : HM (option addr) :=
  match hd, tl with
  | Some hd, Some tl => let^ ep := cons_cell hd tl in retH (Some ep)
  | _, _ => retH None
  end.

(** [erl_hd] and [erl_tl] *)
Definition part_of_list (sel : option addr -> option addr -> option addr) (ep : option addr)
    : HM (option addr) :=
  match ep with
  | None => retH None
  | Some ep =>
      let^ b := get_block ep in
      match val b with
      | U_list h t =>
          match sel h t with
          | Some a => let^ _ := incr a in retH (Some a)
          | None => wrongH
          end
      | U_undef => wrongH
      | _ => retH None
      end
  end.
Definition erl_hd : option addr -> HM (option addr) := part_of_list (fun h _ => h).
Definition erl_tl : option addr -> HM (option addr) := part_of_list (fun _ t => t).

(** The loop of [erl_mk_list], from the last element. *)
Fixpoint mk_list_loop (rev_arr : list addr) (ep : addr) : HM addr :=
  match rev_arr with
  | [] => retH ep
  | [a] => cons_cell a ep
  | a :: rest =>
      let^ ep := cons_cell a ep in
      let^ _ := decr ep in
      mk_list_loop rest ep
  end.

Definition mk_list (arr : list (option addr)) : HM (option addr) :=
  match all_there arr with
  | None => retH None
  | Some es =>
      let^ ep := mk_empty_list in
      let^ _ := (if 0 <? len es then decr ep else retH tt) in
      let^ ep := mk_list_loop (rev es) ep in
      retH (Some ep)
  end.

(** ** A program that uses them

    It keeps what the calls return in variables, one more for each call; a
    variable is NULL after it has been given to [erl_free_term]. *)
Inductive call :=
  | Leaf (t : ETERM)
  | Var (name : list Z)
  | Cons (hd tl : nat)
  | Tuple (arr : list nat)
  | List (arr : list nat)
  | Head (ep : nat)
  | Tail (ep : nat)
  | Element (ix : Z) (ep : nat)
  | Free (ep : nat).

Definition var {A} (env : list (option A)) (i : nat) : option A := default None (env !! i).

Definition returns (m : HM (option addr)) (env : list (option addr))
    : HM (list (option addr)) :=
  let^ r := m in retH (env ++ [r]).

Definition do_call (fuel : nat) (c : call) (env : list (option addr))
    : HM (list (option addr)) :=
  match c with
  | Leaf t => returns (mk_leaf t) env
  | Var name => returns (mk_var name) env
  | Cons i j => returns (erl_cons (var env i) (var env j)) env
  | Tuple arr => returns (mk_tuple (var env <$> arr)) env
  | List arr => returns (mk_list (var env <$> arr)) env
  | Head i => returns (erl_hd (var env i)) env
  | Tail i => returns (erl_tl (var env i)) env
  | Element ix i => returns (element ix (var env i)) env
  | Free i =>
      let^ _ := erl_free_term fuel (var env i) in
      retH (<[i := None]> env)
  end.

Fixpoint do_calls (fuel : nat) (cs : list call) (env : list (option addr))
    : HM (list (option addr)) :=
  match cs with
  | [] => retH env
  | c :: cs => let^ env := do_call fuel c env in do_calls fuel cs env
  end.
End Alloc.
