(* ===== verification/RefcOk.v ===== *)
(** * The heap of terms: its invariant, and every call

    [live] are the cells that are in use, by address. The count of each is the
    number of references to it, from the cells and from the program ([loose]);
    cells being taken apart or made are in neither ([dying]). *)

From stdpp Require Import gmap gmultiset.
From S2P Require Import Prelude Mem Atom Eterm Refc.

(** ** References *)

Definition refs (u : uval) : list addr :=
  match u with
  | U_undef | U_leaf _ => []
  | U_var _ v => omap id [v]
  | U_list h t => omap id [h; t]
  | U_tuple es => omap id es
  | U_fun _ _ _ c m i q cl => omap id ([i; q; c; m] ++ cl)
  end.

Definition ms (l : list addr) : gmultiset addr := list_to_set_disj l.

Definition all_refs (live : gmap addr uval) : gmultiset addr :=
  map_fold (fun _ u acc => ms (refs u) ⊎ acc) ∅ live.

Lemma all_refs_insert live a u : live !! a = None ->
  all_refs (<[a := u]> live) = ms (refs u) ⊎ all_refs live.
Proof.
  intros Ha. unfold all_refs. rewrite map_fold_insert_L; [done | | done].
  intros. multiset_solver.
Qed.

Lemma all_refs_delete live a u : live !! a = Some u ->
  all_refs live = ms (refs u) ⊎ all_refs (delete a live).
Proof.
  intros Ha. rewrite <- (insert_delete_id live a u) at 1 by done.
  apply all_refs_insert, lookup_delete_eq.
Qed.

Lemma ms_cons a l : ms (a :: l) = {[+ a +]} ⊎ ms l.
Proof. apply list_to_set_disj_cons. Qed.
Lemma ms_app l1 l2 : ms (l1 ++ l2) = ms l1 ⊎ ms l2.
Proof. apply list_to_set_disj_app. Qed.
Lemma ms_nil m : ms [] ⊎ m = m.
Proof. change (ms []) with (∅ : gmultiset addr). apply (left_id_L ∅ (⊎)). Qed.
Lemma ms_one a m : ms [a] ⊎ m = {[+ a +]} ⊎ m.
Proof. by rewrite ms_cons, <- (assoc_L (⊎)), ms_nil. Qed.
Lemma elem_of_ms a l : a ∈ ms l <-> a ∈ l.
Proof. apply elem_of_list_to_set_disj. Qed.

Lemma in_all_refs live a c u : live !! a = Some u -> c ∈ refs u -> c ∈ all_refs live.
Proof.
  intros Ha Hc. rewrite (all_refs_delete live a u Ha). apply gmultiset_elem_of_disj_union.
  left. by apply elem_of_ms.
Qed.

Lemma all_refs_parent live a : a ∈ all_refs live -> exists b u, live !! b = Some u /\ a ∈ refs u.
Proof.
  induction live as [| b u m Hb IH] using map_ind; intros Ha; [by apply gmultiset_not_elem_of_empty in Ha |].
  rewrite all_refs_insert in Ha by done. apply gmultiset_elem_of_disj_union in Ha as [Ha | Ha].
  - exists b, u. rewrite lookup_insert_eq. split; [done |]. by apply elem_of_ms.
  - destruct (IH Ha) as (c & v & Hc & Hv). exists c, v. split; [| done].
    rewrite lookup_insert_ne; [done |]. congruence.
Qed.

(** ** The invariant *)

Fixpoint chain (bl : gmap addr fix_block) (o : option addr) (l : list addr) : Prop :=
  match l with
  | [] => o = None
  | a :: l => o = Some a /\ exists b, bl !! a = Some b /\ free b = true /\ chain bl (next b) l
  end.

Definition total (live : gmap addr uval) (loose : gmultiset addr) : gmultiset addr :=
  loose ⊎ all_refs live.
Definition mult (a : addr) (m : gmultiset addr) : Z := Z.of_nat (multiplicity a m).

Record Inv (h : eterm_stateinfo) (live : gmap addr uval) (loose : gmultiset addr)
    (dying : gset addr) : Prop := {
  i_live : forall a u, live !! a = Some u -> exists nx,
    blocks h !! a = Some (FixBlock (mult a (total live loose)) u nx false);
  i_closed : forall a, a ∈ total live loose -> is_Some (live !! a);
  i_small : Z.of_nat (size (total live loose)) <= ERL_MAX_COUNT;
  i_rank : exists rank : addr -> nat, forall a u c,
    live !! a = Some u -> c ∈ refs u -> (rank c < rank a)%nat;
  i_dying : forall a, a ∈ dying -> live !! a = None /\
    exists b, blocks h !! a = Some b /\ free b = false;
  i_free : exists fl, chain (blocks h) (freelist h) fl /\ NoDup fl /\ freed h = len fl /\
    forall a, is_Some (blocks h !! a) -> is_Some (live !! a) \/ a ∈ dying \/ a ∈ fl;
  i_allocated : allocated h = Z.of_nat (size live) + Z.of_nat (size dying)
}.

(** Cells that are in use are referred to, but those of [exc]. *)
Definition used (live : gmap addr uval) (loose : gmultiset addr) (exc : addr -> Prop) : Prop :=
  forall a, is_Some (live !! a) -> ~ exc a -> 0 < mult a (total live loose).

(** ** Running *)

Section Run.
Context (malloc : eterm_stateinfo -> option addr).

Definition wpH {A} (m : HM A) (Q : A -> eterm_stateinfo -> Prop) (h : eterm_stateinfo) : Prop :=
  match m h with
  | Go x h => Q x h
  | Ends => exists h, malloc h = None
  | Wrong => False
  end.

Lemma wpH_ret {A} (x : A) (Q : A -> eterm_stateinfo -> Prop) h : Q x h -> wpH (retH x) Q h.
Proof. done. Qed.
Lemma wpH_bind {A B} (m : HM A) (k : A -> HM B) Q h :
  wpH m (fun x h => wpH (k x) Q h) h -> wpH (bindH m k) Q h.
Proof. unfold wpH, bindH. by destruct (m h). Qed.
Lemma wpH_mono {A} (m : HM A) (P Q : A -> eterm_stateinfo -> Prop) h :
  (forall x h, P x h -> Q x h) -> wpH m P h -> wpH m Q h.
Proof. intros H. unfold wpH. destruct (m h); auto. Qed.

(** ** Counts *)

Lemma land_count n : 0 <= n <= ERL_MAX_COUNT -> Z.land n ERL_MAX_COUNT = n.
Proof.
  intros Hn. change ERL_MAX_COUNT with (Z.ones 24) in *. rewrite Z.land_ones by lia.
  apply Z.mod_small. change (Z.ones 24) with 16777215 in Hn. change (2 ^ 24) with 16777216. lia.
Qed.

Lemma mult_union a m1 m2 : mult a (m1 ⊎ m2) = mult a m1 + mult a m2.
Proof. unfold mult. rewrite multiplicity_disj_union. lia. Qed.
Lemma mult_singleton a : mult a {[+ a +]} = 1.
Proof. unfold mult. by rewrite multiplicity_singleton_eq. Qed.
Lemma mult_singleton_ne a b : a <> b -> mult a {[+ b +]} = 0.
Proof. intros. unfold mult. by rewrite multiplicity_singleton_ne. Qed.
Lemma mult_pos a m : a ∈ m <-> 0 < mult a m.
Proof. unfold mult. rewrite elem_of_multiplicity. lia. Qed.

Lemma mult_le_size a (m : gmultiset addr) : mult a m <= Z.of_nat (size m).
Proof.
  induction m as [| x m IH] using gmultiset_ind; [done |].
  rewrite mult_union, gmultiset_size_disj_union, gmultiset_size_singleton.
  destruct (decide (a = x)) as [-> | Hne]; [rewrite mult_singleton | rewrite mult_singleton_ne by done]; lia.
Qed.

Lemma total_here a live loose : a ∈ total live ({[+ a +]} ⊎ loose).
Proof. clear. unfold total. multiset_solver. Qed.

Definition same_rest (a : addr) (h h' : eterm_stateinfo) : Prop :=
  forall b, b <> a -> blocks h' !! b = blocks h !! b.

(** A chain does not see what happens to blocks that are not free. *)
Lemma chain_frame bl bl' fl : forall o,
  (forall a b, a ∈ fl -> bl !! a = Some b -> free b = true -> bl' !! a = Some b) ->
  chain bl o fl -> chain bl' o fl.
Proof.
  induction fl as [| a fl IH]; intros o Hbl; cbn [chain]; [done |].
  intros (-> & b & Hb & Hf & Hc). split; [done |]. exists b.
  split; [apply Hbl; [constructor | done..] |]. split; [done |].
  apply IH; [| done]. intros. apply Hbl; [by constructor | done..].
Qed.

Lemma chain_free bl fl : forall o a, chain bl o fl -> a ∈ fl ->
  exists b, bl !! a = Some b /\ free b = true.
Proof.
  induction fl as [| x fl IH]; intros o a Hc Ha; [by apply elem_of_nil in Ha |].
  destruct Hc as (-> & b & Hb & Hf & Hc). apply elem_of_cons in Ha as [-> | Ha]; [by exists b |].
  by eapply IH.
Qed.

(** The count of a cell follows the references of the program. *)
Lemma set_live_count h live loose loose' dying a u nx :
  Inv h live loose dying -> live !! a = Some u ->
  (forall b, b <> a -> mult b loose' = mult b loose) ->
  Z.of_nat (size (total live loose')) <= ERL_MAX_COUNT ->
  Inv (set_block a (FixBlock (mult a (total live loose')) u nx false) h) live loose' dying.
Proof.
  intros [Hl Hc Hs Hr Hd Hf Ha] Hu Hb Hs'. destruct (Hl a u Hu) as [nx' Ha'].
  assert (Hm : forall b, b <> a -> mult b (total live loose') = mult b (total live loose)).
  { intros b Hne. unfold total. by rewrite !mult_union, Hb. }
  split; try done.
  - intros b v Hv. cbn [set_block blocks]. destruct (decide (b = a)) as [-> | Hne].
    + rewrite lookup_insert_eq. rewrite Hu in Hv. injection Hv as <-. by exists nx.
    + rewrite lookup_insert_ne by done. rewrite Hm by done. by apply Hl.
  - intros b Hin. destruct (decide (b = a)) as [-> | Hne]; [by exists u |].
    apply Hc, mult_pos. apply mult_pos in Hin. by rewrite <- Hm.
  - intros b Hin. destruct (Hd b Hin) as (Hn & blk & Hblk & Hfr). split; [done |]. exists blk.
    cbn [set_block blocks]. rewrite lookup_insert_ne by (intros ->; congruence). done.
  - destruct Hf as (fl & Hch & Hnd & Hfd & Hall). exists fl. cbn [set_block blocks freelist freed].
    split; [| split; [done | split; [done |]]].
    + eapply chain_frame; [| exact Hch]. intros b blk _ Hblk Hfr.
      rewrite lookup_insert_ne; [done |]. intros ->. rewrite Ha' in Hblk. injection Hblk as <-. done.
    + intros b. destruct (decide (b = a)) as [-> | Hne].
      * intros _. left. by exists u.
      * rewrite lookup_insert_ne by done. apply Hall.
Qed.

Lemma dec_ok h live loose dying a (Q : unit -> eterm_stateinfo -> Prop) :
  Inv h live ({[+ a +]} ⊎ loose) dying ->
  (forall h', Inv h' live loose dying -> Q tt h') -> wpH (decr a) Q h.
Proof.
  intros Hi HQ. pose proof Hi as [Hl Hc Hs Hr Hd Hf Ha].
  assert (Hin : a ∈ total live ({[+ a +]} ⊎ loose)) by apply total_here.
  destruct (Hc a Hin) as [u Hu]. destruct (Hl a u Hu) as [nx Hb].
  pose proof (mult_le_size a (total live ({[+ a +]} ⊎ loose))) as Hle.
  assert (Hm : mult a (total live ({[+ a +]} ⊎ loose)) = mult a (total live loose) + 1).
  { unfold total. rewrite !mult_union, mult_singleton. lia. }
  unfold wpH, decr, upd. rewrite Hb. unfold set_count. cbn [count val next free].
  rewrite Hm, land_count by (unfold mult in *; lia). replace (mult a (total live loose) + 1 - 1) with (mult a (total live loose)) by lia.
  apply HQ. eapply set_live_count; [exact Hi | done | |].
  - intros b Hne. rewrite mult_union, mult_singleton_ne by done. done.
  - unfold total in *. rewrite !gmultiset_size_disj_union in *. lia.
Qed.

Lemma inc_ok h live loose dying a u (Q : unit -> eterm_stateinfo -> Prop) :
  Inv h live loose dying -> live !! a = Some u ->
  Z.of_nat (size (total live loose)) < ERL_MAX_COUNT ->
  (forall h', Inv h' live ({[+ a +]} ⊎ loose) dying -> same_rest a h h' -> Q tt h') ->
  wpH (incr a) Q h.
Proof.
  intros Hi Hu Hsz HQ. pose proof Hi as [Hl Hc Hs Hr Hd Hf Ha].
  destruct (Hl a u Hu) as [nx Hb].
  pose proof (mult_le_size a (total live loose)) as Hle.
  assert (Hm : mult a (total live ({[+ a +]} ⊎ loose)) = mult a (total live loose) + 1).
  { unfold total. rewrite !mult_union, mult_singleton. lia. }
  unfold wpH, incr, upd. rewrite Hb. unfold set_count. cbn [count val next free].
  rewrite land_count by (unfold mult in *; lia). rewrite <- Hm.
  apply HQ.
  - eapply set_live_count; [exact Hi | done | |].
    + intros b Hne. rewrite mult_union, mult_singleton_ne by done. done.
    + unfold total in *. rewrite !gmultiset_size_disj_union in *. rewrite gmultiset_size_singleton. lia.
  - intros b Hne. cbn [set_block blocks]. by rewrite lookup_insert_ne.
Qed.

(** ** Cells that end and cells that begin *)

(** A cell that nothing refers to is taken apart: its references are the
    program's now. *)
Lemma death_ok h live loose dying a u :
  Inv h live loose dying -> live !! a = Some u -> mult a (total live loose) = 0 ->
  Inv h (delete a live) (ms (refs u) ⊎ loose) ({[a]} ∪ dying).
Proof.
  intros [Hl Hc Hs Hr Hd Hf Ha] Hu H0.
  assert (Ht : total (delete a live) (ms (refs u) ⊎ loose) = total live loose).
  { unfold total. rewrite (all_refs_delete live a u Hu). clear. multiset_solver. }
  assert (Had : a ∉ dying) by (intros Hin; destruct (Hd a Hin); congruence).
  split; rewrite ?Ht; try done.
  - intros b v Hv. apply lookup_delete_Some in Hv as [_ Hv]. by apply Hl.
  - intros b Hin. rewrite lookup_delete_ne; [by apply Hc |]. intros ->. apply mult_pos in Hin. lia.
  - destruct Hr as [rank Hr]. exists rank. intros b v c Hb. apply lookup_delete_Some in Hb as [_ Hb]. by apply Hr.
  - intros b Hin. apply elem_of_union in Hin as [Hin | Hin].
    + apply elem_of_singleton in Hin as ->. split; [apply lookup_delete_eq |].
      destruct (Hl a u Hu) as [nx Hb]. by eexists.
    + destruct (Hd b Hin) as [Hn Hx]. split; [| done]. by apply lookup_delete_None; right.
  - destruct Hf as (fl & Hch & Hnd & Hfd & Hall). exists fl. split; [done |]. split; [done |]. split; [done |].
    intros b Hb. destruct (decide (b = a)) as [-> | Hne]; [right; left; set_solver |].
    rewrite lookup_delete_ne by done. destruct (Hall b Hb) as [? | [? | ?]]; [by left | right; left; set_solver | by right; right].
  - rewrite map_size_delete_Some by (by eexists). rewrite size_union, size_singleton by set_solver.
    assert (size live <> 0)%nat by (apply map_size_non_empty_iff; intros ->; by rewrite lookup_empty in Hu). lia.
Qed.

(** The block goes to the freelist. *)
Lemma clear_ok h live loose dying a (Q : unit -> eterm_stateinfo -> Prop) :
  Inv h live loose dying -> a ∈ dying ->
  (forall h', Inv h' live loose (dying ∖ {[a]}) -> Q tt h') -> wpH (clear a) Q h.
Proof.
  intros [Hl Hc Hs Hr Hd Hf Ha] Hin HQ. destruct (Hd a Hin) as (Hn & b & Hb & Hfr).
  unfold wpH, clear, bindH, upd. rewrite Hb. unfold erl_eterm_free. cbn [set_block blocks].
  rewrite lookup_insert_eq. cbn [set_val free val count]. rewrite Hfr. cbn [freelist freed allocated set_block].
  rewrite insert_insert_eq. apply HQ. destruct Hf as (fl & Hch & Hnd & Hfd & Hall).
  assert (Hafl : a ∉ fl) by (intros Hx; destruct (chain_free _ _ _ _ Hch Hx) as (b' & Hb' & Hf'); congruence).
  split; cbn [blocks freelist freed allocated]; try done.
  - intros c v Hv. rewrite lookup_insert_ne by (intros ->; congruence). by apply Hl.
  - intros c Hx. apply elem_of_difference in Hx as [Hx Hne]. rewrite lookup_insert_ne by set_solver. by apply Hd.
  - exists (a :: fl). split; [| split; [by constructor | split; [cbn [length]; lia |]]].
    + split; [done |]. eexists. split; [apply lookup_insert_eq |]. split; [done |]. cbn [next].
      eapply chain_frame; [| exact Hch]. intros c blk Hcfl Hblk Hfb. rewrite lookup_insert_ne; [done |].
      intros ->. congruence.
    + intros c. destruct (decide (c = a)) as [-> | Hne]; [intros _; right; right; constructor |].
      rewrite lookup_insert_ne by done. intros Hx. destruct (Hall c Hx) as [? | [? | ?]];
        [by left | right; left; set_solver | right; right; by constructor].
  - rewrite size_difference by set_solver. rewrite size_singleton.
    assert (size dying <> 0)%nat by (apply size_non_empty_iff; set_solver). lia.
Qed.

Definition max_rank (rank : addr -> nat) (l : list addr) : nat :=
  foldr (fun a n => (rank a `max` n)%nat) O l.

Lemma max_rank_le rank l a : a ∈ l -> (rank a <= max_rank rank l)%nat.
Proof.
  induction l as [| x l IH]; intros Ha; [by apply elem_of_nil in Ha |].
  unfold max_rank. cbn [foldr]. fold (max_rank rank l).
  apply elem_of_cons in Ha as [-> | Ha]; [apply Nat.le_max_l |].
  etransitivity; [by apply IH | apply Nat.le_max_r].
Qed.

(** A cell that has been made, with one reference of the program's, comes into
    use; the references it holds were the program's. *)
Lemma birth_ok h live loose dying a u nx :
  Inv h live (ms (refs u) ⊎ loose) dying -> a ∈ dying ->
  blocks h !! a = Some (FixBlock 1 u nx false) ->
  Z.of_nat (size (total live (ms (refs u) ⊎ loose))) < ERL_MAX_COUNT ->
  Inv h (<[a := u]> live) ({[+ a +]} ⊎ loose) (dying ∖ {[a]}).
Proof.
  intros [Hl Hc Hs Hr Hd Hf Ha] Hin Hb Hsz. destruct (Hd a Hin) as (Hn & _).
  assert (Ht : total (<[a := u]> live) ({[+ a +]} ⊎ loose)
    = {[+ a +]} ⊎ total live (ms (refs u) ⊎ loose)).
  { unfold total. rewrite all_refs_insert by done. clear. multiset_solver. }
  assert (H0 : a ∉ total live (ms (refs u) ⊎ loose)).
  { intros Hx. destruct (Hc a Hx). congruence. }
  split; rewrite ?Ht.
  - intros b v Hv. destruct (decide (b = a)) as [-> | Hne].
    + rewrite lookup_insert_eq in Hv. injection Hv as <-. exists nx. rewrite Hb, mult_union, mult_singleton.
      apply not_elem_of_multiplicity in H0. unfold mult. by rewrite H0.
    + rewrite lookup_insert_ne in Hv by done. rewrite mult_union, mult_singleton_ne by done. by apply Hl.
  - intros b Hx. destruct (decide (b = a)) as [-> | Hne]; [exists u; apply lookup_insert_eq |].
    rewrite lookup_insert_ne by done. apply Hc, mult_pos. apply mult_pos in Hx.
    rewrite mult_union, mult_singleton_ne in Hx by done. done.
  - rewrite gmultiset_size_disj_union, gmultiset_size_singleton. lia.
  - destruct Hr as [rank Hr]. exists (fun x => if decide (x = a) then S (max_rank rank (refs u)) else rank x).
    intros b v c Hv Hx.
    assert (Hca : c <> a).
    { intros ->. apply H0. destruct (decide (b = a)) as [-> | Hne].
      - rewrite lookup_insert_eq in Hv. injection Hv as <-. unfold total.
        apply elem_of_ms in Hx. clear - Hx. multiset_solver.
      - rewrite lookup_insert_ne in Hv by done. pose proof (in_all_refs _ _ _ _ Hv Hx) as Hy.
        clear - Hy. unfold total. multiset_solver. }
    rewrite (decide_False (P := c = a)) by done. destruct (decide (b = a)) as [-> | Hne].
    + rewrite lookup_insert_eq in Hv. injection Hv as <-. pose proof (max_rank_le rank _ _ Hx). lia.
    + rewrite lookup_insert_ne in Hv by done. by eapply Hr.
  - intros b Hx. apply elem_of_difference in Hx as [Hx Hne]. destruct (Hd b Hx) as [Hn' Hy].
    split; [| done]. rewrite lookup_insert_ne by set_solver. done.
  - destruct Hf as (fl & Hch & Hnd & Hfd & Hall). exists fl. split; [done |]. split; [done |]. split; [done |].
    intros b Hx. destruct (decide (b = a)) as [-> | Hne]; [left; exists u; apply lookup_insert_eq |].
    rewrite lookup_insert_ne by done. destruct (Hall b Hx) as [? | [? | ?]]; [by left | right; left; set_solver | by right; right].
  - rewrite map_size_insert_None by done. rewrite size_difference by set_solver. rewrite size_singleton.
    assert (size dying <> 0)%nat by (apply size_non_empty_iff; set_solver). lia.
Qed.

(** ** Allocation *)

Context (malloc_fresh : forall h a, malloc h = Some a -> blocks h !! a = None).

Lemma set_dying h live loose dying a b :
  Inv h live loose dying -> a ∈ dying -> free b = false ->
  Inv (set_block a b h) live loose dying.
Proof.
  intros [Hl Hc Hs Hr Hd Hf Ha] Hin Hfr. destruct (Hd a Hin) as (Hn & b0 & Hb0 & Hf0).
  split; cbn [set_block blocks freelist freed allocated]; try done.
  - intros c v Hv. rewrite lookup_insert_ne by (intros ->; congruence). by apply Hl.
  - intros c Hx. destruct (Hd c Hx) as [Hn' Hy]. split; [done |].
    destruct (decide (c = a)) as [-> | Hne]; [rewrite lookup_insert_eq; by eexists | by rewrite lookup_insert_ne].
  - destruct Hf as (fl & Hch & Hnd & Hfd & Hall). exists fl. split; [| split; [done | split; [done |]]].
    + eapply chain_frame; [| exact Hch]. intros c blk Hcfl Hblk Hfb. rewrite lookup_insert_ne; [done |]. congruence.
    + intros c. destruct (decide (c = a)) as [-> | Hne]; [right; by left |].
      rewrite lookup_insert_ne by done. apply Hall.
Qed.

(** A block that was on the freelist, or is new, is given out. *)
Lemma enter_ok h live loose dying a c u fl fh :
  Inv h live loose dying -> live !! a = None -> a ∉ dying -> a ∉ fl ->
  chain (blocks h) fh fl -> NoDup fl ->
  (forall b, is_Some (blocks h !! b) -> is_Some (live !! b) \/ b ∈ dying \/ b = a \/ b ∈ fl) ->
  Inv (State (<[a := FixBlock c u None false]> (blocks h)) fh (len fl) (allocated h + 1))
    live loose ({[a]} ∪ dying).
Proof.
  intros [Hl Hc Hs Hr Hd _ Ha] Hn Had Hafl Hch Hnd Hall.
  split; cbn [blocks freelist freed allocated]; try done.
  - intros b v Hv. rewrite lookup_insert_ne by (intros ->; congruence). by apply Hl.
  - intros b Hx. apply elem_of_union in Hx as [Hx | Hx].
    + apply elem_of_singleton in Hx as ->. split; [done |]. rewrite lookup_insert_eq. by eexists.
    + rewrite lookup_insert_ne by (intros ->; done). by apply Hd.
  - exists fl. split; [| split; [done | split; [done |]]].
    + eapply chain_frame; [| exact Hch]. intros b blk Hb Hblk Hfb.
      rewrite lookup_insert_ne; [done |]. by intros ->.
    + intros b. destruct (decide (b = a)) as [-> | Hne]; [intros _; right; left; set_solver |].
      rewrite lookup_insert_ne by done. intros Hx.
      destruct (Hall b Hx) as [? | [? | [? | ?]]]; [by left | right; left; set_solver | done | by right; right].
  - rewrite size_union, size_singleton by set_solver. lia.
Qed.

Lemma eterm_alloc_ok h live loose dying (Q : option addr -> eterm_stateinfo -> Prop) :
  Inv h live loose dying ->
  (malloc h = None -> Q None h) ->
  (forall a h', Inv h' live loose ({[a]} ∪ dying) -> a ∉ dying -> Q (Some a) h') ->
  wpH (erl_eterm_alloc malloc) Q h.
Proof.
  intros Hi HN HS. pose proof Hi as [Hl _ _ _ Hd (fl & Hch & Hnd & Hfd & Hall) _].
  unfold wpH, erl_eterm_alloc. destruct (freelist h) as [a |] eqn:Efl.
  - destruct fl as [| a' fl]; [done |]. destruct Hch as ([= <-] & b & Hb & Hfr & Hch). rewrite Hb.
    inversion_clear Hnd as [| ? ? Hafl Hnd'].
    assert (Hn : live !! a = None).
    { destruct (live !! a) as [u |] eqn:E; [| done]. destruct (Hl a u E) as [nx Hx]. rewrite Hb in Hx.
      injection Hx as ->. done. }
    assert (Had : a ∉ dying) by (intros Hin; destruct (Hd a Hin) as (_ & b' & Hb' & Hf'); congruence).
    apply HS; [| done]. replace (freed h - 1) with (len fl) by (cbn [length] in Hfd; lia).
    apply enter_ok; try done. intros c Hc. destruct (Hall c Hc) as [? | [? | Hx]]; [auto.. |].
    apply elem_of_cons in Hx as [-> | ?]; auto.
  - destruct (malloc h) as [a |] eqn:Em; [| by apply HN]. apply malloc_fresh in Em as Hfresh.
    destruct fl as [| x fl]; [| by destruct Hch].
    assert (Hn : live !! a = None).
    { destruct (live !! a) as [u |] eqn:E; [| done]. destruct (Hl a u E) as [nx Hx]. congruence. }
    assert (Had : a ∉ dying) by (intros Hin; destruct (Hd a Hin) as (_ & b' & Hb' & Hf'); congruence).
    apply HS; [| done]. rewrite Hfd. apply enter_ok; try done; [by intros ?%elem_of_nil |].
    intros c Hc. destruct (Hall c Hc) as [? | [? | ?]]; auto.
Qed.

Lemma upd_ok h live loose dying a f (Q : unit -> eterm_stateinfo -> Prop) b :
  Inv h live loose dying -> a ∈ dying -> blocks h !! a = Some b -> free (f b) = false ->
  (forall h', Inv h' live loose dying -> blocks h' !! a = Some (f b) -> Q tt h') ->
  wpH (upd a f) Q h.
Proof.
  intros Hi Hin Hb Hf HQ. unfold wpH, upd. rewrite Hb. apply HQ.
  - by apply set_dying.
  - cbn [set_block blocks]. apply lookup_insert_eq.
Qed.

Lemma new_cell_ok h live loose dying u (Q : addr -> eterm_stateinfo -> Prop) :
  Inv h live loose dying ->
  (forall a h' nx, Inv h' live loose ({[a]} ∪ dying) -> a ∉ dying ->
    blocks h' !! a = Some (FixBlock 1 u nx false) -> Q a h') ->
  wpH (new_cell malloc u) Q h.
Proof.
  intros Hi HQ. unfold new_cell, erl_alloc_eterm. apply wpH_bind, wpH_bind.
  eapply eterm_alloc_ok; [exact Hi | intros Hm; by exists h |].
  intros a h1 Hi1 Had. assert (Hin : a ∈ {[a]} ∪ dying) by set_solver.
  pose proof (i_dying _ _ _ _ Hi1 a Hin) as (Hn & b & Hb & Hf).
  apply wpH_bind. eapply upd_ok; [exact Hi1 | exact Hin | exact Hb | exact Hf |].
  intros h2 Hi2 Hb2. apply wpH_ret, wpH_bind. eapply upd_ok; [exact Hi2 | exact Hin | exact Hb2 | exact Hf |].
  intros h3 Hi3 Hb3. apply wpH_bind. eapply upd_ok; [exact Hi3 | exact Hin | exact Hb3 | exact Hf |].
  intros h4 Hi4 Hb4. apply wpH_ret. eapply HQ; [exact Hi4 | exact Had |].
  rewrite Hb4. unfold set_val, set_count. cbn [count val next free]. rewrite Hf. reflexivity.
Qed.

Lemma inc_all_ok es : forall h live loose dying (Q : unit -> eterm_stateinfo -> Prop),
  Inv h live loose dying -> Forall (fun e => is_Some (live !! e)) es ->
  Z.of_nat (size (total live loose)) + len es <= ERL_MAX_COUNT ->
  (forall h', Inv h' live (ms es ⊎ loose) dying ->
    (forall b, live !! b = None -> blocks h' !! b = blocks h !! b) -> Q tt h') ->
  wpH (inc_all es) Q h.
Proof.
  induction es as [| e es IH]; intros h live loose dying Q Hi Hes Hsz HQ; cbn [inc_all].
  - apply wpH_ret, HQ; [| done]. replace (ms [] ⊎ loose) with loose by (clear; multiset_solver). done.
  - inversion_clear Hes as [| ? ? [u Hu] Hes']. cbn [length] in Hsz. apply wpH_bind. eapply inc_ok; [exact Hi | exact Hu | lia |].
    intros h1 Hi1 Hr1. eapply IH; [exact Hi1 | done | |].
    + unfold total in *. rewrite !gmultiset_size_disj_union, gmultiset_size_singleton in *. lia.
    + intros h2 Hi2 Hr2. apply HQ.
      * rewrite ms_cons. replace ({[+ e +]} ⊎ ms es ⊎ loose) with (ms es ⊎ ({[+ e +]} ⊎ loose)) by (clear; multiset_solver). done.
      * intros b Hb. rewrite Hr2 by done. apply Hr1. congruence.
Qed.

(** A new cell that refers to cells in use. *)
Lemma make_ok h live loose u es (Q : addr -> eterm_stateinfo -> Prop) :
  Inv h live loose ∅ -> refs u = es -> Forall (fun e => is_Some (live !! e)) es ->
  Z.of_nat (size (total live loose)) + len es < ERL_MAX_COUNT ->
  (forall a h', Inv h' (<[a := u]> live) ({[+ a +]} ⊎ loose) ∅ -> live !! a = None -> Q a h') ->
  wpH (let^ ep := new_cell malloc u in let^ _ := inc_all es in retH ep) Q h.
Proof.
  intros Hi Hu Hes Hsz HQ. apply wpH_bind. eapply new_cell_ok; [exact Hi |].
  intros a h1 nx Hi1 _ Hb1. pose proof (i_dying _ _ _ _ Hi1 a ltac:(set_solver)) as (Hn & _).
  apply wpH_bind. eapply inc_all_ok; [exact Hi1 | done | lia |].
  intros h2 Hi2 Hr2. apply wpH_ret, HQ; [| done].
  assert (Hd : ({[a]} ∪ ∅) ∖ {[a]} = (∅ : gset addr)) by set_solver. rewrite <- Hd at 1.
  eapply birth_ok; [by rewrite Hu | set_solver | by rewrite Hr2 |].
  unfold total in *. rewrite !gmultiset_size_disj_union in *. unfold ms. rewrite Hu.
  assert (size (list_to_set_disj es : gmultiset addr) = length es).
  { clear. induction es as [| e es IH]; [done |]. rewrite list_to_set_disj_cons, gmultiset_size_disj_union,
      gmultiset_size_singleton, IH. done. }
  lia.
Qed.

(** ** Freeing *)

Definition is_fun (u : uval) : bool := match u with U_fun _ _ _ _ _ _ _ _ => true | _ => false end.
Definition no_funs (live : gmap addr uval) : Prop := map_Forall (fun _ u => is_fun u = false) live.

(** What is left: fewer cells, all of them referred to. The parts of a fun keep
    the reference that the fun had; [leaked] are these. *)
Definition Freed (live : gmap addr uval) (loose : gmultiset addr) (dying : gset addr)
    (h' : eterm_stateinfo) : Prop :=
  exists live' leaked, Inv h' live' (leaked ⊎ loose) dying /\ used live' (leaked ⊎ loose) (fun _ => False) /\
    live' ⊆ live /\ (no_funs live -> leaked = ∅).

Lemma no_funs_subseteq live live' : live' ⊆ live -> no_funs live -> no_funs live'.
Proof. intros Hs Hn a u Hu. apply (Hn a), (lookup_weaken live'); done. Qed.

Lemma Freed_trans live live1 loose leaked dying h' :
  live1 ⊆ live -> (no_funs live -> leaked = ∅) ->
  Freed live1 (leaked ⊎ loose) dying h' -> Freed live loose dying h'.
Proof.
  intros Hs Hn (live' & leaked' & Hi & Hu & Hs' & Hn').
  exists live', (leaked' ⊎ leaked).
  replace (leaked' ⊎ leaked ⊎ loose) with (leaked' ⊎ (leaked ⊎ loose)) by (clear; multiset_solver).
  split; [done |]. split; [done |]. split; [by etransitivity |].
  intros Hnf. rewrite Hn, Hn'; [clear; multiset_solver | by eapply no_funs_subseteq | done].
Qed.

Lemma Freed_refl live loose dying h :
  Inv h live loose dying -> used live loose (fun _ => False) -> Freed live loose dying h.
Proof.
  intros Hi Hu. exists live, ∅. replace (∅ ⊎ loose) with loose by (clear; multiset_solver). done.
Qed.

(** The specification of a call for a cell whose reference has been taken away;
    it holds of calls with less fuel. *)
Definition frees_internal (fuel : nat) (free : option addr -> HM unit) : Prop :=
  forall a h live loose dying, (size live < fuel)%nat -> Inv h live loose dying ->
    is_Some (live !! a) -> used live loose (eq a) ->
    wpH (free (Some a)) (fun _ h' => Freed live loose dying h') h.

Lemma used_less live a loose :
  used live ({[+ a +]} ⊎ loose) (fun _ => False) -> used live loose (eq a).
Proof.
  intros Hu b Hb Hne. specialize (Hu b Hb ltac:(tauto)). unfold total in *.
  rewrite !mult_union, mult_singleton_ne in Hu by congruence. rewrite mult_union. lia.
Qed.

Lemma omap_cons_ms (o : option addr) l loose :
  ms (omap id (o :: l)) ⊎ loose = ms (omap id [o]) ⊎ (ms (omap id l) ⊎ loose).
Proof.
  change (o :: l) with ([o] ++ l). rewrite omap_app, ms_app. clear. multiset_solver.
Qed.

Lemma free_part_ok fuel free o h live loose dying :
  frees_internal fuel free -> (size live < fuel)%nat ->
  Inv h live (ms (omap id [o]) ⊎ loose) dying ->
  used live (ms (omap id [o]) ⊎ loose) (fun _ => False) ->
  wpH (free_part free o) (fun _ h' => Freed live loose dying h') h.
Proof.
  intros Hf Hs Hi Hu. unfold free_part. destruct o as [a |];
    [change (omap id [Some a]) with [a] in * | change (omap id [@None addr]) with (@nil addr) in *].
  - assert (He : ms [a] ⊎ loose = {[+ a +]} ⊎ loose) by (rewrite ms_cons; clear; multiset_solver).
    rewrite He in *. apply wpH_bind. eapply dec_ok; [exact Hi |]. intros h' Hi'.
    apply Hf; [done | done | | by apply used_less].
    apply (i_closed _ _ _ _ Hi). apply total_here.
  - replace (ms [] ⊎ loose) with loose in * by (clear; multiset_solver). by apply wpH_ret, Freed_refl.
Qed.

Lemma free_parts_ok fuel free l : frees_internal fuel free ->
  forall h live loose dying, (size live < fuel)%nat ->
  Inv h live (ms (omap id l) ⊎ loose) dying ->
  used live (ms (omap id l) ⊎ loose) (fun _ => False) ->
  wpH (free_parts free l) (fun _ h' => Freed live loose dying h') h.
Proof.
  intros Hf. induction l as [| o l IH]; intros h live loose dying Hs Hi Hu; cbn [free_parts].
  - replace (ms (omap id []) ⊎ loose) with loose in * by (clear; multiset_solver). by apply wpH_ret, Freed_refl.
  - assert (He : ms (omap id (o :: l)) ⊎ loose = ms (omap id [o]) ⊎ (ms (omap id l) ⊎ loose)).
    { apply omap_cons_ms. }
    rewrite He in *. apply wpH_bind. eapply wpH_mono; [| by eapply free_part_ok].
    intros _ h1 (live1 & leaked & Hi1 & Hu1 & Hs1 & Hn1).
    replace (leaked ⊎ (ms (omap id l) ⊎ loose)) with (ms (omap id l) ⊎ (leaked ⊎ loose)) in * by (clear; multiset_solver).
    eapply wpH_mono; [| eapply IH; [| exact Hi1 | exact Hu1]].
    + intros ? h' Hx. by eapply Freed_trans.
    + apply map_subseteq_size in Hs1. lia.
Qed.

(** The parts of a fun have their count still, so nothing is done. *)
Lemma free_undecremented_ok fuel l : forall h live loose dying,
  (0 < fuel)%nat -> Inv h live (ms (omap id l) ⊎ loose) dying ->
  used live (ms (omap id l) ⊎ loose) (fun _ => False) ->
  free_undecremented (fun o => free_term fuel o false false) l h = Go tt h.
Proof.
  induction l as [| o l IH]; intros h live loose dying Hf Hi Hu; [done |].
  cbn [free_undecremented]. unfold bindH.
  assert (He : ms (omap id (o :: l)) ⊎ loose = ms (omap id l) ⊎ (ms (omap id [o]) ⊎ loose)).
  { rewrite omap_cons_ms. clear. multiset_solver. }
  rewrite He in *. destruct fuel as [| fuel]; [lia |].
  assert (Hg : free_term (S fuel) o false false h = Go tt h).
  { destruct o as [a |]; [| done]. cbn [free_term]. unfold bindH, get_block.
    assert (Hin : a ∈ total live (ms (omap id l) ⊎ (ms (omap id [Some a]) ⊎ loose))).
    { unfold total. change (omap id [Some a]) with [a]. rewrite ms_cons. clear. multiset_solver. }
    destruct (i_closed _ _ _ _ Hi a Hin) as [u Ha]. destruct (i_live _ _ _ _ Hi a u Ha) as [nx Hb].
    rewrite Hb. cbn [count]. apply mult_pos in Hin. by rewrite (proj2 (Z.eqb_neq _ 0)) by lia. }
  rewrite Hg. by eapply IH.
Qed.

Lemma get_ok h live loose dying a u (Q : fix_block -> eterm_stateinfo -> Prop) :
  Inv h live loose dying -> live !! a = Some u ->
  (forall nx, Q (FixBlock (mult a (total live loose)) u nx false) h) -> wpH (get_block a) Q h.
Proof.
  intros Hi Hu HQ. destruct (i_live _ _ _ _ Hi a u Hu) as [nx Hb]. unfold wpH, get_block. by rewrite Hb.
Qed.

Lemma used_delete live a u loose :
  live !! a = Some u -> used live loose (eq a) ->
  used (delete a live) (ms (refs u) ⊎ loose) (fun _ => False).
Proof.
  intros Hu Hused b Hb _. destruct (decide (b = a)) as [-> | Hne].
  - rewrite lookup_delete_eq in Hb. by destruct Hb.
  - rewrite lookup_delete_ne in Hb by done. specialize (Hused b Hb ltac:(congruence)).
    unfold total in *. rewrite (all_refs_delete live a u Hu) in Hused.
    rewrite !mult_union in *. lia.
Qed.

(** A cell that is taken apart: its parts are freed by [parts], then the cell. *)
Lemma tear_down live a loose dying h1 (Q : unit -> eterm_stateinfo -> Prop) :
  a ∉ dying -> Freed (delete a live) loose ({[a]} ∪ dying) h1 ->
  (forall h', Freed live loose dying h' -> Q tt h') -> wpH (clear a) Q h1.
Proof.
  intros Had (live' & leaked & Hi & Hu & Hs & Hn) HQ. eapply clear_ok; [exact Hi | set_solver |].
  intros h' Hi'. apply HQ. exists live', leaked.
  replace (({[a]} ∪ dying) ∖ {[a]}) with dying in Hi' by set_solver.
  split; [done |]. split; [done |]. split; [by etransitivity; [| apply delete_subseteq] |].
  intros Hnf. apply Hn. eapply no_funs_subseteq; [apply delete_subseteq | done].
Qed.

(** The last part is freed after the cell itself. *)
Lemma tear_last fuel free live a t loose dying h1 (Q : unit -> eterm_stateinfo -> Prop) :
  frees_internal fuel free -> (size (delete a live) < fuel)%nat ->
  a ∉ dying -> Freed (delete a live) ({[+ t +]} ⊎ loose) ({[a]} ∪ dying) h1 ->
  (forall h', Freed live loose dying h' -> Q tt h') ->
  wpH (let^ _ := decr t in let^ _ := clear a in free (Some t)) Q h1.
Proof.
  intros Hf Hsz Had (live' & leaked & Hi & Hu & Hs & Hn) HQ.
  replace (leaked ⊎ ({[+ t +]} ⊎ loose)) with ({[+ t +]} ⊎ (leaked ⊎ loose)) in * by (clear; multiset_solver).
  apply wpH_bind. eapply dec_ok; [exact Hi |]. intros h2 Hi2.
  apply wpH_bind. eapply clear_ok; [exact Hi2 | set_solver |]. intros h3 Hi3.
  replace (({[a]} ∪ dying) ∖ {[a]}) with dying in Hi3 by set_solver.
  eapply wpH_mono; [| apply (Hf t h3 live' (leaked ⊎ loose) dying); [| done | | by apply used_less]].
  - intros [] h4 Hx. apply HQ. eapply (Freed_trans live live' loose leaked); [| | exact Hx].
    + by etransitivity; [| apply delete_subseteq].
    + intros Hnf. apply Hn. eapply no_funs_subseteq; [apply delete_subseteq | done].
  - apply map_subseteq_size in Hs. lia.
  - apply (i_closed _ _ _ _ Hi). apply total_here.
Qed.

Lemma free_internal_ok fuel : frees_internal fuel (fun o => free_term fuel o false false).
Proof.
  induction fuel as [| fuel IH]; intros a h live loose dying Hsz Hi [u Ha] Hused; [lia |].
  cbn [free_term]. apply wpH_bind. eapply get_ok; [exact Hi | exact Ha |]. intros nx. cbn [count val orb].
  destruct (Z.eqb_spec (mult a (total live loose)) 0) as [H0 | H0].
  2:{ apply wpH_ret, Freed_refl; [done |]. intros b Hb _. destruct (decide (a = b)) as [<- | Hne].
      - unfold mult in *. lia.
      - by apply Hused. }
  pose proof (death_ok _ _ _ _ _ _ Hi Ha H0) as Hd. pose proof (used_delete _ _ _ _ Ha Hused) as Hu.
  assert (Had : a ∉ dying) by (intros Hin; destruct (i_dying _ _ _ _ Hi a Hin); congruence).
  assert (Hsd : (size (delete a live) < fuel)%nat).
  { rewrite map_size_delete_Some by (by eexists).
    assert (size live <> 0)%nat by (apply map_size_non_empty_iff; intros ->; by rewrite lookup_empty in Ha). lia. }
  assert (Hleaf : refs u = [] -> wpH (clear a) (fun _ h' => Freed live loose dying h') h).
  { intros Hr. rewrite Hr, ms_nil in *. eapply tear_down; [done | by apply Freed_refl | done]. }
  destruct u as [| t | name v | hd tl | es | ar md5 ni c m i q cl]; [by apply Hleaf.. | | | |].
  - destruct v as [v |]; [| by apply Hleaf]. change (refs (U_var name (Some v))) with [v] in *.
    rewrite ms_one in *.
    apply (tear_last fuel _ live a v loose dying h _ IH); [done | done | by apply Freed_refl | done].
  - change (refs (U_list hd tl)) with (omap id [hd; tl]) in *. rewrite omap_cons_ms in *.
    apply wpH_bind. eapply wpH_mono; [| by eapply free_part_ok].
    intros [] h1 Hx. destruct tl as [tl |].
    + change (omap id [Some tl]) with [tl] in Hx. rewrite ms_one in Hx.
      apply (tear_last fuel _ live a tl loose dying h1 _ IH); [done | done | exact Hx | done].
    + change (omap id [@None addr]) with (@nil addr) in Hx. rewrite ms_nil in Hx. eapply tear_down; [done | exact Hx | done].
  - apply wpH_bind. eapply wpH_mono; [| by eapply (free_parts_ok fuel)].
    intros [] h1 Hx. eapply tear_down; [done | exact Hx | done].
  - apply wpH_bind. unfold wpH at 1.
    rewrite (free_undecremented_ok fuel _ h (delete a live) loose ({[a]} ∪ dying)); [| lia | exact Hd | exact Hu].
    eapply clear_ok; [exact Hd | set_solver |]. intros h' Hi'.
    replace (({[a]} ∪ dying) ∖ {[a]}) with dying in Hi' by set_solver.
    exists (delete a live), (ms (refs (U_fun ar md5 ni c m i q cl))). split; [exact Hi' |]. split; [exact Hu |].
    split; [apply delete_subseteq |]. intros Hnf. by specialize (Hnf a _ Ha).
Qed.

(** What a program holds, and gives back. *)
Lemma erl_free_term_ok fuel h live loose a (Q : unit -> eterm_stateinfo -> Prop) :
  Inv h live ({[+ a +]} ⊎ loose) ∅ -> used live ({[+ a +]} ⊎ loose) (fun _ => False) ->
  (size live + 1 < fuel)%nat ->
  (forall h', Freed live loose ∅ h' -> Q tt h') ->
  wpH (erl_free_term fuel (Some a)) Q h.
Proof.
  intros Hi Hu Hf HQ. destruct fuel as [| fuel]; [lia |].
  destruct (i_closed _ _ _ _ Hi a (total_here a live loose)) as [u Ha].
  unfold erl_free_term. cbn [free_term]. apply wpH_bind. eapply get_ok; [exact Hi | exact Ha |].
  intros nx. cbn [count val orb]. pose proof (proj1 (mult_pos a _) (total_here a live loose)) as Hp.
  rewrite (proj2 (Z.eqb_neq _ 0)) by lia. apply wpH_bind. eapply dec_ok; [exact Hi |]. intros h1 Hi1.
  eapply wpH_mono; [| apply (free_internal_ok fuel a h1 live loose ∅); [lia | done | by exists u | by apply used_less]].
  intros [] h' Hx. by apply HQ.
Qed.
End Run.
