(* ===== verification/RefcTerm.v ===== *)
(** * The heap of terms: what cells denote, and that programs keep it

    [den live a t]: the cell at [a] denotes the term [t]. [spec_call] is what a
    call does on terms; [keeps] that a program that makes the call gets the
    same. *)

From stdpp Require Import gmap gmultiset.
From S2P Require Import Prelude Mem Atom Eterm Refc RefcOk.

(** The terms that are one cell, with no pointers. *)
Definition is_leaf (t : ETERM) : bool :=
  match t with
  | Erl_List _ _ | Erl_Tuple _ | Erl_Variable _ _ | Erl_Function _ _ _ _ _ _ _ _ => false
  | _ => true
  end.

Fixpoint term_at (n : nat) (live : gmap addr uval) (a : addr) : option ETERM :=
  match n with
  | O => None
  | S n =>
      match live !! a with
      | Some (U_leaf t) => if is_leaf t then Some t else None
      | Some (U_var name None) => Some (Erl_Variable name None)
      | Some (U_var name (Some v)) =>
          match term_at n live v with Some t => Some (Erl_Variable name (Some t)) | None => None end
      | Some (U_list (Some h) (Some t)) =>
          match term_at n live h, term_at n live t with
          | Some h, Some t => Some (Erl_List h t)
          | _, _ => None
          end
      | Some (U_tuple es) =>
          match mapM (fun o => match o with Some e => term_at n live e | None => None end) es with
          | Some ts => Some (Erl_Tuple ts)
          | None => None
          end
      | _ => None
      end
  end.

Definition den (live : gmap addr uval) (a : addr) (t : ETERM) : Prop :=
  exists n, term_at n live a = Some t.

Definition closed (live : gmap addr uval) : Prop :=
  forall a u c, live !! a = Some u -> c ∈ refs u -> is_Some (live !! c).

(** A denotation only looks at the cells below. *)
Lemma term_at_shrink n live live' : live' ⊆ live -> closed live' -> forall a t,
  is_Some (live' !! a) -> term_at n live a = Some t -> term_at n live' a = Some t.
Proof.
  intros Hs Hc. induction n as [| n IH]; intros a t [u Hu]; cbn [term_at]; [done |].
  rewrite Hu, (lookup_weaken _ _ _ _ Hu Hs). specialize (Hc a u).
  destruct u as [| l | name [v |] | [hd |] [tl |] | es |]; try done.
  - destruct (term_at n live v) as [t' |] eqn:E; [| done].
    rewrite (IH v t') by (done || (apply Hc; [done | constructor])). done.
  - destruct (term_at n live hd) as [h' |] eqn:Eh; [| done].
    destruct (term_at n live tl) as [t' |] eqn:Et; [| done].
    rewrite (IH hd h'), (IH tl t') by (done || (apply Hc; [done | repeat constructor])). done.
  - destruct (mapM _ es) as [ts |] eqn:E; [| done]. intros [= <-].
    assert (Hm : mapM (fun o => match o with Some e => term_at n live' e | None => None end) es = Some ts).
    { apply mapM_Some. apply mapM_Some in E. specialize (fun c => Hc c Hu). cbn [refs] in Hc. clear Hu.
      induction E as [| o t' es ts Ho _ IHE]; [constructor |]. constructor.
      - destruct o as [e |]; [| done]. apply IH; [| done]. apply Hc. by constructor.
      - apply IHE. intros c Hx. apply Hc. destruct o; cbn; [by constructor | done]. }
    by rewrite Hm.
Qed.

Lemma term_at_weaken n live live' : live ⊆ live' -> forall a t,
  term_at n live a = Some t -> term_at n live' a = Some t.
Proof.
  intros Hs. induction n as [| n IH]; intros a t; cbn [term_at]; [done |].
  destruct (live !! a) as [u |] eqn:Hu; [| done]. rewrite (lookup_weaken _ _ _ _ Hu Hs).
  destruct u as [| l | name [v |] | [hd |] [tl |] | es |]; try done.
  - destruct (term_at n live v) as [t' |] eqn:E; [| done]. by rewrite (IH v t').
  - destruct (term_at n live hd) as [h' |] eqn:Eh; [| done].
    destruct (term_at n live tl) as [t' |] eqn:Et; [| done]. by rewrite (IH hd h'), (IH tl t').
  - destruct (mapM _ es) as [ts |] eqn:E; [| done]. intros [= <-].
    assert (Hm : mapM (fun o => match o with Some e => term_at n live' e | None => None end) es = Some ts).
    { apply mapM_Some. apply mapM_Some in E. eapply Forall2_impl; [| exact E].
      intros [e |] t' Ho; [by apply IH | done]. }
    by rewrite Hm.
Qed.

Lemma term_at_S n live : forall a t, term_at n live a = Some t -> term_at (S n) live a = Some t.
Proof.
  induction n as [| n IH]; intros a t; [done |]. intros H. cbn [term_at] in H |- *.
  destruct (live !! a) as [u |] eqn:Hu; [| done].
  destruct u as [| l | name [v |] | [hd |] [tl |] | es |]; try done.
  - destruct (term_at n live v) as [t' |] eqn:E; [| done]. apply IH in E. cbn [term_at] in E. by rewrite E.
  - destruct (term_at n live hd) as [h' |] eqn:Eh; [| done].
    destruct (term_at n live tl) as [t' |] eqn:Et; [| done].
    apply IH in Eh, Et. cbn [term_at] in Eh, Et. by rewrite Eh, Et.
  - destruct (mapM (fun o => match o with Some e => term_at n live e | None => None end) es) as [ts |] eqn:E; [| done].
    assert (Hm : mapM (fun o => match o with Some e => term_at (S n) live e | None => None end) es = Some ts).
    { apply mapM_Some. apply mapM_Some in E. eapply Forall2_impl; [| exact E].
      intros [e |] t' Ho; [by apply IH | done]. }
    cbn [term_at] in Hm. by rewrite Hm.
Qed.

Lemma term_at_le n m live a t : (n <= m)%nat -> term_at n live a = Some t -> term_at m live a = Some t.
Proof. induction 1; [done |]. intros. apply term_at_S. auto. Qed.

Lemma den_some live a t : den live a t -> is_Some (live !! a).
Proof. intros [[| n] H]; [done |]. cbn [term_at] in H. by destruct (live !! a). Qed.

Lemma den_weaken live live' a t : live ⊆ live' -> den live a t -> den live' a t.
Proof. intros Hs [n Hn]. exists n. by eapply term_at_weaken. Qed.
Lemma den_shrink live live' a t : live' ⊆ live -> closed live' -> is_Some (live' !! a) ->
  den live a t -> den live' a t.
Proof. intros Hs Hc Ha [n Hn]. exists n. by eapply term_at_shrink. Qed.

Lemma den_leaf live a t : live !! a = Some (U_leaf t) -> is_leaf t = true -> den live a t.
Proof. intros Ha Ht. exists 1%nat. cbn [term_at]. by rewrite Ha, Ht. Qed.
Lemma den_var live a name : live !! a = Some (U_var name None) ->
  den live a (Erl_Variable name None).
Proof. intros Ha. exists 1%nat. cbn [term_at]. by rewrite Ha. Qed.

Lemma den_list live a h t t1 t2 : live !! a = Some (U_list (Some h) (Some t)) ->
  den live h t1 -> den live t t2 -> den live a (Erl_List t1 t2).
Proof.
  intros Ha [n Hn] [m Hm]. exists (S (n + m)). cbn [term_at]. rewrite Ha.
  rewrite (term_at_le n (n + m) _ _ t1), (term_at_le m (n + m) _ _ t2) by (lia || done). done.
Qed.

Lemma den_all live es ts : Forall2 (den live) es ts ->
  exists n, Forall2 (fun e t => term_at n live e = Some t) es ts.
Proof.
  induction 1 as [| e t es ts [n Hn] _ [m Hm]]; [by exists O |]. exists (n + m)%nat.
  constructor; [apply (term_at_le n); [lia | done] |].
  eapply Forall2_impl; [| exact Hm]. intros ? ? ?. apply (term_at_le m); [lia | done].
Qed.

Lemma den_tuple live a es ts : live !! a = Some (U_tuple (Some <$> es)) ->
  Forall2 (den live) es ts -> den live a (Erl_Tuple ts).
Proof.
  intros Ha He. destruct (den_all live es ts He) as [n Hn]. exists (S n). cbn [term_at]. rewrite Ha.
  rewrite (proj2 (mapM_Some _ _ ts)); [done |]. clear - Hn. induction Hn; constructor; done.
Qed.

(** What a cell that denotes a term holds. *)
Lemma den_inv live a t : den live a t ->
  match t with
  | Erl_List t1 t2 => exists h tl,
      live !! a = Some (U_list (Some h) (Some tl)) /\ den live h t1 /\ den live tl t2
  | Erl_Tuple ts => exists es, live !! a = Some (U_tuple (Some <$> es)) /\ Forall2 (den live) es ts
  | _ => exists u, live !! a = Some u /\
      match u with U_leaf _ | U_var _ _ => True | _ => False end
  end.
Proof.
  intros [[| n] H]; [done |]. cbn [term_at] in H. destruct (live !! a) as [u |] eqn:Hu; [| done].
  destruct u as [| l | name [v |] | [hd |] [tl |] | es |]; try done.
  - destruct (is_leaf l) eqn:El; [| done]. injection H as <-. destruct l; try done; by eexists.
  - destruct (term_at n live v); [| done]. injection H as <-. by eexists.
  - injection H as <-. by eexists.
  - destruct (term_at n live hd) as [h' |] eqn:Eh; [| done]. destruct (term_at n live tl) as [t' |] eqn:Et; [| done].
    injection H as <-. exists hd, tl. split; [done |]. split; by exists n.
  - destruct (mapM _ es) as [ts |] eqn:E; [| done]. injection H as <-. apply mapM_Some in E.
    assert (Hx : exists es', es = Some <$> es' /\ Forall2 (den live) es' ts).
    { clear Hu. induction E as [| o t es ts Ho _ (es' & -> & IH)]; [by exists [] |].
      destruct o as [e |]; [| done]. exists (e :: es'). split; [done |]. constructor; [by exists n | done]. }
    destruct Hx as (es' & -> & Hx). by exists es'.
Qed.

(** ** Calls on terms *)

Definition spec_call (c : call) (env : list (option ETERM)) : list (option ETERM) :=
  match c with
  | Leaf t => env ++ [Some t]
  | Var name => env ++ [Some (Erl_Variable name None)]
  | Cons i j =>
      env ++ [match var env i, var env j with
              | Some h, Some t => Some (Erl_List h t)
              | _, _ => None
              end]
  | Tuple arr =>
      env ++ [match mapM id (var env <$> arr) with
              | Some ts => Some (Erl_Tuple ts)
              | None => None
              end]
  | List arr =>
      env ++ [match mapM id (var env <$> arr) with
              | Some ts => Some (foldr Erl_List Erl_EmptyList ts)
              | None => None
              end]
  | Head i => env ++ [match var env i with Some (Erl_List h _) => Some h | _ => None end]
  | Tail i => env ++ [match var env i with Some (Erl_List _ t) => Some t | _ => None end]
  | Element ix i =>
      env ++ [match var env i with
              | Some (Erl_Tuple ts) => if 0 <? ix then ts !! Z.to_nat (ix - 1) else None
              | _ => None
              end]
  | Free i => <[i := None]> env
  end.

Definition spec_calls (cs : list call) (env : list (option ETERM)) : list (option ETERM) :=
  fold_left (fun env c => spec_call c env) cs env.

(** [erl_element(0, ep)] reads in front of the array; leaves are what the
    functions for leaves make. *)
Definition call_ok (c : call) : bool :=
  match c with
  | Leaf t => is_leaf t
  | Element ix _ => negb (ix =? 0)
  | _ => true
  end.

(** The references a call adds, at most. *)
Definition weight (c : call) : Z :=
  match c with
  | Cons _ _ => 3
  | Tuple arr => 1 + len arr
  | List arr => 1 + 3 * len arr
  | Free _ => 0
  | _ => 1
  end.
Definition weights (cs : list call) : Z := foldr (fun c n => weight c + n) 0 cs.

Lemma weights_nonneg cs : 0 <= weights cs.
Proof.
  induction cs as [| c cs IH]; [done |]. cbn [weights foldr]. fold (weights cs). destruct c; cbn [weight]; lia.
Qed.

Definition rel1 (live : gmap addr uval) (o : option addr) (t : option ETERM) : Prop :=
  match o, t with
  | Some a, Some t => den live a t
  | None, None => True
  | _, _ => False
  end.

(** ** Each call *)

Section Calls.
Context (malloc : eterm_stateinfo -> option addr).
Context (malloc_fresh : forall h a, malloc h = Some a -> blocks h !! a = None).
Notation wp := (wpH malloc).

(** The heap with at most [w] references, all cells used but those of [exc]. *)
Record Good (w : Z) (h : eterm_stateinfo) (live : gmap addr uval) (loose : gmultiset addr)
    (exc : addr -> Prop) : Prop := {
  g_inv : Inv h live loose ∅;
  g_used : used live loose exc;
  g_funs : no_funs live;
  g_refs : Z.of_nat (size (total live loose)) <= w;
  g_size : Z.of_nat (size live) <= w
}.

Lemma size_ms l : size (ms l) = length l.
Proof.
  induction l as [| a l IH]; [done |]. rewrite ms_cons, gmultiset_size_disj_union,
    gmultiset_size_singleton, IH. done.
Qed.

Lemma insert_used live loose exc a u :
  live !! a = None -> used live loose exc -> (forall b, exc b -> b ∈ refs u) ->
  used (<[a := u]> live) ({[+ a +]} ⊎ loose) (fun _ => False).
Proof.
  intros Ha Hu Hexc b Hb _. unfold total. rewrite all_refs_insert, !mult_union by done.
  assert (Hnn : forall m : gmultiset addr, 0 <= mult b m) by (intros; unfold mult; lia).
  pose proof (Hnn loose). pose proof (Hnn (ms (refs u))). pose proof (Hnn (all_refs live)).
  destruct (decide (b = a)) as [-> | Hne]; [rewrite mult_singleton; lia |].
  rewrite mult_singleton_ne by done. rewrite lookup_insert_ne in Hb by done.
  destruct (decide (b ∈ refs u)) as [Hr | Hr].
  - apply elem_of_ms, mult_pos in Hr. lia.
  - assert (Hx : ~ exc b) by (intros Hx; by apply Hr, Hexc).
    specialize (Hu b Hb Hx). unfold total in Hu. rewrite mult_union in Hu. lia.
Qed.

Lemma make_good w h live loose exc u es (Q : addr -> eterm_stateinfo -> Prop) :
  Good w h live loose exc -> refs u = es -> Forall (fun e => is_Some (live !! e)) es ->
  is_fun u = false -> (forall b, exc b -> b ∈ refs u) -> w + 1 + len es <= ERL_MAX_COUNT ->
  (forall a h', live !! a = None ->
    Good (w + 1 + len es) h' (<[a := u]> live) ({[+ a +]} ⊎ loose) (fun _ => False) -> Q a h') ->
  wp (let^ ep := new_cell malloc u in let^ _ := inc_all es in retH ep) Q h.
Proof.
  intros [Hi Hu Hf Hr Hs] He Hes Hfu Hexc Hw HQ.
  eapply (make_ok malloc malloc_fresh); [exact Hi | exact He | done | lia |].
  intros a h' Hi' Ha. apply HQ; [done |]. split; [done | by eapply insert_used | | |].
  - by apply map_Forall_insert_2.
  - unfold total in *. rewrite all_refs_insert by done.
    rewrite !gmultiset_size_disj_union, gmultiset_size_singleton, size_ms, He in *. lia.
  - rewrite map_size_insert_None by done. lia.
Qed.

Lemma leaf_good w h live loose u (Q : addr -> eterm_stateinfo -> Prop) :
  Good w h live loose (fun _ => False) -> refs u = [] -> is_fun u = false -> w + 1 <= ERL_MAX_COUNT ->
  (forall a h', live !! a = None ->
    Good (w + 1) h' (<[a := u]> live) ({[+ a +]} ⊎ loose) (fun _ => False) -> Q a h') ->
  wp (new_cell malloc u) Q h.
Proof.
  intros Hg Hr Hf Hw HQ.
  pose proof (make_good w h live loose _ u [] Q Hg Hr (Forall_nil_2 _) Hf ltac:(done)
    ltac:(cbn [length]; lia)) as Hm.
  cbn [length] in Hm. replace (w + 1 + Z.of_nat 0) with (w + 1) in Hm by lia. specialize (Hm HQ).
  revert Hm. unfold wpH, bindH, inc_all, retH. by destruct (new_cell malloc u h).
Qed.

Lemma cons_good w h live loose exc hd tl (Q : addr -> eterm_stateinfo -> Prop) :
  Good w h live loose exc -> is_Some (live !! hd) -> is_Some (live !! tl) ->
  (forall b, exc b -> b = tl) -> w + 3 <= ERL_MAX_COUNT ->
  (forall a h', live !! a = None ->
    Good (w + 3) h' (<[a := U_list (Some hd) (Some tl)]> live) ({[+ a +]} ⊎ loose) (fun _ => False) ->
    Q a h') ->
  wp (cons_cell malloc hd tl) Q h.
Proof.
  intros Hg Hh Ht Hexc Hw HQ.
  pose proof (make_good w h live loose exc (U_list (Some hd) (Some tl)) [hd; tl] Q Hg eq_refl
    ltac:(by repeat constructor) eq_refl) as Hm. cbn [length] in Hm.
  replace (w + 1 + Z.of_nat 2) with (w + 3) in Hm by lia.
  specialize (Hm ltac:(intros b ->%Hexc; right; constructor) Hw HQ).
  revert Hm. unfold wpH, cons_cell, bindH, inc_all, retH.
  destruct (new_cell malloc _ h) as [a h1 | |]; [| done | done].
  unfold bindH. destruct (incr hd h1) as [[] h2 | |]; [| done | done].
  by destruct (incr tl h2) as [[] h3 | |].
Qed.

Lemma inc_good w h live loose a (Q : unit -> eterm_stateinfo -> Prop) :
  Good w h live loose (fun _ => False) -> is_Some (live !! a) -> w + 1 <= ERL_MAX_COUNT ->
  (forall h', Good (w + 1) h' live ({[+ a +]} ⊎ loose) (fun _ => False) -> Q tt h') ->
  wp (incr a) Q h.
Proof.
  intros [Hi Hu Hf Hr Hs] [u Ha] Hw HQ. eapply inc_ok; [exact Hi | exact Ha | lia |].
  intros h' Hi' _. apply HQ. split; try done.
  - intros b Hb Hx. specialize (Hu b Hb Hx). unfold total in *. rewrite !mult_union in *.
    unfold mult in *. lia.
  - unfold total in *. rewrite !gmultiset_size_disj_union, gmultiset_size_singleton in *. lia.
  - lia.
Qed.

Lemma dec_good w h live loose a (Q : unit -> eterm_stateinfo -> Prop) :
  Good w h live ({[+ a +]} ⊎ loose) (fun _ => False) ->
  (forall h', Good w h' live loose (eq a) -> Q tt h') -> wp (decr a) Q h.
Proof.
  intros [Hi Hu Hf Hr Hs] HQ. eapply dec_ok; [exact Hi |]. intros h' Hi'. apply HQ.
  split; try done; [by apply used_less |].
  unfold total in *. rewrite !gmultiset_size_disj_union, gmultiset_size_singleton in *. lia.
Qed.

Lemma all_refs_subseteq live' : forall live, live' ⊆ live -> all_refs live' ⊆ all_refs live.
Proof.
  induction live' as [| a u m Ha IH] using map_ind; intros live Hs.
  - change (all_refs ∅) with (∅ : gmultiset addr). clear. multiset_solver.
  - pose proof (lookup_weaken _ _ a u (lookup_insert_eq _ _ _) Hs) as Hu.
    rewrite (all_refs_delete live a u Hu), all_refs_insert by done.
    assert (Hm : m ⊆ delete a live).
    { apply map_subseteq_spec. intros b v Hb. rewrite lookup_delete_ne by congruence.
      eapply lookup_weaken; [| exact Hs]. by rewrite lookup_insert_ne by congruence. }
    specialize (IH _ Hm). clear - IH. multiset_solver.
Qed.

Lemma mk_list_loop_good es : forall ts w h live loose ep t (Q : addr -> eterm_stateinfo -> Prop),
  es <> [] -> Good w h live loose (eq ep) -> den live ep t -> Forall2 (den live) es ts ->
  w + 3 * len es <= ERL_MAX_COUNT ->
  (forall r h' live', live ⊆ live' -> den live' r (fold_left (fun tl hd => Erl_List hd tl) ts t) ->
    Forall (fun e => e ∈ all_refs live') es ->
    Good (w + 3 * len es) h' live' ({[+ r +]} ⊎ loose) (fun _ => False) -> Q r h') ->
  wp (mk_list_loop malloc es ep) Q h.
Proof.
  induction es as [| e es IH]; intros ts w h live loose ep t Q Hne Hg Hep Hes Hw HQ; [done |].
  destruct ts as [| t1 ts']; [by apply Forall2_length in Hes |].
  apply Forall2_cons_1 in Hes as [He Hes']. cbn [length fold_left] in *.
  assert (Hc : forall Q', (forall a h' live', live ⊆ live' -> den live' a (Erl_List t1 t) ->
      e ∈ all_refs live' -> Good (w + 3) h' live' ({[+ a +]} ⊎ loose) (fun _ => False) -> Q' a h') ->
    wp (cons_cell malloc e ep) Q' h).
  { intros Q' HQ'. eapply cons_good; [exact Hg | by eapply den_some | by eapply den_some | by intros b -> | lia |].
    intros a h' Ha Hg'. pose proof (insert_subseteq live a (U_list (Some e) (Some ep)) Ha) as Hsub.
    eapply HQ'; [exact Hsub | | | exact Hg'].
    - eapply den_list; [apply lookup_insert_eq | by eapply den_weaken | by eapply den_weaken].
    - eapply in_all_refs; [apply lookup_insert_eq | constructor]. }
  destruct es as [| e' es].
  - inversion Hes'; subst. apply Hc. intros a h' live' Hs Hd He1 Hg'. eapply HQ; [exact Hs | exact Hd | by repeat constructor |].
    cbn [length]. replace (w + 3 * Z.of_nat 1) with (w + 3) by lia. done.
  - cbn [mk_list_loop]. apply wpH_bind, Hc. intros a h1 live1 Hs Hd He1 Hg1.
    apply wpH_bind. eapply dec_good; [exact Hg1 |]. intros h2 Hg2.
    eapply (IH ts' (w + 3)); [done | exact Hg2 | exact Hd | | lia |].
    + eapply Forall2_impl; [| exact Hes']. intros ? ? ?. by eapply den_weaken.
    + intros r h' live' Hs' Hd' Hin Hg'. eapply HQ; [by etransitivity | exact Hd' | |].
      { constructor; [| exact Hin]. eapply gmultiset_elem_of_subseteq; [exact He1 | by apply all_refs_subseteq]. }
      replace (w + 3 * Z.of_nat (S (length (e' :: es)))) with (w + 3 + 3 * len (e' :: es)) by lia. done.
Qed.

Lemma Forall2_rev {A B} (P : A -> B -> Prop) l k : Forall2 P l k -> Forall2 P (rev l) (rev k).
Proof. induction 1; [constructor |]. cbn [rev]. apply Forall2_app; [done | by repeat constructor]. Qed.

(** A list: its empty list is used by the first cell. *)
Lemma mk_list_good es ts w h live loose (Q : addr -> eterm_stateinfo -> Prop) :
  Good w h live loose (fun _ => False) -> Forall2 (den live) es ts ->
  w + 1 + 3 * len es <= ERL_MAX_COUNT ->
  (forall r h' live', live ⊆ live' -> den live' r (foldr Erl_List Erl_EmptyList ts) ->
    Forall (fun e => e ∈ all_refs live') es ->
    Good (w + 1 + 3 * len es) h' live' ({[+ r +]} ⊎ loose) (fun _ => False) -> Q r h') ->
  wp (let^ ep := mk_empty_list malloc in
      let^ _ := (if 0 <? len es then decr ep else retH tt) in
      mk_list_loop malloc (rev es) ep) Q h.
Proof.
  intros Hg Hes Hw HQ. apply wpH_bind. eapply leaf_good; [exact Hg | done | done | lia |].
  intros a h1 Ha Hg1. pose proof (insert_subseteq live a (U_leaf Erl_EmptyList) Ha) as Hsub.
  assert (Hd : den (<[a := U_leaf Erl_EmptyList]> live) a Erl_EmptyList)
    by (apply den_leaf; [apply lookup_insert_eq | done]).
  apply wpH_bind. destruct es as [| e es].
  - inversion Hes; subst. apply wpH_ret, wpH_ret. eapply HQ; [exact Hsub | exact Hd | constructor |].
    cbn [length]. replace (w + 1 + 3 * Z.of_nat 0) with (w + 1) by lia. done.
  - rewrite (proj2 (Z.ltb_lt _ _)) by (cbn [length]; lia). eapply dec_good; [exact Hg1 |]. intros h2 Hg2.
    eapply (mk_list_loop_good (rev (e :: es)) (rev ts)); [| exact Hg2 | exact Hd | | |].
    + intros Hx. apply (f_equal length) in Hx. rewrite length_rev in Hx. done.
    + apply Forall2_rev. eapply Forall2_impl; [| exact Hes]. intros ? ? ?. by eapply den_weaken.
    + rewrite length_rev. lia.
    + intros r h' live' Hs' Hd' Hin Hg'. rewrite length_rev in Hg'. eapply HQ; [by etransitivity | | | done].
      2:{ rewrite <- (rev_involutive (e :: es)). by apply Forall_rev. }
      rewrite <- fold_left_rev_right, rev_involutive in Hd'. done.
Qed.

(** The program's variables hold what the terms say. *)
Definition held (env : list (option addr)) : gmultiset addr := ms (omap id env).

Record Holds (w : Z) (h : eterm_stateinfo) (env : list (option addr))
    (tenv : list (option ETERM)) (live : gmap addr uval) : Prop := {
  h_good : Good w h live (held env) (fun _ => False);
  h_rel : Forall2 (rel1 live) env tenv
}.

Lemma rel1_weaken live live' o t : live ⊆ live' -> rel1 live o t -> rel1 live' o t.
Proof. intros Hs. destruct o, t; cbn; try done. by apply den_weaken. Qed.

Lemma var_rel live env tenv i : Forall2 (rel1 live) env tenv -> rel1 live (var env i) (var tenv i).
Proof.
  intros H. unfold var. revert i. induction H as [| o t env tenv Ho _ IH]; intros [| i]; try done. apply IH.
Qed.

Lemma held_app env o : held (env ++ [o]) = held [o] ⊎ held env.
Proof. unfold held. rewrite omap_app, ms_app. apply (comm_L (⊎)). Qed.
Lemma held_some a : held [Some a] = {[+ a +]}.
Proof. unfold held. change (omap id [Some a]) with [a]. rewrite ms_cons. apply (right_id_L ∅ (⊎)). Qed.

(** What a call that returns something has to do. *)
Definition gives (w : Z) (h : eterm_stateinfo) (live : gmap addr uval) (loose : gmultiset addr)
    (r : option addr) (t : option ETERM) : Prop :=
  exists live', live ⊆ live' /\ rel1 live' r t /\ Good w h live' (held [r] ⊎ loose) (fun _ => False).

Lemma returns_ok w w' h env tenv live m t :
  Holds w h env tenv live ->
  wp m (fun r h' => gives w' h' live (held env) r t) h ->
  wp (returns m env) (fun env' h' => exists live', Holds w' h' env' (tenv ++ [t]) live') h.
Proof.
  intros [_ Hr] Hm. unfold returns. apply wpH_bind. eapply wpH_mono; [| exact Hm].
  intros r h' (live' & Hs & Ht & Hg). apply wpH_ret. exists live'. split.
  - by rewrite held_app.
  - apply Forall2_app; [| by repeat constructor]. eapply Forall2_impl; [| exact Hr].
    intros ? ?. by apply rel1_weaken.
Qed.

Lemma Good_le w w' h live loose exc : w <= w' -> Good w h live loose exc -> Good w' h live loose exc.
Proof. intros Hw [? ? ? ? ?]. split; try done; lia. Qed.

Lemma null_ok w w' h live loose : w <= w' -> Good w h live loose (fun _ => False) ->
  gives w' h live loose None None.
Proof.
  intros Hw Hg. exists live. split; [done |]. split; [done |]. unfold held.
  change (omap id [@None addr]) with (@nil addr). rewrite ms_nil. by eapply Good_le.
Qed.

Lemma some_ok w w' h live live' loose a t :
  live ⊆ live' -> den live' a t -> w <= w' -> Good w h live' ({[+ a +]} ⊎ loose) (fun _ => False) ->
  gives w' h live loose (Some a) (Some t).
Proof. intros Hs Hd Hw Hg. exists live'. rewrite held_some. split; [done |]. split; [done |]. by eapply Good_le. Qed.

Lemma all_there_rel live env tenv : Forall2 (rel1 live) env tenv ->
  match all_there env, mapM id tenv with
  | Some es, Some ts => Forall2 (den live) es ts /\ length es = length env
  | None, None => True
  | _, _ => False
  end.
Proof.
  unfold all_there. induction 1 as [| o t env tenv Ho _ IH]; [by split |].
  destruct o as [a |], t as [t |]; try done. cbn.
  destruct (mapM id env) as [es |], (mapM id tenv) as [ts |]; try done. cbn.
  destruct IH as [IH Hl]. split; [by constructor | cbn; by rewrite Hl].
Qed.

Lemma vars_rel live env tenv arr : Forall2 (rel1 live) env tenv ->
  Forall2 (rel1 live) (var env <$> arr) (var tenv <$> arr).
Proof. intros H. induction arr as [| i arr IH]; constructor; [by apply var_rel | done]. Qed.

Definition run_ok (w : Z) (m : HM (list (option addr))) (h : eterm_stateinfo)
    (tenv : list (option ETERM)) : Prop :=
  wp m (fun env' h' => exists live', Holds w h' env' tenv live') h.

Lemma tuple_call w h env tenv live arr :
  Holds w h env tenv live -> w + (1 + len arr) <= ERL_MAX_COUNT ->
  run_ok (w + (1 + len arr)) (returns (mk_tuple malloc (var env <$> arr)) env) h
    (spec_call (Tuple arr) tenv).
Proof.
  intros Hh Hw. eapply returns_ok; [exact Hh |]. destruct Hh as [Hg Hr].
  pose proof (all_there_rel _ _ _ (vars_rel _ _ _ arr Hr)) as Ha. unfold mk_tuple.
  destruct (all_there _) as [es |], (mapM id _) as [ts |]; try done.
  2:{ apply wpH_ret. eapply null_ok; [| exact Hg]. lia. }
  destruct Ha as [Ha Hl]. rewrite length_fmap in Hl.
  assert (Hrf : refs (U_tuple (Some <$> es)) = es).
  { cbn [refs]. clear. induction es as [| e es IH]; [done |]. cbn. by f_equal. }
  set (w' := w + (1 + len arr)) in *.
  assert (Hm : wp (let^ ep := new_cell malloc (U_tuple (Some <$> es)) in
      let^ _ := inc_all es in retH ep) (fun a h' => gives w' h' live (held env) (Some a) (Some (Erl_Tuple ts))) h).
  { eapply (make_good w h live (held env) _ _ es); [exact Hg | exact Hrf | | done | done | lia |].
    - clear - Ha. induction Ha; constructor; [by eapply den_some | done].
    - intros a h' Hn Hg'. eapply some_ok; [by apply insert_subseteq | | | exact Hg'].
      + eapply den_tuple; [apply lookup_insert_eq |]. eapply Forall2_impl; [| exact Ha].
        intros ? ? ?. eapply den_weaken; [by apply insert_subseteq | done].
      + lia. }
  revert Hm. unfold wpH, bindH, retH. destruct (new_cell malloc _ h) as [a h1 | |]; [| done | done].
  by destruct (inc_all es h1).
Qed.

Lemma list_call w h env tenv live arr :
  Holds w h env tenv live -> w + (1 + 3 * len arr) <= ERL_MAX_COUNT ->
  run_ok (w + (1 + 3 * len arr)) (returns (mk_list malloc (var env <$> arr)) env) h
    (spec_call (List arr) tenv).
Proof.
  intros Hh Hw. eapply returns_ok; [exact Hh |]. destruct Hh as [Hg Hr].
  pose proof (all_there_rel _ _ _ (vars_rel _ _ _ arr Hr)) as Ha. unfold mk_list.
  destruct (all_there _) as [es |], (mapM id _) as [ts |]; try done.
  2:{ apply wpH_ret. eapply null_ok; [| exact Hg]. lia. }
  destruct Ha as [Ha Hl]. rewrite length_fmap in Hl. set (w' := w + (1 + 3 * len arr)) in *.
  pose proof (mk_list_good es ts w h live (held env)
    (fun r h' => gives w' h' live (held env) (Some r) (Some (foldr Erl_List Erl_EmptyList ts)))
    Hg Ha ltac:(lia)) as Hm.
  assert (Hx : wp (let^ ep := mk_empty_list malloc in
      let^ _ := (if 0 <? len es then decr ep else retH tt) in mk_list_loop malloc (rev es) ep)
    (fun r h' => gives w' h' live (held env) (Some r) (Some (foldr Erl_List Erl_EmptyList ts))) h).
  { apply Hm. intros r h' live' Hs Hd _ Hg'. eapply some_ok; [exact Hs | exact Hd | | exact Hg']. lia. }
  revert Hx. unfold wpH, bindH, retH. destruct (mk_empty_list malloc h) as [a h1 | |]; [| done | done].
  cbv beta. destruct ((if 0 <? len es then decr a else (fun h => Go tt h)) h1) as [[] h2 | |]; [| done | done].
  by destruct (mk_list_loop malloc (rev es) a h2).
Qed.

Lemma cons_call w h env tenv live i j :
  Holds w h env tenv live -> w + 3 <= ERL_MAX_COUNT ->
  run_ok (w + 3) (returns (erl_cons malloc (var env i) (var env j)) env) h (spec_call (Cons i j) tenv).
Proof.
  intros Hh Hw. eapply returns_ok; [exact Hh |]. destruct Hh as [Hg Hr].
  pose proof (var_rel _ _ _ i Hr) as Hi. pose proof (var_rel _ _ _ j Hr) as Hj.
  assert (Hnull : gives (w + 3) h live (held env) None None) by (eapply null_ok; [| exact Hg]; lia).
  destruct (var env i) as [hd |], (var tenv i) as [t1 |]; try done;
    destruct (var env j) as [tl |], (var tenv j) as [t2 |]; try done.
  cbn [erl_cons]. apply wpH_bind. eapply cons_good; [exact Hg | by eapply den_some | by eapply den_some | done | done |].
  intros a h' Ha Hg'. apply wpH_ret. pose proof (insert_subseteq live a (U_list (Some hd) (Some tl)) Ha) as Hs.
  eapply some_ok; [exact Hs | | reflexivity | exact Hg'].
  eapply den_list; [apply lookup_insert_eq | by eapply den_weaken | by eapply den_weaken].
Qed.

Lemma leaf_call w h env tenv live u t :
  Holds w h env tenv live -> w + 1 <= ERL_MAX_COUNT -> refs u = [] -> is_fun u = false ->
  (forall live a, live !! a = Some u -> den live a t) ->
  run_ok (w + 1) (returns (let^ ep := new_cell malloc u in retH (Some ep)) env) h (tenv ++ [Some t]).
Proof.
  intros Hh Hw Hu Hf Hd. eapply returns_ok; [exact Hh |]. destruct Hh as [Hg Hr].
  apply wpH_bind. eapply leaf_good; [exact Hg | done | done | done |]. intros a h' Ha Hg'. apply wpH_ret.
  eapply some_ok; [by apply insert_subseteq | apply Hd, lookup_insert_eq | reflexivity | exact Hg'].
Qed.

(** [erl_hd], [erl_tl] and [erl_element] share what they return. *)
Lemma share_ok w h env tenv live a t :
  Holds w h env tenv live -> w + 1 <= ERL_MAX_COUNT -> den live a t ->
  wp (let^ _ := incr a in retH (Some a)) (fun r h' => gives (w + 1) h' live (held env) r (Some t)) h.
Proof.
  intros [Hg _] Hw Hd. apply wpH_bind. eapply inc_good; [exact Hg | by eapply den_some | done |].
  intros h' Hg'. apply wpH_ret. by eapply some_ok.
Qed.

Lemma get_good w h live loose exc a u (Q : fix_block -> eterm_stateinfo -> Prop) :
  Good w h live loose exc -> live !! a = Some u ->
  (forall b, val b = u -> Q b h) -> wp (get_block a) Q h.
Proof. intros Hg Ha HQ. eapply get_ok; [apply Hg | exact Ha |]. intros nx. by apply HQ. Qed.

Lemma part_call w h env tenv live i sel pick :
  (forall (A : Type) (x y : A), sel A x y = x) /\ pick = (fun t1 _ : ETERM => t1) \/
  (forall (A : Type) (x y : A), sel A x y = y) /\ pick = (fun _ t2 : ETERM => t2) ->
  Holds w h env tenv live -> w + 1 <= ERL_MAX_COUNT ->
  run_ok (w + 1) (returns (part_of_list (sel (option addr)) (var env i)) env) h
    (tenv ++ [match var tenv i with Some (Erl_List t1 t2) => Some (pick t1 t2) | _ => None end]).
Proof.
  intros Hsel Hh Hw. eapply returns_ok; [exact Hh |]. pose proof Hh as [Hg Hr].
  pose proof (var_rel _ _ _ i Hr) as Hi.
  assert (Hnull : gives (w + 1) h live (held env) None None) by (eapply null_ok; [| exact Hg]; lia).
  destruct (var env i) as [a |], (var tenv i) as [t |]; try done. cbn [part_of_list].
  pose proof (den_inv _ _ _ Hi) as Hinv. apply wpH_bind.
  destruct t as [| | | | | | | | | t1 t2 | | ts | | |];
    try (destruct Hinv as (cell & Ha & Hu); eapply get_good; [exact Hg | exact Ha |];
         intros blk Hb; rewrite Hb; destruct cell; first [exact Hnull | contradiction]).
  destruct Hinv as (hd & tl & Ha & H1 & H2). eapply get_good; [exact Hg | exact Ha |].
  intros b Hb. rewrite Hb. destruct Hsel as [[Hs ->] | [Hs ->]]; rewrite Hs; by eapply share_ok.
Qed.

Lemma element_call w h env tenv live ix i :
  Holds w h env tenv live -> w + 1 <= ERL_MAX_COUNT -> ix <> 0 ->
  run_ok (w + 1) (returns (element ix (var env i)) env) h (spec_call (Element ix i) tenv).
Proof.
  intros Hh Hw Hix. eapply returns_ok; [exact Hh |]. pose proof Hh as [Hg Hr].
  pose proof (var_rel _ _ _ i Hr) as Hi.
  assert (Hnull : gives (w + 1) h live (held env) None None) by (eapply null_ok; [| exact Hg]; lia).
  destruct (var env i) as [a |], (var tenv i) as [t |]; try done. cbn [element].
  pose proof (den_inv _ _ _ Hi) as Hinv. destruct (Z.ltb_spec ix 0) as [Hneg | Hpos].
  { apply wpH_ret. destruct t; try done. by rewrite (proj2 (Z.ltb_ge 0 ix)) by lia. }
  apply wpH_bind. rewrite (proj2 (Z.ltb_lt 0 ix)) by lia.
  destruct t as [| | | | | | | | | t1 t2 | | ts | | |];
    try (destruct Hinv as (cell & Ha & Hu); eapply get_good; [exact Hg | exact Ha |];
         intros blk Hb; rewrite Hb; destruct cell; first [exact Hnull | contradiction]).
  - destruct Hinv as (hd & tl & Ha & _). eapply get_good; [exact Hg | exact Ha |].
    intros b Hb. rewrite Hb. exact Hnull.
  - destruct Hinv as (es & Ha & He). eapply get_good; [exact Hg | exact Ha |].
    intros b Hb. rewrite Hb, length_fmap. pose proof (Forall2_length He) as Hl.
    destruct (Z.leb_spec ix (len es)).
    + rewrite (proj2 (Z.eqb_neq ix 0)) by done. rewrite list_lookup_fmap.
      destruct (lookup_lt_is_Some_2 es (Z.to_nat (ix - 1))) as [e Hx]; [lia |].
      destruct (Forall2_lookup_l _ _ _ _ _ He Hx) as (t & Ht & Hd). rewrite Hx, Ht. cbn [fmap option_fmap option_map].
      by eapply share_ok.
    + rewrite lookup_ge_None_2 by lia. by apply wpH_ret.
Qed.

(** A variable is given back. *)
Lemma held_free env i a : var env i = Some a ->
  held env = {[+ a +]} ⊎ held (<[i := None]> env).
Proof.
  assert (Hc : forall o l, held (o :: l) = held [o] ⊎ held l).
  { intros o l. unfold held. rewrite <- (right_id_L ∅ (⊎) (ms (omap id (o :: l)))), omap_cons_ms, (right_id_L ∅ (⊎)). done. }
  unfold var. revert i. induction env as [| o env IH]; intros [| i]; try done.
  - change (default None ((o :: env) !! 0%nat)) with o. intros ->.
    change (<[0%nat := None]> (Some a :: env)) with (@None addr :: env).
    rewrite (Hc (Some a) env), (Hc None env), held_some. change (held [@None addr]) with (∅ : gmultiset addr). by rewrite (left_id_L ∅ (⊎)).
  - intros Ha. specialize (IH i Ha). change (<[S i := None]> (o :: env)) with (o :: <[i := None]> env).
    rewrite (Hc o env), (Hc o (<[i := None]> env)), IH. clear. multiset_solver.
Qed.

Lemma free_null {A} (env : list (option A)) i : var env i = None -> <[i := None]> env = env.
Proof.
  unfold var. revert i. induction env as [| o env IH]; intros [| i]; try done; cbn.
  - by intros ->.
  - intros H. f_equal. by apply IH.
Qed.

Lemma closed_inv h live loose dying : Inv h live loose dying -> closed live.
Proof.
  intros Hi a u c Ha Hc. apply (i_closed _ _ _ _ Hi). pose proof (in_all_refs _ _ _ _ Ha Hc) as Hx.
  clear - Hx. unfold total. multiset_solver.
Qed.

Lemma Forall2_mem {A B} (P Q : A -> B -> Prop) l k :
  Forall2 P l k -> (forall x y, x ∈ l -> P x y -> Q x y) -> Forall2 Q l k.
Proof.
  induction 1 as [| x y l k Hx _ IH]; intros H; constructor.
  - apply H; [constructor | done].
  - apply IH. intros. apply H; [by constructor | done].
Qed.

Lemma free_call fuel w h env tenv live i :
  Holds w h env tenv live -> w + 1 < Z.of_nat fuel ->
  run_ok w (do_call malloc fuel (Free i) env) h (spec_call (Free i) tenv).
Proof.
  intros Hh Hf. pose proof Hh as [Hg Hr]. pose proof (var_rel _ _ _ i Hr) as Hi.
  unfold run_ok. cbn [do_call spec_call]. apply wpH_bind.
  destruct (var env i) as [a |] eqn:Ea, (var tenv i) as [t |] eqn:Et; try done.
  2:{ rewrite !free_null by done. pose proof (g_size _ _ _ _ _ Hg). unfold erl_free_term, wpH.
      destruct fuel; [lia |].
      cbn [free_term]. unfold retH. by exists live. }
  destruct Hg as [Hin Hu Hfn Hsz Hsl]. rewrite (held_free env i a Ea) in *.
  eapply (erl_free_term_ok malloc malloc_fresh); [exact Hin | exact Hu | lia |].
  intros h' (live' & leaked & Hin' & Hu' & Hs & Hl). rewrite (Hl Hfn), (left_id_L ∅ (⊎)) in *.
  apply wpH_ret. exists live'. split.
  - split; [done | done | by eapply no_funs_subseteq | |].
    + pose proof (gmultiset_subseteq_size _ _ (all_refs_subseteq _ _ Hs)).
      unfold total in *. rewrite !gmultiset_size_disj_union, gmultiset_size_singleton in *. lia.
    + apply map_subseteq_size in Hs. lia.
  - eapply Forall2_mem; [by apply Forall2_insert |]. intros o x Ho. destruct o as [b |], x as [t' |]; cbn; try done.
    apply den_shrink; [done | by eapply closed_inv |]. apply (i_closed _ _ _ _ Hin').
    assert (Hb : b ∈ held (<[i := None]> env)) by (apply elem_of_ms, list_elem_of_omap; by exists (Some b)).
    clear - Hb. unfold total. multiset_solver.
Qed.

(** ** Programs *)

Lemma call_ok_holds fuel c w h env tenv live :
  Holds w h env tenv live -> call_ok c = true -> w + weight c <= ERL_MAX_COUNT ->
  w + 1 < Z.of_nat fuel ->
  run_ok (w + weight c) (do_call malloc fuel c env) h (spec_call c tenv).
Proof.
  intros Hh Hc Hw Hf. destruct c as [t | name | i j | arr | arr | i | i | ix i | i]; cbn [do_call weight] in *.
  - eapply leaf_call; try done. intros. by apply den_leaf.
  - eapply leaf_call; try done. intros. by apply den_var.
  - by eapply cons_call.
  - by eapply tuple_call.
  - by eapply list_call.
  - apply (part_call w h env tenv live i (fun _ x _ => x) (fun t1 _ => t1)); [by left | done..].
  - apply (part_call w h env tenv live i (fun _ _ y => y) (fun _ t2 => t2)); [by right | done..].
  - eapply element_call; try done. cbn [call_ok] in Hc. lia.
  - replace (w + 0) with w in * by lia. by eapply free_call.
Qed.

Lemma calls_hold fuel cs : forall w h env tenv live,
  Holds w h env tenv live -> forallb call_ok cs = true -> w + weights cs <= ERL_MAX_COUNT ->
  w + weights cs + 1 < Z.of_nat fuel ->
  run_ok (w + weights cs) (do_calls malloc fuel cs env) h (spec_calls cs tenv).
Proof.
  induction cs as [| c cs IH]; intros w h env tenv live Hh Hc Hw Hf; cbn [do_calls].
  - cbn [weights foldr] in *. replace (w + 0) with w by lia. unfold run_ok. apply wpH_ret. by exists live.
  - cbn [forallb] in Hc. apply andb_true_iff in Hc as [Hc Hcs].
    cbn [weights foldr] in *. fold (weights cs) in *. pose proof (weights_nonneg cs).
    unfold run_ok. apply wpH_bind. eapply wpH_mono; [| eapply (call_ok_holds fuel c); [exact Hh | done | lia |]].
    + intros env' h' [live' Hh']. replace (w + (weight c + weights cs)) with (w + weight c + weights cs) by lia.
      eapply (IH (w + weight c)); [exact Hh' | done | lia | lia].
    + destruct c; cbn [weight] in *; lia.
Qed.
End Calls.
