(* ===== verification/RefcCorrect.v ===== *)
(** * The heap of terms: what programs can rely on

    A program that makes, shares and gives back terms gets what the calls mean on
    terms, its terms stay what they are while it holds them, and when it has
    given back everything nothing is left. Then what goes wrong. *)

From stdpp Require Import gmap gmultiset.
From S2P Require Import Prelude Mem Atom Eterm Refc RefcOk RefcTerm.

(** The cells in use. *)
Definition live_of (h : eterm_stateinfo) : gmap addr uval :=
  omap (fun b => if free b then None else Some (val b)) (blocks h).

Lemma live_of_inv h live loose : Inv h live loose ∅ -> live_of h = live.
Proof.
  intros Hi. apply map_eq. intros a. unfold live_of. rewrite lookup_omap.
  destruct (live !! a) as [u |] eqn:Ha.
  - destruct (i_live _ _ _ _ Hi a u Ha) as [nx Hb]. by rewrite Hb.
  - destruct (blocks h !! a) as [b |] eqn:Hb; [| done]. cbn.
    destruct (i_free _ _ _ _ Hi) as (fl & Hc & _ & _ & Hall).
    destruct (Hall a ltac:(by exists b)) as [[u Hu] | [Hd | Hx]]; [congruence | by apply elem_of_empty in Hd |].
    destruct (chain_free _ _ _ _ Hc Hx) as (b' & Hb' & Hf). rewrite Hb in Hb'. injection Hb' as <-. by rewrite Hf.
Qed.

(** Cells that refer to each other in no circle, all of them referred to, and no
    reference from outside: there are none. *)
Lemma nothing_left h live : Inv h live ∅ ∅ -> used live ∅ (fun _ => False) -> live = ∅.
Proof.
  intros Hi Hu. destruct (i_rank _ _ _ _ Hi) as [rank Hr].
  destruct (decide (live = ∅)) as [He | Hne]; [done |]. exfalso.
  assert (Hup : forall a, is_Some (live !! a) -> exists b, is_Some (live !! b) /\ (rank a < rank b)%nat).
  { intros a Ha. specialize (Hu a Ha ltac:(tauto)). unfold total in Hu. rewrite (left_id_L ∅ (⊎)) in Hu.
    apply mult_pos, all_refs_parent in Hu as (b & u & Hb & Hin). exists b. split; [by exists u | by eapply Hr]. }
  assert (Hn : forall n, exists a, is_Some (live !! a) /\ (n <= rank a)%nat).
  { induction n as [| n (a & Ha & Hn)].
    - destruct (map_choose live Hne) as (a & u & Ha). exists a. split; [by exists u | lia].
    - destruct (Hup a Ha) as (b & Hb & Hlt). exists b. split; [done | lia]. }
  destruct (Hn (S (max_rank rank (map_to_list live).*1))) as (a & [u Ha] & Hl).
  pose proof (max_rank_le rank (map_to_list live).*1 a) as Hm.
  assert (a ∈ (map_to_list live).*1) as Hin.
  { apply list_elem_of_fmap. exists (a, u). split; [done |]. by apply elem_of_map_to_list. }
  specialize (Hm Hin). lia.
Qed.

Lemma Inv_init : Inv erl_init_eterm_alloc ∅ ∅ ∅.
Proof.
  split; cbn; try done.
  - intros a H. apply mult_pos in H. done.
  - by exists (fun _ => O).
  - exists []. split; [done |]. split; [constructor |]. split; [done |]. intros a [b Hb]. done.
Qed.

Lemma Holds_init : Holds 0 erl_init_eterm_alloc [] [] ∅.
Proof.
  split; [| constructor]. change (held []) with (∅ : gmultiset addr).
  split; try done; try apply Inv_init. intros a [u Ha]. done.
Qed.

(** The environment of a run, from the start. *)
Lemma calls_from_start malloc fuel cs :
  (forall h a, malloc h = Some a -> blocks h !! a = None) -> (forall h, is_Some (malloc h)) ->
  forallb call_ok cs = true -> weights cs <= ERL_MAX_COUNT -> weights cs + 1 < Z.of_nat fuel ->
  exists env h live, do_calls malloc fuel cs [] erl_init_eterm_alloc = Go env h /\
    Holds (weights cs) h env (spec_calls cs []) live.
Proof.
  intros Hf Ht Hok Hw Hfu.
  pose proof (calls_hold malloc Hf fuel cs 0 _ _ _ _ Holds_init Hok Hw ltac:(lia)) as Hr.
  unfold run_ok, wpH in Hr. destruct (do_calls _ _ _ _ _) as [env h | |]; [| | done].
  - destruct Hr as [live Hl]. by exists env, h, live.
  - destruct Hr as [h Hn]. destruct (Ht h). congruence.
Qed.

(** C3: a program that makes terms, builds lists and tuples of them, takes these
    apart and gives terms back, in any order and however the terms are shared,
    runs to its end; each of its variables then denotes the very term that the
    calls mean, whatever has been given back in between, or is NULL where the
    calls mean NULL. The fuel needed is the number of references plus two; the
    counts have 24 bits, so this number must be below 2^24. *)
Theorem program_keeps_terms malloc fuel cs :
  (forall h a, malloc h = Some a -> blocks h !! a = None) -> (forall h, is_Some (malloc h)) ->
  forallb call_ok cs = true -> weights cs <= ERL_MAX_COUNT -> weights cs + 1 < Z.of_nat fuel ->
  exists env h, do_calls malloc fuel cs [] erl_init_eterm_alloc = Go env h /\
    Forall2 (rel1 (live_of h)) env (spec_calls cs []).
Proof.
  intros Hf Ht Hok Hw Hfu.
  destruct (calls_from_start malloc fuel cs Hf Ht Hok Hw Hfu) as (env & h & live & He & [Hg Hr]).
  exists env, h. split; [done |]. by rewrite (live_of_inv _ _ _ (g_inv _ _ _ _ _ Hg)).
Qed.

(** {X, [X, "a" | X]}, taken apart after its parts have been given back. *)
Definition sample_calls : list call :=
  [Leaf (Erl_Integer 7); Leaf (Erl_Binary [97]); Cons 1 0; Cons 0 2; Tuple [0; 3]%nat; Free 0; Free 1; Free 2;
   Free 3; Element 2 4; Free 4; Head 5; Free 5; Tail 6].

Definition count_up (h : eterm_stateinfo) : option addr := Some (fresh (dom (blocks h))).

Lemma count_up_fresh h a : count_up h = Some a -> blocks h !! a = None.
Proof. intros [= <-]. apply not_elem_of_dom, is_fresh. Qed.

Lemma program_keeps_terms_witness :
  exists env h, do_calls count_up 100 sample_calls [] erl_init_eterm_alloc = Go env h /\
    Forall2 (rel1 (live_of h)) env
      [None; None; None; None; None; None; Some (Erl_Integer 7); None].
Proof.
  apply (program_keeps_terms count_up 100 sample_calls count_up_fresh);
    [intros h; by eexists | done | vm_compute; discriminate | done].
Defined.

(** C5: the count of a cell is the number of references to it: after every program
    each cell that is in use has the count of the variables of the program and
    the places in cells that refer to it, at least one; and the allocator counts
    as many cells as are in use. *)
Theorem program_counts_references malloc fuel cs :
  (forall h a, malloc h = Some a -> blocks h !! a = None) -> (forall h, is_Some (malloc h)) ->
  forallb call_ok cs = true -> weights cs <= ERL_MAX_COUNT -> weights cs + 1 < Z.of_nat fuel ->
  exists env h, do_calls malloc fuel cs [] erl_init_eterm_alloc = Go env h /\
    fst (erl_eterm_statistics h) = Z.of_nat (size (live_of h)) /\
    forall a b, blocks h !! a = Some b -> free b = false ->
      count b = mult a (held env ⊎ all_refs (live_of h)) /\ 0 < count b.
Proof.
  intros Hf Ht Hok Hw Hfu.
  destruct (calls_from_start malloc fuel cs Hf Ht Hok Hw Hfu) as (env & h & live & He & [[Hi Hu _ _ _] _]).
  exists env, h. split; [done |]. rewrite (live_of_inv _ _ _ Hi). split.
  { cbn. rewrite (i_allocated _ _ _ _ Hi), size_empty. lia. }
  intros a b Hb Hfr. assert (Ha : live_of h !! a = Some (val b)).
  { unfold live_of. rewrite lookup_omap, Hb. cbn. by rewrite Hfr. }
  rewrite (live_of_inv _ _ _ Hi) in Ha. destruct (i_live _ _ _ _ Hi a _ Ha) as [nx Hb'].
  rewrite Hb in Hb'. injection Hb' as ->. cbn [count]. split; [done |]. apply Hu; [by eexists | tauto].
Qed.

Lemma program_counts_references_witness :
  exists env h, do_calls count_up 100 sample_calls [] erl_init_eterm_alloc = Go env h /\
    fst (erl_eterm_statistics h) = Z.of_nat (size (live_of h)) /\
    forall a b, blocks h !! a = Some b -> free b = false ->
      count b = mult a (held env ⊎ all_refs (live_of h)) /\ 0 < count b.
Proof.
  apply (program_counts_references count_up 100 sample_calls count_up_fresh);
    [intros h; by eexists | done | vm_compute; discriminate | done].
Defined.

Lemma chain_delete bl o fl a : a ∉ fl -> chain bl o fl -> chain (delete a bl) o fl.
Proof.
  intros Ha. apply chain_frame. intros b blk Hb Hblk _. rewrite lookup_delete_ne; [done |]. by intros ->.
Qed.

Lemma release_ok fl : forall fuel h, chain (blocks h) (freelist h) fl -> NoDup fl ->
  (length fl < fuel)%nat ->
  exists h', erl_eterm_release fuel h = Go tt h' /\ freed h' = freed h - len fl /\
    allocated h' = allocated h /\
    forall a, blocks h' !! a = if decide (a ∈ fl) then None else blocks h !! a.
Proof.
  induction fl as [| a fl IH]; intros [| fuel] h Hc Hnd Hl; try lia; cbn [erl_eterm_release].
  - cbn [chain] in Hc. rewrite Hc. exists h. split; [done |]. split; [cbn [length]; lia |]. split; [done |].
    intros a. by rewrite decide_False by apply not_elem_of_nil.
  - destruct Hc as (Hfl & b & Hb & Hf & Hc). rewrite Hfl, Hb. inversion_clear Hnd as [| ? ? Hna Hnd'].
    cbn [length] in *. destruct (IH fuel (State (delete a (blocks h)) (next b) (freed h - 1) (allocated h)))
      as (h' & He & Hfr & Hal & Hbl); [by apply chain_delete | done | lia |].
    exists h'. split; [done |]. cbn [freed allocated blocks] in *. split; [lia |]. split; [done |].
    intros c. rewrite Hbl. destruct (decide (c = a)) as [-> | Hne].
    + rewrite decide_False by done. rewrite decide_True by constructor. apply lookup_delete_eq.
    + rewrite lookup_delete_ne by done. destruct (decide (c ∈ fl)) as [Hi | Hi].
      * by rewrite decide_True by (by constructor).
      * rewrite decide_False; [done |]. intros Hx. by apply elem_of_cons in Hx as [? | ?].
Qed.

Lemma chain_size bl o fl : chain bl o fl -> NoDup fl -> (length fl <= size bl)%nat.
Proof.
  intros Hc Hnd. rewrite <- (size_dom bl), <- (size_list_to_set (C := gset addr) fl) by done.
  apply subseteq_size. intros a Ha. apply elem_of_list_to_set in Ha.
  destruct (chain_free _ _ _ _ Hc Ha) as (b & Hb & _). apply elem_of_dom. by exists b.
Qed.

(** Everything is on the freelist. *)
Lemma release_all h : Inv h ∅ ∅ ∅ -> exists h', erl_eterm_release (S (size (blocks h))) h = Go tt h' /\
  blocks h' = ∅ /\ erl_eterm_statistics h' = (0, 0).
Proof.
  intros [_ _ _ _ _ (fl & Hc & Hnd & Hf & Hall) Ha]. pose proof (chain_size _ _ _ Hc Hnd).
  destruct (release_ok fl (S (size (blocks h))) h Hc Hnd ltac:(lia)) as (h' & He & Hfr & Hal & Hbl).
  exists h'. split; [done |]. split.
  - apply map_eq. intros a. rewrite Hbl, lookup_empty. destruct (decide (a ∈ fl)) as [Hi | Hi]; [done |].
    destruct (blocks h !! a) as [b |] eqn:Hb; [| done].
    destruct (Hall a ltac:(by exists b)) as [[u Hu] | [Hx | Hx]]; [done | by apply elem_of_empty in Hx | done].
  - unfold erl_eterm_statistics. rewrite Hal, Hfr, Ha, Hf. rewrite map_size_empty, size_empty. f_equal; lia.
Qed.

(** C4: nothing leaks: when such a program has given back all its variables, no
    cell is in use, the allocator counts none as allocated, and
    [erl_eterm_release] hands every block back to free. *)
Theorem program_leaves_nothing malloc fuel cs :
  (forall h a, malloc h = Some a -> blocks h !! a = None) -> (forall h, is_Some (malloc h)) ->
  forallb call_ok cs = true -> weights cs <= ERL_MAX_COUNT -> weights cs + 1 < Z.of_nat fuel ->
  Forall (eq None) (spec_calls cs []) ->
  exists env h h', do_calls malloc fuel cs [] erl_init_eterm_alloc = Go env h /\
    live_of h = ∅ /\ fst (erl_eterm_statistics h) = 0 /\
    erl_eterm_release (S (size (blocks h))) h = Go tt h' /\
    blocks h' = ∅ /\ erl_eterm_statistics h' = (0, 0).
Proof.
  intros Hf Ht Hok Hw Hfu Hnone.
  destruct (calls_from_start malloc fuel cs Hf Ht Hok Hw Hfu) as (env & h & live & He & [[Hi Hu _ _ _] Hr]).
  assert (Hh : held env = ∅).
  { revert Hr Hnone. generalize (spec_calls cs []). clear. induction env as [| o env IH]; intros tenv Hr Hn; [done |].
    inversion Hr as [| ? t ? tenv' Ho Hr']; subst. inversion Hn as [| ? ? Ht Hn']; subst.
    destruct o as [a |]; [done |]. by apply (IH tenv'). }
  rewrite Hh in *. pose proof (nothing_left h live Hi Hu) as ->.
  destruct (release_all h Hi) as (h' & Hrel & Hb & Hs). exists env, h, h'.
  split; [done |]. split; [by eapply live_of_inv |]. split; [| done].
  cbn. rewrite (i_allocated _ _ _ _ Hi), map_size_empty, size_empty. done.
Qed.

Lemma program_leaves_nothing_witness :
  exists env h h', do_calls count_up 100 (sample_calls ++ [Free 6]) [] erl_init_eterm_alloc = Go env h /\
    live_of h = ∅ /\ fst (erl_eterm_statistics h) = 0 /\
    erl_eterm_release (S (size (blocks h))) h = Go tt h' /\
    blocks h' = ∅ /\ erl_eterm_statistics h' = (0, 0).
Proof.
  apply (program_leaves_nothing count_up 100 (sample_calls ++ [Free 6]) count_up_fresh);
    [intros h; by eexists | done | vm_compute; discriminate | done | repeat constructor].
Defined.

(** ** What goes wrong *)

Definition cell (n : Z) (u : uval) : fix_block := FixBlock n u None false.

(** A fun as the decoder makes it, each part with the one reference of the fun:
    when it is freed its parts stay allocated. *)
Definition fun_heap : eterm_stateinfo :=
  State (list_to_map
    [(1%positive, cell 1 (U_leaf (Erl_Integer 1))); (2%positive, cell 1 (U_leaf (Erl_Integer 2)));
     (3%positive, cell 1 (U_leaf (Erl_Integer 3))); (4%positive, cell 1 (U_leaf (Erl_Integer 4)));
     (5%positive, cell 1 (U_fun (-1) [] 0 (Some 1%positive) (Some 2%positive) (Some 3%positive)
        (Some 4%positive) []))]) None 0 5.

Lemma fun_parts_leak :
  exists h, erl_free_term 10 (Some 5%positive) fun_heap = Go tt h /\
    erl_eterm_statistics h = (4, 1) /\ live_of h !! 1%positive = Some (U_leaf (Erl_Integer 1)).
Proof. eexists. split; [vm_compute; reflexivity | by split]. Qed.

(** [erl_element(0, ep)] is not refused: it reads in front of the array. *)
Lemma element_zero es a h nx n :
  blocks h !! a = Some (FixBlock n (U_tuple es) nx false) -> element 0 (Some a) h = Wrong.
Proof.
  intros Ha. unfold element. cbn [Z.ltb Z.compare]. unfold bindH, get_block. rewrite Ha. cbn [val].
  rewrite (proj2 (Z.leb_le 0 (len es))) by lia. done.
Qed.

(** The reference that does not fit in 24 bits makes the count 0, and the cell is
    freed by the next [erl_free_term], whoever holds it. *)
Lemma count_wraps :
  exists h, incr 1%positive (State {[1%positive := cell ERL_MAX_COUNT (U_leaf Erl_EmptyList)]} None 0 1)
    = Go tt h /\
    exists h', erl_free_term 2 (Some 1%positive) h = Go tt h' /\ live_of h' = ∅.
Proof. eexists. split; [reflexivity |]. eexists. split; [reflexivity | by vm_compute]. Qed.
