(* ===== verification/Match.v ===== *)
(** * legacy/erl_format.c: matching a pattern with a term

    [erl_match] works on the heap of Refc.v: a pattern is a term with variables,
    and a match stores copies of subterms in the variables of its pattern. The
    comparison of atoms is of legacy/erl_marshal.c, copies and [erl_var_content]
    of legacy/erl_eterm.c. A text that finds no memory is left out. *)

From stdpp Require Import gmap.
From S2P Require Import Prelude Mem PutGet Ext Atom Data Eterm Refc.

(** ** erl_marshal.c *)

(** The ends are where the lists end; a step may go beyond. *)
Fixpoint cmp_latin1_vs_utf8 (sL sU : list Z) : Z :=
  match sL, sU with
  | cL :: sL', cU :: rU =>
      let UasL :=
        if 0x80 <=? cL then
          match rU with
          | u1 :: _ =>
              if cU <? 0xC4 then Some (Z.lor (Z.shiftl (Z.land cU 0x3) 6) (Z.land u1 0x3F))
              else None
          | [] => None
          end
        else Some cU in
      match UasL with
      | None => -1
      | Some UasL =>
          if cL <? UasL then -1 else if UasL <? cL then 1 else
          cmp_latin1_vs_utf8 sL'
            (drop (if cU <? 0x80 then 1 else if cU <? 0xE0 then 2 else if cU <? 0xF0 then 3 else 4) sU)
      end
  | _, _ => (match sU with [] => 1 | _ => 0 end) - (match sL with [] => 1 | _ => 0 end)
  end.

(** ** erl_eterm.c *)

(** [ERL_TYPE] *)
Definition erl_type (u : uval) : Z :=
  match u with
  | U_undef => ERL_UNDEF
  | U_leaf t => ERL_TYPE t
  | U_var _ _ => ERL_VARIABLE
  | U_list _ _ => ERL_LIST
  | U_tuple _ => ERL_TUPLE
  | U_fun _ _ _ _ _ _ _ _ => ERL_FUNCTION
  end.

(** [ERL_VAR_VALUE(a) = v] *)
Definition set_var_value (v : option addr) (b : fix_block) : fix_block :=
  match val b with
  | U_var name _ => set_val (U_var name v) b
  | _ => b
  end.

Fixpoint map_parts (f : option addr -> HM (option addr)) (l : list (option addr))
    : HM (list (option addr)) :=
  match l with
  | [] => retH []
  | o :: l => let^ o := f o in let^ l := map_parts f l in retH (o :: l)
  end.

Section Match.
Context (malloc : eterm_stateinfo -> option addr).

(** [fuel] is the depth of the term. A cell whose copy fails is freed: that of a
    variable has a name and a value that nothing has set. *)
Fixpoint copy_term (fuel : nat) (ep : option addr) : HM (option addr) :=
  match fuel, ep with
  | O, _ => wrongH
  | _, None => retH None
  | S fuel, Some ep =>
      let^ b := get_block ep in
      let^ cp := erl_alloc_eterm malloc in
      let^ _ := upd cp (set_count 1) in
      let fails := let^ _ := erl_free_term 2 (Some cp) in retH None in
      let copy u := let^ _ := upd cp (set_val u) in retH (Some cp) in
      match val b with
      | U_leaf t =>
          match erl_copy_term (fun _ => true) t with
          | Some (Some t) => copy (U_leaf t)
          | Some None => fails
          | None => wrongH
          end
      | U_list head tail =>
          let^ head := copy_term fuel head in
          let^ tail := copy_term fuel tail in
          copy (U_list head tail)
      | U_tuple elems =>
          let^ elems := map_parts (copy_term fuel) elems in
          copy (U_tuple elems)
      | U_fun arity md5 new_index creator module index uniq closure =>
          let^ index := copy_term fuel index in
          let^ uniq := copy_term fuel uniq in
          let^ creator := copy_term fuel creator in
          let^ module := copy_term fuel module in
          let^ closure := map_parts (copy_term fuel) closure in
          copy (U_fun arity md5 new_index creator module index uniq closure)
      | U_var _ _ => wrongH
      | U_undef => fails
      end
  end.

(** The value of the first variable called [name]. The loop over a list reads
    what is behind its last cell as if it were a cell, if it is not the empty
    list. *)
Section Content.
Context (content : option addr -> HM (option addr)).

Fixpoint content_of_cells (fuel : nat) (ep : option addr) : HM (option addr) :=
  match fuel, ep with
  | O, _ => wrongH
  | _, None => retH None
  | S fuel, Some ep =>
      let^ b := get_block ep in
      match val b with
      | U_leaf Erl_EmptyList => retH None
      | U_list head tail =>
          let^ vp := content head in
          match vp with Some _ => retH vp | None => content_of_cells fuel tail end
      | _ => wrongH
      end
  end.

Fixpoint content_of_elems (elems : list (option addr)) : HM (option addr) :=
  match elems with
  | [] => retH None
  | o :: elems =>
      let^ vp := content o in
      match vp with Some _ => retH vp | None => content_of_elems elems end
  end.
End Content.

Fixpoint erl_var_content (fuel : nat) (ep : option addr) (name : list Z) : HM (option addr) :=
  match fuel, ep with
  | O, _ => wrongH
  | _, None => retH None
  | S fuel, Some ep =>
      let^ b := get_block ep in
      match val b with
      | U_var nm v =>
          match v with
          | Some vp =>
              if bool_decide (c_str nm = c_str name) then
                let^ _ := incr vp in retH (Some vp)
              else retH None
          | None => retH None
          end
      | U_list _ _ =>
          content_of_cells (fun o => erl_var_content fuel o name) fuel (Some ep)
      | U_tuple elems => content_of_elems (fun o => erl_var_content fuel o name) elems
      | _ => retH None
      end
  end.

(** ** The chain of variables

    [chain]: the variables that this match has bound, the last one first. [idle]:
    how many links wait to be used again. *)
Record lvars := Ef { chain : list addr; idle : nat }.

Fixpoint find_lvar (ch : list addr) (name : list Z) : HM (option addr) :=
  match ch with
  | [] => retH None
  | a :: ch =>
      let^ b := get_block a in
      match val b with
      | U_var nm v => if bool_decide (c_str nm = c_str name) then retH v else find_lvar ch name
      | _ => wrongH
      end
  end.

Definition add_lvar (t : addr) (ef : lvars) : lvars := Ef (t :: chain ef) (pred (idle ef)).
Definition release_chain (ef : lvars) : lvars := Ef [] (idle ef + length (chain ef)).

Fixpoint undo_bindings (fuel : nat) (ch : list addr) : HM unit :=
  match ch with
  | [] => retH tt
  | a :: ch =>
      let^ b := get_block a in
      match val b with
      | U_var _ v =>
          let^ _ := erl_free_term fuel v in
          let^ _ := upd a (set_var_value None) in
          undo_bindings fuel ch
      | _ => wrongH
      end
  end.

(** ** Cells without pointers *)

Definition match_atoms (pa ta : Erl_Atom_data) : bool :=
  match utf8 pa, utf8 ta, latin1 pa, latin1 ta with
  | Some pu, Some tu, _, _ => (lenU pa =? lenU ta) && bool_decide (pu = tu)
  | _, _, Some pl, Some tl => (lenL pa =? lenL ta) && bool_decide (pl = tl)
  | _, tu, Some pl, None => cmp_latin1_vs_utf8 pl (default [] tu) =? 0
  | pu, _, None, tl => cmp_latin1_vs_utf8 (default [] tl) (default [] pu) =? 0
  end.

(** [strcmp(ERL_PID_NODE(p), ERL_PID_NODE(t)) == 0], and the like; the nodes
    keep the texts made. *)
Definition match_nodes (pn tn : Erl_Atom_data) : option (bool * Erl_Atom_data * Erl_Atom_data) :=
  let (ps, pn) := erl_atom_ptr_latin1 pn in
  let (ts, tn) := erl_atom_ptr_latin1 tn in
  match ps, ts with
  | Some ps, Some ts => Some (bool_decide (c_str ps = c_str ts), pn, tn)
  | _, _ => None
  end.

(** As many words as both have. *)
Fixpoint match_numbers (pn tn : list Z) : bool :=
  match pn, tn with
  | x :: pn, y :: tn => (x =? y) && match_numbers pn tn
  | _, _ => true
  end.

(** [==] on doubles. *)
Definition isnan (f : Z) : bool :=
  negb (isfinite f) && negb (Z.land f 0xfffffffffffff =? 0).
Definition same_double (f g : Z) : bool :=
  negb (isnan f) && negb (isnan g) &&
  ((f =? g) || (Z.land f 0x7fffffffffffffff =? 0) && (Z.land g 0x7fffffffffffffff =? 0)).

(** Two cells of one type: whether they match, and what they are then. *)
Definition match_leaf (p t : ETERM) : option (bool * ETERM * ETERM) :=
  match p, t with
  | Erl_Atom pa, Erl_Atom ta => Some (match_atoms pa ta, p, t)
  | Erl_Pid pn pnum pser pcre, Erl_Pid tn tnum tser tcre =>
      match match_nodes pn tn with
      | Some (e, pn, tn) =>
          Some (e && (pnum =? tnum) && (pser =? tser) && (pcre =? tcre),
                Erl_Pid pn pnum pser pcre, Erl_Pid tn tnum tser tcre)
      | None => None
      end
  | Erl_Port pn pnum pcre, Erl_Port tn tnum tcre =>
      match match_nodes pn tn with
      | Some (e, pn, tn) =>
          Some (e && (pnum =? tnum) && (pcre =? tcre),
                Erl_Port pn pnum pcre, Erl_Port tn tnum tcre)
      | None => None
      end
  | Erl_Ref pn pnum pcre, Erl_Ref tn tnum tcre =>
      match match_nodes pn tn with
      | Some (e, pn, tn) =>
          Some (e && (pcre =? tcre) && match_numbers pnum tnum,
                Erl_Ref pn pnum pcre, Erl_Ref tn tnum tcre)
      | None => None
      end
  | Erl_EmptyList, _ => Some (true, p, t)
  | Erl_Binary pb, Erl_Binary tb => Some ((len pb =? len tb) && bool_decide (pb = tb), p, t)
  | Erl_Integer i, Erl_Integer j => Some (i =? j, p, t)
  | Erl_Float f, Erl_Float g => Some (same_double f g, p, t)
  | _, _ => Some (false, p, t)
  end.

(** ** ematch

    [p] and [t] are read before anything changes; the value of a variable of
    [p] is read again. *)
Section Parts.
Context (em : option addr -> option addr -> lvars -> HM (bool * lvars)).

(** The loop over two lists; behind it what is left is matched. *)
Fixpoint match_cells (fuel : nat) (p t : option addr) (ef : lvars) : HM (bool * lvars) :=
  match fuel, p with
  | O, _ | _, None => wrongH
  | S fuel, Some pa =>
      let^ pb := get_block pa in
      match val pb with
      | U_list phead ptail =>
          match t with
          | None => wrongH
          | Some ta =>
              let^ tb := get_block ta in
              match val tb with
              | U_list thead ttail =>
                  let^ (r, ef) := em phead thead ef in
                  if negb r then retH (false, ef) else match_cells fuel ptail ttail ef
              | _ => em p t ef
              end
          end
      | _ => em p t ef
      end
  end.

Fixpoint match_elems (ps ts : list (option addr)) (ef : lvars) : HM (bool * lvars) :=
  match ps, ts with
  | [], _ => retH (true, ef)
  | p :: ps, t :: ts =>
      let^ (r, ef) := em p t ef in
      if negb r then retH (false, ef) else match_elems ps ts ef
  | _ :: _, [] => wrongH
  end.
End Parts.

Fixpoint ematch (fuel : nat) (p t : option addr) (ef : lvars) : HM (bool * lvars) :=
  match fuel with
  | O => wrongH
  | S fuel =>
      match p, t with
      | None, None => retH (true, ef)
      | Some p, Some t =>
          let^ pb := get_block p in
          let^ tb := get_block t in
          let type_p := erl_type (val pb) in
          let type_t := erl_type (val tb) in
          match (match val tb with U_var _ v => v | _ => Some t end) with
          | None => retH (false, ef)
          | Some t =>
              if negb (type_p =? ERL_VARIABLE) && negb (type_p =? type_t) then retH (false, ef)
              else
                match val pb, val tb with
                | U_var name v, _ =>
                    if bool_decide (c_str name = [95]) then retH (true, ef) else
                    let^ tmp := find_lvar (chain ef) name in
                    match tmp, v with
                    | Some tmp, None =>
                        let^ v := copy_term fuel (Some tmp) in
                        let^ _ := upd p (set_var_value v) in
                        ematch fuel v (Some t) ef
                    | Some _, Some _ => ematch fuel v (Some t) ef
                    | None, Some _ =>
                        let^ (r, ef) := ematch fuel v (Some t) ef in
                        if r then retH (true, add_lvar p ef) else retH (false, ef)
                    | None, None =>
                        let^ v := copy_term fuel (Some t) in
                        let^ _ := upd p (set_var_value v) in
                        retH (true, add_lvar p ef)
                    end
                | U_leaf lp, U_leaf lt =>
                    match match_leaf lp lt with
                    | Some (r, lp, lt) =>
                        let^ _ := upd p (set_val (U_leaf lp)) in
                        let^ _ := upd t (set_val (U_leaf lt)) in
                        retH (r, ef)
                    | None => wrongH
                    end
                | U_list _ _, _ => match_cells (ematch fuel) fuel (Some p) (Some t) ef
                | U_tuple ps, U_tuple ts =>
                    if negb (len ps =? len ts) then retH (false, ef)
                    else match_elems (ematch fuel) ps ts ef
                | _, _ => retH (false, ef)
                end
          end
      | _, _ => retH (false, ef)
      end
  end.

Definition erl_match (fuel : nat) (p t : option addr) (ef : lvars) : HM (bool * lvars) :=
  let^ (i, ef) := ematch fuel p t ef in
  let^ _ := (if negb i then undo_bindings fuel (chain ef) else retH tt) in
  retH (i, release_chain ef).
End Match.
