(* ===== verification/MatchTerm.v ===== *)
(** * Patterns and terms: what a match means

    [inst tau P T]: the term [T] is the pattern [P] with each variable replaced by
    what [tau] has for it. Terms are compared by [norm], in which the UTF-8 text
    of an atom and the sign of a zero do not count. [pat_ok] are the patterns and
    the terms for which [erl_match] decides this. *)

From stdpp Require Import gmap.
From S2P Require Import Prelude Mem PutGet Ext Atom Data Eterm MarshalOk MarshalRead EtermOk Refc RefcTerm Match.

(** ** Normal forms *)

Definition norm_name (d : Erl_Atom_data) : Erl_Atom_data :=
  match latin1 d with Some l => AtomData None (Some l) | None => d end.
Definition norm_float (f : Z) : Z := if Z.land f 0x7fffffffffffffff =? 0 then 0 else f.

Fixpoint norm (t : ETERM) : ETERM :=
  match t with
  | Erl_Float f => Erl_Float (norm_float f)
  | Erl_Atom d => Erl_Atom (norm_name d)
  | Erl_Pid d n s c => Erl_Pid (norm_name d) n s c
  | Erl_Port d n c => Erl_Port (norm_name d) n c
  | Erl_Ref d n c => Erl_Ref (norm_name d) n c
  | Erl_List h t => Erl_List (norm h) (norm t)
  | Erl_Tuple es => Erl_Tuple (norm <$> es)
  | _ => t
  end.

Lemma norm_type t : ERL_TYPE (norm t) = ERL_TYPE t.
Proof. by destruct t. Qed.
Lemma norm_is_leaf t : is_leaf (norm t) = is_leaf t.
Proof. by destruct t. Qed.

(** ** Patterns *)

Notation binding := (gmap (list Z) ETERM).
Definition any_name : list Z := [95].

Inductive inst (tau : binding) : ETERM -> ETERM -> Prop :=
  | inst_any v t : inst tau (Erl_Variable any_name v) t
  | inst_var name v t :
      name <> any_name -> tau !! name = Some (norm t) -> inst tau (Erl_Variable name v) t
  | inst_leaf p t : is_leaf p = true -> norm p = norm t -> inst tau p t
  | inst_list ph pt th tl : inst tau ph th -> inst tau pt tl ->
      inst tau (Erl_List ph pt) (Erl_List th tl)
  | inst_tuple ps ts : Forall2 (inst tau) ps ts -> inst tau (Erl_Tuple ps) (Erl_Tuple ts).

(** An atom of a pattern or term has a Latin-1 text. *)
Definition name_ok (d : Erl_Atom_data) : Prop :=
  exists l, latin1 d = Some l /\ chars l /\ opt_all (eq (utf8_of_latin1 l)) (utf8 d).

(** Cells that [erl_match] can compare: references have [k] words. *)
Inductive leaf_ok (k : Z) : ETERM -> Prop :=
  | leaf_integer i : leaf_ok k (Erl_Integer i)
  | leaf_float f : isnan f = false -> leaf_ok k (Erl_Float f)
  | leaf_atom d : name_ok d -> leaf_ok k (Erl_Atom d)
  | leaf_pid d n s c : name_ok d -> leaf_ok k (Erl_Pid d n s c)
  | leaf_port d n c : name_ok d -> leaf_ok k (Erl_Port d n c)
  | leaf_ref d n c : name_ok d -> len n = k -> leaf_ok k (Erl_Ref d n c)
  | leaf_nil : leaf_ok k Erl_EmptyList
  | leaf_binary b : leaf_ok k (Erl_Binary b).

(** Terms have no variables; the variables of a pattern are unbound. *)
Inductive pat_ok (k : Z) (pattern : bool) : ETERM -> Prop :=
  | pok_leaf t : leaf_ok k t -> pat_ok k pattern t
  | pok_list h t : pat_ok k pattern h -> pat_ok k pattern t -> pat_ok k pattern (Erl_List h t)
  | pok_tuple es : Forall (pat_ok k pattern) es -> pat_ok k pattern (Erl_Tuple es)
  | pok_var name : pattern = true -> chars name -> pat_ok k pattern (Erl_Variable name None).

Lemma leaf_ok_leaf k t : leaf_ok k t -> is_leaf t = true.
Proof. by destruct 1. Qed.

Lemma pat_ok_leaf k v t : pat_ok k v t -> is_leaf t = true -> leaf_ok k t.
Proof. by destruct 1. Qed.

(** How deep a term is, a list by its cells, and how many cells it has. *)
Fixpoint height (t : ETERM) : nat :=
  match t with
  | Erl_List h t => S (height h `max` height t)
  | Erl_Tuple es => S (foldr (fun e n => height e `max` n)%nat O es)
  | _ => O
  end.
Fixpoint cells (t : ETERM) : Z :=
  match t with
  | Erl_List h t => 1 + cells h + cells t
  | Erl_Tuple es => 1 + foldr (fun e n => cells e + n) 0 es
  | _ => 1
  end.

Lemma height_norm t : height (norm t) = height t.
Proof.
  induction t as [| | | | | | | | | h t IHh IHt | | | es IH | |] using ETERM_rec_all; try done; cbn [norm height].
  - by rewrite IHh, IHt.
  - f_equal. induction IH as [| e es He _ IHes]; [done |]. cbn. by rewrite He, IHes.
Qed.
Lemma cells_norm t : cells (norm t) = cells t.
Proof.
  induction t as [| | | | | | | | | h t IHh IHt | | | es IH | |] using ETERM_rec_all; try done; cbn [norm cells].
  - by rewrite IHh, IHt.
  - f_equal. induction IH as [| e es He _ IHes]; [done |]. cbn. by rewrite He, IHes.
Qed.

Lemma height_elem e es : e ∈ es -> (height e < height (Erl_Tuple es))%nat.
Proof.
  cbn [height]. induction es as [| x es IH]; intros Hin; [by apply elem_of_nil in Hin |].
  cbn [foldr]. apply elem_of_cons in Hin as [-> | Hin]; [lia |]. specialize (IH Hin). lia.
Qed.
Lemma cells_height t : Z.of_nat (height t) <= cells t /\ 1 <= cells t.
Proof.
  induction t as [| | | | | | | | | h t IHh IHt | | | es IH | |] using ETERM_rec_all; try done; cbn [height cells].
  - lia.
  - assert (Hx : Z.of_nat (foldr (fun e n => height e `max` n)%nat O es) <= foldr (fun e n => cells e + n) 0 es).
    { induction IH as [| e es He _ IHes]; [done |]. cbn [foldr]. lia. }
    lia.
Qed.
Lemma cells_elem e es : e ∈ es -> cells e <= cells (Erl_Tuple es).
Proof.
  cbn [cells]. intros Hin. assert (Hx : cells e <= foldr (fun e n => cells e + n) 0 es).
  { induction es as [| x es IH]; [by apply elem_of_nil in Hin |].
    cbn [foldr]. pose proof (cells_height x).
    assert (0 <= foldr (fun e n => cells e + n) 0 es).
    { clear. induction es as [| y es IH]; [done |]. cbn [foldr]. pose proof (cells_height y). lia. }
    apply elem_of_cons in Hin as [-> | Hin]; [lia |]. specialize (IH Hin). lia. }
  lia.
Qed.

(** ** Instances *)

Lemma inst_mono tau tau' p t : tau ⊆ tau' -> inst tau p t -> inst tau' p t.
Proof.
  intros Hs. revert t. induction p as [| | | | | | | | | h tl IHh IHt | | | es IH | |] using ETERM_rec_all;
    intros t; inversion 1; subst; try discriminate;
    try (by apply inst_any); try (by apply inst_leaf).
  - apply inst_list; auto.
  - apply inst_tuple. match goal with H : Forall2 _ es _ |- _ => rename H into Hf end.
    clear -IH Hf. induction Hf as [| p t ps ts Hp _ IHf]; [constructor |].
    inversion_clear IH. constructor; auto.
  - apply inst_var; [done |]. by eapply lookup_weaken.
Qed.

Lemma norm_name_eq a b : name_ok a -> name_ok b -> (latin1 a = latin1 b <-> norm_name a = norm_name b).
Proof.
  intros (l & Hl & _) (l' & Hl' & _). unfold norm_name. rewrite Hl, Hl'. split; congruence.
Qed.

Lemma same_double_ok f g : isnan f = false -> isnan g = false ->
  same_double f g = true <-> norm_float f = norm_float g.
Proof.
  intros Hf Hg. unfold same_double, norm_float. rewrite Hf, Hg. cbn [negb andb].
  set (x := Z.land f _) in *. set (y := Z.land g _) in *.
  destruct (Z.eqb_spec f g) as [-> | Hne]; cbn [orb]; [done |].
  destruct (Z.eqb_spec x 0) as [Hx | Hx], (Z.eqb_spec y 0) as [Hy | Hy]; cbn [andb]; split; intros H; try done.
  - subst g. by unfold y in Hy.
  - subst f. by unfold x in Hx.
Qed.

Lemma match_numbers_ok l : forall m, length l = length m -> match_numbers l m = true <-> l = m.
Proof.
  induction l as [| x l IH]; intros [| y m] Hl; try done. cbn [match_numbers].
  rewrite andb_true_iff, Z.eqb_eq, IH by (by injection Hl). split; [intros [-> ->]; done | by intros [= -> ->]].
Qed.

Lemma len_bool {A} (l m : list A) `{EqDecision A} :
  (len l =? len m) && bool_decide (l = m) = true <-> l = m.
Proof.
  rewrite andb_true_iff, Z.eqb_eq, bool_decide_eq_true. split; [tauto | intros ->; done].
Qed.

Lemma utf8_of_latin1_inj a b : Forall is_byte a -> Forall is_byte b ->
  utf8_of_latin1 a = utf8_of_latin1 b -> a = b.
Proof.
  intros Ha Hb He. set (n := len a `max` len b).
  pose proof (utf8_to_latin1_loop_ok a 0 n Ha ltac:(lia)) as H1.
  pose proof (utf8_to_latin1_loop_ok b 0 n Hb ltac:(lia)) as H2. rewrite He, H2 in H1. congruence.
Qed.

(** With Latin-1 texts the comparison of a Latin-1 with a UTF-8 text is not
    needed. *)
Lemma match_atoms_ok a b : name_ok a -> name_ok b ->
  match_atoms a b = true <-> norm_name a = norm_name b.
Proof.
  intros Ha Hb. rewrite <- norm_name_eq by done. destruct Ha as (l & Hl & Hc & Hu), Hb as (l' & Hl' & Hc' & Hu').
  unfold match_atoms, lenU, lenL. rewrite Hl, Hl'.
  assert (Hd : (len (default [] (Some l)) =? len (default [] (Some l'))) && bool_decide (l = l') = true <-> Some l = Some l').
  { change (default [] (Some l)) with l. change (default [] (Some l')) with l'. rewrite len_bool. split; congruence. }
  destruct (utf8 a) as [u |] eqn:Ea, (utf8 b) as [u' |] eqn:Eb; try exact Hd.
  change (default [] (Some u)) with u. change (default [] (Some u')) with u'. cbn [opt_all] in *. subst u u'. rewrite len_bool. split; [| congruence]. intros He. f_equal.
  by apply utf8_of_latin1_inj; [apply chars_byte.. |].
Qed.

Lemma match_nodes_ok a b : name_ok a -> name_ok b ->
  exists r, match_nodes a b = Some (r, a, b) /\ (r = true <-> norm_name a = norm_name b).
Proof.
  intros Ha Hb. pose proof (norm_name_eq a b Ha Hb) as He.
  destruct Ha as (l & Hl & Hc & _), Hb as (l' & Hl' & Hc' & _).
  unfold match_nodes, erl_atom_ptr_latin1. rewrite Hl, Hl'. eexists. split; [done |].
  rewrite !c_str_of_chars, bool_decide_eq_true, <- He, Hl, Hl' by done. split; congruence.
Qed.

(** Two cells of one type. *)
Lemma match_leaf_ok k p t : leaf_ok k p -> leaf_ok k t -> ERL_TYPE p = ERL_TYPE t ->
  exists r, match_leaf p t = Some (r, p, t) /\ (r = true <-> norm p = norm t).
Proof.
  intros Hp Ht Hty. destruct Hp as [i | f Hf | d Hd | d n s c Hd | d n c Hd | d n c Hd Hn | | b];
    destruct Ht as [i' | f' Hf' | d' Hd' | d' n' s' c' Hd' | d' n' c' Hd' | d' n' c' Hd' Hn' | | b'];
    try discriminate; cbn [match_leaf norm].
  - eexists. split; [done |]. rewrite Z.eqb_eq. split; congruence.
  - eexists. split; [done |]. rewrite same_double_ok by done. split; congruence.
  - eexists. split; [done |]. rewrite match_atoms_ok by done. split; congruence.
  - destruct (match_nodes_ok d d' Hd Hd') as (r & -> & Hr). eexists. split; [done |].
    rewrite !andb_true_iff, !Z.eqb_eq, Hr. split; [intuition congruence | by intros [= -> -> -> ->]].
  - destruct (match_nodes_ok d d' Hd Hd') as (r & -> & Hr). eexists. split; [done |].
    rewrite !andb_true_iff, !Z.eqb_eq, Hr. split; [intuition congruence | by intros [= -> -> ->]].
  - destruct (match_nodes_ok d d' Hd Hd') as (r & -> & Hr). eexists. split; [done |].
    rewrite !andb_true_iff, !Z.eqb_eq, Hr, match_numbers_ok by lia.
    split; [intuition congruence | by intros [= -> -> ->]].
  - by eexists.
  - eexists. split; [done |]. rewrite len_bool. split; congruence.
Qed.

Lemma strsave_all l : chars l -> strsave (fun _ => true) l = Some l.
Proof. intros Hl. unfold strsave. by rewrite c_str_of_chars. Qed.

Lemma atom_copy_name d : name_ok d ->
  exists d', erl_atom_copy (fun _ => true) d = Some (d', true) /\ name_ok d' /\ norm_name d' = norm_name d.
Proof.
  intros (l & Hl & Hc & Hu). unfold erl_atom_copy, norm_name. destruct d as [u l0]. cbn [latin1 utf8] in *. subst l0.
  destruct (bool_decide (Some l = u)) eqn:E.
  - apply bool_decide_eq_true in E as <-. rewrite strsave_all by done. eexists. cbn [latin1 utf8].
    split; [by rewrite bool_decide_eq_false_2 |]. split; [| done]. by exists l.
  - rewrite strsave_all by done. eexists. cbn [latin1 utf8]. split; [by rewrite bool_decide_eq_false_2 |].
    split; [| done]. by exists l.
Qed.

Lemma copy_leaf_ok k t : leaf_ok k t ->
  exists t', erl_copy_term (fun _ => true) t = Some (Some t') /\ leaf_ok k t' /\ norm t' = norm t.
Proof.
  destruct 1 as [i | f Hf | d Hd | d n s c Hd | d n c Hd | d n c Hd Hn | | b]; cbn [erl_copy_term];
    try (eexists; split; [done |]; split; [by constructor | done]);
    destruct (atom_copy_name d Hd) as (d' & He & Hd' & Hn'); unfold copy_node; rewrite He;
    (eexists; split; [done |]; split; [by constructor | cbn [norm]; by rewrite Hn']).
Qed.

(** ** Patterns on the heap

    [pat_at vars live a p]: the cell at [a] is the pattern [p], whatever the values
    of its variables are; these are among [vars], but for the wildcards. *)
Inductive pat_at (vars : gset addr) (live : gmap addr uval) : addr -> ETERM -> Prop :=
  | at_var a name v : live !! a = Some (U_var name v) -> a ∈ vars \/ name = any_name ->
      pat_at vars live a (Erl_Variable name None)
  | at_leaf a t : live !! a = Some (U_leaf t) -> is_leaf t = true -> pat_at vars live a t
  | at_list a ha ta h t : live !! a = Some (U_list (Some ha) (Some ta)) ->
      pat_at vars live ha h -> pat_at vars live ta t -> pat_at vars live a (Erl_List h t)
  | at_tuple a es ps : live !! a = Some (U_tuple (Some <$> es)) ->
      Forall2 (pat_at vars live) es ps -> pat_at vars live a (Erl_Tuple ps).

(** The cells of [live] are in [live'], but for the values of the variables in
    [vars]. *)
Definition rebinds (vars : gset addr) (live live' : gmap addr uval) : Prop := forall a u, live !! a = Some u ->
  live' !! a = Some u \/
  a ∈ vars /\ exists name v v', u = U_var name v /\ live' !! a = Some (U_var name v').

Section Rebinds.
Context (vars : gset addr).
Notation rebinds := (rebinds vars).

Lemma rebinds_refl live : rebinds live live.
Proof. intros a u Ha. by left. Qed.
Lemma rebinds_trans l1 l2 l3 : rebinds l1 l2 -> rebinds l2 l3 -> rebinds l1 l3.
Proof.
  intros H1 H2 a u Ha. destruct (H1 a u Ha) as [Hb | (Hv & name & v & v' & -> & Hb)].
  - by apply H2.
  - right. split; [done |]. destruct (H2 _ _ Hb) as [Hc | (_ & n & w & w' & [= <- <-] & Hc)]; eauto 6.
Qed.
Lemma rebinds_subseteq live live' : live ⊆ live' -> rebinds live live'.
Proof. intros Hs a u Ha. left. by eapply lookup_weaken. Qed.

Lemma pat_at_mono X X' live live' : X ⊆ X' -> rebinds live live' ->
  forall p a, pat_at X live a p -> pat_at X' live' a p.
Proof.
  intros HX Hr. induction p as [| | | | | | | | | h t IHh IHt | | | es IH | |] using ETERM_rec_all; intros a Hp;
    inversion Hp as [? ? ? Ha Hv | ? ? Ha Hl | ? ha ta ? ? Ha Hh Ht | ? es' ? Ha Hf]; subst; try discriminate;
    (destruct (Hr _ _ Ha) as [Hb | (Hb & nm & w & w' & He & Hb')]; [| try discriminate]);
    try (by apply at_leaf).
  - eapply at_list; eauto.
  - eapply at_tuple; [done |]. clear -IH Hf. induction Hf as [| e p es' ps Hp _ IHf]; [constructor |].
    inversion_clear IH. constructor; auto.
  - eapply at_var; [done |]. destruct Hv; [left; set_solver | by right].
  - injection He as <- <-. eapply at_var; [done |]. destruct Hv; [left; set_solver | by right].
Qed.

Lemma pat_at_rebinds X live live' p a : rebinds live live' -> pat_at X live a p -> pat_at X live' a p.
Proof. intros Hr. by apply pat_at_mono. Qed.
End Rebinds.

Lemma den_pat vars live k : forall t a, pat_ok k false t -> den live a t -> pat_at vars live a t.
Proof.
  induction t as [| | | | | | | | | h t IHh IHt | | | es IH | |] using ETERM_rec_all; intros a Hp Hd;
    inversion Hp as [? Hl | | | ? Hv]; subst; try discriminate; try (by inversion Hl).
  all: try (destruct Hd as [[| fu] Hd]; [done |]; cbn [term_at] in Hd;
    destruct (live !! a) as [u |] eqn:Ha; [| done];
    destruct u as [| l | name [v |] | [hd |] [tl |] | es |]; try done;
    [ destruct (is_leaf l) eqn:E; [| done]; injection Hd as ->; by apply at_leaf
    | destruct (term_at fu live v); discriminate
    | destruct (term_at fu live hd), (term_at fu live tl); discriminate
    | destruct (mapM _ es); discriminate]).
  - apply den_inv in Hd as (ha & ta & Ha & Hh & Ht). eapply at_list; eauto.
  - apply den_inv in Hd as (es' & Ha & Hf). eapply at_tuple; [done |].
    match goal with H : Forall (pat_ok k false) es |- _ => rename H into Ho end.
    clear -IH Hf Ho. revert es' Hf. induction es as [| e es IHes]; intros es' Hf; inversion Hf; subst; constructor.
    + inversion_clear IH. inversion_clear Ho. auto.
    + inversion_clear IH. inversion_clear Ho. auto.
Qed.
