(* ===== verification/MatchHeap.v ===== *)
(** * Matching on the heap: copies, and variables bound and unbound

    [trees live N rs ts]: the cells [N] are new, and are just copies of the terms
    [ts] with roots [rs]. A variable that gets a copy keeps the invariant of
    RefcOk.v, and one that gives it back leaves the heap as it was. *)

From stdpp Require Import gmap gmultiset.
From S2P Require Import Prelude Mem PutGet Ext Atom Data Eterm MarshalOk EtermOk Refc RefcOk RefcTerm Match MatchTerm.

(** ** New cells *)

Definition sum_cells (ts : list ETERM) : Z := foldr (fun t n => cells t + n) 0 ts.

(** A copy of [t] is at [r]. *)
Definition copy_at (k : Z) (N : gmap addr uval) (r : addr) (t : ETERM) : Prop :=
  exists t', den N r t' /\ pat_ok k false t' /\ norm t' = norm t.

Record trees (k : Z) (live N : gmap addr uval) (rs : list addr) (ts : list ETERM) : Prop := {
  tr_disj : N ##ₘ live;
  tr_closed : closed N;
  tr_used : used N (ms rs) (fun _ => False);
  tr_den : Forall2 (copy_at k N) rs ts;
  tr_size : Z.of_nat (size N) = sum_cells ts;
  tr_refs : Z.of_nat (size (all_refs N)) + len rs = sum_cells ts;
  tr_funs : no_funs N
}.

Lemma all_refs_union m1 : forall m2, m1 ##ₘ m2 -> all_refs (m1 ∪ m2) = all_refs m1 ⊎ all_refs m2.
Proof.
  induction m1 as [| a u m Ha IH] using map_ind; intros m2 Hd.
  - rewrite (left_id_L ∅ (∪)). change (all_refs ∅) with (∅ : gmultiset addr). by rewrite (left_id_L ∅ (⊎)).
  - apply map_disjoint_insert_l in Hd as [Ha2 Hd]. rewrite <- insert_union_l.
    rewrite !all_refs_insert by (done || by rewrite lookup_union_None). rewrite IH by done. clear. multiset_solver.
Qed.

Lemma closed_union m1 m2 : m1 ##ₘ m2 -> closed m1 -> closed m2 -> closed (m1 ∪ m2).
Proof.
  intros Hd H1 H2 a u c Ha Hc. apply lookup_union_is_Some. apply lookup_union_Some in Ha as [Ha | Ha]; [| | done].
  - left. by eapply H1.
  - right. by eapply H2.
Qed.

Lemma copy_at_weaken k N N' r t : N ⊆ N' -> copy_at k N r t -> copy_at k N' r t.
Proof. intros Hs (t' & Hd & Ht). exists t'. split; [by eapply den_weaken | done]. Qed.

Lemma copy_at_dom k N r t : copy_at k N r t -> is_Some (N !! r).
Proof. intros (t' & Hd & _). by eapply den_some. Qed.

Lemma trees_nil k live : trees k live ∅ [] [].
Proof.
  split; [apply map_disjoint_empty_l | | | constructor | done | done | done].
  - intros a u c Ha. by rewrite lookup_empty in Ha.
  - intros a [u Ha]. by rewrite lookup_empty in Ha.
Qed.

Lemma used_union m1 m2 l1 l2 :
  m1 ##ₘ m2 -> used m1 l1 (fun _ => False) -> used m2 l2 (fun _ => False) ->
  used (m1 ∪ m2) (l1 ⊎ l2) (fun _ => False).
Proof.
  intros Hd H1 H2 a Ha _. unfold total. rewrite all_refs_union, !mult_union by done.
  assert (Hnn : forall m : gmultiset addr, 0 <= mult a m) by (intros; unfold mult; lia).
  pose proof (Hnn l1). pose proof (Hnn l2). pose proof (Hnn (all_refs m1)). pose proof (Hnn (all_refs m2)).
  apply lookup_union_is_Some in Ha as [Ha | Ha].
  - specialize (H1 a Ha ltac:(tauto)). unfold total in H1. rewrite mult_union in H1. lia.
  - specialize (H2 a Ha ltac:(tauto)). unfold total in H2. rewrite mult_union in H2. lia.
Qed.

Lemma no_funs_union m1 m2 : no_funs m1 -> no_funs m2 -> no_funs (m1 ∪ m2).
Proof. intros H1 H2. by apply map_Forall_union_2. Qed.

Lemma trees_cons k live N1 N2 r t rs ts :
  trees k live N1 [r] [t] -> trees k (N1 ∪ live) N2 rs ts -> trees k live (N2 ∪ N1) (r :: rs) (t :: ts).
Proof.
  intros [D1 C1 U1 E1 S1 R1 F1] [D2 C2 U2 E2 S2 R2 F2].
  apply map_disjoint_union_r in D2 as [D2 D2'].
  assert (E1' : copy_at k N1 r t) by by inversion E1.
  split.
  - by apply map_disjoint_union_l_2.
  - by apply closed_union.
  - rewrite ms_cons, (comm_L (⊎) {[+ r +]}). apply used_union; [done | done |].
    rewrite ms_cons in U1. change (ms []) with (∅ : gmultiset addr) in U1. by rewrite (right_id_L ∅ (⊎)) in U1.
  - constructor.
    + eapply copy_at_weaken; [by apply map_union_subseteq_r | done].
    + eapply Forall2_impl; [| exact E2]. intros ? ? ?. eapply copy_at_weaken; [apply map_union_subseteq_l | done].
  - cbn [sum_cells foldr] in *. fold (sum_cells ts). rewrite map_size_disj_union by done. lia.
  - cbn [sum_cells foldr length] in *. fold (sum_cells ts).
    rewrite all_refs_union, gmultiset_size_disj_union by done. lia.
  - by apply no_funs_union.
Qed.

(** A new cell above. *)
Lemma trees_node k live N rs ts a u t :
  trees k live N rs ts -> live !! a = None -> N !! a = None -> refs u = rs -> is_fun u = false ->
  cells t = 1 + sum_cells ts -> copy_at k (<[a := u]> N) a t ->
  trees k live (<[a := u]> N) [a] [t].
Proof.
  intros [D C U E S R F] Hl Hn Hr Hf Hc Hd. split.
  - by apply map_disjoint_insert_l_2.
  - intros b v c Hb Hin. destruct (decide (c = a)) as [-> | Hne]; [by rewrite lookup_insert_eq |].
    rewrite lookup_insert_ne by done. destruct (decide (b = a)) as [-> | Hb'].
    + rewrite lookup_insert_eq in Hb. injection Hb as <-. rewrite Hr in Hin.
      clear -E Hin. induction E as [| r t rs ts H _ IH]; [by apply elem_of_nil in Hin |].
      apply elem_of_cons in Hin as [-> | Hin]; [by eapply copy_at_dom | by apply IH].
    + rewrite lookup_insert_ne in Hb by done. by eapply C.
  - intros b Hb _. unfold total. rewrite all_refs_insert, !mult_union, Hr by done.
    assert (Hnn : forall m : gmultiset addr, 0 <= mult b m) by (intros; unfold mult; lia).
    pose proof (Hnn (ms [a])). pose proof (Hnn (all_refs N)). pose proof (Hnn (ms rs)).
    destruct (decide (b = a)) as [-> | Hne].
    + rewrite ms_cons, mult_union, mult_singleton. pose proof (Hnn (ms [])).
      assert (0 <= mult a (ms [])) by (unfold mult; lia). lia.
    + rewrite lookup_insert_ne in Hb by done. specialize (U b Hb ltac:(tauto)). unfold total in U.
      rewrite mult_union in U. lia.
  - by repeat constructor.
  - rewrite map_size_insert_None by done. cbn [sum_cells foldr]. lia.
  - rewrite all_refs_insert, gmultiset_size_disj_union, size_ms, Hr by done. cbn [sum_cells foldr length]. lia.
  - by apply map_Forall_insert_2.
Qed.

(** ** erl_copy_term *)

Section Copy.
Context (malloc : eterm_stateinfo -> option addr).
Context (malloc_fresh : forall h a, malloc h = Some a -> blocks h !! a = None).
Context (k : Z).
Notation wp := (wpH malloc).

Lemma wpH_and {A} (m : HM A) (P Q : A -> eterm_stateinfo -> Prop) h :
  wp m P h -> (forall x h', m h = Go x h' -> P x h' -> Q x h') -> wp m Q h.
Proof. unfold wpH. destruct (m h) as [x h' | |]; intros H HQ; [by apply HQ | done..]. Qed.

Lemma upd_both h live loose dying a f b :
  Inv h live loose dying -> a ∈ dying -> blocks h !! a = Some b -> free (f b) = false ->
  wp (upd a f) (fun _ h' => Inv h' live loose dying /\ blocks h' !! a = Some (f b)) h.
Proof. intros Hi Ha Hb Hf. by eapply (upd_ok malloc). Qed.

Definition same_on (X : gset addr) (h h' : eterm_stateinfo) : Prop :=
  forall b, b ∈ X -> blocks h' !! b = blocks h !! b.

Lemma alloc_elsewhere h a h' b :
  erl_eterm_alloc malloc h = Go (Some a) h' -> b <> a -> blocks h' !! b = blocks h !! b.
Proof.
  unfold erl_eterm_alloc. intros H Hne. destruct (freelist h) as [c |].
  - destruct (blocks h !! c); [| done]. injection H as -> <-. cbn [blocks]. by rewrite lookup_insert_ne.
  - destruct (malloc h) as [c |]; [| done]. injection H as -> <-. cbn [blocks]. by rewrite lookup_insert_ne.
Qed.

(** A copy's cell, before it is filled. *)
Lemma alloc_cell {B} h live loose dying (K : addr -> HM B) Q :
  Inv h live loose dying ->
  (forall cp h' nx, Inv h' live loose ({[cp]} ∪ dying) -> cp ∉ dying -> live !! cp = None ->
    blocks h' !! cp = Some (FixBlock 1 U_undef nx false) -> same_on dying h h' -> wp (K cp) Q h') ->
  wp (let^ cp := erl_alloc_eterm malloc in let^ _ := upd cp (set_count 1) in K cp) Q h.
Proof.
  intros Hi HK. unfold erl_alloc_eterm. apply wpH_bind, wpH_bind.
  eapply wpH_and; [eapply (eterm_alloc_ok malloc malloc_fresh _ _ _ _
    (fun o h' => match o with Some a => Inv h' live loose ({[a]} ∪ dying) /\ a ∉ dying | None => exists h, malloc h = None end));
    [exact Hi | intros Hm; by exists h | by intros a h' ? ?] |].
  intros [a |] h1 Hrun; [intros [Hi1 Had] | by intros [h0 Hm]; exists h0].
  assert (Hin : a ∈ {[a]} ∪ dying) by set_solver.
  pose proof (i_dying _ _ _ _ Hi1 a Hin) as (Hn & b & Hb & Hf).
  apply wpH_bind. eapply wpH_and; [eapply upd_both; [exact Hi1 | exact Hin | exact Hb | exact Hf] |].
  intros [] h2 Hr2 [Hi2 Hb2]. apply wpH_ret, wpH_bind.
  eapply wpH_and; [eapply upd_both; [exact Hi2 | exact Hin | exact Hb2 | exact Hf] |].
  intros [] h3 Hr3 [Hi3 Hb3]. unfold set_val, set_count in Hb3. cbn [count val next free] in Hb3. rewrite Hf in Hb3.
  eapply HK; [exact Hi3 | done | done | exact Hb3 |].
  intros c Hc. assert (Hca : c <> a) by (by intros ->).
  unfold upd in Hr2, Hr3. destruct (blocks h1 !! a); [| done]. injection Hr2 as <-.
  destruct (blocks _ !! a) in Hr3; [| done]. injection Hr3 as <-. cbn [set_block blocks].
  rewrite !lookup_insert_ne by done. by apply (alloc_elsewhere h a).
Qed.

Definition made (h : eterm_stateinfo) (live : gmap addr uval) (loose : gmultiset addr)
    (dying : gset addr) (rs : list addr) (ts : list ETERM) (h' : eterm_stateinfo) : Prop :=
  exists N, trees k live N rs ts /\ Inv h' (N ∪ live) (ms rs ⊎ loose) dying /\ same_on dying h h'.

Definition copies_to (fuel : nat) (t : ETERM) : Prop := forall a h live loose dying,
  den live a t -> Inv h live loose dying ->
  Z.of_nat (size (total live loose)) + cells t <= ERL_MAX_COUNT ->
  wp (copy_term malloc fuel (Some a))
    (fun r h' => exists r0, r = Some r0 /\ made h live loose dying [r0] [t] h') h.

Lemma size_total_trees live N rs ts loose : trees k live N rs ts ->
  Z.of_nat (size (total (N ∪ live) (ms rs ⊎ loose))) = Z.of_nat (size (total live loose)) + sum_cells ts.
Proof.
  intros [D _ _ _ _ R _]. unfold total. rewrite all_refs_union by done.
  rewrite !gmultiset_size_disj_union, size_ms. lia.
Qed.

Lemma sum_cells_nonneg ts : 0 <= sum_cells ts.
Proof.
  induction ts as [| t ts IH]; [done |]. cbn [sum_cells foldr]. fold (sum_cells ts). pose proof (cells_height t). lia.
Qed.

Lemma map_parts_ok fuel ts : Forall (copies_to fuel) ts ->
  forall es h live loose dying, Forall2 (den live) es ts -> Inv h live loose dying ->
  Z.of_nat (size (total live loose)) + sum_cells ts <= ERL_MAX_COUNT ->
  wp (map_parts (copy_term malloc fuel) (Some <$> es))
    (fun os h' => exists rs, os = Some <$> rs /\ made h live loose dying rs ts h') h.
Proof.
  induction 1 as [| t ts Ht _ IH]; intros es h live loose dying He Hi Hs; inversion He as [| a ? es' ? Ha He']; subst.
  - apply wpH_ret. exists []. split; [done |]. exists ∅. split; [apply trees_nil |].
    rewrite (left_id_L ∅ (∪)), ms_nil. done.
  - cbn [sum_cells foldr] in Hs. fold (sum_cells ts) in Hs. pose proof (sum_cells_nonneg ts).
    cbn [fmap list_fmap map_parts]. apply wpH_bind. eapply wpH_mono; [| eapply Ht; [exact Ha | exact Hi | lia]].
    intros ? h1 (r & -> & N1 & T1 & Hi1 & Hf1). apply wpH_bind.
    pose proof (size_total_trees _ _ _ _ loose T1) as Hz. cbn [sum_cells foldr] in Hz.
    eapply wpH_mono; [| eapply (IH es'); [| exact Hi1 | lia]].
    + intros ? h2 (rs & -> & N2 & T2 & Hi2 & Hf2). apply wpH_ret. exists (r :: rs). split; [done |].
      exists (N2 ∪ N1). split; [by eapply trees_cons |]. split.
      * rewrite <- (assoc_L (∪)), ms_cons.
        replace ({[+ r +]} ⊎ ms rs ⊎ loose) with (ms rs ⊎ (ms [r] ⊎ loose)); [done |].
        rewrite ms_one. clear. multiset_solver.
      * intros b Hb. by rewrite Hf2, Hf1.
    + eapply Forall2_impl; [| exact He']. intros ? ? ?. eapply den_weaken; [| done].
      apply map_union_subseteq_r. apply (tr_disj _ _ _ _ _ T1).
Qed.

(** The cell is filled: its parts are its own now. *)
Lemma fill_ok h h1 live loose dying cp u rs ts t nx :
  made h live loose ({[cp]} ∪ dying) rs ts h1 -> cp ∉ dying -> live !! cp = None ->
  blocks h !! cp = Some (FixBlock 1 U_undef nx false) -> refs u = rs -> is_fun u = false ->
  cells t = 1 + sum_cells ts -> (forall N, Forall2 (copy_at k N) rs ts -> N !! cp = Some u -> copy_at k N cp t) ->
  Z.of_nat (size (total live loose)) + cells t <= ERL_MAX_COUNT ->
  wp (let^ _ := upd cp (set_val u) in retH (Some cp))
    (fun r h' => exists r0, r = Some r0 /\ made h live loose dying [r0] [t] h') h1.
Proof.
  intros (N & T & Hi & Hf) Had Hn Hb Hr Hfu Hc Hd Hs. assert (Hin : cp ∈ {[cp]} ∪ dying) by set_solver.
  apply wpH_bind. eapply wpH_and; [eapply upd_both; [exact Hi | exact Hin | by rewrite Hf | done] |].
  intros [] h2 Hrun [Hi2 Hb2]. apply wpH_ret. exists cp. split; [done |].
  pose proof (i_dying _ _ _ _ Hi2 cp Hin) as (Hcp & _). apply lookup_union_None in Hcp as [HN _].
  pose proof (size_total_trees _ _ _ _ loose T) as Hz.
  exists (<[cp := u]> N). split; [| split].
  - eapply trees_node; [exact T | done | done | exact Hr | done | done |]. apply Hd; [| apply lookup_insert_eq].
    eapply Forall2_impl; [| exact (tr_den _ _ _ _ _ T)]. intros ? ? ?. eapply copy_at_weaken; [by apply insert_subseteq | done].
  - rewrite <- insert_union_l, ms_one.
    assert (He : ({[cp]} ∪ dying) ∖ {[cp]} = dying) by set_solver. rewrite <- He at 1.
    unfold set_val in Hb2. cbn [count val next free] in Hb2.
    eapply (birth_ok malloc); [by rewrite Hr | exact Hin | exact Hb2 | rewrite Hr; lia].
  - intros b Hbd. unfold upd in Hrun. destruct (blocks h1 !! cp); [| done]. injection Hrun as <-.
    cbn [set_block blocks]. rewrite lookup_insert_ne by (intros ->; done). apply Hf. set_solver.
Qed.

Lemma two_parts {A} (f : option addr -> HM (option addr)) (a b : option addr)
    (K : option addr -> option addr -> HM A) (Q : A -> eterm_stateinfo -> Prop) h :
  wp (map_parts f [a; b]) (fun os h' => match os with [x; y] => wp (K x y) Q h' | _ => False end) h ->
  wp (let^ x := f a in let^ y := f b in K x y) Q h.
Proof.
  unfold wpH, map_parts, bindH, retH. destruct (f a h) as [x h1 | |]; [| done | done].
  by destruct (f b h1) as [y h2 | |].
Qed.

Lemma copy_at_list N r1 r2 t1 t2 a :
  Forall2 (copy_at k N) [r1; r2] [t1; t2] -> N !! a = Some (U_list (Some r1) (Some r2)) ->
  copy_at k N a (Erl_List t1 t2).
Proof.
  intros Hf Ha. inversion Hf as [| ? ? ? ? (t1' & D1 & P1 & N1) Hf']; subst.
  inversion Hf' as [| ? ? ? ? (t2' & D2 & P2 & N2) _]; subst.
  exists (Erl_List t1' t2'). split; [by eapply den_list |]. split; [by apply pok_list |]. cbn [norm]. by rewrite N1, N2.
Qed.

Lemma copy_at_tuple N rs ts a :
  Forall2 (copy_at k N) rs ts -> N !! a = Some (U_tuple (Some <$> rs)) -> copy_at k N a (Erl_Tuple ts).
Proof.
  intros Hf Ha.
  assert (Hx : exists ts', Forall2 (den N) rs ts' /\ Forall (pat_ok k false) ts' /\ norm <$> ts' = norm <$> ts).
  { clear Ha. induction Hf as [| r t rs ts (t' & D & P & Hn) _ (ts' & Ds & Ps & Hns)]; [by exists [] |].
    exists (t' :: ts'). split; [by constructor |]. split; [by constructor |]. cbn. by rewrite Hn, Hns. }
  destruct Hx as (ts' & Ds & Ps & Hns). exists (Erl_Tuple ts'). split; [by eapply den_tuple |].
  split; [by apply pok_tuple |]. cbn [norm]. by rewrite Hns.
Qed.

Lemma refs_tuple rs : refs (U_tuple (Some <$> rs)) = rs.
Proof. cbn [refs]. induction rs as [| r rs IH]; [done |]. cbn. by f_equal. Qed.

Lemma den_leaf_inv live a t : den live a t -> is_leaf t = true -> live !! a = Some (U_leaf t).
Proof.
  intros [[| fu] Hd] Hl; [done |]. cbn [term_at] in Hd. destruct (live !! a) as [u |]; [| done].
  destruct u as [| l | name [v |] | [hd |] [tl |] | es |]; try done.
  - destruct (is_leaf l); [| done]. by injection Hd as ->.
  - destruct (term_at fu live v); [| done]. by injection Hd as <-.
  - by injection Hd as <-.
  - destruct (term_at fu live hd), (term_at fu live tl); try done. by injection Hd as <-.
  - destruct (mapM _ es); [| done]. by injection Hd as <-.
Qed.

(** Every term without variables is copied. *)
Lemma copy_term_ok fuel : forall t, (height t < fuel)%nat -> pat_ok k false t -> copies_to fuel t.
Proof.
  induction fuel as [| fuel IH]; intros t Hf Hp a h live loose dying Hd Hi Hs; [lia |].
  cbn [copy_term]. destruct (den_some _ _ _ Hd) as [u Hu]. apply wpH_bind.
  eapply (get_ok malloc); [exact Hi | exact Hu |]. intros nx0. cbn [val].
  eapply alloc_cell; [exact Hi |]. intros cp h1 nx Hi1 Hcp Hn Hb Hso.
  assert (Hfill : forall h2 rs ts u, made h1 live loose ({[cp]} ∪ dying) rs ts h2 ->
    refs u = rs -> is_fun u = false -> cells t = 1 + sum_cells ts ->
    (forall N, Forall2 (copy_at k N) rs ts -> N !! cp = Some u -> copy_at k N cp t) ->
    wp (let^ _ := upd cp (set_val u) in retH (Some cp))
      (fun r h' => exists r0, r = Some r0 /\ made h live loose dying [r0] [t] h') h2).
  { intros h2 rs ts u' Hm Hr Hfu Hc Hx. eapply wpH_mono; [| by eapply fill_ok].
    intros r h' (r0 & -> & N & T & HN & Hso'). exists r0. split; [done |]. exists N. split; [done |]. split; [done |].
    intros b Hbd. rewrite Hso' by done. by apply Hso. }
  pose proof (cells_height t) as [_ Hct].
  destruct Hp as [t Hl | t1 t2 Hp1 Hp2 | es Hes | name ? ?]; [| | | done].
  - rewrite (den_leaf_inv live a t Hd) in Hu by (by eapply leaf_ok_leaf). injection Hu as <-.
    destruct (copy_leaf_ok k t Hl) as (t' & -> & Hl' & Hn').
    eapply (Hfill _ [] []); [exists ∅; split; [apply trees_nil | by rewrite (left_id_L ∅ (∪)), ms_nil] | done | done | |].
    + by destruct Hl.
    + intros N _ HN. exists t'. split; [by apply den_leaf; [| by eapply leaf_ok_leaf] |]. split; [by apply pok_leaf | done].
  - cbn [height cells] in *. pose proof (cells_height t1). pose proof (cells_height t2).
    apply den_inv in Hd as (x & y & Ha & D1 & D2). rewrite Ha in Hu. injection Hu as <-. apply two_parts.
    eapply wpH_mono; [| eapply (map_parts_ok fuel [t1; t2] ltac:(repeat constructor; apply IH; (done || lia)) [x; y]);
      [by repeat constructor | exact Hi1 | cbn [sum_cells foldr]; lia]].
    intros os h2 (rs & -> & Hm). pose proof Hm as (N & T & _). pose proof (Forall2_length (tr_den _ _ _ _ _ T)) as Hlen.
    destruct rs as [| r1 [| r2 [| ? ?]]]; try done. cbn [fmap list_fmap].
    eapply (Hfill _ _ _ (U_list (Some r1) (Some r2)) Hm); [done | done | cbn [sum_cells foldr]; lia | intros; by eapply copy_at_list].
  - cbn [cells] in *. fold (sum_cells es) in *.
    apply den_inv in Hd as (xs & Ha & Df). rewrite Ha in Hu. injection Hu as <-. apply wpH_bind.
    eapply wpH_mono; [| eapply (map_parts_ok fuel es); [| exact Df | exact Hi1 | lia]].
    + intros os h2 (rs & -> & Hm). eapply (Hfill _ _ _ (U_tuple (Some <$> rs)) Hm); [apply refs_tuple | done | done |].
      intros. by eapply copy_at_tuple.
    + rewrite Forall_forall in Hes. apply Forall_forall. intros e He. apply IH; [| by apply Hes].
      pose proof (height_elem e es ltac:(by apply list_elem_of_In)). lia.
Qed.
End Copy.

(** ** A cell gets other contents *)

Lemma set_live_val h live loose loose' dying a u u' b :
  Inv h live loose dying -> live !! a = Some u -> blocks h !! a = Some b ->
  total (<[a := u']> live) loose' = total live loose ->
  (exists rank : addr -> nat, forall c v d, <[a := u']> live !! c = Some v -> d ∈ refs v -> (rank d < rank c)%nat) ->
  Inv (set_block a (set_val u' b) h) (<[a := u']> live) loose' dying.
Proof.
  intros [Hl Hc Hs Hr Hd Hf Ha] Hu Hb Ht Hrank. destruct (Hl a u Hu) as [nx0 Hb0].
  rewrite Hb in Hb0. injection Hb0 as ->.
  assert (Hdom : forall c, is_Some (live !! c) -> is_Some (<[a := u']> live !! c)).
  { intros c Hx. destruct (decide (c = a)) as [-> | Hne]; [by rewrite lookup_insert_eq | by rewrite lookup_insert_ne]. }
  split; rewrite ?Ht; try done; cbn [set_block blocks freelist freed allocated].
  - intros c v Hv. destruct (decide (c = a)) as [-> | Hne].
    + rewrite lookup_insert_eq in Hv. injection Hv as <-. exists nx0. by rewrite lookup_insert_eq.
    + rewrite lookup_insert_ne in Hv by done. rewrite lookup_insert_ne by done. by apply Hl.
  - intros c Hx. by apply Hdom, Hc.
  - intros c Hx. destruct (Hd c Hx) as (Hn & blk & Hblk & Hfr).
    assert (Hne : c <> a) by (intros ->; congruence). rewrite !lookup_insert_ne by done. eauto.
  - destruct Hf as (fl & Hch & Hnd & Hfd & Hall). exists fl. split; [| split; [done | split; [done |]]].
    + eapply chain_frame; [| exact Hch]. intros c blk _ Hblk Hfr.
      rewrite lookup_insert_ne; [done |]. intros ->. rewrite Hb in Hblk. by injection Hblk as <-.
    + intros c. destruct (decide (c = a)) as [-> | Hne].
      * intros _. left. rewrite lookup_insert_eq. by eexists.
      * rewrite !lookup_insert_ne by done. apply Hall.
  - rewrite map_size_insert_Some by (by eexists). done.
Qed.

Lemma total_insert live a u u' loose : live !! a = Some u -> refs u = [] ->
  total (<[a := u']> live) loose = total live (ms (refs u') ⊎ loose).
Proof.
  intros Ha Hr. unfold total. rewrite (all_refs_delete live a u Ha), Hr, ms_nil.
  rewrite <- insert_delete_eq, all_refs_insert by apply lookup_delete_eq. clear. multiset_solver.
Qed.

Section Bind.
Context (malloc : eterm_stateinfo -> option addr) (k : Z).
Notation wp := (wpH malloc).

(** A variable gets a new copy: the reference of the program is its own. *)
Lemma bind_ok h live N loose r t p name (Q : unit -> eterm_stateinfo -> Prop) :
  trees k live N [r] [t] -> Inv h (N ∪ live) (ms [r] ⊎ loose) ∅ ->
  live !! p = Some (U_var name None) ->
  (forall h', Inv h' (<[p := U_var name (Some r)]> (N ∪ live)) loose ∅ -> Q tt h') ->
  wp (upd p (set_var_value (Some r))) Q h.
Proof.
  intros T Hi Hp HQ. pose proof T as [D C _ E _ _ _].
  assert (HNp : N !! p = None) by (eapply map_disjoint_Some_r; done).
  assert (Hu : (N ∪ live) !! p = Some (U_var name None)) by by rewrite lookup_union_r.
  assert (Hr : is_Some (N !! r)) by (inversion E; by eapply copy_at_dom).
  destruct (i_live _ _ _ _ Hi p _ Hu) as [nx Hb]. unfold wpH, upd. rewrite Hb.
  apply HQ. unfold set_var_value at 1. cbn [val].
  eapply set_live_val; [exact Hi | exact Hu | exact Hb | by rewrite (total_insert _ _ _ _ _ Hu) |].
  destruct (i_rank _ _ _ _ Hi) as [rank Hrk].
  exists (fun x => if decide (is_Some (N !! x)) then rank x else S (rank r + rank x))%nat.
  intros c v d Hv Hin. destruct (decide (c = p)) as [-> | Hne].
  - rewrite lookup_insert_eq in Hv. injection Hv as <-. apply list_elem_of_singleton in Hin as ->.
    rewrite decide_True by done. rewrite decide_False by (rewrite HNp; by intros [? ?]). lia.
  - rewrite lookup_insert_ne in Hv by done. pose proof (Hrk _ _ _ Hv Hin) as Hlt.
    destruct (decide (is_Some (N !! c))) as [[w Hw] | Hnc].
    + rewrite (lookup_union_Some_l _ _ _ _ Hw) in Hv. injection Hv as <-.
      rewrite decide_True by (by eapply C). done.
    + destruct (decide (is_Some (N !! d))); lia.
Qed.
End Bind.

(** ** Freeing does not look at the value of a variable that stays

    [forget h]: the heap [h], but the variable at [a] is unbound. While the cell
    [a] is kept, what is freed and how is the same for both. *)
Section Forget.
Context (a : addr) (name : list Z).
Notation unbound := (U_var name None).

Definition forget (h : eterm_stateinfo) : eterm_stateinfo :=
  State (alter (set_val unbound) a (blocks h)) (freelist h) (freed h) (allocated h).
Definition kept (h : eterm_stateinfo) : Prop :=
  exists b, blocks h !! a = Some b /\ free b = false.
Definition val_kept (h h' : eterm_stateinfo) : Prop := forall b,
  blocks h !! a = Some b -> exists b', blocks h' !! a = Some b' /\ val b' = val b.

Definition blind (m : HM unit) : Prop :=
  (forall h h0, m (forget h) = Go tt h0 -> kept h0 ->
    exists h', m h = Go tt h' /\ h0 = forget h' /\ val_kept h h') /\
  (forall h h', m h = Go tt h' -> kept h' -> kept h).

Definition shown (c : addr) (b : fix_block) : fix_block :=
  if decide (c = a) then set_val unbound b else b.

Lemma forget_get h c : blocks (forget h) !! c = shown c <$> blocks h !! c.
Proof.
  cbn [forget blocks]. unfold shown. destruct (decide (c = a)) as [-> | Hne].
  - by rewrite lookup_alter_eq.
  - rewrite lookup_alter_ne by done. by destruct (blocks h !! c).
Qed.
Lemma forget_set h c b : forget (set_block c b h) = set_block c (shown c b) (forget h).
Proof.
  unfold forget, set_block. cbn [blocks freelist freed allocated]. f_equal. unfold shown.
  destruct (decide (c = a)) as [-> | Hne].
  - by rewrite alter_insert_eq, insert_alter_eq.
  - by rewrite alter_insert_ne.
Qed.
Lemma forget_kept h : kept (forget h) <-> kept h.
Proof.
  unfold kept. rewrite forget_get. destruct (blocks h !! a) as [b0 |]; cbn; unfold shown; [rewrite decide_True by done | by split].
  split; intros (b & [= <-] & Hf); by eexists.
Qed.

Lemma blind_ret : blind (retH tt).
Proof.
  split.
  - intros h h0 [= <-] _. exists h. split; [done |]. split; [done |]. intros b Hb. by exists b.
  - by intros h h' [= <-].
Qed.

Lemma blind_bind (m k : HM unit) : blind m -> blind k -> blind (let^ _ := m in k).
Proof.
  intros [Sm Mm] [Sk Mk]. unfold bindH. split.
  - intros h h0 H Hk. destruct (m (forget h)) as [[] h1 | |] eqn:E; [| done | done].
    destruct (Sm _ _ E (Mk _ _ H Hk)) as (h1' & -> & -> & V1).
    destruct (Sk _ _ H Hk) as (h' & -> & -> & V2). exists h'. split; [done |]. split; [done |].
    intros b Hb. destruct (V1 b Hb) as (b1 & Hb1 & <-). by apply V2.
  - intros h h' H Hk. destruct (m h) as [[] h1 | |] eqn:E; [| done | done]. eapply Mm, Mk; done.
Qed.

Lemma val_kept_set h c b b' : blocks h !! c = Some b -> val b' = val b -> val_kept h (set_block c b' h).
Proof.
  intros Hc Hv b0 Hb0. cbn [set_block blocks]. destruct (decide (c = a)) as [-> | Hne].
  - rewrite lookup_insert_eq. exists b'. split; [done |]. congruence.
  - rewrite lookup_insert_ne by done. by exists b0.
Qed.

Lemma blind_decr c : blind (decr c).
Proof.
  unfold decr, upd. split.
  - intros h h0. rewrite forget_get. destruct (blocks h !! c) as [b |] eqn:Hb; [| done]. cbn [fmap option_fmap option_map].
    intros [= <-] _. eexists. split; [done |]. split.
    + rewrite forget_set. f_equal. unfold shown. by destruct (decide (c = a)).
    + by eapply val_kept_set.
  - intros h h'. destruct (blocks h !! c) as [b |] eqn:Hb; [| done]. intros [= <-] (b' & Hb' & Hf).
    cbn [set_block blocks] in Hb'. destruct (decide (c = a)) as [-> | Hne].
    + rewrite lookup_insert_eq in Hb'. injection Hb' as <-. by exists b.
    + rewrite lookup_insert_ne in Hb' by done. by exists b'.
Qed.

Lemma clear_shape c h h' : clear c h = Go tt h' ->
  exists b, blocks h !! c = Some b /\
    h' = if free b then set_block c (set_val U_undef b) h
         else State (<[c := FixBlock (count b) U_undef (freelist h) true]> (blocks h))
                (Some c) (freed h + 1) (allocated h - 1).
Proof.
  unfold clear, bindH, upd. destruct (blocks h !! c) as [b |] eqn:Hb; [| done].
  unfold erl_eterm_free. cbn [set_block blocks]. rewrite lookup_insert_eq. unfold set_val at 1. cbn [free].
  exists b. split; [done |]. destruct (free b) eqn:Hf; injection H as <-; [done |].
  cbn [set_block freelist freed allocated set_val count val]. by rewrite insert_insert_eq.
Qed.

Lemma clear_not_kept h h' : clear a h = Go tt h' -> ~ kept h'.
Proof.
  intros H (b' & Hb' & Hf). apply clear_shape in H as (b & Hb & ->). destruct (free b) eqn:E.
  - cbn [set_block blocks] in Hb'. rewrite lookup_insert_eq in Hb'. injection Hb' as <-. cbn [set_val free] in Hf. congruence.
  - cbn [blocks] in Hb'. rewrite lookup_insert_eq in Hb'. by injection Hb' as <-.
Qed.

Lemma clear_run h c b : blocks h !! c = Some b ->
  clear c h = Go tt (if free b then set_block c (set_val U_undef b) h
         else State (<[c := FixBlock (count b) U_undef (freelist h) true]> (blocks h))
                (Some c) (freed h + 1) (allocated h - 1)).
Proof.
  intros Hb. assert (Hx : exists h', clear c h = Go tt h').
  { unfold clear, bindH, upd. rewrite Hb. unfold erl_eterm_free. cbn [set_block blocks]. rewrite lookup_insert_eq.
    unfold set_val at 1. cbn [free]. destruct (free b); by eexists. }
  destruct Hx as [h' Hr]. rewrite Hr. apply clear_shape in Hr as (b' & Hb' & ->). rewrite Hb in Hb'. by injection Hb' as <-.
Qed.

Lemma blind_clear c : blind (clear c).
Proof.
  destruct (decide (c = a)) as [-> | Hne].
  - split; [intros h h0 H Hk | intros h h' H Hk]; by destruct (clear_not_kept _ _ H).
  - split.
    + intros h h0 H _. apply clear_shape in H as (b & Hb & ->). rewrite forget_get in Hb. unfold shown in Hb.
      destruct (blocks h !! c) as [b1 |] eqn:Hc; [| done]. cbn in Hb. rewrite decide_False in Hb by done. injection Hb as ->.
      rewrite (clear_run h c b Hc). eexists. split; [done |]. destruct (free b).
      * split; [rewrite forget_set; unfold shown; by rewrite decide_False |].
        intros b0 Hb0. cbn [set_block blocks]. rewrite lookup_insert_ne by done. by exists b0.
      * split; [unfold forget; cbn [blocks freelist freed allocated]; by rewrite alter_insert_ne |].
        intros b0 Hb0. cbn [blocks]. rewrite lookup_insert_ne by done. by exists b0.
    + intros h h' H (b' & Hb' & Hf). apply clear_shape in H as (b & _ & ->). exists b'. split; [| done].
      destruct (free b); cbn [set_block blocks] in Hb'; by rewrite lookup_insert_ne in Hb' by done.
Qed.

Section Parts.
Context (free : option addr -> HM unit) (Hfree : forall o, blind (free o)).

Lemma blind_part o : blind (free_part free o).
Proof. destruct o; [| apply blind_ret]. apply blind_bind; [apply blind_decr | apply Hfree]. Qed.
Lemma blind_parts l : blind (free_parts free l).
Proof. induction l; [apply blind_ret |]. apply blind_bind; [apply blind_part | done]. Qed.
Lemma blind_undecremented l : blind (free_undecremented free l).
Proof. induction l; [apply blind_ret |]. apply blind_bind; [apply Hfree | done]. Qed.
End Parts.

Lemma blind_free_term fuel : forall o ext, blind (free_term fuel o ext false).
Proof.
  induction fuel as [| fuel IH]; intros o ext; [by split |].
  destruct o as [ep |]; [| apply blind_ret].
  set (internal := fun o => free_term fuel o false false).
  set (body := fun b : fix_block => if count b =? 0 then
        match val b with
        | U_var _ (Some v) => let^ _ := decr v in let^ _ := clear ep in internal (Some v)
        | U_list head tail =>
            let^ _ := free_part internal head in
            match tail with
            | Some tl => let^ _ := decr tl in let^ _ := clear ep in internal (Some tl)
            | None => clear ep
            end
        | U_tuple elems => let^ _ := free_parts internal elems in clear ep
        | U_fun _ _ _ creator module index uniq closure =>
            let^ _ := free_undecremented internal ([index; uniq; creator; module] ++ closure) in clear ep
        | U_var _ None | U_leaf _ | U_undef => clear ep
        end
      else if ext then let^ _ := decr ep in internal (Some ep) else retH tt).
  assert (Hbody : forall b, blind (body b)).
  { intros b. unfold body. destruct (count b =? 0).
    - destruct (val b) as [| t | nm [v |] | hd [tl |] | es |];
        repeat first [apply blind_clear | apply blind_bind | apply blind_decr | apply IH
          | apply blind_part | apply blind_parts | apply blind_undecremented]; intros; apply IH.
    - destruct ext; [apply blind_bind; [apply blind_decr | apply IH] | apply blind_ret]. }
  assert (Hrun : forall h, free_term (S fuel) (Some ep) ext false h
    = match blocks h !! ep with Some b => body b h | None => Wrong end).
  { intros h. cbn [free_term]. unfold bindH at 1, get_block. destruct (blocks h !! ep) as [b |]; [| done]. done. }
  split; intros h h1; rewrite !Hrun.
  - rewrite forget_get. destruct (blocks h !! ep) as [b |] eqn:Hb; [| done]. cbn [fmap option_fmap option_map].
    intros H Hk. unfold shown in H. destruct (decide (ep = a)) as [-> | Hne]; [| by apply (Hbody b)].
    assert (He : body b = body (set_val unbound b)).
    { unfold body in *. cbn [set_val count val] in *. destruct (count b =? 0); [| done].
      by destruct (clear_not_kept _ _ H). }
    rewrite <- He in H. by apply (Hbody b).
  - destruct (blocks h !! ep) as [b |]; [| done]. apply (Hbody b).
Qed.
End Forget.

(** ** Cells that stay *)

Definition reached (live : gmap addr uval) (loose : gmultiset addr) : Prop :=
  used live loose (fun _ => False) /\ (forall c, c ∈ total live loose -> is_Some (live !! c)) /\
  exists rank : addr -> nat, forall a u c, live !! a = Some u -> c ∈ refs u -> (rank c < rank a)%nat.

Lemma Inv_reached h live loose dying :
  Inv h live loose dying -> used live loose (fun _ => False) -> reached live loose.
Proof. intros Hi Hu. split; [done |]. split; [apply (i_closed _ _ _ _ Hi) | apply (i_rank _ _ _ _ Hi)]. Qed.

(** Every cell is reached from the references of the program: so it is in each
    heap that has these and as many references from cell to cell. *)
Lemma reach_keep live live' loose :
  reached live loose -> (forall c, c ∈ total live' loose -> is_Some (live' !! c)) ->
  (forall b u u', live !! b = Some u -> live' !! b = Some u' -> forall c, c ∈ refs u -> c ∈ refs u') ->
  forall b, is_Some (live !! b) -> is_Some (live' !! b).
Proof.
  intros (Hu & _ & rank & Hr) Hc Hs.
  set (top := max_rank rank (map_to_list live).*1).
  assert (Htop : forall b, is_Some (live !! b) -> (rank b <= top)%nat).
  { intros b [u Hb]. apply max_rank_le, list_elem_of_fmap. exists (b, u). split; [done |]. by apply elem_of_map_to_list. }
  assert (H : forall n b, (top - rank b <= n)%nat -> is_Some (live !! b) -> is_Some (live' !! b)).
  { induction n as [| n IH]; intros b Hn Hb; specialize (Hu b Hb ltac:(tauto)) as Hm; apply mult_pos in Hm;
      apply gmultiset_elem_of_disj_union in Hm as [Hm | Hm];
      try (apply Hc, gmultiset_elem_of_disj_union; by left);
      destruct (all_refs_parent _ _ Hm) as (c & u & Hcu & Hin); pose proof (Hr _ _ _ Hcu Hin);
      pose proof (Htop c ltac:(by exists u)).
    - lia.
    - destruct (IH c ltac:(lia) ltac:(by exists u)) as [u' Hu']. apply Hc, gmultiset_elem_of_disj_union. right.
      eapply in_all_refs; [exact Hu' | by eapply Hs]. }
  intros b Hb. by eapply H.
Qed.

Lemma reached_same live live' loose :
  reached live loose -> reached live' loose ->
  (forall b u u', live !! b = Some u -> live' !! b = Some u' -> u = u') -> live' = live.
Proof.
  intros H H' Hs. apply map_eq. intros b.
  pose proof (reach_keep live live' loose H (proj1 (proj2 H'))
    ltac:(intros c u u' Hu Hu'; by rewrite (Hs _ _ _ Hu Hu')) b) as K1.
  pose proof (reach_keep live' live loose H' (proj1 (proj2 H))
    ltac:(intros c u u' Hu Hu'; by rewrite (Hs _ _ _ Hu' Hu)) b) as K2.
  destruct (live !! b) as [u |] eqn:E, (live' !! b) as [u' |] eqn:E'; try done.
  - f_equal. symmetry. by eapply Hs.
  - destruct K1 as [? ?]; [by eexists | done].
  - destruct K2 as [? ?]; [by eexists | done].
Qed.

(** ** A binding is undone *)

Definition some_block (h : eterm_stateinfo) : option addr := Some (fresh (dom (blocks h))).
Lemma some_block_fresh h a : some_block h = Some a -> blocks h !! a = None.
Proof. intros [= <-]. apply not_elem_of_dom, is_fresh. Qed.

Lemma undo_one fuel h live loose a name v :
  Inv h live loose ∅ -> used live loose (fun _ => False) -> no_funs live ->
  live !! a = Some (U_var name (Some v)) -> (size live + 1 < fuel)%nat ->
  (forall live', live' ⊆ <[a := U_var name None]> live -> reached live' loose -> is_Some (live' !! a)) ->
  exists h' live', (let^ _ := erl_free_term fuel (Some v) in upd a (set_var_value None)) h = Go tt h' /\
    Inv h' live' loose ∅ /\ used live' loose (fun _ => False) /\ live' ⊆ <[a := U_var name None]> live.
Proof.
  intros Hi Hu Hf Ha Hfuel Hkeep. destruct (i_live _ _ _ _ Hi a _ Ha) as [nx Hb].
  set (b := FixBlock _ _ nx false) in Hb.
  assert (Ht : total (<[a := U_var name None]> live) ({[+ v +]} ⊎ loose) = total live loose).
  { unfold total. rewrite (all_refs_delete live a _ Ha), <- insert_delete_eq, all_refs_insert by apply lookup_delete_eq.
    change (refs (U_var name None)) with (@nil addr). change (refs (U_var name (Some v))) with [v].
    rewrite ms_nil, ms_one. clear. multiset_solver. }
  assert (Hfg : forget a name h = set_block a (set_val (U_var name None) b) h).
  { unfold forget, set_block. f_equal. apply map_eq. intros c. destruct (decide (c = a)) as [-> | Hne].
    - by rewrite lookup_alter_eq, lookup_insert_eq, Hb.
    - by rewrite lookup_alter_ne, lookup_insert_ne. }
  assert (Hi0 : Inv (forget a name h) (<[a := U_var name None]> live) ({[+ v +]} ⊎ loose) ∅).
  { rewrite Hfg. eapply set_live_val; [exact Hi | exact Ha | exact Hb | exact Ht |].
    destruct (i_rank _ _ _ _ Hi) as [rank Hr]. exists rank. intros c u d Hc Hd.
    destruct (decide (c = a)) as [-> | Hne]; [rewrite lookup_insert_eq in Hc; injection Hc as <-; by apply elem_of_nil in Hd |].
    rewrite lookup_insert_ne in Hc by done. by eapply Hr. }
  assert (Hu0 : used (<[a := U_var name None]> live) ({[+ v +]} ⊎ loose) (fun _ => False)).
  { intros c Hc _. rewrite Ht. apply Hu; [| tauto]. destruct (decide (c = a)) as [-> | Hne]; [by eexists |].
    by rewrite lookup_insert_ne in Hc. }
  assert (Hf0 : no_funs (<[a := U_var name None]> live)) by by apply map_Forall_insert_2.
  pose proof (erl_free_term_ok some_block some_block_fresh fuel _ _ _ v
    (fun _ h' => Freed (<[a := U_var name None]> live) loose ∅ h') Hi0 Hu0
    ltac:(rewrite map_size_insert_Some by (by eexists); lia) ltac:(done)) as Hrun.
  unfold wpH in Hrun. destruct (erl_free_term fuel (Some v) (forget a name h)) as [[] h0 | |] eqn:Er;
    [| by destruct Hrun as [? ?] | done].
  destruct Hrun as (live' & leaked & Hi' & Hu' & Hs & Hl). rewrite (Hl Hf0), (left_id_L ∅ (⊎)) in *.
  assert (Hk : is_Some (live' !! a)) by (apply Hkeep; [done | by eapply Inv_reached]).
  destruct Hk as [u Hk]. destruct (i_live _ _ _ _ Hi' a u Hk) as [nx' Hb'].
  destruct (proj1 (blind_free_term a name fuel (Some v) true) h h0 Er ltac:(by eexists)) as (h' & Hr' & -> & Hv).
  exists (forget a name h'), live'. split; [| done]. unfold bindH, erl_free_term. rewrite Hr'.
  destruct (Hv b Hb) as (b' & Hb2 & Hvb). unfold upd. rewrite Hb2. f_equal.
  unfold set_var_value. rewrite Hvb. cbn [b val]. unfold forget, set_block. f_equal. apply map_eq. intros c.
  destruct (decide (c = a)) as [-> | Hne].
  - by rewrite lookup_alter_eq, lookup_insert_eq, Hb2.
  - by rewrite lookup_alter_ne, lookup_insert_ne.
Qed.
