(* ===== verification/MatchOk.v ===== *)
(** * erl_match: every call

    [MI] is what holds during a match: the heap has the cells it began with, the
    variables in [bound] have copies as values, and [sigma] has the values of the
    names, each from the chain. [post] is what a part of a match has done: it has
    found the least bindings that make the part true, or there are none. *)

From stdpp Require Import gmap gmultiset.
From S2P Require Import Prelude Mem PutGet Ext Atom Data Eterm MarshalOk MarshalRead EtermOk Refc RefcOk RefcTerm Match MatchTerm MatchHeap.

(** The names of the variables of a pattern, in order. *)
Fixpoint var_names (p : ETERM) : list (list Z) :=
  match p with
  | Erl_Variable name _ => if bool_decide (name = any_name) then [] else [name]
  | Erl_List h t => var_names h ++ var_names t
  | Erl_Tuple ps => concat (var_names <$> ps)
  | _ => []
  end.

Lemma no_names k t : pat_ok k false t -> var_names t = [].
Proof.
  induction t as [| | | | | | | | | h t IHh IHt | | | es IH | |] using ETERM_rec_all; intros Hp; try done.
  - inversion Hp as [? Hl | | |]; subst; [inversion Hl |]. cbn [var_names]. by rewrite IHh, IHt.
  - inversion Hp as [? Hl | | ? Hf |]; subst; [inversion Hl |]. cbn [var_names].
    clear -IH Hf. induction Hf as [| e es He _ IHf]; [done |]. inversion_clear IH. cbn. rewrite IHf by done.
    rewrite app_nil_r. auto.
  - inversion Hp as [? Hl | | | ? Hf]; subst; [inversion Hl | done].
Qed.

Lemma pat_ok_true k t : pat_ok k false t -> pat_ok k true t.
Proof.
  induction t as [| | | | | | | | | h t IHh IHt | | | es IH | |] using ETERM_rec_all; intros Hp;
    inversion Hp as [? Hl | | ? Hf | ? Hv]; subst; try (by apply pok_leaf); try done.
  - apply pok_list; auto.
  - apply pok_tuple. clear -IH Hf. induction Hf; inversion_clear IH; constructor; auto.
Qed.

Lemma pat_den vars k live : forall t a, pat_ok k false t -> pat_at vars live a t -> den live a t.
Proof.
  induction t as [| | | | | | | | | h t IHh IHt | | | es IH | |] using ETERM_rec_all; intros a Hp Ha;
    inversion Hp as [? Hl | | ? Hf | ? Hv]; subst; try done; try (by inversion Hl);
    inversion Ha as [? ? ? Hx | ? ? Hx ? | ? ha ta ? ? Hx Hh Ht | ? es' ? Hx Hfa]; subst; try done;
    try (by apply den_leaf).
  - eapply den_list; eauto.
  - eapply den_tuple; [done |]. clear -IH Hf Hfa. induction Hfa; inversion_clear IH; inversion_clear Hf; constructor; auto.
Qed.

Section Ematch.
Context (malloc : eterm_stateinfo -> option addr).
Context (malloc_fresh : forall h a, malloc h = Some a -> blocks h !! a = None).
Context (k : Z) (vars : gset addr) (live0 : gmap addr uval) (loose : gmultiset addr) (w M : Z).
Context (vars_unbound : forall a, a ∈ vars -> exists name, live0 !! a = Some (U_var name None)).
Context (room : w + Z.of_nat (size vars) * M <= ERL_MAX_COUNT) (M_pos : 0 <= M).
(** Whether no name occurs twice. *)
Context (lin : Prop).
Notation wp := (wpH malloc).
Notation pat_at := (pat_at vars).
Notation rebinds := (rebinds vars).

(** At [v] is a term without variables, [u] in normal form. *)
Definition value_at (live : gmap addr uval) (v : addr) (u : ETERM) : Prop :=
  exists t, pat_at live v t /\ pat_ok k false t /\ norm t = u.

Record MI (h : eterm_stateinfo) (live : gmap addr uval) (ef : lvars) (sigma : binding)
    (bound : gset addr) : Prop := {
  mi_good : Good (w + Z.of_nat (size bound) * M) h live loose (fun _ => False);
  mi_old : rebinds live0 live;
  mi_vars : bound ⊆ vars;
  mi_bound : forall a, a ∈ bound -> exists name v u, live !! a = Some (U_var name (Some v)) /\
    sigma !! name = Some u /\ value_at live v u;
  mi_unbound : forall a, a ∈ vars -> a ∉ bound -> exists name, live !! a = Some (U_var name None);
  mi_chain : forall a, a ∈ chain ef -> a ∈ bound /\
    exists name v, live !! a = Some (U_var name (Some v)) /\ chars name;
  mi_names : forall name u, sigma !! name = Some u -> name <> any_name /\ cells u <= M /\
    exists a v, a ∈ chain ef /\ live !! a = Some (U_var name (Some v));
  mi_lin : lin -> forall a, a ∈ bound -> a ∈ chain ef
}.

Definition post (I : binding -> Prop) (D : gset addr -> gmap addr uval -> Prop) (names : list (list Z))
    (sigma : binding) (bound : gset addr) (live : gmap addr uval) :
    bool * lvars -> eterm_stateinfo -> Prop := fun '(r, ef) h =>
  exists sigma' bound' live', MI h live' ef sigma' bound' /\ rebinds live live' /\ bound ⊆ bound' /\
    if (r : bool) then
      sigma ⊆ sigma' /\ I sigma' /\ (forall tau, sigma ⊆ tau -> I tau -> sigma' ⊆ tau) /\
      (forall name, is_Some (sigma' !! name) -> is_Some (sigma !! name) \/ name ∈ names) /\ D bound' live'
    else forall tau, sigma ⊆ tau -> ~ I tau.

(** What holds of more bound variables too. *)
Definition lasting (D : gset addr -> gmap addr uval -> Prop) : Prop := forall X X' live live',
  X ⊆ X' -> rebinds live live' -> D X live -> D X' live'.

Lemma post_iff (I J : binding -> Prop) (D E : gset addr -> gmap addr uval -> Prop) names sigma bound live rh h :
  (forall tau, sigma ⊆ tau -> I tau <-> J tau) -> (forall X l, rebinds live l -> D X l -> E X l) ->
  post I D names sigma bound live rh h -> post J E names sigma bound live rh h.
Proof.
  intros H HE. destruct rh as [r ef]. intros (s & b & l & Hm & Hr & Hb & Hx). exists s, b, l.
  split; [done |]. split; [done |]. split; [done |].
  destruct r; [| intros tau Ht Hj; by apply (Hx tau Ht), H].
  destruct Hx as (H1 & H2 & H3 & H4 & H5). split; [done |]. split; [by apply H |]. split; [| auto].
  intros tau Ht Hj. apply H3; [done | by apply H].
Qed.

Lemma post_from I D names names' sigma bound bound1 live live1 rh h :
  rebinds live live1 -> bound ⊆ bound1 -> (forall n, n ∈ names -> n ∈ names') ->
  post I D names sigma bound1 live1 rh h -> post I D names' sigma bound live rh h.
Proof.
  intros Hr Hb Hn. destruct rh as [r ef]. intros (s & b & l & Hm & Hr' & Hb' & Hx). exists s, b, l. split; [done |].
  split; [by eapply rebinds_trans |]. split; [by etransitivity |]. destruct r; [| done].
  destruct Hx as (H1 & H2 & H3 & H4 & H5). split; [done |]. split; [done |]. split; [done |]. split; [| done].
  intros n Hx. destruct (H4 n Hx); auto.
Qed.

(** Nothing new is bound. *)
Lemma post_here (I : binding -> Prop) (D : gset addr -> gmap addr uval -> Prop) names sigma live h ef bound (r : bool) :
  MI h live ef sigma bound -> (r = true -> D bound live) -> (forall tau, sigma ⊆ tau -> I tau <-> r = true) ->
  post I D names sigma bound live (r, ef) h.
Proof.
  intros Hm HD Hi. exists sigma, bound, live. split; [done |]. split; [apply rebinds_refl |]. split; [done |]. destruct r.
  - split; [done |]. split; [by apply Hi |]. split; [done |]. split; [by left | by apply HD].
  - intros tau Ht HI. apply Hi in HI; done.
Qed.

(** A part that is true, and then another part. *)
Lemma post_seq (I J : binding -> Prop) (D E : gset addr -> gmap addr uval -> Prop) ns ms sigma sigma1 bound bound1 live live1 rh h :
  (forall t1 t2, t1 ⊆ t2 -> I t1 -> I t2) -> lasting D -> rebinds live live1 -> bound ⊆ bound1 ->
  sigma ⊆ sigma1 -> I sigma1 -> (forall tau, sigma ⊆ tau -> I tau -> sigma1 ⊆ tau) ->
  (forall name, is_Some (sigma1 !! name) -> is_Some (sigma !! name) \/ name ∈ ns) -> D bound1 live1 ->
  post J E ms sigma1 bound1 live1 rh h ->
  post (fun tau => I tau /\ J tau) (fun X l => D X l /\ E X l) (ns ++ ms) sigma bound live rh h.
Proof.
  intros Hmono HD Hr Hb Hs Hi Hl Hn HD1. destruct rh as [r ef]. intros (s & b & l & Hm & Hr' & Hb' & Hx).
  exists s, b, l. split; [done |]. split; [by eapply rebinds_trans |]. split; [by etransitivity |]. destruct r.
  - destruct Hx as (H1 & H2 & H3 & H4 & H5). split; [by etransitivity |]. split; [split; [by eapply Hmono | done] |].
    split; [intros tau Ht [HI HJ]; apply H3; [by apply Hl | done] |].
    split; [| split; [by eapply HD | done]].
    intros name Hx. rewrite elem_of_app. destruct (H4 name Hx) as [Hy | Hy]; [| tauto].
    destruct (Hn name Hy); tauto.
  - intros tau Ht [HI HJ]. by apply (Hx tau); [apply Hl |].
Qed.

Lemma pat_lasting p P : lasting (fun X l => MatchTerm.pat_at X l p P).
Proof. intros X X' l l' HX Hr. by apply pat_at_mono with vars. Qed.

(** ** Binding *)

Lemma size_bound p bound : p ∈ vars -> p ∉ bound -> bound ⊆ vars ->
  size ({[p]} ∪ bound) = S (size bound) /\ Z.of_nat (size bound) + 1 <= Z.of_nat (size vars).
Proof.
  intros Hp Hn Hs. assert (He : size ({[p]} ∪ bound) = S (size bound)).
  { rewrite size_union, size_singleton by set_solver. done. }
  split; [done |]. pose proof (subseteq_size ({[p]} ∪ bound) vars ltac:(set_solver)). lia.
Qed.

Lemma copy_value live v t : copy_at k live v t -> value_at live v (norm t).
Proof. intros (t' & Hd & Hp & Hn). exists t'. split; [by eapply den_pat | done]. Qed.

Lemma value_rebinds live live' v u : rebinds live live' -> value_at live v u -> value_at live' v u.
Proof. intros Hr (t & Ht & Hp). exists t. split; [by eapply pat_at_rebinds | done]. Qed.

Lemma bind_step {B} h live ef sigma bound p name s t fuel (K : option addr -> HM B) Q :
  MI h live ef sigma bound -> p ∈ vars -> p ∉ bound -> live !! p = Some (U_var name None) ->
  pat_at live s t -> pat_ok k false t -> cells t <= M -> (Z.to_nat M < fuel)%nat ->
  (forall v h' live', Good (w + Z.of_nat (size ({[p]} ∪ bound)) * M) h' live' loose (fun _ => False) ->
    rebinds live live' -> live' !! p = Some (U_var name (Some v)) ->
    (forall a, a <> p -> is_Some (live !! a) -> live' !! a = live !! a) ->
    value_at live' v (norm t) -> wp (K (Some v)) Q h') ->
  wp (let^ v := copy_term malloc fuel (Some s) in let^ _ := upd p (set_var_value v) in K v) Q h.
Proof.
  intros Hm Hp Hnb Hl Ha Ho Hc Hf HK. destruct (size_bound p bound Hp Hnb (mi_vars _ _ _ _ _ Hm)) as [Hsz Hle].
  pose proof (mi_good _ _ _ _ _ Hm) as [Hi Hu Hfn Hrf Hsl]. pose proof (cells_height t).
  apply wpH_bind. eapply wpH_mono; [| apply (copy_term_ok malloc malloc_fresh k fuel t ltac:(lia) Ho s h live loose ∅);
    [by eapply pat_den | exact Hi | nia]].
  intros ? h1 (r & -> & N & T & HiN & _). apply wpH_bind. eapply bind_ok; [exact T | exact HiN | exact Hl |].
  intros h2 Hi2. pose proof T as [D C U E Sz Rf Fn].
  assert (HNp : N !! p = None) by (eapply map_disjoint_Some_r; done).
  assert (Hup : (N ∪ live) !! p = Some (U_var name None)) by by rewrite lookup_union_r.
  assert (Ht : total (<[p := U_var name (Some r)]> (N ∪ live)) loose = total (N ∪ live) (ms [r] ⊎ loose))
    by by rewrite (total_insert _ _ _ _ _ Hup).
  assert (Hre : rebinds live (<[p := U_var name (Some r)]> (N ∪ live))).
  { intros a u Hau. destruct (decide (a = p)) as [-> | Hne].
    - right. split; [done |]. rewrite Hl in Hau. injection Hau as <-. rewrite lookup_insert_eq. eauto.
    - left. rewrite lookup_insert_ne by done. by apply lookup_union_Some; [| right]. }
  eapply HK; [| exact Hre | apply lookup_insert_eq | |].
  - pose proof (size_total_trees k live N [r] [t] loose T) as Hst. cbn [sum_cells foldr] in *.
    split; [exact Hi2 | | | rewrite Ht; nia |].
    + assert (HuN : used (N ∪ live) (ms [r] ⊎ loose) (fun _ => False)) by by apply used_union.
      intros a Hax Hx. rewrite Ht. apply HuN; [| done]. destruct (decide (a = p)) as [-> | Hne]; [by eexists |].
      by rewrite lookup_insert_ne in Hax.
    + apply map_Forall_insert_2; [done |]. by apply no_funs_union.
    + rewrite map_size_insert_Some by (by eexists). rewrite map_size_disj_union by done. nia.
  - intros a Hne Hsa. rewrite lookup_insert_ne by done. destruct Hsa as [u Hsa]. rewrite Hsa.
    by apply lookup_union_Some; [| right].
  - apply copy_value. inversion E as [| ? ? ? ? (t' & Hd & Hpt & Hn) _]; subst. exists t'. split; [| done].
    eapply (pat_den vars k); [done |]. eapply (pat_at_rebinds vars vars); [| by eapply den_pat].
    intros a u Hau. left. rewrite lookup_insert_ne by (intros ->; congruence). by apply lookup_union_Some_l.
Qed.

Lemma bound_kept (live live' : gmap addr uval) (p : addr) (name : list Z) (sigma : binding) (a : addr) :
  (exists name v u, live !! a = Some (U_var name (Some v)) /\ sigma !! name = Some u /\ value_at live v u) ->
  live !! p = Some (U_var name None) -> rebinds live live' ->
  (forall a, a <> p -> is_Some (live !! a) -> live' !! a = live !! a) ->
  exists name v u, live' !! a = Some (U_var name (Some v)) /\ sigma !! name = Some u /\ value_at live' v u.
Proof.
  intros (nm & x & u & Ha & Hs & Hv) Hp Hr Hk. exists nm, x, u.
  rewrite Hk by (congruence || by eexists). split; [done |]. split; [done |]. by eapply value_rebinds.
Qed.

(** What the two ways of binding have in common. *)
Lemma MI_bind h live ef sigma bound p name v u h' live' ef' sigma' :
  MI h live ef sigma bound -> p ∈ vars -> live !! p = Some (U_var name None) ->
  Good (w + Z.of_nat (size ({[p]} ∪ bound)) * M) h' live' loose (fun _ => False) ->
  rebinds live live' -> live' !! p = Some (U_var name (Some v)) ->
  (forall a, a <> p -> is_Some (live !! a) -> live' !! a = live !! a) ->
  value_at live' v u -> sigma ⊆ sigma' -> sigma' !! name = Some u ->
  (forall a, a ∈ chain ef' -> a ∈ chain ef \/ a = p /\ chars name) ->
  (forall nm x, sigma' !! nm = Some x -> sigma !! nm = Some x \/ nm = name /\ p ∈ chain ef' /\ name <> any_name /\ cells u <= M) ->
  (forall a, a ∈ chain ef -> a ∈ chain ef') -> (lin -> p ∈ chain ef') ->
  MI h' live' ef' sigma' ({[p]} ∪ bound).
Proof.
  intros Hm Hp Hl Hg Hr Hp' Hk Hv Hs Hn Hch Hnm Hsub Hlin. split; [done | | | | | | |].
  - eapply rebinds_trans; [apply (mi_old _ _ _ _ _ Hm) | done].
  - pose proof (mi_vars _ _ _ _ _ Hm). set_solver.
  - intros a Ha. apply elem_of_union in Ha as [Ha | Ha].
    + apply elem_of_singleton in Ha as ->. by exists name, v, u.
    + destruct (mi_bound _ _ _ _ _ Hm a Ha) as (nm & x & u' & Hax & Hsx & Hvx).
      destruct (bound_kept live live' p name sigma a) as (nm' & x' & u2 & H1 & H2 & H3); eauto 8.
      exists nm', x', u2. split; [done |]. split; [by eapply lookup_weaken | done].
  - intros a Ha Hna. destruct (mi_unbound _ _ _ _ _ Hm a Ha ltac:(set_solver)) as [nm Hx]. exists nm.
    rewrite Hk; [done | set_solver | by eexists].
  - intros a Ha. destruct (Hch a Ha) as [Hx | [-> Hcn]].
    + destruct (mi_chain _ _ _ _ _ Hm a Hx) as (Hb & nm & x & Hax & Hcn). split; [set_solver |]. exists nm, x.
      rewrite Hk by (congruence || by eexists). done.
    + split; [set_solver | eauto].
  - intros nm x Hx. destruct (Hnm nm x Hx) as [Hy | (-> & Hpc & Hny & Hcu)].
    + destruct (mi_names _ _ _ _ _ Hm nm x Hy) as (Hny & Hc & a & y & Ha & Hay). split; [done |]. split; [done |].
      exists a, y. split; [by apply Hsub |]. rewrite Hk by (congruence || by eexists). done.
    + rewrite Hn in Hx. injection Hx as <-. split; [done |]. split; [done |]. by exists p, v.
  - intros HL a Ha. apply elem_of_union in Ha as [Ha | Ha].
    + apply elem_of_singleton in Ha as ->. by apply Hlin.
    + by apply Hsub, (mi_lin _ _ _ _ _ Hm).
Qed.

Lemma find_lvar_ok h live ef sigma bound name (Q : option addr -> eterm_stateinfo -> Prop) :
  MI h live ef sigma bound -> chars name ->
  (forall v u, sigma !! name = Some u -> value_at live v u -> Q (Some v) h) ->
  (sigma !! name = None -> Q None h) -> wp (find_lvar (chain ef) name) Q h.
Proof.
  intros Hm Hc HS HN.
  assert (H : forall l, (forall a, a ∈ l -> a ∈ chain ef) ->
    (is_Some (sigma !! name) -> exists a v, a ∈ l /\ live !! a = Some (U_var name (Some v))) -> wp (find_lvar l name) Q h).
  { induction l as [| a l IH]; intros Hl Hf; cbn [find_lvar].
    - apply wpH_ret, HN. destruct (sigma !! name) eqn:E; [| done].
      destruct Hf as (a & v & Ha & _); [by eexists | by apply elem_of_nil in Ha].
    - destruct (mi_chain _ _ _ _ _ Hm a ltac:(apply Hl; constructor)) as (Hb & nm & v & Ha & Hcn).
      destruct (mi_bound _ _ _ _ _ Hm a Hb) as (nm' & v' & u & Ha' & Hs & Hv).
      rewrite Ha in Ha'. injection Ha' as <- <-.
      apply wpH_bind. eapply (get_ok malloc); [apply (mi_good _ _ _ _ _ Hm) | exact Ha |]. intros nx. cbn [val].
      rewrite !c_str_of_chars by done. case_bool_decide as Hn.
      + subst nm. apply wpH_ret. by eapply HS.
      + apply IH; [intros b Hb'; apply Hl; by constructor |]. intros Hx. destruct (Hf Hx) as (b & y & Hb' & Hy).
        apply elem_of_cons in Hb' as [-> | Hb']; [congruence | eauto]. }
  apply H; [done |]. intros [u Hu]. destruct (mi_names _ _ _ _ _ Hm name u Hu) as (_ & _ & a & v & Ha & Hv). eauto.
Qed.

Definition fuel_ok (fuel : nat) (p t : ETERM) : Prop :=
  (pat_ok k false p /\ (height t + 2 <= fuel)%nat) \/ (height t + Z.to_nat M + 3 <= fuel)%nat.
Definition fresh_for (p : ETERM) (sigma : binding) : Prop :=
  lin -> NoDup (var_names p) /\ forall name, name ∈ var_names p -> sigma !! name = None.

(** The calls of [ematch] with enough fuel. *)
Definition matches (em : option addr -> option addr -> lvars -> HM (bool * lvars)) (fuel : nat) : Prop :=
  forall P T p t h live ef sigma bound, MI h live ef sigma bound ->
    pat_ok k true P -> pat_ok k false T -> pat_at live p P -> pat_at live t T -> cells T <= M ->
    fuel_ok fuel P T -> fresh_for P sigma ->
    wp (em (Some p) (Some t) ef) (post (fun tau => inst tau P T) (fun X l => MatchTerm.pat_at X l p P) (var_names P) sigma bound live) h.

Lemma pat_at_cell live a p : pat_at live a p -> exists u, live !! a = Some u /\ erl_type u = ERL_TYPE p.
Proof. destruct 1; eexists; (split; [done |]); done. Qed.

Definition is_var (p : ETERM) : bool := match p with Erl_Variable _ _ => true | _ => false end.

Lemma inst_type tau p t : inst tau p t -> is_var p = false -> ERL_TYPE p = ERL_TYPE t.
Proof.
  destruct 1 as [| | p t Hl Hn | |]; intros Hv; try done.
  rewrite <- (norm_type p), Hn. apply norm_type.
Qed.

Lemma upd_same h a b u : blocks h !! a = Some b -> val b = u -> upd a (set_val u) h = Go tt h.
Proof.
  intros Hb <-. unfold upd. rewrite Hb. f_equal. unfold set_block, set_val. destruct h as [bl fl fr al], b. cbn in *.
  by rewrite insert_id.
Qed.

Lemma get_live {B} h live ef sigma bound a u (K : fix_block -> HM B) Q :
  MI h live ef sigma bound -> live !! a = Some u ->
  (forall n nx, blocks h !! a = Some (FixBlock n u nx false) -> wp (K (FixBlock n u nx false)) Q h) ->
  wp (let^ b := get_block a in K b) Q h.
Proof.
  intros Hm Ha HK. destruct (i_live _ _ _ _ (g_inv _ _ _ _ _ (mi_good _ _ _ _ _ Hm)) a u Ha) as [nx Hb].
  apply wpH_bind. unfold wpH, get_block. rewrite Hb. by apply HK.
Qed.

Lemma leaf_case h live ef sigma bound p t lp lt n m nx nx' :
  MI h live ef sigma bound -> leaf_ok k lp -> leaf_ok k lt -> ERL_TYPE lp = ERL_TYPE lt ->
  live !! p = Some (U_leaf lp) -> blocks h !! p = Some (FixBlock n (U_leaf lp) nx false) ->
  blocks h !! t = Some (FixBlock m (U_leaf lt) nx' false) ->
  wp (match match_leaf lp lt with
      | Some (r, lp, lt) =>
          let^ _ := upd p (set_val (U_leaf lp)) in
          let^ _ := upd t (set_val (U_leaf lt)) in
          retH (r, ef)
      | None => wrongH
      end) (post (fun tau => inst tau lp lt) (fun X l => MatchTerm.pat_at X l p lp) [] sigma bound live) h.
Proof.
  intros Hm Hlp Hlt Hty Hpl Hp Ht. destruct (match_leaf_ok k lp lt Hlp Hlt Hty) as (r & -> & Hr).
  unfold wpH, bindH. erewrite upd_same by done. erewrite upd_same by done. cbn.
  eapply post_here; [exact Hm | intros _; apply at_leaf; [done | by eapply leaf_ok_leaf] |].
  intros tau _. rewrite Hr. split; [| apply inst_leaf; by eapply leaf_ok_leaf].
  intros Hi. inversion Hi as [? ? Hx | ? ? ? ? ? Hx | | |]; subst; try done; by inversion Hlp.
Qed.

Lemma inst_ground tau p : forall t, pat_ok k false p -> inst tau p t <-> norm p = norm t.
Proof.
  induction p as [| | | | | | | | | h tl IHh IHt | | | es IH | |] using ETERM_rec_all; intros t Hp;
    inversion Hp as [? Hl | | ? Hf | ? Hv]; subst; try done; try (by inversion Hl).
  all: try (split; [by inversion 1 | by apply inst_leaf]).
  - split.
    + inversion 1; subst; [done |]. cbn [norm]. f_equal; [by apply IHh | by apply IHt].
    + destruct t; try done. intros [= Hh Ht]. apply inst_list; [by apply IHh | by apply IHt].
  - assert (H : forall ts, Forall2 (inst tau) es ts <-> norm <$> es = norm <$> ts).
    { clear -IH Hf. induction Hf as [| e es He _ IHf]; inversion_clear IH; intros ts.
      - split; [by inversion 1 | destruct ts; [constructor | done]].
      - split.
        + inversion 1; subst. cbn. f_equal; [by match goal with H : forall t, _ |- _ => apply H end | by apply IHf].
        + destruct ts as [| t ts]; [done |]. intros [= H1 H2].
          constructor; [by match goal with H : forall t, _ |- _ => apply H end | by apply IHf]. }
    split.
    + inversion 1; subst; [done |]. cbn [norm]. f_equal. by apply H.
    + destruct t; try done. intros [= Ht]. apply inst_tuple. by apply H.
Qed.

Lemma inst_variable tau name t :
  inst tau (Erl_Variable name None) t <-> name = any_name \/ name <> any_name /\ tau !! name = Some (norm t).
Proof.
  split.
  - inversion 1; subst; [by left | by right | done].
  - intros [-> | [Hn Ht]]; [apply inst_any | by apply inst_var].
Qed.

Lemma fresh_ground p sigma : pat_ok k false p -> fresh_for p sigma.
Proof.
  intros Hp _. rewrite (no_names k p Hp). split; [constructor |]. intros n Hn. by apply elem_of_nil in Hn.
Qed.

(** The value of a variable is matched. *)
Lemma match_value fuel h live ef sigma bound p name v u t T (names : list (list Z)) :
  matches (ematch malloc fuel) fuel -> MI h live ef sigma bound -> sigma !! name = Some u -> name <> any_name ->
  live !! p = Some (U_var name (Some v)) -> p ∈ bound ->
  value_at live v u -> pat_at live t T -> pat_ok k false T -> cells T <= M -> (height T + 2 <= fuel)%nat ->
  wp (ematch malloc fuel (Some v) (Some t) ef)
    (post (fun tau => inst tau (Erl_Variable name None) T)
      (fun X l => MatchTerm.pat_at X l p (Erl_Variable name None)) names sigma bound live) h.
Proof.
  intros IH Hm Hs Hn Hpl Hpb (V & Hv & Ho & <-) Ht HT Hc Hf.
  eapply wpH_mono; [| eapply (IH V T); [exact Hm | by apply pat_ok_true | done | exact Hv | exact Ht | done | by left | by apply fresh_ground]].
  intros [r ef'] h' (s & b & l & Hm' & Hr & Hb & Hx). exists s, b, l. split; [done |]. split; [done |]. split; [done |].
  assert (HI : forall tau, sigma ⊆ tau -> inst tau V T <-> inst tau (Erl_Variable name None) T).
  { intros tau Htau. rewrite (inst_ground tau V T Ho), inst_variable. rewrite (lookup_weaken _ _ _ _ Hs Htau).
    split; [intros ->; right; split; done | intros [? | [_ [= Hy]]]; done]. }
  destruct r; [| intros tau Htau Hi; by apply (Hx tau Htau), HI].
  destruct Hx as (H1 & H2 & H3 & H4 & _). rewrite (no_names k V Ho) in H4.
  split; [done |]. split; [by apply HI |]. split; [intros tau Htau Hi; apply H3; [done | by apply HI] |].
  split; [intros n Hn'; destruct (H4 n Hn') as [? | Hy]; [by left | by apply elem_of_nil in Hy] |].
  destruct (Hr _ _ Hpl) as [Hp' | (_ & nm & ? & v' & [= <- <-] & Hp')]; eapply at_var; [exact Hp' | | exact Hp' |]; left; set_solver.
Qed.

Lemma var_case fuel h live ef sigma bound name v p t T :
  matches (ematch malloc fuel) fuel -> MI h live ef sigma bound -> chars name -> p ∈ vars \/ name = any_name ->
  live !! p = Some (U_var name v) -> pat_at live t T -> pat_ok k false T -> cells T <= M ->
  (height T + 2 <= fuel)%nat -> (Z.to_nat M < fuel)%nat -> fresh_for (Erl_Variable name None) sigma ->
  wp (if bool_decide (c_str name = [95]) then retH (true, ef) else
      let^ tmp := find_lvar (chain ef) name in
      match tmp, v with
      | Some tmp, None =>
          let^ v := copy_term malloc fuel (Some tmp) in
          let^ _ := upd p (set_var_value v) in
          ematch malloc fuel v (Some t) ef
      | Some _, Some _ => ematch malloc fuel v (Some t) ef
      | None, Some _ =>
          let^ (r, ef) := ematch malloc fuel v (Some t) ef in
          if r then retH (true, add_lvar p ef) else retH (false, ef)
      | None, None =>
          let^ v := copy_term malloc fuel (Some t) in
          let^ _ := upd p (set_var_value v) in
          retH (true, add_lvar p ef)
      end)
    (post (fun tau => inst tau (Erl_Variable name None) T)
      (fun X l => MatchTerm.pat_at X l p (Erl_Variable name None)) (var_names (Erl_Variable name None)) sigma bound live) h.
Proof.
  intros IH Hm Hcn Hp Hl Ht HT Hc Hf HfM Hfr. rewrite c_str_of_chars by done. cbn [var_names].
  case_bool_decide as Hany.
  { apply wpH_ret. eapply post_here; [exact Hm | intros _; eapply at_var; [exact Hl | by right] |].
    intros tau _. rewrite inst_variable. split; [done | by left]. }
  destruct Hp as [Hp | Hp]; [| done].
  rewrite (bool_decide_eq_false_2 (name = any_name)) by done.
  assert (Hbound : forall x, v = Some x -> exists u, sigma !! name = Some u /\ value_at live x u).
  { intros x ->. destruct (decide (p ∈ bound)) as [Hb | Hb].
    - destruct (mi_bound _ _ _ _ _ Hm p Hb) as (nm & y & u & Hx & Hs & Hv). rewrite Hl in Hx. injection Hx as <- <-. eauto.
    - destruct (mi_unbound _ _ _ _ _ Hm p Hp Hb) as [nm Hx]. congruence. }
  assert (Hnb : v = None -> p ∉ bound).
  { intros -> Hb. destruct (mi_bound _ _ _ _ _ Hm p Hb) as (nm & y & u & Hx & _). congruence. }
  apply wpH_bind. eapply find_lvar_ok; [exact Hm | done | |].
  - intros tmp u Hs Htmp. destruct v as [x |].
    + destruct (Hbound x eq_refl) as (u' & Hs' & Hx). rewrite Hs in Hs'. injection Hs' as <-.
      eapply (match_value fuel h live ef sigma bound p name x u); try done. destruct (decide (p ∈ bound)) as [? | Hb]; [done |].
      destruct (mi_unbound _ _ _ _ _ Hm p Hp Hb) as [nm Hy]. congruence.
    + destruct Htmp as (S & HS & HoS & <-). pose proof (mi_names _ _ _ _ _ Hm _ _ Hs) as (Hna & HcS & _).
      rewrite cells_norm in HcS. eapply bind_step; [exact Hm | done | by apply Hnb | exact Hl | exact HS | done | done | done |].
      intros y h' live' Hg Hr Hp' Hk Hv.
      assert (HL : ~ lin).
      { intros HL. destruct (Hfr HL) as [_ Hx]. cbn [var_names] in Hx. rewrite bool_decide_eq_false_2 in Hx by done.
        specialize (Hx name ltac:(constructor)). congruence. }
      eapply wpH_mono; [| eapply (match_value fuel h' live' ef sigma ({[p]} ∪ bound) p); [done | | exact Hs | done | exact Hp' | set_solver | exact Hv | by eapply pat_at_rebinds | done | done | done]].
      * intros rh h2 Hpo. eapply post_from; [exact Hr | | | exact Hpo]; [set_solver |]. intros ? Hx. exact Hx.
      * eapply MI_bind; [exact Hm | done | exact Hl | exact Hg | exact Hr | exact Hp' | exact Hk | exact Hv | done | done | by left | by left | done | done].
  - intros Hs. destruct v as [x |].
    { destruct (Hbound x eq_refl) as (u' & Hs' & _). congruence. }
    eapply bind_step; [exact Hm | done | by apply Hnb | exact Hl | exact Ht | done | done | done |].
    intros y h' live' Hg Hr Hp' Hk Hv. apply wpH_ret.
    exists (<[name := norm T]> sigma), ({[p]} ∪ bound), live'. split; [| split; [done | split; [set_solver |]]].
    + eapply MI_bind; [exact Hm | done | exact Hl | exact Hg | exact Hr | exact Hp' | exact Hk | exact Hv
        | by apply insert_subseteq | apply lookup_insert_eq | | | |]; cbn [add_lvar chain].
      * intros a Ha. apply elem_of_cons in Ha as [-> | Ha]; [by right | by left].
      * intros nm z Hz. destruct (decide (nm = name)) as [-> | Hne].
        -- right. rewrite cells_norm. split; [done |]. split; [constructor | done].
        -- rewrite lookup_insert_ne in Hz by done. by left.
      * intros a Ha. by constructor.
      * intros _. constructor.
    + split; [by apply insert_subseteq |]. split; [rewrite inst_variable; right; split; [done | apply lookup_insert_eq] |].
      split.
      * intros tau Htau Hi. rewrite inst_variable in Hi. destruct Hi as [Hi | [_ Hi]]; [done |]. by apply insert_subseteq_l.
      * split; [| eapply at_var; [exact Hp' | left; set_solver]].
        intros n [z Hz]. destruct (decide (n = name)) as [-> | Hne]; [right; constructor |].
        rewrite lookup_insert_ne in Hz by done. left. by eexists.
Qed.

(** ** Lists and tuples *)

Definition fresh_in (names : list (list Z)) (sigma : binding) : Prop :=
  lin -> NoDup names /\ forall name, name ∈ names -> sigma !! name = None.

Lemma fresh_first ns ms sigma : fresh_in (ns ++ ms) sigma -> fresh_in ns sigma.
Proof.
  intros H HL. destruct (H HL) as [Hnd Hn]. apply list.NoDup_app in Hnd as (Hnd & _ & _). split; [done |].
  intros n Hx. apply Hn, elem_of_app. by left.
Qed.

Lemma fresh_next ns ms sigma sigma1 : fresh_in (ns ++ ms) sigma ->
  (forall name, is_Some (sigma1 !! name) -> is_Some (sigma !! name) \/ name ∈ ns) -> fresh_in ms sigma1.
Proof.
  intros H Hs HL. destruct (H HL) as [Hnd Hn]. apply list.NoDup_app in Hnd as (_ & Hd & Hnd). split; [done |].
  intros n Hx. destruct (sigma1 !! n) eqn:E; [| done]. destruct (Hs n ltac:(by eexists)) as [[u Hu] | Hy].
  - rewrite Hn in Hu by (apply elem_of_app; by right). done.
  - by destruct (Hd n Hy).
Qed.

(** A call, and then the rest if it is true. *)
Lemma call_then (em : option addr -> option addr -> lvars -> HM (bool * lvars)) (fuel : nat) (P T : ETERM) (p t : addr) (h : eterm_stateinfo) (live : gmap addr uval) (ef : lvars) (sigma : binding) (bound : gset addr) (K : lvars -> HM (bool * lvars)) (J : binding -> Prop) E (ms : list (list Z)) :
  matches em fuel -> MI h live ef sigma bound -> pat_ok k true P -> pat_ok k false T ->
  pat_at live p P -> pat_at live t T -> cells T <= M -> fuel_ok fuel P T -> fresh_in (var_names P ++ ms) sigma ->
  (forall h' live' ef' sigma' bound', MI h' live' ef' sigma' bound' -> rebinds live live' -> fresh_in ms sigma' ->
    wp (K ef') (post J E ms sigma' bound' live') h') ->
  wp (let^ (r, ef) := em (Some p) (Some t) ef in if negb r then retH (false, ef) else K ef)
    (post (fun tau => inst tau P T /\ J tau) (fun X l => MatchTerm.pat_at X l p P /\ E X l) (var_names P ++ ms) sigma bound live) h.
Proof.
  intros Hem Hm HP HT Hp Ht Hc Hf Hfr HK. apply wpH_bind.
  eapply wpH_mono; [| apply (Hem P T p t h live ef sigma bound); try done; by eapply fresh_first].
  intros [r ef'] h' (s & b & l & Hm' & Hr & Hb & Hx). destruct r; cbn [negb].
  - destruct Hx as (H1 & H2 & H3 & H4 & H5). eapply wpH_mono; [| eapply HK; [exact Hm' | exact Hr | by eapply fresh_next]].
    intros rh h2 Hpo. eapply post_seq; [| apply pat_lasting | exact Hr | exact Hb | exact H1 | exact H2 | exact H3 | exact H4 | exact H5 | exact Hpo].
    intros t1 t2 Hs. by apply inst_mono.
  - apply wpH_ret. exists s, b, l. split; [done |]. split; [done |]. split; [done |]. intros tau Ht' [HI _]. by apply (Hx tau).
Qed.

Lemma match_elems_ok em fuel Ps : matches em fuel ->
  forall es xs Ts h live ef sigma bound, MI h live ef sigma bound ->
  Forall (pat_ok k true) Ps -> Forall (pat_ok k false) Ts ->
  Forall2 (pat_at live) es Ps -> Forall2 (pat_at live) xs Ts -> Forall (fun T => cells T <= M) Ts ->
  Forall2 (fuel_ok fuel) Ps Ts -> fresh_in (concat (var_names <$> Ps)) sigma ->
  wp (match_elems em (Some <$> es) (Some <$> xs) ef)
    (post (fun tau => Forall2 (inst tau) Ps Ts) (fun X l => Forall2 (MatchTerm.pat_at X l) es Ps)
      (concat (var_names <$> Ps)) sigma bound live) h.
Proof.
  intros Hem. induction Ps as [| P Ps IH]; intros es xs Ts h live ef sigma bound Hm HPs HTs Hes Hxs Hc Hf Hfr;
    inversion Hf as [| ? T ? Ts' Hf1 Hf2]; subst.
  - inversion Hes; subst. apply wpH_ret. eapply post_here; [exact Hm | constructor |]. intros tau _. split; [done | constructor].
  - inversion Hes as [| p ? es' ? Hp Hes']; subst. inversion Hxs as [| x ? xs' ? Hx Hxs']; subst.
    inversion_clear HPs. inversion_clear HTs. inversion_clear Hc. cbn [fmap list_fmap match_elems concat].
    eapply wpH_mono; [| eapply (call_then em fuel P T p x h live ef sigma bound
      (match_elems em (Some <$> es') (Some <$> xs')) (fun tau => Forall2 (inst tau) Ps Ts')
      (fun X l => Forall2 (MatchTerm.pat_at X l) es' Ps) (concat (var_names <$> Ps)));
      [done.. |]].
    + intros rh h' Hpo. eapply post_iff; [| | exact Hpo].
      * intros tau _. split; [by intros [? ?]; constructor | by inversion 1].
      * intros X l _ [? ?]. by constructor.
    + intros h' live' ef' sigma' bound' Hm' Hr Hfr'. eapply IH; try done.
      * eapply Forall2_impl; [| exact Hes']. intros ? ? ?. by eapply pat_at_rebinds.
      * eapply Forall2_impl; [| exact Hxs']. intros ? ? ?. by eapply pat_at_rebinds.
Qed.

Definition is_list (p : ETERM) : bool := match p with Erl_List _ _ => true | _ => false end.

Lemma fuel_ok_S fuel p t : fuel_ok fuel p t -> fuel_ok (S fuel) p t.
Proof. intros [[? ?] | ?]; [left | right]; lia || (split; [done | lia]). Qed.

Lemma fuel_ok_list fuel ph pt th tt : fuel_ok (S fuel) (Erl_List ph pt) (Erl_List th tt) ->
  fuel_ok fuel ph th /\ fuel_ok fuel pt tt.
Proof.
  unfold fuel_ok. cbn [height]. intros [[Hp Hh] | Hh].
  - inversion Hp as [? Hl | | |]; subst; [inversion Hl |]. split; left; (split; [done | lia]).
  - split; right; lia.
Qed.

Lemma pat_at_list live a p : pat_at live a p -> is_list p = false -> pat_ok k true p ->
  exists u, live !! a = Some u /\ (forall x y, u <> U_list x y).
Proof. destruct 1; intros Hl Hp; eexists; (split; [done |]); by intros. Qed.

Lemma match_cells_ok em fuel n : matches em fuel ->
  forall P T p t h live ef sigma bound, MI h live ef sigma bound ->
  pat_ok k true P -> pat_ok k false T -> pat_at live p P -> pat_at live t T -> cells T <= M ->
  fuel_ok (S fuel) P T -> (is_list P && is_list T = false -> fuel_ok fuel P T) -> (height T < n)%nat ->
  fresh_for P sigma ->
  wp (match_cells em n (Some p) (Some t) ef) (post (fun tau => inst tau P T) (fun X l => MatchTerm.pat_at X l p P) (var_names P) sigma bound live) h.
Proof.
  intros Hem. induction n as [| n IH]; intros P T p t h live ef sigma bound Hm HP HT Hp Ht Hc HfS Hf Hn Hfr; [lia |].
  cbn [match_cells]. destruct (is_list P) eqn:EP.
  2:{ destruct (pat_at_list _ _ _ Hp EP HP) as (u & Hu & Hnl). eapply get_live; [exact Hm | exact Hu |].
      intros m nx _. cbn [val]. destruct u; try (by eapply Hem; eauto). by destruct (Hnl head tail). }
  destruct P as [| | | | | | | | | ph pt | | | | |]; try done.
  inversion HP as [? Hl | ? ? HP1 HP2 | |]; subst; [inversion Hl |].
  inversion Hp as [| | ? pa pb ? ? Hpu Hpa Hpb |]; subst; [done |].
  eapply get_live; [exact Hm | exact Hpu |]. intros m nx _. cbn [val].
  destruct (is_list T) eqn:ET.
  2:{ destruct (pat_at_list _ _ _ Ht ET ltac:(by apply pat_ok_true)) as (u & Hu & Hnl). eapply get_live; [exact Hm | exact Hu |].
      intros m' nx' _. cbn [val]. destruct u; try (by eapply Hem; eauto). by destruct (Hnl head tail). }
  destruct T as [| | | | | | | | | th tl | | | | |]; try done.
  inversion HT as [? Hl | ? ? HT1 HT2 | |]; subst; [inversion Hl |].
  inversion Ht as [| | ? ta tb ? ? Htu Hta Htb |]; subst; [done |].
  eapply get_live; [exact Hm | exact Htu |]. intros m' nx' _. cbn [val].
  destruct (fuel_ok_list _ _ _ _ _ HfS) as [Hf1 Hf2]. cbn [cells height] in *.
  pose proof (cells_height th). pose proof (cells_height tl).
  eapply wpH_mono; [| eapply (call_then em fuel ph th pa ta h live ef sigma bound
    (match_cells em n (Some pb) (Some tb)) (fun tau => inst tau pt tl)
    (fun X l => MatchTerm.pat_at X l pb pt) (var_names pt)); try done; [lia |]].
  - intros rh h' Hpo. eapply post_iff; [| | exact Hpo].
    + intros tau _. split; [intros [? ?]; by apply inst_list |]. inversion 1; subst; done.
    + intros X l Hr [? ?]. destruct (Hr _ _ Hpu) as [Hl | (_ & ? & ? & ? & [=] & _)]. by eapply at_list.
  - intros h' live' ef' sigma' bound' Hm' Hr Hfr'. eapply IH; try done; [by eapply pat_at_rebinds.. | lia | by apply fuel_ok_S | lia].
Qed.

(** ** Terms *)

Lemma fuel_ok_elems fuel ps ts : fuel_ok (S fuel) (Erl_Tuple ps) (Erl_Tuple ts) -> length ps = length ts ->
  Forall2 (fuel_ok fuel) ps ts.
Proof.
  intros Hf Hl. apply Forall2_same_length_lookup_2; [done |]. intros i p t Hp Ht.
  apply list_elem_of_lookup_2 in Ht. apply height_elem in Ht. destruct Hf as [[Ho Hh] | Hh]; [left | right; lia].
  inversion Ho as [? Hx | | ? Hx |]; subst; [inversion Hx |]. split; [| lia].
  by eapply Forall_lookup_1.
Qed.

Lemma pat_ok_elems p ps : pat_ok k p (Erl_Tuple ps) -> Forall (pat_ok k p) ps.
Proof. inversion 1 as [? Hx | | ? Hx |]; subst; [inversion Hx | done]. Qed.

Lemma pat_at_tuple live a ps : pat_at live a (Erl_Tuple ps) ->
  exists es, live !! a = Some (U_tuple (Some <$> es)) /\ Forall2 (pat_at live) es ps.
Proof. inversion 1; subst; [done | eauto]. Qed.

Lemma tuple_case fuel h live ef sigma bound p Ps Ts es xs :
  matches (ematch malloc fuel) fuel -> MI h live ef sigma bound -> live !! p = Some (U_tuple (Some <$> es)) ->
  pat_ok k true (Erl_Tuple Ps) -> pat_ok k false (Erl_Tuple Ts) ->
  Forall2 (pat_at live) es Ps -> Forall2 (pat_at live) xs Ts -> cells (Erl_Tuple Ts) <= M ->
  fuel_ok (S fuel) (Erl_Tuple Ps) (Erl_Tuple Ts) -> fresh_for (Erl_Tuple Ps) sigma ->
  wp (if negb (len (Some <$> es) =? len (Some <$> xs)) then retH (false, ef)
      else match_elems (ematch malloc fuel) (Some <$> es) (Some <$> xs) ef)
    (post (fun tau => inst tau (Erl_Tuple Ps) (Erl_Tuple Ts)) (fun X l => MatchTerm.pat_at X l p (Erl_Tuple Ps))
      (var_names (Erl_Tuple Ps)) sigma bound live) h.
Proof.
  intros IH Hm Hpl HP HT Hes Hxs Hc Hf Hfr. rewrite !length_fmap.
  rewrite (Forall2_length Hes), (Forall2_length Hxs).
  assert (Hinst : forall tau, inst tau (Erl_Tuple Ps) (Erl_Tuple Ts) <-> Forall2 (inst tau) Ps Ts).
  { intros tau. split; [inversion 1; subst; [done | done] | by apply inst_tuple]. }
  destruct (Z.eqb_spec (len Ps) (len Ts)) as [He | Hne]; cbn [negb].
  - eapply wpH_mono; [| eapply (match_elems_ok _ fuel Ps IH es xs Ts); try done].
    + intros rh h' Hpo. eapply post_iff; [| | exact Hpo]; [intros tau _; by rewrite Hinst |].
      intros X l Hr HF. destruct (Hr _ _ Hpl) as [Hl | (_ & ? & ? & ? & [=] & _)]. by eapply at_tuple.
    + by apply pat_ok_elems.
    + by apply pat_ok_elems.
    + apply Forall_forall. intros T HT'. apply list_elem_of_In, cells_elem in HT'. lia.
    + apply fuel_ok_elems; [done | lia].
  - apply wpH_ret. eapply post_here; [exact Hm | done |]. intros tau _. rewrite Hinst. split; [| done].
    intros Hx. apply Forall2_length in Hx. lia.
Qed.

Lemma type_leaf p t : ERL_TYPE p = ERL_TYPE t -> is_leaf p = true -> is_var t = false -> is_leaf t = true.
Proof. by destruct p, t. Qed.

Lemma ematch_ok fuel : matches (ematch malloc fuel) fuel.
Proof.
  induction fuel as [| fuel IH]; intros P T p t h live ef sigma bound Hm HP HT Hp Ht Hc Hf Hfr.
  { destruct Hf as [[_ ?] | ?]; lia. }
  cbn [ematch]. destruct (pat_at_cell _ _ _ Hp) as (up & Hup & Htp), (pat_at_cell _ _ _ Ht) as (ut & Hut & Htt).
  eapply get_live; [exact Hm | exact Hup |]. intros n nx Hbp. eapply get_live; [exact Hm | exact Hut |]. intros m nx' Hbt.
  cbn [val]. rewrite Htp, Htt.
  assert (Hnv : is_var T = false) by (destruct T; try done; inversion HT as [? Hx | | | ? Hx]; subst; [inversion Hx | done]).
  assert (Hsame : match ut with U_var _ v => v | _ => Some t end = Some t).
  { destruct ut; try done. cbn [erl_type] in Htt. by destruct T. }
  rewrite Hsame. destruct (is_var P) eqn:EP.
  - destruct P as [| | | | | | | | | | | | | name v |]; try done. inversion HP as [? Hx | | | ? _ Hcn]; subst; [inversion Hx |].
    inversion Hp as [? ? v Hpv Hpin | | |]; subst; [| done]. rewrite Hup in Hpv. injection Hpv as ->.
    cbn [ERL_TYPE]. rewrite Z.eqb_refl. cbn [negb andb]. destruct Hf as [[Hg _] | Hf].
    { inversion Hg as [? Hx | | | ? Hx]; subst; [inversion Hx | done]. }
    eapply var_case; [exact IH | exact Hm | exact Hcn | exact Hpin | exact Hup | exact Ht | done | done | lia | lia | done].
  - assert (Hpv : (ERL_TYPE P =? ERL_VARIABLE) = false) by by destruct P. rewrite Hpv. cbn [negb andb].
    destruct (Z.eqb_spec (ERL_TYPE P) (ERL_TYPE T)) as [Hty | Hty]; cbn [negb].
    2:{ apply wpH_ret. eapply post_here; [exact Hm | done |]. intros tau _. split; [| done]. intros Hx. by apply inst_type in Hx. }
    destruct (is_leaf P) eqn:EL.
    + pose proof (type_leaf P T Hty EL Hnv) as ELt.
      assert (up = U_leaf P) as -> by (inversion Hp; subst; try done; congruence).
      assert (ut = U_leaf T) as -> by (inversion Ht; subst; try done; congruence).
      assert (Hn0 : var_names P = []) by by destruct P. rewrite Hn0.
      eapply leaf_case; [exact Hm | by eapply pat_ok_leaf | by eapply pat_ok_leaf | done | exact Hup | exact Hbp | exact Hbt].
    + destruct P as [| | | | | | | | | ph pt | | Ps | | |]; try done.
      * destruct T as [| | | | | | | | | th tl | | | | |]; try done.
        inversion Hp as [| | ? pa pb ? ? Hpu Hpa Hpb |]; subst; [done |]. rewrite Hup in Hpu. injection Hpu as ->.
        inversion Ht as [| | ? ta tb ? ? Htu Hta Htb |]; subst; [done |]. rewrite Hut in Htu. injection Htu as ->.
        eapply match_cells_ok; try done. destruct Hf as [[_ ?] | ?]; lia.
      * destruct T as [| | | | | | | | | | | Ts | | |]; try done.
        apply pat_at_tuple in Hp as (es & Hpu & Hes). rewrite Hup in Hpu. injection Hpu as ->.
        apply pat_at_tuple in Ht as (xs & Htu & Hxs). rewrite Hut in Htu. injection Htu as ->.
        by eapply tuple_case.
      * inversion HP as [? Hx | | |]; subst. inversion Hx.
Qed.

(** ** What a failed match gives back *)

Lemma bind_two {A} (m n : HM unit) (K : HM A) h h' :
  (let^ _ := m in n) h = Go tt h' -> (let^ _ := m in let^ _ := n in K) h = K h'.
Proof. unfold bindH. destruct (m h) as [? h1 | |]; [| done | done]. by intros ->. Qed.

Lemma refs_unbind live a name v : live !! a = Some (U_var name v) ->
  (size (all_refs (<[a := U_var name None]> live)) <= size (all_refs live))%nat.
Proof.
  intros Ha. rewrite (all_refs_delete live a _ Ha), <- insert_delete_eq, all_refs_insert by apply lookup_delete_eq.
  rewrite !gmultiset_size_disj_union, !size_ms. cbn [refs]. destruct v; cbn; lia.
Qed.

(** The cells that the match began with stay. *)
Lemma old_kept live live' : reached live0 loose -> rebinds live0 live ->
  live' ⊆ live -> reached live' loose -> rebinds live0 live'.
Proof.
  intros H0 Hr Hs (_ & Hc & _).
  assert (Hk : forall b, is_Some (live0 !! b) -> is_Some (live' !! b)).
  { apply (reach_keep live0 live' loose H0 Hc). intros b u u' Hu Hu' c Hx.
    pose proof (lookup_weaken _ _ _ _ Hu' Hs) as Hu2. destruct (Hr b u Hu) as [Hl | (Hv & name & v & v' & -> & _)].
    - rewrite Hl in Hu2. by injection Hu2 as <-.
    - destruct (vars_unbound b Hv) as [nm Hb]. rewrite Hu in Hb. injection Hb as -> ->. by apply elem_of_nil in Hx. }
  intros b u Hu. destruct (Hk b ltac:(by eexists)) as [u' Hu']. pose proof (lookup_weaken _ _ _ _ Hu' Hs) as Hu2.
  destruct (Hr b u Hu) as [Hl | (Hv & name & v & v' & -> & Hl)]; rewrite Hl in Hu2; injection Hu2 as <-; eauto 8.
Qed.

Lemma unbind_rebinds live a name v : a ∈ vars -> live !! a = Some (U_var name v) -> rebinds live0 live ->
  rebinds live0 (<[a := U_var name None]> live).
Proof.
  intros Ha Hl Hr. eapply rebinds_trans; [exact Hr |]. intros b u Hb. destruct (decide (b = a)) as [-> | Hne].
  - right. split; [done |]. rewrite Hl in Hb. injection Hb as <-. rewrite lookup_insert_eq. eauto.
  - left. by rewrite lookup_insert_ne.
Qed.

Lemma undo_ok fuel W c : forall h live (X : addr -> Prop),
  reached live0 loose -> W + 1 < Z.of_nat fuel ->
  Good W h live loose (fun _ => False) -> rebinds live0 live -> (forall a, a ∈ c -> a ∈ vars) ->
  (forall b name v, b ∈ vars -> live !! b = Some (U_var name (Some v)) -> b ∈ c \/ X b) ->
  exists h' live', undo_bindings fuel c h = Go tt h' /\ Good W h' live' loose (fun _ => False) /\
    rebinds live0 live' /\ forall b name v, b ∈ vars -> live' !! b = Some (U_var name (Some v)) -> X b.
Proof.
  induction c as [| a c IH]; intros h live X H0 Hfu Hg Hr Hc HX.
  - exists h, live. split; [done |]. split; [done |]. split; [done |]. intros b name v Hb Hl.
    destruct (HX b name v Hb Hl) as [Hx | Hx]; [by apply elem_of_nil in Hx | done].
  - assert (Ha : a ∈ vars) by (apply Hc; constructor). destruct (vars_unbound a Ha) as [name Ha0].
    assert (Hla : exists v, live !! a = Some (U_var name v)).
    { destruct (Hr _ _ Ha0) as [Hl | (_ & nm & ? & v & [= <- <-] & Hl)]; eauto. }
    destruct Hla as [v Hl]. pose proof Hg as [Hi Hu Hf Hrf Hsz]. destruct (i_live _ _ _ _ Hi a _ Hl) as [nx Hb].
    cbn [undo_bindings]. unfold bindH at 1, get_block. rewrite Hb. cbn [val].
    assert (Hc' : forall b, b ∈ c -> b ∈ vars) by (intros b Hx; apply Hc; by constructor).
    destruct v as [v |].
    + destruct (undo_one fuel h live loose a name v Hi Hu Hf Hl ltac:(lia)) as (h1 & live1 & Hrun & Hi1 & Hu1 & Hs1).
      { intros l Hs Hx. pose proof (old_kept _ l H0 (unbind_rebinds _ _ _ _ Ha Hl Hr) Hs Hx) as Hk.
        destruct (Hk _ _ Ha0) as [Hy | (_ & ? & ? & ? & _ & Hy)]; rewrite Hy; by eexists. }
      rewrite (bind_two _ _ _ _ _ Hrun).
      pose proof (refs_unbind live a name _ Hl). pose proof (gmultiset_subseteq_size _ _ (all_refs_subseteq _ _ Hs1)).
      pose proof (map_subseteq_size _ _ Hs1) as Hs2. rewrite map_size_insert_Some in Hs2 by (by eexists).
      apply (IH h1 live1 X H0 Hfu); [| | done |].
      * split; [done | done | eapply no_funs_subseteq; [exact Hs1 | by apply map_Forall_insert_2] | | lia].
        unfold total in *. rewrite gmultiset_size_disj_union in *. lia.
      * eapply old_kept; [done | by eapply unbind_rebinds | exact Hs1 | by eapply Inv_reached].
      * intros b nm y Hbv Hy. pose proof (lookup_weaken _ _ _ _ Hy Hs1) as Hy2.
        destruct (decide (b = a)) as [-> | Hne]; [by rewrite lookup_insert_eq in Hy2 |].
        rewrite lookup_insert_ne in Hy2 by done. destruct (HX b nm y Hbv Hy2) as [Hx | Hx]; [| by right].
        apply elem_of_cons in Hx as [-> | Hx]; [done | by left].
    + assert (Hrun : (let^ _ := erl_free_term fuel None in upd a (set_var_value None)) h = Go tt h).
      { unfold bindH, erl_free_term. destruct fuel; [lia |]. cbn [free_term]. unfold retH, upd. rewrite Hb.
        unfold set_var_value. cbn [val]. f_equal. unfold set_block, set_val. destruct h as [bl fl fr al]. cbn in *. by rewrite insert_id. }
      rewrite (bind_two _ _ _ _ _ Hrun). apply (IH h live X H0 Hfu Hg Hr Hc').
      intros b nm y Hbv Hy. destruct (HX b nm y Hbv Hy) as [Hx | Hx]; [| by right].
      apply elem_of_cons in Hx as [-> | Hx]; [congruence | by left].
Qed.

(** ** The pattern after a match *)

Lemma den_bound live a name v u : live !! a = Some (U_var name (Some v)) -> den live v u ->
  den live a (Erl_Variable name (Some u)).
Proof. intros Ha [n Hn]. exists (S n). cbn [term_at]. by rewrite Ha, Hn. Qed.

Lemma den_unbound live a name : den live a (Erl_Variable name None) -> live !! a = Some (U_var name None).
Proof.
  intros [[| fu] Hd]; [done |]. cbn [term_at] in Hd. destruct (live !! a) as [u |]; [| done].
  destruct u as [| l | nm [v |] | [hd |] [tl |] | es |]; try done.
  - by destruct l.
  - by destruct (term_at fu live v).
  - by injection Hd as ->.
  - by destruct (term_at fu live hd), (term_at fu live tl).
  - by destruct (mapM _ es).
Qed.

(** [filled sigma P P']: [P'] is the pattern [P] with its variables bound. *)
Inductive filled (sigma : binding) : ETERM -> ETERM -> Prop :=
  | filled_leaf t : is_leaf t = true -> filled sigma t t
  | filled_any : filled sigma (Erl_Variable any_name None) (Erl_Variable any_name None)
  | filled_var name u : name <> any_name -> sigma !! name = Some (norm u) -> pat_ok k false u ->
      filled sigma (Erl_Variable name None) (Erl_Variable name (Some u))
  | filled_list h t h' t' : filled sigma h h' -> filled sigma t t' ->
      filled sigma (Erl_List h t) (Erl_List h' t')
  | filled_tuple ps ps' : Forall2 (filled sigma) ps ps' -> filled sigma (Erl_Tuple ps) (Erl_Tuple ps').

Lemma filled_den h live ef sigma bound : MI h live ef sigma bound ->
  (forall a name, live0 !! a = Some (U_var name None) -> a ∈ vars) ->
  forall P a, pat_ok k true P -> den live0 a P -> MatchTerm.pat_at bound live a P ->
  exists P', den live a P' /\ filled sigma P P'.
Proof.
  intros Hm Hall. induction P as [| | | | | | | | | ph pt IHh IHt | | | Ps IH | name v |] using ETERM_rec_all;
    intros a HP Hd Ha; inversion HP as [? Hl | ? ? HP1 HP2 | ? HPs | ? _ Hcn]; subst;
    try (by inversion Hl);
    inversion Ha as [? ? v Hx Hv | ? ? Hx ? | ? pa pb ? ? Hx Hpa Hpb | ? es ? Hx Hes]; subst; try done;
    try (by eexists; split; [by apply den_leaf | by apply filled_leaf]).
  - apply den_inv in Hd as (x & y & Hd0 & D1 & D2).
    destruct (mi_old _ _ _ _ _ Hm _ _ Hd0) as [Hy | (_ & ? & ? & ? & [=] & _)]. rewrite Hx in Hy. injection Hy as <- <-.
    destruct (IHh pa HP1 D1 Hpa) as (h' & Dh & Fh), (IHt pb HP2 D2 Hpb) as (t' & Dt & Ft).
    exists (Erl_List h' t'). split; [by eapply den_list | by apply filled_list].
  - apply den_inv in Hd as (xs & Hd0 & Ds).
    destruct (mi_old _ _ _ _ _ Hm _ _ Hd0) as [Hy | (_ & ? & ? & ? & [=] & _)]. rewrite Hx in Hy.
    injection Hy as He. apply (inj (fmap Some)) in He as ->.
    assert (Hps : exists Ps', Forall2 (den live) xs Ps' /\ Forall2 (filled sigma) Ps Ps').
    { clear -IH HPs Ds Hes. revert xs Ds Hes. induction HPs as [| P Ps HP _ IHP]; intros xs Ds Hes;
        inversion Ds as [| x ? xs' ? Dx Dxs]; subst; inversion Hes as [| ? ? ? ? Hx Hxs]; subst; inversion_clear IH.
      - exists []. split; constructor.
      - match goal with H : forall a, _ |- _ => destruct (H x HP Dx Hx) as (P' & D & F) end.
        destruct (IHP ltac:(done) xs' Dxs Hxs) as (Ps' & Ds' & Fs). exists (P' :: Ps'). split; by constructor. }
    destruct Hps as (Ps' & Ds' & Fs). exists (Erl_Tuple Ps'). split; [by eapply den_tuple | by apply filled_tuple].
  - apply den_unbound in Hd. pose proof (Hall _ _ Hd) as Hin.
    destruct (decide (a ∈ bound)) as [Hb | Hb].
    + destruct (mi_bound _ _ _ _ _ Hm a Hb) as (nm & x & u & Hax & Hs & (U & HU & HoU & <-)).
      rewrite Hx in Hax. injection Hax as <- ->. exists (Erl_Variable name (Some U)).
      split; [by eapply den_bound; [| by eapply pat_den] |].
      apply filled_var; [| done | done]. by destruct (mi_names _ _ _ _ _ Hm _ _ Hs).
    + destruct Hv as [? | ->]; [done |]. destruct (mi_unbound _ _ _ _ _ Hm a Hin Hb) as [nm Hy].
      rewrite Hx in Hy. injection Hy as <- ->. exists (Erl_Variable any_name None).
      split; [by apply den_var | apply filled_any].
Qed.

(** ** erl_match *)

Lemma MI_start h idle : Good w h live0 loose (fun _ => False) -> MI h live0 (Ef [] idle) ∅ ∅.
Proof.
  intros Hg. split.
  - rewrite size_empty. by replace (w + Z.of_nat 0 * M) with w by lia.
  - apply rebinds_refl.
  - set_solver.
  - set_solver.
  - intros a Ha _. by apply vars_unbound.
  - intros a Ha. by apply elem_of_nil in Ha.
  - intros n u Hu. by rewrite lookup_empty in Hu.
  - set_solver.
Qed.

Definition most : Z := w + Z.of_nat (size vars) * M.

Lemma MI_most h live ef sigma bound : MI h live ef sigma bound -> Good most h live loose (fun _ => False).
Proof.
  intros Hm. eapply Good_le; [| apply (mi_good _ _ _ _ _ Hm)]. unfold most.
  pose proof (subseteq_size _ _ (mi_vars _ _ _ _ _ Hm)). nia.
Qed.

Lemma erl_match_ok fuel P T p t h idle :
  Good w h live0 loose (fun _ => False) -> pat_ok k true P -> pat_ok k false T ->
  (forall a name, live0 !! a = Some (U_var name None) -> a ∈ vars) ->
  pat_at live0 p P -> den live0 p P -> den live0 t T -> cells T <= M ->
  (height T + Z.to_nat M + 3 <= fuel)%nat -> most + 1 < Z.of_nat fuel -> (lin -> NoDup (var_names P)) ->
  wp (erl_match malloc fuel (Some p) (Some t) (Ef [] idle))
    (fun '(r, ef) h' => chain ef = [] /\ exists live', Good most h' live' loose (fun _ => False) /\ rebinds live0 live' /\
      if (r : bool) then exists sigma P', inst sigma P T /\ (forall tau, inst tau P T -> sigma ⊆ tau) /\
        den live' p P' /\ filled sigma P P'
      else (forall tau, ~ inst tau P T) /\ (lin -> live' = live0)) h.
Proof.
  intros Hg HP HT Hall Hp Hd Ht Hc Hf Hw HL. pose proof (MI_start h idle Hg) as Hm.
  assert (H0 : reached live0 loose) by (eapply Inv_reached; [apply (g_inv _ _ _ _ _ Hg) | apply (g_used _ _ _ _ _ Hg)]).
  unfold erl_match. apply wpH_bind.
  eapply wpH_mono; [| eapply (ematch_ok fuel P T); [exact Hm | done | done | exact Hp | by eapply den_pat | done | by right |]].
  2:{ intros Hl. split; [by apply HL | done]. }
  intros [r ef] h1 (sigma & bound & live & Hm1 & Hr & Hb & Hx). apply wpH_bind. destruct r; cbn [negb].
  - destruct Hx as (_ & H2 & H3 & _ & H5). apply wpH_ret, wpH_ret. split; [done |]. exists live.
    split; [by eapply MI_most |]. split; [done |].
    destruct (filled_den _ _ _ _ _ Hm1 Hall P p HP Hd H5) as (P' & D & F). exists sigma, P'. split; [done |].
    split; [| done]. intros tau. apply H3, map_empty_subseteq.
  - destruct (undo_ok fuel most (chain ef) h1 live (fun b => b ∈ bound /\ ~ lin) H0 Hw) as (h' & live' & Hrun & Hg' & Hr' & HX).
    + by eapply MI_most.
    + apply (mi_old _ _ _ _ _ Hm1).
    + intros a Ha. apply (mi_vars _ _ _ _ _ Hm1). by apply (mi_chain _ _ _ _ _ Hm1).
    + intros b name v Hbv Hl. destruct (decide (b ∈ chain ef)) as [Hi | Hi]; [by left | right].
      destruct (decide (b ∈ bound)) as [Hbb | Hbb].
      * split; [done |]. intros HLi. by apply Hi, (mi_lin _ _ _ _ _ Hm1).
      * destruct (mi_unbound _ _ _ _ _ Hm1 b Hbv Hbb) as [nm Hy]. congruence.
    + unfold wpH at 1. rewrite Hrun. apply wpH_ret. split; [done |]. exists live'. split; [done |]. split; [done |].
      split; [intros tau; apply Hx, map_empty_subseteq |]. intros HLi.
      apply (reached_same live0 live' loose H0); [eapply Inv_reached; [apply (g_inv _ _ _ _ _ Hg') | apply (g_used _ _ _ _ _ Hg')] |].
      intros b u u' Hu Hu'. destruct (Hr' b u Hu) as [Hy | (Hbv & name & v & v' & -> & Hy)]; [congruence |].
      destruct (vars_unbound b Hbv) as [nm Hb0]. rewrite Hu in Hb0. injection Hb0 as -> ->.
      rewrite Hy in Hu'. injection Hu' as <-. destruct v' as [v' |]; [| done].
      by destruct (HX b nm v' Hbv Hy) as [_ Hn].
Qed.
End Ematch.
