(* ===== verification/MatchCorrect.v ===== *)
(** * erl_match: what programs can rely on

    A match succeeds exactly when the term is an instance of the pattern, its
    variables then have the values that make it one, and a match that fails leaves
    nothing behind. Then what goes wrong. *)

From stdpp Require Import gmap gmultiset.
From S2P Require Import Prelude Mem PutGet Ext Atom Data Eterm MarshalOk MarshalRead EtermOk Refc RefcOk RefcTerm RefcCorrect Match MatchTerm MatchHeap MatchOk.

(** ** erl_var_content *)

(** The value of the first bound variable called [name]. *)
Fixpoint content_of (name : list Z) (t : ETERM) : option ETERM :=
  match t with
  | Erl_Variable nm (Some u) => if bool_decide (c_str nm = c_str name) then Some u else None
  | Erl_List h t =>
      match content_of name h with Some u => Some u | None => content_of name t end
  | Erl_Tuple es =>
      foldr (fun e o => match content_of name e with Some u => Some u | None => o end) None es
  | _ => None
  end.

(** Every list ends with the empty list. *)
Fixpoint proper (t : ETERM) : bool :=
  match t with
  | Erl_List h t =>
      proper h && (match t with Erl_List _ _ | Erl_EmptyList => true | _ => false end) && proper t
  | Erl_Tuple es => forallb proper es
  | _ => true
  end.

Section Content.
Context (malloc : eterm_stateinfo -> option addr) (name : list Z).
Notation wp := (wpH malloc).

Definition content_post (h : eterm_stateinfo) (live : gmap addr uval) (loose : gmultiset addr)
    (o : option ETERM) (r : option addr) (h' : eterm_stateinfo) : Prop :=
  match o with
  | Some u => exists v, r = Some v /\ den live v u /\ Inv h' live ({[+ v +]} ⊎ loose) ∅
  | None => r = None /\ h' = h
  end.

Definition finds (f : option addr -> HM (option addr)) (t : ETERM) : Prop := forall a h live loose,
  Inv h live loose ∅ -> den live a t -> Z.of_nat (size (total live loose)) < ERL_MAX_COUNT ->
  wp (f (Some a)) (content_post h live loose (content_of name t)) h.

Lemma finds_then f t h live loose a (K : HM (option addr)) o :
  finds f t -> Inv h live loose ∅ -> den live a t -> Z.of_nat (size (total live loose)) < ERL_MAX_COUNT ->
  wp K (content_post h live loose o) h ->
  wp (let^ vp := f (Some a) in match vp with Some _ => retH vp | None => K end)
    (content_post h live loose (match content_of name t with Some u => Some u | None => o end)) h.
Proof.
  intros Hf Hi Hd Hs HK. apply wpH_bind. eapply wpH_mono; [| by eapply Hf].
  intros r h' Hx. unfold content_post in Hx. destruct (content_of name t) as [u |].
  - destruct Hx as (v & -> & Hv & Hi'). apply wpH_ret. by exists v.
  - by destruct Hx as [-> ->].
Qed.

Lemma elems_find f ts : Forall (finds f) ts -> forall es h live loose,
  Inv h live loose ∅ -> Forall2 (den live) es ts -> Z.of_nat (size (total live loose)) < ERL_MAX_COUNT ->
  wp (content_of_elems f (Some <$> es)) (content_post h live loose
    (foldr (fun e o => match content_of name e with Some u => Some u | None => o end) None ts)) h.
Proof.
  induction 1 as [| t ts Ht _ IH]; intros es h live loose Hi He Hs; inversion He; subst; [by apply wpH_ret |].
  cbn [fmap list_fmap content_of_elems foldr]. eapply finds_then; try done. by apply IH.
Qed.

(** The loop over a list: its last tail is the empty list. *)
Fixpoint elems_found (f : option addr -> HM (option addr)) (t : ETERM) : Prop :=
  match t with Erl_List hd tl => finds f hd /\ elems_found f tl | Erl_EmptyList => True | _ => False end.

Lemma cells_find f fuel : forall t a h live loose,
  elems_found f t -> (height t < fuel)%nat -> Inv h live loose ∅ -> den live a t ->
  Z.of_nat (size (total live loose)) < ERL_MAX_COUNT ->
  wp (content_of_cells f fuel (Some a)) (content_post h live loose (content_of name t)) h.
Proof.
  induction fuel as [| fuel IH]; intros t a h live loose Hf Hh Hi Hd Hs; [lia |]. cbn [content_of_cells].
  destruct t as [| | | | | | | | | hd tl | | | | |]; try done.
  - destruct Hf as [Hf1 Hf2]. apply den_inv in Hd as (x & y & Ha & Dx & Dy). apply wpH_bind.
    eapply (get_ok malloc); [exact Hi | exact Ha |]. intros nx. cbn [val content_of height] in *.
    eapply finds_then; try done. apply IH; (done || lia).
  - apply den_leaf_inv in Hd; [| done]. apply wpH_bind. eapply (get_ok malloc); [exact Hi | exact Hd |]. intros nx.
    by apply wpH_ret.
Qed.

Lemma erl_var_content_ok fuel : forall t, (height t + 2 <= fuel)%nat -> proper t = true ->
  finds (fun o => erl_var_content fuel o name) t.
Proof.
  induction fuel as [| fuel IH]; intros t Hf Hp a h live loose Hi Hd Hs; [lia |]. cbn [erl_var_content].
  assert (Hleaf : forall u, live !! a = Some u -> match u with U_leaf _ => True | _ => False end ->
    content_of name t = None -> wp (let^ b := get_block a in match val b with
      | U_var nm v => match v with Some vp => if bool_decide (c_str nm = c_str name) then
            let^ _ := incr vp in retH (Some vp) else retH None | None => retH None end
      | U_list _ _ => content_of_cells (fun o => erl_var_content fuel o name) fuel (Some a)
      | U_tuple elems => content_of_elems (fun o => erl_var_content fuel o name) elems
      | _ => retH None end) (content_post h live loose (content_of name t)) h).
  { intros u Ha Hu Hn. apply wpH_bind. eapply (get_ok malloc); [exact Hi | exact Ha |]. intros nx. cbn [val].
    destruct u; try done. rewrite Hn. by apply wpH_ret. }
  destruct t as [| | | | | | | | | hd tl | | es | | nm v |];
    try (eapply Hleaf; [by apply den_leaf_inv; [exact Hd |] | done | done]).
  - pose proof Hd as Hd'. apply den_inv in Hd as (x & y & Ha & _). apply wpH_bind.
    eapply (get_ok malloc); [exact Hi | exact Ha |]. intros nx. cbn [val].
    apply cells_find; try done; [| lia].
    assert (He : forall t, (height t < fuel)%nat -> proper t = true ->
      match t with Erl_List _ _ | Erl_EmptyList => true | _ => false end = true ->
      elems_found (fun o => erl_var_content fuel o name) t).
    { clear -IH. induction t as [| | | | | | | | | hd tl _ IHt | | | | |] using ETERM_rec_all; try done.
      cbn [height proper elems_found]. intros Hh Hp _. rewrite !andb_true_iff in Hp. destruct Hp as [[Hp1 Hp2] Hp3].
      split; [apply IH; (done || lia) | apply IHt; (done || lia)]. }
    apply He; (done || lia).
  - apply den_inv in Hd as (xs & Ha & Ds). apply wpH_bind.
    eapply (get_ok malloc); [exact Hi | exact Ha |]. intros nx. cbn [val content_of].
    eapply elems_find; try done. apply Forall_forall. intros e He. apply IH.
    + apply list_elem_of_In, height_elem in He. lia.
    + cbn [proper] in Hp. rewrite forallb_forall in Hp. by apply Hp.
  - destruct Hd as [[| fu] Hd]; [done |]. cbn [term_at] in Hd. destruct (live !! a) as [u |] eqn:Ha; [| done].
    apply wpH_bind. eapply (get_ok malloc); [exact Hi | exact Ha |]. intros nx. cbn [val].
    destruct u as [| l | nm' [v' |] | [x |] [y |] | es |]; try done; [by destruct (is_leaf l) eqn:E; [destruct l |] | | | |].
    + destruct (term_at fu live v') as [t' |] eqn:E; [| done]. injection Hd as <- <-. cbn [content_of].
      case_bool_decide; [| by apply wpH_ret]. assert (Hv : den live v' t') by by exists fu.
      destruct (den_some _ _ _ Hv) as [u Hu]. apply wpH_bind. eapply (inc_ok malloc); [exact Hi | exact Hu | done |].
      intros h' Hi' _. apply wpH_ret. by exists v'.
    + injection Hd as <- <-. by apply wpH_ret.
    + by destruct (term_at fu live x), (term_at fu live y).
    + by destruct (mapM _ es).
  - destruct Hd as [[| fu] Hd]; [done |]. cbn [term_at] in Hd. exfalso. destruct (live !! a) as [u |] eqn:Ha; [| done].
    destruct u as [| l | nm' [v' |] | [x |] [y |] | es |]; try done; [by destruct l | by destruct (term_at fu live v')
      | by destruct (term_at fu live x), (term_at fu live y) | by destruct (mapM _ es)].
Qed.
End Content.

(** ** The values after a match *)

Section Values.
Context (k : Z) (sigma : binding).
Notation filled := (filled k sigma).

Lemma filled_height P P' : filled P P' -> height P' = height P.
Proof.
  revert P'. induction P as [| | | | | | | | | h t IHh IHt | | | es IH | |] using ETERM_rec_all; intros P' HF;
    inversion HF as [? Hl | | | ? ? h' t' Fh Ft | ? es' Fs]; subst; try done; cbn [height].
  - by rewrite (IHh _ Fh), (IHt _ Ft).
  - f_equal. clear -IH Fs. induction Fs as [| e e' es es' He _ IHF]; [done |]. inversion_clear IH. cbn [foldr].
    rewrite IHF by done. f_equal. auto.
Qed.

Lemma filled_proper P P' : filled P P' -> proper P' = proper P.
Proof.
  revert P'. induction P as [| | | | | | | | | h t IHh IHt | | | es IH | |] using ETERM_rec_all; intros P' HF;
    inversion HF as [? Hl | | | ? ? h' t' Fh Ft | ? es' Fs]; subst; try done; cbn [proper].
  - rewrite (IHh _ Fh), (IHt _ Ft). do 2 f_equal. by inversion Ft; subst.
  - clear -IH Fs. induction Fs as [| e e' es es' He _ IHF]; [done |]. inversion_clear IH. cbn [forallb].
    rewrite IHF by done. f_equal. auto.
Qed.

Lemma filled_content name P P' : chars name -> pat_ok k true P -> filled P P' -> name ∈ var_names P ->
  exists u, content_of name P' = Some u.
Proof.
  intros Hc. revert P'. induction P as [| | | | | | | | | h t IHh IHt | | | es IH | nm v |] using ETERM_rec_all; intros P' HP HF Hin;
    try (by apply elem_of_nil in Hin).
  - inversion HP as [? Hl | ? ? HP1 HP2 | |]; subst; [inversion Hl |].
    inversion HF as [| | | ? ? h' t' Fh Ft |]; subst; [done |]. cbn [content_of var_names] in *.
    apply elem_of_app in Hin as [Hin | Hin].
    + destruct (IHh _ HP1 Fh Hin) as [u ->]. by exists u.
    + destruct (IHt _ HP2 Ft Hin) as [u ->]. destruct (content_of name h'); by eexists.
  - inversion HP as [? Hl | | ? HPs |]; subst; [inversion Hl |].
    inversion HF as [| | | | ? es' Fs]; subst; [done |]. cbn [content_of var_names] in *. clear HP HF.
    induction Fs as [| e e' es es' He _ IHF]; [by apply elem_of_nil in Hin |]. inversion_clear IH. inversion_clear HPs.
    cbn [fmap list_fmap concat foldr] in *. apply elem_of_app in Hin as [Hin | Hin].
    + match goal with H : forall P', _ |- _ => destruct (H e') as [u ->]; [done.. |] end. by exists u.
    + destruct (content_of name e'); [by eexists |]. by apply IHF.
  - inversion HP as [? Hl | | | ? _ Hcn]; subst; [inversion Hl |]. cbn [var_names] in Hin.
    inversion HF as [| | ? u Hne Hs Ho | |]; subst; [done | by apply elem_of_nil in Hin |].
    rewrite bool_decide_eq_false_2 in Hin by done. apply list_elem_of_singleton in Hin as ->.
    cbn [content_of]. rewrite bool_decide_eq_true_2 by done. by eexists.
Qed.

Lemma filled_value name P P' u : chars name -> pat_ok k true P -> filled P P' ->
  content_of name P' = Some u -> sigma !! name = Some (norm u).
Proof.
  intros Hc. revert P' u. induction P as [| | | | | | | | | h t IHh IHt | | | es IH | nm v |] using ETERM_rec_all;
    intros P' x HP HF Hx; inversion HP as [? Hl | ? ? HP1 HP2 | ? HPs | ? _ Hcn]; subst; try (by inversion Hl);
    inversion HF as [? Hl' | | ? u Hne Hs Ho | ? ? h' t' Fh Ft | ? es' Fs]; subst; try done; cbn [content_of] in Hx.
  - destruct (content_of name h') eqn:E; [by eapply IHh; [| | rewrite E] | by eapply IHt].
  - clear HP HF. induction Fs as [| e e' es es' He _ IHF]; [done |]. inversion_clear IH. inversion_clear HPs.
    cbn [foldr] in Hx. destruct (content_of name e') eqn:E; [| by apply IHF].
    match goal with H : forall P' u, _ |- _ => by eapply H; [| | rewrite E] end.
  - case_bool_decide as Hn; [| done]. injection Hx as ->. rewrite !c_str_of_chars in Hn by done. by subst nm.
Qed.
End Values.

(** ** Programs that match *)

Lemma den_pattern vars k live : (forall a name, live !! a = Some (U_var name None) -> a ∈ vars) ->
  forall p a, pat_ok k true p -> den live a p -> pat_at vars live a p.
Proof.
  intros Hv. induction p as [| | | | | | | | | h t IHh IHt | | | es IH | |] using ETERM_rec_all; intros a Hp Hd;
    inversion Hp as [? Hl | ? ? Hp1 Hp2 | ? Hf | ? _ Hc]; subst; try (by inversion Hl);
    try (by apply at_leaf; [by apply den_leaf_inv |]).
  - apply den_inv in Hd as (x & y & Ha & Dx & Dy). eapply at_list; eauto.
  - apply den_inv in Hd as (xs & Ha & Ds). eapply at_tuple; [done |]. clear -IH Hf Ds.
    induction Ds; inversion_clear IH; inversion_clear Hf; constructor; auto.
  - apply den_unbound in Hd. eapply at_var; [done |]. left. by eapply Hv.
Qed.

Lemma var_names_chars k p name : pat_ok k true p -> name ∈ var_names p -> chars name.
Proof.
  induction p as [| | | | | | | | | h t IHh IHt | | | es IH | nm v |] using ETERM_rec_all; intros Hp Hn;
    try (by apply elem_of_nil in Hn); inversion Hp as [? Hl | ? ? Hp1 Hp2 | ? Hf | ? _ Hc]; subst; try (by inversion Hl);
    cbn [var_names] in Hn.
  - apply elem_of_app in Hn as [Hn | Hn]; auto.
  - clear Hp. induction Hf as [| e es He _ IHf]; [by apply elem_of_nil in Hn |]. inversion_clear IH.
    cbn [fmap list_fmap concat] in Hn. apply elem_of_app in Hn as [Hn | Hn]; auto.
  - case_bool_decide; [by apply elem_of_nil in Hn |]. by apply list_elem_of_singleton in Hn as ->.
Qed.

(** What has been proved of a match in a program: [r] is its result, [live'] the
    cells that are then in use. *)
Definition match_done (k : Z) (loose : gmultiset addr) (lin : Prop) (live : gmap addr uval) (most : Z)
    (P T : ETERM) (p : addr) (r : bool) (h' : eterm_stateinfo) : Prop :=
  exists live', Good most h' live' loose (fun _ => False) /\
    if r then exists sigma P', inst sigma P T /\ den live' p P' /\ filled k sigma P P'
    else (forall tau, ~ inst tau P T) /\ (lin -> live' = live).

Section Programs.
Context (malloc : eterm_stateinfo -> option addr) (fuel : nat) (cs : list call) (k : Z) (i j : nat) (P T : ETERM).
Context (malloc_fresh : forall h a, malloc h = Some a -> blocks h !! a = None).
Context (malloc_total : forall h, is_Some (malloc h)).

(** In any heap that keeps the invariant. *)
Lemma match_state w h live loose p t (lin : Prop) idle :
  Good w h live loose (fun _ => False) -> den live p P -> den live t T ->
  pat_ok k true P -> pat_ok k false T -> w * (1 + cells T) < ERL_MAX_COUNT ->
  w * (1 + cells T) + 2 * cells T + 3 < Z.of_nat fuel -> (lin -> NoDup (var_names P)) ->
  exists r idle' h', erl_match malloc fuel (Some p) (Some t) (Ef [] idle) h = Go (r, Ef [] idle') h' /\
    match_done k loose lin live (w * (1 + cells T)) P T p r h'.
Proof.
  intros Hg Hi Hj pattern_ok term_ok room enough HL. pose proof (cells_height T) as [Hht Hc1].
  assert (Hw : 0 <= w) by (pose proof (g_size _ _ _ _ _ Hg); lia).
  set (vars := dom (filter (fun au : addr * uval => match au.2 with U_var _ None => true | _ => false end = true) live)).
  assert (Hvars : forall a, a ∈ vars <-> exists name, live !! a = Some (U_var name None)).
  { intros a. unfold vars. rewrite elem_of_dom. split.
    - intros [u Hu]. apply map_lookup_filter_Some in Hu as [Hu Hx]. cbn in Hx. destruct u as [| | name [|] | | |]; try done. by exists name.
    - intros [name Ha]. exists (U_var name None). by apply map_lookup_filter_Some. }
  assert (Hsv : Z.of_nat (size vars) <= w).
  { pose proof (g_size _ _ _ _ _ Hg). unfold vars. rewrite size_dom.
    pose proof (map_subseteq_size _ _ (map_filter_subseteq (fun au : addr * uval => match au.2 with U_var _ None => true | _ => false end = true) live)). lia. }
  assert (Hall : forall a name, live !! a = Some (U_var name None) -> a ∈ vars) by (intros a name Ha; apply Hvars; eauto).
  pose proof (erl_match_ok malloc malloc_fresh k vars live loose w (cells T) (fun a => proj1 (Hvars a))
    ltac:(nia) ltac:(lia) lin fuel P T p t h idle Hg pattern_ok term_ok Hall (den_pattern _ k _ Hall _ _ pattern_ok Hi) Hi Hj
    ltac:(lia) ltac:(nia) ltac:(unfold most; nia) HL) as Hrun.
  unfold wpH in Hrun. destruct (erl_match _ _ _ _ _ _) as [[r [ch idle']] h' | |]; [| | done].
  2:{ destruct Hrun as [h0 Hn]. destruct (malloc_total h0). congruence. }
  destruct Hrun as (Hch & live' & Hg' & _ & Hx). cbn [chain] in Hch. subst ch.
  exists r, idle', h'. split; [done |].
  exists live'. split; [eapply Good_le; [| exact Hg']; unfold most; nia |].
  destruct r; [| done]. destruct Hx as (sigma & P' & H1 & _ & H3 & H4). by exists sigma, P'.
Qed.

Context (calls_ok : forallb call_ok cs = true).
Context (pattern : var (spec_calls cs []) i = Some P) (term : var (spec_calls cs []) j = Some T).
Context (pattern_ok : pat_ok k true P) (term_ok : pat_ok k false T).
Context (room : weights cs * (1 + cells T) < ERL_MAX_COUNT).
Context (enough : weights cs * (1 + cells T) + 2 * cells T + 3 < Z.of_nat fuel).

Lemma match_program (lin : Prop) idle : (lin -> NoDup (var_names P)) ->
  exists env h r idle' h' live p, do_calls malloc fuel cs [] erl_init_eterm_alloc = Go env h /\
    var env i = Some p /\ live_of h = live /\ Forall2 (rel1 live) env (spec_calls cs []) /\
    erl_match malloc fuel (var env i) (var env j) (Ef [] idle) h = Go (r, Ef [] idle') h' /\
    match_done k (held env) lin live (weights cs * (1 + cells T)) P T p r h'.
Proof.
  intros HL. pose proof (cells_height T) as [Hht Hc1]. pose proof (weights_nonneg cs).
  destruct (calls_from_start malloc fuel cs malloc_fresh malloc_total calls_ok ltac:(nia) ltac:(nia))
    as (env & h & live & He & [Hg Hr]).
  pose proof (var_rel _ _ _ i Hr) as Hi. pose proof (var_rel _ _ _ j Hr) as Hj. rewrite pattern in Hi. rewrite term in Hj.
  destruct (var env i) as [p |] eqn:Ei; [| done]. destruct (var env j) as [t |] eqn:Ej; [| done]. cbn [rel1] in Hi, Hj.
  destruct (match_state _ _ _ _ p t lin idle Hg Hi Hj pattern_ok term_ok room enough HL) as (r & idle' & h' & Hm & Hd).
  exists env, h, r, idle', h', live, p. split; [done |]. split; [done |].
  split; [exact (live_of_inv _ _ _ (g_inv _ _ _ _ _ Hg)) |]. split; [done |]. by rewrite Ei, Ej.
Qed.
End Programs.

(** C6: for the patterns and terms of [pat_ok], [erl_match] decides whether the term
    is an instance of the pattern: in every program that has made the two, with
    memory never exhausted and too few references to overflow a count, it succeeds
    exactly when there are values for the variables of the pattern that make it the
    term. If it fails and no name occurs twice, all variables of the program denote
    the terms they did, and no cell is left. [pat_ok] asks for lists and tuples of
    integers of type int, floats other than NaN, atoms, pids, ports and references
    whose names have a Latin-1 text, references with one number of words throughout,
    binaries and the empty list: no unsigned and no long long integers, no funs, no
    name in UTF-8 only; the variables of the pattern are unbound and the term has
    none. *)
Theorem match_decides malloc fuel cs k i j P T idle :
  (forall h a, malloc h = Some a -> blocks h !! a = None) -> (forall h, is_Some (malloc h)) ->
  forallb call_ok cs = true -> var (spec_calls cs []) i = Some P -> var (spec_calls cs []) j = Some T ->
  pat_ok k true P -> pat_ok k false T -> weights cs * (1 + cells T) < ERL_MAX_COUNT ->
  weights cs * (1 + cells T) + 2 * cells T + 3 < Z.of_nat fuel ->
  exists env h r idle' h', do_calls malloc fuel cs [] erl_init_eterm_alloc = Go env h /\
    erl_match malloc fuel (var env i) (var env j) (Ef [] idle) h = Go (r, Ef [] idle') h' /\
    (r = true <-> exists tau, inst tau P T) /\
    (r = false -> NoDup (var_names P) ->
      Forall2 (rel1 (live_of h')) env (spec_calls cs []) /\ live_of h' = live_of h).
Proof.
  intros Hf Ht Hc Hi Hj HP HT Hr He.
  destruct (match_program malloc fuel cs k i j P T Hf Ht Hc Hi Hj HP HT Hr He (NoDup (var_names P)) idle ltac:(done))
    as (env & h & r & idle' & h' & live & p & Hrun & _ & Hl & Hrel & Hm & live' & Hg & Hx).
  exists env, h, r, idle', h'. split; [done |]. split; [done |].
  pose proof (live_of_inv _ _ _ (g_inv _ _ _ _ _ Hg)) as Hl'. destruct r.
  - split; [| done]. split; [| done]. intros _. destruct Hx as (sigma & P' & Hinst & _). by exists sigma.
  - destruct Hx as [Hn HL]. split; [split; [done |] |].
    + intros [tau Htau]. by destruct (Hn tau).
    + intros _ Hnd. rewrite Hl', (HL Hnd), Hl. done.
Qed.

(** {X, X, "Y"}, with Y for any list, and {7, 7, [b]}. *)
Definition name_X : list Z := [88].
Definition name_Y : list Z := [89].
Definition atom_b : ETERM := Erl_Atom (AtomData None (Some [98])).
Definition match_calls : list call :=
  [Var name_X; Var name_X; Var name_Y; Tuple [0; 1; 2]%nat; Leaf (Erl_Integer 7); Leaf atom_b;
   List [5]%nat; Tuple [4; 4; 6]%nat].
Definition sample_pattern : ETERM :=
  Erl_Tuple [Erl_Variable name_X None; Erl_Variable name_X None; Erl_Variable name_Y None].
Definition sample_match : ETERM :=
  Erl_Tuple [Erl_Integer 7; Erl_Integer 7; Erl_List atom_b Erl_EmptyList].

Lemma sample_pattern_ok : pat_ok 1 true sample_pattern.
Proof. apply pok_tuple. repeat constructor; (done || lia). Qed.
Lemma sample_match_ok : pat_ok 1 false sample_match.
Proof.
  apply pok_tuple. repeat (apply List.Forall_cons || apply List.Forall_nil); try apply pok_list; apply pok_leaf; constructor.
  exists [98]. split; [done |]. split; [| done]. repeat constructor; lia.
Qed.
Lemma sample_inst : exists tau, inst tau sample_pattern sample_match.
Proof.
  exists (<[name_X := Erl_Integer 7]> (<[name_Y := Erl_List atom_b Erl_EmptyList]> ∅)).
  apply inst_tuple. repeat constructor; done.
Qed.

Lemma match_decides_witness :
  exists env h r idle' h', do_calls count_up 200 match_calls [] erl_init_eterm_alloc = Go env h /\
    erl_match count_up 200 (var env 3) (var env 7) (Ef [] 0) h = Go (r, Ef [] idle') h' /\
    (r = true <-> exists tau, inst tau sample_pattern sample_match) /\
    (r = false -> NoDup (var_names sample_pattern) ->
      Forall2 (rel1 (live_of h')) env (spec_calls match_calls []) /\ live_of h' = live_of h).
Proof.
  apply (match_decides count_up 200 match_calls 1 3 7 sample_pattern sample_match 0 count_up_fresh);
    [intros h; by eexists | done | done | done | apply sample_pattern_ok | apply sample_match_ok
    | vm_compute; reflexivity | vm_compute; reflexivity].
Defined.

(** C7: after a match of a pattern and a term of [pat_ok] (lists and tuples of ints,
    floats other than NaN, atoms and ids whose names have a Latin-1 text, references
    with one number of words throughout, binaries; no unsigned or long long
    integers, no funs, no bound variables) that are an instance, with memory never
    exhausted and too few references to overflow a count, and if the lists of the
    pattern end with the empty list, [erl_match] has succeeded, [erl_var_content]
    finds each variable of the pattern, and what it returns is what the term has in
    its place. *)
Theorem match_binds malloc fuel cs k i j P T idle :
  (forall h a, malloc h = Some a -> blocks h !! a = None) -> (forall h, is_Some (malloc h)) ->
  forallb call_ok cs = true -> var (spec_calls cs []) i = Some P -> var (spec_calls cs []) j = Some T ->
  pat_ok k true P -> pat_ok k false T -> weights cs * (1 + cells T) < ERL_MAX_COUNT ->
  weights cs * (1 + cells T) + 2 * cells T + 3 < Z.of_nat fuel -> (height P + 2 <= fuel)%nat ->
  proper P = true -> (exists tau, inst tau P T) ->
  exists env h idle' h', do_calls malloc fuel cs [] erl_init_eterm_alloc = Go env h /\
    erl_match malloc fuel (var env i) (var env j) (Ef [] idle) h = Go (true, Ef [] idle') h' /\
    exists sigma, inst sigma P T /\ forall name, name ∈ var_names P ->
      exists v u h2, erl_var_content fuel (var env i) name h' = Go (Some v) h2 /\
        den (live_of h2) v u /\ sigma !! name = Some (norm u).
Proof.
  intros Hf Ht Hc Hi Hj HP HT Hr He Hh Hp [tau Htau].
  destruct (match_program malloc fuel cs k i j P T Hf Ht Hc Hi Hj HP HT Hr He False idle ltac:(done))
    as (env & h & r & idle' & h' & live & p & Hrun & Ep & Hl & Hrel & Hm & live' & Hg & Hx).
  exists env, h, idle', h'. split; [done |]. destruct r; [| by destruct Hx as [Hn _], (Hn tau)]. split; [done |].
  destruct Hx as (sigma & P' & Hinst & Hd & HF). exists sigma. split; [done |]. intros name Hn.
  pose proof (var_names_chars k P name HP Hn) as Hcn.
  destruct (filled_content k sigma name P P' Hcn HP HF Hn) as [u Hu].
  pose proof (erl_var_content_ok malloc name fuel P' ltac:(by rewrite (filled_height _ _ _ _ HF))
    ltac:(by rewrite (filled_proper _ _ _ _ HF)) p h' live' (held env) (g_inv _ _ _ _ _ Hg) Hd
    ltac:(pose proof (g_refs _ _ _ _ _ Hg); lia)) as Hcont.
  rewrite Hu in Hcont. unfold wpH in Hcont. rewrite Ep.
  destruct (erl_var_content fuel (Some p) name h') as [o h2 | |]; [| | done].
  2:{ destruct Hcont as [h0 Hn0]. destruct (Ht h0). congruence. }
  destruct Hcont as (v & -> & Hv & Hi2). exists v, u, h2. split; [done |].
  split; [by rewrite (live_of_inv _ _ _ Hi2) | by eapply filled_value].
Qed.

Lemma match_binds_witness :
  exists env h idle' h', do_calls count_up 200 match_calls [] erl_init_eterm_alloc = Go env h /\
    erl_match count_up 200 (var env 3) (var env 7) (Ef [] 0) h = Go (true, Ef [] idle') h' /\
    exists sigma, inst sigma sample_pattern sample_match /\ forall name, name ∈ var_names sample_pattern ->
      exists v u h2, erl_var_content 200 (var env 3) name h' = Go (Some v) h2 /\
        den (live_of h2) v u /\ sigma !! name = Some (norm u).
Proof.
  apply (match_binds count_up 200 match_calls 1 3 7 sample_pattern sample_match 0 count_up_fresh);
    [intros h; by eexists | done | done | done | apply sample_pattern_ok | apply sample_match_ok
    | vm_compute; reflexivity | vm_compute; reflexivity | vm_compute; lia | done | apply sample_inst].
Defined.

(** ** What goes wrong *)

Definition after {A} (cs : list call) (m : list (option addr) -> HM A) : res A :=
  (let^ env := do_calls count_up 100 cs [] in m env) erl_init_eterm_alloc.

(** A match of {X, X, b} with {1, 1, c} fails, and leaves the second X with the
    value 1; then {2, 2, b} does not match, although it is an instance. *)
Definition stale_calls : list call :=
  [Var name_X; Var name_X; Leaf atom_b; Tuple [0; 1; 2]%nat; Leaf (Erl_Integer 1);
   Leaf Erl_EmptyList; Tuple [4; 4; 5]%nat; Leaf (Erl_Integer 2); Tuple [7; 7; 2]%nat].

Lemma stale_variable :
  exists ef1 ef2 h, after stale_calls (fun env =>
    let^ (r1, ef) := erl_match count_up 100 (var env 3) (var env 6) (Ef [] 0) in
    let^ (r2, ef') := erl_match count_up 100 (var env 3) (var env 8) ef in
    retH (r1, ef, r2, ef')) = Go (false, ef1, false, ef2) h /\
  (exists tau, inst tau (Erl_Tuple [Erl_Variable name_X None; Erl_Variable name_X None; atom_b])
    (Erl_Tuple [Erl_Integer 2; Erl_Integer 2; atom_b])).
Proof.
  do 3 eexists. split; [vm_compute; reflexivity |]. exists (<[name_X := Erl_Integer 2]> ∅).
  apply inst_tuple. repeat constructor; done.
Qed.

(** A variable that an earlier match has bound loses its value when it matches
    and a later part does not. *)
Definition rebound_calls : list call :=
  [Var name_X; Leaf atom_b; Tuple [0; 1]%nat; Leaf (Erl_Integer 1); Tuple [3; 1]%nat; Tuple [3; 3]%nat].

Lemma earlier_binding_undone :
  exists ef1 ef2 h, after rebound_calls (fun env =>
    let^ (r1, ef) := erl_match count_up 100 (var env 2) (var env 4) (Ef [] 0) in
    let^ (r2, ef') := erl_match count_up 100 (var env 2) (var env 5) ef in
    let^ x := erl_var_content 100 (var env 2) name_X in
    retH (r1, ef, r2, ef', x)) = Go (true, ef1, false, ef2, None) h.
Proof. do 3 eexists. vm_compute. reflexivity. Qed.

(** A variable that matches an atom without a Latin-1 text has no value: the copy
    of the atom is NULL, and the match succeeds. *)
Lemma utf8_atom_unbound :
  exists ef h, after [Var name_X; Leaf (Erl_Atom (AtomData (Some [206; 177]) None))] (fun env =>
    let^ (r, ef) := erl_match count_up 100 (var env 0) (var env 1) (Ef [] 0) in
    let^ x := erl_var_content 100 (var env 0) name_X in retH (r, ef, x)) = Go (true, ef, None) h.
Proof. do 2 eexists. vm_compute. reflexivity. Qed.

(** Integers of the types for large numbers match nothing, not even themselves;
    references are compared as far as the shorter goes. *)
Lemma unsigned_unmatched u l :
  match_leaf (Erl_Uinteger u) (Erl_Uinteger u) = Some (false, Erl_Uinteger u, Erl_Uinteger u) /\
  match_leaf (Erl_LLInteger l) (Erl_LLInteger l) = Some (false, Erl_LLInteger l, Erl_LLInteger l) /\
  match_leaf (Erl_ULLInteger u) (Erl_ULLInteger u) = Some (false, Erl_ULLInteger u, Erl_ULLInteger u).
Proof. done. Qed.

Lemma short_reference_matches :
  let r n := Erl_Ref (AtomData None (Some [110])) n 0 in
  match_leaf (r [42]) (r [42; 17; 13]) = Some (true, r [42], r [42; 17; 13]).
Proof. vm_compute. reflexivity. Qed.

(** A node name with a character that is not Latin-1 is NULL for [strcmp]. *)
Lemma node_null :
  let p := Erl_Pid (AtomData (Some [206; 177]) None) 1 2 0 in match_leaf p p = None.
Proof. vm_compute. reflexivity. Qed.

(** The atom of the characters 128 and 64 has the UTF-8 text 194 128 64, and
    compares equal with the text of B@. *)
Lemma latin1_equals_ascii :
  cmp_latin1_vs_utf8 [128; 64] [66; 64] = 0 /\ utf8_of_latin1 [128; 64] = [194; 128; 64] /\
  match_atoms (AtomData None (Some [128; 64])) (AtomData (Some [66; 64]) None) = true.
Proof. by vm_compute. Qed.

(** The content of a list whose tail is a variable: the variable is read as a
    cell of the list. A term with a variable in it cannot be copied either. *)
Lemma tail_variable_read :
  after [Var name_Y; Var name_X; Leaf Erl_EmptyList; Cons 2 1] (fun env =>
    erl_var_content 100 (var env 3) name_X) = Wrong.
Proof. vm_compute. reflexivity. Qed.

Lemma copy_variable :
  after [Var name_X; Var name_Y; Tuple [1]%nat] (fun env =>
    erl_match count_up 100 (var env 0) (var env 2) (Ef [] 0)) = Wrong.
Proof. vm_compute. reflexivity. Qed.
