(* ===== verification/Proc.v ===== *)
(** * Processes: what connect/ and epmd/ do with sockets, the heap and the clock

    A function that calls the system is a process: a tree whose nodes are the
    calls, one child for each answer the system may give. [wp] runs a process
    against an environment, which says what the answers can be: no run is
    undefined, and every run ends in a result that satisfies the postcondition.
    [wlp] says it of the runs that are defined. The static and global variables
    of connect/, misc/ei_trace.c and epmd/ are a state that the system keeps for
    the process. *)

From S2P Require Import Prelude Mem Ext.

(** ** The variables *)

(** [ei_cnode]; the arrays of characters hold C strings. *)
Record ei_cnode := CNode
  { thishostname : list Z; thisnodename : list Z; thisalivename : list Z;
    ei_connect_cookie : list Z; creation : Z; self : erlang_pid }.

Record ei_socket_info := SockInfo
  { sock : Z; dist_version : Z; cnode : ei_cnode; cookie : list Z }.

(** [erl_errno]; [ei_sockets] with its first [ei_n_sockets] elements, and
    [ei_sz_sockets]; [save_token], [tracing] and [clock] of ei_trace; [epmd_port]
    of ei_epmd_connect_tmo; [compat_rel] of misc/ei_compat.c. *)
Record globals := Globals
  { erl_errno : Z; ei_sockets : list ei_socket_info; ei_sz_sockets : Z;
    save_token : erlang_trace; tracing : Z; clock : Z; epmd_port : Z; compat_rel : Z }.

(** ** The calls *)

Inductive direction := reading | writing | connecting.

(** [answer] says what each gives back.
    - [r_get], [r_set]: the variables.
    - [r_errno]: what errno holds.
    - [r_array n]: what a local array of [n] bytes happens to hold.
    - [r_info]: the bytes of the struct that gen_challenge fills.
    - [r_read]: the bytes read, or [None] for -1. *)
Inductive request :=
  | r_get
  | r_set (g : globals)
  | r_errno
  | r_array (n : Z)
  | r_malloc (n : Z)
  | r_realloc (block : list Z) (n : Z)
  | r_info
  | r_getenv (name : list Z)
  | r_socket
  | r_connect (fd : Z) (ip : list Z) (port : Z)
  | r_accept (fd : Z)
  | r_close (fd : Z)
  | r_getpeername (fd : Z)
  | r_setsockopt (fd level name : Z)
  | r_nonblocking (fd : Z) (on : bool)
  | r_select (fd : Z) (d : direction) (ms : Z)
  | r_read (fd n : Z)
  | r_write (fd : Z) (bs : list Z)
  | r_writev (fd : Z) (iov : list (list Z)).

Definition answer (r : request) : Type :=
  match r with
  | r_get => globals
  | r_set _ | r_close _ | r_setsockopt _ _ _ | r_nonblocking _ _ => unit
  | r_array _ | r_info => list Z
  | r_malloc _ | r_realloc _ _ | r_getenv _ | r_read _ _ => option (list Z)
  | r_errno | r_socket | r_connect _ _ _ | r_accept _ | r_write _ _ | r_writev _ _ => Z
  | r_getpeername _ => Z * list Z
  | r_select _ _ _ => Z * bool
  end.

Inductive proc (A : Type) :=
  | Ret (a : A)
  | Undef
  | Ask (r : request) (k : answer r -> proc A).
Arguments Ret {A} a.
Arguments Undef {A}.
Arguments Ask {A} r k.

Fixpoint bindP {A B} (p : proc A) (f : A -> proc B) : proc B :=
  match p with
  | Ret a => f a
  | Undef => Undef
  | Ask r k => Ask r (fun x => bindP (k x) f)
  end.

Notation "'let!' x ':=' m 'in' k" := (bindP m (fun x => k))
  (at level 10, x pattern, m at level 200, k at level 200,
   format "'[v' 'let!'  x  ':='  m  'in' '/' k ']'") : c_scope.

Definition ask (r : request) : proc (answer r) := Ask r Ret.

(** The pure functions of the library inside a process. *)
Definition lift_opt {A} (m : option A) : proc A :=
  match m with Some a => Ret a | None => Undef end.
Definition lift_D {A} (m : D A) (blk : list Z) : proc A := lift_opt (m blk).
Definition lift_M {A} (m : M A) (blk : list Z) : proc (A * list Z) := lift_opt (m blk).

Definition set_errno (e : Z) : proc unit :=
  let! g := ask r_get in
  ask (r_set (Globals e (ei_sockets g) (ei_sz_sockets g) (save_token g)
                (tracing g) (clock g) (epmd_port g) (compat_rel g))).

(** ** Environments *)

(** [can r s]: the process may make the call; [does r s x s']: the answer can be
    [x], and the environment is then in [s']. A call that may be made is
    answered. *)
Class env (S : Type) := {
  can : request -> S -> Prop;
  does : forall r, S -> answer r -> S -> Prop;
  can_does r s : can r s -> exists x s', does r s x s'
}.

Section Runs.
Context {S : Type} (E : env S).

Fixpoint wp {A} (p : proc A) (s : S) (Q : A -> S -> Prop) : Prop :=
  match p with
  | Ret a => Q a s
  | Undef => False
  | Ask r k => can r s /\ forall x s', does r s x s' -> wp (k x) s' Q
  end.

Fixpoint wlp {A} (p : proc A) (s : S) (Q : A -> S -> Prop) : Prop :=
  match p with
  | Ret a => Q a s
  | Undef => True
  | Ask r k => forall x s', does r s x s' -> wlp (k x) s' Q
  end.

Lemma wp_mono {A} (p : proc A) s (Q Q' : A -> S -> Prop) :
  wp p s Q -> (forall a s', Q a s' -> Q' a s') -> wp p s Q'.
Proof.
  revert s. induction p as [a | | r k IH]; intros s; cbn [wp]; [auto | auto |].
  intros [? Hk] Hq. split; [done |]. eauto.
Qed.
Lemma wlp_mono {A} (p : proc A) s (Q Q' : A -> S -> Prop) :
  wlp p s Q -> (forall a s', Q a s' -> Q' a s') -> wlp p s Q'.
Proof.
  revert s. induction p as [a | | r k IH]; intros s; cbn [wlp]; [auto | auto |]. eauto.
Qed.

Lemma wp_bind {A B} (p : proc A) (f : A -> proc B) s Q :
  wp p s (fun a s' => wp (f a) s' Q) -> wp (bindP p f) s Q.
Proof.
  revert s. induction p as [a | | r k IH]; intros s; cbn [wp bindP]; [done.. |].
  intros [? Hk]. split; [done |]. auto.
Qed.
Lemma wlp_bind {A B} (p : proc A) (f : A -> proc B) s Q :
  wlp p s (fun a s' => wlp (f a) s' Q) -> wlp (bindP p f) s Q.
Proof.
  revert s. induction p as [a | | r k IH]; intros s; cbn [wlp bindP]; [done.. |]. auto.
Qed.

(** One lemma about the first part, one about the rest. *)
Lemma wp_seq {A B} (p : proc A) (f : A -> proc B) s R Q :
  wp p s R -> (forall a s', R a s' -> wp (f a) s' Q) -> wp (bindP p f) s Q.
Proof. intros. apply wp_bind. by eapply wp_mono. Qed.
Lemma wlp_seq {A B} (p : proc A) (f : A -> proc B) s R Q :
  wlp p s R -> (forall a s', R a s' -> wlp (f a) s' Q) -> wlp (bindP p f) s Q.
Proof. intros. apply wlp_bind. by eapply wlp_mono. Qed.

Lemma wp_lift_opt {A} (m : option A) a s Q : m = Some a -> Q a s -> wp (lift_opt m) s Q.
Proof. by intros ->. Qed.
Lemma wlp_lift_opt {A} (m : option A) s (Q : A -> S -> Prop) :
  (forall a, m = Some a -> Q a s) -> wlp (lift_opt m) s Q.
Proof. intros Hm. destruct m; cbn; auto. Qed.
End Runs.

Lemma wp_assoc {S A B C} (E : env S) (p : proc A) (f : A -> proc B) (g : B -> proc C) s Q :
  wp E (bindP p (fun a => bindP (f a) g)) s Q -> wp E (bindP (bindP p f) g) s Q.
Proof.
  revert s. induction p as [a | | r k IH]; intros s; cbn [wp bindP]; [done.. |].
  intros [? Hk]. split; [done |]. auto.
Qed.
