(* ===== verification/Session.v ===== *)
(** * Sessions: one connection, seen from one end and from both

    A script is what crosses a connection, byte by byte, with its direction. [link]
    is the environment of a process whose connection follows a script, however the
    bytes are cut into reads and writes. Two processes that follow dual scripts,
    connected by two FIFO channels, come to their ends, unless time runs out or a
    call of the system fails before ([net_ends]): this is shown once, for all
    scripts. [anyone] is the environment in which nothing
    is known of the peer; it keeps a log. *)

From S2P Require Import Prelude Mem Ext Proc.

(** ** Scripts *)

Inductive way := inw | outw.
#[export] Instance way_eq_dec : EqDecision way.
Proof. solve_decision. Defined.

Definition script : Type := list (way * Z).
Definition ins (bs : list Z) : script := pair inw <$> bs.
Definition outs (bs : list Z) : script := pair outw <$> bs.

Definition flip_way (w : way) : way := match w with inw => outw | outw => inw end.
Definition dual (G : script) : script := (fun e => (flip_way e.1, e.2)) <$> G.

Lemma dual_app G G' : dual (G ++ G') = dual G ++ dual G'.
Proof. apply fmap_app. Qed.
Lemma dual_ins bs : dual (ins bs) = outs bs.
Proof. induction bs as [| b bs IH]; cbn; [done |]. by f_equal. Qed.
Lemma dual_outs bs : dual (outs bs) = ins bs.
Proof. induction bs as [| b bs IH]; cbn; [done |]. by f_equal. Qed.
Lemma dual_dual G : dual (dual G) = G.
Proof. unfold dual. induction G as [| [[] b] G IH]; cbn; by rewrite ?IH. Qed.

Lemma ins_app a b : ins (a ++ b) = ins a ++ ins b.
Proof. apply fmap_app. Qed.
Lemma outs_app a b : outs (a ++ b) = outs a ++ outs b.
Proof. apply fmap_app. Qed.

(** Inputs at the head of a script are told apart from outputs. *)
Lemma ins_outs a b G G' : ins a ++ G = outs b ++ G' -> a <> [] -> b = [].
Proof. destruct a, b; cbn; [done.. |]. intros [=]. Qed.

Lemma ins_prefix a b G G' : ins a ++ G = ins b ++ G' -> (length a <= length b)%nat ->
  exists c, b = a ++ c /\ G = ins c ++ G'.
Proof.
  revert b. induction a as [| x a IH]; intros b Hg Hl; [by exists b |].
  destruct b as [| y b]; cbn in Hl; [lia |]. cbn in Hg. injection Hg as <- Hg.
  destruct (IH b Hg) as (c & -> & ->); [lia |]. by exists c.
Qed.

(** ** One end of a connection *)

Section Link.
Context {S : Type} (fd : Z) (L : env S).

Definition link_can (r : request) (s : script * S) : Prop :=
  let '(G, s) := s in
  match r with
  | r_read f n => if f =? fd then 1 <= n /\ exists b G', G = ins [b] ++ G' else can r s
  | r_write f bs => if f =? fd then bs <> [] /\ exists G', G = outs bs ++ G' else can r s
  | r_writev f iov => if f =? fd then concat iov <> [] /\ exists G', G = outs (concat iov) ++ G'
                      else can r s
  | r_select f reading ms => if f =? fd then exists b G', G = ins [b] ++ G' else can r s
  | r_select f writing ms => if f =? fd then True else can r s
  | _ => can r s
  end.

(** What happens on the connection, as long as the other end is in time and no call
    fails, or what [L] does. That it may be late or a call may fail is in the steps
    of a net, below, and in [anyone]. *)
Definition sent (bs : list Z) (G : script) (s : S) (n : Z) (s' : script * S) : Prop :=
  1 <= n <= len bs /\ G = outs (take (Z.to_nat n) bs) ++ s'.1 /\ s'.2 = s.

Definition link_does (r : request) (s : script * S) : answer r -> script * S -> Prop :=
  let '(G, s) := s in
  match r return answer r -> script * S -> Prop with
  | r_read f n => fun x s' =>
      if f =? fd then
        exists bs, x = Some bs /\ bs <> [] /\ len bs <= n /\ G = ins bs ++ s'.1 /\ s'.2 = s
      else s'.1 = G /\ does (r_read f n) s x s'.2
  | r_write f bs => fun x s' =>
      if f =? fd then sent bs G s x s' else s'.1 = G /\ does (r_write f bs) s x s'.2
  | r_writev f iov => fun x s' =>
      if f =? fd then sent (concat iov) G s x s' else s'.1 = G /\ does (r_writev f iov) s x s'.2
  | r_select f d ms => fun x s' =>
      if (f =? fd) && (match d with connecting => false | _ => true end)
      then x = (1, true) /\ s' = (G, s) else s'.1 = G /\ does (r_select f d ms) s x s'.2
  | r => fun x s' => s'.1 = G /\ does r s x s'.2
  end.

Lemma sent_all bs G s : bs <> [] -> (exists G', G = outs bs ++ G') ->
  exists x s', sent bs G s x s'.
Proof.
  intros Hb [G' ->]. exists (len bs), (G', s). unfold sent. rewrite Nat2Z.id, firstn_all.
  destruct bs; [done |]. cbn [length]. split; [lia | done].
Qed.

Lemma link_can_does r s : link_can r s -> exists x s', link_does r s x s'.
Proof.
  destruct s as [G s].
  assert (Hl : can r s -> exists x s', (s'.1 = G /\ does r s x s'.2 : Prop)).
  { intros (x & s' & Hd)%can_does. by exists x, (G, s'). }
  destruct r; cbn; try exact Hl.
  - destruct (fd0 =? fd); cbn [andb]; destruct d; try exact Hl; by eexists _, (G, s).
  - destruct (fd0 =? fd); [| exact Hl]. intros (Hn & b & G' & ->).
    exists (Some [b]), (G', s), [b]. split; [done |]. split; [done |]. cbn. split; [lia | done].
  - destruct (fd0 =? fd); [| exact Hl]. intros [? ?]. by apply sent_all.
  - destruct (fd0 =? fd); [| exact Hl]. intros [? ?]. by apply sent_all.
Qed.

Definition link : env (script * S) := Build_env _ link_can link_does link_can_does.

End Link.

(** ** Two ends *)

Section Net.
Context {SA SB A B : Type} (fa fb : Z) (EA : env SA) (EB : env SB).

(** A call of a process whose connection is [fd]: the bytes that came, the bytes on
    the way out, and the state of its machine, before and after. *)
Definition call_step {S} (fd : Z) (E : env S) (r : request) (i o : list Z) (s : S)
    : answer r -> list Z -> list Z -> S -> Prop :=
  match r return answer r -> list Z -> list Z -> S -> Prop with
  | r_read f n => fun x i' o' s' =>
      if f =? fd then exists bs, x = Some bs /\ bs <> [] /\ len bs <= n /\
        i = bs ++ i' /\ o' = o /\ s' = s
      else i' = i /\ o' = o /\ does (r_read f n) s x s'
  | r_write f bs => fun x i' o' s' =>
      if f =? fd then 1 <= x <= len bs /\ i' = i /\ o' = o ++ take (Z.to_nat x) bs /\ s' = s
      else i' = i /\ o' = o /\ does (r_write f bs) s x s'
  | r_writev f iov => fun x i' o' s' =>
      if f =? fd then 1 <= x <= len (concat iov) /\ i' = i /\
        o' = o ++ take (Z.to_nat x) (concat iov) /\ s' = s
      else i' = i /\ o' = o /\ does (r_writev f iov) s x s'
  | r_select f d ms => fun x i' o' s' =>
      if (f =? fd) && (match d with connecting => false | _ => true end)
      then (d = reading -> i <> []) /\ x = (1, true) /\ i' = i /\ o' = o /\ s' = s
      else i' = i /\ o' = o /\ does (r_select f d ms) s x s'
  | r => fun x i' o' s' => i' = i /\ o' = o /\ does r s x s'
  end.

Definition side_step {S C} (fd : Z) (E : env S) (p : proc C) (i o : list Z) (s : S)
    (p' : proc C) (i' o' : list Z) (s' : S) : Prop :=
  match p with
  | Ask r k => exists x, call_step fd E r i o s x i' o' s' /\ p' = k x
  | _ => False
  end.

(** An answer that says that time is up, that memory is exhausted, that the other
    end has gone, or that the call has failed. *)
Definition goes_wrong (r : request) : answer r -> Prop :=
  match r return answer r -> Prop with
  | r_select _ _ _ => fun x => x = (0, false) \/ x.1 = -1
  | r_malloc _ | r_realloc _ _ => fun x => x = None
  | r_read _ _ => fun x => x = None \/ x = Some []
  | r_socket | r_connect _ _ _ | r_accept _ | r_write _ _ | r_writev _ _ => fun x => x = -1
  | r_getpeername _ => fun x => x.1 = -1
  | _ => fun _ => False
  end.

(** The two processes, the bytes on the way to each, the two machines; whether a
    call of one of them has gone wrong. *)
Record net := Net
  { pA : proc A; pB : proc B; toA : list Z; toB : list Z; stA : SA; stB : SB; trouble : bool }.

(** At any time a call may go wrong, on either side. *)
Inductive net_step : net -> net -> Prop :=
  | step_A p p' q i i' o o' s s' t w :
      side_step fa EA p i o s p' i' o' s' ->
      net_step (Net p q i o s t w) (Net p' q i' o' s' t w)
  | step_B p q q' i i' o o' s t t' w :
      side_step fb EB q o i t q' o' i' t' ->
      net_step (Net p q i o s t w) (Net p q' i' o' s t' w)
  | trouble_A r k x q i o s t w :
      goes_wrong r x -> net_step (Net (Ask r k) q i o s t w) (Net (k x) q i o s t true)
  | trouble_B p r k x i o s t w :
      goes_wrong r x -> net_step (Net p (Ask r k) i o s t w) (Net p (k x) i o s t true).

(** Whatever steps are taken, in whatever order, the net comes to a state in
    [Q], and it is never stuck before. *)
Inductive ends (Q : net -> Prop) : net -> Prop :=
  | ends_now c : Q c -> ends Q c
  | ends_later c : (exists c', net_step c c') -> (forall c', net_step c c' -> ends Q c') ->
      ends Q c.

Definition both_done (QA : A -> SA -> Prop) (QB : B -> SB -> Prop) (c : net) : Prop :=
  exists a b, pA c = Ret a /\ pB c = Ret b /\ toA c = [] /\ toB c = [] /\
    QA a (stA c) /\ QB b (stB c).

(** Nothing more is said of a net in which a call has gone wrong. *)
Definition done_or_trouble (QA : A -> SA -> Prop) (QB : B -> SB -> Prop) (c : net) : Prop :=
  both_done QA QB c \/ trouble c = true.

End Net.
Arguments Net {SA SB A B}.

(** [G] is at most behind [G'] by the bytes on the way to it, and conversely. *)
Definition lag (G G' : script) (i i' : list Z) : Prop :=
  exists H, G = ins i ++ H /\ G' = dual H /\ i' = [].
Definition apart (G G' : script) (i i' : list Z) : Prop := lag G G' i i' \/ lag G' G i' i.

Lemma apart_sym G G' i i' : apart G G' i i' -> apart G' G i' i.
Proof. unfold apart. tauto. Qed.

Lemma apart_start G : apart G (dual G) [] [].
Proof. left. by exists G. Qed.

Lemma apart_idle G G' i : apart G G' i [] -> G' = dual G \/ i <> [].
Proof.
  destruct i; [| by right]. intros [(H & -> & -> & _) | (H & -> & -> & _)]; left; [done |].
  by rewrite dual_dual.
Qed.

Lemma apart_nil G i : apart [] G i [] -> G = [].
Proof.
  intros [(K & Hg & -> & _) | (K & -> & Hg & _)]; [by destruct i, K | by destruct K].
Qed.

Lemma apart_done i o : apart [] [] i o -> i = [] /\ o = [].
Proof.
  intros [(K & Hg & _ & ->) | (K & Hg & _ & ->)]; [by destruct i | by destruct o].
Qed.

Lemma apart_out bs G G' i o n : apart (outs bs ++ G) G' i o -> bs <> [] ->
  apart (outs (drop n bs) ++ G) G' i (o ++ take n bs) /\ i = [].
Proof.
  intros Ha Hb.
  assert (Hl : lag G' (outs bs ++ G) o i).
  { destruct Ha as [(H & Hg & -> & ->) | Hl]; [| done].
    destruct i as [| x i]; [| destruct bs; [done | discriminate Hg]].
    cbn in Hg. subst H. exists (dual (outs bs ++ G)). by rewrite dual_dual. }
  destruct Hl as (H & -> & Hg & ->). split; [| done]. right.
  exists (ins (drop n bs) ++ dual G). split; [| split; [| done]].
  - rewrite <- (dual_dual H), <- Hg, dual_app, dual_outs, ins_app, <- !app_assoc. f_equal.
    by rewrite (app_assoc (ins _)), <- ins_app, take_drop.
  - by rewrite dual_app, dual_ins, dual_dual.
Qed.

Lemma apart_in bs G G' i o : apart G G' (bs ++ i) o -> bs <> [] ->
  exists G1, G = ins bs ++ G1 /\ apart G1 G' i o.
Proof.
  intros [(H & -> & -> & ->) | (H & -> & -> & Hi)] Hb; [| by destruct bs].
  exists (ins i ++ H). rewrite ins_app, <- app_assoc. split; [done |]. left. by exists H.
Qed.

(** A step of one end is a step of its session. *)
Lemma call_keeps {S} fd (E : env S) r G G' i o s x i' o' s' :
  link_can fd E r (G, s) -> call_step fd E r i o s x i' o' s' -> apart G G' i o ->
  exists G1, link_does fd E r (G, s) x (G1, s') /\ apart G1 G' i' o'.
Proof.
  intros Hc Hs Ha.
  assert (Hl : i' = i /\ o' = o /\ does r s x s' ->
    exists G1, (G1 = G /\ does r s x s') /\ apart G1 G' i' o').
  { intros (-> & -> & Hd). by exists G. }
  assert (Hw : forall bs n, bs <> [] /\ (exists G', G = outs bs ++ G') ->
    1 <= n <= len bs /\ i' = i /\ o' = o ++ take (Z.to_nat n) bs /\ s' = s ->
    exists G1, sent bs G s n (G1, s') /\ apart G1 G' i' o').
  { intros bs n (Hb & G1 & ->) (Hn & -> & -> & ->). exists (outs (drop (Z.to_nat n) bs) ++ G1).
    destruct (apart_out bs G1 G' i o (Z.to_nat n) Ha Hb) as [Ha' _]. split; [| done].
    unfold sent. cbn. by rewrite app_assoc, <- outs_app, take_drop. }
  destruct r; cbn in Hc, Hs |- *; try exact (Hl Hs).
  - destruct (_ && _); [| exact (Hl Hs)]. destruct Hs as (_ & -> & -> & -> & ->). by exists G.
  - destruct (fd0 =? fd); [| exact (Hl Hs)]. destruct Hs as (bs & -> & Hb & Hn & -> & -> & ->).
    destruct (apart_in bs G G' i' o Ha Hb) as (G1 & -> & Ha'). exists G1. split; [by exists bs |].
    done.
  - destruct (fd0 =? fd); [| exact (Hl Hs)]. by apply Hw.
  - destruct (fd0 =? fd); [| exact (Hl Hs)]. by apply Hw.
Qed.

(** A process is stuck only if it waits for bytes. *)
Lemma call_goes {S} fd (E : env S) r G i o s :
  link_can fd E r (G, s) ->
  (exists x i' o' s', call_step fd E r i o s x i' o' s') \/
  (i = [] /\ exists b G', G = ins [b] ++ G').
Proof.
  intros Hc.
  assert (Hl : can r s -> exists x i' o' s', i' = i /\ o' = o /\ does r s x s').
  { intros (x & s' & Hd)%can_does. by exists x, i, o, s'. }
  assert (Hw : forall bs : list Z, bs <> [] -> exists x i' o' (s' : S),
    1 <= x <= len bs /\ i' = i /\ o' = o ++ take (Z.to_nat x) bs /\ s' = s).
  { intros bs Hb. exists (len bs), i, (o ++ take (Z.to_nat (len bs)) bs), s.
    destruct bs; [done |]. cbn [length]. repeat split; lia. }
  assert (Hi : i = [] \/ i <> []) by (destruct i; auto).
  destruct r; cbn in Hc |- *; try (left; exact (Hl Hc)).
  - destruct (fd0 =? fd); cbn [andb]; destruct d; try (left; exact (Hl Hc)).
    + destruct Hi as [-> | Hi]; [by right |]. left. by eexists _, i, o, s.
    + left. by eexists _, i, o, s.
  - destruct (fd0 =? fd); [| left; exact (Hl Hc)]. destruct Hc as [Hn Hg].
    destruct i as [| b i]; [by right |]. left. exists (Some [b]), i, o, s, [b].
    split; [done |]. split; [done |]. cbn. split; [lia | done].
  - destruct (fd0 =? fd); [| left; exact (Hl Hc)]. left. apply Hw, Hc.
  - destruct (fd0 =? fd); [| left; exact (Hl Hc)]. left. apply Hw, Hc.
Qed.

Section Ends.
Context {SA SB A B : Type} (fa fb : Z) (EA : env SA) (EB : env SB).
Context (QA : A -> SA -> Prop) (QB : B -> SB -> Prop).

(** What a process that has followed its script to the end must establish. *)
Definition at_end {S C} (Q : C -> S -> Prop) : C -> script * S -> Prop :=
  fun a s => s.1 = [] /\ Q a s.2.

Lemma net_goes p q i o s t w GA GB :
  wp (link fa EA) p (GA, s) (at_end QA) -> wp (link fb EB) q (GB, t) (at_end QB) ->
  apart GA GB i o ->
  both_done QA QB (Net p q i o s t w) \/
  (exists c, net_step fa fb EA EB (Net p q i o s t w) c).
Proof.
  intros Hp Hq Ha.
  assert (Hstuck : i = [] -> o = [] -> forall b G, GA = ins [b] ++ G ->
    forall b' G', GB = ins [b'] ++ G' -> False).
  { intros -> -> b G -> b' G' ->. destruct (apart_idle _ _ _ Ha) as [[=] | ?]; done. }
  destruct p as [a | | r k], q as [b | | r' k']; try by destruct Hp || destruct Hq.
  - left. destruct Hp as [Hp ?], Hq as [Hq ?]. cbn in Hp, Hq. exists a, b.
    subst GA GB. by apply apart_done in Ha as [-> ->].
  - right. destruct Hp as [Hp _], Hq as [Hc _]. cbn in Hp.
    destruct (call_goes fb EB r' GB o i t Hc) as [(x & o' & i' & t' & Hs) | (-> & b & G' & Hg)].
    + exists (Net (Ret a) (k' x) i' o' s t' w). constructor. by exists x.
    + subst GA. apply apart_nil in Ha. by subst GB.
  - right. destruct Hq as [Hq _], Hp as [Hc _]. cbn in Hq.
    destruct (call_goes fa EA r GA i o s Hc) as [(x & i' & o' & s' & Hs) | (-> & b' & G' & Hg)].
    + exists (Net (k x) (Ret b) i' o' s' t w). constructor. by exists x.
    + subst GB. apply apart_sym, apart_nil in Ha. by subst GA.
  - right. destruct Hp as [Hc _], Hq as [Hc' _].
    destruct (call_goes fa EA r GA i o s Hc) as [(x & i' & o' & s' & Hs) | (Hi & b & G & Hg)].
    { exists (Net (k x) (Ask r' k') i' o' s' t w). constructor. by exists x. }
    destruct (call_goes fb EB r' GB o i t Hc') as [(x & o' & i' & t' & Hs) | (Ho & b' & G' & Hg')].
    { exists (Net (Ask r k) (k' x) i' o' s t' w). constructor. by exists x. }
    exfalso. by eapply Hstuck.
Qed.

Lemma net_ends_apart p q i o s t w GA GB :
  wp (link fa EA) p (GA, s) (at_end QA) -> wp (link fb EB) q (GB, t) (at_end QB) ->
  apart GA GB i o ->
  ends fa fb EA EB (done_or_trouble QA QB) (Net p q i o s t w).
Proof.
  revert q i o s t w GA GB. induction p as [a | | r k IHp]; intros q; [| done |];
    induction q as [b | | r' k' IHq]; intros i o s t w GA GB Hp Hq Ha; try done;
    (destruct (net_goes _ _ _ _ _ _ w _ _ Hp Hq Ha) as [? | Hg]; [apply ends_now; by left |]);
    apply ends_later; try done; intros c Hc;
    inversion Hc as [? ? ? ? ? ? ? ? ? ? ? Hs | ? ? ? ? ? ? ? ? ? ? ? Hs | |]; subst; try done;
    try (apply ends_now; by right);
    destruct Hs as (x & Hs & ->).
  - destruct Hq as [Hc' Hk].
    destruct (call_keeps fb EB _ _ _ _ _ _ _ _ _ _ Hc' Hs (apart_sym _ _ _ _ Ha))
      as (G1 & Hd & Ha').
    eapply IHq; [exact Hp | by apply Hk | by apply apart_sym].
  - destruct Hp as [Hc' Hk].
    destruct (call_keeps fa EA _ _ _ _ _ _ _ _ _ _ Hc' Hs Ha) as (G1 & Hd & Ha').
    eapply IHp; [by apply Hk | exact Hq | exact Ha'].
  - destruct Hp as [Hc' Hk].
    destruct (call_keeps fa EA _ _ _ _ _ _ _ _ _ _ Hc' Hs Ha) as (G1 & Hd & Ha').
    eapply IHp; [by apply Hk | exact Hq | exact Ha'].
  - destruct Hq as [Hc' Hk].
    destruct (call_keeps fb EB _ _ _ _ _ _ _ _ _ _ Hc' Hs (apart_sym _ _ _ _ Ha))
      as (G1 & Hd & Ha').
    eapply IHq; [exact Hp | by apply Hk | by apply apart_sym].
Qed.

(** Two processes that follow dual scripts both come to their ends, with nothing
    left on the way, unless a call goes wrong before. *)
Lemma net_ends p q s t G :
  wp (link fa EA) p (G, s) (at_end QA) -> wp (link fb EB) q (dual G, t) (at_end QB) ->
  ends fa fb EA EB (done_or_trouble QA QB) (Net p q [] [] s t false).
Proof. intros Hp Hq. eapply net_ends_apart; [exact Hp | exact Hq | apply apart_start]. Qed.
End Ends.

(** ** What a machine that works promises

    Memory is not exhausted, and the calls that have nothing to do with the data of
    a connection succeed. [get_vars] and [put_vars] are the variables in the state
    of the environment; [the_info] is what gen_challenge will see. *)

Definition a_block (n : Z) (bs : list Z) : Prop := len bs = n /\ Forall is_byte bs.

Definition plain (r : request) : Prop :=
  match r with
  | r_array n | r_malloc n | r_realloc _ n => 0 <= n
  | r_get | r_set _ | r_errno | r_info | r_getenv _ | r_connect _ _ _ | r_close _ | r_getpeername _
  | r_setsockopt _ _ _ | r_nonblocking _ _ => True
  | _ => False
  end.

Definition plain_does {S} (get : S -> globals) (put : globals -> S -> S)
    (info : list Z) (getenv : list Z -> option (list Z)) (r : request) (s : S)
    : answer r -> S -> Prop :=
  match r return answer r -> S -> Prop with
  | r_get => fun x s' => x = get s /\ s' = s
  | r_set g => fun _ s' => s' = put g s
  | r_errno => fun _ s' => s' = s
  | r_array n => fun x s' => a_block n x /\ s' = s
  | r_malloc n => fun x s' => (exists bs, x = Some bs /\ a_block n bs) /\ s' = s
  | r_realloc b n => fun x s' =>
      (exists pad, x = Some (take (Z.to_nat n) b ++ pad) /\ a_block (Z.max 0 (n - len b)) pad) /\
      s' = s
  | r_info => fun x s' => x = info /\ s' = s
  | r_getenv name => fun x s' => x = getenv name /\ s' = s
  | r_connect _ _ _ => fun x s' => x = 0 /\ s' = s
  | r_getpeername _ => fun x s' => x.1 = 0 /\ a_block 4 x.2 /\ s' = s
  | r_close _ | r_setsockopt _ _ _ | r_nonblocking _ _ => fun _ s' => s' = s
  | _ => fun _ _ => False
  end.

Class Works {S} (L : env S) := {
  get_vars : S -> globals;
  put_vars : globals -> S -> S;
  the_info : list Z;
  the_getenv : list Z -> option (list Z);
  get_put g s : get_vars (put_vars g s) = g;
  put_put g g' s : put_vars g (put_vars g' s) = put_vars g s;
  put_get s : put_vars (get_vars s) s = s;
  works_can r s : plain r -> can r s;
  works_does r s x s' : plain r -> does r s x s' ->
    plain_does get_vars put_vars the_info the_getenv r s x s'
}.

Lemma wp_plain {S A} (L : env S) {W : Works L} r (k : answer r -> proc A) s Q :
  plain r ->
  (forall x s', plain_does get_vars put_vars the_info the_getenv r s x s' -> wp L (k x) s' Q) ->
  wp L (bindP (ask r) k) s Q.
Proof.
  intros Hp Hk. cbn. split; [by apply works_can |]. intros x s' Hd. by apply Hk, works_does.
Qed.

Definition set_err (e : Z) (g : globals) : globals :=
  Globals e (ei_sockets g) (ei_sz_sockets g) (save_token g) (tracing g) (clock g) (epmd_port g)
    (compat_rel g).

(** The state with another [erl_errno]. *)
Definition with_err {S} {L : env S} {W : Works L} (e : Z) (s : S) : S :=
  put_vars (set_err e (get_vars s)) s.

Lemma with_err_err {S} {L : env S} {W : Works L} e e' s : with_err e (with_err e' s) = with_err e s.
Proof. unfold with_err. by rewrite get_put, put_put. Qed.

Lemma wp_set_errno {S A} (L : env S) {W : Works L} e (k : unit -> proc A) s Q :
  wp L (k tt) (with_err e s) Q -> wp L (bindP (set_errno e) k) s Q.
Proof.
  intros Hk. unfold set_errno. apply wp_assoc. apply (wp_plain L); [done |]. intros g s' [-> ->].
  apply (wp_plain L); [done |]. by intros [] s' ->.
Qed.

#[export] Instance link_works {S} fd (L : env S) {W : Works L} : Works (link fd L).
Proof.
  refine {| get_vars s := get_vars s.2; put_vars g s := (s.1, put_vars g s.2);
            the_info := the_info; the_getenv := the_getenv |}.
  - intros g [G s]. apply get_put.
  - intros g g' [G s]. cbn. by rewrite put_put.
  - intros [G s]. cbn. by rewrite put_get.
  - intros r [G s] Hp. destruct r; cbn in Hp |- *; try done; by apply works_can.
  - intros r [G s] x [G' s'] Hp Hd. destruct r; cbn in Hp; try done;
      destruct Hd as [Hg Hd]; cbn in Hg, Hd; subst G';
      apply works_does in Hd; try done; cbn in Hd |- *; intuition subst; done.
Defined.

(** ** A machine that works

    The descriptors it will give are [fds]; on those that are [listening] a
    connection comes. The process may not touch the data of a descriptor that no
    session speaks of. *)

Record machine := Machine { vars : globals; fds : list Z }.

Section System.
Context (info : list Z) (getenv : list Z -> option (list Z)) (listening : Z -> bool).

Definition sys_can (r : request) (m : machine) : Prop :=
  match r with
  | r_array n | r_malloc n | r_realloc _ n => 0 <= n
  | r_socket => fds m <> []
  | r_accept fd => listening fd = true /\ fds m <> []
  | r_select fd reading _ => listening fd = true
  | r_select _ writing _ | r_read _ _ | r_write _ _ | r_writev _ _ => False
  | _ => True
  end.

Definition new_fd (m : machine) (fd : Z) (m' : machine) : Prop :=
  fds m = fd :: fds m' /\ vars m' = vars m.

Definition sys_does (r : request) (m : machine) : answer r -> machine -> Prop :=
  match r return answer r -> machine -> Prop with
  | r_socket => fun x m' => new_fd m x m'
  | r_accept _ => fun x m' => new_fd m x m'
  | r_select _ d _ => fun x m' =>
      x = (1, match d with connecting => false | _ => true end) /\ m' = m
  | r => plain_does vars (fun g m => Machine g (fds m)) info getenv r m
  end.

Lemma a_block_exists n : 0 <= n -> a_block n (repeat 0 (Z.to_nat n)).
Proof.
  intros. split; [rewrite repeat_length; lia |]. apply list.Forall_forall.
  intros x Hx%list_elem_of_In%repeat_spec. subst x. unfold is_byte. lia.
Qed.

Lemma sys_can_does r m : sys_can r m -> exists x m', sys_does r m x m'.
Proof.
  destruct r as [| g | | n | n | b n | | name | | | fd | fd | fd | | | fd d | | |]; cbn; intros Hc;
    try done; try (by exists tt, m).
  - by exists (vars m), m.
  - by eexists tt, _.
  - by exists 0, m.
  - exists (repeat 0 (Z.to_nat n)), m. by split; [apply a_block_exists |].
  - eexists _, m. split; [| done]. eexists. split; [done | by apply a_block_exists].
  - eexists _, m. split; [| done]. eexists. split; [done | apply a_block_exists; lia].
  - by exists info, m.
  - by exists (getenv name), m.
  - destruct m as [v [| fd l]]; [done |]. by exists fd, (Machine v l).
  - by exists 0, m.
  - destruct Hc as [_ Hc], m as [v [| f l]]; [done |]. by exists f, (Machine v l).
  - exists (0, repeat 0 4), m. split; [done |]. by split; [apply (a_block_exists 4) |].
  - by eexists _, m.
Qed.

Definition sys : env machine := Build_env _ sys_can sys_does sys_can_does.

#[export] Instance sys_works : Works sys.
Proof.
  refine {| get_vars := vars; put_vars g m := Machine g (fds m);
            the_info := info; the_getenv := getenv |}; try done.
  - by intros [v l].
  - by intros [] m.
  - by intros [] m x m'.
Defined.
End System.

(** The next descriptor. *)
Definition gives {S} (L : env S) (s : S) (fd : Z) (s' : S) : Prop :=
  can r_socket s /\ forall x s1, does r_socket s x s1 -> x = fd /\ s1 = s'.

Lemma sys_gives info getenv listening v fd l :
  gives (sys info getenv listening) (Machine v (fd :: l)) fd (Machine v l).
Proof.
  split; [done |]. intros x [v' l'] [Hf Hv]. cbn in *. injection Hf as <- <-. by subst.
Qed.
Lemma link_gives {S} f (L : env S) G s fd s' : gives L s fd s' -> gives (link f L) (G, s) fd (G, s').
Proof.
  intros [Hc Hd]. split; [done |]. intros x [G1 s1] [Hg Hs]. cbn in *.
  destruct (Hd x s1 Hs) as [-> ->]. by subst.
Qed.

Lemma wp_socket {S A} (L : env S) fd (k : Z -> proc A) s s' Q :
  gives L s fd s' -> wp L (k fd) s' Q -> wp L (bindP (ask r_socket) k) s Q.
Proof. intros [Hc Hd] Hk. cbn. split; [done |]. by intros x s1 [-> ->]%Hd. Qed.

(** ** A process that does not touch a connection leaves its script alone *)

Definition touches (fd : Z) (r : request) : Prop :=
  match r with
  | r_read f _ | r_write f _ | r_writev f _ | r_select f reading _ | r_select f writing _ => f = fd
  | _ => False
  end.
Definition foreign {S} (fd : Z) (L : env S) : Prop := forall r s, can r s -> ~ touches fd r.

Lemma sys_foreign info getenv listening fd :
  listening fd = false -> foreign fd (sys info getenv listening).
Proof.
  intros Hl r m Hc. destruct r as [| | | | | | | | | | | | | | | f [] | | |]; cbn in *; try tauto.
  intros ->. congruence.
Qed.
Lemma link_foreign {S} fd f (L : env S) : f <> fd -> foreign fd L -> foreign fd (link f L).
Proof.
  intros Hf Hl r [G s] Hc. assert (Hn : can r s -> ~ touches fd r) by apply Hl.
  destruct r as [| | | | | | | | | | | | | | | f' [] | f' | f' | f']; cbn in *; try tauto;
    destruct (Z.eqb_spec f' f); first [congruence | tauto].
Qed.

Lemma foreign_can {S} fd (L : env S) r G s :
  foreign fd L -> can r s -> link_can fd L r (G, s).
Proof.
  intros Hf Hc. pose proof (Hf r s Hc) as Hn.
  destruct r as [| | | | | | | | | | | | | | | f [] | f | f | f]; cbn in *; try done;
    by rewrite (proj2 (Z.eqb_neq f fd) Hn).
Qed.

Lemma foreign_does {S} fd (L : env S) r G s x s' :
  foreign fd L -> can r s -> link_does fd L r (G, s) x s' -> s'.1 = G /\ does r s x s'.2.
Proof.
  intros Hf Hc. pose proof (Hf r s Hc) as Hn.
  destruct r as [| | | | | | | | | | | | | | | f [] | f | f | f]; cbn in *; try done;
    try rewrite (proj2 (Z.eqb_neq f fd) Hn); try done.
  by rewrite andb_false_r.
Qed.

Lemma wp_frame {S A} fd (L : env S) (p : proc A) G s Q :
  foreign fd L -> wp L p s Q ->
  wp (link fd L) p (G, s) (fun a s' => s'.1 = G /\ Q a s'.2).
Proof.
  intros Hf. revert s. induction p as [a | | r k IH]; intros s; cbn [wp]; [done.. |].
  intros [Hc Hk]. split; [by apply foreign_can |]. intros x [G' s'] Hd.
  apply foreign_does in Hd as [Hg Hd]; [| done..]. cbn in Hg, Hd. subst G'. by apply IH, Hk.
Qed.

(** ** A peer of which nothing is known

    Any bytes may come, or none; any call may fail. The log is what has crossed
    each descriptor. *)

Definition log : Type := list (Z * (way * Z)).
Definition at_fd (fd : Z) (G : script) : log := pair fd <$> G.

Lemma at_fd_app fd G G' : at_fd fd (G ++ G') = at_fd fd G ++ at_fd fd G'.
Proof. apply fmap_app. Qed.

Definition any_does (r : request) (l : log) : answer r -> log -> Prop :=
  match r return answer r -> log -> Prop with
  | r_read fd n => fun x l' =>
      match x with
      | None => l' = l
      | Some bs => len bs <= Z.max 0 n /\ Forall is_byte bs /\ l' = l ++ at_fd fd (ins bs)
      end
  | r_write fd bs => fun x l' => -1 <= x <= len bs /\ l' = l ++ at_fd fd (outs (take (Z.to_nat x) bs))
  | r_writev fd iov => fun x l' =>
      -1 <= x <= len (concat iov) /\ l' = l ++ at_fd fd (outs (take (Z.to_nat x) (concat iov)))
  | r_array n => fun x l' => a_block (Z.max 0 n) x /\ l' = l
  | r_malloc n => fun x l' =>
      match x with None => True | Some bs => a_block (Z.max 0 n) bs end /\ l' = l
  | r_realloc b n => fun x l' =>
      match x with
      | None => True
      | Some bs => exists pad, bs = take (Z.to_nat n) b ++ pad /\ a_block (Z.max 0 (n - len b)) pad
      end /\ l' = l
  | r_info => fun x l' => Forall is_byte x /\ l' = l
  | r_getpeername fd => fun x l' => a_block 4 x.2 /\ l' = l
  | _ => fun _ l' => l' = l
  end.

Lemma any_can_does r (l : log) : True -> exists x l', any_does r l x l'.
Proof.
  intros _.
  destruct r as [| g | | n | n | b n | | name | | | fd | fd | fd | | | fd d | fd n | fd bs | fd iov];
    cbn; try (by exists tt, l).
  - by exists (Globals 0 [] 0 (Trace 0 0 (Pid [] 0 0 0) 0 0) 0 0 0 0), l.
  - by exists 0, l.
  - exists (repeat 0 (Z.to_nat (Z.max 0 n))), l. by split; [apply a_block_exists; lia |].
  - by exists None, l.
  - by exists None, l.
  - by exists [], l.
  - by exists None, l.
  - by exists 0, l.
  - by exists 0, l.
  - by exists 0, l.
  - exists (0, repeat 0 4), l. by split; [apply (a_block_exists 4) |].
  - by exists (0, true), l.
  - by exists None, l.
  - exists 0, (l ++ []). split; [lia | done].
  - exists 0, (l ++ []). split; [lia | done].
Qed.

Definition anyone : env log := Build_env _ (fun _ _ => True) any_does any_can_does.
