(* ===== verification/PortIO.v ===== *)
(** * misc/ei_portio.c: reads and writes that fill, with a timeout

    [ms] is the timeout in milliseconds, 0 for none. The [_fill] functions repeat a
    read or a write until all bytes have crossed. *)

From S2P Require Import Prelude Mem Ext Proc Session.

Definition FD_SETSIZE : Z := 1024.

(** [FD_SET] and [select] on one descriptor, as every function with a timeout does:
    a negative value is what the function returns, or the socket is ready. A
    descriptor that does not fit in an [fd_set] is written past its end. *)
Definition select_on (fd : Z) (d : direction) (ms : Z) : proc Z :=
  if (fd <? 0) || (FD_SETSIZE <=? fd) then Undef else
  let! (n, isset) := ask (r_select fd d ms) in
  Ret (if n =? -1 then -1 else if n =? 0 then -2 else if isset then 1 else -1).

Definition ready (fd : Z) (d : direction) (ms : Z) : proc Z :=
  if ms =? 0 then Ret 1 else select_on fd d ms.

Definition fits_b (s : list Z) (o : Z) (bs : list Z) : bool :=
  (0 <=? o) && (o + len bs <=? len s).

(** [ei_read_t(fd, blk + o, n, ms)]; the block with what was read. *)
Definition ei_read_t (fd : Z) (blk : list Z) (o n ms : Z) : proc (Z * list Z) :=
  let! r := ready fd reading ms in
  if r <? 0 then Ret (r, blk) else
  let! x := ask (r_read fd (uint64 n)) in
  match x with
  | None => Ret (-1, blk)
  | Some bs =>
      if fits_b blk o bs then
        let res := int32 (len bs) in
        Ret (if res <? 0 then -1 else res, splice blk o bs)
      else Undef
  end.

(** [ei_write_t(fd, bs, n, ms)]; [bs] is the array from the pointer on. *)
Definition ei_write_t (fd : Z) (bs : list Z) (n ms : Z) : proc Z :=
  let! r := ready fd writing ms in
  if r <? 0 then Ret r else
  if len bs <? uint64 n then Undef else
  let! x := ask (r_write fd (take (Z.to_nat n) bs)) in
  let res := int32 x in
  Ret (if res <? 0 then -1 else res).

(** At most [fuel] rounds; each reads a byte at least. *)
Fixpoint read_loop (fuel : nat) (fd : Z) (blk : list Z) (o n ms got : Z) : proc (Z * list Z) :=
  match fuel with
  | O => Undef
  | S fuel =>
      let! (i, blk) := ei_read_t fd blk (o + got) (n - got) ms in
      if i <=? 0 then Ret (i, blk) else
      let got := got + i in
      if got <? n then read_loop fuel fd blk o n ms got else Ret (n, blk)
  end.

Definition ei_read_fill_t (fd : Z) (blk : list Z) (o n ms : Z) : proc (Z * list Z) :=
  read_loop (S (Z.to_nat n)) fd blk o n ms 0.

Definition ei_read_fill (fd : Z) (blk : list Z) (o n : Z) : proc (Z * list Z) :=
  ei_read_fill_t fd blk o n 0.

Definition set_nonblocking (fd : Z) (on : bool) (ms : Z) : proc unit :=
  if ms =? 0 then Ret tt else ask (r_nonblocking fd on).

Fixpoint write_loop (fuel : nat) (fd : Z) (buf : list Z) (n ms done : Z) : proc Z :=
  match fuel with
  | O => Undef
  | S fuel =>
      let! i := ei_write_t fd (drop (Z.to_nat done) buf) (n - done) ms in
      if i <=? 0 then
        let! _ := set_nonblocking fd false ms in Ret i
      else
      let done := done + i in
      if done <? n then write_loop fuel fd buf n ms done
      else let! _ := set_nonblocking fd false ms in Ret n
  end.

Definition ei_write_fill_t (fd : Z) (buf : list Z) (n ms : Z) : proc Z :=
  let! _ := set_nonblocking fd true ms in
  write_loop (S (Z.to_nat n)) fd buf n ms 0.

Definition ei_write_fill (fd : Z) (buf : list Z) (n : Z) : proc Z := ei_write_fill_t fd buf n 0.

(** ** writev *)

Definition ei_writev_t (fd : Z) (iov : list (list Z)) (ms : Z) : proc Z :=
  let! r := ready fd writing ms in
  if r <? 0 then Ret r else
  let! x := ask (r_writev fd iov) in
  let res := int32 x in
  Ret (if res <? 0 then -1 else res).

(** [while (i > 0)]: past the [i] bytes that are written. *)
Fixpoint iov_advance (iov : list (list Z)) (i : Z) : option (list (list Z)) :=
  if i <=? 0 then Some iov else
  match iov with
  | [] => None
  | v :: iov =>
      if i <? len v then Some (drop (Z.to_nat i) v :: iov) else iov_advance iov (i - len v)
  end.

Definition iovec_size : Z := 16.

(** [base] says whether iov_base has been allocated, [iovcnt] is its size. *)
Fixpoint writev_loop (fuel : nat) (fd : Z) (iov : list (list Z)) (iovcnt : Z) (base : bool)
    (sum ms done : Z) : proc Z :=
  match fuel with
  | O => Undef
  | S fuel =>
      let! i := ei_writev_t fd iov ms in
      if i <=? 0 then
        let! _ := set_nonblocking fd false ms in Ret i
      else
      let done := done + i in
      if done <? sum then
        let! ok := (if base then Ret true else
                    let! m := ask (r_malloc (uint64 (iovec_size * iovcnt))) in
                    Ret (match m with None => false | Some _ => true end)) in
        if negb ok then Ret (-1) else
        let! iov := lift_opt (iov_advance iov i) in
        writev_loop fuel fd iov iovcnt true sum ms done
      else
        let! _ := set_nonblocking fd false ms in Ret sum
  end.

Definition ei_writev_fill_t (fd : Z) (iov : list (list Z)) (ms : Z) : proc Z :=
  let sum := int32 (len (concat iov)) in
  let! _ := set_nonblocking fd true ms in
  writev_loop (S (Z.to_nat sum)) fd iov (Z.of_nat (length iov)) false sum ms 0.

(** ** Connections *)

Definition EWOULDBLOCK : Z := 11.
Definition EINPROGRESS : Z := 115.

(** [FD_ISSET(fd, &exceptfds)] is the flag that select gives here. *)
Definition ei_connect_t (fd : Z) (ip : list Z) (port ms : Z) : proc Z :=
  if ms =? 0 then
    let! res := ask (r_connect fd ip port) in
    Ret (if res <? 0 then -1 else res)
  else
    let! _ := ask (r_nonblocking fd true) in
    let! res := ask (r_connect fd ip port) in
    let! error := ask r_errno in
    let! _ := ask (r_nonblocking fd false) in
    if negb (res <? 0) then Ret res else
    if negb (error =? EWOULDBLOCK) && negb (error =? EINPROGRESS) then Ret (-1) else
    if (fd <? 0) || (FD_SETSIZE <=? fd) then Undef else
    let! (s_res, failed) := ask (r_select fd connecting ms) in
    Ret (if s_res =? 0 then -2 else
         if s_res =? 1 then if failed then -1 else 0 else -1).

Definition ei_accept_t (fd ms : Z) : proc Z :=
  let! r := ready fd reading ms in
  if r <? 0 then Ret r else
  let! res := ask (r_accept fd) in
  Ret (if res <? 0 then -1 else int32 res).

(** ** The specifications on a connection that follows a script *)

Definition timeout_ok (fd ms : Z) : Prop := ms = 0 \/ 0 <= fd < FD_SETSIZE.

Section Follows.
Context {S : Type} (fd : Z) (L : env S) {W : Works L} (ms : Z).
Context (Hms : timeout_ok fd ms).
Implicit Types (G : script) (s : S).

Lemma ready_link {A} d (k : Z -> proc A) G s Q :
  (d = reading /\ (exists b G', G = ins [b] ++ G')) \/ d = writing ->
  wp (link fd L) (k 1) (G, s) Q -> wp (link fd L) (bindP (ready fd d ms) k) (G, s) Q.
Proof.
  intros Hd Hk. unfold ready. destruct (Z.eqb_spec ms 0) as [? | Hm]; [done |].
  destruct Hms as [? | Hf]; [done |]. unfold select_on.
  rewrite (proj2 (Z.ltb_ge fd 0)), (proj2 (Z.leb_gt FD_SETSIZE fd)) by lia.
  cbn. rewrite Z.eqb_refl. cbn.
  destruct Hd as [[-> Hg] | ->]; (split; [done |]); by intros x s' [-> ->].
Qed.

Lemma read_t_link bs blk o n G s Q :
  bs <> [] -> 1 <= n <= int_max -> 0 <= o -> o + n <= len blk -> n <= len bs ->
  (forall c bs', bs = c ++ bs' -> 1 <= len c <= n ->
    Q (len c, splice blk o c) (ins bs' ++ G, s)) ->
  wp (link fd L) (ei_read_t fd blk o n ms) (ins bs ++ G, s) Q.
Proof.
  intros Hb Hn Ho Hfit Hl Hq. unfold ei_read_t. unfold int_max in Hn.
  assert (Hh : exists b G', ins bs ++ G = ins [b] ++ G')
    by (destruct bs as [| b bs]; [done | by eexists b, (ins bs ++ G)]).
  apply ready_link; [by left |].
  change (1 <? 0) with false. cbn [wp bindP ask link can link_can]. rewrite Z.eqb_refl.
  autorewrite with cint. split; [split; [lia | done] |].
  intros x [G' s']. cbn. rewrite Z.eqb_refl. intros (c & -> & Hc & Hcn & Hg & ->). cbn in Hg.
  destruct (ins_prefix c bs G' G) as (bs' & -> & ->); [done | lia |].
  assert (1 <= len c) by (destruct c; cbn [length]; [done | lia]).
  unfold fits_b. rewrite (proj2 (Z.leb_le 0 o)), (proj2 (Z.leb_le _ (len blk))) by lia.
  cbn. rewrite int32_small by (unfold is_int32; lia).
  rewrite (proj2 (Z.ltb_ge _ 0)) by lia. by apply Hq.
Qed.

Lemma read_loop_link fuel rest done blk o G s Q :
  rest <> [] -> (length rest < fuel)%nat -> fits blk o (done ++ rest) ->
  len (done ++ rest) <= int_max ->
  Q (len (done ++ rest), splice blk o (done ++ rest)) (G, s) ->
  wp (link fd L) (read_loop fuel fd (splice blk o done) o (len (done ++ rest)) ms (len done))
    (ins rest ++ G, s) Q.
Proof.
  revert rest done. induction fuel as [| fuel IH]; intros rest done Hr Hf Hfit Hmax Hq; [lia |].
  cbn [read_loop]. destruct Hfit as [Ho Hfit].
  assert (Hd : fits blk o done) by (rewrite len_app in Hfit; by split; [| lia]).
  assert (1 <= len rest) by (destruct rest; cbn [length]; [done | lia]).
  apply wp_bind. rewrite len_app in Hmax, Hfit |- *. apply read_t_link; [done | lia | lia | | lia |].
  { rewrite length_splice by done. lia. }
  intros c rest' -> Hc. rewrite len_app in Hmax, Hfit |- *.
  rewrite splice_app by (split; rewrite ?len_app; lia).
  rewrite (proj2 (Z.leb_gt _ 0)) by lia.
  assert (Hg : len done + len c = len (done ++ c)) by (by rewrite len_app).
  destruct (Z.ltb_spec (len done + len c) (len done + (len c + len rest'))) as [Hlt | Hge].
  - rewrite Hg, app_assoc in *.
    replace (len done + (len c + len rest')) with (len ((done ++ c) ++ rest'))
      by (rewrite !len_app; lia).
    rewrite length_app in Hf.
    apply IH; [by destruct rest'; cbn in Hlt; [lia |] | lia | | rewrite !len_app; lia | done].
    split; [done |]. rewrite !len_app. lia.
  - assert (rest' = []) as -> by (destruct rest'; [done | cbn [length] in Hge; lia]).
    rewrite app_nil_r in *. cbn. rewrite len_app in Hq. by rewrite Z.add_0_r.
Qed.

(** Reading [bs] when [bs] is what comes next, in whatever pieces it comes. *)
Lemma read_fill_link bs blk o n G s Q :
  bs <> [] -> n = len bs -> n <= int_max -> fits blk o bs ->
  Q (n, splice blk o bs) (G, s) ->
  wp (link fd L) (ei_read_fill_t fd blk o n ms) (ins bs ++ G, s) Q.
Proof.
  intros Hb -> Hn Hf Hq. unfold ei_read_fill_t.
  rewrite <- (splice_nil blk o) at 1.
  apply (read_loop_link _ bs [] blk o); [done | lia | done.. ].
Qed.

Lemma set_nonblocking_link {A} on (k : unit -> proc A) G s Q :
  wp (link fd L) (k tt) (G, s) Q ->
  wp (link fd L) (bindP (set_nonblocking fd on ms) k) (G, s) Q.
Proof.
  intros Hk. unfold set_nonblocking. destruct (ms =? 0); [done |].
  apply (wp_plain (link fd L)); [done |]. by intros [] s' ->.
Qed.

Lemma write_t_link {A} buf n G s (k : Z -> proc A) Q :
  1 <= n <= int_max -> n <= len buf -> (exists G', G = outs (take (Z.to_nat n) buf) ++ G') ->
  (forall x G', 1 <= x <= n -> G = outs (take (Z.to_nat x) buf) ++ G' ->
    wp (link fd L) (k x) (G', s) Q) ->
  wp (link fd L) (bindP (ei_write_t fd buf n ms) k) (G, s) Q.
Proof.
  intros Hn Hl Hg Hk. unfold ei_write_t. unfold int_max in Hn. apply wp_assoc, ready_link; [by right |].
  change (1 <? 0) with false. cbv iota. autorewrite with cint.
  rewrite (proj2 (Z.ltb_ge _ _)) by lia. cbn. rewrite Z.eqb_refl. split.
  { split; [| done]. intros Ht%(f_equal length). rewrite length_take in Ht. cbn in Ht. lia. }
  intros x [G' s']. unfold sent. rewrite length_take. cbn [fst snd].
  intros (Hx & -> & ->).
  rewrite int32_small by (unfold is_int32; lia). rewrite (proj2 (Z.ltb_ge _ 0)) by lia.
  apply Hk; [lia |]. rewrite take_take. do 3 f_equal. lia.
Qed.

Lemma write_loop_link {A} fuel done rest buf G s (k : Z -> proc A) Q :
  rest <> [] -> (length rest < fuel)%nat -> len (done ++ rest) <= int_max ->
  (exists tl, buf = (done ++ rest) ++ tl) ->
  wp (link fd L) (k (len (done ++ rest))) (G, s) Q ->
  wp (link fd L) (bindP (write_loop fuel fd buf (len (done ++ rest)) ms (len done)) k)
    (outs rest ++ G, s) Q.
Proof.
  revert done rest. induction fuel as [| fuel IH]; intros done rest Hr Hf Hmax Hb Hk; [lia |].
  cbn [write_loop]. destruct Hb as [tl ->].
  assert (1 <= len rest) by (destruct rest; cbn [length]; [done | lia]).
  rewrite Nat2Z.id. rewrite len_app in Hmax |- *. rewrite <- !app_assoc, drop_app_length.
  apply wp_assoc, write_t_link; [lia | rewrite len_app; lia | |].
  { exists G. by rewrite take_app_length' by lia. }
  intros x G' Hx Hg. rewrite (proj2 (Z.leb_gt x 0)) by lia.
  rewrite take_app_le in Hg by lia.
  rewrite <- (take_drop (Z.to_nat x) rest), outs_app, <- app_assoc in Hg at 1.
  apply app_inv_head in Hg. subst G'.
  assert (Hlx : len (take (Z.to_nat x) rest) = x) by (rewrite length_take; lia).
  destruct (Z.ltb_spec (len done + x) (len done + len rest)) as [Hlt | Hge].
  - replace (len done + x) with (len (done ++ take (Z.to_nat x) rest))
      by (rewrite len_app; lia).
    replace (len done + len rest) with (len ((done ++ take (Z.to_nat x) rest) ++
      drop (Z.to_nat x) rest)) by (by rewrite <- app_assoc, take_drop, len_app).
    rewrite (app_assoc done rest tl). apply IH.
    + intros Hd%(f_equal length). rewrite length_drop in Hd. cbn in Hd. lia.
    + rewrite length_drop. lia.
    + by rewrite <- app_assoc, take_drop, len_app.
    + exists tl. by rewrite <- (app_assoc done (take _ _)), take_drop.
    + by rewrite <- app_assoc, take_drop.
  - rewrite drop_ge by lia. apply wp_assoc, set_nonblocking_link. cbn. by rewrite <- len_app.
Qed.

Lemma write_fill_link {A} bs buf n G s (k : Z -> proc A) Q :
  bs <> [] -> n = len bs -> n <= int_max -> (exists tl, buf = bs ++ tl) ->
  wp (link fd L) (k n) (G, s) Q ->
  wp (link fd L) (bindP (ei_write_fill_t fd buf n ms) k) (outs bs ++ G, s) Q.
Proof.
  intros Hb -> Hn Hbuf Hk. unfold ei_write_fill_t. apply wp_assoc, set_nonblocking_link.
  apply (write_loop_link _ [] bs); [done | lia | done..].
Qed.

Lemma iov_advance_ok iov i : 0 <= i <= len (concat iov) ->
  exists iov', iov_advance iov i = Some iov' /\ concat iov' = drop (Z.to_nat i) (concat iov).
Proof.
  revert i. induction iov as [| v iov IH]; intros i Hi; cbn [iov_advance concat] in *.
  - cbn in Hi. rewrite (proj2 (Z.leb_le i 0)) by lia. exists []. by rewrite drop_nil.
  - destruct (Z.leb_spec i 0).
    + exists (v :: iov). split; [done |]. by replace (Z.to_nat i) with 0%nat by lia.
    + rewrite len_app in Hi. destruct (Z.ltb_spec i (len v)).
      * eexists. split; [done |]. cbn. by rewrite drop_app_le by lia.
      * destruct (IH (i - len v)) as (iov' & -> & Hc); [lia |]. exists iov'. split; [done |].
        rewrite Hc, drop_app_ge by lia. f_equal. lia.
Qed.

Lemma writev_t_link {A} iov G s (k : Z -> proc A) Q :
  concat iov <> [] -> len (concat iov) <= int_max ->
  (forall x, 1 <= x <= len (concat iov) ->
    wp (link fd L) (k x) (outs (drop (Z.to_nat x) (concat iov)) ++ G, s) Q) ->
  wp (link fd L) (bindP (ei_writev_t fd iov ms) k) (outs (concat iov) ++ G, s) Q.
Proof.
  intros Hb Hn Hk. unfold ei_writev_t. unfold int_max in Hn.
  apply wp_assoc, ready_link; [by right |].
  change (1 <? 0) with false. cbn. rewrite Z.eqb_refl. split; [by split; [| exists G] |].
  intros x [G' s']. unfold sent. cbn [fst snd]. intros (Hx & Hg & ->).
  rewrite <- (take_drop (Z.to_nat x) (concat iov)), outs_app, <- app_assoc in Hg at 1.
  apply app_inv_head in Hg. subst G'.
  rewrite int32_small by (unfold is_int32; lia). rewrite (proj2 (Z.ltb_ge _ 0)) by lia.
  by apply Hk.
Qed.

Lemma writev_loop_link {A} fuel iov iovcnt base done G s (k : Z -> proc A) Q :
  concat iov <> [] -> (length (concat iov) < fuel)%nat -> 0 <= done ->
  done + len (concat iov) <= int_max ->
  wp (link fd L) (k (done + len (concat iov))) (G, s) Q ->
  wp (link fd L)
    (bindP (writev_loop fuel fd iov iovcnt base (done + len (concat iov)) ms done) k)
    (outs (concat iov) ++ G, s) Q.
Proof.
  revert iov base done. induction fuel as [| fuel IH]; intros iov base done Hr Hf Hd Hmax Hk; [lia |].
  cbn [writev_loop]. apply wp_assoc, writev_t_link; [done | lia |]. intros x Hx.
  rewrite (proj2 (Z.leb_gt x 0)) by lia.
  destruct (Z.ltb_spec (done + x) (done + len (concat iov))) as [Hlt | Hge].
  - destruct (iov_advance_ok iov x) as (iov' & Hi & Hc); [lia |].
    assert (Hgo : wp (link fd L) (bindP (let! iov1 := lift_opt (iov_advance iov x) in
        writev_loop fuel fd iov1 iovcnt true (done + len (concat iov)) ms (done + x)) k)
      (outs (drop (Z.to_nat x) (concat iov)) ++ G, s) Q).
    { rewrite Hi. cbn. rewrite <- Hc.
      assert (Hl : len (concat iov') = len (concat iov) - x) by (rewrite Hc, length_drop; lia).
      replace (done + len (concat iov)) with ((done + x) + len (concat iov')) in Hk |- * by lia.
      apply IH; [| lia.. | done]. intros He. rewrite He in Hl. cbn in Hl. lia. }
    destruct base; [done |].
    apply wp_assoc, wp_assoc, (wp_plain (link fd L)).
    { cbn. pose proof (uint64_range (iovec_size * iovcnt)). unfold is_uint64 in *. lia. }
    by intros m s' [(bs & -> & _) ->].
  - rewrite drop_ge by lia. by apply wp_assoc, set_nonblocking_link.
Qed.

Lemma writev_fill_link {A} iov G s (k : Z -> proc A) Q :
  concat iov <> [] -> len (concat iov) <= int_max ->
  wp (link fd L) (k (len (concat iov))) (G, s) Q ->
  wp (link fd L) (bindP (ei_writev_fill_t fd iov ms) k) (outs (concat iov) ++ G, s) Q.
Proof.
  intros Hb Hn Hk. unfold ei_writev_fill_t. apply wp_assoc, set_nonblocking_link.
  rewrite int32_small by (unfold int_max in Hn; unfold is_int32; lia).
  apply (writev_loop_link _ iov _ false 0); [done | lia | lia | done..].
Qed.
End Follows.

(** ** The specifications with any peer *)

Section Anyone.
Context (fd ms : Z).

(** What a full read has put in the log and in the block. *)
Definition filled (blk : list Z) (o n : Z) (l : log) (r : Z * list Z) (l' : log) : Prop :=
  -2 <= r.1 <= n /\
  (r.1 = n -> exists bs, a_block n bs /\ fits blk o bs /\ r.2 = splice blk o bs /\
    l' = l ++ at_fd fd (ins bs)).

Lemma ready_any d l Q : (forall r, -2 <= r <= 1 -> Q r l) -> wlp anyone (ready fd d ms) l Q.
Proof.
  intros Hq. unfold ready, select_on. destruct (ms =? 0); [by apply Hq |].
  destruct (_ || _); [done |]. cbn. intros [n isset] l' ->. apply Hq. by repeat case_match.
Qed.

Lemma fits_b_spec s o bs : fits_b s o bs = true -> fits s o bs.
Proof. unfold fits_b, fits. lia. Qed.

Lemma read_t_any blk o n l : 0 <= n <= int_max ->
  wlp anyone (ei_read_t fd blk o n ms) l (fun r l' =>
    -2 <= r.1 <= n /\
    (0 <= r.1 -> exists bs, a_block r.1 bs /\ fits blk o bs /\ r.2 = splice blk o bs /\
      l' = l ++ at_fd fd (ins bs))).
Proof.
  intros Hn. unfold ei_read_t. unfold int_max in Hn. apply wlp_bind, ready_any. intros r Hr.
  destruct (Z.ltb_spec r 0); [cbn; lia |]. cbn. autorewrite with cint. intros [bs |] l'.
  - intros (Hl & Hb & ->). destruct (fits_b blk o bs) eqn:Hf; [| done]. cbn.
    rewrite int32_small by (unfold is_int32; lia). rewrite (proj2 (Z.ltb_ge _ 0)) by lia. cbn.
    split; [lia |]. intros _. exists bs. split; [done |]. split; [by apply fits_b_spec | done].
  - cbn. intros _. lia.
Qed.

Lemma read_loop_any fuel got blk o n l l0 :
  len got <= n <= int_max -> fits blk o got -> Forall is_byte got ->
  l = l0 ++ at_fd fd (ins got) ->
  wlp anyone (read_loop fuel fd (splice blk o got) o n ms (len got)) l (filled blk o n l0).
Proof.
  revert got l. induction fuel as [| fuel IH]; intros got l Hn Hf Hb ->; [done |].
  cbn [read_loop]. eapply wlp_seq; [apply read_t_any; lia |]. intros [i blk'] l' [Hin Hr].
  cbn in Hin, Hr. destruct (Z.leb_spec i 0).
  - split; cbn; [lia |]. intros Hi.
    destruct Hr as (bs & [Hl Hbs] & Hfb & Hs & ->); [lia |]. exists got.
    assert (bs = []) as -> by (destruct bs; [done | cbn [length] in Hl; lia]).
    cbn. rewrite splice_nil in Hs. rewrite app_nil_r. repeat split; try done; lia || apply Hf.
  - destruct Hr as (bs & [Hl Hbs] & Hfb & Hs & ->); [lia |]. destruct Hf as [Ho Hf], Hfb as [_ Hfb].
    rewrite length_splice in Hfb by done.
    assert (Hf' : fits blk o (got ++ bs)) by (split; rewrite ?len_app; lia).
    assert (Hlog : (l0 ++ at_fd fd (ins got)) ++ at_fd fd (ins bs)
      = l0 ++ at_fd fd (ins (got ++ bs))) by (by rewrite <- app_assoc, <- at_fd_app, <- ins_app).
    assert (Hbb : Forall is_byte (got ++ bs)) by (by apply Forall_app).
    subst blk'. rewrite splice_app by done. subst i. rewrite <- len_app.
    destruct (Z.ltb_spec (len (got ++ bs)) n) as [| Hge].
    + apply IH; [rewrite len_app in *; lia | done..].
    + split; cbn; [rewrite len_app in *; lia |]. intros _. exists (got ++ bs). split; [| done].
      split; [| done]. rewrite len_app in *. lia.
Qed.

Lemma read_fill_any blk o n l : 0 <= n <= int_max -> 0 <= o <= len blk ->
  wlp anyone (ei_read_fill_t fd blk o n ms) l (filled blk o n l).
Proof.
  intros Hn Ho. unfold ei_read_fill_t. rewrite <- (splice_nil blk o) at 1.
  apply (read_loop_any _ [] blk o); [cbn; lia | split; cbn; lia | done | by rewrite app_nil_r].
Qed.

Lemma set_nonblocking_any {A} on (k : unit -> proc A) l Q :
  wlp anyone (k tt) l Q -> wlp anyone (bindP (set_nonblocking fd on ms) k) l Q.
Proof.
  intros Hk. unfold set_nonblocking. destruct (ms =? 0); [done |]. cbn. by intros [] l' ->.
Qed.

Definition written (bs : list Z) (n : Z) (l : log) (r : Z) (l' : log) : Prop :=
  r = n -> l' = l ++ at_fd fd (outs (take (Z.to_nat n) bs)).

Lemma write_t_any bs n l : 0 <= n <= int_max ->
  wlp anyone (ei_write_t fd bs n ms) l (fun r l' =>
    0 <= r -> r <= n /\ l' = l ++ at_fd fd (outs (take (Z.to_nat r) bs))).
Proof.
  intros Hn. unfold ei_write_t. unfold int_max in Hn. apply wlp_bind, ready_any. intros r Hr.
  destruct (Z.ltb_spec r 0); [cbn; lia |]. autorewrite with cint.
  destruct (Z.ltb_spec (len bs) n); [done |]. cbn. intros x l'.
  rewrite length_take. intros [Hx ->]. rewrite int32_small by (unfold is_int32; lia).
  destruct (Z.ltb_spec x 0); cbn; [lia |]. intros _. split; [lia |].
  rewrite take_take. do 4 f_equal. lia.
Qed.

Lemma write_loop_any fuel buf n got l l0 :
  0 <= got <= n -> n <= int_max -> l = l0 ++ at_fd fd (outs (take (Z.to_nat got) buf)) ->
  wlp anyone (write_loop fuel fd buf n ms got) l (written buf n l0).
Proof.
  revert got l. induction fuel as [| fuel IH]; intros got l Hd Hn ->; [done |].
  cbn [write_loop]. eapply wlp_seq; [apply write_t_any; lia |]. intros i l' Hi.
  assert (Hlog : 0 <= i -> l' = l0 ++ at_fd fd (outs (take (Z.to_nat (got + i)) buf))).
  { intros Hi'. destruct (Hi Hi') as [_ ->].
    rewrite <- app_assoc, <- at_fd_app, <- outs_app, take_take_drop. do 4 f_equal. lia. }
  destruct (Z.leb_spec i 0).
  - apply set_nonblocking_any. intros Hin. cbn in Hin. destruct Hi; [lia |].
    rewrite Hlog by lia. do 4 f_equal. lia.
  - destruct Hi; [lia |]. destruct (Z.ltb_spec (got + i) n).
    + apply IH; [lia | done | apply Hlog; lia].
    + apply set_nonblocking_any. intros _. rewrite Hlog by lia. do 4 f_equal. lia.
Qed.

Lemma write_fill_any buf n l : 0 <= n <= int_max ->
  wlp anyone (ei_write_fill_t fd buf n ms) l (written buf n l).
Proof.
  intros Hn. unfold ei_write_fill_t. apply set_nonblocking_any.
  apply write_loop_any; [lia.. |]. cbn. by rewrite app_nil_r.
Qed.
End Anyone.
