(* ===== verification/Epmd.v ===== *)
(** * epmd/: the port mapper's client

    epmd_port.c asks for the port of a node, epmd_publish.c registers this node and
    keeps the connection, epmd_unpublish.c takes it away. *)

From S2P Require Import Prelude Mem PutGet Ext Format Proc PortIO.

Definition EI_DIST_HIGH : Z := 5.
Definition EI_DIST_LOW : Z := 1.
Definition EPMD_PORT : Z := 4369.
Definition EPMDBUF : Z := 512.
Definition EI_MYPROTO : Z := 0.
Definition EI_EPMD_ALIVE2_REQ : Z := 120.
Definition EI_EPMD_ALIVE2_RESP : Z := 121.
Definition EI_EPMD_PORT2_REQ : Z := 122.
Definition EI_EPMD_PORT2_RESP : Z := 119.
Definition EI_EPMD_STOP_REQ : Z := 115.
Definition INADDR_LOOPBACK : list Z := [127; 0; 0; 1].

(** The values of errno.h. *)
Definition EIO : Z := 5.
Definition ENOMEM : Z := 12.
Definition ERANGE : Z := 34.
Definition ETIMEDOUT : Z := 110.

(** [erl_errno = (res == -2) ? ETIMEDOUT : EIO;] *)
Definition io_errno (res : Z) : proc unit :=
  set_errno (if res =? -2 then ETIMEDOUT else EIO).

Fixpoint skip_white (s : list Z) : list Z :=
  match s with c :: s' => if isspace c then skip_white s' else s | [] => [] end.

(** A number that an [int] does not hold is undefined. *)
Definition atoi (s : list Z) : option Z :=
  n ← sscanf_ld (skip_white (c_str s));
  if (-2147483648 <=? n) && (n <=? 2147483647) then Some n else None.

Definition str_ERL_EPMD_PORT : list Z :=
  [69; 82; 76; 95; 69; 80; 77; 68; 95; 80; 79; 82; 84].

Definition set_epmd_port (port : Z) : proc unit :=
  let! g := ask r_get in
  ask (r_set (Globals (erl_errno g) (ei_sockets g) (ei_sz_sockets g) (save_token g)
                (tracing g) (clock g) port (compat_rel g))).

Definition get_epmd_port : proc Z :=
  let! g := ask r_get in
  if epmd_port g =? 0 then
    let! port_str := ask (r_getenv str_ERL_EPMD_PORT) in
    let! port := (match port_str with
                  | Some s => lift_opt (atoi s)
                  | None => Ret EPMD_PORT
                  end) in
    let! _ := set_epmd_port (uint32 port) in
    Ret (uint32 port)
  else Ret (epmd_port g).

(** [inaddr] is NULL for this host. *)
Definition ei_epmd_connect_tmo (inaddr : option (list Z)) (ms : Z) : proc Z :=
  let! port := get_epmd_port in
  let addr := default INADDR_LOOPBACK inaddr in
  let! sd := ask r_socket in
  if sd <? 0 then
    let! e := ask r_errno in
    let! _ := set_errno e in Ret (-1)
  else
  let! res := ei_connect_t sd addr (uwrap 16 port) ms in
  if res <? 0 then
    let! e := (if res =? -2 then Ret ETIMEDOUT else ask r_errno) in
    let! _ := set_errno e in
    let! _ := ask (r_close sd) in Ret (-1)
  else Ret sd.

(** ** The port of a node *)

(** The return value, and what is stored through [dist]. *)
Definition ei_epmd_r4_port (addr : option (list Z)) (alive : list Z) (dist ms : Z)
    : proc (Z * Z) :=
  let! buf := ask (r_array EPMDBUF) in
  let len := int32 (strlen alive + 1) in
  if EPMDBUF - 3 <? uint64 len then
    let! _ := set_errno ERANGE in Ret (-1, dist)
  else
  let! (_, buf) := lift_M (let* s := put16be (at_off 0) len in
                           let* s := put8 s EI_EPMD_PORT2_REQ in
                           memcpy s (c_str alive ++ [0])) buf in
  let! fd := ei_epmd_connect_tmo addr ms in
  if fd <? 0 then Ret (-1, dist) else
  let! res := ei_write_fill_t fd buf (len + 2) ms in
  if negb (res =? len + 2) then
    let! _ := ask (r_close fd) in
    let! _ := io_errno res in Ret (-1, dist)
  else
  let! (res, buf) := ei_read_fill_t fd buf 0 2 ms in
  if negb (res =? 2) then
    let! _ := io_errno res in
    let! _ := ask (r_close fd) in Ret (-2, dist)
  else
  let! (res, s) := lift_D (get8 0) buf in
  if negb (res =? EI_EPMD_PORT2_RESP) then
    let! _ := ask (r_close fd) in
    let! _ := set_errno EIO in Ret (-1, dist)
  else
  let! (res, s) := lift_D (get8 s) buf in
  if negb (res =? 0) then
    let! _ := ask (r_close fd) in
    let! _ := set_errno EIO in Ret (-1, dist)
  else
  let! (res, buf) := ei_read_fill_t fd buf 0 8 ms in
  if negb (res =? 8) then
    let! _ := io_errno res in
    let! _ := ask (r_close fd) in Ret (-1, dist)
  else
  let! _ := ask (r_close fd) in
  let! (port, s) := lift_D (get16be 0) buf in
  let! (_, s) := lift_D (get8 s) buf in
  let! (proto, s) := lift_D (get8 s) buf in
  let! (dist_high, s) := lift_D (get16be s) buf in
  let! (dist_low, s) := lift_D (get16be s) buf in
  if negb (EI_MYPROTO =? proto) then
    let! _ := set_errno EIO in Ret (-1, dist)
  else if (EI_DIST_HIGH <? dist_low) || (dist_high <? EI_DIST_LOW) then
    let! _ := set_errno EIO in Ret (-1, dist)
  else
  Ret (port, if EI_DIST_HIGH <? dist_high then EI_DIST_HIGH else dist_high).

Definition ei_epmd_port_tmo (addr : option (list Z)) (alive : list Z) (dist ms : Z)
    : proc (Z * Z) := ei_epmd_r4_port addr alive dist ms.

Definition ei_epmd_port (addr : option (list Z)) (alive : list Z) (dist : Z) : proc (Z * Z) :=
  ei_epmd_port_tmo addr alive dist 0.

(** ** Publishing this node *)

Definition ei_epmd_r4_publish (port : Z) (alive : list Z) (ms : Z) : proc Z :=
  let! buf := ask (r_array EPMDBUF) in
  let elen := 0 in
  let nlen := int32 (strlen alive) in
  let len := int32 (elen + nlen + 13) in
  if EPMDBUF - 2 <? uint64 len then
    let! _ := set_errno ERANGE in Ret (-1)
  else
  let! (_, buf) := lift_M (let* s := put16be (at_off 0) len in
                           let* s := put8 s EI_EPMD_ALIVE2_REQ in
                           let* s := put16be s port in
                           let* s := put8 s 104 in
                           let* s := put8 s EI_MYPROTO in
                           let* s := put16be s EI_DIST_HIGH in
                           let* s := put16be s EI_DIST_LOW in
                           let* s := put16be s nlen in
                           let* _ := memcpy s (c_str alive ++ [0]) in
                           put16be (padd s nlen) elen) buf in
  let! fd := ei_epmd_connect_tmo None ms in
  if fd <? 0 then Ret fd else
  let! res := ei_write_fill_t fd buf (len + 2) ms in
  if negb (res =? len + 2) then
    let! _ := ask (r_close fd) in
    let! _ := io_errno res in Ret (-1)
  else
  let! (n, buf) := ei_read_fill_t fd buf 0 4 ms in
  if negb (n =? 4) then
    let! _ := ask (r_close fd) in
    let! _ := io_errno n in Ret (-2)
  else
  let! (res, s) := lift_D (get8 0) buf in
  if negb (res =? EI_EPMD_ALIVE2_RESP) then
    let! _ := ask (r_close fd) in
    let! _ := set_errno EIO in Ret (-1)
  else
  let! (res, s) := lift_D (get8 s) buf in
  if negb (res =? 0) then
    let! _ := ask (r_close fd) in
    let! _ := set_errno EIO in Ret (-1)
  else
  let! _ := lift_D (get16be s) buf in
  Ret fd.

Definition ei_epmd_publish_tmo (port : Z) (alive : list Z) (ms : Z) : proc Z :=
  ei_epmd_r4_publish port alive ms.
Definition ei_epmd_publish (port : Z) (alive : list Z) : proc Z :=
  ei_epmd_publish_tmo port alive 0.
Definition ei_publish_tmo (ec : ei_cnode) (port ms : Z) : proc Z :=
  ei_epmd_publish_tmo port (thisalivename ec) ms.
Definition ei_publish (ec : ei_cnode) (port : Z) : proc Z :=
  ei_epmd_publish port (thisalivename ec).

(** ** Taking it away *)

Definition str_STOPPED : list Z := [83; 84; 79; 80; 80; 69; 68].
Definition str_NOEXIST : list Z := [78; 79; 69; 88; 73; 83; 84].

(** [strcmp(lit, buf)] is zero. *)
Definition streq (lit buf : list Z) : bool := bool_decide (lit = c_str buf).

Definition ei_unpublish_tmo (alive : list Z) (ms : Z) : proc Z :=
  let! buf := ask (r_array EPMDBUF) in
  let len := int32 (1 + strlen alive) in
  if EPMDBUF - 3 <? uint64 len then
    let! _ := set_errno ERANGE in Ret (-1)
  else
  let! (_, buf) := lift_M (let* s := put16be (at_off 0) len in
                           let* s := put8 s EI_EPMD_STOP_REQ in
                           memcpy s (c_str alive ++ [0])) buf in
  let! fd := ei_epmd_connect_tmo None ms in
  if fd <? 0 then Ret fd else
  let! res := ei_write_fill_t fd buf (len + 2) ms in
  if negb (res =? len + 2) then
    let! _ := ask (r_close fd) in
    let! _ := io_errno res in Ret (-1)
  else
  let! (res, buf) := ei_read_fill_t fd buf 0 7 ms in
  if negb (res =? 7) then
    let! _ := ask (r_close fd) in
    let! _ := io_errno res in Ret (-1)
  else
  let! _ := ask (r_close fd) in
  let! (_, buf) := lift_M (store (at_off 7) 0) buf in
  if streq str_STOPPED buf then Ret 0
  else
    let! _ := set_errno EIO in Ret (-1).

Definition ei_unpublish (ec : ei_cnode) : proc Z := ei_unpublish_tmo (thisalivename ec) 0.
