(* ===== verification/Connect.v ===== *)
(** * connect/ei_connect.c: the table of connections and the handshake

    [ei_xconnect_tmo] makes a connection and [ei_accept_tmo] takes one; both then
    exchange five packages of a two-byte length and a tag: the name of the caller,
    a status, a challenge with the name of the other, the answer to it with a
    challenge of the caller, and the answer to that. An answer is the MD5 digest of
    the cookie followed by the challenge in decimal. *)

From S2P Require Import Prelude Mem PutGet Ext MD5 Print Proc PortIO Epmd.

Definition DEFBUF_SIZ : Z := 100.
Definition EI_MAXHOSTNAMELEN : Z := 64.
Definition EI_MAXALIVELEN : Z := 63.
Definition EI_MAX_COOKIE_SIZE : Z := 512.
Definition MAXNODELEN : Z := EI_MAXALIVELEN + 1 + EI_MAXHOSTNAMELEN.

Definition ERL_ERROR : Z := -1.
Definition ERL_NO_PORT : Z := -3.
Definition ERL_CONNECT_FAIL : Z := -4.

Definition DFLAG_EXTENDED_REFERENCES : Z := 4.
Definition DFLAG_DIST_MONITOR : Z := 8.
Definition DFLAG_FUN_TAGS : Z := 16.
Definition DFLAG_NEW_FUN_TAGS : Z := 0x80.
Definition DFLAG_EXTENDED_PIDS_PORTS : Z := 0x100.
Definition DFLAG_NEW_FLOATS : Z := 0x800.
Definition DFLAG_SMALL_ATOM_TAGS : Z := 0x4000.
Definition DFLAG_UTF8_ATOMS : Z := 0x10000.
Definition DFLAG_MAP_TAG : Z := 0x20000.
Definition DFLAG_BIG_CREATION : Z := 0x40000.

(** The name is the array up to its final zero. *)
Record ErlConnect := ErlConn { ipadr : list Z; nodename : list Z }.

(** ** The table *)

Definition ei_socket_info_size : Z := 2336.

Definition set_sockets (l : list ei_socket_info) (sz : Z) : proc unit :=
  let! g := ask r_get in
  ask (r_set (Globals (erl_errno g) l sz (save_token g) (tracing g) (clock g) (epmd_port g)
                (compat_rel g))).

(** The first element of [fd], and its place. *)
Definition socket_at (fd : Z) (l : list ei_socket_info) : option (nat * ei_socket_info) :=
  list_find (fun e => sock e = fd) l.

(** [memmove(&ei_sockets[i], &ei_sockets[i+1], ...)]: the last element stays. *)
Definition shift_down (i : nat) (l : list ei_socket_info) : list ei_socket_info :=
  take i l ++ drop (i + 1) l ++ drop (length l - 1) l.

Definition put_ei_socket_info (fd dist_version : Z) (cookie : list Z) (ec : ei_cnode) : proc Z :=
  let! g := ask r_get in
  let l := ei_sockets g in
  match socket_at fd l with
  | Some (i, _) =>
      if dist_version =? -1 then
        let! _ := set_sockets (shift_down i l) (ei_sz_sockets g) in Ret 0
      else if EI_MAX_COOKIE_SIZE <? strlen cookie then Undef
      else
        let! _ := set_sockets (<[i := SockInfo fd dist_version ec (c_str cookie)]> l)
                    (ei_sz_sockets g) in Ret 0
  | None =>
      if len l =? ei_sz_sockets g then
        let sz := ei_sz_sockets g + 5 in
        let! m := ask (r_malloc (uint64 (ei_socket_info_size * sz))) in
        match m with
        | None => let! _ := set_sockets [] 0 in Ret (-1)
        | Some _ =>
            if EI_MAX_COOKIE_SIZE <? strlen cookie then Undef else
            let! _ := set_sockets (l ++ [SockInfo fd dist_version ec (c_str cookie)]) sz in Ret 0
        end
      else Ret 0
  end.

Definition get_ei_socket_info (fd : Z) : proc (option ei_socket_info) :=
  let! g := ask r_get in Ret (snd <$> socket_at fd (ei_sockets g)).

Definition ei_fd_to_cnode (fd : Z) : proc (option ei_cnode) :=
  let! sockinfo := get_ei_socket_info fd in Ret (cnode <$> sockinfo).

Definition ei_distversion (fd : Z) : proc Z :=
  let! e := get_ei_socket_info fd in
  match e with None => Ret (-1) | Some e => Ret (dist_version e) end.

Definition ei_cookie (fd : Z) : proc (option (list Z)) :=
  let! e := get_ei_socket_info fd in Ret (cookie <$> e).

Definition ei_getfdcookie (fd : Z) : proc (list Z) :=
  let! r := ei_cookie fd in Ret (default [] r).

(** ** Challenges and digests *)

(** [%u] *)
Definition printf_u (n : Z) : list Z := radix 10 20 (uint32 n) [].

(** [digest.x[i]]: the words of the digest on a little-endian machine. *)
Definition md_32 (string : list Z) (length : Z) : proc Z :=
  let! garbage := ask (r_array 64) in
  let! ctx := lift_opt (ei_MD5Update (ei_MD5Init garbage) string (uint32 length)) in
  let! (digest, _) := lift_opt (ei_MD5Final ctx) in
  let x i := le_val (take 4 (drop (4 * i) digest)) in
  Ret (Z.lxor (Z.lxor (Z.lxor (x 0%nat) (x 1%nat)) (x 2%nat)) (x 3%nat)).

Definition gen_challenge : proc Z :=
  let! s := ask r_info in md_32 s (len s).

Definition gen_digest (challenge : Z) (cookie : list Z) : proc (list Z) :=
  let chbuf := printf_u challenge in
  let! garbage := ask (r_array 64) in
  let! c := lift_opt (ei_MD5Update (ei_MD5Init garbage) cookie (uint32 (strlen cookie))) in
  let! c := lift_opt (ei_MD5Update c chbuf (uint32 (len chbuf))) in
  let! (digest, _) := lift_opt (ei_MD5Final c) in
  Ret digest.

(** ** Packages *)

(** The buffer of a package that comes: its bytes, [buflen], [is_static]. *)
Record package := Package { buf : list Z; buflen : Z; is_static : bool }.

Definition new_package : proc package :=
  let! dbuf := ask (r_array DEFBUF_SIZ) in Ret (Package dbuf DEFBUF_SIZ true).

(** A buffer of [n] bytes, or NULL. *)
Definition grow_package (p : package) (n : Z) : proc (option package) :=
  if buflen p <? n then
    let! tmp := (if is_static p then ask (r_malloc n) else ask (r_realloc (buf p) n)
                 : proc (option (list Z))) in
    match tmp with
    | None => Ret None
    | Some b => Ret (Some (Package b n false))
    end
  else Ret (Some p).

(** The length of the package, or -1. *)
Definition read_2byte_package (fd : Z) (p : package) (ms : Z) : proc (Z * package) :=
  let! nbuf := ask (r_array 2) in
  let! (res, nbuf) := ei_read_fill_t fd nbuf 0 2 ms in
  if negb (res =? 2) then
    let! _ := io_errno res in Ret (-1, p)
  else
  let! (n, _) := lift_D (get16be 0) nbuf in
  let! r := grow_package p n in
  match r with
  | None => let! _ := set_errno ENOMEM in Ret (-1, p)
  | Some p =>
      let! (res, b) := ei_read_fill_t fd (buf p) 0 n ms in
      let p := Package b (buflen p) (is_static p) in
      if negb (uint32 res =? n) then
        let! _ := io_errno res in Ret (-1, p)
      else Ret (n, p)
  end.

(** A package of [siz] bytes that goes: its buffer, or NULL. *)
Definition out_buffer (siz : Z) : proc (option (list Z)) :=
  if DEFBUF_SIZ <? siz then ask (r_malloc (uint64 siz))
  else let! dbuf := ask (r_array DEFBUF_SIZ) in Ret (Some dbuf).

Definition send_package (fd : Z) (b : list Z) (siz ms : Z) : proc Z :=
  let! res := ei_write_fill_t fd b siz ms in
  if negb (res =? siz) then
    let! _ := io_errno res in Ret (-1)
  else Ret 0.

(** [fill] stores the package in its buffer. *)
Definition make_and_send (fd siz : Z) (fill : ptr -> M unit) (ms : Z) : proc Z :=
  let! b := out_buffer siz in
  match b with
  | None => let! _ := set_errno ENOMEM in Ret (-1)
  | Some b =>
      let! (_, b) := lift_M (fill (at_off 0)) b in
      send_package fd b siz ms
  end.

(** ** The messages of the handshake *)

Definition send_status (fd : Z) (status : list Z) (ms : Z) : proc Z :=
  let siz := int32 (strlen status + 1 + 2) in
  make_and_send fd siz (fun s =>
    let* s := put16be s (siz - 2) in
    let* s := put8 s 115 in
    memcpy s (c_str status)) ms.

Definition recv_status (fd ms : Z) : proc Z :=
  let! p := new_package in
  let! (rlen, p) := read_2byte_package fd p ms in
  if rlen <=? 0 then Ret (-1) else
  if rlen =? 3 then
    let! (b0, _) := lift_D (get8 0) (buf p) in
    let! (b1, _) := lift_D (get8 1) (buf p) in
    let! (b2, _) := lift_D (get8 2) (buf p) in
    Ret (if (b0 =? 115) && (b1 =? 111) && (b2 =? 107) then 0 else -1)
  else Ret (-1).

Definition our_flags : Z :=
  fold_right Z.lor 0
    [DFLAG_EXTENDED_REFERENCES; DFLAG_DIST_MONITOR; DFLAG_EXTENDED_PIDS_PORTS;
     DFLAG_FUN_TAGS; DFLAG_NEW_FUN_TAGS; DFLAG_NEW_FLOATS; DFLAG_SMALL_ATOM_TAGS;
     DFLAG_UTF8_ATOMS; DFLAG_MAP_TAG; DFLAG_BIG_CREATION].

Definition send_name_or_challenge (fd : Z) (nodename : list Z) (f_chall : bool)
    (challenge version ms : Z) : proc Z :=
  let siz := int32 (2 + 1 + 2 + 4 + strlen nodename) in
  let siz := if f_chall then siz + 4 else siz in
  make_and_send fd siz (fun s =>
    let* s := put16be s (siz - 2) in
    let* s := put8 s 110 in
    let* s := put16be s version in
    let* s := put32be s our_flags in
    let* s := (if f_chall then put32be s challenge else retM s) in
    memcpy s (c_str nodename)) ms.

Definition send_name (fd : Z) (nodename : list Z) (version ms : Z) : proc Z :=
  send_name_or_challenge fd nodename false 0 version ms.

Definition send_challenge (fd : Z) (nodename : list Z) (challenge version ms : Z) : proc Z :=
  send_name_or_challenge fd nodename true challenge version ms.

Definition EI_COMPAT_NO_REL : Z := 4294967295.

Definition ei_set_compat_rel (rel : Z) : proc unit :=
  let! g := ask r_get in
  if compat_rel g =? EI_COMPAT_NO_REL then
    ask (r_set (Globals (erl_errno g) (ei_sockets g) (ei_sz_sockets g) (save_token g)
                  (tracing g) (clock g) (epmd_port g) rel))
  else Ret tt.

Definition use_r9_pids_ports : proc bool :=
  let! g := ask r_get in Ret (compat_rel g <? 10).

(** [getpeername] and the copy of the [n] bytes of the name behind [s]. *)
Definition peer_name (fd : Z) (b : list Z) (s n : Z) : proc (option ErlConnect) :=
  let! (res, ip) := ask (r_getpeername fd) in
  if res <? 0 then
    let! e := ask r_errno in
    let! _ := set_errno e in Ret None
  else
    let! name := lift_D (load_bytes s n) b in
    let! _ := set_errno 0 in
    Ret (Some (ErlConn ip name)).

(** The version, the flags, the challenge and the name. *)
Definition recv_challenge (fd ms : Z) : proc (option (Z * Z * Z * ErlConnect)) :=
  let! _ := set_errno EIO in
  let! p := new_package in
  let! (rlen, p) := read_2byte_package fd p ms in
  if rlen <=? 0 then Ret None else
  if MAXNODELEN <? rlen - 11 then Ret None else
  let! (tag, s) := lift_D (get8 0) (buf p) in
  if negb (tag =? 110) then Ret None else
  let! (version, s) := lift_D (get16be s) (buf p) in
  let! (flags, s) := lift_D (get32be s) (buf p) in
  let flags := uint32 flags in
  let! (challenge, s) := lift_D (get32be s) (buf p) in
  let challenge := uint32 challenge in
  if Z.land flags DFLAG_EXTENDED_REFERENCES =? 0 then Ret None else
  let! r9 := (if Z.land flags DFLAG_EXTENDED_PIDS_PORTS =? 0 then use_r9_pids_ports else Ret true) in
  if negb r9 then let! _ := set_errno EIO in Ret None else
  if Z.land flags DFLAG_NEW_FLOATS =? 0 then Ret None else
  let! namebuf := peer_name fd (buf p) s (rlen - 11) in
  Ret ((fun c => (version, flags, challenge, c)) <$> namebuf).

Definition recv_name (fd ms : Z) : proc (option (Z * Z * ErlConnect)) :=
  let! _ := set_errno EIO in
  let! p := new_package in
  let! (rlen, p) := read_2byte_package fd p ms in
  if rlen <=? 0 then Ret None else
  if MAXNODELEN <? rlen - 7 then Ret None else
  let! (tag, s) := lift_D (get8 0) (buf p) in
  if negb (tag =? 110) then Ret None else
  let! (version, s) := lift_D (get16be s) (buf p) in
  let! (flags, s) := lift_D (get32be s) (buf p) in
  let flags := uint32 flags in
  if Z.land flags DFLAG_EXTENDED_REFERENCES =? 0 then Ret None else
  let! r9 := (if Z.land flags DFLAG_EXTENDED_PIDS_PORTS =? 0 then use_r9_pids_ports else Ret true) in
  if negb r9 then let! _ := set_errno EIO in Ret None else
  let! namebuf := peer_name fd (buf p) s (rlen - 7) in
  Ret ((fun c => (version, flags, c)) <$> namebuf).

Definition send_challenge_reply (fd : Z) (digest : list Z) (challenge ms : Z) : proc Z :=
  let siz := 2 + 1 + 4 + 16 in
  make_and_send fd siz (fun s =>
    let* s := put16be s (siz - 2) in
    let* s := put8 s 114 in
    let* s := put32be s challenge in
    memcpy s digest) ms.

Definition recv_challenge_reply (fd our_challenge : Z) (cookie : list Z) (ms : Z)
    : proc (option Z) :=
  let! _ := set_errno EIO in
  let! p := new_package in
  let! (rlen, p) := read_2byte_package fd p ms in
  if negb (rlen =? 21) then Ret None else
  let! (tag, s) := lift_D (get8 0) (buf p) in
  if negb (tag =? 114) then Ret None else
  let! (her_challenge, s) := lift_D (get32be s) (buf p) in
  let! her_digest := lift_D (load_bytes s 16) (buf p) in
  let! expected_digest := gen_digest our_challenge cookie in
  if negb (bool_decide (her_digest = expected_digest)) then Ret None else
  let! _ := set_errno 0 in
  Ret (Some (uint32 her_challenge)).

Definition send_challenge_ack (fd : Z) (digest : list Z) (ms : Z) : proc Z :=
  let siz := 2 + 1 + 16 in
  make_and_send fd siz (fun s =>
    let* s := put16be s (siz - 2) in
    let* s := put8 s 97 in
    memcpy s digest) ms.

Definition recv_challenge_ack (fd our_challenge : Z) (cookie : list Z) (ms : Z) : proc Z :=
  let! _ := set_errno EIO in
  let! p := new_package in
  let! (rlen, p) := read_2byte_package fd p ms in
  if negb (rlen =? 17) then Ret (-1) else
  let! (tag, s) := lift_D (get8 0) (buf p) in
  if negb (tag =? 97) then Ret (-1) else
  let! her_digest := lift_D (load_bytes s 16) (buf p) in
  let! expected_digest := gen_digest our_challenge cookie in
  if negb (bool_decide (her_digest = expected_digest)) then Ret (-1) else
  let! _ := set_errno 0 in
  Ret 0.

(** ** The two ends *)

Definition cnct (port : Z) (ip_addr : list Z) (ms : Z) : proc Z :=
  let! s := ask r_socket in
  if s <? 0 then
    let! e := ask r_errno in
    let! _ := set_errno e in Ret ERL_ERROR
  else
  let! res := ei_connect_t s ip_addr port ms in
  if res <? 0 then
    let! _ := io_errno res in
    let! _ := ask (r_close s) in Ret ERL_ERROR
  else Ret s.

(** [goto error] *)
Definition connect_error (sockd : Z) : proc Z :=
  let! _ := ask (r_close sockd) in Ret ERL_ERROR.

Definition null_cookie : list Z := [].

Definition IPPROTO_TCP : Z := 6.
Definition TCP_NODELAY : Z := 1.
Definition SOL_SOCKET : Z := 1.
Definition SO_KEEPALIVE : Z := 9.

Definition ei_xconnect_tmo (ec : ei_cnode) (ip_addr alivename : list Z) (ms : Z) : proc Z :=
  let! _ := set_errno EIO in
  let! (rport, dist) := ei_epmd_port_tmo (Some ip_addr) alivename 0 ms in
  if rport <? 0 then Ret ERL_NO_PORT else
  let! sockd := cnct (uwrap 16 rport) ip_addr ms in
  if sockd <? 0 then Ret ERL_CONNECT_FAIL else
  if dist <=? 4 then connect_error sockd else
  let! r := send_name sockd (thisnodename ec) (uint32 dist) ms in
  if negb (r =? 0) then connect_error sockd else
  let! r := recv_status sockd ms in
  if negb (r =? 0) then connect_error sockd else
  let! r := recv_challenge sockd ms in
  match r with
  | None => connect_error sockd
  | Some (_, _, her_challenge, _) =>
      let! our_challenge := gen_challenge in
      let! our_digest := gen_digest her_challenge (ei_connect_cookie ec) in
      let! r := send_challenge_reply sockd our_digest our_challenge ms in
      if negb (r =? 0) then connect_error sockd else
      let! r := recv_challenge_ack sockd our_challenge (ei_connect_cookie ec) ms in
      if negb (r =? 0) then connect_error sockd else
      let! _ := put_ei_socket_info sockd dist null_cookie ec in
      let! _ := ask (r_setsockopt sockd IPPROTO_TCP TCP_NODELAY) in
      let! _ := ask (r_setsockopt sockd SOL_SOCKET SO_KEEPALIVE) in
      let! _ := set_errno 0 in
      Ret sockd
  end.

Definition ei_xconnect (ec : ei_cnode) (ip_addr alivename : list Z) : proc Z :=
  ei_xconnect_tmo ec ip_addr alivename 0.

Definition str_ok : list Z := [111; 107].

Definition accept_error (fd : Z) : proc (Z * option ErlConnect) :=
  if 0 <=? fd then let! _ := ask (r_close fd) in Ret (ERL_ERROR, None) else Ret (ERL_ERROR, None).

(** The return value, and what is stored in [conp]. *)
Definition ei_accept_tmo (ec : ei_cnode) (lfd ms : Z) : proc (Z * option ErlConnect) :=
  let! _ := set_errno EIO in
  let! fd := ei_accept_t lfd ms in
  if fd <? 0 then
    let! _ := io_errno fd in accept_error fd
  else
  let! r := recv_name fd ms in
  match r with
  | None => accept_error fd
  | Some (her_version, _, her_name) =>
      if her_version <=? 4 then accept_error fd else
      let! r := send_status fd str_ok ms in
      if negb (r =? 0) then accept_error fd else
      let! our_challenge := gen_challenge in
      let! r := send_challenge fd (thisnodename ec) our_challenge her_version ms in
      if negb (r =? 0) then accept_error fd else
      let! r := recv_challenge_reply fd our_challenge (ei_connect_cookie ec) ms in
      match r with
      | None => accept_error fd
      | Some her_challenge =>
          let! our_digest := gen_digest her_challenge (ei_connect_cookie ec) in
          let! r := send_challenge_ack fd our_digest ms in
          if negb (r =? 0) then accept_error fd else
          let! _ := put_ei_socket_info fd her_version null_cookie ec in
          let! _ := set_errno 0 in
          Ret (fd, Some her_name)
      end
  end.

Definition ei_accept (ec : ei_cnode) (lfd : Z) : proc (Z * option ErlConnect) :=
  ei_accept_tmo ec lfd 0.
