(* ===== verification/ConnectOk.v ===== *)
(** * The handshake: its packages, and what each function does with them

    The bytes of the five packages; each function of Connect.v sends or takes its
    package when the connection follows a script, and, with any peer, succeeds only
    on such a package. *)

From S2P Require Import Prelude Mem PutGet Ext MD5 MD5Ok Print PrintOk Proc Session PortIO Epmd Connect.

(** ** The packages *)

Definition pkg (body : list Z) : list Z := be16 (len body) ++ body.

Definition name_body (version flags : Z) (name : list Z) : list Z :=
  110 :: be16 version ++ be32 flags ++ name.
Definition status_body : list Z := 115 :: str_ok.
Definition challenge_body (version flags challenge : Z) (name : list Z) : list Z :=
  110 :: be16 version ++ be32 flags ++ be32 challenge ++ name.
Definition reply_body (challenge : Z) (digest : list Z) : list Z := 114 :: be32 challenge ++ digest.
Definition ack_body (digest : list Z) : list Z := 97 :: digest.

(** What the owner of [cookie] answers to a challenge. *)
Definition answer_to (cookie : list Z) (challenge : Z) : list Z :=
  md5 (c_str cookie ++ printf_u challenge).

(** The challenge that gen_challenge makes of what it sees. *)
Definition challenge_of (info : list Z) : Z :=
  let x i := le_val (take 4 (drop (4 * i) (md5 info))) in
  Z.lxor (Z.lxor (Z.lxor (x 0%nat) (x 1%nat)) (x 2%nat)) (x 3%nat).

(** ** Digests *)

Lemma printf_u_chars n : Forall is_byte (printf_u n) /\ len (printf_u n) <= 20.
Proof.
  assert (Hn : 0 <= uint32 n) by apply Z.mod_pos_bound, eq_refl.
  destruct (radix_chars 10 20 (uint32 n) [] ltac:(lia) Hn nil_chars) as [Hc Hl].
  split; [by apply chars_bytes |]. unfold printf_u. cbn [length] in Hl. lia.
Qed.

Lemma length_md5 msg : length (md5 msg) = 16%nat.
Proof. unfold md5, md5_words. by destruct (md5_run _ _ _) as [[[? ?] ?] ?]. Qed.

Lemma md5_bytes msg : Forall is_byte (md5 msg).
Proof.
  unfold md5. induction (md5_words _) as [| w ws IH]; [constructor |].
  change (Forall is_byte (le_bytes 4 w ++ (ws ≫= le_bytes 4))). apply Forall_app. split; [| done]. apply (le_bytes_byte 4).
Qed.

Lemma digest_ok garbage cookie challenge :
  length garbage = 64%nat -> Forall is_byte cookie -> len cookie <= 4294967000 ->
  exists c c', ei_MD5Update (ei_MD5Init garbage) cookie (uint32 (strlen cookie)) = Some c /\
    ei_MD5Update c (printf_u challenge) (uint32 (len (printf_u challenge))) = Some c' /\
    ei_MD5Final c' = Some (answer_to cookie challenge, Ctx (0, 0, 0, 0) 0 0 (repeat 0 64)).
Proof.
  intros Hg Hb Hl. pose proof (strlen_le cookie). pose proof (printf_u_chars challenge) as [Hp ?].
  assert (0 <= strlen cookie) by (unfold strlen; lia).
  rewrite !uint32_small by (unfold is_uint32; lia).
  destruct (update_ok (ei_MD5Init garbage) [] cookie (strlen cookie)) as (c & Hc & Ok);
    [by apply init_ok | constructor | done | lia | lia |].
  cbn [app] in Ok. rewrite c_str_take in Ok.
  destruct (update_ok c (c_str cookie) (printf_u challenge) (len (printf_u challenge)))
    as (c' & Hc' & Ok'); [done | by apply c_str_byte | done | lia | lia |].
  rewrite Nat2Z.id, firstn_all in Ok'. exists c, c'. split; [done |]. split; [done |].
  apply final_ok; [done |]. apply Forall_app. split; [by apply c_str_byte | done].
Qed.

(** What a cookie must be: the array of an [ei_cnode]. *)
Definition cookie_ok (cookie : list Z) : Prop :=
  Forall is_byte cookie /\ len cookie <= EI_MAX_COOKIE_SIZE + 1.

Lemma block_length n bs : a_block n bs -> length bs = Z.to_nat n.
Proof. intros [? _]. lia. Qed.

Lemma wlp_gen_digest {A} challenge cookie (k : list Z -> proc A) l Q : cookie_ok cookie ->
  wlp anyone (k (answer_to cookie challenge)) l Q ->
  wlp anyone (bindP (gen_digest challenge cookie) k) l Q.
Proof.
  intros [Hb Hl] Hk. unfold EI_MAX_COOKIE_SIZE in Hl.
  unfold gen_digest. cbn [wlp bindP ask]. intros garbage l' [Hg ->].
  destruct (digest_ok garbage cookie challenge) as (c & c' & -> & Hc' & Hf);
    [by apply (block_length 64) | done | lia |].
  cbn [lift_opt bindP]. rewrite Hc'. cbn [lift_opt bindP]. by rewrite Hf.
Qed.

Lemma wp_gen_digest {S A} (L : env S) {W : Works L} challenge cookie (k : list Z -> proc A) s Q :
  cookie_ok cookie -> wp L (k (answer_to cookie challenge)) s Q ->
  wp L (bindP (gen_digest challenge cookie) k) s Q.
Proof.
  intros [Hb Hl] Hk. unfold EI_MAX_COOKIE_SIZE in Hl. apply wp_assoc.
  apply (wp_plain L); [done |]. intros garbage s' [Hg ->].
  destruct (digest_ok garbage cookie challenge) as (c & c' & -> & Hc' & Hf);
    [by apply (block_length 64) | done | lia |].
  cbn [lift_opt bindP]. rewrite Hc'. cbn [lift_opt bindP]. by rewrite Hf.
Qed.

Definition info_ok (info : list Z) : Prop := Forall is_byte info /\ len info <= 4294967000.

Lemma challenge_ok garbage info : length garbage = 64%nat -> info_ok info ->
  exists c, ei_MD5Update (ei_MD5Init garbage) info (uint32 (len info)) = Some c /\
    ei_MD5Final c = Some (md5 info, Ctx (0, 0, 0, 0) 0 0 (repeat 0 64)).
Proof.
  intros Hg [Hb Hl]. rewrite uint32_small by (unfold is_uint32; lia).
  destruct (update_ok (ei_MD5Init garbage) [] info (len info)) as (c & Hc & Ok);
    [by apply init_ok | constructor | done | lia | lia |].
  cbn [app] in Ok. rewrite Nat2Z.id, firstn_all in Ok. exists c. split; [done |].
  by apply final_ok.
Qed.

Lemma wp_gen_challenge {S A} (L : env S) {W : Works L} (k : Z -> proc A) s Q :
  info_ok the_info -> wp L (k (challenge_of the_info)) s Q ->
  wp L (bindP gen_challenge k) s Q.
Proof.
  intros Hi Hk. apply wp_assoc, (wp_plain L); [done |]. intros i s' [-> ->].
  apply wp_assoc, (wp_plain L); [done |]. intros garbage s' [Hg ->].
  destruct (challenge_ok garbage the_info) as (c & -> & Hf); [by apply (block_length 64) | done |].
  cbn [lift_opt bindP]. by rewrite Hf.
Qed.

(** ** Packages on a connection that follows a script *)

Lemma wp_lift_D {S A B} (L : env S) (m : D A) blk a (k : A -> proc B) s Q :
  m blk = Some a -> wp L (k a) s Q -> wp L (bindP (lift_D m blk) k) s Q.
Proof. unfold lift_D. by intros ->. Qed.
Lemma wp_lift_M {S A B} (L : env S) (m : M A) blk r (k : A * list Z -> proc B) s Q :
  m blk = Some r -> wp L (k r) s Q -> wp L (bindP (lift_M m blk) k) s Q.
Proof. unfold lift_M. by intros ->. Qed.

Lemma pkg_cons body : 1 <= len body -> exists b bs, pkg body = b :: bs.
Proof. intros. by eexists _, _. Qed.

Lemma at_front bs tl : at_ (bs ++ tl) 0 bs.
Proof. split; [lia |]. by exists [], tl. Qed.

Lemma be16_nonempty n : be16 n <> []. Proof. done. Qed.

Lemma set_errno_link {S A} fd (L : env S) {W : Works L} e (k : unit -> proc A) G s Q :
  wp (link fd L) (k tt) (G, with_err e s) Q -> wp (link fd L) (bindP (set_errno e) k) (G, s) Q.
Proof. intros Hk. by apply (wp_set_errno (link fd L)). Qed.

Section Packages.
Context {S : Type} (fd : Z) (L : env S) {W : Works L} (ms : Z).
Context (Hms : timeout_ok fd ms).

Lemma new_package_link {A} (k : package -> proc A) s Q :
  (forall dbuf, a_block DEFBUF_SIZ dbuf -> wp (link fd L) (k (Package dbuf DEFBUF_SIZ true)) s Q) ->
  wp (link fd L) (bindP new_package k) s Q.
Proof.
  intros Hk. apply wp_assoc, (wp_plain (link fd L)); [done |].
  intros dbuf s' [Hd ->]. by apply Hk.
Qed.

(** The buffer that is big enough for [n] bytes. *)
Lemma grow_package_link {A} p n (k : option package -> proc A) s Q :
  0 <= n -> len (buf p) = buflen p -> is_static p = true ->
  (forall p', n <= len (buf p') -> wp (link fd L) (k (Some p')) s Q) ->
  wp (link fd L) (bindP (grow_package p n) k) s Q.
Proof.
  intros Hn Hl Hst Hk. unfold grow_package. destruct (Z.ltb_spec (buflen p) n).
  - rewrite Hst. apply wp_assoc, (wp_plain (link fd L)); [done |].
    intros tmp s' [(bs & -> & Hb & _) ->]. apply Hk. cbn. lia.
  - apply Hk. lia.
Qed.

Lemma read_package_link {A} dbuf body (k : Z * package -> proc A) G s Q :
  a_block DEFBUF_SIZ dbuf -> 1 <= len body <= 65535 ->
  (forall p, at_ (buf p) 0 body -> wp (link fd L) (k (len body, p)) (G, s) Q) ->
  wp (link fd L) (bindP (read_2byte_package fd (Package dbuf DEFBUF_SIZ true) ms) k)
    (ins (pkg body) ++ G, s) Q.
Proof.
  intros [Hd _] Hn Hk. unfold read_2byte_package, pkg. rewrite ins_app, <- app_assoc.
  apply wp_assoc, (wp_plain (link fd L)); [done |]. intros nbuf s' [[Hb _] ->].
  apply wp_assoc, wp_bind, read_fill_link;
    [done | apply be16_nonempty | done | by unfold int_max | split; cbn; lia |].
  cbn [negb Z.eqb]. apply wp_assoc.
  eapply wp_lift_D; [apply get16be_at, at_splice; split; cbn; lia |].
  rewrite (Z.mod_small (len body)) by lia.
  apply wp_assoc, grow_package_link; [lia | done | done |]. intros p' Hp'.
  apply wp_assoc, wp_bind. apply read_fill_link; [done | | done | unfold int_max; lia | split; lia |].
  { intros ->. cbn in Hn. lia. }
  autorewrite with cint. rewrite Z.eqb_refl. apply Hk. cbn. apply at_splice. split; lia.
Qed.

Definition fills (fill : ptr -> M unit) (bs : list Z) : Prop :=
  forall s, fits s 0 bs -> fill (at_off 0) s = Some (tt, splice s 0 bs).

Lemma make_and_send_link {A} siz fill bs (k : Z -> proc A) G s Q :
  fills fill bs -> siz = len bs -> 1 <= siz <= int_max ->
  wp (link fd L) (k 0) (G, s) Q ->
  wp (link fd L) (bindP (make_and_send fd siz fill ms) k) (outs bs ++ G, s) Q.
Proof.
  intros Hf -> Hn Hk. unfold make_and_send, out_buffer. unfold int_max in Hn. apply wp_assoc.
  assert (Hgo : forall b, len bs <= len b ->
    wp (link fd L) (bindP (let! (_, b) := lift_M (fill (at_off 0)) b in
      send_package fd b (len bs) ms) k) (outs bs ++ G, s) Q).
  { intros b Hb. assert (Hfit : fits b 0 bs) by (split; lia).
    apply wp_assoc. eapply wp_lift_M; [by apply Hf |]. unfold send_package.
    apply wp_assoc, write_fill_link; [done | done | | done | unfold int_max; lia | |].
    - intros ->. cbn in Hn. lia.
    - unfold splice. cbn. by eexists.
    - by rewrite Z.eqb_refl. }
  destruct (Z.ltb_spec DEFBUF_SIZ (len bs)).
  - rewrite uint64_small by (unfold is_uint64; lia).
    apply (wp_plain (link fd L)); [cbn; lia |].
    intros m s' [(b & -> & Hb & _) ->]. apply Hgo. lia.
  - apply wp_assoc, (wp_plain (link fd L)); [done |]. intros b s' [[Hb _] ->].
    apply Hgo. unfold DEFBUF_SIZ in *. lia.
Qed.
End Packages.

(** ** Each message *)

Ltac fill_tac :=
  intros blk Hf; rewrite <- bindM_retM; apply (run_start _ blk 0);
  repeat wstep; unfold retM; f_equal; f_equal; f_equal; rewrite <- ?app_assoc; try done.

Lemma status_fills siz status : Forall is_byte status -> siz = strlen status + 3 ->
  fills (fun s => let* s := put16be s (siz - 2) in
                  let* s := put8 s 115 in
                  memcpy s (c_str status)) (pkg (115 :: c_str status)).
Proof.
  intros Hs%c_str_byte ->. unfold pkg, strlen. rewrite len_cons.
  replace (len (c_str status) + 3 - 2) with (1 + len (c_str status)) by lia. fill_tac.
Qed.

Lemma name_fills siz version name : Forall is_byte name -> siz = strlen name + 9 ->
  fills (fun s => let* s := put16be s (siz - 2) in
                  let* s := put8 s 110 in
                  let* s := put16be s version in
                  let* s := put32be s our_flags in
                  let* s := retM s in
                  memcpy s (c_str name)) (pkg (name_body version our_flags (c_str name))).
Proof.
  intros Hs%c_str_byte ->. unfold pkg, name_body, strlen. autorewrite with len.
  replace (len (c_str name) + 9 - 2) with (1 + (2 + (4 + len (c_str name)))) by lia. fill_tac.
Qed.

Lemma challenge_fills siz version challenge name : Forall is_byte name -> siz = strlen name + 13 ->
  fills (fun s => let* s := put16be s (siz - 2) in
                  let* s := put8 s 110 in
                  let* s := put16be s version in
                  let* s := put32be s our_flags in
                  let* s := put32be s challenge in
                  memcpy s (c_str name))
    (pkg (challenge_body version our_flags challenge (c_str name))).
Proof.
  intros Hs%c_str_byte ->. unfold pkg, challenge_body, strlen. autorewrite with len.
  replace (len (c_str name) + 13 - 2) with (1 + (2 + (4 + (4 + len (c_str name))))) by lia.
  fill_tac.
Qed.

Lemma reply_fills challenge digest : Forall is_byte digest -> length digest = 16%nat ->
  fills (fun s => let* s := put16be s (23 - 2) in
                  let* s := put8 s 114 in
                  let* s := put32be s challenge in
                  memcpy s digest) (pkg (reply_body challenge digest)).
Proof.
  intros Hb Hl. unfold pkg, reply_body. autorewrite with len. rewrite Hl.
  change (1 + (4 + Z.of_nat 16)) with (23 - 2). fill_tac.
Qed.

Lemma ack_fills digest : Forall is_byte digest -> length digest = 16%nat ->
  fills (fun s => let* s := put16be s (19 - 2) in
                  let* s := put8 s 97 in
                  memcpy s digest) (pkg (ack_body digest)).
Proof.
  intros Hb Hl. unfold pkg, ack_body. autorewrite with len. rewrite Hl.
  change (1 + Z.of_nat 16) with (19 - 2). fill_tac.
Qed.

Lemma answer_ok cookie challenge :
  Forall is_byte (answer_to cookie challenge) /\ length (answer_to cookie challenge) = 16%nat.
Proof. split; [apply md5_bytes | apply length_md5]. Qed.

(** What a node name must be: the array of an [ei_cnode]. *)
Definition nodename_ok (name : list Z) : Prop :=
  Forall is_byte name /\ strlen name <= MAXNODELEN.

Lemma len_pkg body : len (pkg body) = 2 + len body.
Proof. unfold pkg. by autorewrite with len. Qed.

Section Messages.
Context {S : Type} (fd : Z) (L : env S) {W : Works L} (ms : Z).
Context (Hms : timeout_ok fd ms).

(** A buffer of unknown contents cannot be seen through. *)
Ltac sizes := unfold MAXNODELEN, EI_MAXALIVELEN, EI_MAXHOSTNAMELEN, int_max in *.

Lemma send_status_link {A} (k : Z -> proc A) G s Q :
  wp (link fd L) (k 0) (G, s) Q ->
  wp (link fd L) (bindP (send_status fd str_ok ms) k) (outs (pkg status_body) ++ G, s) Q.
Proof.
  intros Hk. unfold send_status. change (int32 (strlen str_ok + 1 + 2)) with 5.
  apply make_and_send_link; [done | done | | done | by unfold int_max | done].
  apply (status_fills 5 str_ok); [bytes_tac | done].
Qed.

Lemma send_name_link {A} name version (k : Z -> proc A) G s Q :
  nodename_ok name -> wp (link fd L) (k 0) (G, s) Q ->
  wp (link fd L) (bindP (send_name fd name version ms) k)
    (outs (pkg (name_body version our_flags (c_str name))) ++ G, s) Q.
Proof.
  intros [Hb Hl] Hk. sizes. unfold send_name, send_name_or_challenge.
  assert (0 <= strlen name) by (unfold strlen; lia).
  rewrite int32_small by (unfold is_int32; lia).
  apply make_and_send_link; [done | done | by apply name_fills; [| lia] | | unfold int_max; lia | done].
  rewrite len_pkg. unfold name_body, strlen. autorewrite with len. lia.
Qed.

Lemma send_challenge_link {A} name version challenge (k : Z -> proc A) G s Q :
  nodename_ok name -> wp (link fd L) (k 0) (G, s) Q ->
  wp (link fd L) (bindP (send_challenge fd name challenge version ms) k)
    (outs (pkg (challenge_body version our_flags challenge (c_str name))) ++ G, s) Q.
Proof.
  intros [Hb Hl] Hk. sizes. unfold send_challenge, send_name_or_challenge.
  assert (0 <= strlen name) by (unfold strlen; lia).
  rewrite int32_small by (unfold is_int32; lia).
  apply make_and_send_link; [done | done | by apply challenge_fills; [| lia] | | unfold int_max; lia | done].
  rewrite len_pkg. unfold challenge_body, strlen. autorewrite with len. lia.
Qed.

Lemma send_reply_link {A} digest challenge (k : Z -> proc A) G s Q :
  Forall is_byte digest /\ length digest = 16%nat -> wp (link fd L) (k 0) (G, s) Q ->
  wp (link fd L) (bindP (send_challenge_reply fd digest challenge ms) k)
    (outs (pkg (reply_body challenge digest)) ++ G, s) Q.
Proof.
  intros [Hb Hl] Hk.
  apply make_and_send_link; [done | done | by apply reply_fills | | by unfold int_max | done].
  rewrite len_pkg. unfold reply_body. autorewrite with len. by rewrite Hl.
Qed.

Lemma send_ack_link {A} digest (k : Z -> proc A) G s Q :
  Forall is_byte digest /\ length digest = 16%nat -> wp (link fd L) (k 0) (G, s) Q ->
  wp (link fd L) (bindP (send_challenge_ack fd digest ms) k)
    (outs (pkg (ack_body digest)) ++ G, s) Q.
Proof.
  intros [Hb Hl] Hk.
  apply make_and_send_link; [done | done | by apply ack_fills | | by unfold int_max | done].
  rewrite len_pkg. unfold ack_body. autorewrite with len. by rewrite Hl.
Qed.

Lemma recv_status_link {A} (k : Z -> proc A) G s Q :
  wp (link fd L) (k 0) (G, s) Q ->
  wp (link fd L) (bindP (recv_status fd ms) k) (ins (pkg status_body) ++ G, s) Q.
Proof.
  intros Hk. apply wp_assoc, new_package_link; [done |]. intros dbuf Hd.
  apply wp_assoc, read_package_link; [done | done | done | cbn; lia |]. intros p Hp.
  change (len status_body <=? 0) with false. change (len status_body =? 3) with true. cbv iota.
  unfold status_body, str_ok in Hp. apply at_cons in Hp as [H0 Hp]. apply at_cons in Hp as [H1 H2].
  apply wp_assoc. eapply wp_lift_D; [apply get8_at; [| exact H0]; is_byte_tac |].
  apply wp_assoc. eapply wp_lift_D; [apply get8_at; [| exact H1]; is_byte_tac |].
  apply wp_assoc. eapply wp_lift_D; [apply get8_at; [| exact H2]; is_byte_tac |].
  done.
Qed.

Lemma peer_name_link {A} b o name (k : option ErlConnect -> proc A) G s Q :
  at_ b o name ->
  (forall ip, a_block 4 ip -> wp (link fd L) (k (Some (ErlConn ip name))) (G, with_err 0 s) Q) ->
  wp (link fd L) (bindP (peer_name fd b o (len name)) k) (G, s) Q.
Proof.
  intros Ha Hk. apply wp_assoc, (wp_plain (link fd L)); [done |].
  intros [res ip] s' (Hres & Hip & ->). cbn in Hres. subst res.
  change (0 <? 0) with false. cbv iota.
  apply wp_assoc. eapply wp_lift_D; [by apply load_bytes_at |].
  apply wp_assoc, (set_errno_link fd L). by apply Hk.
Qed.

Lemma recv_challenge_link {A} version challenge name
    (k : option (Z * Z * Z * ErlConnect) -> proc A) G s Q :
  len name <= MAXNODELEN -> 0 <= version < 65536 -> is_uint32 challenge ->
  (forall ip, a_block 4 ip ->
    wp (link fd L) (k (Some (version, our_flags, challenge, ErlConn ip name))) (G, with_err 0 s) Q) ->
  wp (link fd L) (bindP (recv_challenge fd ms) k)
    (ins (pkg (challenge_body version our_flags challenge name)) ++ G, s) Q.
Proof.
  intros Hl Hv Hc Hk. sizes. unfold recv_challenge.
  assert (Hlen : len (challenge_body version our_flags challenge name) = 11 + len name)
    by (unfold challenge_body; autorewrite with len; lia).
  apply wp_assoc, (set_errno_link fd L), wp_assoc, new_package_link; [done |].
  intros dbuf Hd. apply wp_assoc, read_package_link; [done | done | done | lia |].
  intros p Hp. rewrite Hlen.
  rewrite (proj2 (Z.leb_gt _ 0)), (proj2 (Z.ltb_ge MAXNODELEN _)) by (sizes; lia).
  unfold challenge_body in Hp. apply at_cons in Hp as [H0 Hp]. apply at_app in Hp as [H1 Hp].
  apply at_app in Hp as [H2 Hp]. apply at_app in Hp as [H3 H4]. autorewrite with len in *.
  apply wp_assoc. eapply wp_lift_D; [apply get8_at; [| exact H0]; is_byte_tac |].
  change (negb (110 =? 110)) with false. cbv iota.
  apply wp_assoc. eapply wp_lift_D; [by apply get16be_at |]. cbv iota.
  apply wp_assoc. eapply wp_lift_D; [by apply get32be_at |]. cbv iota.
  apply wp_assoc. eapply wp_lift_D; [by apply get32be_at |]. cbv iota.
  change (Z.land (uint32 (int32 our_flags)) DFLAG_EXTENDED_REFERENCES =? 0) with false.
  change (Z.land (uint32 (int32 our_flags)) DFLAG_EXTENDED_PIDS_PORTS =? 0) with false.
  change (Z.land (uint32 (int32 our_flags)) DFLAG_NEW_FLOATS =? 0) with false.
  change (uint32 (int32 our_flags)) with our_flags. cbn [bindP negb].
  replace (11 + len name - 11) with (len name) by lia.
  rewrite (Z.mod_small version), uint32_int32 by done.
  apply wp_assoc, peer_name_link; [done |]. intros ip Hip. rewrite with_err_err. by apply Hk.
Qed.

Lemma recv_name_link {A} version name (k : option (Z * Z * ErlConnect) -> proc A) G s Q :
  len name <= MAXNODELEN -> 0 <= version < 65536 ->
  (forall ip, a_block 4 ip ->
    wp (link fd L) (k (Some (version, our_flags, ErlConn ip name))) (G, with_err 0 s) Q) ->
  wp (link fd L) (bindP (recv_name fd ms) k)
    (ins (pkg (name_body version our_flags name)) ++ G, s) Q.
Proof.
  intros Hl Hv Hk. sizes. unfold recv_name.
  assert (Hlen : len (name_body version our_flags name) = 7 + len name)
    by (unfold name_body; autorewrite with len; lia).
  apply wp_assoc, (set_errno_link fd L), wp_assoc, new_package_link; [done |].
  intros dbuf Hd. apply wp_assoc, read_package_link; [done | done | done | lia |].
  intros p Hp. rewrite Hlen.
  rewrite (proj2 (Z.leb_gt _ 0)), (proj2 (Z.ltb_ge MAXNODELEN _)) by (sizes; lia).
  unfold name_body in Hp. apply at_cons in Hp as [H0 Hp]. apply at_app in Hp as [H1 Hp].
  apply at_app in Hp as [H2 H3]. autorewrite with len in *.
  apply wp_assoc. eapply wp_lift_D; [apply get8_at; [| exact H0]; is_byte_tac |].
  change (negb (110 =? 110)) with false. cbv iota.
  apply wp_assoc. eapply wp_lift_D; [by apply get16be_at |]. cbv iota.
  apply wp_assoc. eapply wp_lift_D; [by apply get32be_at |]. cbv iota.
  change (Z.land (uint32 (int32 our_flags)) DFLAG_EXTENDED_REFERENCES =? 0) with false.
  change (Z.land (uint32 (int32 our_flags)) DFLAG_EXTENDED_PIDS_PORTS =? 0) with false.
  change (uint32 (int32 our_flags)) with our_flags. cbn [bindP negb].
  replace (7 + len name - 7) with (len name) by lia. rewrite (Z.mod_small version) by done.
  apply wp_assoc, peer_name_link; [done |]. intros ip Hip. rewrite with_err_err. by apply Hk.
Qed.

Lemma recv_reply_link {A} challenge our_challenge cookie (k : option Z -> proc A) G s Q :
  is_uint32 challenge -> cookie_ok cookie ->
  wp (link fd L) (k (Some challenge)) (G, with_err 0 s) Q ->
  wp (link fd L) (bindP (recv_challenge_reply fd our_challenge cookie ms) k)
    (ins (pkg (reply_body challenge (answer_to cookie our_challenge))) ++ G, s) Q.
Proof.
  intros Hc Hck Hk. destruct (answer_ok cookie our_challenge) as [Hb Hl].
  assert (Hlen : len (reply_body challenge (answer_to cookie our_challenge)) = 21)
    by (unfold reply_body; autorewrite with len; by rewrite Hl).
  apply wp_assoc, (set_errno_link fd L), wp_assoc, new_package_link; [done |].
  intros dbuf Hd. apply wp_assoc, read_package_link; [done | done | done | lia |].
  intros p Hp. rewrite Hlen. change (negb (21 =? 21)) with false. cbv iota.
  unfold reply_body in Hp. apply at_cons in Hp as [H0 Hp]. apply at_app in Hp as [H1 H2].
  autorewrite with len in *.
  apply wp_assoc. eapply wp_lift_D; [apply get8_at; [| exact H0]; is_byte_tac |].
  change (negb (114 =? 114)) with false. cbv iota.
  apply wp_assoc. eapply wp_lift_D; [by apply get32be_at |]. cbv iota.
  apply load_bytes_at in H2. rewrite Hl in H2.
  apply wp_assoc. eapply wp_lift_D; [exact H2 |].
  apply wp_assoc, (wp_gen_digest (link fd L)); [done |].
  rewrite bool_decide_true by done. cbn [negb].
  apply wp_assoc, (set_errno_link fd L). rewrite with_err_err, uint32_int32 by done. done.
Qed.

Lemma recv_ack_link {A} our_challenge cookie (k : Z -> proc A) G s Q :
  cookie_ok cookie -> wp (link fd L) (k 0) (G, with_err 0 s) Q ->
  wp (link fd L) (bindP (recv_challenge_ack fd our_challenge cookie ms) k)
    (ins (pkg (ack_body (answer_to cookie our_challenge))) ++ G, s) Q.
Proof.
  intros Hck Hk. destruct (answer_ok cookie our_challenge) as [Hb Hl].
  assert (Hlen : len (ack_body (answer_to cookie our_challenge)) = 17)
    by (unfold ack_body; autorewrite with len; by rewrite Hl).
  apply wp_assoc, (set_errno_link fd L), wp_assoc, new_package_link; [done |].
  intros dbuf Hd. apply wp_assoc, read_package_link; [done | done | done | lia |].
  intros p Hp. rewrite Hlen. change (negb (17 =? 17)) with false. cbv iota.
  unfold ack_body in Hp. apply at_cons in Hp as [H0 H1]. autorewrite with len in *.
  apply wp_assoc. eapply wp_lift_D; [apply get8_at; [| exact H0]; is_byte_tac |].
  change (negb (97 =? 97)) with false. cbv iota.
  apply load_bytes_at in H1. rewrite Hl in H1.
  apply wp_assoc. eapply wp_lift_D; [exact H1 |].
  apply wp_assoc, (wp_gen_digest (link fd L)); [done |].
  rewrite bool_decide_true by done. cbn [negb].
  apply wp_assoc, (set_errno_link fd L). rewrite with_err_err. done.
Qed.
End Messages.

(** ** The table of connections *)

Definition with_sockets (l : list ei_socket_info) (sz : Z) (g : globals) : globals :=
  Globals (erl_errno g) l sz (save_token g) (tracing g) (clock g) (epmd_port g) (compat_rel g).

(** What becomes of the table when [fd] is put in it: a new entry is stored only
    when the table is full (and grows). *)
Definition put_table (fd dist : Z) (ec : ei_cnode) (g : globals) : globals :=
  let l := ei_sockets g in
  match socket_at fd l with
  | Some (i, _) => with_sockets (<[i := SockInfo fd dist ec []]> l) (ei_sz_sockets g) g
  | None =>
      if len l =? ei_sz_sockets g
      then with_sockets (l ++ [SockInfo fd dist ec []]) (ei_sz_sockets g + 5) g
      else g
  end.

Lemma wp_set_sockets {S A} (L : env S) {W : Works L} l sz (k : unit -> proc A) s Q :
  wp L (k tt) (put_vars (with_sockets l sz (get_vars s)) s) Q ->
  wp L (bindP (set_sockets l sz) k) s Q.
Proof.
  intros Hk. apply wp_assoc, (wp_plain L); [done |]. intros g s' [-> ->].
  apply (wp_plain L); [done |]. by intros [] s' ->.
Qed.

Lemma wp_put_socket {S A} (L : env S) {W : Works L} fd dist ec (k : Z -> proc A) s Q :
  dist <> -1 -> wp L (k 0) (put_vars (put_table fd dist ec (get_vars s)) s) Q ->
  wp L (bindP (put_ei_socket_info fd dist null_cookie ec) k) s Q.
Proof.
  intros Hd Hk. unfold put_ei_socket_info. apply wp_assoc, (wp_plain L); [done |].
  intros g s' [-> ->]. unfold put_table in Hk.
  destruct (socket_at fd _) as [[i e] |].
  - rewrite (proj2 (Z.eqb_neq dist (-1))) by done.
    change (EI_MAX_COOKIE_SIZE <? strlen null_cookie) with false. cbv iota.
    by apply wp_assoc, (wp_set_sockets L).
  - destruct (_ =? ei_sz_sockets _).
    + apply wp_assoc, (wp_plain L).
      { cbn. pose proof (uint64_range (ei_socket_info_size * (ei_sz_sockets (get_vars s) + 5))).
        unfold is_uint64 in *. lia. }
      intros m s' [(bs & -> & _) ->].
      change (EI_MAX_COOKIE_SIZE <? strlen null_cookie) with false. cbv iota.
      by apply wp_assoc, (wp_set_sockets L).
    + cbn [bindP]. by rewrite put_get in Hk.
Qed.

(** ** The port mapper *)

Definition with_port (p : Z) (g : globals) : globals :=
  Globals (erl_errno g) (ei_sockets g) (ei_sz_sockets g) (save_token g) (tracing g) (clock g) p
    (compat_rel g).

(** ERL_EPMD_PORT, if it is set, is a number. *)
Definition port_known (getenv : list Z -> option (list Z)) : Prop :=
  forall s, getenv str_ERL_EPMD_PORT = Some s -> exists n, atoi s = Some n.

Lemma wp_get_epmd_port {S A} (L : env S) {W : Works L} (k : Z -> proc A) s Q :
  port_known the_getenv ->
  (forall p, wp L (k p) (put_vars (with_port p (get_vars s)) s) Q) ->
  wp L (bindP get_epmd_port k) s Q.
Proof.
  intros He Hk. unfold get_epmd_port. apply wp_assoc, (wp_plain L); [done |]. intros g s' [-> ->].
  destruct (epmd_port (get_vars s) =? 0).
  - apply wp_assoc, (wp_plain L); [done |]. intros x s' [-> ->].
    assert (Hset : forall p, wp L (bindP (let! _ := set_epmd_port (uint32 p) in
      Ret (uint32 p)) k) s Q).
    { intros p. apply wp_assoc, wp_assoc, (wp_plain L); [done |]. intros g s' [-> ->].
      apply (wp_plain L); [done |]. intros [] s' ->. apply Hk. }
    destruct (the_getenv _) as [t |] eqn:Ht; [| apply Hset].
    destruct (He t Ht) as [n Hn]. rewrite Hn. apply Hset.
  - cbn [bindP]. specialize (Hk (epmd_port (get_vars s))).
    unfold with_port in Hk. replace (Globals _ _ _ _ _ _ _ _) with (get_vars s) in Hk by (by destruct (get_vars s)).
    by rewrite put_get in Hk.
Qed.

Lemma wp_connect_t {S A} (L : env S) {W : Works L} fd ip port ms (k : Z -> proc A) s Q :
  wp L (k 0) s Q -> wp L (bindP (ei_connect_t fd ip port ms) k) s Q.
Proof.
  intros Hk. unfold ei_connect_t. destruct (ms =? 0).
  - apply wp_assoc, (wp_plain L); [done |]. by intros res s' [-> ->].
  - apply wp_assoc, (wp_plain L); [done |]. intros [] s' ->.
    apply wp_assoc, (wp_plain L); [done |]. intros res s' [-> ->].
    apply wp_assoc, (wp_plain L); [done |]. intros e s' ->.
    apply wp_assoc, (wp_plain L); [done |]. by intros [] s' ->.
Qed.

Definition epmd_request (alive : list Z) : list Z := pkg (EI_EPMD_PORT2_REQ :: alive).
Definition epmd_reply (port ntype high low : Z) : list Z :=
  [EI_EPMD_PORT2_RESP; 0] ++ be16 port ++ [ntype; EI_MYPROTO] ++ be16 high ++ be16 low.

Section Machine.
Context (info : list Z) (getenv : list Z -> option (list Z)) (listening : Z -> bool).
Notation M := (sys info getenv listening).

Lemma epmd_connect_link {A} fd ip ms (k : Z -> proc A) G g l Q :
  port_known getenv -> 0 <= fd ->
  (forall p, wp (link fd M) (k fd) (G, Machine (with_port p g) l) Q) ->
  wp (link fd M) (bindP (ei_epmd_connect_tmo ip ms) k) (G, Machine g (fd :: l)) Q.
Proof.
  intros He Hfd Hk. unfold ei_epmd_connect_tmo.
  apply wp_assoc, (wp_get_epmd_port (link fd M)); [done |]. intros p.
  eapply wp_assoc, wp_socket; [apply link_gives, sys_gives |].
  rewrite (proj2 (Z.ltb_ge fd 0)) by lia.
  apply wp_assoc, (wp_connect_t (link fd M)). apply Hk.
Qed.

Lemma epmd_fills alive n : Forall is_byte alive -> n = strlen alive + 1 ->
  fills (fun s => let* s := put16be s n in
                  let* s := put8 s EI_EPMD_PORT2_REQ in
                  memcpy s (c_str alive ++ [0])) (epmd_request (c_str alive) ++ [0]).
Proof.
  intros Hb%c_str_byte ->. assert (Hb0 : Forall is_byte (c_str alive ++ [0]))
    by (apply Forall_app; split; [done | bytes_tac]).
  unfold epmd_request, pkg, strlen. autorewrite with len.
  replace (1 + len (c_str alive)) with (len (c_str alive) + 1) by lia. rewrite <- app_assoc. fill_tac.
Qed.

Lemma wp_close {S A} (L : env S) {W : Works L} fd (k : unit -> proc A) s Q :
  wp L (k tt) s Q -> wp L (bindP (ask (r_close fd)) k) s Q.
Proof. intros Hk. apply (wp_plain L); [done |]. by intros [] s' ->. Qed.

Lemma epmd_port_link fd ip alive dist ms port ntype high low g l Q :
  timeout_ok fd ms -> port_known getenv -> 0 <= fd ->
  Forall is_byte alive -> strlen alive <= 508 ->
  0 <= port < 65536 -> is_byte ntype -> 1 <= high < 65536 -> 0 <= low <= EI_DIST_HIGH ->
  (forall p, Q (port, Z.min high EI_DIST_HIGH) ([], Machine (with_port p g) l)) ->
  wp (link fd M) (ei_epmd_port_tmo (Some ip) alive dist ms)
    (outs (epmd_request (c_str alive)) ++ ins (epmd_reply port ntype high low),
     Machine g (fd :: l)) Q.
Proof.
  intros Hms He Hfd Hb Hl Hport Hnt Hhigh Hlow Hq. unfold ei_epmd_port_tmo, ei_epmd_r4_port.
  assert (0 <= strlen alive) by (unfold strlen; lia).
  apply (wp_plain (link fd M)); [done |]. intros buf s' [[Hbuf _] ->].
  rewrite int32_small, uint64_small by (unfold is_int32, is_uint64; lia).
  unfold EPMDBUF, EI_DIST_HIGH in *. rewrite (proj2 (Z.ltb_ge _ _)) by lia.
  assert (Hlr : len (epmd_request (c_str alive)) = strlen alive + 3)
    by (unfold epmd_request; rewrite len_pkg, len_cons; unfold strlen; lia).
  assert (Hfit : fits buf 0 (epmd_request (c_str alive) ++ [0]))
    by (split; [lia | rewrite len_app, Hlr; cbn [length]; lia]).
  eapply wp_lift_M; [by apply epmd_fills |]. cbv iota.
  apply epmd_connect_link; [done | done |]. intros p.
  rewrite (proj2 (Z.ltb_ge fd 0)) by lia.
  apply write_fill_link; [apply sys_works | done | done | lia | unfold int_max; lia | |].
  { unfold splice. cbn [take Z.to_nat app]. rewrite <- app_assoc. by eexists. }
  replace (strlen alive + 1 + 2) with (strlen alive + 3) by lia. rewrite Z.eqb_refl. cbn [negb].
  assert (Hlb : forall b : list Z, len (splice buf 0 (epmd_request (c_str alive) ++ [0])) = 512)
    by (intros; rewrite length_splice by done; lia).
  set (b1 := splice buf 0 _) in *. specialize (Hlb buf).
  unfold epmd_reply. rewrite ins_app.
  apply wp_bind, read_fill_link; [done | done | done | by unfold int_max | split; cbn [length]; lia |].
  change (negb (2 =? 2)) with false. cbv iota.
  assert (Ha : at_ (splice b1 0 [EI_EPMD_PORT2_RESP; 0]) 0 [EI_EPMD_PORT2_RESP; 0])
    by (apply at_splice; split; cbn [length]; lia).
  apply at_cons in Ha as [H0 H1].
  eapply wp_lift_D; [apply get8_at; [| exact H0]; is_byte_tac |].
  change (negb (EI_EPMD_PORT2_RESP =? EI_EPMD_PORT2_RESP)) with false. cbv iota.
  eapply wp_lift_D; [apply get8_at; [| exact H1]; is_byte_tac |].
  change (negb (0 =? 0)) with false. cbv iota.
  set (b2 := splice b1 0 _) in *.
  assert (Hlb2 : len b2 = 512) by (unfold b2; rewrite length_splice; [done | split; cbn [length]; lia]).
  set (rep := be16 port ++ [ntype; EI_MYPROTO] ++ be16 high ++ be16 low).
  assert (Hlrep : len rep = 8) by done. rewrite <- (app_nil_r (ins rep)).
  apply wp_bind, read_fill_link; [done | done | done | by unfold int_max | split; lia |].
  change (negb (8 =? 8)) with false. cbv iota. apply (wp_close (link fd M)).
  assert (Ha : at_ (splice b2 0 rep) 0 rep) by (apply at_splice; split; lia).
  set (b3 := splice b2 0 rep) in *. clearbody b3. unfold rep in Ha.
  apply at_app in Ha as [A0 Ha]. apply at_cons in Ha as [A1 Ha]. apply at_cons in Ha as [A2 Ha].
  apply at_app in Ha as [A3 A4]. autorewrite with len in *.
  eapply wp_lift_D; [by apply get16be_at |]. cbv iota.
  eapply wp_lift_D; [by apply get8_at |]. cbv iota.
  eapply wp_lift_D; [apply get8_at; [| exact A2]; is_byte_tac |]. cbv iota.
  eapply wp_lift_D; [by apply get16be_at |]. cbv iota.
  eapply wp_lift_D; [by apply get16be_at |]. cbv iota.
  change (negb (EI_MYPROTO =? EI_MYPROTO)) with false. cbv iota.
  unfold is_byte, EI_DIST_LOW, EI_DIST_HIGH in *.
  rewrite !(Z.mod_small _ 65536) by lia.
  rewrite (proj2 (Z.ltb_ge 5 low)), (proj2 (Z.ltb_ge high 1)) by lia. cbn [orb wp].
  replace (if 5 <? high then 5 else high) with (Z.min high 5); [apply Hq |].
  destruct (Z.ltb_spec 5 high); lia.
Qed.

(** ** The two ends *)

(** What crosses the connection, as the caller sees it. *)
Definition handshake (nameA nameB : list Z) (chA chB : Z) (cookie : list Z) : script :=
  outs (pkg (name_body EI_DIST_HIGH our_flags nameA)) ++
  ins (pkg status_body) ++
  ins (pkg (challenge_body EI_DIST_HIGH our_flags chB nameB)) ++
  outs (pkg (reply_body chA (answer_to cookie chB))) ++
  ins (pkg (ack_body (answer_to cookie chA))).

(** What a call that succeeds leaves in the variables. *)
Definition connected (fd : Z) (ec : ei_cnode) (g g' : globals) : Prop :=
  exists p, g' = set_err 0 (put_table fd EI_DIST_HIGH ec (with_port p g)).

Lemma put_table_err fd dist ec e g :
  set_err 0 (put_table fd dist ec (set_err e g)) = set_err 0 (put_table fd dist ec g).
Proof.
  unfold put_table, with_port, set_err, with_sockets.
  cbn [erl_errno ei_sockets ei_sz_sockets save_token tracing clock epmd_port compat_rel].
  destruct (socket_at fd (ei_sockets g)) as [[i x] |]; [done |]. by destruct (_ =? _).
Qed.

Lemma challenge_of_uint32 i : is_uint32 (challenge_of i).
Proof.
  assert (Hx : forall a b, is_uint32 a -> is_uint32 b -> is_uint32 (Z.lxor a b)).
  { intros a b Ha Hb. replace (Z.lxor a b) with (uint32 (Z.lxor a b)); [apply uint32_range |].
    rewrite <- (uint32_small a Ha), <- (uint32_small b Hb). unfold uint32, uwrap.
    apply Z.bits_inj'. intros n Hn. destruct (decide (n < 32)).
    - by rewrite Z.mod_pow2_bits_low by lia.
    - by rewrite Z.lxor_spec, !Z.mod_pow2_bits_high by lia. }
  assert (Hw : forall i bs, Forall is_byte bs -> is_uint32 (le_val (take 4 (drop i bs)))).
  { intros j bs Hb. pose proof (le_val_range (take 4 (drop j bs)) ltac:(by apply Forall_take, Forall_drop)).
    assert (length (take 4 (drop j bs)) <= 4)%nat by (rewrite length_take; lia).
    assert (256 ^ len (take 4 (drop j bs)) <= 256 ^ 4) by (apply Z.pow_le_mono_r; lia).
    unfold is_uint32. change 4294967296 with (256 ^ 4). lia. }
  unfold challenge_of. cbv zeta. auto using md5_bytes.
Qed.

Lemma xconnect_ok efd fd ec ip alive ms port ntype high low nameB chB g G :
  fd <> efd -> 0 <= efd -> 0 <= fd -> listening fd = false ->
  timeout_ok efd ms -> timeout_ok fd ms -> port_known getenv -> info_ok info ->
  Forall is_byte alive -> strlen alive <= 508 ->
  0 <= port < 65536 -> is_byte ntype -> EI_DIST_HIGH <= high < 65536 -> 0 <= low <= EI_DIST_HIGH ->
  nodename_ok (thisnodename ec) -> cookie_ok (ei_connect_cookie ec) ->
  len nameB <= MAXNODELEN -> is_uint32 chB ->
  wp (link fd (link efd M)) (ei_xconnect_tmo ec ip alive ms)
    (handshake (c_str (thisnodename ec)) nameB (challenge_of info) chB (ei_connect_cookie ec) ++ G,
     (outs (epmd_request (c_str alive)) ++ ins (epmd_reply port ntype high low),
      Machine g [efd; fd]))
    (fun r s => r = fd /\
      exists g', s = (G, ([], Machine g' [])) /\ connected fd ec g g').
Proof.
  intros Hne Hefd Hfd Hlis Hmse Hms He Hinfo Halive Hlen Hport Hnt Hhigh Hlow Hname Hck HnB HchB.
  unfold ei_xconnect_tmo. apply (set_errno_link fd (link efd M)).
  eapply wp_seq.
  { apply wp_frame; [apply link_foreign; [done | by apply sys_foreign] |].
    apply epmd_port_link with (Q := fun r s => r = (port, EI_DIST_HIGH) /\
      exists p, s = ([], Machine (with_port p (set_err EIO g)) [fd])); try done.
    - unfold EI_DIST_HIGH in *. lia.
    - intros p. split; [| by exists p]. f_equal. lia. }
  intros [rport dist] [G1 s]. cbn [fst snd]. intros (-> & [= -> ->] & p & ->).
  rewrite (proj2 (Z.ltb_ge port 0)) by lia.
  eapply wp_assoc, wp_socket; [apply link_gives, link_gives, sys_gives |].
  rewrite (proj2 (Z.ltb_ge fd 0)) by lia.
  apply wp_assoc, (wp_connect_t (link fd (link efd M))).
  change (0 <? 0) with false. cbn [bindP]. cbv iota. rewrite (proj2 (Z.ltb_ge fd 0)) by lia.
  change (EI_DIST_HIGH <=? 4) with false. change (uint32 EI_DIST_HIGH) with EI_DIST_HIGH.
  cbv iota. unfold handshake. rewrite <- !app_assoc.
  apply send_name_link; [by apply link_works, sys_works | done | done |].
  change (negb (0 =? 0)) with false. cbv iota.
  apply (recv_status_link fd (link efd M)); [done |]. change (negb (0 =? 0)) with false. cbv iota.
  apply (recv_challenge_link fd (link efd M)); [done | done | by unfold EI_DIST_HIGH | done |].
  intros pip _. apply (wp_gen_challenge (link fd (link efd M))); [done |].
  apply (wp_gen_digest (link fd (link efd M))); [done |].
  apply (send_reply_link fd (link efd M)); [done | apply answer_ok |].
  change (negb (0 =? 0)) with false. cbv iota.
  apply (recv_ack_link fd (link efd M)); [done | done |].
  change (negb (0 =? 0)) with false. cbv iota.
  apply (wp_put_socket (link fd (link efd M))); [done |].
  apply (wp_plain (link fd (link efd M))); [done |]. intros [] s' ->.
  apply (wp_plain (link fd (link efd M))); [done |]. intros [] s' ->.
  apply (wp_set_errno (link fd (link efd M))).
  split; [done |]. eexists. split; [done |]. exists p.
  change (set_err 0 (put_table fd EI_DIST_HIGH ec (set_err 0 (set_err 0 (set_err EIO
    (with_port p g))))) = set_err 0 (put_table fd EI_DIST_HIGH ec (with_port p g))).
  by rewrite !put_table_err.
Qed.

Lemma accept_t_link {A} lfd fd ms (k : Z -> proc A) G g l Q :
  0 <= fd <= 2147483647 -> listening lfd = true -> lfd <> fd -> timeout_ok lfd ms ->
  wp (link fd M) (k fd) (G, Machine g l) Q ->
  wp (link fd M) (bindP (ei_accept_t lfd ms) k) (G, Machine g (fd :: l)) Q.
Proof.
  intros Hfd Hlis Hne Hms Hk. unfold ei_accept_t, ready.
  assert (Hgo : wp (link fd M) (bindP (let! res := ask (r_accept lfd) in
    Ret (if res <? 0 then -1 else int32 res)) k) (G, Machine g (fd :: l)) Q).
  { apply wp_assoc. cbn. split; [done |]. intros x [G' [v' l']]. cbn.
    intros [-> [[= <- <-] Hv]]. cbn in Hv. subst v'. rewrite (proj2 (Z.ltb_ge fd 0)) by lia.
    by rewrite int32_small by (unfold is_int32; lia). }
  destruct (Z.eqb_spec ms 0); [done |]. destruct Hms as [? | Hl]; [done |].
  unfold select_on. rewrite (proj2 (Z.ltb_ge lfd 0)), (proj2 (Z.leb_gt FD_SETSIZE lfd)) by lia.
  cbn [orb]. apply wp_assoc, wp_assoc. cbn [bindP ask wp can link link_can does link_does].
  rewrite (proj2 (Z.eqb_neq lfd fd)) by done. split; [done |]. intros x [G' s'] [Hg Hd].
  cbn in Hg. destruct Hd as [-> Hs]. cbn in Hs. subst G' s'. exact Hgo.
Qed.

Lemma accept_ok lfd fd ec ms nameA chA g cookie G :
  0 <= fd <= int_max -> listening lfd = true -> lfd <> fd ->
  timeout_ok lfd ms -> timeout_ok fd ms -> info_ok info ->
  nodename_ok (thisnodename ec) -> cookie_ok (ei_connect_cookie ec) ->
  c_str cookie = c_str (ei_connect_cookie ec) ->
  len nameA <= MAXNODELEN -> is_uint32 chA ->
  wp (link fd M) (ei_accept_tmo ec lfd ms)
    (dual (handshake nameA (c_str (thisnodename ec)) chA (challenge_of info) cookie) ++ G,
     Machine g [fd])
    (fun r s => r.1 = fd /\ (exists ip, a_block 4 ip /\ r.2 = Some (ErlConn ip nameA)) /\
      s = (G, Machine (set_err 0 (put_table fd EI_DIST_HIGH ec g)) [])).
Proof.
  intros Hfd Hlis Hne Hmsl Hms Hinfo Hname Hck Hcookie HnA HchA. unfold int_max in *.
  assert (Hans : forall c, answer_to cookie c = answer_to (ei_connect_cookie ec) c)
    by (intros; unfold answer_to; by rewrite Hcookie).
  unfold handshake. rewrite !Hans, !dual_app, !dual_outs, !dual_ins, <- !app_assoc.
  unfold ei_accept_tmo. apply (set_errno_link fd M).
  apply accept_t_link; [done.. |].
  rewrite (proj2 (Z.ltb_ge fd 0)) by lia.
  apply (recv_name_link fd M); [done | done | by unfold EI_DIST_HIGH |]. intros pip Hpip.
  change (EI_DIST_HIGH <=? 4) with false. cbv iota.
  apply (send_status_link fd M); [done |]. change (negb (0 =? 0)) with false. cbv iota.
  apply (wp_gen_challenge (link fd M)); [done |].
  apply (send_challenge_link fd M); [done | done |]. change (negb (0 =? 0)) with false. cbv iota.
  apply (recv_reply_link fd M); [done | done | done |].
  apply (wp_gen_digest (link fd M)); [done |].
  apply (send_ack_link fd M); [done | apply answer_ok |].
  change (negb (0 =? 0)) with false. cbv iota.
  apply (wp_put_socket (link fd M)); [done |].
  apply (wp_set_errno (link fd M)).
  split; [done |]. split; [by exists pip |].
  rewrite <- (put_table_err _ _ _ EIO g), <- (put_table_err _ _ _ 0 (set_err EIO g)),
    <- (put_table_err _ _ _ 0 (set_err 0 _)). done.
Qed.
End Machine.
