(* ===== verification/ConnectSafe.v ===== *)
(** * The handshake with any peer

    What each function of the handshake has exchanged when it succeeds, whoever is
    at the other end, and whatever the system answers. *)

From S2P Require Import Prelude Mem PutGet Ext MD5 MD5Ok Proc Session PortIO Epmd Connect ConnectOk.

(** ** Bytes are numbers *)

Lemma be16_of bs : a_block 2 bs -> exists n, 0 <= n < 65536 /\ bs = be16 n.
Proof.
  intros [Hl Hb]. apply Forall_rev in Hb. exists (le_val (rev bs)).
  pose proof (le_val_range _ Hb) as Hr. rewrite length_rev, Hl in Hr. split; [lia |].
  rewrite be16_le. replace 2%nat with (length (rev bs)) by (rewrite length_rev; lia).
  by rewrite le_bytes_val, rev_involutive.
Qed.

Lemma be32_of bs : a_block 4 bs -> exists n, is_uint32 n /\ bs = be32 n.
Proof.
  intros [Hl Hb]. apply Forall_rev in Hb. exists (le_val (rev bs)).
  pose proof (le_val_range _ Hb) as Hr. rewrite length_rev, Hl in Hr.
  split; [unfold is_uint32; lia |].
  rewrite be32_le. replace 4%nat with (length (rev bs)) by (rewrite length_rev; lia).
  by rewrite le_bytes_val, rev_involutive.
Qed.

(** The first [n] bytes of the list, and the others. *)
Lemma block_split n bs : 0 <= n <= len bs -> Forall is_byte bs ->
  exists b1 b2, bs = b1 ++ b2 /\ a_block n b1 /\ a_block (len bs - n) b2.
Proof.
  intros Hn Hb. exists (take (Z.to_nat n) bs), (drop (Z.to_nat n) bs).
  split; [by rewrite take_drop |].
  split; (split; [rewrite ?length_take, ?length_drop; lia |]);
    [by apply Forall_take | by apply Forall_drop].
Qed.

(** ** Steps *)

Lemma wlp_true {A} (p : proc A) l : wlp anyone p l (fun _ _ => True).
Proof. revert l. induction p as [| | r k IH]; intros l; cbn; auto. Qed.

Lemma wlp_errno {A} e (k : unit -> proc A) l Q :
  wlp anyone (k tt) l Q -> wlp anyone (bindP (set_errno e) k) l Q.
Proof. intros Hk. cbn. intros g l' ->. by intros [] l' ->. Qed.

Lemma wlp_lift_D {A B} (m : D A) blk (k : A -> proc B) l Q :
  (forall a, m blk = Some a -> wlp anyone (k a) l Q) ->
  wlp anyone (bindP (lift_D m blk) k) l Q.
Proof. intros Hk. unfold lift_D. destruct (m blk); cbn; auto. Qed.

(** Where the value is known. *)
Lemma wlp_lift_at {A B} (m : D A) blk a (k : A -> proc B) l Q :
  m blk = Some a -> wlp anyone (k a) l Q -> wlp anyone (bindP (lift_D m blk) k) l Q.
Proof. unfold lift_D. by intros ->. Qed.

(** Processes that leave the log alone. *)
Definition quiet {A} (p : proc A) : Prop := forall l, wlp anyone p l (fun _ l' => l' = l).

Lemma wlp_quiet {A B} (p : proc A) (k : A -> proc B) l Q :
  quiet p -> (forall a, wlp anyone (k a) l Q) -> wlp anyone (bindP p k) l Q.
Proof. intros Hp Hk. eapply wlp_seq; [apply Hp |]. by intros a l' ->. Qed.

Lemma quiet_bind {A B} (p : proc A) (k : A -> proc B) :
  quiet p -> (forall a, quiet (k a)) -> quiet (bindP p k).
Proof. intros Hp Hk l. apply wlp_quiet; [done |]. intros a. apply Hk. Qed.

Lemma quiet_ret {A} (a : A) : quiet (Ret a). Proof. by intros l. Qed.
Lemma quiet_undef {A} : quiet (@Undef A). Proof. by intros l. Qed.
Lemma quiet_lift {A} (m : option A) : quiet (lift_opt m). Proof. by intros l; destruct m. Qed.

Definition silent (r : request) : Prop :=
  match r with r_read _ _ | r_write _ _ | r_writev _ _ => False | _ => True end.

Lemma quiet_ask r : silent r -> quiet (ask r).
Proof. intros Hr l. destruct r; cbn in Hr |- *; try done; intros x l'; tauto || (by intros (_ & _ & ->)) || (by intros [_ ->]). Qed.

Ltac quiet_tac :=
  repeat first
    [ apply quiet_bind; [| intros]
    | apply quiet_ret | apply quiet_undef | apply quiet_lift
    | match goal with |- quiet (ask ?r) => exact (quiet_ask r Logic.I) end
    | case_match ].

Lemma quiet_put fd dist cookie ec : quiet (put_ei_socket_info fd dist cookie ec).
Proof. unfold put_ei_socket_info, set_sockets. quiet_tac. Qed.
Lemma quiet_challenge : quiet gen_challenge.
Proof. unfold gen_challenge, md_32. quiet_tac. Qed.
Lemma quiet_accept lfd ms : quiet (ei_accept_t lfd ms).
Proof. unfold ei_accept_t, ready, select_on. quiet_tac. Qed.
Lemma quiet_connect port ip ms : quiet (cnct port ip ms).
Proof. unfold cnct, ei_connect_t, io_errno, set_errno. quiet_tac. Qed.

(** ** Packages *)

Section AnyPeer.
Context (fd ms : Z).

(** A package that has come: its length, its bytes in the buffer. *)
Definition came (l : log) (r : Z * package) (l' : log) : Prop :=
  r.1 = -1 \/
  exists body, a_block r.1 body /\ 0 <= r.1 < 65536 /\ at_ (buf r.2) 0 body /\
    l' = l ++ at_fd fd (ins (pkg body)).

Lemma wlp_new_package {A} (k : package -> proc A) l Q :
  (forall dbuf, a_block DEFBUF_SIZ dbuf -> wlp anyone (k (Package dbuf DEFBUF_SIZ true)) l Q) ->
  wlp anyone (bindP new_package k) l Q.
Proof. intros Hk. cbn. intros dbuf l' [Hd ->]. by apply Hk. Qed.

Lemma wlp_grow_package {A} p n (k : option package -> proc A) l Q :
  0 <= n -> len (buf p) = buflen p -> is_static p = true ->
  wlp anyone (k None) l Q ->
  (forall p', n <= len (buf p') -> wlp anyone (k (Some p')) l Q) ->
  wlp anyone (bindP (grow_package p n) k) l Q.
Proof.
  intros Hn Hl Hst H0 Hk. unfold grow_package. destruct (Z.ltb_spec (buflen p) n).
  - rewrite Hst. cbn. intros [b |] l' [Hb ->]; [| exact H0]. apply Hk. cbn.
    destruct Hb. lia.
  - apply Hk. lia.
Qed.

Lemma read_package_any dbuf l : a_block DEFBUF_SIZ dbuf ->
  wlp anyone (read_2byte_package fd (Package dbuf DEFBUF_SIZ true) ms) l (came l).
Proof.
  intros [Hd _]. unfold read_2byte_package. cbn [bindP ask wlp]. intros nbuf l' [[Hb _] ->].
  eapply wlp_seq; [apply read_fill_any; [by unfold int_max | lia] |].
  intros [res nbuf'] l1 [_ Hr]. cbn in Hr.
  destruct (Z.eqb_spec res 2) as [-> |]; cbn [negb]; [| by apply wlp_errno; left].
  destruct Hr as (bs & Hbs & Hfit & -> & ->); [done |].
  destruct (be16_of bs Hbs) as (n & Hn & ->).
  eapply wlp_lift_at; [by apply get16be_at, at_splice |]. cbv iota.
  rewrite (Z.mod_small n) by lia.
  apply wlp_grow_package; [lia | done | done | by apply wlp_errno; left |]. intros p' Hp'.
  eapply wlp_seq; [apply read_fill_any; [unfold int_max; lia | lia] |].
  intros [res b] l1 [Hres Hr]. cbn [fst snd] in Hr, Hres.
  destruct (Z.eqb_spec (uint32 res) n) as [He |]; cbn [negb]; [| by apply wlp_errno; left].
  assert (res = n) as ->.
  { unfold uint32, uwrap in He. change (2 ^ 32) with 4294967296 in He.
    destruct (Z.neg_nonneg_cases res); [| rewrite Z.mod_small in He; lia].
    rewrite <- (Z.mod_add _ 1), Z.mod_small in He; lia. }
  destruct Hr as (body & Hbody & Hfit' & -> & ->); [done |]. right. exists body. cbn [fst snd buf].
  split; [done |]. split; [lia |]. split; [by apply at_splice |].
  unfold pkg. destruct Hbody as [-> _].
  by rewrite <- app_assoc, <- at_fd_app, <- ins_app.
Qed.

(** A package that has gone. *)
Definition went (bs : list Z) (l : log) (r : Z) (l' : log) : Prop :=
  r = 0 -> l' = l ++ at_fd fd (outs bs).

Lemma make_and_send_any siz fill bs l :
  fills fill bs -> siz = len bs -> 0 <= siz <= int_max ->
  wlp anyone (make_and_send fd siz fill ms) l (went bs l).
Proof.
  intros Hf -> Hn. unfold make_and_send, out_buffer. unfold int_max in Hn.
  assert (Hgo : forall b, len bs <= len b ->
    wlp anyone (let! (_, b) := lift_M (fill (at_off 0)) b in send_package fd b (len bs) ms) l
      (went bs l)).
  { intros b Hb. assert (Hfit : fits b 0 bs) by (split; lia).
    unfold lift_M. rewrite Hf by done. cbn [lift_opt bindP].
    unfold send_package. eapply wlp_seq; [apply write_fill_any; unfold int_max; lia |].
    intros res l' Hw. destruct (Z.eqb_spec res (len bs)) as [-> |]; cbn [negb].
    - intros _. rewrite Hw by done. do 4 f_equal. unfold splice.
      change (take (Z.to_nat 0) b) with (@nil Z). cbn [app]. by rewrite Nat2Z.id, take_app_length.
    - by apply wlp_errno. }
  destruct (Z.ltb_spec DEFBUF_SIZ (len bs)).
  - rewrite uint64_small by (unfold is_uint64; lia). cbn [bindP ask wlp].
    intros [b |] l' [Hb ->]; [| by cbn; intros g l' -> [] l'' ->].
    apply Hgo. destruct Hb. lia.
  - cbn [bindP ask wlp]. intros b l' [[Hb _] ->]. apply Hgo. unfold DEFBUF_SIZ in *. lia.
Qed.

Lemma block1 bs : a_block 1 bs -> exists b, is_byte b /\ bs = [b].
Proof.
  intros [Hl Hb]. destruct bs as [| b [|]]; cbn [length] in Hl; try lia.
  apply list.Forall_cons in Hb as [? _]. by exists b.
Qed.

Lemma peer_name_any b s n l :
  wlp anyone (peer_name fd b s n) l (fun r l' =>
    l' = l /\ forall c, r = Some c -> load_bytes s n b = Some (nodename c)).
Proof.
  unfold peer_name. cbn [bindP ask wlp]. intros [res ip] l' [_ ->].
  destruct (res <? 0).
  - cbn. by intros e l' -> g l'' -> [] l''' ->.
  - apply wlp_lift_D. intros name Hn. apply wlp_errno. split; [done |]. by intros c [= <-].
Qed.

Lemma negative_load s n b : n < 0 -> load_bytes s n b = None.
Proof. intros. unfold load_bytes. by rewrite (proj2 (Z.ltb_lt _ _)). Qed.

Lemma quiet_r9 : quiet use_r9_pids_ports.
Proof. unfold use_r9_pids_ports. quiet_tac. Qed.

(** A name that has come. *)
Definition name_came (l : log) (r : option (Z * Z * ErlConnect)) (l' : log) : Prop :=
  forall version flags c, r = Some (version, flags, c) ->
    0 <= version < 65536 /\ is_uint32 flags /\ Forall is_byte (nodename c) /\
    l' = l ++ at_fd fd (ins (pkg (name_body version flags (nodename c)))).

Lemma recv_name_any l : wlp anyone (recv_name fd ms) l (name_came l).
Proof.
  unfold recv_name. apply wlp_errno, wlp_new_package. intros dbuf Hd.
  eapply wlp_seq; [by apply read_package_any |].
  intros [rlen p] l1 [Hr | (body & [Hl Hb] & Hr & Ha & ->)]; cbn [fst snd] in *; [by subst rlen |].
  destruct (Z.leb_spec rlen 0); [done |]. destruct (Z.ltb_spec MAXNODELEN (rlen - 7)); [done |].
  set (log1 := l ++ _). destruct (Z.ltb_spec rlen 7).
  - (* too short a package *)
    apply wlp_lift_D. intros [tag s] _. destruct (negb (tag =? 110)); [done |].
    apply wlp_lift_D. intros [version s1] _. apply wlp_lift_D. intros [flags s2] _.
    destruct (_ =? 0); [done |]. apply wlp_quiet; [destruct (_ =? 0); [apply quiet_r9 | apply quiet_ret] |].
    intros r9. destruct (negb r9); [by apply wlp_errno |].
    eapply wlp_seq; [apply peer_name_any |]. intros r l' [-> Hc]. destruct r as [c |]; [| done].
    specialize (Hc c eq_refl). by rewrite negative_load in Hc by lia.
  - destruct (block_split 1 body) as (t & b1 & -> & Ht & Hl1 & Hb1); [lia | done |].
    destruct (block1 t Ht) as (tag & Htag & ->).
    destruct (block_split 2 b1) as (v & b2 & -> & Hv & Hl2 & Hb2); [lia | done |].
    destruct (be16_of v Hv) as (version & Hver & ->).
    destruct (block_split 4 b2) as (f & name & -> & Hf & Hln & Hbn); [lia | done |].
    destruct (be32_of f Hf) as (flags & Hfl & ->).
    apply at_app in Ha as [A0 Ha]. apply at_app in Ha as [A1 Ha]. apply at_app in Ha as [A2 A3].
    rewrite ?len_app, ?len_be16, ?len_be32 in *. cbn [length] in *.
    eapply wlp_lift_at; [by apply get8_at |]. cbv iota.
    destruct (Z.eqb_spec tag 110) as [-> |]; [cbn [negb] | done].
    eapply wlp_lift_at; [by apply get16be_at |]. cbv iota.
    eapply wlp_lift_at; [by apply get32be_at |]. cbv iota.
    rewrite uint32_int32, (Z.mod_small version) by done.
    destruct (_ =? 0); [done |]. apply wlp_quiet; [destruct (_ =? 0); [apply quiet_r9 | apply quiet_ret] |].
    intros r9. destruct (negb r9); [by apply wlp_errno |].
    eapply wlp_seq; [apply peer_name_any |]. intros r l' [-> Hc]. destruct r as [c |]; [| done].
    specialize (Hc c eq_refl). replace (rlen - 7) with (len name) in Hc by lia.
    rewrite (load_bytes_at name) in Hc by done. injection Hc as ->.
    intros ? ? ? [= <- <- <-]. split; [done |]. split; [done |]. by split.
Qed.

(** A challenge that has come. *)
Definition challenge_came (l : log) (r : option (Z * Z * Z * ErlConnect)) (l' : log) : Prop :=
  forall version flags challenge c, r = Some (version, flags, challenge, c) ->
    0 <= version < 65536 /\ is_uint32 flags /\ is_uint32 challenge /\
    Forall is_byte (nodename c) /\
    l' = l ++ at_fd fd (ins (pkg (challenge_body version flags challenge (nodename c)))).

Lemma recv_challenge_any l : wlp anyone (recv_challenge fd ms) l (challenge_came l).
Proof.
  unfold recv_challenge. apply wlp_errno, wlp_new_package. intros dbuf Hd.
  eapply wlp_seq; [by apply read_package_any |].
  intros [rlen p] l1 [Hr | (body & [Hl Hb] & Hr & Ha & ->)]; cbn [fst snd] in *; [by subst rlen |].
  destruct (Z.leb_spec rlen 0); [done |]. destruct (Z.ltb_spec MAXNODELEN (rlen - 11)); [done |].
  set (log1 := l ++ _). destruct (Z.ltb_spec rlen 11).
  - (* too short a package *)
    apply wlp_lift_D. intros [tag s] _. destruct (negb (tag =? 110)); [done |].
    apply wlp_lift_D. intros [version s1] _. apply wlp_lift_D. intros [flags s2] _.
    apply wlp_lift_D. intros [challenge s3] _.
    destruct (_ =? 0); [done |]. apply wlp_quiet; [destruct (_ =? 0); [apply quiet_r9 | apply quiet_ret] |].
    intros r9. destruct (negb r9); [by apply wlp_errno |]. destruct (_ =? 0); [done |].
    eapply wlp_seq; [apply peer_name_any |]. intros r l' [-> Hc]. destruct r as [c |]; [| done].
    specialize (Hc c eq_refl). by rewrite negative_load in Hc by lia.
  - destruct (block_split 1 body) as (t & b1 & -> & Ht & Hl1 & Hb1); [lia | done |].
    destruct (block1 t Ht) as (tag & Htag & ->).
    destruct (block_split 2 b1) as (v & b2 & -> & Hv & Hl2 & Hb2); [lia | done |].
    destruct (be16_of v Hv) as (version & Hver & ->).
    destruct (block_split 4 b2) as (f & b3 & -> & Hf & Hl3 & Hb3); [lia | done |].
    destruct (be32_of f Hf) as (flags & Hfl & ->).
    destruct (block_split 4 b3) as (ch & name & -> & Hch & Hln & Hbn); [lia | done |].
    destruct (be32_of ch Hch) as (challenge & Hchal & ->).
    apply at_app in Ha as [A0 Ha]. apply at_app in Ha as [A1 Ha]. apply at_app in Ha as [A2 Ha].
    apply at_app in Ha as [A3 A4].
    rewrite ?len_app, ?len_be16, ?len_be32 in *. cbn [length] in *.
    eapply wlp_lift_at; [by apply get8_at |]. cbv iota.
    destruct (Z.eqb_spec tag 110) as [-> |]; [cbn [negb] | done].
    eapply wlp_lift_at; [by apply get16be_at |]. cbv iota.
    eapply wlp_lift_at; [by apply get32be_at |]. cbv iota.
    eapply wlp_lift_at; [by apply get32be_at |]. cbv iota.
    rewrite !uint32_int32, (Z.mod_small version) by done.
    destruct (_ =? 0); [done |]. apply wlp_quiet; [destruct (_ =? 0); [apply quiet_r9 | apply quiet_ret] |].
    intros r9. destruct (negb r9); [by apply wlp_errno |]. destruct (_ =? 0); [done |].
    eapply wlp_seq; [apply peer_name_any |]. intros r l' [-> Hc]. destruct r as [c |]; [| done].
    specialize (Hc c eq_refl). replace (rlen - 11) with (len name) in Hc by lia.
    rewrite (load_bytes_at name) in Hc by done. injection Hc as ->.
    intros ? ? ? ? [= <- <- <- <-]. split; [done |]. split; [done |]. split; [done |]. by split.
Qed.

Lemma recv_status_any l :
  wlp anyone (recv_status fd ms) l (fun r l' => r = 0 -> l' = l ++ at_fd fd (ins (pkg status_body))).
Proof.
  unfold recv_status. apply wlp_new_package. intros dbuf Hd.
  eapply wlp_seq; [by apply read_package_any |].
  intros [rlen p] l1 [Hr | (body & [Hl Hb] & Hr & Ha & ->)]; cbn [fst snd] in *; [by subst rlen |].
  destruct (rlen <=? 0); [done |]. destruct (Z.eqb_spec rlen 3); [| done].
  destruct body as [| b0 [| b1 [| b2 [|]]]]; cbn [length] in Hl; try lia.
  rewrite !list.Forall_cons in Hb. destruct Hb as (? & ? & ? & _).
  apply at_cons in Ha as [A0 Ha]. apply at_cons in Ha as [A1 A2].
  eapply wlp_lift_at; [apply get8_at; [| exact A0]; done |]. cbv iota.
  eapply wlp_lift_at; [apply get8_at; [| exact A1]; done |]. cbv iota.
  eapply wlp_lift_at; [apply get8_at; [| exact A2]; done |]. cbv iota.
  cbn [wlp]. destruct (Z.eqb_spec b0 115) as [-> |]; [| done].
  destruct (Z.eqb_spec b1 111) as [-> |]; [| done]. by destruct (Z.eqb_spec b2 107) as [-> |].
Qed.

Lemma recv_reply_any our_challenge cookie l : cookie_ok cookie ->
  wlp anyone (recv_challenge_reply fd our_challenge cookie ms) l (fun r l' =>
    forall challenge, r = Some challenge ->
      l' = l ++ at_fd fd (ins (pkg (reply_body challenge (answer_to cookie our_challenge))))).
Proof.
  intros Hck. unfold recv_challenge_reply. apply wlp_errno, wlp_new_package. intros dbuf Hd.
  eapply wlp_seq; [by apply read_package_any |].
  intros [rlen p] l1 [Hr | (body & [Hl Hb] & Hr & Ha & ->)]; cbn [fst snd] in *; [by subst rlen |].
  destruct (Z.eqb_spec rlen 21) as [-> |]; [cbn [negb] | done].
  destruct (block_split 1 body) as (t & b1 & -> & Ht & Hl1 & Hb1); [lia | done |].
  destruct (block1 t Ht) as (tag & Htag & ->).
  destruct (block_split 4 b1) as (ch & digest & -> & Hch & Hld & Hbd); [lia | done |].
  destruct (be32_of ch Hch) as (challenge & Hchal & ->).
  apply at_app in Ha as [A0 Ha]. apply at_app in Ha as [A1 A2].
  rewrite ?len_app, ?len_be32 in *. cbn [length] in *.
  eapply wlp_lift_at; [by apply get8_at |]. cbv iota.
  destruct (Z.eqb_spec tag 114) as [-> |]; [cbn [negb] | done].
  eapply wlp_lift_at; [by apply get32be_at |]. cbv iota.
  apply load_bytes_at in A2. replace (len digest) with 16 in A2 by lia.
  eapply wlp_lift_at; [exact A2 |]. apply wlp_gen_digest; [done |].
  case_bool_decide as Hdig; [subst digest; cbn [negb] | done].
  apply wlp_errno. rewrite uint32_int32 by done. by intros ? [= <-].
Qed.

Lemma recv_ack_any our_challenge cookie l : cookie_ok cookie ->
  wlp anyone (recv_challenge_ack fd our_challenge cookie ms) l (fun r l' =>
    r = 0 -> l' = l ++ at_fd fd (ins (pkg (ack_body (answer_to cookie our_challenge))))).
Proof.
  intros Hck. unfold recv_challenge_ack. apply wlp_errno, wlp_new_package. intros dbuf Hd.
  eapply wlp_seq; [by apply read_package_any |].
  intros [rlen p] l1 [Hr | (body & [Hl Hb] & Hr & Ha & ->)]; cbn [fst snd] in *; [by subst rlen |].
  destruct (Z.eqb_spec rlen 17) as [-> |]; [cbn [negb] | done].
  destruct (block_split 1 body) as (t & digest & -> & Ht & Hld & Hbd); [lia | done |].
  destruct (block1 t Ht) as (tag & Htag & ->). apply at_app in Ha as [A0 A1].
  rewrite ?len_app in *. cbn [length] in *.
  eapply wlp_lift_at; [by apply get8_at |]. cbv iota.
  destruct (Z.eqb_spec tag 97) as [-> |]; [cbn [negb] | done].
  apply load_bytes_at in A1. replace (len digest) with 16 in A1 by lia.
  eapply wlp_lift_at; [exact A1 |]. apply wlp_gen_digest; [done |].
  case_bool_decide as Hdig; [subst digest; cbn [negb] | done].
  by apply wlp_errno.
Qed.

(** ** What is sent *)

Lemma send_name_any name version l : nodename_ok name ->
  wlp anyone (send_name fd name version ms) l
    (went (pkg (name_body version our_flags (c_str name))) l).
Proof.
  intros [Hb Hl]. unfold MAXNODELEN, EI_MAXALIVELEN, EI_MAXHOSTNAMELEN in Hl.
  unfold send_name, send_name_or_challenge. assert (0 <= strlen name) by (unfold strlen; lia).
  rewrite int32_small by (unfold is_int32; lia).
  apply make_and_send_any; [by apply name_fills; [| lia] | | unfold int_max; lia].
  rewrite len_pkg. unfold name_body, strlen. autorewrite with len. lia.
Qed.

Lemma send_challenge_any name version challenge l : nodename_ok name ->
  wlp anyone (send_challenge fd name challenge version ms) l
    (went (pkg (challenge_body version our_flags challenge (c_str name))) l).
Proof.
  intros [Hb Hl]. unfold MAXNODELEN, EI_MAXALIVELEN, EI_MAXHOSTNAMELEN in Hl.
  unfold send_challenge, send_name_or_challenge. assert (0 <= strlen name) by (unfold strlen; lia).
  rewrite int32_small by (unfold is_int32; lia).
  apply make_and_send_any; [by apply challenge_fills; [| lia] | | unfold int_max; lia].
  rewrite len_pkg. unfold challenge_body, strlen. autorewrite with len. lia.
Qed.

Lemma send_status_any l :
  wlp anyone (send_status fd str_ok ms) l (went (pkg status_body) l).
Proof.
  unfold send_status. change (int32 (strlen str_ok + 1 + 2)) with 5.
  apply make_and_send_any; [| done | by unfold int_max].
  apply (status_fills 5 str_ok); [bytes_tac | done].
Qed.

Lemma send_reply_any cookie her_challenge challenge l :
  wlp anyone (send_challenge_reply fd (answer_to cookie her_challenge) challenge ms) l
    (went (pkg (reply_body challenge (answer_to cookie her_challenge))) l).
Proof.
  destruct (answer_ok cookie her_challenge) as [Hb Hl].
  apply make_and_send_any; [by apply reply_fills | | by unfold int_max].
  rewrite len_pkg. unfold reply_body. autorewrite with len. by rewrite Hl.
Qed.

Lemma send_ack_any cookie her_challenge l :
  wlp anyone (send_challenge_ack fd (answer_to cookie her_challenge) ms) l
    (went (pkg (ack_body (answer_to cookie her_challenge))) l).
Proof.
  destruct (answer_ok cookie her_challenge) as [Hb Hl].
  apply make_and_send_any; [by apply ack_fills | | by unfold int_max].
  rewrite len_pkg. unfold ack_body. autorewrite with len. by rewrite Hl.
Qed.
End AnyPeer.

(** ** The two ends *)

(** What crosses the connection when a node [nameA], that says it has [version] and
    [flags], is accepted by the node [nameB], as the caller sees it: each end has
    answered the other's challenge with the digest of the cookie. *)
Definition transcript (version flags : Z) (nameA : list Z) (version' flags' : Z) (nameB : list Z)
    (chA chB : Z) (cookie : list Z) : script :=
  outs (pkg (name_body version flags nameA)) ++
  ins (pkg status_body) ++
  ins (pkg (challenge_body version' flags' chB nameB)) ++
  outs (pkg (reply_body chA (answer_to cookie chB))) ++
  ins (pkg (ack_body (answer_to cookie chA))).

Lemma handshake_transcript nameA nameB chA chB cookie :
  handshake nameA nameB chA chB cookie
  = transcript EI_DIST_HIGH our_flags nameA EI_DIST_HIGH our_flags nameB chA chB cookie.
Proof. done. Qed.

Lemma wlp_fails {A B} (p : proc A) (k : A -> proc B) l (Q : B -> log -> Prop) :
  (forall a l', wlp anyone (k a) l' Q) -> wlp anyone (bindP p k) l Q.
Proof. intros Hk. eapply wlp_seq; [apply wlp_true |]. auto. Qed.

(** A call that fails gives nothing to be shown. *)
Lemma accept_refuses fd l (P : Z * option ErlConnect -> log -> Prop) :
  wlp anyone (accept_error fd) l (fun r l' => 0 <= r.1 -> P r l').
Proof.
  unfold accept_error, ERL_ERROR. destruct (0 <=? fd); [| cbn; lia].
  apply wlp_fails. intros _ l'. cbn. lia.
Qed.

Lemma connect_refuses fd l (P : Z -> log -> Prop) :
  wlp anyone (connect_error fd) l (fun r l' => 0 <= r -> P r l').
Proof. apply wlp_fails. intros _ l'. cbn. unfold ERL_ERROR. lia. Qed.
