(* ===== verification/Message.v ===== *)
(** * connect/send*.c, connect/eirecv.c, misc/ei_trace.c: messages between nodes

    A message is a length, ERL_PASS_THROUGH, a control tuple that says what it is
    and for whom, and the payload. The senders encode the control tuple in a local
    array and write it together with the payload; [ei_recv_internal] reads as much
    as fits in its own array, decodes the control tuple, and moves what is left to
    the caller's buffer, where it reads the rest. *)

From S2P Require Import Prelude Mem PutGet Ext Headers Ints Atom Data Ids Term XBuff Proc PortIO Epmd Connect.

Definition ERL_LINK : Z := 1.
Definition ERL_SEND : Z := 2.
Definition ERL_EXIT : Z := 3.
Definition ERL_UNLINK : Z := 4.
Definition ERL_REG_SEND : Z := 6.
Definition ERL_GROUP_LEADER : Z := 7.
Definition ERL_EXIT2 : Z := 8.
Definition ERL_SEND_TT : Z := 12.
Definition ERL_EXIT_TT : Z := 13.
Definition ERL_REG_SEND_TT : Z := 16.
Definition ERL_EXIT2_TT : Z := 18.

Definition ERL_TICK : Z := 0.
Definition ERL_MSG : Z := 1.
Definition ERL_TIMEOUT : Z := -5.
Definition ERL_NO_TIMEOUT : Z := -1.

Definition EIRECVBUF : Z := 2048.
Definition EISMALLBUF : Z := 2048.

Definition EAGAIN : Z := 11.
Definition EMSGSIZE : Z := 90.

Record erlang_msg := Msg
  { msgtype : Z; msg_from : erlang_pid; msg_to : erlang_pid; toname : list Z;
    msg_cookie : list Z; msg_token : erlang_trace }.

(** ** The trace token *)

Definition set_trace (token : erlang_trace) (tracing clock : Z) : proc unit :=
  let! g := ask r_get in
  ask (r_set (Globals (erl_errno g) (ei_sockets g) (ei_sz_sockets g) token tracing clock
                (epmd_port g) (compat_rel g))).

(** [&save_token], as it is then, or NULL. Counting past the greatest value is
    undefined. *)
Definition ei_trace (query : Z) (token : erlang_trace) : proc (option erlang_trace) :=
  let! g := ask r_get in
  let t := save_token g in
  if query =? -1 then
    let! _ := set_trace t 0 (clock g) in Ret None
  else if query =? 0 then
    if tracing g =? 0 then Ret None else
    if (int_max <=? clock g) || (9223372036854775807 <=? tr_serial t) then Undef else
    let t' := Trace (tr_serial t + 1) (tr_serial t) (tr_from t) (tr_label t) (tr_flags t) in
    let! _ := set_trace t' (tracing g) (clock g + 1) in
    Ret (Some t')
  else if query =? 1 then
    if clock g <? tr_serial token then
      let c := int32 (tr_serial token) in
      let! _ := set_trace (Trace (tr_serial token) c (tr_from token) (tr_label token)
                             (tr_flags token)) 1 c in
      Ret None
    else
      let! _ := set_trace token 1 (clock g) in Ret None
  else Ret None.

Definition no_pid : erlang_pid := Pid [] 0 0 0.
Definition no_token : erlang_trace := Trace 0 0 no_pid 0 0.

(** [if (ei_distversion(fd) > 0) token = ei_trace(0,NULL);] *)
Definition trace_token (fd : Z) : proc (option erlang_trace) :=
  let! v := ei_distversion fd in
  if 0 <? v then ei_trace 0 no_token else Ret None.

(** ** Sending *)

(** One call of an encoder whose result is not looked at. *)
Definition then_encode (f : ptr -> Z -> M (Z * Z)) (index : Z) : M Z :=
  let* (_, index) := f (at_off 0) index in retM index.

Definition encode_token (token : option erlang_trace) (index : Z) : M Z :=
  match token with
  | None => retM index
  | Some t => then_encode (ei_encode_trace t) index
  end.

(** The length and ERL_PASS_THROUGH, in the five bytes that were left free. *)
Definition put_length (n : Z) : M unit :=
  let* s := put32be (at_off 0) n in
  let* _ := put8 s ERL_PASS_THROUGH in
  retM tt.

Definition send_header (fdcookie : list Z) (to : erlang_pid) (token : option erlang_trace)
    (msglen : Z) : M Z :=
  let* index := then_encode ei_encode_version 5 in
  let* index := then_encode (ei_encode_tuple_header (if token is Some _ then 4 else 3)) index in
  let* index := then_encode (ei_encode_long (if token is Some _ then ERL_SEND_TT else ERL_SEND)) index in
  let* index := then_encode (ei_encode_atom fdcookie) index in
  let* index := then_encode (ei_encode_pid to) index in
  let* index := encode_token token index in
  let* _ := put_length (int32 (index + msglen - 4)) in
  retM index.

(** The header and the payload, with one writev. *)
Definition write_message (fd : Z) (header : list Z) (index : Z) (msg : list Z) (msglen ms : Z)
    : proc Z :=
  if (len header <? uint64 index) || (len msg <? uint64 msglen) then Undef else
  let! res := ei_writev_fill_t fd [take (Z.to_nat index) header; take (Z.to_nat msglen) msg] ms in
  if negb (res =? int32 (index + msglen)) then
    let! _ := io_errno res in Ret (-1)
  else Ret 0.

Definition ei_send_encoded_tmo (fd : Z) (to : erlang_pid) (msg : list Z) (msglen ms : Z)
    : proc Z :=
  let! header := ask (r_array 1200) in
  let! token := trace_token fd in
  let! fdcookie := ei_getfdcookie fd in
  let! (index, header) := lift_M (send_header fdcookie to token msglen) header in
  write_message fd header index msg msglen ms.

Definition ei_send_encoded (fd : Z) (to : erlang_pid) (msg : list Z) (msglen : Z) : proc Z :=
  ei_send_encoded_tmo fd to msg msglen 0.

Definition reg_send_header (from : erlang_pid) (fdcookie to : list Z)
    (token : option erlang_trace) (msglen : Z) : M Z :=
  let* index := then_encode ei_encode_version 5 in
  let* index := then_encode (ei_encode_tuple_header (if token is Some _ then 5 else 4)) index in
  let* index := then_encode (ei_encode_long (if token is Some _ then ERL_REG_SEND_TT else ERL_REG_SEND)) index in
  let* index := then_encode (ei_encode_pid from) index in
  let* index := then_encode (ei_encode_atom fdcookie) index in
  let* index := then_encode (ei_encode_atom to) index in
  let* index := encode_token token index in
  let* _ := put_length (int32 (index + msglen - 4)) in
  retM index.

Definition ei_send_reg_encoded_tmo (fd : Z) (from : erlang_pid) (to msg : list Z) (msglen ms : Z)
    : proc Z :=
  let! header := ask (r_array 1400) in
  let! token := trace_token fd in
  let! fdcookie := ei_getfdcookie fd in
  let! (index, header) := lift_M (reg_send_header from fdcookie to token msglen) header in
  write_message fd header index msg msglen ms.

Definition ei_send_reg_encoded (fd : Z) (from : erlang_pid) (to msg : list Z) (msglen : Z)
    : proc Z := ei_send_reg_encoded_tmo fd from to msg msglen 0.

Definition exit_header (from to : erlang_pid) (token : option erlang_trace) (reason : list Z)
    : M Z :=
  let* index := then_encode ei_encode_version 5 in
  let* index := then_encode (ei_encode_tuple_header (if token is Some _ then 5 else 4)) index in
  let* index := then_encode (ei_encode_long (if token is Some _ then ERL_EXIT_TT else ERL_EXIT)) index in
  let* index := then_encode (ei_encode_pid from) index in
  let* index := then_encode (ei_encode_pid to) index in
  let* index := encode_token token index in
  let* index := then_encode (ei_encode_string reason) index in
  let* _ := put_length (int32 (index - 4)) in
  retM index.

Definition ei_send_exit_tmo (fd : Z) (from to : erlang_pid) (reason : list Z) (ms : Z) : proc Z :=
  let! sbuf := ask (r_array EISMALLBUF) in
  let n := int32 (strlen reason + 1080) in
  let! msgbuf := (if EISMALLBUF <? n then ask (r_malloc (uint64 n)) else Ret (Some sbuf)
                  : proc (option (list Z))) in
  match msgbuf with
  | None => Ret (-1)
  | Some msgbuf =>
      let! token := trace_token fd in
      let! (index, msgbuf) := lift_M (exit_header from to token reason) msgbuf in
      let! _ := ei_write_fill_t fd msgbuf index ms in
      Ret 0
  end.

Definition ei_send_exit (fd : Z) (from to : erlang_pid) (reason : list Z) : proc Z :=
  ei_send_exit_tmo fd from to reason 0.

Definition ei_send_tmo (fd : Z) (to : erlang_pid) (buf : list Z) (len ms : Z) : proc Z :=
  ei_send_encoded_tmo fd to buf len ms.
Definition ei_send (fd : Z) (to : erlang_pid) (buf : list Z) (len : Z) : proc Z :=
  ei_send_tmo fd to buf len 0.

(** [self->num = fd;] *)
Definition self_num (ec : ei_cnode) (fd : Z) : ei_cnode :=
  CNode (thishostname ec) (thisnodename ec) (thisalivename ec) (ei_connect_cookie ec) (creation ec)
    (Pid (pid_node (self ec)) (uint32 fd) (pid_serial (self ec)) (pid_creation (self ec))).

(** The return value, and what becomes of [*ec]. *)
Definition ei_reg_send_tmo (ec : ei_cnode) (fd : Z) (server_name buf : list Z) (len ms : Z)
    : proc (Z * ei_cnode) :=
  let ec := self_num ec fd in
  let! r := ei_send_reg_encoded_tmo fd (self ec) server_name buf len ms in
  Ret (r, ec).
Definition ei_reg_send (ec : ei_cnode) (fd : Z) (server_name buf : list Z) (len : Z)
    : proc (Z * ei_cnode) := ei_reg_send_tmo ec fd server_name buf len 0.

(** ** Receiving *)

Definition set_msgtype (m : erlang_msg) (t : Z) : erlang_msg :=
  Msg t (msg_from m) (msg_to m) (toname m) (msg_cookie m) (msg_token m).
Definition set_from (m : erlang_msg) (p : erlang_pid) : erlang_msg :=
  Msg (msgtype m) p (msg_to m) (toname m) (msg_cookie m) (msg_token m).
Definition set_to (m : erlang_msg) (p : erlang_pid) : erlang_msg :=
  Msg (msgtype m) (msg_from m) p (toname m) (msg_cookie m) (msg_token m).
Definition set_toname (m : erlang_msg) (a : list Z) : erlang_msg :=
  Msg (msgtype m) (msg_from m) (msg_to m) a (msg_cookie m) (msg_token m).
Definition set_cookie (m : erlang_msg) (a : list Z) : erlang_msg :=
  Msg (msgtype m) (msg_from m) (msg_to m) (toname m) a (msg_token m).
Definition set_token (m : erlang_msg) (t : erlang_trace) : erlang_msg :=
  Msg (msgtype m) (msg_from m) (msg_to m) (toname m) (msg_cookie m) t.

(** Fields of the control tuple; what the out pointer got is there. *)
Definition get_field {A} (f : D (cres (option A))) (set : erlang_msg -> A -> erlang_msg)
    (m : erlang_msg) : D (cres erlang_msg) :=
  let- (i, a) := f in
  match a with Some a => retD (Done i (set m a)) | None => ubD end.

Definition get_name (set : erlang_msg -> list Z -> erlang_msg) (m : erlang_msg) (index : Z)
    : D (cres erlang_msg) :=
  let- (i, a) := ei_decode_atom_as true MAXATOMLEN_UTF8 ERLANG_UTF8 0 index in
  retD (Done i (set m (at_text a))).

Definition get_from (m : erlang_msg) (index : Z) := get_field (ei_decode_pid true 0 index) set_from m.
Definition get_to (m : erlang_msg) (index : Z) := get_field (ei_decode_pid true 0 index) set_to m.
Definition get_token (m : erlang_msg) (index : Z) :=
  get_field (ei_decode_trace true 0 index) set_token m.

(** The switch on the type of the message; the rest of the index is the payload. *)
Definition decode_fields (m : erlang_msg) (index : Z) : D (cres erlang_msg) :=
  let t := msgtype m in
  if t =? ERL_SEND then
    let- (index, m) := get_name set_cookie m index in get_to m index
  else if t =? ERL_REG_SEND then
    let- (index, m) := get_from m index in
    let- (index, m) := get_name set_cookie m index in get_name set_toname m index
  else if (t =? ERL_LINK) || (t =? ERL_UNLINK) || (t =? ERL_GROUP_LEADER) ||
          (t =? ERL_EXIT) || (t =? ERL_EXIT2) then
    let- (index, m) := get_from m index in get_to m index
  else if t =? ERL_SEND_TT then
    let- (index, m) := get_name set_cookie m index in
    let- (index, m) := get_to m index in get_token m index
  else if t =? ERL_REG_SEND_TT then
    let- (index, m) := get_from m index in
    let- (index, m) := get_name set_cookie m index in
    let- (index, m) := get_name set_toname m index in get_token m index
  else if (t =? ERL_EXIT_TT) || (t =? ERL_EXIT2_TT) then
    let- (index, m) := get_from m index in
    let- (index, m) := get_to m index in get_token m index
  else retD (Done index m).

(** ERL_PASS_THROUGH, the version, the tuple header, the type, the fields. *)
Definition decode_control (m : erlang_msg) : D (cres erlang_msg) :=
  let+ (c, _) := get8 0 in
  if negb (c =? ERL_PASS_THROUGH) then retD Fail else
  let- (index, version) := ei_decode_version true 0 1 in
  if negb (bool_decide (version = Some ERL_VERSION_MAGIC)) then retD Fail else
  let- (index, arity) := ei_decode_tuple_header true 0 index in
  let- (index, t) := ei_decode_long true 0 index in
  match t with
  | None => ubD
  | Some t => decode_fields (set_msgtype m t) index
  end.

Definition is_traced (t : Z) : bool :=
  (t =? ERL_SEND_TT) || (t =? ERL_REG_SEND_TT) || (t =? ERL_EXIT_TT) || (t =? ERL_EXIT2_TT).

(** What [ei_recv_internal] returns and stores: the result, the buffer and its size,
    the message, the length of the payload. *)
Record received := Received
  { rc : Z; mbuf : list Z; bufsz : Z; msg : erlang_msg; msglen : Z }.

(** The rest of a message that does not fit, read and dropped. *)
Fixpoint flush_rest (fuel : nat) (fd : Z) (header : list Z) (sz remain ms : Z) : proc unit :=
  if remain <=? 0 then Ret tt else
  match fuel with
  | O => Undef
  | S fuel =>
      let sz := if remain <? sz then remain else sz in
      let! (i, header) := ei_read_fill_t fd header 0 sz ms in
      if i <=? 0 then Ret tt else flush_rest fuel fd header sz (remain - i) ms
  end.

(** [memmove(mbuf, header + index, n)] *)
Definition move_payload (mbuf header : list Z) (index n : Z) : proc (list Z) :=
  let! bs := lift_D (load_bytes index n) header in
  let! (_, mbuf) := lift_M (memcpy (at_off 0) bs) mbuf in
  Ret mbuf.

(** The control tuple has been read: [header] holds [bytesread] bytes of the [len]. *)
Definition recv_payload (fd : Z) (header mbuf : list Z) (bufsz : Z) (m : erlang_msg)
    (index n bytesread msglen0 : Z) (staticbufp : bool) (ms : Z) : proc received :=
  let msglen := int32 (n - index) in
  let remain := int32 (n - bytesread) in
  let! room :=
    (if bufsz <? msglen then
       if staticbufp then
         let! _ := flush_rest (Z.to_nat remain) fd header EIRECVBUF remain ms in
         let! _ := set_errno EMSGSIZE in Ret None
       else
         let! r := ask (r_realloc mbuf (uint64 msglen)) in
         match r with
         | None => let! _ := set_errno ENOMEM in Ret None
         | Some b => Ret (Some (b, msglen))
         end
     else Ret (Some (mbuf, bufsz))) in
  match room with
  | None => Ret (Received (-1) mbuf bufsz m msglen0)
  | Some (mbuf, bufsz) =>
      let! mbuf := move_payload mbuf header index (bytesread - index) in
      let done (mbuf : list Z) : proc received :=
        let t := if 10 <? msgtype m then msgtype m - 10 else msgtype m in
        Ret (Received (int32 t) mbuf bufsz (set_msgtype m t) msglen) in
      if 0 <? remain then
        let! (i, mbuf) := ei_read_fill_t fd mbuf (bytesread - index) remain ms in
        if negb (i =? remain) then
          let! _ := io_errno i in
          Ret (Received (-1) mbuf bufsz m (bytesread - index + 1))
        else done mbuf
      else done mbuf
  end.

Definition ei_recv_internal (fd : Z) (mbuf : list Z) (bufsz : Z) (m : erlang_msg) (msglen0 : Z)
    (staticbufp : bool) (ms : Z) : proc received :=
  let! header := ask (r_array EIRECVBUF) in
  let failed m := Ret (Received (-1) mbuf bufsz m msglen0) in
  let! (res, header) := ei_read_fill_t fd header 0 4 ms in
  if negb (res =? 4) then let! _ := io_errno res in failed m else
  let! (n, _) := lift_D (get32be 0) header in
  if n =? 0 then
    let! _ := ei_write_fill_t fd [0; 0; 0; 0] 4 ms in
    Ret (Received 0 mbuf bufsz m 0)
  else
  let! _ := ei_trace (-1) no_token in
  let bytesread := if EIRECVBUF <? n then EIRECVBUF else n in
  let! (i, header) := ei_read_fill_t fd header 0 bytesread ms in
  if negb (i =? bytesread) then let! _ := io_errno i in failed m else
  let! c := lift_D (decode_control m) header in
  match c with
  | Fail => let! _ := set_errno EIO in failed m
  | Done index m =>
      let! _ := (if is_traced (msgtype m) then ei_trace 1 (msg_token m) else Ret None) in
      recv_payload fd header mbuf bufsz m index n bytesread msglen0 staticbufp ms
  end.

Definition ei_receive_encoded_tmo (fd : Z) (mbuf : list Z) (bufsz : Z) (m : erlang_msg)
    (msglen ms : Z) : proc received := ei_recv_internal fd mbuf bufsz m msglen false ms.
Definition ei_receive_encoded (fd : Z) (mbuf : list Z) (bufsz : Z) (m : erlang_msg) (msglen : Z)
    : proc received := ei_recv_internal fd mbuf bufsz m msglen false 0.

(** [x->buff] and [x->buffsz]; NULL holds no byte. *)
Definition ei_do_receive_msg (fd : Z) (staticbuffer_p : bool) (m : erlang_msg) (x : ei_x_buff)
    (ms : Z) : proc (Z * erlang_msg * ei_x_buff) :=
  let! r := ei_recv_internal fd (default [] (buff x)) (buffsz x) m 0 staticbuffer_p ms in
  let got b sz index := XBuff (match buff x with None => if sz =? buffsz x then None else Some b
                                            | Some _ => Some b end) sz index in
  let x' := got (mbuf r) (bufsz r) (index x) in
  if rc r =? 0 then
    let! _ := set_errno EAGAIN in Ret (ERL_TICK, msg r, x')
  else if rc r <? 0 then Ret (ERL_ERROR, msg r, x')
  else if staticbuffer_p && (bufsz r <? msglen r) then
    let! _ := set_errno EMSGSIZE in Ret (ERL_ERROR, msg r, x')
  else
  let x' := got (mbuf r) (bufsz r) (bufsz r) in
  let t := msgtype (msg r) in
  if (t =? ERL_SEND) || (t =? ERL_REG_SEND) || (t =? ERL_LINK) || (t =? ERL_UNLINK) ||
     (t =? ERL_GROUP_LEADER) || (t =? ERL_EXIT) || (t =? ERL_EXIT2)
  then Ret (ERL_MSG, msg r, x')
  else
    let! _ := set_errno EIO in Ret (ERL_ERROR, msg r, x').

Definition ei_receive_msg (fd : Z) (m : erlang_msg) (x : ei_x_buff) :=
  ei_do_receive_msg fd true m x 0.
Definition ei_xreceive_msg (fd : Z) (m : erlang_msg) (x : ei_x_buff) :=
  ei_do_receive_msg fd false m x 0.
Definition ei_receive_msg_tmo (fd : Z) (m : erlang_msg) (x : ei_x_buff) (ms : Z) :=
  ei_do_receive_msg fd true m x ms.
Definition ei_xreceive_msg_tmo (fd : Z) (m : erlang_msg) (x : ei_x_buff) (ms : Z) :=
  ei_do_receive_msg fd false m x ms.

(** ** Messages that are not decoded *)

Definition get_int32 (s : list Z) : option Z :=
  match s with
  | s0 :: s1 :: s2 :: s3 :: _ =>
      Some (int32 (Z.lor (Z.lor (Z.lor (Z.shiftl s0 24) (Z.shiftl s1 16)) (Z.shiftl s2 8)) s3))
  | _ => None
  end.

Definition ei_receive_tmo (fd : Z) (bufp : list Z) (bufsize ms : Z) : proc (Z * list Z) :=
  let! (res, bufp) := ei_read_fill_t fd bufp 0 4 ms in
  if negb (res =? 4) then
    let! _ := io_errno res in Ret (ERL_ERROR, bufp)
  else
  let! n := lift_opt (get_int32 bufp) in
  if n =? ERL_TICK then
    let! _ := ei_write_fill_t fd [0; 0; 0; 0] 4 ms in
    let! _ := set_errno EAGAIN in Ret (ERL_TICK, bufp)
  else if bufsize <? n then
    let! _ := set_errno EMSGSIZE in Ret (ERL_ERROR, bufp)
  else
  let! (res, bufp) := ei_read_fill_t fd bufp 0 n ms in
  if negb (res =? n) then
    let! _ := io_errno res in Ret (ERL_ERROR, bufp)
  else Ret (n, bufp).

Definition ei_receive (fd : Z) (bufp : list Z) (bufsize : Z) : proc (Z * list Z) :=
  ei_receive_tmo fd bufp bufsize 0.

(** ** Remote calls *)

Definition str_call : list Z := [99; 97; 108; 108].
Definition str_user : list Z := [117; 115; 101; 114].
Definition str_rex : list Z := [114; 101; 120].

Section Rpc.
Context (malloc : Z -> option (list Z)) (sscanf_lf : list Z -> option Z).

(** [{self, {call, mod, fun, args, user}}]: the buffer that ei_rpc_to fills. *)
Definition rpc_request (self : erlang_pid) (mod_ fun_ buf : list Z) (len : Z)
    : option ei_x_buff :=
  '(_, x) ← ei_x_new_with_version malloc;
  '(_, x) ← ei_x_encode_tuple_header malloc x 2;
  '(_, x) ← ei_x_encode_pid malloc x self;
  '(_, x) ← ei_x_encode_tuple_header malloc x 5;
  '(_, x) ← ei_x_encode_atom malloc x str_call;
  '(_, x) ← ei_x_encode_atom malloc x mod_;
  '(_, x) ← ei_x_encode_atom malloc x fun_;
  '(_, x) ← ei_x_append_buf malloc x buf len;
  '(_, x) ← ei_x_encode_atom malloc x str_user;
  Some x.

Definition ei_rpc_to (ec : ei_cnode) (fd : Z) (mod_ fun_ buf : list Z) (len : Z)
    : proc (Z * ei_cnode) :=
  let ec := self_num ec fd in
  let! x := lift_opt (rpc_request (self ec) mod_ fun_ buf len) in
  let! _ := ei_send_reg_encoded fd (self ec) str_rex (default [] (buff x)) (index x) in
  Ret (0, ec).

Definition ei_rpc_from (fd timeout : Z) (m : erlang_msg) (x : ei_x_buff)
    : proc (Z * erlang_msg * ei_x_buff) :=
  if (fd <? 0) || (FD_SETSIZE <=? fd) then Undef else
  let! (n, isset) := ask (r_select fd reading timeout) in
  if n =? -1 then
    let! _ := set_errno EIO in Ret (ERL_ERROR, m, x)
  else if n =? 0 then
    let! _ := set_errno ETIMEDOUT in Ret (ERL_TIMEOUT, m, x)
  else if isset then ei_xreceive_msg fd m x
  else
    let! _ := set_errno EIO in Ret (ERL_ERROR, m, x).

(** [while (... == ERL_TICK) ;], at most [fuel] ticks. *)
Fixpoint rpc_wait (fuel : nat) (fd : Z) (m : erlang_msg) (x : ei_x_buff)
    : proc (Z * erlang_msg * ei_x_buff) :=
  let! (i, m, x) := ei_rpc_from fd ERL_NO_TIMEOUT m x in
  if i =? ERL_TICK then
    match fuel with O => Undef | S fuel => rpc_wait fuel fd m x end
  else Ret (i, m, x).

(** [if (t.ei_type == ERL_SMALL_TUPLE_EXT && t.arity == 2)] the tag of the reply is
    passed over. *)
Definition rpc_tag (t : EiTerm.ei_term) (i : Z) : D (cres unit) :=
  if (EiTerm.ei_type t =? ERL_SMALL_TUPLE_EXT) && (EiTerm.arity t =? 2) then
    let- (i, _) := ei_decode_atom true 0 i in retD (Done i tt)
  else retD (Done i tt).

(** What is in front of the reply: the version, and the tuple with the tag. [t] is
    what the local ei_term happens to hold. *)
Definition rpc_head (t : EiTerm.ei_term) : D (cres unit) :=
  let- (i, _) := ei_decode_version true 0 0 in
  let+ (r, i, t) := EiTerm.ei_decode_ei_term sscanf_lf (Some t) 0 i in
  match t with
  | Some t => if r <? 0 then retD Fail else rpc_tag t i
  | None => retD Fail
  end.

(** The buffer with the reply at its start. *)
Definition rpc_reply (t : EiTerm.ei_term) (x : ei_x_buff) : option (Z * ei_x_buff) :=
  b ← buff x;
  h ← rpc_head t b;
  match h with
  | Fail => Some (-1, x)
  | Done i _ =>
      let n := int32 (index x - i) in
      bs ← load_bytes i n b;
      '(_, b) ← memcpy (at_off 0) bs b;
      Some (0, XBuff (Some b) (buffsz x) n)
  end.

Definition ei_rpc (fuel : nat) (t : EiTerm.ei_term) (m : erlang_msg) (ec : ei_cnode) (fd : Z)
    (mod_ fun_ inbuf : list Z) (inbuflen : Z) (x : ei_x_buff) : proc (Z * ei_cnode * ei_x_buff) :=
  let! (r, ec) := ei_rpc_to ec fd mod_ fun_ inbuf inbuflen in
  if r <? 0 then Ret (-1, ec, x) else
  let! (i, _, x) := rpc_wait fuel fd m x in
  if i =? ERL_ERROR then Ret (-1, ec, x) else
  let! (r, x) := lift_opt (rpc_reply t x) in
  Ret (r, ec, x).
End Rpc.
