(* ===== verification/MessageOk.v ===== *)
(** * Messages: their bytes, and that what is sent is received

    The bytes of a control tuple by the type of the message; the senders write
    them in front of the payload, and [ei_recv_internal] takes them apart. *)

From S2P Require Import Prelude Mem PutGet Ext Headers Ints Atom Data Ids Term XBuff Proc Session PortIO Epmd Connect ConnectOk Message.

(** ** Control tuples *)

Inductive field :=
  | f_from (p : erlang_pid)
  | f_to (p : erlang_pid)
  | f_cookie (a : list Z)
  | f_toname (a : list Z)
  | f_token (t : erlang_trace).

(** Names travel as Latin-1 texts in the sender's array, and arrive in UTF-8. *)
Definition field_bytes (f : field) : list Z :=
  match f with
  | f_from p | f_to p => ext_pid p
  | f_cookie a | f_toname a => ext_atom_latin1 (c_str a)
  | f_token t => ext_trace t
  end.

Definition field_encode (f : field) : ptr -> Z -> M (Z * Z) :=
  match f with
  | f_from p | f_to p => ei_encode_pid p
  | f_cookie a | f_toname a => ei_encode_atom a
  | f_token t => ei_encode_trace t
  end.

Definition a_pid_ok (p : erlang_pid) : Prop := name_ok (pid_node p) /\ is_uint32 (pid_creation p).
Definition a_name_ok (a : list Z) : Prop := Forall is_byte a /\ strlen a < MAXATOMLEN.

Definition field_ok (f : field) : Prop :=
  match f with
  | f_from p | f_to p => a_pid_ok p
  | f_cookie a | f_toname a => a_name_ok a
  | f_token t => trace_ok t /\ a_pid_ok (tr_from t)
  end.

Definition field_set (m : erlang_msg) (f : field) : erlang_msg :=
  match f with
  | f_from p => set_from m (pid_sent p)
  | f_to p => set_to m (pid_sent p)
  | f_cookie a => set_cookie m (utf8_of_latin1 (c_str a))
  | f_toname a => set_toname m (utf8_of_latin1 (c_str a))
  | f_token t => set_token m (trace_sent t)
  end.

(** The fields of each type of message. *)
Inductive fields_for : Z -> list field -> Prop :=
  | ff_send c p : fields_for ERL_SEND [f_cookie c; f_to p]
  | ff_reg_send p c n : fields_for ERL_REG_SEND [f_from p; f_cookie c; f_toname n]
  | ff_pids t p q : t ∈ [ERL_LINK; ERL_UNLINK; ERL_GROUP_LEADER; ERL_EXIT; ERL_EXIT2] ->
      fields_for t [f_from p; f_to q]
  | ff_send_tt c p k : fields_for ERL_SEND_TT [f_cookie c; f_to p; f_token k]
  | ff_reg_send_tt p c n k :
      fields_for ERL_REG_SEND_TT [f_from p; f_cookie c; f_toname n; f_token k]
  | ff_exit_tt t p q k : t ∈ [ERL_EXIT_TT; ERL_EXIT2_TT] ->
      fields_for t [f_from p; f_to q; f_token k].

Definition control (t : Z) (fs : list field) : list Z :=
  ext_version ++ ext_tuple_header (1 + len fs) ++ ext_longlong t ++ concat (field_bytes <$> fs).

Lemma len_ext_longlong_type t : 0 <= t < 256 -> len (ext_longlong t) = 2.
Proof. intros. unfold ext_longlong. by rewrite (proj2 (Z.ltb_lt t 256)), (proj2 (Z.leb_le 0 t)) by lia. Qed.

(** ** The encoders *)

#[export] Instance encode_atom_ok a :
  a_name_ok a -> Encodes (ei_encode_atom a) (ext_atom_latin1 (c_str a)).
Proof.
  intros [Hb Hl]. apply (Encodes_ext _ (ei_encode_atom_len_as (c_str a) (len (c_str a)) ERLANG_LATIN1 0)).
  - intros b i s. unfold ei_encode_atom. rewrite (proj2 (Z.leb_gt _ _)) by done. apply atom_strlen.
  - apply encode_atom_latin1_ok; [by apply c_str_byte | done].
Qed.

Lemma encode_field_ok f : field_ok f -> Encodes (field_encode f) (field_bytes f).
Proof.
  destruct f; cbn.
  - intros [? _]. by apply encode_pid_ok.
  - intros [? _]. by apply encode_pid_ok.
  - intros. by apply encode_atom_ok.
  - intros. by apply encode_atom_ok.
  - intros [? _]. by apply encode_trace_ok.
Qed.

(** ** The decoders *)

(** The fields from [index] on are read and stored. *)
Definition gets (g : erlang_msg -> Z -> D (cres erlang_msg)) (f : field) : Prop :=
  forall m index s, 0 <= index -> index + len (field_bytes f) <= int_max ->
    at_ s index (field_bytes f) ->
    g m index s = Some (Done (index + len (field_bytes f)) (field_set m f)).

Lemma gets_field {A} (f : field) (d : bool -> Z -> Z -> D (cres (option A))) set a :
  Decodes d (field_bytes f) a -> (forall m, set m a = field_set m f) ->
  gets (fun m index => get_field (d true 0 index) set m) f.
Proof.
  intros Hd Hs m index s Hi Hl Ha. unfold get_field.
  erewrite bindC_Done by (apply Hd; [done | done | exact Ha]). cbn. unfold retD. by rewrite Hs.
Qed.

Lemma gets_from p : a_pid_ok p -> gets get_from (f_from p).
Proof. intros [? ?]. eapply (gets_field (f_from p)); [by apply decode_pid_ok | done]. Qed.
Lemma gets_to p : a_pid_ok p -> gets get_to (f_to p).
Proof. intros [? ?]. eapply (gets_field (f_to p)); [by apply decode_pid_ok | done]. Qed.
Lemma gets_token t : trace_ok t /\ a_pid_ok (tr_from t) -> gets get_token (f_token t).
Proof.
  intros (? & _ & ?). eapply (gets_field (f_token t)); [apply decode_trace_ok; assumption | done].
Qed.

Lemma gets_name set a f :
  a_name_ok a -> field_bytes f = ext_atom_latin1 (c_str a) ->
  (forall m, set m (utf8_of_latin1 (c_str a)) = field_set m f) ->
  gets (get_name set) f.
Proof.
  intros [Hb Hl] Hf Hs m index s Hi Hmax Ha. unfold get_name. rewrite Hf in *.
  unfold ext_atom_latin1 in *. pose proof (len_utf8_of_latin1 (c_str a)).
  unfold strlen, MAXATOMLEN in Hl.
  assert (Hfit : atom_fits (128 <=? len (c_str a)) (utf8_of_latin1 (c_str a))).
  { split; [by apply utf8_of_latin1_byte, c_str_byte |].
    destruct (Z.leb_spec 128 (len (c_str a))); lia. }
  pose proof (decode_atom_utf8 _ _ true MAXATOMLEN_UTF8 ERLANG_UTF8 0 index s Hfit
    ltac:(done) Hi Hmax Ha) as Hd.
  rewrite (proj2 (Z.ltb_lt _ _)) in Hd by (unfold MAXATOMLEN_UTF8; lia).
  rewrite (bindC_Done _ _ _ _ _ Hd). cbn [at_text]. unfold retD. by rewrite Hs.
Qed.

Lemma gets_cookie a : a_name_ok a -> gets (get_name set_cookie) (f_cookie a).
Proof. intros. by apply (gets_name _ a). Qed.
Lemma gets_toname a : a_name_ok a -> gets (get_name set_toname) (f_toname a).
Proof. intros. by apply (gets_name _ a). Qed.

Lemma gets_step g f rest m index s (k : Z -> erlang_msg -> D (cres erlang_msg)) :
  gets g f -> 0 <= index -> index + len (field_bytes f) <= int_max ->
  at_ s index (field_bytes f ++ rest) ->
  bindC (g m index) k s = k (index + len (field_bytes f)) (field_set m f) s.
Proof. intros Hg ? ? [Ha _]%at_app. by erewrite bindC_Done by (by apply Hg). Qed.

(** A field and the ones behind it; the last one. *)
Lemma gets_bind g f rest m i s (k : Z -> erlang_msg -> D (cres erlang_msg)) r :
  gets g f -> 0 <= i -> i + len (field_bytes f ++ rest) <= int_max ->
  at_ s i (field_bytes f ++ rest) ->
  (0 <= i + len (field_bytes f) -> i + len (field_bytes f) + len rest <= int_max ->
   at_ s (i + len (field_bytes f)) rest ->
   k (i + len (field_bytes f)) (field_set m f) s
   = Some (Done (i + len (field_bytes f) + len rest) r)) ->
  bindC (g m i) k s = Some (Done (i + len (field_bytes f ++ rest)) r).
Proof.
  intros Hg Hi Hmax Hat Hk. rewrite len_app in *. erewrite gets_step by (done || lia).
  apply at_app in Hat as [_ Hat]. rewrite Hk by (done || lia). do 2 f_equal. lia.
Qed.

Lemma gets_last g f m i s :
  gets g f -> 0 <= i -> i + len (field_bytes f ++ []) <= int_max ->
  at_ s i (field_bytes f ++ []) ->
  g m i s = Some (Done (i + len (field_bytes f ++ [])) (field_set m f)).
Proof. rewrite app_nil_r. intros Hg. apply Hg. Qed.

#[local] Hint Resolve gets_from gets_to gets_cookie gets_toname gets_token : core.

Lemma fields_ok fs m index s :
  fields_for (msgtype m) fs -> Forall field_ok fs -> 0 <= index ->
  index + len (concat (field_bytes <$> fs)) <= int_max ->
  at_ s index (concat (field_bytes <$> fs)) ->
  decode_fields m index s
  = Some (Done (index + len (concat (field_bytes <$> fs))) (fold_left field_set fs m)).
Proof.
  intros Hf Hok Hi Hl Ha. unfold decode_fields. remember (msgtype m) as t eqn:Ht. clear Ht.
  destruct Hf;
    repeat match goal with
    | H : Forall _ (_ :: _) |- _ => apply list.Forall_cons in H as [? H]
    | H : _ ∈ _ |- _ => rewrite !elem_of_cons, elem_of_nil in H
    | H : _ \/ _ |- _ => destruct H as [-> | H]
    | H : False |- _ => destruct H
    end; cbn [field_ok] in *; ctests; cbn [fmap list_fmap concat fold_left] in *;
    repeat (apply gets_bind; [by auto | done | done | done | intros ? ? ?]);
    apply gets_last; (by auto) || done.
Qed.

(** The whole control tuple, behind ERL_PASS_THROUGH. *)
Lemma control_ok t fs m s :
  fields_for t fs -> Forall field_ok fs -> is_int64 t -> len fs < 255 ->
  1 + len (control t fs) <= int_max -> at_ s 0 (ERL_PASS_THROUGH :: control t fs) ->
  decode_control m s
  = Some (Done (1 + len (control t fs)) (fold_left field_set fs (set_msgtype m t))).
Proof.
  intros Hf Hok Ht Hfs Hl Ha. unfold decode_control, control in *. rewrite !len_app in *.
  apply at_cons in Ha as [H0 Ha]. apply at_app in Ha as [H1 Ha]. apply at_app in Ha as [H2 Ha].
  apply at_app in Ha as [H3 H4].
  erewrite bindD_Some by (eapply get8_at; [| exact H0]; is_byte_tac). cbv iota. ctests.
  erewrite bindC_Done by (apply decode_version_ok; [lia | lia | exact H1]).
  cbn [out]. rewrite bool_decide_true by done. cbn [negb].
  erewrite bindC_Done by (apply (decode_tuple_header_ok (1 + len fs));
    [unfold is_int32; lia | lia | lia | lia | exact H2]).
  erewrite bindC_Done by (apply (decode_longlong_ok t); [done | lia | lia | exact H3]).
  cbn [out]. rewrite (fields_ok fs); [| done | done | lia | lia | exact H4].
  do 2 f_equal. lia.
Qed.

(** ** Sending *)

(** The length, ERL_PASS_THROUGH and the control tuple, for a payload of [n] bytes. *)
Definition frame (t : Z) (fs : list field) (n : Z) : list Z :=
  be32 (1 + len (control t fs) + n) ++ ERL_PASS_THROUGH :: control t fs.

Lemma len_frame t fs n : len (frame t fs n) = 5 + len (control t fs).
Proof. unfold frame. autorewrite with len. lia. Qed.

Fixpoint encode_all (es : list (ptr -> Z -> M (Z * Z))) (index : Z) : M Z :=
  match es with
  | [] => retM index
  | e :: es => let* index := then_encode e index in encode_all es index
  end.

Definition encoders (t : Z) (fs : list field) : list (ptr -> Z -> M (Z * Z)) :=
  [ei_encode_version; ei_encode_tuple_header (1 + len fs); ei_encode_long t] ++
  (field_encode <$> fs).

Definition header_of (t : Z) (fs : list field) (n : Z) : M Z :=
  let* index := encode_all (encoders t fs) 5 in
  let* _ := put_length (int32 (index + n - 4)) in
  retM index.

Lemma encode_all_ok es bss pre blk : Forall2 Encodes es bss ->
  fits blk 0 (pre ++ concat bss) -> len (pre ++ concat bss) <= int_max ->
  encode_all es (len pre) (splice blk 0 pre)
  = Some (len (pre ++ concat bss), splice blk 0 (pre ++ concat bss)).
Proof.
  intros He. revert pre. induction He as [| e bs es bss He _ IH]; intros pre [Ho Hf] Hl;
    cbn [encode_all concat] in *; [by rewrite app_nil_r |].
  rewrite !len_app in Hf, Hl. unfold then_encode. rewrite bindM_assoc.
  erewrite bindM_Some.
  2:{ apply encodes_buf; [lia | lia |]. cbn [Z.add]. apply fits_splice; split; rewrite ?len_app; lia. }
  cbv iota. rewrite bindM_ret, splice_app by (split; rewrite ?len_app; lia).
  rewrite <- len_app, IH.
  - by rewrite <- app_assoc.
  - split; [lia |]. rewrite !len_app. lia.
  - rewrite !len_app. lia.
Qed.

Lemma header_ok t fs n blk :
  Forall field_ok fs -> is_int64 t -> fits blk 0 (frame t fs n) -> 0 <= n ->
  5 + len (control t fs) + n <= int_max ->
  header_of t fs n blk = Some (len (frame t fs n), splice blk 0 (frame t fs n)).
Proof.
  intros Hok Ht [_ Hf] Hn Hl. rewrite len_frame in *. unfold header_of.
  set (pre := take 5 blk).
  assert (Hpre : len pre = 5) by (unfold pre; rewrite length_take; lia).
  assert (Hblk : blk = splice blk 0 pre).
  { unfold splice, pre. cbn [Z.to_nat take app]. change (Z.to_nat 0) with 0%nat.
    rewrite Nat.add_0_l, length_take, Nat.min_l by lia. by rewrite take_drop. }
  assert (He : Forall2 Encodes (encoders t fs)
    ([ext_version; ext_tuple_header (1 + len fs); ext_longlong t] ++ (field_bytes <$> fs))).
  { apply Forall2_app.
    - constructor; [apply encode_version_ok |]. constructor; [apply encode_tuple_header_ok; lia |].
      constructor; [by apply encode_longlong_ok | constructor].
    - clear -Hok. induction Hok; cbn; constructor; [by apply encode_field_ok | done]. }
  assert (Hc : concat ([ext_version; ext_tuple_header (1 + len fs); ext_longlong t] ++
    (field_bytes <$> fs)) = control t fs) by done.
  pose proof (encode_all_ok _ _ pre blk He) as Hall. rewrite Hc in Hall. rewrite len_app, Hpre in Hall.
  rewrite Hblk at 1. erewrite bindM_Some by (apply Hall; [split; rewrite ?len_app; lia | lia]).
  unfold int_max in Hl. rewrite int32_small by (unfold is_int32; lia).
  replace (5 + len (control t fs) + n - 4) with (1 + len (control t fs) + n) by lia.
  unfold put_length.
  set (b5 := be32 (1 + len (control t fs) + n) ++ [ERL_PASS_THROUGH]).
  set (blk2 := splice blk 0 (pre ++ control t fs)).
  assert (Hl2 : length blk2 = length blk)
    by (unfold blk2; rewrite length_splice; [done | split; rewrite ?len_app; lia]).
  apply (run_start _ blk2 0). repeat wstep. cbn [app]. rewrite bindM_ret. unfold retM.
  f_equal. f_equal. change (ERL_PASS_THROUGH) with (byte ERL_PASS_THROUGH) in b5.
  fold b5. unfold blk2. pose proof (splice_patch blk 0 [] pre b5 (control t fs)) as Hp.
  cbn [app length] in Hp. change (0 + Z.of_nat 0) with 0 in Hp.
  rewrite Hp; [| split; rewrite ?len_app; lia | change (length b5) with 5%nat; lia].
  unfold frame, b5. by rewrite <- app_assoc.
Qed.

Definition fdcookie (fd : Z) (g : globals) : list Z :=
  default [] (cookie <$> (snd <$> socket_at fd (ei_sockets g))).

Ltac header_tac :=
  unfold send_header, reg_send_header, header_of, encoders;
  cbn [encode_all app fmap list_fmap field_encode encode_token length];
  change (1 + Z.of_nat 2) with 3; change (1 + Z.of_nat 3) with 4; unfold bindM, retM;
  repeat match goal with
  | |- context [match then_encode ?e ?i ?s with _ => _ end] =>
      destruct (then_encode e i s) as [[? ?] |]; [| reflexivity]
  end; by case_match.

Lemma send_header_of c to n s :
  send_header c to None n s = header_of ERL_SEND [f_cookie c; f_to to] n s.
Proof. header_tac. Qed.

Lemma reg_send_header_of from c to n s :
  reg_send_header from c to None n s = header_of ERL_REG_SEND [f_from from; f_cookie c; f_toname to] n s.
Proof. header_tac. Qed.

Section Conversation.
Context {S : Type} (fd : Z) (L : env S) {W : Works L} (ms : Z).
Context (Hms : timeout_ok fd ms).

Lemma wp_distversion {A} (k : Z -> proc A) (s : script * S) Q :
  (forall v, wp (link fd L) (k v) s Q) -> wp (link fd L) (bindP (ei_distversion fd) k) s Q.
Proof.
  intros Hk. apply wp_assoc, wp_assoc, (wp_plain (link fd L)); [done |].
  intros g s' [-> ->]. cbn [bindP]. destruct (snd <$> _); apply Hk.
Qed.

Lemma wp_no_token {A} (k : option erlang_trace -> proc A) G s Q :
  tracing (get_vars s) = 0 -> wp (link fd L) (k None) (G, s) Q ->
  wp (link fd L) (bindP (trace_token fd) k) (G, s) Q.
Proof.
  intros Ht Hk. apply wp_assoc, wp_distversion. intros v. destruct (0 <? v); [| done].
  apply wp_assoc, (wp_plain (link fd L)); [done |]. intros g s' [-> ->].
  change (0 =? -1) with false. change (0 =? 0) with true. cbv iota.
  cbn [get_vars link_works snd]. by rewrite Ht.
Qed.

Lemma wp_fdcookie {A} (k : list Z -> proc A) G s Q :
  wp (link fd L) (k (fdcookie fd (get_vars s))) (G, s) Q ->
  wp (link fd L) (bindP (ei_getfdcookie fd) k) (G, s) Q.
Proof.
  intros Hk. apply wp_assoc, wp_assoc, wp_assoc, (wp_plain (link fd L)); [done |].
  by intros g s' [-> ->].
Qed.

Lemma write_message_link {A} header bs msg n (k : Z -> proc A) G s Q :
  (exists tl, header = bs ++ tl) -> bs <> [] -> 0 <= n <= len msg -> len bs + n <= int_max ->
  wp (link fd L) (k 0) (G, s) Q ->
  wp (link fd L) (bindP (write_message fd header (len bs) msg n ms) k)
    (outs (bs ++ take (Z.to_nat n) msg) ++ G, s) Q.
Proof.
  intros [tl ->] Hb Hn Hl Hk. unfold write_message. unfold int_max in Hl.
  rewrite len_app, !uint64_small by (unfold is_uint64; lia).
  rewrite (proj2 (Z.ltb_ge _ (len bs))), (proj2 (Z.ltb_ge _ n)) by lia. cbn [orb].
  rewrite Nat2Z.id, take_app_length.
  assert (Hc : concat [bs; take (Z.to_nat n) msg] = bs ++ take (Z.to_nat n) msg)
    by (cbn; by rewrite app_nil_r).
  assert (Hlc : len (concat [bs; take (Z.to_nat n) msg]) = len bs + n)
    by (rewrite Hc, len_app, length_take; lia).
  rewrite <- Hc. apply wp_assoc, writev_fill_link; [done | done | | unfold int_max; lia |].
  - rewrite Hc. by destruct bs.
  - rewrite Hlc, int32_small by (unfold is_int32; lia). by rewrite Z.eqb_refl.
Qed.

(** One message of type [t], as the sender writes it. *)
Definition message (t : Z) (fs : list field) (payload : list Z) : list Z :=
  frame t fs (len payload) ++ payload.

Lemma wp_header {A} t fs n room (header : M Z) (k : Z * list Z -> proc A) s Q :
  (forall blk, header blk = header_of t fs n blk) ->
  Forall field_ok fs -> is_int64 t -> len (frame t fs n) <= room -> 0 <= n ->
  5 + len (control t fs) + n <= int_max ->
  (forall tl, wp (link fd L) (k (len (frame t fs n), frame t fs n ++ tl)) s Q) ->
  forall blk, len blk = room -> wp (link fd L) (bindP (lift_M header blk) k) s Q.
Proof.
  intros Hh Hok Ht Hr Hn Hl Hk blk Hb.
  eapply wp_lift_M; [rewrite Hh; apply header_ok; [done | done | split; lia | done | done] |].
  unfold splice. apply Hk.
Qed.

Lemma send_link {A} ck to msg n (k : Z -> proc A) G s Q :
  let fs := [f_cookie ck; f_to to] in
  ck = fdcookie fd (get_vars s) -> tracing (get_vars s) = 0 -> Forall field_ok fs -> len (frame ERL_SEND fs n) <= 1200 ->
  0 <= n <= len msg -> 5 + len (control ERL_SEND fs) + n <= int_max ->
  wp (link fd L) (k 0) (G, s) Q ->
  wp (link fd L) (bindP (ei_send_encoded_tmo fd to msg n ms) k)
    (outs (frame ERL_SEND fs n ++ take (Z.to_nat n) msg) ++ G, s) Q.
Proof.
  intros fs Hck Ht Hok Hr Hn Hl Hk. unfold ei_send_encoded_tmo.
  apply wp_assoc, (wp_plain (link fd L)); [done |]. intros header s' [[Hb _] ->].
  apply wp_assoc, wp_no_token; [done |]. apply wp_assoc, wp_fdcookie. rewrite <- Hck.
  eapply wp_assoc, (wp_header ERL_SEND fs n 1200); [apply send_header_of | done | done | done | lia | done | | done].
  intros tl. apply write_message_link; [by exists tl | done | lia | rewrite len_frame; lia | done].
Qed.

Lemma reg_send_link {A} ck from to msg n (k : Z -> proc A) G s Q :
  let fs := [f_from from; f_cookie ck; f_toname to] in
  ck = fdcookie fd (get_vars s) -> tracing (get_vars s) = 0 -> Forall field_ok fs -> len (frame ERL_REG_SEND fs n) <= 1400 ->
  0 <= n <= len msg -> 5 + len (control ERL_REG_SEND fs) + n <= int_max ->
  wp (link fd L) (k 0) (G, s) Q ->
  wp (link fd L) (bindP (ei_send_reg_encoded_tmo fd from to msg n ms) k)
    (outs (frame ERL_REG_SEND fs n ++ take (Z.to_nat n) msg) ++ G, s) Q.
Proof.
  intros fs Hck Ht Hok Hr Hn Hl Hk. unfold ei_send_reg_encoded_tmo.
  apply wp_assoc, (wp_plain (link fd L)); [done |]. intros header s' [[Hb _] ->].
  apply wp_assoc, wp_no_token; [done |]. apply wp_assoc, wp_fdcookie. rewrite <- Hck.
  eapply wp_assoc, (wp_header ERL_REG_SEND fs n 1400); [apply reg_send_header_of | done | done | done | lia | done | | done].
  intros tl. apply write_message_link; [by exists tl | done | lia | rewrite len_frame; lia | done].
Qed.
End Conversation.

(** ** Receiving *)

(** Every receive turns tracing off. *)
Definition untraced (g : globals) : globals :=
  Globals (erl_errno g) (ei_sockets g) (ei_sz_sockets g) (save_token g) 0 (clock g) (epmd_port g)
    (compat_rel g).

(** The buffer of [n] bytes that has what it takes: the caller's, or a greater one. *)
Definition payload_in (mbuf payload mbuf' : list Z) : Prop :=
  len mbuf' = Z.max (len mbuf) (len payload) /\ take (length payload) mbuf' = payload.

Lemma splice_start blk bs : fits blk 0 bs -> payload_in blk bs (splice blk 0 bs).
Proof.
  intros Hf. split.
  - rewrite length_splice by done. destruct Hf. lia.
  - change (splice blk 0 bs) with (bs ++ drop (0 + length bs) blk). by rewrite take_app_length.
Qed.

Section Receiving.
Context {S : Type} (fd : Z) (L : env S) {W : Works L} (ms : Z).
Context (Hms : timeout_ok fd ms).

Lemma wp_no_tracing {A} (k : option erlang_trace -> proc A) G s Q :
  wp (link fd L) (k None) (G, put_vars (untraced (get_vars s)) s) Q ->
  wp (link fd L) (bindP (ei_trace (-1) no_token) k) (G, s) Q.
Proof.
  intros Hk. apply wp_assoc, (wp_plain (link fd L)); [done |]. intros g s' [-> ->].
  change (-1 =? -1) with true. cbv zeta iota.
  apply wp_assoc, wp_assoc, (wp_plain (link fd L)); [done |]. intros g s' [-> ->].
  apply (wp_plain (link fd L)); [done |]. by intros [] s' ->.
Qed.

(** [sz] bytes of the buffer are offered; one that may grow is offered whole. *)
Definition small_room (mbuf : list Z) (sz : Z) (payload : list Z) (st : bool) : Prop :=
  len payload <= sz <= len mbuf \/ (st = false /\ sz = len mbuf).

(** The part of the payload behind the control tuple, and the part still to come. *)
Lemma recv_payload_link header mbuf sz m index p1 p2 ml st G s (Q : received -> script * S -> Prop) :
  let payload := p1 ++ p2 in
  at_ header index p1 -> Forall is_byte p1 -> index + len payload <= int_max ->
  small_room mbuf sz payload st -> 0 <= msgtype m <= 10 ->
  (forall mbuf', payload_in mbuf payload mbuf' ->
    Q (Received (msgtype m) mbuf' (Z.max sz (len payload)) m (len payload)) (G, s)) ->
  wp (link fd L)
    (recv_payload fd header mbuf sz m index (index + len payload) (index + len p1) ml st ms)
    (ins p2 ++ G, s) Q.
Proof.
  intros payload Ha Hb Hl Hroom Hm Hq. unfold recv_payload.
  destruct Ha as [Hi Ha]. unfold int_max in Hl.
  assert (Hlp : len payload = len p1 + len p2) by apply len_app.
  rewrite !int32_small by (unfold is_int32; lia).
  replace (index + len payload - index) with (len payload) by lia.
  replace (index + len payload - (index + len p1)) with (len p2) by lia.
  replace (index + len p1 - index) with (len p1) by lia.
  assert (Hgo : forall b, len b = Z.max (len mbuf) (len payload) ->
    wp (link fd L) (let! mbuf := move_payload b header index (len p1) in
      let done (mbuf : list Z) : proc received :=
        let t := if 10 <? msgtype m then msgtype m - 10 else msgtype m in
        Ret (Received (int32 t) mbuf (Z.max sz (len payload)) (set_msgtype m t) (len payload)) in
      if 0 <? len p2 then
        let! (i, mbuf) := ei_read_fill_t fd mbuf (len p1) (len p2) ms in
        if negb (i =? len p2) then
          let! _ := io_errno i in
          Ret (Received (-1) mbuf (Z.max sz (len payload)) m (len p1 + 1))
        else done mbuf
      else done mbuf) (ins p2 ++ G, s) Q).
  { intros b Hlb. unfold move_payload. apply wp_assoc.
    eapply wp_lift_D; [by apply load_bytes_at |]. apply wp_assoc.
    eapply wp_lift_M; [apply memcpy_ok; split; lia |]. rewrite bytes_id by done. cbv zeta.
    rewrite (proj2 (Z.ltb_ge 10 _)), int32_small by (unfold is_int32; lia). cbn [bindP].
    assert (Hfit : fits b 0 (p1 ++ p2)) by (split; [done |]; fold payload; lia).
    assert (Hend : wp (link fd L) (Ret (Received (msgtype m) (splice b 0 payload)
        (Z.max sz (len payload)) (set_msgtype m (msgtype m)) (len payload))) (G, s) Q).
    { cbn. destruct (splice_start b payload Hfit) as [Hsl Hst].
      replace (set_msgtype m (msgtype m)) with m by (by destruct m).
      apply Hq. split; [lia | done]. }
    destruct (Z.ltb_spec 0 (len p2)).
    - apply wp_bind, read_fill_link; [done | | done | unfold int_max; lia | |].
      + intros ->. cbn in *. lia.
      + apply fits_splice; split; lia.
      + rewrite Z.eqb_refl. cbn [negb]. change (len p1) with (0 + len p1).
        by rewrite splice_app.
    - assert (p2 = []) as -> by (destruct p2; [done | cbn [length] in *; lia]).
      unfold payload in Hend at 1. by rewrite app_nil_r in Hend. }
  unfold small_room in Hroom. destruct (Z.ltb_spec sz (len payload)) as [Hbig | Hsmall].
  - destruct Hroom as [? | [-> ->]]; [lia |]. rewrite uint64_small by (unfold is_uint64; lia).
    apply wp_assoc, (wp_plain (link fd L)); [cbn; lia |].
    intros r s' [(pad & -> & Hpad & _) ->]. cbn [bindP].
    set (b := take (Z.to_nat (len payload)) mbuf ++ pad).
    assert (Hlb : len b = len payload)
      by (unfold b; rewrite len_app, length_take; lia).
    pose proof (Hgo b ltac:(lia)) as Hg. rewrite (Z.max_r (len mbuf)) in Hg by lia.
    exact Hg.
  - pose proof (Hgo mbuf ltac:(lia)) as Hg. rewrite (Z.max_l sz) in Hg by lia. exact Hg.
Qed.
(** What the message in front of the payload makes of the erlang_msg. *)
Definition msg_of (t : Z) (fs : list field) (m : erlang_msg) : erlang_msg :=
  fold_left field_set fs (set_msgtype m t).

Lemma field_set_msgtype f m : msgtype (field_set m f) = msgtype m.
Proof. by destruct f. Qed.
Lemma msg_of_msgtype t fs m : msgtype (msg_of t fs m) = t.
Proof.
  unfold msg_of. assert (Hm : msgtype (set_msgtype m t) = t) by done. revert Hm.
  generalize (set_msgtype m t). induction fs as [| f fs IH]; intros m' Hm; [done |].
  cbn. apply IH. by rewrite field_set_msgtype.
Qed.

Lemma untraced_type t : 0 <= t <= 10 -> is_traced t = false.
Proof.
  intros. unfold is_traced, ERL_SEND_TT, ERL_REG_SEND_TT, ERL_EXIT_TT, ERL_EXIT2_TT.
  by rewrite !(proj2 (Z.eqb_neq t _)) by lia.
Qed.

Lemma recv_link_in {A} t fs payload mbuf sz m ml st (k : received -> proc A) G s Q :
  fields_for t fs -> Forall field_ok fs -> 0 <= t <= 10 -> Forall is_byte payload ->
  1 + len (control t fs) <= EIRECVBUF -> 1 + len (control t fs) + len payload <= int_max ->
  small_room mbuf sz payload st ->
  (forall mbuf', payload_in mbuf payload mbuf' ->
    wp (link fd L) (k (Received t mbuf' (Z.max sz (len payload)) (msg_of t fs m) (len payload)))
      (G, put_vars (untraced (get_vars s)) s) Q) ->
  wp (link fd L) (bindP (ei_recv_internal fd mbuf sz m ml st ms) k)
    (ins (message t fs payload) ++ G, s) Q.
Proof.
  intros Hf Hok Ht Hb Hc Hl Hroom Hk. apply wp_bind. unfold ei_recv_internal, EIRECVBUF, int_max in *.
  assert (Hfs : len fs < 255) by (destruct Hf; cbn; lia).
  apply (wp_plain (link fd L)); [done |]. intros blk s' [[Hblk _] ->].
  unfold message, frame. rewrite <- app_assoc, ins_app, <- app_assoc. cbn [app].
  apply wp_bind, read_fill_link; [done | done | done | by unfold int_max | split; cbn [length be32]; lia |].
  change (negb (4 =? 4)) with false. cbv iota.
  eapply wp_lift_D; [apply get32be_at, at_splice; split; cbn [length be32]; lia |]. cbv iota.
  rewrite int32_small by (unfold is_int32; lia). rewrite (proj2 (Z.eqb_neq _ 0)) by lia.
  apply wp_no_tracing. set (h := splice blk 0 _).
  assert (Hh : len h = 2048) by (unfold h; rewrite length_splice; [lia | split; cbn [length be32]; lia]).
  clearbody h. set (head := ERL_PASS_THROUGH :: control t fs).
  assert (Hlh : len head = 1 + len (control t fs)) by (unfold head; by rewrite len_cons).
  set (k1 := Z.to_nat (2048 - len head)). set (p1 := take k1 payload). set (p2 := drop k1 payload).
  assert (Hp : p1 ++ p2 = payload) by apply take_drop.
  assert (Hp1 : len p1 = Z.min (2048 - len head) (len payload))
    by (unfold p1; rewrite length_take; lia).
  replace (if 2048 <? _ then 2048 else _) with (len (head ++ p1)).
  2:{ rewrite len_app. destruct (Z.ltb_spec 2048 (1 + len (control t fs) + len payload)); lia. }
  change (ERL_PASS_THROUGH :: control t fs ++ payload) with (head ++ payload).
  assert (Hins : ins (head ++ payload) = ins (head ++ p1) ++ ins p2)
    by (by rewrite <- ins_app, <- app_assoc, Hp).
  rewrite Hins, <- app_assoc.
  apply wp_bind, read_fill_link; [done | done | done | rewrite len_app; unfold int_max; lia | |].
  { split; rewrite ?len_app; lia. }
  rewrite Z.eqb_refl. cbn [negb].
  assert (Ha : at_ (splice h 0 (head ++ p1)) 0 (head ++ p1))
    by (apply at_splice; split; rewrite ?len_app; lia).
  apply at_app in Ha as [Ha0 Ha1].
  eapply wp_lift_D; [apply (control_ok t fs); [done | done | unfold is_int64; lia | done | unfold int_max; lia | exact Ha0] |].
  change (fold_left field_set fs (set_msgtype m t)) with (msg_of t fs m).
  cbv iota. rewrite msg_of_msgtype, untraced_type by done. cbn [bindP].
  replace (1 + len (control t fs)) with (len head) by done.
  rewrite <- Hp. rewrite (len_app head p1).
  apply recv_payload_link; rewrite ?Hp, ?msg_of_msgtype.
  - exact Ha1.
  - by apply Forall_take.
  - unfold int_max; lia.
  - done.
  - done.
  - intros mbuf' Hm. by apply Hk.
Qed.

(** All of the buffer is offered. *)
Lemma recv_link {A} t fs payload mbuf m ml st (k : received -> proc A) G s Q :
  fields_for t fs -> Forall field_ok fs -> 0 <= t <= 10 -> Forall is_byte payload ->
  1 + len (control t fs) <= EIRECVBUF -> 1 + len (control t fs) + len payload <= int_max ->
  len payload <= len mbuf \/ st = false ->
  (forall mbuf', payload_in mbuf payload mbuf' ->
    wp (link fd L) (k (Received t mbuf' (len mbuf') (msg_of t fs m) (len payload)))
      (G, put_vars (untraced (get_vars s)) s) Q) ->
  wp (link fd L) (bindP (ei_recv_internal fd mbuf (len mbuf) m ml st ms) k)
    (ins (message t fs payload) ++ G, s) Q.
Proof.
  intros Hf Hok Ht Hb Hc Hl Hroom Hk. apply recv_link_in; [done.. | |].
  - unfold small_room. destruct Hroom as [? | ->]; [left; lia | by right].
  - intros mbuf' Hin. rewrite <- (proj1 Hin). by apply Hk.
Qed.

(** The types of [fields_for] that carry no trace token. *)
Definition plain_type (t : Z) : Prop :=
  t ∈ [ERL_LINK; ERL_SEND; ERL_EXIT; ERL_UNLINK; ERL_REG_SEND; ERL_GROUP_LEADER; ERL_EXIT2].

Lemma plain_type_range t : plain_type t -> 0 < t <= 10.
Proof.
  unfold plain_type. rewrite !elem_of_cons, elem_of_nil.
  intros [-> | [-> | [-> | [-> | [-> | [-> | [-> | []]]]]]]]; done.
Qed.

Lemma receive_msg_link {A} t fs payload b ix m st (k : Z * erlang_msg * ei_x_buff -> proc A) G s Q :
  plain_type t -> fields_for t fs -> Forall field_ok fs -> Forall is_byte payload ->
  1 + len (control t fs) <= EIRECVBUF -> 1 + len (control t fs) + len payload <= int_max ->
  len payload <= len b \/ st = false ->
  (forall b', payload_in b payload b' ->
    wp (link fd L) (k (ERL_MSG, msg_of t fs m, XBuff (Some b') (len b') (len b')))
      (G, put_vars (untraced (get_vars s)) s) Q) ->
  wp (link fd L) (bindP (ei_do_receive_msg fd st m (XBuff (Some b) (len b) ix) ms) k)
    (ins (message t fs payload) ++ G, s) Q.
Proof.
  intros Ht Hf Hok Hb Hc Hl Hroom Hk. pose proof (plain_type_range t Ht).
  apply wp_assoc. eapply recv_link; [done | done | lia | done.. |]. intros b' [Hlb' Hpay].
  cbn [rc XBuff.buff default buffsz bufsz mbuf msg msglen index].
  rewrite (proj2 (Z.eqb_neq t 0)), (proj2 (Z.ltb_ge t 0)), (proj2 (Z.ltb_ge (len b') _)) by lia.
  rewrite andb_false_r, msg_of_msgtype.
  replace (_ || _) with true; [by apply Hk |].
  unfold plain_type in Ht. rewrite !elem_of_cons, elem_of_nil in Ht.
  by destruct Ht as [-> | [-> | [-> | [-> | [-> | [-> | [-> | []]]]]]]].
Qed.
End Receiving.
