(* ===== verification/NetCorrect.v ===== *)
(** * Connections: the theorems

    A caller and a server, connected by two channels: unless time runs out or a call
    of the system fails, they make the connection, and a message that one sends is
    what the other receives. With any peer, a connection that is made has been answered for with the cookie. *)

From S2P Require Import Prelude Mem PutGet Ext Headers Ints Atom Data Ids Term XBuff MD5 MD5Ok Proc Session PortIO Epmd Connect ConnectOk Message MessageOk ConnectSafe.

(** ** The caller, the server, and the port mapper's answer *)

(** The node, the bytes gen_challenge sees, the variables, the environment; the
    descriptors that the socket calls give, and the timeout. *)
Record caller := Caller
  { c_node : ei_cnode; c_info : list Z; c_vars : globals; c_getenv : list Z -> option (list Z);
    c_epmd : Z; c_fd : Z; c_ms : Z }.

Record server := Server
  { s_node : ei_cnode; s_info : list Z; s_vars : globals; s_getenv : list Z -> option (list Z);
    s_listen : Z; s_fd : Z; s_ms : Z }.

Record epmd_answer := Answer { e_port : Z; e_type : Z; e_high : Z; e_low : Z }.

Definition node_ok (ec : ei_cnode) (info : list Z) : Prop :=
  nodename_ok (thisnodename ec) /\ cookie_ok (ei_connect_cookie ec) /\ info_ok info.

Definition caller_ok (c : caller) : Prop :=
  node_ok (c_node c) (c_info c) /\ port_known (c_getenv c) /\
  0 <= c_epmd c /\ 0 <= c_fd c /\ c_fd c <> c_epmd c /\
  timeout_ok (c_epmd c) (c_ms c) /\ timeout_ok (c_fd c) (c_ms c).

Definition server_ok (s : server) : Prop :=
  node_ok (s_node s) (s_info s) /\ 0 <= s_fd s <= int_max /\ s_listen s <> s_fd s /\
  timeout_ok (s_listen s) (s_ms s) /\ timeout_ok (s_fd s) (s_ms s).

Definition answer_is_ok (e : epmd_answer) : Prop :=
  0 <= e_port e < 65536 /\ is_byte (e_type e) /\
  EI_DIST_HIGH <= e_high e < 65536 /\ 0 <= e_low e <= EI_DIST_HIGH.

Definition alive_ok (alive : list Z) : Prop := Forall is_byte alive /\ strlen alive <= 508.

(** The machines, with the conversation with the port mapper that the caller has
    first. *)
Definition caller_env (c : caller) : env (script * machine) :=
  link (c_epmd c) (sys (c_info c) (c_getenv c) (fun _ => false)).
Definition caller_start (c : caller) (alive : list Z) (e : epmd_answer) : script * machine :=
  (outs (epmd_request (c_str alive)) ++ ins (epmd_reply (e_port e) (e_type e) (e_high e) (e_low e)),
   Machine (c_vars c) [c_epmd c; c_fd c]).
Definition server_env (s : server) : env machine :=
  sys (s_info s) (s_getenv s) (fun f => f =? s_listen s).
Definition server_start (s : server) : machine := Machine (s_vars s) [s_fd s].

(** The script of the handshake between them. *)
Definition handshake_of (c : caller) (s : server) : script :=
  handshake (c_str (thisnodename (c_node c))) (c_str (thisnodename (s_node s)))
    (challenge_of (c_info c)) (challenge_of (s_info s)) (ei_connect_cookie (c_node c)).

(** Each end in front of what follows. *)
Lemma caller_follows c s alive ip e G (Q : Z -> script * (script * machine) -> Prop) :
  caller_ok c -> server_ok s -> alive_ok alive -> answer_is_ok e ->
  (forall g', connected (c_fd c) (c_node c) (c_vars c) g' ->
    Q (c_fd c) (G, ([], Machine g' []))) ->
  wp (link (c_fd c) (caller_env c)) (ei_xconnect_tmo (c_node c) ip alive (c_ms c))
    (handshake_of c s ++ G, caller_start c alive e) Q.
Proof.
  intros ((Hn & Hk & Hi) & Hp & He & Hf & Hne & Hme & Hmf) ((Hn' & _) & _) [Ha Hl] (Hport & Ht & Hh & Hw) Hq.
  unfold handshake_of, caller_env, caller_start. eapply wp_mono.
  { apply xconnect_ok; try assumption; [done | apply Hn' | apply challenge_of_uint32]. }
  by intros r t [-> (g' & -> & Hg)]; apply Hq.
Qed.

Lemma server_follows c s G (Q : Z * option ErlConnect -> script * machine -> Prop) :
  caller_ok c -> server_ok s ->
  c_str (ei_connect_cookie (c_node c)) = c_str (ei_connect_cookie (s_node s)) ->
  (forall ip, a_block 4 ip ->
    Q (s_fd s, Some (ErlConn ip (c_str (thisnodename (c_node c)))))
      (G, Machine (set_err 0 (put_table (s_fd s) EI_DIST_HIGH (s_node s) (s_vars s))) [])) ->
  wp (link (s_fd s) (server_env s)) (ei_accept_tmo (s_node s) (s_listen s) (s_ms s))
    (dual (handshake_of c s) ++ G, server_start s) Q.
Proof.
  intros ((Hn & Hk & Hi) & _) ((Hn' & Hk' & Hi') & Hf & Hne & Hml & Hmf) Hc Hq.
  unfold handshake_of, server_env, server_start. eapply wp_mono.
  { apply accept_ok; try assumption; [apply Z.eqb_refl | apply Hn | apply challenge_of_uint32]. }
  by intros [fd r] t (Hfd & (ip & Hip & Hr) & ->); cbn in *; subst; apply Hq.
Qed.

Lemma wp_ret {S A} (E : env S) (p : proc A) s Q : wp E (bindP p Ret) s Q -> wp E p s Q.
Proof. revert s. induction p as [a | | r k IH]; intros s; cbn; [done.. |]. intros [? Hk]. eauto. Qed.

(** The cookie of a connection is always the empty one. *)
Lemma fdcookie_put fd dist ec g : fdcookie fd (put_table fd dist ec g) = [].
Proof.
  unfold fdcookie, put_table. destruct (socket_at fd (ei_sockets g)) as [[i e] |] eqn:Hs.
  - cbn [with_sockets ei_sockets]. apply list_find_Some in Hs as (Hi & He & Hbefore).
    assert (Hlt : (i < length (ei_sockets g))%nat) by (by eapply lookup_lt_Some).
    replace (socket_at fd _) with (Some (i, SockInfo fd dist ec [])); [done |]. symmetry.
    apply list_find_Some. split; [by apply list_lookup_insert_eq |]. split; [done |].
    intros j y Hj Hlj. rewrite list_lookup_insert_ne in Hj by lia. by eapply Hbefore.
  - destruct (_ =? _); [| by rewrite Hs]. cbn [with_sockets ei_sockets]. unfold socket_at.
    unfold socket_at in Hs. rewrite list_find_app_r by done. cbn.
    by rewrite decide_True by done.
Qed.

Lemma len_ext_pid p : name_ok (pid_node p) -> len (ext_pid p) <= 1036.
Proof.
  intros [_ Hv%utf8_len_max]. unfold MAXATOMLEN_UTF8 in Hv. unfold ext_pid, ext_atom_utf8.
  autorewrite with len. rewrite len_ext_atom. repeat case_match; cbn [length]; lia.
Qed.

(** The control tuple of ERL_SEND. *)
Definition send_fields (to : erlang_pid) : list field := [f_cookie []; f_to to].

Lemma len_send_control to : a_pid_ok to -> len (control ERL_SEND (send_fields to)) <= 1043.
Proof.
  intros [Hn _]. pose proof (len_ext_pid to Hn). unfold control, send_fields.
  cbn [fmap list_fmap concat field_bytes]. rewrite !len_app.
  change (len (ext_atom_latin1 (c_str []))) with 2. change (len (ext_longlong ERL_SEND)) with 2.
  change (len (ext_tuple_header (1 + len [f_cookie []; f_to to]))) with 2.
  change (len ext_version) with 1. cbn [length]. lia.
Qed.

Lemma send_fields_ok to : a_pid_ok to -> Forall field_ok (send_fields to).
Proof. intros. repeat constructor; try done; apply H. Qed.

Lemma connected_keeps fd ec g g' : connected fd ec g g' ->
  tracing g' = tracing g /\ fdcookie fd g' = [].
Proof.
  intros [p ->]. split.
  - unfold put_table, with_port.
    cbn [ei_sockets ei_sz_sockets]. destruct (socket_at fd (ei_sockets g)) as [[? ?] |]; [done |]. by destruct (_ =? _).
  - exact (fdcookie_put fd EI_DIST_HIGH ec (with_port p g)).
Qed.

(** ** The theorems *)

(** C16: whatever the order of the steps, and however the reads and writes are cut,
    until a timeout elapses or a call of the system fails, [ei_xconnect_tmo] on one
    node and [ei_accept_tmo] on another that has the same cookie are never stuck,
    and every run comes to where both have ended, the caller with its descriptor,
    the server with its own and the caller's name, with nothing left on the way, and
    the connection entered as [connected] says; or to where a timeout has elapsed or
    a call has failed, after which this theorem says nothing. The port mapper
    answers with the port and a version from 5 on, the name it is asked for has at
    most 508 bytes, and ERL_EPMD_PORT, if set, is a number; the names of the nodes
    have at most MAXNODELEN bytes, the cookies at most EI_MAX_COOKIE_SIZE, and a
    descriptor with a timeout is below FD_SETSIZE. *)
Theorem handshake_completes c s alive ip e :
  caller_ok c -> server_ok s -> alive_ok alive -> answer_is_ok e ->
  c_str (ei_connect_cookie (c_node c)) = c_str (ei_connect_cookie (s_node s)) ->
  ends (c_fd c) (s_fd s) (caller_env c) (server_env s)
    (done_or_trouble
      (fun r t => r = c_fd c /\
        exists g, t = ([], Machine g []) /\ connected (c_fd c) (c_node c) (c_vars c) g)
      (fun r t => (exists pip, r = (s_fd s, Some (ErlConn pip (c_str (thisnodename (c_node c)))))) /\
        t = Machine (set_err 0 (put_table (s_fd s) EI_DIST_HIGH (s_node s) (s_vars s))) []))
    (Net (ei_xconnect_tmo (c_node c) ip alive (c_ms c))
       (ei_accept_tmo (s_node s) (s_listen s) (s_ms s)) [] []
       (caller_start c alive e) (server_start s) false).
Proof.
  intros Hc Hs Ha He Hk. apply net_ends with (G := handshake_of c s).
  - rewrite <- (app_nil_r (handshake_of c s)). apply caller_follows; [done.. |].
    intros g Hg. split; [done |]. split; [done |]. by exists g.
  - rewrite <- (app_nil_r (dual _)). apply server_follows; [done.. |].
    intros pip _. split; [done |]. split; [by exists pip | done].
Qed.

(** C15: a caller connects and sends a message to a process of the server, the
    server accepts and receives: until a timeout elapses or a call of the system
    fails, neither is ever stuck, and every run comes to where both have ended, the
    send has succeeded, and the receive has given an ERL_SEND message for that
    process, with the bytes of the payload at the start of the buffer, grown if they
    did not fit; or to where a timeout has elapsed or a call has failed, after which
    this theorem says nothing. The payload has at most 10^9 bytes, tracing is off at
    the caller, the cookies are the same, the pid has a valid name, and the port
    mapper, names, cookies and descriptors are as for the handshake alone. *)
Theorem message_arrives c s alive ip e to msg n m b ix :
  caller_ok c -> server_ok s -> alive_ok alive -> answer_is_ok e ->
  c_str (ei_connect_cookie (c_node c)) = c_str (ei_connect_cookie (s_node s)) ->
  tracing (c_vars c) = 0 -> a_pid_ok to -> Forall is_byte msg ->
  0 <= n <= len msg -> n <= 1000000000 ->
  ends (c_fd c) (s_fd s) (caller_env c) (server_env s)
    (done_or_trouble (fun r _ => r = 0)
      (fun r _ => exists m' b', r = (ERL_MSG, m', XBuff (Some b') (len b') (len b')) /\
        msgtype m' = ERL_SEND /\ msg_to m' = pid_sent to /\ msg_cookie m' = [] /\
        payload_in b (take (Z.to_nat n) msg) b'))
    (Net (let! fd := ei_xconnect_tmo (c_node c) ip alive (c_ms c) in
          ei_send_tmo fd to msg n (c_ms c))
       (let! (fd, _) := ei_accept_tmo (s_node s) (s_listen s) (s_ms s) in
        ei_xreceive_msg_tmo fd m (XBuff (Some b) (len b) ix) (s_ms s)) [] []
       (caller_start c alive e) (server_start s) false).
Proof.
  intros Hc Hs Ha He Hk Ht Hto Hb Hn Hbig. set (payload := take (Z.to_nat n) msg).
  pose proof (len_send_control to Hto). pose proof (send_fields_ok to Hto) as Hok.
  assert (Hpay : len payload = n) by (unfold payload; rewrite length_take; lia).
  apply net_ends with (G := handshake_of c s ++ outs (message ERL_SEND (send_fields to) payload)).
  - apply wp_bind, caller_follows; [done.. |]. intros g (Hg & Hcookie)%connected_keeps.
    rewrite <- (app_nil_r (outs _)). apply wp_ret. unfold message. rewrite Hpay.
    apply (send_link (c_fd c) (caller_env c) (c_ms c)) with (ck := []); try done.
    + apply Hc.
    + cbn. congruence.
    + rewrite len_frame. fold (send_fields to). lia.
    + fold (send_fields to). unfold int_max. lia.
  - rewrite dual_app, dual_outs. apply wp_bind, server_follows; [done.. |]. intros pip _.
    rewrite <- (app_nil_r (ins _)). apply wp_ret.
    apply (receive_msg_link (s_fd s) (server_env s) (s_ms s)).
    + apply Hs.
    + unfold plain_type. rewrite !elem_of_cons. auto.
    + constructor.
    + done.
    + by apply Forall_take.
    + unfold EIRECVBUF. lia.
    + unfold int_max. lia.
    + by right.
    + intros b' Hb'. split; [done |]. by eexists _, b'.
Qed.

(** C17: whoever calls, and whatever the system answers: when [ei_accept_tmo]
    returns a descriptor, in a run that is defined, what has crossed it is the whole
    handshake, in which the caller has answered the challenge that was sent with the
    digest of the node's own cookie, and the name it has given is the one that is
    returned. *)
Theorem accept_authentic ec lfd ms l :
  nodename_ok (thisnodename ec) -> cookie_ok (ei_connect_cookie ec) ->
  wlp anyone (ei_accept_tmo ec lfd ms) l (fun r l' =>
    0 <= r.1 -> exists version flags her_challenge our_challenge c, r.2 = Some c /\
      l' = l ++ at_fd r.1 (dual (transcript version flags (nodename c) version our_flags
        (c_str (thisnodename ec)) her_challenge our_challenge (ei_connect_cookie ec)))).
Proof.
  intros Hname Hck. unfold ei_accept_tmo. apply wlp_errno, wlp_quiet; [apply quiet_accept |].
  intros fd. destruct (Z.ltb_spec fd 0); [apply wlp_fails; intros _ l'; apply accept_refuses |].
  eapply wlp_seq; [apply recv_name_any |].
  intros [[[version flags] c] |] l1 Hcame; [| apply accept_refuses].
  destruct (Hcame version flags c eq_refl) as (_ & _ & _ & ->).
  destruct (version <=? 4); [apply accept_refuses |].
  eapply wlp_seq; [apply send_status_any |]. intros r l1 Hw.
  destruct (Z.eqb_spec r 0); cbn [negb]; [rewrite Hw by done; clear Hw | apply accept_refuses].
  apply wlp_quiet; [apply quiet_challenge |]. intros our_challenge.
  eapply wlp_seq; [by apply send_challenge_any |]. intros r1 l2 Hw.
  destruct (Z.eqb_spec r1 0); cbn [negb]; [rewrite Hw by done; clear Hw | apply accept_refuses].
  eapply wlp_seq; [by apply recv_reply_any |].
  intros [her_challenge |] l3 Hr; [rewrite (Hr her_challenge) by done | apply accept_refuses].
  apply wlp_gen_digest; [done |].
  eapply wlp_seq; [apply send_ack_any |]. intros r2 l4 Hw.
  destruct (Z.eqb_spec r2 0); cbn [negb]; [rewrite Hw by done; clear Hw | apply accept_refuses].
  apply wlp_quiet; [apply quiet_put |]. intros _. apply wlp_errno. cbn [wlp fst snd]. intros _.
  exists version, flags, her_challenge, our_challenge, c. split; [done |].
  unfold transcript. rewrite !dual_app, !dual_outs, !dual_ins, !at_fd_app, <- !app_assoc. done.
Qed.

(** C18: whoever is called, and whatever the port mapper and the system answer: when
    [ei_xconnect_tmo] returns a descriptor, in a run that is defined, what has
    crossed it is the whole handshake, in which the other end has answered the
    challenge that was sent with the digest of the node's own cookie. *)
Theorem connect_authentic ec ip alive ms l :
  nodename_ok (thisnodename ec) -> cookie_ok (ei_connect_cookie ec) ->
  wlp anyone (ei_xconnect_tmo ec ip alive ms) l (fun r l' =>
    0 <= r -> exists l1 dist version flags her_challenge our_challenge name,
      l' = l1 ++ at_fd r (transcript (uint32 dist) our_flags (c_str (thisnodename ec)) version flags
        name our_challenge her_challenge (ei_connect_cookie ec))).
Proof.
  intros Hname Hck. unfold ei_xconnect_tmo. apply wlp_errno.
  apply wlp_fails. intros [rport dist] l1. destruct (rport <? 0); [cbn; unfold ERL_NO_PORT; lia |].
  apply wlp_quiet; [apply quiet_connect |]. intros fd.
  destruct (Z.ltb_spec fd 0); [cbn; unfold ERL_CONNECT_FAIL; lia |].
  destruct (dist <=? 4); [apply connect_refuses |].
  eapply wlp_seq; [by apply send_name_any |]. intros r l2 Hw.
  destruct (Z.eqb_spec r 0); cbn [negb]; [rewrite Hw by done; clear Hw | apply connect_refuses].
  eapply wlp_seq; [apply recv_status_any |]. intros r1 l3 Hw.
  destruct (Z.eqb_spec r1 0); cbn [negb]; [rewrite Hw by done; clear Hw | apply connect_refuses].
  eapply wlp_seq; [apply recv_challenge_any |].
  intros [[[[version flags] her_challenge] c] |] l4 Hcame; [| apply connect_refuses].
  destruct (Hcame version flags her_challenge c eq_refl) as (_ & _ & _ & _ & ->).
  apply wlp_quiet; [apply quiet_challenge |]. intros our_challenge.
  apply wlp_gen_digest; [done |].
  eapply wlp_seq; [apply send_reply_any |]. intros r2 l5 Hw.
  destruct (Z.eqb_spec r2 0); cbn [negb]; [rewrite Hw by done; clear Hw | apply connect_refuses].
  eapply wlp_seq; [by apply recv_ack_any |]. intros r3 l6 Hw.
  destruct (Z.eqb_spec r3 0); cbn [negb]; [rewrite Hw by done; clear Hw | apply connect_refuses].
  apply wlp_quiet; [apply quiet_put |]. intros _.
  apply wlp_quiet; [by apply quiet_ask |]. intros _.
  apply wlp_quiet; [by apply quiet_ask |]. intros _.
  apply wlp_errno. cbn [wlp]. intros _.
  exists l1, dist, version, flags, her_challenge, our_challenge, (nodename c).
  unfold transcript. by rewrite !at_fd_app, <- !app_assoc.
Qed.

(** C34: [ei_epmd_port_tmo], with a port mapper that answers, asks it for the node and
    comes to its end with the port of the answer and the version both ends know. *)
Theorem epmd_port_found fd ip alive dist ms port ntype high low info getenv g :
  timeout_ok fd ms -> port_known getenv -> 0 <= fd -> alive_ok alive ->
  0 <= port < 65536 -> is_byte ntype -> 1 <= high < 65536 -> 0 <= low <= EI_DIST_HIGH ->
  wp (link fd (sys info getenv (fun _ => false))) (ei_epmd_port_tmo (Some ip) alive dist ms)
    (outs (epmd_request (c_str alive)) ++ ins (epmd_reply port ntype high low), Machine g [fd])
    (fun r s => r = (port, Z.min high EI_DIST_HIGH) /\ exists p, s = ([], Machine (with_port p g) [])).
Proof. intros ? ? ? [? ?] ? ? ? ?. apply epmd_port_link; try assumption. intros p. eauto. Qed.

(** ** Findings *)

(** Only a table that is full grows and stores: of two connections that are made one
    after the other, the second is not found again. *)
Theorem second_connection_is_lost {S} (L : env S) {W : Works L} fd1 fd2 dist ec1 ec2 s :
  fd1 <> fd2 -> dist <> -1 -> ei_sockets (get_vars s) = [] -> ei_sz_sockets (get_vars s) = 0 ->
  wp L (let! _ := put_ei_socket_info fd1 dist null_cookie ec1 in
        let! _ := put_ei_socket_info fd2 dist null_cookie ec2 in
        let! a := ei_fd_to_cnode fd1 in
        let! b := ei_fd_to_cnode fd2 in
        Ret (a, b)) s (fun r _ => r = (Some ec1, None)).
Proof.
  intros Hne Hd Hl Hsz. apply (wp_put_socket L); [done |]. apply (wp_put_socket L); [done |].
  rewrite get_put, put_put. set (g := put_table fd2 dist ec2 (put_table fd1 dist ec1 (get_vars s))).
  assert (Hg : ei_sockets g = [SockInfo fd1 dist ec1 []]).
  { assert (H1 : put_table fd1 dist ec1 (get_vars s)
      = with_sockets [SockInfo fd1 dist ec1 []] 5 (get_vars s))
      by (unfold put_table; by rewrite Hl, Hsz).
    unfold g. rewrite H1. unfold put_table, socket_at. cbn [with_sockets ei_sockets ei_sz_sockets].
    cbn. by rewrite decide_False by done. }
  unfold ei_fd_to_cnode, get_ei_socket_info.
  apply wp_assoc, wp_assoc, (wp_plain L); [done |]. intros g1 s1 [-> ->]. cbn [bindP].
  apply wp_assoc, wp_assoc, (wp_plain L); [done |]. intros g2 s2 [-> ->]. cbn [bindP].
  rewrite !get_put, !Hg. cbn. unfold socket_at. cbn.
  by rewrite decide_True, decide_False by done.
Qed.

Lemma wp_answer {S A} (L : env S) r (k : answer r -> proc A) s x s' Q :
  wp L (bindP (ask r) k) s Q -> does r s x s' -> wp L (k x) s' Q.
Proof. intros [_ Hk]. by apply Hk. Qed.

Lemma wp_unbind {S A B C} (L : env S) (p : proc A) (f : A -> proc B) (g : B -> proc C) s Q :
  wp L (bindP (bindP p f) g) s Q -> wp L (bindP p (fun a => bindP (f a) g)) s Q.
Proof.
  revert s. induction p as [a | | r k IH]; intros s; cbn [wp bindP]; [done.. |].
  intros [? Hk]. split; [done |]. auto.
Qed.

(** All that is asked for comes at once. *)
Lemma read_all {S A} fd (L : env S) blk o n bs (k : Z * list Z -> proc A) G s Q :
  wp (link fd L) (bindP (ei_read_fill_t fd blk o n 0) k) (ins bs ++ G, s) Q ->
  n = len bs -> bs <> [] -> n <= int_max -> fits blk o bs ->
  wp (link fd L) (k (n, splice blk o bs)) (G, s) Q.
Proof.
  intros H -> Hb Hl [Ho Hf]. unfold ei_read_fill_t in H. cbn [read_loop] in H. unfold int_max in Hl.
  assert (1 <= len bs) by (destruct bs; cbn [length]; [done | lia]).
  apply wp_unbind, wp_unbind in H. cbn [ready Z.eqb bindP] in H. apply wp_unbind in H.
  rewrite Z.add_0_r, Z.sub_0_r, uint64_small in H by (unfold is_uint64; lia).
  apply (wp_answer _ (r_read fd (len bs)) _ _ (Some bs) (G, s)) in H.
  2:{ cbn. rewrite Z.eqb_refl. exists bs. repeat split; [done | lia]. }
  unfold fits_b in H. rewrite (proj2 (Z.leb_le 0 o)), (proj2 (Z.leb_le _ (len blk))) in H by lia.
  cbn [andb] in H. rewrite int32_small in H by (unfold is_int32; lia).
  rewrite (proj2 (Z.ltb_ge (len bs) 0)) in H by lia. cbn [bindP] in H.
  rewrite (proj2 (Z.leb_gt (len bs) 0)), Z.add_0_l, Z.ltb_irrefl in H by lia. exact H.
Qed.

Lemma wp_known {S A B} (L : env S) (m : D A) blk a (k : A -> proc B) s Q :
  wp L (bindP (lift_D m blk) k) s Q -> m blk = Some a -> wp L (k a) s Q.
Proof. unfold lift_D. by intros H Hm; rewrite Hm in H. Qed.

(** A name package of fewer than seven bytes makes recv_name copy a negative number of
    bytes, if the bytes behind it in the buffer happen to hold the right flags: it
    takes one such package from the other end. *)
Theorem short_name_is_undefined info getenv listening fd g l :
  ~ wp (link fd (sys info getenv listening)) (recv_name fd 0)
      (ins (pkg [110; 0; 5; 0; 4; 1]), Machine g l) (fun _ _ => True).
Proof.
  intros H. unfold recv_name, set_errno in H. apply wp_unbind in H.
  set (G := ins (pkg [110; 0; 5; 0; 4; 1])) in *.
  apply (wp_answer _ r_get _ _ g (G, Machine g l)) in H; [| done].
  apply (wp_answer _ (r_set _) _ _ tt (G, Machine (set_err EIO g) l)) in H; [| done].
  unfold new_package in H. apply wp_unbind in H.
  apply (wp_answer _ (r_array _) _ _ (repeat 255 100) (G, Machine (set_err EIO g) l)) in H;
    [| split; [done |]; split; [split; [done |] | done]; apply list.Forall_forall;
       intros x Hx%list_elem_of_In%repeat_spec; subst x; is_byte_tac].
  cbn [bindP] in H. unfold read_2byte_package in H. apply wp_unbind in H.
  apply (wp_answer _ (r_array _) _ _ [0; 0] (G, Machine (set_err EIO g) l)) in H;
    [| split; [done |]; split; [split; [done | bytes_tac] | done]].
  apply wp_unbind in H. unfold G, pkg in H. rewrite ins_app in H.
  apply read_all in H; [| done | done | done | by split].
  change (negb (2 =? 2)) with false in H. cbv iota in H. apply wp_unbind in H.
  apply (wp_known _ _ _ (6, 2)) in H; [| done].
  unfold grow_package in H. cbn [buflen] in H. change (DEFBUF_SIZ <? 6) with false in H.
  cbn [bindP buf] in H. apply wp_unbind in H. rewrite <- (app_nil_r (ins [_; _; _; _; _; _])) in H.
  apply read_all in H; [| done | done | done | by split].
  change (negb (uint32 6 =? 6)) with false in H. cbn [bindP buf] in H.
  change (6 <=? 0) with false in H. change (MAXNODELEN <? 6 - 7) with false in H. cbv iota in H.
  apply (wp_known _ _ _ (110, 1)) in H; [| done]. change (negb (110 =? 110)) with false in H.
  cbv iota in H. apply (wp_known _ _ _ (5, 3)) in H; [| vm_compute; reflexivity]. cbv iota in H.
  apply (wp_known _ _ _ (262655, 7)) in H; [| vm_compute; reflexivity]. cbv iota in H.
  change (Z.land (uint32 262655) DFLAG_EXTENDED_REFERENCES =? 0) with false in H.
  change (Z.land (uint32 262655) DFLAG_EXTENDED_PIDS_PORTS =? 0) with false in H.
  cbn [bindP negb] in H. unfold peer_name in H. apply wp_unbind in H.
  apply (wp_answer _ (r_getpeername fd) _ _ (0, [0; 0; 0; 0]) ([], Machine (set_err EIO g) l)) in H;
    [| split; [done |]; split; [done |]; split; [split; [done | bytes_tac] | done]].
  exact H.
Qed.

(** ** Witnesses *)

(** [a@h] and [b@h], with the cookie [key]; the caller has a timeout of a second. *)
Definition ex_node (c : Z) : ei_cnode :=
  CNode [104] [c; 64; 104] [c] [107; 101; 121; 0] 0 (Pid [c; 64; 104] 0 0 0).
Definition ex_vars : globals := Globals 0 [] 0 no_token 0 0 0 0.
Definition ex_caller : caller := Caller (ex_node 97) [1; 2; 3] ex_vars (fun _ => None) 3 4 1000.
Definition ex_server : server := Server (ex_node 98) [4; 5; 6] ex_vars (fun _ => None) 3 4 0.
Definition ex_answer : epmd_answer := Answer 40000 72 5 5.
Definition ex_to : erlang_pid := Pid [98; 64; 104] 12 0 1.

Lemma ex_hosts_ok :
  caller_ok ex_caller /\ server_ok ex_server /\ alive_ok [98] /\ answer_is_ok ex_answer.
Proof.
  unfold caller_ok, server_ok, alive_ok, answer_is_ok, node_ok, nodename_ok, cookie_ok, info_ok,
    port_known, timeout_ok, FD_SETSIZE, int_max, is_byte, EI_DIST_HIGH. cbn.
  repeat split; try (left; lia) || (right; lia) || lia || (intro; discriminate) || bytes_tac || done.
Qed.

Lemma handshake_completes_witness :
  caller_ok ex_caller /\ server_ok ex_server /\ alive_ok [98] /\ answer_is_ok ex_answer /\
  ends 4 4 (caller_env ex_caller) (server_env ex_server)
    (done_or_trouble
      (fun r t => r = 4 /\ exists g, t = ([], Machine g []) /\ connected 4 (ex_node 97) ex_vars g)
      (fun r t => (exists pip, r = (4, Some (ErlConn pip [97; 64; 104]))) /\
        t = Machine (set_err 0 (put_table 4 EI_DIST_HIGH (ex_node 98) ex_vars)) []))
    (Net (ei_xconnect_tmo (ex_node 97) [127; 0; 0; 1] [98] 1000)
       (ei_accept_tmo (ex_node 98) 3 0) [] []
       (caller_start ex_caller [98] ex_answer) (server_start ex_server) false).
Proof.
  destruct ex_hosts_ok as (Hc & Hs & Ha & He).
  split; [exact Hc |]. split; [exact Hs |]. split; [exact Ha |]. split; [exact He |].
  exact (handshake_completes ex_caller ex_server [98] [127; 0; 0; 1] ex_answer Hc Hs Ha He eq_refl).
Defined.

Lemma ex_to_ok : a_pid_ok ex_to.
Proof. split; [split; [bytes_tac | done] | done]. Qed.

Lemma message_arrives_witness :
  a_pid_ok ex_to /\
  ends 4 4 (caller_env ex_caller) (server_env ex_server)
    (done_or_trouble (fun r _ => r = 0)
      (fun r _ => exists m' b', r = (ERL_MSG, m', XBuff (Some b') (len b') (len b')) /\
        msgtype m' = ERL_SEND /\ msg_to m' = pid_sent ex_to /\ msg_cookie m' = [] /\
        payload_in [0; 0] [131; 97; 7] b'))
    (Net (let! fd := ei_xconnect_tmo (ex_node 97) [127; 0; 0; 1] [98] 1000 in
          ei_send_tmo fd ex_to [131; 97; 7; 0] 3 1000)
       (let! (fd, _) := ei_accept_tmo (ex_node 98) 3 0 in
        ei_xreceive_msg_tmo fd (Msg 0 no_pid no_pid [] [] no_token) (XBuff (Some [0; 0]) 2 0) 0) [] []
       (caller_start ex_caller [98] ex_answer) (server_start ex_server) false).
Proof.
  destruct ex_hosts_ok as (Hc & Hs & Ha & He). split; [apply ex_to_ok |].
  exact (message_arrives ex_caller ex_server [98] [127; 0; 0; 1] ex_answer ex_to [131; 97; 7; 0] 3
    (Msg 0 no_pid no_pid [] [] no_token) [0; 0] 0 Hc Hs Ha He eq_refl eq_refl ex_to_ok
    ltac:(bytes_tac) ltac:(cbn; lia) ltac:(lia)).
Defined.

Lemma accept_authentic_witness :
  cookie_ok (ei_connect_cookie (ex_node 98)) /\
  wlp anyone (ei_accept_tmo (ex_node 98) 3 0) [] (fun r l' =>
    0 <= r.1 -> exists version flags her_challenge our_challenge c, r.2 = Some c /\
      l' = [] ++ at_fd r.1 (dual (transcript version flags (nodename c) version our_flags
        (c_str (thisnodename (ex_node 98))) her_challenge our_challenge [107; 101; 121; 0]))).
Proof.
  destruct ex_hosts_ok as (_ & ((Hn & Hk & _) & _) & _). split; [exact Hk |].
  exact (accept_authentic (ex_node 98) 3 0 [] Hn Hk).
Defined.

Lemma connect_authentic_witness :
  cookie_ok (ei_connect_cookie (ex_node 97)) /\
  wlp anyone (ei_xconnect_tmo (ex_node 97) [127; 0; 0; 1] [98] 0) [] (fun r l' =>
    0 <= r -> exists l1 dist version flags her_challenge our_challenge name,
      l' = l1 ++ at_fd r (transcript (uint32 dist) our_flags (c_str (thisnodename (ex_node 97)))
        version flags name our_challenge her_challenge [107; 101; 121; 0])).
Proof.
  destruct ex_hosts_ok as (((Hn & Hk & _) & _) & _). split; [exact Hk |].
  exact (connect_authentic (ex_node 97) [127; 0; 0; 1] [98] 0 [] Hn Hk).
Defined.

Lemma epmd_port_found_witness :
  alive_ok [98] /\
  wp (link 3 (sys [] (fun _ => None) (fun _ => false)))
    (ei_epmd_port_tmo (Some [127; 0; 0; 1]) [98] 0 1000)
    (outs (epmd_request [98]) ++ ins (epmd_reply 40000 72 6 5), Machine ex_vars [3])
    (fun r s => r = (40000, 5) /\ exists p, s = ([], Machine (with_port p ex_vars) [])).
Proof.
  destruct ex_hosts_ok as (_ & _ & Ha & _). split; [exact Ha |].
  apply (epmd_port_found 3 [127; 0; 0; 1] [98] 0 1000 40000 72 6 5 [] (fun _ => None) ex_vars);
    [right; unfold FD_SETSIZE; lia | intros s; discriminate | lia | exact Ha | lia |
     unfold is_byte; lia | lia | unfold EI_DIST_HIGH; lia].
Defined.
