(* ===== verification/Enif.v ===== *)
(** * The NIF interface

    The terms of the Erlang VM as a NIF sees them: an abstract type with the
    functions enif_* that asn1_erl_nif.c calls. The VM is not part of the
    repository; the class below states what its documentation promises of these
    functions, and an instance shows that the promises can be kept. *)

From S2P Require Import Prelude.

#[local] Set Warnings "-register-all".

(** A function that returns 0 on failure gives [None]. [enif_make_new_binary]
    takes the bytes that its caller then copies into the new binary. *)
Class Enif := {
  term : Type;
  enif_get_tuple : term -> option (list term);
  enif_is_list : term -> bool;
  enif_is_empty_list : term -> bool;
  enif_inspect_binary : term -> option (list Z);
  enif_get_uint : term -> option Z;
  enif_get_list_cell : term -> option (term * term);
  enif_make_reverse_list : term -> option term;
  enif_make_uint : Z -> term;
  enif_make_int : Z -> term;
  enif_make_atom : list Z -> term;
  enif_make_tuple2 : term -> term -> term;
  enif_make_list0 : term;
  enif_make_list_cell : term -> term -> term;
  enif_make_new_binary : list Z -> term
}.

(** The list of these terms. *)
Definition enif_list `{Enif} (ts : list term) : term :=
  foldr enif_make_list_cell enif_make_list0 ts.

Class EnifLaws `(Enif) : Prop := {
  atom_no_tuple name : enif_get_tuple (enif_make_atom name) = None;
  get_tuple2 a b : enif_get_tuple (enif_make_tuple2 a b) = Some [a; b];
  inspect_binary bs : enif_inspect_binary (enif_make_new_binary bs) = Some bs;
  binary_is_no_list bs : enif_is_list (enif_make_new_binary bs) = false;
  get_uint n : is_uint32 n -> enif_get_uint (enif_make_uint n) = Some n;
  list_is_list ts : enif_is_list (enif_list ts) = true;
  empty_list : enif_is_empty_list enif_make_list0 = true;
  list_cell h t : enif_get_list_cell (enif_make_list_cell h t) = Some (h, t);
  no_list_cell : enif_get_list_cell enif_make_list0 = None;
  reverse_list ts : enif_make_reverse_list (enif_list ts) = Some (enif_list (rev ts))
}.

(** ** Terms as a tree *)

Inductive eterm :=
  | e_int (n : Z)
  | e_atom (name : list Z)
  | e_binary (bs : list Z)
  | e_tuple (ts : list eterm)
  | e_nil
  | e_cons (h t : eterm).

Fixpoint e_reverse (t acc : eterm) : option eterm :=
  match t with
  | e_nil => Some acc
  | e_cons h t => e_reverse t (e_cons h acc)
  | _ => None
  end.

#[export] Instance tree_enif : Enif := {
  term := eterm;
  enif_get_tuple t := match t with e_tuple ts => Some ts | _ => None end;
  enif_is_list t := match t with e_nil | e_cons _ _ => true | _ => false end;
  enif_is_empty_list t := match t with e_nil => true | _ => false end;
  enif_inspect_binary t := match t with e_binary bs => Some bs | _ => None end;
  enif_get_uint t := match t with
    | e_int n => if (0 <=? n) && (n <? 4294967296) then Some n else None
    | _ => None
    end;
  enif_get_list_cell t := match t with e_cons h t => Some (h, t) | _ => None end;
  enif_make_reverse_list t := e_reverse t e_nil;
  enif_make_uint := e_int;
  enif_make_int := e_int;
  enif_make_atom := e_atom;
  enif_make_tuple2 a b := e_tuple [a; b];
  enif_make_list0 := e_nil;
  enif_make_list_cell := e_cons;
  enif_make_new_binary := e_binary
}.

Lemma e_reverse_list ts acc :
  e_reverse (foldr e_cons e_nil ts) (foldr e_cons e_nil acc) =
  Some (foldr e_cons e_nil (rev ts ++ acc)).
Proof.
  revert acc. induction ts as [| t ts IH]; intros acc; [done |].
  cbn [foldr e_reverse rev]. rewrite <- app_assoc. apply (IH (t :: acc)).
Qed.

#[export] Instance tree_laws : EnifLaws tree_enif.
Proof.
  split; try done.
  - intros n Hn. unfold is_uint32 in Hn. cbn.
    by rewrite (proj2 (Z.leb_le _ _)), (proj2 (Z.ltb_lt _ _)) by lia.
  - by intros [].
  - intros ts. change (e_reverse (foldr e_cons e_nil ts) (foldr e_cons e_nil []) =
      Some (foldr e_cons e_nil (rev ts))).
    by rewrite e_reverse_list, app_nil_r.
Qed.
