(* ===== verification/Ber.v ===== *)
(** * BER: tag, length and value

    The part of lib/asn1-5.0.4/c_src/asn1_erl_nif.c that decodes and encodes the
    tag-length-value form of BER. The decoder reads a binary with [load]; its
    index [ib_index] is passed on and returned. The encoder writes backwards
    into a chain of chunks. The length of a binary and an index are ints: a sum
    that is compared with the length must fit one ([int_sum]). *)

From S2P Require Import Prelude Mem Enif.

Definition ASN1_OK : Z := 0.
Definition ASN1_ERROR : Z := -1.
Definition ASN1_TAG_ERROR : Z := -3.
Definition ASN1_LEN_ERROR : Z := -4.
Definition ASN1_INDEF_LEN_ERROR : Z := -5.
Definition ASN1_VALUE_ERROR : Z := -6.

Definition ASN1_CLASS : Z := 0xc0.
Definition ASN1_FORM : Z := 0x20.
Definition ASN1_CLASSFORM : Z := Z.lor ASN1_CLASS ASN1_FORM.
Definition ASN1_LONG_TAG : Z := 0x7f.
Definition ASN1_INDEFINITE_LENGTH : Z := 0x80.
Definition ASN1_SHORT_DEFINITE_LENGTH : Z := 0.
Definition ASN1_PRIMITIVE : Z := 0.
Definition ASN1_CONSTRUCTED : Z := 0x20.

Definition INVMASK (x m : Z) : Z := Z.land x (Z.lxor m 0xff).
Definition MASK (x m : Z) : Z := Z.land x m.

(** ** Decoding *)

(** A return code that is an error, or what the call yields; with [*ib_index]
    in both cases. *)
Inductive ber_res (A : Type) :=
  | ber_err (rc ib_index : Z)
  | ber_ok (ib_index : Z) (a : A).
Arguments ber_err {A} _ _.
Arguments ber_ok {A} _ _.

Definition bindB {A B} (m : D (ber_res A)) (k : Z -> A -> D (ber_res B)) : D (ber_res B) :=
  let+ r := m in
  match r with
  | ber_err rc i => retD (ber_err rc i)
  | ber_ok i a => k i a
  end.
Notation "'let?' ( i , x ) ':=' m 'in' k" := (bindB m (fun i x => k))
  (at level 10, i name, x pattern, m at level 200, k at level 200,
   format "'[v' 'let?'  ( i ,  x )  ':='  m  'in' '/' k ']'") : c_scope.

Section Decode.
Context `{Enif}.

(** Returns the form and the tag. *)
Definition ber_decode_tag (in_buf_len ib_index : Z) : D (ber_res (Z * term)) :=
  let+ b := load ib_index in
  let tag_no := Z.shiftl (MASK b ASN1_CLASS) 10 in
  let form := MASK b ASN1_FORM in
  let tmp_tag := INVMASK b ASN1_CLASSFORM in
  if tmp_tag <? 31 then
    retD (ber_ok (ib_index + 1) (form, enif_make_uint (Z.lor tag_no tmp_tag)))
  else
    let+ three := int_sum (ib_index + 3) in
    if in_buf_len <? three then retD (ber_err ASN1_VALUE_ERROR ib_index) else
    let ib_index := ib_index + 1 in
    let+ tmp_tag := load ib_index in
    let '(tag_no, ib_index) :=
      if 128 <=? tmp_tag then
        (Z.lor tag_no (Z.shiftl (MASK tmp_tag ASN1_LONG_TAG) 7), ib_index + 1)
      else (tag_no, ib_index) in
    let+ tmp_tag := load ib_index in
    if 128 <=? tmp_tag then retD (ber_err ASN1_TAG_ERROR ib_index)
    else
      let tag_no := Z.lor tag_no tmp_tag in
      retD (ber_ok (ib_index + 1) (form, enif_make_uint tag_no)).

(** [while (lenoflen--) { ... }] *)
Fixpoint ber_long_length (lenoflen : nat) (ib_index len : Z) : D (ber_res Z) :=
  match lenoflen with
  | O => retD (ber_ok ib_index len)
  | S lenoflen =>
      let ib_index := ib_index + 1 in
      if negb (len <? Z.shiftl 1 24) then retD (ber_err ASN1_LEN_ERROR ib_index)
      else
        let+ b := load ib_index in
        ber_long_length lenoflen ib_index (uint32 (uint32 (Z.shiftl len 8) + b))
  end.

(** [in_buf[i] == 0 && in_buf[i + 1] == 0] *)
Definition end_of_contents (i : Z) : D bool :=
  let+ b := load i in
  if b =? 0 then let+ b' := load (i + 1) in retD (b' =? 0) else retD false.

(** The elements of an indefinite length, onto the list [curr_head]. *)
Fixpoint ber_indefinite (decode : Z -> D (ber_res term)) (fuel : nat) (in_buf_len ib_index : Z)
    (curr_head : term) : D (ber_res term) :=
  match fuel with
  | O => ubD
  | S fuel =>
      let+ stop := end_of_contents ib_index in
      if stop then retD (ber_ok ib_index curr_head) else
      let? (ib_index, t) := decode ib_index in
      let curr_head := enif_make_list_cell t curr_head in
      let+ next := int_sum (ib_index + 1) in
      if in_buf_len <=? next then retD (ber_err ASN1_INDEF_LEN_ERROR ib_index)
      else ber_indefinite decode fuel in_buf_len ib_index curr_head
  end.

(** The elements of a definite length. *)
Fixpoint ber_elements (decode : Z -> D (ber_res term)) (fuel : nat) (end_index ib_index : Z)
    (curr_head : term) : D (ber_res term) :=
  match fuel with
  | O => ubD
  | S fuel =>
      if negb (ib_index <? end_index) then retD (ber_ok ib_index curr_head) else
      let? (ib_index, t) := decode ib_index in
      ber_elements decode fuel end_index ib_index (enif_make_list_cell t curr_head)
  end.

Definition reversed (t : term) : D term :=
  match enif_make_reverse_list t with Some t => retD t | None => ubD end.

(** What follows the length: the test on it, and the value. *)
Definition ber_contents (decode : Z -> D (ber_res term)) (fuel : nat) (form in_buf_len : Z)
    (ib_index len : Z) : D (ber_res term) :=
  if in_buf_len - (ib_index + 1) <? len then retD (ber_err ASN1_VALUE_ERROR ib_index)
  else
    let ib_index := ib_index + 1 in
    if form =? ASN1_CONSTRUCTED then
      let end_index := ib_index + len in
      if in_buf_len <? end_index then retD (ber_err ASN1_LEN_ERROR ib_index)
      else
        let? (ib_index, curr_head) := ber_elements decode fuel end_index ib_index enif_make_list0 in
        let+ value := reversed curr_head in
        retD (ber_ok ib_index value)
    else if in_buf_len <? ib_index + len then retD (ber_err ASN1_LEN_ERROR ib_index)
    else
      let+ bs := load_bytes ib_index len in
      retD (ber_ok (ib_index + len) (enif_make_new_binary bs)).

Definition ber_decode_value (decode : Z -> D (ber_res term)) (fuel : nat) (form in_buf_len : Z)
    (ib_index : Z) : D (ber_res term) :=
  let+ b := load ib_index in
  if Z.land b 0x80 =? ASN1_SHORT_DEFINITE_LENGTH then
    ber_contents decode fuel form in_buf_len ib_index b
  else if b =? ASN1_INDEFINITE_LENGTH then
    let ib_index := ib_index + 1 in
    let+ next := int_sum (ib_index + 1) in
    if (in_buf_len <=? next) || (form =? ASN1_PRIMITIVE) then
      retD (ber_err ASN1_INDEF_LEN_ERROR ib_index)
    else
      let? (ib_index, curr_head) :=
        ber_indefinite decode fuel in_buf_len ib_index enif_make_list0 in
      let+ value := reversed curr_head in
      retD (ber_ok (ib_index + 2) value)
  else
    let lenoflen := Z.land b 0x7f in
    if in_buf_len - (ib_index + 1) <? lenoflen then retD (ber_err ASN1_LEN_ERROR ib_index)
    else
      let? (ib_index, len) := ber_long_length (Z.to_nat lenoflen) ib_index 0 in
      ber_contents decode fuel form in_buf_len ib_index len.

(** The fuel bounds both the nesting and the rounds of each loop. *)
Fixpoint ber_decode (fuel : nat) (in_buf_len ib_index : Z) : D (ber_res term) :=
  match fuel with
  | O => ubD
  | S fuel =>
      let+ two := int_sum (ib_index + 2) in
      if in_buf_len <? two then retD (ber_err ASN1_VALUE_ERROR ib_index) else
      let? (ib_index, r) := ber_decode_tag in_buf_len ib_index in
      let '(form, tag) := r in
      if in_buf_len <=? ib_index then retD (ber_err ASN1_TAG_ERROR ib_index) else
      let? (ib_index, value) :=
        ber_decode_value (ber_decode fuel in_buf_len) fuel form in_buf_len ib_index in
      retD (ber_ok ib_index (enif_make_tuple2 tag value))
  end.

(** The decoded term with the rest of the input. *)
Definition ber_decode_begin (fuel : nat) (in_buf_len : Z) : D (ber_res term) :=
  let? (ib_index, decoded_term) := ber_decode fuel in_buf_len 0 in
  let+ rest := load_bytes ib_index (in_buf_len - ib_index) in
  retD (ber_ok ib_index (enif_make_tuple2 decoded_term (enif_make_new_binary rest))).

Definition atom_invalid_tag : list Z := [105; 110; 118; 97; 108; 105; 100; 95; 116; 97; 103].
Definition atom_invalid_length : list Z :=
  [105; 110; 118; 97; 108; 105; 100; 95; 108; 101; 110; 103; 116; 104].
Definition atom_invalid_value : list Z :=
  [105; 110; 118; 97; 108; 105; 100; 95; 118; 97; 108; 117; 101].
Definition atom_unknown : list Z := [117; 110; 107; 110; 111; 119; 110].
Definition atom_error : list Z := [101; 114; 114; 111; 114].

Definition make_ber_error_term (return_code err_pos : Z) : term :=
  let reason :=
    if return_code =? ASN1_TAG_ERROR then enif_make_atom atom_invalid_tag
    else if (return_code =? ASN1_LEN_ERROR) || (return_code =? ASN1_INDEF_LEN_ERROR) then
      enif_make_atom atom_invalid_length
    else if return_code =? ASN1_VALUE_ERROR then enif_make_atom atom_invalid_value
    else enif_make_atom atom_unknown in
  let t := enif_make_tuple2 reason (enif_make_int err_pos) in
  enif_make_tuple2 (enif_make_atom atom_error) t.

(** The bytes of [argv[0]] as one binary. *)
Definition decode_ber_tlv_raw (fuel : nat) (in_binary : list Z) : option term :=
  match ber_decode_begin fuel (int32 (len in_binary)) in_binary with
  | None => None
  | Some (ber_err return_code err_pos) => Some (make_ber_error_term return_code err_pos)
  | Some (ber_ok _ return_term) => Some return_term
  end.
End Decode.

(** ** Encoding *)

(** The block [top] of [length] bytes, and [curr - top]: the next byte to be
    stored, from the end towards the start. *)
Record mem_chunk := Chunk { top : list Z; chunk_length : Z; curr : Z }.

Section Encode.
Context `{Enif} (enif_alloc : Z -> option (list Z)).

(** Allocates [length] bytes; [None] is NULL. *)
Definition ber_new_chunk (length : Z) : option mem_chunk :=
  match enif_alloc length with
  | Some block => Some (Chunk block (int32 length) (int32 length - 1))
  | None => None
  end.

(** [*curr] is the head of the list, its [next] the following one. [false] is
    an error, and [None] a NULL pointer. *)
Definition ber_check_memory (chunks : list mem_chunk) (needed : Z)
    : option (bool * list mem_chunk) :=
  match chunks with
  | [] => None
  | c :: _ =>
      if 0 <=? curr c - needed then Some (true, chunks)
      else
        let size := if needed <? chunk_length c then int32 (chunk_length c * 2)
                    else uint32 (chunk_length c + needed) in
        match ber_new_chunk (uint32 size) with
        | Some c => Some (true, c :: chunks)
        | None => Some (false, chunks)
        end
  end.

(** [*( *curr)->curr = v; ( *curr)->curr -= 1;] *)
Definition ber_put (chunks : list mem_chunk) (v : Z) : option (list mem_chunk) :=
  match chunks with
  | [] => None
  | c :: next =>
      match store (at_off (curr c)) v (top c) with
      | Some (_, block) => Some (Chunk block (chunk_length c) (curr c - 1) :: next)
      | None => None
      end
  end.

(** [memcpy(curr - size + 1, data, size); curr -= size;] *)
Definition ber_put_bytes (chunks : list mem_chunk) (data : list Z) : option (list mem_chunk) :=
  match chunks with
  | [] => None
  | c :: next =>
      match memcpy (at_off (curr c - len data + 1)) data (top c) with
      | Some (_, block) => Some (Chunk block (chunk_length c) (curr c - len data) :: next)
      | None => None
      end
  end.

(** The state of the encoders: the chunks and [*count]. [None] is undefined; the
    [bool] is [false] for ASN1_ERROR. *)
Definition ber_result : Type := option (bool * list mem_chunk * Z).

Definition ber_put1 (chunks : list mem_chunk) (count v : Z) : option (list mem_chunk * Z) :=
  chunks ← ber_put chunks v; Some (chunks, uint32 (count + 1)).

(** [while (size > 0) { ... chunks++; }]: a [size_t] has at most eight bytes. *)
Fixpoint ber_put_size (fuel : nat) (size : Z) (chunks : list mem_chunk) (count n : Z)
    : option (list mem_chunk * Z * Z) :=
  match fuel with
  | O => None
  | S fuel =>
      if size <=? 0 then Some (chunks, count, n) else
      '(chunks, count) ← ber_put1 chunks count (Z.land size 0xFF);
      ber_put_size fuel (Z.shiftr size 8) chunks count (n + 1)
  end.

Definition ber_encode_length (size : Z) (chunks : list mem_chunk) (count : Z) : ber_result :=
  if size <? 128 then
    '(ok, chunks) ← ber_check_memory chunks 1;
    if negb ok then Some (false, chunks, count) else
    '(chunks, count) ← ber_put1 chunks count size;
    Some (true, chunks, count)
  else
    '(ok, chunks) ← ber_check_memory chunks 8;
    if negb ok then Some (false, chunks, count) else
    '(chunks, count, n) ← ber_put_size 9 size chunks count 0;
    '(chunks, count) ← ber_put1 chunks count (Z.lor n 0x80);
    Some (true, chunks, count).

(** [while (class_tag_no > 0) { ... }]: an unsigned int has at most five groups
    of seven bits. *)
Fixpoint ber_put_tag (fuel : nat) (class_tag_no : Z) (chunks : list mem_chunk) (count : Z)
    : option (list mem_chunk * Z) :=
  match fuel with
  | O => None
  | S fuel =>
      if class_tag_no <=? 0 then Some (chunks, count) else
      '(chunks, count) ← ber_put1 chunks count (Z.lor (Z.land class_tag_no 127) 0x80);
      ber_put_tag fuel (Z.shiftr class_tag_no 7) chunks count
  end.

Definition ber_encode_tag (tag : term) (form : Z) (chunks : list mem_chunk) (count : Z)
    : ber_result :=
  match enif_get_uint tag with
  | None => Some (false, chunks, count)
  | Some class_tag_no =>
      let head_tag := Z.lor form (Z.shiftr (Z.land class_tag_no 0x30000) 10) in
      let class_tag_no := Z.land class_tag_no 0xFFFF in
      if class_tag_no <=? 30 then
        '(chunks, count) ← ber_put1 chunks count (Z.lor head_tag class_tag_no);
        Some (true, chunks, count)
      else
        '(chunks, count) ← ber_put1 chunks count (Z.land class_tag_no 127);
        '(chunks, count) ← ber_put_tag 6 (Z.shiftr class_tag_no 7) chunks count;
        '(chunks, count) ← ber_put1 chunks count (Z.lor head_tag 0x1F);
        Some (true, chunks, count)
  end.

(** [do { ... } while (enif_get_list_cell(env, tail, &head, &tail));] *)
Fixpoint ber_encode_list (encode : term -> list mem_chunk -> Z -> ber_result) (fuel : nat)
    (head tail : term) (chunks : list mem_chunk) (count : Z) : ber_result :=
  match fuel with
  | O => None
  | S fuel =>
      '(ok, chunks, tmp_cnt) ← encode head chunks 0;
      if negb ok then Some (false, chunks, count) else
      let count := uint32 (count + tmp_cnt) in
      match enif_get_list_cell tail with
      | Some (head, tail) => ber_encode_list encode fuel head tail chunks count
      | None => Some (true, chunks, count)
      end
  end.

Definition ber_encode_primitive (t : term) (chunks : list mem_chunk) (count : Z) : ber_result :=
  match enif_inspect_binary t with
  | None => Some (false, chunks, count)
  | Some value =>
      '(ok, chunks) ← ber_check_memory chunks (uint32 (len value));
      if negb ok then Some (false, chunks, count) else
      chunks ← ber_put_bytes chunks value;
      let count := uint32 (count + len value) in
      ber_encode_length (len value) chunks count
  end.

Definition ber_encode_constructed (encode : term -> list mem_chunk -> Z -> ber_result)
    (fuel : nat) (t : term) (chunks : list mem_chunk) (count : Z) : ber_result :=
  match enif_make_reverse_list t with
  | None => Some (false, chunks, count)
  | Some head =>
      match enif_get_list_cell head with
      | None =>
          if enif_is_empty_list t then
            '(chunks, count) ← ber_put1 chunks count 0;
            Some (true, chunks, count)
          else Some (false, chunks, count)
      | Some (head, tail) =>
          '(ok, chunks, count) ← ber_encode_list encode fuel head tail chunks count;
          if negb ok then Some (false, chunks, count) else
          '(ok, chunks) ← ber_check_memory chunks count;
          if negb ok then Some (false, chunks, count) else
          ber_encode_length count chunks count
      end
  end.

(** [tv[0]] and [tv[1]] are read without a look at the arity: outside a shorter
    tuple that is undefined. *)
Fixpoint ber_encode (fuel : nat) (t : term) (chunks : list mem_chunk) (count : Z) : ber_result :=
  match fuel with
  | O => None
  | S fuel =>
      match enif_get_tuple t with
      | None => Some (false, chunks, count)
      | Some (tv0 :: tv1 :: _) =>
          let form := if enif_is_list tv1 then ASN1_CONSTRUCTED else ASN1_PRIMITIVE in
          '(ok, chunks, count) ←
            (if form =? ASN1_PRIMITIVE then ber_encode_primitive tv1 chunks count
             else ber_encode_constructed (ber_encode fuel) fuel tv1 chunks count);
          if negb ok then Some (false, chunks, count) else
          '(ok, chunks) ← ber_check_memory chunks 3;
          if negb ok then Some (false, chunks, count) else
          ber_encode_tag tv0 form chunks count
      | Some _ => None
      end
  end.

(** [while (curr != NULL) { ... }]: the bytes of the chunks, one after the other,
    into the new binary. *)
Fixpoint ber_copy_chunks (chunks : list mem_chunk) (pos : Z) (data : list Z) : option (list Z) :=
  match chunks with
  | [] => Some data
  | c :: next =>
      let length := uint32 (chunk_length c - curr c - 1) in
      bs ← load_bytes (curr c + 1) length (top c);
      r ← memcpy (at_off pos) bs data;
      ber_copy_chunks next (uint32 (pos + length)) r.2
  end.

Definition atom_oom : list Z := [111; 111; 109].

(** [enif_alloc_binary] gives the block of the new binary. That the first chunk
    may be NULL is not looked at. *)
Definition encode_ber_tlv (enif_alloc_binary : Z -> option (list Z)) (fuel : nat) (t : term)
    : option term :=
  c ← ber_new_chunk 40;
  '(ok, chunks, length) ← ber_encode fuel t [c] 0;
  if negb ok then Some (enif_make_tuple2 (enif_make_atom atom_error) (enif_make_int ASN1_ERROR))
  else
    match enif_alloc_binary length with
    | None => Some (enif_make_tuple2 (enif_make_atom atom_error) (enif_make_atom atom_oom))
    | Some data => data ← ber_copy_chunks chunks 0 data; Some (enif_make_new_binary data)
    end.
End Encode.
