(* ===== verification/BerOk.v ===== *)
(** * BER: what the decoder accepts and what the encoder writes

    [tlv] is the data, [ber] its encodings as X.690 has them, and
    [ber_read] those the decoder takes, which are more; [ber_bytes] is the
    encoding that the encoder writes. *)

From S2P Require Import Prelude Mem Enif Ber.

#[local] Set Warnings "-register-all".

(** ** Tags, lengths and values *)

Inductive tlv :=
  | tlv_prim (tag : Z) (value : list Z)
  | tlv_cons (tag : Z) (values : list tlv).

Section TlvInd.
Variable P : tlv -> Prop.
Hypothesis P_prim : forall tag value, P (tlv_prim tag value).
Hypothesis P_cons : forall tag values, Forall P values -> P (tlv_cons tag values).

Fixpoint tlv_induction (t : tlv) : P t :=
  match t with
  | tlv_prim tag value => P_prim tag value
  | tlv_cons tag values =>
      P_cons tag values
        ((fix all ts := match ts return Forall P ts with
          | [] => Forall_nil_2 P
          | t :: ts => Forall_cons_2 P t ts (tlv_induction t) (all ts)
          end) values)
  end.
End TlvInd.

Fixpoint term_of `{Enif} (t : tlv) : term :=
  match t with
  | tlv_prim tag value => enif_make_tuple2 (enif_make_uint tag) (enif_make_new_binary value)
  | tlv_cons tag values => enif_make_tuple2 (enif_make_uint tag) (enif_list (term_of <$> values))
  end.

(** A tag is the class times 65536 plus the number. The first byte has the
    class, the form and the number, or 31 when the number follows. *)
Inductive tag_enc (form : Z) : Z -> list Z -> Prop :=
  | tag_enc_short class n :
      0 <= class < 4 -> 0 <= n < 31 -> tag_enc form (65536 * class + n) [64 * class + form + n]
  | tag_enc_one class n :
      0 <= class < 4 -> 0 <= n < 128 ->
      tag_enc form (65536 * class + n) [64 * class + form + 31; n]
  | tag_enc_two class h l :
      0 <= class < 4 -> 0 <= h < 128 -> 0 <= l < 128 ->
      tag_enc form (65536 * class + (128 * h + l)) [64 * class + form + 31; 128 + h; l].

Definition be_from (n : Z) (bs : list Z) : Z := foldl (fun n b => 256 * n + b) n bs.

Inductive length_enc : Z -> list Z -> Prop :=
  | length_enc_short n : 0 <= n < 128 -> length_enc n [n]
  | length_enc_long bs :
      Forall is_byte bs -> 0 < len bs < 128 -> length_enc (be_from 0 bs) (128 + len bs :: bs).

(** The encodings of X.690, with the length of the contents or with the end of
    the contents marked. An element of the latter kind must not look like the
    mark. *)
Inductive ber : tlv -> list Z -> Prop :=
  | ber_prim tag tb lb value :
      tag_enc ASN1_PRIMITIVE tag tb -> length_enc (len value) lb ->
      ber (tlv_prim tag value) (tb ++ lb ++ value)
  | ber_cons tag tb lb ts bs :
      tag_enc ASN1_CONSTRUCTED tag tb -> length_enc (len bs) lb -> bers ts bs ->
      ber (tlv_cons tag ts) (tb ++ lb ++ bs)
  | ber_cons_indef tag tb ts bs :
      tag_enc ASN1_CONSTRUCTED tag tb -> bers ts bs -> Forall (fun t => t <> tlv_prim 0 []) ts ->
      ber (tlv_cons tag ts) (tb ++ [0x80] ++ bs ++ [0; 0])
with bers : list tlv -> list Z -> Prop :=
  | bers_nil : bers [] []
  | bers_cons t ts b bs : ber t b -> bers ts bs -> bers (t :: ts) (b ++ bs).

(** What the decoder takes: as above, but the last element of a definite length
    may go on after the [n] bytes of the contents, since its own length is
    compared with the end of the input only; and the mark of the end is what
    begins with two zeros. *)
Inductive ber_read : tlv -> list Z -> Prop :=
  | read_prim tag tb lb value :
      tag_enc ASN1_PRIMITIVE tag tb -> length_enc (len value) lb ->
      ber_read (tlv_prim tag value) (tb ++ lb ++ value)
  | read_cons tag tb lb n ts bs :
      tag_enc ASN1_CONSTRUCTED tag tb -> length_enc n lb -> read_upto n ts bs ->
      ber_read (tlv_cons tag ts) (tb ++ lb ++ bs)
  | read_cons_indef tag tb ts bs :
      tag_enc ASN1_CONSTRUCTED tag tb -> read_indef ts bs ->
      ber_read (tlv_cons tag ts) (tb ++ [0x80] ++ bs ++ [0; 0])
with read_upto : Z -> list tlv -> list Z -> Prop :=
  | read_upto_nil n : n <= 0 -> read_upto n [] []
  | read_upto_cons n t ts b bs :
      0 < n -> ber_read t b -> read_upto (n - len b) ts bs -> read_upto n (t :: ts) (b ++ bs)
with read_indef : list tlv -> list Z -> Prop :=
  | read_indef_nil : read_indef [] []
  | read_indef_cons t ts b bs :
      take 2 b <> [0; 0] -> ber_read t b -> read_indef ts bs -> read_indef (t :: ts) (b ++ bs).

Scheme ber_mind := Minimality for ber Sort Prop
  with bers_mind := Minimality for bers Sort Prop.
Combined Scheme ber_bers_ind from ber_mind, bers_mind.

Scheme ber_read_mind := Minimality for ber_read Sort Prop
  with read_upto_mind := Minimality for read_upto Sort Prop
  with read_indef_mind := Minimality for read_indef Sort Prop.
Combined Scheme ber_read_all_ind from ber_read_mind, read_upto_mind, read_indef_mind.

(** ** Decoding an encoding *)

Lemma tag_byte b : is_byte b ->
  MASK b ASN1_CLASS = 64 * (b / 64) /\ MASK b ASN1_FORM = 32 * ((b / 32) mod 2) /\
  INVMASK b ASN1_CLASSFORM = b mod 32.
Proof.
  intros Hb.
  assert (H : (MASK b ASN1_CLASS =? 64 * (b / 64)) && (MASK b ASN1_FORM =? 32 * ((b / 32) mod 2))
    && (INVMASK b ASN1_CLASSFORM =? b mod 32) = true) by (revert b Hb; apply byte_forall; by vm_compute).
  rewrite !andb_true_iff, !Z.eqb_eq in H. tauto.
Qed.

Lemma low7 b : is_byte b -> Z.land b 0x7f = b mod 128 /\ Z.land b 0x80 = 128 * (b / 128).
Proof.
  intros Hb.
  assert (H : (Z.land b 0x7f =? b mod 128) && (Z.land b 0x80 =? 128 * (b / 128)) = true)
    by (revert b Hb; apply byte_forall; by vm_compute).
  rewrite !andb_true_iff, !Z.eqb_eq in H. tauto.
Qed.

Lemma tag_enc_len form tag tb : tag_enc form tag tb -> 1 <= len tb <= 3.
Proof. destruct 1; cbn; lia. Qed.

Lemma length_enc_len n lb : length_enc n lb -> 1 <= len lb <= 128.
Proof. destruct 1; rewrite ?len_cons; cbn [length]; lia. Qed.

Definition is_form (form : Z) : Prop := form = ASN1_PRIMITIVE \/ form = ASN1_CONSTRUCTED.

Lemma class_or class n : 0 <= n < 65536 ->
  Z.lor (Z.shiftl (64 * class) 10) n = 65536 * class + n.
Proof.
  intros Hn. rewrite Z.shiftl_mul_pow2 by lia. rewrite (lor_add 16); [lia | lia | | lia].
  replace (64 * class * 2 ^ 10) with (class * 2 ^ 16) by lia. by rewrite Z.mod_mul.
Qed.

Section Decoding.
Context `{Enif}.

Lemma bindB_ok {A B} (m : D (ber_res A)) (k : Z -> A -> D (ber_res B)) s i a :
  m s = Some (ber_ok i a) -> bindB m k s = k i a s.
Proof. intros E. unfold bindB. by erewrite bindD_Some by exact E. Qed.

Lemma decode_tag_ok form tag tb in_len o s :
  is_form form -> tag_enc form tag tb -> at_ s o tb -> o + len tb < in_len -> in_len < 2 ^ 31 ->
  ber_decode_tag in_len o s = Some (ber_ok (o + len tb) (form, enif_make_uint tag)).
Proof.
  intros Hf Ht Ha Hl Hi. assert (0 <= o) by apply Ha.
  unfold is_form, ASN1_PRIMITIVE, ASN1_CONSTRUCTED in Hf. unfold ber_decode_tag.
  destruct Ht as [class n Hc Hn | class n Hc Hn | class h l Hc Hh Hn].
  - erewrite bindD_Some by (by apply load_at).
    destruct (tag_byte (64 * class + form + n)) as (-> & -> & ->); [unfold is_byte; lia |].
    replace ((64 * class + form + n) mod 32) with n by dlia.
    rewrite (proj2 (Z.ltb_lt _ _)) by lia. unfold retD. do 2 f_equal. f_equal; [dlia |].
    f_equal. replace ((64 * class + form + n) / 64) with class by dlia. rewrite class_or by lia. done.
  - apply at_cons in Ha as [Ha0 Ha1]. cbn [length] in *.
    erewrite bindD_Some by (by apply load_at).
    destruct (tag_byte (64 * class + form + 31)) as (-> & -> & ->); [unfold is_byte; lia |].
    replace ((64 * class + form + 31) mod 32) with 31 by dlia.
    rewrite (proj2 (Z.ltb_ge 31 31)) by lia. int_fits. rewrite (proj2 (Z.ltb_ge _ _)) by lia.
    erewrite bindD_Some by (by apply load_at).
    rewrite (proj2 (Z.leb_gt _ _)) by lia. erewrite bindD_Some by (by apply load_at).
    rewrite (proj2 (Z.leb_gt _ _)) by lia. unfold retD. do 2 f_equal; [lia |]. f_equal; [dlia |].
    f_equal. replace ((64 * class + form + 31) / 64) with class by dlia. rewrite class_or by lia. done.
  - apply at_cons in Ha as [Ha0 Ha]. apply at_cons in Ha as [Ha1 Ha2]. cbn [length] in *.
    erewrite bindD_Some by (by apply load_at).
    destruct (tag_byte (64 * class + form + 31)) as (-> & -> & ->); [unfold is_byte; lia |].
    replace ((64 * class + form + 31) mod 32) with 31 by dlia.
    rewrite (proj2 (Z.ltb_ge 31 31)) by lia. int_fits. rewrite (proj2 (Z.ltb_ge _ _)) by lia.
    erewrite bindD_Some by (by apply load_at).
    rewrite (proj2 (Z.leb_le _ _)) by lia. erewrite bindD_Some by (by apply load_at).
    rewrite (proj2 (Z.leb_gt _ _)) by lia. unfold retD. do 2 f_equal; [lia |]. f_equal; [dlia |].
    f_equal. replace ((64 * class + form + 31) / 64) with class by dlia.
    unfold MASK, ASN1_LONG_TAG. destruct (low7 (128 + h)) as [-> _]; [unfold is_byte; lia |].
    replace ((128 + h) mod 128) with h by dlia.
    rewrite <- Z.lor_assoc, (lor_disjoint 7) by lia. rewrite class_or by lia. f_equal. lia.
Qed.

Lemma be_from_ge bs n : Forall is_byte bs -> 0 <= n -> n * 256 ^ len bs <= be_from n bs.
Proof.
  unfold be_from. intros Hb. revert n. induction Hb as [| b bs Hb _ IH]; intros n Hn; cbn [foldl length]; [lia |].
  unfold is_byte in Hb. rewrite pow256_succ. specialize (IH (256 * n + b)). nia.
Qed.

Lemma long_length_ok bs o n s :
  Forall is_byte bs -> 0 <= n -> be_from n bs < 2 ^ 31 -> at_ s (o + 1) bs ->
  ber_long_length (length bs) o n s = Some (ber_ok (o + len bs) (be_from n bs)).
Proof.
  intros Hb. revert o n. induction Hb as [| b bs Hb Hbs IH]; intros o n Hn Hv Ha.
  - cbn. unfold retD. do 2 f_equal. lia.
  - cbn [length ber_long_length]. apply at_cons in Ha as [Ha0 Ha].
    assert (Hn' : 256 * n + b < 2 ^ 31).
    { pose proof (be_from_ge bs (256 * n + b) Hbs). unfold is_byte in Hb.
      pose proof (pow256_pos (length bs)). unfold be_from in *. cbn [foldl] in Hv. nia. }
    unfold is_byte in Hb.
    rewrite (proj2 (Z.ltb_lt n (Z.shiftl 1 24))) by (change (Z.shiftl 1 24) with 16777216; lia). cbn [negb].
    erewrite bindD_Some by (by apply load_at).
    rewrite Z.shiftl_mul_pow2, (uint32_small (n * _)), uint32_small by (unfold is_uint32; lia).
    replace (n * 2 ^ 8 + b) with (256 * n + b) by lia.
    rewrite IH; [| lia | done | done]. f_equal. f_equal. lia.
Qed.

Lemma decode_definite n lb decode fuel form in_len o s :
  length_enc n lb -> n < 2 ^ 31 -> at_ s o lb -> o + len lb <= in_len ->
  ber_decode_value decode fuel form in_len o s
  = ber_contents decode fuel form in_len (o + len lb - 1) n s.
Proof.
  intros Hl Hn Ha Ho. unfold ber_decode_value. destruct Hl as [n Hb | bs Hb Hk].
  - cbn [length] in *. erewrite bindD_Some by (by apply load_at).
    destruct (low7 n) as [_ ->]; [unfold is_byte; lia |]. unfold ASN1_SHORT_DEFINITE_LENGTH.
    rewrite (proj2 (Z.eqb_eq _ _)) by dlia. f_equal. lia.
  - rewrite len_cons in *. apply at_cons in Ha as [Ha0 Ha].
    erewrite bindD_Some by (by apply load_at).
    destruct (low7 (128 + len bs)) as [-> ->]; [unfold is_byte; lia |].
    unfold ASN1_SHORT_DEFINITE_LENGTH, ASN1_INDEFINITE_LENGTH.
    rewrite (proj2 (Z.eqb_neq _ 0)), (proj2 (Z.eqb_neq _ 128)) by dlia.
    replace ((128 + len bs) mod 128) with (len bs) by dlia.
    rewrite (proj2 (Z.ltb_ge _ _)), Nat2Z.id by lia.
    erewrite bindB_ok by (by apply long_length_ok). f_equal. lia.
Qed.

Lemma ber_read_len t bs : ber_read t bs -> 2 <= len bs.
Proof.
  destruct 1 as [? ? ? ? Ht%tag_enc_len Hl%length_enc_len
    | ? ? ? ? ? ? Ht%tag_enc_len Hl%length_enc_len | ? ? ? ? Ht%tag_enc_len];
    rewrite !len_app; cbn [length]; lia.
Qed.

Lemma read_upto_len n ts bs : read_upto n ts bs -> n <= len bs.
Proof.
  revert n bs. induction ts; inversion 1; subst; rewrite ?len_app; [lia |].
  match goal with H : read_upto _ _ _ |- _ => apply IHts in H; lia end.
Qed.

Lemma reversed_list ts (Hlaws : EnifLaws _) s : reversed (enif_list (rev ts ++ [])) s = Some (enif_list ts).
Proof. unfold reversed. by rewrite app_nil_r, reverse_list, rev_involutive. Qed.

Lemma contents_prim decode fuel in_len o s value :
  at_ s (o + 1) value -> o + 1 + len value <= in_len ->
  ber_contents decode fuel ASN1_PRIMITIVE in_len o (len value) s
  = Some (ber_ok (o + 1 + len value) (enif_make_new_binary value)).
Proof.
  intros Ha Hl. unfold ber_contents. change (ASN1_PRIMITIVE =? ASN1_CONSTRUCTED) with false. cbv iota.
  rewrite !(proj2 (Z.ltb_ge _ _)) by lia. by erewrite bindD_Some by (by apply load_bytes_at).
Qed.

Lemma end_mark s o : at_ s o [0; 0] -> end_of_contents o s = Some true.
Proof.
  intros [Ha Hb]%at_cons. unfold end_of_contents. erewrite bindD_Some by (by apply load_at).
  cbn. by erewrite bindD_Some by (by apply load_at).
Qed.

Lemma no_end_mark s o bs :
  2 <= len bs -> take 2 bs <> [0; 0] -> at_ s o bs -> end_of_contents o s = Some false.
Proof.
  destruct bs as [| x [| y bs]]; cbn [length]; [lia.. |]. intros _ Hne Ha.
  apply at_cons in Ha as [Ha Hb]. apply at_cons in Hb as [Hb _]. cbn in Hne.
  unfold end_of_contents. erewrite bindD_Some by (by apply load_at).
  destruct (Z.eqb_spec x 0) as [-> |]; [| done]. erewrite bindD_Some by (by apply load_at).
  unfold retD. destruct (Z.eqb_spec y 0) as [-> |]; done.
Qed.

Definition dec_reads (t : tlv) (bs : list Z) : Prop :=
  forall fuel in_len o s, (length bs <= fuel)%nat -> at_ s o bs -> o + len bs <= in_len ->
    in_len < 2 ^ 31 ->
    ber_decode fuel in_len o s = Some (ber_ok (o + len bs) (term_of t)).

Definition dec_upto (n : Z) (ts : list tlv) (bs : list Z) : Prop :=
  forall F G in_len o s acc, (length bs <= F)%nat -> (length bs < G)%nat ->
    at_ s o bs -> o + len bs <= in_len -> in_len < 2 ^ 31 ->
    ber_elements (ber_decode F in_len) G (o + n) o (enif_list acc) s
    = Some (ber_ok (o + len bs) (enif_list (rev (term_of <$> ts) ++ acc))).

Definition dec_indef (ts : list tlv) (bs : list Z) : Prop :=
  forall F G in_len o s acc, (length bs <= F)%nat -> (length bs < G)%nat ->
    at_ s o (bs ++ [0; 0]) -> o + len bs + 2 <= in_len -> in_len < 2 ^ 31 ->
    ber_indefinite (ber_decode F in_len) G in_len o (enif_list acc) s
    = Some (ber_ok (o + len bs) (enif_list (rev (term_of <$> ts) ++ acc))).

Lemma decode_start form tag tb fuel in_len o s rest :
  is_form form -> tag_enc form tag tb -> at_ s o (tb ++ rest) -> 1 <= len rest ->
  o + len tb + len rest <= in_len -> in_len < 2 ^ 31 ->
  ber_decode (S fuel) in_len o s
  = bindB (ber_decode_value (ber_decode fuel in_len) fuel form in_len (o + len tb))
      (fun i value => retD (ber_ok i (enif_make_tuple2 (enif_make_uint tag) value))) s.
Proof.
  intros Hf Ht Ha Hr Hl Hi. pose proof (tag_enc_len _ _ _ Ht). apply at_app in Ha as [Ha _].
  assert (0 <= o) by apply Ha. cbn [ber_decode]. int_fits. rewrite (proj2 (Z.ltb_ge _ _)) by lia.
  erewrite bindB_ok by (eapply decode_tag_ok; [done | done | done | lia | lia]).
  by rewrite (proj2 (Z.leb_gt _ _)) by lia.
Qed.

Lemma dec_read_prim tag tb lb value :
  tag_enc ASN1_PRIMITIVE tag tb -> length_enc (len value) lb ->
  dec_reads (tlv_prim tag value) (tb ++ lb ++ value).
Proof.
  intros Ht Hl [| fuel] in_len o s Hf Ha Ho Hi;
    pose proof (tag_enc_len _ _ _ Ht); pose proof (length_enc_len _ _ Hl);
    assert (0 <= o) by apply Ha;
    rewrite !len_app in *; rewrite !length_app in Hf; [lia |].
  rewrite (decode_start ASN1_PRIMITIVE tag tb _ _ _ _ (lb ++ value)); [| by left | done | done | rewrite ?len_app; lia..].
  apply at_app in Ha as [_ Ha]. apply at_app in Ha as [Ha Hv].
  unfold bindB at 1, bindD at 1. rewrite (decode_definite (len value) lb); [| done | lia | done | lia].
  replace (o + len tb + len lb) with (o + len tb + len lb - 1 + 1) in Hv by lia.
  rewrite contents_prim by (done || lia). cbn [term_of]. unfold retD. do 2 f_equal. lia.
Qed.

Lemma dec_read_cons (Hlaws : EnifLaws _) tag tb lb n ts bs :
  tag_enc ASN1_CONSTRUCTED tag tb -> length_enc n lb -> read_upto n ts bs -> dec_upto n ts bs ->
  dec_reads (tlv_cons tag ts) (tb ++ lb ++ bs).
Proof.
  intros Ht Hl Hr%read_upto_len Hd [| fuel] in_len o s Hf Ha Ho Hi;
    pose proof (tag_enc_len _ _ _ Ht); pose proof (length_enc_len _ _ Hl);
    assert (0 <= o) by apply Ha;
    rewrite !len_app in *; rewrite !length_app in Hf; [lia |].
  rewrite (decode_start ASN1_CONSTRUCTED tag tb _ _ _ _ (lb ++ bs)); [| by right | done | done | rewrite ?len_app; lia..].
  apply at_app in Ha as [_ Ha]. apply at_app in Ha as [Ha Hv].
  unfold bindB at 1, bindD at 1. rewrite (decode_definite n lb); [| done | lia | done | lia].
  unfold ber_contents. change (ASN1_CONSTRUCTED =? ASN1_CONSTRUCTED) with true. cbv iota zeta.
  rewrite !(proj2 (Z.ltb_ge _ _)) by lia.
  replace (o + len tb + len lb - 1 + 1) with (o + len tb + len lb) by lia.
  erewrite bindB_ok by (apply (Hd fuel fuel _ _ _ []); (done || lia)).
  erewrite bindD_Some by (by apply reversed_list). unfold retD. cbn [term_of]. do 2 f_equal. lia.
Qed.

Lemma dec_read_indef (Hlaws : EnifLaws _) tag tb ts bs :
  tag_enc ASN1_CONSTRUCTED tag tb -> dec_indef ts bs ->
  dec_reads (tlv_cons tag ts) (tb ++ [0x80] ++ bs ++ [0; 0]).
Proof.
  intros Ht Hd [| fuel] in_len o s Hf Ha Ho Hi; pose proof (tag_enc_len _ _ _ Ht);
    rewrite !len_app in *; rewrite !length_app in Hf; cbn [length] in *; [lia |].
  rewrite (decode_start ASN1_CONSTRUCTED tag tb _ _ _ _ ([128] ++ bs ++ [0; 0]));
    [| by right | done | done | rewrite ?len_app; cbn [length]; lia..].
  apply at_app in Ha as [_ Ha]. apply at_app in Ha as [Ha Hv].
  change (len [_]) with 1 in *.
  unfold bindB at 1, bindD at 1. unfold ber_decode_value. erewrite bindD_Some by (by apply load_at).
  change (Z.land 128 128 =? ASN1_SHORT_DEFINITE_LENGTH) with false.
  change (128 =? ASN1_INDEFINITE_LENGTH) with true. change (ASN1_CONSTRUCTED =? ASN1_PRIMITIVE) with false.
  cbv iota zeta. assert (0 <= o + len tb) by apply Ha. int_fits.
  rewrite (proj2 (Z.leb_gt _ _)) by lia. cbn [orb].
  erewrite bindB_ok by (apply (Hd fuel fuel _ _ _ []); (done || lia)).
  erewrite bindD_Some by (by apply reversed_list). unfold retD. cbn [term_of]. do 2 f_equal. lia.
Qed.

Lemma dec_upto_cons n t ts b bs :
  0 < n -> ber_read t b -> dec_reads t b -> dec_upto (n - len b) ts bs -> dec_upto n (t :: ts) (b ++ bs).
Proof.
  intros Hn Hb%ber_read_len Ht Hts F [| G] in_len o s acc HF HG Ha Ho Hi;
    rewrite length_app in *; [lia |]. apply at_app in Ha as [Ha Hv]. cbn [ber_elements].
  rewrite (proj2 (Z.ltb_lt _ _)) by lia. cbn [negb].
  erewrite bindB_ok by (apply Ht; (done || lia)).
  change (enif_make_list_cell (term_of t) (enif_list acc)) with (enif_list (term_of t :: acc)).
  replace (o + n) with (o + len b + (n - len b)) by lia.
  rewrite Hts by (done || lia). cbn [fmap list_fmap rev]. rewrite <- app_assoc. do 2 f_equal. lia.
Qed.

Lemma dec_indef_cons t ts b bs :
  take 2 b <> [0; 0] -> ber_read t b -> dec_reads t b -> dec_indef ts bs -> dec_indef (t :: ts) (b ++ bs).
Proof.
  intros H2 Hb%ber_read_len Ht Hts F [| G] in_len o s acc HF HG Ha Ho Hi;
    rewrite length_app in *; [lia |]. rewrite <- app_assoc in Ha.
  apply at_app in Ha as [Ha Hv]. cbn [ber_indefinite].
  erewrite bindD_Some by (by eapply no_end_mark). cbv iota.
  erewrite bindB_ok by (apply Ht; (done || lia)).
  change (enif_make_list_cell (term_of t) (enif_list acc)) with (enif_list (term_of t :: acc)).
  cbv zeta. assert (0 <= o) by apply Ha. int_fits. rewrite (proj2 (Z.leb_gt _ _)) by lia.
  rewrite Hts by (done || lia). cbn [fmap list_fmap rev]. rewrite <- app_assoc. do 2 f_equal. lia.
Qed.

Lemma decode_reads (Hlaws : EnifLaws _) :
  (forall t bs, ber_read t bs -> dec_reads t bs) /\
  (forall n ts bs, read_upto n ts bs -> dec_upto n ts bs) /\
  (forall ts bs, read_indef ts bs -> dec_indef ts bs).
Proof.
  apply ber_read_all_ind.
  - apply dec_read_prim.
  - intros. by eapply dec_read_cons.
  - intros. by eapply dec_read_indef.
  - intros n Hn F [| G] in_len o s acc HF HG Ha Ho Hi; [lia |]. cbn [ber_elements].
    rewrite (proj2 (Z.ltb_ge _ _)) by lia. cbn. unfold retD. do 2 f_equal. lia.
  - intros. by apply dec_upto_cons.
  - intros F [| G] in_len o s acc HF HG Ha Ho Hi; [lia |]. cbn [ber_indefinite app] in *.
    erewrite bindD_Some by (by apply end_mark). cbn. unfold retD. do 2 f_equal. lia.
  - intros. by apply dec_indef_cons.
Qed.
End Decoding.

(** ** The encodings of X.690 are among those it takes *)

Lemma tag_enc_zero form tag tb :
  is_form form -> tag_enc form tag tb -> tb !! 0%nat = Some 0 -> form = ASN1_PRIMITIVE /\ tag = 0 /\ tb = [0].
Proof.
  unfold is_form, ASN1_PRIMITIVE, ASN1_CONSTRUCTED.
  intros Hf Ht. destruct Ht as [class n | class n | class h l]; cbn; intros [= E]; [| lia..].
  split; [lia |]. split; [lia |]. f_equal. lia.
Qed.

Lemma marked_head form tag tb rest :
  is_form form -> tag_enc form tag tb -> take 2 (tb ++ rest) = [0; 0] ->
  form = ASN1_PRIMITIVE /\ tag = 0 /\ exists rest', rest = 0 :: rest'.
Proof.
  intros Hf Ht E. destruct (tag_enc_zero form tag tb Hf Ht) as (? & ? & ->).
  - pose proof (tag_enc_len _ _ _ Ht). destruct tb as [| x tb]; [cbn in *; lia |].
    by injection E as -> _.
  - split; [done |]. split; [done |]. destruct rest; [done |]. injection E as ->. by eexists.
Qed.

Lemma ber_no_mark t bs : ber t bs -> t <> tlv_prim 0 [] -> take 2 bs <> [0; 0].
Proof.
  destruct 1 as [tag tb lb value Ht Hl | tag tb lb ts bs Ht _ _ | tag tb ts bs Ht _ _]; intros Hne E.
  - apply (marked_head _ _ _ _ ltac:(by left) Ht) in E as (_ & -> & rest & E). apply Hne. f_equal.
    remember (len value) as k. destruct Hl as [n Hn | l Hb Hk]; injection E; intros; [| lia].
    destruct value; [done | cbn in *; lia].
  - by apply (marked_head _ _ _ _ ltac:(by right) Ht) in E as (Hf & _).
  - by apply (marked_head _ _ _ _ ltac:(by right) Ht) in E as (Hf & _).
Qed.

Lemma ber_is_read :
  (forall t bs, ber t bs -> ber_read t bs) /\
  (forall ts bs, bers ts bs -> read_upto (len bs) ts bs /\
     (Forall (fun t => t <> tlv_prim 0 []) ts -> read_indef ts bs)).
Proof.
  apply ber_bers_ind.
  - apply read_prim.
  - intros tag tb lb ts bs Ht Hl _ [Hr _]. by eapply read_cons.
  - intros tag tb ts bs Ht _ [_ Hr] Hn. apply read_cons_indef; auto.
  - split; [by constructor | constructor].
  - intros t ts b bs Hb Hr _ [Hu Hi]. pose proof (ber_read_len _ _ Hr). split.
    + rewrite len_app. constructor; [lia | done |]. by replace (len b + len bs - len b) with (len bs) by lia.
    + intros [? ?]%list.Forall_cons. constructor; [by eapply ber_no_mark | done | auto].
Qed.

(** ** What the decoder returns, on any input *)

(** From the index [o] of the input [s] it either takes bytes for which [P]
    holds, or fails with an index in the input; it always returns. *)
Definition outcome {A} (s : list Z) (o : Z) (P : list Z -> A -> Prop) (r : option (ber_res A)) : Prop :=
  match r with
  | None => False
  | Some (ber_err rc i) =>
      rc ∈ [ASN1_TAG_ERROR; ASN1_LEN_ERROR; ASN1_INDEF_LEN_ERROR; ASN1_VALUE_ERROR] /\ 0 <= i <= len s
  | Some (ber_ok i a) => exists bs, at_ s o bs /\ i = o + len bs /\ P bs a
  end.

Ltac rc_tac := unfold ASN1_TAG_ERROR, ASN1_LEN_ERROR, ASN1_INDEF_LEN_ERROR, ASN1_VALUE_ERROR;
  rewrite !elem_of_cons; tauto.

Lemma outcome_bind {A B} s o (P : list Z -> A -> Prop) (Q : list Z -> B -> Prop) m k :
  outcome s o P (m s) ->
  (forall bs a, at_ s o bs -> P bs a -> outcome s (o + len bs) (fun b => Q (bs ++ b)) (k (o + len bs) a s)) ->
  outcome s o Q (bindB m k s).
Proof.
  intros Hm Hk. unfold bindB, bindD. destruct (m s) as [[rc i | i a] |]; [done | | done].
  destruct Hm as (bs & Ha & -> & HP). specialize (Hk bs a Ha HP).
  destruct (k (o + len bs) a s) as [[rc i | i b] |]; [done | | done].
  destruct Hk as (bs' & Ha' & -> & HQ). exists (bs ++ bs').
  split; [by apply at_app |]. split; [rewrite len_app; lia | done].
Qed.

Lemma outcome_impl {A} s o (P Q : list Z -> A -> Prop) r :
  (forall bs a, at_ s o bs -> P bs a -> Q bs a) -> outcome s o P r -> outcome s o Q r.
Proof. intros HPQ. destruct r as [[rc i | i a] |]; [done | | done]. intros (bs & ? & ? & ?). exists bs. auto. Qed.


Section Sound.
Context `{Enif} (Hlaws : EnifLaws _) (s : list Z) (Hs : Forall is_byte s).

Ltac fetch := match goal with
  | |- context [bindD (load ?o) _ s] =>
      let b := fresh "b" in let E := fresh "E" in let Ha := fresh "Ha" in let Hb := fresh "Hb" in
      destruct (load_within s o) as (b & E & Ha); [lia |];
      pose proof (load_byte _ _ _ Hs E) as Hb; unfold is_byte in Hb; rewrite (bindD_Some _ _ _ _ E)
  end.

Lemma class_of b : 0 <= b < 256 ->
  exists c, 0 <= c < 4 /\ 64 * (b / 64) = 64 * c /\ b = 64 * c + 32 * ((b / 32) mod 2) + b mod 32.
Proof. intros Hb. exists (b / 64). split; [dlia |]. split; [done |]. dlia. Qed.

Lemma decode_tag_outcome o :
  0 <= o -> o + 2 <= len s -> len s < 2 ^ 31 - 3 ->
  outcome s o (fun bs '(form, t) => is_form form /\ exists tag, tag_enc form tag bs /\ t = enif_make_uint tag)
    (ber_decode_tag (len s) o s).
Proof.
  intros Ho Hl Hmax. unfold ber_decode_tag. fetch.
  destruct (tag_byte b Hb) as (-> & -> & ->).
  destruct (class_of b Hb) as (c & Hc & -> & Hd). set (form := 32 * ((b / 32) mod 2)) in *.
  assert (Hform : is_form form) by (unfold is_form, ASN1_PRIMITIVE, ASN1_CONSTRUCTED, form; dlia).
  destruct (Z.ltb_spec (b mod 32) 31) as [Hn | Hn].
  - exists [b]. split; [done |]. split; [done |]. split; [done |]. exists (65536 * c + b mod 32).
    rewrite class_or by dlia. split; [| done]. rewrite Hd at 2. apply tag_enc_short; [done | dlia].
  - replace (b mod 32) with 31 in Hd by dlia. clear Hn. 
    int_fits. destruct (Z.ltb_spec (len s) (o + 3)) as [| Hl3]; [cbn; split; [rc_tac | lia] |]. fetch.
    destruct (Z.leb_spec 128 b0) as [Hb128 | Hb128].
    + fetch. destruct (Z.leb_spec 128 b1) as [? | ?]; [cbn; split; [rc_tac | lia] |].
      exists [b; b0; b1]. split; [by rewrite !(at_cons _ _ _ (_ :: _)) |].
      split; [cbn; lia |]. split; [done |]. exists (65536 * c + (128 * (b0 - 128) + b1)). split.
      * replace [b; b0; b1] with [64 * c + form + 31; 128 + (b0 - 128); b1] by (repeat f_equal; lia).
        apply tag_enc_two; lia.
      * f_equal. unfold MASK, ASN1_LONG_TAG. destruct (low7 b0) as [-> _]; [done |].
        rewrite <- Z.lor_assoc, (lor_disjoint 7), class_or by dlia. dlia.
    + rewrite (bindD_Some _ _ _ _ E0), (proj2 (Z.leb_gt _ _)) by lia.
      exists [b; b0]. split; [by rewrite (at_cons _ _ _ (_ :: _)) |].
      split; [cbn; lia |]. split; [done |]. exists (65536 * c + b0). split.
      * rewrite Hd. apply tag_enc_one; lia.
      * f_equal. by rewrite class_or by lia.
Qed.

Lemma long_length_outcome k o n :
  0 <= o -> o + Z.of_nat k < len s -> 0 <= n ->
  outcome s (o + 1) (fun bs v => length bs = k /\ v = be_from n bs)
    (bindB (ber_long_length k o n) (fun i v => retD (ber_ok (i + 1) v)) s).
Proof.
  revert o n. induction k as [| k IH]; intros o n Ho Hk Hn.
  - exists []. split; [| cbn; split; [lia | done]]. split; [lia |].
    exists (take (Z.to_nat (o + 1)) s), (drop (Z.to_nat (o + 1)) s). cbn [app].
    rewrite take_drop, length_take. split; [done | lia].
  - unfold bindB. cbn [ber_long_length].
    destruct (Z.ltb_spec n (Z.shiftl 1 24)) as [Hn' | Hn']; cbn [negb];
      [| cbn; split; [rc_tac | lia]].
    change (Z.shiftl 1 24) with 16777216 in Hn'. rewrite bindD_assoc. fetch.
    rewrite Z.shiftl_mul_pow2, (uint32_small (n * _)), uint32_small by (unfold is_uint32; lia).
    replace (n * 2 ^ 8 + b) with (256 * n + b) by lia.
    specialize (IH (o + 1) (256 * n + b)). unfold bindB in IH.
    eapply (outcome_bind s (o + 1) (fun bs _ => bs = [b]) _ (fun _ => Some (ber_ok (o + 1 + 1) tt))
      (fun _ _ => bindD (ber_long_length k (o + 1) (256 * n + b)) _)).
    + exists [b]. done.
    + intros bs a Hab ->. cbn [length]. change (Z.of_nat 1) with 1. 
      eapply outcome_impl; [| apply IH; lia]. cbn. intros bs' v _ [<- ->]. done.
Qed.

(** The decoder for the elements, from an index on. *)
Definition element_ok (decode : Z -> D (ber_res term)) (o : Z) : Prop :=
  outcome s o (fun bs v => exists t, ber_read t bs /\ v = term_of t) (decode o s).

Lemma elements_outcome decode G n o acc :
  (forall o', o <= o' < len s -> element_ok decode o') ->
  0 <= o <= len s -> o + n <= len s -> len s - o < Z.of_nat G ->
  outcome s o (fun bs v => exists ts, read_upto n ts bs /\ v = enif_list (rev (term_of <$> ts) ++ acc))
    (ber_elements decode G (o + n) o (enif_list acc) s).
Proof.
  revert n o acc. induction G as [| G IH]; intros n o acc Hd Ho Hn HG; [lia |]. cbn [ber_elements].
  destruct (Z.ltb_spec o (o + n)); cbn [negb].
  - eapply outcome_bind; [apply (Hd o); lia |]. intros b v Ha (t & Ht & ->).
    pose proof (ber_read_len _ _ Ht). pose proof (at_range _ _ _ Ha) as [_ Hr].
    replace (o + n) with (o + len b + (n - len b)) by lia.
    change (enif_make_list_cell (term_of t) (enif_list acc)) with (enif_list (term_of t :: acc)).
    eapply outcome_impl; [| apply IH; [intros; apply Hd; lia | lia..]].
    intros bs v _ (ts & Hts & ->). exists (t :: ts). split; [constructor; [lia | done | done] |].
    cbn [fmap list_fmap rev]. by rewrite <- app_assoc.
  - exists []. split; [| split; [cbn; lia |]; exists []; split; [constructor; lia | done]].
    destruct (bytes_within s o 0) as (bs & Ha & Hb); [lia.. |]. by destruct bs.
Qed.

Lemma marked_bytes o b b0 b1 :
  2 <= len b -> at_ s o b -> at_ s o [b0; b1] -> take 2 b = [b0; b1].
Proof.
  intros Hl Ha Hb. destruct b as [| x [| y b]]; cbn [length] in Hl; [lia.. |].
  apply at_cons in Ha as [Hx Ha]. apply at_cons in Ha as [Hy _].
  apply at_cons in Hb as [Hx' Hy']. apply load_at in Hx, Hy, Hx', Hy'. change (take 2 (x :: y :: b)) with [x; y].
  congruence.
Qed.

Lemma indefinite_outcome decode G o acc :
  (forall o', o <= o' < len s -> element_ok decode o') ->
  0 <= o -> o + 1 < len s -> len s - o < Z.of_nat G -> len s < 2 ^ 31 - 3 ->
  outcome s o (fun b v => at_ s (o + len b) [0; 0] /\ exists ts, read_indef ts b /\
      v = enif_list (rev (term_of <$> ts) ++ acc))
    (ber_indefinite decode G (len s) o (enif_list acc) s).
Proof.
  revert o acc. induction G as [| G IH]; intros o acc Hd Ho Hn HG Hmax; [lia |].
  cbn [ber_indefinite].
  destruct (load_within s o) as (b0 & E0 & Ha0); [lia |].
  destruct (load_within s (o + 1)) as (b1 & E1 & Ha1); [lia |].
  assert (Ha : at_ s o [b0; b1]) by by rewrite (at_cons _ _ _ (_ :: _)).
  destruct (decide (take 2 [b0; b1] = [0; 0])) as [[= -> ->] | Hne].
  - erewrite bindD_Some by by apply end_mark. exists [].
    destruct (bytes_within s o 0) as (bs & Hb & Hl); [lia.. |]. destruct bs; [| done].
    split; [done |]. split; [cbn; lia |]. cbn [length]. rewrite Z.add_0_r. split; [done |].
    exists []. split; [constructor | done].
  - erewrite bindD_Some by (eapply (no_end_mark _ _ [b0; b1]); [done | done | done]). cbv iota.
    eapply outcome_bind; [apply (Hd o); lia |]. intros b v Hb (t & Ht & ->).
    pose proof (ber_read_len _ _ Ht). pose proof (at_range _ _ _ Hb) as [_ Hr]. cbv zeta.
    int_fits. destruct (Z.leb_spec (len s) (o + len b + 1)); [cbn; split; [rc_tac | lia] |].
    change (enif_make_list_cell (term_of t) (enif_list acc)) with (enif_list (term_of t :: acc)).
    eapply outcome_impl; [| apply IH; [intros; apply Hd; lia | lia..]].
    intros bs v _ (He & ts & Hts & ->). rewrite len_app, Z.add_assoc. split; [done |].
    exists (t :: ts). split; [| cbn [fmap list_fmap rev]; by rewrite <- app_assoc].
    constructor; [| done | done]. by rewrite (marked_bytes o b b0 b1).
Qed.

(** The value after a tag of the given form. *)
Definition value_read (form : Z) (bs : list Z) (v : term) : Prop :=
  forall tag tb, tag_enc form tag tb ->
    exists t, ber_read t (tb ++ bs) /\ enif_make_tuple2 (enif_make_uint tag) v = term_of t.

Lemma contents_outcome decode G form o lb n :
  is_form form -> (forall o', o <= o' < len s -> element_ok decode o') ->
  0 <= n -> length_enc n lb -> 1 <= o <= len s -> len s - o < Z.of_nat G -> len s < 2 ^ 31 ->
  outcome s o (fun bs v => value_read form (lb ++ bs) v)
    (ber_contents decode G form (len s) (o - 1) n s).
Proof.
  intros Hf Hd Hn Hl Ho HG Hs'. unfold ber_contents. replace (o - 1 + 1) with o by lia.
  destruct (Z.ltb_spec (len s - o) n); [cbn; split; [rc_tac | lia] |].
  rewrite (proj2 (Z.ltb_ge (len s) _)) by lia.
  destruct Hf as [-> | ->]; cbn [Z.eqb ASN1_CONSTRUCTED ASN1_PRIMITIVE Pos.eqb]; cbv iota zeta.
  - destruct (bytes_within s o n) as (bs & Ha & Hb); [lia.. |]. rewrite <- Hb.
    erewrite bindD_Some by by apply load_bytes_at. exists bs. split; [done |]. split; [done |].
    intros tag tb Ht. exists (tlv_prim tag bs). split; [constructor; [done | by rewrite Hb] | done].
  - eapply outcome_bind; [apply (elements_outcome _ _ _ _ []); done || lia |].
    intros bs v Ha (ts & Hts & ->). erewrite bindD_Some by by apply reversed_list.
    pose proof (at_range _ _ _ Ha) as [_ Hr].
    exists []. rewrite app_nil_r. split; [| split; [cbn; lia |]].
    + destruct (bytes_within s (o + len bs) 0) as (b0 & Hb & Hb0); [lia.. |]. by destruct b0.
    + intros tag tb Ht. exists (tlv_cons tag ts). split; [by eapply read_cons | done].
Qed.

Lemma outcome_prefix {A} o pre (P : list Z -> A -> Prop) r :
  at_ s o pre -> outcome s (o + len pre) (fun bs => P (pre ++ bs)) r -> outcome s o P r.
Proof.
  intros Ha. destruct r as [[rc i | i a] |]; [done | | done]. intros (bs & Hb & -> & HP).
  exists (pre ++ bs). split; [by apply at_app |]. split; [rewrite len_app; lia | done].
Qed.

Lemma be_from_bytes bs : Forall is_byte bs -> 0 <= be_from 0 bs.
Proof. intros Hb. pose proof (be_from_ge bs 0 Hb). lia. Qed.

Lemma at_is_byte o bs : at_ s o bs -> Forall is_byte bs.
Proof.
  intros [_ (pre & post & E & _)]. rewrite E in Hs. by apply Forall_app in Hs as [_ [Hb _]%Forall_app].
Qed.

Lemma value_outcome decode G form o :
  is_form form -> (forall o', o < o' < len s -> element_ok decode o') ->
  0 <= o < len s -> len s - o <= Z.of_nat G -> len s < 2 ^ 31 - 3 ->
  outcome s o (value_read form) (ber_decode_value decode G form (len s) o s).
Proof.
  intros Hf Hd Ho HG Hs'. unfold ber_decode_value. fetch.
  destruct (low7 b Hb) as [E7 E8]. rewrite E8, E7. unfold ASN1_SHORT_DEFINITE_LENGTH.
  destruct (Z.eqb_spec (128 * (b / 128)) 0).
  - apply (outcome_prefix o [b]); [done |]. replace (Z.of_nat (length [b])) with 1 by done.
    rewrite <- (Z.add_simpl_r o 1) at 2. apply contents_outcome; try done; [| lia | | lia..].
    + intros o' ?. apply Hd. lia.
    + constructor. dlia.
  - destruct (Z.eqb_spec b ASN1_INDEFINITE_LENGTH) as [-> |].
    + int_fits. destruct (Z.leb_spec (len s) (o + 1 + 1)); [cbn; split; [rc_tac | lia] |].
      destruct (Z.eqb_spec form ASN1_PRIMITIVE); [cbn; split; [rc_tac | lia] |].
      destruct Hf as [? | ->]; [done |]. cbn [orb].
      apply (outcome_prefix o [128]); [done |]. replace (Z.of_nat (length [128])) with 1 by done.
      eapply outcome_bind; [apply (indefinite_outcome _ _ _ []); [intros; apply Hd; lia | lia..] |].
      intros bs v Ha' (He & ts & Hts & ->). erewrite bindD_Some by by apply reversed_list.
      exists [0; 0]. split; [done |]. split; [cbn; lia |]. intros tag tb Ht.
      exists (tlv_cons tag ts). split; [by apply read_cons_indef | done].
    + unfold ASN1_INDEFINITE_LENGTH in *. set (k := b mod 128).
      assert (Hk : 0 < k < 128 /\ b = 128 + k) by (unfold k; dlia). destruct Hk as [Hk Hbk].
      destruct (Z.ltb_spec (len s - (o + 1)) k); [cbn; split; [rc_tac | lia] |].
      apply (outcome_prefix o [b]); [done |]. replace (Z.of_nat (length [b])) with 1 by done.
      assert (Hl : outcome s (o + 1) _ _) by (apply (long_length_outcome (Z.to_nat k) o 0); lia).
      unfold bindB, bindD in *.
      destruct (ber_long_length (Z.to_nat k) o 0 s) as [[rc i | i lenv] |]; [done | | done].
      destruct Hl as (bs & Hbs & Hi & Hlen & ->). pose proof (at_range _ _ _ Hbs) as [_ Hr].
      pose proof (at_is_byte _ _ Hbs) as Hbb.
      apply (outcome_prefix (o + 1) bs); [done |]. replace i with (o + 1 + len bs - 1) by lia.
      eapply outcome_impl; [| apply (contents_outcome _ _ _ _ (b :: bs)); try done].
      * intros b' v _ Hv. exact Hv.
      * intros o' ?. apply Hd. lia.
      * by apply be_from_bytes.
      * rewrite Hbk. replace k with (len bs) by lia. constructor; [done | lia].
      * lia.
      * lia.
      * lia.
Qed.

Lemma decode_outcome fuel o :
  0 <= o <= len s -> len s - o < Z.of_nat fuel -> len s < 2 ^ 31 - 3 ->
  element_ok (ber_decode fuel (len s)) o.
Proof.
  revert o. induction fuel as [| fuel IH]; intros o Ho Hfu Hs'; [lia |].
  unfold element_ok. cbn [ber_decode].
  int_fits. destruct (Z.ltb_spec (len s) (o + 2)); [cbn; split; [rc_tac | lia] |].
  eapply outcome_bind; [apply decode_tag_outcome; lia |].
  intros tb [form t] Ha (Hf & tag & Ht & ->). pose proof (tag_enc_len _ _ _ Ht).
  destruct (Z.leb_spec (len s) (o + len tb));
    [cbn; pose proof (at_range _ _ _ Ha) as [_ ?]; split; [rc_tac | lia] |].
  eapply outcome_bind; [apply value_outcome; [done | | lia..] |].
  - intros o' ?. apply IH; lia.
  - intros bs v Hb Hv. destruct (Hv tag tb Ht) as (r & Hr & Er). exists []. rewrite app_nil_r.
    pose proof (at_range _ _ _ Hb) as [_ ?].
    destruct (bytes_within s (o + len tb + len bs) 0) as (b0 & Hb0 & ?); [lia.. |]. destruct b0; [| done].
    split; [done |]. split; [cbn; lia |]. by exists r.
Qed.
End Sound.
