(* ===== verification/BerWrite.v ===== *)
(** * BER: what the encoder writes

    [ber_bytes] is the encoding with tags and lengths as short as possible;
    the encoder writes it backwards, into chunks of memory that hold all of it
    at the end ([chunk_data]). *)

From S2P Require Import Prelude Mem Enif Ber BerOk.

#[local] Set Warnings "-register-all".

Definition tag_bytes (form tag : Z) : list Z :=
  let head := 64 * (tag / 65536) + form in
  let n := tag mod 65536 in
  if n <? 31 then [head + n]
  else if n <? 128 then [head + 31; n]
  else [head + 31; 128 + n / 128; n mod 128].

Definition length_bytes (n : Z) : list Z :=
  if n <? 128 then [n] else let bs := rev (digits 8 n) in 128 + len bs :: bs.

Fixpoint ber_bytes (t : tlv) : list Z :=
  match t with
  | tlv_prim tag value => tag_bytes ASN1_PRIMITIVE tag ++ length_bytes (len value) ++ value
  | tlv_cons tag values =>
      let bs := concat (ber_bytes <$> values) in
      tag_bytes ASN1_CONSTRUCTED tag ++ length_bytes (len bs) ++ bs
  end.

(** Tag numbers that fit in two groups of seven bits, and values of bytes. *)
Definition tag_ok (tag : Z) : Prop := 0 <= tag < 4 * 65536 /\ tag mod 65536 < 16384.

Inductive tlv_ok : tlv -> Prop :=
  | tlv_ok_prim tag value : tag_ok tag -> Forall is_byte value -> tlv_ok (tlv_prim tag value)
  | tlv_ok_cons tag values : tag_ok tag -> Forall tlv_ok values -> tlv_ok (tlv_cons tag values).

(** ** It is an encoding of X.690 *)

Lemma tag_bytes_enc form tag : tag_ok tag -> tag_enc form tag (tag_bytes form tag).
Proof.
  intros [Ht Hn]. unfold tag_bytes.
  assert (Hc : 0 <= tag / 65536 < 4) by dlia.
  assert (Hm : 0 <= tag mod 65536) by dlia.
  assert (Ed : tag = 65536 * (tag / 65536) + tag mod 65536) by dlia.
  set (c := tag / 65536) in *. set (n := tag mod 65536) in *. rewrite Ed. clearbody c n.
  destruct (Z.ltb_spec n 31); [apply tag_enc_short; lia |].
  destruct (Z.ltb_spec n 128); [apply tag_enc_one; lia |].
  replace n with (128 * (n / 128) + n mod 128) at 1 by dlia. apply tag_enc_two; dlia.
Qed.

Lemma be_from_rev bs : be_from 0 (rev bs) = le_val bs.
Proof.
  induction bs as [| b bs IH]; [done |]. cbn [rev le_val]. unfold be_from in *.
  rewrite foldl_app, IH. cbn. lia.
Qed.

Lemma digits_nonempty k n : 0 < n -> (0 < k)%nat -> 0 < len (digits k n).
Proof. destruct k; [lia |]. intros Hn _. cbn. destruct (Z.eqb_spec n 0); [lia |]. cbn. lia. Qed.

Lemma length_bytes_enc n : 0 <= n < 2 ^ 64 -> length_enc n (length_bytes n).
Proof.
  intros Hn. unfold length_bytes. destruct (Z.ltb_spec n 128); [apply length_enc_short; lia |].
  assert (E : n = be_from 0 (rev (digits 8 n))) by (rewrite be_from_rev, le_val_digits; lia).
  rewrite E at 1. pose proof (digits_nonempty 8 n). pose proof (length_digits 8 n).
  constructor; [| rewrite length_rev; lia].
  apply Forall_rev. apply digits_byte.
Qed.

Lemma tag_bytes_len form tag : tag_ok tag -> 1 <= len (tag_bytes form tag) <= 3.
Proof. intros. by eapply tag_enc_len, tag_bytes_enc. Qed.

Lemma ber_bytes_ber t : tlv_ok t -> len (ber_bytes t) < 2 ^ 64 -> ber t (ber_bytes t).
Proof.
  induction t as [tag value | tag ts IH] using tlv_induction; inversion 1 as [? ? Ht Hv | ? ? Ht Hts]; subst;
    cbn [ber_bytes]; rewrite !len_app; intros Hl.
  - constructor; [by apply tag_bytes_enc |]. apply length_bytes_enc. lia.
  - assert (Hb : bers ts (concat (ber_bytes <$> ts))).
    { assert (Hc : len (concat (ber_bytes <$> ts)) < 2 ^ 64) by lia. clear Hl.
      induction IH as [| t ts Ht' _ IHts]; [constructor |]. cbn in *. rewrite len_app in Hc.
      apply list.Forall_cons in Hts as [? ?]. inversion H; subst. 
      constructor; [apply Ht'; [done | lia] | apply IHts; [by constructor | done | lia]]. }
    constructor; [by apply tag_bytes_enc | | done]. apply length_bytes_enc. lia.
Qed.

Lemma tag_bytes_byte form tag : is_form form -> tag_ok tag -> Forall is_byte (tag_bytes form tag).
Proof.
  intros Hf [Ht Hn]. unfold is_form, ASN1_PRIMITIVE, ASN1_CONSTRUCTED in Hf. unfold tag_bytes, is_byte.
  destruct (Z.ltb_spec (tag mod 65536) 31); [repeat constructor; dlia |].
  destruct (Z.ltb_spec (tag mod 65536) 128); repeat constructor; dlia.
Qed.

Lemma length_bytes_byte n : 0 <= n -> Forall is_byte (length_bytes n).
Proof.
  intros Hn. unfold length_bytes. destruct (Z.ltb_spec n 128).
  - repeat constructor; lia.
  - constructor; [| apply Forall_rev, digits_byte].
    pose proof (length_digits 8 n). rewrite length_rev. unfold is_byte. lia.
Qed.

Lemma ber_bytes_byte t : tlv_ok t -> Forall is_byte (ber_bytes t).
Proof.
  induction t as [tag value | tag ts IH] using tlv_induction; inversion 1 as [? ? Ht Hv | ? ? Ht Hts]; subst;
    cbn [ber_bytes]; rewrite !Forall_app.
  - split; [apply tag_bytes_byte; [by left | done] |]. split; [apply length_bytes_byte; lia | done].
  - split; [apply tag_bytes_byte; [by right | done] |]. split; [apply length_bytes_byte; lia |].
    apply Forall_concat, Forall_fmap. rewrite list.Forall_forall in *. intros t Hin. by apply IH; [| apply Hts].
Qed.

(** ** Chunks *)

Definition written (c : mem_chunk) : list Z := drop (Z.to_nat (curr c + 1)) (top c).
Definition chunk_data (chunks : list mem_chunk) : list Z := concat (written <$> chunks).

Definition chunk_ok (N : Z) (c : mem_chunk) : Prop :=
  chunk_length c = len (top c) /\ -1 <= curr c < chunk_length c /\ 0 < chunk_length c <= 4 * N + 40.

(** At most [N] bytes are written, and there is room for [k + 1] more bytes in
    the first chunk. *)
Definition good (N k : Z) (chunks : list mem_chunk) : Prop :=
  Forall (chunk_ok N) chunks /\ len (chunk_data chunks) <= N /\
  exists c next, chunks = c :: next /\ k <= curr c.

Lemma good_less N k k' chunks : k' <= k -> good N k chunks -> good N k' chunks.
Proof. intros Hk (? & ? & c & next & -> & ?). repeat split; [done.. |]. exists c, next. split; [done | lia]. Qed.

Lemma written_len N c : chunk_ok N c -> len (written c) = chunk_length c - 1 - curr c.
Proof. intros (Hl & Hc & _). unfold written. rewrite length_drop. lia. Qed.

Section Chunks.
Context (enif_alloc : Z -> option (list Z)) (N : Z) (HN : 0 <= N < 2 ^ 28).
Hypothesis alloc_length : forall n block, 0 <= n -> enif_alloc n = Some block -> len block = n.

(** A size that was asked for and that could not be allocated. *)
Definition out_of_memory : Prop := exists n, 0 < n <= 4 * N + 40 /\ enif_alloc n = None.

Lemma new_chunk_ok n :
  0 < n <= 4 * N + 40 ->
  (exists c, ber_new_chunk enif_alloc n = Some c /\ chunk_ok N c /\ curr c = n - 1 /\ written c = []) \/
  (ber_new_chunk enif_alloc n = None /\ out_of_memory).
Proof.
  intros Hn. unfold ber_new_chunk. destruct (enif_alloc n) as [block |] eqn:E.
  - left. apply alloc_length in E; [| lia]. rewrite int32_small by (unfold is_int32; lia).
    eexists. split; [done |]. cbn. split; [unfold chunk_ok; cbn; lia |]. split; [done |].
    unfold written. cbn. apply drop_ge. lia.
  - right. split; [done |]. by exists n.
Qed.

Lemma check_memory_ok k chunks needed :
  good N k chunks -> -1 <= k -> 0 <= needed <= N \/ 0 <= needed <= 8 ->
  (exists chunks', ber_check_memory enif_alloc chunks needed = Some (true, chunks') /\
     good N needed chunks' /\ chunk_data chunks' = chunk_data chunks) \/
  (ber_check_memory enif_alloc chunks needed = Some (false, chunks) /\ out_of_memory).
Proof.
  intros (Hf & Hd & c & next & -> & Hk) Hk1 Hn. unfold ber_check_memory.
  destruct (Z.leb_spec 0 (curr c - needed)) as [Hr | Hr].
  - left. eexists. split; [done |]. split; [| done]. repeat split; [done.. |].
    exists c, next. split; [done | lia].
  - pose proof Hf as [Hc _]%list.Forall_cons. pose proof (written_len N c Hc) as Hw.
    unfold chunk_data in Hd. cbn in Hd. rewrite len_app in Hd. destruct Hc as (? & ? & ?).
    set (size := if needed <? chunk_length c then _ else _).
    assert (Hs : uint32 size = (if needed <? chunk_length c then 2 * chunk_length c
      else chunk_length c + needed)).
    { unfold size. destruct (Z.ltb_spec needed (chunk_length c)).
      - rewrite int32_small, uint32_small by (unfold is_uint32, is_int32; lia). lia.
      - rewrite !uint32_small by (rewrite ?uint32_small; unfold is_uint32; lia). done. }
    rewrite Hs. destruct (new_chunk_ok (if needed <? chunk_length c then 2 * chunk_length c
      else chunk_length c + needed)) as [(c' & -> & Hc' & Hcu & Hwr) | [-> ?]].
    + destruct (Z.ltb_spec needed (chunk_length c)); lia.
    + left. eexists. split; [done |]. split.
      * split; [by constructor |]. unfold chunk_data. cbn. rewrite Hwr. cbn. rewrite len_app.
        split; [done |]. exists c', (c :: next). split; [done |]. rewrite Hcu.
        destruct (Z.ltb_spec needed (chunk_length c)); lia.
      * unfold chunk_data. cbn. by rewrite Hwr.
    + by right.
Qed.

Lemma chunk_put_bytes_ok k chunks bs :
  good N (k + len bs) chunks -> -1 <= k -> Forall is_byte bs -> len (chunk_data chunks) + len bs <= N ->
  exists chunks', ber_put_bytes chunks bs = Some chunks' /\ good N k chunks' /\
    chunk_data chunks' = bs ++ chunk_data chunks.
Proof.
  intros (Hf & Hd & c & next & -> & Hk) Hk1 Hb HN'. unfold ber_put_bytes.
  apply list.Forall_cons in Hf as [(Hl & Hc & Hm) Hf].
  assert (Hfit : fits (top c) (curr c - len bs + 1) bs) by (split; lia).
  rewrite memcpy_ok, bytes_id by done. eexists. split; [done |].
  assert (Hw : written (Chunk (splice (top c) (curr c - len bs + 1) bs) (chunk_length c) (curr c - len bs))
    = bs ++ written c).
  { unfold written, splice. cbn. rewrite drop_app_length' by (rewrite length_take; lia).
    do 2 f_equal. lia. }
  unfold good, chunk_data in *. cbn in *. rewrite Hw, <- app_assoc. split; [| done].
  split; [constructor; [| done] |].
  - unfold chunk_ok. cbn. rewrite length_splice by done. lia.
  - split; [rewrite !len_app in *; lia |]. eexists _, _. split; [done |]. cbn. lia.
Qed.

Lemma chunk_put_ok k chunks v :
  good N (k + 1) chunks -> -1 <= k -> is_byte v -> len (chunk_data chunks) + 1 <= N ->
  exists chunks', ber_put chunks v = Some chunks' /\ good N k chunks' /\
    chunk_data chunks' = v :: chunk_data chunks.
Proof.
  intros Hg Hk Hv HN'. destruct (chunk_put_bytes_ok k chunks [v]) as (chunks' & E & Hg' & Hd); auto.
  exists chunks'. split; [| done]. rewrite <- E. unfold ber_put, ber_put_bytes.
  destruct chunks as [| c next]; [done |]. cbn [length memcpy]. change (Z.of_nat 1) with 1.
  replace (curr c - 1 + 1) with (curr c) by lia. unfold bindM, retM.
  by destruct (store (at_off (curr c)) v (top c)) as [[? ?] |].
Qed.

Lemma chunk_put1_ok k chunks count v :
  good N (k + 1) chunks -> -1 <= k -> is_byte v -> len (chunk_data chunks) + 1 <= N ->
  0 <= count < N ->
  exists chunks', ber_put1 chunks count v = Some (chunks', count + 1) /\ good N k chunks' /\
    chunk_data chunks' = v :: chunk_data chunks.
Proof.
  intros Hg Hk Hv HN' Hc. destruct (chunk_put_ok k chunks v) as (chunks' & E & ?); [done.. |].
  exists chunks'. unfold ber_put1. rewrite E. cbn. rewrite uint32_small by (unfold is_uint32; lia). done.
Qed.

(** With room for [room + 1] bytes, [f] writes [bs] in front of what is there,
    counts them and leaves room for [left + 1]; or it fails, and then an
    allocation failed. *)
Definition writes (room left count : Z) (f : list mem_chunk -> Z -> ber_result) (bs : list Z) : Prop :=
  forall chunks, good N room chunks -> 0 <= count <= len (chunk_data chunks) ->
    len (chunk_data chunks) + len bs <= N ->
    (exists chunks', f chunks count = Some (true, chunks', count + len bs) /\
       good N left chunks' /\ chunk_data chunks' = bs ++ chunk_data chunks) \/
    (exists chunks' count', f chunks count = Some (false, chunks', count') /\ out_of_memory).

Lemma lor_128 n : 0 <= n < 128 -> Z.lor n 0x80 = 128 + n.
Proof. intros Hn. rewrite Z.lor_comm. by rewrite (lor_add 7) by (done || lia). Qed.

Lemma digits_len k j n : 0 <= n < 256 ^ Z.of_nat j -> (length (digits k n) <= j)%nat.
Proof.
  revert j n. induction k as [| k IH]; intros j n Hn; cbn [digits length]; [lia |].
  destruct (Z.eqb_spec n 0); cbn [length]; [lia |]. destruct j as [| j]; [cbn in Hn; lia |].
  rewrite pow256_succ in Hn. specialize (IH j (n / 256)). dlia.
Qed.

Lemma put_size_step fuel size chunks count n :
  ber_put_size (S fuel) size chunks count n
  = if size <=? 0 then Some (chunks, count, n) else
    '(chunks, count) ← ber_put1 chunks count (Z.land size 0xFF);
    ber_put_size fuel (Z.shiftr size 8) chunks count (n + 1).
Proof. done. Qed.

Lemma put_size_ok k size chunks count n room :
  0 <= size < 256 ^ Z.of_nat k -> -1 <= room ->
  good N (room + len (digits k size)) chunks -> 0 <= count <= len (chunk_data chunks) ->
  len (chunk_data chunks) + len (digits k size) <= N ->
  exists chunks', ber_put_size (S k) size chunks count n
    = Some (chunks', count + len (digits k size), n + len (digits k size)) /\
    good N room chunks' /\ chunk_data chunks' = rev (digits k size) ++ chunk_data chunks.
Proof.
  revert size chunks count n. induction k as [| k IH]; intros size chunks count n Hs Hr Hg Hc Hl.
  - cbn [digits length] in *. rewrite !Z.add_0_r in *. cbn [ber_put_size].
    rewrite (proj2 (Z.leb_le _ _)) by (cbn in Hs; lia). by exists chunks.
  - cbn [digits] in *. rewrite put_size_step. rewrite pow256_succ in Hs.
    destruct (Z.eqb_spec size 0) as [-> | Hne]; cbn [length] in *.
    + rewrite !Z.add_0_r in *. by exists chunks.
    + rewrite (proj2 (Z.leb_gt _ _)) by lia.
      destruct (chunk_put1_ok (room + len (digits k (size / 256))) chunks count (Z.land size 0xFF))
        as (chunks1 & -> & Hg1 & Hd1); [eapply good_less; [| done]; lia | lia | apply byte_range | lia | lia |].
      cbn [mbind option_bind]. rewrite Z.shiftr_div_pow2 by lia. change (2 ^ 8) with 256.
      destruct (IH (size / 256) chunks1 (count + 1) (n + 1)) as (chunks2 & E & Hg2 & Hd2);
        [dlia | done | done | rewrite Hd1, len_cons; lia | rewrite Hd1, len_cons; lia |].
      exists chunks2. rewrite E. split; [f_equal; f_equal; [f_equal; lia | lia] |]. split; [done |].
      rewrite Hd2, Hd1. cbn [rev]. by rewrite <- app_assoc.
Qed.

Lemma encode_length_writes size count :
  0 <= size <= N ->
  writes 0 0 count (ber_encode_length enif_alloc size) (length_bytes size).
Proof.
  intros Hs chunks Hg Hc Hl. unfold ber_encode_length, length_bytes in *. cbv zeta in *.
  destruct (Z.ltb_spec size 128) as [Hlt | Hge].
  - destruct (check_memory_ok 0 chunks 1) as [(c1 & -> & Hg1 & Hd1) | [-> Hm]];
      [done | lia | lia | | by right; eexists _, _].
    left. cbn [mbind option_bind negb]. rewrite <- Hd1 in *.
    destruct (chunk_put1_ok 0 c1 count size) as (c2 & -> & Hg2 & Hd2);
      [done | lia | unfold is_byte; lia | cbn in Hl; lia | cbn in Hl; lia |].
    exists c2. split; [done |]. split; [done |]. done.
  - destruct (check_memory_ok 0 chunks 8) as [(c1 & -> & Hg1 & Hd1) | [-> Hm]];
      [done | lia | lia | | by right; eexists _, _].
    left. cbn [mbind option_bind negb]. rewrite <- Hd1 in *.
    pose proof (digits_len 8 4 size ltac:(cbn; lia)) as Hd4. rewrite len_cons, length_rev in *.
    destruct (put_size_ok 8 size c1 count 0 1) as (c2 & -> & Hg2 & Hd2);
      [cbn; lia | lia | eapply good_less; [| done]; lia | lia | lia |].
    cbn [mbind option_bind]. rewrite Z.add_0_l, lor_128 by lia.
    destruct (chunk_put1_ok 0 c2 (count + len (digits 8 size)) (128 + len (digits 8 size)))
      as (c3 & -> & Hg3 & Hd3);
      [done | lia | unfold is_byte; lia | rewrite Hd2, len_app, length_rev; lia | lia |].
    exists c3. split; [cbn [mbind option_bind]; do 2 f_equal; lia |]. split; [done |]. by rewrite Hd3, Hd2.
Qed.

Lemma head_tag form tag :
  is_form form -> 0 <= tag < 4 * 65536 ->
  Z.lor form (Z.shiftr (Z.land tag 0x30000) 10) = 64 * (tag / 65536) + form.
Proof.
  intros Hf Ht.
  assert (E : Z.land tag 0x30000 = tag / 65536 * 65536).
  { replace (tag / 65536 * 65536) with (Z.ldiff tag (Z.ones 16)).
    - apply Z.bits_inj'. intros i Hi. rewrite Z.land_spec, Z.ldiff_spec.
      change 0x30000 with (Z.shiftl (Z.ones 2) 16). rewrite Z.shiftl_spec by done.
      destruct (Z.ltb_spec i 16).
      + rewrite (Z.testbit_neg_r (Z.ones 2)), Z.ones_spec_low by lia. by rewrite !andb_false_r.
      + rewrite (Z.ones_spec_high 16) by lia. rewrite andb_true_r.
        destruct (Z.ltb_spec i 18); [rewrite Z.ones_spec_low by lia; apply andb_true_r |].
        rewrite <- (Z.mod_small tag (2 ^ 18)) by lia. rewrite Z.mod_pow2_bits_high by lia. done.
    - rewrite Z.ldiff_ones_r, Z.shiftl_mul_pow2, Z.shiftr_div_pow2 by lia. done. }
  rewrite E, Z.shiftr_div_pow2 by lia.
  replace (tag / 65536 * 65536 / 2 ^ 10) with (64 * (tag / 65536)) by dlia.
  rewrite Z.lor_comm. unfold is_form, ASN1_PRIMITIVE, ASN1_CONSTRUCTED in Hf.
  rewrite (lor_add 6); [done | done | | lia]. change (2 ^ 6) with 64. rewrite Z.mul_comm. by apply Z.mod_mul.
Qed.

Lemma lor_head head n : head mod 32 = 0 -> 0 <= n < 32 -> Z.lor head n = head + n.
Proof. intros. by apply (lor_add 5). Qed.

Lemma put_tag_step fuel n chunks count :
  ber_put_tag (S fuel) n chunks count
  = if n <=? 0 then Some (chunks, count) else
    '(chunks, count) ← ber_put1 chunks count (Z.lor (Z.land n 127) 0x80);
    ber_put_tag fuel (Z.shiftr n 7) chunks count.
Proof. done. Qed.

Lemma encode_tag_writes `{EnifLaws} tag form count :
  is_form form -> tag_ok tag ->
  writes 3 0 count (ber_encode_tag (enif_make_uint tag) form) (tag_bytes form tag).
Proof.
  intros Hf [Ht Hn] chunks Hg Hc Hl. left. unfold ber_encode_tag.
  rewrite get_uint by (unfold is_uint32; lia). cbv zeta. rewrite head_tag by done.
  change 0xFFFF with (Z.ones 16). rewrite Z.land_ones by lia. change (2 ^ 16) with 65536.
  unfold tag_bytes in *. cbv zeta in *.
  set (head := 64 * (tag / 65536) + form) in *. set (n := tag mod 65536) in *.
  assert (Hhead : 0 <= head <= 224 /\ head mod 32 = 0)
    by (unfold is_form, ASN1_PRIMITIVE, ASN1_CONSTRUCTED in Hf; unfold head; dlia).
  assert (Hn0 : 0 <= n) by (unfold n; dlia). clearbody head n.
  rewrite (lor_head head 0x1F) by (done || lia).
  change 127 with (Z.ones 7). rewrite !Z.land_ones, Z.shiftr_div_pow2 by lia. change (2 ^ 7) with 128.
  destruct (Z.ltb_spec n 31) as [H31 | H31].
  - rewrite (proj2 (Z.leb_le _ _)), lor_head by (done || lia). cbn [length] in Hl.
    destruct (chunk_put1_ok 0 chunks count (head + n)) as (c1 & -> & Hg1 & Hd1);
      [eapply good_less; [| done]; lia | lia | unfold is_byte; lia | lia | lia |].
    by exists c1.
  - rewrite (proj2 (Z.leb_gt _ _)) by lia.
    destruct (chunk_put1_ok 2 chunks count (n mod 128)) as (c1 & -> & Hg1 & Hd1);
      [done | lia | unfold is_byte; dlia | destruct (n <? 128); cbn [length] in Hl; lia
      | destruct (n <? 128); cbn [length] in Hl; lia |].
    cbn [mbind option_bind]. destruct (Z.ltb_spec n 128) as [H128 | H128]; cbn [length] in Hl.
    + replace (n / 128) with 0 by dlia. rewrite put_tag_step. cbn [Z.leb Z.compare mbind option_bind].
      replace (n mod 128) with n in * by dlia.
      destruct (chunk_put1_ok 1 c1 (count + 1) (head + 0x1F)) as (c2 & -> & Hg2 & Hd2);
        [done | lia | unfold is_byte; lia | rewrite Hd1, len_cons; lia | lia |].
      exists c2. split; [cbn [mbind option_bind length]; do 2 f_equal; lia |].
      split; [by eapply good_less; [| done] |]. by rewrite Hd2, Hd1.
    + rewrite put_tag_step, (proj2 (Z.leb_gt _ _)) by dlia.
      change 127 with (Z.ones 7). rewrite Z.land_ones, Z.shiftr_div_pow2 by lia. change (2 ^ 7) with 128.
      replace ((n / 128) mod 128) with (n / 128) by dlia. rewrite lor_128 by dlia.
      destruct (chunk_put1_ok 1 c1 (count + 1) (128 + n / 128)) as (c2 & -> & Hg2 & Hd2);
        [done | lia | unfold is_byte; dlia | rewrite Hd1, len_cons; lia | lia |].
      cbn [mbind option_bind]. replace (n / 128 / 128) with 0 by dlia. rewrite put_tag_step. cbn [Z.leb Z.compare mbind option_bind].
      destruct (chunk_put1_ok 0 c2 (count + 1 + 1) (head + 0x1F)) as (c3 & -> & Hg3 & Hd3);
        [done | lia | unfold is_byte; lia | rewrite Hd2, Hd1, !len_cons; lia | lia |].
      exists c3. split; [cbn [mbind option_bind length]; do 2 f_equal; lia |].
      split; [done |]. by rewrite Hd3, Hd2, Hd1.
Qed.

Lemma encode_primitive_writes `{EnifLaws} value :
  Forall is_byte value ->
  writes 0 (-1) 0 (ber_encode_primitive enif_alloc (enif_make_new_binary value))
    (length_bytes (len value) ++ value).
Proof.
  intros Hv chunks Hg Hc Hl. unfold ber_encode_primitive. rewrite inspect_binary.
  rewrite len_app in *. rewrite (uint32_small (len value)) by (unfold is_uint32; lia).
  destruct (check_memory_ok 0 chunks (len value)) as [(c1 & -> & Hg1 & Hd1) | [-> Hm]];
    [done | lia | lia | | by right; eexists _, _].
  cbn [mbind option_bind negb].
  destruct (chunk_put_bytes_ok 0 c1 value) as (c2 & -> & Hg2 & Hd2); [done | lia | done | rewrite Hd1; lia |].
  cbn [mbind option_bind]. rewrite uint32_small by (unfold is_uint32; lia).
  destruct (encode_length_writes (len value) (0 + len value) ltac:(lia) c2) as [(c3 & -> & Hg3 & Hd3) | Hm];
    [done | rewrite Hd2, len_app; lia | rewrite Hd2, Hd1, len_app; lia | left | by right].
  exists c3. split; [do 2 f_equal; lia |]. split; [eapply good_less; [| done]; lia |].
  by rewrite Hd3, Hd2, Hd1, <- app_assoc.
Qed.

Lemma bytes_rev t ts :
  concat (ber_bytes <$> rev (t :: ts)) = concat (ber_bytes <$> rev ts) ++ ber_bytes t.
Proof. cbn [rev]. rewrite fmap_app, concat_app. cbn. by rewrite app_nil_r. Qed.

(** The elements, in the order in which they are written. *)
Lemma encode_list_writes `{EnifLaws} encode fuel ts t count :
  (length ts < fuel)%nat ->
  Forall (fun t => writes 0 0 0 (encode (term_of t)) (ber_bytes t)) (t :: ts) ->
  writes 0 0 count (fun chunks count =>
      ber_encode_list encode fuel (term_of t) (enif_list (term_of <$> ts)) chunks count)
    (concat (ber_bytes <$> rev (t :: ts))).
Proof.
  revert t count fuel. induction ts as [| t' ts IH]; intros t count [| fuel] Hf [Ht Hts]%list.Forall_cons;
    try (cbn in Hf; lia); intros chunks Hg Hc Hl; cbn [ber_encode_list].
  all: rewrite bytes_rev in Hl |- *; rewrite len_app in Hl |- *.
  - destruct (Ht chunks) as [(c1 & -> & Hg1 & Hd1) | (c1 & n & -> & Hm)];
      [done | lia | cbn in Hl; lia | left | by right; eexists _, _].
    cbn [mbind option_bind negb]. cbn [enif_list fmap list_fmap foldr]. rewrite no_list_cell.
    cbn [rev app length] in Hl. rewrite uint32_small by (unfold is_uint32; cbn in Hl; lia). exists c1. cbn [length concat fmap list_fmap]. 
    split; [do 2 f_equal; cbn; lia |]. done.
  - destruct (Ht chunks) as [(c1 & -> & Hg1 & Hd1) | (c1 & n & -> & Hm)];
      [done | lia | lia | | by right; eexists _, _].
    cbn [mbind option_bind negb]. cbn [enif_list fmap list_fmap foldr]. rewrite list_cell.
    rewrite uint32_small by (unfold is_uint32; lia).
    destruct (IH t' (count + (0 + len (ber_bytes t))) fuel) with (chunks := c1)
      as [(c2 & E & Hg2 & Hd2) | Hm]; [cbn in Hf; lia | done | done | | | left | by right].
    + rewrite Hd1, len_app. lia.
    + rewrite Hd1, len_app. lia.
    + exists c2. unfold enif_list in E. rewrite E. split; [do 2 f_equal; cbn; lia |]. split; [done |].
      rewrite Hd2, Hd1. by rewrite <- app_assoc.
Qed.

Lemma encode_constructed_writes `{EnifLaws} encode fuel ts :
  (length ts <= fuel)%nat ->
  Forall (fun t => writes 0 0 0 (encode (term_of t)) (ber_bytes t)) ts ->
  writes 0 (-1) 0 (ber_encode_constructed enif_alloc encode fuel (enif_list (term_of <$> ts)))
    (length_bytes (len (concat (ber_bytes <$> ts))) ++ concat (ber_bytes <$> ts)).
Proof.
  intros Hf Hts chunks Hg Hc Hl. unfold ber_encode_constructed.
  rewrite reverse_list, <- map_rev. remember (rev ts) as rs eqn:Er.
  assert (ts = rev rs) as -> by by rewrite Er, rev_involutive. clear Er. rewrite length_rev in Hf.
  destruct rs as [| t rs].
  - cbn [map enif_list foldr rev fmap list_fmap concat]. rewrite no_list_cell, empty_list.
    change (len (chunk_data chunks) + 1 <= N) in Hl. destruct (chunk_put1_ok (-1) chunks 0 0) as (c1 & -> & Hg1 & Hd1);
      [done | lia | unfold is_byte; lia | lia | lia | left]. by exists c1.
  - change (enif_list (map term_of (t :: rs)))
      with (enif_make_list_cell (term_of t) (enif_list (term_of <$> rs))).
    rewrite list_cell.
    set (bs := concat (ber_bytes <$> rev (t :: rs))) in *. rewrite len_app in Hl |- *.
    apply Forall_rev in Hts. rewrite rev_involutive in Hts.
    destruct (encode_list_writes encode fuel rs t 0 ltac:(done) Hts chunks)
      as [(c1 & -> & Hg1 & Hd1) | (c1 & n & -> & Hm)]; [done | lia | fold bs; lia | | by right; eexists _, _].
    fold bs in Hd1 |- *. cbn [mbind option_bind negb]. rewrite Z.add_0_l.
    destruct (check_memory_ok 0 c1 (len bs)) as [(c2 & -> & Hg2 & Hd2) | [-> Hm]];
      [done | lia | lia | | by right; eexists _, _].
    cbn [mbind option_bind negb].
    destruct (encode_length_writes (len bs) (len bs) ltac:(lia) c2) as [(c3 & -> & Hg3 & Hd3) | Hm];
      [eapply good_less; [| done]; lia | rewrite Hd2, Hd1, len_app; lia
      | rewrite Hd2, Hd1, len_app; lia | left | by right].
    exists c3. split; [do 2 f_equal; lia |]. split; [eapply good_less; [| done]; lia |].
    by rewrite Hd3, Hd2, Hd1, <- app_assoc.
Qed.

Lemma finish_tag `{EnifLaws} tag form vb (value : list mem_chunk -> Z -> ber_result) :
  is_form form -> tag_ok tag -> writes 0 (-1) 0 value vb ->
  writes 0 0 0 (fun chunks count =>
      '(ok, chunks, count) ← value chunks count;
      if negb ok then Some (false, chunks, count) else
      '(ok, chunks) ← ber_check_memory enif_alloc chunks 3;
      if negb ok then Some (false, chunks, count) else
      ber_encode_tag (enif_make_uint tag) form chunks count)
    (tag_bytes form tag ++ vb).
Proof.
  intros Hf Ht Hv chunks Hg Hc Hl. rewrite len_app in *.
  destruct (Hv chunks) as [(c1 & -> & Hg1 & Hd1) | (c1 & n & -> & Hm)];
    [done | done | lia | | by right; eexists _, _]. cbn [mbind option_bind negb].
  destruct (check_memory_ok (-1) c1 3) as [(c2 & -> & Hg2 & Hd2) | [-> Hm]];
    [done | lia | lia | | by right; eexists _, _]. cbn [mbind option_bind negb].
  destruct (encode_tag_writes tag form (0 + len vb) Hf Ht c2) as [(c3 & -> & Hg3 & Hd3) | Hm];
    [done | rewrite Hd2, Hd1, len_app; lia | rewrite Hd2, Hd1, len_app; lia | left | by right].
  exists c3. split; [do 2 f_equal; lia |]. split; [done |]. by rewrite Hd3, Hd2, Hd1, <- app_assoc.
Qed.

Lemma bytes_count ts : Forall tlv_ok ts -> (length ts <= length (concat (ber_bytes <$> ts)))%nat.
Proof.
  induction 1 as [| t ts Ht _ IH]; [done |]. cbn. rewrite length_app.
  assert (1 <= length (ber_bytes t))%nat; [| lia].
  destruct Ht; cbn [ber_bytes]; rewrite length_app; 
    match goal with H : tag_ok ?t |- context [tag_bytes ?f ?t] => pose proof (tag_bytes_len f t H) end; lia.
Qed.

Lemma tlv_fuel ts t fuel : t ∈ ts -> (length (concat (ber_bytes <$> ts)) <= fuel)%nat ->
  (length (ber_bytes t) <= fuel)%nat.
Proof.
  intros Ht. induction Ht as [t ts | t t' ts _ IH]; cbn; rewrite length_app; [lia |].
  intros. apply IH. lia.
Qed.

Lemma encode_writes `{EnifLaws} t fuel :
  tlv_ok t -> (length (ber_bytes t) <= fuel)%nat ->
  writes 0 0 0 (ber_encode enif_alloc fuel (term_of t)) (ber_bytes t).
Proof.
  revert fuel. induction t as [tag value | tag ts IH] using tlv_induction; intros fuel Hok Hfu;
    inversion Hok as [? ? Ht Hv | ? ? Ht Hts]; subst; cbn [ber_bytes] in *; rewrite !length_app in Hfu;
    match goal with |- context [tag_bytes ?f tag] => pose proof (tag_bytes_len f tag Ht) end;
    (destruct fuel as [| fuel]; [lia |]).
  - pose proof (finish_tag tag ASN1_PRIMITIVE _ _ ltac:(by left) Ht (encode_primitive_writes value Hv)) as Hw.
    intros chunks Hg Hc Hl. specialize (Hw chunks Hg Hc Hl).
    cbn [ber_encode term_of]. rewrite get_tuple2, binary_is_no_list. exact Hw.
  - pose proof (finish_tag tag ASN1_CONSTRUCTED _
      (ber_encode_constructed enif_alloc (ber_encode enif_alloc fuel) fuel (enif_list (term_of <$> ts)))
      ltac:(by right) Ht
      (encode_constructed_writes (ber_encode enif_alloc fuel) fuel ts
        ltac:(pose proof (bytes_count ts Hts); lia)
        ltac:(apply list.Forall_forall; intros t Hin; rewrite list.Forall_forall in IH, Hts;
              apply IH; [done | by apply Hts | apply (tlv_fuel ts); [done | lia]]))) as Hw.
    intros chunks Hg Hc Hl. specialize (Hw chunks Hg Hc Hl).
    cbn [ber_encode term_of]. rewrite get_tuple2, list_is_list. exact Hw.
Qed.

(** ** The chunks as one binary *)

Lemma load_written c : chunk_ok N c ->
  load_bytes (curr c + 1) (uint32 (chunk_length c - curr c - 1)) (top c) = Some (written c).
Proof.
  intros Hc. pose proof (written_len N c Hc) as Hw. destruct Hc as (Hl & Hc & Hm).
  rewrite uint32_small by (unfold is_uint32; lia).
  replace (chunk_length c - curr c - 1) with (len (written c)) by lia.
  apply load_bytes_at. split; [lia |]. exists (take (Z.to_nat (curr c + 1)) (top c)), [].
  rewrite app_nil_r. unfold written. rewrite take_drop. split; [done |]. rewrite length_take. lia.
Qed.

Lemma copy_chunks_ok chunks pos data :
  Forall (chunk_ok N) chunks -> Forall is_byte (chunk_data chunks) -> 0 <= pos ->
  pos + len (chunk_data chunks) = len data -> len data <= N ->
  ber_copy_chunks chunks pos data = Some (take (Z.to_nat pos) data ++ chunk_data chunks).
Proof.
  intros Hc. revert pos data. induction Hc as [| c chunks Hc _ IH]; intros pos data Hb Hp Hl HN'.
  - cbn in *. by rewrite app_nil_r, take_ge by lia.
  - unfold chunk_data in *. cbn [fmap list_fmap concat] in *. apply Forall_app in Hb as [Hb1 Hb2].
    rewrite len_app in Hl. cbn [ber_copy_chunks]. rewrite load_written by done. cbn [mbind option_bind].
    assert (Hf : fits data pos (written c)) by (split; lia).
    rewrite memcpy_ok, bytes_id by done. cbn [mbind option_bind snd].
    pose proof (written_len N c Hc) as Hw. rewrite !uint32_small by (rewrite ?uint32_small; unfold is_uint32; lia).
    rewrite IH; [| done | lia | rewrite length_splice by done; lia | rewrite length_splice by done; lia].
    f_equal. replace (pos + (chunk_length c - curr c - 1)) with (pos + len (written c)) by lia.
    by rewrite take_splice, <- app_assoc.
Qed.
End Chunks.

Lemma encode_ber_tlv_ok `{EnifLaws} enif_alloc enif_alloc_binary t N fuel :
  (forall n block, 0 <= n -> enif_alloc n = Some block -> len block = n) ->
  (forall n block, 0 <= n -> enif_alloc_binary n = Some block -> len block = n) ->
  is_Some (enif_alloc 40) -> is_Some (enif_alloc_binary (len (ber_bytes t))) ->
  tlv_ok t -> len (ber_bytes t) <= N < 2 ^ 28 -> (length (ber_bytes t) <= fuel)%nat ->
  encode_ber_tlv enif_alloc enif_alloc_binary fuel (term_of t)
    = Some (enif_make_new_binary (ber_bytes t)) \/
  (encode_ber_tlv enif_alloc enif_alloc_binary fuel (term_of t)
    = Some (enif_make_tuple2 (enif_make_atom atom_error) (enif_make_int ASN1_ERROR)) /\
   out_of_memory enif_alloc N).
Proof.
  intros Ha Hab [b40 H40] [bb Hbb] Hok HN Hf. unfold encode_ber_tlv.
  assert (HN0 : 0 <= N < 2 ^ 28) by lia.
  destruct (new_chunk_ok enif_alloc N HN0 Ha 40) as [(c & -> & Hc & Hcu & Hw) | [Hn _]]; [lia | |].
  2: { unfold ber_new_chunk in Hn. by rewrite H40 in Hn. }
  cbn [mbind option_bind].
  destruct (encode_writes enif_alloc N HN0 Ha t fuel Hok Hf [c])
    as [(chunks & -> & (Hg & _) & Hd) | (chunks & n & -> & Hm)].
  - unfold good, chunk_data. cbn. rewrite Hw. cbn. split; [by constructor |]. split; [lia |].
    exists c, []. split; [done | lia].
  - unfold chunk_data. cbn. rewrite Hw. cbn. lia.
  - unfold chunk_data. cbn. rewrite Hw. cbn. lia.
  - left. cbn [mbind option_bind negb]. rewrite Z.add_0_l, Hbb. 
    assert (Hd' : chunk_data chunks = ber_bytes t)
      by (rewrite Hd; unfold chunk_data; cbn; by rewrite Hw, !app_nil_r).
    pose proof Hbb as Hlb. apply Hab in Hlb; [| lia].
    rewrite (copy_chunks_ok N HN0) by
      (done || rewrite ?Hd'; first [lia | by apply ber_bytes_byte]).
    cbn. by rewrite Hd'.
  - right. cbn. split; [done | done].
Qed.
