(* ===== verification/Per.v ===== *)
(** * PER: completing an encoding

    The part of lib/asn1-5.0.4/c_src/asn1_erl_nif.c that turns the list of
    instructions the Erlang side has made of a value into the bits of its PER
    encoding. The state is what [per_complete] and the functions that it calls
    share: the pointer into the input, the output with the pointer into it,
    the number of bits not used in the byte it points to, and the three counters of
    the memory that is left. A pointer is its distance from the start of its
    buffer. *)

From S2P Require Import Prelude Mem Enif Ber.

(** ** The state *)

Record per_state := PerState {
  in_ptr : Z;
  out : list Z;
  ptr : Z;
  unused : Z;
  counter : Z;
  buf_space : Z;
  buf_size : Z
}.

Definition P (A : Type) : Type := per_state -> option (A * per_state).

Definition retP {A} (a : A) : P A := fun st => Some (a, st).
Definition bindP {A B} (m : P A) (k : A -> P B) : P B :=
  fun st => match m st with Some (a, st') => k a st' | None => None end.
Definition ubP {A} : P A := fun _ => None.
Notation "'let!' x ':=' m 'in' k" := (bindP m (fun x => k))
  (at level 10, x pattern, m at level 200, k at level 200,
   format "'[v' 'let!'  x  ':='  m  'in' '/' k ']'") : c_scope.

Definition get {A} (f : per_state -> A) : P A := fun st => Some (f st, st).

Definition set_in_ptr (v : Z) : P unit := fun st =>
  Some (tt, PerState v (out st) (ptr st) (unused st) (counter st) (buf_space st) (buf_size st)).
Definition set_unused (v : Z) : P unit := fun st =>
  Some (tt, PerState (in_ptr st) (out st) (ptr st) v (counter st) (buf_space st) (buf_size st)).
Definition set_counter (v : Z) : P unit := fun st =>
  Some (tt, PerState (in_ptr st) (out st) (ptr st) (unused st) v (buf_space st) (buf_size st)).

(** [buf_space -= n;] *)
Definition spend (n : Z) : P unit := fun st =>
  Some (tt, PerState (in_ptr st) (out st) (ptr st) (unused st) (counter st)
              (buf_space st - n) (buf_size st)).

(** [*ptr = v;] and [*++ptr = v;] *)
Definition put (v : Z) : P unit := fun st =>
  match store (at_off (ptr st)) v (out st) with
  | Some (_, block) => Some (tt, PerState (in_ptr st) block (ptr st) (unused st) (counter st)
                                   (buf_space st) (buf_size st))
  | None => None
  end.
Definition put_next (v : Z) : P unit := fun st =>
  match store (at_off (ptr st + 1)) v (out st) with
  | Some (_, block) => Some (tt, PerState (in_ptr st) block (ptr st + 1) (unused st) (counter st)
                                   (buf_space st) (buf_size st))
  | None => None
  end.

(** [*ptr = *ptr | v;] *)
Definition put_or (v : Z) : P unit := fun st =>
  match load (ptr st) (out st) with
  | Some b => put (Z.lor b v) st
  | None => None
  end.

(** Shifts of an int: by less than 32 bits, and to the left without overflow. *)
Definition liftP {A} (a : option A) : P A := fun st => a ← a; Some (a, st).
Definition shl (x n : Z) : P Z :=
  liftP (if (0 <=? n) && (n <? 32) && (Z.shiftl x n <=? int_max) then Some (Z.shiftl x n) else None).
Definition shr (x n : Z) : P Z :=
  liftP (if (0 <=? n) && (n <? 32) then Some (Z.shiftr x n) else None).

(** [CEIL(X,Y)], with a C division. *)
Definition CEIL (x y : Z) : Z := Z.quot (x - 1) y + 1.

(** ** Inserting bits *)

Section Per.
Context (in_buf : list Z) (enif_realloc_binary : list Z -> Z -> option (list Z)).

(** [*in_ptr] and [*++in_ptr] *)
Definition current : P Z := fun st =>
  match load (in_ptr st) in_buf with Some b => Some (b, st) | None => None end.
Definition next : P Z :=
  let! i := get in_ptr in let! _ := set_in_ptr (i + 1) in current.

Definition per_realloc_memory (amount : Z) : P Z := fun st =>
  match enif_realloc_binary (out st) amount with
  | None => Some (ASN1_ERROR, st)
  | Some block => Some (ASN1_OK, PerState (in_ptr st) block (ptr st) (unused st) (counter st)
                                   (buf_space st) (buf_size st))
  end.

Definition per_insert_most_sign_bits (no_bits val : Z) : P Z :=
  let! u := get unused in
  if no_bits <? u then
    let! v := shr val (8 - u) in
    let! _ := put_or v in
    let! _ := set_unused (u - no_bits) in
    retP ASN1_OK
  else if no_bits =? u then
    let! v := shr val (8 - u) in
    let! _ := put_or v in
    let! _ := set_unused 8 in
    let! _ := put_next 0 in
    retP ASN1_OK
  else
    let! v := shr val (8 - u) in
    let! _ := put_or v in
    let! _ := put_next 0 in
    let! v := shl val u in
    let! _ := put_or v in
    let! _ := set_unused (8 - (no_bits - u)) in
    retP ASN1_OK.

Definition per_insert_least_sign_bits (no_bits val : Z) : P Z :=
  let! u := get unused in
  if no_bits <? u then
    let! v := shl val (u - no_bits) in
    let! _ := put_or v in
    let! _ := set_unused (u - no_bits) in
    retP 0
  else if no_bits =? u then
    let! _ := put_or val in
    let! _ := set_unused 8 in
    let! _ := put_next 0 in
    retP 1
  else
    let! v := shr val (no_bits - u) in
    let! _ := put_or v in
    let! _ := put_next 0 in
    let! v := shl val (8 - (no_bits - u)) in
    let! _ := put_or v in
    let! _ := set_unused (8 - (no_bits - u)) in
    retP 1.

(** [while (no_bits > 0) { ... }] *)
Fixpoint per_pad_loop (no_bits : nat) (ret : Z) : P Z :=
  match no_bits with
  | O => retP ret
  | S no_bits =>
      let! u := get unused in
      if u =? 1 then
        let! _ := set_unused 8 in
        let! _ := put_next 0 in
        per_pad_loop no_bits (ret + 1)
      else
        let! _ := set_unused (u - 1) in
        per_pad_loop no_bits ret
  end.

Definition per_pad_bits (no_bits : Z) : P Z := per_pad_loop (Z.to_nat no_bits) 0.

(** The loop of [per_insert_octets_unaligned]. *)
Fixpoint per_octets_loop (n : nat) : P unit :=
  match n with
  | O => retP tt
  | S n =>
      let! u := get unused in
      let! val := next in
      let! _ :=
        (if u =? 8 then
          let! _ := put val in
          put_next 0
        else
          let! v := shr val (8 - u) in
          let! _ := put_or v in
          let! _ := put_next 0 in
          let! v := shl val u in
          put v) in
      per_octets_loop n
  end.

Definition per_insert_octets_unaligned (no_bytes : Z) : P Z :=
  let! _ := per_octets_loop (Z.to_nat no_bytes) in
  retP no_bytes.

Definition per_insert_bits_as_bits (desired_no no_bytes : Z) : P Z :=
  if desired_no =? no_bytes * 8 then
    let! r := per_insert_octets_unaligned no_bytes in
    if r =? ASN1_ERROR then retP ASN1_ERROR else
    retP no_bytes
  else if desired_no <? no_bytes * 8 then
    let! r := per_insert_octets_unaligned (Z.quot desired_no 8) in
    if r =? ASN1_ERROR then retP ASN1_ERROR else
    let! val := next in
    let no_bits := Z.rem desired_no 8 in
    let! _ := per_insert_most_sign_bits no_bits val in
    retP (CEIL desired_no 8)
  else
    let! r := per_insert_octets_unaligned no_bytes in
    if r =? ASN1_ERROR then retP ASN1_ERROR else
    let! _ := per_pad_bits (desired_no - no_bytes * 8) in
    retP (CEIL desired_no 8).

(** The loop of [per_insert_octets_as_bits]; [false] is ASN1_ERROR. *)
Fixpoint per_as_bits_loop (no_bytes : nat) : P bool :=
  match no_bytes with
  | O => retP true
  | S no_bytes =>
      let! b := next in
      let! u := get unused in
      if b =? 0 then
        let! _ :=
          (if u =? 1 then
            let! _ := set_unused 8 in
            put_next 0
          else set_unused (u - 1)) in
        per_as_bits_loop no_bytes
      else if b =? 1 then
        let! _ :=
          (if u =? 1 then
            let! _ := put_or 1 in
            let! _ := set_unused 8 in
            put_next 0
          else
            let! v := shl 1 (u - 1) in
            let! _ := put_or v in
            set_unused (u - 1)) in
        per_as_bits_loop no_bytes
      else retP false
  end.

(** The number it returns is taken after the loop, when [no_bytes] is 0. *)
Definition per_insert_octets_as_bits (no_bytes : Z) : P Z :=
  let! u := get unused in
  let used_bits := 8 - u in
  let! ok := per_as_bits_loop (Z.to_nat no_bytes) in
  if negb ok then retP ASN1_ERROR else
  retP (Z.quot (used_bits + Z.min no_bytes 0) 8).

Definition per_insert_octets_as_bits_exact_len (desired_len in_buff_len : Z) : P Z :=
  if desired_len =? in_buff_len then
    per_insert_octets_as_bits in_buff_len
  else if in_buff_len <? desired_len then
    let! ret := per_insert_octets_as_bits in_buff_len in
    if ret =? ASN1_ERROR then retP ASN1_ERROR else
    let! ret2 := per_pad_bits (desired_len - in_buff_len) in
    if ret2 =? ASN1_ERROR then retP ASN1_ERROR else
    retP (ret + ret2)
  else
    let! ret := per_insert_octets_as_bits desired_len in
    if ret =? ASN1_ERROR then retP ASN1_ERROR else
    let! i := get in_ptr in
    let! _ := set_in_ptr (i + (in_buff_len - desired_len)) in
    retP ret.

(** The loop of [per_insert_octets]. *)
Fixpoint per_copy_loop (no_bytes : nat) : P unit :=
  match no_bytes with
  | O => retP tt
  | S no_bytes =>
      let! val := next in
      let! _ := put val in
      let! _ := put_next 0 in
      per_copy_loop no_bytes
  end.

Definition per_insert_octets (no_bytes : Z) : P Z :=
  let! u := get unused in
  let! ret :=
    (if negb (u =? 8) then
      let! _ := put_next 0 in
      let! _ := set_unused 8 in
      retP 1
    else retP 0) in
  let! _ := per_copy_loop (Z.to_nat no_bytes) in
  retP (ret + Z.min no_bytes 0).

Definition per_insert_octets_except_unused (no_bytes in_unused : Z) : P Z :=
  if in_unused =? 0 then per_insert_octets_unaligned no_bytes
  else
    let! ret := per_insert_octets_unaligned (no_bytes - 1) in
    if ret =? ASN1_ERROR then retP ASN1_ERROR else
    let! val := next in
    let no_bits := 8 - in_unused in
    let! u := get unused in
    if no_bits <? u then
      let! v := shr val (8 - u) in
      let! _ := put_or v in
      let! _ := set_unused (u - no_bits) in
      retP ret
    else if no_bits =? u then
      let! v := shr val (8 - u) in
      let! _ := put_or v in
      let! _ := put_next 0 in
      let! _ := set_unused 8 in
      retP (ret + 1)
    else
      let! v := shr val (8 - u) in
      let! _ := put_or v in
      let! _ := put_next 0 in
      let! v := shl val u in
      let! _ := put_or v in
      let! _ := set_unused (8 - (no_bits - u)) in
      retP (ret + 1).

(** ** The instructions *)

(** A length of one byte, or of two. *)
Definition read_length (long : bool) : P Z :=
  let! no_bytes := next in
  if long then
    let no_bytes := Z.shiftl no_bytes 8 in
    let! l := next in
    retP (Z.lor no_bytes l)
  else retP no_bytes.

(** [counter -= n;] *)
Definition consume (n : Z) : P unit :=
  let! c := get counter in set_counter (c - n).

(** [if ((ret = f) == ASN1_ERROR) return ASN1_ERROR; buf_space -= ret;] *)
Definition inserting (f : P Z) : P Z :=
  let! ret := f in
  if ret =? ASN1_ERROR then retP ASN1_ERROR else
  let! _ := spend ret in
  retP ASN1_OK.

(** The same with [counter < 0] looked at before. *)
Definition checked (f : P Z) : P Z :=
  let! c := get counter in
  if c <? 0 then retP ASN1_ERROR else inserting f.

(** [if (saved_mem < needed) { ... }] *)
Definition ensure (needed : Z) : P Z := fun st =>
  let saved_mem := buf_space st - counter st in
  if saved_mem <? needed then
    let buf_size := buf_size st + needed in
    per_realloc_memory buf_size
      (PerState (in_ptr st) (out st) (ptr st) (unused st) (counter st)
         (buf_space st + needed) buf_size)
  else Some (ASN1_OK, st).

(** Cases 0 and 1. *)
Definition per_case_0 : P Z :=
  let! u := get unused in
  let! _ :=
    (if u =? 1 then
      let! _ := set_unused 8 in
      let! _ := put_next 0 in
      spend 1
    else set_unused (u - 1)) in
  retP ASN1_OK.

Definition per_case_1 : P Z :=
  let! u := get unused in
  let! _ :=
    (if u =? 1 then
      let! _ := put_or 1 in
      let! _ := set_unused 8 in
      let! _ := put_next 0 in
      spend 1
    else
      let! v := shl 1 (u - 1) in
      let! _ := put_or v in
      set_unused (u - 1)) in
  retP ASN1_OK.

(** Case 2: to the end of the byte. *)
Definition per_case_2 : P Z :=
  let! u := get unused in
  let! _ :=
    (if negb (u =? 8) then
      let! _ := put_next 0 in
      let! _ := spend 1 in
      set_unused 8
    else retP tt) in
  retP ASN1_OK.

Definition per_case_10 : P Z :=
  let! no_bits := next in
  let! val := next in
  let! _ := consume 2 in
  inserting (per_insert_least_sign_bits no_bits val).

(** Cases 20 and 21; 30 and 31. *)
Definition per_case_20 (long : bool) : P Z :=
  let! no_bytes := read_length long in
  let! _ := consume ((if long then 2 else 1) + no_bytes) in
  checked (per_insert_octets no_bytes).

Definition per_case_30 (long : bool) : P Z :=
  let! in_unused := next in
  let! no_bytes := read_length long in
  let! _ := consume ((if long then 3 else 2) + no_bytes) in
  checked (per_insert_octets_except_unused no_bytes in_unused).

(** The number of bytes of both lengths. *)
Definition lengths_size (dlong nlong : bool) : Z :=
  (if dlong then 2 else 1) + (if nlong then 2 else 1).

(** Cases 40 to 43. Case 40 has a formula of its own for the memory needed. *)
Definition per_case_40 (dlong nlong : bool) : P Z :=
  let! desired_len := read_length dlong in
  let! no_bytes := read_length nlong in
  let! u := get unused in
  let needed :=
    if dlong || nlong then CEIL (desired_len - u) 8 - no_bytes
    else
      let pad_bits := desired_len - no_bytes - u in
      if 0 <? pad_bits then CEIL pad_bits 8 else 0 in
  let! rc := ensure needed in
  if rc =? ASN1_ERROR then retP ASN1_ERROR else
  let! _ := consume (lengths_size dlong nlong + no_bytes) in
  checked (per_insert_octets_as_bits_exact_len desired_len no_bytes).

(** Cases 45 to 47. *)
Definition per_case_45 (dlong nlong : bool) : P Z :=
  let! desired_len := read_length dlong in
  let! no_bytes := read_length nlong in
  let! u := get unused in
  let! rc := ensure (CEIL (desired_len - u) 8 - no_bytes) in
  if rc =? ASN1_ERROR then retP ASN1_ERROR else
  let! _ := consume (lengths_size dlong nlong + no_bytes) in
  checked (per_insert_bits_as_bits desired_len no_bytes).

Definition per_case (instruction : Z) : P Z :=
  match instruction with
  | 0 => per_case_0
  | 1 => per_case_1
  | 2 => per_case_2
  | 10 => per_case_10
  | 20 => per_case_20 false
  | 21 => per_case_20 true
  | 30 => per_case_30 false
  | 31 => per_case_30 true
  | 40 => per_case_40 false false
  | 41 => per_case_40 false true
  | 42 => per_case_40 true false
  | 43 => per_case_40 true true
  | 45 => per_case_45 false false
  | 46 => per_case_45 true false
  | 47 => per_case_45 true true
  | _ => retP ASN1_ERROR
  end.

(** [while (counter > 0) { ... }]: a round for each byte of the input at most. *)
Fixpoint per_loop (fuel : nat) : P Z :=
  match fuel with
  | O => ubP
  | S fuel =>
      let! c := get counter in
      if c <=? 0 then retP ASN1_OK else
      let! _ := set_counter (c - 1) in
      let! instruction := current in
      let! rc := per_case instruction in
      if rc =? ASN1_ERROR then retP ASN1_ERROR else
      let! i := get in_ptr in
      let! _ := set_in_ptr (i + 1) in
      per_loop fuel
  end.

(** The length of the result, or ASN1_ERROR, and the binary. *)
Definition per_complete (out_binary : list Z) (in_buf_len : Z) : option (Z * list Z) :=
  let st := PerState 0 out_binary 0 8 in_buf_len in_buf_len in_buf_len in
  '(rc, st) ← (let! _ := put 0 in per_loop (S (Z.to_nat in_buf_len))) st;
  if rc =? ASN1_ERROR then Some (ASN1_ERROR, out st)
  else if (unused st =? 8) && negb (ptr st =? 0) then Some (ptr st, out st)
  else Some (ptr st + 1, out st).
End Per.

Definition atom_alloc_binary_failed : list Z :=
  [97; 108; 108; 111; 99; 95; 98; 105; 110; 97; 114; 121; 95; 102; 97; 105; 108; 101; 100].

(** The bytes of [argv[0]] as one binary. When the binary cannot be made
    smaller it stays as it is. *)
Definition encode_per_complete `{Enif} (enif_alloc_binary : Z -> option (list Z))
    (enif_realloc_binary : list Z -> Z -> option (list Z)) (in_binary : list Z) : option term :=
  match enif_alloc_binary (len in_binary) with
  | None => Some (enif_make_atom atom_alloc_binary_failed)
  | Some out_binary =>
      if len in_binary =? 0 then Some (enif_make_new_binary out_binary) else
      '(complete_len, out_binary) ←
        per_complete in_binary enif_realloc_binary out_binary (int32 (len in_binary));
      if complete_len <=? ASN1_ERROR then
        let err_code := if complete_len =? ASN1_ERROR then enif_make_uint 49 else enif_make_uint 0 in
        Some (enif_make_tuple2 (enif_make_atom atom_error) err_code)
      else
        let out_binary :=
          if complete_len <? len out_binary then
            default out_binary (enif_realloc_binary out_binary complete_len)
          else out_binary in
        Some (enif_make_new_binary out_binary)
  end.
