(* ===== verification/PerOk.v ===== *)
(** * PER: the bits of the instructions

    [per_op] is an instruction, [op_code] its form in the input, [op_bits] the
    bits it adds to those that are there. [octets] is a list of bits as bytes, the
    last one filled with zeros. As long as the output has room for the bits,
    [per_complete] gives the octets of the bits of all instructions. *)

From S2P Require Import Prelude Mem Enif Ber Per.

(** ** Bits and octets *)

(** The [k] low bits of [v], the most significant first. *)
Fixpoint bits_of (k : nat) (v : Z) : list bool :=
  match k with O => [] | S k => Z.testbit v (Z.of_nat k) :: bits_of k v end.

Definition bits_val (bs : list bool) : Z := foldl (fun n b => 2 * n + Z.b2z b) 0 bs.

(** The value of at most eight bits as the high bits of a byte. *)
Definition octet (bs : list bool) : Z := bits_val bs * 2 ^ (8 - len bs).

Fixpoint octets (bs : list bool) : list Z :=
  match bs with
  | [] => []
  | b7 :: b6 :: b5 :: b4 :: b3 :: b2 :: b1 :: b0 :: rest =>
      octet [b7; b6; b5; b4; b3; b2; b1; b0] :: octets rest
  | part => [octet part]
  end.

Definition aligned (bs : list bool) : list bool :=
  bs ++ repeat false (Z.to_nat ((- len bs) mod 8)).

(** ** Instructions *)

(** A [true] says that a length is in two bytes. *)
Inductive per_op :=
  | op_bit (b : bool)
  | op_align
  | op_bits (n v : Z)
  | op_octets (long : bool) (bs : list Z)
  | op_bit_octets (long : bool) (in_unused : Z) (bs : list Z)
  | op_bools (dlong nlong : bool) (desired : Z) (bs : list Z)
  | op_bit_string (dlong nlong : bool) (desired : Z) (bs : list Z).

Definition length_code (long : bool) (n : Z) : list Z :=
  if long then [n / 256; n mod 256] else [n].

Definition op_code (op : per_op) : list Z :=
  match op with
  | op_bit b => [Z.b2z b]
  | op_align => [2]
  | op_bits n v => [10; n; v]
  | op_octets long bs => (if long then 21 else 20) :: length_code long (len bs) ++ bs
  | op_bit_octets long in_unused bs =>
      (if long then 31 else 30) :: in_unused :: length_code long (len bs) ++ bs
  | op_bools dlong nlong desired bs =>
      40 + 2 * Z.b2z dlong + Z.b2z nlong :: length_code dlong desired ++ length_code nlong (len bs) ++ bs
  | op_bit_string dlong nlong desired bs =>
      45 + Z.b2z dlong + Z.b2z nlong :: length_code dlong desired ++ length_code nlong (len bs) ++ bs
  end.

Definition bytes_bits (bs : list Z) : list bool := concat (bits_of 8 <$> bs).

(** The first [n] bits, or all and zeros. *)
Definition exactly (n : Z) (bits : list bool) : list bool :=
  take (Z.to_nat n) bits ++ repeat false (Z.to_nat (n - len bits)).

Definition op_bits_after (bits : list bool) (op : per_op) : list bool :=
  match op with
  | op_bit b => bits ++ [b]
  | op_align => aligned bits
  | op_bits n v => bits ++ bits_of (Z.to_nat n) v
  | op_octets _ bs => aligned bits ++ bytes_bits bs
  | op_bit_octets _ in_unused bs =>
      bits ++ take (Z.to_nat (8 * len bs - in_unused)) (bytes_bits bs)
  | op_bools _ _ desired bs => bits ++ exactly desired ((fun b => b =? 1) <$> bs)
  | op_bit_string _ _ desired bs => bits ++ exactly desired (bytes_bits bs)
  end.

Definition length_fits (long : bool) (n : Z) : Prop := 0 <= n < (if long then 65536 else 256).

(** What the instructions promise: lengths that fit in their bytes, the bits
    that are not to be used 0. *)
Definition op_ok (op : per_op) : Prop :=
  match op with
  | op_bit _ | op_align => True
  | op_bits n v => 0 <= n <= 8 /\ 0 <= v < 2 ^ n
  | op_octets long bs => Forall is_byte bs /\ length_fits long (len bs)
  | op_bit_octets long in_unused bs =>
      Forall is_byte bs /\ length_fits long (len bs) /\ 0 <= in_unused < 8 /\
      (in_unused = 0 \/ exists init b, bs = init ++ [b] /\ b mod 2 ^ in_unused = 0)
  | op_bools dlong nlong desired bs =>
      length_fits dlong desired /\ length_fits nlong (len bs) /\
      Forall (fun b => b = 0 \/ b = 1) bs
  | op_bit_string dlong nlong desired bs =>
      Forall is_byte bs /\ (nlong = true -> dlong = true) /\
      length_fits dlong desired /\ length_fits nlong (len bs) /\
      (8 * len bs <= desired \/
       exists init b, bs = init ++ [b] /\ 8 * len init < desired /\
         b mod 2 ^ (8 * len bs - desired) = 0)
  end.

(** ** Facts on bits *)

Lemma length_bits_of k v : length (bits_of k v) = k.
Proof. induction k; cbn; congruence. Qed.

Lemma bits_of_add a b v : bits_of (a + b) v = bits_of a (v / 2 ^ Z.of_nat b) ++ bits_of b v.
Proof.
  induction a as [| a IH]; [done |]. cbn [Nat.add bits_of app]. rewrite IH. f_equal.
  rewrite Z.div_pow2_bits by lia. f_equal. lia.
Qed.

Lemma bits_of_mod k v m : (k <= m)%nat -> bits_of k (v mod 2 ^ Z.of_nat m) = bits_of k v.
Proof.
  induction k as [| k IH]; intros Hk; [done |]. cbn [bits_of].
  rewrite IH by lia. by rewrite Z.mod_pow2_bits_low by lia.
Qed.

Lemma foldl_bits n bs : foldl (fun n b => 2 * n + Z.b2z b) n bs = n * 2 ^ len bs + bits_val bs.
Proof.
  unfold bits_val. revert n. induction bs as [| b bs IH]; intros n; cbn [foldl].
  - cbn. lia.
  - rewrite (IH (2 * n + Z.b2z b)), (IH (2 * 0 + Z.b2z b)), len_cons, Z.pow_add_r by lia. lia.
Qed.

Lemma bits_val_app a b : bits_val (a ++ b) = bits_val a * 2 ^ len b + bits_val b.
Proof. unfold bits_val at 1. rewrite foldl_app. apply foldl_bits. Qed.

Lemma bits_val_of k v : bits_val (bits_of k v) = v mod 2 ^ Z.of_nat k.
Proof.
  induction k as [| k IH]; [by rewrite Z.mod_1_r |]. cbn [bits_of].
  change (?b :: ?l) with ([b] ++ l). rewrite bits_val_app, IH, length_bits_of.
  change (bits_val [?b]) with (0 + Z.b2z b). rewrite Z.add_0_l.
  rewrite Nat2Z.inj_succ, Z.pow_succ_r by lia. rewrite (Z.mul_comm 2), Z.rem_mul_r by lia.
  rewrite Z.testbit_spec' by lia. lia.
Qed.

Lemma bits_val_range bs : 0 <= bits_val bs < 2 ^ len bs.
Proof.
  induction bs as [| b bs IH]; [cbn; lia |]. change (b :: bs) with ([b] ++ bs).
  rewrite bits_val_app, len_app. cbn [length]. change (Z.of_nat 1) with 1. rewrite Z.pow_add_r by lia. change (bits_val [b]) with (0 + Z.b2z b).
  destruct b; cbn [Z.b2z]; lia.
Qed.

Lemma octets_app n a b : length a = (8 * n)%nat -> octets (a ++ b) = octets a ++ octets b.
Proof.
  revert a. induction n as [| n IH]; intros a Ha.
  - by destruct a.
  - do 8 (destruct a as [| ? a]; [cbn in Ha; lia |]). cbn [app octets]. f_equal. apply IH. cbn in Ha. lia.
Qed.

Lemma octets_part bs : (0 < length bs <= 8)%nat -> octets bs = [octet bs].
Proof. intros Hl. do 9 (destruct bs as [| ? bs]; [try done; cbn in Hl; lia |]). cbn in Hl. lia. Qed.

(** ** The bits that the output holds *)

(** [bits] are the bytes [full] and, in [cur], the rest, with [u] bits unused. *)
Definition rep (full : list Z) (cur : Z) (bits : list bool) (u : Z) : Prop :=
  exists done part, bits = done ++ part /\ length done = (8 * length full)%nat /\
    octets done = full /\ cur = octet part /\ u = 8 - len part /\ len part < 8.

Lemma octet_range part : len part <= 8 -> 0 <= octet part < 256 /\ octet part mod 2 ^ (8 - len part) = 0.
Proof.
  intros Hl. unfold octet. pose proof (bits_val_range part).
  assert (256 = 2 ^ len part * 2 ^ (8 - len part)) by (rewrite <- Z.pow_add_r by lia; by replace (_ + _) with 8 by lia).
  assert (0 < 2 ^ (8 - len part)) by (apply Z.pow_pos_nonneg; lia).
  split; [nia | apply Z.mod_mul; lia].
Qed.

Lemma octet_snoc part k w :
  0 <= w < 2 ^ Z.of_nat k -> len part + Z.of_nat k <= 8 ->
  octet (part ++ bits_of k w) = octet part + w * 2 ^ (8 - len part - Z.of_nat k).
Proof.
  intros Hw Hl. unfold octet. rewrite bits_val_app, len_app, length_bits_of, bits_val_of, Z.mod_small by done.
  assert (E : 2 ^ (8 - len part) = 2 ^ Z.of_nat k * 2 ^ (8 - len part - Z.of_nat k))
    by (rewrite <- Z.pow_add_r by lia; f_equal; lia).
  rewrite E. replace (8 - (len part + Z.of_nat k)) with (8 - len part - Z.of_nat k) by lia. lia.
Qed.

Lemma rep_unused full cur bits u : rep full cur bits u ->
  1 <= u <= 8 /\ 0 <= cur < 256 /\ cur mod 2 ^ u = 0 /\ len bits = 8 * len full + (8 - u).
Proof.
  intros (done & part & -> & Hd & _ & -> & -> & Hp). rewrite len_app.
  destruct (octet_range part) as [? ?]; [lia |]. repeat split; [lia.. | done | lia].
Qed.

(** [w] in the next [k] bits. *)
Lemma rep_or full cur bits u k w :
  rep full cur bits u -> Z.of_nat k <= u -> 0 <= w < 2 ^ Z.of_nat k ->
  Z.lor cur (w * 2 ^ (u - Z.of_nat k)) = cur + w * 2 ^ (u - Z.of_nat k) /\
  0 <= cur + w * 2 ^ (u - Z.of_nat k) < 256.
Proof.
  intros Hr Hk Hw. pose proof (rep_unused _ _ _ _ Hr) as (Hu & Hc & Hm & _).
  assert (E : 2 ^ u = 2 ^ Z.of_nat k * 2 ^ (u - Z.of_nat k)) by (rewrite <- Z.pow_add_r by lia; f_equal; lia).
  assert (0 < 2 ^ (u - Z.of_nat k)) by (apply Z.pow_pos_nonneg; lia).
  assert (E8 : 256 = 2 ^ (8 - u) * 2 ^ u) by (rewrite <- Z.pow_add_r by lia; by replace (_ + _) with 8 by lia).
  assert (0 < 2 ^ u) by (apply Z.pow_pos_nonneg; lia).
  split; [apply (lor_add u); [lia | done | nia] |].
  assert (Hq : cur / 2 ^ u < 2 ^ (8 - u)) by (apply Z.div_lt_upper_bound; lia).
  assert (cur <= 256 - 2 ^ u) by (pose proof (Z.div_mod cur (2 ^ u)); nia). nia.
Qed.

Lemma rep_fits full cur bits u k w :
  rep full cur bits u -> Z.of_nat k < u -> 0 <= w < 2 ^ Z.of_nat k ->
  rep full (cur + w * 2 ^ (u - Z.of_nat k)) (bits ++ bits_of k w) (u - Z.of_nat k).
Proof.
  intros (done & part & -> & Hd & Ho & -> & -> & Hp) Hk Hw.
  exists done, (part ++ bits_of k w). rewrite app_assoc, !len_app, length_bits_of.
  split; [done |]. split; [done |]. split; [done |]. split; [by rewrite octet_snoc by (done || lia) |]. lia.
Qed.

Lemma rep_fills full cur bits u k w :
  rep full cur bits u -> Z.of_nat k = u -> 0 <= w < 2 ^ Z.of_nat k ->
  rep (full ++ [cur + w]) 0 (bits ++ bits_of k w) 8.
Proof.
  intros (done & part & -> & Hd & Ho & -> & -> & Hp) Hk Hw.
  exists (done ++ part ++ bits_of k w), []. rewrite app_nil_r, !length_app, length_bits_of.
  split; [by rewrite <- app_assoc |]. split; [cbn; lia |]. split; [| split; [done |]; cbn; lia].
  rewrite (octets_app (length full)) by done. rewrite Ho. f_equal.
  rewrite octets_part by (rewrite length_app, length_bits_of; lia).
  f_equal. rewrite octet_snoc by (done || lia). replace (8 - len part - Z.of_nat k) with 0 by lia. lia.
Qed.

Definition holds (st : per_state) (bits : list bool) : Prop :=
  exists full cur, rep full cur bits (unused st) /\ at_ (out st) 0 (full ++ [cur]) /\ ptr st = len full.

Lemma holds_unused st bits : holds st bits ->
  1 <= unused st <= 8 /\ len bits = 8 * ptr st + (8 - unused st).
Proof. intros (full & cur & Hr & _ & ->). pose proof (rep_unused _ _ _ _ Hr). lia. Qed.

(** ** The stores *)

Definition with_out (st : per_state) (o : list Z) (p u : Z) : per_state :=
  PerState (in_ptr st) o p u (counter st) (buf_space st) (buf_size st).

Lemma bindP_Some {A B} (m : P A) (k : A -> P B) st a st' :
  m st = Some (a, st') -> bindP m k st = k a st'.
Proof. intros E. unfold bindP. by rewrite E. Qed.

Lemma bindP_get {A B} (f : per_state -> A) (k : A -> P B) st : bindP (get f) k st = k (f st) st.
Proof. done. Qed.

Lemma splice_mid (a b c : list Z) x : len a = x -> length b = length c ->
  forall post, splice (a ++ b ++ post) x c = a ++ c ++ post.
Proof.
  intros Ha Hb post. unfold splice. rewrite take_app_length' by lia.
  rewrite (app_assoc a b post), drop_app_length'; [done |]. rewrite length_app. lia.
Qed.

Lemma put_ok st full cur v :
  at_ (out st) 0 (full ++ [cur]) -> ptr st = len full ->
  exists o, put v st = Some (tt, with_out st o (ptr st) (unused st)) /\ len o = len (out st) /\
    at_ o 0 (full ++ [byte v]).
Proof.
  intros Ha Hp. pose proof (at_range _ _ _ Ha) as [_ Hr]. rewrite len_app in Hr. cbn in Hr.
  assert (Hf : fits (out st) (ptr st) [v]) by (split; cbn; lia).
  unfold put. rewrite store_ok by done. eexists. split; [done |].
  split; [by rewrite length_splice by (destruct Hf; split; cbn in *; lia) |].
  destruct Ha as [_ (pre & post & E & Hpre)]. destruct pre; [| cbn in Hpre; lia]. cbn in E.
  rewrite E, <- app_assoc, splice_mid by done. split; [done |]. exists [], post. by rewrite <- app_assoc.
Qed.

Lemma put_or_ok st full cur v :
  at_ (out st) 0 (full ++ [cur]) -> ptr st = len full ->
  exists o, put_or v st = Some (tt, with_out st o (ptr st) (unused st)) /\ len o = len (out st) /\
    at_ o 0 (full ++ [byte (Z.lor cur v)]).
Proof.
  intros Ha Hp. unfold put_or. pose proof Ha as [_ Hc]%at_app. rewrite Z.add_0_l, <- Hp in Hc.
  rewrite (load_at _ _ _ Hc). by eapply put_ok.
Qed.

Lemma put_next_ok st full cur v u :
  at_ (out st) 0 (full ++ [cur]) -> ptr st = len full -> ptr st + 1 < len (out st) ->
  exists o, put_next v (with_out st (out st) (ptr st) u) = Some (tt, with_out st o (ptr st + 1) u) /\
    len o = len (out st) /\ at_ o 0 ((full ++ [cur]) ++ [byte v]).
Proof.
  intros Ha Hp Hl. assert (Hf : fits (out st) (ptr st + 1) [v]) by (split; cbn; lia).
  unfold put_next. cbn [out ptr with_out]. rewrite store_ok by done. eexists. split; [done |].
  split; [by rewrite length_splice by (destruct Hf; split; cbn in *; lia) |].
  destruct Ha as [_ (pre & post & E & Hpre)]. destruct pre; [| cbn in Hpre; lia]. cbn in E.
  rewrite E in Hl |- *. destruct post as [| x post]; [rewrite !len_app in Hl; cbn in Hl; lia |].
  change (x :: post) with ([x] ++ post).
  rewrite (splice_mid (full ++ [cur]) [x] [byte v]) by (rewrite ?len_app; cbn; lia || done).
  split; [done |]. exists [], post. by rewrite <- (app_assoc (full ++ [cur])).
Qed.

Lemma with_out_id st : with_out st (out st) (ptr st) (unused st) = st.
Proof. by destruct st. Qed.

Lemma byte_lor a b : byte (Z.lor a b) = Z.lor (byte a) (byte b).
Proof. unfold byte. apply Z.land_lor_distr_l. Qed.

(** The next [k] bits do not fill the byte, or they do. What is stored does not
    depend on the field [unused], which the code sets before or after. *)
Lemma or_fits st bits k w x :
  holds st bits -> Z.of_nat k < unused st -> 0 <= w < 2 ^ Z.of_nat k ->
  byte x = w * 2 ^ (unused st - Z.of_nat k) ->
  exists o, (forall u, put_or x (with_out st (out st) (ptr st) u) = Some (tt, with_out st o (ptr st) u)) /\
    len o = len (out st) /\
    holds (with_out st o (ptr st) (unused st - Z.of_nat k)) (bits ++ bits_of k w).
Proof.
  intros (full & cur & Hr & Ha & Hp) Hk Hw Hx.
  pose proof (rep_unused _ _ _ _ Hr) as (_ & Hc & _).
  destruct (rep_or _ _ _ _ k w Hr) as [El Hb]; [lia | done |]. rewrite <- Hx in El, Hb.
  assert (Ey : byte (Z.lor cur x) = cur + byte x) by (rewrite byte_lor, (byte_small cur); done).
  assert (Hall : forall u, exists o, put_or x (with_out st (out st) (ptr st) u) = Some (tt, with_out st o (ptr st) u)
    /\ len o = len (out st) /\ at_ o 0 (full ++ [cur + byte x])).
  { intros u. rewrite <- Ey. by apply (put_or_ok (with_out st (out st) (ptr st) u)). }
  destruct (Hall 0) as (o & E & Hl & Ho). exists o. split; [| split; [done |]].
  - intros u. destruct (Hall u) as (o' & E' & _). rewrite E'.
    unfold put_or, put in E, E'. cbn in E, E'. destruct (load (ptr st) (out st)); [| done].
    destruct (store _ _ _) as [[? ?] |]; [| done]. injection E as <-. by injection E' as <-.
  - eexists _, _. rewrite Hx in Ho. split; [by apply rep_fits |]. by split.
Qed.

Lemma put_next_all st full cur :
  at_ (out st) 0 (full ++ [cur]) -> ptr st = len full -> ptr st + 1 < len (out st) ->
  exists o, (forall u, put_next 0 (with_out st (out st) (ptr st) u) = Some (tt, with_out st o (ptr st + 1) u)) /\
    len o = len (out st) /\ at_ o 0 ((full ++ [cur]) ++ [0]).
Proof.
  intros Ha Hp Hl. destruct (put_next_ok st full cur 0 0) as (o & E & Hlo & Ho); [done.. |].
  exists o. split; [| done]. intros u. unfold put_next in *. cbn in *.
  destruct (store _ _ _) as [[? ?] |]; [| done]. by injection E as ->.
Qed.

Lemma room_next st bits :
  holds st bits -> (len bits + unused st) / 8 < len (out st) -> ptr st + 1 < len (out st).
Proof.
  intros Hh Hl. pose proof (holds_unused _ _ Hh) as [Hu Hn].
  replace (len bits + unused st) with ((ptr st + 1) * 8) in Hl by lia. by rewrite Z.div_mul in Hl by lia.
Qed.

Lemma next_fills st bits :
  holds st bits -> (len bits + unused st) / 8 < len (out st) ->
  exists o, (forall u, put_next 0 (with_out st (out st) (ptr st) u) = Some (tt, with_out st o (ptr st + 1) u)) /\
    len o = len (out st) /\
    holds (with_out st o (ptr st + 1) 8) (bits ++ bits_of (Z.to_nat (unused st)) 0).
Proof.
  intros Hh Hl. pose proof (holds_unused _ _ Hh) as [Hu Hn]. pose proof (room_next _ _ Hh Hl).
  destruct Hh as (full & cur & Hr & Ha & Hp).
  destruct (put_next_all st full cur) as (o & E & Hlo & Ho); [done.. |].
  exists o. split; [done |]. split; [done |]. exists (full ++ [cur + 0]), 0.
  split; [apply rep_fills with (unused st); [done | lia | split; [lia | apply Z.pow_pos_nonneg; lia]] |].
  rewrite Z.add_0_r. split; [done |]. cbn. rewrite len_app. cbn. lia.
Qed.

Lemma or_fills st bits w :
  holds st bits -> 0 <= w < 2 ^ unused st -> (len bits + unused st) / 8 < len (out st) ->
  exists o o', (forall u, put_or w (with_out st (out st) (ptr st) u) = Some (tt, with_out st o (ptr st) u)) /\
    (forall u, put_next 0 (with_out st o (ptr st) u) = Some (tt, with_out st o' (ptr st + 1) u)) /\
    len o' = len (out st) /\
    holds (with_out st o' (ptr st + 1) 8) (bits ++ bits_of (Z.to_nat (unused st)) w).
Proof.
  intros Hh Hw Hl. pose proof (holds_unused _ _ Hh) as [Hu Hn]. pose proof (room_next _ _ Hh Hl).
  destruct Hh as (full & cur & Hr & Ha & Hp).
  destruct (rep_or _ _ _ _ (Z.to_nat (unused st)) w Hr) as [El Hb]; [lia | by rewrite Z2Nat.id by lia |].
  rewrite Z2Nat.id, Z.sub_diag, Z.mul_1_r in El, Hb by lia.
  assert (Hall : forall u, exists o, put_or w (with_out st (out st) (ptr st) u) = Some (tt, with_out st o (ptr st) u)
    /\ len o = len (out st) /\ at_ o 0 (full ++ [cur + w])).
  { intros u. rewrite <- (byte_small (cur + w)), <- El by done. by apply (put_or_ok (with_out st (out st) (ptr st) u)). }
  destruct (Hall 0) as (o & E & Hlo & Ho).
  destruct (put_next_all (with_out st o (ptr st) 0) full (cur + w)) as (o' & E' & Hlo' & Ho'); [done | done | cbn in *; lia |].
  exists o, o'. split; [| split; [done | split; [cbn in *; lia |]]].
  - intros u. destruct (Hall u) as (o2 & E2 & _). rewrite E2.
    unfold put_or, put in E, E2. cbn in E, E2. destruct (load (ptr st) (out st)); [| done].
    destruct (store _ _ _) as [[? ?] |]; [| done]. injection E as <-. by injection E2 as <-.
  - eexists _, _. split; [apply rep_fills with (unused st); [done | lia | by rewrite Z2Nat.id by lia] |].
    split; [done |]. cbn. rewrite len_app. cbn. lia.
Qed.

(** In a fresh byte, to store is the same as to add. *)
Lemma put_fresh st bits v u : holds st bits -> unused st = 8 ->
  put v (with_out st (out st) (ptr st) u) = put_or v (with_out st (out st) (ptr st) u).
Proof.
  intros (full & cur & (done & part & _ & _ & _ & -> & Hu & Hp) & Ha & Hpt) H8.
  destruct part; [| cbn in Hu; lia]. unfold put_or. cbn [ptr out with_out].
  apply at_app in Ha as [_ Hc]. rewrite Z.add_0_l, <- Hpt in Hc. rewrite (load_at _ _ _ Hc).
  by change (Z.lor (octet []) v) with v.
Qed.

(** More bits than fit: the rest goes to the next byte. *)
Lemma bits_of_split n u w : (u <= n)%nat ->
  bits_of n w = bits_of u (w / 2 ^ Z.of_nat (n - u)) ++ bits_of (n - u) (w mod 2 ^ Z.of_nat (n - u)).
Proof.
  intros Hu. rewrite bits_of_mod by lia. rewrite <- bits_of_add. f_equal. lia.
Qed.

Lemma or_spills st bits n w v1 x2 :
  holds st bits -> unused st < Z.of_nat n <= 8 -> 0 <= w < 2 ^ Z.of_nat n ->
  v1 = w / 2 ^ (Z.of_nat n - unused st) ->
  byte x2 = w mod 2 ^ (Z.of_nat n - unused st) * 2 ^ (8 - (Z.of_nat n - unused st)) ->
  (len bits + Z.of_nat n) / 8 < len (out st) ->
  exists o1 o2 o3,
    (forall u, put_or v1 (with_out st (out st) (ptr st) u) = Some (tt, with_out st o1 (ptr st) u)) /\
    (forall u, put_next 0 (with_out st o1 (ptr st) u) = Some (tt, with_out st o2 (ptr st + 1) u)) /\
    (forall u, put_or x2 (with_out st o2 (ptr st + 1) u) = Some (tt, with_out st o3 (ptr st + 1) u)) /\
    (forall u, put x2 (with_out st o2 (ptr st + 1) u) = Some (tt, with_out st o3 (ptr st + 1) u)) /\
    len o3 = len (out st) /\
    holds (with_out st o3 (ptr st + 1) (8 - (Z.of_nat n - unused st))) (bits ++ bits_of n w).
Proof.
  intros Hh Hn Hw -> Hx Hl. pose proof (holds_unused _ _ Hh) as [Hu _].
  set (k := (n - Z.to_nat (unused st))%nat).
  assert (Hk : Z.of_nat n - unused st = Z.of_nat k) by lia. rewrite Hk in *.
  assert (Hp : 0 < 2 ^ Z.of_nat k) by (apply Z.pow_pos_nonneg; lia).
  destruct (or_fills st bits (w / 2 ^ Z.of_nat k)) as (o1 & o2 & E1 & E2 & Hl2 & Hh2); [done | | |].
  { split; [apply Z.div_pos; lia |]. apply Z.div_lt_upper_bound; [done |].
    rewrite <- Z.pow_add_r by lia. replace (Z.of_nat k + unused st) with (Z.of_nat n) by lia. apply Hw. }
  { eapply Z.le_lt_trans; [| exact Hl]. apply Z.div_le_mono; lia. }
  destruct (or_fits _ _ k (w mod 2 ^ Z.of_nat k) x2 Hh2) as (o3 & E3 & Hl3 & Hh3);
    [cbn; lia | by apply Z.mod_pos_bound | done |].
  exists o1, o2, o3. split; [done |]. split; [done |]. split; [done |]. split; [| split].
  - intros u. pose proof (put_fresh _ _ x2 u Hh2 eq_refl) as Hf. cbn [with_out out ptr] in *.
    unfold with_out in *. cbn in *. by rewrite Hf.
  - cbn in *. lia.
  - rewrite (bits_of_split n (Z.to_nat (unused st))), app_assoc by lia. exact Hh3.
Qed.

(** ** Shifts *)

Lemma shr_ok x n st : 0 <= n < 32 -> shr x n st = Some (x / 2 ^ n, st).
Proof.
  intros Hn. unfold shr, liftP. rewrite (proj2 (Z.leb_le _ _)), (proj2 (Z.ltb_lt _ _)) by lia. cbn.
  by rewrite Z.shiftr_div_pow2 by lia.
Qed.

Lemma shl_ok x n st : 0 <= x < 256 -> 0 <= n <= 8 -> shl x n st = Some (x * 2 ^ n, st).
Proof.
  intros Hx Hn. unfold shl, liftP. rewrite Z.shiftl_mul_pow2 by lia.
  assert (2 ^ n <= 2 ^ 8) by (apply Z.pow_le_mono_r; lia). assert (0 < 2 ^ n) by (apply Z.pow_pos_nonneg; lia).
  rewrite (proj2 (Z.leb_le 0 _)), (proj2 (Z.ltb_lt _ _)), (proj2 (Z.leb_le _ int_max)) by (unfold int_max; nia).
  done.
Qed.

(** The [n] high bits of a byte whose other bits are 0, against [u] bits. *)
Definition top_bits_ok (val n u : Z) : bool :=
  let w := val / 2 ^ (8 - n) in
  negb (val mod 2 ^ (8 - n) =? 0) ||
  (if n <? u then byte (val / 2 ^ (8 - u)) =? w * 2 ^ (u - n)
   else if n =? u then val / 2 ^ (8 - u) =? w
   else (val / 2 ^ (8 - u) =? w / 2 ^ (n - u)) &&
        (byte (val * 2 ^ u) =? w mod 2 ^ (n - u) * 2 ^ (8 - (n - u)))).

Lemma top_bits val n u :
  is_byte val -> 1 <= n <= 8 -> 1 <= u <= 8 -> val mod 2 ^ (8 - n) = 0 ->
  (n < u -> byte (val / 2 ^ (8 - u)) = val / 2 ^ (8 - n) * 2 ^ (u - n)) /\
  (n = u -> val / 2 ^ (8 - u) = val / 2 ^ (8 - n)) /\
  (u < n -> val / 2 ^ (8 - u) = val / 2 ^ (8 - n) / 2 ^ (n - u) /\
     byte (val * 2 ^ u) = (val / 2 ^ (8 - n)) mod 2 ^ (n - u) * 2 ^ (8 - (n - u))).
Proof.
  intros Hv Hn Hu Hm.
  assert (H : forallb (fun n => forallb (fun u => top_bits_ok val n u) (seqZ 1 8)) (seqZ 1 8) = true).
  { clear Hm. revert val Hv. apply byte_forall. by vm_compute. }
  rewrite forallb_forall in H. specialize (H n). rewrite forallb_forall in H.
  assert (E : top_bits_ok val n u = true) by (apply H; apply list_elem_of_In, elem_of_seqZ; lia).
  unfold top_bits_ok in E. rewrite Hm in E. cbn [Z.eqb negb orb] in E.
  destruct (Z.ltb_spec n u) as [? | ?].
  - apply Z.eqb_eq in E. split; [done | lia].
  - destruct (Z.eqb_spec n u) as [? | ?].
    + apply Z.eqb_eq in E. split; [lia | split; [done | lia]].
    + apply andb_true_iff in E as [E1%Z.eqb_eq E2%Z.eqb_eq]. split; [lia | split; [lia | done]].
Qed.

Lemma top_range val n : is_byte val -> 0 <= n <= 8 -> 0 <= val / 2 ^ (8 - n) < 2 ^ n.
Proof.
  intros Hv Hn. unfold is_byte in Hv. assert (0 < 2 ^ (8 - n)) by (apply Z.pow_pos_nonneg; lia).
  split; [apply Z.div_pos; lia |]. apply Z.div_lt_upper_bound; [done |].
  rewrite <- Z.pow_add_r by lia. replace (8 - n + n) with 8 by lia. apply Hv.
Qed.

Lemma bits_of_take n val : (n <= 8)%nat -> bits_of n (val / 2 ^ (8 - Z.of_nat n)) = take n (bits_of 8 val).
Proof.
  intros Hn. replace (bits_of 8 val) with (bits_of (n + (8 - n)) val) by (f_equal; lia).
  rewrite bits_of_add.
  rewrite take_app_length' by (symmetry; apply length_bits_of). do 3 f_equal. lia.
Qed.

(** ** What the functions insert *)

Section Inserting.
Context (in_buf : list Z).

Definition moved (st st' : per_state) (n : Z) : Prop :=
  in_ptr st' = in_ptr st + n /\ len (out st') = len (out st) /\ counter st' = counter st /\
  buf_space st' = buf_space st /\ buf_size st' = buf_size st.

Lemma moved_trans a b c n m : moved a b n -> moved b c m -> moved a c (n + m).
Proof. unfold moved. intuition (lia || congruence). Qed.

Lemma moved_with_out st o p u : len o = len (out st) -> moved st (with_out st o p u) 0.
Proof. intros Hl. unfold moved. cbn. repeat split; [lia | done]. Qed.

(** [f] reads [input] and turns the bits into [new] of them; it returns a
    number for which [R] holds. *)
Definition inserts {A} (f : P A) (input : list Z) (bits bits' : list bool) (R : A -> Prop) : Prop :=
  forall st, holds st bits -> at_ in_buf (in_ptr st + 1) input ->
    len bits' / 8 < len (out st) ->
    exists r st', f st = Some (r, st') /\ holds st' bits' /\ moved st st' (len input) /\ R r.

Lemma inserts_bind {A B} (f : P A) (k : A -> P B) input1 input2 bits bits1 bits2 R Q :
  len bits1 <= len bits2 ->
  inserts f input1 bits bits1 R ->
  (forall r, R r -> inserts (k r) input2 bits1 bits2 Q) ->
  inserts (bindP f k) (input1 ++ input2) bits bits2 Q.
Proof.
  intros Hl Hf Hk st Hh Ha Ho. apply at_app in Ha as [Ha1 Ha2].
  destruct (Hf st Hh Ha1) as (r & st1 & E1 & Hh1 & Hm1 & Hr).
  { eapply Z.le_lt_trans; [| exact Ho]. apply Z.div_le_mono; lia. }
  pose proof Hm1 as (Hi & Hl1 & _).
  destruct (Hk r Hr st1 Hh1) as (q & st2 & E2 & Hh2 & Hm2 & Hq); [| by rewrite Hl1 |].
  { by replace (in_ptr st1 + 1) with (in_ptr st + 1 + len input1) by lia. }
  exists q, st2. rewrite (bindP_Some _ _ _ _ _ E1). split; [done |]. split; [done |].
  split; [rewrite len_app; by eapply moved_trans | done].
Qed.

Lemma inserts_bind0 {A B} (f : P A) (k : A -> P B) input bits bits1 bits2 R Q :
  len bits1 <= len bits2 ->
  inserts f [] bits bits1 R ->
  (forall r, R r -> inserts (k r) input bits1 bits2 Q) ->
  inserts (bindP f k) input bits bits2 Q.
Proof. apply (inserts_bind f k []). Qed.

Lemma inserts_ret {A} (a : A) bits (R : A -> Prop) : R a -> inserts (retP a) [] bits bits R.
Proof.
  intros Hr st Hh _ _. exists a, st. split; [done |]. split; [done |]. split; [| done].
  unfold moved. cbn. repeat split; lia.
Qed.

Lemma inserts_map {A B} (f : P A) (k : A -> P B) input bits bits' (R : A -> Prop) (Q : B -> Prop) :
  inserts f input bits bits' R -> (forall r st, R r -> exists b, k r st = Some (b, st) /\ Q b) ->
  inserts (bindP f k) input bits bits' Q.
Proof.
  intros Hf Hk st Hh Ha Ho. destruct (Hf st Hh Ha Ho) as (r & st1 & E1 & Hh1 & Hm1 & Hr).
  destruct (Hk r st1 Hr) as (b & E & Hb). exists b, st1. by rewrite (bindP_Some _ _ _ _ _ E1).
Qed.

Lemma next_ok st b : at_ in_buf (in_ptr st + 1) [b] ->
  next in_buf st = Some (b, PerState (in_ptr st + 1) (out st) (ptr st) (unused st) (counter st)
                              (buf_space st) (buf_size st)).
Proof. intros Ha. unfold next. rewrite bindP_get. unfold bindP, set_in_ptr, current. cbn. by rewrite (load_at _ _ _ Ha). Qed.

Lemma holds_in st i c b z bits :
  holds st bits -> holds (PerState i (out st) (ptr st) (unused st) c b z) bits.
Proof. done. Qed.

Lemma skip_fits st bits :
  holds st bits -> unused st <> 1 ->
  holds (with_out st (out st) (ptr st) (unused st - 1)) (bits ++ [false]).
Proof.
  intros Hh Hu. pose proof (holds_unused _ _ Hh) as [? _]. destruct Hh as (full & cur & Hr & Ha & Hp).
  exists full, cur. split; [| done]. rewrite <- (Z.add_0_r cur).
  apply (rep_fits full cur bits (unused st) 1 0 Hr); lia.
Qed.

Lemma room_bit st (bits : list bool) b : unused st = 1 -> len (bits ++ [b]) / 8 < len (out st) ->
  (len bits + unused st) / 8 < len (out st).
Proof. intros ->. by rewrite len_app. Qed.

(** One bit of either kind. *)
Definition zero_bit : P unit :=
  let! u := get unused in
  if u =? 1 then let! _ := set_unused 8 in put_next 0 else set_unused (u - 1).

Definition one_bit : P unit :=
  let! u := get unused in
  if u =? 1 then let! _ := put_or 1 in let! _ := set_unused 8 in put_next 0
  else let! v := shl 1 (u - 1) in let! _ := put_or v in set_unused (u - 1).

Lemma zero_bit_inserts bits : inserts zero_bit [] bits (bits ++ [false]) (fun _ => True).
Proof.
  intros st Hh _ Ho. unfold zero_bit. rewrite bindP_get. destruct (Z.eqb_spec (unused st) 1) as [E1 | E1].
  - destruct (next_fills st bits Hh (room_bit _ _ _ E1 Ho)) as (o & E & Hl & Hh').
    exists tt, (with_out st o (ptr st + 1) 8). rewrite E1 in Hh'.
    split; [exact (E 8) |]. split; [done |]. split; [by apply moved_with_out | done].
  - exists tt, (with_out st (out st) (ptr st) (unused st - 1)). split; [done |].
    split; [by apply skip_fits |]. split; [by apply moved_with_out | done].
Qed.

Lemma one_bit_inserts bits : inserts one_bit [] bits (bits ++ [true]) (fun _ => True).
Proof.
  intros st Hh _ Ho. pose proof (holds_unused _ _ Hh) as [Hu _].
  unfold one_bit. rewrite bindP_get. destruct (Z.eqb_spec (unused st) 1) as [E1 | E1].
  - destruct (or_fills st bits 1 Hh) as (o & o' & E & E' & Hl & Hh');
      [rewrite E1; cbn; lia | by eapply room_bit |].
    exists tt, (with_out st o' (ptr st + 1) 8). rewrite E1 in Hh'.
    specialize (E (unused st)). rewrite with_out_id in E. rewrite (bindP_Some _ _ _ _ _ E).
    split; [exact (E' 8) |]. split; [done |]. split; [by apply moved_with_out | done].
  - erewrite bindP_Some by (apply shl_ok; lia).
    assert (Hp : 0 < 2 ^ (unused st - 1) <= 2 ^ 7) by (split; [apply Z.pow_pos_nonneg; lia | apply Z.pow_le_mono_r; lia]).
    destruct (or_fits st bits 1 1 (1 * 2 ^ (unused st - 1)) Hh) as (o & E & Hl & Hh');
      [lia | cbn; lia | apply byte_small; unfold is_byte; lia |].
    specialize (E (unused st)). rewrite with_out_id in E. rewrite (bindP_Some _ _ _ _ _ E).
    exists tt, (with_out st o (ptr st) (unused st - 1)). split; [done |]. split; [done |].
    split; [by apply moved_with_out | done].
Qed.

Lemma bindP_assoc {A B C} (m : P A) (f : A -> P B) (g : B -> P C) st :
  bindP (bindP m f) g st = bindP m (fun x => bindP (f x) g) st.
Proof. unfold bindP. by destruct (m st) as [[? ?] |]. Qed.

Lemma inserts_ext {A} (f g : P A) input bits bits' R :
  (forall st, f st = g st) -> inserts f input bits bits' R -> inserts g input bits bits' R.
Proof. intros He Hf st Hh Ha Ho. rewrite <- He. by apply Hf. Qed.

Lemma inserts_input {A} (f : P A) input input' bits bits' R :
  input' = input -> inserts f input' bits bits' R -> inserts f input bits bits' R.
Proof. by intros ->. Qed.

Lemma pad_inserts n ret bits :
  inserts (per_pad_loop n ret) [] bits (bits ++ repeat false n)
    (fun r => r = ret + ((len bits + Z.of_nat n) / 8 - len bits / 8)).
Proof.
  revert ret bits. induction n as [| n IH]; intros ret bits.
  - cbn [per_pad_loop repeat]. rewrite app_nil_r. apply inserts_ret. rewrite Z.add_0_r. lia.
  - intros st Hh Ha Ho. pose proof (holds_unused _ _ Hh) as [Hu Hn]. cbn [repeat] in *.
    change (false :: repeat false n) with ([false] ++ repeat false n) in *.
    rewrite (app_assoc bits [false]) in Ho |- *.
    destruct (zero_bit_inserts bits st Hh Ha) as ([] & st1 & E1 & Hh1 & Hm1 & _).
    { eapply Z.le_lt_trans; [| exact Ho]. apply Z.div_le_mono; rewrite ?(len_app (bits ++ _)); lia. }
    cbn [per_pad_loop]. rewrite bindP_get. unfold zero_bit in E1. rewrite bindP_get in E1.
    pose proof Hm1 as (_ & Hlo & _). rewrite <- Hlo in Ho.
    assert (Hgo : forall ret', ret' = ret + ((len bits + 1) / 8 - len bits / 8) ->
      exists r st', per_pad_loop n ret' st1 = Some (r, st') /\ holds st' ((bits ++ [false]) ++ repeat false n) /\
        moved st st' 0 /\ r = ret + ((len bits + Z.of_nat (S n)) / 8 - len bits / 8)).
    { intros ret' ->. destruct (IH (ret + ((len bits + 1) / 8 - len bits / 8)) (bits ++ [false]) st1 Hh1) as (r & st2 & E2 & Hh2 & Hm2 & ->); [| done |].
      { destruct Hm1 as [-> _]. cbn. by rewrite Z.add_0_r. }
      eexists _, st2. split; [done |]. split; [done |]. split; [exact (moved_trans _ _ _ 0 0 Hm1 Hm2) |].
      rewrite len_app. cbn [length]. replace (len bits + Z.of_nat 1 + Z.of_nat n) with (len bits + Z.of_nat (S n)) by lia.
      change (Z.of_nat 1) with 1. lia. }
    destruct (Z.eqb_spec (unused st) 1).
    + destruct (Hgo (ret + 1)) as (r & st2 & E2 & ?); [dlia |]. exists r, st2.
      rewrite <- bindP_assoc, (bindP_Some _ _ _ _ _ E1). done.
    + destruct (Hgo ret) as (r & st2 & E2 & ?); [dlia |]. exists r, st2.
      rewrite (bindP_Some _ _ _ _ _ E1). done.
Qed.

Lemma next_inserts b bits : inserts (next in_buf) [b] bits bits (fun r => r = b).
Proof.
  intros st Hh Ha _. eexists b, _. split; [by apply next_ok |]. split; [done |]. split; [| done].
  unfold moved. cbn. repeat split.
Qed.

Lemma as_bits_inserts bs bits :
  Forall (fun b => b = 0 \/ b = 1) bs ->
  inserts (per_as_bits_loop in_buf (length bs)) bs bits (bits ++ ((fun b => b =? 1) <$> bs)) (fun r => r = true).
Proof.
  intros Hb. revert bits. induction Hb as [| b bs Hb _ IH]; intros bits.
  - cbn. rewrite app_nil_r. by apply inserts_ret.
  - cbn [length per_as_bits_loop fmap list_fmap]. change (b :: bs) with ([b] ++ bs).
    eapply inserts_bind; [| apply next_inserts |]; [rewrite len_app; lia |]. intros r ->.
    change (bits ++ (b =? 1) :: ((fun b => b =? 1) <$> bs))
      with (bits ++ [b =? 1] ++ ((fun b => b =? 1) <$> bs)).
    rewrite (app_assoc bits).
    destruct Hb as [-> | ->]; cbn [Z.eqb Pos.eqb].
    + apply (inserts_ext (bindP zero_bit (fun _ => per_as_bits_loop in_buf (length bs)))); [done |].
      eapply inserts_bind0; [| apply zero_bit_inserts | intros _ _; apply IH]. rewrite (len_app (bits ++ _)). lia.
    + apply (inserts_ext (bindP one_bit (fun _ => per_as_bits_loop in_buf (length bs)))); [done |].
      eapply inserts_bind0; [| apply one_bit_inserts | intros _ _; apply IH]. rewrite (len_app (bits ++ _)). lia.
Qed.

Lemma bytes_bits_cons b bs : bytes_bits (b :: bs) = bits_of 8 b ++ bytes_bits bs.
Proof. done. Qed.

(** One octet of the value. *)
Definition one_octet (val : Z) : P unit :=
  let! u := get unused in
  if u =? 8 then let! _ := put val in put_next 0
  else
    let! v := shr val (8 - u) in
    let! _ := put_or v in
    let! _ := put_next 0 in
    let! v := shl val u in
    put v.

Lemma one_octet_inserts val bits :
  is_byte val -> inserts (one_octet val) [] bits (bits ++ bits_of 8 val) (fun _ => True).
Proof.
  intros Hv st Hh _ Ho. pose proof (holds_unused _ _ Hh) as [Hu _].
  rewrite len_app, length_bits_of in Ho. unfold one_octet. rewrite bindP_get. unfold is_byte in Hv.
  destruct (Z.eqb_spec (unused st) 8) as [E8 | E8].
  - destruct (or_fills st bits val Hh) as (o & o' & E & E' & Hl & Hh'); [rewrite E8; cbn; lia | by rewrite E8 |].
    pose proof (put_fresh st bits val (unused st) Hh E8) as Hp.
    specialize (E (unused st)). rewrite <- Hp in E. rewrite with_out_id in E.
    rewrite (bindP_Some _ _ _ _ _ E). exists tt, (with_out st o' (ptr st + 1) 8).
    rewrite E8 in *. split; [exact (E' 8) |]. split; [done |]. split; [by apply moved_with_out | done].
  - destruct (top_bits val 8 (unused st)) as (_ & _ & Hs); [done | lia | lia | cbn; apply Z.mod_1_r |].
    cbn in Hs. rewrite Z.div_1_r in Hs. destruct Hs as [Hs1 Hs2]; [lia |].
    destruct (or_spills st bits 8 val (val / 2 ^ (8 - unused st)) (val * 2 ^ unused st) Hh)
      as (o1 & o2 & o3 & Ea & Eb & _ & Ec & Hl & Hh'); [lia | cbn; lia | done | done | done |].
    erewrite bindP_Some by (apply shr_ok; lia).
    specialize (Ea (unused st)). rewrite with_out_id in Ea. rewrite (bindP_Some _ _ _ _ _ Ea).
    rewrite (bindP_Some _ _ _ _ _ (Eb (unused st))). erewrite bindP_Some by (apply shl_ok; lia).
    exists tt, (with_out st o3 (ptr st + 1) (unused st)). split; [apply Ec |].
    replace (8 - (Z.of_nat 8 - unused st)) with (unused st) in Hh' by lia.
    split; [done |]. split; [by apply moved_with_out | done].
Qed.

(** The octets as they are, after an octet that is full or not. *)
Lemma octets_inserts bs bits :
  Forall is_byte bs ->
  inserts (per_octets_loop in_buf (length bs)) bs bits (bits ++ bytes_bits bs) (fun _ => True).
Proof.
  intros Hb. revert bits. induction Hb as [| b bs Hb _ IH]; intros bits.
  - cbn. rewrite app_nil_r. by apply inserts_ret.
  - cbn [length per_octets_loop]. rewrite bytes_bits_cons, (app_assoc bits). change (b :: bs) with ([b] ++ bs).
    apply (inserts_ext (bindP (next in_buf) (fun val => bindP (one_octet val) (fun _ => per_octets_loop in_buf (length bs))))).
    { intros st. rewrite bindP_get. unfold bindP at 1 3, next, bindP at 1 3, get, set_in_ptr, current. cbn.
      destruct (load _ in_buf) as [v |]; [| done]. done. }
    eapply inserts_bind; [| apply next_inserts |]; [rewrite !len_app; lia |]. intros r ->.
    eapply inserts_bind0; [| by apply one_octet_inserts | intros _ _; apply IH]. rewrite (len_app (bits ++ _)). lia.
Qed.

Lemma copy_inserts bs bits :
  Forall is_byte bs -> len bits mod 8 = 0 ->
  inserts (per_copy_loop in_buf (length bs)) bs bits (bits ++ bytes_bits bs) (fun _ => True).
Proof.
  intros Hb. revert bits. induction Hb as [| b bs Hb _ IH]; intros bits Hm.
  - cbn. rewrite app_nil_r. by apply inserts_ret.
  - cbn [length per_copy_loop]. rewrite bytes_bits_cons, (app_assoc bits). change (b :: bs) with ([b] ++ bs).
    eapply inserts_bind; [| apply next_inserts |]; [rewrite !len_app; lia |]. intros r ->.
    intros st Hh Ha Ho. pose proof (holds_unused _ _ Hh) as [Hu Hn].
    assert (E8 : unused st = 8) by dlia. revert st Hh Ha Ho E8 Hu Hn.
    assert (Hi : inserts (bindP (one_octet b) (fun _ => per_copy_loop in_buf (length bs))) bs bits
      ((bits ++ bits_of 8 b) ++ bytes_bits bs) (fun _ => True)).
    { eapply inserts_bind0; [| by apply one_octet_inserts | intros _ _; apply IH].
      - rewrite (len_app (bits ++ _)). lia.
      - rewrite len_app, length_bits_of. dlia. }
    intros st Hh Ha Ho E8 _ _. destruct (Hi st Hh Ha Ho) as (x & st' & E & Hr). exists x, st'.
    split; [| done]. rewrite <- E. unfold one_octet. rewrite bindP_assoc, bindP_get, E8.
    change (8 =? 8) with true. cbv iota. by rewrite bindP_assoc.
Qed.

Lemma low_shifted v m : 0 <= m <= 8 -> byte (v * 2 ^ (8 - m)) = v mod 2 ^ m * 2 ^ (8 - m).
Proof.
  intros Hm. rewrite byte_mod. assert (0 < 2 ^ m) by (apply Z.pow_pos_nonneg; lia).
  replace 256 with (2 ^ m * 2 ^ (8 - m)) by (rewrite <- Z.pow_add_r by lia; by replace (m + (8 - m)) with 8 by lia).
  apply Z.mul_mod_distr_r; [lia |]. apply Z.pow_nonzero; lia.
Qed.

Lemma least_sign_inserts n v bits :
  0 <= n <= 8 -> 0 <= v < 2 ^ n ->
  inserts (per_insert_least_sign_bits n v) [] bits (bits ++ bits_of (Z.to_nat n) v) (fun r => 0 <= r <= 1).
Proof.
  intros Hn Hv st Hh _ Ho. pose proof (holds_unused _ _ Hh) as [Hu _].
  rewrite len_app, length_bits_of in Ho. assert (En : Z.of_nat (Z.to_nat n) = n) by lia.
  assert (Hv8 : v < 256) by (assert (2 ^ n <= 2 ^ 8) by (apply Z.pow_le_mono_r; lia); lia).
  unfold per_insert_least_sign_bits. rewrite bindP_get.
  destruct (Z.ltb_spec n (unused st)) as [H1 | H1]; [| destruct (Z.eqb_spec n (unused st)) as [H2 | H2]].
  - erewrite bindP_Some by (apply shl_ok; lia).
    assert (Hb : is_byte (v * 2 ^ (unused st - n))).
    { assert (2 ^ n * 2 ^ (unused st - n) <= 2 ^ 8)
        by (rewrite <- Z.pow_add_r by lia; apply Z.pow_le_mono_r; lia).
      assert (0 < 2 ^ (unused st - n)) by (apply Z.pow_pos_nonneg; lia). unfold is_byte. nia. }
    destruct (or_fits st bits (Z.to_nat n) v (v * 2 ^ (unused st - n)) Hh) as (o & E & Hl & Hh');
      [lia | by rewrite En | by rewrite En, byte_small |].
    specialize (E (unused st)). rewrite with_out_id in E. rewrite (bindP_Some _ _ _ _ _ E).
    rewrite En in Hh'. exists 0, (with_out st o (ptr st) (unused st - n)). split; [done |]. split; [done |].
    split; [by apply moved_with_out | lia].
  - destruct (or_fills st bits v Hh) as (o & o' & E & E' & Hl & Hh'); [by rewrite <- H2 | by rewrite <- H2, <- En |].
    specialize (E (unused st)). rewrite with_out_id in E. rewrite (bindP_Some _ _ _ _ _ E).
    rewrite <- H2 in Hh'. exists 1, (with_out st o' (ptr st + 1) 8).
    split; [unfold bindP; cbn; specialize (E' 8); unfold with_out in E'; by rewrite E' |].
    split; [done |]. split; [by apply moved_with_out | lia].
  - destruct (or_spills st bits (Z.to_nat n) v (v / 2 ^ (n - unused st)) (v * 2 ^ (8 - (n - unused st))) Hh)
      as (o1 & o2 & o3 & Ea & Eb & Ec & _ & Hl & Hh'); rewrite ?En; [lia | done | done | apply low_shifted; lia | by rewrite <- En |].
    erewrite bindP_Some by (apply shr_ok; lia).
    specialize (Ea (unused st)). rewrite with_out_id in Ea. rewrite (bindP_Some _ _ _ _ _ Ea).
    rewrite (bindP_Some _ _ _ _ _ (Eb (unused st))). erewrite bindP_Some by (apply shl_ok; lia).
    rewrite (bindP_Some _ _ _ _ _ (Ec (unused st))). rewrite En in Hh'.
    exists 1, (with_out st o3 (ptr st + 1) (8 - (n - unused st))). split; [done |]. split; [done |]. split; [by apply moved_with_out | lia].
Qed.

(** The [n] high bits of [val], the others being 0. *)
Lemma top_cases st bits n val :
  holds st bits -> is_byte val -> (1 <= n <= 8)%nat -> val mod 2 ^ (8 - Z.of_nat n) = 0 ->
  (len bits + Z.of_nat n) / 8 < len (out st) ->
  let bits' := bits ++ take n (bits_of 8 val) in
  let high := val / 2 ^ (8 - unused st) in
  (Z.of_nat n < unused st /\ exists o, put_or high st = Some (tt, with_out st o (ptr st) (unused st)) /\
     len o = len (out st) /\ holds (with_out st o (ptr st) (unused st - Z.of_nat n)) bits') \/
  (Z.of_nat n = unused st /\ exists o o', put_or high st = Some (tt, with_out st o (ptr st) (unused st)) /\
     (forall u, put_next 0 (with_out st o (ptr st) u) = Some (tt, with_out st o' (ptr st + 1) u)) /\
     len o' = len (out st) /\ holds (with_out st o' (ptr st + 1) 8) bits') \/
  (unused st < Z.of_nat n /\ exists o1 o2 o3,
     put_or high st = Some (tt, with_out st o1 (ptr st) (unused st)) /\
     (forall u, put_next 0 (with_out st o1 (ptr st) u) = Some (tt, with_out st o2 (ptr st + 1) u)) /\
     (forall u, put_or (val * 2 ^ unused st) (with_out st o2 (ptr st + 1) u)
        = Some (tt, with_out st o3 (ptr st + 1) u)) /\
     len o3 = len (out st) /\
     holds (with_out st o3 (ptr st + 1) (8 - (Z.of_nat n - unused st))) bits').
Proof.
  intros Hh Hv Hn Hm Ho bits' high. pose proof (holds_unused _ _ Hh) as [Hu _].
  destruct (top_bits val (Z.of_nat n) (unused st)) as (H1 & H2 & H3); [done | lia | lia | done |].
  pose proof (top_range val (Z.of_nat n) Hv ltac:(lia)) as Hw. unfold bits', high.
  rewrite <- bits_of_take by lia.
  destruct (Z.lt_trichotomy (Z.of_nat n) (unused st)) as [Hlt | [Heq | Hgt]].
  - left. split; [done |].
    destruct (or_fits st bits n (val / 2 ^ (8 - Z.of_nat n)) (val / 2 ^ (8 - unused st)) Hh) as (o & E & Hl & Hh'); [done | done | by apply H1 |].
    exists o. specialize (E (unused st)). by rewrite with_out_id in E.
  - right. left. split; [done |].
    destruct (or_fills st bits (val / 2 ^ (8 - Z.of_nat n)) Hh) as (o & o' & E & E' & Hl & Hh'); [by rewrite <- Heq | by rewrite <- Heq |].
    exists o, o'. specialize (E (unused st)). rewrite with_out_id in E. rewrite H2 by done.
    rewrite <- Heq, Nat2Z.id in Hh'. rewrite <- Heq in E |- *. done.
  - right. right. split; [done |]. destruct H3 as [H3 H3']; [done |].
    destruct (or_spills st bits n (val / 2 ^ (8 - Z.of_nat n)) (val / 2 ^ (8 - unused st)) (val * 2 ^ unused st) Hh)
      as (o1 & o2 & o3 & Ea & Eb & Ec & _ & Hl & Hh'); [lia | done | done | done | done |].
    exists o1, o2, o3. specialize (Ea (unused st)). rewrite with_out_id in Ea. done.
Qed.

Ltac run E := rewrite (bindP_Some _ _ _ _ _ E).

Lemma most_sign_inserts n val bits :
  is_byte val -> (1 <= n <= 8)%nat -> val mod 2 ^ (8 - Z.of_nat n) = 0 ->
  inserts (per_insert_most_sign_bits (Z.of_nat n) val) [] bits (bits ++ take n (bits_of 8 val)) (fun _ => True).
Proof.
  intros Hv Hn Hm st Hh _ Ho. pose proof (holds_unused _ _ Hh) as [Hu _].
  rewrite len_app, length_take, length_bits_of, Nat.min_l in Ho by lia. unfold is_byte in Hv.
  unfold per_insert_most_sign_bits. rewrite bindP_get.
  destruct (top_cases st bits n val Hh Hv Hn Hm Ho) as
    [(Hlt & o & E & Hl & Hh') | [(Heq & o & o' & E & E' & Hl & Hh') | (Hgt & o1 & o2 & o3 & E & E' & E2 & Hl & Hh')]].
  - rewrite (proj2 (Z.ltb_lt _ _)) by done. erewrite bindP_Some by (apply shr_ok; lia). run E.
    exists ASN1_OK, (with_out st o (ptr st) (unused st - Z.of_nat n)). split; [done |]. split; [done |]. split; [by apply moved_with_out | done].
  - rewrite (proj2 (Z.ltb_ge _ _)), (proj2 (Z.eqb_eq _ _)) by lia. erewrite bindP_Some by (apply shr_ok; lia). run E.
    exists ASN1_OK, (with_out st o' (ptr st + 1) 8).
    split; [unfold bindP; cbn; specialize (E' 8); unfold with_out in E'; by rewrite E' |].
    split; [done |]. split; [by apply moved_with_out | done].
  - rewrite (proj2 (Z.ltb_ge _ _)), (proj2 (Z.eqb_neq _ _)) by lia. erewrite bindP_Some by (apply shr_ok; lia). run E.
    run (E' (unused st)). erewrite bindP_Some by (apply shl_ok; lia). run (E2 (unused st)).
    exists ASN1_OK, (with_out st o3 (ptr st + 1) (8 - (Z.of_nat n - unused st))).
    split; [done |]. split; [done |]. split; [by apply moved_with_out | done].
Qed.

Lemma unaligned_inserts bs bits :
  Forall is_byte bs ->
  inserts (per_insert_octets_unaligned in_buf (len bs)) bs bits (bits ++ bytes_bits bs) (fun r => r = len bs).
Proof.
  intros Hb. unfold per_insert_octets_unaligned. rewrite Nat2Z.id.
  eapply inserts_map; [by apply octets_inserts |]. intros [] st _. by exists (len bs).
Qed.

Lemma bits_of_zero k : bits_of k 0 = repeat false k.
Proof. induction k as [| k IH]; [done |]. cbn [bits_of repeat]. by rewrite IH, Z.bits_0. Qed.

Definition align : P unit := let! _ := put_next 0 in set_unused 8.

(** To the end of the byte, in either order of the two stores. *)
Lemma align_cases st bits :
  holds st bits -> len (aligned bits) / 8 < len (out st) ->
  (unused st = 8 /\ aligned bits = bits) \/
  (unused st <> 8 /\ exists o,
     (forall u, put_next 0 (with_out st (out st) (ptr st) u) = Some (tt, with_out st o (ptr st + 1) u)) /\
     len o = len (out st) /\ holds (with_out st o (ptr st + 1) 8) (aligned bits)).
Proof.
  intros Hh Ho. pose proof (holds_unused _ _ Hh) as [Hu Hn]. unfold aligned in *.
  destruct (decide (unused st = 8)) as [E8 | E8]; [left | right]; (split; [done |]).
  - replace ((- len bits) mod 8) with 0 by dlia. cbn. by rewrite app_nil_r.
  - replace ((- len bits) mod 8) with (unused st) in * by dlia. rewrite <- bits_of_zero in *.
    apply next_fills; [done |]. rewrite len_app, length_bits_of, Z2Nat.id in Ho by lia. done.
Qed.

Lemma len_aligned bits : len (aligned bits) mod 8 = 0 /\ len bits <= len (aligned bits).
Proof. unfold aligned. rewrite len_app, repeat_length. dlia. Qed.

Lemma insert_octets_inserts bs bits :
  Forall is_byte bs ->
  inserts (per_insert_octets in_buf (len bs)) bs bits (aligned bits ++ bytes_bits bs) (fun r => 0 <= r <= 1).
Proof.
  intros Hb. unfold per_insert_octets. rewrite Nat2Z.id.
  destruct (len_aligned bits) as [Hm Hle].
  apply (inserts_ext (bindP (let! u := get unused in if negb (u =? 8) then
      let! _ := put_next 0 in let! _ := set_unused 8 in retP 1 else retP 0)
    (fun ret => bindP (per_copy_loop in_buf (length bs)) (fun _ => retP (ret + Z.min (len bs) 0)))));
    [intros st; apply bindP_assoc |].
  eapply (inserts_bind0 _ _ _ _ (aligned bits)) with (R := fun r => 0 <= r <= 1); [rewrite len_app; lia | |].
  - intros st Hh _ Ho. rewrite bindP_get.
    destruct (align_cases st bits Hh Ho) as [[E8 Ea] | [E8 (o & E & Hl & Hh')]].
    + rewrite Ea. rewrite (proj2 (Z.eqb_eq _ _)) by done. exists 0, st. split; [done |]. split; [done |].
      split; [| lia]. unfold moved. cbn. repeat split; lia.
    + rewrite (proj2 (Z.eqb_neq _ _)) by done. specialize (E (unused st)). rewrite with_out_id in E.
      cbn [negb]. run E. exists 1, (with_out st o (ptr st + 1) 8). split; [done |]. split; [done |].
      split; [by apply moved_with_out | lia].
  - intros r Hr. eapply inserts_map; [by apply copy_inserts |]. intros [] st _. eexists. split; [done |]. cbn. lia.
Qed.

Lemma octets_as_bits_inserts bs bits :
  Forall (fun b => b = 0 \/ b = 1) bs ->
  inserts (per_insert_octets_as_bits in_buf (len bs)) bs bits (bits ++ ((fun b => b =? 1) <$> bs)) (fun r => r = 0).
Proof.
  intros Hb st Hh Ha Ho. pose proof (holds_unused _ _ Hh) as [Hu _].
  destruct (as_bits_inserts bs bits Hb st Hh Ha Ho) as (r & st' & E & Hh' & Hm & ->).
  unfold per_insert_octets_as_bits. rewrite bindP_get, Nat2Z.id. run E. cbn [negb].
  eexists _, st'. split; [done |]. split; [done |]. split; [done |].
  rewrite Z.min_r, Z.add_0_r by lia. apply Z.quot_small. lia.
Qed.

Lemma exactly_all n l : n = len l -> exactly n l = l.
Proof. intros ->. unfold exactly. rewrite Nat2Z.id, firstn_all, Z.sub_diag. cbn. apply app_nil_r. Qed.

Lemma exactly_less n l : 0 <= n <= len l -> exactly n l = take (Z.to_nat n) l.
Proof. intros Hn. unfold exactly. replace (Z.to_nat (n - len l)) with O by lia. apply app_nil_r. Qed.

Lemma exactly_more n l : len l <= n -> exactly n l = l ++ repeat false (Z.to_nat (n - len l)).
Proof. intros Hn. unfold exactly. by rewrite take_ge by lia. Qed.

Lemma len_exactly n l : 0 <= n -> len (exactly n l) = n.
Proof. intros Hn. unfold exactly. rewrite len_app, length_take, repeat_length. lia. Qed.

Lemma exact_len_inserts desired bs bits :
  0 <= desired -> Forall (fun b => b = 0 \/ b = 1) bs ->
  inserts (per_insert_octets_as_bits_exact_len in_buf desired (len bs)) bs bits
    (bits ++ exactly desired ((fun b => b =? 1) <$> bs))
    (fun r => 0 <= r /\ (r = 0 \/ r <= (desired - len bs) / 8 + 1)).
Proof.
  intros Hd Hb. unfold per_insert_octets_as_bits_exact_len.
  assert (Hlen : len ((fun b => b =? 1) <$> bs) = len bs) by by rewrite length_fmap.
  destruct (Z.eqb_spec desired (len bs)) as [E | E]; [| destruct (Z.ltb_spec (len bs) desired) as [Hlt | Hge]].
  - rewrite exactly_all by lia. eapply inserts_ext; [intros; reflexivity |].
    intros st Hh Ha Ho. destruct (octets_as_bits_inserts bs bits Hb st Hh Ha Ho) as (r & st' & Er & ? & ? & ->).
    exists 0, st'. split; [done |]. split; [done |]. split; [done |]. split; [lia | by left].
  - rewrite exactly_more, Hlen by lia. rewrite (app_assoc bits).
    apply (inserts_input _ _ (bs ++ [])); [apply app_nil_r |]. eapply (inserts_bind _ _ bs []); [| by apply octets_as_bits_inserts |].
    { rewrite (len_app (bits ++ _)). lia. }
    intros r ->. change (0 =? ASN1_ERROR) with false. cbv iota. unfold per_pad_bits.
    eapply inserts_map; [apply pad_inserts |]. intros r st ->. cbv beta.
    set (l := len (bits ++ _)). set (k := Z.of_nat _). unfold ASN1_ERROR.
    rewrite (proj2 (Z.eqb_neq _ _)) by (unfold k; dlia). eexists. split; [done |]. unfold k. rewrite Z2Nat.id by lia.
    split; [dlia |]. right. dlia.
  - rewrite exactly_less by lia. apply (inserts_input _ _ (take (Z.to_nat desired) bs ++ drop (Z.to_nat desired) bs));
      [apply take_drop |].
    rewrite <- (take_drop (Z.to_nat desired) bs) in Hb. apply Forall_app in Hb as [Hb _]. rewrite <- fmap_take.
    assert (Hl : len (take (Z.to_nat desired) bs) = desired) by (rewrite length_take; lia).
    eapply (inserts_bind _ _ (take (Z.to_nat desired) bs) (drop (Z.to_nat desired) bs)); [reflexivity | |].
    { rewrite <- Hl at 1. by apply octets_as_bits_inserts. }
    intros r -> st Hh Ha Ho. change (0 =? ASN1_ERROR) with false. cbv iota. rewrite bindP_get.
    exists 0. eexists. split; [done |]. split; [done |]. split; [| split; [lia | by left]].
    unfold moved. cbn. rewrite length_drop. repeat split; lia.
Qed.

Lemma bytes_bits_app a b : bytes_bits (a ++ b) = bytes_bits a ++ bytes_bits b.
Proof. unfold bytes_bits. by rewrite fmap_app, concat_app. Qed.

Lemma len_bytes_bits bs : len (bytes_bits bs) = 8 * len bs.
Proof.
  induction bs as [| b bs IH]; [done |]. rewrite bytes_bits_cons, len_app, length_bits_of, len_cons. lia.
Qed.

(** All octets and the first [k] bits of one more. *)
Lemma take_last_octet init b k :
  0 <= k <= 8 ->
  take (Z.to_nat (8 * len init + k)) (bytes_bits (init ++ [b]))
  = bytes_bits init ++ take (Z.to_nat k) (bits_of 8 b).
Proof.
  intros Hk. rewrite bytes_bits_app. pose proof (len_bytes_bits init).
  rewrite take_app_ge by lia. rewrite bytes_bits_cons. change (bytes_bits []) with (@nil bool).
  rewrite app_nil_r. f_equal. f_equal. lia.
Qed.

Lemma bits_as_bits_inserts desired bs bits :
  0 <= desired -> Forall is_byte bs ->
  (8 * len bs <= desired \/
   exists init b, bs = init ++ [b] /\ 8 * len init < desired /\ b mod 2 ^ (8 * len bs - desired) = 0) ->
  inserts (per_insert_bits_as_bits in_buf desired (len bs)) bs bits
    (bits ++ exactly desired (bytes_bits bs)) (fun r => 0 <= r /\ (r = len bs \/ r = CEIL desired 8)).
Proof.
  intros Hd Hb Hok. unfold per_insert_bits_as_bits. pose proof (len_bytes_bits bs) as Hlb.
  assert (Hc : 0 <= CEIL desired 8).
  { unfold CEIL. destruct (decide (desired = 0)) as [-> |]; [done |].
    rewrite Z.quot_div_nonneg by lia. dlia. }
  assert (Hne : (len bs =? ASN1_ERROR) = false) by (apply Z.eqb_neq; unfold ASN1_ERROR; lia).
  destruct (Z.eqb_spec desired (len bs * 8)) as [E | E]; [| destruct (Z.ltb_spec desired (len bs * 8)) as [Hlt | Hge]].
  - rewrite exactly_all by lia. eapply inserts_map; [by apply unaligned_inserts |].
    intros r st ->. rewrite Hne. eexists. split; [done |]. split; [lia | by left].
  - destruct Hok as [? | (init & b & -> & Hi & Hm)]; [lia |]. rewrite exactly_less by lia.
    rewrite len_app in *. cbn [length] in *. apply Forall_app in Hb as [Hb1 [Hb2 _]%list.Forall_cons].
    set (k := desired - 8 * len init). assert (Hk : 1 <= k <= 7) by lia.
    assert (Eq : Z.quot desired 8 = len init) by (rewrite Z.quot_div_nonneg by lia; dlia).
    assert (Er : Z.rem desired 8 = k) by (rewrite Z.rem_mod_nonneg by lia; dlia).
    rewrite Eq, Er. replace desired with (8 * len init + k) at 1 by lia.
    rewrite take_last_octet, (app_assoc bits) by lia.
    eapply (inserts_bind _ _ init [b]); [| by apply unaligned_inserts |].
    { rewrite (len_app (bits ++ _)). lia. }
    intros r ->. rewrite (proj2 (Z.eqb_neq _ _)) by (unfold ASN1_ERROR; lia).
    change [b] with ([b] ++ []). eapply (inserts_bind _ _ [b] []); [| apply next_inserts |].
    { rewrite (len_app (bits ++ _)). lia. }
    intros r ->. cbv zeta. rewrite <- (Z2Nat.id k) at 1 by lia.
    eapply inserts_map; [apply most_sign_inserts; [done | lia |] |].
    + rewrite Z2Nat.id by lia. replace (8 - k) with (8 * (len init + Z.of_nat 1) - desired) by lia. done.
    + intros r st _. eexists. split; [done |]. split; [done | by right].
  - rewrite exactly_more, (app_assoc bits) by lia.
    apply (inserts_input _ _ (bs ++ [])); [apply app_nil_r |].
    eapply (inserts_bind _ _ bs []); [| by apply unaligned_inserts |].
    { rewrite (len_app (bits ++ _)). lia. }
    intros r ->. rewrite Hne. unfold per_pad_bits. rewrite Hlb, (Z.mul_comm 8).
    eapply inserts_map; [apply pad_inserts |]. intros r st _. eexists. split; [done |]. split; [done | by right].
Qed.

Lemma except_unused_inserts in_unused bs bits :
  Forall is_byte bs -> 0 <= in_unused < 8 ->
  (in_unused = 0 \/ exists init b, bs = init ++ [b] /\ b mod 2 ^ in_unused = 0) ->
  inserts (per_insert_octets_except_unused in_buf (len bs) in_unused) bs bits
    (bits ++ take (Z.to_nat (8 * len bs - in_unused)) (bytes_bits bs)) (fun r => 0 <= r <= len bs).
Proof.
  intros Hb Hu Hok. unfold per_insert_octets_except_unused. pose proof (len_bytes_bits bs) as Hlb.
  destruct (Z.eqb_spec in_unused 0) as [-> | Hne].
  - rewrite take_ge by lia. intros st Hh Ha Ho.
    destruct (unaligned_inserts bs bits Hb st Hh Ha Ho) as (r & st' & E & ? & ? & ->).
    eexists _, _. split; [done |]. split; [done |]. split; [done | lia].
  - destruct Hok as [? | (init & b & -> & Hm)]; [lia |]. rewrite !len_app in *. cbn [length] in *.
    apply Forall_app in Hb as [Hb1 [Hb2 _]%list.Forall_cons].
    set (k := 8 - in_unused). assert (Hk : 1 <= k <= 7) by lia.
    replace (8 * (len init + Z.of_nat 1) - in_unused) with (8 * len init + k) by lia.
    replace (len init + Z.of_nat 1 - 1) with (len init) by lia.
    rewrite take_last_octet, (app_assoc bits) by lia.
    eapply (inserts_bind _ _ init [b]); [| by apply unaligned_inserts |].
    { rewrite (len_app (bits ++ _)). lia. }
    intros r ->. rewrite (proj2 (Z.eqb_neq _ _)) by (unfold ASN1_ERROR; lia).
    change [b] with ([b] ++ []). eapply (inserts_bind _ _ [b] []); [| apply next_inserts |].
    { rewrite (len_app (bits ++ _)). lia. }
    intros r -> st Hh _ Ho. pose proof (holds_unused _ _ Hh) as [Hu' _]. rewrite bindP_get. cbv zeta.
    fold k. unfold is_byte in Hb2.
    rewrite (len_app (bits ++ _)), length_take, length_bits_of, Nat.min_l in Ho by lia.
    destruct (top_cases st _ (Z.to_nat k) b Hh Hb2 ltac:(lia) ltac:(rewrite Z2Nat.id by lia; by replace (8 - k) with in_unused by lia) Ho) as
      [(Hlt & o & E & Hl & Hh') | [(Heq & o & o' & E & E' & Hl & Hh') | (Hgt & o1 & o2 & o3 & E & E' & E2 & Hl & Hh')]];
      rewrite Z2Nat.id in * by lia.
    + rewrite (proj2 (Z.ltb_lt _ _)) by done. erewrite bindP_Some by (apply shr_ok; lia). run E.
      exists (len init), (with_out st o (ptr st) (unused st - k)). split; [done |]. split; [done |].
      split; [by apply moved_with_out | lia].
    + rewrite (proj2 (Z.ltb_ge _ _)), (proj2 (Z.eqb_eq _ _)) by lia. erewrite bindP_Some by (apply shr_ok; lia). run E.
      run (E' (unused st)). exists (len init + 1), (with_out st o' (ptr st + 1) 8). split; [done |]. split; [done |].
      split; [by apply moved_with_out | lia].
    + rewrite (proj2 (Z.ltb_ge _ _)), (proj2 (Z.eqb_neq _ _)) by lia. erewrite bindP_Some by (apply shr_ok; lia). run E.
      run (E' (unused st)). erewrite bindP_Some by (apply shl_ok; lia). run (E2 (unused st)).
      exists (len init + 1), (with_out st o3 (ptr st + 1) (8 - (k - unused st))).
      split; [done |]. split; [done |]. split; [by apply moved_with_out | lia].
Qed.
End Inserting.
