(* ===== verification/PerRun.v ===== *)
(** * PER: from the instructions to the octets

    Every instruction that keeps its promise ([op_ok]) adds its bits, and leaves at
    least as much counted memory as there is input ([op_done]); so the loop
    gives the octets of the bits, when they fit. *)

From S2P Require Import Prelude Mem Enif Ber Per PerOk.

Section Run.
Context (in_buf : list Z) (enif_realloc_binary : list Z -> Z -> option (list Z)).

(** What the VM promises: the new block has the size that was asked for, and the
    old bytes as far as both have them. *)
Definition realloc_ok : Prop := forall block n block',
  0 <= n -> enif_realloc_binary block n = Some block' ->
  len block' = n /\
  take (Z.to_nat (Z.min n (len block))) block' = take (Z.to_nat (Z.min n (len block))) block.

Definition realloc_failed : Prop := exists block n, enif_realloc_binary block n = None.

Hypothesis Hrealloc : realloc_ok.

Lemma read_length_inserts long n bits :
  length_fits long n -> inserts in_buf (read_length in_buf long) (length_code long n) bits bits (fun r => r = n).
Proof.
  unfold length_fits, read_length, length_code. intros Hn. destruct long.
  - change [n / 256; n mod 256] with ([n / 256] ++ [n mod 256]).
    eapply inserts_bind; [reflexivity | apply next_inserts |]. intros r ->. cbv zeta.
    eapply inserts_map; [apply next_inserts |]. intros r st ->. eexists. split; [done |].
    rewrite (lor_disjoint 8) by dlia. dlia.
  - change [n] with ([n] ++ []). eapply inserts_bind; [reflexivity | apply next_inserts |].
    intros r ->. by apply inserts_ret.
Qed.

(** The fields other than the output. *)
Definition spent (st st' : per_state) (n r : Z) : Prop :=
  in_ptr st' = in_ptr st + n /\ len (out st') = len (out st) /\ counter st' = counter st /\
  buf_space st' = buf_space st - r /\ buf_size st' = buf_size st.

Lemma inserting_ok f input bits bits' m st :
  inserts in_buf f input bits bits' (fun r => 0 <= r <= m) ->
  holds st bits -> at_ in_buf (in_ptr st + 1) input -> len bits' / 8 < len (out st) ->
  exists st' r, inserting f st = Some (ASN1_OK, st') /\ holds st' bits' /\ spent st st' (len input) r /\ 0 <= r <= m.
Proof.
  intros Hf Hh Ha Ho. destruct (Hf st Hh Ha Ho) as (r & st' & E & Hh' & (? & ? & ? & ? & ?) & Hr).
  unfold inserting. rewrite (bindP_Some _ _ _ _ _ E).
  rewrite (proj2 (Z.eqb_neq _ _)) by (unfold ASN1_ERROR; lia).
  eexists _, r. split; [done |]. split; [exact Hh' |]. split; [| done].
  unfold spent. cbn. repeat split; lia.
Qed.

Lemma checked_ok f input bits bits' m st :
  inserts in_buf f input bits bits' (fun r => 0 <= r <= m) ->
  holds st bits -> at_ in_buf (in_ptr st + 1) input -> len bits' / 8 < len (out st) -> 0 <= counter st ->
  exists st' r, checked f st = Some (ASN1_OK, st') /\ holds st' bits' /\ spent st st' (len input) r /\ 0 <= r <= m.
Proof.
  intros Hf Hh Ha Ho Hc. unfold checked. rewrite bindP_get, (proj2 (Z.ltb_ge _ _)) by done.
  by eapply inserting_ok.
Qed.

Definition op_done (st : per_state) (bits : list bool) (n : Z) (st' : per_state) : Prop :=
  holds st' bits /\ in_ptr st' = in_ptr st + n /\ counter st' = counter st - n /\
  counter st' <= buf_space st' /\ buf_size st' = len (out st') /\ len (out st) <= len (out st').

Definition op_runs (f : P Z) (input : list Z) (bits bits' : list bool) : Prop :=
  forall st, holds st bits -> at_ in_buf (in_ptr st + 1) input -> len bits' / 8 < len (out st) ->
    len input <= counter st -> counter st < buf_space st -> buf_size st = len (out st) ->
    (exists st', f st = Some (ASN1_OK, st') /\ op_done st bits' (len input) st') \/
    (exists st', f st = Some (ASN1_ERROR, st') /\ realloc_failed).

Lemma take_at s s' o bs n :
  at_ s o bs -> o + len bs <= Z.of_nat n -> take n s' = take n s -> at_ s' o bs.
Proof.
  intros [Ho (pre & post & -> & Hp)] Hn E. split; [done |].
  exists pre, (drop (length (pre ++ bs)) s'). split; [| done].
  rewrite app_assoc, <- (take_drop (length (pre ++ bs)) s') at 1. f_equal.
  assert (Hk : (length (pre ++ bs) <= n)%nat) by (rewrite length_app; lia).
  assert (E2 : take (length (pre ++ bs)) (take n s') = take (length (pre ++ bs)) (take n (pre ++ bs ++ post)))
    by by rewrite E.
  rewrite !take_take, Nat.min_l in E2 by done. by rewrite app_assoc, take_app_length in E2.
Qed.

Lemma ensure_ok needed st bits :
  holds st bits -> counter st < buf_space st -> buf_size st = len (out st) ->
  (exists st', ensure enif_realloc_binary needed st = Some (ASN1_OK, st') /\ holds st' bits /\
     in_ptr st' = in_ptr st /\ counter st' = counter st /\ unused st' = unused st /\
     buf_size st' = len (out st') /\
     len (out st) <= len (out st') /\ needed <= buf_space st' - counter st' /\
     counter st' < buf_space st') \/
  (exists st', ensure enif_realloc_binary needed st = Some (ASN1_ERROR, st') /\ realloc_failed).
Proof.
  intros Hh Hs Hz. unfold ensure. destruct (Z.ltb_spec (buf_space st - counter st) needed) as [Hlt | Hge].
  - unfold per_realloc_memory. cbn [out in_ptr ptr unused counter buf_space buf_size].
    destruct (enif_realloc_binary (out st) (buf_size st + needed)) as [block |] eqn:E;
      [left | right; eexists; split; [done |]; by eexists _, _].
    apply Hrealloc in E as [Hl Ht]; [| lia]. eexists. split; [done |]. cbn. split; [| lia].
    destruct Hh as (full & cur & Hr & Ha & Hp). exists full, cur. split; [done |]. split; [| done]. cbn.
    pose proof (at_range _ _ _ Ha) as [_ Hrange]. eapply take_at; [exact Ha | | exact Ht]. lia.
  - left. exists st. split; [done |]. split; [done |]. lia.
Qed.

(** ** The instructions *)

Lemma case_0_runs (b : bool) bits : op_runs (if b then per_case_1 else per_case_0) [] bits (bits ++ [b]).
Proof.
  intros st Hh Ha Ho Hc Hs Hz. left.
  assert (Hb : exists st', (if b then one_bit else zero_bit) st = Some (tt, st') /\ holds st' (bits ++ [b]) /\ moved st st' 0).
  { destruct b; [destruct (one_bit_inserts in_buf bits st Hh Ha Ho) as ([] & st' & ?)
      | destruct (zero_bit_inserts in_buf bits st Hh Ha Ho) as ([] & st' & ?)]; exists st'; tauto. }
  destruct Hb as (st' & E & Hh' & (Hi & Hl & Hc' & Hs' & Hz')).
  assert (Hex : exists r, 0 <= r <= 1 /\ (if b then per_case_1 else per_case_0) st
    = Some (ASN1_OK, PerState (in_ptr st') (out st') (ptr st') (unused st') (counter st') (buf_space st' - r) (buf_size st'))).
  { destruct b; unfold per_case_1, per_case_0, one_bit, zero_bit in *; cbv iota in *; rewrite bindP_get in E; rewrite bindP_get;
      destruct (unused st =? 1).
    - exists 1. split; [lia |]. revert E. unfold bindP. destruct (put_or 1 st) as [[[] st1] |]; [| done].
      cbn. destruct (put_next 0 _) as [[[] st2] |]; [| done]. intros [= ->]. done.
    - exists 0. split; [lia |]. rewrite Z.sub_0_r. rewrite (bindP_Some _ _ _ _ _ E). by destruct st'.
    - exists 1. split; [lia |]. revert E. unfold bindP. cbn.
      destruct (put_next 0 _) as [[[] st2] |]; [| done]. intros [= ->]. done.
    - exists 0. split; [lia |]. rewrite Z.sub_0_r. rewrite (bindP_Some _ _ _ _ _ E). by destruct st'. }
  destruct Hex as (r & Hr & ->). eexists. split; [done |]. split; [exact Hh' |]. cbn in *. lia.
Qed.

Lemma case_2_runs bits : op_runs per_case_2 [] bits (aligned bits).
Proof.
  intros st Hh Ha Ho Hc Hs Hz. left. unfold per_case_2. rewrite bindP_get.
  destruct (align_cases st bits Hh Ho) as [[E8 Ea] | [E8 (o & E & Hl & Hh')]].
  - rewrite Ea, E8. exists st. split; [done |]. split; [done |]. cbn. lia.
  - rewrite (proj2 (Z.eqb_neq _ _)) by done. cbn [negb]. rewrite bindP_assoc.
    specialize (E (unused st)). rewrite with_out_id in E. rewrite (bindP_Some _ _ _ _ _ E).
    eexists. split; [done |]. split; [exact Hh' |]. cbn in *. lia.
Qed.

(** A reader of lengths, with the state it leaves. *)
Lemma read_ok {A} (f : P A) a code rest bits st (bits' : list bool) :
  inserts in_buf f code bits bits (fun r => r = a) -> holds st bits ->
  at_ in_buf (in_ptr st + 1) (code ++ rest) -> len bits <= len bits' -> len bits' / 8 < len (out st) ->
  exists st1, f st = Some (a, st1) /\ holds st1 bits /\ moved st st1 (len code) /\
    at_ in_buf (in_ptr st1 + 1) rest.
Proof.
  intros Hf Hh Ha Hle Ho. apply at_app in Ha as [Ha Ha'].
  destruct (Hf st Hh Ha) as (r & st1 & E & Hh1 & Hm & ->).
  { eapply Z.le_lt_trans; [| exact Ho]. apply Z.div_le_mono; lia. }
  exists st1. split; [done |]. split; [done |]. split; [done |].
  destruct Hm as [-> _]. by replace (in_ptr st + len code + 1) with (in_ptr st + 1 + len code) by lia.
Qed.

(** The end of a case: the counter, and what is inserted. *)
Lemma finish_case f input bits bits' m n st st0 k :
  inserts in_buf f input bits bits' (fun r => 0 <= r <= m) ->
  holds st bits -> at_ in_buf (in_ptr st + 1) input -> len bits' / 8 < len (out st) ->
  in_ptr st = in_ptr st0 + k -> counter st = counter st0 -> buf_size st = len (out st) ->
  len (out st0) <= len (out st) ->
  n = k + len input -> n <= counter st -> m <= buf_space st - counter st + n ->
  exists st', bindP (consume n) (fun _ => checked f) st = Some (ASN1_OK, st') /\ op_done st0 bits' n st'.
Proof.
  intros Hf Hh Ha Ho Hi Hc Hz Hl Hn Hn' Hm.
  set (st1 := PerState (in_ptr st) (out st) (ptr st) (unused st) (counter st - n) (buf_space st) (buf_size st)).
  destruct (checked_ok f input bits bits' m st1) as (st' & r & E & Hh' & (? & ? & ? & ? & ?) & Hr);
    [done | done | done | done | cbn; lia |].
  exists st'. split; [exact E |]. split; [done |]. cbn in *. lia.
Qed.

Lemma len_after bits op : op_ok op -> len bits <= len (op_bits_after bits op).
Proof.
  intros _. destruct op; cbn [op_bits_after]; rewrite ?len_app; try lia; try apply len_aligned.
  destruct (len_aligned bits). lia.
Qed.

Lemma length_code_len long n : len (length_code long n) = if long then 2 else 1.
Proof. by destruct long. Qed.

Lemma case_10_runs n v bits : op_ok (op_bits n v) ->
  op_runs (per_case_10 in_buf) [n; v] bits (bits ++ bits_of (Z.to_nat n) v).
Proof.
  intros [Hn Hv] st Hh Ha Ho Hc Hs Hz. left. unfold per_case_10.
  pose proof (len_after bits (op_bits n v) (conj Hn Hv)) as Hle. cbn [op_bits_after] in Hle.
  destruct (read_ok _ n [n] [v] bits st _ (next_inserts in_buf n bits) Hh Ha Hle Ho) as (st1 & E1 & Hh1 & Hm1 & Ha1).
  pose proof Hm1 as (Hi1 & Hl1 & Hc1 & Hs1 & Hz1).
  destruct (read_ok _ v [v] [] bits st1 _ (next_inserts in_buf v bits) Hh1 Ha1 Hle ltac:(lia)) as (st2 & E2 & Hh2 & Hm2 & Ha2).
  pose proof Hm2 as (Hi2 & Hl2 & Hc2 & Hs2 & Hz2).
  rewrite (bindP_Some _ _ _ _ _ E1), (bindP_Some _ _ _ _ _ E2).
  set (st3 := PerState (in_ptr st2) (out st2) (ptr st2) (unused st2) (counter st2 - 2) (buf_space st2) (buf_size st2)).
  destruct (inserting_ok _ [] bits _ 1 st3 (least_sign_inserts in_buf n v bits Hn Hv)) as (st' & r & E & Hh' & (? & ? & ? & ? & ?) & Hr);
    [done | done | cbn; lia |].
  exists st'. split; [exact E |]. split; [done |]. cbn in *. lia.
Qed.

Lemma case_20_runs long bs bits : op_ok (op_octets long bs) ->
  op_runs (per_case_20 in_buf long) (length_code long (len bs) ++ bs) bits (aligned bits ++ bytes_bits bs).
Proof.
  intros [Hb Hf] st Hh Ha Ho Hc Hs Hz. left. unfold per_case_20.
  pose proof (len_after bits (op_octets long bs) (conj Hb Hf)) as Hle. cbn [op_bits_after] in Hle.
  rewrite len_app, length_code_len in Hc |- *.
  destruct (read_ok _ _ _ bs bits st _ (read_length_inserts long (len bs) bits Hf) Hh Ha Hle Ho) as (st1 & E1 & Hh1 & Hm1 & Ha1).
  destruct Hm1 as (Hi1 & Hl1 & Hc1 & Hs1 & Hz1). rewrite length_code_len in Hi1.
  rewrite (bindP_Some _ _ _ _ _ E1).
  apply (finish_case _ bs bits _ 1 _ st1 st (if long then 2 else 1) (insert_octets_inserts in_buf bs bits Hb));
    try done; try (destruct long; lia); by rewrite Hl1.
Qed.

Lemma case_30_runs long in_unused bs bits : op_ok (op_bit_octets long in_unused bs) ->
  op_runs (per_case_30 in_buf long) (in_unused :: length_code long (len bs) ++ bs) bits
    (op_bits_after bits (op_bit_octets long in_unused bs)).
Proof.
  intros Hok st Hh Ha Ho Hc Hs Hz. left. unfold per_case_30.
  pose proof (len_after bits _ Hok) as Hle. destruct Hok as (Hb & Hf & Hu & Hz0).
  cbn [op_bits_after] in *.
  change (in_unused :: ?l) with ([in_unused] ++ l) in Ha, Hc |- *. rewrite !len_app, length_code_len in Hc |- *.
  destruct (read_ok _ _ [in_unused] _ bits st _ (next_inserts in_buf in_unused bits) Hh Ha Hle Ho) as (st1 & E1 & Hh1 & (Hi1 & Hl1 & Hc1 & Hs1 & Hz1) & Ha1).
  destruct (read_ok _ _ _ bs bits st1 _ (read_length_inserts long (len bs) bits Hf) Hh1 Ha1 Hle ltac:(lia)) as (st2 & E2 & Hh2 & (Hi2 & Hl2 & Hc2 & Hs2 & Hz2) & Ha2).
  rewrite length_code_len in Hi2. change (len [in_unused]) with 1 in *.
  rewrite (bindP_Some _ _ _ _ _ E1), (bindP_Some _ _ _ _ _ E2).
  replace (1 + ((if long then 2 else 1) + len bs)) with ((if long then 3 else 2) + len bs) by (destruct long; lia).
  eapply (finish_case _ bs bits _ (len bs) _ st2 st (if long then 3 else 2) (except_unused_inserts in_buf in_unused bs bits Hb Hu Hz0));
    try done; try lia; try (destruct long; lia).
Qed.

(** The cases that may need more memory. *)
Lemma padded_runs f needed dlong nlong desired bs bits bits' m st0 :
  inserts in_buf (f desired (len bs)) bs bits bits' (fun r => 0 <= r <= m) ->
  length_fits dlong desired -> length_fits nlong (len bs) -> len bits <= len bits' ->
  (forall u, 1 <= u <= 8 -> m <= Z.max 1 (needed desired (len bs) u) + lengths_size dlong nlong + len bs) ->
  holds st0 bits ->
  at_ in_buf (in_ptr st0 + 1) (length_code dlong desired ++ length_code nlong (len bs) ++ bs) ->
  len bits' / 8 < len (out st0) ->
  lengths_size dlong nlong + len bs <= counter st0 -> counter st0 < buf_space st0 -> buf_size st0 = len (out st0) ->
  let run :=
    let! desired_len := read_length in_buf dlong in
    let! no_bytes := read_length in_buf nlong in
    let! u := get unused in
    let! rc := ensure enif_realloc_binary (needed desired_len no_bytes u) in
    if rc =? ASN1_ERROR then retP ASN1_ERROR else
    let! _ := consume (lengths_size dlong nlong + no_bytes) in
    checked (f desired_len no_bytes) in
  (exists st', run st0 = Some (ASN1_OK, st') /\ op_done st0 bits' (lengths_size dlong nlong + len bs) st') \/
  (exists st', run st0 = Some (ASN1_ERROR, st') /\ realloc_failed).
Proof.
  intros Hf Hd Hn Hle Hm Hh Ha Ho Hc Hs Hz run. unfold run.
  destruct (read_ok _ _ _ _ bits st0 _ (read_length_inserts dlong desired bits Hd) Hh Ha Hle Ho) as (st1 & E1 & Hh1 & (Hi1 & Hl1 & Hc1 & Hs1 & Hz1) & Ha1).
  destruct (read_ok _ _ _ bs bits st1 _ (read_length_inserts nlong (len bs) bits Hn) Hh1 Ha1 Hle ltac:(lia)) as (st2 & E2 & Hh2 & (Hi2 & Hl2 & Hc2 & Hs2 & Hz2) & Ha2).
  rewrite length_code_len in *.
  rewrite (bindP_Some _ _ _ _ _ E1), (bindP_Some _ _ _ _ _ E2), bindP_get.
  pose proof (holds_unused _ _ Hh2) as [Hu _].
  destruct (ensure_ok (needed desired (len bs) (unused st2)) st2 bits Hh2) as
    [(st3 & E3 & Hh3 & Hi3 & Hc3 & Hu3 & Hz3 & Hl3 & Hn3 & Hs3) | (st3 & E3 & Hfail)]; [lia | lia | left | right].
  - rewrite (bindP_Some _ _ _ _ _ E3). change (ASN1_OK =? ASN1_ERROR) with false. cbv iota.
    specialize (Hm (unused st2) Hu). unfold lengths_size in *.
    eapply (finish_case _ bs bits _ m _ st3 st0 ((if dlong then 2 else 1) + (if nlong then 2 else 1)) Hf);
      try done; try lia. by rewrite Hi3.
  - rewrite (bindP_Some _ _ _ _ _ E3). by exists st3.
Qed.

(** The memory that case 40 and its kind, and case 45 and its kind, count with. *)
Definition needed_40 (dlong nlong : bool) (desired_len no_bytes u : Z) : Z :=
  if dlong || nlong then CEIL (desired_len - u) 8 - no_bytes
  else
    let pad_bits := desired_len - no_bytes - u in
    if 0 <? pad_bits then CEIL pad_bits 8 else 0.

Lemma CEIL_bounds x : x <= 8 * CEIL x 8 /\ 8 * CEIL x 8 <= Z.max 8 (x + 7).
Proof.
  unfold CEIL. destruct (decide (0 <= x - 1)).
  - rewrite Z.quot_div_nonneg by lia. dlia.
  - rewrite <- (Z.opp_involutive (x - 1)), Z.quot_opp_l, Z.quot_div_nonneg by lia. dlia.
Qed.

Lemma case_40_runs dlong nlong desired bs bits :
  op_ok (op_bools dlong nlong desired bs) ->
  op_runs (per_case_40 in_buf enif_realloc_binary dlong nlong)
    (length_code dlong desired ++ length_code nlong (len bs) ++ bs) bits
    (op_bits_after bits (op_bools dlong nlong desired bs)).
Proof.
  intros Hok. pose proof (len_after bits _ Hok) as Hle. destruct Hok as (Hd & Hn & Hb).
  cbn [op_bits_after] in *. intros st Hh Ha Ho Hc Hs Hz. rewrite !len_app, !length_code_len in Hc |- *.
  rewrite Z.add_assoc in Hc |- *. fold (lengths_size dlong nlong) in Hc |- *.
  apply (padded_runs _ (needed_40 dlong nlong) dlong nlong desired bs bits _
    (Z.max 0 ((desired - len bs) / 8 + 1))); try done.
  - intros st' Hh' Ha' Ho'.
    destruct (exact_len_inserts in_buf desired bs bits ltac:(unfold length_fits in Hd; lia) Hb st' Hh' Ha' Ho')
      as (r & st2 & E & ? & ? & Hr).
    exists r, st2. split; [done |]. split; [done |]. split; [done |]. lia.
  - intros u Hu. unfold needed_40, lengths_size. unfold length_fits in Hd.
    pose proof (CEIL_bounds (desired - u)). pose proof (CEIL_bounds (desired - len bs - u)).
    destruct dlong, nlong; cbn [orb]; try dlia.
    cbv zeta. destruct (Z.ltb_spec 0 (desired - len bs - u)); dlia.
Qed.

Lemma case_45_runs dlong nlong desired bs bits :
  op_ok (op_bit_string dlong nlong desired bs) ->
  op_runs (per_case_45 in_buf enif_realloc_binary dlong nlong)
    (length_code dlong desired ++ length_code nlong (len bs) ++ bs) bits
    (op_bits_after bits (op_bit_string dlong nlong desired bs)).
Proof.
  intros Hok. pose proof (len_after bits _ Hok) as Hle. destruct Hok as (Hb & _ & Hd & Hn & Hz0).
  cbn [op_bits_after] in *. intros st Hh Ha Ho Hc Hs Hz. rewrite !len_app, !length_code_len in Hc |- *.
  rewrite Z.add_assoc in Hc |- *. fold (lengths_size dlong nlong) in Hc |- *.
  apply (padded_runs _ (fun d n u => CEIL (d - u) 8 - n) dlong nlong desired bs bits _
    (Z.max (len bs) (CEIL desired 8))); try done.
  - intros st' Hh' Ha' Ho'.
    destruct (bits_as_bits_inserts in_buf desired bs bits ltac:(unfold length_fits in Hd; lia) Hb Hz0 st' Hh' Ha' Ho')
      as (r & st2 & E & ? & ? & Hr).
    exists r, st2. split; [done |]. split; [done |]. split; [done |]. lia.
  - intros u Hu. unfold lengths_size. unfold length_fits in Hd.
    pose proof (CEIL_bounds (desired - u)). pose proof (CEIL_bounds desired).
    destruct dlong, nlong; lia.
Qed.

Lemma op_code_cons op : exists c rest, op_code op = c :: rest.
Proof. destruct op; by eexists _, _. Qed.

Lemma case_runs op bits c rest :
  op_ok op -> op_code op = c :: rest ->
  op_runs (per_case in_buf enif_realloc_binary c) rest bits (op_bits_after bits op).
Proof.
  intros Hok. destruct op as [b | | n v | long bs | long u bs | dlong nlong d bs | dlong nlong d bs];
    cbn [op_code]; intros [= <- <-].
  - destruct b; [apply (case_0_runs true) | apply (case_0_runs false)].
  - apply case_2_runs.
  - by apply case_10_runs.
  - destruct long; by apply (case_20_runs _ _ _ Hok).
  - destruct long; by apply (case_30_runs _ _ _ _ Hok).
  - destruct dlong, nlong; by apply (case_40_runs _ _ _ _ _ Hok).
  - pose proof Hok as (_ & Hl & _). destruct dlong, nlong; try by apply (case_45_runs _ _ _ _ _ Hok).
    by specialize (Hl eq_refl).
Qed.

Definition run_bits (ops : list per_op) (bits : list bool) : list bool := foldl op_bits_after bits ops.

Lemma len_run ops bits : Forall op_ok ops -> len bits <= len (run_bits ops bits).
Proof.
  intros Ho. revert bits. induction Ho as [| op ops Hop _ IH]; intros bits; [done |].
  cbn. pose proof (len_after bits op Hop). specialize (IH (op_bits_after bits op)). unfold run_bits in IH. lia.
Qed.

Lemma loop_runs ops bits fuel st :
  Forall op_ok ops -> holds st bits -> at_ in_buf (in_ptr st) (concat (op_code <$> ops)) ->
  counter st = len (concat (op_code <$> ops)) -> (length (concat (op_code <$> ops)) < fuel)%nat ->
  len (run_bits ops bits) / 8 < len (out st) -> counter st <= buf_space st -> buf_size st = len (out st) ->
  (exists st', per_loop in_buf enif_realloc_binary fuel st = Some (ASN1_OK, st') /\ holds st' (run_bits ops bits)) \/
  (exists st', per_loop in_buf enif_realloc_binary fuel st = Some (ASN1_ERROR, st') /\ realloc_failed).
Proof.
  intros Hops. revert bits fuel st. induction Hops as [| op ops Hop Hops IH];
    intros bits fuel st Hh Ha Hc Hf Ho Hs Hz; (destruct fuel as [| fuel]; [lia |]).
  - left. exists st. cbn [per_loop]. rewrite bindP_get, Hc. done.
  - cbn [fmap list_fmap concat run_bits foldl] in *. fold (run_bits ops (op_bits_after bits op)) in *.
    destruct (op_code_cons op) as (c & rest & Ecode). rewrite Ecode in Ha, Hc, Hf.
    rewrite len_app, len_cons in Hc. rewrite length_app in Hf. cbn [length] in Hf.
    apply at_app in Ha as [Ha Ha']. apply at_cons in Ha as [Ha0 Ha1].
    cbn [per_loop]. rewrite bindP_get, (proj2 (Z.leb_gt _ _)) by lia.
    set (st1 := PerState (in_ptr st) (out st) (ptr st) (unused st) (counter st - 1) (buf_space st) (buf_size st)).
    assert (E0 : set_counter (counter st - 1) st = Some (tt, st1)) by done.
    rewrite (bindP_Some _ _ _ _ _ E0).
    assert (E1 : current in_buf st1 = Some (c, st1)) by (unfold current; cbn; by rewrite (load_at _ _ _ Ha0)).
    rewrite (bindP_Some _ _ _ _ _ E1).
    pose proof (len_run ops (op_bits_after bits op) Hops) as Hle.
    destruct (case_runs op bits c rest Hop Ecode st1) as
      [(st2 & E2 & Hh2 & Hi2 & Hc2 & Hs2 & Hz2 & Hl2) | (st2 & E2 & Hfail)]; try (done || (cbn; lia)).
    + cbn. eapply Z.le_lt_trans; [| exact Ho]. apply Z.div_le_mono; lia.
    + rewrite (bindP_Some _ _ _ _ _ E2). change (ASN1_OK =? ASN1_ERROR) with false. cbv iota.
      rewrite bindP_get. set (st3 := PerState (in_ptr st2 + 1) (out st2) (ptr st2) (unused st2) (counter st2) (buf_space st2) (buf_size st2)).
      assert (E3 : set_in_ptr (in_ptr st2 + 1) st2 = Some (tt, st3)) by done.
      rewrite (bindP_Some _ _ _ _ _ E3).
      cbn in Hi2, Hc2, Hl2. apply IH; try done; cbn; try lia.
      rewrite len_cons in Ha'. by replace (in_ptr st2 + 1) with (in_ptr st + (1 + len rest)) by lia.
    + rewrite (bindP_Some _ _ _ _ _ E2). right. by exists st2.
Qed.

(** A complete encoding has at least one octet. *)
Definition per_octets (bits : list bool) : list Z :=
  match bits with [] => [0] | _ => octets bits end.

Lemma holds_octets st bits : holds st bits ->
  let n := if (unused st =? 8) && negb (ptr st =? 0) then ptr st else ptr st + 1 in
  n = len (per_octets bits) /\ 0 <= n <= len (out st) /\ take (Z.to_nat n) (out st) = per_octets bits.
Proof.
  intros (full & cur & (done & part & -> & Hd & Ho & -> & Hu & Hp) & Ha & Hpt).
  pose proof (at_range _ _ _ Ha) as [_ Hr]. rewrite len_app in Hr. cbn [length] in Hr.
  destruct Ha as [_ (pre & post & E & Hpre)]. destruct pre; [| cbn in Hpre; lia].
  cbn [app] in E. rewrite Hu, Hpt.
  assert (Hoct : octets (done ++ part) = full ++ octets part) by (by rewrite (octets_app (length full)), Ho).
  destruct part as [| b part].
  - change (8 - len [] =? 8) with true. cbn [andb]. rewrite app_nil_r in *.
    destruct (Z.eqb_spec (len full) 0) as [E0 | E0]; cbn [negb].
    + destruct full; [| rewrite len_cons in E0; lia]. destruct done; [| cbn [length] in Hd; lia].
      rewrite E. cbn. split; [done |]. split; [lia | done].
    + assert (Hper : per_octets done = full) by (destruct done; [destruct full; [done | cbn [length] in Hd; lia] | done]).
      rewrite Hper. split; [done |]. split; [lia |]. rewrite E, <- app_assoc, Nat2Z.id. apply take_app_length.
  - rewrite (proj2 (Z.eqb_neq (8 - len (b :: part)) 8)) by (cbn; lia). cbn [andb].
    assert (Hper : per_octets (done ++ b :: part) = full ++ [octet (b :: part)]).
    { rewrite (octets_part (b :: part)) in Hoct by (cbn [length] in Hp |- *; lia). rewrite <- Hoct. by destruct done. }
    rewrite Hper, len_app. cbn [length]. split; [lia |]. split; [lia |].
    rewrite E. rewrite take_app_length'; [done |]. rewrite length_app. cbn [length]. lia.
Qed.

Lemma holds_start block i c bs bz : 0 < len block ->
  exists block', put 0 (PerState i block 0 8 c bs bz) = Some (tt, PerState i block' 0 8 c bs bz) /\
    len block' = len block /\ holds (PerState i block' 0 8 c bs bz) [].
Proof.
  intros Hl. destruct block as [| x block]; [cbn in Hl; lia |].
  assert (Ha : at_ (out (PerState i (x :: block) 0 8 c bs bz)) 0 ([] ++ [x])) by (split; [lia |]; by exists [], block).
  destruct (put_ok (PerState i (x :: block) 0 8 c bs bz) [] x 0 Ha eq_refl) as (o & E & Hlo & Ho).
  exists o. split; [exact E |]. split; [done |]. exists [], 0. split; [| done].
  exists [], []. repeat split.
Qed.

Lemma per_complete_ok ops block :
  Forall op_ok ops -> in_buf = concat (op_code <$> ops) -> len block = len in_buf -> 0 < len in_buf ->
  len (run_bits ops []) / 8 < len in_buf ->
  (exists block', per_complete in_buf enif_realloc_binary block (len in_buf)
      = Some (len (per_octets (run_bits ops [])), block') /\
    len (per_octets (run_bits ops [])) <= len block' /\
    take (length (per_octets (run_bits ops []))) block' = per_octets (run_bits ops [])) \/
  (exists block', per_complete in_buf enif_realloc_binary block (len in_buf) = Some (ASN1_ERROR, block') /\
    realloc_failed).
Proof.
  intros Hops Ein Hb Hl Ho. unfold per_complete.
  destruct (holds_start block 0 (len in_buf) (len in_buf) (len in_buf)) as (block1 & E & Hl1 & Hh); [lia |].
  rewrite (bindP_Some _ _ _ _ _ E).
  destruct (loop_runs ops [] (S (Z.to_nat (len in_buf))) _ Hops Hh) as [(st & Er & Hh') | (st & Er & Hf)];
    cbn [in_ptr counter out buf_size buf_space]; try lia; try (rewrite <- Ein; lia).
  - rewrite Ein. split; [done |]. exists [], []. by rewrite app_nil_r.
  - left. rewrite Er. cbn [mbind option_bind]. change (ASN1_OK =? ASN1_ERROR) with false. cbv iota.
    destruct (holds_octets st _ Hh') as (Hn & Hr & Ht). exists (out st).
    rewrite <- Hn. rewrite <- (Nat2Z.id (length (per_octets _))), <- Hn.
    destruct ((unused st =? 8) && negb (ptr st =? 0)); split; try done; split; (done || lia).
  - right. rewrite Er. exists (out st). done.
Qed.
End Run.

(** ** When the bits fit *)

(** Instructions that do not ask for more bits than they bring. *)
Definition op_tight (op : per_op) : Prop :=
  match op with
  | op_bools _ _ desired bs => desired <= len bs
  | op_bit_string _ _ desired bs => desired <= 8 * len bs
  | _ => True
  end.

Lemma len_aligned_upto bits c : len bits <= 8 * c -> len (aligned bits) <= 8 * c.
Proof. intros Hl. unfold aligned. rewrite len_app, repeat_length. dlia. Qed.

Lemma op_room op bits c : op_ok op -> op_tight op -> len bits <= 8 * c ->
  len (op_bits_after bits op) < 8 * (c + len (op_code op)).
Proof.
  intros Hok Ht Hl. destruct op as [b | | n v | long bs | long u bs | dlong nlong d bs | dlong nlong d bs];
    cbn [op_bits_after op_code op_tight op_ok] in *.
  - rewrite len_app. cbn. lia.
  - pose proof (len_aligned_upto bits c Hl). cbn. lia.
  - rewrite len_app, length_bits_of. cbn. lia.
  - pose proof (len_aligned_upto bits c Hl). rewrite !len_app, len_bytes_bits, len_cons, len_app. lia.
  - rewrite !len_app, length_take. pose proof (len_bytes_bits bs). rewrite !len_cons, len_app. lia.
  - destruct Hok as ([? _] & _). rewrite len_app, len_exactly by lia. rewrite len_cons, !len_app. lia.
  - destruct Hok as (_ & _ & [? _] & _). rewrite len_app, len_exactly by lia. rewrite len_cons, !len_app. lia.
Qed.

Lemma tight_fits ops :
  Forall op_ok ops -> Forall op_tight ops -> ops <> [] ->
  len (run_bits ops []) / 8 < len (concat (op_code <$> ops)).
Proof.
  assert (Hgen : forall ops bits c, Forall op_ok ops -> Forall op_tight ops -> len bits <= 8 * c ->
    len (run_bits ops bits) <= 8 * (c + len (concat (op_code <$> ops))) /\
    (ops <> [] -> len (run_bits ops bits) < 8 * (c + len (concat (op_code <$> ops))))).
  { intros l bits c Hok. revert bits c. induction Hok as [| op l Hop _ IH]; intros bits c Ht Hl.
    - cbn. split; [lia | done].
    - apply list.Forall_cons in Ht as [Ht Hts]. pose proof (op_room op bits c Hop Ht Hl) as Hr.
      destruct (IH (op_bits_after bits op) (c + len (op_code op)) Hts) as [H1 H2]; [lia |].
      cbn [run_bits foldl fmap list_fmap concat]. fold (run_bits l (op_bits_after bits op)). rewrite len_app.
      destruct l as [| op' l]; [cbn in *; lia |]. specialize (H2 ltac:(done)). lia. }
  intros Hok Ht Hne. destruct (Hgen ops [] 0 Hok Ht) as [_ H]; [cbn; lia |]. specialize (H Hne).
  apply Z.div_lt_upper_bound; lia.
Qed.
