(* ===== verification/AsnCorrect.v ===== *)
(** * Correctness of the ASN.1 functions

    The three functions of asn1_erl_nif.c that the VM calls, for any [Enif] that
    keeps the promises [EnifLaws]: BER values are decoded as X.690 has them, what
    is encoded is decoded to the same term, any input gets an answer; the PER
    instructions give their bits, as long as they do not ask for padding that is
    not counted. *)

From S2P Require Import Prelude Mem Enif Ber BerOk BerWrite Per PerOk PerRun.

(** ** BER *)

Section Ber.
Context `{EnifLaws}.

Definition ber_error (reason : list Z) (pos : Z) : term :=
  enif_make_tuple2 (enif_make_atom atom_error)
    (enif_make_tuple2 (enif_make_atom reason) (enif_make_int pos)).

Definition ber_reasons : list (list Z) :=
  [atom_invalid_tag; atom_invalid_length; atom_invalid_value].

Lemma error_term rc pos :
  rc ∈ [ASN1_TAG_ERROR; ASN1_LEN_ERROR; ASN1_INDEF_LEN_ERROR; ASN1_VALUE_ERROR] ->
  exists reason, reason ∈ ber_reasons /\ make_ber_error_term rc pos = ber_error reason pos.
Proof.
  unfold ber_reasons. intros Hrc. rewrite !elem_of_cons in Hrc.
  destruct Hrc as [-> | [-> | [-> | [-> | Hrc]]]]; [| | | | by apply not_elem_of_nil in Hrc].
  - exists atom_invalid_tag. split; [rewrite !elem_of_cons; tauto | done].
  - exists atom_invalid_length. split; [rewrite !elem_of_cons; tauto | done].
  - exists atom_invalid_length. split; [rewrite !elem_of_cons; tauto | done].
  - exists atom_invalid_value. split; [rewrite !elem_of_cons; tauto | done].
Qed.

Lemma decode_prefix t bs rest fuel :
  ber_read t bs -> len (bs ++ rest) < 2 ^ 31 -> (length bs <= fuel)%nat ->
  decode_ber_tlv_raw fuel (bs ++ rest)
  = Some (enif_make_tuple2 (term_of t) (enif_make_new_binary rest)).
Proof.
  intros Hb Hl Hf. unfold decode_ber_tlv_raw, ber_decode_begin.
  rewrite int32_small by (unfold is_int32; lia).
  erewrite bindB_ok.
  2: { apply (proj1 (decode_reads _)); [exact Hb | done | | rewrite len_app; lia | done].
       split; [lia |]. by exists [], rest. }
  rewrite len_app, Z.add_simpl_l. erewrite bindD_Some; [done |].
  apply load_bytes_at. split; [lia |]. exists bs, []. by rewrite app_nil_r.
Qed.

Lemma decode_any s fuel :
  Forall is_byte s -> len s < 2 ^ 31 - 3 -> (length s < fuel)%nat ->
  (exists t bs rest, s = bs ++ rest /\ ber_read t bs) \/
  (exists reason pos, reason ∈ ber_reasons /\ 0 <= pos <= len s /\
     decode_ber_tlv_raw fuel s = Some (ber_error reason pos)).
Proof.
  intros Hb Hl Hf. unfold decode_ber_tlv_raw, ber_decode_begin.
  rewrite int32_small by (unfold is_int32; lia).
  pose proof (decode_outcome _ s Hb fuel 0 ltac:(lia) ltac:(lia) Hl) as Ho.
  unfold element_ok, outcome in Ho. unfold bindB, bindD.
  destruct (ber_decode fuel (len s) 0 s) as [[rc i | i a] |]; [right | left | done].
  - destruct Ho as [Hrc Hi]. destruct (error_term rc i Hrc) as (reason & Hr & E).
    exists reason, i. split; [done |]. split; [done |]. cbn. by rewrite E.
  - destruct Ho as (bs & [_ (pre & post & E & Hp)] & _ & t & Ht & _).
    destruct pre; [| cbn in Hp; lia]. by exists t, bs, post.
Qed.

Lemma tag_enc_ok form tag tb : tag_enc form tag tb -> tag_ok tag.
Proof. unfold tag_ok. destruct 1; split; dlia. Qed.

(** What is read from bytes is well formed. *)
Lemma read_is_ok :
  (forall t bs, ber_read t bs -> Forall is_byte bs -> tlv_ok t) /\
  (forall n ts bs, read_upto n ts bs -> Forall is_byte bs -> Forall tlv_ok ts) /\
  (forall ts bs, read_indef ts bs -> Forall is_byte bs -> Forall tlv_ok ts).
Proof.
  apply ber_read_all_ind.
  - intros tag tb lb value Ht%tag_enc_ok _ [_ [_ Hv]%Forall_app]%Forall_app. by constructor.
  - intros tag tb lb n ts bs Ht%tag_enc_ok _ _ IH [_ [_ Hb]%Forall_app]%Forall_app. constructor; auto.
  - intros tag tb ts bs Ht%tag_enc_ok _ IH [_ [_ [Hb _]%Forall_app]%Forall_app]%Forall_app. constructor; auto.
  - intros. constructor.
  - intros n t ts b bs _ _ IHt _ IHts [? ?]%Forall_app. constructor; auto.
  - intros. constructor.
  - intros t ts b bs _ _ IHt _ IHts [? ?]%Forall_app. constructor; auto.
Qed.

Lemma no_error t rest reason pos :
  Some (enif_make_tuple2 (term_of t) (enif_make_new_binary rest)) <> Some (ber_error reason pos).
Proof.
  intros E. assert (Ht : term_of t = enif_make_atom atom_error).
  { assert (E' : enif_get_tuple (enif_make_tuple2 (term_of t) (enif_make_new_binary rest))
      = enif_get_tuple (ber_error reason pos)) by congruence.
    unfold ber_error in E'. rewrite !get_tuple2 in E'. congruence. }
  pose proof (atom_no_tuple atom_error) as Ha. rewrite <- Ht in Ha.
  destruct t; cbn [term_of] in Ha; by rewrite get_tuple2 in Ha.
Qed.

(** C24: every BER encoding of X.690 of a value with tag numbers below 16384, be the lengths
    short, long or not given, be there any bytes after it, is decoded to the
    term of the value, with the bytes after it; as much fuel as the encoding has
    bytes is enough, and no byte outside the input is read. *)
Theorem ber_decode_x690 t bs rest fuel :
  ber t bs -> len (bs ++ rest) < 2 ^ 31 -> (length bs <= fuel)%nat ->
  decode_ber_tlv_raw fuel (bs ++ rest)
  = Some (enif_make_tuple2 (term_of t) (enif_make_new_binary rest)).
Proof. intros Hb. apply decode_prefix. by apply ber_is_read. Qed.

(** C19: on any binary of fewer than 2^31 - 3 bytes the decoder returns, without an
    access outside it, either a term of the documented type, or an error that is one
    of three reasons with an index of the binary; the former exactly when the binary
    begins with an encoding that [ber_read] describes. On longer ones the sums of
    indices may overflow. *)
Theorem ber_decode_total s fuel :
  Forall is_byte s -> len s < 2 ^ 31 - 3 -> (length s < fuel)%nat ->
  (exists t bs rest, s = bs ++ rest /\ ber_read t bs /\ tlv_ok t /\
     decode_ber_tlv_raw fuel s = Some (enif_make_tuple2 (term_of t) (enif_make_new_binary rest))) \/
  ((forall t bs rest, s = bs ++ rest -> ~ ber_read t bs) /\
   exists reason pos, reason ∈ ber_reasons /\ 0 <= pos <= len s /\
     decode_ber_tlv_raw fuel s = Some (ber_error reason pos)).
Proof.
  intros Hb Hl Hf.
  destruct (decode_any s fuel Hb Hl Hf) as [(t & bs & rest & -> & Hr) | (reason & pos & Hreas & Hpos & E)].
  - left. exists t, bs, rest. apply Forall_app in Hb as [Hb _]. split; [done |]. split; [done |].
    split; [by eapply (proj1 read_is_ok) |]. apply decode_prefix; [done | lia |]. rewrite length_app in Hf. lia.
  - right. split; [| by exists reason, pos]. intros t bs rest -> Hr.
    rewrite (decode_prefix t bs rest) in E; [| done | lia | rewrite length_app in Hf; lia].
    by apply (no_error t rest reason pos).
Qed.

Section Encoding.
Context (enif_alloc enif_alloc_binary : Z -> option (list Z)).
Hypothesis alloc_length : forall n block, 0 <= n -> enif_alloc n = Some block -> len block = n.
Hypothesis alloc_binary_length : forall n block, 0 <= n -> enif_alloc_binary n = Some block -> len block = n.
Hypothesis alloc_works : forall n, 0 <= n -> is_Some (enif_alloc n).
Hypothesis alloc_binary_works : forall n, 0 <= n -> is_Some (enif_alloc_binary n).

(** C25: of the term of a value whose tag numbers are below 16384 and whose
    distinguished form has fewer than 2^28 octets, the encoder, which writes
    backwards into a chain of chunks, makes the binary of exactly these octets, with
    no store outside a chunk, if the allocations succeed. *)
Theorem ber_encode_octets t fuel :
  tlv_ok t -> len (ber_bytes t) < 2 ^ 28 -> (length (ber_bytes t) <= fuel)%nat ->
  encode_ber_tlv enif_alloc enif_alloc_binary fuel (term_of t)
  = Some (enif_make_new_binary (ber_bytes t)).
Proof.
  intros Ht Hl Hf.
  destruct (encode_ber_tlv_ok enif_alloc enif_alloc_binary t (len (ber_bytes t)) fuel) as [E | [_ (n & Hn & E)]];
    try (done || (by apply alloc_works) || (apply alloc_binary_works; lia)).
  destruct (alloc_works n) as [b Hb]; [lia | by rewrite Hb in E].
Qed.

(** C26: of the term of a value whose tag numbers are below 16384 and whose
    distinguished form has, with what follows, fewer than 2^28 octets, the decoder
    gives back the term that the encoder was given, and what follows it, if the
    allocations succeed. *)
Theorem ber_round_trip t rest fuel :
  tlv_ok t -> len (ber_bytes t ++ rest) < 2 ^ 28 -> (length (ber_bytes t) <= fuel)%nat ->
  exists b bs,
    encode_ber_tlv enif_alloc enif_alloc_binary fuel (term_of t) = Some b /\
    enif_inspect_binary b = Some bs /\
    decode_ber_tlv_raw fuel (bs ++ rest)
    = Some (enif_make_tuple2 (term_of t) (enif_make_new_binary rest)).
Proof.
  intros Ht Hl Hf. rewrite len_app in Hl.
  exists (enif_make_new_binary (ber_bytes t)), (ber_bytes t).
  split; [| split; [apply inspect_binary |]].
  - destruct (encode_ber_tlv_ok enif_alloc enif_alloc_binary t (len (ber_bytes t)) fuel) as [E | [_ (n & Hn & E)]];
      try (done || (by apply alloc_works) || (apply alloc_binary_works; lia) || lia).
    destruct (alloc_works n) as [b Hb]; [lia | by rewrite Hb in E].
  - apply decode_prefix; [apply ber_is_read, ber_bytes_ber; [done | lia] | rewrite len_app; lia | done].
Qed.
End Encoding.
End Ber.

(** ** Concrete terms and memory *)

Definition sample_alloc (n : Z) : option (list Z) := Some (repeat 170 (Z.to_nat n)).
Definition sample_realloc (block : list Z) (n : Z) : option (list Z) :=
  Some (take (Z.to_nat n) block ++ repeat 170 (Z.to_nat (n - len block))).

Lemma sample_alloc_length n block : 0 <= n -> sample_alloc n = Some block -> len block = n.
Proof. intros Hn [= <-]. rewrite repeat_length. lia. Qed.

Lemma sample_alloc_works n : 0 <= n -> is_Some (sample_alloc n).
Proof. by eexists. Qed.

Lemma sample_realloc_ok : realloc_ok sample_realloc.
Proof.
  intros block n block' Hn [= <-]. rewrite len_app, length_take, repeat_length.
  split; [lia |]. destruct (decide (n <= len block)).
  - rewrite Z.min_l by done. rewrite take_app_le by (rewrite length_take; lia). by rewrite take_take, Nat.min_id.
  - rewrite Z.min_r, Nat2Z.id by lia. rewrite take_app_le by (rewrite length_take; lia).
    rewrite take_take. f_equal. lia.
Qed.

(** A sequence of an octet string with a tag of two bytes and of an empty
    sequence. *)
Definition sample_tlv : tlv :=
  tlv_cons 16 [tlv_prim (2 * 65536 + 300) [1; 2; 3]; tlv_cons 49 []].

(** The same with the lengths in other forms. *)
Definition sample_ber : list Z :=
  [0x30; 0x80; 0x9f; 0x82; 0x2c; 0x82; 0; 3; 1; 2; 3; 0x3f; 49; 0x81; 0; 0; 0].

Lemma sample_ok : tlv_ok sample_tlv.
Proof.
  unfold sample_tlv. constructor; [split; dlia |]. constructor; [| constructor; [| constructor]].
  - constructor; [split; dlia |]. repeat constructor; lia.
  - constructor; [split; dlia | constructor].
Qed.

Lemma sample_ber_ok : ber sample_tlv sample_ber.
Proof.
  change sample_ber with ([64 * 0 + 32 + 16] ++ [0x80] ++
    ((([64 * 2 + 0 + 31; 128 + 2; 44] ++ (128 + len [0; 3] :: [0; 3]) ++ [1; 2; 3]) ++
      ([64 * 0 + 32 + 31; 49] ++ (128 + len [0] :: [0]) ++ []) ++ [])) ++ [0; 0]).
  apply (ber_cons_indef (65536 * 0 + 16)); [apply tag_enc_short; lia | | by repeat constructor].
  constructor; [| constructor; [| constructor]].
  - apply (ber_prim (65536 * 2 + (128 * 2 + 44))); [apply tag_enc_two; lia |].
    change (len [1; 2; 3]) with (be_from 0 [0; 3]). apply length_enc_long; [repeat constructor; lia | cbn; lia].
  - apply (ber_cons (65536 * 0 + 49)); [apply tag_enc_one; lia | | constructor].
    change (len []) with (be_from 0 [0]). apply length_enc_long; [repeat constructor; lia | cbn; lia].
Qed.

Lemma ber_decode_x690_witness :
  decode_ber_tlv_raw 100 (sample_ber ++ [7; 7])
  = Some (e_tuple [term_of sample_tlv; e_binary [7; 7]]).
Proof. apply (@ber_decode_x690 tree_enif tree_laws sample_tlv sample_ber [7; 7] 100 sample_ber_ok); [reflexivity | vm_compute; lia]. Defined.

Lemma ber_decode_total_witness :
  exists r, decode_ber_tlv_raw 6 [0x30; 3; 4; 7; 0] = Some r.
Proof.
  destruct (@ber_decode_total tree_enif tree_laws [0x30; 3; 4; 7; 0] 6) as [(t & bs & rest & _ & _ & _ & E) | (_ & reason & pos & _ & _ & E)];
    [repeat constructor; lia | reflexivity | cbn; lia | eexists; exact E ..].
Defined.

Lemma ber_encode_octets_witness :
  encode_ber_tlv sample_alloc sample_alloc 100 (term_of sample_tlv)
  = Some (e_binary [0x30; 10; 0x9f; 0x82; 0x2c; 3; 1; 2; 3; 0x3f; 49; 0]).
Proof.
  apply (@ber_encode_octets tree_enif tree_laws sample_alloc sample_alloc sample_alloc_length sample_alloc_length
    sample_alloc_works sample_alloc_works sample_tlv 100 sample_ok); [reflexivity | vm_compute; lia].
Defined.

Lemma ber_round_trip_witness :
  exists b bs, encode_ber_tlv sample_alloc sample_alloc 100 (term_of sample_tlv) = Some b /\
    enif_inspect_binary b = Some bs /\
    decode_ber_tlv_raw 100 (bs ++ [5]) = Some (e_tuple [term_of sample_tlv; e_binary [5]]).
Proof.
  apply (@ber_round_trip tree_enif tree_laws sample_alloc sample_alloc sample_alloc_length sample_alloc_length
    sample_alloc_works sample_alloc_works sample_tlv [5] 100 sample_ok); [reflexivity | vm_compute; lia].
Defined.

(** ** Where BER goes wrong *)

(** An element may go on after the end of the sequence that it is in: the
    sequence has two bytes, its element seven. *)
Lemma ber_element_overruns :
  decode_ber_tlv_raw 20 [0x30; 2; 4; 5; 1; 2; 3; 4; 5]
  = Some (e_tuple [term_of (tlv_cons 16 [tlv_prim 4 [1; 2; 3; 4; 5]]); e_binary []]).
Proof. reflexivity. Qed.

(** The byte of an empty list is stored without a look at the room: a tag of
    four bytes, where three were made sure of, has used up the first chunk. *)
Lemma ber_empty_list_underflow :
  encode_ber_tlv sample_alloc sample_alloc 100
    (term_of (tlv_cons 16 [tlv_cons 1 []; tlv_prim 16384 (repeat 0 35)])) = None.
Proof. reflexivity. Qed.

(** The encoder takes tag numbers that the decoder refuses. *)
Lemma ber_long_tag_refused :
  exists b, encode_ber_tlv sample_alloc sample_alloc 100 (term_of (tlv_prim 16384 [])) = Some (e_binary b) /\
    decode_ber_tlv_raw 100 b = Some (ber_error atom_invalid_tag 2).
Proof. by eexists. Qed.

(** ** PER *)

Section Per.
Context `{Enif} (enif_alloc_binary : Z -> option (list Z))
  (enif_realloc_binary : list Z -> Z -> option (list Z)).
Hypothesis alloc_binary_length : forall n block, 0 <= n -> enif_alloc_binary n = Some block -> len block = n.
Hypothesis alloc_binary_works : forall n, 0 <= n -> is_Some (enif_alloc_binary n).
Hypothesis realloc_promise : realloc_ok enif_realloc_binary.
Hypothesis realloc_works : forall block n, is_Some (enif_realloc_binary block n).

Lemma complete_octets ops :
  Forall op_ok ops -> ops <> [] -> len (concat (op_code <$> ops)) < 2 ^ 31 ->
  len (run_bits ops []) / 8 < len (concat (op_code <$> ops)) ->
  encode_per_complete enif_alloc_binary enif_realloc_binary (concat (op_code <$> ops))
  = Some (enif_make_new_binary (per_octets (run_bits ops []))).
Proof.
  intros Hok Hne Hl Hfit. set (inb := concat (op_code <$> ops)) in *.
  assert (Hin : 0 < len inb).
  { unfold inb. destruct ops as [| op ops]; [done |]. cbn [fmap list_fmap concat].
    destruct (op_code_cons op) as (c & r & ->). cbn. lia. }
  unfold encode_per_complete. destruct (alloc_binary_works (len inb)) as [block Eb]; [lia |].
  rewrite Eb. apply alloc_binary_length in Eb; [| lia].
  rewrite (proj2 (Z.eqb_neq _ _)), int32_small by (unfold is_int32; lia).
  destruct (per_complete_ok inb enif_realloc_binary realloc_promise ops block Hok eq_refl Eb Hin Hfit) as
    [(block' & -> & Hlb & Ht) | (_ & _ & b & n & E)]; [| by destruct (realloc_works b n) as [? Hs]; rewrite Hs in E].
  cbn [mbind option_bind]. set (octs := per_octets (run_bits ops [])) in *.
  rewrite (proj2 (Z.leb_gt _ _)) by (unfold ASN1_ERROR; lia). do 2 f_equal.
  destruct (Z.ltb_spec (len octs) (len block')) as [Hlt | Hge].
  - destruct (realloc_works block' (len octs)) as [b Hb]. rewrite Hb. cbn [default].
    apply realloc_promise in Hb as [Hlen Htk]; [| lia]. rewrite Z.min_l, Nat2Z.id, Ht in Htk by lia.
    cbn. rewrite <- Htk. symmetry. apply take_ge. lia.
  - rewrite <- Ht . symmetry. apply take_ge. lia.
Qed.

(** C20: [per_complete] makes exactly the bits of the instructions, in order, into
    octets, if the instructions are well-formed and their bits are not more than the
    bytes of the input; memory that has been moved meanwhile keeps them. Well-formed
    ([op_ok]): lengths that fit in their one or two bytes; a field of at most 8 bits
    that holds its value; unused bits that are fewer than 8 and zero; booleans of 0
    or 1; a bit string of whole bytes with no fewer bits than all of them, or less
    than a byte fewer and the rest of the last byte zero; at least one instruction,
    fewer than 2^31 bytes, and allocations that succeed. *)
Theorem per_complete_octets ops :
  Forall op_ok ops -> ops <> [] -> len (concat (op_code <$> ops)) < 2 ^ 31 ->
  len (run_bits ops []) / 8 < len (concat (op_code <$> ops)) ->
  encode_per_complete enif_alloc_binary enif_realloc_binary (concat (op_code <$> ops))
  = Some (enif_make_new_binary (per_octets (run_bits ops []))).
Proof. apply complete_octets. Qed.

(** Instructions that ask for no padding always fit: the output is never
    written outside the memory that was allocated for as many bytes as the
    input has. *)
Theorem per_without_padding_fits ops :
  Forall op_ok ops -> Forall op_tight ops -> ops <> [] -> len (concat (op_code <$> ops)) < 2 ^ 31 ->
  encode_per_complete enif_alloc_binary enif_realloc_binary (concat (op_code <$> ops))
  = Some (enif_make_new_binary (per_octets (run_bits ops []))).
Proof. intros Hok Ht Hne Hl. apply complete_octets; try done. by apply tight_fits. Qed.
End Per.

Definition sample_ops : list per_op :=
  [op_bit true; op_bits 3 5; op_octets false [17; 34]; op_bit true; op_bit_octets false 3 [255; 248];
   op_bit_string false false 20 [255; 255; 240]; op_bools true false 3 [1; 0; 1; 1]].

Ltac ops_ok := repeat (apply Forall_cons_2;
  [cbn; repeat split; try lia; try done; try (repeat constructor; unfold is_byte; lia) |]).

Lemma sample_ops_ok : Forall op_ok sample_ops.
Proof.
  unfold sample_ops. ops_ok; [| | constructor].
  - right. by exists [255], 248.
  - right. by exists [255; 255], 240.
Qed.

Lemma per_complete_octets_witness :
  encode_per_complete sample_alloc sample_realloc
    (concat (op_code <$> (sample_ops ++ [op_bools false true 40 [1]])))
  = Some (e_binary [0xd0; 17; 34; 255; 255; 255; 255; 0xec; 0; 0; 0; 0; 0]).
Proof.
  apply (@per_complete_octets tree_enif sample_alloc sample_realloc sample_alloc_length sample_alloc_works
    sample_realloc_ok (fun b n => ex_intro _ _ eq_refl) (sample_ops ++ [op_bools false true 40 [1]]));
    [| done | reflexivity | reflexivity].
  apply Forall_app. split; [exact sample_ops_ok |]. ops_ok. constructor.
Defined.

Lemma per_without_padding_fits_witness :
  encode_per_complete sample_alloc sample_realloc (concat (op_code <$> sample_ops))
  = Some (e_binary [0xd0; 17; 34; 255; 255; 255; 255; 0xe8]).
Proof.
  apply (@per_without_padding_fits tree_enif sample_alloc sample_realloc sample_alloc_length sample_alloc_works
    sample_realloc_ok (fun b n => ex_intro _ _ eq_refl) sample_ops sample_ops_ok);
    [| done | reflexivity].
  unfold sample_ops, op_tight. repeat constructor; cbn; lia.
Defined.

(** ** Where PER goes wrong *)

(** What the copying of octets uses is not taken off [buf_space], so the memory for
    padding is thought to be there when it is not: 239 zeros after 100 octets
    are stored outside the output. *)
Lemma per_padding_overflows :
  Forall op_ok [op_octets false (repeat 7 100); op_bit_string false false 255 [1]] /\
  encode_per_complete sample_alloc sample_realloc
    (concat (op_code <$> [op_octets false (repeat 7 100); op_bit_string false false 255 [1]])) = None.
Proof.
  split; [| reflexivity]. ops_ok. constructor.
Qed.

(** An instruction at the end of the input without its operands is read
    outside of it. *)
Lemma per_short_input_read_outside : encode_per_complete sample_alloc sample_realloc [10] = None.
Proof. reflexivity. Qed.
