(* ===== verification/Prime.v ===== *)
(** * hash_isprime.c: the factoring routine and the size of a table

    [factor] keeps its place in two static variables; [ei_isprime] starts it
    anew. [grow_to_prime] is the loop of [ei_hash_newtab] and
    [ei_hash_resize]. *)

From S2P Require Import Prelude.
#[local] Set Warnings "-deprecated-reference,-deprecated-reference-since-Stdlib-9.1".
From Stdlib Require Import Znumtheory.

(** ** The code *)

(** [static int m, d]. *)
Record factor_state := FactorState { fs_m : Z; fs_d : Z }.
Definition factor_init : factor_state := FactorState 0 0.

(** [static int a[] = { 0, 4, 1, 2, 0, 2 };] indexed by [d % 6]. *)
Definition wheel : list Z := [0; 4; 1; 2; 0; 2].
Definition wheel_at (d : Z) : Z := nth (Z.to_nat (Z.rem d 6)) wheel 0.

(** [d*d] is an [int] product: beyond [INT_MAX] it is undefined. The fuel
    counts rounds of the loop. *)
Fixpoint factor_loop (fuel : nat) (m d : Z) : option (Z * factor_state) :=
  match fuel with
  | O => None
  | S fuel =>
      if int_max <? d * d then None
      else if d * d <=? m then
        if Z.rem m d =? 0 then Some (d, FactorState (Z.quot m d) d)
        else factor_loop fuel m (d + wheel_at d)
      else Some (m, FactorState 0 d)
  end.

Definition factor (fuel : nat) (n : Z) (st : factor_state) : option (Z * factor_state) :=
  let st := if negb (n =? 0) then FactorState n 2 else st in
  factor_loop fuel (fs_m st) (fs_d st).

Definition ei_isprime (fuel : nat) (n : Z) (st : factor_state) : option (bool * factor_state) :=
  match factor fuel n st with
  | Some (f, st) => Some (n =? f, st)
  | None => None
  end.

(** [n |= 0x1; while (!ei_isprime(n)) n += 2;]; each test has the fuel
    [fuel_p]. *)
Fixpoint next_prime (fuel fuel_p : nat) (n : Z) : option Z :=
  match fuel with
  | O => None
  | S fuel =>
      match ei_isprime fuel_p n factor_init with
      | None => None
      | Some (true, _) => Some n
      | Some (false, _) => if int_max <? n + 2 then None else next_prime fuel fuel_p (n + 2)
      end
  end.

Definition grow_to_prime (fuel fuel_p : nat) (n : Z) : option Z :=
  next_prime fuel fuel_p (Z.lor n 1).

(** ** [factor] finds the least factor *)

(** Where the loop stands: every divisor of [m] but 1 is at least [d], and [d]
    is on the wheel. *)
Definition no_smaller (m d : Z) : Prop := forall k, 2 <= k < d -> ~ (k | m).
Definition on_wheel (d : Z) : Prop :=
  d = 2 \/ d = 3 \/ (5 <= d /\ (d mod 6 = 1 \/ d mod 6 = 5)).

Lemma wheel_at_5 d : 5 <= d ->
  (d mod 6 = 1 -> wheel_at d = 4) /\ (d mod 6 = 5 -> wheel_at d = 2).
Proof.
  intros Hd. unfold wheel_at. rewrite Z.rem_mod_nonneg by lia. by split; intros ->.
Qed.

Lemma not_multiple m d k c : no_smaller m d -> 2 <= c < d -> (c | k) -> ~ (k | m).
Proof. intros Hs Hc Hck Hkm. apply (Hs c Hc). by eapply Z.divide_trans. Qed.

Lemma wheel_step m d :
  on_wheel d -> no_smaller m d -> ~ (d | m) ->
  on_wheel (d + wheel_at d) /\ no_smaller m (d + wheel_at d) /\ d < d + wheel_at d <= d + 4.
Proof.
  intros Hw Hs Hd.
  assert (Hext : forall e, d <= e -> (forall k, d < k < e -> exists c, 2 <= c < d /\ (c | k)) ->
    no_smaller m e).
  { intros e He Hc k Hk Hkm. destruct (decide (k < d)); [by apply (Hs k); [lia |] |].
    destruct (decide (k = d)) as [-> |]; [done |].
    destruct (Hc k) as (c & ? & ?); [lia |]. by apply (not_multiple m d k c Hs). }
  destruct Hw as [-> | [-> | (H5 & [H1 | H1])]].
  - change (wheel_at 2) with 1. split; [by right; left |].
    split; [apply Hext; [lia |]; intros; lia | lia].
  - change (wheel_at 3) with 2. split; [right; right; split; [lia | by right] |].
    split; [| lia]. apply Hext; [lia |]. intros k Hk. exists 2. split; [lia |].
    exists 2. lia.
  - rewrite (proj1 (wheel_at_5 d H5) H1).
    split; [right; right; split; [lia |]; right; dlia |]. split; [| lia].
    apply Hext; [lia |]. intros k Hk.
    assert (k = d + 1 \/ k = d + 2 \/ k = d + 3) as [-> | [-> | ->]] by lia.
    + exists 2. split; [lia |]. exists ((d + 1) / 2). dlia.
    + exists 3. split; [lia |]. exists ((d + 2) / 3). dlia.
    + exists 2. split; [lia |]. exists ((d + 3) / 2). dlia.
  - rewrite (proj2 (wheel_at_5 d H5) H1).
    split; [right; right; split; [lia |]; left; dlia |]. split; [| lia].
    apply Hext; [lia |]. intros k Hk. assert (k = d + 1) as -> by lia.
    exists 2. split; [lia |]. exists ((d + 1) / 2). dlia.
Qed.

Lemma least_is_prime m d : 2 <= d -> (d | m) -> no_smaller m d -> prime d.
Proof.
  intros Hd Hdm Hs. destruct (prime_dec d) as [| Hn]; [done |]. exfalso.
  destruct (not_prime_divide d) as (k & Hk & Hkd); [lia | done |].
  apply (Hs k); [lia |]. by eapply Z.divide_trans.
Qed.

Lemma no_factor_prime m d : 2 <= m -> m < d * d -> 2 <= d -> no_smaller m d -> prime m.
Proof.
  intros Hm Hlt Hd Hs. destruct (prime_dec m) as [| Hn]; [done |]. exfalso.
  destruct (not_prime_divide m) as (k & Hk & [q Hq]); [lia | done |].
  destruct (decide (k < d)) as [Hkd | Hkd]; [apply (Hs k); [lia |]; by exists q |].
  apply (Hs q); [| exists k; lia]. nia.
Qed.

(** The largest number all of whose trial divisors have an [int] square: the
    wheel passes 46339, and the next divisor, 46343, is too large. *)
Definition max_factored : Z := 46339 * 46339 - 1.
Definition enough : nat := Z.to_nat 46340.

Lemma wheel_bound d : on_wheel d -> d < 46339 -> on_wheel (d + wheel_at d) ->
  d + wheel_at d <= d + 4 -> d + wheel_at d <= 46339.
Proof. unfold on_wheel. intros Hw Hd Hn Hle. dlia. Qed.

Lemma factor_loop_ok fuel : forall m d,
  2 <= m <= max_factored -> on_wheel d -> no_smaller m d -> d <= 46339 ->
  46340 - d <= Z.of_nat fuel ->
  exists r st, factor_loop fuel m d = Some (r, st) /\ prime r /\ (r | m) /\ no_smaller m r /\
    d <= r /\
    ((r * r <= m /\ st = FactorState (m / r) r /\ on_wheel r) \/ (r = m /\ fs_m st = 0)).
Proof.
  unfold max_factored, int_max.
  induction fuel as [| fuel IH]; intros m d Hm Hw Hs Hd Hf; [lia |].
  assert (H2 : 2 <= d) by (unfold on_wheel in Hw; lia).
  cbn [factor_loop]. unfold int_max. rewrite (proj2 (Z.ltb_ge _ _)) by nia.
  destruct (Z.leb_spec (d * d) m) as [Hle | Hgt].
  - rewrite Z.rem_mod_nonneg by lia. destruct (Z.eqb_spec (m mod d) 0) as [E | E].
    + apply Z.mod_divide in E; [| lia]. exists d, (FactorState (Z.quot m d) d).
      split; [done |]. split; [by apply (least_is_prime m) |].
      split; [done |]. split; [done |]. split; [lia |]. left.
      rewrite Z.quot_div_nonneg by lia. done.
    + assert (Hnd : ~ (d | m)) by (intros Hdm; apply E, Z.mod_divide; [lia | done]).
      destruct (wheel_step m d Hw Hs Hnd) as (Hw' & Hs' & Hlt).
      assert (d < 46339) by nia.
      assert (d + wheel_at d <= 46339) by (apply wheel_bound; (done || lia)).
      destruct (IH m (d + wheel_at d)) as (r & st & Hr & Hpr & Hdr & Hsr & Hle' & Hst);
        [done.. | lia |]. exists r, st. do 4 (split; [done |]). split; [lia | done].
  - exists m, (FactorState 0 d). split; [done |].
    assert (prime m) as Hp by (apply (no_factor_prime m d); done || lia).
    split; [done |]. split; [exists 1; lia |].
    assert (Hmd : d <= m).
    { destruct (decide (m < d)); [| lia]. exfalso. apply (Hs m); [lia | exists 1; lia]. }
    split; [| split; [done | by right]].
    intros k Hk Hkm. destruct (decide (k < d)); [apply (Hs k); [lia | done] |].
    destruct (prime_divisors m Hp k Hkm) as [? | [? | [? | ?]]]; lia.
Qed.

(** ** [ei_isprime] *)

Lemma isprime_ok n st : 2 <= n <= max_factored ->
  exists st', ei_isprime enough n st = Some (if prime_dec n then true else false, st').
Proof.
  intros Hn. unfold ei_isprime, factor. rewrite (proj2 (Z.eqb_neq n 0)) by lia.
  cbn [negb fs_m fs_d].
  destruct (factor_loop_ok enough n 2) as (r & st' & -> & Hp & Hd & Hs & H2 & _);
    [done | by left | intros k Hk; lia | lia | unfold enough; lia |].
  exists st'. do 2 f_equal. pose proof (prime_ge_2 r Hp). destruct (prime_dec n) as [Hpn | Hn'].
  - destruct (prime_divisors n Hpn r Hd) as [? | [? | [? | ?]]]; try lia.
  - apply Z.eqb_neq. by intros ->.
Qed.

Lemma isprime_1 fuel st : ei_isprime (S fuel) 1 st = Some (true, FactorState 0 2).
Proof. done. Qed.

(** ** The size of a table *)

Definition largest_size : Z := 2147302891.

Lemma next_prime_ok fuel : forall n p,
  2 <= n -> Z.odd n = true -> prime p -> Z.odd p = true -> n <= p <= max_factored ->
  p - n < 2 * Z.of_nat fuel ->
  exists q, next_prime fuel enough n = Some q /\ prime q /\ n <= q <= p /\
    forall k, n <= k < q -> Z.odd k = true -> ~ prime k.
Proof.
  induction fuel as [| fuel IH]; intros n p Hn Ho Hp Hop Hle Hf; [lia |].
  cbn [next_prime]. destruct (isprime_ok n factor_init) as [st ->]; [lia |].
  destruct (prime_dec n) as [Hpn | Hpn].
  - exists n. split; [done |]. split; [done |]. split; [lia |]. lia.
  - assert (n <> p) by (by intros ->).
    assert (n + 2 <= p).
    { destruct (decide (p = n + 1)) as [-> |]; [| lia].
      rewrite Z.odd_add, Ho in Hop. done. }
    unfold max_factored, int_max in *. rewrite (proj2 (Z.ltb_ge _ _)) by lia.
    destruct (IH (n + 2) p) as (q & Hq & Hpq & Hr & Hk);
      [lia | by rewrite Z.odd_add, Ho | done | done | lia | lia |].
    exists q. split; [done |]. split; [done |]. split; [lia |].
    intros k Hkr Hko. destruct (decide (k = n)) as [-> |]; [done |].
    destruct (decide (k = n + 1)) as [-> |]; [rewrite Z.odd_add, Ho in Hko; done |].
    apply Hk; [lia | done].
Qed.

Lemma next_prime_odd fuel : forall fp n q,
  Z.odd n = true -> next_prime fuel fp n = Some q -> Z.odd q = true.
Proof.
  induction fuel as [| fuel IH]; intros fp n q Ho; cbn [next_prime]; [done |].
  destruct (ei_isprime fp n factor_init) as [[[] st] |]; [by intros [= <-] | | done].
  destruct (int_max <? n + 2); [done |]. apply IH. by rewrite Z.odd_add, Ho.
Qed.

Lemma largest_size_prime : prime largest_size.
Proof.
  destruct (isprime_ok largest_size factor_init) as [st Hst];
    [unfold largest_size, max_factored; lia |].
  assert (Hc : ei_isprime enough largest_size factor_init
    = Some (true, FactorState 0 46339)) by (vm_compute; reflexivity).
  rewrite Hc in Hst. clear Hc. destruct (prime_dec largest_size); [assumption | discriminate Hst].
Qed.

Lemma lor_1 n : 0 <= n -> Z.lor n 1 = if Z.odd n then n else n + 1.
Proof.
  intros Hn. destruct (Z.odd n) eqn:Ho.
  - apply Z.bits_inj'. intros i Hi. rewrite Z.lor_spec.
    destruct (decide (i = 0)) as [-> |]; [by rewrite Z.bit0_odd, Ho |].
    change 1 with (2 ^ 0). rewrite Z.pow2_bits_false by lia. by rewrite orb_false_r.
  - rewrite (lor_add 1); [done | lia | | by simpl].
    rewrite Zmod_odd, Ho. done.
Qed.

Lemma lor_1_odd n : 0 <= n -> Z.odd (Z.lor n 1) = true /\ n <= Z.lor n 1 <= n + 1.
Proof.
  intros Hn. rewrite lor_1 by done. destruct (Z.odd n) eqn:E.
  - split; [done | lia].
  - rewrite Z.odd_add, E. split; [done | lia].
Qed.

(** For every size up to [largest_size] the loop ends, at the least odd prime
    not below it (1 counts as one), and no [int] overflows on the way. *)
Lemma grow_to_prime_ok n fuel :
  1 <= n <= largest_size -> largest_size - n < 2 * Z.of_nat fuel ->
  exists q, grow_to_prime fuel enough n = Some q /\ n <= q <= largest_size /\
    Z.odd q = true /\ (q = 1 \/ prime q) /\
    forall k, n <= k < q -> Z.odd k = true -> ~ prime k.
Proof.
  unfold grow_to_prime. intros Hn Hf. destruct (decide (n = 1)) as [-> | Hne].
  - exists 1. destruct fuel as [| fuel]; [lia |]. split; [reflexivity |].
    split; [lia |]. split; [done |]. split; [by left | lia].
  - destruct (lor_1_odd n) as [Ho Hr]; [lia |].
    assert (Hle : Z.lor n 1 <= largest_size).
    { destruct (decide (n = largest_size)) as [-> |]; [vm_compute; discriminate | lia]. }
    destruct (next_prime_ok fuel (Z.lor n 1) largest_size) as (q & Hq & Hp & Hqr & Hk);
      [lia | done | apply largest_size_prime | done
      | unfold largest_size, max_factored in *; lia | lia |].
    assert (2 <= q) by (apply prime_ge_2 in Hp; lia).
    exists q. split; [done |]. split; [lia |]. split; [| split; [by right |]].
    + by eapply next_prime_odd.
    + intros k Hkr Hko. apply Hk; [| done]. rewrite lor_1 in * by lia.
      destruct (Z.odd n) eqn:E; [lia |].
      assert (k <> n) by (intros ->; congruence). lia.
Qed.

(** ** One prime factor for each call *)

(** [factor(n)], then [factor(0)] until the number is used up. *)
Fixpoint factor_calls (k : nat) (n : Z) (st : factor_state) : option (list Z) :=
  match k with
  | O => None
  | S k =>
      match factor enough n st with
      | None => None
      | Some (f, st) =>
          if fs_m st =? 0 then Some [f]
          else match factor_calls k 0 st with
               | None => None
               | Some fs => Some (f :: fs)
               end
      end
  end.

Definition product (l : list Z) : Z := foldr Z.mul 1 l.

Lemma factor_calls_ok k : forall n st,
  let m := if n =? 0 then fs_m st else n in
  let d := if n =? 0 then fs_d st else 2 in
  2 <= m <= max_factored -> m < 2 ^ Z.of_nat k ->
  on_wheel d -> no_smaller m d -> d <= 46339 ->
  exists l, factor_calls k n st = Some l /\ Forall prime l /\ product l = m.
Proof.
  induction k as [| k IH]; intros n st m d Hm Hk Hw Hs Hd;
    [change (2 ^ Z.of_nat 0) with 1 in Hk; lia |].
  cbn [factor_calls]. unfold factor.
  assert (Hst : factor_loop enough m d = factor_loop enough
    (fs_m (if negb (n =? 0) then FactorState n 2 else st))
    (fs_d (if negb (n =? 0) then FactorState n 2 else st)))
    by (unfold m, d; by destruct (n =? 0)).
  rewrite <- Hst. assert (2 <= d) by (unfold on_wheel in Hw; lia).
  destruct (factor_loop_ok enough m d) as (r & st' & -> & Hp & Hdv & Hsr & Hdr & Hc);
    [done.. | unfold enough; lia |].
  destruct Hc as [(Hrr & -> & Hwr) | [-> Hz]].
  - destruct Hdv as [q Hq]. cbn [fs_m].
    assert (Hqm : m / r = q) by (rewrite Hq; apply Z.div_mul; lia).
    assert (2 <= r) by (by apply prime_ge_2). assert (r <= q) by nia.
    rewrite Hqm, (proj2 (Z.eqb_neq _ _)) by lia.
    rewrite Nat2Z.inj_succ, Z.pow_succ_r in Hk by lia.
    destruct (IH 0 (FactorState q r)) as (l & -> & Hl & Hpl);
      cbn [Z.eqb fs_m fs_d]; [nia | nia | done | | unfold max_factored in *; nia |].
    + intros j Hj [c Hc]. apply (Hsr j Hj). exists (c * r). rewrite Hq, Hc. ring.
    + exists (r :: l). split; [done |]. split; [by constructor |].
      cbn [product foldr] in *. unfold product in Hpl. rewrite Hpl, Hq. cbn [Z.eqb fs_m]. ring.
  - rewrite Hz. exists [m]. split; [done |]. split; [by constructor |].
    cbn [product foldr]. ring.
Qed.
