(* ===== verification/Hash.v ===== *)
(** * The hash table of the registry: hash_*.c

    Chained buckets in an array of prime size. A chain is the list of its
    buckets, which belong to that chain only; the freelist holds the buckets
    that can be used again. A value is a pointer: a [Z], 0 for NULL. A key is a
    C string: its bytes up to the first zero. An operation that would index
    outside the array is undefined, [None]. *)

From S2P Require Import Prelude Ext Prime.
From stdpp Require Import gmap fin_maps.
#[local] Open Scope Z_scope.

(** ** Buckets and tables *)

Definition EI_SMALLKEY : Z := 32.

(** [small] is [key == keybuf]: the key is stored in the bucket itself. *)
Record ei_bucket := Bucket { rawhash : Z; key : list Z; small : bool; value : Z }.

Record ei_hash := Hash
  { tab : list (list ei_bucket); hash : list Z -> Z; size : Z; nelem : Z; npos : Z;
    freelist : list ei_bucket }.

(** [!strcmp(a, b)] *)
Definition strcmp_eq (a b : list Z) : bool := bool_decide (c_str a = c_str b).

(** [*s] is a [char], signed. *)
Definition schar (c : Z) : Z := if c <? 128 then c else c - 256.

Fixpoint dohash_loop (h : Z) (s : list Z) : Z :=
  match s with
  | [] => h
  | c :: s =>
      if c =? 0 then h else
      let h := uint32 (Z.shiftl h 4 + schar c) in
      let g := Z.land h 0xf0000000 in
      let h := if negb (g =? 0) then
                 let h := Z.lxor h (Z.shiftr g 24) in Z.lxor h g
               else h in
      dohash_loop h s
  end.

Definition ei_dohash (key : list Z) : Z := int32 (dohash_loop 0 key).

(** [h = rh % tab->size; b = tab->tab[h];] *)
Definition slot (t : ei_hash) (rh : Z) : nat := Z.to_nat (Z.rem rh (size t)).
Definition chain_of (t : ei_hash) (rh : Z) : option (list ei_bucket) :=
  if (size t =? 0) || (Z.rem rh (size t) <? 0) then None else tab t !! slot t rh.

Definition set_chain (t : ei_hash) (rh : Z) (c : list ei_bucket) (nelem npos : Z)
    (free : list ei_bucket) : ei_hash :=
  Hash (<[slot t rh := c]> (tab t)) (hash t) (size t) nelem npos free.

(** ** Lookup *)

(** [(rh == b->rawhash) && !strcmp(key, b->key)] *)
Definition is_key (rh : Z) (k : list Z) (b : ei_bucket) : bool :=
  (rh =? rawhash b) && strcmp_eq k (key b).

Fixpoint chain_find (rh : Z) (k : list Z) (c : list ei_bucket) : option ei_bucket :=
  match c with
  | [] => None
  | b :: c => if is_key rh k b then Some b else chain_find rh k c
  end.

Definition ei_hash_lookup (t : ei_hash) (k : list Z) : option Z :=
  let rh := hash t k in
  match chain_of t rh with
  | None => None
  | Some c => match chain_find rh k c with Some b => Some (value b) | None => Some 0 end
  end.

(** ** Insertion *)

(** A bucket from the freelist, or from [malloc], which gives one if [mem]. *)
Definition ei_hash_bmalloc (mem : bool) (free : list ei_bucket) : bool * list ei_bucket :=
  match free with
  | _ :: free => (true, free)
  | [] => (mem, [])
  end.

(** [b->value = value] in the first bucket with the key. *)
Fixpoint chain_set (rh : Z) (k : list Z) (v : Z) (c : list ei_bucket) : list ei_bucket :=
  match c with
  | [] => []
  | b :: c =>
      if is_key rh k b then Bucket (rawhash b) (key b) (small b) v :: c
      else b :: chain_set rh k v c
  end.

Definition ei_hash_insert (mem : bool) (t : ei_hash) (k : list Z) (v : Z)
    : option (Z * ei_hash) :=
  let rh := hash t k in
  match chain_of t rh with
  | None => None
  | Some c =>
      match chain_find rh k c with
      | Some b =>
          Some (value b, set_chain t rh (chain_set rh k v c) (nelem t) (npos t) (freelist t))
      | None =>
          let keylen := strlen k in
          let small := keylen <? EI_SMALLKEY in
          let (got, free) :=
            if small then ei_hash_bmalloc mem (freelist t) else (mem, freelist t) in
          if negb got then Some (0, t) else
          let b := Bucket rh (c_str k) small v in
          let npos := match c with [] => npos t + 1 | _ => npos t end in
          Some (0, set_chain t rh (b :: c) (nelem t + 1) npos free)
      end
  end.

(** ** Removal *)

(** Buckets with short keys are kept for reuse. *)
Definition ei_hash_bfree (free : list ei_bucket) (b : ei_bucket) : list ei_bucket :=
  if small b then b :: free else free.

(** [while (b->next) ...]: the bucket taken out from behind [b], and the rest
    of the chain. *)
Fixpoint chain_unlink (rh : Z) (k : list Z) (c : list ei_bucket)
    : option (ei_bucket * list ei_bucket) :=
  match c with
  | [] => None
  | b :: c =>
      if is_key rh k b then Some (b, c)
      else match chain_unlink rh k c with
           | Some (tmp, c) => Some (tmp, b :: c)
           | None => None
           end
  end.

Definition ei_hash_remove (t : ei_hash) (k : list Z) : option (Z * ei_hash) :=
  let rh := hash t k in
  match chain_of t rh with
  | None => None
  | Some [] => Some (0, t)
  | Some (b :: c) =>
      if is_key rh k b then
        let npos := match c with [] => npos t - 1 | _ => npos t end in
        Some (value b, set_chain t rh c (nelem t - 1) npos (ei_hash_bfree (freelist t) b))
      else
        match chain_unlink rh k c with
        | None => Some (0, t)
        | Some (tmp, c) =>
            Some (value tmp, set_chain t rh (b :: c) (nelem t - 1) (npos t)
                               (ei_hash_bfree (freelist t) tmp))
        end
  end.

(** ** Creation, resizing, traversal *)

Section Sized.
(** Fuel for the search of a prime. *)
Context (fuel : nat).

(** Fuel spent is [None]; a NULL result is [Some None]. *)
Definition ei_hash_newtab (mem : bool) (tabsize : Z) : option (option ei_hash) :=
  match grow_to_prime fuel enough tabsize with
  | None => None
  | Some tabsize =>
      if negb mem then Some None else
      Some (Some (Hash (replicate (Z.to_nat tabsize) []) ei_dohash tabsize 0 0 []))
  end.

(** [b->next = newtab->tab[h]; if (!newtab->tab[h]) npos++; newtab->tab[h] = b;] *)
Definition rehash_bucket (t : ei_hash) (b : ei_bucket) : option ei_hash :=
  match chain_of t (rawhash b) with
  | None => None
  | Some c =>
      let npos := match c with [] => npos t + 1 | _ => npos t end in
      Some (set_chain t (rawhash b) (b :: c) (nelem t) npos (freelist t))
  end.

Fixpoint rehash (t : ei_hash) (bs : list ei_bucket) : option ei_hash :=
  match bs with
  | [] => Some t
  | b :: bs => match rehash_bucket t b with Some t => rehash t bs | None => None end
  end.

(** The old chains are walked from the first to the last. *)
Definition ei_hash_resize (mem : bool) (oldtab : ei_hash) (newsize : Z) : option ei_hash :=
  match grow_to_prime fuel enough newsize with
  | None => None
  | Some newsize =>
      if newsize =? size oldtab then Some oldtab else
      match ei_hash_newtab mem newsize with
      | None => None
      | Some None => Some oldtab
      | Some (Some newtab) =>
          let newtab := Hash (tab newtab) (hash oldtab) (size newtab) (nelem newtab)
                             (npos newtab) (freelist newtab) in
          match rehash newtab (concat (tab oldtab)) with
          | None => None
          | Some t => Some (Hash (tab t) (hash t) (size t) (nelem oldtab) (npos t)
                              (freelist oldtab))
          end
      end
  end.
End Sized.

(** [f] is called on each pair until it returns something else than 0. *)
Fixpoint foreach_chain (f : list Z -> Z -> Z) (bs : list ei_bucket) : Z :=
  match bs with
  | [] => 0
  | b :: bs => let r := f (key b) (value b) in
               if negb (r =? 0) then r else foreach_chain f bs
  end.

Definition ei_hash_foreach (t : ei_hash) (f : list Z -> Z -> Z) : Z :=
  foreach_chain f (concat (tab t)).

(** The key of the first bucket with the value, or NULL. *)
Fixpoint rlookup_chain (v : Z) (bs : list ei_bucket) : option (list Z) :=
  match bs with
  | [] => None
  | b :: bs => if value b =? v then Some (key b) else rlookup_chain v bs
  end.

Definition ei_hash_rlookup (t : ei_hash) (v : Z) : option (list Z) :=
  rlookup_chain v (concat (tab t)).

(** The values [f] is called on, in order; every bucket, the freelist and the
    table are freed. *)
Definition ei_hash_freetab (t : ei_hash) : list Z := value <$> concat (tab t).
