(* ===== verification/HashOk.v ===== *)
(** * The hash table is a finite map

    The invariant [hash_ok] of a table, the map [to_map] it stands for, and
    what every operation does to both. *)

From stdpp Require Import gmap fin_maps.
From S2P Require Import Prelude Ext Prime Hash.
#[local] Open Scope Z_scope.

(** ** The hash function *)

Lemma c_str_idem k : c_str (c_str k) = c_str k.
Proof.
  induction k as [| c k IH]; [done |]. simpl. destruct (c =? 0) eqn:E; [done |].
  simpl. rewrite E. by f_equal.
Qed.

Lemma dohash_loop_c_str s : forall h, dohash_loop h (c_str s) = dohash_loop h s.
Proof.
  induction s as [| c s IH]; intros h; [done |]. simpl. destruct (c =? 0) eqn:E; [done |].
  cbn [dohash_loop]. rewrite E. apply IH.
Qed.

(** Folding the top four bits back in leaves 28 bits. *)
Lemma fold_bits h : is_uint32 h ->
  0 <= Z.lxor (Z.lxor h (Z.shiftr (Z.land h 0xf0000000) 24)) (Z.land h 0xf0000000) < 2 ^ 28.
Proof.
  intros Hh. set (r := Z.lxor _ _).
  assert (Hr : r = Z.land r (Z.ones 28)).
  { apply Z.bits_inj'. intros i Hi. rewrite Z.land_spec. destruct (decide (i < 28)).
    - rewrite Z.ones_spec_low by lia. by rewrite andb_true_r.
    - rewrite Z.ones_spec_high by lia. rewrite andb_false_r. unfold r.
      rewrite !Z.lxor_spec, Z.shiftr_spec, !Z.land_spec by lia.
      assert (Hc : forall j, 32 <= j -> Z.testbit 0xf0000000 j = false)
        by (intros j Hj; apply (Z.bits_above_log2); [lia |]; change (Z.log2 _) with 31; lia).
      rewrite (Hc (i + 24)), andb_false_r, xorb_false_r by lia.
      destruct (decide (i < 32)).
      + assert (Z.testbit 0xf0000000 i = true) as ->
          by (assert (i = 28 \/ i = 29 \/ i = 30 \/ i = 31) as [-> | [-> | [-> | ->]]] by lia;
              reflexivity).
        by rewrite andb_true_r, xorb_nilpotent.
      + rewrite Hc, andb_false_r, xorb_false_r by lia.
        rewrite <- (Z.mod_small h (2 ^ 32)) by (apply Hh).
        apply Z.mod_pow2_bits_high. lia. }
  rewrite Hr, Z.land_ones by lia. by apply Z.mod_pos_bound.
Qed.

Lemma small_top_bits h : is_uint32 h -> Z.land h 0xf0000000 = 0 -> 0 <= h < 2 ^ 28.
Proof.
  intros Hh H0. pose proof (fold_bits h Hh) as Hf. rewrite H0 in Hf.
  by rewrite Z.shiftr_0_l, !Z.lxor_0_r in Hf.
Qed.

Lemma dohash_loop_range s : forall h, 0 <= h < 2 ^ 28 -> 0 <= dohash_loop h s < 2 ^ 28.
Proof.
  induction s as [| c s IH]; intros h Hh; cbn [dohash_loop]; [done |].
  destruct (c =? 0); [done |]. apply IH.
  set (u := uint32 _). assert (Hu : is_uint32 u) by apply uint32_range.
  destruct (Z.eqb_spec (Z.land u 0xf0000000) 0); cbn [negb].
  - by apply small_top_bits.
  - by apply fold_bits.
Qed.

Lemma dohash_ok k : 0 <= ei_dohash k < 2 ^ 28 /\ ei_dohash (c_str k) = ei_dohash k.
Proof.
  unfold ei_dohash. rewrite dohash_loop_c_str. split; [| done].
  pose proof (dohash_loop_range k 0). rewrite int32_small by (unfold is_int32; lia). lia.
Qed.

(** ** The invariant and the map *)

Definition occ (c : list ei_bucket) : nat := match c with [] => 0 | _ => 1 end.
Definition occupied (cs : list (list ei_bucket)) : nat := sum_list_with occ cs.

Definition bucket_ok (t : ei_hash) (b : ei_bucket) : Prop :=
  rawhash b = hash t (key b) /\ c_str (key b) = key b /\
  small b = (len (key b) <? EI_SMALLKEY).

Record hash_ok (t : ei_hash) : Prop := HashOk {
  ok_size : 0 < size t;
  ok_len : len (tab t) = size t;
  ok_hash : forall k, 0 <= hash t k /\ hash t (c_str k) = hash t k;
  ok_nelem : nelem t = len (concat (tab t));
  ok_npos : npos t = Z.of_nat (occupied (tab t));
  ok_bucket : forall i c b, tab t !! i = Some c -> b ∈ c ->
    slot t (rawhash b) = i /\ bucket_ok t b;
  ok_keys : NoDup (key <$> concat (tab t));
  ok_free : Forall (fun b => small b = true) (freelist t)
}.

Definition pairs (bs : list ei_bucket) : list (list Z * Z) := (fun b => (key b, value b)) <$> bs.
Definition to_map (t : ei_hash) : gmap (list Z) Z := list_to_map (pairs (concat (tab t))).

Lemma pairs_keys bs : (pairs bs).*1 = key <$> bs.
Proof. unfold pairs. by rewrite <- list_fmap_compose. Qed.

Lemma elem_concat {A} (x : A) ls : x ∈ concat ls <-> exists l, x ∈ l /\ l ∈ ls.
Proof.
  induction ls as [| l ls IH]; cbn.
  - split; [intros []%elem_of_nil | by intros (l & _ & []%elem_of_nil)].
  - rewrite elem_of_app, IH. split.
    + intros [Hx | (k & Hx & Hk)]; [exists l | exists k]; rewrite elem_of_cons; auto.
    + intros (k & Hx & [-> | Hk]%elem_of_cons); [by left | right; by exists k].
Qed.

(** One chain of the array, and all the rest. *)
Lemma table_split (cs : list (list ei_bucket)) i c : cs !! i = Some c ->
  exists rest n, concat cs ≡ₚ c ++ rest /\ occupied cs = (occ c + n)%nat /\
    forall c', concat (<[i := c']> cs) ≡ₚ c' ++ rest /\
               occupied (<[i := c']> cs) = (occ c' + n)%nat.
Proof.
  revert i. induction cs as [| c0 cs IH]; intros [| i] Hi; try done.
  - injection Hi as ->. exists (concat cs), (occupied cs). done.
  - destruct (IH i Hi) as (rest & n & Hp & Ho & Hc).
    exists (c0 ++ rest), (occ c0 + n)%nat. cbn [concat].
    unfold occupied in *. simpl. split; [| split; [lia |]].
    + rewrite Hp, !app_assoc. by rewrite (Permutation_app_comm c0 c).
    + intros c'. destruct (Hc c') as [Hp' Ho']. simpl.
      split; [| lia]. rewrite Hp', !app_assoc. by rewrite (Permutation_app_comm c0 c').
Qed.

Lemma chain_of_ok t k : hash_ok t -> exists c, chain_of t (hash t k) = Some c /\
  tab t !! slot t (hash t k) = Some c.
Proof.
  intros Ht. pose proof (ok_size t Ht). pose proof (ok_len t Ht).
  destruct (ok_hash t Ht k) as [Hk _]. unfold chain_of, slot.
  rewrite (proj2 (Z.eqb_neq _ _)) by lia. rewrite Z.rem_mod_nonneg by lia.
  pose proof (Z.mod_pos_bound (hash t k) (size t)).
  rewrite (proj2 (Z.ltb_ge _ _)) by lia. cbn [orb].
  destruct (lookup_lt_is_Some_2 (tab t) (Z.to_nat (hash t k mod size t))) as [c Hc]; [lia |].
  by exists c.
Qed.

(** ** Chains *)

Lemma is_key_ok t k b : hash_ok t -> bucket_ok t b ->
  is_key (hash t k) k b = true <-> key b = c_str k.
Proof.
  intros Ht (Hr & Hc & _). unfold is_key, strcmp_eq.
  rewrite andb_true_iff, Z.eqb_eq, bool_decide_eq_true. rewrite Hc. split; [by intros [_ ->] |].
  intros He. split; [| done]. rewrite Hr, He. symmetry. apply ok_hash, Ht.
Qed.

Lemma chain_find_Some rh k c b : chain_find rh k c = Some b ->
  exists c1 c2, c = c1 ++ b :: c2 /\ is_key rh k b = true /\
    forall v, chain_set rh k v c = c1 ++ Bucket (rawhash b) (key b) (small b) v :: c2.
Proof.
  induction c as [| b0 c IH]; cbn; [done |]. destruct (is_key rh k b0) eqn:E.
  - intros [= ->]. exists [], c. done.
  - intros H. destruct (IH H) as (c1 & c2 & -> & Hk & Hs). exists (b0 :: c1), c2.
    split; [done |]. split; [done |]. intros v. by rewrite Hs.
Qed.

Lemma chain_find_None rh k c : chain_find rh k c = None ->
  Forall (fun b => is_key rh k b = false) c.
Proof.
  induction c as [| b c IH]; cbn; [constructor |].
  destruct (is_key rh k b) eqn:E; [done |]. constructor; auto.
Qed.

Lemma chain_unlink_find rh k c :
  match chain_unlink rh k c with
  | Some (tmp, c') => chain_find rh k c = Some tmp /\
      exists c1 c2, c = c1 ++ tmp :: c2 /\ c' = c1 ++ c2
  | None => chain_find rh k c = None
  end.
Proof.
  induction c as [| b c IH]; cbn; [done |]. destruct (is_key rh k b).
  - split; [done |]. by exists [], c.
  - destruct (chain_unlink rh k c) as [[tmp c'] |]; [| done].
    destruct IH as (? & c1 & c2 & -> & ->). split; [done |]. by exists (b :: c1), c2.
Qed.

(** A key that is in the table is in its chain. *)
Lemma find_in_map t k c :
  hash_ok t -> tab t !! slot t (hash t k) = Some c ->
  to_map t !! c_str k = value <$> chain_find (hash t k) k c.
Proof.
  intros Ht Hc. unfold to_map. destruct (chain_find (hash t k) k c) as [b |] eqn:E; cbn.
  - destruct (chain_find_Some _ _ _ _ E) as (c1 & c2 & -> & Hk & _).
    assert (Hb : b ∈ c1 ++ b :: c2) by set_solver.
    destruct (ok_bucket t Ht _ _ b Hc Hb) as [_ Hok].
    apply (is_key_ok t k b Ht Hok) in Hk.
    apply elem_of_list_to_map; [rewrite pairs_keys; apply Ht |].
    unfold pairs. apply list_elem_of_fmap. exists b. rewrite Hk. split; [done |].
    apply elem_concat. by exists (c1 ++ b :: c2); split; [| by eapply list_elem_of_lookup_2].
  - apply chain_find_None in E. apply not_elem_of_list_to_map. rewrite pairs_keys.
    intros (b & Hk & Hb)%list_elem_of_fmap. apply elem_concat in Hb as (c' & Hb & Hc').
    apply list_elem_of_lookup_1 in Hc' as [i Hi].
    destruct (ok_bucket t Ht i c' b Hi Hb) as [Hs Hok].
    assert (Hr : rawhash b = hash t k).
    { destruct Hok as (-> & _). rewrite <- Hk. apply ok_hash, Ht. }
    rewrite Hr in Hs. subst i. rewrite Hc in Hi. injection Hi as ->.
    rewrite Forall_forall in E. specialize (E b (proj1 (list_elem_of_In _ _) Hb)).
    rewrite (proj2 (is_key_ok t k b Ht Hok)) in E by done. done.
Qed.

Lemma lookup_ok t k : hash_ok t ->
  ei_hash_lookup t k = Some (default 0 (to_map t !! c_str k)).
Proof.
  intros Ht. destruct (chain_of_ok t k Ht) as (c & Hc & Hl).
  unfold ei_hash_lookup. rewrite Hc, (find_in_map t k c Ht Hl).
  by destruct (chain_find (hash t k) k c).
Qed.

(** ** Changing one chain *)

Lemma update_chain_ok t i c c' n p free :
  hash_ok t -> tab t !! i = Some c ->
  (forall b, b ∈ c' -> slot t (rawhash b) = i /\ bucket_ok t b) ->
  (forall rest, concat (tab t) ≡ₚ c ++ rest -> NoDup (key <$> c' ++ rest)) ->
  n = nelem t - len c + len c' -> p = npos t - Z.of_nat (occ c) + Z.of_nat (occ c') ->
  Forall (fun b => small b = true) free ->
  hash_ok (Hash (<[i := c']> (tab t)) (hash t) (size t) n p free).
Proof.
  intros Ht Hc Hb Hnd -> -> Hf.
  destruct (table_split (tab t) _ c Hc) as (rest & m & Hp & Ho & Hs).
  destruct (Hs c') as [Hp' Ho'].
  constructor; cbn [tab hash size nelem npos freelist]; try (by apply Ht); try done.
  - rewrite length_insert. apply Ht.
  - rewrite (ok_nelem t Ht), (Permutation_length Hp), (Permutation_length Hp').
    rewrite !length_app. lia.
  - rewrite (ok_npos t Ht), Ho, Ho'. lia.
  - intros j c0 b Hi Hin. change (slot t (rawhash b) = j /\ bucket_ok t b).
    apply list_lookup_insert_Some in Hi as [(<- & <- & _) | [_ Hi]]; [by apply Hb |].
    by apply (ok_bucket t Ht j c0).
  - rewrite Hp'. by apply Hnd.
Qed.

Lemma set_chain_ok t k c c' n p free :
  hash_ok t -> tab t !! slot t (hash t k) = Some c ->
  (forall b, b ∈ c' -> slot t (rawhash b) = slot t (hash t k) /\ bucket_ok t b) ->
  (forall rest, concat (tab t) ≡ₚ c ++ rest -> NoDup (key <$> c' ++ rest)) ->
  n = nelem t - len c + len c' -> p = npos t - Z.of_nat (occ c) + Z.of_nat (occ c') ->
  Forall (fun b => small b = true) free ->
  hash_ok (set_chain t (hash t k) c' n p free).
Proof. apply update_chain_ok. Qed.

Lemma set_chain_map t k c c' n p free rest :
  tab t !! slot t (hash t k) = Some c -> concat (tab t) ≡ₚ c ++ rest ->
  hash_ok (set_chain t (hash t k) c' n p free) ->
  to_map (set_chain t (hash t k) c' n p free) = list_to_map (pairs (c' ++ rest)).
Proof.
  intros Hc Hp Hok. destruct (table_split (tab t) _ c Hc) as (rest' & m & Hp1 & _ & Hs).
  destruct (Hs c') as [Hp' _].
  assert (Hr : rest ≡ₚ rest') by (apply (Permutation_app_inv_l c); by rewrite <- Hp, <- Hp1).
  unfold to_map. apply list_to_map_proper.
  - rewrite pairs_keys. apply Hok.
  - unfold pairs. cbn [set_chain tab]. by rewrite Hp', Hr.
Qed.

Lemma to_map_split t c rest : hash_ok t -> concat (tab t) ≡ₚ c ++ rest ->
  to_map t = list_to_map (pairs (c ++ rest)) /\ NoDup (key <$> c ++ rest).
Proof.
  intros Ht Hp. split.
  - unfold to_map. apply list_to_map_proper; [rewrite pairs_keys; apply Ht |].
    unfold pairs. by rewrite Hp.
  - rewrite <- Hp. apply Ht.
Qed.

Lemma pairs_app a b : pairs (a ++ b) = pairs a ++ pairs b.
Proof. apply fmap_app. Qed.

(** ** Insertion *)

(** Whether [ei_hash_insert] has a bucket to store in. *)
Definition insert_room (mem : bool) (t : ei_hash) (k : list Z) : bool :=
  bool_decide (is_Some (to_map t !! c_str k)) ||
  (if strlen k <? EI_SMALLKEY then match freelist t with [] => mem | _ => true end else mem).

Lemma chain_slot t k c b : hash_ok t -> tab t !! slot t (hash t k) = Some c -> b ∈ c ->
  slot t (rawhash b) = slot t (hash t k) /\ bucket_ok t b.
Proof. intros Ht Hc Hb. by apply (ok_bucket t Ht _ c). Qed.

Lemma insert_present t k v c b :
  hash_ok t -> tab t !! slot t (hash t k) = Some c -> chain_find (hash t k) k c = Some b ->
  let t' := set_chain t (hash t k) (chain_set (hash t k) k v c) (nelem t) (npos t) (freelist t) in
  hash_ok t' /\ to_map t' = <[c_str k := v]> (to_map t).
Proof.
  intros Ht Hc Hf t'. destruct (chain_find_Some _ _ _ _ Hf) as (c1 & c2 & -> & Hk & Hs).
  unfold t'. rewrite (Hs v). set (b' := Bucket (rawhash b) (key b) (small b) v).
  assert (Hb : b ∈ c1 ++ b :: c2) by (rewrite elem_of_app, elem_of_cons; auto).
  destruct (chain_slot t k _ b Ht Hc Hb) as [Hsl Hbok].
  pose proof (proj1 (is_key_ok t k b Ht Hbok) Hk) as Hkb.
  assert (Hkeys : forall rest, key <$> (c1 ++ b' :: c2) ++ rest = key <$> (c1 ++ b :: c2) ++ rest)
    by (intros rest; by rewrite !fmap_app).
  assert (Hok : hash_ok (set_chain t (hash t k) (c1 ++ b' :: c2) (nelem t) (npos t) (freelist t))).
  { apply (set_chain_ok t k (c1 ++ b :: c2)); [done | done | | | | | apply Ht].
    - intros b0 [Hin | [-> | Hin]%elem_of_cons]%elem_of_app.
      + apply (chain_slot t k _ b0 Ht Hc). rewrite elem_of_app. auto.
      + done.
      + apply (chain_slot t k _ b0 Ht Hc). rewrite elem_of_app, elem_of_cons. auto.
    - intros rest Hp. rewrite Hkeys. by destruct (to_map_split t _ rest Ht Hp).
    - rewrite !length_app. simpl. lia.
    - destruct c1; cbn; lia. }
  split; [done |].
  destruct (table_split (tab t) _ _ Hc) as (rest & m & Hp & _ & _).
  rewrite (set_chain_map t k (c1 ++ b :: c2) _ _ _ _ rest) by done.
  destruct (to_map_split t _ rest Ht Hp) as [-> Hnd].
  assert (Hmove : forall x, (c1 ++ x :: c2) ++ rest ≡ₚ x :: c1 ++ c2 ++ rest)
    by (intros x; rewrite <- app_assoc; symmetry; apply Permutation_middle).
  assert (Hl : forall x, key x = key b ->
    list_to_map (M := gmap (list Z) Z) (pairs ((c1 ++ x :: c2) ++ rest))
    = <[key b := value x]> (list_to_map (pairs (c1 ++ c2 ++ rest)))).
  { intros x Hx. rewrite <- Hx. change (<[key x := value x]> _) with
      (list_to_map (M := gmap (list Z) Z) (pairs (x :: c1 ++ c2 ++ rest))).
    apply list_to_map_proper; [| unfold pairs; by rewrite Hmove].
    rewrite pairs_keys. revert Hnd. rewrite !fmap_app. cbn. by rewrite Hx. }
  rewrite (Hl b'), (Hl b), Hkb by done. by rewrite insert_insert_eq.
Qed.

Lemma insert_absent t k v c n p free sm :
  hash_ok t -> tab t !! slot t (hash t k) = Some c -> chain_find (hash t k) k c = None ->
  sm = (strlen k <? EI_SMALLKEY) -> n = nelem t + 1 ->
  p = (match c with [] => npos t + 1 | _ => npos t end) ->
  Forall (fun b => small b = true) free ->
  let t' := set_chain t (hash t k) (Bucket (hash t k) (c_str k) sm v :: c) n p free in
  hash_ok t' /\ to_map t' = <[c_str k := v]> (to_map t).
Proof.
  intros Ht Hc Hf -> -> -> Hfree t'.
  assert (Hno : to_map t !! c_str k = None)
    by (rewrite (find_in_map t k c Ht Hc), Hf; done).
  assert (Hok : hash_ok t').
  { apply (set_chain_ok t k c); [done | done | | | | | done].
    - intros b [-> | Hb]%elem_of_cons; [| by apply (chain_slot t k c)]. cbn [rawhash].
      split; [done |]. split; [symmetry; apply ok_hash, Ht |].
      split; [apply c_str_idem | done].
    - intros rest Hp. cbn. destruct (to_map_split t c rest Ht Hp) as [Hm Hnd].
      constructor; [| done]. rewrite Hm in Hno.
      apply not_elem_of_list_to_map in Hno. by rewrite pairs_keys in Hno.
    - rewrite len_cons. lia.
    - destruct c; cbn; lia. }
  split; [done |]. destruct (table_split (tab t) _ _ Hc) as (rest & m & Hp & _ & _).
  unfold t'. rewrite (set_chain_map t k c _ _ _ _ rest) by done. cbn [app pairs fmap list_fmap list_to_map].
  by rewrite (proj1 (to_map_split t c rest Ht Hp)).
Qed.

Lemma insert_ok mem t k v : hash_ok t ->
  exists t', ei_hash_insert mem t k v = Some (default 0 (to_map t !! c_str k), t') /\
    hash_ok t' /\ size t' = size t /\ hash t' = hash t /\
    if insert_room mem t k then to_map t' = <[c_str k := v]> (to_map t) else t' = t.
Proof.
  intros Ht. destruct (chain_of_ok t k Ht) as (c & Hc & Hl).
  unfold ei_hash_insert, insert_room. rewrite Hc, (find_in_map t k c Ht Hl).
  destruct (chain_find (hash t k) k c) as [b |] eqn:Hf; cbn [fmap option_fmap option_map default].
  - rewrite bool_decide_true by (by eexists). cbn [orb].
    destruct (insert_present t k v c b Ht Hl Hf) as (Hok & Hm).
    eexists. split; [done |]. auto.
  - rewrite bool_decide_false by (by intros [? ?]). cbn [orb].
    assert (Hab : forall free, Forall (fun b => small b = true) free ->
      exists t', Some (0, set_chain t (hash t k)
          (Bucket (hash t k) (c_str k) (strlen k <? EI_SMALLKEY) v :: c)
          (nelem t + 1) (match c with [] => npos t + 1 | _ => npos t end) free) = Some (0, t') /\
        hash_ok t' /\ size t' = size t /\ hash t' = hash t /\
        to_map t' = <[c_str k := v]> (to_map t)).
    { intros free Hfr. destruct (insert_absent t k v c _ _ free _ Ht Hl Hf
        eq_refl eq_refl eq_refl Hfr)
        as [Hok Hm]. eexists. split; [done |]. auto. }
    pose proof (ok_free t Ht) as Hfr.
    destruct (strlen k <? EI_SMALLKEY); unfold ei_hash_bmalloc.
    + destruct (freelist t) as [| f fl] eqn:Efl.
      * destruct mem; cbn [negb]; [by apply Hab |]. exists t. auto.
      * cbn [negb]. apply Hab. by inversion Hfr.
    + destruct mem; cbn [negb]; [by apply Hab |]. exists t. auto.
Qed.

(** ** Removal *)

Lemma remove_one t k c1 b c2 n p :
  hash_ok t -> tab t !! slot t (hash t k) = Some (c1 ++ b :: c2) ->
  is_key (hash t k) k b = true -> n = nelem t - 1 ->
  p = npos t - 1 + Z.of_nat (occ (c1 ++ c2)) ->
  let t' := set_chain t (hash t k) (c1 ++ c2) n p (ei_hash_bfree (freelist t) b) in
  hash_ok t' /\ to_map t' = delete (c_str k) (to_map t) /\
  to_map t !! c_str k = Some (value b).
Proof.
  intros Ht Hc Hk -> -> t'.
  assert (Hb : b ∈ c1 ++ b :: c2) by (rewrite elem_of_app, elem_of_cons; auto).
  destruct (chain_slot t k _ b Ht Hc Hb) as [Hsl Hbok].
  pose proof (proj1 (is_key_ok t k b Ht Hbok) Hk) as Hkb.
  assert (Hmove : forall rest, (c1 ++ b :: c2) ++ rest ≡ₚ b :: (c1 ++ c2) ++ rest)
    by (intros rest; rewrite <- !app_assoc; symmetry; apply Permutation_middle).
  assert (Hok : hash_ok t').
  { apply (set_chain_ok t k (c1 ++ b :: c2)); [done | done | | | | |].
    - intros b0 Hin. apply (chain_slot t k _ b0 Ht Hc).
      rewrite elem_of_app, elem_of_cons. apply elem_of_app in Hin as [? | ?]; auto.
    - intros rest Hp. destruct (to_map_split t _ rest Ht Hp) as [_ Hnd].
      rewrite Hmove in Hnd. cbn in Hnd. by inversion Hnd.
    - rewrite !length_app. simpl. lia.
    - destruct c1; cbn; lia.
    - unfold ei_hash_bfree. pose proof (ok_free t Ht).
      destruct (small b) eqn:E; [by constructor | done]. }
  split; [done |]. destruct (table_split (tab t) _ _ Hc) as (rest & m & Hp & _ & _).
  unfold t'. rewrite (set_chain_map t k (c1 ++ b :: c2) _ _ _ _ rest) by done.
  destruct (to_map_split t _ rest Ht Hp) as [-> Hnd].
  assert (Hm : list_to_map (M := gmap (list Z) Z) (pairs ((c1 ++ b :: c2) ++ rest))
    = <[key b := value b]> (list_to_map (pairs ((c1 ++ c2) ++ rest)))).
  { change (<[key b := value b]> _) with
      (list_to_map (M := gmap (list Z) Z) (pairs (b :: (c1 ++ c2) ++ rest))).
    apply list_to_map_proper; [by rewrite pairs_keys | unfold pairs; by rewrite Hmove]. }
  rewrite Hm, Hkb. split; [| by rewrite lookup_insert_eq].
  rewrite delete_insert_id; [done |]. apply not_elem_of_list_to_map. rewrite pairs_keys, <- Hkb.
  rewrite Hmove in Hnd. cbn in Hnd. by inversion Hnd.
Qed.

Lemma remove_ok t k : hash_ok t ->
  exists t', ei_hash_remove t k = Some (default 0 (to_map t !! c_str k), t') /\
    hash_ok t' /\ size t' = size t /\ hash t' = hash t /\
    to_map t' = delete (c_str k) (to_map t).
Proof.
  intros Ht. destruct (chain_of_ok t k Ht) as (c & Hc & Hl). unfold ei_hash_remove. rewrite Hc.
  assert (Hnone : chain_find (hash t k) k c = None ->
    exists t', Some (0, t) = Some (default 0 (to_map t !! c_str k), t') /\
      hash_ok t' /\ size t' = size t /\ hash t' = hash t /\
      to_map t' = delete (c_str k) (to_map t)).
  { intros Hf. exists t. rewrite (find_in_map t k c Ht Hl), Hf.
    split; [done |]. do 3 (split; [done |]). symmetry. apply delete_id.
    by rewrite (find_in_map t k c Ht Hl), Hf. }
  destruct c as [| b c]; [by apply Hnone |]. cbn [chain_find] in Hnone.
  destruct (is_key (hash t k) k b) eqn:Hk.
  - destruct (remove_one t k [] b c (nelem t - 1)
      (match c with [] => npos t - 1 | _ => npos t end) Ht Hl Hk eq_refl) as (Hok & Hm & Hv);
      [destruct c; cbn; lia |].
    rewrite Hv. eexists. split; [done |]. auto.
  - pose proof (chain_unlink_find (hash t k) k c) as Hu.
    destruct (chain_unlink (hash t k) k c) as [[tmp c'] |]; [| by apply Hnone].
    destruct Hu as (Hf & c1 & c2 & -> & ->).
    assert (Hkt : is_key (hash t k) k tmp = true)
      by (by destruct (chain_find_Some _ _ _ _ Hf) as (? & ? & _ & ? & _)).
    destruct (remove_one t k (b :: c1) tmp c2 (nelem t - 1) (npos t) Ht Hl Hkt eq_refl)
      as (Hok & Hm & Hv); [cbn; lia |].
    rewrite Hv. eexists. split; [done |]. auto.
Qed.

(** ** New tables *)

Lemma concat_replicate_nil {A} n : concat (replicate n ([] : list A)) = [].
Proof. by induction n. Qed.
Lemma occupied_nil n : occupied (replicate n []) = 0%nat.
Proof. by induction n. Qed.

Lemma empty_ok h n : 0 < n ->
  (forall k, 0 <= h k /\ h (c_str k) = h k) ->
  hash_ok (Hash (replicate (Z.to_nat n) []) h n 0 0 []).
Proof.
  intros Hn Hh. constructor; cbn; try done.
  - rewrite length_replicate. lia.
  - by rewrite concat_replicate_nil.
  - by rewrite occupied_nil.
  - intros i c b [-> _]%lookup_replicate_1 []%elem_of_nil.
  - rewrite concat_replicate_nil. constructor.
Qed.

Lemma newtab_ok fuel mem n :
  1 <= n <= largest_size -> largest_size - n < 2 * Z.of_nat fuel ->
  exists q, n <= q <= largest_size /\ (q = 1 \/ Znumtheory.prime q) /\
    grow_to_prime fuel enough n = Some q /\
    ei_hash_newtab fuel mem n =
      Some (if mem then Some (Hash (replicate (Z.to_nat q) []) ei_dohash q 0 0 []) else None) /\
    hash_ok (Hash (replicate (Z.to_nat q) []) ei_dohash q 0 0 []).
Proof.
  intros Hn Hf. destruct (grow_to_prime_ok n fuel Hn Hf) as (q & Hq & Hr & _ & Hp & _).
  exists q. split; [done |]. split; [done |]. split; [done |]. split.
  - unfold ei_hash_newtab. rewrite Hq. by destruct mem.
  - apply empty_ok; [lia |]. intros k. pose proof (dohash_ok k). lia.
Qed.

(** ** Resizing *)

(** While the buckets move, the new table's counter of elements is still 0: the
    invariant is that of the table with the number it will have. *)
Definition counted (t : ei_hash) : ei_hash :=
  Hash (tab t) (hash t) (size t) (len (concat (tab t))) (npos t) [].

(** A bucket put in front of its chain in a table that has no bucket with its
    key. *)
Lemma rehash_bucket_ok t b :
  hash_ok (counted t) -> bucket_ok t b -> key b ∉ (key <$> concat (tab t)) ->
  exists t', rehash_bucket t b = Some t' /\ hash_ok (counted t') /\
    concat (tab t') ≡ₚ b :: concat (tab t) /\ size t' = size t /\ hash t' = hash t.
Proof.
  intros Hu Hb Hno. pose proof Hb as (Hr & _).
  destruct (chain_of_ok (counted t) (key b) Hu) as (c & Hc & Hl).
  change (hash (counted t)) with (hash t) in *.
  destruct (table_split (tab t) _ _ Hl) as (rest & m & Hp & _ & Hs).
  destruct (Hs (b :: c)) as [Hp' _].
  unfold rehash_bucket. rewrite Hr.
  change (chain_of t (hash t (key b))) with (chain_of (counted t) (hash t (key b))). rewrite Hc.
  set (p := match c with [] => npos t + 1 | _ => npos t end).
  set (t' := set_chain t (hash t (key b)) (b :: c) (nelem t) p (freelist t)).
  assert (Hcc : concat (tab t') ≡ₚ b :: concat (tab t)).
  { cbn [t' set_chain tab].
    change (slot t (hash t (key b))) with (slot (counted t) (hash t (key b))).
    by rewrite Hp', Hp. }
  exists t'. split; [done |]. split; [| done].
  change (counted t') with
    (set_chain (counted t) (hash (counted t) (key b)) (b :: c) (len (concat (tab t'))) p []).
  apply (set_chain_ok (counted t) (key b) c); [done | done | | | | | done].
  - intros b0 [-> | Hin]%elem_of_cons; [| by apply (chain_slot (counted t) (key b) c)].
    rewrite Hr. done.
  - intros rest' Hp2. cbn. constructor; [| by destruct (to_map_split (counted t) c rest' Hu Hp2)].
    rewrite <- Hp2. done.
  - rewrite (Permutation_length Hcc), !len_cons. cbn [counted nelem]. lia.
  - unfold p. destruct c; cbn; lia.
Qed.

Lemma rehash_ok bs : forall t,
  hash_ok (counted t) -> Forall (bucket_ok t) bs ->
  NoDup (key <$> bs ++ concat (tab t)) ->
  exists t', rehash t bs = Some t' /\ hash_ok (counted t') /\
    concat (tab t') ≡ₚ bs ++ concat (tab t) /\ size t' = size t /\ hash t' = hash t.
Proof.
  induction bs as [| b bs IH]; intros t Ht Hb Hn; cbn [rehash].
  - exists t. auto.
  - inversion Hb as [| ? ? Hb1 Hb2]; subst. cbn in Hn. inversion Hn as [| ? ? Hn1 Hn2]; subst.
    destruct (rehash_bucket_ok t b) as (t1 & -> & Ht1 & Hp1 & Hs1 & Hh1); [done | done | |].
    { intros Hin. apply Hn1. rewrite fmap_app, elem_of_app. by right. }
    destruct (IH t1) as (t' & -> & Ht' & Hp' & Hs' & Hh'); [done | | |].
    + eapply Forall_impl; [| exact Hb2]. intros x (? & ? & ?).
      split; [by rewrite Hh1 | done].
    + rewrite fmap_app, Hp1, <- fmap_app. rewrite <- Permutation_middle. cbn.
      by constructor.
    + exists t'. split; [done |]. split; [done |]. split; [| by rewrite Hs', Hh'].
      rewrite Hp', Hp1. symmetry. apply (Permutation_middle bs (concat (tab t)) b).
Qed.

Lemma concat_bucket_ok t : hash_ok t -> Forall (bucket_ok t) (concat (tab t)).
Proof.
  intros Ht. apply Forall_forall. intros b Hb. apply list_elem_of_In in Hb.
  apply elem_concat in Hb as (c & Hb & [i Hi]%list_elem_of_lookup_1).
  by apply (ok_bucket t Ht i c b).
Qed.

Lemma resize_ok fuel mem t n :
  hash_ok t -> 1 <= n <= largest_size -> largest_size - n < 2 * Z.of_nat fuel ->
  exists t', ei_hash_resize fuel mem t n = Some t' /\ hash_ok t' /\
    hash t' = hash t /\ to_map t' = to_map t /\
    (t' = t \/ (mem = true /\ n <= size t' <= largest_size /\
                (size t' = 1 \/ Znumtheory.prime (size t')))).
Proof.
  intros Ht Hn Hf. unfold ei_hash_resize.
  destruct (grow_to_prime_ok n fuel Hn Hf) as (q & Hq & Hr & Ho & Hp & _). rewrite Hq.
  destruct (Z.eqb_spec q (size t)) as [E | E]; [exists t; auto 6 |].
  destruct (newtab_ok fuel mem q) as (q2 & Hr2 & Hp2 & Hq2 & -> & _); [lia | lia |].
  destruct mem; [| exists t; auto 6]. cbn [tab size nelem npos freelist].
  set (t0 := Hash _ _ _ _ _ _).
  assert (Hc0 : concat (tab t0) = []) by apply concat_replicate_nil.
  destruct (rehash_ok (concat (tab t)) t0) as (t1 & -> & Ht1 & Hperm & Hs1 & Hh1).
  - unfold counted. rewrite Hc0. apply (empty_ok (hash t) q2); [lia | apply Ht].
  - apply (concat_bucket_ok t Ht).
  - rewrite Hc0, app_nil_r. apply Ht.
  - rewrite Hc0, app_nil_r in Hperm. eexists. split; [done |].
    assert (Hok : hash_ok (Hash (tab t1) (hash t1) (size t1) (nelem t) (npos t1) (freelist t))).
    { rewrite (ok_nelem t Ht), <- (Permutation_length Hperm).
      destruct Ht1. constructor; try done. apply Ht. }
    split; [done |]. split; [done |]. split.
    + unfold to_map. apply list_to_map_proper; [rewrite pairs_keys; apply Hok |].
      unfold pairs. by rewrite Hperm.
    + right. cbn [size]. rewrite Hs1. cbn [t0 size]. auto with lia.
Qed.

(** ** The rest *)

Lemma nelem_size t : hash_ok t -> nelem t = Z.of_nat (base.size (to_map t)).
Proof.
  intros Ht. rewrite (ok_nelem t Ht). unfold to_map.
  rewrite map_size_list_to_map by (rewrite pairs_keys; apply Ht).
  unfold pairs. by rewrite length_fmap.
Qed.

Lemma rlookup_ok t v : hash_ok t ->
  match ei_hash_rlookup t v with
  | Some k => to_map t !! k = Some v
  | None => forall k, to_map t !! k <> Some v
  end.
Proof.
  intros Ht. unfold ei_hash_rlookup, to_map. pose proof (ok_keys t Ht) as Hn. revert Hn.
  induction (concat (tab t)) as [| b bs IH]; intros Hn; cbn; [done |].
  inversion Hn as [| ? ? Hn1 Hn2]; subst.
  destruct (Z.eqb_spec (value b) v) as [<- |]; [by rewrite lookup_insert_eq |].
  specialize (IH Hn2). destruct (rlookup_chain v bs) as [k |].
  - rewrite lookup_insert_ne; [done |]. intros <-. apply Hn1.
    apply elem_of_list_to_map_2 in IH. rewrite <- pairs_keys.
    apply list_elem_of_fmap. by exists (key b, v).
  - intros k Hk. apply lookup_insert_Some in Hk as [[_ ?] | [_ Hk]]; [done |]. by apply (IH k).
Qed.

(** The map, element by element. *)
Lemma to_map_elem t k v : hash_ok t ->
  to_map t !! k = Some v <-> exists b, b ∈ concat (tab t) /\ key b = k /\ value b = v.
Proof.
  intros Ht. unfold to_map. rewrite <- elem_of_list_to_map
    by (rewrite pairs_keys; apply Ht).
  unfold pairs. rewrite list_elem_of_fmap. split.
  - intros (b & [= -> ->] & Hb). by exists b.
  - intros (b & Hb & <- & <-). by exists b.
Qed.

Lemma key_inj t b1 b2 : hash_ok t -> b1 ∈ concat (tab t) -> b2 ∈ concat (tab t) ->
  key b1 = key b2 -> b1 = b2.
Proof.
  intros Ht [i Hi]%list_elem_of_lookup_1 [j Hj]%list_elem_of_lookup_1 Hk.
  assert (i = j) as ->; [| congruence].
  eapply (NoDup_lookup (key <$> concat (tab t))); [apply Ht | |];
    rewrite list_lookup_fmap; [by rewrite Hi | by rewrite Hj, Hk].
Qed.
