(* ===== verification/Reg.v ===== *)
(** * The registry: reg_*.c

    Named objects (integers, floats, strings, binaries) in a hash table that
    holds their addresses. The heap of inodes is explicit, since the table, the
    freelist and the callers share them by address; so are the calls of [free]
    on the values, which belong to the registry once stored. *)

From stdpp Require Import gmap fin_maps.
From S2P Require Import Prelude Ext Prime Hash.
#[local] Open Scope Z_scope.

(** ** Attributes, inodes, the registry *)

Definition EI_DIRTY : Z := 0x01.
Definition EI_DELET : Z := 0x02.
Definition EI_INT : Z := 0x10.
Definition EI_FLT : Z := 0x20.
Definition EI_STR : Z := 0x40.
Definition EI_BIN : Z := 0x80.
Definition EI_REG_TYPEMASK : Z := 0xf8.

(** The union [val]: the member last stored; nothing, in fresh memory. *)
Inductive reg_val :=
  | val_none
  | val_i (i : Z)
  | val_f (f : Z)
  | val_s (s : Z)
  | val_p (p : Z).

Record ei_reg_obj := Obj { attr : Z; obj_size : Z; val : reg_val }.

(** [objs]: the inodes [malloc] gave, by address. [reg_free]: the freelist, by
    address. [freed]: the values given to [free], latest first. *)
Record ei_reg := Reg
  { objs : gmap Z ei_reg_obj; reg_tab : ei_hash; reg_free : list Z; freed : list Z }.

Definition ei_reg_typeof (o : ei_reg_obj) : Z := Z.land (attr o) EI_REG_TYPEMASK.
Definition deleted (o : ei_reg_obj) : bool := negb (Z.land (attr o) EI_DELET =? 0).

Definition set_objs (r : ei_reg) (m : gmap Z ei_reg_obj) : ei_reg :=
  Reg m (reg_tab r) (reg_free r) (freed r).
Definition set_tab (r : ei_reg) (t : ei_hash) : ei_reg :=
  Reg (objs r) t (reg_free r) (freed r).
Definition set_obj (r : ei_reg) (a : Z) (o : ei_reg_obj) : ei_reg :=
  set_objs r (<[a := o]> (objs r)).

(** [free(obj->val.s)]: reading another member than the one stored is
    undefined. *)
Definition free_s (r : ei_reg) (o : ei_reg_obj) : option ei_reg :=
  match val o with
  | val_s s => Some (Reg (objs r) (reg_tab r) (reg_free r) (s :: freed r))
  | _ => None
  end.
Definition free_p (r : ei_reg) (o : ei_reg_obj) : option ei_reg :=
  match val o with
  | val_p p => Some (Reg (objs r) (reg_tab r) (reg_free r) (p :: freed r))
  | _ => None
  end.

(** [if (!key || !reg) return bad;] *)
Definition with_args {A} (bad : A) (reg : option ei_reg) (key : option (list Z))
    (k : ei_reg -> list Z -> option (A * ei_reg)) : option (A * option ei_reg) :=
  match reg, key with
  | Some r, Some key =>
      match k r key with Some (a, r) => Some (a, Some r) | None => None end
  | _, _ => Some (bad, reg)
  end.

(** [obj = ei_hash_lookup(tab, key)], dereferenced: NULL, or the address with
    the inode there; a pointer to no inode is undefined. *)
Definition lookup_obj (r : ei_reg) (key : list Z) : option (option (Z * ei_reg_obj)) :=
  match ei_hash_lookup (reg_tab r) key with
  | None => None
  | Some a =>
      if a =? 0 then Some None
      else match objs r !! a with Some o => Some (Some (a, o)) | None => None end
  end.

(** ** Inodes *)

(** [addr] is what [malloc] returns if it is called. *)
Definition ei_reg_make (addr : option Z) (r : ei_reg) (att : Z) : option (option Z * ei_reg) :=
  let init a free :=
    let old := match objs r !! a with Some o => val o | None => val_none end in
    (Some a, Reg (<[a := Obj (Z.lor att EI_DIRTY) 0 old]> (objs r)) (reg_tab r) free (freed r)) in
  match reg_free r with
  | a :: free => Some (init a free)
  | [] => match addr with
          | Some a => Some (init a [])
          | None => Some (None, r)
          end
  end.

Definition ei_reg_free (r : ei_reg) (a : Z) : option ei_reg :=
  match objs r !! a with
  | None => None
  | Some o =>
      match (if ei_reg_typeof o =? EI_STR then free_s r o
             else if ei_reg_typeof o =? EI_BIN then free_p r o
             else Some r) with
      | None => None
      | Some r => Some (Reg (objs r) (reg_tab r) (a :: reg_free r) (freed r))
      end
  end.

(** ** Setting values *)

(** What an existing object holds is freed; a type that is none of the four
    ends the call. *)
Definition drop_value (r : ei_reg) (o : ei_reg_obj) : option (bool * ei_reg) :=
  let t := ei_reg_typeof o in
  let ok r := match r with Some r => Some (true, r) | None => None end in
  if (t =? EI_INT) || (t =? EI_FLT) then Some (true, r)
  else if t =? EI_STR then ok (if 0 <? obj_size o then free_s r o else Some r)
  else if t =? EI_BIN then ok (if 0 <? obj_size o then free_p r o else Some r)
  else Some (false, r).

(** The common part of the four setters, and the store at their end. [mem]:
    whether [malloc] gives [ei_hash_insert] a bucket; what that returns is not
    looked at. *)
Definition reg_set (addr : option Z) (mem : bool) (type : Z) (v : reg_val) (n : Z)
    (r : ei_reg) (key : list Z) : option (Z * ei_reg) :=
  let store r a := Some (0, set_obj r a (Obj (Z.lor type EI_DIRTY) n v)) in
  match lookup_obj r key with
  | None => None
  | Some (Some (a, o)) =>
      match drop_value r o with
      | None => None
      | Some (false, r) => Some (-1, r)
      | Some (true, r) => store r a
      end
  | Some None =>
      match ei_reg_make addr r type with
      | None => None
      | Some (None, r) => Some (-1, r)
      | Some (Some a, r) =>
          match ei_hash_insert mem (reg_tab r) key a with
          | None => None
          | Some (_, t) => store (set_tab r t) a
          end
      end
  end.

Definition ei_reg_setival (addr : option Z) (mem : bool) (reg : option ei_reg)
    (key : option (list Z)) (i : Z) : option (Z * option ei_reg) :=
  with_args (-1) reg key (reg_set addr mem EI_INT (val_i i) 0).

Definition ei_reg_setfval (addr : option Z) (mem : bool) (reg : option ei_reg)
    (key : option (list Z)) (f : Z) : option (Z * option ei_reg) :=
  with_args (-1) reg key (reg_set addr mem EI_FLT (val_f f) 0).

(** [s] is the pointer with the array it points to. *)
Definition ei_reg_setsval (addr : option Z) (mem : bool) (reg : option ei_reg)
    (key : option (list Z)) (s : Z * list Z) : option (Z * option ei_reg) :=
  let len := if fst s =? 0 then 0 else strlen (snd s) + 1 in
  with_args (-1) reg key (reg_set addr mem EI_STR (val_s (fst s)) len).

Definition ei_reg_setpval (addr : option Z) (mem : bool) (reg : option ei_reg)
    (key : option (list Z)) (p : Z) (size : Z) : option (Z * option ei_reg) :=
  if size <? 0 then Some (-1, reg)
  else with_args (-1) reg key (reg_set addr mem EI_BIN (val_p p) size).

(** The variable arguments. *)
Inductive reg_arg :=
  | arg_i (i : Z)
  | arg_f (f : Z)
  | arg_s (s : Z * list Z)
  | arg_p (p : Z) (len : Z).

(** An argument that is not what the flags announce is undefined. *)
Definition ei_reg_setval (addr : option Z) (mem : bool) (reg : option ei_reg)
    (key : option (list Z)) (flags : Z) (ap : reg_arg) : option (Z * option ei_reg) :=
  match reg, key with
  | Some _, Some _ =>
      let t := Z.land flags EI_REG_TYPEMASK in
      if t =? EI_INT then
        match ap with arg_i i => ei_reg_setival addr mem reg key i | _ => None end
      else if t =? EI_FLT then
        match ap with arg_f f => ei_reg_setfval addr mem reg key f | _ => None end
      else if t =? EI_STR then
        match ap with arg_s s => ei_reg_setsval addr mem reg key s | _ => None end
      else if t =? EI_BIN then
        match ap with arg_p p len => ei_reg_setpval addr mem reg key p len | _ => None end
      else Some (-1, reg)
  | _, _ => Some (-1, reg)
  end.

(** ** Getting values *)

(** The object with its address, if it exists and is not deleted. *)
Definition live_obj (r : ei_reg) (key : list Z) : option (option ei_reg_obj) :=
  match lookup_obj r key with
  | None => None
  | Some None => Some None
  | Some (Some (_, o)) => if deleted o then Some None else Some (Some o)
  end.

(** [if (ei_reg_typeof(obj) != type) return bad; return obj->val.m;] *)
Definition reg_get {A} (type : Z) (m : reg_val -> option A) (bad : A) (r : ei_reg)
    (key : list Z) : option (A * ei_reg) :=
  match live_obj r key with
  | None => None
  | Some None => Some (bad, r)
  | Some (Some o) =>
      if negb (ei_reg_typeof o =? type) then Some (bad, r)
      else match m (val o) with Some v => Some (v, r) | None => None end
  end.

Definition get_i (v : reg_val) : option Z := match v with val_i i => Some i | _ => None end.
Definition get_f (v : reg_val) : option Z := match v with val_f f => Some f | _ => None end.
Definition get_s (v : reg_val) : option Z := match v with val_s s => Some s | _ => None end.
Definition get_p (v : reg_val) : option Z := match v with val_p p => Some p | _ => None end.

Definition ei_reg_getival (reg : option ei_reg) (key : option (list Z)) :
    option (Z * option ei_reg) :=
  with_args (-1) reg key (reg_get EI_INT get_i (-1)).

(** The bits of the double -1. *)
Definition minus_one : Z := 0xbff0000000000000.
Definition ei_reg_getfval (reg : option ei_reg) (key : option (list Z)) :
    option (Z * option ei_reg) :=
  with_args minus_one reg key (reg_get EI_FLT get_f minus_one).

Definition ei_reg_getsval (reg : option ei_reg) (key : option (list Z)) :
    option (Z * option ei_reg) :=
  with_args 0 reg key (reg_get EI_STR get_s 0).

(** The pointer, and what is stored in [*size] if anything is. *)
Definition ei_reg_getpval (reg : option ei_reg) (key : option (list Z)) (size : bool) :
    option (Z * option Z * option ei_reg) :=
  match with_args (0, None) reg key (fun r key =>
    match live_obj r key with
    | None => None
    | Some None => Some ((0, None), r)
    | Some (Some o) =>
        if negb (ei_reg_typeof o =? EI_BIN) then Some ((0, None), r)
        else match get_p (val o) with
             | Some p => Some ((p, if size then Some (obj_size o) else None), r)
             | None => None
             end
    end) with
  | Some (a, r) => Some (a, r)
  | None => None
  end.

(** What is stored through the out pointers: the value, and the size. *)
Inductive reg_out :=
  | out_none
  | out_i (i : Z)
  | out_f (f : Z)
  | out_s (s : Z)
  | out_p (p : option Z) (size : option Z).

(** [ptr1] and [ptr2]: whether the out pointers are given. *)
Definition reg_getval (flags : Z) (ptr1 ptr2 : bool) (r : ei_reg) (key : list Z) :
    option ((Z * reg_out) * ei_reg) :=
  match live_obj r key with
  | None => None
  | Some None => Some ((-1, out_none), r)
  | Some (Some o) =>
      let objtype := ei_reg_typeof o in
      if negb (flags =? 0) && negb (flags =? objtype) then Some ((-1, out_none), r)
      else if objtype =? EI_INT then
        match get_i (val o) with
        | Some i => Some (if ptr1 then (objtype, out_i i) else (-1, out_none), r)
        | None => None
        end
      else if objtype =? EI_FLT then
        match get_f (val o) with
        | Some f => Some (if ptr1 then (objtype, out_f f) else (-1, out_none), r)
        | None => None
        end
      else if objtype =? EI_STR then
        match get_s (val o) with
        | Some s => Some (if ptr1 then (objtype, out_s s) else (-1, out_none), r)
        | None => None
        end
      else if objtype =? EI_BIN then
        match get_p (val o) with
        | Some p =>
            Some ((if ptr1 then objtype else -1,
                   out_p (if ptr1 then Some p else None)
                         (if ptr2 then Some (obj_size o) else None)), r)
        | None => None
        end
      else Some ((-1, out_none), r)
  end.

Definition ei_reg_getval (reg : option ei_reg) (key : option (list Z)) (flags : Z)
    (ptr1 ptr2 : bool) : option ((Z * reg_out) * option ei_reg) :=
  with_args (-1, out_none) reg key (reg_getval flags ptr1 ptr2).

(** ** Marks *)

Definition reg_mark (bits : Z) (r : ei_reg) (key : list Z) : option (Z * ei_reg) :=
  match lookup_obj r key with
  | None => None
  | Some None => Some (-1, r)
  | Some (Some (a, o)) =>
      Some (0, set_obj r a (Obj (Z.lor (attr o) bits) (obj_size o) (val o)))
  end.

Definition ei_reg_delete (reg : option ei_reg) (key : option (list Z)) :
    option (Z * option ei_reg) :=
  with_args (-1) reg key (reg_mark (Z.lor EI_DELET EI_DIRTY)).

Definition ei_reg_markdirty (reg : option ei_reg) (key : option (list Z)) :
    option (Z * option ei_reg) :=
  with_args (-1) reg key (reg_mark EI_DIRTY).

(** [obuf->attr, obuf->size] *)
Definition ei_reg_stat (reg : option ei_reg) (key : option (list Z)) (obuf : bool) :
    option ((Z * option (Z * Z)) * option ei_reg) :=
  if negb obuf then Some ((-1, None), reg) else
  with_args (-1, None) reg key (fun r key =>
    match lookup_obj r key with
    | None => None
    | Some None => Some ((-1, None), r)
    | Some (Some (_, o)) => Some ((0, Some (attr o, obj_size o)), r)
    end).

Record ei_reg_tabstat_t := Tabstat
  { ts_size : Z; ts_nelem : Z; ts_npos : Z; ts_collisions : Z }.

Definition ei_reg_tabstat (reg : option ei_reg) (obuf : bool) : Z * option ei_reg_tabstat_t :=
  match reg with
  | None => (-1, None)
  | Some r =>
      if negb obuf then (-1, None) else
      let t := reg_tab r in
      (0, Some (Tabstat (size t) (nelem t) (npos t) (nelem t - npos t)))
  end.

(** ** Purging *)

(** The object and the bucket are freed, and [tab->nelem--]. *)
Definition purge_bucket (r : ei_reg) (b : ei_bucket) : option ei_reg :=
  match ei_reg_free r (value b) with
  | None => None
  | Some r =>
      let t := reg_tab r in
      Some (set_tab r (Hash (tab t) (hash t) (size t) (nelem t - 1) (npos t)
                         (ei_hash_bfree (freelist t) b)))
  end.

Definition bucket_deleted (r : ei_reg) (b : ei_bucket) : option bool :=
  match objs r !! value b with Some o => Some (deleted o) | None => None end.

(** The second loop: behind a bucket that stays. *)
Fixpoint purge_rest (r : ei_reg) (c : list ei_bucket) : option (list ei_bucket * ei_reg) :=
  match c with
  | [] => Some ([], r)
  | next :: c =>
      match bucket_deleted r next with
      | None => None
      | Some true =>
          match purge_bucket r next with Some r => purge_rest r c | None => None end
      | Some false =>
          match purge_rest r c with Some (c, r) => Some (next :: c, r) | None => None end
      end
  end.

(** [do_purge]: the first loop, at the head of the chain. *)
Fixpoint do_purge (r : ei_reg) (head : list ei_bucket) : option (list ei_bucket * ei_reg) :=
  match head with
  | [] => Some ([], r)
  | this :: head =>
      match bucket_deleted r this with
      | None => None
      | Some true =>
          match purge_bucket r this with Some r => do_purge r head | None => None end
      | Some false =>
          match purge_rest r head with Some (c, r) => Some (this :: c, r) | None => None end
      end
  end.

(** [for (i=0; i<tab->size; i++) ...], [n] rounds left. *)
Fixpoint purge_from (n : nat) (i : nat) (r : ei_reg) : option ei_reg :=
  match n with
  | O => Some r
  | S n =>
      match tab (reg_tab r) !! i with
      | None => None
      | Some [] => purge_from n (S i) r
      | Some c =>
          match do_purge r c with
          | None => None
          | Some (c, r) =>
              let t := reg_tab r in
              let npos := match c with [] => npos t - 1 | _ => npos t end in
              purge_from n (S i)
                (set_tab r (Hash (<[i := c]> (tab t)) (hash t) (size t) (nelem t) npos
                              (freelist t)))
          end
      end
  end.

Definition ei_reg_purge (reg : option ei_reg) : option (Z * option ei_reg) :=
  match reg with
  | None => Some (-1, None)
  | Some r =>
      match purge_from (Z.to_nat (size (reg_tab r))) 0 r with
      | Some r => Some (0, Some r)
      | None => None
      end
  end.

(** ** Opening, resizing, closing *)

Definition ei_reg_open (fuel : nat) (mem_reg mem_tab : bool) (size : Z) : option (option ei_reg) :=
  if size <=? 0 then Some None else
  if negb mem_reg then Some None else
  match ei_hash_newtab fuel mem_tab size with
  | None => None
  | Some None => Some None
  | Some (Some t) => Some (Some (Reg ∅ t [] []))
  end.

Definition ei_reg_resize (fuel : nat) (mem : bool) (reg : option ei_reg) (newsize : Z) :
    option (Z * option ei_reg) :=
  match reg with
  | None => Some (-1, None)
  | Some r =>
      if newsize <=? 0 then Some (-1, reg) else
      match ei_hash_resize fuel mem (reg_tab r) newsize with
      | None => None
      | Some t => Some (size t, Some (set_tab r t))
      end
  end.

(** The value [obj_free] gives to [free] along with the inode, if any. *)
Definition obj_free (r : ei_reg) (a : Z) : option (list Z) :=
  if a =? 0 then Some [] else
  match objs r !! a with
  | None => None
  | Some o =>
      if ei_reg_typeof o =? EI_STR then (s ← get_s (val o); Some [s])
      else if ei_reg_typeof o =? EI_BIN then (p ← get_p (val o); Some [p])
      else Some []
  end.

(** Returns [rc], the values freed and the inodes freed: those in the table,
    then those of the freelist. *)
Definition ei_reg_close (reg : option ei_reg) : option (Z * list Z * list Z) :=
  match reg with
  | None => Some (-1, [], [])
  | Some r =>
      let addrs := ei_hash_freetab (reg_tab r) in
      match mapM (obj_free r) addrs with
      | None => None
      | Some vs => Some (0, concat vs, addrs ++ reg_free r)
      end
  end.
