(* ===== verification/RegOk.v ===== *)
(** * The registry keeps named values

    The invariant [reg_ok], the view a user has of a registry ([view]: the
    inode of each name), and what every operation does to it. *)

From stdpp Require Import gmap fin_maps.
From S2P Require Import Prelude Ext Prime Hash HashOk Reg.
#[local] Open Scope Z_scope.

(** ** The invariant *)

(** The member of the union is the one the attributes announce. *)
Definition obj_ok (o : ei_reg_obj) : Prop :=
  match val o with
  | val_none => False
  | val_i _ => ei_reg_typeof o = EI_INT
  | val_f _ => ei_reg_typeof o = EI_FLT
  | val_s _ => ei_reg_typeof o = EI_STR
  | val_p _ => ei_reg_typeof o = EI_BIN
  end.

Definition names (r : ei_reg) : gmap (list Z) Z := to_map (reg_tab r).

Record reg_ok (r : ei_reg) : Prop := RegOk {
  rok_hash : hash_ok (reg_tab r);
  rok_obj : forall k a, names r !! k = Some a ->
    a <> 0 /\ exists o, objs r !! a = Some o /\ obj_ok o;
  rok_inj : forall k1 k2 a, names r !! k1 = Some a -> names r !! k2 = Some a -> k1 = k2;
  rok_free : forall a, a ∈ reg_free r ->
    a <> 0 /\ is_Some (objs r !! a) /\ forall k, names r !! k <> Some a;
  rok_nodup : NoDup (reg_free r)
}.

(** The inode a name stands for. *)
Definition view (r : ei_reg) (k : list Z) : option ei_reg_obj :=
  a ← names r !! c_str k; objs r !! a.

(** What a user can get. *)
Definition live (r : ei_reg) (k : list Z) : option ei_reg_obj :=
  match view r k with
  | Some o => if deleted o then None else Some o
  | None => None
  end.

Lemma lookup_obj_ok r k : reg_ok r ->
  (names r !! c_str k = None /\ view r k = None /\ lookup_obj r k = Some None) \/
  (exists a o, names r !! c_str k = Some a /\ objs r !! a = Some o /\ obj_ok o /\
     view r k = Some o /\ lookup_obj r k = Some (Some (a, o))).
Proof.
  intros Hr. unfold lookup_obj, view. rewrite (lookup_ok _ k (rok_hash r Hr)).
  fold (names r). destruct (names r !! c_str k) as [a |] eqn:E; cbn.
  - right. destruct (rok_obj r Hr _ _ E) as (Ha & o & Ho & Hok). exists a, o.
    rewrite (proj2 (Z.eqb_neq _ _) Ha), Ho. auto.
  - by left.
Qed.

Lemma live_obj_ok r k : reg_ok r -> live_obj r k = Some (live r k).
Proof.
  intros Hr. unfold live_obj, live.
  destruct (lookup_obj_ok r k Hr) as [(_ & -> & ->) | (a & o & _ & _ & _ & -> & ->)]; [done |].
  by destruct (deleted o).
Qed.

Lemma live_type r k o : reg_ok r -> live r k = Some o -> obj_ok o.
Proof.
  intros Hr. unfold live.
  destruct (lookup_obj_ok r k Hr) as [(_ & -> & _) | (a & o' & _ & _ & Ho & -> & _)]; [done |].
  destruct (deleted o'); [done |]. by intros [= <-].
Qed.

(** ** Getting *)

Lemma obj_ok_case o : obj_ok o ->
  (ei_reg_typeof o = EI_INT /\ exists i, val o = val_i i) \/
  (ei_reg_typeof o = EI_FLT /\ exists f, val o = val_f f) \/
  (ei_reg_typeof o = EI_STR /\ exists s, val o = val_s s) \/
  (ei_reg_typeof o = EI_BIN /\ exists p, val o = val_p p).
Proof. unfold obj_ok. destruct (val o); eauto 10. done. Qed.

Ltac obj_cases H :=
  apply obj_ok_case in H as [[Ht [x Hx]] | [[Ht [x Hx]] | [[Ht [x Hx]] | [Ht [x Hx]]]]].

Lemma reg_get_ok {A} type m (bad : A) r k : reg_ok r ->
  (forall o, obj_ok o -> ei_reg_typeof o = type -> is_Some (m (val o))) ->
  reg_get type m bad r k = Some (match live r k with
    | Some o => if ei_reg_typeof o =? type then default bad (m (val o)) else bad
    | None => bad
    end, r).
Proof.
  intros Hr Hm. unfold reg_get. rewrite (live_obj_ok r k Hr).
  destruct (live r k) as [o |] eqn:El; [| done].
  pose proof (live_type r k o Hr El) as Ho.
  destruct (Z.eqb_spec (ei_reg_typeof o) type) as [E | E]; cbn [negb]; [| done].
  destruct (Hm o Ho E) as [v ->]. done.
Qed.

(** ** Inodes *)

Definition fresh (r : ei_reg) (addr : option Z) : Prop :=
  forall a, addr = Some a -> a <> 0 /\ objs r !! a = None.

Lemma reg_make_ok r addr type : reg_ok r -> fresh r addr ->
  match ei_reg_make addr r type with
  | Some (None, r') => r' = r /\ reg_free r = [] /\ addr = None
  | Some (Some a, r') =>
      (reg_free r <> [] \/ is_Some addr) /\
      reg_ok r' /\ a <> 0 /\ (forall k, names r !! k <> Some a) /\ (a ∉ reg_free r') /\
      names r' = names r /\ reg_tab r' = reg_tab r /\ freed r' = freed r /\
      is_Some (objs r' !! a) /\ (forall b, b <> a -> objs r' !! b = objs r !! b)
  | None => False
  end.
Proof.
  intros Hr Hf. unfold ei_reg_make.
  assert (Hgo : forall a free o, a <> 0 -> (forall k, names r !! k <> Some a) ->
    (forall b, b ∈ free -> b ∈ reg_free r) -> a ∉ free -> NoDup free ->
    let r' := Reg (<[a := o]> (objs r)) (reg_tab r) free (freed r) in
    reg_ok r' /\ a <> 0 /\ (forall k, names r !! k <> Some a) /\ (a ∉ reg_free r') /\
    names r' = names r /\ reg_tab r' = reg_tab r /\ freed r' = freed r /\
    is_Some (objs r' !! a) /\ (forall b, b <> a -> objs r' !! b = objs r !! b)).
  { intros a free o Ha Hn Hsub Hnot Hnd r'. split.
    - constructor; cbn; try (by apply Hr).
      + intros k b Hk. destruct (rok_obj r Hr k b Hk) as (? & o' & ? & ?).
        split; [done |]. exists o'. rewrite lookup_insert_ne; [done |].
        intros ->. by apply (Hn k).
      + intros b Hb. destruct (rok_free r Hr b (Hsub b Hb)) as (? & ? & ?).
        split; [done |]. split; [| done]. rewrite lookup_insert_ne; [done |]. by intros ->.
      + done.
    - cbn. rewrite lookup_insert_eq. do 6 (split; [done |]). split; [by eexists |].
      intros b Hb. by rewrite lookup_insert_ne. }
  destruct (reg_free r) as [| a free] eqn:Efr.
  - destruct addr as [a |]; [| done]. destruct (Hf a eq_refl) as [Ha Hno].
    split; [right; by eexists |]. apply Hgo; [done | | done | | constructor].
    + intros k Hk. destruct (rok_obj r Hr k a Hk) as (_ & o & Ho & _). congruence.
    + apply not_elem_of_nil.
  - pose proof (rok_nodup r Hr) as Hnd. rewrite Efr in Hnd. inversion Hnd as [| ? ? Hn1 Hn2]; subst.
    destruct (rok_free r Hr a) as (Ha & _ & Hk); [rewrite Efr; apply elem_of_cons; by left |].
    split; [by left |]. apply Hgo; [done | done | | done | done].
    intros b Hb. rewrite elem_of_cons. by right.
Qed.

(** ** Setting *)

(** What becomes of the value an object held. *)
Definition dropped (o : ei_reg_obj) : list Z :=
  if 0 <? obj_size o then
    match val o with val_s s => [s] | val_p p => [p] | _ => [] end
  else [].

Lemma drop_value_ok r o : obj_ok o ->
  drop_value r o
  = Some (true, Reg (objs r) (reg_tab r) (reg_free r) (dropped o ++ freed r)).
Proof.
  intros Ho. unfold drop_value, free_s, free_p, dropped. destruct r as [m t fr fd].
  obj_cases Ho; rewrite Ht, Hx; cbn; by destruct (0 <? obj_size o).
Qed.

(** Storing an inode at the address of a name. *)
Lemma set_obj_ok r k a o fd : reg_ok r -> names r !! c_str k = Some a -> obj_ok o ->
  let r' := Reg (<[a := o]> (objs r)) (reg_tab r) (reg_free r) fd in
  reg_ok r' /\ view r' k = Some o /\ forall k', c_str k' <> c_str k -> view r' k' = view r k'.
Proof.
  intros Hr Hk Ho r'. assert (Hna : forall k', names r !! k' = Some a -> k' = c_str k)
    by (intros k' Hk'; by apply (rok_inj r Hr k' (c_str k) a)).
  split; [constructor; cbn; try (by apply Hr) | split].
  - intros k' a' Hk'. destruct (rok_obj r Hr k' a' Hk') as (? & o' & ? & ?).
    split; [done |]. destruct (decide (a' = a)) as [-> |].
    + exists o. by rewrite lookup_insert_eq.
    + exists o'. by rewrite lookup_insert_ne.
  - intros b Hb. destruct (rok_free r Hr b Hb) as (? & ? & Hn). split; [done |].
    split; [| done]. rewrite lookup_insert_ne; [done |]. intros ->. by apply (Hn (c_str k)).
  - unfold view. change (names r') with (names r). rewrite Hk. cbn. by rewrite lookup_insert_eq.
  - intros k' Hne. unfold view. change (names r') with (names r).
    destruct (names r !! c_str k') as [a' |] eqn:E; cbn; [| done].
    rewrite lookup_insert_ne; [done |]. intros <-. apply Hne. by apply Hna.
Qed.

(** A name gets an inode of its own. *)
Lemma add_name_ok r k a t : reg_ok r -> hash_ok t -> a <> 0 ->
  is_Some (objs r !! a) -> a ∉ reg_free r -> (forall k, names r !! k <> Some a) ->
  forall o, obj_ok o -> to_map t = <[c_str k := a]> (names r) ->
  let r' := Reg (<[a := o]> (objs r)) t (reg_free r) (freed r) in
  reg_ok r' /\ view r' k = Some o /\ forall k', c_str k' <> c_str k -> view r' k' = view r k'.
Proof.
  intros Hr Ht Ha Hin Hfr Hno o Ho Hm r'.
  assert (Hn : names r' = <[c_str k := a]> (names r)) by exact Hm.
  split; [constructor; cbn; try done | split].
  - rewrite Hn. intros k' a' [(<- & <-) | (Hne & Hk')]%lookup_insert_Some.
    + split; [done |]. exists o. by rewrite lookup_insert_eq.
    + destruct (rok_obj r Hr k' a' Hk') as (? & o' & ? & ?). split; [done |].
      exists o'. rewrite lookup_insert_ne; [done |]. intros ->. by apply (Hno k').
  - rewrite Hn. intros k1 k2 a' [(<- & <-) | (? & H1)]%lookup_insert_Some
      [(<- & E) | (? & H2)]%lookup_insert_Some; try done.
    + by apply Hno in H2.
    + subst a'. by apply Hno in H1.
    + by apply (rok_inj r Hr k1 k2 a').
  - intros b Hb. destruct (rok_free r Hr b Hb) as (? & ? & Hbn). split; [done |].
    assert (b <> a) by (by intros ->). split; [by rewrite lookup_insert_ne |].
    rewrite Hn. intros k' [(_ & ?) | (_ & ?)]%lookup_insert_Some; [done | by apply (Hbn k')].
  - apply Hr.
  - unfold view. rewrite Hn, lookup_insert_eq. cbn. by rewrite lookup_insert_eq.
  - intros k' Hne. unfold view. rewrite Hn, lookup_insert_ne by done.
    destruct (names r !! c_str k') as [a' |] eqn:E; cbn; [| done].
    rewrite lookup_insert_ne; [done |]. intros <-. by apply (Hno (c_str k')).
Qed.

(** Whether there is an inode for a new name: one that was freed, or one that
    [malloc] gives. *)
Definition inode_room (r : ei_reg) (addr : option Z) : bool :=
  match reg_free r with [] => bool_decide (is_Some addr) | _ => true end.

Definition new_obj (type : Z) (v : reg_val) (n : Z) : ei_reg_obj :=
  Obj (Z.lor type EI_DIRTY) n v.

Lemma reg_set_present addr mem type v n r k o :
  reg_ok r -> view r k = Some o -> obj_ok (new_obj type v n) ->
  exists r', reg_set addr mem type v n r k = Some (0, r') /\ reg_ok r' /\
    view r' k = Some (new_obj type v n) /\
    (forall k', c_str k' <> c_str k -> view r' k' = view r k') /\
    freed r' = dropped o ++ freed r.
Proof.
  intros Hr Hv Hn. unfold reg_set.
  destruct (lookup_obj_ok r k Hr) as [(_ & E & _) | (a & o' & Hk & Ha & Ho & E & ->)];
    [congruence |].
  rewrite E in Hv. injection Hv as ->. rewrite (drop_value_ok r o Ho).
  destruct (set_obj_ok r k a _ (dropped o ++ freed r) Hr Hk Hn) as (Hr' & Hv' & Hother).
  eexists. split; [done |]. auto.
Qed.

Lemma reg_set_absent addr mem type v n r k :
  reg_ok r -> fresh r addr -> view r k = None -> obj_ok (new_obj type v n) ->
  exists r', reg_set addr mem type v n r k
      = Some (if inode_room r addr then 0 else -1, r') /\
    (if inode_room r addr then
       if insert_room mem (reg_tab r) k then
         reg_ok r' /\ view r' k = Some (new_obj type v n) /\
         (forall k', c_str k' <> c_str k -> view r' k' = view r k')
       else reg_tab r' = reg_tab r /\ forall k', view r' k' = view r k'
     else r' = r).
Proof.
  intros Hr Hf Hv Hn. unfold reg_set.
  destruct (lookup_obj_ok r k Hr) as [(Hk & _ & ->) | (a & o & _ & _ & _ & E & _)];
    [| congruence].
  pose proof (reg_make_ok r addr type Hr Hf) as Hmk. unfold inode_room.
  destruct (ei_reg_make addr r type) as [[[a |] r1] |]; [| | done].
  - destruct Hmk as (Hroom & Hr1 & Ha & Hno & Hfr & Hnames & Htab & Hfd & Hin & Hob).
    assert (Hrt : (match reg_free r with [] => bool_decide (is_Some addr) | _ => true end) = true).
    { destruct (reg_free r); [| done]. apply bool_decide_true. by destruct Hroom. }
    rewrite Hrt.
    destruct (insert_ok mem (reg_tab r1) k a (rok_hash r1 Hr1)) as (t & -> & Ht & _ & _ & Hm).
    rewrite Htab in Hm. eexists. split; [done |].
    assert (Hview1 : forall k', view r1 k' = view r k').
    { intros k'. unfold view. rewrite Hnames. destruct (names r !! c_str k') as [b |] eqn:E; [| done].
      cbn. apply Hob. intros ->. by apply (Hno (c_str k')). }
    destruct (insert_room mem (reg_tab r) k).
    + destruct (add_name_ok r1 k a t Hr1 Ht Ha Hin Hfr) with (o := new_obj type v n)
        as (Hr' & Hv' & Hother); [by rewrite Hnames | done | by rewrite Hnames |].
      split; [done |]. split; [done |]. intros k' Hne. by rewrite <- Hview1, <- Hother.
    + subst t. cbn. split; [done |]. intros k'. rewrite <- Hview1. unfold view.
      change (names (set_obj (set_tab r1 (reg_tab r)) a (Obj (Z.lor type EI_DIRTY) n v))) with (names r).
      rewrite Hnames. destruct (names r !! c_str k') as [b |] eqn:E; [| done]. cbn.
      rewrite lookup_insert_ne; [done |]. intros <-. by apply (Hno (c_str k')).
  - destruct Hmk as (-> & -> & ->). exists r.
    rewrite bool_decide_false by (by intros [? ?]). done.
Qed.

(** ** Marks *)

Lemma typeof_mark o bits : Z.land bits EI_REG_TYPEMASK = 0 ->
  ei_reg_typeof (Obj (Z.lor (attr o) bits) (obj_size o) (val o)) = ei_reg_typeof o.
Proof. intros Hb. unfold ei_reg_typeof. cbn [attr]. by rewrite Z.land_lor_distr_l, Hb, Z.lor_0_r. Qed.

Lemma deleted_lor a n v : deleted (Obj (Z.lor a (Z.lor EI_DELET EI_DIRTY)) n v) = true.
Proof.
  unfold deleted. cbn [attr]. rewrite Z.land_lor_distr_l.
  change (Z.land (Z.lor EI_DELET EI_DIRTY) EI_DELET) with 2.
  destruct (Z.eqb_spec (Z.lor (Z.land a EI_DELET) 2) 0) as [E |]; [| done].
  by apply Z.lor_eq_0_iff in E as [_ E].
Qed.

Lemma reg_mark_ok bits r k : reg_ok r -> Z.land bits EI_REG_TYPEMASK = 0 ->
  match view r k with
  | None => reg_mark bits r k = Some (-1, r)
  | Some o => exists r', reg_mark bits r k = Some (0, r') /\ reg_ok r' /\
      view r' k = Some (Obj (Z.lor (attr o) bits) (obj_size o) (val o)) /\
      forall k', c_str k' <> c_str k -> view r' k' = view r k'
  end.
Proof.
  intros Hr Hb. unfold reg_mark.
  destruct (lookup_obj_ok r k Hr) as [(_ & -> & ->) | (a & o & Hk & _ & Ho & -> & ->)]; [done |].
  assert (Hok : obj_ok (Obj (Z.lor (attr o) bits) (obj_size o) (val o)))
    by (unfold obj_ok in *; rewrite (typeof_mark o bits Hb); cbn [val]; done).
  destruct (set_obj_ok r k a _ (freed r) Hr Hk Hok) as (Hr' & Hv' & Hother).
  eexists. split; [done |]. auto.
Qed.

(** ** Opening and resizing *)

Lemma names_empty h q : names (Reg ∅ (Hash (replicate (Z.to_nat q) []) h q 0 0 []) [] []) = ∅.
Proof. unfold names, to_map. cbn. by rewrite concat_replicate_nil. Qed.

Lemma open_ok fuel m1 m2 n :
  1 <= n <= largest_size -> largest_size - n < 2 * Z.of_nat fuel ->
  exists o, ei_reg_open fuel m1 m2 n = Some o /\
    if m1 && m2 then exists r, o = Some r /\ reg_ok r /\ forall k, view r k = None else o = None.
Proof.
  intros Hn Hf. unfold ei_reg_open. rewrite (proj2 (Z.leb_gt _ _)) by lia.
  destruct m1; [| by exists None]. cbn [negb andb].
  destruct (newtab_ok fuel m2 n Hn Hf) as (q & Hq & _ & _ & -> & Hok).
  destruct m2; [| by exists None]. eexists. split; [done |]. eexists. split; [done |].
  assert (Hv : forall k, names (Reg ∅ (Hash (replicate (Z.to_nat q) []) ei_dohash q 0 0 []) [] []) !! k = None)
    by (intros k; by rewrite names_empty).
  split.
  - constructor; try done.
    + intros k a Hk. by rewrite Hv in Hk.
    + intros k1 k2 a Hk. by rewrite Hv in Hk.
    + intros a Ha. by apply elem_of_nil in Ha.
    + constructor.
  - intros k. unfold view. by rewrite Hv.
Qed.

Lemma set_tab_ok r t : reg_ok r -> hash_ok t -> to_map t = names r ->
  reg_ok (set_tab r t) /\ forall k, view (set_tab r t) k = view r k.
Proof.
  intros Hr Ht Hm. assert (Hn : names (set_tab r t) = names r) by exact Hm.
  split; [| intros k; unfold view; by rewrite Hn].
  constructor; cbn; rewrite ?Hn; try (by apply Hr). done.
Qed.

Lemma reg_resize_ok fuel mem r n : reg_ok r ->
  1 <= n <= largest_size -> largest_size - n < 2 * Z.of_nat fuel ->
  exists r', ei_reg_resize fuel mem (Some r) n = Some (size (reg_tab r'), Some r') /\
    reg_ok r' /\ (forall k, view r' k = view r k) /\
    (reg_tab r' = reg_tab r \/ (mem = true /\ n <= size (reg_tab r') <= largest_size)).
Proof.
  intros Hr Hn Hf. unfold ei_reg_resize. rewrite (proj2 (Z.leb_gt _ _)) by lia.
  destruct (resize_ok fuel mem (reg_tab r) n (rok_hash r Hr) Hn Hf) as (t & -> & Ht & _ & Hm & Hc).
  destruct (set_tab_ok r t Hr Ht Hm) as [Hr' Hv].
  exists (set_tab r t). split; [done |]. split; [done |]. split; [done |].
  cbn. destruct Hc as [-> | (? & ? & _)]; [by left | by right].
Qed.

(** ** Purging *)

(** Whether the object of a bucket stays. *)
Definition keep (m : gmap Z ei_reg_obj) (b : ei_bucket) : bool :=
  match m !! value b with Some o => negb (deleted o) | None => true end.
Definition kept m (c : list ei_bucket) : list ei_bucket := List.filter (keep m) c.
Definition gone m (c : list ei_bucket) : list ei_bucket := List.filter (fun b => negb (keep m b)) c.

Definition held (m : gmap Z ei_reg_obj) (b : ei_bucket) : list Z :=
  match m !! value b with
  | Some o => match val o with val_s s => [s] | val_p p => [p] | _ => [] end
  | None => []
  end.

(** The registry after the objects and the buckets [bs] were freed, the chain
    not yet stored. *)
Definition purged (r : ei_reg) (bs : list ei_bucket) : ei_reg :=
  let t := reg_tab r in
  Reg (objs r)
    (Hash (tab t) (hash t) (size t) (nelem t - len bs) (npos t)
       (foldl ei_hash_bfree (freelist t) bs))
    (rev (value <$> bs) ++ reg_free r)
    (rev (bs ≫= held (objs r)) ++ freed r).

Lemma purged_nil r : purged r [] = r.
Proof. unfold purged. destruct r as [m [] fr fd]. cbn. by rewrite Z.sub_0_r. Qed.

Lemma purged_cons r b bs : purged (purged r [b]) bs = purged r (b :: bs).
Proof.
  unfold purged. cbn [reg_tab tab hash size nelem npos freelist objs reg_free freed foldl].
  f_equal.
  - f_equal. rewrite !len_cons. change (len []) with 0. lia.
  - cbn. by rewrite <- app_assoc.
  - cbn. rewrite app_nil_r, rev_app_distr, <- app_assoc. do 2 f_equal.
Qed.

Definition inode_at (m : gmap Z ei_reg_obj) (b : ei_bucket) : Prop :=
  exists o, m !! value b = Some o /\ obj_ok o.

Lemma purge_bucket_ok r b : inode_at (objs r) b -> purge_bucket r b = Some (purged r [b]).
Proof.
  intros (o & Ho & Hok). unfold purge_bucket, ei_reg_free, purged, free_s, free_p. rewrite Ho.
  cbn [mbind list_bind app]. unfold held. rewrite Ho. destruct r as [m t fr fd].
  obj_cases Hok; rewrite Ht, Hx; cbn; rewrite ?Hx; reflexivity.
Qed.

Lemma keep_deleted m b o : m !! value b = Some o -> keep m b = negb (deleted o).
Proof. intros Ho. unfold keep. by rewrite Ho. Qed.
Lemma kept_cons m b c : kept m (b :: c) = if keep m b then b :: kept m c else kept m c.
Proof. done. Qed.
Lemma gone_cons m b c : gone m (b :: c) = if keep m b then gone m c else b :: gone m c.
Proof. unfold gone. cbn. by destruct (keep m b). Qed.

Lemma purge_rest_ok c : forall r, Forall (inode_at (objs r)) c ->
  purge_rest r c = Some (kept (objs r) c, purged r (gone (objs r) c)).
Proof.
  induction c as [| b c IH]; intros r Hc; cbn [purge_rest].
  - by rewrite purged_nil.
  - inversion Hc as [| ? ? Hb Hc']; subst. pose proof Hb as (o & Ho & _).
    rewrite kept_cons, gone_cons. unfold bucket_deleted. rewrite (keep_deleted _ _ _ Ho), Ho.
    destruct (deleted o); cbn [negb].
    + rewrite (purge_bucket_ok r b Hb), IH by done. by rewrite purged_cons.
    + by rewrite IH.
Qed.

Lemma do_purge_ok c : forall r, Forall (inode_at (objs r)) c ->
  do_purge r c = Some (kept (objs r) c, purged r (gone (objs r) c)).
Proof.
  induction c as [| b c IH]; intros r Hc; cbn [do_purge].
  - by rewrite purged_nil.
  - inversion Hc as [| ? ? Hb Hc']; subst. pose proof Hb as (o & Ho & _).
    rewrite kept_cons, gone_cons. unfold bucket_deleted. rewrite (keep_deleted _ _ _ Ho), Ho.
    destruct (deleted o); cbn [negb].
    + rewrite (purge_bucket_ok r b Hb), IH by done. by rewrite purged_cons.
    + by rewrite purge_rest_ok.
Qed.

Lemma kept_gone m c : c ≡ₚ kept m c ++ gone m c.
Proof.
  unfold kept, gone. induction c as [| b c IH]; [done |]. cbn. destruct (keep m b); cbn.
  - by rewrite <- IH.
  - rewrite <- Permutation_middle. by rewrite <- IH.
Qed.

Lemma elem_kept m c b : b ∈ kept m c <-> b ∈ c /\ keep m b = true.
Proof. unfold kept. rewrite !list_elem_of_In. apply filter_In. Qed.
Lemma elem_gone m c b : b ∈ gone m c <-> b ∈ c /\ keep m b = false.
Proof. unfold gone. rewrite !list_elem_of_In, filter_In. by rewrite negb_true_iff. Qed.

Lemma foldl_bfree_ok bs : forall free, Forall (fun b => small b = true) free ->
  Forall (fun b => small b = true) (foldl ei_hash_bfree free bs).
Proof.
  induction bs as [| b bs IH]; intros free Hf; [done |]. cbn. apply IH.
  unfold ei_hash_bfree. destruct (small b) eqn:E; [by constructor | done].
Qed.

(** The bucket of an address. *)
Lemma value_inj r b1 b2 : reg_ok r -> b1 ∈ concat (tab (reg_tab r)) ->
  b2 ∈ concat (tab (reg_tab r)) -> value b1 = value b2 -> b1 = b2.
Proof.
  intros Hr H1 H2 Hv. apply (key_inj (reg_tab r)); [apply Hr | done | done |].
  apply (rok_inj r Hr) with (a := value b2); unfold names;
    apply (to_map_elem _ _ _ (rok_hash r Hr)); eauto.
Qed.

Lemma bucket_name r b : reg_ok r -> b ∈ concat (tab (reg_tab r)) ->
  names r !! key b = Some (value b).
Proof. intros Hr Hb. apply (to_map_elem _ _ _ (rok_hash r Hr)). eauto. Qed.

(** One round of the loop of [ei_reg_purge]. *)
Definition purge_step (r : ei_reg) (i : nat) (c : list ei_bucket) : ei_reg :=
  let r1 := purged r (gone (objs r) c) in
  let c' := kept (objs r) c in
  let t := reg_tab r1 in
  let npos := match c' with [] => npos t - 1 | _ => npos t end in
  set_tab r1 (Hash (<[i := c']> (tab t)) (hash t) (size t) (nelem t) npos (freelist t)).

Lemma purge_step_hash r i c : reg_ok r -> tab (reg_tab r) !! i = Some c -> c <> [] ->
  hash_ok (reg_tab (purge_step r i c)).
Proof.
  intros Hr Hi Hne. pose proof (rok_hash r Hr) as Ht. unfold purge_step.
  cbn [purged set_tab reg_tab tab hash size nelem npos freelist].
  pose proof (kept_gone (objs r) c) as Hkg.
  assert (Hlen : len c = len (kept (objs r) c) + len (gone (objs r) c))
    by (rewrite (Permutation_length Hkg), length_app; lia).
  apply (update_chain_ok (reg_tab r) i c); [done | done | | | lia | | apply foldl_bfree_ok, Ht].
  - intros b [Hb _]%elem_kept. by apply (ok_bucket (reg_tab r) Ht i c).
  - intros rest Hp. destruct (to_map_split _ c rest Ht Hp) as [_ Hnd]. revert Hnd.
    rewrite Hkg at 1. rewrite !fmap_app. rewrite <- app_assoc.
    rewrite (Permutation_app_comm (key <$> gone _ _)), app_assoc.
    by intros [? _]%list.NoDup_app.
  - destruct c; [done |]. cbn [occ]. destruct (kept _ _); cbn [occ]; lia.
Qed.

Lemma purge_step_elem r i c b : reg_ok r -> tab (reg_tab r) !! i = Some c ->
  b ∈ concat (tab (reg_tab (purge_step r i c))) ->
  b ∈ concat (tab (reg_tab r)) /\ (b ∈ c -> keep (objs r) b = true).
Proof.
  intros Hr Hi. pose proof (rok_hash r Hr) as Ht.
  destruct (table_split (tab (reg_tab r)) i c Hi) as (rest & m & Hp & _ & Hs).
  destruct (Hs (kept (objs r) c)) as [Hp' _]. cbn. rewrite Hp', Hp, !elem_of_app.
  destruct (to_map_split _ c rest Ht Hp) as [_ Hnd]. rewrite fmap_app in Hnd.
  apply list.NoDup_app in Hnd as (_ & Hd & _).
  intros [[Hb Hk]%elem_kept | Hb]; [by auto |]. split; [by right |].
  intros Hc. exfalso. apply (Hd (key b)); apply list_elem_of_fmap; by exists b.
Qed.

Lemma purge_step_ok r i c : reg_ok r -> tab (reg_tab r) !! i = Some c -> c <> [] ->
  reg_ok (purge_step r i c).
Proof.
  intros Hr Hi Hne. pose proof (purge_step_hash r i c Hr Hi Hne) as Ht'.
  set (r' := purge_step r i c) in *.
  assert (Hin : forall b, b ∈ c -> b ∈ concat (tab (reg_tab r))).
  { intros b Hb. apply elem_concat. exists c. split; [done |]. by eapply list_elem_of_lookup_2. }
  assert (Hsub : forall k a, names r' !! k = Some a ->
    names r !! k = Some a /\ forall b, b ∈ c -> value b = a -> keep (objs r) b = true).
  { intros k a (b & Hb & <- & <-)%to_map_elem; [| done].
    destruct (purge_step_elem r i c b Hr Hi Hb) as [Hb1 Hb2].
    split; [by apply bucket_name |]. intros b' Hb' Hv. apply (value_inj r) in Hv as ->; auto. }
  constructor; [done | | | |].
  - intros k a [Hk _]%Hsub. by apply (rok_obj r Hr k).
  - intros k1 k2 a [H1 _]%Hsub [H2 _]%Hsub. by apply (rok_inj r Hr k1 k2 a).
  - intros a Ha. cbn in Ha. apply elem_of_app in Ha as [Ha | Ha].
    + rewrite list_elem_of_In, <- in_rev, <- list_elem_of_In in Ha.
      apply list_elem_of_fmap in Ha as (b & -> & [Hb Hk]%elem_gone).
      pose proof (bucket_name r b Hr (Hin b Hb)) as Hnb.
      destruct (rok_obj r Hr _ _ Hnb) as (? & o & ? & _). split; [done |]. split; [by exists o |].
      intros k [_ Hc]%Hsub. specialize (Hc b Hb eq_refl). congruence.
    + destruct (rok_free r Hr a Ha) as (? & ? & Hn). split; [done |]. split; [done |].
      intros k [Hk _]%Hsub. by apply (Hn k).
  - cbn. apply list.NoDup_app. split; [| split; [| apply Hr]].
    + rewrite <- (Permutation_rev (value <$> gone (objs r) c)).
      pose proof (ok_keys _ (rok_hash r Hr)) as Hk.
      destruct (table_split (tab (reg_tab r)) i c Hi) as (rest & m & Hp & _ & _).
      rewrite Hp, (kept_gone (objs r) c), !fmap_app in Hk.
      apply list.NoDup_app in Hk as (Hk & _ & _). apply list.NoDup_app in Hk as (_ & _ & Hk).
      apply NoDup_fmap_1 in Hk. apply NoDup_fmap_2_strong; [| done].
      intros b1 b2 [Hb1 _]%elem_gone [Hb2 _]%elem_gone Hv. by apply (value_inj r); auto.
    + intros a Ha Ha'. rewrite list_elem_of_In, <- in_rev, <- list_elem_of_In in Ha.
      apply list_elem_of_fmap in Ha as (b & -> & [Hb Hk]%elem_gone).
      destruct (rok_free r Hr _ Ha') as (_ & _ & Hn). apply (Hn (key b)).
      by apply bucket_name; auto.
Qed.

Lemma chain_inodes r i c : reg_ok r -> tab (reg_tab r) !! i = Some c ->
  Forall (inode_at (objs r)) c.
Proof.
  intros Hr Hi. apply list.Forall_forall. intros b Hb.
  assert (Hc : b ∈ concat (tab (reg_tab r)))
    by (apply elem_concat; exists c; split; [done | by eapply list_elem_of_lookup_2]).
  destruct (rok_obj r Hr _ _ (bucket_name r b Hr Hc)) as (_ & o & ? & ?). by exists o.
Qed.

Lemma kept_kept m c : kept m (kept m c) = kept m c.
Proof.
  induction c as [| b c IH]; [done |]. rewrite kept_cons.
  destruct (keep m b) eqn:E; [| done]. rewrite kept_cons, E. by f_equal.
Qed.

(** What is in the freelist after a round, and what the later rounds put there. *)
Lemma purge_step_free r i c a : tab (reg_tab r) !! i = Some c ->
  a ∈ reg_free (purge_step r i c) \/
    (exists j d b, (S i <= j)%nat /\ tab (reg_tab (purge_step r i c)) !! j = Some d /\
       b ∈ gone (objs (purge_step r i c)) d /\ value b = a) <->
  a ∈ reg_free r \/ exists j d b, (i <= j)%nat /\ tab (reg_tab r) !! j = Some d /\
    b ∈ gone (objs r) d /\ value b = a.
Proof.
  intros Hc. cbn [purge_step purged set_tab reg_free objs reg_tab tab].
  rewrite elem_of_app, list_elem_of_In, <- in_rev, <- list_elem_of_In, list_elem_of_fmap. split.
  - intros [[(b & -> & Hb) | Ha] | (j & d & b & Hj & Hd & Hb & Hv)]; [right; exists i, c, b; split; [lia | done] | by left |].
    right. exists j, d, b. rewrite list_lookup_insert_ne in Hd by lia. split; [lia | done].
  - intros [Ha | (j & d & b & Hj & Hd & Hb & Hv)]; [by left; right |].
    destruct (decide (j = i)) as [-> |]; [left; left; exists b; by simplify_eq |].
    right. exists j, d, b. rewrite list_lookup_insert_ne by lia. split; [lia | done].
Qed.

(** The loop purges the chains from [i] on, and touches no other. *)
Lemma purge_from_ok n : forall i r, reg_ok r ->
  Z.of_nat (i + n) = size (reg_tab r) ->
  exists r', purge_from n i r = Some r' /\ reg_ok r' /\ objs r' = objs r /\
    size (reg_tab r') = size (reg_tab r) /\
    (forall a, a ∈ reg_free r' <-> a ∈ reg_free r \/
       exists j c b, (i <= j)%nat /\ tab (reg_tab r) !! j = Some c /\ b ∈ gone (objs r) c /\ value b = a) /\
    forall j, tab (reg_tab r') !! j
      = if decide (i <= j)%nat then kept (objs r) <$> tab (reg_tab r) !! j
        else tab (reg_tab r) !! j.
Proof.
  induction n as [| n IH]; intros i r Hr Hn; cbn [purge_from].
  - assert (Hno : forall j, (i <= j)%nat -> tab (reg_tab r) !! j = None).
    { intros j Hj. apply lookup_ge_None_2. pose proof (ok_len _ (rok_hash r Hr)). lia. }
    exists r. do 4 (split; [done |]). split.
    + intros a. split; [by left |]. intros [Ha | (j & c & b & Hj & Hc & _)]; [done |]. by rewrite Hno in Hc.
    + intros j. destruct (decide (i <= j)%nat); [by rewrite Hno | done].
  - pose proof (ok_len _ (rok_hash r Hr)) as Hl.
    destruct (lookup_lt_is_Some_2 (tab (reg_tab r)) i) as [c Hc]; [lia |]. rewrite Hc.
    destruct c as [| b c].
    + destruct (IH (S i) r Hr) as (r' & -> & Hr' & Ho & Hs & Hfr & Ht); [lia |].
      exists r'. do 4 (split; [done |]). split.
      { intros a. rewrite Hfr. split; (intros [Ha | (j & c & b & Hj & Hcj & Hb)]; [by left | right; exists j, c, b]).
        - split; [lia | done].
        - split; [| done]. destruct (decide (j = i)) as [-> |]; [| lia]. rewrite Hc in Hcj.
          injection Hcj as <-. by destruct Hb as [[]%elem_of_nil _]. }
      intros j. rewrite Ht. destruct (decide (S i <= j)%nat), (decide (i <= j)%nat); try lia; [done | | done].
      assert (j = i) as -> by lia. by rewrite Hc.
    + rewrite (do_purge_ok (b :: c) r) by (by eapply chain_inodes).
      change (set_tab _ _) with (purge_step r i (b :: c)).
      pose proof (purge_step_ok r i (b :: c) Hr Hc ltac:(done)) as Hr1.
      destruct (IH (S i) (purge_step r i (b :: c)) Hr1) as (r' & -> & Hr' & Ho & Hs & Hfr & Ht);
        [cbn; lia |].
      exists r'. split; [done |]. split; [done |]. split; [done |]. split; [done |]. split.
      { intros a. rewrite Hfr. by apply purge_step_free. }
      intros j. rewrite Ht. cbn [purge_step purged set_tab reg_tab tab objs].
      destruct (decide (S i <= j)%nat), (decide (i <= j)%nat); try lia.
      * by rewrite list_lookup_insert_ne by lia.
      * assert (j = i) as -> by lia. rewrite list_lookup_insert_eq by lia. by rewrite Hc.
      * by rewrite list_lookup_insert_ne by lia.
Qed.

Lemma purge_ok r : reg_ok r ->
  exists r', ei_reg_purge (Some r) = Some (0, Some r') /\ reg_ok r' /\
    (forall k, view r' k = live r k) /\
    (forall b, b ∈ concat (tab (reg_tab r')) <->
       b ∈ concat (tab (reg_tab r)) /\ keep (objs r) b = true) /\
    (forall a, a ∈ reg_free r' <-> a ∈ reg_free r \/
       exists k o, names r !! k = Some a /\ objs r !! a = Some o /\ deleted o = true).
Proof.
  intros Hr. unfold ei_reg_purge. pose proof (ok_size _ (rok_hash r Hr)).
  destruct (purge_from_ok (Z.to_nat (size (reg_tab r))) 0 r Hr) as (r' & -> & Hr' & Ho & _ & Hfr & Ht);
    [lia |].
  exists r'. split; [done |]. split; [done |].
  assert (He : forall b, b ∈ concat (tab (reg_tab r')) <->
     b ∈ concat (tab (reg_tab r)) /\ keep (objs r) b = true).
  { intros b. rewrite !elem_concat. split.
    - intros (c & Hb & [j Hj]%list_elem_of_lookup_1). rewrite Ht in Hj.
      destruct (tab (reg_tab r) !! j) as [c0 |] eqn:E; [| done]. injection Hj as <-.
      apply elem_kept in Hb as [Hb Hk]. split; [| done]. exists c0.
      split; [done | by eapply list_elem_of_lookup_2].
    - intros [(c & Hb & [j Hj]%list_elem_of_lookup_1) Hk]. exists (kept (objs r) c).
      split; [by apply elem_kept |]. apply (list_elem_of_lookup_2 _ j). rewrite Ht.
      destruct (decide (0 <= j)%nat); [by rewrite Hj | lia]. }
  split; [| split; [done |]].
  2: { intros a. rewrite Hfr. split; (intros [Ha | Ha]; [by left | right]).
    - destruct Ha as (j & c & b & _ & Hc & [Hb Hk]%elem_gone & <-).
      assert (Hin : b ∈ concat (tab (reg_tab r)))
        by (apply elem_concat; exists c; split; [done | by eapply list_elem_of_lookup_2]).
      unfold keep in Hk. destruct (objs r !! value b) as [o |] eqn:E; [| done].
      exists (key b), o. split; [by apply bucket_name |]. split; [done | by apply negb_false_iff].
    - destruct Ha as (k & o & (b & Hb & Hkb & <-)%(to_map_elem _ _ _ (rok_hash r Hr)) & Hoa & Hd).
      apply elem_concat in Hb as (c & Hb & [j Hj]%list_elem_of_lookup_1).
      exists j, c, b. split; [lia |]. split; [done |]. split; [| done]. apply elem_gone.
      split; [done |]. by rewrite (keep_deleted _ _ o), Hd. }
  intros k.
  assert (Hn : forall k0 a, names r' !! k0 = Some a <-> names r !! k0 = Some a /\
    match objs r !! a with Some o => deleted o = false | None => True end).
  { intros k0 a. unfold names. rewrite (to_map_elem _ _ _ (rok_hash r' Hr')),
      (to_map_elem _ _ _ (rok_hash r Hr)). split.
    - intros (b & Hb & Hk & <-). apply He in Hb as [Hb Hkp].
      split; [by exists b |]. unfold keep in Hkp.
      destruct (objs r !! value b); [by apply negb_true_iff | done].
    - intros [(b & Hb & Hk & <-) Hd]. exists b. split; [| done]. apply He.
      split; [done |]. unfold keep. destruct (objs r !! value b); [by apply negb_true_iff | done]. }
  unfold live, view. rewrite Ho. destruct (names r !! c_str k) as [a |] eqn:E; cbn.
  - destruct (rok_obj r Hr _ a E) as (_ & o & Hoa & _). rewrite Hoa.
    destruct (deleted o) eqn:Ed.
    + destruct (names r' !! c_str k) as [a' |] eqn:E'; [| done].
      apply Hn in E' as [E' Hd]. rewrite E' in E. injection E as ->. rewrite Hoa in Hd. congruence.
    + assert (names r' !! c_str k = Some a) as -> by (apply Hn; by rewrite Hoa). done.
  - destruct (names r' !! c_str k) as [a' |] eqn:E'; [| done].
    apply Hn in E' as [E' _]. congruence.
Qed.

Lemma obj_free_ok r a o : a <> 0 -> objs r !! a = Some o -> obj_ok o ->
  is_Some (obj_free r a).
Proof.
  intros Hne Ho Hok. unfold obj_free. destruct (Z.eqb_spec a 0); [done |]. rewrite Ho.
  obj_cases Hok; rewrite Ht, Hx; cbn; by eexists.
Qed.
