(* ===== verification/RegCorrect.v ===== *)
(** * Correctness of the registry and of its hash table

    What a user of ei_reg_* can rely on, and the properties of the table below
    it: it is a finite map from names to addresses, its size is a prime, its
    hash function never gives a negative slot. *)

From stdpp Require Import gmap fin_maps.
From S2P Require Import Prelude Ext Prime Hash HashOk Reg RegOk.
#[local] Open Scope Z_scope.

(** The four setters, each with the inode it leaves. *)
Inductive setter (addr : option Z) (mem : bool) :
    (ei_reg -> list Z -> option (Z * option ei_reg)) -> ei_reg_obj -> Prop :=
  | set_i i : setter addr mem (fun r k => ei_reg_setival addr mem (Some r) (Some k) i)
      (Obj (Z.lor EI_INT EI_DIRTY) 0 (val_i i))
  | set_f f : setter addr mem (fun r k => ei_reg_setfval addr mem (Some r) (Some k) f)
      (Obj (Z.lor EI_FLT EI_DIRTY) 0 (val_f f))
  | set_s s txt : setter addr mem (fun r k => ei_reg_setsval addr mem (Some r) (Some k) (s, txt))
      (Obj (Z.lor EI_STR EI_DIRTY) (if s =? 0 then 0 else strlen txt + 1) (val_s s))
  | set_p p n : 0 <= n -> setter addr mem (fun r k => ei_reg_setpval addr mem (Some r) (Some k) p n)
      (Obj (Z.lor EI_BIN EI_DIRTY) n (val_p p)).

Lemma setter_reg_set addr mem f o : setter addr mem f o ->
  exists type, obj_ok o /\ o = new_obj type (val o) (obj_size o) /\ deleted o = false /\
    forall r k, f r k = match reg_set addr mem type (val o) (obj_size o) r k with
                        | Some (a, r') => Some (a, Some r') | None => None end.
Proof.
  intros []; eexists; (split; [reflexivity |]); (split; [reflexivity |]);
    (split; [reflexivity |]); intros r k; try reflexivity.
  unfold ei_reg_setpval. by rewrite (proj2 (Z.ltb_ge _ _)) by done.
Qed.

(** ** The registry *)


(** An empty registry of three chains. *)
Definition reg0 : ei_reg := Reg ∅ (Hash (replicate 3 []) ei_dohash 3 0 0 []) [] [].

Lemma reg0_ok : reg_ok reg0.
Proof.
  assert (Hn : forall k, names reg0 !! k = None) by done.
  constructor.
  - apply (empty_ok ei_dohash 3); [lia |]. intros k. pose proof (dohash_ok k). lia.
  - intros k a Hk. by rewrite Hn in Hk.
  - intros k1 k2 a Hk. by rewrite Hn in Hk.
  - intros a Ha. by apply elem_of_nil in Ha.
  - constructor.
Qed.

Definition name_a : list Z := [97; 0].


(** C23: the four getters return the value of a name that has one of their type
    and is not deleted, and -1 (or NULL) otherwise; they change nothing. *)
Theorem reg_get_value r k size :
  reg_ok r ->
  ei_reg_getival (Some r) (Some k)
    = Some (match live r k with Some (Obj _ _ (val_i i)) => i | _ => -1 end, Some r) /\
  ei_reg_getfval (Some r) (Some k)
    = Some (match live r k with Some (Obj _ _ (val_f f)) => f | _ => minus_one end, Some r) /\
  ei_reg_getsval (Some r) (Some k)
    = Some (match live r k with Some (Obj _ _ (val_s s)) => s | _ => 0 end, Some r) /\
  ei_reg_getpval (Some r) (Some k) size
    = Some (match live r k with
            | Some (Obj _ n (val_p p)) => (p, if size then Some n else None)
            | _ => (0, None) end, Some r).
Proof.
  intros Hr. unfold ei_reg_getival, ei_reg_getfval, ei_reg_getsval, ei_reg_getpval, with_args.
  assert (Hcase : forall o, obj_ok o -> forall A type (m : reg_val -> option A),
    (forall v, m v = None -> match v with val_i _ => type <> EI_INT | val_f _ => type <> EI_FLT
       | val_s _ => type <> EI_STR | val_p _ => type <> EI_BIN | val_none => True end) ->
    ei_reg_typeof o = type -> is_Some (m (val o))).
  { intros o Ho A type m Hm Hty. destruct (m (val o)) eqn:E; [by eexists |].
    apply Hm in E. obj_cases Ho; rewrite Hx in E; congruence. }
  rewrite !reg_get_ok by (first [done | intros o Ho; apply Hcase; [done |]; by intros []]).
  rewrite (live_obj_ok r k Hr). destruct (live r k) as [[at_ n v] |] eqn:El; [| done].
  pose proof (live_type r k _ Hr El) as Ho. obj_cases Ho; cbn in Hx; subst v; rewrite !Ht; done.
Qed.

(** The name [a] has been set to 42. *)
Definition reg42 : ei_reg :=
  match reg_set (Some 8) true EI_INT (val_i 42) 0 reg0 name_a with Some (_, r) => r | None => reg0 end.

Lemma reg42_ok : reg_ok reg42.
Proof.
  assert (Hf : fresh reg0 (Some 8)) by (intros a [= <-]; split; [lia | reflexivity]).
  destruct (reg_set_absent (Some 8) true EI_INT (val_i 42) 0 reg0 name_a reg0_ok Hf eq_refl eq_refl)
    as (r & Hs & Hr & _). unfold reg42. by rewrite Hs.
Qed.

Lemma reg_get_value_witness :
  ei_reg_getival (Some reg42) (Some name_a) = Some (42, Some reg42) /\
  ei_reg_getsval (Some reg42) (Some name_a) = Some (0, Some reg42).
Proof.
  destruct (reg_get_value reg42 name_a true reg42_ok) as (H1 & _ & H3 & _).
  split; [exact H1 | exact H3].
Defined.

(** C40: when an inode can be had but no bucket, a setter returns 0 all the
    same, although nothing is stored: the name still has no object. *)
Theorem reg_set_lost addr f o r k :
  setter addr false f o -> reg_ok r -> fresh r addr -> view r k = None ->
  inode_room r addr = true -> insert_room false (reg_tab r) k = false ->
  exists r', f r k = Some (0, Some r') /\ reg_tab r' = reg_tab r /\
    forall k', view r' k' = view r k'.
Proof.
  intros Hs Hr Hf Hv H1 H2. destruct (setter_reg_set addr false f o Hs) as (type & Ho & He & _ & ->).
  rewrite He in Ho.
  destruct (reg_set_absent addr false type _ _ r k Hr Hf Hv Ho) as (r' & -> & H).
  rewrite H1, H2 in *. exists r'. split; [done |]. exact H.
Qed.

Lemma reg_set_lost_witness :
  exists r', ei_reg_setival (Some 8) false (Some reg0) (Some name_a) 42 = Some (0, Some r') /\
    reg_tab r' = reg_tab reg0 /\ forall k', view r' k' = view reg0 k'.
Proof.
  apply (reg_set_lost (Some 8)
    (fun r k => ei_reg_setival (Some 8) false (Some r) (Some k) 42) (Obj 17 0 (val_i 42)) reg0 name_a).
  - apply (set_i (Some 8) false 42).
  - exact reg0_ok.
  - intros a [= <-]. split; [lia | reflexivity].
  - reflexivity.
  - reflexivity.
  - reflexivity.
Defined.

(** Deleting a name that has an object makes every getter miss it; the
    object stays, marked as deleted and dirty, until a purge, and no other
    name is touched. A name without an object is refused. *)
Theorem reg_delete_hides r k :
  reg_ok r ->
  match view r k with
  | None => ei_reg_delete (Some r) (Some k) = Some (-1, Some r)
  | Some o => exists r', ei_reg_delete (Some r) (Some k) = Some (0, Some r') /\ reg_ok r' /\
      live r' k = None /\
      view r' k = Some (Obj (Z.lor (attr o) (Z.lor EI_DELET EI_DIRTY)) (obj_size o) (val o)) /\
      forall k', c_str k' <> c_str k -> view r' k' = view r k'
  end.
Proof.
  intros Hr. unfold ei_reg_delete, with_args.
  pose proof (reg_mark_ok (Z.lor EI_DELET EI_DIRTY) r k Hr eq_refl) as H.
  destruct (view r k) as [o |]; [| by rewrite H].
  destruct H as (r' & -> & Hr' & Hv & Hother). exists r'. split; [done |]. split; [done |].
  unfold live. rewrite Hv, deleted_lor. done.
Qed.

Lemma reg_delete_hides_witness : ei_reg_delete (Some reg0) (Some name_a) = Some (-1, Some reg0).
Proof. apply (reg_delete_hides reg0 name_a). exact reg0_ok. Defined.

(** C38: a purge returns 0 and removes exactly the deleted objects: every name
    has what a getter saw before. The counter of elements is the number of
    names left, and the inodes on the freelist are those that were there and those of
    the deleted objects, each once, which [ei_reg_make] takes again. *)
Theorem reg_purge_removes_deleted r :
  reg_ok r ->
  exists r', ei_reg_purge (Some r) = Some (0, Some r') /\ reg_ok r' /\
    (forall k, view r' k = live r k) /\
    nelem (reg_tab r') = Z.of_nat (base.size (names r')) /\
    NoDup (reg_free r') /\
    (forall a, a ∈ reg_free r' <-> a ∈ reg_free r \/
       exists k o, names r !! k = Some a /\ objs r !! a = Some o /\ deleted o = true).
Proof.
  intros Hr. destruct (purge_ok r Hr) as (r' & -> & Hr' & Hv & _ & Hfr). exists r'.
  split; [done |]. split; [done |]. split; [done |]. split; [apply nelem_size, Hr' |].
  split; [apply Hr' | done].
Qed.

(** The name [a] is then deleted. *)
Definition reg_del : ei_reg :=
  match ei_reg_delete (Some reg42) (Some name_a) with Some (_, Some r) => r | _ => reg0 end.

Lemma reg_del_ok : reg_ok reg_del.
Proof.
  pose proof (reg_mark_ok (Z.lor EI_DELET EI_DIRTY) reg42 name_a reg42_ok eq_refl) as Hm.
  unfold reg_del, ei_reg_delete, with_args.
  destruct (view reg42 name_a); [| rewrite Hm; apply reg42_ok]. by destruct Hm as (r' & -> & Hr' & _).
Qed.

Lemma reg_purge_removes_deleted_witness :
  reg_free reg_del = [] /\
  exists r', ei_reg_purge (Some reg_del) = Some (0, Some r') /\ reg_ok r' /\
    (forall k, view r' k = live reg_del k) /\
    nelem (reg_tab r') = Z.of_nat (base.size (names r')) /\
    NoDup (reg_free r') /\ 8 ∈ reg_free r'.
Proof.
  split; [reflexivity |].
  destruct (reg_purge_removes_deleted reg_del reg_del_ok) as (r' & H1 & H2 & H3 & H4 & H5 & H6).
  exists r'. split; [exact H1 |]. split; [exact H2 |]. split; [exact H3 |]. split; [exact H4 |].
  split; [exact H5 |]. apply H6. right. exists [97], (Obj 19 0 (val_i 42)). vm_compute. auto.
Defined.

(** Resizing keeps every object, and returns the size the table then has:
    at least what was asked for when memory allowed, the old one otherwise. *)
Theorem reg_resize_keeps fuel mem r n :
  reg_ok r -> 1 <= n <= largest_size -> largest_size - n < 2 * Z.of_nat fuel ->
  exists r', ei_reg_resize fuel mem (Some r) n = Some (size (reg_tab r'), Some r') /\
    reg_ok r' /\ (forall k, view r' k = view r k) /\
    (reg_tab r' = reg_tab r \/ (mem = true /\ n <= size (reg_tab r') <= largest_size)).
Proof. apply reg_resize_ok. Qed.

Lemma reg_resize_keeps_witness :
  exists r', ei_reg_resize 1 false (Some reg0) largest_size = Some (size (reg_tab r'), Some r') /\
    reg_ok r' /\ (forall k, view r' k = view reg0 k) /\
    (reg_tab r' = reg_tab reg0 \/
     (false = true /\ largest_size <= size (reg_tab r') <= largest_size)).
Proof. apply (reg_resize_keeps 1 false reg0 largest_size); [exact reg0_ok | unfold largest_size; lia | lia]. Defined.

(** Opening gives an empty registry when both allocations succeed, NULL
    when one does not. *)
Theorem reg_open_empty fuel m1 m2 n :
  1 <= n <= largest_size -> largest_size - n < 2 * Z.of_nat fuel ->
  exists o, ei_reg_open fuel m1 m2 n = Some o /\
    if m1 && m2 then exists r, o = Some r /\ reg_ok r /\ forall k, view r k = None else o = None.
Proof. apply open_ok. Qed.

Lemma reg_open_empty_witness :
  exists o, ei_reg_open 1 true true largest_size = Some o /\
    exists r, o = Some r /\ reg_ok r /\ forall k, view r k = None.
Proof. apply (reg_open_empty 1 true true largest_size); [unfold largest_size; lia | lia]. Defined.

(** Closing frees every inode, those of names and those kept for reuse,
    and none of them twice. *)
Theorem reg_close_frees_once r :
  reg_ok r ->
  exists vs inodes, ei_reg_close (Some r) = Some (0, vs, inodes) /\ NoDup inodes /\
    forall a, a ∈ inodes <-> (exists k, names r !! k = Some a) \/ a ∈ reg_free r.
Proof.
  intros Hr. unfold ei_reg_close, ei_hash_freetab.
  assert (Hin : forall a, a ∈ (value <$> concat (tab (reg_tab r))) <-> exists k, names r !! k = Some a).
  { intros a. rewrite list_elem_of_fmap. split.
    - intros (b & -> & Hb). exists (key b). by apply bucket_name.
    - intros (k & (b & Hb & _ & <-)%to_map_elem); [by exists b | apply Hr]. }
  assert (Hm : exists vs, mapM (obj_free r) (value <$> concat (tab (reg_tab r))) = Some vs).
  { apply mapM_is_Some, list.Forall_forall. intros a Ha. apply Hin in Ha as [k Hk].
    destruct (rok_obj r Hr k a Hk) as (Hne & o & Ho & Hok). by eapply obj_free_ok. }
  destruct Hm as [vs ->]. exists (concat vs), ((value <$> concat (tab (reg_tab r))) ++ reg_free r).
  split; [done |]. split.
  - apply list.NoDup_app. split; [| split; [| apply Hr]].
    + apply NoDup_fmap_2_strong.
      * intros b1 b2 H1 H2 Hv. by apply (value_inj r).
      * eapply NoDup_fmap_1, (ok_keys _ (rok_hash r Hr)).
    + intros a Ha Hf. apply Hin in Ha as [k Hk].
      destruct (rok_free r Hr a Hf) as (_ & _ & Hn). by apply (Hn k).
  - intros a. by rewrite elem_of_app, Hin.
Qed.

Lemma reg_close_frees_once_witness :
  exists vs inodes, ei_reg_close (Some reg0) = Some (0, vs, inodes) /\ NoDup inodes /\
    forall a, a ∈ inodes <-> (exists k, names reg0 !! k = Some a) \/ a ∈ reg_free reg0.
Proof. apply (reg_close_frees_once reg0). exact reg0_ok. Defined.

(** ** The hash table *)



(** For every number from 2 up to 46339 squared, [ei_isprime] returns, with
    no overflow, and says whether the number is prime, whatever the static
    variables held. *)
Theorem isprime_correct n st :
  2 <= n <= max_factored ->
  exists b st', ei_isprime enough n st = Some (b, st') /\ (b = true <-> Znumtheory.prime n).
Proof.
  intros Hn. destruct (isprime_ok n st Hn) as [st' ->].
  exists (if Znumtheory.prime_dec n then true else false), st'. split; [done |].
  by destruct (Znumtheory.prime_dec n).
Qed.

Lemma isprime_correct_witness :
  exists b st', ei_isprime enough 46337 factor_init = Some (b, st') /\
    (b = true <-> Znumtheory.prime 46337).
Proof. apply isprime_correct. unfold max_factored. lia. Defined.

(** C39: from every size of 1 to 2147302891 that is asked for, the search for the size
    of a table ends, without overflow, at the least odd number from there on that is
    prime (or at 1), which is again at most 2147302891; so a table never has an even
    size of more than 0 chains. Half the distance to 2147302891 is fuel enough. Near
    the greatest int the square of the divisor overflows. *)
Theorem table_size_prime n fuel :
  1 <= n <= largest_size -> largest_size - n < 2 * Z.of_nat fuel ->
  exists q, grow_to_prime fuel enough n = Some q /\ n <= q <= largest_size /\
    Z.odd q = true /\ (q = 1 \/ Znumtheory.prime q) /\
    forall k, n <= k < q -> Z.odd k = true -> ~ Znumtheory.prime k.
Proof. apply grow_to_prime_ok. Qed.

Lemma table_size_prime_witness :
  largest_size = 2147302891 /\
  exists q, grow_to_prime (Z.to_nat largest_size) enough 24 = Some q /\
    24 <= q <= largest_size /\ Z.odd q = true /\ (q = 1 \/ Znumtheory.prime q) /\
    forall k, 24 <= k < q -> Z.odd k = true -> ~ Znumtheory.prime k.
Proof.
  split; [reflexivity |].
  apply (table_size_prime 24 (Z.to_nat largest_size)); [unfold largest_size; lia |].
  rewrite Z2Nat.id; unfold largest_size; lia.
Defined.

(** A prime beyond: the divisor 46343 has no int square. *)
Lemma size_overflows fuel : grow_to_prime (S fuel) enough 2147483647 = None.
Proof. vm_compute. reflexivity. Qed.

(** [ei_dohash] never gives a negative number, although [char] is signed
    and its sum is kept in 32 bits: it is less than 2^28, so the remainder by
    the size of the table is a slot. It depends on nothing behind the zero. *)
Theorem dohash_nonnegative k :
  0 <= ei_dohash k < 268435456 /\ ei_dohash (c_str k) = ei_dohash k.
Proof. apply dohash_ok. Qed.
