(* ===== verification/EFormat.v ===== *)
(** * legacy/erl_format.c: terms from format strings

    [erl_format] reads a text that looks like an Erlang term, with variables, and
    with [~] and a letter in the place of an argument; it makes the term on the
    heap of Refc.v. Pointers into the text and classes of characters are those of
    Format.v. [wbuf_size] is BUFSIZ, as in glibc. *)

From stdpp Require Import gmap.
From S2P Require Import Prelude Mem PutGet Ext Atom Data Eterm Refc Match Hash Format.

Definition ERL_MAX_ENTRIES : Z := 255.
Definition wbuf_size : Z := 8192.

(** The arguments behind the text; [R] is what stands for a term, a pointer where
    the functions are called. *)
Inductive va_arg (R : Type) :=
  | va_term (ep : R)
  | va_chars (s : option (list Z))
  | va_integer (n : Z)
  | va_real (d : Z).
Arguments va_term {R} ep.
Arguments va_chars {R} s.
Arguments va_integer {R} n.
Arguments va_real {R} d.
Notation va := (va_arg (option addr)).

Definition lift {A} (o : option A) : HM A :=
  match o with Some x => retH x | None => wrongH end.

Section EFormat.
Context (malloc : eterm_stateinfo -> option addr) (atof : list Z -> Z).

(** ** erl_eterm.c: the calls that make the cells *)

(** A text that finds no memory is left out. *)
Definition mk_atom (s : option (list Z)) : HM (option addr) :=
  match s with
  | None => retH None
  | Some s => mk_leaf malloc (Erl_Atom (AtomData None (Some (c_str s))))
  end.

Definition mk_float (d : Z) : HM (option addr) :=
  if negb (isfinite d) then retH None else mk_leaf malloc (Erl_Float d).

(** From the last character on. *)
Fixpoint mk_estring_loop (rev_s : list Z) (ep : addr) : HM addr :=
  match rev_s with
  | [] => retH ep
  | c :: rev_s =>
      let^ integer := new_cell malloc (U_leaf (Erl_Integer c)) in
      let^ cell := new_cell malloc (U_list (Some integer) (Some ep)) in
      mk_estring_loop rev_s cell
  end.

Definition mk_string (s : option (list Z)) : HM (option addr) :=
  match s with
  | None => retH None
  | Some s =>
      let^ ep := mk_empty_list malloc in
      let^ ep := mk_estring_loop (rev (c_str s)) ep in
      retH (Some ep)
  end.

(** ** The pieces of the text

    [hfuel] is the depth of calls that free and copy. *)
Section Text.
Context (hfuel : nat) (fmt : list Z).

(** [memcpy(buf, start, len); buf[len] = 0] into a buffer of [wbuf_size]. *)
Definition piece (start p : Z) : HM (list Z) :=
  if wbuf_size <=? p - start then wrongH
  else retH (take (Z.to_nat (p - start)) (drop (Z.to_nat start) fmt)).

Definition pvariable (p : Z) : HM (list Z * Z) :=
  let start := p in
  let^ p := lift (scan_while fmt (text_fuel fmt) (fun c => isalnum c || (c =? 95)) p) in
  let^ buf := piece start p in
  retH (buf, p).

Definition patom (p : Z) : HM (list Z * Z) :=
  let start := p in
  let^ p := lift (scan_while fmt (text_fuel fmt) (fun c => isalnum c || (c =? 95) || (c =? 64)) p) in
  let^ buf := piece start p in
  retH (buf, p).

Definition pdigit (p : Z) : HM (list Z * Z) :=
  let start := p in
  let^ (p, _) := lift (digit_loop fmt (text_fuel fmt) p false) in
  let^ buf := piece start p in
  retH (buf, p).

(** The test for a backslash looks at the quote, and the end of the text is not
    looked for. *)
Fixpoint quote_loop (fuel : nat) (quote : Z) (p : Z) : option Z :=
  match fuel with
  | O => None
  | S fuel =>
      c ← chr fmt p;
      let p := p + 1 in
      if c =? quote then
        b ← chr fmt (p - 1);
        if b =? 92 then quote_loop fuel quote p else Some p
      else quote_loop fuel quote p
  end.

Definition pstring (p : Z) : HM (list Z * Z) :=
  let p := p + 1 in
  let start := p in
  let^ p := lift (quote_loop (text_fuel fmt) 34 p) in
  let^ buf := piece start (p - 1) in
  retH (buf, p).

Definition pquotedatom (p : Z) : HM (list Z * Z) :=
  let p := p + 1 in
  let start := p in
  let^ p := lift (quote_loop (text_fuel fmt) 39 p) in
  let^ buf := piece start (p - 1) in
  retH (buf, p).

(** What is stored in [v[size]]; [None] is ERL_FORMAT_ERROR, and nothing is. An
    argument of another type is undefined. *)
Definition pformat (p : Z) (pap : list va) : HM (option (option addr) * Z * list va) :=
  let^ c := lift (chr fmt p) in
  let p := p + 1 in
  if c =? 119 then
    match pap with
    | va_term (Some ep) :: pap => let^ _ := incr ep in retH (Some (Some ep), p, pap)
    | _ => wrongH
    end
  else if c =? 97 then
    match pap with
    | va_chars s :: pap => let^ ep := mk_atom s in retH (Some ep, p, pap)
    | _ => wrongH
    end
  else if c =? 115 then
    match pap with
    | va_chars s :: pap => let^ ep := mk_string s in retH (Some ep, p, pap)
    | _ => wrongH
    end
  else if c =? 105 then
    match pap with
    | va_integer n :: pap => let^ ep := mk_leaf malloc (Erl_Integer n) in retH (Some ep, p, pap)
    | _ => wrongH
    end
  else if c =? 102 then
    match pap with
    | va_real d :: pap => let^ ep := mk_float d in retH (Some ep, p, pap)
    | _ => wrongH
    end
  else if c =? 98 then
    match pap with
    | va_chars (Some s) :: pap =>
        let^ ep := mk_leaf malloc (Erl_Binary (c_str s)) in retH (Some ep, p, pap)
    | _ => wrongH
    end
  else retH (None, p, pap).

(** [v[size++] = e] *)
Definition store_entry (v : list (option addr)) (e : option addr) : HM (list (option addr)) :=
  if ERL_MAX_ENTRIES <=? len v then wrongH else retH (v ++ [e]).

(** ** Lists, tuples and terms *)

Definition parsed A : Type := (option A * Z * list va).

Section Entries.
(** The recursive call; [v] are the first [size] entries. *)
Context (eformat : Z -> list va -> HM (parsed addr)).

Fixpoint ptuple (fuel : nat) (p : Z) (pap : list va) (v : list (option addr))
    : HM (parsed (list (option addr))) :=
  match fuel with
  | O => wrongH
  | S fuel =>
      let^ c := lift (chr fmt p) in
      if c =? 125 then retH (Some v, p + 1, pap)
      else if c =? 44 then ptuple fuel (p + 1) pap v
      else if c =? 126 then
        let^ (r, p, pap) := pformat (p + 1) pap in
        match r with
        | Some e => let^ v := store_entry v e in ptuple fuel p pap v
        | None => retH (None, p, pap)
        end
      else if c =? 32 then ptuple fuel (p + 1) pap v
      else
        let^ (e, p, pap) := eformat p pap in
        let^ v := store_entry v e in
        match e with
        | Some _ => ptuple fuel p pap v
        | None => retH (None, p, pap)
        end
  end.

Fixpoint plist (fuel : nat) (p : Z) (pap : list va) (v : list (option addr))
    : HM (parsed (list (option addr))) :=
  match fuel with
  | O => wrongH
  | S fuel =>
      let^ c := lift (chr fmt p) in
      if c =? 93 then retH (Some v, p + 1, pap)
      else if c =? 44 then plist fuel (p + 1) pap v
      else if c =? 126 then
        let^ (r, p, pap) := pformat (p + 1) pap in
        match r with
        | Some e => let^ v := store_entry v e in plist fuel p pap v
        | None => retH (None, p, pap)
        end
      else if c =? 32 then plist fuel (p + 1) pap v
      else
        let^ (e, p, pap) := eformat p pap in
        let^ v := store_entry v e in
        match e with
        | Some _ => plist fuel p pap v
        | None => retH (None, p, pap)
        end
  end.
End Entries.

(** [erl_err_msg("<ERROR> Syntax error ...", **fmt)] *)
Definition syntax_error (p : Z) (pap : list va) : HM (parsed addr) :=
  let^ _ := lift (chr fmt p) in retH (None, p, pap).

(** [atoi] of digits: an integer that an [int] does not hold is undefined. *)
Definition atoi_digits (digit : list Z) : HM Z :=
  let n := strtol_digits 0 digit in
  if 2147483647 <? n then wrongH else retH n.

Definition returning (pap : list va) (p : Z) (m : HM (option addr)) : HM (parsed addr) :=
  let^ ep := m in retH (ep, p, pap).

Fixpoint eformat (fuel : nat) (p : Z) (pap : list va) : HM (parsed addr) :=
  match fuel with
  | O => wrongH
  | S fuel =>
      let^ c := lift (chr fmt p) in
      if c =? 123 then
        let^ (r, p, pap) := ptuple (eformat fuel) fuel (p + 1) pap [] in
        match r with
        | Some v =>
            let^ ep := mk_tuple malloc v in
            let^ _ := erl_free_array hfuel v in
            retH (ep, p, pap)
        | None => retH (None, p, pap)
        end
      else if c =? 91 then
        let^ c := lift (chr fmt (p + 1)) in
        if c =? 93 then
          returning pap (p + 2) (let^ ep := mk_empty_list malloc in retH (Some ep))
        else
          let^ (r, p, pap) := plist (eformat fuel) fuel (p + 1) pap [] in
          match r with
          | Some v =>
              let^ ep := mk_list malloc v in
              let^ _ := erl_free_array hfuel v in
              retH (ep, p, pap)
          | None => retH (None, p, pap)
          end
      else if c =? 36 then
        let^ c := lift (chr fmt (p + 1)) in
        returning pap (p + 2) (mk_leaf malloc (Erl_Integer (schar c)))
      else if c =? 126 then
        let^ (r, p, pap) := pformat (p + 1) pap in
        match r with
        | Some v0 =>
            let^ ep := copy_term malloc hfuel v0 in
            let^ _ := erl_free_term hfuel v0 in
            retH (ep, p, pap)
        | None => syntax_error p pap
        end
      else if c =? 32 then eformat fuel (p + 1) pap
      else if islower c then
        let^ (atom, p) := patom p in returning pap p (mk_atom (Some atom))
      else if isupper c || (c =? 95) then
        let^ (var, p) := pvariable p in returning pap p (mk_var malloc (c_str var))
      else if isdigit c then
        let^ (digit, p) := pdigit p in
        if negb (existsb (Z.eqb 46) digit) then
          let^ n := atoi_digits digit in returning pap p (mk_leaf malloc (Erl_Integer n))
        else returning pap p (mk_float (atof digit))
      else if c =? 34 then
        let^ (string, p) := pstring p in returning pap p (mk_string (Some string))
      else if c =? 39 then
        let^ (qatom, p) := pquotedatom p in returning pap p (mk_atom (Some qatom))
      else syntax_error p pap
  end.
End Text.

Definition erl_format (fuel hfuel : nat) (fmt : list Z) (ap : list va) : HM (option addr) :=
  let^ (ep, _, _) := eformat hfuel fmt fuel 0 ap in retH ep.
End EFormat.
