(* ===== verification/EFormatOk.v ===== *)
(** * What erl_format builds

    The texts that [erl_format] accepts, as a grammar: [eform] gives for a text
    the arguments it takes and the term. Separators are optional for the scanner,
    so they are in the grammar. [eformat_ok] runs the scanner over every such
    text, on a heap that keeps its invariant. *)

From stdpp Require Import gmap gmultiset.
From S2P Require Import Prelude Mem PutGet Ext Atom Data Eterm MarshalOk MarshalRead EtermOk Format FormatOk Hash Refc RefcOk RefcTerm Match MatchTerm MatchHeap MatchOk EFormat.

(** ** The grammar *)

Definition is_var_char (c : Z) : bool := isalnum c || (c =? 95).

(** The inside of quotes. *)
Definition inside (q : Z) (cs : list Z) : Prop := Forall (fun c => 0 < c < 256 /\ c <> q) cs.

Definition atom_of (cs : list Z) : ETERM := Erl_Atom (AtomData None (Some cs)).
Definition list_of (ts : list ETERM) : ETERM := foldr Erl_List Erl_EmptyList ts.

Section Grammar.
(** [D r t]: the argument [r] is the term [t]. *)
Context (atof : list Z -> Z) {R : Type} (D : R -> ETERM -> Prop).

Inductive eletter : Z -> va_arg R -> ETERM -> Prop :=
  | eletter_w r t : D r t -> eletter 119 (va_term r) t
  | eletter_a s : eletter 97 (va_chars (Some s)) (atom_of (c_str s))
  | eletter_s s : eletter 115 (va_chars (Some s)) (string_list (c_str s) Erl_EmptyList)
  | eletter_i n : eletter 105 (va_integer n) (Erl_Integer n)
  | eletter_f d : isfinite d = true -> eletter 102 (va_real d) (Erl_Float d)
  | eletter_b s : eletter 98 (va_chars (Some s)) (Erl_Binary (c_str s)).

Inductive eform : list Z -> list (va_arg R) -> ETERM -> Prop :=
  | eform_atom c cs :
      islower c -> Forall is_atom_char cs -> len (c :: cs) < wbuf_size ->
      eform (c :: cs) [] (atom_of (c :: cs))
  | eform_var c cs :
      isupper c || (c =? 95) -> Forall is_var_char cs -> len (c :: cs) < wbuf_size ->
      eform (c :: cs) [] (Erl_Variable (c :: cs) None)
  | eform_int ds :
      digit_text ds -> dec ds <= 2147483647 -> len ds < wbuf_size -> eform ds [] (Erl_Integer (dec ds))
  | eform_float a b :
      digit_text a -> Forall isdigit b -> len (a ++ 46 :: b) < wbuf_size ->
      isfinite (atof (a ++ 46 :: b)) = true -> eform (a ++ 46 :: b) [] (Erl_Float (atof (a ++ 46 :: b)))
  | eform_string cs :
      inside 34 cs -> len cs < wbuf_size -> eform (34 :: cs ++ [34]) [] (string_list cs Erl_EmptyList)
  | eform_quoted cs : inside 39 cs -> len cs < wbuf_size -> eform (39 :: cs ++ [39]) [] (atom_of cs)
  | eform_char c : 0 < c < 256 -> eform [36; c] [] (Erl_Integer (schar c))
  | eform_nil : eform [91; 93] [] Erl_EmptyList
  | eform_list t args ts :
      hd 0 t <> 93 -> eelems 93 t args ts -> len ts <= 255 -> eform (91 :: t) args (list_of ts)
  | eform_tuple t args ts :
      eelems 125 t args ts -> len ts <= 255 -> eform (123 :: t) args (Erl_Tuple ts)
(** Up to the closing bracket. *)
with eelems : Z -> list Z -> list (va_arg R) -> list ETERM -> Prop :=
  | eelems_end close : eelems close [close] [] []
  | eelems_skip close c t args ts :
      c = 32 \/ c = 44 -> eelems close t args ts -> eelems close (c :: t) args ts
  | eelems_arg close c v u t args ts :
      eletter c v u -> eelems close t args ts -> eelems close (126 :: c :: t) (v :: args) (u :: ts)
  | eelems_term close t1 args1 u t2 args2 ts :
      eform t1 args1 u -> stop (hd 0 t2) -> eelems close t2 args2 ts ->
      eelems close (t1 ++ t2) (args1 ++ args2) (u :: ts).
(** The whole text: an argument may stand alone if it can be copied. *)
Inductive etext (k : Z) : list Z -> list (va_arg R) -> ETERM -> Prop :=
  | etext_form t args T : eform t args T -> etext k t args T
  | etext_arg c v T : eletter c v T -> pat_ok k false T -> etext k [126; c] [v] T
  | etext_space t args T : etext k t args T -> etext k (32 :: t) args T.
End Grammar.

Scheme eform_eelems := Induction for eform Sort Prop
  with eelems_eform := Induction for eelems Sort Prop.
Combined Scheme eform_eelems_ind from eform_eelems, eelems_eform.

(** ** Cells *)

Section Cells.
Context (malloc : eterm_stateinfo -> option addr).
Context (malloc_fresh : forall h a, malloc h = Some a -> blocks h !! a = None).
Notation wp := (wpH malloc).

(** The cell takes over references of the program. *)
Lemma take_good w h live loose u (Q : addr -> eterm_stateinfo -> Prop) :
  Good w h live (ms (refs u) ⊎ loose) (fun _ => False) -> is_fun u = false -> w < ERL_MAX_COUNT ->
  (forall a h', live !! a = None -> Good (w + 1) h' (<[a := u]> live) ({[+ a +]} ⊎ loose) (fun _ => False) -> Q a h') ->
  wp (new_cell malloc u) Q h.
Proof.
  intros [Hi Hu Hf Hr Hs] Hfu Hw HQ. eapply (new_cell_ok malloc malloc_fresh); [exact Hi |].
  intros a h1 nx Hi1 _ Hb1. pose proof (i_dying _ _ _ _ Hi1 a ltac:(set_solver)) as (Hn & _).
  apply HQ; [done |].
  assert (Ht : total (<[a := u]> live) ({[+ a +]} ⊎ loose) = {[+ a +]} ⊎ total live (ms (refs u) ⊎ loose)).
  { unfold total. rewrite all_refs_insert by done. clear. multiset_solver. }
  split; [| | by apply map_Forall_insert_2 | |].
  - assert (Hd : ({[a]} ∪ ∅) ∖ {[a]} = (∅ : gset addr)) by set_solver. rewrite <- Hd at 1.
    eapply (birth_ok malloc); [exact Hi1 | set_solver | exact Hb1 | lia].
  - intros b Hb _. rewrite Ht, mult_union. destruct (decide (b = a)) as [-> | Hne].
    + rewrite mult_singleton. unfold mult. lia.
    + rewrite lookup_insert_ne in Hb by done. specialize (Hu b Hb ltac:(tauto)).
      rewrite mult_singleton_ne by done. lia.
  - rewrite Ht, gmultiset_size_disj_union, gmultiset_size_singleton. lia.
  - rewrite map_size_insert_None by done. lia.
Qed.

(** [r] is a new term of the program, in a heap that has grown. *)
Definition yields (w : Z) (live : gmap addr uval) (loose : gmultiset addr) (t : ETERM) (a : addr)
    (h' : eterm_stateinfo) : Prop :=
  exists live', live ⊆ live' /\ den live' a t /\ Good w h' live' ({[+ a +]} ⊎ loose) (fun _ => False).

Definition gives_term (w : Z) (live : gmap addr uval) (loose : gmultiset addr) (t : ETERM)
    (r : option addr) (h' : eterm_stateinfo) : Prop :=
  exists a, r = Some a /\ yields w live loose t a h'.

Lemma cell_gives w h live loose u t :
  Good w h live loose (fun _ => False) -> refs u = [] -> is_fun u = false -> w + 1 <= ERL_MAX_COUNT ->
  (forall live a, live !! a = Some u -> den live a t) ->
  wp (let^ ep := new_cell malloc u in retH (Some ep)) (gives_term (w + 1) live loose t) h.
Proof.
  intros Hg Hr Hf Hw Hd. apply wpH_bind. eapply (leaf_good malloc malloc_fresh); [exact Hg | done | done | done |].
  intros a h' Ha Hg'. apply wpH_ret. exists a. split; [done |].
  exists (<[a := u]> live). split; [by apply insert_subseteq |]. split; [apply Hd, lookup_insert_eq | done].
Qed.

Lemma leaf_gives w h live loose t :
  Good w h live loose (fun _ => False) -> is_leaf t = true -> w + 1 <= ERL_MAX_COUNT ->
  wp (mk_leaf malloc t) (gives_term (w + 1) live loose t) h.
Proof. intros Hg Ht Hw. apply cell_gives; try done. intros. by apply den_leaf. Qed.

Lemma estring_loop_good rev_s : forall w h live loose ep t,
  Good w h live ({[+ ep +]} ⊎ loose) (fun _ => False) -> den live ep t -> w + 2 * len rev_s <= ERL_MAX_COUNT ->
  wp (mk_estring_loop malloc rev_s ep)
    (yields (w + 2 * len rev_s) live loose (fold_left (fun tl c => Erl_List (Erl_Integer c) tl) rev_s t)) h.
Proof.
  induction rev_s as [| c rev_s IH]; intros w h live loose ep t Hg Hd Hw; cbn [mk_estring_loop fold_left].
  - apply wpH_ret. exists live. split; [done |]. split; [done |].
    eapply Good_le; [| exact Hg]. cbn [length]. lia.
  - cbn [length] in *. apply wpH_bind.
    eapply (leaf_good malloc malloc_fresh); [exact Hg | done | done | lia |]. intros a h1 Ha Hg1.
    pose proof (insert_subseteq live a (U_leaf (Erl_Integer c)) Ha) as Hs1.
    apply wpH_bind. eapply (take_good (w + 1) h1 _ loose (U_list (Some a) (Some ep))); [| done | lia |].
    { replace (ms (refs (U_list (Some a) (Some ep))) ⊎ loose) with ({[+ a +]} ⊎ ({[+ ep +]} ⊎ loose)); [done |].
      change (refs (U_list (Some a) (Some ep))) with [a; ep]. rewrite ms_cons, <- (assoc_L (⊎)), ms_one. done. }
    intros b h2 Hb Hg2. pose proof (insert_subseteq _ b (U_list (Some a) (Some ep)) Hb) as Hs2.
    eapply wpH_mono; [| eapply IH; [exact Hg2 | | lia]].
    + intros r h' (live' & Hs & Hd' & Hg'). exists live'. split; [by do 2 (etransitivity; [eassumption |]) |].
      split; [exact Hd' |]. eapply Good_le; [| exact Hg']. lia.
    + eapply den_list; [apply lookup_insert_eq | |].
      * apply den_leaf; [| done]. rewrite lookup_insert_ne by (intros ->; by rewrite lookup_insert_eq in Hb).
        apply lookup_insert_eq.
      * eapply den_weaken; [exact Hs2 |]. by eapply den_weaken.
Qed.

Lemma fold_string cs : fold_left (fun tl c => Erl_List (Erl_Integer c) tl) (rev cs) Erl_EmptyList
  = string_list cs Erl_EmptyList.
Proof. unfold string_list. by rewrite <- fold_left_rev_right, rev_involutive. Qed.

Lemma string_gives w h live loose s :
  Good w h live loose (fun _ => False) -> w + 1 + 2 * len (c_str s) <= ERL_MAX_COUNT ->
  wp (mk_string malloc (Some s))
    (gives_term (w + 1 + 2 * len (c_str s)) live loose (string_list (c_str s) Erl_EmptyList)) h.
Proof.
  intros Hg Hw. cbn [mk_string]. apply wpH_bind.
  eapply (leaf_good malloc malloc_fresh); [exact Hg | done | done | lia |]. intros a h1 Ha Hg1.
  pose proof (insert_subseteq live a (U_leaf Erl_EmptyList) Ha) as Hs.
  apply wpH_bind. eapply wpH_mono; [| eapply (estring_loop_good (rev (c_str s))); [exact Hg1 | | rewrite length_rev; lia]].
  - intros r h' (live' & Hs' & Hd & Hg'). apply wpH_ret. exists r. split; [done |].
    exists live'. split; [by etransitivity |]. rewrite length_rev, fold_string in *. done.
  - apply den_leaf; [apply lookup_insert_eq | done].
Qed.

(** A reference to a cell that others refer to as well. *)
Lemma free_shared fuel w h live loose a :
  Good w h live ({[+ a +]} ⊎ loose) (fun _ => False) -> a ∈ total live loose -> (1 < fuel)%nat ->
  wp (erl_free_term fuel (Some a)) (fun _ h' => Good w h' live loose (fun _ => False)) h.
Proof.
  intros Hg Ha Hf. pose proof Hg as [Hi _ _ _ _]. destruct (i_closed _ _ _ _ Hi a (total_here a live loose)) as [u Hu].
  apply mult_pos in Ha. destruct fuel as [| [| fuel]]; [lia.. |]. unfold erl_free_term. cbn [free_term].
  apply wpH_bind. eapply get_ok; [exact Hi | exact Hu |]. intros nx. cbn [count val orb].
  assert (Hm : mult a (total live ({[+ a +]} ⊎ loose)) = mult a (total live loose) + 1).
  { unfold total. rewrite !mult_union, mult_singleton. lia. }
  rewrite Hm, (proj2 (Z.eqb_neq _ 0)) by lia. apply wpH_bind. eapply dec_good; [exact Hg |].
  intros h1 Hg1. apply wpH_bind. eapply get_ok; [apply (g_inv _ _ _ _ _ Hg1) | exact Hu |].
  intros nx1. cbn [count val orb]. rewrite (proj2 (Z.eqb_neq _ 0)) by lia. apply wpH_ret.
  destruct Hg1 as [Hi1 Hu1 Hf1 Hr1 Hs1]. split; try done. intros b Hb _.
  destruct (decide (a = b)) as [<- | Hne]; [lia | by apply Hu1].
Qed.

Lemma free_array_shared fuel w live loose es : forall h,
  Good w h live (ms es ⊎ loose) (fun _ => False) -> Forall (fun e => e ∈ total live loose) es -> (1 < fuel)%nat ->
  wp (erl_free_array fuel (Some <$> es)) (fun _ h' => Good w h' live loose (fun _ => False)) h.
Proof.
  induction es as [| e es IH]; intros h Hg He Hf; cbn [fmap list_fmap erl_free_array].
  - apply wpH_ret. by rewrite ms_nil in Hg.
  - inversion_clear He as [| ? ? He1 He2]. apply wpH_bind.
    eapply wpH_mono; [| eapply (free_shared fuel w h live (ms es ⊎ loose) e); [| | done]].
    + intros ? h1 Hg1. by apply IH.
    + by rewrite ms_cons, <- (assoc_L (⊎)) in Hg.
    + clear -He1. unfold total in *. multiset_solver.
Qed.
End Cells.

(** A pattern counts up to [norm]. *)
Lemma inst_norm tau p : forall p' t, norm p = norm p' -> inst tau p t -> inst tau p' t.
Proof.
  induction p as [| | | | | | | | | h tl IHh IHt | | | es IH | |] using ETERM_rec_all;
    intros p' t Hn; inversion 1; subst; try discriminate;
    try (apply inst_leaf; [by rewrite <- norm_is_leaf, <- Hn | congruence]);
    destruct p' as [| | | | | | | | | h' tl' | | es' | | |]; try discriminate; cbn [norm] in Hn; injection Hn as Hn.
  - apply inst_list; auto.
  - apply inst_tuple. match goal with H : Forall2 _ es _ |- _ => rename H into Hf end.
    clear -IH Hf Hn. revert es' Hn. induction Hf as [| p t ps ts Hp _ IHf]; intros [| p' ps'] Hn; try done.
    inversion_clear IH. injection Hn as Hp' Hps. constructor; auto.
  - subst. by apply inst_any.
  - subst. by apply inst_var.
Qed.

(** ** The pieces of the text *)

Lemma inside_chars q cs : inside q cs -> chars cs.
Proof. apply List.Forall_impl. tauto. Qed.

Lemma class_chars (f : Z -> bool) cs : (forall c, f c = true -> 0 < c < 256) -> Forall f cs -> chars cs.
Proof. intros Hf. apply List.Forall_impl. intros c Hc%Is_true_true. by apply Hf. Qed.

Section Pieces.
Context (malloc : eterm_stateinfo -> option addr) (fmt : list Z).
Notation wp := (wpH malloc).

Lemma run_wp {A B} (m : HM A) (K : A -> HM B) Q h x :
  m h = Go x h -> wp (K x) Q h -> wp (let^ y := m in K y) Q h.
Proof. intros Hm HK. unfold wpH, bindH. by rewrite Hm. Qed.

Lemma chr_wp {B} p t (K : Z -> HM B) Q h :
  text_at fmt p t -> wp (K (hd 0 t)) Q h -> wp (let^ c := lift (chr fmt p) in K c) Q h.
Proof. intros Ht. apply run_wp. unfold lift. by rewrite (text_chr _ _ _ Ht). Qed.

Lemma piece_ok p a t h : text_at fmt p (a ++ t) -> len a < wbuf_size -> piece fmt p (p + len a) h = Go a h.
Proof.
  intros [Hp Ht] Hl. unfold piece. replace (p + len a - p) with (len a) by lia.
  rewrite (proj2 (Z.leb_gt _ _)) by lia. rewrite Ht, Nat2Z.id, take_app_length. done.
Qed.

Lemma scan_piece (f : Z -> bool) a t p h :
  text_at fmt p (a ++ t) -> Forall f a -> f (hd 0 t) = false -> len a < wbuf_size ->
  (let^ e := lift (scan_while fmt (text_fuel fmt) f p) in
   let^ buf := piece fmt p e in retH (buf, e)) h = Go (a, p + len a) h.
Proof.
  intros Ht Ha Hf Hl. unfold bindH, lift.
  rewrite (scan_while_ok fmt f a t) by (done || by eapply fuel_enough). unfold retH.
  by rewrite (piece_ok _ _ _ _ Ht).
Qed.

Lemma pvariable_ok a t p h : text_at fmt p (a ++ t) -> Forall is_var_char a -> stop (hd 0 t) ->
  len a < wbuf_size -> pvariable fmt p h = Go (a, p + len a) h.
Proof. intros Ht Ha Hs Hl. eapply scan_piece; [done.. | | done]. apply Is_true_true in Hs. bool_lia. Qed.

Lemma patom_ok a t p h : text_at fmt p (a ++ t) -> Forall is_atom_char a -> stop (hd 0 t) ->
  len a < wbuf_size -> patom fmt p h = Go (a, p + len a) h.
Proof. intros Ht Ha Hs Hl. eapply scan_piece; [done.. | | done]. apply Is_true_true in Hs. bool_lia. Qed.

Lemma pdigit_int ds t p h : text_at fmt p (ds ++ t) -> Forall isdigit ds -> stop (hd 0 t) ->
  len ds < wbuf_size -> pdigit fmt p h = Go (ds, p + len ds) h.
Proof.
  intros Ht Hd Hs Hl. unfold pdigit, bindH, lift. rewrite (digit_loop_int fmt ds t) by done. unfold retH.
  by rewrite (piece_ok _ _ _ _ Ht).
Qed.

Lemma pdigit_float a b t p h : text_at fmt p ((a ++ 46 :: b) ++ t) -> Forall isdigit a -> Forall isdigit b ->
  stop (hd 0 t) -> len (a ++ 46 :: b) < wbuf_size -> pdigit fmt p h = Go (a ++ 46 :: b, p + len (a ++ 46 :: b)) h.
Proof.
  intros Ht Ha Hb Hs Hl. unfold pdigit, bindH, lift.
  rewrite (digit_loop_float fmt a b t) by (rewrite <- ?app_assoc in *; done). unfold retH.
  by rewrite (piece_ok _ _ _ _ Ht).
Qed.

Lemma quote_ok q cs t p fuel : text_at fmt p (cs ++ q :: t) -> inside q cs -> q <> 92 ->
  (length cs < fuel)%nat -> EFormat.quote_loop fmt fuel q p = Some (p + len cs + 1).
Proof.
  intros Ht Hq H92. revert p fuel Ht.
  induction Hq as [| c cs (Hc & Hcq) _ IH]; intros p [| fuel] Ht Hl; cbn in Hl; try lia;
    cbn [EFormat.quote_loop]; rewrite (text_chr _ _ _ Ht); cbn [mbind option_bind hd app].
  - rewrite Z.eqb_refl, Z.add_simpl_r, (text_chr _ _ _ Ht). cbn [mbind option_bind hd app].
    rewrite (proj2 (Z.eqb_neq q 92)) by done. f_equal. cbn. lia.
  - rewrite (proj2 (Z.eqb_neq c q)) by done.
    rewrite IH; [f_equal; rewrite len_cons; lia | by eapply text_next | lia].
Qed.

Lemma quote_piece q cs t p h : text_at fmt p (q :: cs ++ [q] ++ t) -> inside q cs -> q <> 92 -> len cs < wbuf_size ->
  (let^ e := lift (EFormat.quote_loop fmt (text_fuel fmt) q (p + 1)) in
   let^ buf := piece fmt (p + 1) (e - 1) in retH (buf, e)) h = Go (cs, p + len (q :: cs ++ [q])) h.
Proof.
  intros Ht%text_next Hi Hq Hl. unfold bindH, lift.
  rewrite (quote_ok q cs t) by (done || by eapply fuel_enough). unfold retH.
  rewrite Z.add_simpl_r, (piece_ok _ _ _ _ Ht) by done. rewrite len_cons, len_app. change (len [q]) with 1.
  do 2 f_equal. lia.
Qed.
End Pieces.

(** The character that a term starts with is in one class only. *)
Ltac branch b v := replace b with v by bool_lia.

(** ** Arguments *)

Section Scan.
Context (malloc : eterm_stateinfo -> option addr).
Context (malloc_fresh : forall h a, malloc h = Some a -> blocks h !! a = None).
Context (atof : list Z -> Z) (D : option addr -> ETERM -> Prop) (hfuel : nat) (fmt : list Z).
Notation wp := (wpH malloc).

(** The references that a term takes, at most. *)
Notation cost t := (3 * cells t - 1).
Notation costs ts := (3 * sum_cells ts - len ts).

(** The program has what [D] says, and keeps it. *)
Definition has_args (live : gmap addr uval) (loose : gmultiset addr) : Prop :=
  forall o t, D o t -> exists a, o = Some a /\ a ∈ loose /\ den live a t.

Lemma has_args_grow live live' loose l :
  live ⊆ live' -> has_args live loose -> has_args live' (ms l ⊎ loose).
Proof.
  intros Hs H o t Hd. destruct (H o t Hd) as (a & -> & Ha & Hx). exists a. split; [done |]. split; [| by eapply den_weaken].
  clear -Ha. multiset_solver.
Qed.

Lemma gives_le w w' live loose t r h : w <= w' ->
  gives_term w live loose t r h -> gives_term w' live loose t r h.
Proof.
  intros Hw (a & -> & live' & Hs & Hd & Hg). exists a. split; [done |]. exists live'.
  split; [done |]. split; [done |]. by eapply Good_le.
Qed.

Lemma wp_gives_le {m : HM (option addr)} w w' live loose t h : w <= w' ->
  wp m (gives_term w live loose t) h -> wp m (gives_term w' live loose t) h.
Proof. intros Hw. apply wpH_mono. intros r h'. by apply gives_le. Qed.

Lemma cells_string cs : cells (string_list cs Erl_EmptyList) = 1 + 2 * len cs.
Proof.
  induction cs as [| c cs IH]; [done |]. cbn [string_list foldr cells length]. fold (string_list cs Erl_EmptyList).
  rewrite IH. lia.
Qed.

Definition letter_post (w : Z) (live : gmap addr uval) (loose : gmultiset addr) (t : ETERM) (p' : Z)
    (ars : list va) (res : option (option addr) * Z * list va) (h' : eterm_stateinfo) : Prop :=
  exists r, res = (Some r, p', ars) /\ gives_term w live loose t r h'.

Lemma then_letter (m : HM (option addr)) w live loose t p' ars h :
  wp m (gives_term w live loose t) h ->
  wp (let^ ep := m in retH (Some ep, p', ars)) (letter_post w live loose t p' ars) h.
Proof.
  intros Hm. apply wpH_bind. eapply wpH_mono; [| exact Hm]. intros r h' Hr. apply wpH_ret. by exists r.
Qed.

Lemma pformat_ok c v t rest p ars w h live loose :
  eletter D c v t -> text_at fmt p (c :: rest) -> Good w h live loose (fun _ => False) -> has_args live loose ->
  w + cost t <= ERL_MAX_COUNT ->
  wp (pformat malloc fmt p (v :: ars)) (letter_post (w + cost t) live loose t (p + 1) ars) h.
Proof.
  intros Hl Ht Hg Hargs Hw. pose proof (cells_height t) as [_ Hc]. unfold pformat.
  eapply chr_wp; [exact Ht |]. cbn [hd].
  destruct Hl as [r t Hd | s | s | n | d Hd | s]; cbn [Z.eqb Pos.eqb] in *.
  - destruct (Hargs r t Hd) as (ep & -> & _ & Hx). apply wpH_bind.
    eapply inc_good; [exact Hg | by eapply den_some | lia |]. intros h' Hg'. apply wpH_ret.
    exists (Some ep). split; [done |]. exists ep. split; [done |]. exists live. split; [done |]. split; [done |].
    eapply Good_le; [| exact Hg']. lia.
  - apply then_letter. eapply wp_gives_le; [| eapply (leaf_gives malloc malloc_fresh); [exact Hg | done |]]; cbn [cells atom_of] in *; lia.
  - apply then_letter. rewrite cells_string in *.
    eapply wp_gives_le; [| eapply (string_gives malloc malloc_fresh); [exact Hg |]]; lia.
  - apply then_letter. eapply wp_gives_le; [| eapply (leaf_gives malloc malloc_fresh); [exact Hg | done |]]; cbn [cells] in *; lia.
  - apply then_letter. unfold mk_float. rewrite Hd. cbn [negb].
    eapply wp_gives_le; [| eapply (leaf_gives malloc malloc_fresh); [exact Hg | done |]]; cbn [cells] in *; lia.
  - apply then_letter. eapply wp_gives_le; [| eapply (leaf_gives malloc malloc_fresh); [exact Hg | done |]]; cbn [cells] in *; lia.
Qed.

(** ** The two loops *)

Definition entry_step (eformat : Z -> list va -> HM (parsed addr)) (close : Z)
    (loop : Z -> list va -> list (option addr) -> HM (parsed (list (option addr))))
    (p : Z) (pap : list va) (v : list (option addr)) : HM (parsed (list (option addr))) :=
  let^ c := lift (chr fmt p) in
  if c =? close then retH (Some v, p + 1, pap)
  else if c =? 44 then loop (p + 1) pap v
  else if c =? 126 then
    let^ (r, p, pap) := pformat malloc fmt (p + 1) pap in
    match r with
    | Some e => let^ v := store_entry v e in loop p pap v
    | None => retH (None, p, pap)
    end
  else if c =? 32 then loop (p + 1) pap v
  else
    let^ (e, p, pap) := eformat p pap in
    let^ v := store_entry v e in
    match e with
    | Some _ => loop p pap v
    | None => retH (None, p, pap)
    end.

Definition is_loop (eformat : Z -> list va -> HM (parsed addr)) (close : Z)
    (loop : nat -> Z -> list va -> list (option addr) -> HM (parsed (list (option addr)))) : Prop :=
  forall fuel, loop (S fuel) = entry_step eformat close (loop fuel).

Lemma ptuple_loop ef : is_loop ef 125 (ptuple malloc fmt ef).
Proof. done. Qed.
Lemma plist_loop ef : is_loop ef 93 (plist malloc fmt ef).
Proof. done. Qed.

Definition form_post (w : Z) (live : gmap addr uval) (loose : gmultiset addr) (t : ETERM) (p' : Z)
    (ars : list va) (res : parsed addr) (h' : eterm_stateinfo) : Prop :=
  exists r, res = (r, p', ars) /\ gives_term w live loose t r h'.

Definition forms_ok (t : list Z) (args : list va) (T : ETERM) : Prop :=
  forall fuel rest p w h live loose ars, text_at fmt p (t ++ rest) -> stop (hd 0 rest) ->
  (length t < fuel)%nat -> Good w h live loose (fun _ => False) -> has_args live loose ->
  w + cost T <= ERL_MAX_COUNT -> w + cost T + 1 < Z.of_nat hfuel ->
  wp (eformat malloc atof hfuel fmt fuel p (args ++ ars)) (form_post (w + cost T) live loose T (p + len t) ars) h.

Definition loop_post (w : Z) (live : gmap addr uval) (loose : gmultiset addr) (v : list addr) (ts : list ETERM)
    (p' : Z) (ars : list va) (res : parsed (list (option addr))) (h' : eterm_stateinfo) : Prop :=
  exists es live', res = (Some (Some <$> (v ++ es)), p', ars) /\ live ⊆ live' /\ Forall2 (den live') es ts /\
    Good w h' live' (ms (v ++ es) ⊎ loose) (fun _ => False).

Definition loops_ok (close : Z) (t : list Z) (args : list va) (ts : list ETERM) : Prop :=
  forall fuel0 loop fuel rest p w h live loose ars v,
  is_loop (eformat malloc atof hfuel fmt fuel0) close loop -> close = 93 \/ close = 125 ->
  text_at fmt p (t ++ rest) -> (length t < fuel)%nat -> (length t <= fuel0)%nat -> len v + len ts <= 255 ->
  Good w h live (ms v ⊎ loose) (fun _ => False) -> has_args live loose ->
  w + costs ts <= ERL_MAX_COUNT -> w + costs ts + 1 < Z.of_nat hfuel ->
  wp (loop fuel p (args ++ ars) (Some <$> v))
    (loop_post (w + costs ts) live loose v ts (p + len t) ars) h.

Lemma len_le_cells ts : len ts <= sum_cells ts.
Proof.
  induction ts as [| t ts IH]; [done |]. cbn [length sum_cells foldr]. fold (sum_cells ts).
  pose proof (cells_height t). lia.
Qed.

Lemma eform_head t args T : eform atof D t args T -> exists c t', t = c :: t' /\
  c <> 44 /\ c <> 126 /\ c <> 32 /\ c <> 93 /\ c <> 125 /\ c <> 0.
Proof.
  assert (Hd : forall ds, digit_text ds -> exists c t', ds = c :: t' /\ isdigit c = true).
  { intros [| c ds] [Hne Hf]; [done |]. inversion_clear Hf as [| ? ? Hc%Is_true_true _]. eauto. }
  destruct 1 as [c cs Hc%Is_true_true _ _ | c cs Hc%Is_true_true _ _ | ds Hds _ _ | a b Ha _ _ _ | | | | | |];
    try (do 2 eexists; split; [reflexivity |]; try bool_lia).
  - destruct (Hd ds Hds) as (c & t' & -> & Hc). do 2 eexists. split; [reflexivity | bool_lia].
  - destruct (Hd a Ha) as (c & t' & -> & Hc). do 2 eexists. split; [reflexivity | bool_lia].
Qed.

(** An entry is stored, and the loop goes on. *)
Lemma store_wp {B} v e (K : list (option addr) -> HM B) Q h :
  len v < 255 -> wp (K (Some <$> (v ++ [e]))) Q h ->
  wp (let^ v := store_entry (Some <$> v) (Some e) in K v) Q h.
Proof.
  intros Hv. apply run_wp. unfold store_entry, ERL_MAX_ENTRIES. rewrite length_fmap.
  rewrite (proj2 (Z.leb_gt _ _)) by lia. by rewrite fmap_app.
Qed.

Lemma yields_entry w live loose v t a h' :
  yields w live (ms v ⊎ loose) t a h' ->
  exists live', live ⊆ live' /\ den live' a t /\ Good w h' live' (ms (v ++ [a]) ⊎ loose) (fun _ => False).
Proof.
  intros (live' & Hs & Hd & Hg). exists live'. split; [done |]. split; [done |].
  replace (ms (v ++ [a]) ⊎ loose) with ({[+ a +]} ⊎ (ms v ⊎ loose)); [done |].
  rewrite ms_app, ms_cons. change (ms []) with (∅ : gmultiset addr). clear. multiset_solver.
Qed.

Lemma loop_post_next w w' live live1 loose v a t ts p' p'' ars res h' :
  live ⊆ live1 -> den live1 a t -> w <= w' -> p' = p'' ->
  loop_post w live1 loose (v ++ [a]) ts p' ars res h' -> loop_post w' live loose v (t :: ts) p'' ars res h'.
Proof.
  intros Hs Hd Hw <- (es & live' & -> & Hs' & Hf & Hg). exists (a :: es), live'.
  rewrite <- app_assoc in Hg |- *. split; [done |]. split; [by etransitivity |].
  split; [constructor; [by eapply den_weaken | done] | by eapply Good_le].
Qed.

Lemma has_args_loose live loose : has_args live loose -> forall l, has_args live (ms l ⊎ loose).
Proof. intros H l. by apply (has_args_grow live live). Qed.

Lemma loop_end close : loops_ok close [close] [] [].
Proof.
  intros fuel0 loop [| fuel] rest p w h live loose ars v Hl Hc Ht Hf _ Hv Hg Ha Hw Hh; [cbn in Hf; lia |].
  rewrite Hl. eapply chr_wp; [exact Ht |]. cbn [hd app]. rewrite Z.eqb_refl. apply wpH_ret.
  exists [], live. rewrite app_nil_r. split; [done |]. split; [done |]. split; [constructor |].
  eapply Good_le; [| exact Hg]. cbn [sum_cells foldr length]. lia.
Qed.

Lemma loop_skip close c t args ts :
  c = 32 \/ c = 44 -> loops_ok close t args ts -> loops_ok close (c :: t) args ts.
Proof.
  intros Hc IH fuel0 loop [| fuel] rest p w h live loose ars v Hl Hcl Ht Hf Hf0 Hv Hg Ha Hw Hh; [cbn in Hf; lia |].
  cbn [length] in *. rewrite Hl. eapply chr_wp; [exact Ht |]. cbn [hd app].
  rewrite (proj2 (Z.eqb_neq c close)) by lia. apply text_next in Ht.
  assert (Hgo : wp (loop fuel (p + 1) (args ++ ars) (Some <$> v))
    (loop_post (w + costs ts) live loose v ts (p + Z.of_nat (S (length t))) ars) h).
  { replace (p + Z.of_nat (S (length t))) with (p + 1 + len t) by lia. by eapply IH; try done; lia. }
  destruct Hc as [-> | ->]; exact Hgo.
Qed.

Lemma loop_arg close c v u t args ts :
  eletter D c v u -> loops_ok close t args ts -> loops_ok close (126 :: c :: t) (v :: args) (u :: ts).
Proof.
  intros Hle IH fuel0 loop [| fuel] rest p w h live loose ars vs Hl Hcl Ht Hf Hf0 Hv Hg Ha Hw Hh; [cbn in Hf; lia |].
  cbn [length sum_cells foldr] in *. fold (sum_cells ts) in *. pose proof (sum_cells_nonneg ts). pose proof (len_le_cells ts).
  rewrite Hl. eapply chr_wp; [exact Ht |]. cbn [hd app].
  rewrite (proj2 (Z.eqb_neq 126 close)) by lia. apply text_next in Ht. cbn [Z.eqb Pos.eqb].
  apply wpH_bind. eapply wpH_mono; [| eapply pformat_ok; [exact Hle | exact Ht | exact Hg | by apply has_args_loose | lia]].
  intros ? h1 (r & -> & a & -> & Hy). destruct (yields_entry _ _ _ _ _ _ _ Hy) as (live1 & Hs1 & Hd1 & Hg1).
  apply store_wp; [lia |]. apply text_next in Ht.
  eapply wpH_mono; [| eapply IH; [exact Hl | done | exact Ht | lia | lia | rewrite length_app; cbn [length]; lia
    | exact Hg1 | | lia | lia]].
  - intros res h'. eapply loop_post_next; [exact Hs1 | exact Hd1 | lia | lia].
  - intros o x Hb. destruct (Ha o x Hb) as (b & -> & ? & ?). exists b. split; [done |]. split; [done | by eapply den_weaken].
Qed.

Lemma eelems_more close t args ts : eelems atof D close t args ts -> t <> [].
Proof. induction 1 as [| | | ? ? ? ? ? ? ? ? ? ? IH]; try done. by intros [_ ?]%app_eq_nil. Qed.

Lemma loop_term close t1 args1 u t2 args2 ts :
  eform atof D t1 args1 u -> forms_ok t1 args1 u -> stop (hd 0 t2) -> t2 <> [] -> loops_ok close t2 args2 ts ->
  loops_ok close (t1 ++ t2) (args1 ++ args2) (u :: ts).
Proof.
  intros Hfo IH1 Hst Hne IH fuel0 loop [| fuel] rest p w h live loose ars vs Hl Hcl Ht Hf Hf0 Hv Hg Ha Hw Hh; [cbn in Hf; lia |].
  destruct (eform_head _ _ _ Hfo) as (c & t' & Et & N1 & N2 & N3 & N4 & N5 & _).
  rewrite length_app in *. rewrite <- !app_assoc in *. cbn [length sum_cells foldr] in *. fold (sum_cells ts) in *.
  pose proof (sum_cells_nonneg ts). pose proof (len_le_cells ts). pose proof (cells_height u).
  assert (Hl1 : (1 <= length t1)%nat) by (rewrite Et; cbn; lia).
  destruct t2 as [| x t2]; [done |]. cbn [length] in *.
  rewrite Hl. eapply chr_wp; [exact Ht |]. replace (hd 0 (t1 ++ (x :: t2) ++ rest)) with c by (by rewrite Et).
  rewrite (proj2 (Z.eqb_neq c close)), (proj2 (Z.eqb_neq c 44)), (proj2 (Z.eqb_neq c 126)), (proj2 (Z.eqb_neq c 32)) by lia.
  apply wpH_bind. eapply wpH_mono; [| eapply (IH1 fuel0); [exact Ht | exact Hst | lia | exact Hg | by apply has_args_loose | lia | lia]].
  intros ? h1 (r & -> & a & -> & Hy). destruct (yields_entry _ _ _ _ _ _ _ Hy) as (live1 & Hs1 & Hd1 & Hg1).
  apply store_wp; [lia |]. apply text_app in Ht.
  eapply wpH_mono; [| eapply IH; [exact Hl | done | exact Ht | cbn [length]; lia | cbn [length]; lia
    | rewrite length_app; cbn [length]; lia | exact Hg1 | | lia | lia]].
  - intros res h'. eapply loop_post_next; [exact Hs1 | exact Hd1 | lia | cbn [length]; lia].
  - intros o y Hb. destruct (Ha o y Hb) as (b & -> & ? & ?). exists b. split; [done |]. split; [done | by eapply den_weaken].
Qed.

(** ** Terms *)

Lemma then_form (m : HM (option addr)) w live loose t p' p'' ars h :
  wp m (gives_term w live loose t) h -> p' = p'' ->
  wp (returning ars p' m) (form_post w live loose t p'' ars) h.
Proof.
  intros Hm <-. apply wpH_bind. eapply wpH_mono; [| exact Hm]. intros r h' Hr. apply wpH_ret. by exists r.
Qed.

Lemma leaf_form w h live loose t p' p'' ars :
  Good w h live loose (fun _ => False) -> is_leaf t = true -> w + cost t <= ERL_MAX_COUNT -> p' = p'' ->
  wp (returning ars p' (mk_leaf malloc t)) (form_post (w + cost t) live loose t p'' ars) h.
Proof.
  intros Hg Hl Hw Hp. pose proof (cells_height t). apply then_form; [| done].
  eapply wp_gives_le; [| eapply (leaf_gives malloc malloc_fresh); [exact Hg | done |]]; lia.
Qed.

Lemma string_form w h live loose s p' p'' ars :
  chars s -> Good w h live loose (fun _ => False) ->
  w + cost (string_list s Erl_EmptyList) <= ERL_MAX_COUNT -> p' = p'' ->
  wp (returning ars p' (mk_string malloc (Some s)))
    (form_post (w + cost (string_list s Erl_EmptyList)) live loose (string_list s Erl_EmptyList) p'' ars) h.
Proof.
  intros Hs Hg Hw Hp. rewrite cells_string in *. apply then_form; [| done].
  pose proof (string_gives malloc malloc_fresh w h live loose s Hg) as Hx. rewrite c_str_of_chars in Hx by done.
  eapply wp_gives_le; [| apply Hx]; lia.
Qed.

(** A list or a tuple of the entries refers to them; then the references of the
    array are given back. *)
Definition holds_entries (w : Z) (live : gmap addr uval) (loose : gmultiset addr) (es : list addr)
    (t : ETERM) (r : option addr) (h' : eterm_stateinfo) : Prop :=
  exists a live', r = Some a /\ live ⊆ live' /\ den live' a t /\ Forall (fun e => e ∈ all_refs live') es /\
    Good w h' live' ({[+ a +]} ⊎ (ms es ⊎ loose)) (fun _ => False).

Lemma then_free (m : HM (option addr)) w live loose es t p ars h :
  wp m (holds_entries w live loose es t) h -> (1 < hfuel)%nat ->
  wp (let^ ep := m in let^ _ := erl_free_array hfuel (Some <$> es) in retH (ep, p, ars))
    (form_post w live loose t p ars) h.
Proof.
  intros Hm Hh. apply wpH_bind. eapply wpH_mono; [| exact Hm].
  intros r h1 (a & live' & -> & Hs & Hd & He & Hg). apply wpH_bind.
  eapply wpH_mono; [| eapply (free_array_shared malloc hfuel w live' ({[+ a +]} ⊎ loose) es); [| | done]].
  - intros ? h2 Hg2. apply wpH_ret. exists (Some a). split; [done |]. exists a. split; [done |]. by exists live'.
  - replace (ms es ⊎ ({[+ a +]} ⊎ loose)) with ({[+ a +]} ⊎ (ms es ⊎ loose)); [done |]. clear. multiset_solver.
  - eapply List.Forall_impl; [| exact He]. intros e Hx. clear -Hx. unfold total. multiset_solver.
Qed.

Lemma all_there_some es : all_there (Some <$> es) = Some es.
Proof. unfold all_there. induction es as [| e es IH]; [done |]. cbn. by rewrite IH. Qed.

Lemma mk_tuple_holds w h live loose es ts :
  Good w h live (ms es ⊎ loose) (fun _ => False) -> Forall2 (den live) es ts ->
  w + 1 + len es <= ERL_MAX_COUNT ->
  wp (mk_tuple malloc (Some <$> es)) (holds_entries (w + 1 + len es) live loose es (Erl_Tuple ts)) h.
Proof.
  intros Hg Hd Hw. unfold mk_tuple. rewrite all_there_some. pose proof (refs_tuple es) as Hr.
  assert (Hm : wp (let^ ep := new_cell malloc (U_tuple (Some <$> es)) in let^ _ := inc_all es in retH ep)
    (fun a h' => holds_entries (w + 1 + len es) live loose es (Erl_Tuple ts) (Some a) h') h).
  { eapply (make_good malloc malloc_fresh w h live _ _ _ es); [exact Hg | exact Hr | | done | done | done |].
    - clear -Hd. induction Hd; constructor; [by eapply den_some | done].
    - intros a h' Ha Hg'. pose proof (insert_subseteq live a (U_tuple (Some <$> es)) Ha) as Hs.
      exists a, (<[a := U_tuple (Some <$> es)]> live). split; [done |]. split; [done |].
      split; [eapply den_tuple; [apply lookup_insert_eq |]; eapply Forall2_impl; [| exact Hd];
        intros ? ? ?; by eapply den_weaken |]. split; [| done].
      apply Forall_forall. intros e He. eapply in_all_refs; [apply lookup_insert_eq |].
      rewrite Hr. by apply list_elem_of_In. }
  revert Hm. unfold wpH, bindH, retH. destruct (new_cell malloc _ h) as [a h1 | |]; [| done | done].
  by destruct (inc_all es h1).
Qed.

Lemma mk_list_holds w h live loose es ts :
  Good w h live (ms es ⊎ loose) (fun _ => False) -> Forall2 (den live) es ts ->
  w + 1 + 3 * len es <= ERL_MAX_COUNT ->
  wp (mk_list malloc (Some <$> es)) (holds_entries (w + 1 + 3 * len es) live loose es (list_of ts)) h.
Proof.
  intros Hg Hd Hw. unfold mk_list. rewrite all_there_some.
  assert (Hm : wp (let^ ep := mk_empty_list malloc in
      let^ _ := (if 0 <? len es then decr ep else retH tt) in mk_list_loop malloc (rev es) ep)
    (fun a h' => holds_entries (w + 1 + 3 * len es) live loose es (list_of ts) (Some a) h') h).
  { eapply (mk_list_good malloc malloc_fresh es ts w); [exact Hg | done | done |].
    intros r h' live' Hs Hdr Hin Hg'. by exists r, live'. }
  revert Hm. unfold wpH, bindH, retH. destruct (mk_empty_list malloc h) as [a h1 | |]; [| done | done].
  cbv beta. destruct ((if 0 <? len es then decr a else (fun h => Go tt h)) h1) as [[] h2 | |]; [| done | done].
  by destruct (mk_list_loop malloc (rev es) a h2).
Qed.

Lemma cells_list ts : cells (list_of ts) = 1 + len ts + sum_cells ts.
Proof.
  induction ts as [| t ts IH]; [done |]. cbn [list_of foldr cells length sum_cells]. fold (list_of ts) (sum_cells ts).
  rewrite IH. lia.
Qed.

Lemma no_point ds : Forall isdigit ds -> existsb (Z.eqb 46) ds = false.
Proof.
  induction 1 as [| c ds Hc%Is_true_true _ IH]; [done |]. cbn [existsb]. rewrite IH.
  replace (46 =? c) with false; [done |]. bool_lia.
Qed.

Lemma dec_nonneg ds : Forall isdigit ds -> 0 <= dec ds.
Proof.
  unfold dec. intros H. assert (Hx : forall n, 0 <= n -> 0 <= fold_left (fun n c => n * 10 + (c - 48)) ds n).
  { induction H as [| c ds Hc%Is_true_true _ IH]; intros n Hn; cbn [fold_left]; [done |]. apply IH. bool_lia. }
  by apply Hx.
Qed.

Lemma atoi_ok ds h : Forall isdigit ds -> dec ds <= 2147483647 -> atoi_digits ds h = Go (dec ds) h.
Proof.
  intros Hd Hn. unfold atoi_digits. pose proof (strtol_digits_ok ds [] 0 Hd) as Hx. rewrite app_nil_r in Hx.
  rewrite Hx by done. fold (dec ds). by rewrite (proj2 (Z.ltb_ge _ _)) by lia.
Qed.

Lemma list_step close t args ts :
  loops_ok close t args ts -> close = 93 \/ close = 125 -> len ts <= 255 ->
  forall fuel loop mk T n rest p w h live loose ars,
  is_loop (eformat malloc atof hfuel fmt fuel) close loop ->
  text_at fmt p (t ++ rest) -> (length t < fuel)%nat -> Good w h live loose (fun _ => False) -> has_args live loose ->
  costs ts + n <= cost T -> w + cost T <= ERL_MAX_COUNT ->
  w + cost T + 1 < Z.of_nat hfuel -> 0 <= n ->
  (forall w h live es, Good w h live (ms es ⊎ loose) (fun _ => False) -> Forall2 (den live) es ts ->
    w + n <= ERL_MAX_COUNT -> wp (mk (Some <$> es)) (holds_entries (w + n) live loose es T) h) ->
  wp (let^ (r, p, pap) := loop fuel p (args ++ ars) [] in
      match r with
      | Some v => let^ ep := mk v in let^ _ := erl_free_array hfuel v in retH (ep, p, pap)
      | None => retH (None, p, pap)
      end) (form_post (w + cost T) live loose T (p + len t) ars) h.
Proof.
  intros IH Hc Hn fuel loop mk T n rest p w h live loose ars Hl Ht Hf Hg Ha Hs Hw Hh H0 Hmk.
  apply wpH_bind. eapply wpH_mono; [| eapply (IH fuel loop fuel rest p w h live loose ars []);
    [exact Hl | done | exact Ht | done | lia | cbn [length]; lia | by rewrite ms_nil | done | lia | lia]].
  intros ? h1 (es & live' & -> & Hs1 & Hd & Hg1). cbn [app] in *.
  pose proof (sum_cells_nonneg ts). pose proof (len_le_cells ts). pose proof (g_refs _ _ _ _ _ Hg). pose proof (cells_height T).
  eapply wpH_mono; [| eapply then_free; [apply Hmk; [exact Hg1 | exact Hd | lia] | lia]].
  intros res h' (r & -> & a & -> & live2 & Hs2 & Hd2 & Hg2). exists (Some a). split; [done |].
  exists a. split; [done |]. exists live2. split; [by etransitivity |]. split; [done |].
  eapply Good_le; [| exact Hg2]. lia.
Qed.

Ltac start :=
  let f := fresh "fuel" in
  intros [| f] rest p w h live loose ars Ht Hst Hf Hg Ha Hw Hh; [lia |]; cbn [length] in Hf;
  cbn [eformat]; eapply chr_wp; [exact Ht |].

Lemma eform_atom_ok c cs :
  islower c -> Forall is_atom_char cs -> len (c :: cs) < wbuf_size -> forms_ok (c :: cs) [] (atom_of (c :: cs)).
Proof.
  intros Hc Hcs Hb. start. cbn [hd app]. apply Is_true_true in Hc.
  assert (Hcl : Forall is_atom_char (c :: cs)) by (constructor; [apply Is_true_true; bool_lia | done]).
  branch (c =? 123) false. branch (c =? 91) false. branch (c =? 36) false. branch (c =? 126) false.
  branch (c =? 32) false. rewrite Hc. cbn [app]. eapply run_wp; [by eapply patom_ok |]. cbn beta iota.
  unfold mk_atom. rewrite c_str_of_chars by (eapply class_chars; [| exact Hcl]; intros; bool_lia).
  by apply leaf_form.
Qed.

Lemma eform_var_ok c cs :
  isupper c || (c =? 95) -> Forall is_var_char cs -> len (c :: cs) < wbuf_size ->
  forms_ok (c :: cs) [] (Erl_Variable (c :: cs) None).
Proof.
  intros Hc Hcs Hb. start. cbn [hd app]. apply Is_true_true in Hc.
  assert (Hcl : Forall is_var_char (c :: cs)) by (constructor; [apply Is_true_true; unfold is_var_char; bool_lia | done]).
  branch (c =? 123) false. branch (c =? 91) false. branch (c =? 36) false. branch (c =? 126) false.
  branch (c =? 32) false. branch (islower c) false. rewrite Hc.
  eapply run_wp; [by eapply pvariable_ok |]. cbn beta iota.
  rewrite c_str_of_chars by (eapply class_chars; [| exact Hcl]; unfold is_var_char; intros; bool_lia).
  apply then_form; [| done]. cbn [cells] in *.
  eapply wp_gives_le; [| eapply (cell_gives malloc malloc_fresh w); [exact Hg | done | done | lia |]]; [lia |].
  intros. by apply den_var.
Qed.

Lemma eform_int_ok ds :
  digit_text ds -> dec ds <= 2147483647 -> len ds < wbuf_size -> forms_ok ds [] (Erl_Integer (dec ds)).
Proof.
  intros [Hne Hd] Hm Hb. start. destruct ds as [| c ds]; [done |]. cbn [hd app].
  inversion Hd as [| ? ? Hc%Is_true_true Hds]; subst.
  branch (c =? 123) false. branch (c =? 91) false. branch (c =? 36) false. branch (c =? 126) false.
  branch (c =? 32) false. branch (islower c) false. branch (isupper c || (c =? 95)) false. rewrite Hc.
  eapply run_wp; [by eapply pdigit_int |]. cbn beta iota. rewrite no_point by done. cbn [negb].
  eapply run_wp; [by apply atoi_ok |]. by apply leaf_form.
Qed.

Lemma eform_float_ok a b :
  digit_text a -> Forall isdigit b -> len (a ++ 46 :: b) < wbuf_size ->
  isfinite (atof (a ++ 46 :: b)) = true -> forms_ok (a ++ 46 :: b) [] (Erl_Float (atof (a ++ 46 :: b))).
Proof.
  intros [Hne Hd] Hdb Hb Hfi. start. destruct a as [| c a]; [done |]. cbn [hd app].
  inversion Hd as [| ? ? Hc%Is_true_true Hds]; subst.
  branch (c =? 123) false. branch (c =? 91) false. branch (c =? 36) false. branch (c =? 126) false.
  branch (c =? 32) false. branch (islower c) false. branch (isupper c || (c =? 95)) false. rewrite Hc.
  eapply run_wp; [by eapply (pdigit_float fmt (c :: a) b) |]. cbn beta iota.
  replace (existsb (Z.eqb 46) _) with true by (rewrite existsb_app; cbn; by rewrite orb_true_r). cbn [negb].
  unfold mk_float. rewrite Hfi. cbn [negb]. by apply leaf_form.
Qed.

Lemma eform_string_ok cs :
  inside 34 cs -> len cs < wbuf_size -> forms_ok (34 :: cs ++ [34]) [] (string_list cs Erl_EmptyList).
Proof.
  intros Hi Hb. start. cbn [hd app]. cbn [Z.eqb Pos.eqb islower isupper isdigit Z.leb Z.compare Pos.compare Pos.compare_cont andb orb CompOpp].
  eapply run_wp; [eapply (quote_piece fmt 34 cs rest); [cbn [app] in Ht; by rewrite <- app_assoc in Ht | done..] |]. cbn beta iota.
  apply string_form; [by eapply inside_chars | done..].
Qed.

Lemma eform_quoted_ok cs : inside 39 cs -> len cs < wbuf_size -> forms_ok (39 :: cs ++ [39]) [] (atom_of cs).
Proof.
  intros Hi Hb. start. cbn [hd app]. cbn [Z.eqb Pos.eqb islower isupper isdigit Z.leb Z.compare Pos.compare Pos.compare_cont andb orb CompOpp].
  eapply run_wp; [eapply (quote_piece fmt 39 cs rest); [cbn [app] in Ht; by rewrite <- app_assoc in Ht | done..] |]. cbn beta iota.
  unfold mk_atom. rewrite c_str_of_chars by by eapply inside_chars. by apply leaf_form.
Qed.

Lemma eform_char_ok c : 0 < c < 256 -> forms_ok [36; c] [] (Erl_Integer (schar c)).
Proof.
  intros Hc. start. cbn [hd app Z.eqb Pos.eqb]. apply text_next in Ht.
  eapply chr_wp; [exact Ht |]. by apply leaf_form.
Qed.

Lemma eform_nil_ok : forms_ok [91; 93] [] Erl_EmptyList.
Proof.
  start. cbn [hd app Z.eqb Pos.eqb]. apply text_next in Ht. eapply chr_wp; [exact Ht |]. cbn [hd app Z.eqb Pos.eqb].
  by apply leaf_form.
Qed.

Lemma eform_list_ok t args ts :
  hd 0 t <> 93 -> t <> [] -> loops_ok 93 t args ts -> len ts <= 255 -> forms_ok (91 :: t) args (list_of ts).
Proof.
  intros Hh93 Hne IH Hn. start. cbn [hd app Z.eqb Pos.eqb]. apply text_next in Ht.
  eapply chr_wp; [exact Ht |]. destruct t as [| x t]; [done |]. cbn [hd app] in *. rewrite (proj2 (Z.eqb_neq x 93)) by done.
  pose proof (cells_list ts) as Hc. pose proof (len_le_cells ts).
  replace (p + len (91 :: x :: t)) with (p + 1 + len (x :: t)) by (cbn [length]; lia).
  eapply (list_step 93 (x :: t) args ts IH ltac:(by left) Hn fuel (plist malloc fmt (eformat malloc atof hfuel fmt fuel))
    (mk_list malloc) (list_of ts) (1 + 3 * len ts)); [apply plist_loop | exact Ht | cbn [length] in *; lia | done | done | rewrite Hc; lia | done | done | lia |].
  intros w' h' live' es Hg' Hd Hw'. pose proof (Forall2_length Hd) as Hl.
  eapply wpH_mono; [| eapply mk_list_holds; [exact Hg' | exact Hd | lia]].
  intros r h2 (a & live2 & -> & Hs & Hd2 & Hin & Hg2). exists a, live2. repeat (split; [done |]).
  eapply Good_le; [| exact Hg2]. lia.
Qed.

Lemma eform_tuple_ok t args ts :
  loops_ok 125 t args ts -> len ts <= 255 -> forms_ok (123 :: t) args (Erl_Tuple ts).
Proof.
  intros IH Hn. start. cbn [hd app Z.eqb Pos.eqb]. apply text_next in Ht.
  assert (Hc : cells (Erl_Tuple ts) = 1 + sum_cells ts) by done. pose proof (len_le_cells ts).
  replace (p + len (123 :: t)) with (p + 1 + len t) by (cbn [length]; lia).
  eapply (list_step 125 t args ts IH ltac:(by right) Hn fuel (ptuple malloc fmt (eformat malloc atof hfuel fmt fuel))
    (mk_tuple malloc) (Erl_Tuple ts) (1 + len ts)); [apply ptuple_loop | exact Ht | lia | done | done | rewrite Hc; lia | done | done | lia |].
  intros w' h' live' es Hg' Hd Hw'. pose proof (Forall2_length Hd) as Hl.
  eapply wpH_mono; [| eapply mk_tuple_holds; [exact Hg' | exact Hd | lia]].
  intros r h2 (a & live2 & -> & Hs & Hd2 & Hin & Hg2). exists a, live2. repeat (split; [done |]).
  eapply Good_le; [| exact Hg2]. lia.
Qed.

Lemma eformat_ok :
  (forall t args T, eform atof D t args T -> forms_ok t args T) /\
  (forall close t args ts, eelems atof D close t args ts -> loops_ok close t args ts).
Proof.
  apply eform_eelems_ind; intros.
  - by apply eform_atom_ok.
  - by apply eform_var_ok.
  - by apply eform_int_ok.
  - by apply eform_float_ok.
  - by apply eform_string_ok.
  - by apply eform_quoted_ok.
  - by apply eform_char_ok.
  - by apply eform_nil_ok.
  - apply eform_list_ok; [done | by eapply eelems_more | done..].
  - by apply eform_tuple_ok.
  - apply loop_end.
  - by apply loop_skip.
  - by apply loop_arg.
  - by apply loop_term; [.. | by eapply eelems_more |].
Qed.

(** ** The whole text *)

(** A reference is given back. *)
Lemma free_good fuel w h live loose a :
  Good w h live ({[+ a +]} ⊎ loose) (fun _ => False) -> w + 1 < Z.of_nat fuel ->
  wp (erl_free_term fuel (Some a)) (fun _ h' => exists live', live' ⊆ live /\
    Good w h' live' loose (fun _ => False) /\ forall b t, b ∈ loose -> den live b t -> den live' b t) h.
Proof.
  intros [Hi Hu Hf Hr Hs] Hw.
  eapply (erl_free_term_ok malloc malloc_fresh); [exact Hi | exact Hu | lia |].
  intros h' (live' & leaked & Hi' & Hu' & Hs' & Hl). rewrite (Hl Hf), (left_id_L ∅ (⊎)) in *.
  exists live'. split; [done |]. split.
  - split; [done | done | by eapply no_funs_subseteq | |].
    + pose proof (gmultiset_subseteq_size _ _ (all_refs_subseteq _ _ Hs')).
      unfold total in *. rewrite !gmultiset_size_disj_union, gmultiset_size_singleton in *. lia.
    + apply map_subseteq_size in Hs'. lia.
  - intros b t Hb. apply den_shrink; [done | by eapply closed_inv |]. apply (i_closed _ _ _ _ Hi').
    clear -Hb. unfold total. multiset_solver.
Qed.

(** A copy, next to what there is. *)
Lemma copy_good k w h live loose a t :
  Good w h live loose (fun _ => False) -> den live a t -> pat_ok k false t -> (height t < hfuel)%nat ->
  w + cells t <= ERL_MAX_COUNT ->
  wp (copy_term malloc hfuel (Some a)) (fun r h' => exists r0 live' t', r = Some r0 /\ live ⊆ live' /\
    den live' r0 t' /\ norm t' = norm t /\ pat_ok k false t' /\
    Good (w + cells t) h' live' ({[+ r0 +]} ⊎ loose) (fun _ => False)) h.
Proof.
  intros Hg Hd Hp Hh Hw. pose proof Hg as [Hi Hu Hf Hr Hs].
  eapply wpH_mono; [| eapply (copy_term_ok malloc malloc_fresh k hfuel t Hh Hp a h live loose ∅ Hd Hi); lia].
  intros r h' (r0 & -> & N & T & Hi' & _). pose proof (size_total_trees k live N [r0] [t] loose T) as Hz.
  pose proof T as [HD HC HU HE HS HR HF]. rewrite ms_one in *.
  assert (He : copy_at k N r0 t) by (by inversion HE). destruct He as (t' & Dt & Pt & Nt).
  exists r0, (N ∪ live), t'. split; [done |]. split; [by apply map_union_subseteq_r |].
  split; [eapply den_weaken; [apply map_union_subseteq_l | done] |]. split; [done |]. split; [done |].
  cbn [sum_cells foldr] in *. split; [done | | by apply no_funs_union | lia |].
  - apply used_union; [done | | done]. rewrite ms_cons in HU. change (ms []) with (∅ : gmultiset addr) in HU. by rewrite (right_id_L ∅ (⊎)) in HU.
  - rewrite map_size_disj_union by done. lia.
Qed.

(** What [erl_format] has made, next to what the program had. *)
Definition formatted (k w : Z) (live : gmap addr uval) (loose : gmultiset addr) (T : ETERM) (a : addr)
    (h' : eterm_stateinfo) : Prop :=
  exists live' t big, den live' a t /\ norm t = norm T /\ (pat_ok k true T -> pat_ok k true t) /\
    Good w h' live' ({[+ a +]} ⊎ loose) (fun _ => False) /\
    (forall b x, b ∈ loose -> den live b x -> den live' b x) /\ live ⊆ big /\ live' ⊆ big.

Lemma etext_ok k t args T : etext atof D k t args T -> forall fuel rest p w h live loose ars,
  text_at fmt p (t ++ rest) -> stop (hd 0 rest) -> (length t < fuel)%nat ->
  Good w h live loose (fun _ => False) -> has_args live loose ->
  w + 4 * cells T <= ERL_MAX_COUNT -> w + 4 * cells T + 1 < Z.of_nat hfuel ->
  wp (eformat malloc atof hfuel fmt fuel p (args ++ ars)) (fun res h' => exists a,
    res = (Some a, p + len t, ars) /\ formatted k (w + 4 * cells T) live loose T a h') h.
Proof.
  induction 1 as [t args T Hf | c v T Hl Hp | t args T _ IH]; intros fuel rest p w h live loose ars Ht Hst Hfu Hg Ha Hw Hh;
    try pose proof (cells_height T) as [Hht Hc].
  - eapply wpH_mono; [| eapply (proj1 eformat_ok); [exact Hf | exact Ht | done | done | exact Hg | done | lia | lia]].
    intros res h' (r & -> & a & -> & live' & Hs & Hd & Hg'). exists a. split; [done |]. exists live', T, live'.
    split; [done |]. split; [done |]. split; [done |]. split; [eapply Good_le; [| exact Hg']; lia |].
    split; [| done]. intros b x _. by apply den_weaken.
  - destruct fuel as [| fuel]; [lia |]. cbn [eformat]. eapply chr_wp; [exact Ht |]. cbn [hd app Z.eqb Pos.eqb].
    apply text_next in Ht. apply wpH_bind.
    eapply wpH_mono; [| eapply pformat_ok; [exact Hl | exact Ht | exact Hg | done | lia]].
    intros ? h1 (r & -> & a & -> & live1 & Hs1 & Hd1 & Hg1). apply wpH_bind.
    pose proof (g_refs _ _ _ _ _ Hg).
    eapply wpH_mono; [| eapply (copy_good k); [exact Hg1 | exact Hd1 | done | lia | lia]].
    intros ? h2 (r0 & live2 & t' & -> & Hs2 & Hd2 & Hn & Hp2 & Hg2). apply wpH_bind.
    replace ({[+ r0 +]} ⊎ ({[+ a +]} ⊎ loose)) with ({[+ a +]} ⊎ ({[+ r0 +]} ⊎ loose)) in Hg2 by (clear; multiset_solver).
    eapply wpH_mono; [| eapply free_good; [exact Hg2 | lia]].
    intros ? h3 (live3 & Hs3 & Hg3 & Hk). apply wpH_ret. exists r0. split; [cbn [length]; do 2 f_equal; lia |].
    exists live3, t', live2. split; [apply Hk; [clear; multiset_solver | done] |]. split; [done |].
    split; [intros _; by apply pat_ok_true |].
    split; [eapply Good_le; [| exact Hg3]; lia |]. split; [| split; [by etransitivity | done]]. intros b y Hb Hy. apply Hk; [clear -Hb; multiset_solver |].
    eapply den_weaken; [exact Hs2 |]. by eapply den_weaken.
  - destruct fuel as [| fuel]; [cbn in Hfu; lia |]. cbn [length] in *. cbn [eformat]. eapply chr_wp; [exact Ht |].
    cbn [hd app Z.eqb Pos.eqb]. apply text_next in Ht.
    replace (p + Z.of_nat (S (length t))) with (p + 1 + len t) by lia. eapply IH; try done. lia.
Qed.
End Scan.
