(* ===== verification/EFormatCorrect.v ===== *)
(** * erl_format: what programs can rely on

    The term of a text is made, its arguments stay what they are, and when it is
    given back nothing is left; a pattern made in this way is matched as the text
    says. Then what goes wrong. *)

From stdpp Require Import gmap gmultiset.
From S2P Require Import Prelude Mem PutGet Ext Atom Data Eterm MarshalOk MarshalRead EtermOk Format FormatOk Hash Refc RefcOk RefcTerm RefcCorrect Match MatchTerm MatchHeap MatchOk MatchCorrect EFormat EFormatOk.

(** ** Arguments by the variables of a program *)

Definition map_arg {R S} (f : R -> S) (v : va_arg R) : va_arg S :=
  match v with
  | va_term r => va_term (f r)
  | va_chars s => va_chars s
  | va_integer n => va_integer n
  | va_real d => va_real d
  end.

Section Map.
Context (atof : list Z -> Z) {R S : Type} (D : R -> ETERM -> Prop) (E : S -> ETERM -> Prop) (f : R -> S).
Context (HD : forall r t, D r t -> E (f r) t).

Lemma eletter_map c v t : eletter D c v t -> eletter E c (map_arg f v) t.
Proof. destruct 1; constructor; auto. Qed.

Lemma eform_map :
  (forall t args T, eform atof D t args T -> eform atof E t (map_arg f <$> args) T) /\
  (forall close t args ts, eelems atof D close t args ts -> eelems atof E close t (map_arg f <$> args) ts).
Proof.
  apply eform_eelems_ind; intros; rewrite ?fmap_app; cbn [fmap list_fmap];
    eauto using eform_atom, eform_var, eform_int, eform_float, eform_string, eform_quoted, eform_char, eform_nil,
      eform_list, eform_tuple, eelems_end, eelems_skip, eelems_arg, eelems_term, eletter_map.
Qed.

Lemma etext_map k t args T : etext atof D k t args T -> etext atof E k t (map_arg f <$> args) T.
Proof.
  induction 1.
  - by apply etext_form, eform_map.
  - apply etext_arg; [by apply eletter_map | done].
  - by apply etext_space.
Qed.
End Map.

Lemma var_held env i a : var env i = Some a -> a ∈ held env.
Proof.
  intros Ha. unfold held. apply elem_of_ms, list_elem_of_omap. exists (Some a). split; [| done].
  unfold var in Ha. destruct (env !! i) as [o |] eqn:E; [| done]. cbn in Ha. subst o. by eapply list_elem_of_lookup_2.
Qed.

Section Programs.
Context (malloc : eterm_stateinfo -> option addr) (atof : list Z -> Z) (fuel hfuel : nat) (cs : list call) (k : Z).
Context (malloc_fresh : forall h a, malloc h = Some a -> blocks h !! a = None).
Context (malloc_total : forall h, is_Some (malloc h)).
Context (calls_ok : forallb call_ok cs = true).

(** A program's variable [i] has the term [t]. *)
Definition has (i : nat) (t : ETERM) : Prop := var (spec_calls cs []) i = Some t.

Lemma format_state text args rest T w h env live :
  Holds w h env (spec_calls cs []) live -> etext atof has k text args T -> stop (hd 0 rest) ->
  (length text < fuel)%nat -> w + 4 * cells T <= ERL_MAX_COUNT -> w + 4 * cells T + 1 < Z.of_nat hfuel ->
  exists a h', erl_format malloc atof fuel hfuel (text ++ rest) (map_arg (var env) <$> args) h = Go (Some a) h' /\
    formatted k (w + 4 * cells T) live (held env) T a h'.
Proof.
  intros [Hg Hr] Ht Hst Hf Hw Hh.
  set (E := fun o t => exists a, o = Some a /\ a ∈ held env /\ den live a t).
  assert (HE : forall i t, has i t -> E (var env i) t).
  { intros i t Hi. pose proof (var_rel _ _ _ i Hr) as Hx. unfold has in Hi. rewrite Hi in Hx.
    destruct (var env i) as [a |] eqn:Ea; [| done]. exists a. split; [done |]. split; [by eapply var_held | done]. }
  pose proof (etext_ok malloc malloc_fresh atof E hfuel (text ++ rest) k text _ T (etext_map atof has E (var env) HE _ _ _ _ Ht)
    fuel rest 0 w h live (held env) [] (text_start _) Hst Hf Hg (fun o t H => H) Hw Hh) as Hrun.
  rewrite app_nil_r in Hrun. unfold erl_format, bindH. unfold wpH in Hrun.
  destruct (eformat _ _ _ _ _ _ _ _) as [[[r p] pap] h' | |]; [| | done].
  2:{ destruct Hrun as [h0 Hn]. destruct (malloc_total h0). congruence. }
  destruct Hrun as (a & [= -> _ _] & Hx). by exists a, h'.
Qed.
End Programs.



(** ** A sample *)

Lemma eatom atof {R} (D : R -> ETERM -> Prop) c : islower c = true -> eform atof D [c] [] (atom_of [c]).
Proof. intros Hc. apply eform_atom; [by apply Is_true_true | constructor | done]. Qed.
Lemma evar atof {R} (D : R -> ETERM -> Prop) c : isupper c = true -> eform atof D [c] [] (Erl_Variable [c] None).
Proof. intros Hc. apply eform_var; [apply Is_true_true; by rewrite Hc | constructor | done]. Qed.

(** {a, ~w,[X,~i]} with the atom b and 5. *)
Definition format_calls : list call := [Leaf atom_b; Leaf (Erl_Integer 5); List [1; 1]%nat; Tuple [0; 0; 1]%nat].
Definition sample_text : list Z := [123; 97; 44; 32; 126; 119; 44; 91; 88; 44; 126; 105; 93; 125].
Definition sample_args : list (va_arg nat) := [va_term 0%nat; va_integer 5].
Definition sample_form : ETERM := Erl_Tuple [atom_of [97]; atom_b; list_of [Erl_Variable [88] None; Erl_Integer 5]].

Lemma sample_text_ok atof : etext atof (has format_calls) 1 sample_text sample_args sample_form.
Proof.
  apply etext_form. unfold sample_text, sample_args, sample_form.
  apply (eform_tuple _ _ _ [va_term 0%nat; va_integer 5]); [| done].
  apply (eelems_term _ _ 125 [97] [] (atom_of [97]) [44; 32; 126; 119; 44; 91; 88; 44; 126; 105; 93; 125]
    [va_term 0%nat; va_integer 5]); [by apply eatom | done |].
  apply eelems_skip; [by right |]. apply eelems_skip; [by left |]. apply eelems_arg; [by apply eletter_w |].
  apply eelems_skip; [by right |].
  apply (eelems_term _ _ 125 [91; 88; 44; 126; 105; 93] [va_integer 5] _ [125] [] []); [| done | apply eelems_end].
  apply (eform_list _ _ _ [va_integer 5]); [done | | done].
  apply (eelems_term _ _ 93 [88] [] _ [44; 126; 105; 93] [va_integer 5]); [by apply evar | done |].
  apply eelems_skip; [by right |]. apply eelems_arg; [apply eletter_i | apply eelems_end].
Qed.


(** {~w,b,X} with b and the term {b,b,5}. *)
Definition pattern_text : list Z := [123; 126; 119; 44; 98; 44; 88; 125].
Definition pattern_form : ETERM := Erl_Tuple [atom_b; atom_of [98]; Erl_Variable [88] None].

Lemma pattern_text_ok atof : etext atof (has format_calls) 1 pattern_text [va_term 0%nat] pattern_form.
Proof.
  apply etext_form. apply (eform_tuple _ _ _ [va_term 0%nat]); [| done].
  apply eelems_arg; [by apply eletter_w |]. apply eelems_skip; [by right |].
  apply (eelems_term _ _ 125 [98] [] (atom_of [98]) [44; 88; 125] []); [by apply eatom | done |].
  apply eelems_skip; [by right |].
  apply (eelems_term _ _ 125 [88] [] _ [125] [] []); [by apply evar | done | apply eelems_end].
Qed.

Lemma atom_b_ok : leaf_ok 1 atom_b.
Proof. constructor. exists [98]. split; [done |]. split; [repeat constructor; lia | done]. Qed.


(** ** What goes wrong *)

Definition formats (text : list Z) (args : list va) : res (option addr) :=
  erl_format count_up (fun _ => 0) 1000 100 text args erl_init_eterm_alloc.

(** A text that is refused leaves the entries read so far: {a,~q} the atom. *)
Lemma refused_leaks :
  exists h, formats [123; 97; 44; 126; 113; 125] [] = Go None h /\
    base.size (live_of h) = 1%nat /\ fst (erl_eterm_statistics h) = 1.
Proof. eexists. split; [vm_compute; reflexivity | by vm_compute]. Qed.

(** A text that ends in ~ or within quotes is read past its end. *)
Lemma text_read_past_end :
  formats [126] [] = Wrong /\ formats [39; 97] [] = Wrong /\ formats [123; 34; 97; 125] [] = Wrong.
Proof. by vm_compute. Qed.

(** 255 entries are taken, 256 are stored past the end of the array. *)
Definition many (n : nat) : list Z := 123 :: concat (repeat [49; 44] n) ++ [125].
Lemma too_many_entries :
  (exists a h, formats (many 255) [] = Go (Some a) h) /\ formats (many 256) [] = Wrong.
Proof. split; [do 2 eexists |]; vm_compute; reflexivity. Qed.

(** An atom longer than the buffer is copied past its end. *)
Lemma long_atom_overflows malloc atof fuel hfuel c cs rest args h :
  islower c = true -> Forall is_atom_char cs -> stop (hd 0 rest) -> wbuf_size <= len (c :: cs) ->
  erl_format malloc atof (S fuel) hfuel ((c :: cs) ++ rest) args h = Wrong.
Proof.
  intros Hc Hcs Hs Hb. set (fmt := (c :: cs) ++ rest). assert (Ht : text_at fmt 0 ((c :: cs) ++ rest)) by apply text_start.
  assert (Hp : patom fmt 0 h = Wrong).
  { unfold patom, bindH, lift. rewrite (scan_while_ok fmt _ (c :: cs) rest); [| done | | | by eapply fuel_enough].
    - unfold retH, piece. by rewrite (proj2 (Z.leb_le _ _)) by lia.
    - constructor; [apply Is_true_true; bool_lia | done].
    - apply Is_true_true in Hs. bool_lia. }
  unfold erl_format. cbn [eformat]. unfold bindH, lift. rewrite (text_chr _ _ _ Ht). unfold retH at 1. cbn [hd app].
  branch (c =? 123) false. branch (c =? 91) false. branch (c =? 36) false. branch (c =? 126) false.
  branch (c =? 32) false. by rewrite Hc, Hp.
Qed.

(** A quote cannot be escaped: the test looks at the quote itself. *)
Lemma quote_not_escaped :
  exists a h, formats [39; 97; 92; 39; 98; 39] [] = Go (Some a) h /\
    term_at 1 (live_of h) a = Some (atom_of [97; 92]).
Proof. do 2 eexists. split; vm_compute; reflexivity. Qed.

(** The term of an argument that stands alone is copied: a variable cannot be. *)
Lemma variable_alone :
  after [Var name_X] (fun env => erl_format count_up (fun _ => 0) 10 10 [126; 119] [va_term (var env 0)]) = Wrong.
Proof. vm_compute. reflexivity. Qed.
