(* ===== verification/Peek.v ===== *)
(** * legacy/erl_marshal.c: looking for an element of an encoded term

    [erl_peek_ext] gives a pointer to an element of an encoded tuple or list,
    and moves over the elements in front of it with [jump]. The definitions,
    the forms over which [jump] moves exactly ([jext]), and the forms over
    which it does not. *)

From S2P Require Import Prelude Mem PutGet Ext Headers Ints Atom Data Skip.

(** ** Moving over a term *)

(** [( *ext)++] and friends give the new [ext]; the open coded reads of two
    and four bytes are [get16be] and [get32be]. *)
Definition jump_atom (ext : Z) : D (Z * Z) :=
  let+ tag := load ext in
  let e := ext + 1 in
  if (tag =? ERL_ATOM_EXT) || (tag =? ERL_ATOM_UTF8_EXT) then
    let+ (l, _) := get16be e in retD (1, e + (l + 2))
  else if (tag =? ERL_SMALL_ATOM_EXT) || (tag =? ERL_SMALL_ATOM_UTF8_EXT) then
    let+ l := load e in retD (1, e + (l + 1))
  else retD (0, ext).

(** [if (!jump_atom(ext)) return 0; *ext += n;] *)
Definition jump_name (n : Z) (ext : Z) : D (Z * Z) :=
  let+ (r, ext) := jump_atom ext in
  if r =? 0 then retD (0, ext) else retD (1, ext + n).

(** [for (...) if (jump(ext) == 0) return 0;] *)
Fixpoint jumps (jmp : Z -> D (Z * Z)) (n : nat) (ext : Z) : D (Z * Z) :=
  match n with
  | O => retD (1, ext)
  | S n =>
      let+ (r, ext) := jmp ext in
      if r =? 0 then retD (0, ext) else jumps jmp n ext
  end.

Fixpoint jump (fuel : nat) (ext : Z) : D (Z * Z) :=
  match fuel with
  | O => ubD
  | S fuel =>
      let+ tag := load ext in
      let ext := ext + 1 in
      let has t := tag =? t in
      if has ERL_VERSION_MAGIC then jump fuel ext
      else if has ERL_INTEGER_EXT then retD (1, ext + 4)
      else if has ERL_SMALL_INTEGER_EXT then retD (1, ext + 1)
      else if has ERL_ATOM_EXT || has ERL_ATOM_UTF8_EXT
              || has ERL_SMALL_ATOM_EXT || has ERL_SMALL_ATOM_UTF8_EXT then
        let+ (_, ext) := jump_atom ext in retD (1, ext)
      else if has ERL_PID_EXT then jump_name (4 + 4 + 1) ext
      else if has ERL_NEW_PID_EXT then jump_name (4 + 4 + 4) ext
      else if has ERL_REFERENCE_EXT || has ERL_PORT_EXT then jump_name (4 + 1) ext
      else if has ERL_NEW_PORT_EXT then jump_name (4 + 4) ext
      else if has ERL_NEW_REFERENCE_EXT || has ERL_NEWER_REFERENCE_EXT then
        let+ (n, ext) := get16be ext in
        jump_name (4 * n + (if tag =? ERL_NEW_REFERENCE_EXT then 1 else 4)) ext
      else if has ERL_NIL_EXT then retD (1, ext)
      else if has ERL_LIST_EXT then
        let+ (j, ext) := get32be ext in
        let+ (r, ext) := jumps (jump fuel) (Z.to_nat j) ext in
        if r =? 0 then retD (0, ext) else
        let+ tl := load ext in
        if tl =? ERL_NIL_EXT then retD (1, ext + 1) else
        let+ (r, ext) := jump fuel ext in
        if r =? 0 then retD (0, ext) else retD (1, ext)
      else if has ERL_STRING_EXT then
        let+ (i, ext') := get16be ext in retD (1, ext + (2 + i))
      else if has ERL_SMALL_TUPLE_EXT then
        let+ i := load ext in jumps (jump fuel) (Z.to_nat i) (ext + 1)
      else if has ERL_LARGE_TUPLE_EXT then
        let+ (i, ext) := get32be ext in jumps (jump fuel) (Z.to_nat i) ext
      else if has ERL_FLOAT_EXT then retD (1, ext + 31)
      else if has NEW_FLOAT_EXT then retD (1, ext + 8)
      else if has ERL_BINARY_EXT then
        let+ (i, _) := get32be ext in
        let+ n := int_sum (4 + i) in retD (1, ext + n)
      else if has ERL_FUN_EXT then
        let+ (i, ext) := get32be ext in
        let+ i := int_sum (i + 4) in jumps (jump fuel) (Z.to_nat i) ext
      else if has ERL_NEW_FUN_EXT then
        let+ (i, ext) := get32be ext in
        let+ n := int_sum (i + 4) in retD (1, ext + n)
      else if has ERL_SMALL_BIG_EXT then
        let+ i := load ext in retD (1, ext + (i + 1))
      else if has ERL_LARGE_BIG_EXT then
        let+ (i, ext) := get32be ext in
        let+ n := int_sum (i + 4) in retD (1, ext + n)
      else retD (0, ext)
  end.

(** ** Peeking *)

(** [do_the_peek_stuff], [n] the number of elements. *)
Definition peek_elems (fuel : nat) (n ext num : Z) : D (option Z) :=
  if n <=? num then retD None else
  let+ (r, ext) := jumps (jump fuel) (Z.to_nat num) ext in
  if r =? 0 then retD None else retD (Some ext).

(** [None] is NULL. *)
Fixpoint peek_ext (fuel : nat) (ext num : Z) : D (option Z) :=
  match fuel with
  | O => ubD
  | S fuel =>
      let+ tag := load ext in
      let ext := ext + 1 in
      if tag =? ERL_VERSION_MAGIC then peek_ext fuel ext num
      else if tag =? ERL_SMALL_TUPLE_EXT then
        let+ i := load ext in peek_elems fuel i (ext + 1) num
      else if (tag =? ERL_LARGE_TUPLE_EXT) || (tag =? ERL_LIST_EXT) then
        let+ (i, ext) := get32be ext in peek_elems fuel i ext num
      else retD None
  end.

Definition erl_peek_ext (fuel : nat) (ext num : Z) : D (option Z) := peek_ext fuel ext num.

(** ** The forms [jump] moves over *)

Inductive jext : list Z -> Prop :=
  | jext_int n bs : int_ext n bs -> jext bs
  | jext_float p : is_uint64 p -> jext (ext_double p)
  | jext_float_text txt : len txt = 31 -> jext ([ERL_FLOAT_EXT] ++ txt)
  | jext_id bs : id_ext bs -> jext bs
  | jext_nil : jext [ERL_NIL_EXT]
  | jext_string p : len p < 65536 -> jext ((ERL_STRING_EXT :: be16 (len p)) ++ p)
  | jext_binary p : 4 + len p <= int_max -> jext ((ERL_BINARY_EXT :: be32 (len p)) ++ p)
  | jext_list ts tl :
      Forall jext ts -> jext tl -> len ts <= int_max ->
      jext ((ERL_LIST_EXT :: be32 (len ts)) ++ concat ts ++ tl)
  | jext_small_tuple ts :
      Forall jext ts -> len ts < 256 -> jext ([ERL_SMALL_TUPLE_EXT; len ts] ++ concat ts)
  | jext_large_tuple ts :
      Forall jext ts -> len ts <= int_max ->
      jext ((ERL_LARGE_TUPLE_EXT :: be32 (len ts)) ++ concat ts).

(** [f] moves over [bs]. *)
Definition jumps_over (f : Z -> D (Z * Z)) (bs : list Z) : Prop :=
  forall o s, at_ s o bs -> f o s = Some (1, o + len bs).

Lemma jump_name_ok name n o s :
  atom_ext name -> at_ s o name -> jump_name n o s = Some (1, o + (len name + n)).
Proof.
  intros He Ha. unfold jump_name, jump_atom.
  destruct He as [long u [Hb Hf] Hl | long u Hb Hl]; unfold MAXATOMLEN_UTF8, MAXATOMLEN in *;
    [rewrite ext_atom_header in *; unfold atom_header in * | unfold ext_latin1 in *];
    destruct long; cbn [Z.eqb Pos.eqb] in *; at_split;
    repeat (rewrite ?bindD_assoc; erewrite bindD_Some by (apply load_at; at_tac);
            cbv beta iota; ctests);
    try rstep; rewrite ?bindD_assoc, bindD_ret; ctests; unfold retD; autorewrite with len in *;
    rewrite ?Z.mod_small by lia; do 2 f_equal;
    rewrite ?len_cons, ?byte_small by (unfold is_byte; lia); lia.
Qed.

(** The first byte, then the tests on it. *)
Ltac jump_start :=
  cbn [jump]; at_split; rewrite ?bindD_assoc; erewrite bindD_Some by (apply load_at; at_tac);
  cbv beta zeta iota; ctests.

Lemma jumps_ok jmp ts o s :
  Forall (jumps_over jmp) ts -> at_ s o (concat ts) ->
  jumps jmp (length ts) o s = Some (1, o + len (concat ts)).
Proof.
  intros H. revert o. induction H as [| t ts Ht _ IH]; intros o Ha; cbn [jumps length concat].
  - unfold retD. do 2 f_equal. cbn. lia.
  - apply at_app in Ha as [Ha1 Ha2]. erewrite bindD_Some by (by apply Ht).
    cbv beta iota. ctests. rewrite IH by done. do 2 f_equal. rewrite len_app. lia.
Qed.

Ltac jump_end := unfold retD; autorewrite with len; rewrite ?len_cons; do 2 f_equal; lia.

Lemma jump_int fuel n bs : int_ext n bs -> jumps_over (jump (S fuel)) bs.
Proof. intros [m Hm | m Hm] o s Ha; jump_start; jump_end. Qed.

Lemma jump_id fuel bs : id_ext bs -> jumps_over (jump (S fuel)) bs.
Proof.
  intros [bs' [tag name rest Ht Hn] | tag name rest Ht Hn | name rest Hr Hn
    | tag n l name rest Ht Hr Hl Hn] o s Ha; try tag_cases Ht;
    jump_start; try rstep; rewrite ?Z.mod_small by lia;
    erewrite jump_name_ok by (first [exact Hn | at_tac]);
    do 2 f_equal; autorewrite with len; rewrite ?len_cons; lia.
Qed.

Lemma jump_tail fuel tl o s :
  jumps_over (jump fuel) tl -> at_ s o tl -> tl <> [] ->
  (hd 0 tl = ERL_NIL_EXT -> tl = [ERL_NIL_EXT]) ->
  (let+ t := load o in
   if t =? ERL_NIL_EXT then retD (1, o + 1) else
   let+ (r, ext) := jump fuel o in
   if r =? 0 then retD (0, ext) else retD (1, ext)) s = Some (1, o + len tl).
Proof.
  intros Hj Ha Hne Hnil. destruct tl as [| b tl]; [done |].
  pose proof Ha as [Hb _]%at_cons. erewrite bindD_Some by (by apply load_at).
  destruct (Z.eqb_spec b ERL_NIL_EXT) as [-> | E].
  - by rewrite Hnil.
  - erewrite bindD_Some by (by apply Hj). done.
Qed.

Lemma jext_nonempty bs : jext bs -> (1 <= length bs)%nat.
Proof.
  intros [n bs' [] | p _ | txt _ | bs' [bs'' [] | | |] | | p _ | p _ | ts tl _ _ _ | ts _ _
    | ts _ _]; cbn; rewrite ?length_app; cbn; lia.
Qed.

Lemma jext_nil_only bs : jext bs -> hd 0 bs = ERL_NIL_EXT -> bs = [ERL_NIL_EXT].
Proof.
  intros [n bs' [] | p _ | txt _ | bs' [bs'' [tag ? ? Ht _] | tag ? ? Ht _ | | tag ? ? ? ? Ht _ _ _]
    | | p _ | p _ | ts tl _ _ _ | ts _ _ | ts _ _]; try tag_cases Ht; done.
Qed.

Lemma jump_parts fuel ts :
  (forall bs, jext bs -> (length bs <= fuel)%nat -> jumps_over (jump fuel) bs) ->
  Forall jext ts -> (length (concat ts) <= fuel)%nat ->
  Forall (jumps_over (jump fuel)) ts.
Proof.
  intros IH Hts. induction Hts as [| t ts Ht _ IHts]; intros Hl; [done |].
  cbn in Hl. rewrite length_app in Hl.
  constructor; [apply IH; [done | lia] | apply IHts; lia].
Qed.

Lemma jump_jext fuel bs : jext bs -> (length bs <= fuel)%nat -> jumps_over (jump fuel) bs.
Proof.
  revert bs. induction fuel as [| fuel IH]; intros bs He Hf;
    [pose proof (jext_nonempty _ He); lia |].
  destruct He as [n bs Hn | p Hp | txt Ht | bs Hb | | p Hp | p Hp | ts tl Hts Htl Hn
    | ts Hts Hn | ts Hts Hn]; try (cbn [app length] in Hf; rewrite ?length_app in Hf).
  - by eapply jump_int.
  - intros o s Ha. unfold ext_double in *. jump_start. jump_end.
  - intros o s Ha. jump_start. jump_end.
  - by apply jump_id.
  - intros o s Ha. jump_start. jump_end.
  - intros o s Ha. jump_start. rstep. rewrite Z.mod_small by lia. jump_end.
  - intros o s Ha. jump_start. rstep.
    rewrite int32_small by (unfold is_int32, int_max in *; lia). int_fits. jump_end.
  - intros o s Ha. jump_start. rstep.
    rewrite int32_small, Nat2Z.id by (unfold is_int32, int_max in *; lia).
    erewrite bindD_Some by (apply jumps_ok; [apply jump_parts; [done | done | lia] | at_tac]).
    cbv beta iota. ctests. rewrite (jump_tail _ tl).
    + jump_end.
    + apply IH; [done | lia].
    + at_tac.
    + intros ->. apply jext_nonempty in Htl. cbn in Htl. lia.
    + by apply jext_nil_only.
  - intros o s Ha. jump_start. erewrite bindD_Some by (apply load_at; at_tac).
    rewrite Nat2Z.id, jumps_ok; [jump_end | | at_tac]. apply jump_parts; [done | done | lia].
  - intros o s Ha. jump_start. rstep.
    rewrite int32_small, Nat2Z.id by (unfold is_int32, int_max in *; lia).
    rewrite jumps_ok; [jump_end | | at_tac]. apply jump_parts; [done | done | lia].
Qed.

(** ** The element *)

Definition peek_header (n : Z) (h : list Z) : Prop :=
  (h = [ERL_SMALL_TUPLE_EXT; n] /\ n < 256) \/
  (h = ERL_LARGE_TUPLE_EXT :: be32 n /\ n <= int_max) \/
  (h = ERL_LIST_EXT :: be32 n /\ n <= int_max).

Lemma peek_elems_ok fuel ts num o s :
  Forall jext ts -> at_ s o (concat ts) -> (length (concat ts) <= fuel)%nat -> 0 <= num ->
  match ts !! Z.to_nat num with
  | Some t => exists p, peek_elems fuel (len ts) o num s = Some (Some p) /\ at_ s p t
  | None => peek_elems fuel (len ts) o num s = Some None
  end.
Proof.
  intros Hts Ha Hf Hn. unfold peek_elems.
  destruct (ts !! Z.to_nat num) as [t |] eqn:Ht.
  - rewrite (proj2 (Z.leb_gt _ _)) by (apply lookup_lt_Some in Ht; lia).
    pose proof (take_drop_middle _ _ _ Ht) as E. pose proof (lookup_lt_Some _ _ _ Ht) as Hlt.
    set (ts1 := take (Z.to_nat num) ts) in *.
    assert (Hl : length ts1 = Z.to_nat num) by (unfold ts1; rewrite length_take; lia).
    rewrite <- E, concat_app in *. cbn [concat] in *.
    apply at_app in Ha as [Ha1 [Ha2 _]%at_app]. apply Forall_app in Hts as [Hts1 _].
    rewrite <- Hl. erewrite bindD_Some.
    2: { apply jumps_ok; [| done]. apply jump_parts; [| done |].
         - intros. by apply jump_jext.
         - rewrite length_app in Hf. lia. }
    eexists. split; [done | done].
  - rewrite (proj2 (Z.leb_le _ _)) by (apply lookup_ge_None in Ht; lia). done.
Qed.

(** A reader that starts at the tag of a tuple or list. *)
Lemma peek_ext_header fuel h (ts : list (list Z)) num o s :
  peek_header (len ts) h -> at_ s o h ->
  peek_ext (S fuel) o num s = peek_elems fuel (len ts) (o + len h) num s.
Proof.
  intros [[-> Hn] | [[-> Hn] | [-> Hn]]] Ha; cbn [peek_ext]; at_split;
    erewrite bindD_Some by (apply load_at; at_tac); cbv beta zeta iota; ctests.
  - erewrite bindD_Some by (apply load_at; at_tac). f_equal. rewrite !len_cons. cbn. lia.
  - rstep. rewrite int32_small by (unfold is_int32, int_max in *; lia).
    f_equal. autorewrite with len. lia.
  - rstep. rewrite int32_small by (unfold is_int32, int_max in *; lia).
    f_equal. autorewrite with len. lia.
Qed.

(** C11: [erl_peek_ext] finds the element: of a tuple or list in the external
    format, with or without a version byte in front, whose elements are in the forms
    that [jext] lists, it gives a pointer to the element with the number it is asked
    for, and NULL if there are not that many; every element in front of it is passed
    exactly, whatever is nested in it. [jext] are integers of at most 32 bits,
    floats, pids, ports and references, strings, binaries of at most INT_MAX - 4
    bytes, and lists and tuples of these; no atoms, bigs or funs. *)
Theorem peek_finds_element (magic : bool) h ts num fuel o s :
  peek_header (len ts) h -> Forall jext ts -> 0 <= num ->
  at_ s o ((if magic then [ERL_VERSION_MAGIC] else []) ++ h ++ concat ts) ->
  (2 + length (concat ts) <= fuel)%nat ->
  match ts !! Z.to_nat num with
  | Some t => exists p, erl_peek_ext fuel o num s = Some (Some p) /\ at_ s p t
  | None => erl_peek_ext fuel o num s = Some None
  end.
Proof.
  intros Hh Hts Hn Ha Hf. unfold erl_peek_ext.
  destruct fuel as [| [| fuel]]; [lia | lia |].
  apply at_app in Ha as [Hm [Ha1 Ha2]%at_app].
  destruct magic; cbn [app] in *; rewrite ?Z.add_0_r in *.
  - cbn [peek_ext]. erewrite bindD_Some by (by apply load_at). cbv beta zeta. ctests.
    pose proof (peek_ext_header fuel h ts num (o + 1) s Hh Ha1) as E. cbn [peek_ext] in E.
    rewrite E. apply peek_elems_ok; [done | at_tac | lia | done].
  - rewrite (peek_ext_header (S fuel) h ts) by done.
    apply peek_elems_ok; [done | done | lia | done].
Qed.

(** [{[7], 300, "ab"}], its third element. *)
Definition peek_example : list (list Z) :=
  [(ERL_LIST_EXT :: be32 1) ++ [ERL_SMALL_INTEGER_EXT; 7] ++ [ERL_NIL_EXT];
   ERL_INTEGER_EXT :: be32 300;
   (ERL_STRING_EXT :: be16 2) ++ [97; 98]].

Lemma peek_finds_element_witness :
  exists p, erl_peek_ext 40 0 2 ([131; 104; 3] ++ concat peek_example) = Some (Some p) /\
    at_ ([131; 104; 3] ++ concat peek_example) p [107; 0; 2; 97; 98].
Proof.
  apply (peek_finds_element true [ERL_SMALL_TUPLE_EXT; 3] peek_example 2 40 0).
  - left. by split.
  - apply Forall_cons_2; [| apply Forall_cons_2; [| apply Forall_cons_2; [| constructor]]].
    + apply (jext_list [[ERL_SMALL_INTEGER_EXT; 7]] [ERL_NIL_EXT]); [| apply jext_nil | done].
      apply Forall_cons_2; [| constructor]. apply (jext_int 7). constructor. unfold is_byte. lia.
    + apply (jext_int 300). constructor. unfold is_int32. lia.
    + by apply (jext_string [97; 98]).
  - lia.
  - split; [lia |]. by exists [], [].
  - apply Nat.leb_le. vm_compute. reflexivity.
Defined.

(** ** What [jump] does not pass *)

(** The byte behind the tag of an atom is taken for its tag, nothing is passed,
    and that is not looked at: of [{ab, 7}], the second element is found inside
    the atom. *)
Lemma atom_not_passed :
  jump 9 0 [115; 2; 97; 98; 97; 7] = Some (1, 1) /\
  erl_peek_ext 9 0 1 [104; 2; 115; 2; 97; 98; 97; 7] = Some (Some 3).
Proof. done. Qed.

(** One byte too few for a small bignum, three too many for a large one, and
    eight too many for a fun: [get32be] has moved the pointer already, and the
    size of a fun counts its own four bytes. *)
Lemma bignum_not_passed :
  jump 9 0 [110; 2; 0; 5; 6] = Some (1, 4) /\
  jump 9 0 [111; 0; 0; 0; 2; 0; 5; 6] = Some (1, 11).
Proof. done. Qed.

Lemma fun_not_passed size s o :
  is_int32 size -> size <= int_max - 4 -> at_ s o (ERL_NEW_FUN_EXT :: be32 size) ->
  jump 1 o s = Some (1, o + 1 + size + 8).
Proof.
  intros Hs Hm Ha. jump_start. rstep. rewrite int32_small by done.
  rewrite bind_int_sum by (unfold is_int32, int_max in *; lia).
  unfold retD. do 2 f_equal. lia.
Qed.
