(* ===== verification/Compare.v ===== *)
(** * legacy/erl_marshal.c: comparing encoded terms

    [erl_compare_ext] compares two terms as bytes, without making them. Its two
    pointers go through two blocks, so the functions of this file read from two
    blocks ([D2]); each gives its result and the two pointers after it. Doubles
    are the floats of the Standard Library's [SpecFloat]. *)

From Stdlib Require Import SpecFloat.
From S2P Require Import Prelude Mem PutGet Ext Headers Ints Atom Data Ids Big Term Hash Match Peek.

(** ** Doubles *)

(** The double with the given 64 bits. *)
Definition double_of_bits (p : Z) : spec_float :=
  let s := Z.testbit p 63 in
  let e := Z.land (Z.shiftr p 52) 0x7ff in
  let m := Z.land p (2 ^ 52 - 1) in
  if e =? 0x7ff then (if m =? 0 then S754_infinity s else S754_nan)
  else if e =? 0 then
    match m with Zpos m => S754_finite s m (-1074) | _ => S754_zero s end
  else match m + 2 ^ 52 with Zpos m => S754_finite s m (e - 1075) | _ => S754_nan end.

(** The cast from an integer, and the arithmetic of [double]. *)
Definition double_of_Z (n : Z) : spec_float := binary_normalize 53 1024 n 0 false.
Definition dadd : spec_float -> spec_float -> spec_float := SFadd 53 1024.
Definition dmul : spec_float -> spec_float -> spec_float := SFmul 53 1024.

Definition cmp_floats (f1 f2 : spec_float) : Z :=
  match SFcompare f1 f2 with Some Lt => -1 | Some Gt => 1 | _ => 0 end.

Definition to_float (l : Z) : spec_float := double_of_Z l.

(** decode_big.c. The exception flag is looked at on a 32-bit x86 only: without
    it nothing sets it, and the result is 0 in every case. *)
Fixpoint big_to_double_loop (s : list Z) (d d_base : spec_float) : spec_float :=
  match s with
  | [] => d
  | ds :: s =>
      let d_next := dadd (dmul (double_of_Z ds) d_base) d in
      big_to_double_loop s d_next (dmul d_base (double_of_Z D_BASE))
  end.

Definition ei_big_to_double (b : erlang_big) : Z * spec_float :=
  let d := big_to_double_loop (take (Z.to_nat ((big_arity b + 1) / 2)) (big_digits b))
             (S754_zero false) (double_of_Z 1) in
  (0, if negb (big_is_neg b =? 0) then SFopp d else d).

(** ** Readers of two blocks *)

Definition D2 (A : Type) : Type := list Z -> list Z -> option A.
Definition ret2 {A} (a : A) : D2 A := fun _ _ => Some a.
Definition ub2 {A} : D2 A := fun _ _ => None.
Definition bind2 {A B} (m : D2 A) (k : A -> D2 B) : D2 B :=
  fun s1 s2 => match m s1 s2 with Some a => k a s1 s2 | None => None end.
Notation "'let^' x ':=' m 'in' k" := (bind2 m (fun x => k))
  (at level 10, x pattern, m at level 200, k at level 200,
   format "'[v' 'let^'  x  ':='  m  'in' '/' k ']'") : c_scope.

(** Read from the first block, from the second, and with the blocks changed
    over. *)
Definition on1 {A} (m : D A) : D2 A := fun s1 _ => m s1.
Definition on2 {A} (m : D A) : D2 A := fun _ s2 => m s2.
Definition cross {A} (m : D2 A) : D2 A := fun s1 s2 => m s2 s1.

(** A comparison: the result and the pointers. *)
Definition R3 : Type := Z * Z * Z.

(** [-f(e2, e1)] *)
Definition opposite (f : Z -> Z -> D2 R3) (e1 e2 : Z) : D2 R3 :=
  let^ (ret, e2, e1) := cross (f e2 e1) in ret2 (- ret, e1, e2).

(** ** The tables of [erl_init_marshal] *)

Definition ERL_NUM_CMP : Z := 1.
Definition ERL_ATOM_CMP : Z := 2.
Definition ERL_REF_CMP : Z := 3.
Definition ERL_FUN_CMP : Z := 4.
Definition ERL_PORT_CMP : Z := 5.
Definition ERL_PID_CMP : Z := 6.
Definition ERL_TUPLE_CMP : Z := 7.
Definition ERL_NIL_CMP : Z := 8.
Definition ERL_LIST_CMP : Z := 9.
Definition ERL_BIN_CMP : Z := 10.

Definition cmp_array (t : Z) : Z :=
  let has l := existsb (Z.eqb t) l in
  if has [ERL_SMALL_INTEGER_EXT; ERL_INTEGER_EXT; ERL_FLOAT_EXT; NEW_FLOAT_EXT;
          ERL_SMALL_BIG_EXT; ERL_LARGE_BIG_EXT] then ERL_NUM_CMP
  else if has [ERL_ATOM_EXT; ERL_ATOM_UTF8_EXT; ERL_SMALL_ATOM_EXT; ERL_SMALL_ATOM_UTF8_EXT]
    then ERL_ATOM_CMP
  else if has [ERL_REFERENCE_EXT; ERL_NEW_REFERENCE_EXT; ERL_NEWER_REFERENCE_EXT]
    then ERL_REF_CMP
  else if has [ERL_FUN_EXT; ERL_NEW_FUN_EXT] then ERL_FUN_CMP
  else if has [ERL_PORT_EXT; ERL_NEW_PORT_EXT] then ERL_PORT_CMP
  else if has [ERL_PID_EXT; ERL_NEW_PID_EXT] then ERL_PID_CMP
  else if has [ERL_SMALL_TUPLE_EXT; ERL_LARGE_TUPLE_EXT] then ERL_TUPLE_CMP
  else if has [ERL_NIL_EXT] then ERL_NIL_CMP
  else if has [ERL_STRING_EXT; ERL_LIST_EXT] then ERL_LIST_CMP
  else if has [ERL_BINARY_EXT] then ERL_BIN_CMP
  else 0.

Inductive num_class := NONE | SMALL | FLOAT | BIG.

Definition cmp_num_class (t : Z) : num_class :=
  let has l := existsb (Z.eqb t) l in
  if has [ERL_SMALL_INTEGER_EXT; ERL_INTEGER_EXT] then SMALL
  else if has [ERL_FLOAT_EXT; NEW_FLOAT_EXT] then FLOAT
  else if has [ERL_SMALL_BIG_EXT; ERL_LARGE_BIG_EXT] then BIG
  else NONE.

Definition IS_ERL_NUM (t : Z) : bool := cmp_array t =? ERL_NUM_CMP.

(** ** Bytes and atoms *)

(** [x < y] gives -1, [x > y] gives 1: the ladder of every comparison. *)
Definition ladder (x y : Z) (k : Z) : Z := if x <? y then -1 else if y <? x then 1 else k.

(** 0 if the [n] bytes at both pointers are equal. *)
Fixpoint cmpbytes_loop (n : nat) (s1 s2 : Z) : D2 Z :=
  match n with
  | O => ret2 0
  | S n =>
      let^ b1 := on1 (load s1) in
      let^ b2 := on2 (load s2) in
      let c := ladder b1 b2 0 in
      if negb (c =? 0) then ret2 c else cmpbytes_loop n (s1 + 1) (s2 + 1)
  end.

Definition cmpbytes (s1 l1 s2 l2 : Z) : D2 Z :=
  let^ c := cmpbytes_loop (Z.to_nat (Z.min l1 l2)) s1 s2 in
  if negb (c =? 0) then ret2 c else ret2 (ladder l1 l2 0).

Definition tag2enc (t : Z) : Z :=
  if (t =? ERL_ATOM_EXT) || (t =? ERL_SMALL_ATOM_EXT) then ERLANG_LATIN1 else ERLANG_UTF8.

Definition cmpatoms (s1 l1 tag1 s2 l2 tag2 : Z) : D2 Z :=
  let enc1 := tag2enc tag1 in
  let enc2 := tag2enc tag2 in
  if enc1 =? enc2 then cmpbytes s1 l1 s2 l2 else
  let^ t1 := on1 (load_bytes s1 l1) in
  let^ t2 := on2 (load_bytes s2 l2) in
  ret2 (if enc1 =? ERLANG_LATIN1 then cmp_latin1_vs_utf8 t1 t2
        else - cmp_latin1_vs_utf8 t2 t1).

Definition CMP_EXT_ERROR_CODE : Z := 4711.

(** ** Terms of one kind *)

(** The sign of [strcmp]. *)
Fixpoint strcmp_loop (a b : list Z) : Z :=
  match a, b with
  | [], [] => 0
  | [], _ => -1
  | _, [] => 1
  | x :: a, y :: b => ladder x y (strcmp_loop a b)
  end.
Definition strcmp (a b : list Z) : Z := strcmp_loop (c_str a) (c_str b).

Definition cmp_integer (get : Z -> D Z) (n e1 e2 : Z) : D2 R3 :=
  let^ i := on1 (get e1) in
  let^ j := on2 (get e2) in
  ret2 (ladder i j 0, e1 + n, e2 + n).

(** The cases of atoms of [cmp_exe2]: the tag of the first says how long both
    lengths are. *)
Definition cmp_atom_ext (tag1 tag2 e1 e2 : Z) : D2 R3 :=
  let get e :=
    if (tag1 =? ERL_ATOM_EXT) || (tag1 =? ERL_ATOM_UTF8_EXT) then get16be e else get8 e in
  let^ (i, e1) := on1 (get e1) in
  let^ (j, e2) := on2 (get e2) in
  let^ ret := cmpatoms e1 i tag1 e2 j tag2 in
  ret2 (ret, e1 + i, e2 + j).

(** Both decoders start at the tag, [e - 1]. *)
Definition cmp_pid_ext (e1 e2 : Z) : D2 R3 :=
  let buf1 := e1 - 1 in
  let buf2 := e2 - 1 in
  let^ r1 := on1 (ei_decode_pid true buf1 0) in
  match r1 with
  | Done ix1 (Some p1) =>
      let^ r2 := on2 (ei_decode_pid true buf2 0) in
      match r2 with
      | Done ix2 (Some p2) =>
          ret2 (ladder (pid_serial p1) (pid_serial p2)
                 (ladder (pid_num p1) (pid_num p2)
                   (ladder (strcmp (pid_node p1) (pid_node p2)) 0
                     (ladder (pid_creation p1) (pid_creation p2) 0))),
                buf1 + ix1, buf2 + ix2)
      | _ => ret2 (CMP_EXT_ERROR_CODE, e1, e2)
      end
  | _ => ret2 (CMP_EXT_ERROR_CODE, e1, e2)
  end.

Definition cmp_port_ext (e1 e2 : Z) : D2 R3 :=
  let buf1 := e1 - 1 in
  let buf2 := e2 - 1 in
  let^ r1 := on1 (ei_decode_port true buf1 0) in
  match r1 with
  | Done ix1 (Some p1) =>
      let^ r2 := on2 (ei_decode_port true buf2 0) in
      match r2 with
      | Done ix2 (Some p2) =>
          ret2 (ladder (strcmp (port_node p1) (port_node p2)) 0
                 (ladder (port_creation p1) (port_creation p2)
                   (ladder (port_id p1) (port_id p2) 0)),
                buf1 + ix1, buf2 + ix2)
      | _ => ret2 (CMP_EXT_ERROR_CODE, e1, e2)
      end
  | _ => ret2 (CMP_EXT_ERROR_CODE, e1, e2)
  end.

Definition cmp_string_ext (e1 e2 : Z) : D2 R3 :=
  let^ (i, e1) := on1 (get16be e1) in
  let^ (j, e2) := on2 (get16be e2) in
  let^ ret := cmpbytes e1 i e2 j in
  ret2 (ret, e1 + i, e2 + j).

Definition cmp_binary_ext (e1 e2 : Z) : D2 R3 :=
  let^ (i, e1) := on1 (get32be e1) in
  let^ (j, e2) := on2 (get32be e2) in
  let^ ret := cmpbytes e1 i e2 j in
  ret2 (ret, e1 + i, e2 + j).

Section Compare.
Context (sscanf_lf : list Z -> option Z).

(** [ei_decode_double(e, &i, &f)]: the index behind it and the value. *)
Definition get_double (e i : Z) : D (option (Z * spec_float)) :=
  let+ r := ei_decode_double sscanf_lf true e i in
  retD (match r with Done i (Some p) => Some (i, double_of_bits p) | _ => None end).

(** The index starts at -1, the tag. *)
Definition cmp_float_ext (e1 e2 : Z) : D2 R3 :=
  let^ r1 := on1 (get_double e1 (-1)) in
  match r1 with
  | None => ret2 (-1, e1, e2)
  | Some (i, ff1) =>
      let e1 := e1 + i in
      let^ r2 := on2 (get_double e2 (-1)) in
      match r2 with
      | None => ret2 (-1, e1, e2)
      | Some (j, ff2) => ret2 (cmp_floats ff1 ff2, e1, e2 + j)
      end
  end.

(** [fuel] steps are as many as the comparisons of elements that a negative
    count may lead to; [top] is [compare_top_ext]. *)
Section Exe2.
Context (fuel : nat) (top : Z -> Z -> D2 R3).

(** Compare the elements in turn, as long as they are equal. *)
Fixpoint cmp_elems (n : nat) (e1 e2 : Z) : D2 R3 :=
  match n with
  | O => ret2 (0, e1, e2)
  | S n =>
      let^ (ret, e1, e2) := top e1 e2 in
      if negb (ret =? 0) then ret2 (ret, e1, e2) else cmp_elems n e1 e2
  end.

(** A loop that counts to [n] by one: a negative [n] it does not get to, and
    only a difference ends it. *)
Definition cmp_count (n e1 e2 : Z) : D2 R3 :=
  if n <? 0 then
    let^ (ret, e1, e2) := cmp_elems fuel e1 e2 in
    if ret =? 0 then ub2 else ret2 (ret, e1, e2)
  else cmp_elems (Z.to_nat n) e1 e2.

(** The tails of the lists are neither compared nor passed. *)
Definition cmp_list_ext (e1 e2 : Z) : D2 R3 :=
  let^ (i, e1) := on1 (get32be e1) in
  let^ (j, e2) := on2 (get32be e2) in
  if (i =? j) && (j =? 0) then ret2 (0, e1, e2) else
  let^ (ret, e1, e2) := cmp_count (Z.min i j) e1 e2 in
  if negb (ret =? 0) then ret2 (ret, e1, e2) else ret2 (ladder i j 0, e1, e2).

(** The sizes first, read as the tag of the first tuple says. *)
Definition cmp_tuple_ext (get : Z -> D (Z * Z)) (e1 e2 : Z) : D2 R3 :=
  let^ (i, e1) := on1 (get e1) in
  let^ (j, e2) := on2 (get e2) in
  if i <? j then ret2 (-1, e1, e2)
  else if j <? i then ret2 (1, e1, e2)
  else cmp_count i e1 e2.

(** [cmp_exe2] behind the tests for a string and a list. *)
Definition cmp_exe2_tags (e1 e2 : Z) : D2 R3 :=
  let^ tag1 := on1 (load e1) in
  let^ tag2 := on2 (load e2) in
  let e1 := e1 + 1 in
  let e2 := e2 + 1 in
  let has t := tag1 =? t in
  if has ERL_SMALL_INTEGER_EXT then cmp_integer load 1 e1 e2
  else if has ERL_INTEGER_EXT then
    cmp_integer (fun e => let+ (i, _) := get32be e in retD i) 4 e1 e2
  else if has ERL_ATOM_EXT || has ERL_ATOM_UTF8_EXT
          || has ERL_SMALL_ATOM_EXT || has ERL_SMALL_ATOM_UTF8_EXT then
    cmp_atom_ext tag1 tag2 e1 e2
  else if has ERL_PID_EXT || has ERL_NEW_PID_EXT then cmp_pid_ext e1 e2
  else if has ERL_PORT_EXT || has ERL_NEW_PORT_EXT then cmp_port_ext e1 e2
  else if has ERL_NIL_EXT then ret2 (0, e1, e2)
  else if has ERL_LIST_EXT then cmp_list_ext e1 e2
  else if has ERL_STRING_EXT then cmp_string_ext e1 e2
  else if has ERL_SMALL_TUPLE_EXT then cmp_tuple_ext get8 e1 e2
  else if has ERL_LARGE_TUPLE_EXT then cmp_tuple_ext get32be e1 e2
  else if has ERL_FLOAT_EXT || has NEW_FLOAT_EXT then cmp_float_ext e1 e2
  else if has ERL_BINARY_EXT then cmp_binary_ext e1 e2
  else if has ERL_FUN_EXT || has ERL_NEW_FUN_EXT then ret2 (-1, e1, e2)
  else let^ ret := cmpbytes e1 1 e2 1 in ret2 (ret, e1, e2).

(** The list in [bp] that the string stands for. *)
Definition bp_list (hi lo : Z) (p : list Z) : list Z :=
  [ERL_LIST_EXT; 0; 0; hi; lo] ++ ext_chars p ++ [ERL_NIL_EXT].

(** [bp] is a block of its own, and what is compared has the tags of two lists.
    A string of 256 or more is in a block of [erl_malloc], and [free] gets
    [bp] after it has moved. The pointer to the string does not move. *)
Definition cmp_string_list (e1 e2 : Z) : D2 R3 :=
  let^ hi := on1 (load (e1 + 1)) in
  let^ lo := on1 (load (e1 + 2)) in
  let e1_len := Z.lor (Z.shiftl hi 8) lo in
  let^ p := on1 (load_n (e1 + 3) (Z.to_nat e1_len)) in
  let^ (res, _, e2) := (fun _ s2 => cmp_exe2_tags 0 e2 (bp_list hi lo p) s2) in
  if 256 <=? e1_len then ub2 else ret2 (res, e1, e2).

Definition cmp_exe2 (e1 e2 : Z) : D2 R3 :=
  let^ t1 := on1 (load e1) in
  let^ t2 := on2 (load e2) in
  if (t1 =? ERL_STRING_EXT) && (t2 =? ERL_LIST_EXT) then cmp_string_list e1 e2
  else if (t1 =? ERL_LIST_EXT) && (t2 =? ERL_STRING_EXT) then opposite cmp_string_list e1 e2
  else cmp_exe2_tags e1 e2.

(** ** References *)

(** One side of [cmp_refs]: the node, the creation, the number of words, the
    place of the last word, the pointer; [None] where the node is no atom. One
    byte of the creation is read, whatever the tag. *)
Definition ref_side (e : Z) : D (option (Z * Z * Z * Z * Z)) :=
  let+ tag := load e in
  let e := e + 1 in
  if tag =? ERL_REFERENCE_EXT then
    let node := e in
    let+ (r, e) := jump_atom e in
    if r =? 0 then retD None else
    let id := e in
    let+ cre := load (e + 4) in
    retD (Some (node, cre, 1, id, e + 5))
  else
    let+ (n, e) := get16be e in
    let node := e in
    let+ (r, e) := jump_atom e in
    if r =? 0 then retD None else
    let+ cre := load e in
    let id := e + 1 + (n - 1) * 4 in
    retD (Some (node, cre, n, id, id + 4)).

(** [CMP_EXT_INT32_BE] *)
Definition cmp_int32_be (ap : Z) (bp : Z) : D2 Z := cmpbytes_loop 4 ap bp.

(** The words of the longer one against zero, from the last down. *)
Fixpoint cmp_zero (k : nat) (id : Z) : D Z :=
  match k with
  | O => retD 0
  | S k =>
      let+ w := load_n id 4 in
      if bool_decide (w = [0; 0; 0; 0]) then cmp_zero k (id - 4) else retD 1
  end.

Fixpoint cmp_words (k : nat) (id1 id2 : Z) : D2 Z :=
  match k with
  | O => ret2 0
  | S k =>
      let^ c := cmp_int32_be id1 id2 in
      if negb (c =? 0) then ret2 c else cmp_words k (id1 - 4) (id2 - 4)
  end.

Definition cmp_refs (e1 e2 : Z) : D2 R3 :=
  let^ r1 := on1 (ref_side e1) in
  match r1 with
  | None => ret2 (CMP_EXT_ERROR_CODE, e1, e2)
  | Some (node1, cre1, n1, id1, e1) =>
      let^ r2 := on2 (ref_side e2) in
      match r2 with
      | None => ret2 (CMP_EXT_ERROR_CODE, e1, e2)
      | Some (node2, cre2, n2, id2, e2) =>
          let^ (tmp, _, _) := cmp_exe2 node1 node2 in
          if negb (tmp =? 0) then ret2 (tmp, e1, e2)
          else if negb (cre1 =? cre2) then ret2 (ladder cre1 cre2 0, e1, e2)
          else
            let^ z := on1 (cmp_zero (Z.to_nat (n1 - n2)) id1) in
            if negb (z =? 0) then ret2 (z, e1, e2) else
            let^ z := on2 (cmp_zero (Z.to_nat (n2 - n1)) id2) in
            if negb (z =? 0) then ret2 (- z, e1, e2) else
            let id1 := id1 - 4 * Z.max 0 (n1 - n2) in
            let id2 := id2 - 4 * Z.max 0 (n2 - n1) in
            let^ c := cmp_words (Z.to_nat (Z.min n1 n2)) id1 id2 in
            ret2 (c, e1, e2)
      end
  end.
End Exe2.

(** ** Numbers *)

Definition get_long (e : Z) : D (option (Z * Z)) :=
  let+ r := ei_decode_long true e 0 in
  retD (match r with Done i (Some l) => Some (i, l) | _ => None end).

(** A big of the size [ei_get_type] finds; [free] is not modelled, and the
    memory is there. *)
Definition get_big (e : Z) : D (option (Z * erlang_big)) :=
  let+ (_, n) := ei_get_type 0 e 0 in
  let+ r := ei_decode_big (Some (ei_alloc_big (uint32 n))) e 0 in
  retD (match r with Done i (Some b) => Some (i, b) | _ => None end).

Definition cmp_small_small (e1 e2 : Z) : D2 R3 :=
  let^ r1 := on1 (get_long e1) in
  match r1 with
  | None => ret2 (-1, e1, e2)
  | Some (i1, l1) =>
      let^ r2 := on2 (get_long e2) in
      match r2 with
      | None => ret2 (1, e1, e2)
      | Some (i2, l2) => ret2 (ladder l1 l2 0, e1 + i1, e2 + i2)
      end
  end.

(** [ei_small_to_big] takes an [int]. *)
Definition cmp_small_big (e1 e2 : Z) : D2 R3 :=
  let^ r1 := on1 (get_long e1) in
  match r1 with
  | None => ret2 (-1, e1, e2)
  | Some (i1, l1) =>
      match ei_small_to_big (int32 l1) (ei_alloc_big 2) with
      | (rc, b1) =>
          if rc <? 0 then
            let^ _ := on2 (ei_get_type 0 e2 0) in ret2 (-1, e1, e2)
          else
            let^ r2 := on2 (get_big e2) in
            match r2 with
            | None => ret2 (1, e1, e2)
            | Some (i2, b2) => ret2 (ei_big_comp b1 b2, e1 + i1, e2 + i2)
            end
      end
  end.

Definition cmp_small_float (e1 e2 : Z) : D2 R3 :=
  let^ r1 := on1 (get_long e1) in
  match r1 with
  | None => ret2 (-1, e1, e2)
  | Some (i1, l1) =>
      let^ r2 := on2 (get_double e2 0) in
      match r2 with
      | None => ret2 (1, e1, e2)
      | Some (i2, f2) => ret2 (cmp_floats (to_float l1) f2, e1 + i1, e2 + i2)
      end
  end.

Definition cmp_float_float (e1 e2 : Z) : D2 R3 :=
  let^ r1 := on1 (get_double e1 0) in
  match r1 with
  | None => ret2 (-1, e1, e2)
  | Some (i1, f1) =>
      let^ r2 := on2 (get_double e2 0) in
      match r2 with
      | None => ret2 (1, e1, e2)
      | Some (i2, f2) => ret2 (cmp_floats f1 f2, e1 + i1, e2 + i2)
      end
  end.

Definition cmp_float_big (e1 e2 : Z) : D2 R3 :=
  let^ r1 := on1 (get_double e1 0) in
  match r1 with
  | None => ret2 (-1, e1, e2)
  | Some (i1, f1) =>
      let^ r2 := on2 (get_big e2) in
      match r2 with
      | None => ret2 (1, e1, e2)
      | Some (i2, b2) =>
          let (rc, f2) := ei_big_to_double b2 in
          if rc <? 0 then ret2 (if negb (big_is_neg b2 =? 0) then 1 else -1, e1, e2)
          else ret2 (cmp_floats f1 f2, e1 + i1, e2 + i2)
      end
  end.

(** The results of the decoders are not looked at: what is compared where one
    fails is the zero that was allocated. *)
Definition cmp_big_big (e1 e2 : Z) : D2 R3 :=
  let^ (_, n1) := on1 (ei_get_type 0 e1 0) in
  let^ (_, n2) := on2 (ei_get_type 0 e2 0) in
  let^ r1 := on1 (get_big e1) in
  let^ r2 := on2 (get_big e2) in
  let (i1, b1) := default (0, ei_alloc_big (uint32 n1)) r1 in
  let (i2, b2) := default (0, ei_alloc_big (uint32 n2)) r2 in
  ret2 (ei_big_comp b1 b2, e1 + i1, e2 + i2).

Definition cmp_number (fuel : nat) (top : Z -> Z -> D2 R3) (e1 e2 : Z) : D2 R3 :=
  let^ t1 := on1 (load e1) in
  let^ t2 := on2 (load e2) in
  match cmp_num_class t1, cmp_num_class t2 with
  | SMALL, BIG => cmp_small_big e1 e2
  | BIG, SMALL => opposite cmp_small_big e1 e2
  | SMALL, FLOAT => cmp_small_float e1 e2
  | FLOAT, SMALL => opposite cmp_small_float e1 e2
  | FLOAT, BIG => cmp_float_big e1 e2
  | BIG, FLOAT => opposite cmp_float_big e1 e2
  | SMALL, SMALL => cmp_small_small e1 e2
  | FLOAT, FLOAT => cmp_float_float e1 e2
  | BIG, BIG => cmp_big_big e1 e2
  | _, _ => cmp_exe2 fuel top e1 e2
  end.

(** [if ( **e == ERL_VERSION_MAGIC) ( *e)++;] *)
Definition skip_magic (e : Z) : D Z :=
  let+ t := load e in retD (if t =? ERL_VERSION_MAGIC then e + 1 else e).

Fixpoint compare_top_ext (fuel : nat) (e1 e2 : Z) : D2 R3 :=
  match fuel with
  | O => ub2
  | S fuel =>
      let top := compare_top_ext fuel in
      let^ e1 := on1 (skip_magic e1) in
      let^ e2 := on2 (skip_magic e2) in
      let^ t1 := on1 (load e1) in
      let^ t2 := on2 (load e2) in
      if cmp_array t1 <? cmp_array t2 then ret2 (-1, e1, e2)
      else if cmp_array t2 <? cmp_array t1 then ret2 (1, e1, e2)
      else if IS_ERL_NUM t1 then cmp_number fuel top e1 e2
      else if cmp_array t1 =? ERL_REF_CMP then cmp_refs fuel top e1 e2
      else cmp_exe2 fuel top e1 e2
  end.

Definition erl_compare_ext (fuel : nat) (e1 e2 : Z) : D2 Z :=
  let^ (ret, _, _) := compare_top_ext fuel e1 e2 in ret2 ret.
End Compare.
