(* ===== verification/CompareOk.v ===== *)
(** * [erl_compare_ext] is the order of terms

    The terms it compares as Erlang does: integers, atoms of less than 256
    bytes, small tuples, the empty list, strings and binaries, and a proper
    list of these that is not itself in a tuple or list. Their order [vcmp] is
    that of the language, and [compare_top_ext] computes it and moves both
    pointers behind equal terms. Then what it compares differently. *)

From S2P Require Import Prelude Mem PutGet Ext Headers Ints Atom Data Ids Big Term Hash Match Skip Peek Compare.

(** ** Values and their order *)

(** A string is a list of small integers; the empty list is the list of nothing. *)
Inductive value :=
  | VInt (n : Z)
  | VAtom (u : list Z)
  | VTuple (vs : list value)
  | VList (vs : list value)
  | VBin (p : list Z).

Section Lex.
Context {A : Type} (c : A -> A -> Z).

(** Lexicographic, a prefix first. *)
Fixpoint lex (vs ws : list A) : Z :=
  match vs, ws with
  | [], [] => 0
  | [], _ => -1
  | _, [] => 1
  | v :: vs, w :: ws => if c v w =? 0 then lex vs ws else c v w
  end.
End Lex.

Definition zcmp (a b : Z) : Z := ladder a b 0.

(** number < atom < tuple < [] < list < binary *)
Definition vrank (v : value) : Z :=
  match v with
  | VInt _ => ERL_NUM_CMP | VAtom _ => ERL_ATOM_CMP | VTuple _ => ERL_TUPLE_CMP
  | VList [] => ERL_NIL_CMP | VList _ => ERL_LIST_CMP | VBin _ => ERL_BIN_CMP
  end.

(** Tuples by size, then by their elements. *)
Fixpoint vcmp (v w : value) : Z :=
  match v, w with
  | VInt a, VInt b => zcmp a b
  | VAtom a, VAtom b => lex zcmp a b
  | VTuple vs, VTuple ws => ladder (len vs) (len ws) (lex vcmp vs ws)
  | VList vs, VList ws => lex vcmp vs ws
  | VBin a, VBin b => lex zcmp a b
  | _, _ => zcmp (vrank v) (vrank w)
  end.

Section ValueInd.
Context (P : value -> Prop).
Context (Hint : forall n, P (VInt n)) (Hatom : forall u, P (VAtom u))
  (Hbin : forall p, P (VBin p))
  (Htuple : forall vs, Forall P vs -> P (VTuple vs))
  (Hlist : forall vs, Forall P vs -> P (VList vs)).

Fixpoint value_ind' (v : value) : P v :=
  let go := fix go (vs : list value) : Forall P vs :=
    match vs with
    | [] => Forall_nil_2 _
    | v :: vs => Forall_cons_2 _ _ _ (value_ind' v) (go vs)
    end in
  match v with
  | VInt n => Hint n
  | VAtom u => Hatom u
  | VTuple vs => Htuple vs (go vs)
  | VList vs => Hlist vs (go vs)
  | VBin p => Hbin p
  end.
End ValueInd.

Lemma ladder_zero a b k : ladder a b k = 0 <-> a = b /\ k = 0.
Proof. unfold ladder. destruct (Z.ltb_spec a b), (Z.ltb_spec b a); lia. Qed.

Lemma ladder_opp a b k : ladder b a (- k) = - ladder a b k.
Proof. unfold ladder. destruct (Z.ltb_spec a b), (Z.ltb_spec b a); lia. Qed.

Lemma zcmp_zero a b : zcmp a b = 0 <-> a = b.
Proof. unfold zcmp. rewrite ladder_zero. naive_solver. Qed.

Lemma zcmp_opp a b : zcmp b a = - zcmp a b.
Proof. apply (ladder_opp a b 0). Qed.

Section LexLaws.
Context {A : Type} (c : A -> A -> Z).

Lemma lex_zero vs : Forall (fun v => forall w, c v w = 0 <-> v = w) vs ->
  forall ws, lex c vs ws = 0 <-> vs = ws.
Proof.
  induction 1 as [| v vs Hv _ IH]; intros [| w ws]; cbn; try (split; congruence).
  destruct (Z.eqb_spec (c v w) 0) as [E | E]; rewrite ?IH; [| split; [done |]].
  - apply Hv in E as ->. naive_solver.
  - intros [= -> ->]. by apply Hv.
Qed.

Lemma lex_opp vs : Forall (fun v => forall w, c w v = - c v w) vs ->
  forall ws, lex c ws vs = - lex c vs ws.
Proof.
  induction 1 as [| v vs Hv _ IH]; intros [| w ws]; cbn; try done.
  rewrite Hv, IH. destruct (Z.eqb_spec (c v w) 0), (Z.eqb_spec (- c v w) 0); lia.
Qed.
End LexLaws.

(** The rank of a list depends on whether it is empty. *)
Ltac list_rank := repeat match goal with
  |- context [match ?l with [] => ERL_NIL_CMP | _ => _ end] => destruct l end.

Lemma vcmp_zero v w : vcmp v w = 0 <-> v = w.
Proof.
  revert w. induction v as [n | u | p | vs IH | vs IH] using value_ind'; intros [] ;
    cbn; list_rank; try (split; [vm_compute; congruence | congruence]).
  - rewrite zcmp_zero. naive_solver.
  - rewrite lex_zero by (apply Forall_true; intros; apply zcmp_zero). naive_solver.
  - rewrite lex_zero by (apply Forall_true; intros; apply zcmp_zero). naive_solver.
  - rewrite ladder_zero, lex_zero by done. naive_solver.
  - rewrite lex_zero by done. naive_solver.
Qed.

Lemma vcmp_opp v w : vcmp w v = - vcmp v w.
Proof.
  revert w. induction v as [n | u | p | vs IH | vs IH] using value_ind'; intros []; cbn; list_rank; try done.
  - apply zcmp_opp.
  - apply lex_opp, Forall_true. intros. apply zcmp_opp.
  - apply lex_opp, Forall_true. intros. apply zcmp_opp.
  - rewrite lex_opp by done. apply ladder_opp.
  - by apply lex_opp.
Qed.

Lemma lex_trans {A} (c : A -> A -> Z) vs :
  (forall v w, c v w = 0 <-> v = w) -> (forall v w, c w v = - c v w) ->
  Forall (fun v => forall w x, c v w <= 0 -> c w x <= 0 -> c v x <= 0) vs ->
  forall ws xs, lex c vs ws <= 0 -> lex c ws xs <= 0 -> lex c vs xs <= 0.
Proof.
  intros Hz Ho. induction 1 as [| v vs Hv _ IH]; intros [| w ws] [| x xs]; cbn; try lia.
  specialize (Hv w x). pose proof (Ho v w). pose proof (Ho w x).
  destruct (Z.eqb_spec (c v w) 0) as [E1 | E1], (Z.eqb_spec (c w x) 0) as [E2 | E2];
    rewrite ?Hz in E1, E2; subst.
  - rewrite (proj2 (Z.eqb_eq _ _) (proj2 (Hz x x) eq_refl)). apply IH.
  - rewrite (proj2 (Z.eqb_neq _ _)) by (by rewrite Hz). lia.
  - rewrite (proj2 (Z.eqb_neq _ _)) by (by rewrite Hz). lia.
  - intros H1 H2. destruct (Z.eqb_spec (c v x) 0) as [E | E]; [| lia].
    apply Hz in E as ->. rewrite <- Hz in E1. lia.
Qed.

Lemma zcmp_trans a b c : zcmp a b <= 0 -> zcmp b c <= 0 -> zcmp a c <= 0.
Proof.
  unfold zcmp, ladder. destruct (Z.ltb_spec a b), (Z.ltb_spec b a), (Z.ltb_spec b c),
    (Z.ltb_spec c b), (Z.ltb_spec a c), (Z.ltb_spec c a); lia.
Qed.

Lemma vcmp_trans v w x : vcmp v w <= 0 -> vcmp w x <= 0 -> vcmp v x <= 0.
Proof.
  revert w x. induction v as [n | u | p | vs IH | vs IH] using value_ind'; intros [] [];
    cbn [vcmp vrank]; list_rank; try (by vm_compute); try apply zcmp_trans;
    try (apply lex_trans; [apply zcmp_zero | apply zcmp_opp | apply Forall_true, zcmp_trans]).
  - pose proof (lex_trans vcmp vs vcmp_zero vcmp_opp IH vs0 vs1) as H. revert H. unfold ladder.
    destruct (Z.ltb_spec (len vs) (len vs0)), (Z.ltb_spec (len vs0) (len vs)),
      (Z.ltb_spec (len vs0) (len vs1)), (Z.ltb_spec (len vs1) (len vs0)),
      (Z.ltb_spec (len vs) (len vs1)), (Z.ltb_spec (len vs1) (len vs)); lia.
  - by apply lex_trans; [apply vcmp_zero | apply vcmp_opp |].
Qed.

(** ** Their bytes *)

Inductive fext : value -> list Z -> Prop :=
  | fext_int n bs : int_ext n bs -> fext (VInt n) bs
  | fext_atom u :
      len u < 256 -> fext (VAtom u) ([ERL_SMALL_ATOM_UTF8_EXT; len u] ++ u)
  | fext_tuple vs bss :
      Forall2 fext vs bss -> len vs < 256 ->
      fext (VTuple vs) ([ERL_SMALL_TUPLE_EXT; len vs] ++ concat bss)
  | fext_nil : fext (VList []) [ERL_NIL_EXT]
  | fext_string p :
      Forall is_byte p -> p <> [] -> len p < 65536 ->
      fext (VList (VInt <$> p)) ((ERL_STRING_EXT :: be16 (len p)) ++ p)
  | fext_binary p :
      len p <= int_max -> fext (VBin p) ((ERL_BINARY_EXT :: be32 (len p)) ++ p).

(** With a proper list, which is passed up to its tail. *)
Inductive cext : value -> list Z -> Prop :=
  | cext_flat v bs : fext v bs -> cext v bs
  | cext_list vs bss :
      Forall2 fext vs bss -> vs <> [] -> len vs <= int_max ->
      cext (VList vs) ((ERL_LIST_EXT :: be32 (len vs)) ++ concat bss ++ [ERL_NIL_EXT]).

Lemma fext_cons v bs : fext v bs -> exists b r, bs = b :: r /\ cmp_array b = vrank v /\
  b <> ERL_VERSION_MAGIC /\ b <> ERL_LIST_EXT /\ (b = ERL_STRING_EXT -> exists p, v = VList (VInt <$> p)).
Proof.
  intros [n bs' [] | | | | p _ Hne _ |]; eexists _, _; split_and!; try done; try (by destruct p); intros; by eexists.
Qed.

(** ** Stepping through two blocks *)

Lemma bind2_Some {A B} (m : D2 A) (k : A -> D2 B) s1 s2 a :
  m s1 s2 = Some a -> bind2 m k s1 s2 = k a s1 s2.
Proof. unfold bind2. by intros ->. Qed.

Lemma on1_Some {A B} (m : D A) (k : A -> D2 B) s1 s2 a :
  m s1 = Some a -> bind2 (on1 m) k s1 s2 = k a s1 s2.
Proof. apply (bind2_Some (on1 m)). Qed.

Lemma on2_Some {A B} (m : D A) (k : A -> D2 B) s1 s2 a :
  m s2 = Some a -> bind2 (on2 m) k s1 s2 = k a s1 s2.
Proof. apply (bind2_Some (on2 m)). Qed.

Ltac read_at m :=
  match m with
  | load _ => apply load_at; at_tac
  | get8 _ => eapply get8_at; [| at_tac]; is_byte_tac
  | get16be _ => eapply get16be_at; at_tac
  | get32be _ => eapply get32be_at; at_tac
  end.
Ltac step2 :=
  match goal with
  | |- context [bind2 (on1 ?m) _ _ _] => erewrite (on1_Some m) by (read_at m)
  | |- context [bind2 (on2 ?m) _ _ _] => erewrite (on2_Some m) by (read_at m)
  end; cbv beta zeta iota.

Lemma cmpbytes_ok a b s1 s2 o1 o2 :
  at_ s1 o1 a -> at_ s2 o2 b -> cmpbytes o1 (len a) o2 (len b) s1 s2 = Some (lex zcmp a b).
Proof.
  unfold cmpbytes. rewrite <- Nat2Z.inj_min, Nat2Z.id.
  revert b o1 o2. induction a as [| x a IH]; intros [| y b] o1 o2 Ha Hb; try done.
  apply at_cons in Ha as [Hx Ha], Hb as [Hy Hb].
  change (length (x :: a) `min` length (y :: b))%nat with (S (length a `min` length b)).
  cbn [cmpbytes_loop lex]. unfold bind2 at 1. erewrite on1_Some by (by apply load_at).
  erewrite on2_Some by (by apply load_at). cbv zeta. change (ladder x y 0) with (zcmp x y).
  destruct (Z.eqb_spec (zcmp x y) 0) as [E | E]; cbn [negb].
  - specialize (IH b _ _ Ha Hb). unfold bind2 in IH.
    destruct (cmpbytes_loop _ _ _ s1 s2) as [c |]; [| done].
    rewrite <- IH. destruct (negb (c =? 0)); [done |]. unfold ret2, ladder.
    rewrite !len_cons. f_equal.
    destruct (Z.ltb_spec (1 + len a) (1 + len b)), (Z.ltb_spec (len a) (len b)),
      (Z.ltb_spec (1 + len b) (1 + len a)), (Z.ltb_spec (len b) (len a)); lia.
  - unfold ret2. by rewrite (proj2 (Z.eqb_neq _ _) E).
Qed.

Section Ok.
Context (sscanf_lf : list Z -> option Z).
Notation top := (compare_top_ext sscanf_lf).

(** [r] compares: the result is [c], and behind equal terms are both
    pointers. *)
Definition compares (r : option R3) (c p1 p2 : Z) : Prop :=
  exists q1 q2, r = Some (c, q1, q2) /\ (c = 0 -> q1 = p1 /\ q2 = p2).

Lemma compares_ret s1 s2 c p1 p2 q1 q2 : q1 = p1 -> q2 = p2 ->
  compares (ret2 (c, q1, q2) s1 s2) c p1 p2.
Proof. intros -> ->. by exists p1, p2. Qed.

Lemma compares_ne r c q1 q2 p1 p2 : r = Some (c, q1, q2) -> c <> 0 -> compares r c p1 p2.
Proof. intros H Hc. by exists q1, q2. Qed.

(** The elements one behind the other. *)
Definition Compares (f : Z -> Z -> D2 R3) (v : value) (bs : list Z) : Prop :=
  forall w cs s1 s2 o1 o2, fext w cs -> at_ s1 o1 bs -> at_ s2 o2 cs ->
    compares (f o1 o2 s1 s2) (vcmp v w) (o1 + len bs) (o2 + len cs).

(** As far as the shorter one goes. *)
Fixpoint common (vs ws : list value) : Z :=
  match vs, ws with
  | v :: vs, w :: ws => if vcmp v w =? 0 then common vs ws else vcmp v w
  | _, _ => 0
  end.

Lemma lex_common vs ws : lex vcmp vs ws =
  if common vs ws =? 0 then ladder (len vs) (len ws) 0 else common vs ws.
Proof.
  revert ws. induction vs as [| v vs IH]; intros [| w ws]; try done.
  cbn [lex common]. destruct (Z.eqb_spec (vcmp v w) 0) as [E | E].
  - rewrite IH. destruct (common vs ws =? 0); [| done]. unfold ladder. rewrite !len_cons.
    destruct (Z.ltb_spec (1 + len vs) (1 + len ws)), (Z.ltb_spec (len vs) (len ws)),
      (Z.ltb_spec (1 + len ws) (1 + len vs)), (Z.ltb_spec (len ws) (len vs)); lia.
  - by rewrite (proj2 (Z.eqb_neq _ _) E).
Qed.

Lemma cmp_elems_ok f vs bss ws css s1 s2 o1 o2 :
  Forall2 (Compares f) vs bss -> Forall2 fext ws css ->
  at_ s1 o1 (concat bss) -> at_ s2 o2 (concat css) ->
  exists q1 q2, cmp_elems f (length vs `min` length ws) o1 o2 s1 s2 = Some (common vs ws, q1, q2) /\
    (common vs ws = 0 -> length vs = length ws -> q1 = o1 + len (concat bss) /\ q2 = o2 + len (concat css)).
Proof.
  intros Hv. revert ws css o1 o2. induction Hv as [| v bs vs bss Hv Hvs IH];
    intros ws css o1 o2 Hw Ha1 Ha2.
  { exists o1, o2. split; [by destruct ws |]. intros _ Hl. destruct Hw; [| done]. cbn. lia. }
  destruct Hw as [| w cs ws css Hw Hws]; [by exists o1, o2 |].
  cbn [concat] in *. apply at_app in Ha1 as [Ha1 Hb1], Ha2 as [Ha2 Hb2].
  destruct (Hv w cs s1 s2 o1 o2 Hw Ha1 Ha2) as (q1 & q2 & E & Hq).
  change (length (v :: vs) `min` length (w :: ws))%nat with (S (length vs `min` length ws)).
  cbn [cmp_elems common]. erewrite bind2_Some by exact E. cbv beta iota.
  destruct (Z.eqb_spec (vcmp v w) 0) as [E0 | E0]; cbn [negb].
  - destruct (Hq E0) as [-> ->].
    destruct (IH ws css _ _ Hws Hb1 Hb2) as (q1 & q2 & E' & Hq').
    exists q1, q2. split; [done |]. intros Hc [= Hl]. destruct (Hq' Hc Hl) as [-> ->].
    rewrite !len_app. lia.
  - exists q1, q2. split; [done |]. intros; lia.
Qed.

Lemma cmp_count_ok f vs bss ws css s1 s2 o1 o2 fuel :
  Forall2 (Compares f) vs bss -> Forall2 fext ws css ->
  at_ s1 o1 (concat bss) -> at_ s2 o2 (concat css) ->
  exists q1 q2, cmp_count fuel f (Z.min (len vs) (len ws)) o1 o2 s1 s2 = Some (common vs ws, q1, q2) /\
    (common vs ws = 0 -> length vs = length ws -> q1 = o1 + len (concat bss) /\ q2 = o2 + len (concat css)).
Proof.
  unfold cmp_count. rewrite (proj2 (Z.ltb_ge _ _)) by lia.
  rewrite <- Nat2Z.inj_min, Nat2Z.id. apply cmp_elems_ok.
Qed.

Lemma tuple_ok f vs bss ws css s1 s2 o1 o2 fuel :
  Forall2 (Compares f) vs bss -> Forall2 fext ws css -> len vs < 256 -> len ws < 256 ->
  at_ s1 o1 (len vs :: concat bss) -> at_ s2 o2 (len ws :: concat css) ->
  compares (cmp_tuple_ext fuel f get8 o1 o2 s1 s2) (vcmp (VTuple vs) (VTuple ws))
    (o1 + (1 + len (concat bss))) (o2 + (1 + len (concat css))).
Proof.
  intros Hv Hw Hl1 Hl2 [Ha1 Hb1]%at_cons [Ha2 Hb2]%at_cons. unfold cmp_tuple_ext.
  assert (is_byte (len vs)) by (unfold is_byte; lia).
  assert (is_byte (len ws)) by (unfold is_byte; lia).
  step2. step2. cbn [vcmp].
  destruct (Z.ltb_spec (len vs) (len ws)) as [L | L].
  { eapply compares_ne; [unfold ladder; by rewrite (proj2 (Z.ltb_lt _ _) L) |].
    unfold ladder. rewrite (proj2 (Z.ltb_lt _ _) L). done. }
  destruct (Z.ltb_spec (len ws) (len vs)) as [L' | L'].
  { assert (E : ladder (len vs) (len ws) (lex vcmp vs ws) = 1)
      by (unfold ladder; destruct (Z.ltb_spec (len vs) (len ws)), (Z.ltb_spec (len ws) (len vs)); lia).
    rewrite E. by eapply compares_ne. }
  assert (Hl : length vs = length ws) by lia.
  destruct (cmp_count_ok f vs bss ws css s1 s2 (o1 + 1) (o2 + 1) fuel) as (q1 & q2 & E & Hq); [done.. |].
  rewrite Z.min_l in E by lia.
  replace (ladder (len vs) (len ws) (lex vcmp vs ws)) with (common vs ws).
  - exists q1, q2. split; [done |]. intros Hc. destruct (Hq Hc Hl) as [-> ->]. lia.
  - rewrite lex_common. unfold ladder. rewrite Hl, Z.ltb_irrefl.
    by destruct (Z.eqb_spec (common vs ws) 0) as [-> |].
Qed.

Lemma list_ok f vs bss ws css s1 s2 o1 o2 fuel :
  Forall2 (Compares f) vs bss -> Forall2 fext ws css -> len vs <= int_max -> len ws <= int_max ->
  at_ s1 o1 (be32 (len vs) ++ concat bss) -> at_ s2 o2 (be32 (len ws) ++ concat css) ->
  exists q1 q2, cmp_list_ext fuel f o1 o2 s1 s2 = Some (lex vcmp vs ws, q1, q2).
Proof.
  intros Hv Hw Hl1 Hl2 [Ha1 Hb1]%at_app [Ha2 Hb2]%at_app. unfold cmp_list_ext.
  step2. step2. rewrite !int32_small by (unfold is_int32, int_max in *; lia).
  destruct (Z.eqb_spec (len vs) (len ws)) as [E0 | E0],
    (Z.eqb_spec (len ws) 0) as [E1 | E1]; cbn [andb].
  { destruct vs, ws; try done. by eexists _, _. }
  all: destruct (cmp_count_ok f vs bss ws css s1 s2 (o1 + 4) (o2 + 4) fuel) as (q1 & q2 & E & _);
    [done | done | at_tac | at_tac |].
  all: exists q1, q2; erewrite bind2_Some by exact E; cbv beta iota.
  all: rewrite lex_common; by destruct (Z.eqb_spec (common vs ws) 0) as [-> |].
Qed.

Lemma skip_magic_ok b r s o : at_ s o (b :: r) -> b <> ERL_VERSION_MAGIC ->
  skip_magic o s = Some o.
Proof.
  intros [Ha _]%at_cons Hb. unfold skip_magic. erewrite bindD_Some by (by apply load_at).
  by rewrite (proj2 (Z.eqb_neq _ _) Hb).
Qed.

Lemma vcmp_rank v w : vrank v <> vrank w -> vcmp v w = zcmp (vrank v) (vrank w).
Proof. by destruct v as [| | | [] |], w as [| | | [] |]. Qed.

Lemma get_long_ok n bs s o : int_ext n bs -> at_ s o bs -> get_long o s = Some (Some (len bs, n)).
Proof.
  intros He Ha. unfold get_long, ei_decode_long.
  erewrite bindD_Some.
  2: { rewrite (decode_longlong_int n bs); [done | done | lia | | by rewrite Z.add_0_r].
       destruct He; autorewrite with len; rewrite ?len_cons; unfold int_max; cbn; lia. }
  done.
Qed.

Lemma small_small_ok n m bs cs s1 s2 o1 o2 :
  int_ext n bs -> int_ext m cs -> at_ s1 o1 bs -> at_ s2 o2 cs ->
  compares (cmp_small_small o1 o2 s1 s2) (zcmp n m) (o1 + len bs) (o2 + len cs).
Proof.
  intros Hn Hm Ha1 Ha2. unfold cmp_small_small.
  erewrite on1_Some by (by apply (get_long_ok n bs)). cbv beta iota.
  erewrite on2_Some by (by apply (get_long_ok m cs)). by apply compares_ret.
Qed.

Lemma lex_ints p q : lex vcmp (VInt <$> p) (VInt <$> q) = lex zcmp p q.
Proof.
  revert q. induction p as [| x p IH]; intros [| y q]; try done.
  cbn [fmap list_fmap lex]. change (vcmp (VInt x) (VInt y)) with (zcmp x y).
  destruct (zcmp x y =? 0); [apply IH | done].
Qed.

(** The first byte of both, and the tests on them. *)
Ltac tags2 :=
  at_split; unfold cmp_exe2; do 2 step2; ctests; unfold cmp_exe2_tags; do 2 step2; ctests.

Lemma atom_ok u t s1 s2 o1 o2 : len u < 256 -> len t < 256 ->
  at_ s1 o1 (len u :: u) -> at_ s2 o2 (len t :: t) ->
  compares (cmp_atom_ext ERL_SMALL_ATOM_UTF8_EXT ERL_SMALL_ATOM_UTF8_EXT o1 o2 s1 s2)
    (lex zcmp u t) (o1 + (1 + len u)) (o2 + (1 + len t)).
Proof.
  intros Hu Ht [Ha1 Hb1]%at_cons [Ha2 Hb2]%at_cons. unfold cmp_atom_ext. ctests.
  assert (is_byte (len u)) by (unfold is_byte; lia).
  assert (is_byte (len t)) by (unfold is_byte; lia).
  do 2 step2. unfold cmpatoms. ctests.
  erewrite bind2_Some by (by apply cmpbytes_ok). apply compares_ret; lia.
Qed.

Lemma string_ok p q s1 s2 o1 o2 : len p < 65536 -> len q < 65536 ->
  at_ s1 o1 (be16 (len p) ++ p) -> at_ s2 o2 (be16 (len q) ++ q) ->
  compares (cmp_string_ext o1 o2 s1 s2) (lex zcmp p q) (o1 + (2 + len p)) (o2 + (2 + len q)).
Proof.
  intros Hp Hq [Ha1 Hb1]%at_app [Ha2 Hb2]%at_app. unfold cmp_string_ext.
  do 2 step2. rewrite !Z.mod_small by lia.
  erewrite bind2_Some by (by apply cmpbytes_ok). apply compares_ret; lia.
Qed.

Lemma binary_ok p q s1 s2 o1 o2 : len p <= int_max -> len q <= int_max ->
  at_ s1 o1 (be32 (len p) ++ p) -> at_ s2 o2 (be32 (len q) ++ q) ->
  compares (cmp_binary_ext o1 o2 s1 s2) (lex zcmp p q) (o1 + (4 + len p)) (o2 + (4 + len q)).
Proof.
  intros Hp Hq [Ha1 Hb1]%at_app [Ha2 Hb2]%at_app. unfold cmp_binary_ext.
  do 2 step2. rewrite !int32_small by (unfold is_int32, int_max in *; lia).
  erewrite bind2_Some by (by apply cmpbytes_ok). apply compares_ret; lia.
Qed.

(** Behind the tag. *)
Lemma compares_at r c p1 p2 q1 q2 : compares r c q1 q2 -> q1 = p1 -> q2 = p2 -> compares r c p1 p2.
Proof. by intros H -> ->. Qed.

Ltac at_join := first [at_tac | apply at_app; split; at_tac].
Ltac behind lem :=
  eapply compares_at; [apply lem; [done.. | at_join | at_join]
    | autorewrite with len; rewrite ?len_cons; lia | autorewrite with len; rewrite ?len_cons; lia].

(** What [compare_top_ext] does with two terms of one kind. *)
Definition same_kind (fuel : nat) (tag : Z) : Z -> Z -> D2 R3 :=
  if IS_ERL_NUM tag then cmp_number sscanf_lf fuel (top fuel)
  else if cmp_array tag =? ERL_REF_CMP then cmp_refs sscanf_lf fuel (top fuel)
  else cmp_exe2 sscanf_lf fuel (top fuel).

Lemma compares_parts f vs bss : Forall2 fext vs bss ->
  (forall v bs, fext v bs -> (length bs <= length (concat bss))%nat -> Compares f v bs) ->
  Forall2 (Compares f) vs bss.
Proof.
  induction 1 as [| v bs vs bss Hv _ IH]; intros H; constructor.
  - apply H; [done |]. cbn. rewrite length_app. lia.
  - apply IH. intros v' bs' Hv' Hl. apply H; [done |]. cbn. rewrite length_app. lia.
Qed.

Lemma kind_ok fuel v bs w cs s1 s2 o1 o2 :
  fext v bs -> fext w cs -> vrank v = vrank w -> at_ s1 o1 bs -> at_ s2 o2 cs ->
  (forall v' bs', fext v' bs' -> (length bs' < length bs)%nat -> Compares (top fuel) v' bs') ->
  compares (same_kind fuel (hd 0 bs) o1 o2 s1 s2) (vcmp v w) (o1 + len bs) (o2 + len cs).
Proof.
  intros Hv Hw Hr Ha1 Ha2 IH. unfold same_kind, IS_ERL_NUM.
  destruct Hv as [n bs Hn | u Hu | vs bss Hvs Hl | | p Hpb Hpn Hp | p Hp],
    Hw as [m cs Hm | t Ht | ws css Hws Hk | | q Hqb Hqn Hq | q Hq]; try done;
    try (by destruct p); try (by destruct q); cbn [hd app] in *.
  - replace (cmp_array (hd 0 bs) =? ERL_NUM_CMP) with true by by destruct Hn.
    unfold cmp_number. pose proof (small_small_ok n m bs cs s1 s2 o1 o2 Hn Hm Ha1 Ha2) as H.
    destruct Hn, Hm; at_split; do 2 step2; exact H.
  - ctests. tags2. behind atom_ok.
  - assert (Hc : Forall2 (Compares (top fuel)) vs bss)
      by (apply compares_parts; [done | intros; apply IH; [done | cbn; lia]]).
    ctests. tags2. behind tuple_ok.
  - ctests. tags2. by apply compares_ret.
  - ctests. tags2. cbn [vcmp]. rewrite lex_ints. behind string_ok.
  - ctests. tags2. behind binary_ok.
Qed.

(** The start of [compare_top_ext], for tags of one rank or of two. *)
Lemma top_start fuel b bs c cs s1 s2 e1 e2 o1 o2 :
  skip_magic e1 s1 = Some o1 -> skip_magic e2 s2 = Some o2 ->
  at_ s1 o1 (b :: bs) -> at_ s2 o2 (c :: cs) ->
  top (S fuel) e1 e2 s1 s2 =
    if cmp_array b =? cmp_array c then same_kind fuel b o1 o2 s1 s2
    else Some (zcmp (cmp_array b) (cmp_array c), o1, o2).
Proof.
  intros Hm1 Hm2 Ha1 Ha2. cbn [compare_top_ext].
  erewrite on1_Some by exact Hm1. erewrite on2_Some by exact Hm2.
  apply at_cons in Ha1 as [Ha1 _], Ha2 as [Ha2 _]. do 2 step2.
  unfold same_kind, zcmp, ladder, ret2.
  destruct (Z.ltb_spec (cmp_array b) (cmp_array c)), (Z.eqb_spec (cmp_array b) (cmp_array c)),
    (Z.ltb_spec (cmp_array c) (cmp_array b)); try lia; try done.
  by destruct (IS_ERL_NUM b), (cmp_array b =? ERL_REF_CMP).
Qed.

Lemma flat_ok fuel v bs : fext v bs -> (length bs <= fuel)%nat -> Compares (top fuel) v bs.
Proof.
  revert v bs. induction fuel as [| fuel IH]; intros v bs Hv Hf w cs s1 s2 o1 o2 Hw Ha1 Ha2;
    destruct (fext_cons v bs Hv) as (b & r & Eb & Hb & Hmb & _);
    [rewrite Eb in Hf; cbn in Hf; lia |].
  destruct (fext_cons w cs Hw) as (c & t & Ec & Hc & Hmc & _).
  rewrite Eb in Ha1. rewrite Ec in Ha2.
  rewrite (top_start fuel b r c t s1 s2 o1 o2 o1 o2) by (try eapply skip_magic_ok; done).
  rewrite <- Eb in Ha1. rewrite <- Ec in Ha2. rewrite Hb, Hc.
  destruct (Z.eqb_spec (vrank v) (vrank w)) as [E | E].
  - replace b with (hd 0 bs) by by rewrite Eb.
    apply kind_ok; [done.. |]. intros. apply IH; [done | lia].
  - rewrite vcmp_rank by done. eapply compares_ne; [done |]. by rewrite zcmp_zero.
Qed.

(** ** Lists *)

Lemma flats_ok fuel vs bss : Forall2 fext vs bss -> (length (concat bss) <= fuel)%nat ->
  Forall2 (Compares (top fuel)) vs bss.
Proof. intros H Hf. apply compares_parts; [done |]. intros. apply flat_ok; [done | lia]. Qed.

Lemma list_tags_ok fuel vs bss ws css s1 s2 o1 o2 :
  Forall2 fext vs bss -> Forall2 fext ws css -> len vs <= int_max -> len ws <= int_max ->
  (length (concat bss) <= fuel)%nat ->
  at_ s1 o1 ((ERL_LIST_EXT :: be32 (len vs)) ++ concat bss) ->
  at_ s2 o2 ((ERL_LIST_EXT :: be32 (len ws)) ++ concat css) ->
  exists q1 q2, cmp_exe2_tags sscanf_lf fuel (top fuel) o1 o2 s1 s2 = Some (lex vcmp vs ws, q1, q2).
Proof.
  intros Hv Hw Hl Hk Hf [Ha1 Hb1]%at_cons [Ha2 Hb2]%at_cons.
  unfold cmp_exe2_tags. do 2 step2. ctests.
  apply (list_ok (top fuel) vs bss ws css); try done. by apply flats_ok.
Qed.

(** The list a string stands for, in the forms of [fext]. *)
Lemma bp_list_at p : len p < 65536 ->
  bp_list (byte (Z.shiftr (len p) 8)) (byte (len p)) p =
  (ERL_LIST_EXT :: be32 (len (VInt <$> p))) ++
    concat ((fun c => [ERL_SMALL_INTEGER_EXT; c]) <$> p) ++ [ERL_NIL_EXT].
Proof.
  intros Hl. unfold bp_list, be32. rewrite length_fmap.
  rewrite (Z.shiftr_div_pow2 _ 24), (Z.shiftr_div_pow2 _ 16), !Z.div_small by lia.
  change (byte 0) with 0. cbn [app]. do 5 f_equal. unfold ext_chars.
  clear Hl. induction p as [| c p IH]; [done |]. cbn in *. congruence.
Qed.

Lemma chars_fext p : Forall is_byte p ->
  Forall2 fext (VInt <$> p) ((fun c => [ERL_SMALL_INTEGER_EXT; c]) <$> p).
Proof.
  induction 1 as [| c p Hc _ IH]; [constructor |]. cbn [fmap list_fmap].
  constructor; [| done]. by do 2 constructor.
Qed.

Lemma string_vs_list fuel p ws css s1 s2 o1 o2 :
  Forall is_byte p -> len p < 256 -> Forall2 fext ws css -> len ws <= int_max ->
  (2 * length p <= fuel)%nat ->
  at_ s1 o1 ((ERL_STRING_EXT :: be16 (len p)) ++ p) ->
  at_ s2 o2 ((ERL_LIST_EXT :: be32 (len ws)) ++ concat css) ->
  exists q1 q2, cmp_string_list sscanf_lf fuel (top fuel) o1 o2 s1 s2 =
    Some (lex vcmp (VInt <$> p) ws, q1, q2).
Proof.
  intros Hb Hl Hw Hk Hf [Ha1 Hb1]%at_app Ha2. apply at_cons in Ha1 as [_ Ha1].
  unfold be16 in Ha1. apply at_cons in Ha1 as [Hhi Hlo]. unfold cmp_string_list.
  do 2 step2.
  assert (Hn : Z.lor (Z.shiftl (byte (Z.shiftr (len p) 8)) 8) (byte (len p)) = len p).
  { rewrite (Z.shiftr_div_pow2 _ 8), Z.div_small by lia. apply byte_small. unfold is_byte. lia. }
  rewrite Hn, Nat2Z.id.
  erewrite on1_Some by (apply load_n_at; at_tac). rewrite bp_list_at by lia.
  set (bss := (fun c => [ERL_SMALL_INTEGER_EXT; c]) <$> p).
  set (blk := (ERL_LIST_EXT :: be32 (len (VInt <$> p))) ++ concat bss ++ [ERL_NIL_EXT]).
  assert (Hc : length (concat bss) = (2 * length p)%nat)
    by (unfold bss; clear; induction p as [| c p IH]; cbn in *; lia).
  destruct (list_tags_ok fuel (VInt <$> p) bss ws css blk s2 0 o2) as (q1 & q2 & E);
    [by apply chars_fext | done | rewrite length_fmap; unfold int_max; lia | done | lia | | done |].
  - split; [lia |]. exists [], [ERL_NIL_EXT]. unfold blk. by rewrite <- app_assoc.
  - cbn beta. unfold bind2 at 1. rewrite E. rewrite (proj2 (Z.leb_gt _ _)) by lia.
    by eexists _, _.
Qed.

(** What is known of the bytes of the two terms: a string against a list is of
    less than 256 characters. *)
Definition short_string (bs cs : list Z) : Prop :=
  hd 0 bs = ERL_STRING_EXT -> hd 0 cs = ERL_LIST_EXT -> len bs < 259.

Lemma list_vs_list fuel vs bss ws css s1 s2 o1 o2 :
  Forall2 fext vs bss -> Forall2 fext ws css -> len vs <= int_max -> len ws <= int_max ->
  (length (concat bss) <= fuel)%nat ->
  at_ s1 o1 ((ERL_LIST_EXT :: be32 (len vs)) ++ concat bss) ->
  at_ s2 o2 ((ERL_LIST_EXT :: be32 (len ws)) ++ concat css) ->
  exists q1 q2, cmp_exe2 sscanf_lf fuel (top fuel) o1 o2 s1 s2 = Some (lex vcmp vs ws, q1, q2).
Proof.
  intros Hv Hw Hl Hk Hf Ha1 Ha2. pose proof Ha1 as [Hb1 _]%at_cons. pose proof Ha2 as [Hb2 _]%at_cons.
  unfold cmp_exe2. do 2 step2. ctests. by eapply list_tags_ok.
Qed.

(** ** The order *)

Definition version (m : bool) : list Z := if m then [ERL_VERSION_MAGIC] else [].

Lemma skip_version m b r s o : at_ s o (version m ++ b :: r) -> b <> ERL_VERSION_MAGIC ->
  skip_magic o s = Some (o + len (version m)) /\ at_ s (o + len (version m)) (b :: r).
Proof.
  intros [Hv Ha]%at_app Hb. split; [| done]. destruct m; cbn [version] in *.
  - unfold skip_magic. by erewrite bindD_Some by (by apply load_at).
  - rewrite (skip_magic_ok b r) by (rewrite ?Z.add_0_r in Ha; done).
    f_equal. cbn. lia.
Qed.

Lemma cext_cons v bs : cext v bs -> exists b r, bs = b :: r /\ cmp_array b = vrank v /\
  b <> ERL_VERSION_MAGIC.
Proof.
  intros [v' bs' H | vs bss _ Hne _]; [| eexists _, _; split_and!; [done | by destruct vs | done]].
  destruct (fext_cons v' bs' H) as (b & r & ? & ? & ? & _). by exists b, r.
Qed.

Lemma same_kind_ok fuel v bs w cs s1 s2 o1 o2 :
  cext v bs -> cext w cs -> short_string bs cs -> short_string cs bs -> vrank v = vrank w ->
  at_ s1 o1 bs -> at_ s2 o2 cs -> (2 * (length bs + length cs) <= fuel)%nat ->
  exists q1 q2, same_kind fuel (hd 0 bs) o1 o2 s1 s2 = Some (vcmp v w, q1, q2).
Proof.
  intros Hv Hw Hs1 Hs2 Hr Ha1 Ha2 Hf.
  assert (Hrank : forall ws, ws <> [] -> vrank (VList ws) = ERL_LIST_CMP) by (by intros []).
  destruct Hv as [v bs Hv | vs bss Hv Hvn Hl], Hw as [w cs Hw | ws css Hw Hwn Hk].
  - destruct (kind_ok fuel v bs w cs s1 s2 o1 o2 Hv Hw Hr Ha1 Ha2) as (q1 & q2 & E & _); [| eauto].
    intros. apply flat_ok; [done | lia].
  - rewrite (Hrank ws) in Hr by done. destruct Hv as [? ? [] | | | | p Hb Hpn Hp |]; try done.
    rewrite app_assoc in Ha2. apply at_app in Ha2 as [Ha2 _].
    specialize (Hs1 eq_refl eq_refl). autorewrite with len in Hs1.
    cbn [hd app]. unfold same_kind, IS_ERL_NUM. ctests. cbn [length] in Hf. rewrite !length_app in Hf.
    destruct (string_vs_list fuel p ws css s1 s2 o1 o2) as (q1 & q2 & E); try done; [lia | lia |].
    pose proof Ha1 as [Hb1 _]%at_cons. pose proof Ha2 as [Hb2 _]%at_cons.
    exists q1, q2. unfold cmp_exe2. do 2 step2. by ctests.
  - rewrite (Hrank vs) in Hr by done. destruct Hw as [? ? [] | | | | p Hb Hpn Hp |]; try done.
    rewrite app_assoc in Ha1. apply at_app in Ha1 as [Ha1 _].
    specialize (Hs2 eq_refl eq_refl). autorewrite with len in Hs2.
    cbn [hd app]. unfold same_kind, IS_ERL_NUM. ctests. cbn [length] in Hf. rewrite !length_app in Hf.
    destruct (string_vs_list fuel p vs bss s2 s1 o2 o1) as (q2 & q1 & E); try done; [lia | lia |].
    pose proof Ha1 as [Hb1 _]%at_cons. pose proof Ha2 as [Hb2 _]%at_cons.
    exists q1, q2. unfold cmp_exe2. do 2 step2. ctests.
    unfold opposite. unfold bind2 at 1. unfold cross. rewrite E. unfold ret2.
    change (lex vcmp (VInt <$> p) vs) with (vcmp (VList (VInt <$> p)) (VList vs)).
    by rewrite <- vcmp_opp.
  - cbn [hd app]. unfold same_kind, IS_ERL_NUM. ctests.
    rewrite app_assoc in Ha1, Ha2. apply at_app in Ha1 as [Ha1 _], Ha2 as [Ha2 _].
    cbn [length] in Hf. rewrite !length_app in Hf.
    eapply list_vs_list; [exact Hv | exact Hw | done | done | lia | done | done].
Qed.
End Ok.

(** C10: [erl_compare_ext] is the order of terms: for two terms in the external
    format, each with or without a version byte, it gives -1, 0 or 1 as the first is
    less than, equal to or greater than the second in the order of the language
    (numbers, atoms, tuples by size, lists, binaries; a string is a list), and 0 for
    equal terms only. The terms are integers of at most 32 bits, atoms in the short
    UTF-8 form, tuples of fewer than 256 elements, strings of 1 to 65535 bytes,
    binaries of at most INT_MAX bytes and the empty list, nested in tuples at will,
    or a proper list of these that is not itself nested; a string that is compared
    with a list has fewer than 256 bytes. No big integers, floats, ids, long or
    Latin-1 atoms, or empty strings. *)
Theorem compare_is_order sscanf_lf v w bs cs m1 m2 s1 s2 o1 o2 fuel :
  cext v bs -> cext w cs -> short_string bs cs -> short_string cs bs ->
  at_ s1 o1 (version m1 ++ bs) -> at_ s2 o2 (version m2 ++ cs) ->
  (2 * (length bs + length cs) < fuel)%nat ->
  erl_compare_ext sscanf_lf fuel o1 o2 s1 s2 = Some (vcmp v w) /\ (vcmp v w = 0 <-> v = w).
Proof.
  intros Hv Hw Hs1 Hs2 Ha1 Ha2 Hf. split; [| apply vcmp_zero].
  destruct (cext_cons v bs Hv) as (b & r & Eb & Hb & Hmb).
  destruct (cext_cons w cs Hw) as (c & t & Ec & Hc & Hmc).
  rewrite Eb in Ha1. rewrite Ec in Ha2.
  apply skip_version in Ha1 as [Hm1 Ha1]; [| done]. apply skip_version in Ha2 as [Hm2 Ha2]; [| done].
  destruct fuel as [| fuel]; [lia |]. unfold erl_compare_ext. unfold bind2 at 1.
  rewrite (top_start _ fuel b r c t s1 s2 o1 o2 _ _ Hm1 Hm2 Ha1 Ha2), Hb, Hc.
  destruct (Z.eqb_spec (vrank v) (vrank w)) as [E | E].
  - destruct (same_kind_ok sscanf_lf fuel v bs w cs s1 s2 (o1 + len (version m1))
      (o2 + len (version m2))) as (q1 & q2 & E'); try done; [by rewrite Eb | by rewrite Ec | lia |].
    replace b with (hd 0 bs) by by rewrite Eb. by rewrite E'.
  - by rewrite vcmp_rank.
Qed.

(** [[300, x]] behind a version byte, and the string ["b"]. *)
Definition list_300 : list Z := [108; 0; 0; 0; 2; 98; 0; 0; 1; 44; 119; 1; 120; 106].

Lemma compare_is_order_witness :
  erl_compare_ext (fun _ => None) 60 0 0 (131 :: list_300) [107; 0; 1; 98] = Some 1.
Proof.
  refine (proj1 (compare_is_order (fun _ => None) (VList [VInt 300; VAtom [120]])
    (VList (VInt <$> [98])) list_300 [107; 0; 1; 98] true false _ _ 0 0 60 _ _ _ _ _ _ _)).
  - apply (cext_list [VInt 300; VAtom [120]] [[98; 0; 0; 1; 44]; [119; 1; 120]]); [| done | done].
    repeat apply Forall2_cons_2; [| by apply (fext_atom [120]) | constructor].
    apply fext_int, (int_ext_int 300). unfold is_int32. lia.
  - apply cext_flat, (fext_string [98]); [| done | done]. repeat constructor; unfold is_byte; lia.
  - done.
  - intros _ _. cbn. lia.
  - split; [lia |]. by exists [], [].
  - split; [lia |]. by exists [], [].
  - apply Nat.ltb_lt. vm_compute. reflexivity.
Defined.

(** ** What is compared differently *)

Section Differently.
Context (sscanf_lf : list Z -> option Z).
Notation cmp_ext := (erl_compare_ext sscanf_lf 20 0 0).

(** [any small will fit in two digits], but two is taken for bytes: there is no
    room, and a small integer is less than any bignum, -2^64 too. *)
Lemma small_below_any_big e1 e2 s1 s2 n bs t m :
  int_ext n bs -> at_ s1 e1 bs -> ei_get_type 0 e2 0 s2 = Some (t, m) ->
  cmp_small_big e1 e2 s1 s2 = Some (-1, e1, e2).
Proof.
  intros He Ha Ht. unfold cmp_small_big. erewrite on1_Some by (by eapply get_long_ok).
  cbv beta iota. change (ei_small_to_big (int32 n) (ei_alloc_big 2)) with (-1, Big 2 0 [0]).
  cbv beta iota. change (-1 <? 0) with true. cbv iota. by erewrite on2_Some by exact Ht.
Qed.

Lemma small_below_negative_big :
  cmp_ext [97; 1] [110; 8; 1; 0; 0; 0; 0; 0; 0; 0; 1] = Some (-1).
Proof. done. Qed.

(** The tail of a list is not passed: behind a list in a tuple, nothing is
    compared as it should be. [{[1], 2}] and [{[1], 3}] are equal, and
    [{"a", 5}] is not equal to [{[97], 5}]. *)
Lemma behind_a_list :
  cmp_ext [104; 2; 108; 0; 0; 0; 1; 97; 1; 106; 97; 2]
          [104; 2; 108; 0; 0; 0; 1; 97; 1; 106; 97; 3] = Some 0 /\
  cmp_ext [104; 2; 107; 0; 1; 97; 97; 5]
          [104; 2; 108; 0; 0; 0; 1; 97; 97; 106; 97; 5] = Some 1.
Proof. done. Qed.

(** The tag of the first says how both are laid out: of two forms of the atom
    [a], each is greater than the other. *)
Lemma long_and_short_atom :
  cmp_ext ([118; 0; 1; 97] ++ replicate 8 0) ([119; 1; 97] ++ replicate 8 0) = Some 1 /\
  cmp_ext ([119; 1; 97] ++ replicate 8 0) ([118; 0; 1; 97] ++ replicate 8 0) = Some 1.
Proof. done. Qed.

(** The empty string is greater than the empty list, which it is in the
    language. *)
Lemma empty_string_above_nil : cmp_ext [107; 0; 0] [106] = Some 1.
Proof. done. Qed.

(** Maps have no place in the table: they are less than anything else, and equal
    among themselves. *)
Lemma maps_are_equal :
  cmp_ext [116; 0; 0; 0; 1; 97; 1; 97; 2] [116; 0; 0; 0; 1; 97; 2; 97; 2] = Some 0.
Proof. done. Qed.

(** A fun is less than itself. *)
Lemma fun_below_itself b bs s e fuel : at_ s e (b :: bs) ->
  (b = ERL_FUN_EXT \/ b = ERL_NEW_FUN_EXT) ->
  compare_top_ext sscanf_lf (S fuel) e e s s = Some (-1, e + 1, e + 1).
Proof.
  intros Ha Hb. assert (b <> ERL_VERSION_MAGIC) by (by destruct Hb as [-> | ->]).
  rewrite (top_start _ fuel b bs b bs s s e e e e) by (try eapply skip_magic_ok; done).
  rewrite Z.eqb_refl. apply at_cons in Ha as [Ha _].
  destruct Hb as [-> | ->]; unfold same_kind, IS_ERL_NUM; ctests; unfold cmp_exe2; do 2 step2; ctests;
    unfold cmp_exe2_tags; do 2 step2; by ctests.
Qed.

(** A bignum with a zero digit above 2^1024 becomes a NaN, which [cmp_floats]
    takes for equal to everything: 1.0 and 2^1040. *)
Lemma float_equals_huge :
  cmp_ext [70; 63; 240; 0; 0; 0; 0; 0; 0] ([110; 131; 0] ++ replicate 130 0 ++ [1]) = Some 0.
Proof. by vm_compute. Qed.

(** [free] is called with the pointer that has moved. *)
Lemma long_string_freed hi lo p s1 s2 e1 e2 fuel :
  at_ s1 (e1 + 1) [hi; lo] -> at_ s1 (e1 + 3) p -> len p = Z.lor (Z.shiftl hi 8) lo ->
  256 <= len p ->
  cmp_string_list sscanf_lf fuel (compare_top_ext sscanf_lf fuel) e1 e2 s1 s2 = None.
Proof.
  intros [Hh Hl]%at_cons Hp Hn Hk. unfold cmp_string_list.
  do 2 step2. rewrite <- Hn, Nat2Z.id. erewrite on1_Some by (apply load_n_at; at_tac).
  unfold bind2 at 1. destruct (cmp_exe2_tags _ _ _ _ _ _ _) as [[[? ?] ?] |]; [| done].
  by rewrite (proj2 (Z.leb_le _ _) Hk).
Qed.

(** Of a creation of four bytes one is taken for it, and the other three for the
    start of the numbers: the end of the last number is not compared. *)
Lemma reference_end_ignored :
  cmp_ext [90; 0; 1; 119; 1; 97; 0; 0; 0; 5; 0; 0; 0; 9] [90; 0; 1; 119; 1; 97; 0; 0; 0; 5; 0; 0; 0; 8]
    = Some 0.
Proof. done. Qed.
End Differently.
