(* ===== verification/EPrint.v ===== *)
(** * legacy/erl_eterm.c: erl_print_term

    The older printer, over terms as trees; what it writes to the file, and the
    number of characters it says it has written. [None] is a text it reads
    through NULL. What erl_format makes of what it prints. *)

From stdpp Require Import gmap gmultiset.
From S2P Require Import Prelude Mem PutGet Ext Atom Data Eterm MarshalOk MarshalRead EtermOk Format FormatOk Print PrintOk Refc RefcOk RefcTerm RefcCorrect Match MatchTerm MatchHeap MatchOk EFormat EFormatOk EFormatCorrect.

(** ** The printer *)

Definition written : Type := Z * list Z.

(** [putc(c, fp); ch_written++;] and [ch_written += fprintf(fp, s);] *)
Definition say (s : list Z) : written := (len s, s).
Definition also (a b : written) : written := (fst a + fst b, snd a ++ snd b).

(** [%o] of an [int]. *)
Definition printf_o (n : Z) : list Z := radix 8 11 (uint32 n) [].

(** The characters below a space that have an escape. *)
Definition escape (c : Z) : option Z :=
  if c =? 10 then Some 110 else if c =? 13 then Some 114 else if c =? 9 then Some 116
  else if c =? 11 then Some 118 else if c =? 8 then Some 98 else if c =? 12 then Some 102
  else None.

Fixpoint is_printable_list (term : ETERM) : bool :=
  match term with
  | Erl_List head tl =>
      match ERL_IS_BYTE head with
      | Some c => (negb (c <? 32) || bool_decide (is_Some (escape c))) && is_printable_list tl
      | None => false
      end
  | Erl_EmptyList => true
  | _ => false
  end.

Definition print_char (c : Z) : written :=
  if 32 <=? c then (1, [byte c])
  else match escape c with
       | Some e => say [92; e]
       | None => say (92 :: printf_o c)
       end.

(** [print_string], whose list has passed [is_printable_list]. *)
Fixpoint eprint_chars (ep : ETERM) : written :=
  match ep with
  | Erl_List (Erl_Integer c) tl => also (print_char c) (eprint_chars tl)
  | _ => (0, [])
  end.
Definition eprint_string (ep : ETERM) : written := also (say [34]) (also (eprint_chars ep) (say [34])).

Definition in_quotes (q : bool) (w : written) : written :=
  if q then also (say [39]) (also w (say [39])) else w.

(** [fputs] stops at a zero, the count does not. *)
Definition eprint_atom (a : Erl_Atom_data) : option written :=
  match erl_atom_ptr_latin1 a with
  | (Some adata, a) =>
      let size := fst (erl_atom_size_latin1 a) in
      let doquote := negb (islower (hd 0 adata))
        || existsb (fun c => negb (isalnum c || (c =? 95))) (take (Z.to_nat size) adata) in
      Some (in_quotes doquote (size, c_str adata))
  | (None, _) => None
  end.

Section Print.
Context (printf_f : Z -> list Z).

Section Cells.
Context (pr : ETERM -> option written).

(** Behind the first element of a list. *)
Fixpoint eprint_tail (ep : ETERM) : option written :=
  match ep with
  | Erl_List h tl =>
      w ← pr h; r ← eprint_tail tl; Some (also (say [44]) (also w r))
  | Erl_EmptyList => Some (say [93])
  | t => w ← pr t; Some (also (say [124]) (also w (say [93])))
  end.

Fixpoint eprint_elems (es : list ETERM) : option written :=
  match es with
  | [] => Some (0, [])
  | [e] => pr e
  | e :: es => w ← pr e; r ← eprint_elems es; Some (also w (also (say [44]) r))
  end.

(** A field of a fun; nothing is printed for NULL. *)
Definition print_field (o : option ETERM) : option written :=
  match o with Some t => pr t | None => Some (0, []) end.
End Cells.

Fixpoint eprint_term (ep : ETERM) : option written :=
  match ep with
  | Erl_Atom d => eprint_atom d
  | Erl_Variable name _ =>
      Some (in_quotes (negb (isupper (hd 0 name))) (len name, c_str name))
  | Erl_Pid node number serial _ =>
      match fst (erl_atom_ptr_latin1 node) with
      | Some n => Some (say (60 :: c_str n ++ 46 :: printf_d (int32 number)
                             ++ 46 :: printf_d (int32 serial) ++ [62]))
      | None => None
      end
  | Erl_Port _ _ _ => Some (say [35; 80; 111; 114; 116])
  | Erl_Ref _ _ _ => Some (say [35; 82; 101; 102])
  | Erl_EmptyList => Some (say [91; 93])
  | Erl_List h tl =>
      if is_printable_list ep then Some (eprint_string ep) else
      w ← eprint_term h; r ← eprint_tail eprint_term tl;
      Some (also (say [91]) (also w r))
  | Erl_Tuple es =>
      w ← eprint_elems eprint_term es; Some (also (say [123]) (also w (say [125])))
  | Erl_Binary b =>
      let sz := Z.min 20 (len b) in
      Some (also (say [35; 66; 105; 110; 60]) (also (say (take (Z.to_nat sz) b))
        (if sz =? 20 then say (40 :: printf_d (len b - 20) ++ [41; 46; 46; 46; 46; 62])
         else say [62])))
  | Erl_Integer i => Some (say (printf_d i))
  | Erl_Uinteger u => Some (say (printf_d (int32 u)))
  | Erl_LLInteger l => Some (say (printf_d l))
  | Erl_ULLInteger ul => Some (say (printf_d (int64 ul)))
  | Erl_Float f => Some (say (printf_f f))
  | Erl_Function _ _ _ _ module index uniq _ =>
      let field := print_field eprint_term in
      w1 ← field module; w2 ← field index; w3 ← field uniq;
      Some (also (say [35; 70; 117; 110; 60]) (also w1 (also (say [46])
        (also w2 (also (say [46]) (also w3 (say [62])))))))
  end.

(** [ch_written] is an int to which only lengths are added, so one of these sums
    overflows exactly if the last one does not fit. *)
Definition erl_print_term (ep : ETERM) : option written :=
  w ← eprint_term ep; n ← int_opt (fst w); Some (n, snd w).
End Print.

(** ** Plain terms *)

(** A text in double quotes that [erl_format] reads as it stands. *)
Definition plain_char (c : Z) : Prop := 32 <= c < 256 /\ c <> 34.

Inductive eplain : ETERM -> Prop :=
  | eplain_int n : 0 <= n <= 2147483647 -> eplain (Erl_Integer n)
  | eplain_atom cs : inside 39 cs -> len cs < wbuf_size -> eplain (atom_of cs)
  | eplain_nil : eplain Erl_EmptyList
  | eplain_string cs :
      cs <> [] -> Forall plain_char cs -> len cs < wbuf_size ->
      eplain (Eterm.string_list cs Erl_EmptyList)
  | eplain_list ts :
      ts <> [] -> Forall eplain ts -> len ts <= 255 -> is_printable_list (list_of ts) = false ->
      eplain (list_of ts)
  | eplain_tuple ts : Forall eplain ts -> len ts <= 255 -> eplain (Erl_Tuple ts).

Section Text.
Context (printf_f : Z -> list Z) (atof : list Z -> Z) {R : Type} (D : R -> ETERM -> Prop).

(** What is printed is counted, and is a text that means the term. *)
Definition reads (t : ETERM) : Prop :=
  exists txt, eprint_term printf_f t = Some (len txt, txt) /\ eform atof D txt [] t.

Lemma reads_int n : 0 <= n <= 2147483647 -> reads (Erl_Integer n).
Proof.
  intros Hn. destruct (radix_dec 20 n [] 0) as (ds & E & Hd & Hv); [cbn; lia | lia |].
  rewrite app_nil_r in E. replace (0 * 10 ^ len ds + n) with n in Hv by lia.
  pose proof (printf_d_chars n) as [_ Hl]. unfold printf_d in Hl.
  rewrite (proj2 (Z.ltb_ge _ _)), E in Hl by lia.
  exists ds. split.
  - cbn. unfold printf_d. rewrite (proj2 (Z.ltb_ge _ _)) by lia. by rewrite E.
  - rewrite <- Hv. apply (eform_int atof D ds); [done | unfold dec; lia | unfold wbuf_size; lia].
Qed.

Lemma reads_atom cs : inside 39 cs -> len cs < wbuf_size -> reads (atom_of cs).
Proof.
  intros Hi Hl. unfold reads, atom_of. cbn [eprint_term]. unfold eprint_atom. cbn [erl_atom_ptr_latin1 latin1].
  cbn [erl_atom_size_latin1 latin1 fst]. unfold lenL. cbn [latin1 default]. change (id cs) with cs.
  rewrite Nat2Z.id, firstn_all.
  rewrite c_str_of_chars by (eapply List.Forall_impl; [| exact Hi]; naive_solver).
  destruct (negb (islower (hd 0 cs)) || existsb _ cs) eqn:E; cbn [in_quotes].
  - exists (39 :: cs ++ [39]). split; [| by apply eform_quoted]. unfold also, say. cbn [fst snd app].
    do 2 f_equal. autorewrite with len. lia.
  - apply orb_false_iff in E as [E1 E2]. destruct cs as [| c cs]; [done |].
    exists (c :: cs). split; [done |]. cbn [hd] in E1. apply negb_false_iff in E1.
    apply eform_atom; [by apply Is_true_true | | done].
    assert (Hall : Forall (fun c => isalnum c || (c =? 95)) (c :: cs)).
    { apply Forall_forall. intros x Hx. apply Is_true_true.
      destruct (isalnum x || (x =? 95)) eqn:Ex; [done |].
      assert (existsb (fun c => negb (isalnum c || (c =? 95))) (c :: cs) = true); [| congruence].
      apply existsb_exists. exists x. split; [done | by rewrite Ex]. }
    inversion_clear Hall as [| ? ? _ Hall0]. eapply List.Forall_impl; [| exact Hall0].
    intros x Hx%Is_true_true. apply Is_true_true. unfold is_atom_char. by rewrite Hx.
Qed.

Lemma eprint_chars_ok cs : Forall plain_char cs ->
  eprint_chars (Eterm.string_list cs Erl_EmptyList) = (len cs, cs) /\
  is_printable_list (Eterm.string_list cs Erl_EmptyList) = true.
Proof.
  induction 1 as [| c cs Hc _ [IH1 IH2]]; [done |]. unfold plain_char in Hc.
  change (Eterm.string_list (c :: cs) Erl_EmptyList)
    with (Erl_List (Erl_Integer c) (Eterm.string_list cs Erl_EmptyList)).
  cbn [eprint_chars is_printable_list]. rewrite IH1, IH2. split.
  - unfold print_char. rewrite (proj2 (Z.leb_le _ _)) by lia. unfold also. cbn [fst snd].
    rewrite byte_small by (unfold is_byte; lia). f_equal. rewrite len_cons. lia.
  - unfold ERL_IS_BYTE. change (Z.lnot 255) with (Z.lnot (Z.ones 8)).
    rewrite <- Z.ldiff_land, Z.ldiff_ones_r, Z.shiftr_div_pow2, Z.div_small by lia.
    change (Z.shiftl 0 8 =? 0) with true. cbv iota. by rewrite (proj2 (Z.ltb_ge _ _)) by lia.
Qed.

Lemma reads_string cs : cs <> [] -> Forall plain_char cs -> len cs < wbuf_size ->
  reads (Eterm.string_list cs Erl_EmptyList).
Proof.
  intros Hne Hc Hl. destruct (eprint_chars_ok cs Hc) as [E1 E2].
  exists (34 :: cs ++ [34]). split.
  - destruct cs as [| c cs]; [done |].
    change (Eterm.string_list (c :: cs) Erl_EmptyList)
      with (Erl_List (Erl_Integer c) (Eterm.string_list cs Erl_EmptyList)) in *.
    cbn [eprint_term]. rewrite E2. unfold eprint_string. rewrite E1. unfold also, say. cbn [fst snd app].
    do 2 f_equal. autorewrite with len. lia.
  - apply eform_string; [| done]. eapply List.Forall_impl; [| exact Hc]. unfold plain_char. lia.
Qed.

(** The elements up to the closing bracket: of a tuple, and behind the first
    one of a list. *)
Lemma elems_read close ts : stop close -> Forall reads ts ->
  exists out, eprint_elems (eprint_term printf_f) ts = Some (len out, out) /\
    eelems atof D close (out ++ [close]) [] ts.
Proof.
  intros Hc. induction 1 as [| t ts (txt & E & Ht) _ (out & Eo & Ho)].
  { exists []. split; [done | constructor]. }
  destruct ts as [| u ts].
  - exists txt. split; [done |]. by apply (eelems_term _ _ _ txt [] t [close] [] []); [| | constructor].
  - exists (txt ++ 44 :: out). cbn [eprint_elems] in *. rewrite E, Eo. cbn [mbind option_bind]. split.
    + unfold also, say. cbn [fst snd]. do 2 f_equal. autorewrite with len. lia.
    + rewrite <- app_assoc.
      apply (eelems_term _ _ _ txt [] t (44 :: out ++ [close]) []); [done | done |].
      apply eelems_skip; [by right | done].
Qed.

Lemma tail_read ts : Forall reads ts ->
  exists out, eprint_tail (eprint_term printf_f) (list_of ts) = Some (len out, out) /\
    eelems atof D 93 out [] ts /\ stop (hd 0 out).
Proof.
  induction 1 as [| t ts (txt & E & Ht) _ (out & Eo & Ho & Hs)].
  { exists [93]. split; [done |]. split; [constructor | done]. }
  change (list_of (t :: ts)) with (Erl_List t (list_of ts)). cbn [eprint_tail]. rewrite E, Eo.
  exists (44 :: txt ++ out). cbn [mbind option_bind]. split; [| split; [| done]].
  - unfold also, say. cbn [fst snd app]. do 2 f_equal. autorewrite with len. lia.
  - apply eelems_skip; [by right |]. by apply (eelems_term _ _ _ txt [] t out []).
Qed.

Lemma reads_list ts : ts <> [] -> Forall reads ts -> len ts <= 255 ->
  is_printable_list (list_of ts) = false -> reads (list_of ts).
Proof.
  intros Hne Hr Hl Hp. destruct Hr as [| t ts (txt & E & Ht) Hr]; [done |].
  destruct (tail_read ts Hr) as (out & Eo & Ho & Hs).
  change (list_of (t :: ts)) with (Erl_List t (list_of ts)) in *.
  exists (91 :: txt ++ out). split.
  - cbn [eprint_term]. rewrite Hp, E, Eo. cbn [mbind option_bind]. unfold also, say. cbn [fst snd app].
    do 2 f_equal. autorewrite with len. lia.
  - apply (eform_list _ _ (txt ++ out) [] (t :: ts)); [| | done].
    + apply (eform_map atof D (fun (_ : option addr) _ => True) (fun _ => None)) in Ht; [| done].
      by destruct (eform_head atof _ _ _ _ Ht) as (c & t' & -> & ? & ? & ? & ? & _).
    + by apply (eelems_term _ _ _ txt [] t out []).
Qed.

Lemma reads_tuple ts : Forall reads ts -> len ts <= 255 -> reads (Erl_Tuple ts).
Proof.
  intros Hr Hl. destruct (elems_read 125 ts ltac:(done) Hr) as (out & Eo & Ho).
  exists (123 :: out ++ [125]). split; [| by apply eform_tuple].
  cbn [eprint_term]. rewrite Eo. cbn [mbind option_bind]. unfold also, say. cbn [fst snd app].
  do 2 f_equal. autorewrite with len. lia.
Qed.

(** With what is known of the elements of a list. *)
Definition parts_read (t : ETERM) : Prop :=
  match t with
  | Erl_Tuple ts => Forall eplain ts -> Forall reads ts
  | _ => forall ts, t = list_of ts -> Forall eplain ts -> Forall reads ts
  end.

Lemma plain_reads_with t : parts_read t -> eplain t -> reads t.
Proof.
  intros Hparts H. revert Hparts.
  destruct H as [n Hn | cs Hc Hl | | cs Hne Hc Hl | ts Hne Hts Hl Hp | ts Hts Hl]; intros Hparts.
  - by apply reads_int.
  - by apply reads_atom.
  - exists [91; 93]. split; [done | constructor].
  - by apply reads_string.
  - apply reads_list; try done. by destruct ts; [| apply (Hparts _ eq_refl)].
  - apply reads_tuple; [by apply Hparts | done].
Qed.

Lemma plain_reads t : eplain t -> reads t.
Proof.
  assert (H : (eplain t -> reads t) /\ parts_read t); [| tauto].
  induction t as [i | u | l | l | f | d | d n s c | d n c | d n c | h tl IHh IHt | | b | es IH | name v Hv
    | ar md5 ni c m i u cl Hc Hm Hi Hu Hcl] using ETERM_rec_all;
    match goal with |- (eplain ?t -> _) /\ _ =>
      assert (Hp : parts_read t); [| split; [by apply plain_reads_with | done]] end;
    cbn [parts_read]; try (intros [] ?; done).
  - intros [| t ts] E Hf; [done |]. injection E as -> ->.
    inversion_clear Hf as [| ? ? H1 H2]. constructor; [by apply IHh |].
    destruct IHt as [_ IHt]. by destruct ts; [constructor | apply (IHt _ eq_refl)].
  - intros Hf. induction IH as [| t ts [IH _] _ IHts]; [constructor |].
    inversion_clear Hf as [| ? ? H1 H2]. constructor; [by apply IH | by apply IHts].
Qed.
End Text.

Lemma print_counted printf_f t txt : eprint_term printf_f t = Some (len txt, txt) ->
  erl_print_term printf_f t = if len txt <=? int_max then Some (len txt, txt) else None.
Proof.
  intros E. unfold erl_print_term. rewrite E. cbn [mbind option_bind fst snd]. unfold int_opt, fits_int.
  rewrite (proj2 (Z.leb_le (-2147483648) _)) by lia. by destruct (len txt <=? int_max).
Qed.

(** C12: what [erl_print_term] prints is read by [erl_format]: of a plain term it
    writes a text and says how many characters that is, if they are not more than
    INT_MAX (the count overflows otherwise), and [erl_format] makes of the text,
    followed by its end, a space, a comma or a closing bracket and then anything,
    the same term in a new heap, with memory never exhausted and too few cells to
    overflow a count. Plain are an integer from 0 to 2147483647, an atom of fewer
    than 8192 characters (BUFSIZ) without zero or single quote, quoted where it has
    to be, a string of 1 to 8191 characters from 32 to 255 without double quote, the
    empty list, and lists (that do not print as strings) and tuples of at most 255
    plain terms. *)
Theorem erl_print_format malloc printf_f atof fuel hfuel t rest :
  (forall h a, malloc h = Some a -> blocks h !! a = None) -> (forall h, is_Some (malloc h)) ->
  eplain t -> stop (hd 0 rest) -> 4 * cells t <= ERL_MAX_COUNT -> 4 * cells t + 1 < Z.of_nat hfuel ->
  exists txt,
    erl_print_term printf_f t = (if len txt <=? int_max then Some (len txt, txt) else None) /\
    ((length txt < fuel)%nat -> exists a h u,
       erl_format malloc atof fuel hfuel (txt ++ rest) [] erl_init_eterm_alloc = Go (Some a) h /\
       den (live_of h) a u /\ norm u = norm t).
Proof.
  intros Hf Ht Hp Hs Hw Hh.
  destruct (plain_reads printf_f atof (has []) t Hp) as (txt & E & Hform).
  exists txt. split; [by apply print_counted |]. intros Hfu.
  destruct (format_state malloc atof fuel hfuel [] 0 Hf Ht txt [] rest t 0 _ _ _ Holds_init
    (etext_form _ _ _ _ _ _ Hform) Hs Hfu Hw Hh) as (a & h & Hrun & live & u & big & Hd & Hn & _ & Hg & _).
  exists a, h, u. split; [done |]. by rewrite (live_of_inv _ _ _ (g_inv _ _ _ _ _ Hg)).
Qed.

(** [{ok,['A b',"x y",7]}] *)
Definition print_sample : ETERM :=
  Erl_Tuple [atom_of [111; 107];
             list_of [atom_of [65; 32; 98]; Eterm.string_list [120; 32; 121] Erl_EmptyList; Erl_Integer 7]].

Lemma print_sample_plain : eplain print_sample.
Proof.
  apply eplain_tuple; [| done]. apply Forall_cons_2; [| apply Forall_cons_2; [| constructor]].
  - apply eplain_atom; [| done]. repeat constructor; lia.
  - apply eplain_list; [done | | done | done].
    apply Forall_cons_2; [| apply Forall_cons_2; [| apply Forall_cons_2; [| constructor]]].
    + apply eplain_atom; [| done]. repeat constructor; lia.
    + apply eplain_string; [done | repeat constructor; lia | done].
    + apply eplain_int. lia.
Qed.

Lemma erl_print_format_witness :
  exists txt,
    erl_print_term (fun _ => []) print_sample = (if len txt <=? int_max then Some (len txt, txt) else None) /\
    ((length txt < 40)%nat -> exists a h u,
       erl_format count_up (fun _ => 0) 40 100 (txt ++ [0]) [] erl_init_eterm_alloc = Go (Some a) h /\
       den (live_of h) a u /\ norm u = norm print_sample).
Proof.
  apply (erl_print_format count_up (fun _ => []) (fun _ => 0) 40 100 print_sample [0] count_up_fresh);
    [intros h; by eexists | apply print_sample_plain | done | vm_compute; discriminate | vm_compute; reflexivity].
Defined.

Example print_sample_text : erl_print_term (fun _ => []) print_sample
  = Some (20, [123; 111; 107; 44; 91; 39; 65; 32; 98; 39; 44; 34; 120; 32; 121; 34; 44; 55; 93; 125]).
Proof. done. Qed.

(** ** What is printed differently *)

(** A quote in an atom is not escaped; nor is one in a string. *)
Lemma print_quote : erl_print_term (fun _ => []) (atom_of [39]) = Some (3, [39; 39; 39]) /\
  erl_print_term (fun _ => []) (Eterm.string_list [34] Erl_EmptyList) = Some (3, [34; 34; 34]).
Proof. done. Qed.

(** An unsigned number of 32 or 64 bits is printed as a signed one. *)
Lemma print_unsigned : erl_print_term (fun _ => []) (Erl_Uinteger 4294967295) = Some (2, [45; 49]) /\
  erl_print_term (fun _ => []) (Erl_ULLInteger 18446744073709551615) = Some (2, [45; 49]).
Proof. done. Qed.

(** Nothing is left out of a binary of 20 bytes, but that is what is printed:
    [(0)....]. *)
Lemma print_bin_20 b : len b = 20 ->
  erl_print_term (fun _ => []) (Erl_Binary b)
    = Some (33, [35; 66; 105; 110; 60] ++ b ++ [40; 48; 41; 46; 46; 46; 46; 62]).
Proof.
  intros Hb. unfold erl_print_term. cbn [eprint_term]. rewrite Hb. change (Z.min 20 20) with 20. cbn [Z.eqb Pos.eqb].
  rewrite take_ge by lia. unfold also, say. cbn [fst snd]. by rewrite Hb.
Qed.

(** An atom with a zero in it is counted whole and printed to the zero. *)
Lemma print_count : erl_print_term (fun _ => []) (atom_of [97; 0; 98]) = Some (5, [39; 97; 39]).
Proof. done. Qed.
