(* ===== verification/Backup.v ===== *)
(** * registry/reg_dump.c, registry/reg_restore.c: the registry and Mnesia

    [ei_reg_dump] has the other node start a process, sends it an operation for
    every object that changed, and commits; [ei_reg_restore] is sent the records of
    a table and sets a value for each. The strings and binaries of the registry are
    blocks of memory, which the inodes hold the addresses of. *)

From stdpp Require Import gmap fin_maps.
From S2P Require Import Prelude Mem PutGet Ext Headers Ints Atom Data Ids Term XBuff Proc PortIO Epmd Connect Message Prime Hash Reg.

(** The blocks by address: what is there from the address on. *)
Notation blocks := (gmap Z (list Z)).

Definition EI_FORCE : Z := 0x1.
Definition EI_NOPURGE : Z := 0x2.

(** The names of reg.h, and the texts of the two files. *)
Definition EI_MNESIA_MODULE : list Z := [109; 110; 101; 115; 105; 97; 95; 114; 101; 103; 105; 115; 116; 114; 121].
Definition EI_MNESIA_DUMP : list Z := [115; 116; 97; 114; 116; 95; 100; 117; 109; 112].
Definition EI_MNESIA_WRITE : list Z := [119; 114; 105; 116; 101].
Definition EI_MNESIA_DELETE : list Z := [100; 101; 108; 101; 116; 101].
Definition EI_MNESIA_COMMIT : list Z := [99; 111; 109; 109; 105; 116].
Definition EI_MNESIA_RESTORE : list Z := [115; 116; 97; 114; 116; 95; 114; 101; 115; 116; 111; 114; 101].
Definition EI_MNESIA_SEND : list Z := [115; 101; 110; 100; 95; 114; 101; 99; 111; 114; 100; 115].
Definition EI_MNESIA_RECV : list Z := [114; 101; 115; 116; 111; 114; 101].
Definition EI_MNESIA_SIZE : list Z := [115; 105; 122; 101].
Definition delete_failed : list Z := [100; 101; 108; 101; 116; 101; 32; 102; 97; 105; 108; 101; 100].
Definition update_failed : list Z := [117; 112; 100; 97; 116; 101; 32; 102; 97; 105; 108; 101; 100].
Definition commit_failed : list Z := [99; 111; 109; 109; 105; 116; 32; 102; 97; 105; 108; 101; 100].
Definition bad_start : list Z :=
  [98; 97; 100; 32; 114; 101; 115; 112; 111; 110; 115; 101; 32; 102; 114; 111; 109; 32; 114; 112; 99;
   32; 115; 116; 97; 114; 116].
Definition nothing_to_do : list Z := [110; 111; 116; 104; 105; 110; 103; 32; 116; 111; 32; 100; 111].
Definition no_space : list Z :=
  [99; 97; 110; 110; 111; 116; 32; 97; 108; 108; 111; 99; 97; 116; 101; 32; 115; 112; 97; 99; 101; 32;
   102; 111; 114; 32; 105; 110; 99; 111; 109; 105; 110; 103; 32; 100; 97; 116; 97].
Definition restore_failure : list Z :=
  [114; 101; 115; 116; 111; 114; 101; 32; 102; 97; 105; 108; 117; 114; 101].

(** ** What the two have in common *)

(** [self], made from the node of the connection. *)
Definition self_pid (ec : ei_cnode) (fd : Z) : erlang_pid :=
  Pid (c_str (thisnodename ec)) (uint32 fd) 0 (uint32 (creation ec)).

(** [{self, {call, mnesia_registry, fun_, [mntab, self], user}}] *)
Definition start_request (self : erlang_pid) (fun_ mntab : list Z) : M Z :=
  let* index := then_encode ei_encode_version 0 in
  let* index := then_encode (ei_encode_tuple_header 2) index in
  let* index := then_encode (ei_encode_pid self) index in
  let* index := then_encode (ei_encode_tuple_header 5) index in
  let* index := then_encode (ei_encode_atom str_call) index in
  let* index := then_encode (ei_encode_atom EI_MNESIA_MODULE) index in
  let* index := then_encode (ei_encode_atom fun_) index in
  let* index := then_encode (ei_encode_list_header 2) index in
  let* index := then_encode (ei_encode_atom mntab) index in
  let* index := then_encode (ei_encode_pid self) index in
  let* index := then_encode ei_encode_empty_list index in
  then_encode (ei_encode_atom str_user) index.

(** [|| ei_decode_atom(buf,&index,tag) || strcmp(tag,name)], [tag] an array of
    [room] bytes. *)
Definition decode_tag (room : Z) (name : list Z) (index : Z) : D (cres unit) :=
  let- (i, a) := ei_decode_atom true 0 index in
  if room <=? len (at_text a) then ubD
  else if strcmp_eq (at_text a) name then retD (Done i tt) else retD Fail.

(** [|| ei_decode_tuple_header(buf,&index,&arity) || (arity != n)] *)
Definition decode_tuple_of (n index : Z) : D (cres unit) :=
  let- (i, arity) := ei_decode_tuple_header true 0 index in
  if bool_decide (arity = Some n) then retD (Done i tt) else retD Fail.

Section Ticks.
(** How many ticks of the other node are answered before a message. *)
Context (ticks : nat).

(** [while (!(i = ei_recv_internal(fd,&buf,&index,&msg,&msglen,1,0))) index = bufsz;] *)
Fixpoint recv_message (n : nat) (fd : Z) (buf : list Z) (bufsz : Z) (m : erlang_msg) (ml : Z)
    : proc received :=
  let! r := ei_recv_internal fd buf bufsz m ml true 0 in
  if rc r =? 0 then
    match n with O => Undef | S n => recv_message n fd (mbuf r) bufsz (msg r) (msglen r) end
  else Ret r.

(** The loop that waits for a link and for the reply, in either order; at most two
    messages are taken. [reply] says whether the reply is the right one, and what it
    stored. *)
Fixpoint start_wait {A} (reply : D (bool * A)) (rounds : nat) (fd : Z) (buf : list Z)
    (m : erlang_msg) (ml : Z) (needlink need : bool) (a : A) : proc (Z * A) :=
  if negb (needlink || need) then Ret (0, a) else
  match rounds with
  | O => Undef
  | S rounds =>
      let! r := recv_message ticks fd buf EISMALLBUF m ml in
      if rc r =? ERL_LINK then
        if negb needlink then Ret (-1, a)
        else start_wait reply rounds fd (mbuf r) (msg r) (msglen r) false need a
      else if rc r =? ERL_SEND then
        if negb need then Ret (-1, a) else
        let! (ok, a) := lift_D reply (mbuf r) in
        if ok then start_wait reply rounds fd (mbuf r) (msg r) (msglen r) needlink false a
        else Ret (-1, a)
      else Ret (-1, a)
  end.

(** The call of [fun_], and the wait. *)
Definition start_call {A} (reply : D (bool * A)) (fun_ : list Z) (fd : Z) (self : erlang_pid)
    (mntab : list Z) (m : erlang_msg) (ml : Z) (a : A) : proc (Z * A) :=
  let! buf := ask (r_array EISMALLBUF) in
  let! (index, buf) := lift_M (start_request self fun_ mntab) buf in
  let! r := ei_send_reg_encoded fd self str_rex buf index in
  if negb (r =? 0) then Ret (-1, a)
  else start_wait reply 2 fd buf m ml true true a.

(** [mn_get_unlink] and [mn_unlink] *)
Definition mn_unlink (fd : Z) (m : erlang_msg) (ml : Z) : proc Z :=
  let! buf := ask (r_array EISMALLBUF) in
  let! r := recv_message ticks fd buf EISMALLBUF m ml in
  Ret (if rc r =? ERL_UNLINK then 0 else -1).

(** ** reg_dump.c *)

(** [{rex, Pid}] *)
Definition rex_pid : D (bool * erlang_pid) :=
  let+ r :=
    (let- (i, _) := ei_decode_version true 0 0 in
     let- (i, _) := decode_tuple_of 2 i in
     let- (i, _) := decode_tag 64 str_rex i in
     let+ (type, _) := ei_get_type_internal 0 0 i in
     if negb (type =? ERL_PID_EXT) then retD Fail else
     ei_decode_pid true 0 i) in
  match r with
  | Done _ (Some p) => retD (true, p)
  | _ => retD (false, no_pid)
  end.

Definition mn_start_dump (fd : Z) (self : erlang_pid) (m : erlang_msg) (ml : Z) (mntab : list Z)
    : proc (Z * erlang_pid) :=
  start_call rex_pid EI_MNESIA_DUMP fd self mntab m ml no_pid.

Definition commit_request (self : erlang_pid) : M Z :=
  let* index := then_encode ei_encode_version 0 in
  let* index := then_encode (ei_encode_tuple_header 2) index in
  let* index := then_encode (ei_encode_atom EI_MNESIA_COMMIT) index in
  then_encode (ei_encode_pid self) index.

Definition is_ok : D (cres unit) :=
  let- (i, _) := ei_decode_version true 0 0 in
  let- (i, _) := ei_decode_tuple_header true 0 i in
  decode_tag 256 str_ok i.

Definition mn_send_commit (fd : Z) (mnesia self : erlang_pid) (m : erlang_msg) (ml : Z) : proc Z :=
  let! buf := ask (r_array EISMALLBUF) in
  let! (index, buf) := lift_M (commit_request self) buf in
  let! r := ei_send_encoded fd mnesia buf index in
  if negb (r =? 0) then Ret (-1) else
  let! r := recv_message ticks fd buf EISMALLBUF m ml in
  if negb (rc r =? ERL_SEND) then Ret (-1) else
  let! c := lift_D is_ok (mbuf r) in
  Ret (match c with Done _ _ => 0 | Fail => -1 end).

(** [sbuf], or a block from malloc if it takes more than EISMALLBUF bytes. *)
Definition message_buffer (n : Z) : proc (option (list Z)) :=
  let! sbuf := ask (r_array EISMALLBUF) in
  if EISMALLBUF <? n then ask (r_malloc (uint64 n)) else Ret (Some sbuf).

Definition delete_request (key : list Z) : M Z :=
  let* index := then_encode ei_encode_version 0 in
  let* index := then_encode (ei_encode_tuple_header 2) index in
  let* index := then_encode (ei_encode_atom EI_MNESIA_DELETE) index in
  then_encode (ei_encode_string key) index.

Definition mn_send_delete (fd : Z) (mnesia : erlang_pid) (key : list Z) : proc Z :=
  let! msgbuf := message_buffer (int32 (strlen key + 32)) in
  match msgbuf with
  | None => Ret (-1)
  | Some msgbuf =>
      let! (index, msgbuf) := lift_M (delete_request key) msgbuf in
      let! r := ei_send_encoded fd mnesia msgbuf index in
      Ret (if r =? 0 then 0 else -1)
  end.

(** The switch on the type of the object; [None] is the default. A member of the
    union that is not the one stored, and a string or binary that is no block, are
    undefined. *)
Definition write_value (h : blocks) (obj : ei_reg_obj) (index : Z) : M (option Z) :=
  let enc (f : ptr -> Z -> M (Z * Z)) : M (option Z) :=
    let* index := then_encode f index in retM (Some index) in
  let t := ei_reg_typeof obj in
  if t =? EI_INT then
    match get_i (val obj) with Some i => enc (ei_encode_long i) | None => ubM end
  else if t =? EI_FLT then
    match get_f (val obj) with Some f => enc (ei_encode_double f) | None => ubM end
  else if t =? EI_STR then
    if 0 <? obj_size obj then
      match (s ← get_s (val obj); h !! s) with
      | Some s => enc (ei_encode_string s) | None => ubM end
    else enc (ei_encode_long 0)
  else if t =? EI_BIN then
    if 0 <? obj_size obj then
      match (p ← get_p (val obj); h !! p) with
      | Some b => enc (ei_encode_binary b (obj_size obj)) | None => ubM end
    else match get_p (val obj) with Some p => enc (ei_encode_long p) | None => ubM end
  else retM None.

Definition write_request (h : blocks) (key : list Z) (obj : ei_reg_obj) : M (option Z) :=
  let* index := then_encode ei_encode_version 0 in
  let* index := then_encode (ei_encode_tuple_header 6) index in
  let* index := then_encode (ei_encode_atom EI_MNESIA_WRITE) index in
  let* index := then_encode (ei_encode_string key) index in
  let* index := then_encode (ei_encode_long (int32 (strlen key + 1))) index in
  let* index := then_encode (ei_encode_long (attr obj)) index in
  let* index := then_encode (ei_encode_long (obj_size obj)) index in
  write_value h obj index.

Definition mn_send_write (h : blocks) (fd : Z) (mnesia : erlang_pid) (key : list Z)
    (obj : ei_reg_obj) : proc Z :=
  let! msgbuf := message_buffer (int32 (32 + (strlen key + 1) + obj_size obj)) in
  match msgbuf with
  | None => Ret (-1)
  | Some msgbuf =>
      let! (index, msgbuf) := lift_M (write_request h key obj) msgbuf in
      match index with
      | None => Ret (-1)
      | Some index =>
          let! r := ei_send_encoded fd mnesia msgbuf index in
          Ret (if r =? 0 then 0 else -1)
      end
  end.

Definition dirty (o : ei_reg_obj) : bool := negb (Z.land (attr o) EI_DIRTY =? 0).
Definition forced (flags : Z) : bool := negb (Z.land flags EI_FORCE =? 0).

(** One bucket: 0, or the reason of the exit message. *)
Definition dump_bucket (h : blocks) (flags fd : Z) (mnesia : erlang_pid) (r : ei_reg)
    (b : ei_bucket) : proc (option (list Z)) :=
  match objs r !! value b with
  | None => Undef
  | Some obj =>
      if forced flags || dirty obj then
        if deleted obj then
          let! c := mn_send_delete fd mnesia (key b) in
          Ret (if c =? 0 then None else Some delete_failed)
        else
          let! c := mn_send_write h fd mnesia (key b) obj in
          Ret (if c =? 0 then None else Some update_failed)
      else Ret None
  end.

Fixpoint dump_buckets (h : blocks) (flags fd : Z) (mnesia : erlang_pid) (r : ei_reg)
    (bs : list ei_bucket) : proc (option (list Z)) :=
  match bs with
  | [] => Ret None
  | b :: bs =>
      let! c := dump_bucket h flags fd mnesia r b in
      match c with
      | Some reason => Ret (Some reason)
      | None => dump_buckets h flags fd mnesia r bs
      end
  end.

(** [for (i=0; i<tab->size; i++) ...], [n] rounds left. *)
Fixpoint dump_from (h : blocks) (flags fd : Z) (mnesia : erlang_pid) (r : ei_reg) (n i : nat)
    : proc (option (list Z)) :=
  match n with
  | O => Ret None
  | S n =>
      match tab (reg_tab r) !! i with
      | None => Undef
      | Some bs =>
          let! c := dump_buckets h flags fd mnesia r bs in
          match c with
          | Some reason => Ret (Some reason)
          | None => dump_from h flags fd mnesia r n (S i)
          end
      end
  end.

(** The result and the registry. [m] and [ml] are what the local [msg] and [msglen]
    happen to hold. *)
Definition ei_reg_dump (h : blocks) (m : erlang_msg) (ml fd : Z) (reg : option ei_reg)
    (mntab : option (list Z)) (flags : Z) : proc (Z * option ei_reg) :=
  match reg, mntab with
  | Some r, Some mntab =>
      let! ec := ei_fd_to_cnode fd in
      match ec with
      | None => Ret (-1, reg)
      | Some ec =>
          if MAXATOMLEN_UTF8 <=? strlen (thisnodename ec) then Undef else
          let self := self_pid ec fd in
          let! (c, mnesia) := mn_start_dump fd self m ml mntab in
          if negb (c =? 0) then Ret (-1, reg) else
          let! c := dump_from h flags fd mnesia r (Z.to_nat (size (reg_tab r))) 0 in
          match c with
          | Some reason => let! _ := ei_send_exit fd self mnesia reason in Ret (-1, reg)
          | None =>
              let! c := mn_send_commit fd mnesia self m ml in
              if negb (c =? 0) then
                let! _ := ei_send_exit fd self mnesia commit_failed in Ret (-1, reg)
              else
              let! c := mn_unlink fd m ml in
              if negb (c =? 0) then Ret (-1, reg)
              else if Z.land flags EI_NOPURGE =? 0 then
                let! (_, reg) := lift_opt (ei_reg_purge reg) in Ret (0, reg)
              else Ret (0, reg)
          end
      end
  | _, _ => Ret (-1, reg)
  end.
End Ticks.
