(* ===== verification/Restore.v ===== *)
(** * registry/reg_restore.c: the registry from a table of Mnesia *)

From stdpp Require Import gmap fin_maps.
From S2P Require Import Prelude Mem PutGet Ext Headers Ints Atom Data Ids Term XBuff Proc PortIO Epmd Connect Message Prime Hash Reg Backup.

(** What [malloc] gives while one record is taken: the address of an inode if there is
    one, whether there is a bucket, the address of the value. *)
Record supply := Supply { s_inode : option Z; s_bucket : bool; s_value : Z }.

(** ** Decoding into a block

    The number of bytes that [ei_decode_string] stores, the zero included, whether or
    not it fails. *)
Fixpoint chars_stored (n : nat) (s i : Z) : D Z :=
  match n with
  | O => retD (i + 1)
  | S n =>
      let+ (etype, s) := get8 s in
      if negb (etype =? ERL_SMALL_INTEGER_EXT) then retD (i + 1) else
      let+ (_, s) := get8 s in
      chars_stored n s (i + 1)
  end.

Definition string_stored (index : Z) : D Z :=
  let+ (tag, s) := get8 index in
  if tag =? ERL_STRING_EXT then
    let+ (n, _) := get16be s in retD (n + 1)
  else if tag =? ERL_LIST_EXT then
    let+ (n, s) := get32be s in chars_stored (Z.to_nat n) s 0
  else if tag =? ERL_NIL_EXT then retD 1
  else retD 0.

(** The block that [bs] is stored at the start of. *)
Definition store_at_start (bs blk : list Z) : list Z := bs ++ drop (length bs) blk.

Definition decode_string_into (blk : list Z) (index : Z) : D (cres (list Z)) :=
  let+ n := string_stored index in
  if len blk <? n then ubD else
  let- (i, t) := ei_decode_string true 0 index in
  match t with
  | Some t => retD (Done i (store_at_start (t ++ [0]) blk))
  | None => ubD
  end.

Definition decode_binary_into (blk : list Z) (index : Z) : D (cres (list Z)) :=
  let- (i, (b, _)) := ei_decode_binary true 0 index in
  match b with
  | Some b => if len blk <? len b then ubD else retD (Done i (store_at_start b blk))
  | None => ubD
  end.

Definition decode_long (index : Z) : D (cres Z) :=
  let- (i, v) := ei_decode_long true 0 index in
  match v with Some v => retD (Done i v) | None => ubD end.

(** Three longs, as [{size, ...}] and the records have them. *)
Definition decode_longs (index : Z) : D (cres (Z * Z * Z)) :=
  let- (i, a) := decode_long index in
  let- (i, b) := decode_long i in
  let- (i, c) := decode_long i in
  retD (Done i (a, b, c)).

(** [{rex, {size, Pid, Count, MaxKey, MaxObj}}]. [left] is what a failing
    [ei_decode_pid] leaves in [*mnesia]. *)
Definition rex_size (left : erlang_pid) : D (bool * (erlang_pid * (Z * Z * Z))) :=
  let+ r :=
    (let- (i, _) := ei_decode_version true 0 0 in
     let- (i, _) := decode_tuple_of 2 i in
     let- (i, _) := decode_tag 64 str_rex i in
     let- (i, _) := decode_tuple_of 5 i in
     decode_tag 64 EI_MNESIA_SIZE i) in
  match r with
  | Fail => retD (false, (no_pid, (0, 0, 0)))
  | Done i _ =>
      let+ r := ei_decode_pid true 0 i in
      match r with
      | Done i (Some p) =>
          let+ r := decode_longs i in
          match r with
          | Done _ v => retD (true, (p, v))
          | Fail => retD (false, (p, (0, 0, 0)))
          end
      | _ => retD (false, (left, (0, 0, 0)))
      end
  end.

Definition fits_long (z : Z) : bool := int64 z =? z.

Section Ticks.
Context (ticks : nat) (sscanf_lf : list Z -> option Z).

Definition mn_start_restore (left : erlang_pid) (fd : Z) (self : erlang_pid) (m : erlang_msg)
    (ml : Z) (mntab : list Z) : proc (Z * (erlang_pid * (Z * Z * Z))) :=
  start_call ticks (rex_size left) EI_MNESIA_RESTORE fd self mntab m ml (no_pid, (0, 0, 0)).

(** ** Records *)

(** A setter, whose result is not looked at. *)
Definition then_set (f : option (Z * option ei_reg)) : proc ei_reg :=
  match f with Some (_, Some r) => Ret r | _ => Undef end.

(** [if (!(objbuf = malloc(objlen))) return -1; if (decode(...)) return -1;] *)
Definition decode_block (decode : list Z -> D (cres (list Z))) (objlen : Z) (msgbuf : list Z)
    : proc (option (list Z)) :=
  let! objbuf := ask (r_malloc (uint64 objlen)) in
  match objbuf with
  | None => Ret None
  | Some objbuf =>
      let! c := lift_D (decode objbuf) msgbuf in
      Ret (match c with Done _ b => Some b | Fail => None end)
  end.

(** The switch on the type of the record: the result, the registry and the blocks. *)
Definition insert_value (a : supply) (r : ei_reg) (h : blocks) (msgbuf : list Z)
    (index objlen objtype : Z) (key : list Z) : proc (Z * ei_reg * blocks) :=
  let set f h : proc (Z * ei_reg * blocks) := let! r := then_set f in Ret (0, r, h) in
  let t := Z.land (int32 objtype) EI_REG_TYPEMASK in
  let failed := Ret (-1, r, h) in
  let reg := Some r in let key := Some key in
  if t =? EI_INT then
    let! c := lift_D (decode_long index) msgbuf in
    match c with
    | Fail => failed
    | Done _ i => set (ei_reg_setival (s_inode a) (s_bucket a) reg key i) h
    end
  else if t =? EI_FLT then
    let! c := lift_D (ei_decode_double sscanf_lf true 0 index) msgbuf in
    match c with
    | Done _ (Some f) => set (ei_reg_setfval (s_inode a) (s_bucket a) reg key f) h
    | _ => failed
    end
  else if t =? EI_STR then
    if 0 <? objlen then
      let! b := decode_block (fun blk => decode_string_into blk index) objlen msgbuf in
      match b with
      | None => failed
      | Some b => set (ei_reg_setsval (s_inode a) (s_bucket a) reg key (s_value a, b))
                    (<[s_value a := b]> h)
      end
    else
      let! c := lift_D (decode_long index) msgbuf in
      match c with
      | Fail => failed
      | Done _ _ => set (ei_reg_setsval (s_inode a) (s_bucket a) reg key (0, [])) h
      end
  else if t =? EI_BIN then
    if 0 <? objlen then
      let! b := decode_block (fun blk => decode_binary_into blk index) objlen msgbuf in
      match b with
      | None => failed
      | Some b => set (ei_reg_setpval (s_inode a) (s_bucket a) reg key (s_value a) (int32 objlen))
                    (<[s_value a := b]> h)
      end
    else
      let! c := lift_D (decode_long index) msgbuf in
      match c with
      | Fail => failed
      | Done _ i => set (ei_reg_setpval (s_inode a) (s_bucket a) reg key i 0) h
      end
  else failed.

(** The lengths and the key in front of the value. *)
Definition insert_head (keybuf : list Z) (index : Z) : D (cres (Z * Z * list Z)) :=
  let- (i, (keylen, objlen, objtype)) := decode_longs index in
  let- (i, keybuf) := decode_string_into keybuf i in
  retD (Done i (objlen, objtype, keybuf)).

Definition mn_decode_insert (a : supply) (r : ei_reg) (h : blocks) (msgbuf : list Z) (index : Z)
    (keybuf : list Z) : proc (Z * ei_reg * blocks * list Z) :=
  let! c := lift_D (insert_head keybuf index) msgbuf in
  match c with
  | Fail => Ret (-1, r, h, keybuf)
  | Done index (objlen, objtype, keybuf) =>
      let! (c, r, h) := insert_value a r h msgbuf index objlen objtype keybuf in
      Ret (c, r, h, keybuf)
  end.

(** [{restore, ...}], a tuple of six. *)
Definition record_head : D (cres unit) :=
  let- (i, _) := ei_decode_version true 0 0 in
  let- (i, _) := decode_tuple_of 6 i in
  decode_tag 32 EI_MNESIA_RECV i.

(** [for (i=0; i<count; i++) ...], [n] rounds left; [false] is the goto. *)
Fixpoint restore_records (sup : nat -> supply) (fd len : Z) (n : nat) (i : Z) (r : ei_reg)
    (h : blocks) (msgbuf keybuf : list Z) (m : erlang_msg) (ml : Z)
    : proc (bool * ei_reg * blocks * erlang_msg * Z) :=
  match n with
  | O => Ret (true, r, h, m, ml)
  | S n =>
      if i =? int_max then Undef else
      let! got := recv_message ticks fd msgbuf len m ml in
      let m := msg got in let ml := msglen got in let msgbuf := mbuf got in
      let failed r h := Ret (false, r, h, m, ml) in
      if rc got <? 0 then failed r h
      else if negb (msgtype m =? ERL_SEND) then failed r h else
      let! c := lift_D record_head msgbuf in
      match c with
      | Fail => failed r h
      | Done index _ =>
          let! (c, r, h, keybuf) :=
            mn_decode_insert (sup (Z.to_nat i)) r h msgbuf index keybuf in
          if negb (c =? 0) then failed r h
          else restore_records sup fd len n (i + 1) r h msgbuf keybuf m ml
      end
  end.

(** ** [ei_reg_restore] *)

Definition clean_obj (r : ei_reg) (p : Z) : option ei_reg :=
  if p =? 0 then Some r else
  match objs r !! p with
  | None => None
  | Some o => Some (set_obj r p (Obj (Z.land (attr o) (Z.lnot EI_DIRTY)) (obj_size o) (val o)))
  end.

(** [ei_hash_foreach(reg->tab,clean_obj)]: [clean_obj] always returns 0. *)
Fixpoint clean_buckets (r : ei_reg) (bs : list ei_bucket) : option ei_reg :=
  match bs with
  | [] => Some r
  | b :: bs => r ← clean_obj r (value b); clean_buckets r bs
  end.
Definition clean_all (r : ei_reg) : option ei_reg := clean_buckets r (concat (tab (reg_tab r))).

Definition send_records_request (self : erlang_pid) : M Z :=
  let* index := then_encode ei_encode_version 0 in
  let* index := then_encode (ei_encode_tuple_header 2) index in
  let* index := then_encode (ei_encode_atom EI_MNESIA_SEND) index in
  then_encode (ei_encode_pid self) index.

(** From the request for the records to the last of them, with the two buffers. *)
Definition restore_all (sup : nat -> supply) (fd len count : Z) (self mnesia : erlang_pid)
    (r : ei_reg) (h : blocks) (msgbuf keybuf : list Z) (m : erlang_msg) (ml : Z)
    : proc (bool * ei_reg * blocks * erlang_msg * Z) :=
  let! (index, msgbuf) := lift_M (send_records_request self) msgbuf in
  let! c := ei_send_encoded fd mnesia msgbuf index in
  if negb (c =? 0) then Ret (false, r, h, m, ml)
  else restore_records sup fd len (Z.to_nat count) 0 r h msgbuf keybuf m ml.

(** [if (!(keybuf = malloc(maxkey+1))) goto restore_failure; ...], and the end. *)
Definition restore_into (sup : nat -> supply) (fd len count maxkey : Z) (self mnesia : erlang_pid)
    (r : ei_reg) (h : blocks) (msgbuf : list Z) (m : erlang_msg) (ml : Z)
    : proc (Z * option ei_reg * blocks) :=
  let! keybuf := ask (r_malloc (uint64 (maxkey + 1))) in
  let! (ok, r, h, m, ml) :=
    match keybuf with
    | None => Ret (false, r, h, m, ml)
    | Some keybuf => restore_all sup fd len count self mnesia r h msgbuf keybuf m ml
    end in
  if negb ok then
    let! _ := ei_send_exit fd self mnesia restore_failure in Ret (-1, Some r, h)
  else
  let! c := mn_unlink ticks fd m ml in
  if negb (c =? 0) then Ret (-1, Some r, h) else
  let! r := lift_opt (clean_all r) in Ret (0, Some r, h).

(** The result, the registry and the blocks. [sup] is what [malloc] gives for each
    record. A sum of longs that does not fit is undefined. *)
Definition ei_reg_restore (sup : nat -> supply) (left : erlang_pid) (h : blocks) (m : erlang_msg)
    (ml fd : Z) (reg : option ei_reg) (mntab : option (list Z))
    : proc (Z * option ei_reg * blocks) :=
  match reg, mntab with
  | Some r, Some mntab =>
      let! ec := ei_fd_to_cnode fd in
      match ec with
      | None => Ret (-1, reg, h)
      | Some ec =>
          if MAXATOMLEN_UTF8 <=? strlen (thisnodename ec) then Undef else
          let self := self_pid ec fd in
          let! (c, (mnesia, (count, maxkey, maxobj))) :=
            mn_start_restore left fd self m ml mntab in
          if negb (c =? 0) then
            if strlen (pid_node mnesia) =? 0 then Ret (-1, reg, h)
            else let! _ := ei_send_exit fd self mnesia bad_start in Ret (-1, reg, h)
          else if count <=? 0 then
            let! _ := ei_send_exit fd self mnesia nothing_to_do in Ret (0, reg, h)
          else
          if negb (fits_long (maxkey + maxobj) && fits_long (maxkey + maxobj + 512)
                   && fits_long (maxkey + 1)) then Undef else
          let n := int32 (maxkey + maxobj + 512) in
          let! msgbuf := message_buffer n in
          match msgbuf with
          | None => let! _ := ei_send_exit fd self mnesia no_space in Ret (-1, reg, h)
          | Some msgbuf => restore_into sup fd n count maxkey self mnesia r h msgbuf m ml
          end
      end
  | _, _ => Ret (-1, reg, h)
  end.
End Ticks.
