(* ===== verification/BackupOk.v ===== *)
(** * Backup: the bytes of the conversation with Mnesia, and what is made of them

    What a live object holds is a [datum]; the operations of a dump and the records
    of a restore are messages that carry one. *)

From stdpp Require Import gmap fin_maps.
From S2P Require Import Prelude Mem PutGet Ext Headers Ints Atom Data Ids Term XBuff Proc Session PortIO Epmd Connect ConnectOk Message MessageOk Prime Hash HashOk Reg RegOk Backup Restore.

(** ** Data *)

(** A string without its zero, the NULL string, the bytes of a binary, the pointer of
    a binary of no bytes. *)
Inductive datum :=
  | d_int (i : Z)
  | d_flt (f : Z)
  | d_str (s : list Z)
  | d_null
  | d_bin (b : list Z)
  | d_ptr (p : Z).

Definition datum_type (d : datum) : Z :=
  match d with
  | d_int _ => EI_INT | d_flt _ => EI_FLT | d_str _ | d_null => EI_STR | d_bin _ | d_ptr _ => EI_BIN
  end.

Definition datum_size (d : datum) : Z :=
  match d with d_str s => len s + 1 | d_bin b => len b | _ => 0 end.

Definition ext_datum (d : datum) : list Z :=
  match d with
  | d_int i | d_ptr i => ext_longlong i
  | d_flt f => ext_double f
  | d_str s => ext_string s
  | d_null => ext_longlong 0
  | d_bin b => ext_binary b
  end.

(** What can be sent: a string is sent as such up to 65535 characters. *)
Definition datum_ok (d : datum) : Prop :=
  match d with
  | d_int i | d_ptr i => is_int64 i
  | d_flt f => is_uint64 f /\ isfinite f = true
  | d_str s => Forall is_byte s /\ c_str s = s /\ len s <= 65535
  | d_null => True
  | d_bin b => Forall is_byte b /\ 1 <= len b <= ERL_MAX
  end.

(** The value of an object, with the blocks its pointers lead to. *)
Definition datum_of (h : blocks) (o : ei_reg_obj) : option datum :=
  let t := ei_reg_typeof o in
  if t =? EI_INT then d_int <$> get_i (val o)
  else if t =? EI_FLT then d_flt <$> get_f (val o)
  else if t =? EI_STR then
    if 0 <? obj_size o then (s ← get_s (val o); b ← h !! s; Some (d_str (c_str b))) else Some d_null
  else if t =? EI_BIN then
    if 0 <? obj_size o then
      (p ← get_p (val o); b ← h !! p;
       if obj_size o <=? len b then Some (d_bin (take (Z.to_nat (obj_size o)) b)) else None)
    else d_ptr <$> get_p (val o)
  else None.

Definition holds (h : blocks) (o : ei_reg_obj) (d : datum) : Prop :=
  datum_of h o = Some d /\ obj_size o = datum_size d /\ 0 <= attr o < 256.

(** A key is sent as a string too. *)
Definition key_ok (k : list Z) : Prop := Forall is_byte k /\ c_str k = k /\ len k <= 65535.

(** ** Messages *)

Record entry := Entry { e_key : list Z; e_attr : Z; e_val : datum }.

Definition entry_ok (e : entry) : Prop :=
  key_ok (e_key e) /\ 0 <= e_attr e < 256 /\ datum_ok (e_val e).

Inductive op := op_write (e : entry) | op_delete (k : list Z).

Definition op_ok (o : op) : Prop :=
  match o with op_write e => entry_ok e | op_delete k => key_ok k end.

(** [{write, Key, KeySize, Attr, Size, Val}] and [{delete, Key}] *)
Definition op_parts (o : op) : list (list Z) :=
  match o with
  | op_write (Entry k a d) =>
      [ext_version; ext_tuple_header 6; ext_atom_latin1 EI_MNESIA_WRITE; ext_string k;
       ext_longlong (len k + 1); ext_longlong a; ext_longlong (datum_size d); ext_datum d]
  | op_delete k =>
      [ext_version; ext_tuple_header 2; ext_atom_latin1 EI_MNESIA_DELETE; ext_string k]
  end.
Definition op_payload (o : op) : list Z := concat (op_parts o).

(** [{restore, KeySize, ValSize, ValType, Key, Val}] *)
Definition record_parts (e : entry) : list (list Z) :=
  [ext_version; ext_tuple_header 6; ext_atom_latin1 EI_MNESIA_RECV; ext_longlong (len (e_key e) + 1);
   ext_longlong (datum_size (e_val e)); ext_longlong (e_attr e); ext_string (e_key e);
   ext_datum (e_val e)].
Definition record_payload (e : entry) : list Z := concat (record_parts e).

(** The call of [fun_], and the requests to the process it starts. *)
Definition start_parts (self : erlang_pid) (fun_ mntab : list Z) : list (list Z) :=
  [ext_version; ext_tuple_header 2; ext_pid self; ext_tuple_header 5; ext_atom_latin1 str_call;
   ext_atom_latin1 EI_MNESIA_MODULE; ext_atom_latin1 fun_; ext_list_header 2;
   ext_atom_latin1 (c_str mntab); ext_pid self; ext_list_header 0; ext_atom_latin1 str_user].
Definition ask_parts (what : list Z) (self : erlang_pid) : list (list Z) :=
  [ext_version; ext_tuple_header 2; ext_atom_latin1 what; ext_pid self].

(** [{rex, Pid}], [{ok, Pid}] and [{rex, {size, Pid, Count, MaxKey, MaxObj}}] *)
Definition tagged_pid (tag : list Z) (p : erlang_pid) : list Z :=
  ext_version ++ ext_tuple_header 2 ++ ext_atom_latin1 tag ++ ext_pid p.
Definition size_payload (p : erlang_pid) (count maxkey maxobj : Z) : list Z :=
  ext_version ++ ext_tuple_header 2 ++ ext_atom_latin1 str_rex ++ ext_tuple_header 5 ++
  ext_atom_latin1 EI_MNESIA_SIZE ++ ext_pid p ++
  ext_longlong count ++ ext_longlong maxkey ++ ext_longlong maxobj.

(** ** The lengths *)

Lemma len_ext_longlong_max p : is_int64 p -> len (ext_longlong p) <= 11.
Proof.
  intros Hp. unfold ext_longlong. destruct (_ && _); [cbn; lia |]. destruct (_ && _); [cbn; lia |].
  rewrite len_ext_big. unfold is_int64 in Hp.
  assert (Hd : forall k n, len (digits k n) <= Z.of_nat k).
  { intros k. induction k as [| k IH]; intros n; cbn [digits length]; [lia |].
    destruct (n =? 0); cbn [length]; [lia |]. specialize (IH (n / 256)). lia. }
  specialize (Hd 8%nat (Z.abs p)). lia.
Qed.

Lemma len_ext_longlong_int p : 0 <= p <= ERL_MAX -> len (ext_longlong p) <= 5.
Proof.
  intros Hp. unfold ext_longlong, ERL_MIN. destruct (_ && _); [cbn; lia |].
  rewrite (proj2 (Z.leb_le p ERL_MAX)), (proj2 (Z.leb_le _ p)); [cbn; lia | | lia].
  change (- Z.shiftl 1 27) with (-134217728). lia.
Qed.

Lemma len_ext_string_max p : len p <= 65535 -> len (ext_string p) <= 3 + len p.
Proof.
  intros Hp. unfold ext_string. destruct (Z.eqb_spec (len p) 0); [cbn; lia |].
  rewrite (proj2 (Z.leb_le _ 0xffff)) by lia. autorewrite with len. lia.
Qed.

(** ** Writing *)

(** The encoders in a row fill the start of a buffer. *)
Lemma request_ok es bss blk : Forall2 Encodes es bss -> fits blk 0 (concat bss) ->
  len (concat bss) <= int_max ->
  encode_all es 0 blk = Some (len (concat bss), splice blk 0 (concat bss)).
Proof.
  intros He Hf Hl. pose proof (encode_all_ok es bss [] blk He Hf Hl) as H.
  by rewrite splice_nil in H.
Qed.

Lemma encode_long_ok' p : is_int64 p -> Encodes (ei_encode_long p) (ext_longlong p).
Proof. apply encode_longlong_ok. Qed.

(** A chain of encoders is [encode_all] of their list. *)
Ltac chain_tac :=
  cbn [encode_all]; unfold bindM, retM;
  repeat match goal with
  | |- context [match then_encode ?e ?i ?s with _ => _ end] =>
      destruct (then_encode e i s) as [[? ?] |]; [| reflexivity]
  end; repeat case_match; reflexivity.

Definition start_encoders (self : erlang_pid) (fun_ mntab : list Z) :=
  [ei_encode_version; ei_encode_tuple_header 2; ei_encode_pid self; ei_encode_tuple_header 5;
   ei_encode_atom str_call; ei_encode_atom EI_MNESIA_MODULE; ei_encode_atom fun_;
   ei_encode_list_header 2; ei_encode_atom mntab; ei_encode_pid self; ei_encode_empty_list;
   ei_encode_atom str_user].
Lemma start_request_all self f t s : start_request self f t s = encode_all (start_encoders self f t) 0 s.
Proof. unfold start_request, start_encoders. chain_tac. Qed.

Definition ask_encoders (what : list Z) (self : erlang_pid) :=
  [ei_encode_version; ei_encode_tuple_header 2; ei_encode_atom what; ei_encode_pid self].
Lemma commit_request_all self s :
  commit_request self s = encode_all (ask_encoders EI_MNESIA_COMMIT self) 0 s.
Proof. unfold commit_request, ask_encoders. chain_tac. Qed.
Lemma send_records_request_all self s :
  send_records_request self s = encode_all (ask_encoders EI_MNESIA_SEND self) 0 s.
Proof. unfold send_records_request, ask_encoders. chain_tac. Qed.

Definition delete_encoders (k : list Z) :=
  [ei_encode_version; ei_encode_tuple_header 2; ei_encode_atom EI_MNESIA_DELETE; ei_encode_string k].
Lemma delete_request_all k s : delete_request k s = encode_all (delete_encoders k) 0 s.
Proof. unfold delete_request, delete_encoders. chain_tac. Qed.

Lemma known_atom a : a_name_ok a -> c_str a = a -> Encodes (ei_encode_atom a) (ext_atom_latin1 a).
Proof. intros Ha Hc. pose proof (encode_atom_ok a Ha) as H. by rewrite Hc in H. Qed.
Ltac rows_tac t :=
  cbv [start_encoders start_parts ask_encoders ask_parts delete_encoders op_parts];
  repeat (constructor; [t |]); constructor.
Ltac known_atom_tac := apply known_atom; [split; [bytes_tac | done] | done].

Lemma start_encodes self f t : a_pid_ok self -> a_name_ok f -> c_str f = f -> a_name_ok t ->
  Forall2 Encodes (start_encoders self f t) (start_parts self f t).
Proof.
  intros [Hp _] Hf Hfc Ht. pose proof (encode_pid_ok self Hp).
  rows_tac ltac:(first [apply encode_version_ok | by apply encode_tuple_header_ok
    | by apply (encode_list_header_ok 2) | by apply (encode_list_header_ok 0) | done
    | by apply known_atom | by apply encode_atom_ok | known_atom_tac]).
Qed.

Lemma ask_encodes what self : a_pid_ok self -> a_name_ok what -> c_str what = what ->
  Forall2 Encodes (ask_encoders what self) (ask_parts what self).
Proof.
  intros [Hp _] Hw Hc. pose proof (encode_pid_ok self Hp).
  rows_tac ltac:(first [apply encode_version_ok | by apply encode_tuple_header_ok | done
    | by apply known_atom]).
Qed.

Lemma delete_encodes k : key_ok k ->
  Forall2 Encodes (delete_encoders k) (op_parts (op_delete k)).
Proof.
  intros (Hb & Hc & Hl). pose proof (encode_string_ok k Hb) as Hs.
  rewrite Hc in Hs. unfold strlen in Hs. rewrite Hc in Hs. unfold int_max in Hs.
  rows_tac ltac:(first [apply encode_version_ok | by apply encode_tuple_header_ok
    | apply Hs; lia | known_atom_tac]).
Qed.

(** The value of an object that holds a datum. *)
Lemma write_value_all h o d : holds h o d -> datum_ok d ->
  (forall p b, h !! p = Some b -> Forall is_byte b) ->
  exists e, Encodes e (ext_datum d) /\ forall index s,
    write_value h o index s
    = (let* index := then_encode e index in retM (Some index)) s.
Proof.
  intros (Hd & Hs & _) Hok Hb. unfold datum_of in Hd. unfold write_value.
  destruct (ei_reg_typeof o =? EI_INT).
  { destruct (get_i (val o)) as [i |]; [| done]. injection Hd as <-.
    exists (ei_encode_long i). split; [by apply encode_long_ok' | done]. }
  destruct (ei_reg_typeof o =? EI_FLT).
  { destruct (get_f (val o)) as [f |]; [| done]. injection Hd as <-.
    exists (ei_encode_double f). split; [by apply encode_double_ok, Hok | done]. }
  destruct (ei_reg_typeof o =? EI_STR).
  { destruct (0 <? obj_size o).
    - destruct (get_s (val o)) as [p |]; [| done]. cbn [mbind option_bind] in *.
      destruct (h !! p) as [b |] eqn:Hp; [| done]. injection Hd as <-. destruct Hok as (? & ? & ?).
      exists (ei_encode_string b). split; [apply encode_string_ok; [by eapply Hb | unfold strlen, int_max; lia] | done].
    - injection Hd as <-. exists (ei_encode_long 0). split; [apply (encode_long_ok' 0); unfold is_int64; lia | done]. }
  destruct (ei_reg_typeof o =? EI_BIN); [| done].
  destruct (0 <? obj_size o) eqn:Hz.
  - destruct (get_p (val o)) as [p |]; [| done]. cbn [mbind option_bind] in *.
    destruct (h !! p) as [b |] eqn:Hp; [| done]. cbn [mbind option_bind] in Hd.
    destruct (Z.leb_spec (obj_size o) (len b)); [| done]. injection Hd as <-.
    exists (ei_encode_binary b (obj_size o)). split; [| done].
    apply encode_binary_prefix_ok; [by eapply Hb | lia].
  - destruct (get_p (val o)) as [p |]; [| done]. injection Hd as <-.
    exists (ei_encode_long p). split; [by apply encode_long_ok' | done].
Qed.

Lemma datum_size_ok d : datum_ok d -> 0 <= datum_size d <= ERL_MAX.
Proof. change ERL_MAX with 134217727. destruct d; cbn; try change ERL_MAX with 134217727; lia. Qed.

(** The sizes that the sources compute are enough: 32 is no less than what stands
    around the key and the value. *)
Lemma write_room k a d : key_ok k -> 0 <= a < 256 -> datum_ok d ->
  len (op_payload (op_write (Entry k a d))) <= 32 + (len k + 1) + datum_size d.
Proof.
  intros (_ & _ & Hk) Ha Hd. unfold op_payload. cbn [op_parts concat]. rewrite !len_app.
  pose proof (datum_size_ok d Hd). change ERL_MAX with 134217727 in *.
  pose proof (len_ext_longlong_type a Ha). pose proof (len_ext_string_max k Hk).
  pose proof (len_ext_longlong_int (len k + 1)). pose proof (len_ext_longlong_int (datum_size d)).
  change ERL_MAX with 134217727 in *.
  change (len ext_version) with 1. change (len (ext_tuple_header 6)) with 2.
  change (len (ext_atom_latin1 EI_MNESIA_WRITE)) with 7. change (len []) with 0.
  assert (len (ext_datum d) + len (ext_longlong (datum_size d)) <= datum_size d + 13); [| lia].
  destruct d; cbn [ext_datum datum_size datum_ok] in *.
  - pose proof (len_ext_longlong_max i Hd). change (len (ext_longlong 0)) with 2. lia.
  - change (len (ext_double f)) with 9. change (len (ext_longlong 0)) with 2. lia.
  - pose proof (len_ext_string_max s). lia.
  - change (len (ext_longlong 0)) with 2. lia.
  - unfold ext_binary. autorewrite with len. change (len (be32 (len b))) with 4. lia.
  - pose proof (len_ext_longlong_max p Hd). change (len (ext_longlong 0)) with 2. lia.
Qed.

Lemma delete_room k : key_ok k -> len (op_payload (op_delete k)) <= len k + 32.
Proof.
  intros (_ & _ & Hk). unfold op_payload. cbn [op_parts concat]. rewrite !len_app.
  pose proof (len_ext_string_max k Hk).
  change (len ext_version) with 1. change (len (ext_tuple_header 2)) with 2.
  change (len (ext_atom_latin1 EI_MNESIA_DELETE)) with 8. cbn [length]. lia.
Qed.

Lemma record_room e : entry_ok e ->
  len (record_payload e) <= len (e_key e) + datum_size (e_val e) + 40.
Proof.
  destruct e as [k a d]. intros (Hk & Ha & Hd). pose proof (write_room k a d Hk Ha Hd) as Hw.
  unfold op_payload, record_payload in *. cbn [op_parts record_parts concat e_key e_attr e_val] in *.
  rewrite !len_app in *. change (len (ext_atom_latin1 EI_MNESIA_WRITE)) with 7 in Hw.
  change (len (ext_atom_latin1 EI_MNESIA_RECV)) with 9. cbn [length] in *. lia.
Qed.

Lemma write_request_ok h k o d blk :
  key_ok k -> holds h o d -> datum_ok d -> (forall p b, h !! p = Some b -> Forall is_byte b) ->
  let bs := op_payload (op_write (Entry k (attr o) d)) in
  fits blk 0 bs -> len bs <= int_max ->
  write_request h k o blk = Some (Some (len bs), splice blk 0 bs).
Proof.
  intros (Hkb & Hkc & Hkl) Hh Hok Hb bs Hf Hl.
  destruct (write_value_all h o d Hh Hok Hb) as (e & He & Hw). destruct Hh as (_ & Hs & Ha).
  pose proof (datum_size_ok d Hok). change ERL_MAX with 134217727 in *.
  pose proof (encode_string_ok k Hkb) as Hks.
  rewrite Hkc in Hks. unfold strlen in Hks. rewrite Hkc in Hks. unfold int_max in Hks.
  set (es := [ei_encode_version; ei_encode_tuple_header 6; ei_encode_atom EI_MNESIA_WRITE;
    ei_encode_string k; ei_encode_long (len k + 1); ei_encode_long (attr o);
    ei_encode_long (obj_size o); e]).
  assert (Hes : Forall2 Encodes es (op_parts (op_write (Entry k (attr o) d)))).
  { unfold es. rewrite Hs. rows_tac ltac:(first [apply encode_version_ok | by apply encode_tuple_header_ok
      | apply Hks; lia | done | known_atom_tac | apply encode_long_ok'; unfold is_int64; lia]). }
  assert (Hall : write_request h k o blk = (let* i := encode_all es 0 in retM (Some i)) blk).
  { unfold write_request, strlen. rewrite Hkc, int32_small by (unfold is_int32; lia).
    unfold es. cbn [encode_all]. unfold bindM, retM.
    repeat match goal with
    | |- context [match then_encode ?e ?i ?s with _ => _ end] =>
        destruct (then_encode e i s) as [[? ?] |] eqn:?; [| reflexivity]
    end; rewrite Hw; unfold bindM, retM; by repeat case_match. }
  rewrite Hall. by erewrite bindM_Some by (by apply request_ok).
Qed.

(** ** Reading *)

(** The decoder takes exactly [bs], wherever they are in the buffer. *)
Definition reads {A} (f : Z -> D (cres A)) (bs : list Z) (a : A) : Prop :=
  forall i s, 0 <= i -> i + len bs <= int_max -> at_ s i bs -> f i s = Some (Done (i + len bs) a).

Lemma reads_bind {A B} (f : Z -> D (cres A)) (k : A -> Z -> D (cres B)) bs rest a b :
  reads f bs a -> reads (k a) rest b ->
  reads (fun i => bindC (f i) (fun i x => k x i)) (bs ++ rest) b.
Proof.
  intros Hf Hk i s Hi Hl Ha. rewrite len_app in *. apply at_app in Ha as [H1 H2].
  erewrite bindC_Done by (apply Hf; done || lia). rewrite Hk by (done || lia). do 2 f_equal. lia.
Qed.

Lemma reads_last {A B} (f : Z -> D (cres A)) (g : A -> B) bs a :
  reads f bs a -> reads (fun i => bindC (f i) (fun i x => retD (Done i (g x)))) bs (g a).
Proof. intros Hf i s Hi Hl Ha. by erewrite bindC_Done by (by apply Hf). Qed.

Lemma reads_of {A} (d : bool -> Z -> Z -> D (cres (option A))) bs a :
  Decodes d bs a -> reads (d true 0) bs (Some a).
Proof. intros Hd i s Hi Hl Ha. by apply Hd. Qed.

Lemma reads_version : reads (ei_decode_version true 0) ext_version (Some ERL_VERSION_MAGIC).
Proof. apply reads_of, decode_version_ok. Qed.

Lemma reads_tuple_head n : is_int32 n -> 0 <= n -> reads (decode_tuple_of n) (ext_tuple_header n) tt.
Proof.
  intros H32 Hn i s Hi Hl Ha. unfold decode_tuple_of.
  erewrite bindC_Done by (by apply (decode_tuple_header_ok n)). by rewrite bool_decide_true.
Qed.

Lemma reads_tag room name : a_name_ok name -> c_str name = name -> len name < room ->
  reads (decode_tag room name) (ext_atom_latin1 name) tt.
Proof.
  intros [Hb Hm] Hc Hr i s Hi Hl Ha. unfold strlen in Hm. rewrite Hc in Hm.
  unfold decode_tag, ei_decode_atom, ext_atom_latin1 in *.
  pose proof (len_utf8_of_latin1 name). unfold MAXATOMLEN in *.
  erewrite bindC_Done.
  2:{ apply (decode_atom_latin1 (128 <=? len name) name); [done | | done | done | done | done].
      split; [by apply utf8_of_latin1_byte |]. destruct (Z.leb_spec 128 (len name)); lia. }
  cbn [at_text]. rewrite (proj2 (Z.leb_gt room _)) by done.
  unfold strcmp_eq. by rewrite bool_decide_true.
Qed.
Ltac reads_tag_tac := apply reads_tag; [split; [bytes_tac | done] | done | done].

Lemma reads_pid p : a_pid_ok p -> reads (ei_decode_pid true 0) (ext_pid p) (Some (pid_sent p)).
Proof. intros [? ?]. by apply reads_of, decode_pid_ok. Qed.

Lemma reads_long v : is_int64 v -> reads decode_long (ext_longlong v) v.
Proof.
  intros Hv i s Hi Hl Ha. unfold decode_long, ei_decode_long.
  by erewrite bindC_Done by (by apply (decode_longlong_ok v Hv)).
Qed.

Lemma reads_longs a b c : is_int64 a -> is_int64 b -> is_int64 c ->
  reads decode_longs (ext_longlong a ++ ext_longlong b ++ ext_longlong c) (a, b, c).
Proof.
  intros Ha Hb Hc. unfold decode_longs.
  eapply (reads_bind decode_long); [by apply reads_long |].
  eapply (reads_bind decode_long); [by apply reads_long |].
  by apply (reads_last decode_long (fun z => (a, b, z))), reads_long.
Qed.

(** A whole buffer that starts with what is read. *)
Lemma reads_start {A} (f : Z -> D (cres A)) bs a s : reads f bs a -> len bs <= int_max ->
  at_ s 0 bs -> f 0 s = Some (Done (len bs) a).
Proof. intros Hf Hl Ha. rewrite (Hf 0 s) by (done || lia). done. Qed.

Lemma pid_type p s i : a_pid_ok p -> 0 <= i -> at_ s i (ext_pid p) ->
  exists n, ei_get_type_internal 0 0 i s = Some (ERL_PID_EXT, n).
Proof.
  intros [Hn Hc] Hi Ha. unfold ext_pid, pid_tag in Ha. unfold ei_get_type_internal.
  destruct (3 <? pid_creation p); at_split; rstep; ctests; by eexists.
Qed.

Lemma reads_rex_pid p : a_pid_ok p -> len (ext_pid p) <= 1100 ->
  forall s, at_ s 0 (tagged_pid str_rex p) -> rex_pid s = Some (true, pid_sent p).
Proof.
  intros Hp Hl s Ha. unfold rex_pid.
  assert (Hr : reads (fun i => let- (i, _) := ei_decode_version true 0 i in
      let- (i, _) := decode_tuple_of 2 i in let- (i, _) := decode_tag 64 str_rex i in
      let+ (type, _) := ei_get_type_internal 0 0 i in
      if negb (type =? ERL_PID_EXT) then retD Fail else ei_decode_pid true 0 i)
    (tagged_pid str_rex p) (Some (pid_sent p))).
  { unfold tagged_pid.
    eapply (reads_bind (ei_decode_version true 0)); [apply reads_version |].
    eapply (reads_bind (decode_tuple_of 2)); [by apply reads_tuple_head |].
    eapply (reads_bind (decode_tag 64 str_rex)); [reads_tag_tac |].
    intros i s0 Hi Hm Hat. destruct (pid_type p s0 i Hp Hi Hat) as [n Hty].
    erewrite bindD_Some by done. cbn [negb Z.eqb]. by apply reads_pid. }
  erewrite bindD_Some.
  2:{ apply (reads_start _ _ _ s Hr); [| done]. unfold tagged_pid. rewrite !len_app.
      change (len ext_version) with 1. change (len (ext_tuple_header 2)) with 2.
      change (len (ext_atom_latin1 str_rex)) with 5. unfold int_max. lia. }
  done.
Qed.

Lemma is_ok_ok p s : len (ext_pid p) <= 1100 -> at_ s 0 (tagged_pid str_ok p) ->
  exists i, is_ok s = Some (Done i tt).
Proof.
  intros Hl Ha. unfold tagged_pid in Ha. rewrite !app_assoc in Ha. apply at_app in Ha as [Ha _].
  assert (Hr : reads (fun i => let- (i, _) := ei_decode_version true 0 i in
      let- (i, _) := ei_decode_tuple_header true 0 i in decode_tag 256 str_ok i)
    ((ext_version ++ ext_tuple_header 2) ++ ext_atom_latin1 str_ok) tt).
  { rewrite <- app_assoc. eapply (reads_bind (ei_decode_version true 0)); [apply reads_version |].
    eapply (reads_bind (ei_decode_tuple_header true 0)).
    - apply reads_of, decode_tuple_header_ok; [unfold is_int32; lia | lia].
    - reads_tag_tac. }
  eexists. apply (reads_start _ _ _ s Hr); [by vm_compute | done].
Qed.

Lemma rex_size_ok left p count maxkey maxobj s : a_pid_ok p -> len (ext_pid p) <= 1100 ->
  is_int64 count -> is_int64 maxkey -> is_int64 maxobj ->
  at_ s 0 (size_payload p count maxkey maxobj) ->
  rex_size left s = Some (true, (pid_sent p, (count, maxkey, maxobj))).
Proof.
  intros Hp Hl H1 H2 H3 Ha. unfold size_payload in Ha. rewrite !app_assoc in Ha.
  set (hd := (((ext_version ++ ext_tuple_header 2) ++ ext_atom_latin1 str_rex) ++ ext_tuple_header 5) ++
     ext_atom_latin1 EI_MNESIA_SIZE) in *.
  assert (Hhd : len hd = 16) by done.
  rewrite <- !(app_assoc (hd ++ ext_pid p)) in Ha.
  apply at_app in Ha as [Ha Hlongs]. apply at_app in Ha as [Ha Hpid].
  assert (Hr : reads (fun i => let- (i, _) := ei_decode_version true 0 i in
      let- (i, _) := decode_tuple_of 2 i in let- (i, _) := decode_tag 64 str_rex i in
      let- (i, _) := decode_tuple_of 5 i in decode_tag 64 EI_MNESIA_SIZE i)
    hd tt).
  { unfold hd. rewrite <- !app_assoc. eapply (reads_bind (ei_decode_version true 0)); [apply reads_version |].
    eapply (reads_bind (decode_tuple_of 2)); [by apply reads_tuple_head |].
    eapply (reads_bind (decode_tag 64 str_rex)); [reads_tag_tac |].
    eapply (reads_bind (decode_tuple_of 5)); [by apply reads_tuple_head | reads_tag_tac]. }
  clearbody hd. rewrite len_app, Hhd in *.
  pose proof (len_ext_longlong_max count H1). pose proof (len_ext_longlong_max maxkey H2).
  pose proof (len_ext_longlong_max maxobj H3). cbn [Z.add] in *.
  unfold rex_size.
  erewrite bindD_Some by (apply (reads_start _ hd tt s Hr); [unfold int_max; lia | done]).
  cbv iota. rewrite Hhd.
  erewrite bindD_Some by (apply (reads_pid p Hp); [lia | unfold int_max; lia | exact Hpid]).
  cbv iota.
  rewrite <- app_assoc in Hlongs. erewrite bindD_Some.
  2:{ apply (reads_longs count maxkey maxobj H1 H2 H3); [lia | | exact Hlongs].
      rewrite !len_app. unfold int_max. lia. }
  done.
Qed.
