(* ===== verification/DumpOk.v ===== *)
(** * The two ends of a backup: what crosses the connection

    The process of [mnesia_registry] and the C node, as a script; the parts of
    [ei_reg_dump] and [ei_reg_restore] that talk follow it. *)

From stdpp Require Import gmap fin_maps.
From S2P Require Import Prelude Mem PutGet Ext Headers Ints Atom Data Ids Term XBuff Format FormatOk Proc Session PortIO Epmd Connect ConnectOk Message MessageOk Prime Hash HashOk Reg RegOk Backup Restore BackupOk.

(** The pids of the C node and of the process, and the cookies in the messages of
    each. *)
Record talk := Talk { t_self : erlang_pid; t_mnesia : erlang_pid; t_ours : list Z; t_theirs : list Z }.

Definition talk_ok (T : talk) : Prop :=
  a_pid_ok (t_self T) /\ a_pid_ok (t_mnesia T) /\ a_name_ok (t_ours T) /\ a_name_ok (t_theirs T) /\
  len (ext_pid (t_self T)) <= 600 /\ len (ext_pid (t_mnesia T)) <= 600.

(** ** The script *)

Definition to_process (T : talk) (payload : list Z) : script :=
  outs (message ERL_SEND [f_cookie (t_ours T); f_to (t_mnesia T)] payload).
Definition from_process (T : talk) (payload : list Z) : script :=
  ins (message ERL_SEND [f_cookie (t_theirs T); f_to (t_self T)] payload).
Definition signal (T : talk) (t : Z) : script :=
  ins (message t [f_from (t_mnesia T); f_to (t_self T)] []).

(** The call of [fun_], the link and the reply, the link before the reply or not. *)
Definition started (T : talk) (fun_ mntab reply : list Z) (link_first : bool) : script :=
  outs (message ERL_REG_SEND [f_from (t_self T); f_cookie (t_ours T); f_toname str_rex]
          (concat (start_parts (t_self T) fun_ mntab))) ++
  (if link_first then signal T ERL_LINK ++ from_process T reply
   else from_process T reply ++ signal T ERL_LINK).

Definition dump_script (T : talk) (mntab : list Z) (ops : list op) (link_first : bool) : script :=
  started T EI_MNESIA_DUMP mntab (tagged_pid str_rex (t_mnesia T)) link_first ++
  (ops ≫= fun o => to_process T (op_payload o)) ++
  to_process T (concat (ask_parts EI_MNESIA_COMMIT (t_self T))) ++
  from_process T (tagged_pid str_ok (t_mnesia T)) ++ signal T ERL_UNLINK.

Definition restore_script (T : talk) (mntab : list Z) (count maxkey maxobj : Z)
    (es : list entry) (link_first : bool) : script :=
  started T EI_MNESIA_RESTORE mntab (size_payload (t_mnesia T) count maxkey maxobj) link_first ++
  to_process T (concat (ask_parts EI_MNESIA_SEND (t_self T))) ++
  (es ≫= fun e => from_process T (record_payload e)) ++ signal T ERL_UNLINK.

(** ** Lengths *)

Lemma ext_pid_sent p : ext_pid (pid_sent p) = ext_pid p.
Proof.
  unfold ext_pid, pid_sent, pid_tag. cbn [pid_node pid_num pid_serial pid_creation].
  by rewrite c_str_idem, <- !Z.land_assoc, !Z.land_diag.
Qed.

Lemma pid_sent_ok p : a_pid_ok p -> a_pid_ok (pid_sent p).
Proof.
  intros [[Hb Hv] Hc]. split; [| done]. split; cbn [pid_sent pid_node].
  - by apply c_str_byte.
  - by rewrite c_str_idem.
Qed.

Lemma len_ext_name a : a_name_ok a -> len (ext_atom_latin1 (c_str a)) <= 513.
Proof.
  intros [_ Hl]. unfold strlen, MAXATOMLEN in Hl. unfold ext_atom_latin1.
  rewrite len_ext_atom. pose proof (len_utf8_of_latin1 (c_str a)). destruct (128 <=? _); lia.
Qed.

Lemma len_control t fs : 0 <= t < 256 -> len fs < 255 ->
  len (control t fs) = 5 + len (concat (field_bytes <$> fs)).
Proof.
  intros Ht Hfs. unfold control, ext_tuple_header. rewrite (proj2 (Z.leb_le _ 255)) by lia.
  rewrite !len_app, (len_ext_longlong_type t Ht). change (len ext_version) with 1.
  cbn [length]. lia.
Qed.

Lemma at_payload buf payload buf' : payload_in buf payload buf' -> at_ buf' 0 payload.
Proof.
  intros [_ Hp]. rewrite <- (take_drop (length payload) buf'), Hp. apply at_front.
Qed.

Lemma tagged_pid_bytes tag p : a_name_ok tag -> a_pid_ok p -> Forall is_byte (tagged_pid tag p).
Proof.
  intros [Ht _] [[Hp _] _]. unfold tagged_pid, ext_atom_latin1.
  apply app_bytes; [bytes_tac |]. apply app_bytes; [apply ext_headers_bytes |].
  apply app_bytes; [by apply ext_atom_bytes, utf8_of_latin1_byte | by apply ext_pid_bytes].
Qed.

Section Talk.
Context {S : Type} (fd : Z) (L : env S) {W : Works L} (T : talk) (HT : talk_ok T).

(** Nothing is traced, and the cookie of the connection is ours. *)
Definition calm (s : S) : Prop :=
  tracing (get_vars s) = 0 /\ fdcookie fd (get_vars s) = t_ours T.

Lemma calm_untraced s : calm s -> calm (put_vars (untraced (get_vars s)) s).
Proof. intros [_ Hc]. unfold calm. by rewrite get_put. Qed.

Lemma talk_fields :
  Forall field_ok [f_cookie (t_ours T); f_to (pid_sent (t_mnesia T))] /\
  Forall field_ok [f_cookie (t_theirs T); f_to (t_self T)] /\
  Forall field_ok [f_from (t_mnesia T); f_to (t_self T)] /\
  Forall field_ok [f_from (t_self T); f_cookie (t_ours T); f_toname str_rex].
Proof.
  destruct HT as (H1 & H2 & H3 & H4 & _). pose proof (pid_sent_ok _ H2).
  assert (a_name_ok str_rex) by (split; [bytes_tac | done]).
  repeat split; repeat constructor; try done; apply H1 || apply H2 || apply H3 || apply H4 || apply H.
Qed.

Lemma send_bytes {A} bs blk (k : Z -> proc A) G s Q :
  calm s -> fits blk 0 bs -> len bs <= 2000000000 ->
  wp (link fd L) (k 0) (G, s) Q ->
  wp (link fd L) (bindP (ei_send_encoded fd (pid_sent (t_mnesia T)) (splice blk 0 bs) (len bs)) k)
    (to_process T bs ++ G, s) Q.
Proof.
  intros [Ht Hc] Hf Hl Hk. destruct HT as (H1 & H2 & H3 & H4 & H5 & H6).
  destruct talk_fields as (Hfs & _). pose proof (len_ext_name _ H3).
  unfold to_process, message.
  assert (He : frame ERL_SEND [f_cookie (t_ours T); f_to (t_mnesia T)] (len bs)
    = frame ERL_SEND [f_cookie (t_ours T); f_to (pid_sent (t_mnesia T))] (len bs)).
  { unfold frame, control. cbn [fmap list_fmap field_bytes]. by rewrite ext_pid_sent. }
  assert (Hlc : len (control ERL_SEND [f_cookie (t_ours T); f_to (pid_sent (t_mnesia T))]) <= 1118).
  { rewrite len_control by done. cbn [fmap list_fmap concat field_bytes].
    rewrite ext_pid_sent, !len_app. cbn [length]. lia. }
  rewrite He. replace bs with (take (Z.to_nat (len bs)) (splice blk 0 bs)) at 4.
  2:{ destruct (splice_start blk bs Hf) as [_ Hp]. by rewrite Nat2Z.id. }
  apply (send_link fd L 0 (or_introl eq_refl)); [done | done | done | rewrite len_frame; lia | | unfold int_max; lia | done].
  rewrite length_splice by done. destruct Hf. lia.
Qed.

Lemma reg_send_bytes {A} bs blk (k : Z -> proc A) G s Q :
  calm s -> fits blk 0 bs -> len bs <= 2000000000 ->
  wp (link fd L) (k 0) (G, s) Q ->
  wp (link fd L) (bindP (ei_send_reg_encoded fd (t_self T) str_rex (splice blk 0 bs) (len bs)) k)
    (outs (message ERL_REG_SEND [f_from (t_self T); f_cookie (t_ours T); f_toname str_rex] bs) ++ G, s) Q.
Proof.
  intros [Ht Hc] Hf Hl Hk. destruct HT as (H1 & H2 & H3 & H4 & H5 & H6).
  destruct talk_fields as (_ & _ & _ & Hfs). pose proof (len_ext_name _ H3).
  unfold message.
  assert (Hlc : len (control ERL_REG_SEND [f_from (t_self T); f_cookie (t_ours T); f_toname str_rex]) <= 1123).
  { rewrite len_control by done. cbn [fmap list_fmap concat field_bytes]. rewrite !len_app.
    change (len (ext_atom_latin1 (c_str str_rex))) with 5. cbn [length]. lia. }
  replace bs with (take (Z.to_nat (len bs)) (splice blk 0 bs)) at 4.
  2:{ destruct (splice_start blk bs Hf) as [_ Hp]. by rewrite Nat2Z.id. }
  apply (reg_send_link fd L 0 (or_introl eq_refl)); [done | done | done | rewrite len_frame; lia | | unfold int_max; lia | done].
  rewrite length_splice by done. destruct Hf. lia.
Qed.

(** One message of the process; the state keeps calm. *)
Lemma recv_bytes {A} ticks t fs payload buf sz m ml (k : received -> proc A) G s Q :
  calm s -> fields_for t fs -> Forall field_ok fs -> 0 < t <= 10 -> Forall is_byte payload ->
  len (control t fs) <= 2000 -> len payload <= 2000000000 -> len payload <= sz <= len buf ->
  (forall buf' s', payload_in buf payload buf' -> calm s' ->
    wp (link fd L) (k (Received t buf' sz (msg_of t fs m) (len payload))) (G, s') Q) ->
  wp (link fd L) (bindP (recv_message ticks fd buf sz m ml) k) (ins (message t fs payload) ++ G, s) Q.
Proof.
  intros Hs Hf Hok Ht Hb Hc Hl Hroom Hk.
  destruct ticks as [| n]; cbn [recv_message]; apply wp_assoc;
    (apply (recv_link_in fd L 0 (or_introl eq_refl)); [done | done | lia | done | unfold EIRECVBUF; lia
      | unfold int_max; lia | by left |]); intros buf' Hin; cbn [rc];
    rewrite (proj2 (Z.eqb_neq t 0)), Z.max_l by lia; apply Hk; [done | by apply calm_untraced | done | by apply calm_untraced].
Qed.

Lemma recv_process {A} ticks payload buf sz m ml (k : received -> proc A) G s Q :
  calm s -> Forall is_byte payload -> len payload <= 2000000000 -> len payload <= sz <= len buf ->
  (forall buf' m' s', payload_in buf payload buf' -> calm s' -> msgtype m' = ERL_SEND ->
    wp (link fd L) (k (Received ERL_SEND buf' sz m' (len payload))) (G, s') Q) ->
  wp (link fd L) (bindP (recv_message ticks fd buf sz m ml) k) (from_process T payload ++ G, s) Q.
Proof.
  intros Hs Hb Hl Hroom Hk. destruct HT as (H1 & H2 & H3 & H4 & H5 & H6).
  pose proof (len_ext_name _ H4). destruct talk_fields as (_ & Hfs & _).
  apply recv_bytes; [done | constructor | done | done | done | | done | done |].
  - rewrite len_control by done. cbn [fmap list_fmap concat field_bytes]. rewrite !len_app.
    cbn [length]. lia.
  - intros buf' s' Hin Hc. apply Hk; [done | done | apply msg_of_msgtype].
Qed.

Lemma recv_signal {A} ticks t buf m ml (k : received -> proc A) G s Q :
  t ∈ [ERL_LINK; ERL_UNLINK] -> calm s -> len buf = EISMALLBUF ->
  (forall buf' m' s', len buf' = EISMALLBUF -> calm s' ->
    wp (link fd L) (k (Received t buf' EISMALLBUF m' 0)) (G, s') Q) ->
  wp (link fd L) (bindP (recv_message ticks fd buf EISMALLBUF m ml) k) (signal T t ++ G, s) Q.
Proof.
  intros Ht Hs Hl Hk. destruct HT as (H1 & H2 & H3 & H4 & H5 & H6).
  destruct talk_fields as (_ & _ & Hfs & _). unfold EISMALLBUF in *.
  assert (Ht' : 0 < t <= 10 /\ t ∈ [ERL_LINK; ERL_UNLINK; ERL_GROUP_LEADER; ERL_EXIT; ERL_EXIT2])
    by (rewrite !elem_of_cons, elem_of_nil in Ht; destruct Ht as [-> | [-> | []]];
        (split; [done | set_solver])).
  apply recv_bytes; [done | apply ff_pids, Ht' | done | by destruct Ht' | constructor | | cbn; lia | cbn [length]; lia |].
  - rewrite len_control by (cbn [length]; lia). cbn [fmap list_fmap concat field_bytes]. rewrite !len_app.
    cbn [length]. lia.
  - intros buf' s' [Hin _] Hc. apply Hk; [cbn [length] in Hin; lia | done].
Qed.

(** ** The call that starts it *)

Lemma len_start f t : a_name_ok t -> len f <= 20 ->
  len (concat (start_parts (t_self T) f t)) <= EISMALLBUF.
Proof.
  intros Ht Hf. destruct HT as (_ & _ & _ & _ & H5 & _). pose proof (len_ext_name t Ht).
  pose proof (len_utf8_of_latin1 f).
  assert (len (ext_atom_latin1 f) <= 43)
    by (unfold ext_atom_latin1; rewrite len_ext_atom; destruct (128 <=? _); lia).
  cbn [start_parts concat]. rewrite !len_app. unfold EISMALLBUF.
  change (len ext_version) with 1. change (len (ext_tuple_header 2)) with 2.
  change (len (ext_tuple_header 5)) with 2. change (len (ext_atom_latin1 str_call)) with 6.
  change (len (ext_atom_latin1 EI_MNESIA_MODULE)) with 17. change (len (ext_list_header 2)) with 5.
  change (len (ext_list_header 0)) with 1. change (len (ext_atom_latin1 str_user)) with 6.
  cbn [length]. lia.
Qed.

Lemma start_call_link {A B} ticks (reply : D (bool * A)) fun_ mntab payload (first : bool) v a0 m ml
    (k : Z * A -> proc B) G s Q :
  calm s -> a_name_ok fun_ -> c_str fun_ = fun_ -> len fun_ <= 20 -> a_name_ok mntab ->
  Forall is_byte payload -> len payload <= EISMALLBUF ->
  (forall buf, at_ buf 0 payload -> reply buf = Some (true, v)) ->
  (forall s', calm s' -> wp (link fd L) (k (0, v)) (G, s') Q) ->
  wp (link fd L) (bindP (start_call ticks reply fun_ fd (t_self T) mntab m ml a0) k)
    (started T fun_ mntab payload first ++ G, s) Q.
Proof.
  intros Hs Hf Hfc Hfl Ht Hb Hl Hr Hk. pose proof (len_start fun_ mntab Ht Hfl) as Hlen.
  unfold start_call, started. apply wp_bind.
  apply (wp_plain (link fd L)); [done |]. intros blk s' [[Hblk _] ->].
  set (bs := concat (start_parts (t_self T) fun_ mntab)) in *.
  assert (Hfit : fits blk 0 bs) by (split; lia). unfold EISMALLBUF in *.
  eapply wp_lift_M.
  { rewrite start_request_all. apply request_ok; [| exact Hfit | unfold int_max; fold bs; lia].
    by apply start_encodes; [apply HT | ..]. }
  fold bs. rewrite <- app_assoc. apply reg_send_bytes; [done | done | lia |].
  change (negb (0 =? 0)) with false. cbv iota.
  assert (Hlb : len (splice blk 0 bs) = 2048) by (rewrite length_splice by done; lia).
  destruct first; rewrite <- app_assoc; cbn [start_wait negb orb].
  - apply recv_signal; [set_solver | done | done |]. intros buf' m' s' Hlb' Hs'.
    cbn [rc]. change (ERL_LINK =? ERL_LINK) with true. cbn [negb orb mbuf msg msglen]. unfold EISMALLBUF in *.
    apply recv_process; [done | done | lia | lia |]. intros buf2 m2 s2 Hin Hs2 _.
    cbn [rc]. change (ERL_SEND =? ERL_LINK) with false. change (ERL_SEND =? ERL_SEND) with true.
    cbn [negb orb mbuf msg msglen].
    eapply wp_lift_D; [apply Hr; by eapply at_payload |]. by apply Hk.
  - unfold EISMALLBUF. apply recv_process; [done | done | lia | lia |].
    intros buf2 m2 s2 [Hlb2 Hin] Hs2 _.
    cbn [rc]. change (ERL_SEND =? ERL_LINK) with false. change (ERL_SEND =? ERL_SEND) with true.
    cbn [negb orb mbuf msg msglen].
    eapply wp_lift_D; [apply Hr; by eapply at_payload |]. cbv iota.
    apply recv_signal; [set_solver | done | unfold EISMALLBUF; lia |]. intros buf' m' s' Hlb' Hs'.
    cbn [rc]. change (ERL_LINK =? ERL_LINK) with true. cbn [negb orb mbuf msg msglen]. by apply Hk.
Qed.

Lemma unlink_link {A} ticks m ml (k : Z -> proc A) G s Q :
  calm s -> (forall s', calm s' -> wp (link fd L) (k 0) (G, s') Q) ->
  wp (link fd L) (bindP (mn_unlink ticks fd m ml) k) (signal T ERL_UNLINK ++ G, s) Q.
Proof.
  intros Hs Hk. unfold mn_unlink. apply wp_assoc.
  apply (wp_plain (link fd L)); [done |]. intros blk s' [[Hblk _] ->]. apply wp_assoc.
  apply recv_signal; [set_solver | done | done |]. intros buf' m' s' _ Hs'. cbn [rc bindP].
  change (ERL_UNLINK =? ERL_UNLINK) with true. by apply Hk.
Qed.

(** ** The operations of a dump *)

Lemma message_buffer_link {A} n (k : option (list Z) -> proc A) G s Q :
  n <= int_max ->
  (forall blk, Z.max EISMALLBUF n = len blk -> wp (link fd L) (k (Some blk)) (G, s) Q) ->
  wp (link fd L) (bindP (message_buffer n) k) (G, s) Q.
Proof.
  intros Hn Hk. unfold message_buffer. unfold EISMALLBUF, int_max in *. apply wp_assoc.
  apply (wp_plain (link fd L)); [done |]. intros blk s' [[Hblk _] ->].
  destruct (Z.ltb_spec 2048 n).
  - rewrite uint64_small by (unfold is_uint64; lia).
    apply (wp_plain (link fd L)); [cbn; lia |].
    intros x s' [(bs & -> & Hbs & _) ->]. apply Hk. lia.
  - cbn [bindP]. apply Hk. lia.
Qed.

Lemma send_write_link {A} h key o d (k : Z -> proc A) G s Q :
  calm s -> key_ok key -> holds h o d -> datum_ok d ->
  (forall p b, h !! p = Some b -> Forall is_byte b) ->
  wp (link fd L) (k 0) (G, s) Q ->
  wp (link fd L) (bindP (mn_send_write h fd (pid_sent (t_mnesia T)) key o) k)
    (to_process T (op_payload (op_write (Entry key (attr o) d))) ++ G, s) Q.
Proof.
  intros Hs Hkey Hh Hd Hb Hk. pose proof Hh as (_ & Hsz & Ha). pose proof Hkey as (_ & Hkc & Hkl).
  pose proof (datum_size_ok d Hd). change ERL_MAX with 134217727 in *.
  pose proof (write_room key (attr o) d Hkey Ha Hd) as Hroom.
  unfold mn_send_write, strlen. rewrite Hkc, int32_small by (unfold is_int32; lia).
  apply wp_assoc, message_buffer_link; [unfold int_max; lia |]. intros blk Hblk.
  unfold EISMALLBUF in *. set (bs := op_payload _) in *.
  apply wp_assoc. eapply wp_lift_M.
  { apply (write_request_ok h key o d); [done | done | done | done | split; fold bs; lia | unfold int_max; fold bs; lia]. }
  fold bs. cbv iota. apply wp_assoc, send_bytes; [done | split; lia | lia |]. exact Hk.
Qed.

Lemma send_delete_link {A} key (k : Z -> proc A) G s Q :
  calm s -> key_ok key -> wp (link fd L) (k 0) (G, s) Q ->
  wp (link fd L) (bindP (mn_send_delete fd (pid_sent (t_mnesia T)) key) k)
    (to_process T (op_payload (op_delete key)) ++ G, s) Q.
Proof.
  intros Hs Hkey Hk. pose proof Hkey as (_ & Hkc & Hkl). pose proof (delete_room key Hkey) as Hroom.
  unfold mn_send_delete, strlen. rewrite Hkc, int32_small by (unfold is_int32; lia).
  apply wp_assoc, message_buffer_link; [unfold int_max; lia |]. intros blk Hblk.
  unfold EISMALLBUF in *. set (bs := op_payload _) in *.
  apply wp_assoc. eapply wp_lift_M.
  { rewrite delete_request_all. apply (request_ok _ (op_parts (op_delete key)));
      change (concat (op_parts (op_delete key))) with bs;
      [by apply delete_encodes | split; lia | unfold int_max; lia]. }
  change (concat (op_parts (op_delete key))) with bs.
  apply wp_assoc, send_bytes; [done | split; lia | lia |]. exact Hk.
Qed.

(** ** The traversal *)

(** What a bucket adds to the dump, if its object is to be sent. *)
Definition bucket_op (h : blocks) (flags : Z) (r : ei_reg) (b : ei_bucket) : list op :=
  match objs r !! value b with
  | None => []
  | Some o =>
      if forced flags || dirty o then
        if deleted o then [op_delete (key b)]
        else match datum_of h o with Some d => [op_write (Entry (key b) (attr o) d)] | None => [] end
      else []
  end.

Definition ops_of (h : blocks) (flags : Z) (r : ei_reg) : list op :=
  concat (tab (reg_tab r)) ≫= bucket_op h flags r.

(** Every live object holds something that can be sent, under a key that can be. *)
Definition bucket_holds (h : blocks) (r : ei_reg) (b : ei_bucket) : Prop :=
  key_ok (key b) /\ exists o, objs r !! value b = Some o /\
    (deleted o = false -> exists d, holds h o d /\ datum_ok d).
Definition all_hold (h : blocks) (r : ei_reg) : Prop :=
  Forall (bucket_holds h r) (concat (tab (reg_tab r))) /\
  forall p b, h !! p = Some b -> Forall is_byte b.

Section Walk.
Context (h : blocks) (Hb : forall p b, h !! p = Some b -> Forall is_byte b).
Context (flags : Z) (r : ei_reg).

Definition sent_ops (bs : list ei_bucket) : script :=
  (bs ≫= bucket_op h flags r) ≫= fun o => to_process T (op_payload o).

Lemma sent_ops_app a b : sent_ops (a ++ b) = sent_ops a ++ sent_ops b.
Proof. unfold sent_ops. by rewrite !bind_app. Qed.

Lemma dump_bucket_link {A} b (k : option (list Z) -> proc A) G s Q :
  calm s -> bucket_holds h r b -> wp (link fd L) (k None) (G, s) Q ->
  wp (link fd L) (bindP (dump_bucket h flags fd (pid_sent (t_mnesia T)) r b) k)
    (sent_ops [b] ++ G, s) Q.
Proof.
  intros Hs (Hkey & o & Ho & Hh) Hk. unfold dump_bucket, sent_ops, bucket_op.
  cbn [mbind list_bind]. rewrite app_nil_r, Ho. destruct (forced flags || dirty o); [| exact Hk].
  destruct (deleted o).
  - cbn [mbind list_bind]. rewrite app_nil_r. by apply wp_assoc, send_delete_link.
  - destruct (Hh eq_refl) as (d & Hd & Hok). pose proof Hd as (-> & _).
    cbn [mbind list_bind]. rewrite app_nil_r. by apply wp_assoc, send_write_link.
Qed.

Lemma dump_buckets_link {A} bs (k : option (list Z) -> proc A) G s Q :
  calm s -> Forall (bucket_holds h r) bs -> wp (link fd L) (k None) (G, s) Q ->
  wp (link fd L) (bindP (dump_buckets h flags fd (pid_sent (t_mnesia T)) r bs) k)
    (sent_ops bs ++ G, s) Q.
Proof.
  intros Hs Hbs Hk. induction Hbs as [| b bs Hh _ IH]; [exact Hk |].
  change (b :: bs) with ([b] ++ bs). rewrite sent_ops_app, <- app_assoc.
  cbn [dump_buckets app]. by apply wp_assoc, dump_bucket_link.
Qed.

Lemma dump_from_link {A} n i (k : option (list Z) -> proc A) G s Q :
  calm s -> (i + n = length (tab (reg_tab r)))%nat ->
  Forall (bucket_holds h r) (concat (drop i (tab (reg_tab r)))) -> wp (link fd L) (k None) (G, s) Q ->
  wp (link fd L) (bindP (dump_from h flags fd (pid_sent (t_mnesia T)) r n i) k)
    (sent_ops (concat (drop i (tab (reg_tab r)))) ++ G, s) Q.
Proof.
  intros Hs. revert i. induction n as [| n IH]; intros i Hn Hbs Hk; cbn [dump_from].
  - rewrite drop_ge by lia. exact Hk.
  - destruct (lookup_lt_is_Some_2 (tab (reg_tab r)) i) as [bs Hi]; [lia |]. rewrite Hi.
    rewrite (drop_S _ _ _ Hi) in *. cbn [concat] in *. apply Forall_app in Hbs as [H1 H2].
    rewrite sent_ops_app, <- app_assoc. apply wp_assoc, dump_buckets_link; [done | done |].
    apply IH; [lia | done | done].
Qed.
End Walk.

(** ** The end of the dump *)

Lemma commit_link {A} ticks m ml (k : Z -> proc A) G s Q :
  calm s -> (forall s', calm s' -> wp (link fd L) (k 0) (G, s') Q) ->
  wp (link fd L) (bindP (mn_send_commit ticks fd (pid_sent (t_mnesia T)) (t_self T) m ml) k)
    (to_process T (concat (ask_parts EI_MNESIA_COMMIT (t_self T))) ++
     from_process T (tagged_pid str_ok (t_mnesia T)) ++ G, s) Q.
Proof.
  intros Hs Hk. destruct HT as (H1 & H2 & _ & _ & H5 & H6).
  unfold mn_send_commit. apply wp_assoc.
  apply (wp_plain (link fd L)); [done |]. intros blk s' [[Hblk _] ->].
  set (bs := concat (ask_parts EI_MNESIA_COMMIT (t_self T))). unfold EISMALLBUF in *.
  assert (Hl : len bs <= 620).
  { unfold bs. cbn [ask_parts concat]. rewrite !len_app. change (len ext_version) with 1.
    change (len (ext_tuple_header 2)) with 2. change (len (ext_atom_latin1 EI_MNESIA_COMMIT)) with 8.
    cbn [length]. lia. }
  apply wp_assoc. eapply wp_lift_M.
  { rewrite commit_request_all. apply (request_ok _ (ask_parts EI_MNESIA_COMMIT (t_self T)));
      fold bs; [| split; lia | unfold int_max; lia].
    apply ask_encodes; [done | split; [bytes_tac | done] | done]. }
  fold bs. apply wp_assoc, send_bytes; [done | split; lia | lia |].
  change (negb (0 =? 0)) with false. cbv iota. apply wp_assoc.
  assert (Hlb : len (splice blk 0 bs) = 2048) by (rewrite length_splice by (split; lia); lia).
  assert (Hlr : len (tagged_pid str_ok (t_mnesia T)) <= 620).
  { unfold tagged_pid. rewrite !len_app. change (len ext_version) with 1.
    change (len (ext_tuple_header 2)) with 2. change (len (ext_atom_latin1 str_ok)) with 4. lia. }
  apply recv_process; [done | | lia | lia |].
  { apply tagged_pid_bytes; [split; [bytes_tac | done] | done]. }
  intros buf' m' s' Hin Hs' _. cbn [rc mbuf]. change (negb (ERL_SEND =? ERL_SEND)) with false. cbv iota.
  destruct (is_ok_ok (t_mnesia T) buf') as [i Hok]; [lia | by eapply at_payload |].
  apply wp_assoc. eapply wp_lift_D; [exact Hok |]. by apply Hk.
Qed.

Definition node_of (fd : Z) (g : globals) : option ei_cnode :=
  cnode <$> (snd <$> socket_at fd (ei_sockets g)).

Lemma fd_to_cnode_link {A} (k : option ei_cnode -> proc A) G s Q :
  wp (link fd L) (k (node_of fd (get_vars s))) (G, s) Q ->
  wp (link fd L) (bindP (ei_fd_to_cnode fd) k) (G, s) Q.
Proof.
  intros Hk. apply wp_assoc, wp_assoc, (wp_plain (link fd L)); [done |]. by intros g s' [-> ->].
Qed.

Lemma short_self ec : a_pid_ok (self_pid ec fd) ->
  (MAXATOMLEN_UTF8 <=? strlen (thisnodename ec)) = false.
Proof.
  intros [[_ Hv] _]. cbn [self_pid pid_node] in Hv. rewrite c_str_idem in Hv.
  apply utf8_len_max in Hv. apply Z.leb_gt. exact Hv.
Qed.

Lemma dump_link ticks h m ml r mntab flags first ec s :
  calm s -> node_of fd (get_vars s) = Some ec -> t_self T = self_pid ec fd ->
  reg_ok r -> all_hold h r -> a_name_ok mntab ->
  wp (link fd L) (ei_reg_dump ticks h m ml fd (Some r) (Some mntab) flags)
    (dump_script T mntab (ops_of h flags r) first, s)
    (fun x s' => s'.1 = [] /\ x.1 = 0 /\ exists r', x.2 = Some r' /\ reg_ok r' /\
       forall k, view r' k = if Z.land flags EI_NOPURGE =? 0 then live r k else view r k).
Proof.
  intros Hs Hec Hself Hr [Hall Hb] Ht. pose proof (proj1 HT) as Hp. rewrite Hself in Hp.
  unfold ei_reg_dump, dump_script. apply fd_to_cnode_link. rewrite Hec, (short_self ec Hp), <- Hself.
  pose proof HT as (H1 & H2 & _ & _ & H5 & H6).
  assert (Hlr : len (tagged_pid str_rex (t_mnesia T)) <= 620).
  { unfold tagged_pid. rewrite !len_app. change (len ext_version) with 1.
    change (len (ext_tuple_header 2)) with 2. change (len (ext_atom_latin1 str_rex)) with 5. lia. }
  unfold mn_start_dump. apply start_call_link with (v := pid_sent (t_mnesia T));
    [done | split; [bytes_tac | done] | done | done | done | | unfold EISMALLBUF; lia | |].
  { apply tagged_pid_bytes; [split; [bytes_tac | done] | done]. }
  { intros buf Hat. apply reads_rex_pid; [done | lia | done]. }
  intros s1 Hs1. cbv iota. change (negb (0 =? 0)) with false. cbv iota.
  change (ops_of h flags r ≫= _) with (sent_ops h flags r (concat (drop 0 (tab (reg_tab r))))).
  pose proof (ok_len _ (rok_hash r Hr)). apply dump_from_link; [done | done | lia | done |].
  apply commit_link; [done |]. intros s2 Hs2. change (negb (0 =? 0)) with false. cbv iota.
  rewrite <- (app_nil_r (signal T ERL_UNLINK)). apply unlink_link; [done |]. intros s3 Hs3.
  change (negb (0 =? 0)) with false. cbv iota.
  destruct (Z.land flags EI_NOPURGE =? 0); [| cbn; split; [done |]; split; [done |]; by exists r].
  destruct (purge_ok r Hr) as (r' & Hpu & Hr' & Hv & _). rewrite Hpu. cbn.
  split; [done |]. split; [done |]. by exists r'.
Qed.
End Talk.
