(* ===== verification/RestoreOk.v ===== *)
(** * What a restore makes of the records it is sent *)

From stdpp Require Import gmap fin_maps.
From S2P Require Import Prelude Mem PutGet Ext Headers Ints Atom Data Ids Term XBuff Format FormatOk Proc Session PortIO Epmd Connect ConnectOk Message MessageOk Prime Hash HashOk Reg RegOk Backup Restore BackupOk DumpOk.

(** ** Decoding into a block *)

Lemma len_store_at_start bs blk : len bs <= len blk -> len (store_at_start bs blk) = len blk.
Proof. intros Hl. unfold store_at_start. rewrite len_app, length_drop. lia. Qed.

Lemma store_all bs blk : len bs = len blk -> store_at_start bs blk = bs.
Proof. intros Hl. unfold store_at_start. rewrite drop_ge by lia. apply app_nil_r. Qed.

Lemma c_str_zero s tl : c_str s = s -> c_str (s ++ 0 :: tl) = s.
Proof.
  induction s as [| c s IH]; [done |]. cbn. destruct (c =? 0); [done |]. intros [= Hs]. by rewrite IH.
Qed.

Lemma c_str_stored s blk : c_str s = s -> c_str (store_at_start (s ++ [0]) blk) = s.
Proof. intros Hs. unfold store_at_start. rewrite <- app_assoc. by apply c_str_zero. Qed.

Lemma string_stored_ok t i s : Forall is_byte t -> len t <= 65535 -> 0 <= i -> at_ s i (ext_string t) ->
  string_stored i s = Some (len t + 1).
Proof.
  intros Hb Hl Hi Ha. unfold ext_string in Ha. unfold string_stored.
  destruct (Z.eqb_spec (len t) 0) as [E |].
  - rstep. ctests. unfold retD. by rewrite E.
  - rewrite (proj2 (Z.leb_le _ 0xffff)) in Ha by lia. at_split. rstep. ctests. rstep.
    unfold retD. by rewrite Z.mod_small by lia.
Qed.

Lemma reads_key t blk : Forall is_byte t -> len t <= 65535 -> len t < len blk ->
  reads (decode_string_into blk) (ext_string t) (store_at_start (t ++ [0]) blk).
Proof.
  intros Hb Hl Hblk i s Hi Hm Ha. unfold decode_string_into.
  erewrite bindD_Some by (by apply (string_stored_ok t)). rewrite (proj2 (Z.ltb_ge _ _)) by lia.
  by erewrite bindC_Done by (by apply (decode_string_ok t)).
Qed.

Lemma reads_binary b blk : len b <= len blk ->
  reads (decode_binary_into blk) (ext_binary b) (store_at_start b blk).
Proof.
  intros Hblk i s Hi Hm Ha. unfold decode_binary_into.
  erewrite bindC_Done by (by apply (decode_binary_ok b true 0)). cbn [out].
  by rewrite (proj2 (Z.ltb_ge _ _)) by lia.
Qed.

Definition head_parts (e : entry) : list Z :=
  (ext_longlong (len (e_key e) + 1) ++ ext_longlong (datum_size (e_val e)) ++ ext_longlong (e_attr e)) ++
  ext_string (e_key e).

Lemma reads_insert_head e keybuf : entry_ok e -> len (e_key e) < len keybuf ->
  reads (insert_head keybuf) (head_parts e)
    (datum_size (e_val e), e_attr e, store_at_start (e_key e ++ [0]) keybuf).
Proof.
  intros ((Hb & Hc & Hl) & Ha & Hd) Hk. pose proof (datum_size_ok _ Hd).
  change ERL_MAX with 134217727 in *. unfold head_parts, insert_head.
  eapply (reads_bind decode_longs); [apply reads_longs; unfold is_int64; lia |]. cbv iota.
  by apply (reads_last (decode_string_into keybuf) (fun kb => (datum_size (e_val e), e_attr e, kb))),
    reads_key.
Qed.

Lemma reads_record_head : reads (fun i => let- (i, _) := ei_decode_version true 0 i in
    let- (i, _) := decode_tuple_of 6 i in decode_tag 32 EI_MNESIA_RECV i)
  (ext_version ++ ext_tuple_header 6 ++ ext_atom_latin1 EI_MNESIA_RECV) tt.
Proof.
  eapply (reads_bind (ei_decode_version true 0)); [apply reads_version |].
  eapply (reads_bind (decode_tuple_of 6)); [by apply reads_tuple_head |].
  apply reads_tag; [split; [bytes_tac | done] | done | done].
Qed.

Lemma record_split e : record_payload e
  = (ext_version ++ ext_tuple_header 6 ++ ext_atom_latin1 EI_MNESIA_RECV) ++ head_parts e ++
    ext_datum (e_val e).
Proof.
  unfold record_payload, head_parts. cbn [record_parts concat]. by rewrite <- !app_assoc, app_nil_r.
Qed.

(** ** Values in blocks *)

Lemma datum_of_mono h h' o d : h ⊆ h' -> datum_of h o = Some d -> datum_of h' o = Some d.
Proof.
  intros Hh. unfold datum_of. repeat case_match; try done.
  - destruct (get_s (val o)) as [p |]; [| done]. cbn [mbind option_bind].
    destruct (h !! p) as [b |] eqn:Hp; [| done].
    assert (Hp' : h' !! p = Some b) by exact (lookup_weaken _ _ _ _ Hp Hh). by rewrite Hp'.
  - destruct (get_p (val o)) as [p |]; [| done]. cbn [mbind option_bind].
    destruct (h !! p) as [b |] eqn:Hp; [| done].
    assert (Hp' : h' !! p = Some b) by exact (lookup_weaken _ _ _ _ Hp Hh). by rewrite Hp'.
Qed.

Lemma holds_mono h h' o d : h ⊆ h' -> holds h o d -> holds h' o d.
Proof. intros Hh (? & ? & ?). split; [by eapply datum_of_mono | done]. Qed.

(** The object that a setter makes for a datum, its block at [p]. *)
Definition datum_val (d : datum) (p : Z) : reg_val :=
  match d with
  | d_int i => val_i i | d_flt f => val_f f | d_str _ => val_s p | d_null => val_s 0
  | d_bin _ => val_p p | d_ptr p => val_p p
  end.
Definition datum_obj (d : datum) (p : Z) : ei_reg_obj :=
  new_obj (datum_type d) (datum_val d p) (datum_size d).

Definition with_block (d : datum) (p : Z) (h : blocks) : blocks :=
  match d with d_str s => <[p := s ++ [0]]> h | d_bin b => <[p := b]> h | _ => h end.

Lemma datum_obj_ok d p : obj_ok (datum_obj d p).
Proof. by destruct d. Qed.

Lemma datum_obj_holds d p h : datum_ok d -> holds (with_block d p h) (datum_obj d p) d.
Proof.
  intros Hd. split; [| split; [done | by destruct d]].
  destruct d; cbn [datum_obj with_block]; unfold datum_of, datum_obj, new_obj; cbn [val obj_size].
  - done.
  - done.
  - change (ei_reg_typeof _ =? EI_INT) with false. change (ei_reg_typeof _ =? EI_FLT) with false.
    change (ei_reg_typeof _ =? EI_STR) with true. cbv iota. cbn [datum_size datum_val].
    rewrite (proj2 (Z.ltb_lt 0 _)) by lia. cbn [get_s mbind option_bind].
    rewrite lookup_insert_eq. cbn [mbind option_bind]. destruct Hd as (_ & Hs & _).
    by rewrite (c_str_zero s []).
  - done.
  - change (ei_reg_typeof _ =? EI_INT) with false. change (ei_reg_typeof _ =? EI_FLT) with false.
    change (ei_reg_typeof _ =? EI_STR) with false. change (ei_reg_typeof _ =? EI_BIN) with true.
    cbv iota. cbn [datum_size datum_val]. destruct Hd as [_ Hd].
    rewrite (proj2 (Z.ltb_lt 0 _)) by lia. cbn [get_p mbind option_bind].
    rewrite lookup_insert_eq. cbn [mbind option_bind].
    by rewrite Z.leb_refl, Nat2Z.id, firstn_all.
  - done.
Qed.

(** ** One value is set *)

(** [k] has the object, no other name is touched, and no inode but [a] is new. *)
Record set_in (r : ei_reg) (k : list Z) (o : ei_reg_obj) (a : Z) (r' : ei_reg) : Prop := SetIn {
  si_ok : reg_ok r';
  si_new : view r' k = Some o;
  si_others : forall k', c_str k' <> c_str k -> view r' k' = view r k';
  si_objs : forall b, b <> a -> objs r !! b = None -> objs r' !! b = None
}.

Lemma drop_value_objs r o ok r' : drop_value r o = Some (ok, r') -> objs r' = objs r.
Proof.
  unfold drop_value, free_s, free_p. repeat case_match; intros; simplify_eq; done.
Qed.

Lemma reg_set_objs a mem type v n r k c r' b :
  reg_ok r -> reg_set (Some a) mem type v n r k = Some (c, r') -> b <> a -> objs r !! b = None ->
  objs r' !! b = None.
Proof.
  intros Hr. unfold reg_set.
  destruct (lookup_obj_ok r k Hr) as [(_ & _ & ->) | (x & o & _ & Hx & _ & _ & ->)].
  - unfold ei_reg_make.
    assert (Hgo : forall x free t, (x = a \/ x ∈ reg_free r) -> forall o o', b <> a -> objs r !! b = None ->
      objs (set_obj (set_tab (Reg (<[x := o]> (objs r)) t free (freed r)) t) x o') !! b = None).
    { intros x free t Hx o o' Hb Hn. cbn. assert (b <> x).
      { destruct Hx as [-> | Hx]; [done |]. intros ->. by destruct (rok_free r Hr x Hx) as (_ & [? ?] & _);
        simplify_eq. }
      by rewrite !lookup_insert_ne. }
    destruct (reg_free r) as [| x free] eqn:Hfr.
    + destruct (ei_hash_insert _ _ _ _) as [[? t] |]; [| done]. intros [= _ <-].
      apply (Hgo a [] t). by left.
    + destruct (ei_hash_insert _ _ _ _) as [[? t] |]; [| done]. intros [= _ <-].
      apply (Hgo x free t). right. rewrite elem_of_cons. by left.
  - destruct (drop_value r o) as [[[] r1] |] eqn:Hd; [| |done].
    + intros [= _ <-] Hb Hn. cbn. rewrite (drop_value_objs _ _ _ _ Hd).
      rewrite lookup_insert_ne; [done |]. intros ->. congruence.
    + intros [= _ <-] Hb Hn. by rewrite (drop_value_objs _ _ _ _ Hd).
Qed.

Lemma set_datum r k d a p : reg_ok r -> a <> 0 -> objs r !! a = None ->
  exists r', reg_set (Some a) true (datum_type d) (datum_val d p) (datum_size d) r k = Some (0, r') /\
    set_in r k (datum_obj d p) a r'.
Proof.
  intros Hr Ha Hn. pose proof (datum_obj_ok d p) as Ho. unfold datum_obj in *.
  destruct (view r k) as [o |] eqn:Hv.
  - destruct (reg_set_present (Some a) true _ _ _ r k o Hr Hv Ho) as (r' & Hs & Hr' & Hv' & Hother & _).
    exists r'. split; [done |]. constructor; [done..|]. intros b. by eapply reg_set_objs.
  - assert (Hf : fresh r (Some a)) by (by intros ? [= <-]).
    destruct (reg_set_absent (Some a) true _ _ _ r k Hr Hf Hv Ho) as (r' & Hs & H).
    assert (inode_room r (Some a) = true) as E1
      by (unfold inode_room; destruct (reg_free r); [by apply bool_decide_true; eexists | done]).
    assert (insert_room true (reg_tab r) k = true) as E2
      by (unfold insert_room; destruct (bool_decide _), (_ <? _), (freelist (reg_tab r)); done).
    rewrite E1, E2 in *. destruct H as (Hr' & Hv' & Hother).
    exists r'. split; [done |]. constructor; [done..|]. intros b. by eapply reg_set_objs.
Qed.

Section Insert.
Context {S : Type} (fd : Z) (L : env S) {W : Works L} (sscanf_lf : list Z -> option Z).

Lemma decode_block_link {A} (f : list Z -> Z -> D (cres (list Z))) bs n i msgbuf b (k : option (list Z) -> proc A) G s Q :
  0 < n <= int_max -> 0 <= i -> i + len bs <= int_max -> at_ msgbuf i bs ->
  (forall blk, len blk = n -> reads (f blk) bs b) -> wp (link fd L) (k (Some b)) (G, s) Q ->
  wp (link fd L) (bindP (decode_block (fun blk => f blk i) n msgbuf) k) (G, s) Q.
Proof.
  intros Hn Hi Hm Ha Hr Hk. unfold decode_block. unfold int_max in *.
  rewrite uint64_small by (unfold is_uint64; lia). apply wp_assoc.
  apply (wp_plain (link fd L)); [cbn; lia |]. intros x s' [(blk & -> & Hblk & _) ->].
  apply wp_assoc. eapply wp_lift_D; [by apply (Hr blk) |]. exact Hk.
Qed.

Lemma insert_value_link {A} d at_tr a p r h msgbuf i kb (k : Z * ei_reg * blocks -> proc A) G s Q :
  datum_ok d -> Z.land at_tr EI_REG_TYPEMASK = datum_type d -> 0 <= at_tr < 256 ->
  reg_ok r -> a <> 0 -> objs r !! a = None -> p <> 0 ->
  0 <= i -> i + len (ext_datum d) <= int_max -> at_ msgbuf i (ext_datum d) ->
  (forall r', set_in r kb (datum_obj d p) a r' -> wp (link fd L) (k (0, r', with_block d p h)) (G, s) Q) ->
  wp (link fd L)
    (bindP (insert_value sscanf_lf (Supply (Some a) true p) r h msgbuf i (datum_size d) at_tr kb) k) (G, s) Q.
Proof.
  intros Hd Hty Har Hr Ha Hn Hp Hi Hm Hat Hk. unfold insert_value.
  destruct (set_datum r kb d a p Hr Ha Hn) as (r' & Hset & Hin). specialize (Hk r' Hin).
  rewrite int32_small, Hty by (unfold is_int32; lia). cbn [s_inode s_bucket s_value].
  pose proof (datum_size_ok d Hd) as Hsz. change ERL_MAX with 134217727 in *.
  unfold ei_reg_setival, ei_reg_setfval, ei_reg_setsval, ei_reg_setpval, with_args.
  destruct d as [n | f | t | | b | n]; cbn [datum_type datum_val datum_size ext_datum with_block fst snd] in *; ctests.
  - apply wp_assoc. eapply wp_lift_D; [by apply (reads_long n) |]. cbv iota. rewrite Hset. exact Hk.
  - apply wp_assoc. eapply wp_lift_D; [by apply (reads_of _ _ _ (decode_double_ok sscanf_lf f (proj1 Hd))) |]. cbv iota.
    rewrite Hset. exact Hk.
  - rewrite (proj2 (Z.ltb_lt 0 _)) by lia. destruct Hd as (Hb & Hc & Hl).
    apply wp_assoc, (decode_block_link decode_string_into (ext_string t) _ _ _ (t ++ [0]));
      [unfold int_max; lia | done | done | done | |].
    { intros blk Hblk. rewrite <- (store_all (t ++ [0]) blk) by (rewrite len_app; cbn [length]; lia).
      apply reads_key; [done | lia | lia]. }
    rewrite (proj2 (Z.eqb_neq p 0)) by done. unfold strlen. rewrite (c_str_zero t []) by done.
    rewrite Hset. exact Hk.
  - rewrite Z.ltb_irrefl. apply wp_assoc. eapply wp_lift_D; [apply (reads_long 0); [unfold is_int64; lia | done..] |].
    cbv iota. change (0 =? 0) with true. cbv iota. rewrite Hset. exact Hk.
  - destruct Hd as [Hb Hl]. rewrite (proj2 (Z.ltb_lt 0 _)) by lia.
    apply wp_assoc, (decode_block_link decode_binary_into (ext_binary b) _ _ _ b);
      [unfold int_max; lia | done | done | done | |].
    { intros blk Hblk. rewrite <- (store_all b blk) at 2 by lia. apply reads_binary. lia. }
    rewrite int32_small by (unfold is_int32; lia). rewrite (proj2 (Z.ltb_ge (len b) 0)) by lia.
    rewrite Hset. exact Hk.
  - rewrite Z.ltb_irrefl. apply wp_assoc. eapply wp_lift_D; [by apply (reads_long n) |]. cbv iota.
    rewrite Hset. exact Hk.
Qed.
End Insert.

(** ** All the records *)

Lemma view_ext r k k' : c_str k = c_str k' -> view r k = view r k'.
Proof. intros Hk. unfold view. by rewrite Hk. Qed.

Lemma ext_datum_bytes d : datum_ok d -> Forall is_byte (ext_datum d).
Proof.
  destruct d as [n | f | t | | b | n]; cbn [ext_datum]; intros Hd;
    try apply ext_longlong_bytes.
  - unfold ext_double. auto with bytes.
  - apply ext_string_bytes, Hd.
  - unfold ext_binary. apply app_bytes; [auto with bytes | apply Hd].
Qed.

Lemma record_bytes e : entry_ok e -> Forall is_byte (record_payload e).
Proof.
  intros ((Hb & _ & _) & _ & Hd). unfold record_payload. cbn [record_parts concat].
  apply app_bytes; [bytes_tac |]. apply app_bytes; [apply ext_headers_bytes |].
  apply app_bytes; [by apply ext_atom_bytes, utf8_of_latin1_byte; bytes_tac |].
  repeat (apply app_bytes; [by auto using ext_longlong_bytes, ext_string_bytes, ext_datum_bytes |]).
  constructor.
Qed.

(** [malloc] gives fresh inodes and blocks from the [i]th record on, and buckets. *)
Definition supply_ok (sup : nat -> supply) (i : nat) (r : ei_reg) (h : blocks) : Prop :=
  forall j, (i <= j)%nat -> exists a p, sup j = Supply (Some a) true p /\
    a <> 0 /\ objs r !! a = None /\ p <> 0 /\ h !! p = None /\
    forall j' a' p', (i <= j')%nat -> j' <> j -> sup j' = Supply (Some a') true p' -> a' <> a /\ p' <> p.

Lemma supply_step sup i r h k d r' a p :
  supply_ok sup i r h -> sup i = Supply (Some a) true p -> set_in r k (datum_obj d p) a r' ->
  supply_ok sup (Datatypes.S i) r' (with_block d p h).
Proof.
  intros Hs Hi Hin j Hj. destruct (Hs j) as (a1 & p1 & H1 & H2 & H3 & H4 & H5 & H6); [lia |].
  destruct (H6 i a p) as [Ha Hp]; [lia | lia | done |].
  exists a1, p1. split; [done |]. split; [done |]. split; [apply (si_objs _ _ _ _ _ Hin); [congruence | done] |].
  split; [done |]. split.
  - destruct d; cbn [with_block]; try done; by rewrite lookup_insert_ne.
  - intros j' a' p' Hj' Hne. apply H6; [lia | done].
Qed.

Lemma with_block_more d p h : h !! p = None -> h ⊆ with_block d p h.
Proof. intros Hp. destruct d; cbn [with_block]; try done; by apply insert_subseteq. Qed.

Definition typed (e : entry) : Prop := Z.land (e_attr e) EI_REG_TYPEMASK = datum_type (e_val e).

(** What the records make of a registry, before it is cleaned. *)
Record restored (es : list entry) (r : ei_reg) (h : blocks) (r' : ei_reg) (h' : blocks) : Prop := Restored {
  rs_ok : reg_ok r';
  rs_more : h ⊆ h';
  rs_new : forall e, e ∈ es -> exists o, view r' (e_key e) = Some o /\ holds h' o (e_val e) /\
    attr o = Z.lor (datum_type (e_val e)) EI_DIRTY;
  rs_others : forall k, c_str k ∉ (e_key <$> es) -> view r' k = view r k
}.

Lemma restored_nil r h : reg_ok r -> restored [] r h r h.
Proof. intros Hr. constructor; [done | done | | done]. by intros e He%elem_of_nil. Qed.

Lemma restored_cons e es r h kb a p r1 r' h' :
  entry_ok e -> c_str kb = e_key e -> e_key e ∉ (e_key <$> es) -> h !! p = None ->
  set_in r kb (datum_obj (e_val e) p) a r1 -> restored es r1 (with_block (e_val e) p h) r' h' ->
  restored (e :: es) r h r' h'.
Proof.
  intros ((_ & Hc & _) & _ & Hd) Hkb Hnot Hp Hin [Hok Hmore Hnew Hothers].
  constructor; [done | | |].
  - etransitivity; [by apply with_block_more | exact Hmore].
  - intros e' [-> | He']%elem_of_cons; [| by apply Hnew].
    exists (datum_obj (e_val e) p). split; [| split].
    + rewrite Hothers by (by rewrite Hc). rewrite (view_ext r1 _ kb) by congruence. apply Hin.
    + eapply holds_mono; [exact Hmore | by apply datum_obj_holds].
    + done.
  - intros k Hk. rewrite fmap_cons, not_elem_of_cons in Hk. destruct Hk as [Hk1 Hk2].
    rewrite Hothers by done. apply Hin. congruence.
Qed.

Section Records.
Context {S : Type} (fd : Z) (L : env S) {W : Works L} (T : talk) (HT : talk_ok T).
Context (ticks : nat) (sscanf_lf : list Z -> option Z) (sup : nat -> supply).

Definition sent_records (es : list entry) : script := es ≫= fun e => from_process T (record_payload e).

(** The message is in the buffer. *)
Lemma decode_insert_link {A} e a p r h msgbuf keybuf (k : Z * ei_reg * blocks * list Z -> proc A) G s Q :
  let i := len (ext_version ++ ext_tuple_header 6 ++ ext_atom_latin1 EI_MNESIA_RECV) in
  entry_ok e -> typed e -> len (e_key e) < len keybuf -> reg_ok r -> a <> 0 -> objs r !! a = None ->
  p <> 0 -> at_ msgbuf 0 (record_payload e) -> len (record_payload e) <= int_max ->
  (forall r' kb, len kb = len keybuf -> c_str kb = e_key e ->
    set_in r kb (datum_obj (e_val e) p) a r' ->
    wp (link fd L) (k (0, r', with_block (e_val e) p h, kb)) (G, s) Q) ->
  wp (link fd L)
    (bindP (mn_decode_insert sscanf_lf (Supply (Some a) true p) r h msgbuf i keybuf) k) (G, s) Q.
Proof.
  intros i He Hty Hkl Hr Ha Hn Hp Hat Hm Hk. pose proof He as ((Hb & Hc & _) & Har & Hd).
  rewrite record_split in Hat, Hm. rewrite len_app in Hm. fold i in Hm.
  apply at_app in Hat as [_ Hat]. fold i in Hat. apply at_app in Hat as [H1 H2].
  assert (Hi : 0 <= i) by (unfold i; lia). unfold mn_decode_insert. rewrite len_app in Hm.
  apply wp_assoc. eapply wp_lift_D.
  { apply (reads_insert_head e keybuf He Hkl); [lia | | by rewrite Z.add_0_l in H1].
    lia. }
  cbv iota. apply wp_assoc.
  apply insert_value_link; try done; [lia | lia |].
  intros r' Hin. cbn [bindP]. apply Hk; [| by apply c_str_stored | done].
  apply len_store_at_start. rewrite len_app. cbn [length]. lia.
Qed.

Lemma records_link {A} es sz : forall i r h msgbuf keybuf m ml s
    (k : bool * ei_reg * blocks * erlang_msg * Z -> proc A) G Q,
  calm fd L T s -> Forall entry_ok es -> Forall typed es -> NoDup (e_key <$> es) -> reg_ok r ->
  supply_ok sup i r h -> Z.of_nat i + len es <= int_max -> sz <= len msgbuf -> sz <= 2000000000 ->
  Forall (fun e => len (record_payload e) <= sz /\ len (e_key e) < len keybuf) es ->
  (forall r' h' m' ml' s', restored es r h r' h' -> calm fd L T s' ->
    wp (link fd L) (k (true, r', h', m', ml')) (G, s') Q) ->
  wp (link fd L)
    (bindP (restore_records ticks sscanf_lf sup fd sz (length es) (Z.of_nat i) r h msgbuf keybuf m ml) k)
    (sent_records es ++ G, s) Q.
Proof.
  induction es as [| e es IH]; intros i r h msgbuf keybuf m ml s k G Q Hs Hes Htys Hnd Hr Hsup Hi Hsz Hsz2 Hfit Hk;
    cbn [restore_records length].
  - apply Hk; [by apply restored_nil | done].
  - apply list.Forall_cons in Hes as [He Hes]. apply list.Forall_cons in Htys as [Hty Htys].
    apply list.Forall_cons in Hfit as [[Hf1 Hf2] Hfit]. apply list.NoDup_cons in Hnd as [Hnot Hnd].
    cbn [length] in Hi. rewrite (proj2 (Z.eqb_neq (Z.of_nat i) int_max)) by lia.
    unfold sent_records. cbn [mbind list_bind]. rewrite <- app_assoc. apply wp_assoc.
    apply (recv_process fd L T HT); [done | by apply record_bytes | lia | lia |].
    intros buf' m' s' Hin Hs' Hmt. cbn [rc msg msglen mbuf]. rewrite Hmt.
    change (ERL_SEND <? 0) with false. change (negb (ERL_SEND =? ERL_SEND)) with false. cbv iota.
    pose proof (at_payload _ _ _ Hin) as Hat. destruct Hin as [Hlb _].
    apply wp_assoc. eapply wp_lift_D.
    { unfold record_head. apply (reads_start _ _ _ _ reads_record_head); [by vm_compute |].
      rewrite record_split in Hat. by apply at_app in Hat as [Hat _]. }
    cbv iota. rewrite Nat2Z.id.
    destruct (Hsup i) as (a & p & Hsi & Ha & Hn & Hp & Hhp & _); [lia |]. rewrite Hsi.
    apply wp_assoc, (decode_insert_link e a p); try done; [unfold int_max; lia |].
    intros r1 kb Hlkb Hckb Hset. change (negb (0 =? 0)) with false. cbv iota.
    replace (Z.of_nat i + 1) with (Z.of_nat (Datatypes.S i)) by lia.
    apply IH; try done; [apply Hset | by eapply supply_step | lia | lia | by rewrite Hlkb |].
    intros r' h' m2 ml2 s2 Hres Hs2. apply Hk; [| done]. by eapply restored_cons.
Qed.
End Records.

(** ** Clearing the dirty bits *)

Definition cleaned (o : ei_reg_obj) : ei_reg_obj :=
  Obj (Z.land (attr o) (Z.lnot EI_DIRTY)) (obj_size o) (val o).

Lemma cleaned_twice o : cleaned (cleaned o) = cleaned o.
Proof. unfold cleaned. cbn. by rewrite <- Z.land_assoc, Z.land_diag. Qed.

Lemma cleaned_type o : ei_reg_typeof (cleaned o) = ei_reg_typeof o.
Proof. unfold ei_reg_typeof, cleaned. cbn [attr]. by rewrite <- Z.land_assoc. Qed.

Lemma cleaned_deleted o : deleted (cleaned o) = deleted o.
Proof. unfold deleted, cleaned. cbn [attr]. by rewrite <- Z.land_assoc. Qed.

Lemma cleaned_holds h o d : holds h o d -> holds h (cleaned o) d.
Proof.
  intros (Hd & Hs & Ha). split; [| split; [done |]].
  - rewrite <- Hd. unfold datum_of. by rewrite cleaned_type.
  - unfold cleaned. cbn [attr]. change (Z.lnot EI_DIRTY) with (-2).
    assert (Z.land (attr o) (-2) = attr o - attr o mod 2) as ->; 
      [| pose proof (Z.mod_pos_bound (attr o) 2); pose proof (Z.mod_le (attr o) 2); lia].
    change (-2) with (Z.lnot (Z.ones 1)). rewrite <- Z.ldiff_land, Z.ldiff_ones_r by lia.
    rewrite Z.shiftr_div_pow2, Z.shiftl_mul_pow2 by lia. change (2 ^ 1) with 2.
    pose proof (Z.div_mod (attr o) 2). lia.
Qed.

Lemma clean_buckets_ok bs : forall r,
  (forall b, b ∈ bs -> value b <> 0 /\ is_Some (objs r !! value b)) ->
  exists r', clean_buckets r bs = Some r' /\ reg_tab r' = reg_tab r /\ reg_free r' = reg_free r /\
    forall a, objs r' !! a = (if decide (a ∈ value <$> bs) then cleaned else id) <$> objs r !! a.
Proof.
  induction bs as [| b bs IH]; intros r Hbs; cbn [clean_buckets].
  - exists r. do 3 (split; [done |]). intros a. rewrite decide_False by (apply not_elem_of_nil).
    by rewrite option_fmap_id.
  - destruct (Hbs b) as [Hne [o Ho]]; [by left |]. unfold clean_obj.
    rewrite (proj2 (Z.eqb_neq _ _) Hne), Ho. cbn [mbind option_bind].
    destruct (IH (set_obj r (value b) (cleaned o))) as (r' & Hr' & Htab & Hfree & Hobjs).
    + intros b' Hb'. destruct (Hbs b') as [? ?]; [by right |]. split; [done |].
      cbn. destruct (decide (value b' = value b)) as [-> |].
      * rewrite lookup_insert_eq. by eexists.
      * by rewrite lookup_insert_ne.
    + exists r'. split; [exact Hr' |]. split; [done |]. split; [done |]. intros a. rewrite Hobjs.
      cbn [set_obj set_objs objs fmap list_fmap]. destruct (decide (a = value b)) as [-> | Hab].
      * rewrite lookup_insert_eq, Ho, (decide_True (P := value b ∈ value b :: _)) by (by left).
        cbn. by destruct (decide _); rewrite ?cleaned_twice.
      * rewrite lookup_insert_ne by done.
        destruct (decide (a ∈ value <$> bs)), (decide (a ∈ value b :: (value <$> bs))) as [Hi | Hi];
          try done; rewrite elem_of_cons in Hi; tauto.
Qed.

Lemma clean_all_ok r : reg_ok r ->
  exists r', clean_all r = Some r' /\ reg_ok r' /\ forall k, view r' k = cleaned <$> view r k.
Proof.
  intros Hr. unfold clean_all.
  destruct (clean_buckets_ok (concat (tab (reg_tab r))) r) as (r' & -> & Htab & Hfree & Hobjs).
  { intros b Hb. destruct (rok_obj r Hr _ _ (bucket_name r b Hr Hb)) as (? & o & -> & _). by split. }
  assert (Hn : names r' = names r) by (unfold names; by rewrite Htab).
  assert (Hnamed : forall k a, names r !! k = Some a -> objs r' !! a = cleaned <$> objs r !! a).
  { intros k a (b & Hb & _ & <-)%to_map_elem; [| apply Hr]. rewrite Hobjs, decide_True; [done |].
    apply list_elem_of_fmap. by exists b. }
  exists r'. split; [done |]. split.
  - constructor; rewrite ?Htab, ?Hn, ?Hfree; try apply Hr.
    + intros k a Hk. rewrite (Hnamed k a Hk). destruct (rok_obj r Hr k a Hk) as (? & o & -> & Ho).
      split; [done |]. exists (cleaned o). split; [done |]. unfold obj_ok in *.
      rewrite cleaned_type. exact Ho.
    + intros a Ha. destruct (rok_free r Hr a Ha) as (? & [o Ho] & ?). split; [done |].
      split; [| done]. rewrite Hobjs, Ho. by eexists.
  - intros k. unfold view. rewrite Hn. destruct (names r !! c_str k) as [a |] eqn:Hk; [| done].
    cbn. by apply Hnamed in Hk.
Qed.

(** ** The whole restore *)

Section Whole.
Context {S : Type} (fd : Z) (L : env S) {W : Works L} (T : talk) (HT : talk_ok T).
Context (ticks : nat) (sscanf_lf : list Z -> option Z) (sup : nat -> supply).

Lemma size_payload_ok p count maxkey maxobj :
  a_pid_ok p -> len (ext_pid p) <= 600 -> is_int64 count -> is_int64 maxkey -> is_int64 maxobj ->
  Forall is_byte (size_payload p count maxkey maxobj) /\ len (size_payload p count maxkey maxobj) <= 700.
Proof.
  intros [[Hp _] _] Hl H1 H2 H3. unfold size_payload. split.
  - apply app_bytes; [bytes_tac |]. apply app_bytes; [apply ext_headers_bytes |].
    apply app_bytes; [by apply ext_atom_bytes, utf8_of_latin1_byte; bytes_tac |].
    apply app_bytes; [apply ext_headers_bytes |].
    apply app_bytes; [by apply ext_atom_bytes, utf8_of_latin1_byte; bytes_tac |].
    apply app_bytes; [by apply ext_pid_bytes |]. auto using ext_longlong_bytes with bytes.
  - rewrite !len_app. pose proof (len_ext_longlong_max count H1).
    pose proof (len_ext_longlong_max maxkey H2). pose proof (len_ext_longlong_max maxobj H3).
    change (len ext_version) with 1. change (len (ext_tuple_header 2)) with 2.
    change (len (ext_tuple_header 5)) with 2. change (len (ext_atom_latin1 str_rex)) with 5.
    change (len (ext_atom_latin1 EI_MNESIA_SIZE)) with 6. lia.
Qed.

(** From the request for the records on. *)
Lemma restore_all_link {A} es sz r h msgbuf keybuf m ml s
    (k : bool * ei_reg * blocks * erlang_msg * Z -> proc A) G Q :
  calm fd L T s -> Forall entry_ok es -> Forall typed es -> NoDup (e_key <$> es) -> reg_ok r ->
  supply_ok sup 0 r h -> len es <= int_max -> EISMALLBUF <= len msgbuf -> sz <= len msgbuf -> sz <= 2000000000 ->
  Forall (fun e => len (record_payload e) <= sz /\ len (e_key e) < len keybuf) es ->
  (forall r' h' m' ml' s', restored es r h r' h' -> calm fd L T s' ->
    wp (link fd L) (k (true, r', h', m', ml')) (G, s') Q) ->
  wp (link fd L)
    (bindP (restore_all ticks sscanf_lf sup fd sz (len es) (t_self T) (pid_sent (t_mnesia T)) r h msgbuf keybuf m ml) k)
    (to_process T (concat (ask_parts EI_MNESIA_SEND (t_self T))) ++ sent_records T es ++ G, s) Q.
Proof.
  intros Hs Hes Hty Hnd Hr Hsup Hl Hbuf Hsz Hsz2 Hfit Hk. pose proof HT as (H1 & _ & _ & _ & H5 & _).
  unfold restore_all. set (bs := concat (ask_parts EI_MNESIA_SEND (t_self T))).
  assert (Hlbs : len bs <= 620).
  { unfold bs. cbn [ask_parts concat]. rewrite !len_app. change (len ext_version) with 1.
    change (len (ext_tuple_header 2)) with 2. change (len (ext_atom_latin1 EI_MNESIA_SEND)) with 14.
    cbn [length]. lia. }
  unfold EISMALLBUF in *. assert (Hfb : fits msgbuf 0 bs) by (split; lia).
  apply wp_assoc. eapply wp_lift_M.
  { rewrite send_records_request_all. apply (request_ok _ (ask_parts EI_MNESIA_SEND (t_self T)));
      fold bs; [| done | unfold int_max; lia].
    apply ask_encodes; [done | split; [bytes_tac | done] | done]. }
  fold bs. apply wp_assoc, (send_bytes fd L T HT); [done | done | lia |].
  change (negb (0 =? 0)) with false. cbv iota. rewrite Nat2Z.id.
  apply (records_link fd L T HT ticks sscanf_lf sup es sz 0); try done.
  by rewrite length_splice.
Qed.

Lemma restore_link left h m ml r mntab first ec s es maxkey maxobj :
  calm fd L T s -> node_of fd (get_vars s) = Some ec -> t_self T = self_pid ec fd ->
  reg_ok r -> a_name_ok mntab -> supply_ok sup 0 r h ->
  es <> [] -> Forall entry_ok es -> Forall typed es -> NoDup (e_key <$> es) -> len es <= int_max ->
  Forall (fun e => len (e_key e) + 1 <= maxkey /\ datum_size (e_val e) <= maxobj) es ->
  0 <= maxkey <= 1000000 -> 0 <= maxobj <= ERL_MAX ->
  wp (link fd L) (ei_reg_restore ticks sscanf_lf sup left h m ml fd (Some r) (Some mntab))
    (restore_script T mntab (len es) maxkey maxobj es first, s)
    (fun x s' => s'.1 = [] /\ exists r' h', x = (0, Some r', h') /\ reg_ok r' /\ h ⊆ h' /\
       (forall e, e ∈ es -> exists o, view r' (e_key e) = Some o /\ holds h' o (e_val e) /\
          attr o = datum_type (e_val e)) /\
       (forall k, c_str k ∉ (e_key <$> es) -> view r' k = cleaned <$> view r k)).
Proof.
  intros Hs Hec Hself Hr Ht Hsup Hne Hes Hty Hnd Hcount Hmax Hmk Hmo. change ERL_MAX with 134217727 in *.
  pose proof (proj1 HT) as Hp. rewrite Hself in Hp. pose proof HT as (_ & H2 & _ & _ & H5 & H6).
  assert (Hi : is_int64 (len es)) by (unfold is_int64, int_max in *; lia).
  destruct (size_payload_ok (t_mnesia T) (len es) maxkey maxobj H2 H6 Hi) as [Hsb Hsl];
    [unfold is_int64; lia.. |].
  unfold ei_reg_restore, restore_script. apply (fd_to_cnode_link fd L).
  rewrite Hec, (short_self fd ec Hp), <- Hself. unfold mn_start_restore.
  apply (start_call_link fd L T HT) with (v := (pid_sent (t_mnesia T), (len es, maxkey, maxobj)));
    [done | split; [bytes_tac | done] | done | done | done | done | unfold EISMALLBUF; lia | |].
  { intros buf Hat. apply rex_size_ok; try done; [lia | unfold is_int64; lia..]. }
  intros s1 Hs1. cbv iota. change (negb (0 =? 0)) with false. cbv iota.
  assert (1 <= len es) by (destruct es; [done | cbn [length]; lia]).
  rewrite (proj2 (Z.leb_gt (len es) 0)) by lia. unfold fits_long.
  rewrite !int64_small, !Z.eqb_refl by (unfold is_int64; lia). cbn [andb negb].
  rewrite int32_small by (unfold is_int32; lia).
  apply (message_buffer_link fd L); [unfold int_max; lia |]. intros blk Hblk. unfold restore_into.
  rewrite uint64_small by (unfold is_uint64; lia).
  apply (wp_plain (link fd L)); [cbn; lia |]. intros x s' [(kb & -> & Hkb & _) ->].
  unfold EISMALLBUF in Hblk. apply (restore_all_link es); try done; [unfold EISMALLBUF; lia | lia | lia | |].
  { apply list.Forall_forall. intros e He.
    pose proof (proj1 (list.Forall_forall _ _) Hmax e He) as [Hk1 Hk2].
    pose proof (record_room e (proj1 (list.Forall_forall _ _) Hes e He)). lia. }
  intros r1 h1 m1 ml1 s2 [Hok Hmore Hnew Hothers] Hs2. cbn [negb].
  rewrite <- (app_nil_r (signal T ERL_UNLINK)). apply (unlink_link fd L T HT); [done |].
  intros s3 Hs3. change (negb (0 =? 0)) with false. cbv iota.
  destruct (clean_all_ok r1 Hok) as (r2 & -> & Hr2 & Hv2). cbn.
  split; [done |]. exists r2, h1. split; [done |]. split; [done |]. split; [done |]. split.
  - intros e He. destruct (Hnew e He) as (o & Ho & Hh & Ha). exists (cleaned o).
    rewrite Hv2, Ho. split; [done |]. split; [by apply cleaned_holds |].
    unfold cleaned. cbn [attr]. rewrite Ha. by destruct (e_val e).
  - intros k Hk. by rewrite Hv2, Hothers.
Qed.
End Whole.
