(* ===== verification/BackupCorrect.v ===== *)
(** * Backup: the theorems

    [ei_reg_dump] sends what changed and comes to its end; what a table of Mnesia
    then has, [ei_reg_restore] makes a registry of that holds the same. *)

From stdpp Require Import gmap fin_maps.
From S2P Require Import Prelude Mem PutGet Ext Headers Ints Atom Data Ids Term XBuff Format FormatOk Proc Session PortIO Epmd Connect ConnectOk Message MessageOk Prime Hash HashOk Reg RegOk Backup Restore BackupOk DumpOk RestoreOk.

(** ** The table

    mnesia_registry.erl: [dump_loop] puts each operation in front of the others,
    [do_handle_ops] performs them from the last one on. A table has one record for a
    key. *)

Notation table := (gmap (list Z) entry).

Definition handle_op (tab : table) (o : op) : table :=
  match o with op_write e => <[e_key e := e]> tab | op_delete k => delete k tab end.
Definition handle_ops (ops : list op) (tab : table) : table := foldl handle_op tab (rev ops).

(** [calc_size]: the number of records, the largest key and the largest value. *)
Fixpoint calc_size (es : list entry) (n maxkey maxobj : Z) : Z * Z * Z :=
  match es with
  | [] => (n, maxkey, maxobj)
  | e :: es =>
      calc_size es (n + 1) (Z.max (len (e_key e) + 1) maxkey) (Z.max (datum_size (e_val e)) maxobj)
  end.

Lemma calc_size_ok es : forall n k v,
  exists k' v', calc_size es n k v = (n + len es, k', v') /\ k <= k' /\ v <= v' /\
    Forall (fun e => len (e_key e) + 1 <= k' /\ datum_size (e_val e) <= v') es /\
    (forall bk bv, k <= bk -> v <= bv ->
       Forall (fun e => len (e_key e) + 1 <= bk /\ datum_size (e_val e) <= bv) es -> k' <= bk /\ v' <= bv).
Proof.
  induction es as [| e es IH]; intros n k v; cbn [calc_size].
  - exists k, v. rewrite Z.add_0_r. split; [done |]. split; [lia |]. split; [lia |]. split; [constructor |]. done.
  - destruct (IH (n + 1) (Z.max (len (e_key e) + 1) k) (Z.max (datum_size (e_val e)) v))
      as (k' & v' & -> & Hk & Hv & Hes & Hb).
    exists k', v'. split; [f_equal; f_equal; rewrite len_cons; lia |]. split; [lia |]. split; [lia |].
    split; [constructor; [lia | done] |]. intros bk bv Hbk Hbv He. inversion He; subst. apply Hb; [lia | lia | done].
Qed.

Definition op_key (o : op) : list Z := match o with op_write e => e_key e | op_delete k => k end.

Lemma foldl_ops l k e : NoDup (op_key <$> l) ->
  foldl handle_op (∅ : table) l !! k = Some e <-> op_write e ∈ l /\ e_key e = k.
Proof.
  induction l as [| o l IH] using rev_ind; intros Hnd.
  - cbn. rewrite lookup_empty. split; [done |]. by intros [He%elem_of_nil _].
  - rewrite fmap_app, list.NoDup_app in Hnd. destruct Hnd as (Hnd & Hd & _).
    specialize (IH Hnd). rewrite foldl_app. cbn [foldl]. rewrite elem_of_app, list_elem_of_singleton.
    assert (Hk : forall e', op_write e' ∈ l -> e_key e' <> op_key o).
    { intros e' He' Heq. apply (Hd (op_key o)); [| cbn; by left].
      apply list_elem_of_fmap. by exists (op_write e'). }
    destruct o as [e0 | k0]; cbn [handle_op op_key] in *.
    + destruct (decide (k = e_key e0)) as [-> | Hne].
      * rewrite lookup_insert_eq. split; [intros [= ->]; auto |].
        intros [[Hl | [= ->]] He]; [by apply Hk in Hl | done].
      * rewrite lookup_insert_ne, IH by done. split; [by intros []; auto |].
        intros [[Hl | [= ->]] He]; [done | congruence].
    + destruct (decide (k = k0)) as [-> | Hne].
      * rewrite lookup_delete_eq. split; [done |]. intros [[Hl | Hl] He]; [| done]. by apply Hk in Hl.
      * rewrite lookup_delete_ne, IH by done. split; [by intros []; auto |].
        intros [[Hl | Hl] He]; [done | done].
Qed.

Lemma handle_ops_ok ops k e : NoDup (op_key <$> ops) ->
  handle_ops ops ∅ !! k = Some e <-> op_write e ∈ ops /\ e_key e = k.
Proof.
  intros Hnd. unfold handle_ops. rewrite foldl_ops.
  - by rewrite list_elem_of_In, <- in_rev, <- list_elem_of_In.
  - rewrite <- (Permutation_rev ops). done.
Qed.

(** The operations of a forced dump. *)
Lemma forced_op h r b o : objs r !! value b = Some o ->
  bucket_op h EI_FORCE r b = if deleted o then [op_delete (key b)]
    else match datum_of h o with Some d => [op_write (Entry (key b) (attr o) d)] | None => [] end.
Proof. intros Ho. unfold bucket_op. by rewrite Ho. Qed.

Lemma bind_keys h flags r bs : NoDup (key <$> bs) -> NoDup (op_key <$> (bs ≫= bucket_op h flags r)).
Proof.
  assert (Hone : forall b, op_key <$> bucket_op h flags r b = [] \/ op_key <$> bucket_op h flags r b = [key b])
    by (intros b; unfold bucket_op; repeat case_match; auto).
  assert (Hin : forall bs k, k ∈ op_key <$> (bs ≫= bucket_op h flags r) -> k ∈ key <$> bs).
  { intros bs0 k. rewrite list_elem_of_fmap. intros (o & -> & Ho).
    apply list_elem_of_bind in Ho as (b & Ho & Hb).
    assert (Hk : op_key o ∈ op_key <$> bucket_op h flags r b) by (apply list_elem_of_fmap; by exists o).
    destruct (Hone b) as [E | E]; rewrite E in Hk; [by apply elem_of_nil in Hk |].
    apply list_elem_of_singleton in Hk as ->. apply list_elem_of_fmap. by exists b. }
  induction bs as [| b bs IH]; intros Hnd; [constructor |].
  rewrite fmap_cons in Hnd. apply list.NoDup_cons in Hnd as [Hb Hnd]. cbn [mbind list_bind].
  rewrite fmap_app. destruct (Hone b) as [-> | ->]; [by apply IH |].
  apply list.NoDup_cons. split; [| by apply IH]. intros Hk. by apply Hb, Hin.
Qed.

Lemma dumped h r k e : reg_ok r -> all_hold h r ->
  handle_ops (ops_of h EI_FORCE r) ∅ !! c_str k = Some e <->
  exists o d, live r k = Some o /\ holds h o d /\ datum_ok d /\ e = Entry (c_str k) (attr o) d.
Proof.
  intros Hr [Hall _]. pose proof (rok_hash r Hr) as Ht.
  rewrite handle_ops_ok by (apply bind_keys, Ht). unfold ops_of.
  rewrite list_elem_of_bind. split.
  - intros [(b & Hop & Hb) Hk].
    destruct (proj1 (list.Forall_forall _ _) Hall b Hb) as (_ & o & Ho & Hh).
    rewrite (forced_op h r b o Ho) in Hop. destruct (deleted o) eqn:Hd.
    { by apply list_elem_of_singleton in Hop. }
    destruct (Hh eq_refl) as (d & Hd1 & Hd2). pose proof Hd1 as (Hdo & _). rewrite Hdo in Hop.
    apply list_elem_of_singleton in Hop. injection Hop as ->. cbn [e_key] in Hk.
    exists o, d. unfold live, view. rewrite <- Hk, (bucket_name r b Hr Hb). cbn. by rewrite Ho, Hd.
  - intros (o & d & Hl & (Hdo & _) & _ & ->). split; [| done]. unfold live, view in Hl.
    destruct (names r !! c_str k) as [a |] eqn:Hn; [| done]. cbn in Hl.
    apply (to_map_elem _ _ _ Ht) in Hn as (b & Hb & Hkb & Hv). exists b. split; [| done].
    destruct (objs r !! a) as [o' |] eqn:Ho; [| done]. destruct (deleted o') eqn:Hd; [done |].
    injection Hl as ->. rewrite <- Hv in Ho. rewrite (forced_op h r b o Ho), Hd, Hdo, Hkb.
    by left.
Qed.

Lemma holds_typed h o d : datum_of h o = Some d -> Z.land (attr o) EI_REG_TYPEMASK = datum_type d.
Proof.
  unfold datum_of, ei_reg_typeof.
  destruct (Z.eqb_spec (Z.land (attr o) EI_REG_TYPEMASK) EI_INT); [by destruct (get_i _); intros [= <-] |].
  destruct (Z.eqb_spec (Z.land (attr o) EI_REG_TYPEMASK) EI_FLT); [by destruct (get_f _); intros [= <-] |].
  destruct (Z.eqb_spec (Z.land (attr o) EI_REG_TYPEMASK) EI_STR).
  { destruct (0 <? obj_size o); [| by intros [= <-]]. destruct (get_s _) as [p |]; [| done]. cbn [mbind option_bind].
    destruct (h !! p); [| done]. by intros [= <-]. }
  destruct (Z.eqb_spec (Z.land (attr o) EI_REG_TYPEMASK) EI_BIN); [| done].
  destruct (0 <? obj_size o); [| by destruct (get_p _); intros [= <-]].
  destruct (get_p _) as [p |]; [| done]. cbn [mbind option_bind]. destruct (h !! p); [| done].
  cbn [mbind option_bind]. destruct (_ <=? _); [| done]. by intros [= <-].
Qed.

(** What the table has: the live objects, each once. *)
Lemma table_entries h r es : reg_ok r -> all_hold h r ->
  es ≡ₚ (snd <$> map_to_list (handle_ops (ops_of h EI_FORCE r) ∅)) ->
  NoDup (e_key <$> es) /\ Forall entry_ok es /\ Forall typed es /\
  (forall e, e ∈ es -> c_str (e_key e) = e_key e /\
     exists o, live r (e_key e) = Some o /\ holds h o (e_val e)) /\
  (forall k o, live r k = Some o -> exists d, holds h o d /\ Entry (c_str k) (attr o) d ∈ es).
Proof.
  intros Hr Hh Hp. set (tab := handle_ops (ops_of h EI_FORCE r) ∅) in *.
  assert (Htab : forall k e, tab !! k = Some e -> e_key e = k /\ c_str k = k /\ key_ok k).
  { intros k e He. unfold tab in He. apply handle_ops_ok in He as [Hin Hk]; [| apply bind_keys, Hr].
    split; [done |]. unfold ops_of in Hin. apply list_elem_of_bind in Hin as (b & Hop & Hb).
    destruct (proj1 (list.Forall_forall _ _) (proj1 Hh) b Hb) as (Hkey & o & Ho & _).
    rewrite (forced_op h r b o Ho) in Hop. destruct (deleted o); [by apply list_elem_of_singleton in Hop |].
    destruct (datum_of h o); [| by apply elem_of_nil in Hop].
    apply list_elem_of_singleton in Hop. injection Hop as ->. cbn in Hk. subst k.
    split; [apply Hkey | done]. }
  assert (Hes : forall e, e ∈ es <-> exists k, tab !! k = Some e).
  { intros e. rewrite Hp, list_elem_of_fmap. split.
    - intros ([k e'] & -> & Hke%elem_of_map_to_list). by exists k.
    - intros [k Hk%elem_of_map_to_list]. by exists (k, e). }
  assert (Hall : forall e, e ∈ es -> key_ok (e_key e) /\ exists o, live r (e_key e) = Some o /\
      holds h o (e_val e) /\ datum_ok (e_val e) /\ e_attr e = attr o).
  { intros e [k Hk]%Hes. destruct (Htab k e Hk) as (Hek & Hck & Hkey). rewrite Hek. split; [done |].
    rewrite <- Hck in Hk. apply dumped in Hk as (o & d & Hl & Hd & Hok & ->); [| done..].
    by exists o. }
  split; [| split; [| split; [| split]]].
  - rewrite Hp, <- list_fmap_compose.
    assert (Heq : (e_key ∘ snd) <$> map_to_list tab = (fst <$> map_to_list tab)).
    { apply list_fmap_ext. intros i [k e] Hi. cbn.
      by apply Htab, elem_of_map_to_list, (list_elem_of_lookup_2 _ i). }
    rewrite Heq. apply NoDup_fst_map_to_list.
  - apply list.Forall_forall. intros e He. destruct (Hall e He) as (Hk & o & _ & (_ & _ & Ha) & Hd & Hat).
    split; [done |]. by rewrite Hat.
  - apply list.Forall_forall. intros e He. destruct (Hall e He) as (_ & o & _ & (Hd & _) & _ & Hat).
    unfold typed. rewrite Hat. by eapply holds_typed.
  - intros e He. destruct (Hall e He) as ((_ & Hk & _) & o & Hl & Hd & _). split; [done |]. by exists o.
  - intros k o Hl.
    assert (Hd : exists d, holds h o d /\ datum_ok d).
    { unfold live, view in Hl. destruct (names r !! c_str k) as [a |] eqn:Hn; [| done]. cbn in Hl.
      apply (to_map_elem _ _ _ (rok_hash r Hr)) in Hn as (b & Hb & _ & <-).
      destruct (proj1 (list.Forall_forall _ _) (proj1 Hh) b Hb) as (_ & o' & Ho & Hd). rewrite Ho in Hl.
      destruct (deleted o'); [done |]. injection Hl as ->. by apply Hd. }
    destruct Hd as (d & Hd & Hok). exists d. split; [done |]. apply Hes. exists (c_str k).
    apply dumped; [done | done |]. by exists o, d.
Qed.

(** The value a name has for the getters. *)
Definition datum_at (h : blocks) (r : ei_reg) (k : list Z) : option datum :=
  o ← live r k; datum_of h o.

(** C13: [ei_reg_dump], over a connection to a node that starts the process and
    answers, calls mnesia_registry:start_dump, sends the operation of every object
    that is dirty (of every object, if forced) and of no other, a deletion or the
    value with its size and attributes, in messages that fit their buffers, commits,
    and comes to its end with 0 and no byte unread; then it has purged the deleted
    objects, or touched nothing if told not to. That is for a registry whose keys
    and strings have at most 65535 bytes, whose floats are finite and whose binaries
    have 1 to 2^27 - 1 bytes, with attributes of one byte and the sizes as stored
    ([all_hold]); for a table name and cookies of at most 255 bytes and pids that
    take at most 600 bytes; with tracing off, and as long as no call of the system
    fails or times out. *)
Theorem dump_sends_changes {S} (L : env S) {W : Works L} fd T ticks h m ml r mntab flags first ec s :
  talk_ok T -> calm fd L T s -> node_of fd (get_vars s) = Some ec -> t_self T = self_pid ec fd ->
  reg_ok r -> all_hold h r -> a_name_ok mntab ->
  wp (link fd L) (ei_reg_dump ticks h m ml fd (Some r) (Some mntab) flags)
    (dump_script T mntab (ops_of h flags r) first, s)
    (fun x s' => s'.1 = [] /\ x.1 = 0 /\ exists r', x.2 = Some r' /\ reg_ok r' /\
       forall k, view r' k = if Z.land flags EI_NOPURGE =? 0 then live r k else view r k).
Proof. intros. by eapply dump_link. Qed.

(** C14: what a forced dump puts into an empty table, in whatever order the records
    come back, [ei_reg_restore] makes an empty registry of that holds the same: it
    returns 0 with no byte unread, and every name has the value it had, strings and
    binaries with their contents, or none. That is for a registry that has at least
    one object and at most INT_MAX, with keys and strings of at most 65535 bytes,
    finite floats, binaries of 1 to 2^27 - 1 bytes, attributes of one byte and the
    sizes as stored ([all_hold]); with memory for the object and the contents of
    every record ([supply_ok]); for a table name and cookies of at most 255 bytes
    and pids that take at most 600 bytes; with tracing off, and as long as no call
    of the system fails or times out. *)
Theorem backup_round_trip {S} (L : env S) {W : Works L} fd T ticks sscanf_lf sup left h h0 m ml
    r r0 mntab first ec s es :
  talk_ok T -> calm fd L T s -> node_of fd (get_vars s) = Some ec -> t_self T = self_pid ec fd ->
  a_name_ok mntab -> reg_ok r -> all_hold h r ->
  es ≡ₚ (snd <$> map_to_list (handle_ops (ops_of h EI_FORCE r) ∅)) -> es <> [] -> len es <= int_max ->
  reg_ok r0 -> (forall k, view r0 k = None) -> supply_ok sup 0 r0 h0 ->
  let '(n, maxkey, maxobj) := calc_size es 0 0 0 in
  wp (link fd L) (ei_reg_restore ticks sscanf_lf sup left h0 m ml fd (Some r0) (Some mntab))
    (restore_script T mntab n maxkey maxobj es first, s)
    (fun x s' => s'.1 = [] /\ exists r' h', x = (0, Some r', h') /\ reg_ok r' /\
       forall k, datum_at h' r' k = datum_at h r k).
Proof.
  intros HT Hs Hec Hself Ht Hr Hh Hp Hne Hl Hr0 Hempty Hsup.
  destruct (table_entries h r es Hr Hh Hp) as (Hnd & Hok & Hty & Hin & Hlive).
  destruct (calc_size_ok es 0 0 0) as (mk & mo & -> & Hmk & Hmo & Hmax & Hb). rewrite Z.add_0_l.
  destruct (Hb 65536 ERL_MAX) as [Hmk2 Hmo2]; [lia | done | |].
  { apply list.Forall_forall. intros e He.
    destruct (proj1 (list.Forall_forall _ _) Hok e He) as ((_ & _ & Hk) & _ & Hd).
    pose proof (datum_size_ok _ Hd). lia. }
  eapply wp_mono; [apply (restore_link fd L T HT) with (ec := ec); try done; lia |].
  intros x s' (Hg & r' & h' & -> & Hr' & _ & Hnew & Hold). split; [done |]. exists r', h'.
  split; [done |]. split; [done |]. intros k. unfold datum_at. destruct (live r k) as [o |] eqn:Hk; cbn.
  - destruct (Hlive k o Hk) as (d & (Hd & _) & He). destruct (Hnew _ He) as (o' & Hv & (Hd' & _) & Ha).
    cbn [e_key e_val] in *. rewrite (view_ext r' _ k) in Hv by apply c_str_idem.
    unfold live. rewrite Hv. assert (deleted o' = false) as ->.
    { unfold deleted. rewrite Ha. by destruct d. }
    cbn. by rewrite Hd, Hd'.
  - assert (Hnot : c_str k ∉ (e_key <$> es)).
    { intros (e & He & Hee)%list_elem_of_fmap. destruct (Hin e Hee) as (_ & o & Ho & _).
      rewrite <- He in Ho. unfold live in Ho, Hk. rewrite (view_ext r _ k) in Ho by apply c_str_idem.
      by rewrite Hk in Ho. }
    unfold live. by rewrite (Hold k Hnot), Hempty.
Qed.

(** ** Findings *)

(** An atom of 64 characters where [rex] is expected does not fit [tmpbuf]; in front of
    a record, one of 32 characters does not fit [tag]. *)
Theorem long_tag_is_undefined :
  rex_pid (tagged_pid (replicate 64 97) no_pid) = None /\
  record_head (ext_version ++ ext_tuple_header 6 ++ ext_atom_latin1 (replicate 32 97)) = None.
Proof. split; vm_compute; reflexivity. Qed.

(** The sizes of the records are believed: a key that is longer than the greatest one
    announced is stored behind [keybuf]. *)
Theorem long_key_is_undefined maxkey k : 0 <= maxkey -> Forall is_byte k -> len k <= 65535 ->
  maxkey < len k -> forall keybuf, len keybuf = maxkey + 1 -> decode_string_into keybuf 0 (ext_string k) = None.
Proof.
  intros Hm Hb Hl Hk keybuf Hkb. unfold decode_string_into.
  erewrite bindD_Some by (apply (string_stored_ok k); try done; split; [done |]; by exists [], []; rewrite app_nil_r).
  by rewrite (proj2 (Z.ltb_lt _ _)) by lia.
Qed.

Definition reg_empty : ei_reg := Reg ∅ (Hash (replicate 3 []) ei_dohash 3 0 0 []) [] [].

(** What a setter returns is not looked at: without a bucket the record is taken, and its
    name still has no object. *)
Theorem restore_loses_record :
  match insert_value (fun _ => None) (Supply (Some 8) false 16) reg_empty ∅ (ext_longlong 42) 0 0 EI_INT [97; 0]
  with Ret (c, r, _) => c = 0 /\ view r [97] = None | _ => False end.
Proof. vm_compute. by split. Qed.

(** ** Witnesses *)

Lemma reg_empty_ok : reg_ok reg_empty /\ forall k, view reg_empty k = None.
Proof.
  assert (Hn : forall k, names reg_empty !! k = None) by done.
  split; [constructor |].
  - apply (empty_ok ei_dohash 3); [lia |]. intros k. pose proof (dohash_ok k). lia.
  - intros k a Hk. by rewrite Hn in Hk.
  - intros k1 k2 a Hk. by rewrite Hn in Hk.
  - intros a Ha. by apply elem_of_nil in Ha.
  - constructor.
  - intros k. unfold view. by rewrite Hn.
Qed.

(** The name [a] has the integer 42. *)
Definition reg_one : ei_reg :=
  match reg_set (Some 8) true EI_INT (val_i 42) 0 reg_empty [97] with Some (_, r) => r | None => reg_empty end.

Lemma reg_one_bucket : concat (tab (reg_tab reg_one)) = [Bucket 97 [97] true 8].
Proof. vm_compute. reflexivity. Qed.
Lemma reg_one_obj : objs reg_one !! 8 = Some (Obj 17 0 (val_i 42)).
Proof. vm_compute. reflexivity. Qed.

Lemma reg_one_ok : reg_ok reg_one /\ all_hold ∅ reg_one.
Proof.
  destruct (set_datum reg_empty [97] (d_int 42) 8 0 (proj1 reg_empty_ok)) as (r & Hset & Hin); [done | done |].
  cbn [datum_type datum_val datum_size] in Hset. split.
  - unfold reg_one. rewrite Hset. apply Hin.
  - split; [| by intros p b Hp]. rewrite reg_one_bucket. constructor; [| constructor].
    split; [split; [bytes_tac | split; [done | cbn; lia]] |].
    exists (Obj 17 0 (val_i 42)). split; [exact reg_one_obj |]. intros _. exists (d_int 42).
    split; [split; [reflexivity | split; [reflexivity | cbn; lia]] | unfold datum_ok, is_int64; lia].
Qed.

Definition back_node : ei_cnode := CNode [104] [97; 64; 104] [97] [107; 0] 0 (Pid [97; 64; 104] 0 0 0).
Definition back_talk : talk := Talk (self_pid back_node 4) (Pid [98; 64; 104] 12 0 1) [] [].
Definition back_start : machine :=
  Machine (Globals 0 [SockInfo 4 5 back_node []] 5 no_token 0 0 0 0) [].
Definition back_env : env machine := sys [] (fun _ => None) (fun _ => false).
Definition back_msg : erlang_msg := Msg 0 no_pid no_pid [] [] no_token.

Lemma back_talk_ok : talk_ok back_talk.
Proof.
  assert (Hs : a_pid_ok (t_self back_talk)) by (split; [split; [cbn; bytes_tac | reflexivity] | done]).
  assert (Hm : a_pid_ok (t_mnesia back_talk)) by (split; [split; [cbn; bytes_tac | reflexivity] | done]).
  assert (Hn : a_name_ok []) by (split; [constructor | done]).
  split; [exact Hs |]. split; [exact Hm |]. split; [exact Hn |]. split; [exact Hn |].
  split; vm_compute; discriminate.
Qed.

Lemma back_tab_ok : a_name_ok [116].
Proof. split; [bytes_tac | done]. Qed.

Lemma dump_sends_changes_witness :
  talk_ok back_talk /\ all_hold ∅ reg_one /\
  wp (link 4 back_env) (ei_reg_dump 0 ∅ back_msg 0 4 (Some reg_one) (Some [116]) 0)
    (dump_script back_talk [116] (ops_of ∅ 0 reg_one) true, back_start)
    (fun x s' => s'.1 = [] /\ x.1 = 0 /\ exists r', x.2 = Some r' /\ reg_ok r' /\
       forall k, view r' k = live reg_one k).
Proof.
  destruct reg_one_ok as [Hr Hh]. split; [exact back_talk_ok |]. split; [exact Hh |].
  exact (dump_sends_changes back_env 4 back_talk 0 ∅ back_msg 0 reg_one [116] 0 true back_node back_start
    back_talk_ok (conj eq_refl eq_refl) eq_refl eq_refl Hr Hh back_tab_ok).
Defined.

Definition back_supply (i : nat) : supply := Supply (Some (8 + 16 * Z.of_nat i)) true (16 + 16 * Z.of_nat i).

Lemma back_supply_ok : supply_ok back_supply 0 reg_empty ∅.
Proof.
  intros j _. eexists _, _. split; [reflexivity |]. split; [lia |]. split; [done |]. split; [lia |].
  split; [done |]. intros j' a' p' _ Hne [= <- <-]. lia.
Qed.

Lemma backup_round_trip_witness :
  reg_ok reg_one /\ supply_ok back_supply 0 reg_empty ∅ /\
  wp (link 4 back_env)
    (ei_reg_restore 0 (fun _ => None) back_supply no_pid ∅ back_msg 0 4 (Some reg_empty) (Some [116]))
    (restore_script back_talk [116] 1 2 0 [Entry [97] 17 (d_int 42)] false, back_start)
    (fun x s' => s'.1 = [] /\ exists r' h', x = (0, Some r', h') /\ reg_ok r' /\
       forall k, datum_at h' r' k = datum_at ∅ reg_one k).
Proof.
  destruct reg_one_ok as [Hr Hh]. destruct reg_empty_ok as [Hr0 Hv0].
  split; [exact Hr |]. split; [exact back_supply_ok |].
  exact (backup_round_trip back_env 4 back_talk 0 (fun _ => None) back_supply no_pid ∅ ∅ back_msg 0
    reg_one reg_empty [116] false back_node back_start [Entry [97] 17 (d_int 42)]
    back_talk_ok (conj eq_refl eq_refl) eq_refl eq_refl back_tab_ok Hr Hh
    ltac:(vm_compute; reflexivity) ltac:(done) ltac:(done) Hr0 Hv0 back_supply_ok).
Defined.
